(* ===== verification/_CoqProject ===== *)
-Q . S2P
Prelude.v
Utf8.v
JsonRewrite.v
JsonRewriteSpec.v
JsonRewriteDoc.v
JsonStringRoundtrip.v
JsonRequestSpec.v
SseRewrite.v
SseRewriteSpec.v
EventHub.v
EventHubSpec.v
Coalescer.v
CoalescerSpec.v
Approvals.v
ApprovalsSpec.v
Text.v
Queue.v
QueueSpec.v
Hierarchy.v
HierarchyTrees.v
HierarchyForest.v
HierarchyReading.v
HierarchySpec.v
SessionHistory.v
SessionHistorySpec.v
Lanes.v
LanesSpec.v
RelayFrames.v
RelayFramesSpec.v
RelayChannel.v
RelayChannelSpec.v
RelayDelivery.v
Supervisor.v
SupervisorSpec.v
Scheduler.v
SchedulerSpec.v
Turns.v
TurnsNormal.v
TurnsMerge.v
TurnsSpec.v
StateReducer.v
StateReducerSpec.v
SessionStream.v
SessionStreamSpec.v
Aggregator.v
AggregatorSpec.v
BrowserStream.v
BrowserStreamSpec.v
AggregatorRecovery.v
SessionReplication.v
SessionExamples.v
AgentGraphs.v
AgentGraphsSpec.v
Agents.v
AgentsSpec.v
AgentRuns.v
AgentRunsSpec.v
Authorization.v
AuthorizationSpec.v
AccessStore.v
Credentials.v
UserService.v
AccessLogic.v
AccessInvariant.v
UserServiceRefine.v
LoginLimiter.v
LoginLimiterSpec.v
UserSessions.v
UserSessionsRefine.v
IdentityProviders.v
CliAuthorization.v
CliAuthorizationSpec.v
RuntimeAuth.v
AccessSystem.v
RuntimeAuthRefine.v
AccessServer.v
AccessServerRefine.v
AccessFacts.v
AccessSpec.v
