(* ===== verification/Prelude.v ===== *)
(** * TaskHandoff: a verification library for its core logic

    TaskHandoff runs AI coding sessions on machines a team controls.  A
    control plane (packages/control-plane) knows the users and what each may
    do; node agents (packages/node-agent) run instances on the machines and
    relay the sessions' model traffic; a controlled instance
    (packages/controlled-instance) hosts sessions with the AI session runtime
    (packages/ai-session-runtime).  This library models the parts that decide
    something - byte rewriters, event windows, queues and schedulers, frames and
    channels, hierarchies, and the whole of authentication and authorization -
    and proves what they promise.

    ** Files

    Each component has a file with its definitions, named as in the source,
    and files with its theorems ([...Spec]); helper theories lie between.

    - [Prelude]: JavaScript strings (lists of UTF-16 units), maps with
      insertion order, sets, stable sorting, the [result] of code that
      throws, and the automation of the library.

    - Model relay (node-agent/src/models/relay).  [Utf8]: bytes, UTF-8 and
      JSON string literals as Node has them.  [JsonRewrite]:
      json-model-rewrite.ts, the incremental scanner that exchanges model
      names in JSON.  [JsonRewriteSpec]: a machine without chunks, and the
      refinement that the chunked scanner implements it (C1, C2).
      [JsonRewriteDoc]: the rewriting as a function on JSON documents (C3).
      [JsonStringRoundtrip]: what is encoded is decoded.
      [JsonRequestSpec]: the request body (C4).  [SseRewrite] and
      [SseRewriteSpec]: sse-model-rewrite.ts, server-sent events (C5).

    - Events (control-plane/proxy/event-hub.ts).  [EventHub], [EventHubSpec]:
      bounded history, replay and live delivery (C6, C7).

    - Deltas (controlled-instance/src/web/ai-session-message-delta-
      coalescer.ts).  [Coalescer], [CoalescerSpec]: batches per
      message, timers and shutdown (C8).

    - Approvals (control-plane/approvals/operation-approvals.ts).
      [Approvals], [ApprovalsSpec]: privileged operations approved once by
      another administrator (C9).

    - Message queue (ai-session-runtime/src/ai-session/queue-service.ts with
      persistence.ts).  [Text], [Queue], [QueueSpec] (C10).

    - Access (control-plane/auth).  [Authorization], [AuthorizationSpec]:
      permissions, scopes and system roles.  [AccessStore]: the
      tables and their constraints.  [Credentials]: passwords and tokens.
      [UserService]: users, roles, grants.  [LoginLimiter],
      [LoginLimiterSpec]: the throttle of sign-ins (C11).
      [UserSessions]: sign-in and sessions.  [IdentityProviders]: external
      sign-in.  [CliAuthorization], [CliAuthorizationSpec]: the command line's
      browser and device flows (C12).  [RuntimeAuth]: runtime-service.ts,
      the facade of all of them in both authentication modes, and the
      registry of connections bound to an authorization.

      [AccessInvariant] is the specification: the changes the services may
      make to the database ([access_change]) and the invariant they keep.
      [AccessLogic] takes runs of the services apart; [UserServiceRefine],
      [UserSessionsRefine], [AccessSystem] and [RuntimeAuthRefine]
      show that each operation makes only such changes.
      [AccessServer] puts all requests on one state, with restarts, as a step
      relation; [AccessServerRefine], [AccessFacts] and
      [AccessSpec] draw the conclusions (C13-C20): an administrator remains,
      every request refines the specification, the database stays well
      formed, revisions determine access, what resolving a token answers,
      passwords keep working, failures change nothing, and the guards of
      external sign-in.

    - Hierarchy (protocol/src/ai-session-hierarchy.ts).  [Hierarchy]: the
      forest of sessions and everything that reads it.  [HierarchyTrees]:
      forests of numbers and cycles of links.
      [HierarchyForest], [HierarchyReading]: what each loop computes.  [HierarchySpec]: everything
      ends (C21), sessions hang below the parents they name (C22), retention
      takes whole idle trees (C23).

    - Lanes (controlled-instance/src/repository/mutation-queue.ts and
      node-agent/src/instances/instance-operation-gate.ts).  [Lanes]: the
      chain of promises behind both, as steps between the points where an
      operation awaits.  [LanesSpec]: operations that share a lane never
      overlap and are served in order (C24), and none waits forever (C25).

    - Cloud relay (cloud-contracts/src/relay-frame.ts, protocol/src/
      node-relay-channel.ts and relay-body.ts, runtime-shared/src/cloud-relay/
      node-relay-session.ts).  [RelayFrames], [RelayFramesSpec]: the four
      binary formats and their round trips (C26).  [RelayChannel]: the
      encrypted channel to a node with its queues, limits, retries and
      reassembly.  [RelayChannelSpec]: its invariant (C27).  [RelayDelivery]:
      a sender and its peer - what is delivered is what was sent (C28).

    - Supervised connections (runtime-shared/src/transport/websocket-
      connection-supervisor.ts).  [Supervisor], [SupervisorSpec]: the
      deadlines of connecting, shaking hands and heartbeats (C29).

    - Scheduled jobs (core/src/core/scheduler-runtime.ts).  [Scheduler],
      [SchedulerSpec]: no event is lost or left waiting (C30), and the times
      of interval schedules.

    - Sessions (ai-session-runtime/src/ai-session-turns.ts, ai-session/
      state-reducer.ts).  [Turns]: the turns of a session, their normal form,
      identities, and how reports are merged and updates made.
      [TurnsNormal], [TurnsMerge], [TurnsSpec]: an update loses no turn and
      takes back nothing a turn shows (C31).  [StateReducer]: what an event of
      a provider or a snapshot makes of a session.  [StateReducerSpec]: what
      every sequence of reports keeps (C32), and how a pending turn is
      protected.

    - Session streams: the summaries of an instance's sessions on their way to
      a browser.  [SessionStream]: the stream part of protocol/src/
      ai-sessions.ts, what an instance publishes (controlled-instance/src/web/
      server.ts, ai-session-authority-events.ts) and what a node agent replays
      (node-agent/src/events.ts).  [SessionStreamSpec]: what it means that a
      copy shows what was published.  [Aggregator]: the control plane's copies
      and their recovery (control-plane/sessions/ai-session-aggregator.ts).
      [BrowserStream]: the browser's (control-plane-ui/src/apps/control-plane/
      sessionStreamRecovery.ts, useAiSessionStore.ts).  [AggregatorSpec],
      [BrowserStreamSpec]: each operation keeps true copies true.
      [SessionReplication] composes all of them with a network that delivers
      what was sent at any time, any number of times or never: a copy at a
      revision shows what was published at that revision (C33), and a delta
      catches up (C34).  [AggregatorRecovery]: a recovery that is answered ends
      with the advertised revision (C35).  [SessionExamples] runs them.

    - Agents (node-agent/src/agents).  [AgentGraphs]: the graphs of
      protocol/src/agent-orchestrations.ts, their normal form and the search
      for a cycle; [AgentGraphsSpec]: it ends and decides (C36).  [Agents]:
      service.ts and orchestration-service.ts over the rows of persistence/
      agent-repository.ts and agent-orchestration-repository.ts, with their
      schemas; [AgentsSpec]: what the two tables keep (C37).  [AgentRuns]:
      protocol/src/agent-runs.ts, persistence/agent-run-repository.ts and
      run-service.ts over the same agents; [AgentRunsSpec]: the changes a run
      may undergo, that every request makes only those, and what follows for
      the shape and the growth of runs (C38, C39) and for a request that is
      repeated (C40).

    ** How the code is modelled

    - A class is a record of its fields and its methods are functions on it;
      methods that throw return a [result], services over the database run in
      a state and error monad ([AccessStore]), generators are the list of
      what they yield with the error they end in, and subscribers, timers and
      interleaved requests are steps of a relation.
    - Code that awaits is cut where it awaits: a promise is a number or the
      event that it has settled, and a schedule is any sequence of the steps
      between.  A socket is its calls and the answers it gives to them;
      timers have numbers and deadlines on one clock and fire when they are
      due or later.
    - Clocks, drawn identifiers, salts and secrets are arguments.  Freshness
      of drawn identifiers is a condition on the requests of a step, never a
      property of a function.  ISO timestamps the code itself writes are
      milliseconds; the hierarchy, which reads timestamps of others, takes
      [Date.parse] as a parameter.
    - Inputs are what their request schemas return; the schemas that guard
      stored records are part of the model.
    - The tables are finite maps by primary key: the code reads rows by key,
      by a unique index or for existence, so the order of a query does not
      matter.  Transactions restore the tables on a throw.  A request is
      atomic: the database is synchronous, and where a request waits (for
      scrypt, for the network) the model says what may happen in between
      ([LoginLimiterSpec], the callback of [IdentityProviders]).
    - Parameters stand for what is not the repository's: scrypt, SHA-256,
      base64url, URL parsing, locale mappings and orders, encryption, the
      identity providers' answers.  Theorems that rely on one of their
      documented properties name it as a hypothesis and have an instance.
    - A request of the node agent's services on agents is a sequence of
      transactions: when it throws, the ones before the throw stay.  What the
      coordinator of runs does later, it does through the same transitions, so
      its changes are requests of the model and may come in any order.
    - The statements about session streams assume that the clock of the
      control plane does not go back and that the sessions of one state have
      different identifiers; recoveries are cut where they await.
    - Loops over data are structural.  Fuel occurs where the source follows
      references: 2 n + 1 steps for a hierarchy of n sessions in [Hierarchy],
      n + 1 for the search for a cycle among n agents in [AgentGraphs]; both
      are proved to be enough for every input.

    ** Not modelled

    HTTP routing, sockets, processes, containers, files, git and the user
    interfaces, in which the source mostly calls libraries and the operating
    system; the PostgreSQL implementation of the repository and migrations;
    OIDC discovery and signature checks, which a library does and which are
    parameters of the sign-in flow; the handshake of the cloud relay, which is
    calls to WebCrypto (the sealing of a message is a parameter of the channel);
    the times of daily, weekly and monthly schedules, which a cron library and
    the time zone database give; lists that are only displayed; the Rust
    controlled instance.

    Of the parts with logic of their own: the coordinator that runs the
    members of agent runs, because what it decides it reads from the modelled
    scheduler and writes through the modelled transitions, and the rest of it
    is containers, shared folders and sessions on other machines; the
    lifecycle of instances on their runtimes, whose states follow what
    processes and containers report; stories and their retention; the tunnels
    and proxies between control plane and nodes; the control plane's copies of
    app sessions, which repeat [Aggregator] over another payload; and the
    services for models, triggers, catalogs and git credentials, which keep
    records without effect on the modelled state. *)

From stdpp Require Export prelude strings gmap.
From Stdlib Require Export ZArith Lia Sorted.
From Stdlib Require Ascii String.

#[export] Set Default Goal Selector "!".
#[export] Set Warnings "-clear-no-such-hyp".

Declare Scope js_scope.
Delimit Scope js_scope with js.

(** ** Automation *)

(** The rewriting and resolution lemmas of the shared data structures. *)
Create HintDb jsdb.
Create Rewrite HintDb jsrw.

(** Case analysis on every [match] of the goal or of a hypothesis, with the
    contradictory branches closed as they appear. *)
Ltac split_cases :=
  repeat (case_match; simplify_eq/=; try done).

(** Turn the boolean tests of the code into propositions. *)
Ltac propify :=
  repeat match goal with
  | H : _ && _ = true |- _ => apply andb_true_iff in H as [? ?]
  | H : _ || _ = false |- _ => apply orb_false_iff in H as [? ?]
  | H : negb _ = true |- _ => apply negb_true_iff in H
  | H : negb _ = false |- _ => apply negb_false_iff in H
  | H : bool_decide _ = true |- _ => apply bool_decide_eq_true in H
  | H : bool_decide _ = false |- _ => apply bool_decide_eq_false in H
  | H : (_ <? _)%Z = true |- _ => apply Z.ltb_lt in H
  | H : (_ <? _)%Z = false |- _ => apply Z.ltb_ge in H
  | H : (_ <=? _)%Z = true |- _ => apply Z.leb_le in H
  | H : (_ <=? _)%Z = false |- _ => apply Z.leb_gt in H
  | H : (_ =? _)%Z = true |- _ => apply Z.eqb_eq in H
  | H : (_ =? _)%Z = false |- _ => apply Z.eqb_neq in H
  | H : (_ <? _)%N = true |- _ => apply N.ltb_lt in H
  | H : (_ <? _)%N = false |- _ => apply N.ltb_ge in H
  | H : (_ <=? _)%N = true |- _ => apply N.leb_le in H
  | H : (_ <=? _)%N = false |- _ => apply N.leb_gt in H
  | H : (_ =? _)%N = true |- _ => apply N.eqb_eq in H
  | H : (_ =? _)%N = false |- _ => apply N.eqb_neq in H
  | H : (_ <? _)%nat = true |- _ => apply Nat.ltb_lt in H
  | H : (_ <? _)%nat = false |- _ => apply Nat.ltb_ge in H
  | H : (_ <=? _)%nat = true |- _ => apply Nat.leb_le in H
  | H : (_ <=? _)%nat = false |- _ => apply Nat.leb_gt in H
  | H : (_ =? _)%nat = true |- _ => apply Nat.eqb_eq in H
  | H : (_ =? _)%nat = false |- _ => apply Nat.eqb_neq in H
  end.

(** Arithmetic with quotients and remainders by constants. *)
Ltac div_lia := zify; Z.to_euclidean_division_equations; lia.

(** ** JavaScript strings

    A JavaScript string is a sequence of UTF-16 code units; [length], [slice]
    and comparison work on code units, so it is a list of numbers here. *)
Abbreviation jsstring := (list N).

(** ASCII literals: [js "idle"]. *)
Definition js (s : string) : jsstring :=
  Ascii.N_of_ascii <$> String.list_ascii_of_string s.
Arguments js : simpl never.

(** The code units matched by [\s] in a regular expression, which are the
    ones [String.prototype.trim] removes. *)
Definition is_js_space (c : N) : bool :=
  (bool_decide (9 <= c <= 13)%N || (c =? 32)%N || (c =? 160)%N || (c =? 5760)%N
   || bool_decide (8192 <= c <= 8202)%N || (c =? 8232)%N || (c =? 8233)%N
   || (c =? 8239)%N || (c =? 8287)%N || (c =? 12288)%N || (c =? 65279)%N).

Fixpoint trim_start (s : jsstring) : jsstring :=
  match s with
  | [] => []
  | c :: s' => if is_js_space c then trim_start s' else s
  end.

Definition trim_end (s : jsstring) : jsstring := reverse (trim_start (reverse s)).

Definition trim (s : jsstring) : jsstring := trim_end (trim_start s).

(** [s.replace(/\s+/g, " ")]. *)
Fixpoint collapse_spaces_from (in_run : bool) (s : jsstring) : jsstring :=
  match s with
  | [] => []
  | c :: s' =>
      if is_js_space c
      then (if in_run then [] else [32%N]) ++ collapse_spaces_from true s'
      else c :: collapse_spaces_from false s'
  end.
Definition collapse_spaces : jsstring -> jsstring := collapse_spaces_from false.

(** Truthiness of a string, and of an optional string. *)
Definition truthy (s : jsstring) : bool :=
  match s with [] => false | _ => true end.
Definition otruthy (o : option jsstring) : bool :=
  match o with Some s => truthy s | None => false end.

(** [a || b] on optional strings: the empty string is falsy. *)
Definition oor (a b : option jsstring) : option jsstring :=
  if otruthy a then a else b.

(** The lexicographic order of code units: [<] on strings. *)
Fixpoint js_ltb (a b : jsstring) : bool :=
  match a, b with
  | _, [] => false
  | [], _ :: _ => true
  | x :: a', y :: b' => if (x =? y)%N then js_ltb a' b' else (x <? y)%N
  end.

Lemma trim_start_suffix s : exists p, s = p ++ trim_start s.
Proof.
  induction s as [|c s [p IH]]; simpl; [by exists []|].
  case_match; [|by exists []].
  exists (c :: p). simpl. by f_equal.
Qed.

Lemma trim_start_length s : length (trim_start s) <= length s.
Proof.
  destruct (trim_start_suffix s) as [p Hp].
  apply (f_equal length) in Hp. rewrite length_app in Hp. lia.
Qed.

Lemma trim_start_head s c s' : trim_start s = c :: s' -> is_js_space c = false.
Proof. induction s as [|d s IH]; simpl; [done|]. case_match; [done|]. naive_solver. Qed.

Lemma trim_start_idemp s : trim_start (trim_start s) = trim_start s.
Proof.
  destruct (trim_start s) as [|c s'] eqn:E; [done|].
  simpl. by rewrite (trim_start_head _ _ _ E).
Qed.

Lemma trim_end_prefix s : exists p, s = trim_end s ++ p.
Proof.
  unfold trim_end. destruct (trim_start_suffix (reverse s)) as [p Hp].
  exists (reverse p). rewrite <- reverse_app, <- Hp. by rewrite reverse_involutive.
Qed.

Lemma trim_start_app_head c s t :
  is_js_space c = false -> trim_start ((c :: s) ++ t) = (c :: s) ++ t.
Proof. simpl. by intros ->. Qed.

(** [trim] is idempotent. *)
Lemma trim_idemp s : trim (trim s) = trim s.
Proof.
  unfold trim.
  assert (trim_start (trim_end (trim_start s)) = trim_end (trim_start s)) as ->.
  { destruct (trim_end_prefix (trim_start s)) as [p Hp].
    destruct (trim_end (trim_start s)) as [|c t] eqn:E; [done|].
    simpl. simpl in Hp. by rewrite (trim_start_head _ _ _ Hp). }
  unfold trim_end. by rewrite reverse_involutive, trim_start_idemp.
Qed.

Lemma trim_length s : length (trim s) <= length s.
Proof.
  unfold trim, trim_end. rewrite length_reverse.
  pose proof (trim_start_length (reverse (trim_start s))) as H.
  rewrite length_reverse in H. pose proof (trim_start_length s). lia.
Qed.

(** ** JavaScript sets and maps

    A [Map] iterates in insertion order; setting a present key keeps its
    position, setting a new one appends.  A [Set] is the list of its elements
    in the order they were added. *)
Definition js_add {A} `{EqDecision A} (x : A) (l : list A) : list A := if decide (x ∈ l) then l else l ++ [x].
Definition js_add_all {A} `{EqDecision A} (xs l : list A) : list A := foldl (fun l x => js_add x l) l xs.

Lemma elem_of_js_add {A} `{EqDecision A} (x y : A) l : y ∈ js_add x l <-> y = x \/ y ∈ l.
Proof. unfold js_add. case_decide; rewrite ?elem_of_app, ?list_elem_of_singleton; naive_solver. Qed.

Lemma elem_of_js_add_all {A} `{EqDecision A} (xs l : list A) y : y ∈ js_add_all xs l <-> y ∈ xs \/ y ∈ l.
Proof.
  revert l. induction xs as [|x xs IH]; intros l; simpl; [set_solver|].
  unfold js_add_all in *. simpl. rewrite IH, elem_of_js_add. set_solver.
Qed.

Lemma NoDup_js_add_all {A} `{EqDecision A} (xs l : list A) : NoDup l -> NoDup (js_add_all xs l).
Proof.
  unfold js_add_all. revert l. induction xs as [|x xs IH]; intros l Hl; simpl; [done|]. apply IH.
  unfold js_add. case_decide; [done|]. apply NoDup_app. split_and!; [done|set_solver|apply NoDup_singleton].
Qed.

Abbreviation jsmap K V := (list (K * V)).

Section JsMap.
Context {K V : Type} `{EqDecision K}.
Implicit Types (m : jsmap K V) (k : K) (v : V).

Fixpoint mget k m : option V :=
  match m with
  | [] => None
  | (k', v) :: m' => if decide (k = k') then Some v else mget k m'
  end.

Fixpoint mset k v m : jsmap K V :=
  match m with
  | [] => [(k, v)]
  | (k', v') :: m' => if decide (k = k') then (k, v) :: m' else (k', v') :: mset k v m'
  end.

Definition mdelete k m : jsmap K V := filter (fun e => e.1 <> k) m.

Definition mhas k m : bool := match mget k m with Some _ => true | None => false end.

Definition mkeys m : list K := m.*1.
Definition mvalues m : list V := m.*2.

(** The representation invariant of a map: no key occurs twice. *)
Definition map_wf m : Prop := NoDup (mkeys m).

Lemma mget_Some_elem k v m : mget k m = Some v -> (k, v) ∈ m.
Proof.
  induction m as [|[k' v'] m IH]; simpl; [done|].
  case_decide; intros; simplify_eq; apply elem_of_cons; auto.
Qed.

Lemma mget_None k m : mget k m = None <-> k ∉ mkeys m.
Proof.
  unfold mkeys. induction m as [|[k' v'] m IH]; simpl; [split; [by intros _ ?%elem_of_nil|done]|].
  rewrite not_elem_of_cons. case_decide; [naive_solver|]. rewrite IH. naive_solver.
Qed.

Lemma mget_is_Some k m : is_Some (mget k m) <-> k ∈ mkeys m.
Proof.
  destruct (mget k m) eqn:E.
  - split; [intros _|by eexists].
    apply mget_Some_elem in E. unfold mkeys. apply list_elem_of_fmap. by exists (k, v).
  - apply mget_None in E. split; [by intros [??]|done].
Qed.

Lemma elem_mget k v m : map_wf m -> (k, v) ∈ m -> mget k m = Some v.
Proof.
  unfold map_wf, mkeys. induction m as [|[k' v'] m IH]; simpl; [set_solver|].
  intros [Hk Hn]%NoDup_cons [?|?]%elem_of_cons; simplify_eq; case_decide; simplify_eq; auto.
  exfalso. apply Hk, list_elem_of_fmap. by exists (k', v).
Qed.

Lemma mget_elem k v m : map_wf m -> mget k m = Some v <-> (k, v) ∈ m.
Proof. split; [apply mget_Some_elem|by apply elem_mget]. Qed.

Lemma mget_mset_eq k v m : mget k (mset k v m) = Some v.
Proof. induction m as [|[k' v'] m IH]; simpl; repeat (case_decide; simpl); done. Qed.

Lemma mget_mset_ne k k' v m : k' <> k -> mget k' (mset k v m) = mget k' m.
Proof.
  intros Hne. induction m as [|[k2 v2] m IH]; simpl; [by rewrite decide_False|].
  case_decide; simplify_eq; simpl; [by rewrite !decide_False|].
  by case_decide.
Qed.

Lemma mget_mset k k' v m :
  mget k' (mset k v m) = if decide (k' = k) then Some v else mget k' m.
Proof. case_decide; simplify_eq; [apply mget_mset_eq|by apply mget_mset_ne]. Qed.

Lemma mkeys_mset k v m :
  mkeys (mset k v m) = if decide (k ∈ mkeys m) then mkeys m else mkeys m ++ [k].
Proof.
  unfold mkeys. induction m as [|[k' v'] m IH]; csimpl; [done|].
  destruct (decide (k = k')); simplify_eq; csimpl.
  - rewrite decide_True; [done|apply elem_of_cons; by left].
  - rewrite IH. destruct (decide (k ∈ m.*1)) as [Hin|Hin].
    + rewrite decide_True; [done|apply elem_of_cons; by right].
    + rewrite decide_False; [done|]. by rewrite not_elem_of_cons.
Qed.

Lemma mset_fresh k v m : mget k m = None -> mset k v m = m ++ [(k, v)].
Proof.
  induction m as [|[k' v'] m IH]; simpl; [done|].
  case_decide; [done|]. intros. by rewrite IH.
Qed.

Lemma mset_length k v m :
  length (mset k v m) = if mhas k m then length m else S (length m).
Proof.
  unfold mhas. induction m as [|[k' v'] m IH]; simpl; [done|].
  case_decide; simpl; [done|]. rewrite IH. by case_match.
Qed.

Lemma map_wf_mset k v m : map_wf m -> map_wf (mset k v m).
Proof.
  unfold map_wf. rewrite mkeys_mset. case_decide; [done|].
  intros. apply NoDup_app. split; [done|]. split; [|apply NoDup_singleton].
  by intros x Hx ->%list_elem_of_singleton.
Qed.

Lemma mget_mdelete_eq k m : mget k (mdelete k m) = None.
Proof.
  apply mget_None. unfold mkeys, mdelete.
  intros ([k' v] & -> & Hin)%list_elem_of_fmap. apply list_elem_of_filter in Hin. naive_solver.
Qed.

Lemma mget_mdelete_ne k k' m : k' <> k -> mget k' (mdelete k m) = mget k' m.
Proof.
  intros Hne. unfold mdelete. induction m as [|[k2 v2] m IH]; [done|].
  rewrite filter_cons. simpl. case_decide; simpl; repeat case_decide; naive_solver.
Qed.

Lemma mget_mdelete k k' m :
  mget k' (mdelete k m) = if decide (k' = k) then None else mget k' m.
Proof. case_decide; simplify_eq; [apply mget_mdelete_eq|by apply mget_mdelete_ne]. Qed.

Lemma mkeys_mdelete k m : mkeys (mdelete k m) = filter (.≠ k) (mkeys m).
Proof.
  unfold mkeys, mdelete. induction m as [|[k' v'] m IH]; [done|].
  rewrite fmap_cons, !filter_cons. csimpl. case_decide; csimpl; by rewrite IH.
Qed.

Lemma map_wf_mdelete k m : map_wf m -> map_wf (mdelete k m).
Proof. unfold map_wf. rewrite mkeys_mdelete. apply NoDup_filter. Qed.

Lemma mdelete_id k m : mget k m = None -> mdelete k m = m.
Proof.
  rewrite mget_None. unfold mkeys, mdelete. induction m as [|[k' v'] m IH]; [done|].
  rewrite fmap_cons, filter_cons, not_elem_of_cons. csimpl. intros [Hk Hn].
  case_decide; [|congruence]. by rewrite IH.
Qed.

Lemma mdelete_elem k k' v m : (k', v) ∈ mdelete k m <-> k' <> k /\ (k', v) ∈ m.
Proof. unfold mdelete. rewrite list_elem_of_filter. done. Qed.

Lemma mdelete_length_le k m : length (mdelete k m) <= length m.
Proof. unfold mdelete. apply length_filter. Qed.

Lemma mget_app k m1 m2 :
  mget k (m1 ++ m2) = match mget k m1 with Some v => Some v | None => mget k m2 end.
Proof. induction m1 as [|[k' v'] m IH]; simpl; [done|]. by case_decide. Qed.
End JsMap.

#[export] Hint Resolve map_wf_mset map_wf_mdelete : jsdb.
#[export] Hint Rewrite @mget_mset_eq @mget_mdelete_eq : jsrw.

(** ** Outcomes

    A call returns a value or throws; [R ← c; k] sequences calls and stops at
    the first throw. *)
Inductive result (E A : Type) : Type :=
| Ok (a : A)
| Throw (e : E).
Arguments Ok {E A} a.
Arguments Throw {E A} e.

#[export] Instance result_ret E : MRet (result E) := fun A a => Ok a.
#[export] Instance result_bind E : MBind (result E) := fun A B k r =>
  match r with Ok a => k a | Throw e => Throw e end.
#[export] Instance result_fmap E : FMap (result E) := fun A B f r =>
  match r with Ok a => Ok (f a) | Throw e => Throw e end.

Definition is_ok {E A} (r : result E A) : bool :=
  match r with Ok _ => true | Throw _ => false end.

Lemma bind_Ok {E A B} (r : result E A) (k : A -> result E B) b :
  (r ≫= k) = Ok b <-> exists a, r = Ok a /\ k a = Ok b.
Proof. destruct r; naive_solver. Qed.

Lemma result_bind_assoc {E A B C} (r : result E A) (f : A -> result E B) (g : B -> result E C) :
  (r ≫= f) ≫= g = r ≫= (fun a => f a ≫= g).
Proof. by destruct r. Qed.

(** A loop over a list that stops at the first throw. *)
Fixpoint foldM {E A S} (f : S -> A -> result E S) (s : S) (l : list A) : result E S :=
  match l with
  | [] => Ok s
  | a :: l' => f s a ≫= fun s' => foldM f s' l'
  end.

Lemma foldM_app {E A S} (f : S -> A -> result E S) s l1 l2 :
  foldM f s (l1 ++ l2) = foldM f s l1 ≫= fun s' => foldM f s' l2.
Proof.
  revert s. induction l1 as [|a l1 IH]; intros s; simpl; [done|].
  destruct (f s a); simpl; [apply IH|done].
Qed.

(** ** JavaScript arrays

    [a.length = n] truncates or extends with holes, [a[i] = x] extends, and a
    hole or an index out of range reads as [undefined]. *)
Definition array_set_length {A} (n : nat) (a : list (option A)) : list (option A) :=
  resize n None a.
Definition array_set {A} (i : nat) (x : option A) (a : list (option A)) : list (option A) :=
  <[i := x]> (if i <? length a then a else array_set_length (S i) a).
Definition array_get {A} (i : nat) (a : list (option A)) : option A := mjoin (a !! i).

(** [buffer.subarray(from, to)]. *)
Definition subarray {A} (from to : nat) (l : list A) : list A := take (to - from) (drop from l).

Lemma subarray_full {A} (l : list A) : subarray 0 (length l) l = l.
Proof. unfold subarray. rewrite drop_0. apply take_ge. lia. Qed.

Lemma elem_take {A} (x : A) n l : x ∈ take n l -> x ∈ l.
Proof. intros H. rewrite <- (take_drop n l). apply elem_of_app. by left. Qed.
Lemma elem_drop {A} (x : A) n l : x ∈ drop n l -> x ∈ l.
Proof. intros H. rewrite <- (take_drop n l). apply elem_of_app. by right. Qed.

Lemma subarray_empty {A} n (l : list A) : subarray n n l = [].
Proof. unfold subarray. by rewrite Nat.sub_diag. Qed.

Lemma subarray_snoc {A} i j (l : list A) x :
  i <= j -> l !! j = Some x -> subarray i (S j) l = subarray i j l ++ [x].
Proof.
  intros Hij Hx. unfold subarray. replace (S j - i) with (S (j - i)) by lia.
  erewrite take_S_r; [done|]. rewrite lookup_drop. by replace (i + (j - i)) with j by lia.
Qed.

Lemma subarray_app_split {A} i j k (l : list A) :
  i <= j <= k -> subarray i k l = subarray i j l ++ subarray j k l.
Proof.
  intros Hij. unfold subarray. rewrite <- (take_drop (j - i) (take (k - i) (drop i l))).
  rewrite take_take, skipn_firstn_comm, drop_drop.
  f_equal; [f_equal; lia|]. f_equal; [lia|]. f_equal; lia.
Qed.

(** Induction on a list two elements at a time, with both shorter suffixes. *)
Lemma list_two_ind {A} (P : list A -> Prop) :
  P [] -> (forall x, P [x]) -> (forall x y l, P l -> P (y :: l) -> P (x :: y :: l)) ->
  forall l, P l.
Proof.
  intros H0 H1 H2 l. cut (P l /\ forall x, P (x :: l)); [naive_solver|].
  induction l as [|y l [Hl Hy]]; auto.
Qed.

(** Filters that keep everything, or nothing. *)
Lemma filter_all {A} (P : A -> Prop) `{forall x, Decision (P x)} (l : list A) :
  (forall x, x ∈ l -> P x) -> filter P l = l.
Proof.
  induction l as [|x l IH]; intros Hl; [done|].
  rewrite filter_cons_True by (apply Hl; set_solver). f_equal. apply IH. set_solver.
Qed.

Lemma length_omap_le {A B} (f : A -> option B) (l : list A) : length (omap f l) <= length l.
Proof. induction l as [|a l IH]; simpl; [done|]. destruct (f a); simpl; [by apply le_n_S|by apply le_S]. Qed.

Lemma list_omap_cons_eq {A B} (f : A -> option B) a (l : list A) :
  omap f (a :: l) = option_list (f a) ++ omap f l.
Proof. simpl. by destruct (f a). Qed.

Lemma filter_none {A} (P : A -> Prop) `{forall x, Decision (P x)} (l : list A) :
  (forall x, x ∈ l -> ~ P x) -> filter P l = [].
Proof.
  induction l as [|x l IH]; intros Hl; [done|].
  rewrite filter_cons_False by (apply Hl; set_solver). apply IH. set_solver.
Qed.

(** ** Sums over maps *)

Lemma sum_mset {K V} `{EqDecision K} (f : K * V -> nat) k v (m : jsmap K V) :
  sum_list_with f (mset k v m) + match mget k m with Some v' => f (k, v') | None => 0 end
  = sum_list_with f m + f (k, v).
Proof.
  induction m as [|[k' v'] m IH]; simpl; [lia|].
  destruct (decide (k = k')) as [<-|]; simpl; lia.
Qed.

Lemma sum_mdelete {K V} `{EqDecision K} (f : K * V -> nat) k (m : jsmap K V) :
  map_wf m ->
  sum_list_with f (mdelete k m) + match mget k m with Some v => f (k, v) | None => 0 end
  = sum_list_with f m.
Proof.
  unfold map_wf, mkeys. induction m as [|[k' v'] m IH]; [done|]. csimpl.
  intros [Hk Hn]%NoDup_cons. unfold mdelete in *. rewrite filter_cons. simpl.
  destruct (decide (k = k')) as [<-|Hne].
  - rewrite decide_False by naive_solver. fold (mdelete k m). rewrite mdelete_id; [lia|].
    by apply mget_None.
  - rewrite decide_True by naive_solver. simpl. rewrite <- IH by done. lia.
Qed.

Lemma filter_values_sum {K V} `{EqDecision K} (P : V -> Prop) `{forall v, Decision (P v)} (m : jsmap K V) :
  length (filter P (mvalues m)) = sum_list_with (fun e => if decide (P e.2) then 1 else 0) m.
Proof.
  unfold mvalues. induction m as [|[k v] m IH]; [done|]. csimpl. rewrite filter_cons.
  case_decide; csimpl; by rewrite IH.
Qed.

(** ** Sorting

    [Array.prototype.sort] with a comparator is stable: an element is inserted
    before the first later one it is not greater than. *)
Section Sort.
Context {A : Type} (cmp : A -> A -> Z).

Fixpoint sort_insert (x : A) (l : list A) : list A :=
  match l with
  | [] => [x]
  | y :: l' => if (0 <? cmp x y)%Z then y :: sort_insert x l' else x :: l
  end.

Fixpoint js_sort (l : list A) : list A :=
  match l with [] => [] | x :: l' => sort_insert x (js_sort l') end.

Lemma sort_insert_perm x l : sort_insert x l ≡ₚ x :: l.
Proof.
  induction l as [|y l IH]; simpl; [done|]. case_match; [|done]. rewrite IH. apply Permutation_swap.
Qed.

Lemma js_sort_perm l : js_sort l ≡ₚ l.
Proof. induction l as [|x l IH]; simpl; [done|]. by rewrite sort_insert_perm, IH. Qed.

Lemma js_sort_length l : length (js_sort l) = length l.
Proof. by rewrite js_sort_perm. Qed.
End Sort.

(** The order by a rank. *)
Section SortRank.
Context {A : Type} (rank : A -> Z).
Abbreviation sorted_by := (js_sort (fun x y => rank x - rank y)%Z).

Lemma sort_insert_head x l :
  (forall y, head l = Some y -> (rank x <= rank y)%Z) -> sort_insert (fun x y => rank x - rank y)%Z x l = x :: l.
Proof.
  destruct l as [|y l]; intros H; [done|]. simpl. specialize (H y eq_refl).
  rewrite (proj2 (Z.ltb_ge _ _)); [done|lia].
Qed.

(** A list sorted already is left alone. *)
Lemma js_sort_sorted l : StronglySorted (fun x y => rank x <= rank y)%Z l -> sorted_by l = l.
Proof.
  induction 1 as [|x l Hs IH Hx]; simpl; [done|]. rewrite IH. apply sort_insert_head.
  intros y Hy. destruct l as [|z l]; simplify_eq/=. by inversion Hx.
Qed.

Lemma sort_insert_strongly_sorted x l :
  StronglySorted (fun x y => rank x <= rank y)%Z l ->
  StronglySorted (fun x y => rank x <= rank y)%Z (sort_insert (fun x y => rank x - rank y)%Z x l).
Proof.
  induction 1 as [|y l Hs IH Hy]; simpl; [repeat constructor|].
  destruct (_ <? _)%Z eqn:E; propify; constructor; try done.
  - rewrite sort_insert_perm. constructor; [lia|done].
  - by constructor.
  - constructor; [lia|]. eapply Forall_impl; [done|]. simpl. intros; lia.
Qed.

Lemma js_sort_strongly_sorted l : StronglySorted (fun x y => rank x <= rank y)%Z (sorted_by l).
Proof. induction l as [|x l IH]; simpl; [constructor|by apply sort_insert_strongly_sorted]. Qed.

(** Stability: the elements of one rank keep their order. *)
Lemma sort_insert_filter r x l :
  filter (fun y => rank y = r) (sort_insert (fun x y => rank x - rank y)%Z x l)
  = filter (fun y => rank y = r) (x :: l).
Proof.
  induction l as [|y l IH]; simpl; [done|]. destruct (_ <? _)%Z eqn:E; [|done]. propify.
  rewrite filter_cons, IH, !filter_cons. repeat case_decide; try done. lia.
Qed.

Lemma js_sort_filter r l :
  filter (fun y => rank y = r) (sorted_by l) = filter (fun y => rank y = r) l.
Proof.
  induction l as [|x l IH]; simpl; [done|]. rewrite sort_insert_filter, !filter_cons. by rewrite IH.
Qed.
End SortRank.

(** The order by a comparison that is a preorder on the elements. *)
Section SortOrder.
Context {A : Type} (cmp : A -> A -> Z) (P : A -> Prop).
Hypothesis cmp_total : forall x y, P x -> P y -> (0 < cmp x y)%Z -> (cmp y x <= 0)%Z.
Hypothesis cmp_trans : forall x y z, P x -> P y -> P z -> (cmp x y <= 0)%Z -> (cmp y z <= 0)%Z -> (cmp x z <= 0)%Z.
Abbreviation ordered := (StronglySorted (fun x y => cmp x y <= 0)%Z).

Lemma sort_insert_ordered x l : P x -> Forall P l -> ordered l -> ordered (sort_insert cmp x l).
Proof.
  intros Hx Hl Hs. induction Hs as [|y l Hs IH Hy]; simpl; [repeat constructor|].
  apply Forall_cons in Hl as [Py Hl]. destruct (_ <? _)%Z eqn:E; propify.
  - constructor; [by apply IH|]. rewrite sort_insert_perm. constructor; [by apply cmp_total|done].
  - constructor; [by constructor|]. constructor; [lia|]. rewrite Forall_forall in *. intros z Hz. eapply (cmp_trans x y z); auto with lia.
Qed.

Lemma js_sort_ordered l : Forall P l -> ordered (js_sort cmp l).
Proof.
  induction 1 as [|x l Hx Hl IH]; simpl; [constructor|]. apply sort_insert_ordered; [done| |done]. by rewrite js_sort_perm.
Qed.
End SortOrder.

Lemma js_sort_ordered_id {A} (cmp : A -> A -> Z) l : StronglySorted (fun x y => cmp x y <= 0)%Z l -> js_sort cmp l = l.
Proof.
  induction 1 as [|x l Hs IH Hx]; simpl; [done|]. rewrite IH. destruct l as [|y l]; [done|]. simpl.
  inversion Hx as [|? ? Hy _]; subst. by rewrite (proj2 (Z.ltb_ge _ _)).
Qed.

(** A sublist of an ordered list is ordered. *)
Lemma StronglySorted_sublist {A} (R : A -> A -> Prop) k l : sublist k l -> StronglySorted R l -> StronglySorted R k.
Proof.
  induction 1 as [|x k l Hk IH|x k l Hk IH]; intros Hs; [constructor| |]; inversion Hs as [|? ? Hl Hx]; subst; [|by apply IH].
  constructor; [by apply IH|]. rewrite Forall_forall in *. intros y Hy. eapply Hx, elem_of_sublist; eauto.
Qed.

(** ** The order of strings *)

Lemma js_ltb_irrefl a : js_ltb a a = false.
Proof. induction a as [|x a IH]; simpl; [done|]. by rewrite N.eqb_refl. Qed.

Lemma js_ltb_trans a b c : js_ltb a b = true -> js_ltb b c = true -> js_ltb a c = true.
Proof.
  revert b c. induction a as [|x a IH]; intros [|y b] [|z c]; simpl; try done.
  destruct (N.eqb_spec x y), (N.eqb_spec y z), (N.eqb_spec x z); subst; rewrite ?N.ltb_lt; try done; try lia. apply IH.
Qed.

Lemma js_ltb_total a b : js_ltb a b = false -> js_ltb b a = false -> a = b.
Proof.
  revert b. induction a as [|x a IH]; intros [|y b]; simpl; try done.
  destruct (N.eqb_spec x y), (N.eqb_spec y x); subst; rewrite ?N.ltb_ge; try done; intros; [f_equal; by apply IH|lia].
Qed.

Lemma js_ltb_app p a b : js_ltb (p ++ a) (p ++ b) = js_ltb a b.
Proof. induction p as [|x p IH]; simpl; [done|]. by rewrite N.eqb_refl. Qed.

(** [sort()] without a comparator. *)
Definition js_compare (a b : jsstring) : Z := if js_ltb a b then -1 else if js_ltb b a then 1 else 0.

(** [[...new Set(ids)].sort()]. *)
Definition unique_sorted (ids : list jsstring) : list jsstring := js_sort js_compare (remove_dups ids).

Lemma unique_sorted_elem (id : jsstring) l : id ∈ unique_sorted l <-> id ∈ l.
Proof. unfold unique_sorted. by rewrite js_sort_perm, elem_of_remove_dups. Qed.

Lemma sort_insert_ascending (x : jsstring) l :
  StronglySorted (fun a b => js_ltb a b = true) l -> x ∉ l ->
  StronglySorted (fun a b => js_ltb a b = true) (sort_insert js_compare x l).
Proof.
  induction 1 as [|y l Hs IH Hy]; intros Hx; simpl; [repeat constructor|]. apply not_elem_of_cons in Hx as [Hxy Hx].
  unfold js_compare at 1. destruct (js_ltb x y) eqn:E; simpl.
  - constructor; [by constructor|]. constructor; [done|]. eapply Forall_impl; [exact Hy|]. intros z. by apply js_ltb_trans.
  - destruct (js_ltb y x) eqn:E'; simpl; [|by destruct Hxy; apply js_ltb_total].
    constructor; [by apply IH|]. rewrite sort_insert_perm. by constructor.
Qed.

Lemma unique_sorted_ascending ids : StronglySorted (fun a b => js_ltb a b = true) (unique_sorted ids).
Proof.
  unfold unique_sorted. induction (NoDup_remove_dups ids) as [|x l Hx Hl IH]; simpl; [constructor|].
  apply sort_insert_ascending; [done|]. by rewrite js_sort_perm.
Qed.
