(* ===== verification/Utf8.v ===== *)
(** * Bytes, UTF-8 and JSON string literals

    The parts of the Node.js standard library the model relay uses on strings:
    [Buffer.from(s, "utf8")], [buffer.toString("utf8")] (the WHATWG decoder,
    which replaces maximal ill-formed parts by U+FFFD), and [JSON.stringify] of
    a string.  The relay's own [decodeJsonString] is in [JsonRewrite]. *)

From S2P Require Export Prelude.

(** A byte is a number below 256. *)
Abbreviation bytes := (list N).

Definition is_byte (b : N) : Prop := (b < 256)%N.
Definition is_unit (u : N) : Prop := (u < 65536)%N.

Definition is_high (u : N) : bool := bool_decide (0xD800 <= u <= 0xDBFF)%N.
Definition is_low (u : N) : bool := bool_decide (0xDC00 <= u <= 0xDFFF)%N.

(** The UTF-8 sequence of a code point; [utf8Bytes] of the relay computes the
    same sequence. *)
Definition utf8_of_code_point (c : N) : bytes :=
  if (c <=? 0x7f)%N then [c]
  else if (c <=? 0x7ff)%N then
    [N.lor 0xc0 (N.shiftr c 6); N.lor 0x80 (N.land c 0x3f)]
  else if (c <=? 0xffff)%N then
    [N.lor 0xe0 (N.shiftr c 12); N.lor 0x80 (N.land (N.shiftr c 6) 0x3f);
     N.lor 0x80 (N.land c 0x3f)]
  else
    [N.lor 0xf0 (N.shiftr c 18); N.lor 0x80 (N.land (N.shiftr c 12) 0x3f);
     N.lor 0x80 (N.land (N.shiftr c 6) 0x3f); N.lor 0x80 (N.land c 0x3f)].

Definition combine_surrogates (hi lo : N) : N :=
  (0x10000 + N.shiftl (hi - 0xD800) 10 + (lo - 0xDC00))%N.

(** [Buffer.from(s, "utf8")]: surrogate pairs are joined, lone surrogates
    become U+FFFD. *)
Fixpoint utf8_encode (s : jsstring) : bytes :=
  match s with
  | [] => []
  | u :: s' =>
      if is_high u then
        match s' with
        | v :: s'' =>
            if is_low v then utf8_of_code_point (combine_surrogates u v) ++ utf8_encode s''
            else utf8_of_code_point 0xFFFD ++ utf8_encode s'
        | [] => utf8_of_code_point 0xFFFD
        end
      else if is_low u then utf8_of_code_point 0xFFFD ++ utf8_encode s'
      else utf8_of_code_point u ++ utf8_encode s'
  end.

(** The code units of a code point. *)
Definition utf16_of_code_point (c : N) : jsstring :=
  if (c <=? 0xffff)%N then [c]
  else [0xD800 + N.shiftr (c - 0x10000) 10; 0xDC00 + N.land (c - 0x10000) 0x3ff]%N.

(** The state of the WHATWG decoder inside a multi-byte sequence. *)
Record utf8_pending := Utf8Pending { up_needed : nat; up_code : N; up_lower : N; up_upper : N }.

(** The first byte of a sequence: the units it emits and the next state. *)
Definition utf8_first (b : N) : jsstring * option utf8_pending :=
  if (b <=? 0x7f)%N then ([b], None)
  else if bool_decide (0xC2 <= b <= 0xDF)%N then
    ([], Some (Utf8Pending 1 (N.land b 0x1f) 0x80 0xBF))
  else if bool_decide (0xE0 <= b <= 0xEF)%N then
    ([], Some (Utf8Pending 2 (N.land b 0x0f)
                 (if (b =? 0xE0)%N then 0xA0 else 0x80)%N
                 (if (b =? 0xED)%N then 0x9F else 0xBF)%N))
  else if bool_decide (0xF0 <= b <= 0xF4)%N then
    ([], Some (Utf8Pending 3 (N.land b 0x07)
                 (if (b =? 0xF0)%N then 0x90 else 0x80)%N
                 (if (b =? 0xF4)%N then 0x8F else 0xBF)%N))
  else ([0xFFFD%N], None).

Fixpoint utf8_decode_from (st : option utf8_pending) (bs : bytes) : jsstring :=
  match bs with
  | [] => match st with Some _ => [0xFFFD%N] | None => [] end
  | b :: bs' =>
      match st with
      | None => let '(out, st') := utf8_first b in out ++ utf8_decode_from st' bs'
      | Some p =>
          if bool_decide (up_lower p <= b <= up_upper p)%N then
            let code := N.lor (N.shiftl (up_code p) 6) (N.land b 0x3f) in
            match up_needed p with
            | S (S n) => utf8_decode_from (Some (Utf8Pending (S n) code 0x80 0xBF)) bs'
            | _ => utf16_of_code_point code ++ utf8_decode_from None bs'
            end
          else
            let '(out, st') := utf8_first b in
            0xFFFD%N :: out ++ utf8_decode_from st' bs'
      end
  end.

(** [buffer.toString("utf8")]. *)
Definition utf8_decode : bytes -> jsstring := utf8_decode_from None.

(** A string with no lone surrogate: what text is, once it came through a
    UTF-8 boundary. *)
Fixpoint well_formed (s : jsstring) : bool :=
  match s with
  | [] => true
  | u :: s' =>
      if is_high u then
        match s' with v :: s'' => is_low v && well_formed s'' | [] => false end
      else negb (is_low u) && (u <? 65536)%N && well_formed s'
  end.

(** [JSON.stringify] of a string (well-formed: lone surrogates are escaped). *)
Definition hex_digit (d : N) : N := (if d <? 10 then 48 + d else 87 + d)%N.
Definition hex4 (u : N) : jsstring :=
  [hex_digit (N.land (N.shiftr u 12) 15); hex_digit (N.land (N.shiftr u 8) 15);
   hex_digit (N.land (N.shiftr u 4) 15); hex_digit (N.land u 15)].

Definition json_escape_unit (u : N) : jsstring :=
  if (u =? 34)%N then [92; 34]%N
  else if (u =? 92)%N then [92; 92]%N
  else if (u =? 8)%N then [92; 98]%N
  else if (u =? 12)%N then [92; 102]%N
  else if (u =? 10)%N then [92; 110]%N
  else if (u =? 13)%N then [92; 114]%N
  else if (u =? 9)%N then [92; 116]%N
  else if (u <? 32)%N then 92%N :: 117%N :: hex4 u
  else [u].

Fixpoint json_escape (s : jsstring) : jsstring :=
  match s with
  | [] => []
  | u :: s' =>
      if is_high u then
        match s' with
        | v :: s'' =>
            if is_low v then u :: v :: json_escape s''
            else (92%N :: 117%N :: hex4 u) ++ json_escape s'
        | [] => 92%N :: 117%N :: hex4 u
        end
      else if is_low u then (92%N :: 117%N :: hex4 u) ++ json_escape s'
      else json_escape_unit u ++ json_escape s'
  end.

Definition json_stringify_string (s : jsstring) : jsstring := [34%N] ++ json_escape s ++ [34%N].

Example utf8_decode_ex1 : utf8_decode [0xE4; 0xBD; 0xA0; 0x61]%N = [0x4F60; 0x61]%N.
Proof. reflexivity. Qed.
Example utf8_decode_ex2 : utf8_decode [0xED; 0xA0; 0x80]%N = [0xFFFD; 0xFFFD; 0xFFFD]%N.
Proof. reflexivity. Qed.
Example utf8_roundtrip_ex : utf8_decode (utf8_encode [0xD83D; 0xDE00; 0xE9]%N) = [0xD83D; 0xDE00; 0xE9]%N.
Proof. reflexivity. Qed.
