(* ===== verification/JsonRewrite.v ===== *)
(** * The relay's byte-level JSON model-field rewriter

    [packages/node-agent/src/models/relay/json-model-rewrite.ts]: the string
    decoder, the incremental scanner [JsonModelScanner] with its [push],
    [pushUntilMatch] and [end], the response rewriting and the request body
    that resolves the model before any upstream contact.  The callbacks a
    scanner is built with are a state [CB] threaded through
    [on_model_value]. *)

From S2P Require Export Utf8.

(** ** Helpers *)

Definition isWhitespace (byte : N) : bool :=
  ((byte =? 0x20) || (byte =? 0x09) || (byte =? 0x0a) || (byte =? 0x0d))%N.

Definition utf8Bytes (codePoint : N) : bytes :=
  if (codePoint <=? 0x7f)%N then [codePoint]
  else if (codePoint <=? 0x7ff)%N then
    [N.lor 0xc0 (N.shiftr codePoint 6); N.lor 0x80 (N.land codePoint 0x3f)]
  else if (codePoint <=? 0xffff)%N then
    [N.lor 0xe0 (N.shiftr codePoint 12); N.lor 0x80 (N.land (N.shiftr codePoint 6) 0x3f);
     N.lor 0x80 (N.land codePoint 0x3f)]
  else
    [N.lor 0xf0 (N.shiftr codePoint 18); N.lor 0x80 (N.land (N.shiftr codePoint 12) 0x3f);
     N.lor 0x80 (N.land (N.shiftr codePoint 6) 0x3f); N.lor 0x80 (N.land codePoint 0x3f)].

(** The value of a hexadecimal digit, read after [toString("ascii")], which
    drops the top bit of the byte. *)
Definition hexValue (byte : N) : option N :=
  let c := N.land byte 0x7f in
  if bool_decide (0x30 <= c <= 0x39)%N then Some (c - 0x30)%N
  else if bool_decide (0x41 <= c <= 0x46)%N then Some (c - 55)%N
  else if bool_decide (0x61 <= c <= 0x66)%N then Some (c - 87)%N
  else None.

Definition readHexUnit (a b c d : N) : option N :=
  a ← hexValue a; b ← hexValue b; c ← hexValue c; d ← hexValue d;
  Some (((a * 16 + b) * 16 + c) * 16 + d)%N.

(** The bytes of the simple escapes. *)
Definition simpleEscape (escape : N) : option N :=
  if (escape =? 0x22)%N then Some 0x22%N
  else if (escape =? 0x5c)%N then Some 0x5c%N
  else if (escape =? 0x2f)%N then Some 0x2f%N
  else if (escape =? 0x62)%N then Some 8%N
  else if (escape =? 0x66)%N then Some 12%N
  else if (escape =? 0x6e)%N then Some 10%N
  else if (escape =? 0x72)%N then Some 13%N
  else if (escape =? 0x74)%N then Some 9%N
  else None.

(** The loop of [decodeJsonString] on the bytes between the quotes: the
    concatenation of its parts. *)
Fixpoint decodeBody (raw : bytes) : option bytes :=
  match raw with
  | [] => Some []
  | byte :: raw1 =>
      if negb (byte =? 0x5c)%N then cons byte <$> decodeBody raw1
      else
        match raw1 with
        | [] => None
        | escape :: raw2 =>
            match simpleEscape escape with
            | Some c => cons c <$> decodeBody raw2
            | None =>
                if negb (escape =? 0x75)%N then None
                else
                  match raw2 with
                  | h1 :: h2 :: h3 :: h4 :: raw3 =>
                      match readHexUnit h1 h2 h3 h4 with
                      | None => None
                      | Some unit =>
                          let single := app (utf8Bytes unit) <$> decodeBody raw3 in
                          if is_high unit then
                            match raw3 with
                            | b :: u :: l1 :: l2 :: l3 :: l4 :: raw4 =>
                                if ((b =? 0x5c) && (u =? 0x75))%N then
                                  match readHexUnit l1 l2 l3 l4 with
                                  | Some low =>
                                      if is_low low then
                                        app (utf8Bytes (0x10000 + N.shiftl (unit - 0xd800) 10 + (low - 0xdc00))%N)
                                          <$> decodeBody raw4
                                      else single
                                  | None => single
                                  end
                                else single
                            | _ => single
                            end
                          else single
                      end
                  | _ => None
                  end
            end
        end
  end.

(** Decode a raw quoted JSON string, including UTF-8 content and escapes. *)
Definition decodeJsonString (raw : bytes) : option jsstring :=
  if (length raw <? 2)%nat then None
  else if negb (bool_decide (head raw = Some 0x22%N)) then None
  else if negb (bool_decide (last raw = Some 0x22%N)) then None
  else utf8_decode <$> decodeBody (subarray 1 (length raw - 1) raw).

Abbreviation JsonModelPath := (list jsstring).

Definition pathsEqual (path : list (option jsstring)) (candidate : JsonModelPath) : bool :=
  bool_decide (path = Some <$> candidate).

Definition DEFAULT_MAX_STRING_BYTES : nat := N.to_nat 1024.
Definition DEFAULT_MAX_KEY_BYTES : nat := N.to_nat 1024.

(** ** The scanner *)

Inductive container := ObjectContainer | ArrayContainer.
Inductive slot_kind := SlotKey | SlotValue | SlotNone.
Inductive role_kind := RoleKey | RoleValue.

#[export] Instance container_eq_dec : EqDecision container.
Proof. solve_decision. Defined.
#[export] Instance slot_eq_dec : EqDecision slot_kind.
Proof. solve_decision. Defined.
#[export] Instance role_eq_dec : EqDecision role_kind.
Proof. solve_decision. Defined.

(** The fields of [JsonModelScanner]; [stringStart] is [-1] when [None]. *)
Record scanner := Scanner {
  keys : list (option jsstring);
  containers : list (option container);
  depth : nat;
  slot : slot_kind;
  valuePath : list (option jsstring);
  inString : bool;
  stringRole : role_kind;
  stringCandidate : bool;
  stringEscaped : bool;
  stringBytes : nat;
  stringParts : list bytes;
  stringStart : option nat;
  stringDiscarded : bool;
  matchedValue : bool
}.

Definition newScanner : scanner :=
  Scanner [] [] 0 SlotNone [] false RoleValue false false 0 [] None false false.

Definition with_structure ks cs d sl vp (sc : scanner) : scanner :=
  Scanner ks cs d sl vp (inString sc) (stringRole sc) (stringCandidate sc) (stringEscaped sc)
    (stringBytes sc) (stringParts sc) (stringStart sc) (stringDiscarded sc) (matchedValue sc).
Definition with_slot sl (sc : scanner) : scanner :=
  with_structure (keys sc) (containers sc) (depth sc) sl (valuePath sc) sc.
Definition with_keys ks (sc : scanner) : scanner :=
  with_structure ks (containers sc) (depth sc) (slot sc) (valuePath sc) sc.
Definition with_string ins role cand esc nb parts start disc (sc : scanner) : scanner :=
  Scanner (keys sc) (containers sc) (depth sc) (slot sc) (valuePath sc) ins role cand esc
    nb parts start disc (matchedValue sc).
Definition with_escaped esc (sc : scanner) : scanner :=
  with_string (inString sc) (stringRole sc) (stringCandidate sc) esc (stringBytes sc)
    (stringParts sc) (stringStart sc) (stringDiscarded sc) sc.
Definition with_buffer nb parts disc (sc : scanner) : scanner :=
  with_string (inString sc) (stringRole sc) (stringCandidate sc) (stringEscaped sc) nb parts
    (stringStart sc) disc sc.
Definition with_start start (sc : scanner) : scanner :=
  with_string (inString sc) (stringRole sc) (stringCandidate sc) (stringEscaped sc)
    (stringBytes sc) (stringParts sc) start (stringDiscarded sc) sc.
Definition with_matched m (sc : scanner) : scanner :=
  Scanner (keys sc) (containers sc) (depth sc) (slot sc) (valuePath sc) (inString sc)
    (stringRole sc) (stringCandidate sc) (stringEscaped sc) (stringBytes sc) (stringParts sc)
    (stringStart sc) (stringDiscarded sc) m.

(** The container and the key on top of the stack: [a[depth - 1]]. *)
Definition at_top {A} (d : nat) (a : list (option A)) : option A :=
  match d with O => None | S d' => array_get d' a end.
Definition set_top {A} (d : nat) (x : option A) (a : list (option A)) : list (option A) :=
  match d with O => a | S d' => array_set d' x a end.

Section Scanner.
Context {CB ERR : Type}.

(** [JsonModelScannerOptions]. *)
Record JsonModelScannerOptions := Options {
  paths : list JsonModelPath;
  onModelValue : CB -> jsstring -> result ERR (CB * option bytes);
  onInvalidModelValue : option ERR;
  failOnOversizedValue : bool;
  maxStringBytes : nat
}.

Context (o : JsonModelScannerOptions).

Definition isModelPath (sc : scanner) : bool :=
  existsb (pathsEqual (valuePath sc)) (paths o).

Definition startString (index : nat) (sc : scanner) : scanner :=
  let role :=
    if bool_decide (slot sc = SlotKey)
       && bool_decide (at_top (depth sc) (containers sc) = Some ObjectContainer)
    then RoleKey else RoleValue in
  let cand := bool_decide (role = RoleValue) && isModelPath sc in
  with_string true role cand false 0 [] (Some index) false sc.

Definition string_limit (role : role_kind) : nat :=
  match role with RoleKey => DEFAULT_MAX_KEY_BYTES | RoleValue => maxStringBytes o end.

Definition appendStringPart (part : bytes) (sc : scanner) (output : list bytes)
  : result ERR (scanner * list bytes) :=
  match part with
  | [] => Ok (sc, output)
  | _ :: _ =>
      if stringDiscarded sc || (bool_decide (stringRole sc <> RoleKey) && negb (stringCandidate sc))
      then Ok (sc, output ++ [part])
      else
        let parts := stringParts sc ++ [part] in
        let nb := stringBytes sc + length part in
        if nb <=? string_limit (stringRole sc) then
          Ok (with_buffer nb parts (stringDiscarded sc) sc, output)
        else
          match onInvalidModelValue o with
          | Some e =>
              if bool_decide (stringRole sc = RoleValue) && failOnOversizedValue o
              then Throw e
              else Ok (with_buffer nb [] true sc, output ++ parts)
          | None => Ok (with_buffer nb [] true sc, output ++ parts)
          end
  end.

Definition finishString (chunk : bytes) (end_ : nat) (sc : scanner) (cb : CB) (output : list bytes)
  : result ERR (scanner * CB * list bytes) :=
  '(sc, output) ← appendStringPart (subarray (default 0 (stringStart sc)) end_ chunk) sc output;
  let raw := match stringParts sc with [] => None | parts => Some (concat parts) end in
  let role := stringRole sc in
  let candidate := stringCandidate sc in
  let sc := with_string false RoleValue false (stringEscaped sc) (stringBytes sc) [] None
              (stringDiscarded sc) sc in
  let output_raw := match raw with Some r => output ++ [r] | None => output end in
  match role with
  | RoleKey =>
      let key := r ← raw; decodeJsonString r in
      Ok (with_slot SlotNone (with_keys (set_top (depth sc) key (keys sc)) sc), cb, output_raw)
  | RoleValue =>
      let sc := with_slot SlotNone sc in
      match raw with
      | Some r =>
          if negb candidate then Ok (sc, cb, output_raw)
          else
            match decodeJsonString r with
            | None =>
                match onInvalidModelValue o with
                | Some e => Throw e
                | None => Ok (sc, cb, output_raw)
                end
            | Some decoded =>
                '(cb, replacement) ← onModelValue o cb decoded;
                Ok (with_matched true sc, cb, output ++ [default r replacement])
            end
      | None => Ok (sc, cb, output_raw)
      end
  end.

(** The structural bytes outside strings. *)
Definition scanStructure (byte : N) (sc : scanner) : scanner :=
  if (byte =? 0x7b)%N then
    let d := S (depth sc) in
    with_structure (set_top d None (array_set_length d (keys sc)))
      (set_top d (Some ObjectContainer) (containers sc)) d SlotKey [] sc
  else if (byte =? 0x5b)%N then
    let d := S (depth sc) in
    with_structure (set_top d None (array_set_length d (keys sc)))
      (set_top d (Some ArrayContainer) (containers sc)) d SlotValue [] sc
  else if (byte =? 0x7d)%N || (byte =? 0x5d)%N then
    let d := Nat.pred (depth sc) in
    with_structure (array_set_length d (keys sc)) (array_set_length d (containers sc)) d
      SlotNone [] sc
  else if (byte =? 0x2c)%N then
    with_slot (if bool_decide (at_top (depth sc) (containers sc) = Some ObjectContainer)
               then SlotKey else SlotValue) sc
  else if (byte =? 0x3a)%N then
    with_structure (keys sc) (containers sc) (depth sc) SlotValue
      (take (Nat.pred (depth sc)) (keys sc) ++ [at_top (depth sc) (keys sc)]) sc
  else if negb (isWhitespace byte) && bool_decide (slot sc = SlotValue) then
    with_slot SlotNone sc
  else sc.

(** The variables of the loop of [scan]. *)
Record scan_loop := ScanLoop {
  sl_scanner : scanner;
  sl_cb : CB;
  sl_output : list bytes;
  sl_passFrom : nat
}.

(** One iteration; [true] when the loop returns early ([stopAfterMatch]). *)
Definition scanByte (stopAfterMatch : bool) (chunk : bytes) (index : nat) (byte : N) (l : scan_loop)
  : result ERR (scan_loop * bool) :=
  let '(ScanLoop sc cb output passFrom) := l in
  if inString sc then
    if stringEscaped sc then Ok (ScanLoop (with_escaped false sc) cb output passFrom, false)
    else if (byte =? 0x5c)%N then Ok (ScanLoop (with_escaped true sc) cb output passFrom, false)
    else if (byte =? 0x22)%N then
      '(sc, cb, output) ← finishString chunk (S index) sc cb output;
      Ok (ScanLoop sc cb output (S index), stopAfterMatch && matchedValue sc)
    else Ok (l, false)
  else if (byte =? 0x22)%N then
    let output := if passFrom <? index then output ++ [subarray passFrom index chunk] else output in
    Ok (ScanLoop (startString index sc) cb output index, false)
  else if bool_decide (slot sc = SlotValue) && isModelPath sc
          && bool_decide (is_Some (onInvalidModelValue o)) && negb (isWhitespace byte) then
    match onInvalidModelValue o with
    | Some e => Throw e
    | None => Ok (l, false)
    end
  else
    let sc := scanStructure byte sc in
    Ok (ScanLoop sc cb output passFrom, stopAfterMatch && matchedValue sc).

(** The loop over [chunk] from [index], [rest] being the bytes from there;
    the number of consumed bytes is returned when it stops early. *)
Fixpoint scanFrom (stopAfterMatch : bool) (chunk : bytes) (index : nat) (rest : bytes) (l : scan_loop)
  : result ERR (scan_loop * option nat) :=
  match rest with
  | [] => Ok (l, None)
  | byte :: rest' =>
      '(l, stop) ← scanByte stopAfterMatch chunk index byte l;
      if stop : bool then Ok (l, Some (S index))
      else scanFrom stopAfterMatch chunk (S index) rest' l
  end.

Definition scan (stopAfterMatch : bool) (chunk : bytes) (sc : scanner) (cb : CB)
  : result ERR (scanner * CB * list bytes * nat) :=
  '(l, consumed) ← scanFrom stopAfterMatch chunk 0 chunk (ScanLoop sc cb [] 0);
  let '(ScanLoop sc cb output passFrom) := l in
  match consumed with
  | Some n => Ok (sc, cb, output, n)
  | None =>
      '(sc, output, passFrom) ←
        (if inString sc then
           '(sc, output) ←
             appendStringPart (subarray (default 0 (stringStart sc)) (length chunk) chunk) sc output;
           Ok (with_start None sc, output, length chunk)
         else Ok (sc, output, passFrom));
      let output :=
        if passFrom <? length chunk then output ++ [subarray passFrom (length chunk) chunk]
        else output in
      Ok (sc, cb, output, length chunk)
  end.

Definition push (chunk : bytes) (sc : scanner) (cb : CB)
  : result ERR (scanner * CB * list bytes) :=
  '(sc, cb, output, _) ← scan false chunk sc cb;
  Ok (sc, cb, output).

Definition pushUntilMatch (chunk : bytes) (sc : scanner) (cb : CB)
  : result ERR (scanner * CB * list bytes * nat) := scan true chunk sc cb.

(** [end()]: what is left of an unterminated string. *)
Definition endScan (sc : scanner) : list bytes := stringParts sc.

(** A stream of chunks pushed in order, then [end()]: the generator of
    [rewriteJsonModelResponseBody] and of the request body. *)
Definition pushAll (chunks : list bytes) (sc : scanner) (cb : CB)
  : result ERR (scanner * CB * list bytes) :=
  foldM (fun '(sc, cb, out) chunk =>
    '(sc, cb, output) ← push chunk sc cb;
    Ok (sc, cb, out ++ output)) (sc, cb, []) chunks.

Definition rewriteStream (chunks : list bytes) (sc : scanner) (cb : CB)
  : result ERR (CB * list bytes) :=
  '(sc, cb, out) ← pushAll chunks sc cb;
  Ok (cb, out ++ endScan sc).
End Scanner.
Arguments JsonModelScannerOptions : clear implicits.
Arguments Options {CB ERR}.
Arguments ScanLoop {CB}.
Arguments scan_loop : clear implicits.

(** ** Responses *)

(** [JsonModelRewriteMapping]. *)
Record JsonModelRewriteMapping := Mapping {
  map_paths : list JsonModelPath;
  externalName : option jsstring;
  expectedUpstreamName : option jsstring
}.

(** The state of [responseReplacement]: its [mismatched] flag and the number
    of calls of [onMismatch]. *)
Record response_state := ResponseState { mismatched : bool; mismatchCalls : nat }.

Definition responseReplacement {ERR} (mapping : JsonModelRewriteMapping)
    (st : response_state) (value : jsstring) : result ERR (response_state * option bytes) :=
  match expectedUpstreamName mapping, externalName mapping with
  | Some expected, Some external =>
      if bool_decide (value = expected)
      then Ok (st, Some (utf8_encode (json_stringify_string external)))
      else if mismatched st then Ok (st, None)
      else Ok (ResponseState true (S (mismatchCalls st)), None)
  | _, _ => Ok (st, None)
  end.

Definition responseOptions {ERR} (mapping : JsonModelRewriteMapping)
  : JsonModelScannerOptions response_state ERR :=
  Options (map_paths mapping) (responseReplacement mapping) None false DEFAULT_MAX_STRING_BYTES.

(** Rewrite one small JSON buffer: no callback throws, so neither does it. *)
Definition rewriteJsonModelBuffer {ERR} (buffer : bytes) (mapping : JsonModelRewriteMapping)
    (st : response_state) : result ERR (response_state * bytes) :=
  '(sc, st, output) ← push (responseOptions mapping) buffer newScanner st;
  Ok (st, concat (output ++ endScan sc)).

(** The parts yielded for a streamed response body. *)
Definition rewriteJsonModelResponseBody {ERR} (chunks : list bytes)
    (mapping : JsonModelRewriteMapping) : result ERR (response_state * list bytes) :=
  rewriteStream (responseOptions mapping) chunks newScanner (ResponseState false 0).

(** ** Requests *)

(** [modelRelayError]: the status and the code of the error. *)
Inductive relay_error :=
| InvalidRequestModel
| AmbiguousModelName
| RequestTooLarge
| UpstreamStreamError
| ResolveError (name : jsstring).

Record request_state := RequestState {
  externalModelName : option jsstring;
  upstreamModelName : option jsstring
}.

Section Request.
(** [input.resolveUpstreamModelName], which throws on an unknown model. *)
Context (resolveUpstreamModelName : jsstring -> result relay_error jsstring).
Context (maxPrologueBytes : nat) (max_string : option nat)
  (request_paths : option (list JsonModelPath)).

Definition requestModelValue (st : request_state) (value : jsstring)
  : result relay_error (request_state * option bytes) :=
  if bool_decide (externalModelName st <> None) then Throw AmbiguousModelName
  else
    resolved ← resolveUpstreamModelName value;
    Ok (RequestState (Some value) (Some resolved),
        if bool_decide (resolved = value) then None
        else Some (utf8_encode (json_stringify_string resolved))).

Definition requestOptions : JsonModelScannerOptions request_state relay_error :=
  Options (default [[js "model"]] request_paths) requestModelValue (Some InvalidRequestModel) true
    (default DEFAULT_MAX_STRING_BYTES max_string).

(** [hold]: keep the parts of the prologue, within the limit. *)
Fixpoint hold (parts : list bytes) (held : list bytes) (heldBytes : nat)
  : result relay_error (list bytes * nat) :=
  match parts with
  | [] => Ok (held, heldBytes)
  | part :: parts' =>
      let heldBytes := heldBytes + length part in
      if maxPrologueBytes <? heldBytes then Throw RequestTooLarge
      else hold parts' (held ++ [part]) heldBytes
  end.

(** The loop that reads chunks until the model is known. *)
Fixpoint prologue (chunks : list bytes) (sc : scanner) (st : request_state)
    (held : list bytes) (heldBytes : nat)
  : result relay_error (scanner * request_state * list bytes * option bytes * list bytes) :=
  match chunks with
  | [] => Ok (sc, st, held, None, [])
  | chunk :: chunks' =>
      '(sc, st, output, consumed) ← pushUntilMatch requestOptions chunk sc st;
      '(held, heldBytes) ← hold output held heldBytes;
      if bool_decide (externalModelName st <> None)
      then Ok (sc, st, held, Some (drop consumed chunk), chunks')
      else prologue chunks' sc st held heldBytes
  end.

(** The parts a generator yields before it finishes or throws. *)
Fixpoint yieldPushes (chunks : list bytes) (sc : scanner) (st : request_state)
  : list bytes * option relay_error :=
  match chunks with
  | [] => (endScan sc, None)
  | chunk :: chunks' =>
      match push requestOptions chunk sc st with
      | Throw e => ([], Some e)
      | Ok (sc, st, output) =>
          let '(out, err) := yieldPushes chunks' sc st in (output ++ out, err)
      end
  end.

Record ModelRelayRequestBody := RequestBody {
  rb_externalModelName : jsstring;
  rb_upstreamModelName : jsstring;
  rb_body : list bytes * option relay_error
}.

Definition createModelRelayRequestBody (chunks : list bytes)
  : result relay_error ModelRelayRequestBody :=
  '(sc, st, held, remainder, rest) ←
    prologue chunks newScanner (RequestState None None) [] 0;
  match externalModelName st, upstreamModelName st with
  | Some external, Some upstream =>
      let later := match remainder with
                   | Some ((_ :: _) as r) => r :: rest
                   | _ => rest
                   end in
      let '(out, err) := yieldPushes later sc st in
      Ok (RequestBody external upstream (held ++ out, err))
  | _, _ => Throw InvalidRequestModel
  end.
End Request.

(** ** Evaluation *)

(** JSON text with apostrophes for the double quotes. *)
Definition json_text (s : string) : bytes :=
  (fun c => if (c =? 39)%N then 34%N else c) <$> js s.

Example rewrite_ex :
  snd <$> rewriteJsonModelResponseBody (ERR := relay_error)
    [json_text "{'a':[{'model':'up'}],'mo"; json_text "del':'u"; json_text "p','n':1}"]
    (Mapping [[js "model"]] (Some (js "ext")) (Some (js "up")))
  = Ok [json_text "{"; json_text "'a'"; json_text ":[{"; json_text "'model'";
        json_text ":"; json_text "'up'"; json_text "}],"; json_text "'model'";
        json_text ":"; json_text "'ext'"; json_text ","; json_text "'n'";
        json_text ":1}"].
Proof. vm_compute. reflexivity. Qed.
