(* ===== verification/JsonRewriteSpec.v ===== *)
(** * Correctness of the model-field rewriter

    A byte-at-a-time machine without chunks, buffers or limits on what is
    held specifies the scanner; every chunking of a stream refines it.  From
    it: the chunking of a body never changes the relayed bytes, a body whose
    model is not remapped is relayed byte for byte, and the scanner buffers no
    more than the string it may replace. *)

From S2P Require Export JsonRewrite.

Section Reference.
Context {CB ERR : Type} (o : JsonModelScannerOptions CB ERR).

(** The scanner without its buffers. *)
Definition core (sc : scanner) : scanner :=
  with_string (inString sc) (stringRole sc) (stringCandidate sc) (stringEscaped sc) 0 [] None false sc.

(** The reference state: the bytes relayed so far and the bytes of the
    string being read, which are relayed when it ends. *)
Record ref := Ref { r_sc : scanner; r_cb : CB; r_out : bytes; r_cur : bytes }.

Definition ref_init (cb : CB) : ref := Ref newScanner cb [] [].

(** A string the scanner may look at: a key, or a value at a model path. *)
Definition buffered (sc : scanner) : bool :=
  bool_decide (stringRole sc = RoleKey) || stringCandidate sc.

(** The error of a string of [n] bytes that is too long to be inspected. *)
Definition oversized_error (sc : scanner) (n : nat) : option ERR :=
  if (string_limit o (stringRole sc) <? n) && buffered sc
     && bool_decide (stringRole sc = RoleValue) && failOnOversizedValue o
  then onInvalidModelValue o else None.

Definition ref_finish (raw : bytes) (sc : scanner) (cb : CB) (out : bytes) : result ERR ref :=
  let inspected := buffered sc && negb (string_limit o (stringRole sc) <? length raw) in
  let sc' := with_slot SlotNone
               (with_string false RoleValue false (stringEscaped sc) 0 [] None false sc) in
  match stringRole sc with
  | RoleKey =>
      let key := if inspected then decodeJsonString raw else None in
      Ok (Ref (with_keys (set_top (depth sc') key (keys sc')) sc') cb (out ++ raw) [])
  | RoleValue =>
      if inspected then
        match decodeJsonString raw with
        | None =>
            match onInvalidModelValue o with
            | Some e => Throw e
            | None => Ok (Ref sc' cb (out ++ raw) [])
            end
        | Some decoded =>
            '(cb, replacement) ← onModelValue o cb decoded;
            Ok (Ref (with_matched true sc') cb (out ++ default raw replacement) [])
        end
      else
        match oversized_error sc (length raw) with
        | Some e => Throw e
        | None => Ok (Ref sc' cb (out ++ raw) [])
        end
  end.

Definition ref_step (r : ref) (byte : N) : result ERR ref :=
  let '(Ref sc cb out cur) := r in
  if inString sc then
    if stringEscaped sc then Ok (Ref (with_escaped false sc) cb out (cur ++ [byte]))
    else if (byte =? 0x5c)%N then Ok (Ref (with_escaped true sc) cb out (cur ++ [byte]))
    else if (byte =? 0x22)%N then ref_finish (cur ++ [byte]) sc cb out
    else Ok (Ref sc cb out (cur ++ [byte]))
  else if (byte =? 0x22)%N then Ok (Ref (core (startString o 0 sc)) cb out [byte])
  else if bool_decide (slot sc = SlotValue) && isModelPath o sc
          && bool_decide (is_Some (onInvalidModelValue o)) && negb (isWhitespace byte) then
    match onInvalidModelValue o with
    | Some e => Throw e
    | None => Ok r
    end
  else Ok (Ref (scanStructure byte sc) cb (out ++ [byte]) []).

Definition ref_run (r : ref) (bs : bytes) : result ERR ref := foldM ref_step r bs.

Definition ref_end (r : ref) : result ERR (CB * bytes) :=
  match (if inString (r_sc r) then oversized_error (r_sc r) (length (r_cur r)) else None) with
  | Some e => Throw e
  | None => Ok (r_cb r, r_out r ++ r_cur r)
  end.

(** ** Simulation *)

Lemma core_scanStructure byte sc : core (scanStructure byte sc) = scanStructure byte (core sc).
Proof. destruct sc. unfold scanStructure, core; cbn. repeat case_match; reflexivity. Qed.

Lemma core_startString i sc : core (startString o i sc) = core (startString o 0 (core sc)).
Proof. reflexivity. Qed.

Lemma isModelPath_core sc : isModelPath o (core sc) = isModelPath o sc.
Proof. reflexivity. Qed.

Lemma buffered_core sc : buffered (core sc) = buffered sc.
Proof. reflexivity. Qed.

(** What a scanner inside a string holds: [pend] are the bytes of the
    string seen in the current chunk and not yet appended. *)
Definition string_rel (emitted pend : bytes) (sc : scanner) (r : ref) : Prop :=
  if buffered sc && negb (stringDiscarded sc) then
    emitted = r_out r /\ concat (stringParts sc) ++ pend = r_cur r
    /\ stringBytes sc = length (concat (stringParts sc))
    /\ stringBytes sc <= string_limit o (stringRole sc)
  else
    emitted ++ pend = r_out r ++ r_cur r /\ stringParts sc = []
    /\ (buffered sc = true -> string_limit o (stringRole sc) < length (r_cur r)
                              /\ oversized_error sc (length (r_cur r)) = None).

(** Between two chunks. *)
Definition boundary (emitted : bytes) (sc : scanner) (cb : CB) (r : ref) : Prop :=
  core sc = r_sc r /\ cb = r_cb r /\
  if inString sc then stringStart sc = None /\ string_rel emitted [] sc r
  else emitted = r_out r /\ r_cur r = [] /\ stringParts sc = [].

(** Inside a chunk, before the byte at [index]. *)
Definition inside (acc chunk : bytes) (index : nat) (l : scan_loop CB) (r : ref) : Prop :=
  let sc := sl_scanner l in
  let emitted := acc ++ concat (sl_output l) in
  core sc = r_sc r /\ sl_cb l = r_cb r /\
  if inString sc then
    default 0 (stringStart sc) <= index
    /\ string_rel emitted (subarray (default 0 (stringStart sc)) index chunk) sc r
  else
    sl_passFrom l <= index /\ r_cur r = [] /\ stringParts sc = []
    /\ emitted ++ subarray (sl_passFrom l) index chunk = r_out r.

Lemma throwing_spec sc n :
  buffered sc = true -> string_limit o (stringRole sc) < n ->
  oversized_error sc n =
    match onInvalidModelValue o with
    | Some e => if bool_decide (stringRole sc = RoleValue) && failOnOversizedValue o
                then Some e else None
    | None => None
    end.
Proof.
  intros Hb Hn. unfold oversized_error. rewrite Hb.
  apply Nat.ltb_lt in Hn as ->. simpl. repeat case_match; done.
Qed.

Lemma appendStringPart_cons part sc output :
  part <> [] ->
  appendStringPart o part sc output =
    if stringDiscarded sc || negb (buffered sc) then Ok (sc, output ++ [part])
    else
      let parts := stringParts sc ++ [part] in
      let nb := stringBytes sc + length part in
      if nb <=? string_limit o (stringRole sc)
      then Ok (with_buffer nb parts (stringDiscarded sc) sc, output)
      else match oversized_error sc nb with
           | Some e => Throw e
           | None => Ok (with_buffer nb [] true sc, output ++ parts)
           end.
Proof.
  intros Hne. unfold appendStringPart. destruct part as [|b p]; [done|].
  assert (bool_decide (stringRole sc <> RoleKey) && negb (stringCandidate sc) = negb (buffered sc)) as ->.
  { unfold buffered. by destruct (stringRole sc), (stringCandidate sc). }
  destruct (_ || _) eqn:Eb; propify; [done|]. simpl.
  destruct (_ <=? _) eqn:El; propify; [done|].
  rewrite throwing_spec by done. repeat case_match; done.
Qed.

(** Appending the pending bytes of a string: they are buffered, passed
    through, or reported as oversized. *)
Lemma appendStringPart_rel acc output pend sc r :
  string_rel (acc ++ concat output) pend sc r ->
  match appendStringPart o pend sc output with
  | Throw e => oversized_error sc (length (r_cur r)) = Some e
  | Ok (sc', output') =>
      string_rel (acc ++ concat output') [] sc' r /\ core sc' = core sc
      /\ stringStart sc' = stringStart sc
  end.
Proof.
  intros Hrel. destruct (decide (pend = [])) as [->|Hne]; [done|].
  rewrite appendStringPart_cons by done. unfold string_rel in Hrel.
  destruct (stringDiscarded sc) eqn:Ed; [|destruct (buffered sc) eqn:Eb]; simpl.
  - rewrite andb_false_r in Hrel. destruct Hrel as (He & Hp & Hb).
    split; [|done]. unfold string_rel. rewrite Ed, andb_false_r.
    rewrite concat_app; simpl. by rewrite !app_nil_r, app_assoc.
  - destruct Hrel as (He & Hp & Hn & Hl).
    assert (stringBytes sc + length pend = length (r_cur r)) as ->.
    { rewrite <- Hp, length_app. lia. }
    destruct (_ <=? _) eqn:Elim; propify.
    + split; [|done]. unfold string_rel; simpl. unfold buffered in *; simpl.
      rewrite Eb; simpl. rewrite concat_app; simpl. by rewrite !app_nil_r, Hp.
    + destruct (oversized_error sc (length (r_cur r))) eqn:Eo; [done|].
      split; [|done]. unfold string_rel; simpl. rewrite andb_false_r.
      rewrite !concat_app; simpl. by rewrite !app_nil_r, app_assoc, He, Hp.
  - destruct Hrel as (He & Hp & Hb). split; [|done].
    unfold string_rel. rewrite Eb; simpl.
    rewrite concat_app; simpl. by rewrite !app_nil_r, app_assoc.
Qed.

Lemma inspected_rel emitted sc r :
  string_rel emitted [] sc r -> r_cur r <> [] ->
  let raw := (match stringParts sc with [] => None | (_ :: _) as parts => Some (concat parts) end) in
  let inspected := (buffered sc && negb (string_limit o (stringRole sc) <? length (r_cur r))) in
  raw = (if inspected then Some (r_cur r) else None)
  /\ emitted = (if inspected then r_out r else r_out r ++ r_cur r)
  /\ (inspected = false -> oversized_error sc (length (r_cur r)) = None).
Proof.
  unfold string_rel. intros Hrel Hne.
  destruct (buffered sc) eqn:Eb; simpl in Hrel.
  - destruct (stringDiscarded sc); simpl in Hrel; rewrite app_nil_r in Hrel.
    + destruct Hrel as (He & Hp & Hb). destruct (Hb eq_refl) as [Hl Ho].
      apply Nat.ltb_lt in Hl as ->. simpl. by rewrite Hp.
    + destruct Hrel as (He & Hp & Hn & Hl).
      assert ((string_limit o (stringRole sc) <? length (r_cur r)) = false) as ->.
      { apply Nat.ltb_ge. rewrite <- Hp. lia. }
      simpl. split_and!; [|done|done].
      destruct (stringParts sc); simpl in *; [congruence|by f_equal].
  - destruct Hrel as (He & Hp & Hb). rewrite app_nil_r in He.
    simpl. rewrite Hp. split_and!; [done..|].
    intros _. unfold oversized_error. rewrite Eb. by rewrite andb_false_r.
Qed.

Lemma finishString_rel acc chunk end_ sc cb output r :
  string_rel (acc ++ concat output) (subarray (default 0 (stringStart sc)) end_ chunk) sc r ->
  r_cur r <> [] ->
  match finishString o chunk end_ sc cb output, ref_finish (r_cur r) (core sc) cb (r_out r) with
  | Ok (sc', cb', output'), Ok r' =>
      core sc' = r_sc r' /\ cb' = r_cb r' /\ inString sc' = false /\ stringParts sc' = []
      /\ acc ++ concat output' = r_out r' /\ r_cur r' = []
  | Throw e, Throw e' => e = e'
  | _, _ => False
  end.
Proof.
  intros Hrel Hne. pose proof (appendStringPart_rel _ _ _ _ _ Hrel) as Ha.
  unfold finishString.
  destruct (appendStringPart _ _ _ _) as [[sc1 output1]|e]; cbn [mbind result_bind].
  - destruct Ha as (Hr1 & Hcore & _). rewrite <- Hcore. unfold ref_finish.
    change (stringRole (core sc1)) with (stringRole sc1).
    change (buffered (core sc1)) with (buffered sc1).
    change (oversized_error (core sc1)) with (oversized_error sc1).
    destruct (inspected_rel _ _ _ Hr1 Hne) as (-> & He & Ho).
    destruct (_ && _) eqn:Ei.
    + destruct (stringRole sc1) eqn:Er; simpl.
      * split_and!; try done. rewrite concat_app, app_assoc, He; simpl. by rewrite app_nil_r.
      * assert (stringCandidate sc1 = true) as ->.
        { apply andb_true_iff in Ei as [Ei _]. unfold buffered in Ei. by rewrite Er in Ei. }
        simpl. destruct (decodeJsonString (r_cur r)) as [d|].
        { destruct (onModelValue o cb d) as [[cb' rep]|]; simpl; [|done].
          split_and!; try done. rewrite concat_app, app_assoc, He; simpl. by rewrite app_nil_r. }
        destruct (onInvalidModelValue o); [done|]. split_and!; try done.
        rewrite concat_app, app_assoc, He; simpl. by rewrite app_nil_r.
    + destruct (stringRole sc1) eqn:Er; simpl; [done|]. by rewrite Ho.
  - unfold ref_finish. change (stringRole (core sc)) with (stringRole sc).
    change (buffered (core sc)) with (buffered sc).
    change (oversized_error (core sc)) with (oversized_error sc). rewrite Ha.
    unfold oversized_error in Ha.
    destruct (_ <? _); simpl in Ha; [|done].
    destruct (buffered sc); simpl in Ha; [|done].
    by destruct (stringRole sc).
Qed.

Lemma oversized_mono sc n m :
  string_limit o (stringRole sc) < n -> n <= m -> oversized_error sc m = oversized_error sc n.
Proof.
  intros Hn Hm. unfold oversized_error.
  destruct (_ <? m) eqn:E1, (_ <? n) eqn:E2; propify; done || lia.
Qed.

Lemma string_rel_snoc emitted pend sc sc0 cb out cur byte :
  string_rel emitted pend sc (Ref sc0 cb out cur) ->
  string_rel emitted (pend ++ [byte]) sc (Ref sc0 cb out (cur ++ [byte])).
Proof.
  unfold string_rel; simpl. destruct (_ && _).
  - intros (-> & <- & ?). by rewrite app_assoc.
  - intros (He & Hp & Hb). rewrite !app_assoc, He, Hp. split_and!; [done..|].
    intros Hbuf. destruct (Hb Hbuf) as [Hl Ho]. rewrite length_app. split; [lia|].
    rewrite <- Ho. apply oversized_mono; [done|lia].
Qed.

Lemma scanByte_sim stop acc chunk index byte l r :
  inside acc chunk index l r -> chunk !! index = Some byte ->
  match scanByte o stop chunk index byte l, ref_step r byte with
  | Ok (l', b), Ok r' =>
      inside acc chunk (S index) l' r'
      /\ b = stop && negb (inString (sl_scanner l')) && matchedValue (sl_scanner l')
      /\ (matchedValue (sl_scanner l') = true -> matchedValue (sl_scanner l) = false ->
          sl_passFrom l' = S index /\ inString (sl_scanner l') = false)
  | Throw e, Throw e' => e = e'
  | _, _ => False
  end.
Proof.
  destruct l as [sc lcb output pf], r as [rsc rcb out cur].
  unfold inside; simpl. intros (Hcore & -> & Hrel) Hbyte.
  subst rsc. change (inString (core sc)) with (inString sc).
  destruct (inString sc) eqn:Ein.
  - destruct Hrel as [Hle Hrel].
    apply (string_rel_snoc _ _ _ _ _ _ _ byte) in Hrel.
    erewrite <- subarray_snoc in Hrel by done.
    change (stringEscaped (core sc)) with (stringEscaped sc).
    destruct (stringEscaped sc) eqn:Ee; [|destruct (byte =? 92)%N; [|destruct (byte =? 34)%N]];
      simpl; rewrite ?Ein, ?andb_false_r; simpl; try (split_and!; first [done|lia|congruence]).
    assert (cur ++ [byte] <> []) as Hne by (by destruct cur).
    pose proof (finishString_rel acc chunk (S index) sc rcb output _ Hrel Hne) as Hf.
    simpl in Hf. destruct (finishString _ _ _ _ _ _) as [[[sc' cb'] output']|e]; simpl;
      destruct (ref_finish _ _ _ _) as [[rsc' rcb' out' cur']|e']; simpl in *; try done.
    destruct Hf as (-> & -> & -> & -> & <- & ->).
    rewrite subarray_empty, !app_nil_r. simpl. rewrite andb_true_r. done.
  - destruct Hrel as (Hle & -> & Hparts & Hout).
    destruct (byte =? 34)%N eqn:Eq; propify.
    + subst byte. simpl. rewrite andb_false_r. split_and!; try done; [lia| |congruence].
      rewrite subarray_snoc with (x := 34%N) by done. rewrite subarray_empty; simpl.
      assert (acc ++ concat (if pf <? index then output ++ [subarray pf index chunk] else output) = out) as Hout'.
      { case_match; propify; [by rewrite concat_app; simpl; rewrite app_nil_r, app_assoc|].
        rewrite <- Hout. replace pf with index by lia. by rewrite subarray_empty, app_nil_r. }
      unfold string_rel; simpl. rewrite Hout', ?andb_true_r.
      destruct (buffered _) eqn:Eb; simpl; [|done].
      split_and!; [done|done|done|]. lia.
    + change (isModelPath o (core sc)) with (isModelPath o sc).
      change (slot (core sc)) with (slot sc).
      destruct (_ && negb (isWhitespace byte)) eqn:Et.
      { propify. destruct (onInvalidModelValue o); [done|]. by destruct H1 as [??]. }
      simpl. assert (inString (scanStructure byte sc) = false) as ->.
      { rewrite <- Ein. unfold scanStructure. by repeat case_match. }
      assert (matchedValue (scanStructure byte sc) = matchedValue sc) as ->.
      { unfold scanStructure. by repeat case_match. }
      rewrite andb_true_r.
      split_and!; try first [done|lia|congruence|by rewrite core_scanStructure].
      { rewrite <- Hparts. unfold scanStructure. by repeat case_match. }
      by rewrite <- Hout, (subarray_snoc pf index chunk byte), app_assoc by done.
Qed.

Lemma foldM_cons {E A S} (f : S -> A -> result E S) s a l :
  foldM f s (a :: l) = f s a ≫= fun s' => foldM f s' l.
Proof. done. Qed.

(** The loop of [scan]: it reaches the end of the chunk, stops right after
    the first match, or throws. *)
Lemma scanFrom_sim stop acc chunk : forall rest index l r,
  inside acc chunk index l r -> drop index chunk = rest -> index <= length chunk ->
  (stop = true -> matchedValue (sl_scanner l) = false) ->
  match scanFrom o stop chunk index rest l with
  | Ok (l', None) => exists r', ref_run r rest = Ok r' /\ inside acc chunk (length chunk) l' r'
      /\ (stop = true -> matchedValue (sl_scanner l') = false)
  | Ok (l', Some n) => stop = true /\ index < n <= length chunk
      /\ matchedValue (sl_scanner l') = true
      /\ sl_passFrom l' = n /\ inString (sl_scanner l') = false
      /\ exists r', ref_run r (take (n - index) rest) = Ok r' /\ inside acc chunk n l' r'
  | Throw e => ref_run r rest = Throw e
  end.
Proof.
  induction rest as [|byte rest IH]; intros index l r Hin Hdrop Hle Hm; simpl.
  - apply (f_equal length) in Hdrop as Hlen. rewrite length_drop in Hlen. simpl in Hlen.
    exists r. split_and!; [done| |done]. by replace (length chunk) with index by lia.
  - assert (chunk !! index = Some byte) as Hb.
    { rewrite <- (Nat.add_0_r index), <- lookup_drop, Hdrop. done. }
    assert (drop (S index) chunk = rest) as Hdrop'.
    { rewrite <- (Nat.add_1_r index), <- drop_drop, Hdrop. done. }
    apply lookup_lt_Some in Hb as Hlt.
    pose proof (scanByte_sim stop _ _ _ _ _ _ Hin Hb) as Hs.
    unfold ref_run in *. rewrite foldM_cons.
    destruct (scanByte _ _ _ _ _ _) as [[l1 b]|e]; destruct (ref_step r byte) as [r1|e'] eqn:Er;
      simpl; try done; [|by subst].
    destruct Hs as (Hin1 & -> & Hmt).
    destruct (stop && _ && _) eqn:Eb; simpl.
    + propify. destruct (Hmt H0) as [Hpf Hns]; [by apply Hm|].
      split_and!; try first [done|lia]. exists r1. replace (S index - index) with 1 by lia.
      simpl. by rewrite Er.
    + assert (stop = true -> matchedValue (sl_scanner l1) = false) as Hm1.
      { intros ->. destruct (matchedValue (sl_scanner l1)) eqn:Em; [|done].
        destruct (Hmt eq_refl (Hm eq_refl)) as [_ Hns]. by rewrite Hns in Eb. }
      specialize (IH _ _ _ Hin1 Hdrop' Hlt Hm1).
      destruct (scanFrom _ _ _ _ _ _) as [[l2 [n|]]|e]; try done.
      destruct IH as (-> & Hn & Hmm & Hpf & Hns & r' & Hr' & Hin').
      split_and!; try first [done|lia]. exists r'.
      replace (n - index) with (S (n - S index)) by lia. simpl. by rewrite Er.
Qed.

(** A string that is already too long ends in its error, however it goes on. *)
Definition doomed (r : ref) (e : ERR) : Prop :=
  inString (r_sc r) = true /\ oversized_error (r_sc r) (length (r_cur r)) = Some e.

Lemma doomed_step r e byte :
  doomed r e ->
  match ref_step r byte with Ok r' => doomed r' e | Throw e' => e' = e end.
Proof.
  destruct r as [sc cb out cur]. unfold doomed; simpl. intros [Hin Ho]. rewrite Hin.
  assert (string_limit o (stringRole sc) < length cur) as Hl.
  { unfold oversized_error in Ho. destruct (_ <? _) eqn:E; [by apply Nat.ltb_lt|done]. }
  assert (oversized_error sc (length (cur ++ [byte])) = Some e) as Ho'.
  { rewrite <- Ho. apply oversized_mono; [done|rewrite length_app; lia]. }
  destruct (stringEscaped sc); [done|]. destruct (byte =? 92)%N; [done|].
  destruct (byte =? 34)%N; [|done]. unfold ref_finish. rewrite Ho'.
  assert (stringRole sc = RoleValue) as ->.
  { unfold oversized_error in Ho. destruct (stringRole sc); [|done].
    by rewrite !andb_false_r in Ho. }
  assert ((string_limit o RoleValue <? length (cur ++ [byte])) = true) as ->; [|by rewrite andb_false_r].
  unfold oversized_error in Ho'. destruct (stringRole sc); [by rewrite !andb_false_r in Ho'|].
  by destruct (string_limit o RoleValue <? length (cur ++ [byte])).
Qed.

Lemma doomed_run bs r e : doomed r e -> (ref_run r bs ≫= ref_end) = Throw e.
Proof.
  unfold ref_run. revert r. induction bs as [|b bs IH]; intros r Hd; simpl.
  - unfold ref_end. destruct Hd as [-> ->]. done.
  - pose proof (doomed_step _ _ b Hd) as Hs.
    destruct (ref_step r b); simpl; [by apply IH|by subst].
Qed.

Lemma scan_sim stop acc chunk sc cb r :
  boundary acc sc cb r -> (stop = true -> matchedValue sc = false) ->
  match scan o stop chunk sc cb with
  | Ok (sc', cb', output, n) =>
      (exists r', ref_run r (take n chunk) = Ok r' /\ boundary (acc ++ concat output) sc' cb' r')
      /\ (n = length chunk /\ (stop = true -> matchedValue sc' = false)
          \/ stop = true /\ matchedValue sc' = true)
  | Throw e => ref_run r chunk = Throw e \/ exists r', ref_run r chunk = Ok r' /\ doomed r' e
  end.
Proof.
  intros (Hc & Hcb & Hrel) Hm. unfold scan.
  assert (inside acc chunk 0 (ScanLoop sc cb [] 0) r) as Hin.
  { unfold inside; simpl. rewrite app_nil_r, subarray_empty. split_and!; [done..|].
    destruct (inString sc); [|rewrite app_nil_r; naive_solver lia].
    destruct Hrel as [-> Hrel]. simpl. rewrite subarray_empty. split; [lia|done]. }
  pose proof (scanFrom_sim stop acc chunk chunk 0 _ _ Hin eq_refl ltac:(lia) Hm) as Hs.
  destruct (scanFrom _ _ _ _ _ _) as [[[sc1 cb1 out1 pf1] [n|]]|e];
    cbn [mbind result_bind]; [| |by left].
  - destruct Hs as (-> & Hn & Hmm & Hpf & Hns & r' & Hr & Hin').
    rewrite Nat.sub_0_r in Hr. split; [|right; done]. exists r'. split; [done|].
    unfold inside, boundary in *; simpl in *. rewrite Hns in *.
    destruct Hin' as (-> & -> & _ & -> & -> & <-). subst.
    by rewrite subarray_empty, app_nil_r.
  - destruct Hs as (r' & Hr & Hin' & Hmm). unfold inside in Hin'. simpl in *.
    destruct Hin' as (Hc1 & -> & Hin').
    destruct (inString sc1) eqn:Eis; cbn [mbind result_bind].
    + destruct Hin' as [Hle Hrel'].
      pose proof (appendStringPart_rel _ _ _ _ _ Hrel') as Ha.
      destruct (appendStringPart _ _ _ _) as [[sc2 out2]|e]; cbn [mbind result_bind].
      * destruct Ha as (Hr2 & Hc2 & _). rewrite Nat.ltb_irrefl.
        split; [|left; split; [done|]].
        { exists r'. rewrite take_ge by lia. split; [done|].
          unfold boundary. change (core (with_start None sc2)) with (core sc2).
          change (inString (with_start None sc2)) with (inString (core sc2)).
          rewrite Hc2. change (inString (core sc1)) with (inString sc1). by rewrite Eis. }
        intros Hst. change (matchedValue (core sc2) = false). rewrite Hc2. by apply Hmm.
      * right. exists r'. split; [done|]. unfold doomed. rewrite <- Hc1. done.
    + destruct Hin' as (Hle & Hcur & Hp & Hout). split; [|left; split; [done|by apply Hmm]].
      exists r'. rewrite take_ge by lia. split; [done|].
      unfold boundary. rewrite Eis. split_and!; try done.
      rewrite <- Hout. destruct (pf1 <? length chunk) eqn:Epf; propify.
      * rewrite concat_app; simpl. by rewrite app_nil_r, app_assoc.
      * replace pf1 with (length chunk) by lia. by rewrite subarray_empty, app_nil_r.
Qed.

Lemma pushAll_sim chunks : forall acc sc cb r out0,
  boundary (acc ++ concat out0) sc cb r ->
  let res := foldM (fun '(sc, cb, out) chunk =>
               '(sc, cb, output) ← push o chunk sc cb; Ok (sc, cb, out ++ output))
               (sc, cb, out0) chunks in
  match res with
  | Ok (sc', cb', out) =>
      exists r', ref_run r (concat chunks) = Ok r' /\ boundary (acc ++ concat out) sc' cb' r'
  | Throw e => (ref_run r (concat chunks) ≫= ref_end) = Throw e
  end.
Proof.
  induction chunks as [|chunk chunks IH]; intros acc sc cb r out0 Hb; simpl; [by exists r|].
  pose proof (scan_sim false _ chunk _ _ _ Hb) as Hs. unfold push, ref_run in *.
  rewrite foldM_app.
  destruct (scan _ _ _ _ _) as [[[[sc1 cb1] out1] n]|e]; simpl.
  - destruct Hs as ((r1 & Hr1 & Hb1) & [[-> _]|[? _]]); [done| |done].
    rewrite take_ge in Hr1 by lia. rewrite Hr1. simpl.
    specialize (IH acc sc1 cb1 r1 (out0 ++ out1)). apply IH.
    by rewrite concat_app, app_assoc.
  - destruct Hs as [->|(r' & -> & Hd)]; [done..|]. simpl. by apply doomed_run.
Qed.

Lemma boundary_init cb : boundary [] newScanner cb (ref_init cb).
Proof. done. Qed.

Lemma boundary_end emitted sc cb r :
  boundary emitted sc cb r -> ref_end r = Ok (cb, emitted ++ concat (endScan sc)).
Proof.
  intros (Hc & -> & Hrel). unfold ref_end, endScan. rewrite <- Hc.
  change (inString (core sc)) with (inString sc).
  change (oversized_error (core sc)) with (oversized_error sc).
  destruct (inString sc).
  - destruct Hrel as [_ Hrel]. unfold string_rel in Hrel.
    destruct (buffered sc && negb (stringDiscarded sc)) eqn:Eb.
    + destruct Hrel as (-> & Hp & Hn & Hl). rewrite app_nil_r in Hp.
      unfold oversized_error. rewrite <- Hp, <- Hn.
      assert ((string_limit o (stringRole sc) <? stringBytes sc) = false) as -> by (apply Nat.ltb_ge; lia).
      done.
    + destruct Hrel as (He & Hp & Ho). rewrite app_nil_r in He. rewrite Hp, He; simpl.
      rewrite app_nil_r. destruct (buffered sc) eqn:Ebb.
      * by destruct (Ho eq_refl) as [_ ->].
      * unfold oversized_error. rewrite Ebb. by rewrite andb_false_r.
  - destruct Hrel as (-> & -> & ->). done.
Qed.

(** The scanner refines the reference: over any chunking, the relayed bytes,
    the callback state and the errors are those of the byte machine. *)
Lemma rewriteStream_ref chunks cb :
  (fun '(cb, out) => (cb, concat out)) <$> rewriteStream o chunks newScanner cb
  = ref_run (ref_init cb) (concat chunks) ≫= ref_end.
Proof.
  pose proof (pushAll_sim chunks [] newScanner cb (ref_init cb) []) as Hp.
  specialize (Hp (boundary_init cb)). simpl in Hp.
  unfold rewriteStream, pushAll.
  destruct (foldM _ _ _) as [[[sc' cb'] out]|e]; simpl; [|by rewrite Hp].
  destruct Hp as (r' & -> & Hb). simpl. erewrite boundary_end by done.
  by rewrite concat_app.
Qed.
End Reference.
Arguments Ref {CB}.
Arguments ref : clear implicits.

(** ** Properties of a rewritten stream *)

(** What a rewriting may do to a byte stream: bytes are kept, or a string
    literal that decodes to [from] is exchanged for [to]. *)
Inductive edits (from : jsstring) (to : bytes) : bytes -> bytes -> Prop :=
| edits_nil : edits from to [] []
| edits_keep kept input output :
    edits from to input output -> edits from to (input ++ kept) (output ++ kept)
| edits_swap raw input output :
    decodeJsonString raw = Some from ->
    edits from to input output -> edits from to (input ++ raw) (output ++ to).

Section Response.
Context {ERR : Type} (mapping : JsonModelRewriteMapping).
Abbreviation opts := (responseOptions (ERR := ERR) mapping).

(** The bytes a mapping may exchange. *)
Definition response_edits (input output : bytes) : Prop :=
  match expectedUpstreamName mapping, externalName mapping with
  | Some expected, Some external =>
      edits expected (utf8_encode (json_stringify_string external)) input output
  | _, _ => output = input
  end.

Lemma response_edits_keep kept input output :
  response_edits input output -> response_edits (input ++ kept) (output ++ kept).
Proof.
  unfold response_edits. repeat case_match; try (by intros ->). by apply edits_keep.
Qed.

Lemma ref_finish_response raw sc st out :
  exists r, ref_finish opts raw sc st out = Ok r /\ r_cur r = []
    /\ forall input, response_edits input out -> response_edits (input ++ raw) (r_out r).
Proof.
  unfold ref_finish, oversized_error. simpl.
  destruct (stringRole sc); [eexists; split; [done|]; eauto using response_edits_keep|].
  destruct (_ && negb _).
  - destruct (decodeJsonString raw) as [d|] eqn:Ed; simpl;
      [|eexists; split; [done|]; eauto using response_edits_keep].
    unfold responseReplacement, response_edits.
    destruct (expectedUpstreamName mapping) as [e|]; simpl;
      [|eexists; split; [done|]; simpl; split; [done|by intros ? ->]].
    destruct (externalName mapping) as [x|]; simpl;
      [|eexists; split; [done|]; simpl; split; [done|by intros ? ->]].
    case_bool_decide; simpl; subst.
    + eexists; split; [done|]. split; [done|]. intros input. by apply edits_swap.
    + destruct (mismatched st); eexists; (split; [done|]); simpl;
        (split; [done|]); intros; by apply edits_keep.
  - assert (forall b : bool, (if b then onInvalidModelValue opts else None) = None) as Hn by (by intros []).
    simpl in Hn. rewrite Hn. eexists; split; [done|]; eauto using response_edits_keep.
Qed.

(** The bytes read so far are those relayed, up to [response_edits], and
    those of the string being read. *)
Definition response_inv (input : bytes) (r : ref response_state) : Prop :=
  (inString (r_sc r) = false -> r_cur r = [])
  /\ exists i, input = i ++ r_cur r /\ response_edits i (r_out r).

Lemma ref_step_response input r b :
  response_inv input r -> exists r', ref_step opts r b = Ok r' /\ response_inv (input ++ [b]) r'.
Proof.
  destruct r as [sc st out cur]. unfold response_inv. simpl. intros (Hq & i & -> & Hi).
  destruct (inString sc) eqn:Ein.
  - destruct (stringEscaped sc); [|destruct (b =? 92)%N; [|destruct (b =? 34)%N]].
    3: { destruct (ref_finish_response (cur ++ [b]) sc st out) as (r' & -> & Hc & Hr').
         eexists; split; [done|]. split; [done|]. exists ((i ++ cur) ++ [b]).
         rewrite Hc, app_nil_r. split; [done|]. rewrite <- app_assoc. auto. }
    all: eexists; split; [done|]; simpl; rewrite ?Ein; split; [done|]; exists i; by rewrite app_assoc.
  - rewrite (Hq eq_refl), app_nil_r. destruct (b =? 34)%N eqn:Eb; simpl; rewrite ?andb_false_r; simpl.
    + apply N.eqb_eq in Eb as ->. eexists; split; [done|]. simpl. split; [done|]. by exists i.
    + eexists; split; [done|]. simpl. split; [done|]. exists (i ++ [b]). rewrite app_nil_r.
      split; [done|]. by apply response_edits_keep.
Qed.

Lemma ref_run_response bs : forall input r,
  response_inv input r -> exists r', ref_run opts r bs = Ok r' /\ response_inv (input ++ bs) r'.
Proof.
  induction bs as [|b bs IH]; intros input r Hr; [exists r; by rewrite app_nil_r|].
  destruct (ref_step_response _ _ b Hr) as (r1 & H1 & Hr1).
  unfold ref_run in *. rewrite foldM_cons, H1. simpl.
  destruct (IH _ _ Hr1) as (r2 & H2 & Hr2). exists r2. by rewrite <- app_assoc in Hr2.
Qed.
Lemma rewriteStream_response chunks st :
  exists st' out,
    rewriteStream opts chunks newScanner st = Ok (st', out)
    /\ response_edits (concat chunks) (concat out).
Proof.
  pose proof (rewriteStream_ref opts chunks st) as Hr.
  destruct (ref_run_response (concat chunks) [] (ref_init st)) as (r & Hrun & _ & i & Hi & He).
  { split; [done|]. exists []. split; [done|]. unfold response_edits. repeat case_match; done || apply edits_nil. }
  rewrite Hrun in Hr. simpl in Hi.
  assert (ref_end opts r = Ok (r_cb r, r_out r ++ r_cur r)) as Hend.
  { unfold ref_end, oversized_error. simpl. by repeat case_match. }
  simpl in Hr. rewrite Hend in Hr.
  destruct (rewriteStream _ _ _ _) as [[st' out]|]; simplify_eq/=.
  exists (r_cb r), out. split; [done|]. rewrite Hi.
  match goal with H : concat out = _ |- _ => rewrite H end. by apply response_edits_keep.
Qed.

Lemma rewriteJsonModelBuffer_response buffer st :
  exists st' out,
    rewriteJsonModelBuffer (ERR := ERR) buffer mapping st = Ok (st', out)
    /\ response_edits buffer out.
Proof.
  destruct (rewriteStream_response [buffer] st) as (st' & out & Hs & He).
  simpl in He. rewrite app_nil_r in He.
  unfold rewriteStream, pushAll in Hs. simpl in Hs. unfold rewriteJsonModelBuffer.
  destruct (push _ _ _ _) as [[[sc cb] output]|e]; simplify_eq/=. eauto.
Qed.
End Response.

(** C1. Chunking is invisible: two ways of cutting the same bytes into chunks
    relay the same bytes, leave the callbacks in the same state and fail with
    the same error, for every set of paths, limits and callbacks. *)
Theorem rewriteStream_chunking {CB ERR} (o : JsonModelScannerOptions CB ERR) cb chunks1 chunks2
    (Hsame : concat chunks1 = concat chunks2) :
  (fun '(st, out) => (st, concat out)) <$> rewriteStream o chunks1 newScanner cb
  = (fun '(st, out) => (st, concat out)) <$> rewriteStream o chunks2 newScanner cb.
Proof. by rewrite !rewriteStream_ref, Hsame. Qed.

(** C2. A response body of any bytes, valid JSON or not, is relayed to its end
    without an error, and the relayed bytes differ from the received ones only
    where a string literal decodes to the expected upstream name: there the
    quoted external name stands.  Without a mapping nothing changes. *)
Theorem rewriteJsonModelResponseBody_edits {ERR} (mapping : JsonModelRewriteMapping) chunks :
  exists st out,
    rewriteJsonModelResponseBody (ERR := ERR) chunks mapping = Ok (st, out)
    /\ response_edits mapping (concat chunks) (concat out).
Proof. apply rewriteStream_response. Qed.

(** Bounded memory: after any prefix of a stream the scanner holds back at
    most one key or model string within its limit. *)
Theorem pushAll_buffer_bound {CB ERR} (o : JsonModelScannerOptions CB ERR) cb chunks sc cb' out
    (Hpush : pushAll o chunks newScanner cb = Ok (sc, cb', out)) :
  length (concat (stringParts sc)) <= max DEFAULT_MAX_KEY_BYTES (maxStringBytes o).
Proof.
  pose proof (pushAll_sim o chunks [] newScanner cb (ref_init cb) [] (boundary_init o cb)) as Hp.
  unfold pushAll in Hpush. simpl in Hp. rewrite Hpush in Hp. destruct Hp as (r & _ & Hb).
  destruct Hb as (_ & _ & Hrel).
  destruct (inString sc); [|destruct Hrel as (_ & _ & ->); simpl; lia].
  destruct Hrel as [_ Hrel]. unfold string_rel in Hrel.
  destruct (_ && _); [|destruct Hrel as (_ & -> & _); simpl; lia].
  destruct Hrel as (_ & _ & <- & Hl). unfold string_limit in Hl. destruct (stringRole sc); lia.
Qed.

Lemma rewriteStream_chunking_witness :
  concat [json_text "{'model':'u"; json_text "p'}"] = concat [json_text "{'mo"; []; json_text "del':'up'}"]
  /\ (fun '(st, out) => (st, concat out)) <$>
       rewriteStream (ERR := relay_error)
         (responseOptions (Mapping [[js "model"]] (Some (js "ext")) (Some (js "up"))))
         [json_text "{'model':'u"; json_text "p'}"] newScanner (ResponseState false 0)
     = Ok (ResponseState false 0, json_text "{'model':'ext'}").
Proof.
  split; [reflexivity|].
  rewrite (rewriteStream_chunking (ERR := relay_error) _ _ _
    [json_text "{'mo"; []; json_text "del':'up'}"]); [|reflexivity].
  vm_compute. reflexivity.
Defined.

Definition sample_options : JsonModelScannerOptions response_state relay_error :=
  responseOptions (Mapping [[js "model"]] (Some (js "ext")) (Some (js "up"))).
Definition sample_held : scanner * response_state * list bytes :=
  match pushAll sample_options [json_text "{'model':'u"] newScanner (ResponseState false 0) with
  | Ok x => x | Throw _ => (newScanner, ResponseState false 0, []) end.

Lemma pushAll_buffer_bound_witness :
  stringParts (fst (fst sample_held)) = [json_text "'u"]
  /\ length (concat (stringParts (fst (fst sample_held))))
     <= max DEFAULT_MAX_KEY_BYTES (maxStringBytes sample_options).
Proof.
  split; [vm_compute; reflexivity|].
  apply (pushAll_buffer_bound sample_options (ResponseState false 0) [json_text "{'model':'u"]
    (fst (fst sample_held)) (snd (fst sample_held)) (snd sample_held)).
  vm_compute. reflexivity.
Defined.
