(* ===== verification/JsonRewriteDoc.v ===== *)
(** * What the rewriter does to a JSON document

    JSON documents as syntax trees with their raw literals and whitespace, the
    rewriting they should undergo ([rewrite_json]), and the statement that the
    byte scanner performs exactly that rewriting on the printed document. *)

From S2P Require Export JsonRewriteSpec.

#[local] Set Warnings "-register-all".

#[local] Arguments ref_finish : simpl never.
#[local] Arguments decodeJsonString : simpl never.
#[local] Arguments DEFAULT_MAX_STRING_BYTES : simpl never.
#[local] Arguments DEFAULT_MAX_KEY_BYTES : simpl never.

(** A document keeps the raw bytes of its literals and its whitespace, so that
    every JSON text is the [print] of a tree. *)
Inductive json :=
| JAtom (literal : bytes)
| JString (raw : bytes)
| JArray (ws : bytes) (items : list json)
| JObject (ws : bytes) (members : list (bytes * bytes * bytes * json))
| JPad (pre : bytes) (v : json) (post : bytes).

Section json_ind.
Context (P : json -> Prop).
Context (HAtom : forall lit, P (JAtom lit)) (HString : forall raw, P (JString raw)).
Context (HArray : forall ws items, Forall P items -> P (JArray ws items)).
Context (HObject : forall ws members, Forall (fun m => P m.2) members -> P (JObject ws members)).
Context (HPad : forall pre v post, P v -> P (JPad pre v post)).

Fixpoint json_rect' (v : json) : P v :=
  match v with
  | JAtom lit => HAtom lit
  | JString raw => HString raw
  | JArray ws items =>
      HArray ws items ((fix go l : Forall P l :=
        match l with [] => Forall_nil_2 _ | x :: l' => Forall_cons_2 _ _ _ (json_rect' x) (go l') end) items)
  | JObject ws members =>
      HObject ws members ((fix go l : Forall (fun m => P m.2) l :=
        match l with
        | [] => Forall_nil_2 _
        | x :: l' => Forall_cons_2 _ _ _ (json_rect' x.2) (go l')
        end) members)
  | JPad pre v post => HPad pre v post (json_rect' v)
  end.
End json_ind.

(** Comma-separated parts. *)
Fixpoint commas (parts : list bytes) : bytes :=
  match parts with
  | [] => []
  | [p] => p
  | p :: parts' => p ++ [0x2c%N] ++ commas parts'
  end.

Fixpoint print (v : json) : bytes :=
  match v with
  | JAtom lit => lit
  | JString raw => raw
  | JArray ws items => [0x5b%N] ++ ws ++ commas (print <$> items) ++ [0x5d%N]
  | JObject ws members =>
      [0x7b%N] ++ ws
      ++ commas ((fun '(pre, raw, post, v) => pre ++ raw ++ post ++ [0x3a%N] ++ print v) <$> members)
      ++ [0x7d%N]
  | JPad pre v post => pre ++ print v ++ post
  end.

(** The bytes of a string literal between its quotes, each quote escaped. *)
Fixpoint body_closed (escaped : bool) (body : bytes) : bool :=
  match body with
  | [] => negb escaped
  | b :: body' =>
      if escaped then body_closed false body'
      else if (b =? 0x5c)%N then body_closed true body'
      else if (b =? 0x22)%N then false
      else body_closed false body'
  end.

Definition string_token (raw : bytes) : Prop :=
  exists body, raw = [0x22%N] ++ body ++ [0x22%N] /\ body_closed false body = true.

Definition structural (b : N) : bool :=
  ((b =? 0x22) || (b =? 0x7b) || (b =? 0x5b) || (b =? 0x7d) || (b =? 0x5d) || (b =? 0x2c)
   || (b =? 0x3a))%N || isWhitespace b.

(** A number, [true], [false] or [null]. *)
Definition atom_token (lit : bytes) : Prop :=
  lit <> [] /\ Forall (fun b => structural b = false) lit.

Definition ws_token (ws : bytes) : Prop := Forall (fun b => isWhitespace b = true) ws.

Fixpoint valid (v : json) : Prop :=
  match v with
  | JAtom lit => atom_token lit
  | JString raw => string_token raw
  | JArray ws items => ws_token ws /\ foldr (fun x P => valid x /\ P) True items
  | JObject ws members =>
      ws_token ws /\
      foldr (fun '(pre, raw, post, v) P =>
               (ws_token pre /\ string_token raw /\ ws_token post /\ valid v) /\ P) True members
  | JPad pre v post => ws_token pre /\ valid v /\ ws_token post
  end.

(** [valid], decided. *)
Definition string_tokenb (raw : bytes) : bool :=
  match raw with
  | q :: rest =>
      (q =? 0x22)%N && bool_decide (last rest = Some 0x22%N) && body_closed false (removelast rest)
  | [] => false
  end.
Definition atom_tokenb (lit : bytes) : bool :=
  bool_decide (lit <> []) && forallb (fun b => negb (structural b)) lit.

Fixpoint validb (v : json) : bool :=
  match v with
  | JAtom lit => atom_tokenb lit
  | JString raw => string_tokenb raw
  | JArray ws items => forallb isWhitespace ws && forallb validb items
  | JObject ws members =>
      forallb isWhitespace ws &&
      forallb (fun '(pre, raw, post, v) =>
        forallb isWhitespace pre && string_tokenb raw && forallb isWhitespace post && validb v) members
  | JPad pre v post => forallb isWhitespace pre && validb v && forallb isWhitespace post
  end.

Lemma string_tokenb_spec raw : string_tokenb raw = true -> string_token raw.
Proof.
  destruct raw as [|q rest]; simpl; [done|].
  intros [[Hq Hl]%andb_true_iff Hb]%andb_true_iff. propify. subst q.
  exists (removelast rest). split; [|done]. simpl. f_equal.
  apply last_Some in Hl as [l ->]. by rewrite removelast_last.
Qed.

Lemma forallb_ws ws : forallb isWhitespace ws = true -> ws_token ws.
Proof. unfold ws_token. rewrite Forall_forall, forallb_forall. setoid_rewrite list_elem_of_In. done. Qed.

Lemma validb_valid v : validb v = true -> valid v.
Proof.
  induction v as [lit|raw|ws items IH|ws mems IH|pre v post IH] using json_rect'; simpl; intros H; propify.
  - unfold atom_tokenb in H. propify. split; [done|]. apply Forall_forall. intros x Hx.
    apply negb_true_iff. revert x Hx. setoid_rewrite list_elem_of_In. by apply forallb_forall.
  - by apply string_tokenb_spec.
  - split; [by apply forallb_ws|]. clear H. induction IH as [|v items Hv _ IHi]; simpl in *; [done|].
    propify. auto.
  - split; [by apply forallb_ws|]. clear H.
    induction IH as [|[[[pre raw] post] v] mems Hv _ IHm]; simpl in *; [done|].
    propify. auto 10 using forallb_ws, string_tokenb_spec.
  - auto using forallb_ws.
Qed.

Section Rewrite.
Context (mapping : JsonModelRewriteMapping).

(** The key a path is compared with; over-long keys match no path. *)
Definition path_key (raw : bytes) : option jsstring :=
  if (DEFAULT_MAX_KEY_BYTES <? length raw)%nat then None else decodeJsonString raw.

(** A model value: replaced when it is the expected upstream name. *)
Definition rewrite_value (raw : bytes) : bytes :=
  match expectedUpstreamName mapping, externalName mapping with
  | Some expected, Some external =>
      if negb (DEFAULT_MAX_STRING_BYTES <? length raw)%nat
         && bool_decide (decodeJsonString raw = Some expected)
      then utf8_encode (json_stringify_string external) else raw
  | _, _ => raw
  end.

(** [ks] are the keys on the way to the value, [None] for an array; [vp] is
    the path the value is compared with, which is empty inside an array. *)
Fixpoint rewrite_json (ks vp : list (option jsstring)) (v : json) : json :=
  match v with
  | JAtom lit => JAtom lit
  | JString raw =>
      JString (if existsb (pathsEqual vp) (map_paths mapping) then rewrite_value raw else raw)
  | JArray ws items => JArray ws (rewrite_json (ks ++ [None]) [] <$> items)
  | JObject ws members =>
      JObject ws ((fun '(pre, raw, post, v) =>
        (pre, raw, post, rewrite_json (ks ++ [path_key raw]) (ks ++ [path_key raw]) v)) <$> members)
  | JPad pre v post => JPad pre (rewrite_json ks vp v) post
  end.

Fixpoint vp_after (v : json) (vp : list (option jsstring)) : list (option jsstring) :=
  match v with
  | JAtom _ | JString _ => vp
  | JArray _ _ | JObject _ _ => []
  | JPad _ v _ => vp_after v vp
  end.

Context {ERR : Type}.
Abbreviation opts := (responseOptions (ERR := ERR) mapping).
Abbreviation run := (ref_run opts).

(** The scanner outside strings. *)
Definition idle ks cs sl vp m : scanner :=
  Scanner ks cs (length ks) sl vp false RoleValue false false 0 [] None false m.

Lemma run_app r l1 l2 : run r (l1 ++ l2) = (run r l1 ≫= fun r' => run r' l2).
Proof. apply foldM_app. Qed.

Lemma run_structural ks cs sl vp m st out b :
  (b =? 34)%N = false ->
  run (Ref (idle ks cs sl vp m) st out []) [b]
  = Ok (Ref (scanStructure b (idle ks cs sl vp m)) st (out ++ [b]) []).
Proof. intros Hb. cbn. rewrite Hb. by rewrite andb_false_r. Qed.

Lemma run_ws ks cs sl vp m st ws out :
  ws_token ws ->
  run (Ref (idle ks cs sl vp m) st out []) ws = Ok (Ref (idle ks cs sl vp m) st (out ++ ws) []).
Proof.
  intros Hws. revert out. induction Hws as [|b ws Hb Hws IH]; intros out.
  - by rewrite app_nil_r.
  - change (b :: ws) with ([b] ++ ws). rewrite run_app, run_structural; simpl.
    + assert (scanStructure b (idle ks cs sl vp m) = idle ks cs sl vp m) as ->.
      { unfold isWhitespace in Hb. unfold scanStructure, isWhitespace.
        repeat (apply orb_true_iff in Hb as [Hb|Hb]); apply N.eqb_eq in Hb as ->; done. }
      rewrite IH. by rewrite <- app_assoc.
    + unfold isWhitespace in Hb.
      repeat (apply orb_true_iff in Hb as [Hb|Hb]); apply N.eqb_eq in Hb as ->; done.
Qed.
Lemma scanStructure_atom b ks cs sl vp m :
  structural b = false -> sl <> SlotKey ->
  scanStructure b (idle ks cs sl vp m) = idle ks cs SlotNone vp m.
Proof.
  unfold structural, scanStructure. intros Hb Hsl.
  repeat match goal with H : _ || _ = false |- _ => apply orb_false_iff in H as [H ?] end.
  repeat match goal with H : (b =? _)%N = false |- _ => rewrite H; clear H end. simpl.
  match goal with H : isWhitespace b = false |- _ => rewrite H end.
  by destruct sl.
Qed.

Lemma run_atom_bytes ks cs sl vp m st lit out :
  Forall (fun b => structural b = false) lit -> sl <> SlotKey ->
  run (Ref (idle ks cs sl vp m) st out []) lit
  = Ok (Ref (idle ks cs (match lit with [] => sl | _ => SlotNone end) vp m) st (out ++ lit) []).
Proof.
  intros Hlit. revert sl out. induction Hlit as [|b lit Hb Hlit IH]; intros sl out Hsl.
  - by rewrite app_nil_r.
  - change (b :: lit) with ([b] ++ lit). rewrite run_app, run_structural; simpl.
    + rewrite scanStructure_atom, IH by done. rewrite <- app_assoc. by destruct lit.
    + unfold structural in Hb. by repeat apply orb_false_iff in Hb as [Hb _].
Qed.

(** Inside a string every byte is kept until the closing quote. *)
Lemma run_body body : forall esc sc st out cur,
  inString sc = true -> body_closed esc body = true ->
  run (Ref (with_escaped esc sc) st out cur) (body ++ [34%N])
  = ref_finish opts (cur ++ body ++ [34%N]) (with_escaped false sc) st out.
Proof.
  induction body as [|b body IH]; intros esc sc st out cur Hin Hbody; simpl in Hbody.
  - apply negb_true_iff in Hbody as ->. unfold ref_run. simpl. rewrite Hin; simpl.
    by destruct (ref_finish _ _ _ _ _).
  - unfold ref_run in *. simpl. rewrite Hin.
    replace (cur ++ b :: body ++ [34%N]) with ((cur ++ [b]) ++ body ++ [34%N]) by (by rewrite <- app_assoc).
    destruct esc; simpl; [|destruct (b =? 92)%N; simpl; [|destruct (b =? 34)%N; [done|]]];
      simpl in *.
    + by rewrite <- (IH false sc).
    + by rewrite <- (IH true sc).
    + by rewrite <- (IH false sc).
Qed.

Lemma run_string ks cs sl vp m st out raw :
  string_token raw ->
  run (Ref (idle ks cs sl vp m) st out []) raw
  = ref_finish opts raw (core (startString opts 0 (idle ks cs sl vp m))) st out.
Proof.
  intros (body & -> & Hbody). rewrite run_app. simpl. unfold ref_run at 1. simpl.
  pose proof (run_body body false (core (startString opts 0 (idle ks cs sl vp m))) st out [34%N]
    eq_refl Hbody) as Hr. exact Hr.
Qed.

Lemma oversized_response sc n : oversized_error opts sc n = None.
Proof. unfold oversized_error. by case_match. Qed.

(** A string value: relayed, with the replacement at a model path. *)
Lemma run_string_value ks cs sl vp m st out raw :
  string_token raw -> sl <> SlotKey ->
  exists m' st',
    run (Ref (idle ks cs sl vp m) st out []) raw
    = Ok (Ref (idle ks cs SlotNone vp m') st'
            (out ++ (if existsb (pathsEqual vp) (map_paths mapping) then rewrite_value raw else raw)) []).
Proof.
  intros Hraw Hsl. rewrite run_string by done. unfold ref_finish, startString, core, isModelPath.
  simpl.
  rewrite (bool_decide_eq_false_2 (sl = SlotKey)) by done.
  simpl.
  unfold buffered; simpl.
  destruct (existsb _ _); simpl; [|rewrite oversized_response; by do 2 eexists].
  unfold rewrite_value. destruct (_ <? _) eqn:El; simpl.
  { rewrite oversized_response. do 2 eexists. repeat f_equal. by repeat case_match. }
  unfold responseReplacement.
  destruct (decodeJsonString raw) as [d|]; simpl.
  - destruct (expectedUpstreamName mapping) as [e|]; [|by do 2 eexists].
    destruct (externalName mapping) as [x|]; [|by do 2 eexists]. simpl.
    destruct (decide (d = e)) as [->|Hne].
    + rewrite !bool_decide_eq_true_2 by done. by do 2 eexists.
    + rewrite !bool_decide_eq_false_2 by congruence. destruct (mismatched st); by do 2 eexists.
  - do 2 eexists. repeat f_equal. by repeat case_match.
Qed.

Lemma array_set_snoc {A} (l : list (option A)) x : array_set (length l) x l = l ++ [x].
Proof.
  unfold array_set, array_set_length. rewrite Nat.ltb_irrefl.
  rewrite resize_ge by lia. replace (S (length l) - length l) with 1 by lia. simpl.
  by rewrite insert_app_r_alt, Nat.sub_diag by lia.
Qed.

Lemma array_set_last {A} (l : list (option A)) x y : array_set (length l) x (l ++ [y]) = l ++ [x].
Proof.
  unfold array_set. rewrite length_app; simpl.
  assert ((length l <? length l + 1) = true) as -> by (apply Nat.ltb_lt; lia).
  by rewrite insert_app_r_alt, Nat.sub_diag by lia.
Qed.

Lemma array_set_length_snoc {A} (l : list (option A)) : array_set_length (S (length l)) l = l ++ [None].
Proof.
  unfold array_set_length. rewrite resize_ge by lia.
  by replace (S (length l) - length l) with 1 by lia.
Qed.

Lemma array_set_length_drop {A} (l : list (option A)) x : array_set_length (length l) (l ++ [x]) = l.
Proof.
  unfold array_set_length. rewrite resize_le by (rewrite length_app; simpl; lia).
  by rewrite take_app_length.
Qed.

Lemma array_get_last {A} (l : list (option A)) x : array_get (length l) (l ++ [x]) = x.
Proof. unfold array_get. by rewrite lookup_app_r, Nat.sub_diag by lia. Qed.

Lemma run_open_array ks cs sl vp m st out :
  length ks = length cs ->
  run (Ref (idle ks cs sl vp m) st out []) [0x5b%N]
  = Ok (Ref (idle (ks ++ [None]) (cs ++ [Some ArrayContainer]) SlotValue [] m) st (out ++ [0x5b%N]) []).
Proof.
  intros Hl. rewrite run_structural by done. unfold scanStructure, idle; simpl.
  unfold with_structure; simpl. rewrite array_set_length_snoc, array_set_last.
  assert (forall c, array_set (length ks) c cs = cs ++ [c]) as -> by (intros c; rewrite Hl; apply array_set_snoc).
  rewrite length_app. repeat f_equal. simpl. lia.
Qed.

Lemma run_open_object ks cs sl vp m st out :
  length ks = length cs ->
  run (Ref (idle ks cs sl vp m) st out []) [0x7b%N]
  = Ok (Ref (idle (ks ++ [None]) (cs ++ [Some ObjectContainer]) SlotKey [] m) st (out ++ [0x7b%N]) []).
Proof.
  intros Hl. rewrite run_structural by done. unfold scanStructure, idle; simpl.
  unfold with_structure; simpl. rewrite array_set_length_snoc, array_set_last.
  assert (forall c, array_set (length ks) c cs = cs ++ [c]) as -> by (intros c; rewrite Hl; apply array_set_snoc).
  rewrite length_app. repeat f_equal. simpl. lia.
Qed.

Lemma run_close ks cs x c sl vp m st out b :
  length ks = length cs -> b = 0x5d%N \/ b = 0x7d%N ->
  run (Ref (idle (ks ++ [x]) (cs ++ [c]) sl vp m) st out []) [b]
  = Ok (Ref (idle ks cs SlotNone [] m) st (out ++ [b]) []).
Proof.
  intros Hl Hb. rewrite run_structural by (by destruct Hb as [-> | ->]).
  assert (scanStructure b (idle (ks ++ [x]) (cs ++ [c]) sl vp m) = idle ks cs SlotNone [] m) as ->; [|done].
  transitivity (with_structure (array_set_length (length ks) (ks ++ [x]))
    (array_set_length (length ks) (cs ++ [c])) (length ks) SlotNone [] (idle (ks ++ [x]) (cs ++ [c]) sl vp m)).
  { unfold scanStructure, idle; simpl. rewrite length_app; simpl.
    rewrite Nat.add_1_r. by destruct Hb as [-> | ->]. }
  rewrite array_set_length_drop. rewrite Hl at 1. by rewrite array_set_length_drop.
Qed.

Lemma run_comma ks cs x c sl vp m st out :
  length ks = length cs ->
  run (Ref (idle (ks ++ [x]) (cs ++ [Some c]) sl vp m) st out []) [0x2c%N]
  = Ok (Ref (idle (ks ++ [x]) (cs ++ [Some c])
              (match c with ObjectContainer => SlotKey | ArrayContainer => SlotValue end) vp m)
          st (out ++ [0x2c%N]) []).
Proof.
  intros Hl. rewrite run_structural by done. unfold scanStructure, idle; simpl.
  rewrite length_app, Nat.add_1_r; simpl. rewrite Hl, array_get_last. by destruct c.
Qed.

Lemma run_colon ks cs x sl vp m st out :
  run (Ref (idle (ks ++ [x]) cs sl vp m) st out []) [0x3a%N]
  = Ok (Ref (idle (ks ++ [x]) cs SlotValue (ks ++ [x]) m) st (out ++ [0x3a%N]) []).
Proof.
  rewrite run_structural by done. unfold scanStructure, idle; simpl.
  rewrite length_app, Nat.add_1_r; simpl. rewrite array_get_last.
  rewrite take_app_le, take_ge by lia. done.
Qed.

Lemma run_key ks cs x vp m st out raw :
  length ks = length cs -> string_token raw ->
  run (Ref (idle (ks ++ [x]) (cs ++ [Some ObjectContainer]) SlotKey vp m) st out []) raw
  = Ok (Ref (idle (ks ++ [path_key raw]) (cs ++ [Some ObjectContainer]) SlotNone vp m) st (out ++ raw) []).
Proof.
  intros Hl Hraw. rewrite run_string by done. unfold ref_finish, startString, core, isModelPath.
  simpl. rewrite length_app, Nat.add_1_r; simpl. rewrite Hl, array_get_last. simpl.
  unfold buffered; simpl. rewrite <- Hl, array_set_last.
  unfold idle, with_slot, with_keys, with_structure, path_key; simpl.
  rewrite !length_app, Nat.add_1_r; simpl. rewrite ?Hl, ?Nat.add_1_r. by destruct (_ <? _).
Qed.

Lemma vp_after_nil v : vp_after v [] = [].
Proof. by induction v as [| | | |? ? ? IH] using json_rect'. Qed.

Definition value_runs (v : json) : Prop := forall ks cs sl vp m st out,
  length ks = length cs -> sl <> SlotKey ->
  exists m' st',
    run (Ref (idle ks cs sl vp m) st out []) (print v)
    = Ok (Ref (idle ks cs SlotNone (vp_after v vp) m') st' (out ++ print (rewrite_json ks vp v)) []).

Lemma run_items items : Forall value_runs items -> forall ks cs sl m st out,
  length ks = length cs -> sl <> SlotKey ->
  exists sl' m' st',
    run (Ref (idle (ks ++ [None]) (cs ++ [Some ArrayContainer]) sl [] m) st out []) (commas (print <$> items))
    = Ok (Ref (idle (ks ++ [None]) (cs ++ [Some ArrayContainer]) sl' [] m') st'
            (out ++ commas (print <$> (rewrite_json (ks ++ [None]) [] <$> items))) []).
Proof.
  induction 1 as [|v items Hv Hitems IH]; intros ks cs sl m st out Hl Hsl.
  { do 3 eexists. simpl. by rewrite app_nil_r. }
  destruct (Hv (ks ++ [None]) (cs ++ [Some ArrayContainer]) sl [] m st out) as (m1 & st1 & H1);
    [rewrite !length_app; simpl; lia|done|].
  rewrite vp_after_nil in H1. destruct items as [|v2 items]; [simpl; eauto|].
  edestruct (IH ks cs SlotValue m1 st1) as (sl2 & m2 & st2 & H2); [done|done|].
  do 3 eexists. change (commas (print <$> v :: v2 :: items))
    with (print v ++ [0x2c%N] ++ commas (print <$> v2 :: items)).
  rewrite !run_app, H1. cbn [mbind result_bind].
  rewrite run_app, run_comma by done. cbn [mbind result_bind].
  rewrite H2. simpl. by rewrite <- !app_assoc.
Qed.

Lemma print_member pre raw post v :
  pre ++ raw ++ post ++ [0x3a%N] ++ print v = (pre ++ raw ++ post ++ [0x3a%N]) ++ print v.
Proof. by rewrite <- !app_assoc. Qed.

Abbreviation member := (bytes * bytes * bytes * json)%type.
Definition print_mem : member -> bytes :=
  fun '(pre, raw, post, v) => pre ++ raw ++ post ++ [0x3a%N] ++ print v.
Definition rewrite_mem ks : member -> member :=
  fun '(pre, raw, post, v) =>
    (pre, raw, post, rewrite_json (ks ++ [path_key raw]) (ks ++ [path_key raw]) v).
Definition valid_mem : member -> Prop :=
  fun '(pre, raw, post, v) => ws_token pre /\ string_token raw /\ ws_token post /\ value_runs v.

Lemma run_member ks cs x vp m st out mem :
  length ks = length cs -> valid_mem mem ->
  exists x' vp' m' st',
    run (Ref (idle (ks ++ [x]) (cs ++ [Some ObjectContainer]) SlotKey vp m) st out []) (print_mem mem)
    = Ok (Ref (idle (ks ++ [x']) (cs ++ [Some ObjectContainer]) SlotNone vp' m') st'
            (out ++ print_mem (rewrite_mem ks mem)) []).
Proof.
  destruct mem as [[[pre raw] post] v]. intros Hl (Hpre & Hraw & Hpost & Hv). unfold print_mem.
  rewrite run_app, run_ws by done. cbn [mbind result_bind].
  rewrite run_app, run_key by done. cbn [mbind result_bind].
  rewrite run_app, run_ws by done. cbn [mbind result_bind].
  rewrite run_app, run_colon. cbn [mbind result_bind].
  edestruct (Hv (ks ++ [path_key raw]) (cs ++ [Some ObjectContainer]) SlotValue (ks ++ [path_key raw]) m st)
    as (m1 & st1 & H1); [rewrite !length_app; simpl; lia|done|].
  do 4 eexists. rewrite H1. simpl. by rewrite <- !app_assoc.
Qed.

Lemma run_members mems : Forall valid_mem mems -> forall ks cs x vp m st out,
  length ks = length cs ->
  exists x' sl' vp' m' st',
    run (Ref (idle (ks ++ [x]) (cs ++ [Some ObjectContainer]) SlotKey vp m) st out [])
      (commas (print_mem <$> mems))
    = Ok (Ref (idle (ks ++ [x']) (cs ++ [Some ObjectContainer]) sl' vp' m') st'
            (out ++ commas (print_mem <$> (rewrite_mem ks <$> mems))) []).
Proof.
  induction 1 as [|mem mems Hm Hmems IH]; intros ks cs x vp m st out Hl.
  { do 5 eexists. simpl. by rewrite app_nil_r. }
  destruct (run_member ks cs x vp m st out mem Hl Hm) as (x1 & vp1 & m1 & st1 & H1).
  destruct mems as [|mem2 mems]; [by do 5 eexists|].
  edestruct (IH ks cs x1 vp1 m1 st1) as (x2 & sl2 & vp2 & m2 & st2 & H2); [done|].
  do 5 eexists. change (commas (print_mem <$> mem :: mem2 :: mems))
    with (print_mem mem ++ [0x2c%N] ++ commas (print_mem <$> mem2 :: mems)).
  rewrite !run_app, H1. cbn [mbind result_bind].
  rewrite run_app, run_comma by done. cbn [mbind result_bind].
  rewrite H2. simpl. by rewrite <- !app_assoc.
Qed.

Lemma run_value v : valid v -> value_runs v.
Proof.
  induction v as [lit|raw|ws items IH|ws mems IH|pre v post IH] using json_rect';
    intros Hvalid ks cs sl vp m st out Hl Hsl; simpl in Hvalid; cbn [print].
  - destruct Hvalid as [Hne Hlit]. rewrite run_atom_bytes by done. destruct lit; [done|eauto].
  - by apply run_string_value.
  - destruct Hvalid as [Hws Hitems].
    assert (Forall value_runs items) as Hall.
    { clear -IH Hitems. induction IH; [done|]. destruct Hitems. constructor; auto. }
    rewrite run_app, run_open_array by done. cbn [mbind result_bind].
    rewrite run_app, run_ws by done. cbn [mbind result_bind].
    edestruct (run_items items Hall ks cs SlotValue m st) as (sl1 & m1 & st1 & H1); [done|done|].
    rewrite run_app, H1. cbn [mbind result_bind]. rewrite run_close by auto.
    do 2 eexists. simpl. by rewrite <- !app_assoc.
  - destruct Hvalid as [Hws Hmems].
    assert (Forall valid_mem mems) as Hall.
    { clear -IH Hmems. induction IH as [|[[[pre raw] post] v] mems Hv _ IHm]; [done|].
      simpl in Hmems. destruct Hmems as [(?&?&?&?) ?]. constructor; [|auto]. simpl in *. auto. }
    rewrite run_app, run_open_object by done. cbn [mbind result_bind].
    rewrite run_app, run_ws by done. cbn [mbind result_bind].
    edestruct (run_members mems Hall ks cs None [] m st) as (x1 & sl1 & vp1 & m1 & st1 & H1); [done|].
    rewrite run_app. fold print_mem. rewrite H1. cbn [mbind result_bind]. rewrite run_close by auto.
    do 2 eexists. simpl. by rewrite <- !app_assoc.
  - destruct Hvalid as (Hpre & Hv & Hpost).
    rewrite run_app, run_ws by done. cbn [mbind result_bind].
    edestruct (IH Hv ks cs sl vp m st) as (m1 & st1 & H1); [done|done|].
    rewrite run_app, H1. cbn [mbind result_bind]. rewrite run_ws by done.
    do 2 eexists. simpl. by rewrite <- !app_assoc.
Qed.

End Rewrite.

(** C3. The scanner rewrites JSON documents: whatever the chunking of the
    printed text of a document (any whitespace, any nesting), the relayed text
    is the text of the same document in which exactly the strings at the
    mapping's paths that decode to the expected upstream name are replaced. *)
Theorem rewriteJsonModelResponseBody_document {ERR} mapping v chunks
    (Hvalid : valid v) (Hchunks : concat chunks = print v) :
  exists st out,
    rewriteJsonModelResponseBody (ERR := ERR) chunks mapping = Ok (st, out)
    /\ concat out = print (rewrite_json mapping [] [] v).
Proof.
  pose proof (rewriteStream_ref (responseOptions (ERR := ERR) mapping) chunks (ResponseState false 0)) as Hr.
  destruct (run_value mapping (ERR := ERR) v Hvalid [] [] SlotNone [] false (ResponseState false 0) [])
    as (m & st & Hrun); [done|done|].
  rewrite Hchunks in Hr. unfold ref_init in Hr.
  change newScanner with (idle [] [] SlotNone [] false) in Hr at 2. rewrite Hrun in Hr.
  unfold rewriteJsonModelResponseBody. simpl in Hr. unfold ref_end in Hr. simpl in Hr.
  rewrite app_nil_r in Hr.
  destruct (rewriteStream _ _ _ _) as [[st' out]|]; simplify_eq/=. by exists st, out.
Qed.

(** [{"a": [{"model":"up"}, "up"], "model" : "up"}] cut in three places. *)
Definition sample_mapping : JsonModelRewriteMapping :=
  Mapping [[js "model"]] (Some (js "ext")) (Some (js "up")).
Definition sample_document : json :=
  JObject [] [([], json_text "'a'", [], JPad [32%N] (JArray []
                [JObject [] [([], json_text "'model'", [], JString (json_text "'up'"))];
                 JPad [32%N] (JString (json_text "'up'")) []]) []);
              ([32%N], json_text "'model'", [32%N], JPad [32%N] (JString (json_text "'up'")) [])].

Lemma rewriteJsonModelResponseBody_document_witness :
  valid sample_document
  /\ exists st out,
    rewriteJsonModelResponseBody (ERR := relay_error)
      [take 3 (print sample_document); drop 3 (print sample_document)] sample_mapping = Ok (st, out)
    /\ concat out = json_text "{'a': [{'model':'up'}, 'up'], 'model' : 'ext'}".
Proof.
  assert (valid sample_document) as Hv by (apply validb_valid; reflexivity).
  split; [exact Hv|].
  destruct (rewriteJsonModelResponseBody_document (ERR := relay_error) sample_mapping sample_document
    [take 3 (print sample_document); drop 3 (print sample_document)] Hv ltac:(reflexivity)) as (st & out & H1 & H2).
  exists st, out. split; [exact H1|]. rewrite H2. vm_compute. reflexivity.
Defined.
