(* ===== verification/JsonStringRoundtrip.v ===== *)
(** * The relay decodes what it encodes

    UTF-8 decoding undoes encoding on well-formed strings, and the relay's
    [decodeJsonString] undoes [JSON.stringify] followed by UTF-8 encoding: a
    model name the relay writes is the name a reader gets back. *)

From S2P Require Export JsonRewrite.

Lemma land_mask c k : N.land c (N.ones k) = (c mod 2 ^ k)%N.
Proof. apply N.land_ones. Qed.

Lemma lor_disjoint a k x : (x < 2 ^ k -> a mod 2 ^ k = 0 -> N.lor a x = a + x)%N.
Proof.
  intros Hx Ha. assert (N.land a x = 0)%N as Hl.
  { apply N.bits_inj_0. intros n. rewrite N.land_spec. destruct (N.lt_ge_cases n k) as [Hn|Hn].
    - rewrite <- (N.mod_pow2_bits_low a k n Hn), Ha, N.bits_0. done.
    - rewrite <- (N.mod_small x (2 ^ k)), N.mod_pow2_bits_high by done. by rewrite andb_false_r. }
  by rewrite <- N.lxor_lor, <- N.add_nocarry_lxor.
Qed.

(** A Unicode scalar value. *)
Definition scalar (c : N) : Prop := (c <= 0x10FFFF /\ ~ (0xD800 <= c <= 0xDFFF))%N.

Lemma utf8_of_code_point_arith c : (c <= 0x10FFFF)%N ->
  utf8_of_code_point c =
    (if c <=? 0x7f then [c]
     else if c <=? 0x7ff then [0xc0 + c / 64; 0x80 + c mod 64]
     else if c <=? 0xffff then [0xe0 + c / 4096; 0x80 + (c / 64) mod 64; 0x80 + c mod 64]
     else [0xf0 + c / 262144; 0x80 + (c / 4096) mod 64; 0x80 + (c / 64) mod 64; 0x80 + c mod 64])%N.
Proof.
  intros Hc. unfold utf8_of_code_point.
  change 0x3f%N with (N.ones 6). rewrite !N.land_ones, !N.shiftr_div_pow2.
  change (2 ^ 6)%N with 64%N. change (2 ^ 12)%N with 4096%N. change (2 ^ 18)%N with 262144%N.
  assert (forall x, N.lor 0x80 (x mod 64) = (0x80 + x mod 64)%N) as Hcont.
  { intros x. apply (lor_disjoint _ 6); [|done]. change (2 ^ 6)%N with 64%N. div_lia. }
  rewrite !Hcont.
  destruct (c <=? 0x7f)%N eqn:E1; [done|]. destruct (c <=? 0x7ff)%N eqn:E2; propify.
  { rewrite (lor_disjoint _ 5); [done| |done]. change (2 ^ 5)%N with 32%N. div_lia. }
  destruct (c <=? 0xffff)%N eqn:E3; propify.
  - rewrite (lor_disjoint _ 4); [done| |done]. change (2 ^ 4)%N with 16%N. div_lia.
  - rewrite (lor_disjoint _ 3); [done| |done]. change (2 ^ 3)%N with 8%N. div_lia.
Qed.

Lemma utf8_continue n code lo hi b bs :
  (lo <= b <= hi /\ 0x80 <= b < 0xC0)%N ->
  utf8_decode_from (Some (Utf8Pending (S n) code lo hi)) (b :: bs)
  = (let code' := code * 64 + (b - 0x80) in
     match n with
     | S n' => utf8_decode_from (Some (Utf8Pending (S n') code' 0x80 0xBF)) bs
     | O => utf16_of_code_point code' ++ utf8_decode_from None bs
     end)%N.
Proof.
  intros [Hb Hc]. simpl. rewrite bool_decide_eq_true_2 by done.
  assert (N.lor (N.shiftl code 6) (N.land b 0x3f) = code * 64 + (b - 0x80))%N as ->.
  { change 0x3f%N with (N.ones 6). rewrite N.land_ones, N.shiftl_mul_pow2.
    change (2 ^ 6)%N with 64%N. rewrite (lor_disjoint _ 6); change (2 ^ 6)%N with 64%N; div_lia. }
  by destruct n.
Qed.

Lemma utf8_decode_first b bs :
  utf8_decode_from None (b :: bs) = let '(out, st) := utf8_first b in out ++ utf8_decode_from st bs.
Proof. done. Qed.

(** Decoding the UTF-8 sequence of a scalar value gives its code units. *)
Lemma utf8_decode_scalar c bs : scalar c ->
  utf8_decode_from None (utf8_of_code_point c ++ bs) = utf16_of_code_point c ++ utf8_decode_from None bs.
Proof.
  intros [Hc Hs]. rewrite utf8_of_code_point_arith by done.
  destruct (N.leb_spec c 0x7f).
  { simpl. unfold utf8_first. rewrite (proj2 (N.leb_le c 0x7f)) by done.
    unfold utf16_of_code_point. by rewrite (proj2 (N.leb_le c 0xffff)) by lia. }
  destruct (N.leb_spec c 0x7ff).
  { cbn [app]. rewrite utf8_decode_first. unfold utf8_first.
    rewrite (proj2 (N.leb_gt _ 0x7f)) by div_lia. rewrite bool_decide_eq_true_2 by div_lia.
    cbv beta iota. rewrite app_nil_l, utf8_continue by div_lia. cbn zeta.
    change 0x1f%N with (N.ones 5). rewrite N.land_ones. change (2 ^ 5)%N with 32%N.
    repeat f_equal. div_lia. }
  destruct (N.leb_spec c 0xffff).
  { cbn [app]. rewrite utf8_decode_first. unfold utf8_first.
    rewrite (proj2 (N.leb_gt _ 0x7f)) by div_lia. rewrite bool_decide_eq_false_2 by div_lia.
    rewrite bool_decide_eq_true_2 by div_lia.
    cbv beta iota. rewrite app_nil_l, utf8_continue by (repeat case_match; propify; div_lia).
    rewrite utf8_continue by div_lia. cbn zeta.
    change 0x0f%N with (N.ones 4). rewrite N.land_ones. change (2 ^ 4)%N with 16%N.
    repeat f_equal. div_lia. }
  cbn [app]. rewrite utf8_decode_first. unfold utf8_first.
  rewrite (proj2 (N.leb_gt _ 0x7f)) by div_lia. rewrite bool_decide_eq_false_2 by div_lia.
  rewrite bool_decide_eq_false_2 by div_lia. rewrite bool_decide_eq_true_2 by div_lia.
  cbv beta iota. rewrite app_nil_l, utf8_continue by (repeat case_match; propify; div_lia).
  rewrite !utf8_continue by div_lia. cbn zeta.
  change 0x07%N with (N.ones 3). rewrite N.land_ones. change (2 ^ 3)%N with 8%N.
  repeat f_equal. div_lia.
Qed.

(** Induction over the characters of a well-formed string. *)
Lemma well_formed_ind (P : jsstring -> Prop) :
  P [] ->
  (forall u s, scalar u -> (u < 65536)%N -> is_high u = false -> is_low u = false -> P s -> P (u :: s)) ->
  (forall u v s, is_high u = true -> is_low v = true -> P s -> P (u :: v :: s)) ->
  forall s, well_formed s = true -> P s.
Proof.
  intros Hnil Hone Htwo s. remember (length s) as n eqn:Hn.
  revert s Hn. induction (lt_wf n) as [n _ IH]; intros s Hn Hwf.
  destruct s as [|u s]; [done|]. simpl in Hwf.
  destruct (is_high u) eqn:Eh.
  - destruct s as [|v s]; [done|]. propify. simpl in Hn.
    apply Htwo; [done..|]. apply (IH (length s)); [lia|done|done].
  - propify. simpl in Hn. unfold is_high, is_low in *. propify.
    apply Hone; [unfold scalar; lia|done| | |apply (IH (length s)); [lia|done|done]];
      apply bool_decide_eq_false; done.
Qed.

Lemma utf8_encode_one u s : is_high u = false -> is_low u = false ->
  utf8_encode (u :: s) = utf8_of_code_point u ++ utf8_encode s.
Proof. simpl. by intros -> ->. Qed.

Lemma utf8_encode_two u v s : is_high u = true -> is_low v = true ->
  utf8_encode (u :: v :: s) = utf8_of_code_point (combine_surrogates u v) ++ utf8_encode s.
Proof. intros Hu Hv. simpl. by rewrite Hu, Hv. Qed.

Lemma combine_surrogates_arith u v :
  combine_surrogates u v = (0x10000 + (u - 0xD800) * 1024 + (v - 0xDC00))%N.
Proof. unfold combine_surrogates. by rewrite N.shiftl_mul_pow2. Qed.

Lemma combine_surrogates_units u v : is_high u = true -> is_low v = true ->
  scalar (combine_surrogates u v) /\ (0xffff < combine_surrogates u v)%N
  /\ utf16_of_code_point (combine_surrogates u v) = [u; v].
Proof.
  unfold is_high, is_low, scalar. rewrite combine_surrogates_arith. intros Hu Hv. propify.
  split_and!; [lia..|]. unfold utf16_of_code_point. rewrite (proj2 (N.leb_gt _ 0xffff)) by lia.
  change 0x3ff%N with (N.ones 10). rewrite N.land_ones, N.shiftr_div_pow2.
  change (2 ^ 10)%N with 1024%N. repeat f_equal; div_lia.
Qed.

Lemma utf8_decode_encode s : well_formed s = true -> utf8_decode (utf8_encode s) = s.
Proof.
  revert s. apply well_formed_ind; [done| |].
  - intros u s Hs Hu Hh Hl IH. rewrite utf8_encode_one by done. unfold utf8_decode in *.
    rewrite utf8_decode_scalar, IH by done. unfold utf16_of_code_point.
    by rewrite (proj2 (N.leb_le u 0xffff)) by lia.
  - intros u v s Hu Hv IH. rewrite utf8_encode_two by done. unfold utf8_decode in *.
    destruct (combine_surrogates_units u v Hu Hv) as (Hs & _ & Hunits).
    by rewrite utf8_decode_scalar, IH, Hunits by done.
Qed.

(** ** Escapes *)

Lemma utf8_bytes_no_backslash c : (c <= 0x10FFFF)%N -> c <> 92%N ->
  Forall (fun b => b <> 92%N) (utf8_of_code_point c).
Proof.
  intros Hc Hne. rewrite utf8_of_code_point_arith by done.
  repeat case_match; repeat constructor; propify; div_lia || done.
Qed.

Lemma decodeBody_plain l bs : Forall (fun b => b <> 92%N) l ->
  decodeBody (l ++ bs) = app l <$> decodeBody bs.
Proof.
  induction 1 as [|b l Hb Hl IH]; simpl; [by destruct (decodeBody bs)|].
  rewrite (proj2 (N.eqb_neq b 92)) by done. simpl. rewrite IH. by destruct (decodeBody bs).
Qed.

Lemma json_escape_high u v s : is_high u = true -> is_low v = true ->
  json_escape (u :: v :: s) = u :: v :: json_escape s.
Proof. intros Hu Hv. simpl. by rewrite Hu, Hv. Qed.

Lemma decodeBody_simple e c bs : simpleEscape e = Some c ->
  decodeBody ([92; e]%N ++ bs) = cons c <$> decodeBody bs.
Proof. intros He. simpl. by rewrite He. Qed.

Lemma decodeBody_unicode h1 h2 h3 h4 u bs : readHexUnit h1 h2 h3 h4 = Some u -> is_high u = false ->
  decodeBody ([92; 117; h1; h2; h3; h4]%N ++ bs) = app (utf8Bytes u) <$> decodeBody bs.
Proof. intros Hr Hu. simpl. by rewrite Hr, Hu. Qed.

Lemma escape_control u : (u < 32)%N ->
  (exists e, utf8_encode (json_escape_unit u) = [92; e]%N /\ simpleEscape e = Some u)
  \/ (exists h1 h2 h3 h4, utf8_encode (json_escape_unit u) = [92; 117; h1; h2; h3; h4]%N
        /\ readHexUnit h1 h2 h3 h4 = Some u).
Proof.
  intros Hlt. assert (exists n, n < 32 /\ u = N.of_nat n) as (n & Hn & ->) by (exists (N.to_nat u); lia).
  clear Hlt. do 32 (destruct n as [|n];
    [first [left; eexists; split; vm_compute; reflexivity
           |right; do 4 eexists; split; vm_compute; reflexivity]|]).
  exfalso. lia.
Qed.

(** The bytes of an escaped unit decode to the bytes of the unit. *)
Lemma decodeBody_escape_unit u bs : scalar u -> (u < 65536)%N ->
  is_high u = false -> is_low u = false ->
  decodeBody (utf8_encode (json_escape_unit u) ++ bs) = app (utf8_of_code_point u) <$> decodeBody bs.
Proof.
  intros Hs Hu Hh Hl. destruct (decide (u < 32)%N) as [Hlt|Hge].
  - assert (utf8_of_code_point u = [u]) as ->.
    { unfold utf8_of_code_point. by rewrite (proj2 (N.leb_le u 0x7f)) by lia. }
    destruct (escape_control u Hlt) as [(e & -> & He)|(h1 & h2 & h3 & h4 & -> & Hr)].
    + by rewrite (decodeBody_simple _ _ _ He).
    + rewrite (decodeBody_unicode _ _ _ _ _ _ Hr Hh). unfold utf8Bytes.
      by rewrite (proj2 (N.leb_le u 0x7f)) by lia.
  - destruct (decide (u = 34)%N) as [->|]; [by apply decodeBody_simple|].
    destruct (decide (u = 92)%N) as [->|]; [by apply decodeBody_simple|].
    unfold json_escape_unit.
    repeat match goal with |- context [ (u =? ?k)%N ] => rewrite (proj2 (N.eqb_neq u k)) by lia end.
    rewrite (proj2 (N.ltb_ge u 32)) by lia.
    rewrite utf8_encode_one by done. simpl. rewrite app_nil_r.
    apply decodeBody_plain, utf8_bytes_no_backslash; [lia|done].
Qed.

Lemma utf8_encode_escape_unit u s : scalar u -> (u < 65536)%N -> is_high u = false -> is_low u = false ->
  utf8_encode (json_escape_unit u ++ s) = utf8_encode (json_escape_unit u) ++ utf8_encode s.
Proof.
  intros Hs Hu Hh Hl.
  assert (Forall (fun c => is_high c = false /\ is_low c = false) (json_escape_unit u)) as Hall.
  { unfold json_escape_unit. repeat case_match; repeat constructor; try done.
    all: unfold is_high, is_low, hex_digit; apply bool_decide_eq_false.
    all: change 15%N with (N.ones 4); rewrite ?N.land_ones; change (2 ^ 4)%N with 16%N.
    all: case_match; div_lia. }
  induction Hall as [|c l [Hc1 Hc2] _ IH]; [done|].
  change ((c :: l) ++ s) with (c :: (l ++ s)). rewrite !utf8_encode_one by done.
  by rewrite IH, app_assoc.
Qed.

Lemma decodeBody_escape s : well_formed s = true ->
  decodeBody (utf8_encode (json_escape s)) = Some (utf8_encode s).
Proof.
  revert s. apply well_formed_ind; [done| |].
  - intros u s Hs Hu Hh Hl IH.
    assert (json_escape (u :: s) = json_escape_unit u ++ json_escape s) as -> by (simpl; by rewrite Hh, Hl).
    rewrite utf8_encode_escape_unit, decodeBody_escape_unit, IH by done.
    by rewrite utf8_encode_one.
  - intros u v s Hu Hv IH. rewrite json_escape_high by done. rewrite !utf8_encode_two by done.
    destruct (combine_surrogates_units u v Hu Hv) as ((Hs & _) & Hbig & _).
    rewrite decodeBody_plain by (apply utf8_bytes_no_backslash; lia). by rewrite IH.
Qed.

(** A model name written by the relay ([JSON.stringify], then UTF-8) is read
    back by its decoder as the same name, for every well-formed string. *)
Theorem decodeJsonString_stringify s (Hwf : well_formed s = true) :
  decodeJsonString (utf8_encode (json_stringify_string s)) = Some s.
Proof.
  unfold json_stringify_string.
  assert (utf8_encode ([34%N] ++ json_escape s ++ [34%N]) = [34%N] ++ utf8_encode (json_escape s) ++ [34%N]) as ->.
  { change ([34%N] ++ json_escape s ++ [34%N]) with (34%N :: (json_escape s ++ [34%N])).
    rewrite utf8_encode_one by done. simpl. f_equal.
    revert s Hwf. apply well_formed_ind; [done| |].
    - intros u s Hs Hu Hh Hl IH.
      assert (json_escape (u :: s) = json_escape_unit u ++ json_escape s) as -> by (simpl; by rewrite Hh, Hl).
      rewrite <- app_assoc, !utf8_encode_escape_unit by done. by rewrite IH, app_assoc.
    - intros u v s Hu Hv IH. rewrite json_escape_high by done.
      change ((u :: v :: json_escape s) ++ [34%N]) with (u :: v :: (json_escape s ++ [34%N])).
      rewrite !utf8_encode_two by done. by rewrite IH, app_assoc. }
  unfold decodeJsonString. rewrite !length_app. simpl length.
  rewrite (proj2 (Nat.ltb_ge _ 2)) by lia. simpl head. rewrite bool_decide_eq_true_2 by done.
  rewrite app_assoc, last_snoc, bool_decide_eq_true_2 by done. rewrite <- app_assoc.
  assert (subarray 1 (1 + (length (utf8_encode (json_escape s)) + 1) - 1)
    ([34%N] ++ utf8_encode (json_escape s) ++ [34%N]) = utf8_encode (json_escape s)) as ->.
  { unfold subarray. simpl. rewrite drop_0. rewrite take_app_le by lia. apply take_ge. lia. }
  simpl. rewrite decodeBody_escape by done. simpl. by rewrite utf8_decode_encode.
Qed.

Lemma decodeJsonString_stringify_witness :
  well_formed [0x67; 0x22; 0x0A; 0xD83D; 0xDE00]%N = true
  /\ decodeJsonString (utf8_encode (json_stringify_string [0x67; 0x22; 0x0A; 0xD83D; 0xDE00]%N))
     = Some [0x67; 0x22; 0x0A; 0xD83D; 0xDE00]%N.
Proof.
  split; [reflexivity|].
  apply (decodeJsonString_stringify [0x67; 0x22; 0x0A; 0xD83D; 0xDE00]%N). reflexivity.
Defined.
