(* ===== verification/JsonRequestSpec.v ===== *)
(** * The relayed request body

    [createModelRelayRequestBody] reads a prologue, resolves the model before
    any upstream contact and streams the rest.  When the whole body goes
    through, exactly one string literal was the model and everything else is
    the caller's bytes. *)

From S2P Require Export JsonRewriteSpec.

Section Request.
Context (resolveUpstreamModelName : jsstring -> result relay_error jsstring).
Context (maxPrologueBytes : nat) (max_string : option nat)
  (request_paths : option (list JsonModelPath)).

Abbreviation opts := (requestOptions resolveUpstreamModelName max_string request_paths).
Abbreviation run := (ref_run opts).

Definition replacement_of (external upstream : jsstring) (raw : bytes) : bytes :=
  if bool_decide (upstream = external) then raw
  else utf8_encode (json_stringify_string upstream).

(** One string literal, the external model, is exchanged for the upstream
    name; an identity mapping keeps its bytes. *)
Definition one_model_swapped (external upstream : jsstring) (input output : bytes) : Prop :=
  exists pre raw post,
    input = pre ++ raw ++ post /\ decodeJsonString raw = Some external
    /\ resolveUpstreamModelName external = Ok upstream
    /\ output = pre ++ replacement_of external upstream raw ++ post.

Definition request_relayed (st : request_state) (input output : bytes) : Prop :=
  match externalModelName st, upstreamModelName st with
  | Some external, Some upstream => one_model_swapped external upstream input output
  | None, None => output = input
  | _, _ => False
  end.

Lemma request_relayed_keep kept st input output :
  request_relayed st input output -> request_relayed st (input ++ kept) (output ++ kept).
Proof.
  unfold request_relayed. repeat case_match; try done; [|by intros ->].
  intros (pre & raw & post & -> & Hd & Hr & ->).
  exists pre, raw, (post ++ kept). by rewrite <- !app_assoc.
Qed.

(** The state after [input]: what is relayed, what the current string holds,
    and that the model was matched exactly when its name is known. *)
Definition request_inv (input : bytes) (r : ref request_state) : Prop :=
  (inString (r_sc r) = false -> r_cur r = [])
  /\ matchedValue (r_sc r) = bool_decide (externalModelName (r_cb r) <> None)
  /\ exists i, input = i ++ r_cur r /\ request_relayed (r_cb r) i (r_out r).

Lemma ref_finish_request raw sc st out r :
  ref_finish opts raw sc st out = Ok r ->
  matchedValue sc = bool_decide (externalModelName st <> None) ->
  r_cur r = [] /\ matchedValue (r_sc r) = bool_decide (externalModelName (r_cb r) <> None)
  /\ forall i, request_relayed st i out -> request_relayed (r_cb r) (i ++ raw) (r_out r).
Proof.
  unfold ref_finish. intros Hfin Hm.
  destruct (stringRole sc); [simplify_eq/=; eauto using request_relayed_keep|].
  destruct (_ && negb _).
  2: { destruct (oversized_error _ _ _); simplify_eq/=; eauto using request_relayed_keep. }
  destruct (decodeJsonString raw) as [d|] eqn:Ed; [|done].
  apply bind_Ok in Hfin as ([st' rep] & Hcb & Hfin). simplify_eq/=.
  unfold requestModelValue in Hcb. case_bool_decide as Hext; [done|].
  apply bind_Ok in Hcb as (resolved & Hres & Hcb). simplify_eq/=.
  split; [done|]. split; [done|].
  intros i Hi. unfold request_relayed in *. simpl.
  destruct (externalModelName st); [done|].
  destruct (upstreamModelName st); [done|subst].
  exists i, raw, []. rewrite !app_nil_r. split_and!; [done..|].
  unfold replacement_of. by case_bool_decide.
Qed.

Lemma ref_step_request input r b r' :
  request_inv input r -> ref_step opts r b = Ok r' -> request_inv (input ++ [b]) r'.
Proof.
  destruct r as [sc st out cur]. unfold request_inv. simpl. intros (Hq & Hm & i & -> & Hi).
  destruct (inString sc) eqn:Ein.
  - destruct (stringEscaped sc); [|destruct (b =? 92)%N; [|destruct (b =? 34)%N]]; intros Hs.
    3: { apply ref_finish_request in Hs as (Hc & Hm' & Hr); [|done].
         split; [done|]. split; [done|]. exists ((i ++ cur) ++ [b]). rewrite Hc, app_nil_r.
         split; [done|]. rewrite <- app_assoc. auto. }
    all: simplify_eq/=; rewrite ?Ein; split_and!; try done; exists i; by rewrite app_assoc.
  - rewrite (Hq eq_refl), app_nil_r. destruct (b =? 34)%N eqn:Eb.
    + apply N.eqb_eq in Eb as ->. intros. simplify_eq/=. split_and!; [done|done|]. by exists i.
    + destruct (_ && negb _); [by intros|]. intros. simplify_eq/=.
      split_and!; [done| |].
      { rewrite <- Hm. unfold scanStructure. by repeat case_match. }
      exists (i ++ [b]). rewrite app_nil_r. split; [done|]. by apply request_relayed_keep.
Qed.

Lemma ref_run_request bs : forall input r r',
  request_inv input r -> run r bs = Ok r' -> request_inv (input ++ bs) r'.
Proof.
  unfold ref_run. induction bs as [|b bs IH]; intros input r r' Hr Hrun.
  - simplify_eq/=. by rewrite app_nil_r.
  - rewrite foldM_cons in Hrun. apply bind_Ok in Hrun as (r1 & H1 & Hrun).
    change (b :: bs) with ([b] ++ bs). rewrite app_assoc.
    eapply IH; [by eapply ref_step_request|done].
Qed.

(** Once the model is known the callbacks are final. *)
Lemma ref_step_frozen r b r' :
  externalModelName (r_cb r) <> None -> ref_step opts r b = Ok r' -> r_cb r' = r_cb r.
Proof.
  destruct r as [sc st out cur]. simpl. intros Hext Hs.
  destruct (inString sc).
  - destruct (stringEscaped sc); [|destruct (b =? 92)%N; [|destruct (b =? 34)%N]]; simplify_eq/=; try done.
    unfold ref_finish in Hs. destruct (stringRole sc); [by simplify_eq/=|].
    destruct (_ && negb _); [|destruct (oversized_error _ _ _); by simplify_eq/=].
    destruct (decodeJsonString _); [|done]. apply bind_Ok in Hs as ([st' rep] & Hcb & Hs).
    simpl in Hcb. unfold requestModelValue in Hcb. by rewrite bool_decide_eq_true_2 in Hcb.
  - destruct (b =? 34)%N; [by simplify_eq/=|]. destruct (_ && negb _); by simplify_eq/=.
Qed.

Lemma ref_run_frozen bs : forall r r',
  externalModelName (r_cb r) <> None -> run r bs = Ok r' -> r_cb r' = r_cb r.
Proof.
  unfold ref_run. induction bs as [|b bs IH]; intros r r' Hext Hrun; [by simplify_eq/=|].
  rewrite foldM_cons in Hrun. apply bind_Ok in Hrun as (r1 & H1 & Hrun).
  apply ref_step_frozen in H1 as Hcb; [|done].
  apply IH in Hrun; [congruence|by rewrite Hcb].
Qed.

Lemma hold_app parts : forall held n held' n',
  hold maxPrologueBytes parts held n = Ok (held', n') -> held' = held ++ parts.
Proof.
  induction parts as [|p parts IH]; intros held n held' n' Hh; simplify_eq/=.
  - by rewrite app_nil_r.
  - case_match; [done|]. apply IH in Hh as ->. by rewrite <- app_assoc.
Qed.

Lemma prologue_sim chunks : forall input sc st held n r sc' st' held' remainder rest,
  boundary opts (concat held) sc st r -> request_inv input r -> matchedValue sc = false ->
  prologue resolveUpstreamModelName maxPrologueBytes max_string request_paths chunks sc st held n
    = Ok (sc', st', held', remainder, rest) ->
  exists consumed r',
    concat chunks = consumed ++ default [] remainder ++ concat rest
    /\ run r consumed = Ok r' /\ boundary opts (concat held') sc' st' r'.
Proof.
  induction chunks as [|chunk chunks IH]; intros input sc st held n r sc' st' held' remainder rest Hb Hinv Hm Hp.
  { simplify_eq/=. exists [], r. done. }
  simpl in Hp. apply bind_Ok in Hp as ([[[sc1 st1] out1] k] & Hscan & Hp).
  apply bind_Ok in Hp as ([held1 n1] & Hhold & Hp). apply hold_app in Hhold as ->.
  pose proof (scan_sim opts true _ chunk _ _ _ Hb ltac:(done)) as Hs.
  unfold pushUntilMatch in Hscan. rewrite Hscan in Hs. destruct Hs as ((r1 & Hrun1 & Hb1) & Hk).
  rewrite <- concat_app in Hb1.
  case_bool_decide as Hext.
  - simplify_eq/=. exists (take k chunk), r1. split; [|done].
    by rewrite app_assoc, take_drop.
  - assert (k = length chunk /\ matchedValue sc1 = false) as [-> Hm1].
    { destruct Hk as [[-> Hk]|[_ Hk]]; [auto|].
      apply ref_run_request with (input := input) in Hrun1 as (_ & Hm1 & _); [|done].
      destruct Hb1 as (Hc1 & -> & _). rewrite <- Hc1 in Hm1. simpl in Hm1. rewrite Hk in Hm1.
      symmetry in Hm1. by apply bool_decide_eq_true in Hm1. }
    rewrite take_ge in Hrun1 by lia.
    destruct (IH (input ++ chunk) _ _ _ n1 r1 sc' st' held' remainder rest Hb1) as (consumed & r' & Hcc & Hrun & Hb');
      [by eapply ref_run_request|done|done|].
    exists (chunk ++ consumed), r'. split; [simpl; by rewrite Hcc, <- app_assoc|].
    split; [|done]. unfold ref_run in *. rewrite foldM_app, Hrun1. done.
Qed.

Lemma yieldPushes_sim chunks : forall acc sc st r out,
  boundary opts acc sc st r ->
  yieldPushes resolveUpstreamModelName max_string request_paths chunks sc st = (out, None) ->
  exists st', (run r (concat chunks) ≫= ref_end opts) = Ok (st', acc ++ concat out).
Proof.
  induction chunks as [|chunk chunks IH]; intros acc sc st r out Hb Hy; simpl in Hy.
  { simplify_eq/=. eexists. unfold ref_run. simpl. by erewrite boundary_end. }
  pose proof (scan_sim opts false _ chunk _ _ _ Hb ltac:(done)) as Hs. unfold push in Hy.
  destruct (scan _ _ _ _ _) as [[[[sc1 st1] out1] k]|e]; simpl in Hy; [|done].
  destruct Hs as ((r1 & Hr1 & Hb1) & [[-> _]|[? _]]); [|done].
  rewrite take_ge in Hr1 by lia.
  destruct (yieldPushes _ _ _ _ _ _) as [out2 err] eqn:Ey. simplify_eq/=.
  destruct (IH _ _ _ _ _ Hb1 Ey) as (st' & H'). exists st'.
  unfold ref_run in *. simpl. rewrite foldM_app, Hr1. simpl.
  rewrite H'. by rewrite concat_app, app_assoc.
Qed.
End Request.


(** A resolver that knows one model, and a body cut inside its model name. *)
Definition sample_resolve (name : jsstring) : result relay_error jsstring :=
  if bool_decide (name = js "ext") then Ok (js "upstream") else Throw (ResolveError name).

Definition sample_chunks : list bytes :=
  [json_text "{'input':{'model':'x'},'model':'e"; json_text "xt','n':1}"].

Definition sample_body : ModelRelayRequestBody :=
  default (RequestBody [] [] ([], None))
    (match createModelRelayRequestBody sample_resolve 100 None None sample_chunks with
     | Ok rb => Some rb | Throw _ => None end).

