(* ===== verification/SseRewrite.v ===== *)
(** * The relay's server-sent-event rewriter

    [packages/node-agent/src/models/relay/sse-model-rewrite.ts]: the line
    framer [sseLines], the rewriting of one event's data payload and the body
    generator with its event limit.  A stream is the list of its chunks; a
    generator is the list of the parts it yields with the error it ends in. *)

From S2P Require Export JsonRewrite.

(** A line of the stream: [raw] is [content] followed by [terminator]. *)
Record SseLine := Line { raw : bytes; content : bytes; terminator : bytes }.

(** [splitLine(buffer, start, end)], on the bytes from [start] to [end]. *)
Definition splitLine (raw_bytes : bytes) : SseLine :=
  let n := length raw_bytes in
  let contentEnd := if bool_decide (last raw_bytes = Some 10%N) then n - 1 else n in
  let contentEnd :=
    if (0 <? contentEnd) && bool_decide (raw_bytes !! (contentEnd - 1) = Some 13%N)
    then contentEnd - 1 else contentEnd in
  Line raw_bytes (take contentEnd raw_bytes) (drop contentEnd raw_bytes).

(** The loop over [data]: [line] holds the bytes from [lineStart] to the index
    and [rest] the bytes from there.  A CR that ends the chunk may be half of
    a CRLF: it stays in the carry with its line. *)
Fixpoint lineLoop (line rest : bytes) : list SseLine * bytes :=
  match rest with
  | [] => ([], line)
  | byte :: rest' =>
      if (byte =? 0x0a)%N then
        let '(ls, carry) := lineLoop [] rest' in (splitLine (line ++ [byte]) :: ls, carry)
      else if (byte =? 0x0d)%N then
        match rest' with
        | [] => ([], line ++ [byte])
        | next :: rest'' =>
            if (next =? 0x0a)%N then
              let '(ls, carry) := lineLoop [] rest'' in
              (splitLine (line ++ [byte; next]) :: ls, carry)
            else
              let '(ls, carry) := lineLoop [] rest' in (splitLine (line ++ [byte]) :: ls, carry)
        end
      else lineLoop (line ++ [byte]) rest'
  end.

(** One chunk after the carry of the previous ones. *)
Fixpoint sseLinesFrom (carry : bytes) (chunks : list bytes) : list SseLine :=
  match chunks with
  | [] => match carry with [] => [] | _ => [splitLine carry] end
  | chunk :: chunks' =>
      let '(ls, carry) := lineLoop [] (carry ++ chunk) in ls ++ sseLinesFrom carry chunks'
  end.

Definition sseLines (chunks : list bytes) : list SseLine := sseLinesFrom [] chunks.

(** [buffer.toString("ascii")]: the top bit of every byte is dropped. *)
Definition ascii_string (b : bytes) : jsstring := (fun c => N.land c 0x7f) <$> b.

Definition dataPayload (content : bytes) : option bytes :=
  if (length content <? 5) || negb (bool_decide (ascii_string (take 5 content) = js "data:")) then None
  else
    match drop 5 content with
    | first :: payload => Some (if (first =? 0x20)%N then payload else first :: payload)
    | [] => Some []
    end.

Fixpoint looksLikeJson (buffer : bytes) : bool :=
  match buffer with
  | [] => false
  | byte :: buffer' =>
      if ((byte =? 0x20) || (byte =? 0x09))%N then looksLikeJson buffer' else (byte =? 0x7b)%N
  end.

(** [part] holds the bytes from [start] to the index. *)
Fixpoint splitOnNewlineFrom (part buffer : bytes) : list bytes :=
  match buffer with
  | [] => [part]
  | byte :: buffer' =>
      if negb (byte =? 0x0a)%N then splitOnNewlineFrom (part ++ [byte]) buffer'
      else part :: splitOnNewlineFrom [] buffer'
  end.
Definition splitOnNewline (buffer : bytes) : list bytes := splitOnNewlineFrom [] buffer.

(** The payloads of an event joined with newlines. *)
Fixpoint joinPayloads (payloads : list bytes) : bytes :=
  match payloads with
  | [] => []
  | [p] => p
  | p :: ps => p ++ [10%N] ++ joinPayloads ps
  end.

Section Sse.
Context (mapping : JsonModelRewriteMapping) (maxEventBytes : nat).

(** [calls] counts the calls of [onMismatch]; the [mismatched] flag belongs to
    the scanner of one buffer. *)
Definition rewriteSseEventData (payloads : list bytes) (calls : nat)
  : result relay_error (nat * option (list bytes)) :=
  match payloads with
  | [] => Ok (calls, None)
  | _ =>
      let joined := joinPayloads payloads in
      if negb (looksLikeJson joined) then Ok (calls, None)
      else
        '(st, rewritten) ← rewriteJsonModelBuffer joined mapping (ResponseState false calls);
        if bool_decide (rewritten = joined) then Ok (mismatchCalls st, None)
        else
          let parts := splitOnNewline rewritten in
          Ok (mismatchCalls st, if length parts =? length payloads then Some parts else None)
  end.

(** The lines of an event with [parts] on its data lines, in order. *)
Fixpoint replaceDataLines (lines : list SseLine) (parts : list bytes) : list bytes :=
  match lines with
  | [] => []
  | line :: lines' =>
      match dataPayload (content line), parts with
      | Some payload, part :: parts' =>
          (take (length (content line) - length payload) (content line) ++ part ++ terminator line)
            :: replaceDataLines lines' parts'
      | _, _ => raw line :: replaceDataLines lines' parts
      end
  end.

Definition flush (lines : list SseLine) (calls : nat) : result relay_error (nat * list bytes) :=
  '(calls, rewritten) ← rewriteSseEventData (omap (fun line => dataPayload (content line)) lines) calls;
  Ok (calls, replaceDataLines lines (default [] rewritten)).

(** The generator: [lines] and [eventBytes] describe the open event. *)
Fixpoint sseEvents (input : list SseLine) (lines : list SseLine) (eventBytes calls : nat)
  : list bytes * option relay_error * nat :=
  match input with
  | [] =>
      match flush lines calls with
      | Ok (calls, out) => (out, None, calls)
      | Throw e => ([], Some e, calls)
      end
  | line :: input' =>
      let eventBytes := eventBytes + length (raw line) in
      if maxEventBytes <? eventBytes then ([], Some UpstreamStreamError, calls)
      else
        match content line with
        | [] =>
            match flush lines calls with
            | Ok (calls, out) =>
                let '(out', err, calls) := sseEvents input' [] 0 calls in
                (out ++ [raw line] ++ out', err, calls)
            | Throw e => ([], Some e, calls)
            end
        | _ => sseEvents input' (lines ++ [line]) eventBytes calls
        end
  end.

Definition rewriteSseModelResponseBody (chunks : list bytes) : list bytes * option relay_error * nat :=
  sseEvents (sseLines chunks) [] 0 0.
End Sse.

(** ** Evaluation *)

Definition sse_text (s : string) : bytes :=
  (fun c => if (c =? 39)%N then 34%N else if (c =? 124)%N then 10%N else c) <$> js s.

Example sse_ex :
  rewriteSseModelResponseBody (Mapping [[js "model"]] (Some (js "ext")) (Some (js "up"))) (N.to_nat 100)
    [sse_text "event: x|data: {'mod"; sse_text "el':'up'}||data: {'model':'other'}||da"; sse_text "ta: x"]
  = ([sse_text "event: x|"; sse_text "data: {'model':'ext'}|"; sse_text "|";
      sse_text "data: {'model':'other'}|"; sse_text "|"; sse_text "data: x"], None, 1).
Proof. vm_compute. reflexivity. Qed.
