(* ===== verification/SseRewriteSpec.v ===== *)
(** * What the SSE rewriter promises

    The line framer sees the same lines for every chunking of a stream, and
    the relayed stream has the lines of the received one: only the payloads of
    data lines change, and only by the edits of the JSON rewriter. *)

From S2P Require Export SseRewrite JsonRewriteSpec.

(** ** Lines *)

Definition plain (b : N) : Prop := b <> 10%N /\ b <> 13%N.
Definition eol (t : bytes) : Prop := t = [] \/ t = [10%N] \/ t = [13%N] \/ t = [13%N; 10%N].

Definition line_ok (l : SseLine) : Prop :=
  Forall plain (content l) /\ eol (terminator l) /\ raw l = content l ++ terminator l.

Lemma plain_last c x : Forall plain c -> last c = Some x -> plain x.
Proof.
  intros Hc Hl. apply last_Some in Hl as [l ->]. apply Forall_app in Hc as [_ Hc].
  by inversion Hc.
Qed.

Lemma splitLine_eol c t : Forall plain c -> eol t -> splitLine (c ++ t) = Line (c ++ t) c t.
Proof.
  intros Hc Ht. unfold splitLine.
  assert (forall x : bytes, take (length c) (c ++ x) = c /\ drop (length c) (c ++ x) = x) as Hsplit.
  { intros x. by rewrite take_app_length, drop_app_length. }
  assert (forall n, n = length c -> (0 <? n) && bool_decide ((c ++ t) !! (n - 1) = Some 13%N) = false) as Hend.
  { intros n ->. apply andb_false_iff. destruct (decide (c = [])) as [->|Hne]; [by left|].
    right. apply bool_decide_eq_false. intros Hx. apply (plain_last c 13%N Hc).
    - rewrite last_lookup. destruct c as [|x c]; [done|].
      rewrite lookup_app_l in Hx by (simpl; lia). by replace (length _ - 1) with (pred (length (x :: c))) in Hx by (simpl; lia).
    - done. }
  destruct Ht as [-> | [-> | [-> | ->]]]; rewrite ?last_app, ?length_app; simpl.
  - rewrite !app_nil_r in *. rewrite bool_decide_eq_false_2.
    + rewrite Nat.add_0_r, Hend by done. rewrite take_ge by lia. rewrite drop_ge by lia. done.
    + intros Hl. destruct (plain_last c 10%N Hc Hl) as [? _]. done.
  - replace (length c + 1 - 1) with (length c) by lia. rewrite Hend by done.
    by destruct (Hsplit [10%N]) as [-> ->].
  - replace (length c + 1 - 1) with (length c) by lia.
    rewrite lookup_app_r, Nat.sub_diag by lia. rewrite (proj2 (Nat.ltb_lt 0 (length c + 1))) by lia. simpl.
    by destruct (Hsplit [13%N]) as [-> ->].
  - replace (length c + 2 - 1) with (length c + 1) by lia. replace (length c + 1 - 1) with (length c) by lia.
    rewrite lookup_app_r, Nat.sub_diag by lia. rewrite (proj2 (Nat.ltb_lt 0 (length c + 1))) by lia. simpl.
    by destruct (Hsplit [13%N; 10%N]) as [-> ->].
Qed.

Lemma lineLoop_plain w acc b : Forall plain w -> lineLoop acc (w ++ b) = lineLoop (acc ++ w) b.
Proof.
  intros Hw. revert acc. induction Hw as [|x w [Hx1 Hx2] _ IH]; intros acc; simpl; [by rewrite app_nil_r|].
  rewrite (proj2 (N.eqb_neq _ _) Hx1), (proj2 (N.eqb_neq _ _) Hx2).
  by rewrite IH, <- app_assoc.
Qed.

Lemma lineLoop_CR line (b : N) rest :
  b <> 10%N ->
  lineLoop line (13%N :: b :: rest)
  = let '(ls, carry) := lineLoop [] (b :: rest) in (splitLine (line ++ [13%N]) :: ls, carry).
Proof. intros Hb. apply N.eqb_neq in Hb. cbn [lineLoop N.eqb]. simpl. by rewrite Hb. Qed.

(** Induction on what the loop reads: a byte, a line end, or a CRLF. *)
Lemma lineLoop_ind (P : bytes -> bytes -> Prop) :
  (forall line, P line []) ->
  (forall line rest, P [] rest -> P line (10%N :: rest)) ->
  (forall line, P line [13%N]) ->
  (forall line rest, P [] rest -> P line (13%N :: 10%N :: rest)) ->
  (forall line b rest, b <> 10%N -> P [] (b :: rest) -> P line (13%N :: b :: rest)) ->
  (forall line b rest, plain b -> P (line ++ [b]) rest -> P line (b :: rest)) ->
  forall rest line, P line rest.
Proof.
  intros Hnil Hlf Hcr Hcrlf Hcrx Hb rest.
  remember (length rest) as n eqn:Hn. revert rest Hn.
  induction (lt_wf n) as [n _ IH]. intros rest -> line.
  assert (forall r l, length r < length rest -> P l r) as IH' by (intros r l Hr; by apply (IH _ Hr)).
  destruct rest as [|b rest]; [apply Hnil|]. simpl in IH'.
  destruct (decide (b = 10%N)) as [->|H10]; [apply Hlf, IH'; lia|].
  destruct (decide (b = 13%N)) as [->|H13]; [|apply Hb; [done|apply IH'; lia]].
  destruct rest as [|b rest]; [apply Hcr|]. simpl in IH'.
  destruct (decide (b = 10%N)) as [->|Hb10]; [apply Hcrlf, IH'; lia|].
  apply Hcrx; [done|]. apply IH'. simpl. lia.
Qed.

Lemma lineLoop_byte line b rest : plain b -> lineLoop line (b :: rest) = lineLoop (line ++ [b]) rest.
Proof. intros Hb. apply (lineLoop_plain [b]). by constructor. Qed.

(** Case analysis on what the loop returns. *)
Ltac case_lines :=
  repeat match goal with
  | |- context [let '(_, _) := lineLoop ?l ?r in _] => destruct (lineLoop l r)
  end; simpl; rewrite ?app_assoc; try done.

(** Reading [a], then [b] after the carry, is reading both at once. *)
Lemma lineLoop_app b a line :
  Forall plain line ->
  lineLoop line (a ++ b)
  = let '(ls, carry) := lineLoop line a in
    let '(ls', carry') := lineLoop [] (carry ++ b) in (ls ++ ls', carry').
Proof.
  revert a line. apply (lineLoop_ind (fun line a => Forall plain line -> _)).
  - intros line Hline. simpl. rewrite lineLoop_plain by done. simpl. by destruct (lineLoop line b).
  - intros line rest IH _. simpl. rewrite IH by constructor.
    case_lines.
  - intros line Hline. change (([13%N] ++ b)) with (13%N :: b).
    change (lineLoop line [13%N]) with (@nil SseLine, line ++ [13%N]). cbv beta iota.
    rewrite <- app_assoc, lineLoop_plain by done. simpl app. by destruct (lineLoop line (13%N :: b)).
  - intros line rest IH _. simpl. rewrite IH by constructor.
    case_lines.
  - intros line x rest Hx IH _. change ((13%N :: x :: rest) ++ b) with (13%N :: x :: (rest ++ b)).
    rewrite !lineLoop_CR by done. change (x :: rest ++ b) with ((x :: rest) ++ b).
    rewrite IH by constructor. case_lines.
  - intros line x rest Hx IH Hline. change ((x :: rest) ++ b) with (x :: (rest ++ b)).
    rewrite !lineLoop_byte by done. apply IH. apply Forall_app. split; [done|by constructor].
Qed.

(** What follows the last complete line. *)
Definition carry_lines (carry : bytes) : list SseLine :=
  match carry with [] => [] | _ => [splitLine carry] end.

Lemma lineLoop_carry a line :
  Forall plain line -> lineLoop [] (lineLoop line a).2 = ([], (lineLoop line a).2).
Proof.
  revert a line. apply (lineLoop_ind (fun line a => Forall plain line -> _)).
  - intros line Hline. simpl. rewrite <- (app_nil_r line) at 1. by rewrite lineLoop_plain.
  - intros line rest IH _. simpl. specialize (IH (Forall_nil_2 _)). by destruct (lineLoop [] rest).
  - intros line Hline. simpl. by rewrite lineLoop_plain.
  - intros line rest IH _. simpl. specialize (IH (Forall_nil_2 _)). by destruct (lineLoop [] rest).
  - intros line x rest Hx IH _. rewrite lineLoop_CR by done.
    specialize (IH (Forall_nil_2 _)). by destruct (lineLoop [] (x :: rest)).
  - intros line x rest Hx IH Hline. rewrite lineLoop_byte by done.
    apply IH. apply Forall_app. split; [done|by constructor].
Qed.

Lemma sseLinesFrom_concat chunks : forall carry,
  lineLoop [] carry = ([], carry) ->
  sseLinesFrom carry chunks
  = let '(ls, rest) := lineLoop [] (carry ++ concat chunks) in ls ++ carry_lines rest.
Proof.
  induction chunks as [|chunk chunks IH]; intros carry Hc.
  - simpl. by rewrite app_nil_r, Hc.
  - simpl. rewrite app_assoc, (lineLoop_app (concat chunks)) by constructor.
    pose proof (lineLoop_carry (carry ++ chunk) [] (Forall_nil_2 _)) as Hcarry.
    destruct (lineLoop [] (carry ++ chunk)) as [ls rest]. simpl in Hcarry.
    rewrite IH by done. case_lines.
Qed.

Lemma sseLines_concat chunks :
  sseLines chunks = let '(ls, rest) := lineLoop [] (concat chunks) in ls ++ carry_lines rest.
Proof. apply (sseLinesFrom_concat chunks []). done. Qed.

(** The lines of a stream: all but the last one are terminated, and what
    follows a CR does not start with the LF of a CRLF. *)
Inductive framed : list SseLine -> Prop :=
| framed_nil : framed []
| framed_last l : line_ok l -> raw l <> [] -> framed [l]
| framed_cons l l' ls :
    line_ok l -> terminator l <> [] ->
    (terminator l = [13%N] -> head (raw l') <> Some 10%N) ->
    framed (l' :: ls) -> framed (l :: l' :: ls).

(** The lines of a whole stream, from an open line. *)
Definition lines_from (line a : bytes) : list SseLine :=
  let '(ls, carry) := lineLoop line a in ls ++ carry_lines carry.

Lemma lines_from_plain c a : Forall plain c -> lines_from [] (c ++ a) = lines_from c a.
Proof. intros Hc. unfold lines_from. by rewrite lineLoop_plain. Qed.

Lemma lines_from_LF line a : lines_from line (10%N :: a) = splitLine (line ++ [10%N]) :: lines_from [] a.
Proof. unfold lines_from. simpl. case_lines. Qed.

Lemma lines_from_CRLF line a :
  lines_from line (13%N :: 10%N :: a) = splitLine (line ++ [13%N; 10%N]) :: lines_from [] a.
Proof. unfold lines_from. simpl. case_lines. Qed.

Lemma lines_from_CR line b a :
  b <> 10%N -> lines_from line (13%N :: b :: a) = splitLine (line ++ [13%N]) :: lines_from [] (b :: a).
Proof. intros Hb. unfold lines_from. rewrite lineLoop_CR by done. case_lines. Qed.

Lemma lines_from_byte line b a : plain b -> lines_from line (b :: a) = lines_from (line ++ [b]) a.
Proof. intros Hb. unfold lines_from. by rewrite lineLoop_byte. Qed.

Lemma carry_lines_concat carry : concat (raw <$> carry_lines carry) = carry.
Proof. destruct carry; simpl; [done|]. by rewrite app_nil_r. Qed.

(** No byte is lost or moved between lines. *)
Lemma lines_from_concat a line : concat (raw <$> lines_from line a) = line ++ a.
Proof.
  revert a line. apply (lineLoop_ind (fun line a => concat (raw <$> lines_from line a) = line ++ a)).
  - intros line. unfold lines_from. simpl. by rewrite carry_lines_concat, app_nil_r.
  - intros line rest IH. rewrite lines_from_LF. csimpl. rewrite IH, <- app_assoc. done.
  - intros line. unfold lines_from. simpl. by rewrite carry_lines_concat.
  - intros line rest IH. rewrite lines_from_CRLF. csimpl. rewrite IH, <- app_assoc. done.
  - intros line b rest Hb IH. rewrite lines_from_CR by done. csimpl. rewrite IH, <- app_assoc. done.
  - intros line b rest Hb IH. rewrite lines_from_byte by done. by rewrite IH, <- app_assoc.
Qed.

Lemma framed_head l ls b a : framed (l :: ls) -> concat (raw <$> l :: ls) = b :: a -> head (raw l) = Some b.
Proof.
  intros Hf. assert (raw l <> []) as Hne.
  { inversion Hf; subst; [done|]. destruct H1 as (_ & _ & ->). by destruct (content l). }
  csimpl. by destruct (raw l); [done|]; simpl; intros; simplify_eq.
Qed.

Lemma line_ok_split c t : Forall plain c -> eol t -> line_ok (splitLine (c ++ t)).
Proof. intros Hc Ht. rewrite splitLine_eol by done. done. Qed.

Lemma framed_cons_split c t ls :
  Forall plain c -> eol t -> t <> [] ->
  (t = [13%N] -> forall b a, concat (raw <$> ls) = b :: a -> b <> 10%N) ->
  framed ls -> framed (splitLine (c ++ t) :: ls).
Proof.
  intros Hc Ht Hne Hcr Hls. pose proof (line_ok_split c t Hc Ht) as Hok.
  rewrite splitLine_eol in * by done.
  destruct ls as [|l ls]; [apply framed_last; [done|]; simpl; by destruct c|].
  apply framed_cons; [done|done| |done]. simpl. intros ->.
  destruct (concat (raw <$> l :: ls)) as [|b a] eqn:E.
  - csimpl in E. by destruct (raw l).
  - rewrite (framed_head _ _ _ _ Hls E). intros [= ->]. by apply (Hcr eq_refl 10%N a).
Qed.

Lemma lines_framed a line : Forall plain line -> framed (lines_from line a).
Proof.
  revert a line. apply (lineLoop_ind (fun line a => Forall plain line -> framed (lines_from line a))).
  - intros line Hline. unfold lines_from. simpl. destruct line as [|x line]; [constructor|].
    pose proof (line_ok_split (x :: line) [] Hline (or_introl eq_refl)) as Hok.
    rewrite app_nil_r in Hok. by apply framed_last.
  - intros line rest IH Hline. rewrite lines_from_LF.
    apply framed_cons_split; unfold eol; auto; done.
  - intros line Hline. unfold lines_from. simpl.
    assert (framed [splitLine (line ++ [13%N])]) as Hf.
    { apply framed_cons_split; unfold eol; auto using framed_nil. }
    by destruct line.
  - intros line rest IH Hline. rewrite lines_from_CRLF.
    apply framed_cons_split; unfold eol; auto; done.
  - intros line b rest Hb IH Hline. rewrite lines_from_CR by done.
    apply framed_cons_split; unfold eol; auto. intros _ b' a'.
    rewrite lines_from_concat. by intros [= -> _].
  - intros line b rest Hb IH Hline. rewrite lines_from_byte by done.
    apply IH. apply Forall_app. split; [done|by constructor].
Qed.

(** Splitting the concatenation of well-framed lines gives them back. *)
Lemma framed_lines ls : framed ls -> lines_from [] (concat (raw <$> ls)) = ls.
Proof.
  assert (forall l, line_ok l -> splitLine (content l ++ terminator l) = l) as Hsplit.
  { intros [r c t] (Hc & Ht & Hr). simpl in *. subst. by apply splitLine_eol. }
  induction 1 as [|l Hok Hne|l l' ls Hok Ht Hcr Hls IH]; [done| |].
  - simpl. rewrite app_nil_r. pose proof Hok as (Hc & Ht & Hr). rewrite Hr, lines_from_plain by done.
    rewrite <- (Hsplit l Hok) at 3. rewrite Hr in Hne.
    destruct Ht as [Ht|[Ht|[Ht|Ht]]]; rewrite Ht in *.
    + unfold lines_from. simpl. rewrite app_nil_r in *. by destruct (content l).
    + by rewrite lines_from_LF.
    + unfold lines_from. simpl. by destruct (content l).
    + by rewrite lines_from_CRLF.
  - pose proof Hok as (Hc & Het & Hr). rewrite fmap_cons. cbn [concat].
    rewrite Hr, <- app_assoc, lines_from_plain by done. rewrite <- (Hsplit l Hok) at 3.
    destruct Het as [Ht'|[Ht'|[Ht'|Ht']]]; rewrite Ht' in *; [done| | |].
    + cbn [app]. by rewrite lines_from_LF, IH.
    + destruct (concat (raw <$> l' :: ls)) as [|b a] eqn:E.
      { exfalso. inversion Hls; subst; [by simpl in E; rewrite app_nil_r in E|].
        destruct H1 as (_ & _ & H1). csimpl in E. rewrite H1 in E. by destruct (content l'), (terminator l'). }
      pose proof (framed_head _ _ _ _ Hls E) as Hh. cbn [app].
      rewrite lines_from_CR by (intros ->; by apply Hcr). by rewrite IH.
    + cbn [app]. by rewrite lines_from_CRLF, IH.
Qed.

Lemma sseLines_lines_from chunks : sseLines chunks = lines_from [] (concat chunks).
Proof. apply sseLines_concat. Qed.

(** ** Payloads *)

Lemma splitFrom_app a : forall part, exists ps p,
  splitOnNewlineFrom part a = ps ++ [p]
  /\ forall b, splitOnNewlineFrom part (a ++ b) = ps ++ splitOnNewlineFrom p b.
Proof.
  induction a as [|x a IH]; intros part; simpl; [by exists [], part|].
  destruct (x =? 10)%N; simpl.
  - destruct (IH []) as (ps & p & -> & Hb). exists (part :: ps), p.
    split; [done|]. intros b. by rewrite Hb.
  - apply IH.
Qed.

Lemma splitFrom_plain w part :
  Forall (fun x => x <> 10%N) w -> splitOnNewlineFrom part w = [part ++ w].
Proof.
  intros Hw. revert part. induction Hw as [|x w Hx _ IH]; intros part; simpl; [by rewrite app_nil_r|].
  rewrite (proj2 (N.eqb_neq _ _) Hx). simpl. by rewrite IH, <- app_assoc.
Qed.

Lemma splitFrom_single w part :
  length (splitOnNewlineFrom part w) = 1 -> splitOnNewlineFrom part w = [part ++ w].
Proof.
  revert part. induction w as [|x w IH]; intros part; simpl; [by rewrite app_nil_r|].
  destruct (x =? 10)%N; simpl.
  - destruct (splitFrom_app w []) as (ps & p & -> & _). rewrite length_app. simpl. lia.
  - intros Hl. by rewrite IH, <- app_assoc.
Qed.

Lemma splitFrom_nonempty w part : 0 < length (splitOnNewlineFrom part w).
Proof. destruct (splitFrom_app w part) as (ps & p & -> & _). rewrite length_app. simpl. lia. Qed.

Lemma split_join p ps :
  Forall (Forall plain) (p :: ps) -> splitOnNewline (joinPayloads (p :: ps)) = p :: ps.
Proof.
  assert (forall w : bytes, Forall plain w -> Forall (fun x => x <> 10%N) w) as Hp.
  { intros w Hw. eapply Forall_impl; [done|]. by intros ? []. }
  intros Hps. unfold splitOnNewline. revert p Hps.
  induction ps as [|q ps IH]; intros p [Hq Hps]%Forall_cons.
  - simpl. rewrite splitFrom_plain by auto. done.
  - change (joinPayloads (p :: q :: ps)) with (p ++ 10%N :: joinPayloads (q :: ps)).
    destruct (splitFrom_app p []) as (ps' & p' & H1 & ->).
    rewrite splitFrom_plain in H1 by auto.
    assert (ps' = [] /\ p' = p) as [-> ->].
    { destruct ps' as [|? [|]]; simplify_eq/=; done. }
    simpl. f_equal. by apply IH.
Qed.

Lemma edits_refl from to a : edits from to a a.
Proof. change a with ([] ++ a). apply edits_keep, edits_nil. Qed.

Lemma edits_app from to a b c d : edits from to a b -> edits from to c d -> edits from to (a ++ c) (b ++ d).
Proof.
  intros Hab. induction 1; rewrite ?app_nil_r, ?app_assoc; auto using edits_keep, edits_swap.
Qed.

Lemma edits_plain from to a b :
  edits from to a b -> Forall plain to -> Forall plain a -> Forall plain b.
Proof. intros He Hto. induction He; rewrite ?Forall_app; naive_solver. Qed.

Lemma edits_plain_all from to ps qs :
  Forall2 (edits from to) ps qs -> Forall plain to -> Forall (Forall plain) ps -> Forall (Forall plain) qs.
Proof.
  intros Hs Hto. induction Hs; [done|]. rewrite !Forall_cons. intros [??].
  split; [by eapply edits_plain|auto].
Qed.

(** Edits that keep the number of lines are edits line by line. *)
Lemma edits_splitFrom_keep from to kept : forall p q,
  edits from to p q ->
  Forall2 (edits from to) (splitOnNewlineFrom p kept) (splitOnNewlineFrom q kept).
Proof.
  induction kept as [|x kept IH]; intros p q Hpq; simpl; [by constructor|].
  destruct (x =? 10)%N; simpl; [constructor; [done|]; apply IH, edits_nil|].
  apply IH. by apply edits_keep.
Qed.

Lemma edits_split from to a b :
  Forall plain to -> edits from to a b ->
  length (splitOnNewline b) <= length (splitOnNewline a)
  /\ (length (splitOnNewline b) = length (splitOnNewline a) ->
      Forall2 (edits from to) (splitOnNewline a) (splitOnNewline b)).
Proof.
  intros Hto. assert (Forall (fun x => x <> 10%N) to) as Hto'.
  { eapply Forall_impl; [done|]. by intros ? []. }
  unfold splitOnNewline. induction 1 as [|kept a b Hab [IHle IHeq]|r a b Hdec Hab [IHle IHeq]].
  - split; [done|]. intros _. repeat constructor.
  - destruct (splitFrom_app a []) as (ps & p & Ha & ->), (splitFrom_app b []) as (qs & q & Hb & ->).
    rewrite Ha, Hb, !length_app in *. simpl in *.
    assert (length (splitOnNewlineFrom q kept) = length (splitOnNewlineFrom p kept)) as Hk.
    { symmetry. apply (Forall2_length (fun _ _ => True)).
      generalize p q. clear. induction kept; intros p q; simpl; [by constructor|].
      destruct (negb _); auto. }
    split; [lia|]. intros Hl. apply Forall2_app_inv in IHeq as [H1 H2]; [|lia..].
    apply Forall2_app; [done|]. apply edits_splitFrom_keep. by inversion H2.
  - destruct (splitFrom_app a []) as (ps & p & Ha & ->), (splitFrom_app b []) as (qs & q & Hb & ->).
    rewrite (splitFrom_plain to) by done. pose proof (splitFrom_nonempty r p) as Hne.
    rewrite Ha, Hb, !length_app in *. simpl in *. split; [lia|]. intros Hl.
    rewrite (splitFrom_single r p) by lia.
    apply Forall2_app_inv in IHeq as [H1 H2]; [|lia..].
    apply Forall2_app; [done|]. constructor; [|done]. apply edits_swap; [done|]. by inversion H2.
Qed.


#[local] Arguments utf8_of_code_point : simpl never.

Lemma bit7_plain b : N.testbit b 7 = true -> plain b.
Proof.
  intros Hb. assert (128 <= b)%N; [|split; lia].
  destruct (decide (128 <= b)%N) as [|Hlt]; [done|]. exfalso.
  rewrite N.bits_above_log2 in Hb; [done|].
  destruct (decide (b = 0%N)) as [->|Hne]; [done|]. apply N.log2_lt_pow2; simpl; lia.
Qed.

(** The quoted name holds no line end. *)
Lemma utf8_of_code_point_plain c : (32 <= c)%N -> Forall plain (utf8_of_code_point c).
Proof.
  intros Hc. assert (forall m x, N.testbit m 7 = true -> plain (N.lor m x)) as Hlor.
  { intros m x Hm. apply bit7_plain. by rewrite N.lor_spec, Hm. }
  unfold utf8_of_code_point. repeat case_match; repeat constructor; try (by apply Hlor); lia.
Qed.

Lemma utf8_encode_plain s : Forall (fun u => (32 <= u)%N) s -> Forall plain (utf8_encode s).
Proof.
  assert (Forall plain (utf8_of_code_point 0xFFFD)) as Hr by (by apply utf8_of_code_point_plain).
  assert (forall u, (32 <= u)%N -> forall t, Forall plain t -> Forall plain (utf8_of_code_point u ++ t)) as Hu.
  { intros u Hu t Ht. apply Forall_app. split; [by apply utf8_of_code_point_plain|done]. }
  assert (forall u v, 32 <= combine_surrogates u v)%N as Hc by (intros; unfold combine_surrogates; lia).
  revert s. apply (list_two_ind (fun s => _ -> _)); [constructor| |].
  - intros u Hs. apply Forall_cons in Hs as [? _]. simpl. repeat case_match; auto.
  - intros u v s IH IHv Hs. pose proof Hs as [? [? ?]%Forall_cons]%Forall_cons.
    specialize (IHv ltac:(by constructor)). cbn [utf8_encode] in *.
    destruct (is_high u); [destruct (is_low v)|destruct (is_low u)]; auto; apply Hu; auto; lia.
Qed.

Lemma hex4_printable u : Forall (fun u => (32 <= u)%N) (hex4 u).
Proof.
  assert (forall d, (32 <= hex_digit d)%N) as Hd by (intros d; unfold hex_digit; case_match; lia).
  repeat constructor; apply Hd.
Qed.

Lemma json_escape_unit_printable u : Forall (fun u => (32 <= u)%N) (json_escape_unit u).
Proof.
  unfold json_escape_unit. pose proof (hex4_printable u).
  repeat case_match; propify; repeat (apply Forall_cons; split; [lia|]); auto using Forall_nil_2.
Qed.

Lemma json_escape_printable s : Forall (fun u => (32 <= u)%N) (json_escape s).
Proof.
  assert (forall u t, Forall (fun u => (32 <= u)%N) t ->
          Forall (fun u => (32 <= u)%N) ((92%N :: 117%N :: hex4 u) ++ t)) as Hx.
  { intros u t Ht. simpl. repeat (constructor; [lia|]).
    change (Forall (fun u => (32 <= u)%N) (hex4 u ++ t)).
    apply Forall_app. split; [apply hex4_printable|done]. }
  assert (forall u t, Forall (fun u => (32 <= u)%N) t ->
          Forall (fun u => (32 <= u)%N) (json_escape_unit u ++ t)) as Hu.
  { intros u t Ht. apply Forall_app. split; [apply json_escape_unit_printable|done]. }
  revert s. apply list_two_ind; [constructor| |].
  - intros u. cbn [json_escape]. repeat case_match; auto.
    rewrite <- (app_nil_r (_ :: _)). by apply Hx.
  - intros u v s IH IHv. cbn [json_escape] in *.
    destruct (is_high u) eqn:Eh; [destruct (is_low v) eqn:El|destruct (is_low u)]; auto.
    unfold is_high, is_low in *. propify. repeat (constructor; [lia|]). done.
Qed.

Lemma quoted_plain s : Forall plain (utf8_encode (json_stringify_string s)).
Proof.
  apply utf8_encode_plain. unfold json_stringify_string.
  repeat (apply Forall_app; split); try apply json_escape_printable;
    (apply Forall_cons; split; [lia|apply Forall_nil_2]).
Qed.

(** ** Events *)

Section Sse.
Context (mapping : JsonModelRewriteMapping).
Abbreviation edited := (response_edits mapping).

Lemma response_edits_refl a : edited a a.
Proof. unfold response_edits. repeat case_match; done || apply edits_refl. Qed.

Lemma response_edits_app a b c d : edited a b -> edited c d -> edited (a ++ c) (b ++ d).
Proof. unfold response_edits. repeat case_match; [apply edits_app|by intros -> ->..]. Qed.

Lemma rewriteSseEventData_spec payloads calls :
  Forall (Forall plain) payloads ->
  exists calls' r, rewriteSseEventData mapping payloads calls = Ok (calls', r)
    /\ forall parts, r = Some parts -> Forall2 edited payloads parts /\ Forall (Forall plain) parts.
Proof.
  intros Hp. unfold rewriteSseEventData. destruct payloads as [|p ps]; [by exists calls, None|].
  destruct (looksLikeJson _); [|by exists calls, None]. cbn [negb].
  destruct (rewriteJsonModelBuffer_response (ERR := relay_error) mapping (joinPayloads (p :: ps))
              (ResponseState false calls)) as (st & out & -> & He). simpl.
  case_bool_decide as Hout; [by exists (mismatchCalls st), None|]. eexists _, _; split; [done|].
  destruct (_ =? _) eqn:Hlen; [|intros ? [=]]. propify. intros parts [= <-].
  unfold response_edits in He. destruct (expectedUpstreamName mapping) as [e|] eqn:E1; [|done].
  destruct (externalName mapping) as [x|] eqn:E2; [|done].
  destruct (edits_split _ _ _ _ (quoted_plain x) He) as [_ Hs].
  rewrite (split_join p ps Hp) in Hs. specialize (Hs Hlen). split.
  - unfold response_edits. by rewrite E1, E2.
  - by eapply edits_plain_all; [|apply quoted_plain|].
Qed.

(** What a relayed line may be: the line itself, or a data line with an edited
    payload between its prefix and its terminator. *)
Definition relayed_line (l l' : SseLine) : Prop :=
  l' = l \/
  exists prefix p p', prefix <> [] /\ dataPayload (content l) = Some p /\ content l = prefix ++ p
    /\ edited p p' /\ Forall plain p'
    /\ l' = Line (prefix ++ p' ++ terminator l) (prefix ++ p') (terminator l).

Lemma dataPayload_prefix c p :
  dataPayload c = Some p ->
  exists prefix, prefix <> [] /\ c = prefix ++ p /\ take (length c - length p) c = prefix.
Proof.
  unfold dataPayload. case_match eqn:E; [done|]. propify.
  intros Hp. assert (exists prefix, prefix <> [] /\ c = prefix ++ p) as (prefix & Hne & ->).
  { destruct c as [|c1 [|c2 [|c3 [|c4 [|c5 c]]]]]; simpl in *; try lia.
    destruct c as [|f c]; injection Hp as <-; [by exists [c1; c2; c3; c4; c5]|].
    destruct (f =? 32)%N; [by exists [c1; c2; c3; c4; c5; f]|by exists [c1; c2; c3; c4; c5]]. }
  exists prefix. split; [done|]. split; [done|].
  rewrite length_app. replace (_ - _) with (length prefix) by lia. by rewrite take_app_length.
Qed.

Lemma replaceDataLines_spec lines : forall parts,
  Forall2 edited (omap (fun line => dataPayload (content line)) lines) parts ->
  Forall (Forall plain) parts ->
  exists lines', Forall2 relayed_line lines lines' /\ replaceDataLines lines parts = raw <$> lines'.
Proof.
  induction lines as [|l lines IH]; intros parts He Hp; [by exists []|].
  simpl in *. destruct (dataPayload (content l)) as [p|] eqn:Ep.
  - inversion He as [|? p' ? parts' Hpp' He']; subst. apply Forall_cons in Hp as [Hp' Hp].
    destruct (IH _ He' Hp) as (lines' & Hl & ->).
    destruct (dataPayload_prefix _ _ Ep) as (prefix & Hne & Hc & ->).
    eexists (Line (prefix ++ p' ++ terminator l) (prefix ++ p') (terminator l) :: lines').
    split; [|done]. constructor; [|done]. right. by exists prefix, p, p'.
  - destruct (IH _ He Hp) as (lines' & Hl & ->). exists (l :: lines'). split; [|done].
    constructor; [by left|done].
Qed.

Lemma replaceDataLines_nil lines : replaceDataLines lines [] = raw <$> lines.
Proof. induction lines as [|l lines IH]; simpl; [done|]. rewrite IH. by case_match. Qed.

Lemma relayed_line_refl ls : Forall2 relayed_line ls ls.
Proof. induction ls; constructor; [by left|done]. Qed.

Lemma payloads_plain lines :
  Forall line_ok lines -> Forall (Forall plain) (omap (fun line => dataPayload (content line)) lines).
Proof.
  induction 1 as [|l lines (Hc & _) _ IH]; simpl; [done|].
  destruct (dataPayload (content l)) as [p|] eqn:Ep; [|done].
  destruct (dataPayload_prefix _ _ Ep) as (prefix & _ & Heq & _). rewrite Heq in Hc.
  apply Forall_app in Hc as [_ Hc]. by constructor.
Qed.

Lemma flush_spec lines calls :
  Forall line_ok lines ->
  exists calls' lines', flush mapping lines calls = Ok (calls', raw <$> lines')
    /\ Forall2 relayed_line lines lines'.
Proof.
  intros Hl. unfold flush.
  destruct (rewriteSseEventData_spec _ calls (payloads_plain _ Hl)) as (calls' & r & -> & Hr). simpl.
  destruct r as [parts|].
  - destruct (Hr _ eq_refl) as [He Hp].
    destruct (replaceDataLines_spec _ _ He Hp) as (lines' & H & Heq). simpl. rewrite Heq. eauto.
  - exists calls', lines. simpl. rewrite replaceDataLines_nil. split; [done|]. apply relayed_line_refl.
Qed.

Lemma sseEvents_spec maxEventBytes input : forall lines eventBytes calls out calls',
  Forall line_ok (lines ++ input) ->
  sseEvents mapping maxEventBytes input lines eventBytes calls = (out, None, calls') ->
  exists lines', out = raw <$> lines' /\ Forall2 relayed_line (lines ++ input) lines'.
Proof.
  induction input as [|l input IH]; intros lines eventBytes calls out calls' Hok Hrun; simpl in Hrun.
  - rewrite app_nil_r in *. destruct (flush_spec lines calls Hok) as (c & ls' & Hf & Hl).
    rewrite Hf in Hrun. simplify_eq. eauto.
  - pose proof Hok as [Hlines [Hl Hinput]%Forall_cons]%Forall_app.
    case_match; [done|]. destruct (content l) as [|x c] eqn:Ec.
    + destruct (flush_spec lines calls Hlines) as (c & ls' & Hf & Hls). rewrite Hf in Hrun.
      destruct (sseEvents _ _ input _ _ _) as [[out' err] c'] eqn:Es. simplify_eq.
      destruct (IH [] _ _ _ _ Hinput Es) as (ls'' & -> & Hls'').
      exists (ls' ++ l :: ls''). rewrite fmap_app. split; [done|].
      apply Forall2_app; [done|]. constructor; [by left|done].
    + specialize (IH (lines ++ [l])). rewrite <- app_assoc in IH. by eapply IH.
Qed.

Lemma relayed_line_ok l l' : relayed_line l l' -> line_ok l -> line_ok l' /\ terminator l' = terminator l.
Proof.
  intros [->|(prefix & p & p' & _ & _ & Hc & _ & Hp' & ->)]; [done|].
  intros (Hpl & Ht & Hr). rewrite Hc in Hpl. apply Forall_app in Hpl as [Hpl _].
  split; [|done]. split; [|split]; simpl; [by apply Forall_app|done|by rewrite <- app_assoc].
Qed.

Lemma relayed_line_head l l' : relayed_line l l' -> line_ok l -> head (raw l') = head (raw l).
Proof.
  intros [->|(prefix & p & p' & Hne & _ & Hc & _ & _ & ->)]; [done|].
  intros (_ & _ & ->). rewrite Hc. simpl. by destruct prefix.
Qed.

Lemma framed_relayed ls : framed ls -> forall ls', Forall2 relayed_line ls ls' -> framed ls'.
Proof.
  induction 1 as [|l Hok Hne|l l2 ls Hok Ht Hcr Hls IH]; intros ls' Hr.
  - inversion Hr. constructor.
  - inversion Hr as [|? l' ? ? Hl Hn]; subst. inversion Hn; subst.
    destruct (relayed_line_ok _ _ Hl Hok) as [Hok' _].
    apply framed_last; [done|]. pose proof (relayed_line_head _ _ Hl Hok) as Hh.
    intros Hn'. rewrite Hn' in Hh. by destruct (raw l).
  - inversion Hr as [|? l' ? ls1 Hl Hr1]; subst. inversion Hr1 as [|? l2' ? ls2 Hl2 Hr2]; subst.
    destruct (relayed_line_ok _ _ Hl Hok) as [Hok' Ht'].
    assert (line_ok l2) as Hok2 by (by inversion Hls).
    apply framed_cons; [done|by rewrite Ht'| |by apply IH].
    rewrite Ht', (relayed_line_head _ _ Hl2 Hok2). done.
Qed.

Lemma relayed_lines_edited ls ls' :
  Forall2 relayed_line ls ls' -> Forall line_ok ls -> edited (concat (raw <$> ls)) (concat (raw <$> ls')).
Proof.
  induction 1 as [|l l' ls ls' Hl _ IH]; intros Hok; [apply response_edits_refl|].
  apply Forall_cons in Hok as [Hok Hoks]. csimpl. apply response_edits_app; [|auto].
  destruct Hl as [->|(prefix & p & p' & _ & _ & Hc & He & _ & ->)]; [apply response_edits_refl|].
  destruct Hok as (_ & _ & ->). rewrite Hc, <- app_assoc. simpl.
  apply response_edits_app; [apply response_edits_refl|].
  apply response_edits_app; [done|apply response_edits_refl].
Qed.

Lemma framed_ok ls : framed ls -> Forall line_ok ls.
Proof. induction 1; auto using Forall_nil_2, Forall_cons_2. Qed.
End Sse.

(** ** The relayed stream *)

(** What the consumer of the relayed stream sees of a line of the upstream:
    the same terminator, the same line unless it is a data line, and else the
    same field prefix before an edited payload. *)
Definition same_frame (mapping : JsonModelRewriteMapping) (l l' : SseLine) : Prop :=
  terminator l' = terminator l
  /\ (dataPayload (content l) = None -> l' = l)
  /\ forall p, dataPayload (content l) = Some p ->
      exists prefix p', content l = prefix ++ p /\ content l' = prefix ++ p' /\ response_edits mapping p p'.

Lemma relayed_line_frame mapping l l' : relayed_line mapping l l' -> same_frame mapping l l'.
Proof.
  intros [->|(prefix & p & p' & _ & Hd & Hc & He & _ & ->)].
  - split; [done|]. split; [done|]. intros p Hp.
    destruct (dataPayload_prefix _ _ Hp) as (prefix & _ & Hc & _).
    exists prefix, p. eauto using response_edits_refl.
  - split; [done|]. rewrite Hd. split; [done|]. intros ? [= <-]. by exists prefix, p'.
Qed.

(** C5. The chunks of an event stream do not matter: the same bytes give the
    same parts, the same error and the same number of mismatch reports, also
    when a line end is cut in two. *)
Theorem rewriteSseModelResponseBody_chunking mapping maxEventBytes chunks1 chunks2
    (Hsame : concat chunks1 = concat chunks2) :
  rewriteSseModelResponseBody mapping maxEventBytes chunks1
  = rewriteSseModelResponseBody mapping maxEventBytes chunks2.
Proof. unfold rewriteSseModelResponseBody. by rewrite !sseLines_lines_from, Hsame. Qed.

Lemma rewriteSseModelResponseBody_chunking_witness :
  concat [[100; 13]; [10; 13; 10]]%N = concat [[100; 13; 10]; [13]; [10]]%N
  /\ rewriteSseModelResponseBody (Mapping [] None None) 9 [[100; 13]; [10; 13; 10]]%N
     = rewriteSseModelResponseBody (Mapping [] None None) 9 [[100; 13; 10]; [13]; [10]]%N.
Proof. split; [done|]. apply rewriteSseModelResponseBody_chunking. reflexivity. Defined.

(** An event stream relayed to its end has the framing of the upstream's:
    its lines correspond one to one, with the same terminators; lines other
    than data lines are kept byte for byte, and a payload differs only where a
    string literal that decodes to the expected name was exchanged. *)
Theorem rewriteSseModelResponseBody_framing mapping maxEventBytes chunks out calls
    (Hrun : rewriteSseModelResponseBody mapping maxEventBytes chunks = (out, None, calls)) :
  response_edits mapping (concat chunks) (concat out)
  /\ Forall2 (same_frame mapping) (sseLines chunks) (sseLines [concat out]).
Proof.
  pose proof (lines_framed (concat chunks) [] (Forall_nil_2 _)) as Hf.
  pose proof (framed_ok _ Hf) as Hok. unfold rewriteSseModelResponseBody in Hrun.
  rewrite sseLines_lines_from in *.
  apply (sseEvents_spec _ _ _ []) in Hrun as (ls' & -> & Hls'); [|done]. split.
  - rewrite <- (lines_from_concat (concat chunks) []) at 1. by apply relayed_lines_edited.
  - rewrite sseLines_lines_from. cbn [concat]. rewrite app_nil_r.
    rewrite framed_lines by (by eapply framed_relayed).
    eapply Forall2_impl; [done|]. apply relayed_line_frame.
Qed.

Lemma rewriteSseModelResponseBody_framing_witness :
  exists out calls,
    rewriteSseModelResponseBody (Mapping [[js "model"]] (Some (js "ext")) (Some (js "up"))) (N.to_nat 100)
      [sse_text "id: 1|data: {'model':"; sse_text "'up'}||"] = (out, None, calls)
    /\ response_edits (Mapping [[js "model"]] (Some (js "ext")) (Some (js "up")))
         (sse_text "id: 1|data: {'model':'up'}||") (concat out).
Proof.
  eexists _, _. split; [vm_compute; reflexivity|].
  refine (proj1 (rewriteSseModelResponseBody_framing _ (N.to_nat 100)
    [sse_text "id: 1|data: {'model':"; sse_text "'up'}||"] _ 0 _)). vm_compute. reflexivity.
Defined.
