(* ===== verification/EventHub.v ===== *)
(** * The proxy event hub of the control plane

    [packages/control-plane/src/control-plane/proxy/event-hub.ts]: one stream
    per target node, with a revision, a bounded replay history and the set of
    live subscribers.  The projected target is abstract ([Target]); the schema
    parser (zod) and the encoded sizes are parameters; what the outside
    answers (the projection, whether a [send] throws) is an argument of each
    operation. *)

From S2P Require Export Prelude.

Section EventHub.
Context {Target : Type}.

(** [StoredProxyTargetEvent]: an event without the subscriber's identity. *)
Record StoredProxyTargetEvent := StoredEvent {
  ev_streamId : jsstring;
  ev_targetNodeId : jsstring;
  ev_revision : Z;
  ev_source_id : jsstring;
  ev_source_seq : Z;
  ev_target : Target;
  ev_type : jsstring;
  ev_topic : jsstring;
  ev_createdAt : jsstring
}.

Record ProxyTargetEvent := TargetEvent {
  delivery : StoredProxyTargetEvent;
  te_bindingId : jsstring;
  te_sourceControlPlaneId : jsstring
}.

Inductive ProxyEventStreamMessage :=
| EventMessage (e : ProxyTargetEvent)
| EventsReady (streamId bindingId sourceControlPlaneId targetNodeId : jsstring)
    (latestRevision earliestRetained : Z)
| SnapshotRequired (streamId bindingId sourceControlPlaneId targetNodeId : jsstring)
    (sinceRevision latestRevision earliestRetained : Z).

(** A subscriber; [sub_id] is the identity of the object in the [Set]. *)
Record ProxyEventSubscriber := Subscriber {
  sub_id : nat;
  sub_bindingId : jsstring;
  sub_sourceControlPlaneId : jsstring
}.

Record TargetStream := Stream {
  streamId : jsstring;
  revision : Z;
  history : list (StoredProxyTargetEvent * Z);
  historyBytes : Z;
  subscribers : list ProxyEventSubscriber
}.

(** [ProxyTargetEventSchema.parse], the [parse] of the two control messages,
    [encodedBytes] and [createStreamId] (which draws a fresh identifier). *)
Context (parseEvent : ProxyTargetEvent -> option ProxyTargetEvent).
Context (parseControl : ProxyEventStreamMessage -> option ProxyEventStreamMessage).
Context (storedBytes : StoredProxyTargetEvent -> option Z) (eventBytes : ProxyTargetEvent -> option Z).
Context (createStreamId : nat -> jsstring -> jsstring).

Record hub_options := HubOptions {
  opt_historyLimit : option Z;
  opt_maxEventBytes : option Z;
  opt_maxHistoryBytes : option Z
}.
Context (options : hub_options).

Definition historyLimit : Z := Z.max 1 (default 256%Z (opt_historyLimit options)).
Definition maxEventBytes : Z := Z.max 1024 (default (512 * 1024)%Z (opt_maxEventBytes options)).
Definition maxHistoryBytes : Z :=
  Z.max maxEventBytes (default (16 * 1024 * 1024)%Z (opt_maxHistoryBytes options)).

(** The hub: its streams and a supply of fresh identities. *)
Record hub := Hub { streams : jsmap jsstring TargetStream; fresh : nat }.

Definition earliestRetainedRevision (s : TargetStream) : Z :=
  match head (history s) with Some (e, _) => ev_revision e | None => (revision s + 1)%Z end.

Definition hydrateEvent (event : StoredProxyTargetEvent) (bindingId sourceControlPlaneId : jsstring)
  : option ProxyTargetEvent :=
  parseEvent (TargetEvent event bindingId sourceControlPlaneId).

(** [this.stream(targetNodeId)]: the stream, created on first use. *)
Definition stream (h : hub) (targetNodeId : jsstring) : hub * TargetStream :=
  match mget targetNodeId (streams h) with
  | Some existing => (h, existing)
  | None =>
      let created := Stream (createStreamId (fresh h) targetNodeId) 0 [] 0 [] in
      (Hub (mset targetNodeId created (streams h)) (S (fresh h)), created)
  end.

Definition put_stream (h : hub) (targetNodeId : jsstring) (s : TargetStream) : hub :=
  Hub (mset targetNodeId s (streams h)) (fresh h).

Definition with_subscribers subs (s : TargetStream) : TargetStream :=
  Stream (streamId s) (revision s) (history s) (historyBytes s) subs.

(** [stop()], after the bus has been left. *)
Definition stop (h : hub) : hub := Hub [] (fresh h).

Definition cursor (h : hub) (targetNodeId : jsstring) : hub * (jsstring * Z * Z) :=
  let '(h, s) := stream h targetNodeId in
  (h, (streamId s, revision s, earliestRetainedRevision s)).

(** The messages a sequence of [send] calls delivers: a message that does not
    parse or a [send] that throws ends it.  [sendOk i] tells whether the [i]th
    call returns. *)
Fixpoint sendAll (sendOk : nat -> bool) (i : nat) (messages : list (option ProxyEventStreamMessage))
  : list ProxyEventStreamMessage * bool :=
  match messages with
  | [] => ([], true)
  | None :: _ => ([], false)
  | Some message :: messages' =>
      if sendOk i then
        let '(sent, ok) := sendAll sendOk (S i) messages' in (message :: sent, ok)
      else ([], false)
  end.

Inductive subscription :=
| SubscriptionSnapshotRequired
| Subscribed (subscriber : ProxyEventSubscriber)
| SubscribeThrew.

Definition subscribe (h : hub) (bindingId sourceControlPlaneId targetNodeId : jsstring)
    (sinceRevision : Z) (sendOk : nat -> bool)
  : hub * list ProxyEventStreamMessage * subscription :=
  let '(h, s) := stream h targetNodeId in
  let earliest := earliestRetainedRevision s in
  if ((revision s <? sinceRevision) || (sinceRevision <? earliest - 1))%Z then
    let '(sent, ok) := sendAll sendOk 0
      [parseControl (SnapshotRequired (streamId s) bindingId sourceControlPlaneId targetNodeId
         sinceRevision (revision s) earliest)] in
    (h, sent, if ok then SubscriptionSnapshotRequired else SubscribeThrew)
  else
    let ready := parseControl (EventsReady (streamId s) bindingId sourceControlPlaneId targetNodeId
                   (revision s) earliest) in
    let replay :=
      (fun entry => EventMessage <$> hydrateEvent entry.1 bindingId sourceControlPlaneId)
        <$> filter (fun entry => (sinceRevision < ev_revision entry.1)%Z) (history s) in
    let '(sent, ok) := sendAll sendOk 0 (ready :: replay) in
    if ok then
      let subscriber := Subscriber (fresh h) bindingId sourceControlPlaneId in
      let s := with_subscribers (subscribers s ++ [subscriber]) s in
      (Hub (mset targetNodeId s (streams h)) (S (fresh h)), sent, Subscribed subscriber)
    else (h, sent, SubscribeThrew).

Definition delete_subscriber (id : nat) (subs : list ProxyEventSubscriber)
  : list ProxyEventSubscriber := filter (fun sub => sub_id sub <> id) subs.

(** The [close] of a subscription. *)
Definition close (h : hub) (targetNodeId : jsstring) (id : nat) : hub :=
  match mget targetNodeId (streams h) with
  | Some s => put_stream h targetNodeId (with_subscribers (delete_subscriber id (subscribers s)) s)
  | None => h
  end.

Record hub_diagnostics := Diagnostics {
  d_streamId : jsstring; d_revision : Z; d_earliest : Z;
  d_historySize : nat; d_historyBytes : Z; d_subscribers : nat;
  d_subscriberBindings : list (jsstring * jsstring)
}.

Definition diagnostics (h : hub) (targetNodeId : jsstring) : hub * hub_diagnostics :=
  let '(h, s) := stream h targetNodeId in
  (h, Diagnostics (streamId s) (revision s) (earliestRetainedRevision s)
        (length (history s)) (historyBytes s) (length (subscribers s))
        ((fun sub => (sub_bindingId sub, sub_sourceControlPlaneId sub)) <$> subscribers s)).

(** The eviction loop: the oldest entries leave until both limits hold. *)
Fixpoint evict (entries : list (StoredProxyTargetEvent * Z)) (bytes : Z)
  : list (StoredProxyTargetEvent * Z) * Z :=
  match entries with
  | [] => ([], bytes)
  | removed :: entries' =>
      if ((historyLimit <? Z.of_nat (length entries)) || (maxHistoryBytes <? bytes))%Z
      then evict entries' (bytes - removed.2)%Z
      else (entries, bytes)
  end.

(** One subscriber of the fan-out: the hydrated message when it was sent. *)
Definition deliver (event : StoredProxyTargetEvent) (sendOk : nat -> bool) (sub : ProxyEventSubscriber)
  : option ProxyTargetEvent :=
  hydrated ← hydrateEvent event (sub_bindingId sub) (sub_sourceControlPlaneId sub);
  hydratedBytes ← eventBytes hydrated;
  if (maxEventBytes <? hydratedBytes)%Z then None
  else if sendOk (sub_id sub) then Some hydrated else None.

(** The fan-out over a copy of the set: who got the message, and who failed
    (and had [onDeliveryFailure] called). *)
Fixpoint fanOut (event : StoredProxyTargetEvent) (sendOk : nat -> bool)
    (copy subs : list ProxyEventSubscriber)
  : list ProxyEventSubscriber * list (nat * ProxyTargetEvent) * list nat :=
  match copy with
  | [] => (subs, [], [])
  | sub :: copy' =>
      match deliver event sendOk sub with
      | Some hydrated =>
          let '(subs, sent, failed) := fanOut event sendOk copy' subs in
          (subs, (sub_id sub, hydrated) :: sent, failed)
      | None =>
          let '(subs, sent, failed) :=
            fanOut event sendOk copy' (delete_subscriber (sub_id sub) subs) in
          (subs, sent, sub_id sub :: failed)
      end
  end.

(** The parts of an [EventEnvelope] the hub reads. *)
Record EventEnvelope := Envelope {
  env_id : jsstring;
  env_seq : Z;
  env_type : jsstring;
  env_topic : jsstring;
  env_createdAt : jsstring;
  env_nodeId : option jsstring
}.

(** What [accept] did: the stored event, the deliveries and the failures. *)
Record accept_outcome := Accepted {
  stored : option StoredProxyTargetEvent;
  sent : list (nat * ProxyTargetEvent);
  failed : list nat
}.
Definition nothing : accept_outcome := Accepted None [] [].

(** [projected] is what [projectTarget] answers: a throw and [undefined] are
    the same to the caller. *)
Definition accept (h : hub) (event : EventEnvelope) (projected : option Target) (sendOk : nat -> bool)
  : hub * accept_outcome :=
  match env_nodeId event with
  | None | Some [] => (h, nothing)
  | Some targetNodeId =>
      match projected with
      | None => (h, nothing)
      | Some target =>
          let '(h, s) := stream h targetNodeId in
          let nextRevision := (revision s + 1)%Z in
          let candidate :=
            TargetEvent (StoredEvent (streamId s) targetNodeId nextRevision (env_id event)
                (env_seq event) target (env_type event) (env_topic event) (env_createdAt event))
              (js "proxy_projection") (js "proxy_projection") in
          match parseEvent candidate with
          | None => (h, nothing)
          | Some parsed =>
              let event := delivery parsed in
              match storedBytes event with
              | None => (h, nothing)
              | Some bytes =>
                  if (maxEventBytes - 512 <? bytes)%Z then (h, nothing)
                  else
                    let '(hist, total) := evict (history s ++ [(event, bytes)]) (historyBytes s + bytes)%Z in
                    let '(subs, sent, failed) := fanOut event sendOk (subscribers s) (subscribers s) in
                    (put_stream h targetNodeId (Stream (streamId s) nextRevision hist total subs),
                     Accepted (Some event) sent failed)
              end
          end
      end
  end.

(** ** Runs *)

(** The calls the hub receives from the bus and from the routes. *)
Inductive hub_op :=
| OpCursor (targetNodeId : jsstring)
| OpDiagnostics (targetNodeId : jsstring)
| OpSubscribe (bindingId sourceControlPlaneId targetNodeId : jsstring) (since : Z) (sendOk : nat -> bool)
| OpClose (targetNodeId : jsstring) (id : nat)
| OpAccept (event : EventEnvelope) (projected : option Target) (sendOk : nat -> bool).

(** What a call shows outside: the event it stored and the deliveries to
    subscribers of the fan-out. *)
Definition hub_step (h : hub) (op : hub_op) : hub * accept_outcome :=
  match op with
  | OpCursor node => ((cursor h node).1, nothing)
  | OpDiagnostics node => ((diagnostics h node).1, nothing)
  | OpSubscribe b c node since sendOk => ((subscribe h b c node since sendOk).1.1, nothing)
  | OpClose node id => (close h node id, nothing)
  | OpAccept event projected sendOk => accept h event projected sendOk
  end.

Fixpoint hub_run (h : hub) (ops : list hub_op) : hub * list accept_outcome :=
  match ops with
  | [] => (h, [])
  | op :: ops' =>
      let '(h, o) := hub_step h op in
      let '(h, os) := hub_run h ops' in (h, o :: os)
  end.

Definition newHub : hub := Hub [] 0.
End EventHub.
Arguments StoredProxyTargetEvent : clear implicits.
Arguments ProxyTargetEvent : clear implicits.
Arguments ProxyEventStreamMessage : clear implicits.
Arguments TargetStream : clear implicits.
Arguments hub : clear implicits.
Arguments hub_op : clear implicits.
Arguments accept_outcome : clear implicits.
