(* ===== verification/EventHubSpec.v ===== *)
(** * What the proxy event hub promises

    The history of a stream is a bounded, contiguous window that ends at its
    revision, and a subscriber receives every revision after the one it asked
    for exactly once, in order, from the replay and the live feed together. *)

From S2P Require Export EventHub.

Section HubSpec.
Context {Target : Type}.
Context (parseEvent : ProxyTargetEvent Target -> option (ProxyTargetEvent Target)).
Context (parseControl : ProxyEventStreamMessage Target -> option (ProxyEventStreamMessage Target)).
Context (storedBytes : StoredProxyTargetEvent Target -> option Z) (eventBytes : ProxyTargetEvent Target -> option Z).
Context (createStreamId : nat -> jsstring -> jsstring) (options : hub_options).

Abbreviation step := (hub_step parseEvent parseControl storedBytes eventBytes createStreamId options).
Abbreviation run := (hub_run parseEvent parseControl storedBytes eventBytes createStreamId options).
Abbreviation get_stream := (stream createStreamId).
Abbreviation limit := (historyLimit options).
Abbreviation maxBytes := (maxHistoryBytes options).

(** What zod documents of a schema's output: the revision, an integer, and the
    control messages keep their constructor; sizes are not negative. *)
Definition parser_keeps_revision : Prop :=
  forall e e', parseEvent e = Some e' -> ev_revision (delivery e') = ev_revision (delivery e).
Definition control_is_not_event : Prop :=
  forall m m', parseControl m = Some m' -> (forall e, m <> EventMessage e) -> forall e, m' <> EventMessage e.
Definition sizes_not_negative : Prop := forall e b, storedBytes e = Some b -> (0 <= b)%Z.

Definition bytes_of (l : list (StoredProxyTargetEvent Target * Z)) : Z := foldr Z.add 0%Z l.*2.

(** The revisions [from, from + 1, ...]. *)
Definition zseq (from : Z) (n : nat) : list Z := (fun i => from + Z.of_nat i)%Z <$> seq 0 n.

Definition revisions (l : list (StoredProxyTargetEvent Target * Z)) : list Z := (fun e => ev_revision e.1) <$> l.

(** The invariant of a stream. *)
Record stream_ok (s : TargetStream Target) : Prop := {
  ok_window : revisions (history s)
    = zseq (revision s - Z.of_nat (length (history s)) + 1) (length (history s));
  ok_length : (Z.of_nat (length (history s)) <= Z.min limit (revision s))%Z;
  ok_newest : (0 < revision s)%Z -> history s <> [];
  ok_bytes : historyBytes s = bytes_of (history s);
  ok_total : (bytes_of (history s) <= maxBytes)%Z;
  ok_sizes : Forall (fun e => 0 <= e.2 <= maxEventBytes options - 512)%Z (history s)
}.

Definition ids (s : TargetStream Target) : list nat := sub_id <$> subscribers s.

Record hub_ok (h : hub Target) : Prop := {
  hub_streams : forall node s, mget node (streams h) = Some s -> stream_ok s;
  hub_fresh : forall node s i, mget node (streams h) = Some s -> i ∈ ids s -> i < fresh h;
  hub_nodup : forall node s, mget node (streams h) = Some s -> NoDup (ids s);
  hub_owner : forall n1 n2 s1 s2 i,
    mget n1 (streams h) = Some s1 -> mget n2 (streams h) = Some s2 ->
    i ∈ ids s1 -> i ∈ ids s2 -> n1 = n2
}.

(** ** Sequences *)

Lemma zseq_length from n : length (zseq from n) = n.
Proof. unfold zseq. by rewrite length_fmap, length_seq. Qed.

Lemma zseq_S from n : zseq from (S n) = from :: zseq (from + 1) n.
Proof.
  unfold zseq. cbn [seq]. csimpl. rewrite Z.add_0_r. f_equal.
  rewrite <- fmap_S_seq, <- list_fmap_compose. apply list_fmap_ext. intros ? ? _. simpl. lia.
Qed.

Lemma zseq_snoc from n : zseq from (S n) = zseq from n ++ [(from + Z.of_nat n)%Z].
Proof. unfold zseq. by rewrite seq_S, fmap_app. Qed.

Lemma zseq_app from n m : zseq from (n + m) = zseq from n ++ zseq (from + Z.of_nat n) m.
Proof.
  revert from. induction n as [|n IH]; intros from; [by rewrite Z.add_0_r|].
  cbn [Nat.add]. rewrite !zseq_S, IH. simpl. do 3 f_equal. lia.
Qed.

Lemma zseq_drop from n k : drop k (zseq from n) = zseq (from + Z.of_nat k) (n - k).
Proof.
  revert from n. induction k as [|k IH]; intros from n; [by rewrite Z.add_0_r, Nat.sub_0_r|].
  destruct n as [|n]; [done|]. rewrite zseq_S. simpl. rewrite IH. f_equal; lia.
Qed.

Lemma zseq_filter from n since :
  (from - 1 <= since < from + Z.of_nat n)%Z ->
  filter (fun r => since < r)%Z (zseq from n)
  = zseq (since + 1) (Z.to_nat (from + Z.of_nat n - 1 - since)).
Proof.
  revert from. induction n as [|n IH]; intros from Hs; [simpl; by replace (Z.to_nat _) with 0 by lia|].
  rewrite zseq_S, filter_cons. case_decide.
  - replace since with (from - 1)%Z in * by lia.
    replace (Z.to_nat _) with (S n) by lia. replace (from - 1 + 1)%Z with from by lia.
    rewrite zseq_S. f_equal. clear IH Hs.
    apply filter_all. unfold zseq. intros r (i & -> & _)%list_elem_of_fmap. lia.
  - destruct (decide (since < from + 1 + Z.of_nat n)%Z); [|lia].
    rewrite IH by lia. f_equal. lia.
Qed.

Lemma revisions_drop k l : revisions (drop k l) = drop k (revisions l).
Proof. unfold revisions. by rewrite fmap_drop. Qed.

Lemma bytes_of_app l1 l2 : bytes_of (l1 ++ l2) = (bytes_of l1 + bytes_of l2)%Z.
Proof. unfold bytes_of. induction l1; csimpl; lia. Qed.

(** ** Eviction *)

Lemma limits_positive : (1 <= limit)%Z /\ (1024 <= maxEventBytes options <= maxBytes)%Z.
Proof. unfold maxHistoryBytes, maxEventBytes, historyLimit. lia. Qed.

Lemma bytes_of_nonneg l : Forall (fun e => 0 <= e.2 <= maxEventBytes options - 512)%Z l -> (0 <= bytes_of l)%Z.
Proof. unfold bytes_of. induction 1; csimpl in *; lia. Qed.

Lemma evict_spec entries rest total :
  Forall (fun e => 0 <= e.2 <= maxEventBytes options - 512)%Z entries ->
  evict options entries (bytes_of entries) = (rest, total) ->
  (exists k, rest = drop k entries) /\ total = bytes_of rest
  /\ (Z.of_nat (length rest) <= limit)%Z /\ (total <= maxBytes)%Z
  /\ (entries <> [] -> rest <> []).
Proof.
  pose proof limits_positive as [Hl Hb]. revert rest total.
  induction entries as [|e entries IH]; intros rest total Hs Hev.
  - simpl in Hev. simplify_eq. repeat split; try done; try (by exists 0); unfold bytes_of; simpl; lia.
  - apply Forall_cons in Hs as [He Hs]. simpl in Hev.
    assert (bytes_of (e :: entries) - e.2 = bytes_of entries)%Z as Heq by (unfold bytes_of; csimpl; lia).
    rewrite Heq in Hev. destruct (_ || _) eqn:Eover.
    + destruct (IH _ _ Hs Hev) as ((k & ->) & Ht & H1 & H2 & H3).
      split; [by exists (S k)|]. repeat split; try done. intros _. apply H3. intros ->.
      apply orb_true_iff in Eover as [Ho|Ho]; propify; simpl in *; [lia|].
      unfold bytes_of in Ho. csimpl in Ho. lia.
    + propify. simplify_eq. split; [by exists 0|]. simpl length in *. repeat split; try done; lia.
Qed.

Lemma stream_ok_push s e b hist total subs :
  stream_ok s -> ev_revision e = (revision s + 1)%Z -> (0 <= b <= maxEventBytes options - 512)%Z ->
  evict options (history s ++ [(e, b)]) (historyBytes s + b) = (hist, total) ->
  stream_ok (Stream (streamId s) (revision s + 1) hist total subs).
Proof.
  intros [Hw Hl Hn Hb Ht Hs] Hrev Hbound Hev.
  assert (Forall (fun e => 0 <= e.2 <= maxEventBytes options - 512)%Z (history s ++ [(e, b)])) as Hs'.
  { apply Forall_app. split; [done|]. by apply Forall_singleton. }
  assert (historyBytes s + b = bytes_of (history s ++ [(e, b)]))%Z as Heq.
  { rewrite bytes_of_app, Hb. unfold bytes_of at 3. csimpl. lia. }
  rewrite Heq in Hev. apply evict_spec in Hev as ((k & ->) & -> & Hlim & Hmax & Hne); [|done].
  assert (k <= length (history s)) as Hk.
  { destruct (decide (k <= length (history s))); [done|]. exfalso.
    apply Hne; [by destruct (history s)|]. apply drop_ge. rewrite length_app. simpl. lia. }
  rewrite length_drop, length_app in Hlim. simpl in Hlim.
  split; simpl; rewrite ?length_drop, ?length_app; simpl.
  - rewrite revisions_drop. unfold revisions. rewrite fmap_app. csimpl. fold (revisions (history s)).
    rewrite Hw, Hrev.
    replace (revision s + 1)%Z with (revision s - Z.of_nat (length (history s)) + 1 + Z.of_nat (length (history s)))%Z at 1 by lia.
    rewrite <- zseq_snoc, zseq_drop. f_equal; lia.
  - lia.
  - intros _. apply Hne. by destruct (history s).
  - done.
  - done.
  - by apply Forall_drop.
Qed.

(** ** Fan-out *)

Abbreviation delivers := (deliver parseEvent eventBytes options).

Lemma fanOut_sent event sendOk copy : forall subs,
  (fanOut parseEvent eventBytes options event sendOk copy subs).1.2
  = omap (fun sub => pair (sub_id sub) <$> delivers event sendOk sub) copy.
Proof.
  induction copy as [|sub copy IH]; intros subs; [done|]. simpl.
  destruct (delivers event sendOk sub);
    [specialize (IH subs)|specialize (IH (delete_subscriber (sub_id sub) subs))];
    destruct (fanOut _ _ _ _ _ copy _) as [[s1 s2] s3]; simpl in *; by rewrite IH.
Qed.

Lemma delete_subscriber_ids id subs : sub_id <$> delete_subscriber id subs = filter (.≠ id) (sub_id <$> subs).
Proof.
  unfold delete_subscriber. induction subs as [|sub subs IH]; [done|].
  rewrite fmap_cons, !filter_cons. case_decide; csimpl; by rewrite IH.
Qed.

Lemma fanOut_ids event sendOk copy : forall subs,
  sub_id <$> (fanOut parseEvent eventBytes options event sendOk copy subs).1.1
  = filter (fun i => i ∉ sub_id <$> filter (fun sub => delivers event sendOk sub = None) copy) (sub_id <$> subs).
Proof.
  induction copy as [|sub copy IH]; intros subs.
  - simpl. symmetry. apply filter_all. intros i _. apply not_elem_of_nil.
  - destruct (delivers event sendOk sub) eqn:Ed.
    + rewrite filter_cons_False by congruence. specialize (IH subs). simpl. rewrite Ed.
      by destruct (fanOut _ _ _ _ _ copy _) as [[s1 s2] s3].
    + rewrite filter_cons_True by done. specialize (IH (delete_subscriber (sub_id sub) subs)).
      simpl. rewrite Ed. destruct (fanOut _ _ _ _ _ copy _) as [[s1 s2] s3]. simpl in *.
      rewrite IH, delete_subscriber_ids, list_filter_filter.
      apply list_filter_iff. intros i. csimpl. rewrite not_elem_of_cons. naive_solver.
Qed.

Lemma omap_sent_in event sendOk copy sub :
  NoDup (sub_id <$> copy) -> sub ∈ copy ->
  filter (fun p => p.1 = sub_id sub) (omap (fun sub => pair (sub_id sub) <$> delivers event sendOk sub) copy)
  = match delivers event sendOk sub with Some e => [(sub_id sub, e)] | None => [] end.
Proof.
  assert (forall copy i, i ∉ sub_id <$> copy ->
    filter (fun p => p.1 = i) (omap (fun sub => pair (sub_id sub) <$> delivers event sendOk sub) copy) = []) as Hnone.
  { clear. induction copy as [|x copy IH]; intros i Hi; [done|]. csimpl in *.
    apply not_elem_of_cons in Hi as [Hne Hi].
    destruct (delivers event sendOk x); simpl; [|by apply IH].
    rewrite filter_cons, decide_False by (simpl; congruence). by apply IH. }
  induction copy as [|x copy IH]; intros Hnd Hin; [by apply elem_of_nil in Hin|].
  csimpl in *. apply NoDup_cons in Hnd as [Hx Hnd]. apply elem_of_cons in Hin as [->|Hin].
  - destruct (delivers event sendOk x); simpl; [|by apply Hnone].
    rewrite filter_cons, decide_True by done. f_equal. by apply Hnone.
  - assert (sub_id x <> sub_id sub) as Hne.
    { intros Heq. apply Hx. rewrite Heq. by apply list_elem_of_fmap_2. }
    destruct (delivers event sendOk x); simpl; [|by apply IH].
    rewrite filter_cons, decide_False by done. by apply IH.
Qed.

(** ** The hub *)

Lemma stream_ok_new sid : stream_ok (Stream sid 0 [] 0 []).
Proof. pose proof limits_positive. split; simpl; try done; unfold bytes_of; simpl; try lia. Qed.

Lemma hub_ok_put h node s' f' :
  hub_ok h -> stream_ok s' -> fresh h <= f' -> NoDup (ids s') ->
  (forall i, i ∈ ids s' ->
     (exists s, mget node (streams h) = Some s /\ i ∈ ids s) \/ (fresh h <= i < f')) ->
  hub_ok (Hub (mset node s' (streams h)) f').
Proof.
  intros [Hs Hf Hnd Ho] Hs' Hf' Hnd' Hids. split; simpl.
  - intros n s. rewrite mget_mset. case_decide; [by intros [= <-]|]. apply Hs.
  - intros n s i. rewrite mget_mset. case_decide.
    + intros [= <-] Hi. destruct (Hids i Hi) as [(s & H1 & H2)|]; [|lia].
      pose proof (Hf _ _ _ H1 H2). lia.
    + intros H1 H2. pose proof (Hf _ _ _ H1 H2). lia.
  - intros n s. rewrite mget_mset. case_decide; [by intros [= <-]|]. apply Hnd.
  - assert (forall n s i, mget n (streams h) = Some s -> i ∈ ids s -> i ∈ ids s' -> n = node) as Hx.
    { intros n s i H1 H2 Hi. destruct (Hids i Hi) as [(s0 & H3 & H4)|]; [by eapply Ho|].
      pose proof (Hf _ _ _ H1 H2). lia. }
    intros n1 n2 s1 s2 i. rewrite !mget_mset. repeat case_decide; intros; simplify_eq; eauto.
    symmetry. eauto.
Qed.

Lemma stream_spec h node h' s :
  hub_ok h -> get_stream h node = (h', s) ->
  hub_ok h' /\ mget node (streams h') = Some s
  /\ (h' = h \/ (h' = Hub (mset node s (streams h)) (S (fresh h))
                  /\ mget node (streams h) = None /\ ids s = [])).
Proof.
  intros Hok. unfold stream. destruct (mget node (streams h)) as [s0|] eqn:E; intros; simplify_eq.
  - split; [done|]. split; [done|]. by left.
  - simpl. rewrite mget_mset_eq. split; [|split; [done|]; by right].
    apply hub_ok_put; try done; [apply stream_ok_new|simpl; lia|constructor|].
    intros i. simpl. by intros ?%elem_of_nil.
Qed.

Lemma deliver_revision event sendOk sub hydrated :
  parser_keeps_revision -> delivers event sendOk sub = Some hydrated ->
  ev_revision (delivery hydrated) = ev_revision event.
Proof.
  intros Hp. unfold deliver, hydrateEvent. destruct (parseEvent _) as [e|] eqn:E; [|done].
  simpl. destruct (eventBytes e); [|done]. simpl. repeat case_match; intros; simplify_eq.
  by apply Hp in E.
Qed.

(** What [accept] may do. *)
Lemma accept_inv h event projected sendOk h' o :
  parser_keeps_revision -> sizes_not_negative -> hub_ok h ->
  accept parseEvent storedBytes eventBytes createStreamId options h event projected sendOk = (h', o) ->
  (o = nothing /\ (h' = h \/ exists node, h' = (get_stream h node).1))
  \/ exists node s h1 ev bytes hist total subs sent failed,
       get_stream h node = (h1, s) /\ ev_revision ev = (revision s + 1)%Z
       /\ (0 <= bytes <= maxEventBytes options - 512)%Z
       /\ evict options (history s ++ [(ev, bytes)]) (historyBytes s + bytes) = (hist, total)
       /\ fanOut parseEvent eventBytes options ev sendOk (subscribers s) (subscribers s) = (subs, sent, failed)
       /\ h' = put_stream h1 node (Stream (streamId s) (revision s + 1) hist total subs)
       /\ o = Accepted (Some ev) sent failed.
Proof.
  intros Hparse Hsize Hok. unfold accept.
  destruct (env_nodeId event) as [[|c node]|]; [intros; simplify_eq; auto| |intros; simplify_eq; auto].
  destruct projected as [target|]; [|intros; simplify_eq; auto].
  destruct (stream createStreamId h (c :: node)) as [h1 s] eqn:Es.
  assert (h1 = (get_stream h (c :: node)).1) as Hh1 by (by rewrite Es).
  destruct (parseEvent _) as [parsed|] eqn:Ep; [|intros; simplify_eq; left; eauto].
  destruct (storedBytes _) as [bytes|] eqn:Eb; [|intros; simplify_eq; left; eauto].
  destruct (_ <? _)%Z eqn:El; [intros; simplify_eq; left; eauto|]. propify.
  destruct (evict _ _ _) as [hist total] eqn:Ee.
  destruct (fanOut _ _ _ _ _ _ _) as [[subs sent] failed] eqn:Ef.
  intros [= <- <-]. right. exists (c :: node), s, h1, (delivery parsed), bytes, hist, total, subs, sent, failed.
  repeat split; try done; [by apply Hparse in Ep|by eapply Hsize].
Qed.

Lemma fanOut_subset event sendOk subs0 subs sent failed :
  fanOut parseEvent eventBytes options event sendOk subs0 subs0 = (subs, sent, failed) ->
  NoDup (sub_id <$> subs0) ->
  NoDup (sub_id <$> subs) /\ (forall i, i ∈ sub_id <$> subs -> i ∈ sub_id <$> subs0).
Proof.
  intros Hf Hnd. pose proof (fanOut_ids event sendOk subs0 subs0) as Hi. rewrite Hf in Hi. simpl in Hi.
  rewrite Hi. split; [by apply NoDup_filter|]. intros i. rewrite list_elem_of_filter. naive_solver.
Qed.

Lemma hub_ok_step h op h' o :
  parser_keeps_revision -> sizes_not_negative -> hub_ok h -> step h op = (h', o) -> hub_ok h'.
Proof.
  intros Hparse Hsize Hok. destruct op as [node|node|b c node since sendOk|node id|event projected sendOk];
    cbn [hub_step]; unfold cursor, diagnostics.
  - destruct (stream createStreamId h node) as [h1 s] eqn:E. apply stream_spec in E as (H & _); [|done].
    by intros [= <- _].
  - destruct (stream createStreamId h node) as [h1 s] eqn:E. apply stream_spec in E as (H & _); [|done].
    by intros [= <- _].
  - unfold subscribe. destruct (stream createStreamId h node) as [h1 s] eqn:E.
    apply stream_spec in E as (H & Hget & _); [|done]. destruct (_ || _); [|].
    { destruct (sendAll _ _ _). by intros [= <- _]. }
    destruct (sendAll _ _ _) as [sent []]; [|by intros [= <- _]]. intros [= <- _].
    apply hub_ok_put; simpl; [done| |lia| |].
    + destruct (hub_streams _ H _ _ Hget). by split.
    + unfold ids. simpl. rewrite fmap_app. apply NoDup_app.
      split; [by apply (hub_nodup _ H _ _ Hget)|]. split; [|apply NoDup_singleton].
      intros i Hi ->%list_elem_of_singleton. simpl in Hi. pose proof (hub_fresh _ H _ _ _ Hget Hi). lia.
    + unfold ids. simpl. rewrite fmap_app. intros i [Hi| ->%list_elem_of_singleton]%elem_of_app; [eauto|].
      right. simpl. lia.
  - unfold close. destruct (mget node (streams h)) as [s|] eqn:E; [|by intros [= <- _]].
    intros [= <- _]. apply hub_ok_put; simpl; [done| |lia| |].
    + destruct (hub_streams _ Hok _ _ E). by split.
    + unfold ids. simpl. rewrite delete_subscriber_ids. apply NoDup_filter, (hub_nodup _ Hok _ _ E).
    + unfold ids. simpl. rewrite delete_subscriber_ids. intros i [_ ?]%list_elem_of_filter. eauto.
  - intros Ha. apply accept_inv in Ha as [(_ & [-> | (node & ->)])|Ha]; [done| |..]; try done.
    + destruct (stream createStreamId h node) as [h1 s] eqn:E. by apply stream_spec in E as (H & _).
    + destruct Ha as (node & s & h1 & ev & bytes & hist & total & subs & sent & failed & Es & Hrev & Hb & He & Hf & -> & _).
      apply stream_spec in Es as (H & Hget & _); [|done].
      destruct (fanOut_subset _ _ _ _ _ _ Hf (hub_nodup _ H _ _ Hget)) as [Hnd Hsub].
      apply hub_ok_put; simpl; [done| |lia|done|].
      * eapply stream_ok_push; eauto using hub_streams.
      * intros i Hi. left. eauto.
Qed.

Lemma hub_ok_new : hub_ok newHub.
Proof. by split. Qed.

Lemma hub_ok_run ops : forall h h' os,
  parser_keeps_revision -> sizes_not_negative -> hub_ok h -> run h ops = (h', os) -> hub_ok h'.
Proof.
  induction ops as [|op ops IH]; intros h h' os Hp Hs Hok; simpl; [by intros [= <- _]|].
  destruct (step h op) as [h1 o] eqn:E. destruct (run h1 ops) as [h2 os2] eqn:E2. intros [= <- _].
  eapply IH; [done|done| |done]. by eapply hub_ok_step.
Qed.

(** ** Delivery *)

Definition event_revisions (l : list (ProxyTargetEvent Target)) : list Z := (fun e => ev_revision (delivery e)) <$> l.

(** The events among the messages of [subscribe], and the events later sent
    to a subscriber. *)
Definition replayed (msgs : list (ProxyEventStreamMessage Target)) : list (ProxyTargetEvent Target) :=
  omap (fun m => match m with EventMessage e => Some e | _ => None end) msgs.
Definition received1 (i : nat) (o : accept_outcome Target) : list (ProxyTargetEvent Target) :=
  snd <$> filter (fun p => p.1 = i) (sent o).
Definition received (i : nat) (os : list (accept_outcome Target)) : list (ProxyTargetEvent Target) :=
  concat (received1 i <$> os).

Definition subscribed (h : hub Target) (node : jsstring) (i : nat) : Prop :=
  exists s, mget node (streams h) = Some s /\ i ∈ ids s.

(** Subscriber [i] of [node] has everything up to revision [r]: it is live and
    [r] is the current revision, or it has left. *)
Definition tracked (h : hub Target) (node : jsstring) (i : nat) (r : Z) : Prop :=
  i < fresh h /\
  ((exists s, mget node (streams h) = Some s /\ i ∈ ids s /\ r = revision s)
   \/ ((forall n, ~ subscribed h n i) /\ exists s, mget node (streams h) = Some s /\ (r <= revision s)%Z)).

Lemma tracked_put h n s0 s' f' i node r :
  hub_ok h -> tracked h node i r -> fresh h <= f' ->
  (mget n (streams h) = Some s0 \/ (mget n (streams h) = None /\ ids s0 = [])) ->
  (forall j, j ∈ ids s' -> j ∈ ids s0 \/ fresh h <= j) ->
  (revision s0 <= revision s')%Z ->
  (n = node -> i ∈ ids s' -> revision s' = revision s0) ->
  tracked (Hub (mset n s' (streams h)) f') node i r.
Proof.
  intros Hok [Hi Htr] Hf Hs0 Hids Hrev Hsame. split; [simpl; lia|].
  assert (forall n', subscribed (Hub (mset n s' (streams h)) f') n' i -> n' <> n -> subscribed h n' i) as Hother.
  { intros n' (s & Hs & Hin) Hne. simpl in Hs. rewrite mget_mset_ne in Hs by done. by exists s. }
  destruct Htr as [(s & Hs & Hin & ->)|(Hnot & s & Hs & Hle)].
  - destruct (decide (n = node)) as [->|Hne].
    + destruct Hs0 as [Hs0|[Hs0 _]]; [|congruence]. simplify_eq.
      destruct (decide (i ∈ ids s')) as [Hin'|Hin'].
      * left. exists s'. simpl. rewrite mget_mset_eq. split; [done|]. split; [done|]. by rewrite Hsame.
      * right. split; [|exists s'; simpl; by rewrite mget_mset_eq].
        intros n' Hsub. destruct (decide (n' = node)) as [->|Hne].
        -- destruct Hsub as (s1 & H1 & H2). simpl in H1. rewrite mget_mset_eq in H1. by simplify_eq.
        -- destruct (Hother _ Hsub Hne) as (s1 & H1 & H2). apply Hne. by eapply (hub_owner _ Hok).
    + left. exists s. simpl. by rewrite mget_mset_ne.
  - right. split.
    + intros n' Hsub. destruct (decide (n' = n)) as [->|Hne]; [|by eapply Hnot, Hother].
      destruct Hsub as (s1 & H1 & H2). simpl in H1. rewrite mget_mset_eq in H1. simplify_eq.
      destruct (Hids _ H2) as [Hin|]; [|lia].
      destruct Hs0 as [Hs0|[_ Hs0]]; [by apply (Hnot n); exists s0|]. rewrite Hs0 in Hin. by apply elem_of_nil in Hin.
    + destruct (decide (n = node)) as [->|Hne].
      * destruct Hs0 as [Hs0|[Hs0 _]]; [|congruence]. simplify_eq.
        exists s'. simpl. rewrite mget_mset_eq. split; [done|lia].
      * exists s. simpl. by rewrite mget_mset_ne.
Qed.

Lemma tracked_stream h n h' s i node r :
  hub_ok h -> tracked h node i r -> get_stream h n = (h', s) -> tracked h' node i r.
Proof.
  intros Hok Htr Hs. apply stream_spec in Hs as (_ & _ & [->|(-> & Hnone & Hids)]); [done| |done].
  apply (tracked_put h n s); auto; lia.
Qed.

(** The fan-out of an accepted event. *)
Lemma tracked_fanOut h1 n s ev sendOk hist total subs sent failed node i r :
  parser_keeps_revision -> hub_ok h1 -> tracked h1 node i r -> mget n (streams h1) = Some s ->
  ev_revision ev = (revision s + 1)%Z ->
  fanOut parseEvent eventBytes options ev sendOk (subscribers s) (subscribers s) = (subs, sent, failed) ->
  exists m, event_revisions (received1 i (Accepted (Some ev) sent failed)) = zseq (r + 1) m
    /\ tracked (put_stream h1 n (Stream (streamId s) (revision s + 1) hist total subs)) node i (r + Z.of_nat m).
Proof.
  intros Hparse Hok1 Ht1 Hget Hrev Hf.
  pose proof (hub_nodup _ Hok1 _ _ Hget) as Hnd.
  pose proof (fanOut_sent ev sendOk (subscribers s) (subscribers s)) as Hsent.
  pose proof (fanOut_ids ev sendOk (subscribers s) (subscribers s)) as Hids. rewrite Hf in Hsent, Hids. simpl in Hsent, Hids.
  assert (tracked (put_stream h1 n (Stream (streamId s) (revision s + 1) hist total subs)) node i r
          \/ (n = node /\ i ∈ sub_id <$> subs)) as Hcase.
  { destruct (decide (n = node /\ i ∈ sub_id <$> subs)); [by right|left].
    apply (tracked_put h1 n s); auto; simpl; try lia; [|naive_solver].
    intros j Hj. left. unfold ids in *. simpl in Hj. rewrite Hids in Hj.
    by apply list_elem_of_filter in Hj as [_ ?]. }
  destruct (decide (i ∈ ids s)) as [Hin|Hin].
  + apply list_elem_of_fmap in Hin as (sub & -> & Hin).
    pose proof (omap_sent_in ev sendOk _ _ Hnd Hin) as Hr. rewrite <- Hsent in Hr.
    destruct (delivers ev sendOk sub) as [e|] eqn:Ed.
    * assert (node = n) as ->.
      { destruct Ht1 as [_ [(s1 & H1 & H2 & _)|[Hno _]]].
        - eapply (hub_owner _ Hok1); [exact H1|exact Hget|exact H2|]. by apply list_elem_of_fmap_2.
        - exfalso. apply (Hno n). exists s. split; [done|]. by apply list_elem_of_fmap_2. }
      assert (r = revision s) as ->.
      { destruct Ht1 as [_ [(s1 & H1 & H2 & ->)|[Hno _]]]; [by simplify_eq|].
        exfalso. apply (Hno n). exists s. split; [done|]. by apply list_elem_of_fmap_2. }
      exists 1. unfold received1. simpl. rewrite Hr. simpl. split.
      { unfold event_revisions. simpl. rewrite (deliver_revision _ _ _ _ Hparse Ed), Hrev.
        unfold zseq. simpl. f_equal. lia. }
      split; [by destruct Ht1|]. left. eexists. simpl. rewrite mget_mset_eq. split; [done|]. split; [|simpl; lia].
      unfold ids. simpl. rewrite Hids. apply list_elem_of_filter. split; [|by apply list_elem_of_fmap_2].
      intros (sub' & Heq & [Hd' Hin']%list_elem_of_filter)%list_elem_of_fmap.
      pose proof (omap_sent_in ev sendOk _ _ Hnd Hin') as Hr'. rewrite <- Hsent, <- Heq, Hr, Hd' in Hr'. done.
    * exists 0. unfold received1. simpl. rewrite Hr, Z.add_0_r. split; [done|].
      destruct Hcase as [|[_ Hx]]; [done|]. exfalso. rewrite Hids in Hx.
      apply list_elem_of_filter in Hx as [Hx _]. apply Hx. apply list_elem_of_fmap_2.
      apply list_elem_of_filter. done.
  + exists 0. rewrite Z.add_0_r. split.
    * unfold received1. simpl. rewrite Hsent. rewrite filter_none; [done|].
      intros [j e] (sub & Hsub & Hj)%list_elem_of_omap Heq. simpl in Heq. subst j.
      destruct (delivers ev sendOk sub); simplify_eq/=. apply Hin. by apply list_elem_of_fmap_2.
    * destruct Hcase as [|[_ Hx]]; [done|]. exfalso. rewrite Hids in Hx.
      apply list_elem_of_filter in Hx as [_ Hx]. done.
Qed.

(** One call: a live subscriber gets the next revision or nothing. *)
Lemma tracked_step h op h' o node i r :
  parser_keeps_revision -> sizes_not_negative -> hub_ok h -> tracked h node i r -> step h op = (h', o) ->
  exists n, event_revisions (received1 i o) = zseq (r + 1) n /\ tracked h' node i (r + Z.of_nat n).
Proof.
  intros Hparse Hsize Hok Htr Hstep.
  assert (forall h1 n s f', tracked h1 node i r -> hub_ok h1 -> mget n (streams h1) = Some s -> fresh h1 <= f' ->
            forall subs, (forall j, j ∈ sub_id <$> subs -> j ∈ ids s \/ fresh h1 <= j) ->
            tracked (Hub (mset n (with_subscribers subs s) (streams h1)) f') node i r) as Hsubs.
  { intros h1 n s f' Ht1 Hok1 Hget Hf subs Hj. apply (tracked_put h1 n s); auto; simpl; done || lia. }
  assert (forall h1, tracked h1 node i r -> o = nothing -> h' = h1 ->
            exists n, event_revisions (received1 i o) = zseq (r + 1) n /\ tracked h' node i (r + Z.of_nat n)) as Hquiet.
  { intros h1 Ht1 -> ->. exists 0. by rewrite Z.add_0_r. }
  destruct op as [n|n|b c n since sendOk|n id|event projected sendOk]; cbn [hub_step] in Hstep;
    unfold cursor, diagnostics, subscribe, close in Hstep.
  1-3: destruct (stream createStreamId h n) as [h1 s] eqn:E;
    pose proof (tracked_stream _ _ _ _ _ _ _ Hok Htr E) as Ht1;
    apply stream_spec in E as (Hok1 & Hget & _); [|done].
  - simplify_eq. by eapply Hquiet.
  - simplify_eq. by eapply Hquiet.
  - destruct (_ || _); destruct (sendAll _ _ _) as [sent []]; simplify_eq/=; try (by eapply Hquiet).
    eapply Hquiet; [|done|done]. apply Hsubs; auto. intros j. rewrite fmap_app, elem_of_app. unfold ids.
    intros [?| ->%list_elem_of_singleton]; [auto|]. right. simpl. lia.
  - destruct (mget n (streams h)) as [s|] eqn:E; simplify_eq; [|by eapply Hquiet].
    eapply Hquiet; [|done|done]. unfold put_stream. apply Hsubs; auto.
    intros j. rewrite delete_subscriber_ids. intros [_ ?]%list_elem_of_filter. auto.
  - apply accept_inv in Hstep; try done. destruct Hstep as [[-> Hh]|Ha].
    { destruct Hh as [Hh|(n & Hh)]; [by eapply Hquiet|].
      eapply Hquiet; [|done|exact Hh]. destruct (stream createStreamId h n) as [h1 s] eqn:E. by eapply tracked_stream. }
    destruct Ha as (n & s & h1 & ev & bytes & hist & total & subs & sent & failed & Es & Hrev & Hb & He & Hf & -> & ->).
    eapply tracked_fanOut; try done; [by eapply stream_spec|by eapply tracked_stream|by eapply stream_spec].
Qed.

Lemma tracked_run ops : forall h h' os node i r,
  parser_keeps_revision -> sizes_not_negative -> hub_ok h -> tracked h node i r -> run h ops = (h', os) ->
  exists n, event_revisions (received i os) = zseq (r + 1) n /\ tracked h' node i (r + Z.of_nat n).
Proof.
  induction ops as [|op ops IH]; intros h h' os node i r Hp Hs Hok Htr; simpl.
  - intros [= <- <-]. exists 0. by rewrite Z.add_0_r.
  - destruct (step h op) as [h1 o] eqn:E. destruct (run h1 ops) as [h2 os2] eqn:E2. intros [= <- <-].
    destruct (tracked_step _ _ _ _ _ _ _ Hp Hs Hok Htr E) as (n1 & H1 & Ht1).
    destruct (IH _ _ _ _ _ _ Hp Hs (hub_ok_step _ _ _ _ Hp Hs Hok E) Ht1 E2) as (n2 & H2 & Ht2).
    exists (n1 + n2). unfold received, event_revisions. csimpl. rewrite fmap_app.
    split; [|by replace (r + Z.of_nat (n1 + n2))%Z with (r + Z.of_nat n1 + Z.of_nat n2)%Z by lia].
    rewrite zseq_app. f_equal; [done|]. unfold event_revisions, received in H2. rewrite H2. f_equal. lia.
Qed.

Lemma sendAll_ok sendOk (msgs : list (option (ProxyEventStreamMessage Target))) : forall i out,
  sendAll sendOk i msgs = (out, true) -> msgs = Some <$> out.
Proof.
  induction msgs as [|[m|] msgs IH]; intros i out; simpl; [by intros [= <-]| |done].
  destruct (sendOk i); [|done]. destruct (sendAll sendOk (S i) msgs) as [o ok] eqn:E.
  intros [= <- ->]. csimpl. f_equal. by eapply IH.
Qed.

Lemma replay_revisions b c entries out :
  parser_keeps_revision ->
  (fun entry => EventMessage <$> hydrateEvent parseEvent entry.1 b c) <$> entries = Some <$> out ->
  event_revisions (replayed out) = revisions entries.
Proof.
  intros Hp. revert out. induction entries as [|[e z] entries IH]; intros [|m out]; csimpl; try done.
  destruct (hydrateEvent parseEvent e b c) as [e'|] eqn:E; [|done]. csimpl.
  intros [= <- Hout]. unfold event_revisions. simpl. f_equal; [by apply Hp in E|by apply IH].
Qed.

(** A successful subscription is tracked from what it replayed. *)
Lemma subscribe_tracked h b c node since sendOk h1 msgs sub :
  parser_keeps_revision -> control_is_not_event -> hub_ok h ->
  subscribe parseEvent parseControl createStreamId h b c node since sendOk = (h1, msgs, Subscribed sub) ->
  hub_ok h1 /\ exists n, event_revisions (replayed msgs) = zseq (since + 1) n
    /\ tracked h1 node (sub_id sub) (since + Z.of_nat n).
Proof.
  intros Hp Hc Hok Hsub. pose proof Hsub as Hsub'. unfold subscribe in Hsub.
  destruct (stream createStreamId h node) as [h0 s] eqn:E.
  apply stream_spec in E as (Hok0 & Hget & _); [|done].
  destruct (_ || _) eqn:Erange; destruct (sendAll _ _ _) as [out []] eqn:Es; simplify_eq.
  propify. apply sendAll_ok in Es. destruct msgs as [|m msgs]; [done|]. csimpl in Es.
  injection Es as Hready Hreplay. apply replay_revisions in Hreplay; [|done].
  pose proof (hub_streams _ Hok0 _ _ Hget) as [Hw Hl Hn _ _ _].
  assert (head (history s) = None \/ earliestRetainedRevision s = revision s - Z.of_nat (length (history s)) + 1)%Z as Hearly.
  { unfold earliestRetainedRevision. destruct (history s) as [|[e z] hist]; [by left|right].
    simpl. unfold revisions in Hw. csimpl in Hw. rewrite zseq_S in Hw. injection Hw as -> _. done. }
  assert (earliestRetainedRevision s = revision s - Z.of_nat (length (history s)) + 1)%Z as He.
  { destruct Hearly as [Hnil|]; [|done]. unfold earliestRetainedRevision. destruct (history s); [simpl; lia|done]. }
  rewrite He in *. split.
  { pose proof (hub_ok_step h (OpSubscribe b c node since sendOk)) as Hstep. cbn [hub_step] in Hstep.
    rewrite Hsub' in Hstep. cbn in Hstep.
    apply hub_ok_put; simpl; [done|by split; destruct (hub_streams _ Hok0 _ _ Hget)|lia| |].
    - unfold ids. simpl. rewrite fmap_app. apply NoDup_app.
      split; [by apply (hub_nodup _ Hok0 _ _ Hget)|]. split; [|apply NoDup_singleton].
      intros i Hi ->%list_elem_of_singleton. simpl in Hi. pose proof (hub_fresh _ Hok0 _ _ _ Hget Hi). lia.
    - unfold ids. simpl. rewrite fmap_app. intros i [Hi| ->%list_elem_of_singleton]%elem_of_app; [eauto|].
      right. simpl. lia. }
  exists (Z.to_nat (revision s - since)). split.
  - assert (replayed (m :: msgs) = replayed msgs) as ->.
    { unfold replayed. simpl. destruct m; try done. exfalso. by eapply Hc. }
    rewrite Hreplay. transitivity (filter (fun r => since < r)%Z (revisions (history s))).
    + unfold revisions. clear. induction (history s) as [|e l IH]; [done|].
      rewrite fmap_cons, !filter_cons. case_decide; csimpl; by rewrite IH.
    + rewrite Hw, zseq_filter by lia. f_equal. lia.
  - split; [simpl; lia|]. left. eexists. simpl. rewrite mget_mset_eq. split; [done|]. split.
    + unfold ids. simpl. rewrite fmap_app. apply elem_of_app. right. by apply list_elem_of_singleton.
    + simpl. lia.
Qed.

(** Every stream of every run keeps the promised window: its history holds
    the last revisions without a gap, ends at the current revision, is never
    empty once an event was accepted, and respects the entry, byte and event
    limits with an exact byte count. *)
Theorem hub_history_window ops h os node s
    (Hparse : parser_keeps_revision) (Hsize : sizes_not_negative)
    (Hrun : run newHub ops = (h, os)) (Hs : mget node (streams h) = Some s) :
  stream_ok s.
Proof. eapply hub_streams; [|done]. eapply hub_ok_run; eauto using hub_ok_new. Qed.

(** C6. Exactly once, in order: from the replay and the live feed together a
    subscriber that asked for the events after [since] receives the revisions
    [since + 1, since + 2, ...] with no gap and no repetition, whatever happens
    in between, and has all of them up to the stream's revision as long as it
    is subscribed. *)
Theorem hub_exactly_once ops h os b c node since sendOk h1 msgs sub ops' h2 os' s2
    (Hparse : parser_keeps_revision) (Hcontrol : control_is_not_event) (Hsize : sizes_not_negative)
    (Hrun : run newHub ops = (h, os))
    (Hsub : subscribe parseEvent parseControl createStreamId h b c node since sendOk
            = (h1, msgs, Subscribed sub))
    (Hrun' : run h1 ops' = (h2, os')) (Hs2 : mget node (streams h2) = Some s2) :
  exists n, event_revisions (replayed msgs ++ received (sub_id sub) os') = zseq (since + 1) n
    /\ (since + Z.of_nat n <= revision s2)%Z
    /\ (sub_id sub ∈ ids s2 -> since + Z.of_nat n = revision s2)%Z.
Proof.
  pose proof (hub_ok_run _ _ _ _ Hparse Hsize hub_ok_new Hrun) as Hok.
  destruct (subscribe_tracked _ _ _ _ _ _ _ _ _ Hparse Hcontrol Hok Hsub) as (Hok1 & n1 & H1 & Ht1).
  destruct (tracked_run _ _ _ _ _ _ _ Hparse Hsize Hok1 Ht1 Hrun') as (n2 & H2 & [_ Ht2]).
  exists (n1 + n2). split.
  { unfold event_revisions in *. rewrite fmap_app, H1, H2, zseq_app. do 2 f_equal. lia. }
  destruct Ht2 as [(s & Hs & Hin & Hr)|(Hno & s & Hs & Hr)];
    assert (s = s2) as -> by congruence; (split; [lia|]); [lia|].
  intros Hin. exfalso. apply (Hno node). by exists s2.
Qed.
End HubSpec.

(** A run with two events before and one after a subscription at revision 1,
    with a parser that accepts everything and events of 600 bytes. *)
Definition sample_envelope (i : nat) : EventEnvelope :=
  Envelope (js "evt") (Z.of_nat i) (js "node.updated") (js "nodes") (js "now") (Some (js "n1")).
Definition sample_accept (i : nat) : hub_op unit := OpAccept (sample_envelope i) (Some tt) (fun _ => true).
Definition sample_stream_id (i : nat) (node : jsstring) : jsstring := node.
Definition sample_options : hub_options := HubOptions (Some 2%Z) None None.
Abbreviation sample_run :=
  (hub_run Some Some (fun _ => Some 600%Z) (fun _ => Some 700%Z) sample_stream_id sample_options).

Lemma hub_history_window_witness :
  exists h os s, sample_run newHub [sample_accept 1; sample_accept 2; sample_accept 3] = (h, os)
    /\ mget (js "n1") (streams h) = Some s /\ length (history s) = 2 /\ revision s = 3%Z
    /\ stream_ok sample_options s.
Proof.
  eexists _, _, _. split; [vm_compute; reflexivity|]. split; [vm_compute; reflexivity|].
  split; [reflexivity|]. split; [reflexivity|].
  eapply (hub_history_window Some Some (fun _ => Some 600%Z) (fun _ => Some 700%Z) sample_stream_id sample_options
           [sample_accept 1; sample_accept 2; sample_accept 3] _ _ (js "n1")).
  - by intros ?? [= <-].
  - by intros ?? [= <-].
  - vm_compute. reflexivity.
  - vm_compute. reflexivity.
Defined.

Lemma hub_exactly_once_witness :
  exists h os h1 msgs sub h2 os' s2,
    sample_run newHub [sample_accept 1; sample_accept 2] = (h, os)
    /\ subscribe Some Some sample_stream_id h (js "b") (js "c") (js "n1") 1 (fun _ => true)
       = (h1, msgs, Subscribed sub)
    /\ sample_run h1 [sample_accept 3; OpClose (js "n1") 1; sample_accept 4] = (h2, os')
    /\ mget (js "n1") (streams h2) = Some s2
    /\ length (replayed msgs ++ received (sub_id sub) os') = 2
    /\ exists n, event_revisions (replayed msgs ++ received (sub_id sub) os') = zseq 2 n
       /\ (1 + Z.of_nat n <= revision s2)%Z
       /\ (sub_id sub ∈ ids s2 -> 1 + Z.of_nat n = revision s2)%Z.
Proof.
  eexists _, _, _, _, _, _, _, _. do 4 (split; [vm_compute; reflexivity|]). split; [reflexivity|].
  eapply (hub_exactly_once Some Some (fun _ => Some 600%Z) (fun _ => Some 700%Z) sample_stream_id sample_options
           [sample_accept 1; sample_accept 2] _ _ (js "b") (js "c") (js "n1") 1 (fun _ => true) _ _ _
           [sample_accept 3; OpClose (js "n1") 1; sample_accept 4]).
  - by intros ?? [= <-].
  - by intros ?? [= <-].
  - by intros ?? [= <-].
  - vm_compute. reflexivity.
  - vm_compute. reflexivity.
  - vm_compute. reflexivity.
  - vm_compute. reflexivity.
Defined.
