(* ===== verification/Coalescer.v ===== *)
(** * The message delta coalescer of the controlled instance

    [packages/controlled-instance/src/web/ai-session-message-delta-coalescer.ts]:
    deltas of one message are joined for a short window before they are
    emitted.  The clock of the module is explicit: [now] is an argument of
    each call, the armed timers are part of the state, and a timer that fires
    is an operation.  [emit] is the list of emitted payloads; it is taken to
    return. *)

From S2P Require Export Utf8.

Definition DEFAULT_AI_SESSION_MESSAGE_DELTA_WINDOW_MS : Z := 32.
Definition MIN_AI_SESSION_MESSAGE_DELTA_WINDOW_MS : Z := 20.
Definition MAX_AI_SESSION_MESSAGE_DELTA_WINDOW_MS : Z := 50.

Inductive flush_reason :=
| ReasonWindow | ReasonManual | ReasonCompleted | ReasonFailed | ReasonWaiting
| ReasonInterrupted | ReasonAuthoritativeEvent | ReasonEventSourceClose | ReasonServiceClose.

#[export] Instance flush_reason_eq_dec : EqDecision flush_reason.
Proof. solve_decision. Defined.

(** [JSON.stringify] of a nullable string. *)
Definition json_nullable (s : option jsstring) : jsstring :=
  match s with Some s => json_stringify_string s | None => js "null" end.

(** [AiSessionMessageDeltaKey]. *)
Record delta_key := DeltaKey {
  k_instanceId : jsstring;
  k_sessionId : jsstring;
  k_turnId : option jsstring;
  k_itemId : option jsstring
}.

Definition messageKey (k : delta_key) : jsstring :=
  [91%N] ++ json_stringify_string (k_instanceId k) ++ [44%N]
  ++ json_stringify_string (k_sessionId k) ++ [44%N]
  ++ json_nullable (k_turnId k) ++ [44%N] ++ json_nullable (k_itemId k) ++ [93%N].

Inductive coalescer_error := WindowRangeError | CoalescerClosed.

(** [None] is a number that is not finite. *)
Definition validateWindowMs (windowMs : option Z) : result coalescer_error Z :=
  match windowMs with
  | Some w =>
      if ((w <? MIN_AI_SESSION_MESSAGE_DELTA_WINDOW_MS)
          || (MAX_AI_SESSION_MESSAGE_DELTA_WINDOW_MS <? w))%Z
      then Throw WindowRangeError else Ok w
  | None => Throw WindowRangeError
  end.

Section Coalescer.
(** The fields of a payload besides its key and its delta. *)
Context {Rest : Type}.

Record delta_event := DeltaEvent { key : delta_key; delta : jsstring; rest : Rest }.

Record PendingDeltaBatch := Batch {
  chunks : list jsstring;
  firstReceivedAtMs : Z;
  lastPayload : delta_event;
  timer : nat
}.

Record coalescer_diagnostics := CoalescerDiagnostics {
  rawDeltaCount : nat;
  emittedEventCount : nat;
  totalBatchSize : nat;
  maxBatchSize : nat;
  flushReasons : jsmap flush_reason nat;
  totalFirstBatchWaitMs : Z;
  maxFirstBatchWaitMs : Z
}.

(** [timers] are the armed timeouts with the key their callback flushes;
    [nextTimer] supplies the handles. *)
Record coalescer := Coalescer {
  windowMs : Z;
  pending : jsmap jsstring PendingDeltaBatch;
  diagnosticState : coalescer_diagnostics;
  isClosed : bool;
  timers : jsmap nat jsstring;
  nextTimer : nat
}.

Definition newCoalescer (window : option (option Z)) : result coalescer_error coalescer :=
  w ← validateWindowMs (default (Some DEFAULT_AI_SESSION_MESSAGE_DELTA_WINDOW_MS) window);
  Ok (Coalescer w [] (CoalescerDiagnostics 0 0 0 0 [] 0 0) false [] 0).

Definition pendingCount (c : coalescer) : nat := length (pending c).

Definition count_raw (d : coalescer_diagnostics) : coalescer_diagnostics :=
  CoalescerDiagnostics (S (rawDeltaCount d)) (emittedEventCount d) (totalBatchSize d)
    (maxBatchSize d) (flushReasons d) (totalFirstBatchWaitMs d) (maxFirstBatchWaitMs d).

Definition push (now : Z) (payload : delta_event) (c : coalescer) : result coalescer_error coalescer :=
  if isClosed c then Throw CoalescerClosed
  else
    let diag := count_raw (diagnosticState c) in
    let k := messageKey (key payload) in
    match mget k (pending c) with
    | Some existing =>
        let batch := Batch (chunks existing ++ [delta payload]) (firstReceivedAtMs existing) payload
                       (timer existing) in
        Ok (Coalescer (windowMs c) (mset k batch (pending c)) diag (isClosed c) (timers c) (nextTimer c))
    | None =>
        let batch := Batch [delta payload] now payload (nextTimer c) in
        Ok (Coalescer (windowMs c) (mset k batch (pending c)) diag (isClosed c)
              (mset (nextTimer c) k (timers c)) (S (nextTimer c)))
    end.

Definition count_flush (reason : flush_reason) (batchSize : nat) (waitMs : Z)
    (d : coalescer_diagnostics) : coalescer_diagnostics :=
  CoalescerDiagnostics (rawDeltaCount d) (S (emittedEventCount d)) (totalBatchSize d + batchSize)
    (Nat.max (maxBatchSize d) batchSize)
    (mset reason (S (default 0 (mget reason (flushReasons d)))) (flushReasons d))
    (totalFirstBatchWaitMs d + waitMs) (Z.max (maxFirstBatchWaitMs d) waitMs).

(** The state after a flush and the emitted payload, [None] when no batch was
    pending for the key. *)
Definition flushByKey (now : Z) (k : jsstring) (reason : flush_reason) (c : coalescer)
  : coalescer * option delta_event :=
  match mget k (pending c) with
  | None => (c, None)
  | Some batch =>
      let waitMs := Z.max 0 (now - firstReceivedAtMs batch) in
      (Coalescer (windowMs c) (mdelete k (pending c))
         (count_flush reason (length (chunks batch)) waitMs (diagnosticState c))
         (isClosed c) (mdelete (timer batch) (timers c)) (nextTimer c),
       Some (DeltaEvent (key (lastPayload batch)) (concat (chunks batch)) (rest (lastPayload batch))))
  end.

Definition flush (now : Z) (k : delta_key) (reason : flush_reason) (c : coalescer)
  : coalescer * option delta_event := flushByKey now (messageKey k) reason c.

Fixpoint flushKeys (now : Z) (keys : list jsstring) (reason : flush_reason) (c : coalescer)
  : coalescer * list delta_event :=
  match keys with
  | [] => (c, [])
  | k :: keys' =>
      let '(c, emitted) := flushByKey now k reason c in
      let '(c, emitted') := flushKeys now keys' reason c in
      (c, match emitted with Some e => e :: emitted' | None => emitted' end)
  end.

Definition flushAll (now : Z) (reason : flush_reason) (c : coalescer) : coalescer * list delta_event :=
  flushKeys now (mkeys (pending c)) reason c.

Definition close (now : Z) (reason : flush_reason) (c : coalescer) : coalescer * list delta_event :=
  if isClosed c then (c, [])
  else
    flushAll now reason (Coalescer (windowMs c) (pending c) (diagnosticState c) true (timers c) (nextTimer c)).

(** The callback of an armed timer: it flushes its key. *)
Definition fire (now : Z) (handle : nat) (c : coalescer) : coalescer * option delta_event :=
  match mget handle (timers c) with
  | None => (c, None)
  | Some k =>
      flushByKey now k ReasonWindow
        (Coalescer (windowMs c) (pending c) (diagnosticState c) (isClosed c)
           (mdelete handle (timers c)) (nextTimer c))
  end.

(** ** Runs *)

Inductive coalescer_op :=
| OpPush (payload : delta_event)
| OpFlush (k : delta_key) (reason : flush_reason)
| OpFlushAll (reason : flush_reason)
| OpClose (reason : flush_reason)
| OpFire (handle : nat).

(** One call at time [now]: a throwing [push] leaves the state. *)
Definition coalescer_step (c : coalescer) (call : Z * coalescer_op) : coalescer * list delta_event :=
  let '(now, op) := call in
  match op with
  | OpPush payload => (match push now payload c with Ok c' => c' | Throw _ => c end, [])
  | OpFlush k reason => let '(c, e) := flush now k reason c in (c, option_list e)
  | OpFlushAll reason => flushAll now reason c
  | OpClose reason => close now reason c
  | OpFire handle => let '(c, e) := fire now handle c in (c, option_list e)
  end.

Fixpoint coalescer_run (c : coalescer) (calls : list (Z * coalescer_op)) : coalescer * list delta_event :=
  match calls with
  | [] => (c, [])
  | call :: calls' =>
      let '(c, emitted) := coalescer_step c call in
      let '(c, emitted') := coalescer_run c calls' in (c, emitted ++ emitted')
  end.

(** The payloads a run accepts: those pushed before a close. *)
Fixpoint accepted_pushes (c : coalescer) (calls : list (Z * coalescer_op)) : list delta_event :=
  match calls with
  | [] => []
  | call :: calls' =>
      let rest := accepted_pushes (coalescer_step c call).1 calls' in
      match call.2 with
      | OpPush payload => if isClosed c then rest else payload :: rest
      | _ => rest
      end
  end.
End Coalescer.
Arguments delta_event : clear implicits.
Arguments PendingDeltaBatch : clear implicits.
Arguments coalescer : clear implicits.
Arguments coalescer_op : clear implicits.
