(* ===== verification/CoalescerSpec.v ===== *)
(** * What the delta coalescer promises

    Per message the emitted payloads are the accepted deltas, cut into
    consecutive batches: nothing is lost, repeated, reordered or mixed with
    another message, and distinct messages have distinct keys. *)

From S2P Require Export Coalescer.

Section CoalescerSpec.
Context {Rest : Type}.
Implicit Types (c : coalescer Rest) (p e : delta_event Rest) (pushes emitted : list (delta_event Rest)).

(** The payloads of one message. *)
Definition of_key (k : jsstring) (l : list (delta_event Rest)) : list (delta_event Rest) :=
  filter (fun p => messageKey (key p) = k) l.

Definition text (l : list (delta_event Rest)) : jsstring := concat (delta <$> l).

(** A payload emitted for a batch: the last payload with the joined deltas. *)
Definition joined (batch : list (delta_event Rest)) (e : delta_event Rest) : Prop :=
  exists lp, last batch = Some lp /\ e = DeltaEvent (key lp) (text batch) (rest lp).

Definition pending_of (o : option (PendingDeltaBatch Rest)) (open : list (delta_event Rest)) : Prop :=
  match o with
  | None => open = []
  | Some b => last open = Some (lastPayload b) /\ chunks b = delta <$> open
  end.

(** The accepted payloads of every message are the emitted batches followed by
    the open one. *)
Definition batched c pushes emitted : Prop :=
  forall k, exists batches open,
    of_key k pushes = concat batches ++ open
    /\ Forall2 joined batches (of_key k emitted)
    /\ pending_of (mget k (pending c)) open.

(** Every open batch has one armed timer, and there is no other timer. *)
Record timers_ok c : Prop := {
  t_wf : map_wf (pending c) /\ map_wf (timers c);
  t_armed : forall k b, mget k (pending c) = Some b -> mget (timer b) (timers c) = Some k;
  t_owner : forall h k, mget h (timers c) = Some k -> exists b, mget k (pending c) = Some b /\ timer b = h;
  t_fresh : forall h k, mget h (timers c) = Some k -> h < nextTimer c
}.

Definition open_deltas c : nat := sum_list_with (fun entry => length (chunks entry.2)) (pending c).

(** A closed coalescer has nothing left. *)
Definition closed_ok c : Prop := isClosed c = true -> pending c = [].

(** The counters agree with what happened. *)
Record diagnostics_ok c pushes emitted : Prop := {
  d_raw : rawDeltaCount (diagnosticState c) = length pushes;
  d_emitted : emittedEventCount (diagnosticState c) = length emitted;
  d_batched : totalBatchSize (diagnosticState c) + open_deltas c = length pushes;
  d_reasons : sum_list_with snd (flushReasons (diagnosticState c)) = length emitted;
  d_max : maxBatchSize (diagnosticState c) <= totalBatchSize (diagnosticState c);
  d_wait : (0 <= maxFirstBatchWaitMs (diagnosticState c) <= totalFirstBatchWaitMs (diagnosticState c))%Z
}.

Record coalescer_ok c pushes emitted : Prop := {
  c_batched : batched c pushes emitted;
  c_timers : timers_ok c;
  c_diagnostics : diagnostics_ok c pushes emitted
}.

(** ** Flushing *)

Lemma of_key_app k l1 l2 : of_key k (l1 ++ l2) = of_key k l1 ++ of_key k l2.
Proof. apply filter_app. Qed.

Lemma last_of_key k l p : last (of_key k l) = Some p -> messageKey (key p) = k.
Proof.
  intros Hl. apply last_Some_elem_of in Hl. by apply list_elem_of_filter in Hl as [? _].
Qed.

Lemma batched_flush now k reason c c' o pushes emitted :
  batched c pushes emitted -> flushByKey now k reason c = (c', o) ->
  batched c' pushes (emitted ++ option_list o).
Proof.
  intros Hb. unfold flushByKey. destruct (mget k (pending c)) as [b|] eqn:E; intros; simplify_eq/=;
    [|by rewrite app_nil_r].
  intros k'. destruct (Hb k') as (batches & open & Hp & Hj & Ho). rewrite of_key_app.
  destruct (decide (k' = k)) as [->|Hne].
  - rewrite E in Ho. simpl in Ho. destruct Ho as [Hl Hc].
    assert (messageKey (key (lastPayload b)) = k) as Hk.
    { apply (last_of_key k pushes). rewrite Hp. rewrite last_app, Hl. done. }
    exists (batches ++ [open]), []. rewrite concat_app. simpl. rewrite !app_nil_r.
    split; [done|]. cbn [pending]. rewrite mget_mdelete_eq. split; [|done].
    unfold of_key at 2. rewrite filter_cons_True by done.
    apply Forall2_app; [done|]. constructor; [|by constructor].
    exists (lastPayload b). split; [done|]. unfold text. by rewrite Hc.
  - exists batches, open. cbn [pending]. rewrite mget_mdelete_ne by done. split; [done|]. split; [|done].
    destruct Hb with k as (bk & ok & Hpk & _ & Hok). rewrite E in Hok. simpl in Hok.
    unfold of_key at 2. rewrite filter_cons_False; [by rewrite filter_nil, app_nil_r|]. simpl.
    intros Hk. apply Hne. rewrite <- Hk. apply (last_of_key _ pushes).
    rewrite Hpk, last_app. by destruct Hok as [-> _].
Qed.

Lemma timers_flush now k reason c c' o :
  timers_ok c -> flushByKey now k reason c = (c', o) ->
  timers_ok c' /\ isClosed c' = isClosed c /\ mget k (pending c') = None.
Proof.
  intros [[Hp Ht] Ha Ho Hf]. unfold flushByKey. destruct (mget k (pending c)) as [b|] eqn:E; intros; simplify_eq/=;
    [|by split].
  rewrite mget_mdelete_eq. split; [|done]. split; simpl.
  - auto using map_wf_mdelete.
  - intros k' b'. rewrite mget_mdelete. case_decide as Hk; [done|]. intros Hb'.
    rewrite mget_mdelete_ne; [by apply Ha|]. intros Heq. apply Hk.
    pose proof (Ha _ _ Hb') as H1. rewrite Heq, (Ha _ _ E) in H1. by injection H1.
  - intros h k'. rewrite mget_mdelete. case_decide as Hh; [done|]. intros Hk'.
    destruct (Ho _ _ Hk') as (b' & Hb' & <-). exists b'. rewrite mget_mdelete_ne; [done|].
    intros ->. congruence.
  - intros h k'. rewrite mget_mdelete. case_decide; [done|]. apply Hf.
Qed.

Lemma diagnostics_flush now k reason c c' o pushes emitted :
  map_wf (pending c) -> diagnostics_ok c pushes emitted -> flushByKey now k reason c = (c', o) ->
  diagnostics_ok c' pushes (emitted ++ option_list o).
Proof.
  intros Hwf [Hr He Hb Hs Hm Hw]. unfold flushByKey.
  destruct (mget k (pending c)) as [b|] eqn:E; intros; simplify_eq/=; [|by rewrite app_nil_r].
  pose proof (sum_mdelete (fun entry => length (chunks entry.2)) k (pending c) Hwf) as Hd. rewrite E in Hd. simpl in Hd.
  split; simpl; rewrite ?length_app; simpl; try done; try lia.
  - unfold open_deltas in *. simpl. lia.
  - pose proof (sum_mset snd reason (S (default 0 (mget reason (flushReasons (diagnosticState c)))))
                  (flushReasons (diagnosticState c))) as Hx.
    destruct (mget reason _); simpl in Hx; simpl; lia.
Qed.

Lemma ok_flush now k reason c c' o pushes emitted :
  coalescer_ok c pushes emitted -> flushByKey now k reason c = (c', o) ->
  coalescer_ok c' pushes (emitted ++ option_list o)
  /\ isClosed c' = isClosed c /\ mget k (pending c') = None
  /\ forall k', mget k' (pending c) = None -> mget k' (pending c') = None.
Proof.
  intros [Hb Ht Hd] Hf. destruct (timers_flush _ _ _ _ _ _ Ht Hf) as (Ht' & Hcl & Hn).
  split; [|split; [done|]; split; [done|]].
  - split; [by eapply batched_flush|done|eapply diagnostics_flush; [apply Ht|done|done]].
  - intros k'. unfold flushByKey in Hf. destruct (mget k (pending c)); simplify_eq/=; [|done].
    rewrite mget_mdelete. by case_decide.
Qed.

Lemma ok_flushKeys now reason keys : forall c c' out pushes emitted,
  coalescer_ok c pushes emitted -> flushKeys now keys reason c = (c', out) ->
  coalescer_ok c' pushes (emitted ++ out) /\ isClosed c' = isClosed c
  /\ (forall k, k ∈ keys \/ mget k (pending c) = None -> mget k (pending c') = None).
Proof.
  induction keys as [|k keys IH]; intros c c' out pushes emitted Hok; simpl.
  - intros [= <- <-]. rewrite app_nil_r. split; [done|]. split; [done|]. intros k [?%elem_of_nil|?]; done.
  - destruct (flushByKey now k reason c) as [c1 o] eqn:E. destruct (flushKeys now keys reason c1) as [c2 out2] eqn:E2.
    intros [= <- <-]. destruct (ok_flush _ _ _ _ _ _ _ _ Hok E) as (Hok1 & Hc1 & Hn1 & Hk1).
    destruct (IH _ _ _ _ _ Hok1 E2) as (Hok2 & Hc2 & Hk2).
    rewrite <- app_assoc in Hok2. split; [by destruct o|]. split; [by rewrite Hc2|].
    intros k' [[->|Hin]%elem_of_cons|Hnone]; apply Hk2; auto.
Qed.

Lemma all_none_nil {V} (m : jsmap jsstring V) : (forall k, mget k m = None) -> m = [].
Proof. destruct m as [|[k v] m]; [done|]. intros Hk. specialize (Hk k). simpl in Hk. by rewrite decide_True in Hk. Qed.

Lemma ok_flushAll now reason c c' out pushes emitted :
  coalescer_ok c pushes emitted -> flushAll now reason c = (c', out) ->
  coalescer_ok c' pushes (emitted ++ out) /\ isClosed c' = isClosed c /\ pending c' = [].
Proof.
  intros Hok Hf. destruct (ok_flushKeys _ _ _ _ _ _ _ _ Hok Hf) as (H1 & H2 & H3).
  split; [done|]. split; [done|]. apply all_none_nil. intros k. apply H3.
  destruct (mget k (pending c)) eqn:E; [left|by right]. apply mget_is_Some. by eexists.
Qed.

(** ** Pushing and firing *)

Lemma batched_snoc c c' p pushes emitted b :
  batched c pushes emitted ->
  pending c' = mset (messageKey (key p)) b (pending c) ->
  lastPayload b = p ->
  chunks b = match mget (messageKey (key p)) (pending c) with Some b0 => chunks b0 | None => [] end ++ [delta p] ->
  batched c' (pushes ++ [p]) emitted.
Proof.
  intros Hb Hp Hl Hc k. destruct (Hb k) as (batches & open & H1 & H2 & H3).
  rewrite of_key_app, Hp, mget_mset. unfold of_key at 2.
  destruct (decide (k = messageKey (key p))) as [->|Hne].
  - rewrite filter_cons_True by done. exists batches, (open ++ [p]). rewrite H1, <- app_assoc.
    split; [done|]. split; [done|]. simpl. rewrite last_snoc, Hl, Hc, fmap_app. split; [done|].
    destruct (mget _ (pending c)); simpl in H3; [by destruct H3 as [_ ->]|by subst].
  - rewrite filter_cons_False by done. rewrite filter_nil, app_nil_r. by exists batches, open.
Qed.

Lemma ok_push now p c c' pushes emitted :
  coalescer_ok c pushes emitted -> push now p c = Ok c' ->
  coalescer_ok c' (pushes ++ [p]) emitted.
Proof.
  intros [Hb [[Hp Ht] Ha Ho Hf] [Hr He Hba Hs Hm Hw]]. unfold push.
  destruct (isClosed c) eqn:Ec; [done|]. set (k := messageKey (key p)).
  pose proof (fun b => sum_mset (fun entry => length (chunks entry.2)) k b (pending c)) as Hsum.
  destruct (mget k (pending c)) as [b0|] eqn:E; intros; simplify_eq.
  - split.
    + eapply batched_snoc; [done|done|done|]. simpl. fold k. by rewrite E.
    + split; simpl; auto using map_wf_mset.
      * intros k' b'. rewrite mget_mset. case_decide as Hk; [|by apply Ha]. intros [= <-]. rewrite Hk. exact (Ha _ _ E).
      * intros h k' Hh. destruct (Ho _ _ Hh) as (b' & Hb' & Htm). rewrite mget_mset.
        case_decide as Hk; [|eauto]. rewrite Hk, E in Hb'. simplify_eq. by eexists.
    + split; simpl; rewrite ?length_app; simpl; try lia.
      specialize (Hsum (Batch (chunks b0 ++ [delta p]) (firstReceivedAtMs b0) p (timer b0))).
      simpl in Hsum. rewrite length_app in Hsum. simpl in Hsum. unfold open_deltas in *. simpl. lia.
  - split.
    + eapply batched_snoc; [done|done|done|]. simpl. fold k. by rewrite E.
    + split; simpl; auto using map_wf_mset.
      * intros k' b'. rewrite !mget_mset. case_decide as Hk.
        -- intros [= <-]. simpl. by rewrite decide_True, Hk.
        -- intros Hb'. pose proof (Ha _ _ Hb') as Hx. pose proof (Hf _ _ Hx).
           rewrite decide_False by lia. done.
      * intros h k'. rewrite mget_mset. case_decide as Hh.
        -- intros [= <-]. rewrite mget_mset_eq, Hh. by eexists.
        -- intros Hk'. destruct (Ho _ _ Hk') as (b' & Hb' & <-). rewrite mget_mset_ne; [eauto|]. congruence.
      * intros h k'. rewrite mget_mset. case_decide; [lia|]. intros Hk'. pose proof (Hf _ _ Hk'). lia.
    + split; simpl; rewrite ?length_app; simpl; try lia.
      specialize (Hsum (Batch [delta p] now p (nextTimer c))). simpl in Hsum. unfold open_deltas in *. simpl. lia.
Qed.

(** A timer that fires is armed, so its key has a batch and clearing it again
    changes nothing. *)
Lemma fire_flush now h c :
  timers_ok c -> fire now h c = match mget h (timers c) with
                                | Some k => flushByKey now k ReasonWindow c
                                | None => (c, None)
                                end.
Proof.
  intros [_ Ha Ho _]. unfold fire. destruct (mget h (timers c)) as [k|] eqn:E; [|done].
  destruct (Ho _ _ E) as (b & Hb & Htm). unfold flushByKey. simpl. rewrite Hb, Htm.
  rewrite (mdelete_id h (mdelete h (timers c))) by apply mget_mdelete_eq. done.
Qed.

Lemma ok_step c call c' out pushes emitted :
  coalescer_ok c pushes emitted -> coalescer_step c call = (c', out) ->
  coalescer_ok c'
    (pushes ++ match call.2 with OpPush p => if isClosed c then [] else [p] | _ => [] end)
    (emitted ++ out).
Proof.
  intros Hok. destruct call as [now op]. destruct op as [p|k reason|reason|reason|h]; simpl;
    unfold flush; rewrite ?(app_nil_r pushes).
  - destruct (push now p c) as [c1|err] eqn:E; intros [= <- <-]; rewrite app_nil_r.
    + pose proof (ok_push _ _ _ _ _ _ Hok E). unfold push in E. by destruct (isClosed c).
    + unfold push in E. destruct (isClosed c); [by rewrite app_nil_r|]. by destruct (mget _ _).
  - destruct (flushByKey _ _ _ _) as [c1 o] eqn:E. intros [= <- <-]. by eapply ok_flush.
  - intros E. by eapply ok_flushAll.
  - unfold close. destruct (isClosed c) eqn:Ec; [intros [= <- <-]; by rewrite app_nil_r|].
    intros E. eapply ok_flushAll; [|done]. destruct Hok as [Hb [? ? ? ?] [? ? ? ? ? ?]]. done.
  - rewrite fire_flush by apply Hok. destruct (mget h (timers c)) as [k|].
    + destruct (flushByKey _ _ _ _) as [c1 o] eqn:E. intros [= <- <-]. by eapply ok_flush.
    + intros [= <- <-]. by rewrite app_nil_r.
Qed.

Lemma accepted_pushes_cons c call calls :
  accepted_pushes c (call :: calls)
  = match call.2 with OpPush p => if isClosed c then [] else [p] | _ => [] end
    ++ accepted_pushes (coalescer_step c call).1 calls.
Proof. simpl. by destruct call as [now []]; simpl; [destruct (isClosed c)|..]. Qed.

Lemma ok_run calls : forall c c' out pushes emitted,
  coalescer_ok c pushes emitted -> coalescer_run c calls = (c', out) ->
  coalescer_ok c' (pushes ++ accepted_pushes c calls) (emitted ++ out).
Proof.
  induction calls as [|call calls IH]; intros c c' out pushes emitted Hok.
  - simpl. intros [= <- <-]. by rewrite !app_nil_r.
  - rewrite accepted_pushes_cons. simpl. destruct (coalescer_step c call) as [c1 o1] eqn:E.
    destruct (coalescer_run c1 calls) as [c2 o2] eqn:E2. intros [= <- <-].
    rewrite !app_assoc. eapply IH; [|done]. by eapply ok_step.
Qed.

Lemma ok_new window c : newCoalescer window = Ok c -> coalescer_ok c [] [] /\ closed_ok c.
Proof.
  unfold newCoalescer. intros (w & _ & [= <-])%bind_Ok. split; [|done]. split.
  - intros k. by exists [], [].
  - split; simpl; try done. split; constructor.
  - split; simpl; done || lia.
Qed.

Lemma flushByKey_nil now k reason c : pending c = [] -> flushByKey now k reason c = (c, None).
Proof. intros Hp. unfold flushByKey. by rewrite Hp. Qed.

Lemma closed_step c call pushes emitted :
  coalescer_ok c pushes emitted -> closed_ok c -> closed_ok (coalescer_step c call).1.
Proof.
  intros Hok Hc. destruct call as [now op]. unfold closed_ok in *.
  destruct (isClosed c) eqn:Ec.
  - specialize (Hc eq_refl). destruct op as [p|k reason|reason|reason|h]; simpl.
    + unfold push. by rewrite Ec.
    + unfold flush. by rewrite flushByKey_nil.
    + unfold flushAll. by rewrite Hc.
    + unfold close. by rewrite Ec.
    + unfold fire. destruct (mget h (timers c)); [|done]. by rewrite flushByKey_nil.
  - destruct op as [p|k reason|reason|reason|h]; simpl.
    + unfold push. rewrite Ec. destruct (mget _ _); done.
    + unfold flush. destruct (flushByKey _ _ _ _) as [c1 o] eqn:E.
      destruct (ok_flush _ _ _ _ _ _ _ _ Hok E) as (_ & Hcl & _). simpl. by rewrite Hcl, Ec.
    + destruct (flushAll _ _ _) as [c1 o] eqn:E.
      destruct (ok_flushAll _ _ _ _ _ _ _ Hok E) as (_ & _ & Hp). done.
    + unfold close. rewrite Ec. destruct (flushAll _ _ _) as [c1 o] eqn:E.
      eapply ok_flushAll in E as (_ & _ & Hp); [done|]. destruct Hok as [Hb [? ? ? ?] [? ? ? ? ? ?]]. done.
    + rewrite fire_flush by apply Hok. destruct (mget h (timers c)); [|simpl; congruence].
      destruct (flushByKey _ _ _ _) as [c1 o] eqn:E.
      destruct (ok_flush _ _ _ _ _ _ _ _ Hok E) as (_ & Hcl & _). simpl. by rewrite Hcl, Ec.
Qed.

Lemma closed_run calls : forall c pushes emitted,
  coalescer_ok c pushes emitted -> closed_ok c -> closed_ok (coalescer_run c calls).1.
Proof.
  induction calls as [|call calls IH]; intros c pushes emitted Hok Hc; [done|].
  pose proof (closed_step c call _ _ Hok Hc) as Hc1. simpl.
  destruct (coalescer_step c call) as [c1 o1] eqn:E.
  specialize (IH c1 _ _ (ok_step _ _ _ _ _ _ Hok E) Hc1). by destruct (coalescer_run c1 calls).
Qed.

Lemma joined_text batches l : Forall2 joined batches l -> text l = text (concat batches).
Proof.
  unfold text. induction 1 as [|b e batches l (lp & _ & ->) _ IH]; [done|].
  csimpl. rewrite IH, fmap_app, concat_app. done.
Qed.

(** C7. For every message and every run of pushes, flushes, timers and closes
    the accepted payloads are consecutive batches: each emitted payload is the
    last payload of its (nonempty) batch with the deltas of the batch joined
    in order, and what is not emitted yet is the open batch. *)
Theorem coalescer_batches window c0 calls c out k
    (Hnew : newCoalescer window = Ok c0) (Hrun : coalescer_run c0 calls = (c, out)) :
  exists batches open,
    of_key k (accepted_pushes c0 calls) = concat batches ++ open
    /\ Forall2 joined batches (of_key k out)
    /\ pending_of (mget k (pending c)) open.
Proof. apply ok_new in Hnew as [Hok _]. by apply (ok_run _ _ _ _ _ _ Hok Hrun). Qed.

(** Once closed, all text that was accepted has been emitted, message by
    message and in order, and neither a batch nor a timer is left. *)
Theorem coalescer_closed_complete window c0 calls c out k
    (Hnew : newCoalescer window = Ok c0) (Hrun : coalescer_run c0 calls = (c, out))
    (Hclosed : isClosed c = true) :
  text (of_key k out) = text (of_key k (accepted_pushes c0 calls)) /\ pending c = [] /\ timers c = [].
Proof.
  apply ok_new in Hnew as [Hok Hcl]. pose proof (closed_run calls _ _ _ Hok Hcl) as Hp. rewrite Hrun in Hp.
  specialize (Hp Hclosed). destruct (ok_run _ _ _ _ _ _ Hok Hrun) as [Hb [_ _ Ho _] _].
  destruct (Hb k) as (batches & open & H1 & H2 & H3). simpl in Hp, H1, H2. split; [|split; [done|]].
  - rewrite Hp in H3. simpl in H3. rewrite H1, H3, app_nil_r. by apply joined_text.
  - destruct (timers c) as [|[h k'] m] eqn:E; [done|]. destruct (Ho h k') as (b & Hb' & _).
    + simpl. by rewrite decide_True.
    + by rewrite Hp in Hb'.
Qed.

(** In every reachable state each open batch owns exactly one armed timer
    and every armed timer belongs to an open batch, so no timer can cut a later
    batch short; and the diagnostics count exactly the accepted, batched and
    emitted payloads. *)
Theorem coalescer_timers_diagnostics window c0 calls c out
    (Hnew : newCoalescer window = Ok c0) (Hrun : coalescer_run c0 calls = (c, out)) :
  timers_ok c /\ diagnostics_ok c (accepted_pushes c0 calls) out.
Proof. apply ok_new in Hnew as [Hok _]. by destruct (ok_run _ _ _ _ _ _ Hok Hrun). Qed.
End CoalescerSpec.

(** A run with two messages, a timer that fires and a close. *)
Definition sample_key (s : string) : delta_key := DeltaKey (js "i") (js s) None None.
Definition sample_push (s d : string) : coalescer_op unit := OpPush (DeltaEvent (sample_key s) (js d) tt).
Definition sample_calls : list (Z * coalescer_op unit) :=
  [(0%Z, sample_push "a" "x"); (1%Z, sample_push "b" "p"); (2%Z, sample_push "a" "y");
   (32%Z, OpFire 0); (33%Z, sample_push "a" "z"); (34%Z, OpClose ReasonServiceClose);
   (35%Z, sample_push "a" "late")].

Lemma coalescer_batches_witness :
  exists c0 c out, newCoalescer (Rest := unit) None = Ok c0 /\ coalescer_run c0 (take 5 sample_calls) = (c, out)
    /\ exists batches open,
      of_key (messageKey (sample_key "a")) (accepted_pushes c0 (take 5 sample_calls)) = concat batches ++ open
      /\ Forall2 joined batches (of_key (messageKey (sample_key "a")) out)
      /\ pending_of (mget (messageKey (sample_key "a")) (pending c)) open.
Proof.
  eexists _, _, _. split; [reflexivity|]. split; [vm_compute; reflexivity|].
  apply (coalescer_batches None); [reflexivity|vm_compute; reflexivity].
Defined.

Lemma coalescer_closed_complete_witness :
  exists c0 c out, newCoalescer (Rest := unit) None = Ok c0 /\ coalescer_run c0 sample_calls = (c, out)
    /\ isClosed c = true /\ text (of_key (messageKey (sample_key "a")) out) = js "xyz"
    /\ text (of_key (messageKey (sample_key "a")) out)
       = text (of_key (messageKey (sample_key "a")) (accepted_pushes c0 sample_calls))
    /\ pending c = [] /\ timers c = [].
Proof.
  eexists _, _, _. split; [reflexivity|]. split; [vm_compute; reflexivity|].
  split; [reflexivity|]. split; [vm_compute; reflexivity|].
  apply (coalescer_closed_complete None); [reflexivity|vm_compute; reflexivity|reflexivity].
Defined.

Lemma coalescer_timers_diagnostics_witness :
  exists c0 c out, newCoalescer (Rest := unit) None = Ok c0 /\ coalescer_run c0 (take 5 sample_calls) = (c, out)
    /\ length (timers c) = 2
    /\ timers_ok c /\ diagnostics_ok c (accepted_pushes c0 (take 5 sample_calls)) out.
Proof.
  eexists _, _, _. split; [reflexivity|]. split; [vm_compute; reflexivity|]. split; [reflexivity|].
  apply (coalescer_timers_diagnostics None); [reflexivity|vm_compute; reflexivity].
Defined.

(** ** Distinct messages have distinct keys

    The coalescer indexes its batches by [JSON.stringify] of the four fields of
    a key.  A reader of quoted strings shows that the encoding is injective, so
    two messages never share a batch. *)

(** ** Reading a quoted string *)

Definition hex_value (d : N) : N := (if d <? 58 then d - 48 else d - 87)%N.

Definition unescape (e : N) : N :=
  if (e =? 98)%N then 8 else if (e =? 102)%N then 12 else if (e =? 110)%N then 10
  else if (e =? 114)%N then 13 else if (e =? 116)%N then 9 else e.

(** The next code unit of a string, [None] at its closing quote. *)
Definition next_unit (s : jsstring) : option (N * jsstring) :=
  match s with
  | [] => None
  | u :: s1 =>
      if (u =? 34)%N then None
      else if negb (u =? 92)%N then Some (u, s1)
      else
        match s1 with
        | [] => None
        | e :: s2 =>
            if negb (e =? 117)%N then Some (unescape e, s2)
            else
              match s2 with
              | a :: b :: c :: d :: s3 =>
                  Some ((((hex_value a * 16 + hex_value b) * 16 + hex_value c) * 16 + hex_value d)%N, s3)
              | _ => None
              end
        end
  end.

Fixpoint read_units (n : nat) (s : jsstring) : jsstring * jsstring :=
  match n with
  | O => ([], s)
  | S n => match next_unit s with
           | None => ([], s)
           | Some (u, s') => let '(us, r) := read_units n s' in (u :: us, r)
           end
  end.

Lemma hex_value_digit d : (d < 16)%N -> hex_value (hex_digit d) = d.
Proof. unfold hex_value, hex_digit. intros. repeat case_match; propify; lia. Qed.

Lemma hex_digits_value u :
  (u < 65536)%N ->
  (((N.land (N.shiftr u 12) 15 * 16 + N.land (N.shiftr u 8) 15) * 16 + N.land (N.shiftr u 4) 15) * 16
     + N.land u 15)%N = u.
Proof.
  intros Hu. change 15%N with (N.ones 4). rewrite !N.land_ones, !N.shiftr_div_pow2.
  change (2 ^ 4)%N with 16%N. change (2 ^ 8)%N with 256%N. change (2 ^ 12)%N with 4096%N.
  div_lia.
Qed.

Lemma next_unit_hex u t : (u < 65536)%N -> next_unit ((92%N :: 117%N :: hex4 u) ++ t) = Some (u, t).
Proof.
  intros Hu. unfold hex4. cbn [app next_unit N.eqb negb Pos.eqb].
  assert (forall x, N.land x 15 < 16)%N as Hl.
  { intros x. change 15%N with (N.ones 4). rewrite N.land_ones. apply N.mod_lt. done. }
  rewrite !hex_value_digit by apply Hl. by rewrite hex_digits_value.
Qed.

Lemma next_unit_escape u t :
  is_high u = false -> is_low u = false -> next_unit (json_escape_unit u ++ t) = Some (u, t).
Proof.
  intros _ _. unfold json_escape_unit.
  destruct (u =? 34)%N eqn:E1; [propify; by subst|]. destruct (u =? 92)%N eqn:E2; [propify; by subst|].
  destruct (u =? 8)%N eqn:E3; [propify; by subst|]. destruct (u =? 12)%N eqn:E4; [propify; by subst|].
  destruct (u =? 10)%N eqn:E5; [propify; by subst|]. destruct (u =? 13)%N eqn:E6; [propify; by subst|].
  destruct (u =? 9)%N eqn:E7; [propify; by subst|].
  destruct (u <? 32)%N eqn:E8; [propify; apply next_unit_hex; lia|]. simpl. by rewrite E1, E2.
Qed.

Lemma next_unit_surrogate u t : is_high u = true \/ is_low u = true -> next_unit (u :: t) = Some (u, t).
Proof.
  unfold is_high, is_low. intros Hu. simpl.
  assert (u <> 34 /\ u <> 92)%N as [H1 H2] by (destruct Hu; propify; lia).
  apply N.eqb_neq in H1, H2. by rewrite H1, H2.
Qed.

Lemma read_units_S n u s t us r :
  next_unit s = Some (u, t) -> read_units n t = (us, r) -> read_units (S n) s = (u :: us, r).
Proof. simpl. by intros -> ->. Qed.

Lemma surrogate_small u : is_high u = true \/ is_low u = true -> (u < 65536)%N.
Proof. unfold is_high, is_low. intros []; propify; lia. Qed.

Lemma read_units_escape t s : forall n, length s < n ->
  read_units n (json_escape s ++ 34%N :: t) = (s, 34%N :: t).
Proof.
  revert s. apply (list_two_ind (fun s => forall n, length s < n ->
    read_units n (json_escape s ++ 34%N :: t) = (s, 34%N :: t))).
  - intros [|n] Hn; [simpl in Hn; lia|done].
  - intros u [|n] Hn; [simpl in Hn; lia|]. simpl in Hn.
    assert (next_unit (json_escape [u] ++ 34%N :: t) = Some (u, 34%N :: t)) as Hu.
    { cbn [json_escape]. destruct (is_high u) eqn:Eh; [apply next_unit_hex, surrogate_small; auto|].
      destruct (is_low u) eqn:El; rewrite app_nil_r; [|by apply next_unit_escape].
      apply next_unit_hex, surrogate_small. auto. }
    eapply read_units_S; [exact Hu|]. by destruct n; [lia|].
  - intros u v s IH IHv [|n] Hn; [simpl in Hn; lia|]. simpl in Hn. cbn [json_escape] in *.
    destruct (is_high u) eqn:Eh; [destruct (is_low v) eqn:El|destruct (is_low u) eqn:El].
    + destruct n as [|n]; [lia|]. eapply read_units_S; [apply next_unit_surrogate; auto|].
      eapply read_units_S; [apply next_unit_surrogate; auto|]. apply IH. simpl. lia.
    + rewrite <- app_assoc. eapply read_units_S; [apply next_unit_hex, surrogate_small; auto|].
      apply IHv. simpl. lia.
    + rewrite <- app_assoc. eapply read_units_S; [apply next_unit_hex, surrogate_small; auto|].
      apply IHv. simpl. lia.
    + rewrite <- app_assoc. eapply read_units_S; [by apply next_unit_escape|]. apply IHv. simpl. lia.
Qed.

Lemma json_stringify_string_inj s1 s2 r1 r2 :
  json_stringify_string s1 ++ r1 = json_stringify_string s2 ++ r2 -> s1 = s2 /\ r1 = r2.
Proof.
  unfold json_stringify_string. rewrite <- !app_assoc. intros [= Heq].
  pose proof (read_units_escape r1 s1 (S (length s1 + length s2)) ltac:(lia)) as H1.
  pose proof (read_units_escape r2 s2 (S (length s1 + length s2)) ltac:(lia)) as H2.
  simpl app in Heq. rewrite Heq in H1. rewrite H1 in H2. by injection H2.
Qed.

Lemma json_nullable_inj o1 o2 r1 r2 :
  json_nullable o1 ++ r1 = json_nullable o2 ++ r2 -> o1 = o2 /\ r1 = r2.
Proof.
  destruct o1 as [s1|], o2 as [s2|]; simpl.
  - intros [-> ->]%json_stringify_string_inj. done.
  - done.
  - done.
  - intros [= ->]. done.
Qed.

(** The key of a batch determines the message: instance, session, turn
    and item, with an absent turn or item distinct from every named one. *)
Theorem messageKey_injective k1 k2 (Hkey : messageKey k1 = messageKey k2) : k1 = k2.
Proof.
  destruct k1 as [i1 s1 t1 m1], k2 as [i2 s2 t2 m2]. unfold messageKey in Hkey.
  cbn [k_instanceId k_sessionId k_turnId k_itemId] in Hkey.
  apply (app_inv_head [91%N]), json_stringify_string_inj in Hkey as [-> Hkey].
  apply (app_inv_head [44%N]), json_stringify_string_inj in Hkey as [-> Hkey].
  apply (app_inv_head [44%N]), json_nullable_inj in Hkey as [-> Hkey].
  apply (app_inv_head [44%N]), json_nullable_inj in Hkey as [-> _]. done.
Qed.

Lemma messageKey_injective_witness :
  messageKey (DeltaKey (js "i") (js "s") None (Some (js "null"))) = messageKey (DeltaKey (js "i") (js "s") None (Some (js "null")))
  /\ DeltaKey (js "i") (js "s") None (Some (js "null")) = DeltaKey (js "i") (js "s") None (Some (js "null")).
Proof. split; [reflexivity|]. apply messageKey_injective. vm_compute. reflexivity. Defined.
