(* ===== verification/Approvals.v ===== *)
(** * The operation approvals register of the control plane

    [packages/control-plane/src/control-plane/approvals/operation-approvals.ts]:
    a privileged operation is gated until another administrator approved
    exactly this operation for this session.  The clock and the drawn
    identifiers are arguments of the calls; an ISO timestamp is the time (in
    milliseconds) it prints.  SHA-256 and the locale's string order are
    parameters. *)

From S2P Require Export Utf8.

Inductive ApprovalStatus := StatusPending | StatusApproved | StatusDenied.
#[export] Instance approval_status_eq_dec : EqDecision ApprovalStatus.
Proof. solve_decision. Defined.

Inductive ApprovalOperation :=
| InstanceDelete | NodeRemove | NodeUpdateApply | NodeExternalListenerSet | UserAccessSet
| UserRoleUpdate | UserRoleRemove | IdentityProviderUpdate | IdentityProviderRemove
| GitCredentialAssign.
#[export] Instance approval_operation_eq_dec : EqDecision ApprovalOperation.
Proof. solve_decision. Defined.

Definition operation_name (o : ApprovalOperation) : jsstring :=
  match o with
  | InstanceDelete => js "instance.delete"
  | NodeRemove => js "node.remove"
  | NodeUpdateApply => js "node.update.apply"
  | NodeExternalListenerSet => js "node.external-listener.set"
  | UserAccessSet => js "user.access.set"
  | UserRoleUpdate => js "user.role.update"
  | UserRoleRemove => js "user.role.remove"
  | IdentityProviderUpdate => js "identity-provider.update"
  | IdentityProviderRemove => js "identity-provider.remove"
  | GitCredentialAssign => js "git-credential.assign"
  end.

(** The parsed policy: the given switches over the schema's defaults. *)
Definition OperationApprovalPolicy : Type := ApprovalOperation -> option bool.
Definition requiresApproval (policy : OperationApprovalPolicy) (operation : ApprovalOperation) : bool :=
  default (negb (bool_decide (operation = NodeExternalListenerSet))) (policy operation).

(** JSON values; a number is the text [JSON.stringify] gives it, an object the
    list of its entries in [Object.entries] order. *)
Inductive json :=
| JUndefined
| JNull
| JBool (b : bool)
| JNumber (repr : jsstring)
| JString (s : jsstring)
| JArray (items : list json)
| JObject (entries : list (jsstring * json)).

Definition LIFETIME_MS : Z := 5 * 60000.

Section Approvals.
(** [left.localeCompare(right)] and the hexadecimal SHA-256 of a text. *)
Context (localeCompare : jsstring -> jsstring -> Z) (sha256 : bytes -> jsstring).

(** [sort] by key: stable, as [Array.prototype.sort] is. *)
Fixpoint insert_entry {V} (e : jsstring * V) (l : list (jsstring * V)) : list (jsstring * V) :=
  match l with
  | [] => [e]
  | e' :: l' => if (0 <? localeCompare e.1 e'.1)%Z then e' :: insert_entry e l' else e :: l
  end.
Fixpoint sort_entries {V} (l : list (jsstring * V)) : list (jsstring * V) :=
  match l with [] => [] | e :: l' => insert_entry e (sort_entries l') end.

(** [parts.join(",")]. *)
Fixpoint join_comma (parts : list jsstring) : jsstring :=
  match parts with
  | [] => []
  | [p] => p
  | p :: ps => p ++ [44%N] ++ join_comma ps
  end.

Definition print_entries (entries : list (jsstring * jsstring)) : jsstring :=
  [123%N] ++ join_comma ((fun e => json_stringify_string e.1 ++ [58%N] ++ e.2) <$> sort_entries entries)
  ++ [125%N].

Fixpoint canonical (value : json) : jsstring :=
  match value with
  | JUndefined => js "undefined"
  | JNull => js "null"
  | JBool b => if b then js "true" else js "false"
  | JNumber repr => repr
  | JString s => json_stringify_string s
  | JArray items => [91%N] ++ join_comma (map canonical items) ++ [93%N]
  | JObject entries => print_entries (map (fun e => (e.1, canonical e.2)) entries)
  end.

Definition digest (operation : ApprovalOperation) (targetId : jsstring) (input : json) : jsstring :=
  sha256 (utf8_encode (canonical (JObject
    [(js "operation", JString (operation_name operation)); (js "targetId", JString targetId);
     (js "input", input)]))).

(** The details shown to the reviewer. *)
Abbreviation details := (list (jsstring * jsstring)).

Record PendingApproval := Approval {
  a_id : jsstring;
  a_userId : jsstring;
  a_sessionId : jsstring;
  a_operation : ApprovalOperation;
  a_targetId : jsstring;
  a_details : option details;
  a_digest : jsstring;
  a_status : ApprovalStatus;
  a_createdAt : Z;
  a_expiresAt : Z
}.

Record ApprovalSummary := Summary {
  s_id : jsstring; s_operation : ApprovalOperation; s_targetId : jsstring;
  s_details : option details; s_createdAt : Z; s_expiresAt : Z
}.
Definition summary (e : PendingApproval) : ApprovalSummary :=
  Summary (a_id e) (a_operation e) (a_targetId e) (a_details e) (a_createdAt e) (a_expiresAt e).

Inductive published_status := PStatus (s : ApprovalStatus) | PExpired | PConsumed | PCancelled.

(** The payload of [operation-approval.changed]. *)
Record approval_event := ApprovalEvent {
  ae_request : ApprovalSummary;
  ae_status : published_status;
  ae_generation : jsstring;
  ae_revision : nat
}.

(** The register, with the events it has published, oldest first. *)
Record approvals := Approvals {
  entries : jsmap jsstring PendingApproval;
  generation : jsstring;
  revision : nat;
  published : list approval_event
}.

Definition newApprovals (generation : jsstring) : approvals := Approvals [] generation 0 [].

Definition publish (entry : PendingApproval) (status : published_status) (a : approvals) : approvals :=
  let revision := S (revision a) in
  Approvals (entries a) (generation a) revision
    (published a ++ [ApprovalEvent (summary entry) status (generation a) revision]).

Definition with_entries (es : jsmap jsstring PendingApproval) (a : approvals) : approvals :=
  Approvals es (generation a) (revision a) (published a).

(** The loop of [sweep] over the entries of the map. *)
Fixpoint sweepEntries (now : Z) (copy : jsmap jsstring PendingApproval) (a : approvals) : approvals :=
  match copy with
  | [] => a
  | (id, entry) :: copy' =>
      if (now <? a_expiresAt entry)%Z then sweepEntries now copy' a
      else sweepEntries now copy' (publish entry PExpired (with_entries (mdelete id (entries a)) a))
  end.
Definition sweep (now : Z) (a : approvals) : approvals := sweepEntries now (entries a) a.

Record approvals_snapshot := Snapshot {
  sn_generation : jsstring; sn_revision : nat; sn_requests : list ApprovalSummary
}.
Definition snapshot (now : Z) (a : approvals) : approvals * approvals_snapshot :=
  let a := sweep now a in
  (a, Snapshot (generation a) (revision a)
        (summary <$> filter (fun e => a_status e = StatusPending) (mvalues (entries a)))).

Record approval_owner := Owner { userId : jsstring; sessionId : jsstring }.

Definition owned (owner : approval_owner) (e : PendingApproval) : bool :=
  bool_decide (a_userId e = userId owner) && bool_decide (a_sessionId e = sessionId owner).

Inductive approval_error := ApprovalInvalid | ApprovalLimit | ApprovalNotFound.

Inductive gate_result :=
| GateApproved
| GatePending (id : jsstring) (status : ApprovalStatus) (expiresAt : Z).

(** [newId] is the identifier [createId("approval")] would draw. *)
Definition gate (now : Z) (newId : jsstring) (owner : approval_owner) (operation : ApprovalOperation)
    (targetId : jsstring) (input : json) (approvalId : option jsstring) (details : option details)
    (a : approvals) : approvals * result approval_error gate_result :=
  let a := sweep now a in
  let requestDigest := digest operation targetId input in
  match approvalId with
  | Some ((_ :: _) as id) =>
      match mget id (entries a) with
      | Some entry =>
          if owned owner entry && bool_decide (a_digest entry = requestDigest)
             && bool_decide (a_status entry = StatusApproved)
          then (publish entry PConsumed (with_entries (mdelete (a_id entry) (entries a)) a), Ok GateApproved)
          else (a, Throw ApprovalInvalid)
      | None => (a, Throw ApprovalInvalid)
      end
  | _ =>
      match list_find (fun e => owned owner e && bool_decide (a_digest e = requestDigest)) (mvalues (entries a)) with
      | Some (_, existing) => (a, Ok (GatePending (a_id existing) (a_status existing) (a_expiresAt existing)))
      | None =>
          if (500 <=? Z.of_nat (length (entries a)))%Z
             || (20 <=? length (filter (fun e => a_userId e = userId owner) (mvalues (entries a))))
          then (a, Throw ApprovalLimit)
          else
            let entry := Approval newId (userId owner) (sessionId owner) operation targetId details
                           requestDigest StatusPending now (now + LIFETIME_MS) in
            (publish entry (PStatus StatusPending) (with_entries (mset (a_id entry) entry (entries a)) a),
             Ok (GatePending newId StatusPending (a_expiresAt entry)))
      end
  end.

Definition status (now : Z) (owner : approval_owner) (id : jsstring) (a : approvals)
  : approvals * result approval_error (jsstring * ApprovalStatus * Z) :=
  let a := sweep now a in
  match mget id (entries a) with
  | Some entry =>
      if owned owner entry then (a, Ok (a_id entry, a_status entry, a_expiresAt entry))
      else (a, Throw ApprovalNotFound)
  | None => (a, Throw ApprovalNotFound)
  end.

Inductive decision := Approve | Deny.

Definition decide_status (d : decision) : ApprovalStatus :=
  match d with Approve => StatusApproved | Deny => StatusDenied end.
Definition with_status (s : ApprovalStatus) (e : PendingApproval) : PendingApproval :=
  Approval (a_id e) (a_userId e) (a_sessionId e) (a_operation e) (a_targetId e) (a_details e)
    (a_digest e) s (a_createdAt e) (a_expiresAt e).

Definition decideApproval (now : Z) (id : jsstring) (d : decision) (a : approvals)
  : approvals * result approval_error (jsstring * ApprovalStatus) :=
  let a := sweep now a in
  match mget id (entries a) with
  | Some entry =>
      if bool_decide (a_status entry = StatusPending) then
        let entry := with_status (decide_status d) entry in
        (publish entry (PStatus (a_status entry)) (with_entries (mset id entry (entries a)) a),
         Ok (a_id entry, a_status entry))
      else (a, Throw ApprovalNotFound)
  | None => (a, Throw ApprovalNotFound)
  end.

Definition cancel (owner : approval_owner) (id : jsstring) (a : approvals) : approvals * bool :=
  match mget id (entries a) with
  | Some entry =>
      if owned owner entry
      then (publish entry PCancelled (with_entries (mdelete id (entries a)) a), true)
      else (a, false)
  | None => (a, false)
  end.

(** ** Runs *)

Inductive approval_call :=
| CallSweep
| CallSnapshot
| CallGate (newId : jsstring) (owner : approval_owner) (operation : ApprovalOperation)
    (targetId : jsstring) (input : json) (approvalId : option jsstring) (details : option details)
| CallStatus (owner : approval_owner) (id : jsstring)
| CallDecide (id : jsstring) (d : decision)
| CallCancel (owner : approval_owner) (id : jsstring).

Inductive approval_answer :=
| AnswerDone
| AnswerGate (r : result approval_error gate_result)
| AnswerDecide (r : result approval_error (jsstring * ApprovalStatus)).

Definition approval_step (now : Z) (call : approval_call) (a : approvals) : approvals * approval_answer :=
  match call with
  | CallSweep => (sweep now a, AnswerDone)
  | CallSnapshot => ((snapshot now a).1, AnswerDone)
  | CallGate newId owner operation targetId input approvalId details =>
      let '(a, r) := gate now newId owner operation targetId input approvalId details a in (a, AnswerGate r)
  | CallStatus owner id => ((status now owner id a).1, AnswerDone)
  | CallDecide id d => let '(a, r) := decideApproval now id d a in (a, AnswerDecide r)
  | CallCancel owner id => ((cancel owner id a).1, AnswerDone)
  end.

(** What happened: the time, the call and its answer. *)
Abbreviation approval_log := (list (Z * approval_call * approval_answer)).

Fixpoint approval_run (calls : list (Z * approval_call)) (a : approvals) : approvals * approval_log :=
  match calls with
  | [] => (a, [])
  | (now, call) :: calls' =>
      let '(a, answer) := approval_step now call a in
      let '(a, log) := approval_run calls' a in (a, (now, call, answer) :: log)
  end.
End Approvals.
