(* ===== verification/ApprovalsSpec.v ===== *)
(** * What the approvals register promises

    An operation passes the gate only on an approval that was requested by the
    same session for the same operation, decided by an administrator, not
    expired, and never used before. *)

From S2P Require Export Approvals.

Section ApprovalsSpec.
Context (localeCompare : jsstring -> jsstring -> Z) (sha256 : bytes -> jsstring).
Abbreviation step := (approval_step localeCompare sha256).
Abbreviation run := (approval_run localeCompare sha256).
Abbreviation approval_log := (list (Z * approval_call * approval_answer)).
Abbreviation digest_of := (digest localeCompare sha256).

(** ** The register *)

Record register_ok (a : approvals) : Prop := {
  ok_wf : map_wf (entries a);
  ok_id : forall id e, mget id (entries a) = Some e -> a_id e = id;
  ok_total : length (entries a) <= N.to_nat 500;
  ok_user : forall u, length (filter (fun e => a_userId e = u) (mvalues (entries a))) <= 20;
  ok_unique : forall id1 id2 e1 e2,
    mget id1 (entries a) = Some e1 -> mget id2 (entries a) = Some e2 ->
    a_userId e1 = a_userId e2 -> a_sessionId e1 = a_sessionId e2 -> a_digest e1 = a_digest e2 -> id1 = id2;
  ok_lifetime : forall id e, mget id (entries a) = Some e -> a_expiresAt e = (a_createdAt e + LIFETIME_MS)%Z;
  ok_revisions : ae_revision <$> published a = seq 1 (revision a);
  ok_generation : Forall (fun ev => ae_generation ev = generation a) (published a)
}.

Lemma entries_publish e s a : entries (publish e s a) = entries a.
Proof. done. Qed.

Lemma register_ok_entries es e s a :
  register_ok a -> map_wf es -> length es <= N.to_nat 500 ->
  (forall u, length (filter (fun e => a_userId e = u) (mvalues es)) <= 20) ->
  (forall id e, mget id es = Some e ->
     a_id e = id /\ a_expiresAt e = (a_createdAt e + LIFETIME_MS)%Z) ->
  (forall id1 id2 e1 e2, mget id1 es = Some e1 -> mget id2 es = Some e2 ->
     a_userId e1 = a_userId e2 -> a_sessionId e1 = a_sessionId e2 -> a_digest e1 = a_digest e2 -> id1 = id2) ->
  register_ok (publish e s (with_entries es a)).
Proof.
  intros [] Hwf Hlen Huser Hid Huniq. split; simpl; try done; try (intros; by eapply Hid).
  - change (1 :: seq 2 (revision a)) with (seq 1 (S (revision a))).
    rewrite fmap_app, seq_S. simpl. by f_equal.
  - apply Forall_app. split; [done|]. by apply Forall_singleton.
Qed.

Lemma register_ok_delete id e s a :
  register_ok a -> register_ok (publish e s (with_entries (mdelete id (entries a)) a)).
Proof.
  intros Hok. pose proof Hok as []. apply register_ok_entries; [done|by apply map_wf_mdelete| | | |].
  - pose proof (mdelete_length_le id (entries a)). lia.
  - intros u. etrans; [|apply (ok_user0 u)]. rewrite !filter_values_sum.
    rewrite <- (sum_mdelete _ id (entries a)) by done. lia.
  - intros id' e'. rewrite mget_mdelete. case_decide; [done|]. eauto.
  - intros id1 id2 e1 e2. rewrite !mget_mdelete. repeat case_decide; try done. eauto.
Qed.

Lemma register_ok_status id e st s a :
  register_ok a -> mget id (entries a) = Some e ->
  register_ok (publish (with_status st e) s (with_entries (mset id (with_status st e) (entries a)) a)).
Proof.
  intros Hok He. pose proof Hok as []. apply register_ok_entries; [done|by apply map_wf_mset| | | |].
  - rewrite mset_length. unfold mhas. by rewrite He.
  - intros u. etrans; [|apply (ok_user0 u)]. rewrite !filter_values_sum.
    pose proof (sum_mset (fun en => if decide (a_userId en.2 = u) then 1 else 0) id (with_status st e) (entries a)) as Hs.
    rewrite He in Hs. simpl in Hs. lia.
  - intros id' e'. rewrite mget_mset. case_decide; [|by eauto]. intros [= <-]. subst. simpl. eauto.
  - intros id1 id2 e1 e2. rewrite !mget_mset. repeat case_decide; intros; simplify_eq/=; eauto.
Qed.

Lemma register_ok_insert e s a :
  register_ok a -> mget (a_id e) (entries a) = None ->
  length (entries a) < N.to_nat 500 ->
  length (filter (fun e' => a_userId e' = a_userId e) (mvalues (entries a))) < 20 ->
  (forall id e', mget id (entries a) = Some e' ->
     ~ (a_userId e' = a_userId e /\ a_sessionId e' = a_sessionId e /\ a_digest e' = a_digest e)) ->
  a_expiresAt e = (a_createdAt e + LIFETIME_MS)%Z ->
  register_ok (publish e s (with_entries (mset (a_id e) e (entries a)) a)).
Proof.
  intros Hok Hfresh Hlen Huser Hno Hexp. pose proof Hok as [].
  apply register_ok_entries; [done|by apply map_wf_mset| | | |].
  - rewrite mset_length. unfold mhas. rewrite Hfresh. lia.
  - intros u. rewrite filter_values_sum.
    pose proof (sum_mset (fun en => if decide (a_userId en.2 = u) then 1 else 0) (a_id e) e (entries a)) as Hs.
    rewrite Hfresh in Hs. simpl in Hs. pose proof (ok_user0 u) as Hu.
    rewrite filter_values_sum in Hu, Huser. destruct (decide (a_userId e = u)) as [<-|]; lia.
  - intros id' e'. rewrite mget_mset. case_decide; [|by eauto]. intros [= <-]. by subst.
  - intros id1 id2 e1 e2. rewrite !mget_mset. repeat case_decide; intros; simplify_eq; eauto; exfalso; naive_solver.
Qed.

(** ** Sweeping *)

Lemma sweepEntries_ok now copy : forall a, register_ok a -> register_ok (sweepEntries now copy a).
Proof.
  induction copy as [|[id e] copy IH]; intros a Hok; [done|]. simpl.
  case_match; apply IH; [done|]. by apply register_ok_delete.
Qed.

Lemma sweepEntries_mget now copy id : forall a e,
  mget id (entries (sweepEntries now copy a)) = Some e ->
  mget id (entries a) = Some e /\ forall e', (id, e') ∈ copy -> (now < a_expiresAt e')%Z.
Proof.
  induction copy as [|[id' e'] copy IH]; intros a e; simpl; [by split; [|intros ? ?%elem_of_nil]|].
  destruct (_ <? _)%Z eqn:E; propify; intros [He Hc]%IH.
  - split; [done|]. intros e1 [?|?]%elem_of_cons; simplify_eq; eauto.
  - simpl in He. rewrite mget_mdelete in He. case_decide; [done|]. split; [done|].
    intros e1 [?|?]%elem_of_cons; simplify_eq; eauto.
Qed.

Lemma sweep_mget now id a e :
  mget id (entries (sweep now a)) = Some e ->
  mget id (entries a) = Some e /\ (now < a_expiresAt e)%Z.
Proof.
  intros [He Hc]%sweepEntries_mget. split; [done|]. by apply Hc, mget_Some_elem.
Qed.

Lemma sweep_ok now a : register_ok a -> register_ok (sweep now a).
Proof. apply sweepEntries_ok. Qed.

(** ** What each call may do *)

(** A step leaves swept entries alone except for one of: an entry removed, an
    entry decided, a fresh entry requested. *)
Inductive approval_effect (now : Z) (a : approvals) : approval_call -> approvals -> approval_answer -> Prop :=
| EffectNone call a' answer :
    (forall id e, mget id (entries a') = Some e -> mget id (entries a) = Some e) ->
    answer <> AnswerGate (Ok GateApproved) ->
    (forall id, answer <> AnswerDecide (Ok (id, StatusApproved))) ->
    approval_effect now a call a' answer
| EffectConsumed newId owner operation targetId input id details a' e :
    mget id (entries a) = Some e -> (now < a_expiresAt e)%Z ->
    a_userId e = userId owner -> a_sessionId e = sessionId owner ->
    a_digest e = digest_of operation targetId input -> a_status e = StatusApproved ->
    mget id (entries a') = None ->
    (forall id' e', mget id' (entries a') = Some e' -> mget id' (entries a) = Some e') ->
    approval_effect now a (CallGate newId owner operation targetId input (Some id) details) a'
      (AnswerGate (Ok GateApproved))
| EffectRequested newId owner operation targetId input approvalId details a' e :
    a_userId e = userId owner -> a_sessionId e = sessionId owner ->
    a_digest e = digest_of operation targetId input -> a_status e = StatusPending ->
    a_createdAt e = now ->
    mget newId (entries a') = Some e ->
    (forall id' e', id' <> newId -> mget id' (entries a') = Some e' -> mget id' (entries a) = Some e') ->
    approval_effect now a (CallGate newId owner operation targetId input approvalId details) a'
      (AnswerGate (Ok (GatePending newId StatusPending (now + LIFETIME_MS))))
| EffectDecided id d a' e :
    mget id (entries a) = Some e -> (now < a_expiresAt e)%Z ->
    mget id (entries a') = Some (with_status (decide_status d) e) ->
    (forall id' e', id' <> id -> mget id' (entries a') = Some e' -> mget id' (entries a) = Some e') ->
    approval_effect now a (CallDecide id d) a' (AnswerDecide (Ok (id, decide_status d))).

Definition new_id (call : approval_call) : option jsstring :=
  match call with CallGate newId _ _ _ _ _ _ => Some newId | _ => None end.

Definition fresh_call (call : approval_call) (a : approvals) : Prop :=
  forall id, new_id call = Some id -> mget id (entries a) = None.

Lemma sweep_same now a id e : mget id (entries (sweep now a)) = Some e -> mget id (entries a) = Some e.
Proof. intros H. by apply sweep_mget in H as [? _]. Qed.

Lemma sweep_fresh now a id : mget id (entries a) = None -> mget id (entries (sweep now a)) = None.
Proof.
  intros Hn. destruct (mget id (entries (sweep now a))) eqn:E; [|done].
  apply sweep_same in E. congruence.
Qed.

Lemma owned_true owner e : owned owner e = true <-> a_userId e = userId owner /\ a_sessionId e = sessionId owner.
Proof. unfold owned. rewrite andb_true_iff, !bool_decide_eq_true. done. Qed.

Lemma gate_step now newId owner operation targetId input approvalId details a a' r :
  register_ok a -> mget newId (entries a) = None ->
  gate localeCompare sha256 now newId owner operation targetId input approvalId details a = (a', r) ->
  register_ok a' /\ approval_effect now a (CallGate newId owner operation targetId input approvalId details) a' (AnswerGate r).
Proof.
  intros Hok Hfresh. pose proof (sweep_ok now a Hok) as Hok1. unfold gate.
  assert (forall r', r' <> Ok GateApproved -> register_ok (sweep now a) /\
    approval_effect now a (CallGate newId owner operation targetId input approvalId details) (sweep now a) (AnswerGate r')) as Hnone.
  { intros r' Hr'. split; [done|]. apply EffectNone; [apply sweep_same|by intros [= ->]|done]. }
  destruct (match approvalId with Some (_ :: _) => true | _ => false end) eqn:Eid.
  - destruct approvalId as [[|c id]|]; try done.
    destruct (mget (c :: id) (entries (sweep now a))) as [e|] eqn:E; [|intros [= <- <-]; by apply Hnone].
    destruct (_ && _) eqn:Et; [|intros [= <- <-]; by apply Hnone]. intros [= <- <-].
    propify. match goal with H : owned _ _ = true |- _ => apply owned_true in H as [Hu Hs] end.
    pose proof (ok_id _ Hok1 _ _ E) as Hid. apply sweep_mget in E as E'. destruct E' as [Ea Hexp].
    split; [by apply register_ok_delete|]. eapply EffectConsumed; eauto; rewrite entries_publish; simpl; rewrite Hid.
    + apply mget_mdelete_eq.
    + intros id' e'. rewrite mget_mdelete. case_decide; [done|]. apply sweep_same.
  - assert (forall (T : Type) (f : jsstring -> T) (x : T),
      match approvalId with Some ((_ :: _) as id) => f id | _ => x end = x) as ->.
    { intros T f x. by destruct approvalId as [[|]|]. }
    destruct (list_find _ _) as [[i e]|] eqn:Ef; [intros [= <- <-]; by apply Hnone|].
    destruct (_ || _) eqn:El; [intros [= <- <-]; by apply Hnone|].
    propify. set (e := Approval newId _ _ _ _ _ _ _ _ _).
    pose proof (sweep_fresh now a newId Hfresh) as Hfresh1. intros [= <- <-]. split.
    + apply (register_ok_insert e); [done|done|lia|simpl; lia| |done].
      intros id e' He' (Hu & Hs & Hd). rewrite list_find_None in Ef.
      rewrite Forall_forall in Ef. apply (Ef e').
      * unfold mvalues. apply list_elem_of_fmap. exists (id, e'). split; [done|by apply mget_Some_elem].
      * apply Is_true_true, andb_true_iff. rewrite owned_true, bool_decide_eq_true. done.
    + apply (EffectRequested _ _ _ _ _ _ _ _ _ _ e); try done; rewrite entries_publish; simpl.
      * apply mget_mset_eq.
      * intros id' e' Hne. rewrite mget_mset_ne by done. apply sweep_same.
Qed.

Lemma decide_step now id d a a' r :
  register_ok a -> decideApproval now id d a = (a', r) ->
  register_ok a' /\ approval_effect now a (CallDecide id d) a' (AnswerDecide r).
Proof.
  intros Hok. pose proof (sweep_ok now a Hok) as Hok1. unfold decideApproval.
  assert (forall err, register_ok (sweep now a) /\
    approval_effect now a (CallDecide id d) (sweep now a) (AnswerDecide (Throw err))) as Hnone.
  { intros err. split; [done|]. apply EffectNone; [apply sweep_same|done|done]. }
  destruct (mget id (entries (sweep now a))) as [e|] eqn:E; [|intros [= <- <-]; apply Hnone].
  case_bool_decide as Hst; [|intros [= <- <-]; apply Hnone]. intros [= <- <-].
  rewrite (ok_id _ Hok1 _ _ E). apply sweep_mget in E as E'. destruct E' as [Ea Hexp].
  split; [by apply register_ok_status|]. eapply EffectDecided; eauto; rewrite entries_publish; simpl.
  - apply mget_mset_eq.
  - intros id' e' Hne. rewrite mget_mset_ne by done. apply sweep_same.
Qed.

Lemma approval_step_effect now call a a' answer :
  register_ok a -> fresh_call call a -> step now call a = (a', answer) ->
  register_ok a' /\ approval_effect now a call a' answer.
Proof.
  intros Hok Hfresh. pose proof (sweep_ok now a Hok) as Hok1.
  destruct call as [| |newId owner operation targetId input approvalId det|owner id|id d|owner id]; simpl.
  - intros [= <- <-]. split; [done|]. apply EffectNone; try done. apply sweep_same.
  - intros [= <- <-]. split; [done|]. apply EffectNone; try done. apply sweep_same.
  - destruct (gate _ _ _ _ _ _ _ _ _ _ _) as [a1 r] eqn:E. intros [= <- <-].
    eapply gate_step; [done|by apply Hfresh|done].
  - unfold status. repeat case_match; intros [= <- <-]; (split; [done|]); apply EffectNone; try done; apply sweep_same.
  - destruct (decideApproval _ _ _ _) as [a1 r] eqn:E. intros [= <- <-]. by eapply decide_step.
  - unfold cancel. destruct (mget id (entries a)) as [e|] eqn:E; [destruct (owned _ _)|]; intros [= <- <-].
    + split; [by apply register_ok_delete|]. apply EffectNone; try done. rewrite entries_publish. simpl.
      intros id' e'. rewrite mget_mdelete. by case_decide.
    + split; [done|]. by apply EffectNone.
    + split; [done|]. by apply EffectNone.
Qed.

(** ** Runs *)

Definition requested (log : approval_log) (id : jsstring) (owner : approval_owner) (dg : jsstring) (t : Z) : Prop :=
  exists operation targetId input approvalId details,
    (t, CallGate id owner operation targetId input approvalId details,
     AnswerGate (Ok (GatePending id StatusPending (t + LIFETIME_MS)))) ∈ log
    /\ dg = digest_of operation targetId input.

Definition approved (log : approval_log) (id : jsstring) : Prop :=
  exists t, (t, CallDecide id Approve, AnswerDecide (Ok (id, StatusApproved))) ∈ log.

Definition used (log : approval_log) (id : jsstring) : Prop :=
  exists t newId owner operation targetId input details,
    (t, CallGate newId owner operation targetId input (Some id) details, AnswerGate (Ok GateApproved)) ∈ log.

Definition new_ids (calls : list (Z * approval_call)) : list jsstring := omap (fun c => new_id c.2) calls.
Definition log_calls (log : approval_log) : list (Z * approval_call) := fst <$> log.

Lemma requested_app log1 log2 id owner dg t : requested log1 id owner dg t -> requested (log1 ++ log2) id owner dg t.
Proof. unfold requested. set_solver. Qed.
Lemma approved_app log1 log2 id : approved log1 id -> approved (log1 ++ log2) id.
Proof. unfold approved. set_solver. Qed.
Lemma used_snoc log x id : used (log ++ [x]) id -> used log id \/ used [x] id.
Proof. unfold used. intros (?&?&?&?&?&?&?&[?|?]%elem_of_app); [left|right]; eauto 10. Qed.

(** Every entry was requested, is approved only if it was decided so, and has
    not been used; its identifier was drawn before. *)
Record log_ok (log : approval_log) (a : approvals) : Prop := {
  l_register : register_ok a;
  l_requested : forall id e, mget id (entries a) = Some e ->
    requested log id (Owner (a_userId e) (a_sessionId e)) (a_digest e) (a_createdAt e);
  l_approved : forall id e, mget id (entries a) = Some e -> a_status e = StatusApproved -> approved log id;
  l_unused : forall id e, mget id (entries a) = Some e -> ~ used log id;
  l_drawn : forall id, id ∈ mkeys (entries a) \/ used log id -> id ∈ new_ids (log_calls log)
}.

Lemma new_ids_app c1 c2 : new_ids (c1 ++ c2) = new_ids c1 ++ new_ids c2.
Proof. apply omap_app. Qed.

Lemma log_ok_fresh log a now call :
  log_ok log a -> NoDup (new_ids (log_calls log ++ [(now, call)])) -> fresh_call call a.
Proof.
  intros Hl Hnd id Hid. destruct (mget id (entries a)) as [e|] eqn:E; [|done]. exfalso.
  rewrite new_ids_app, NoDup_app in Hnd. destruct Hnd as (_ & Hd & _). apply (Hd id).
  - apply (l_drawn _ _ Hl). left. apply mget_is_Some. by eexists.
  - unfold new_ids. simpl. rewrite Hid. by apply list_elem_of_singleton.
Qed.

Lemma log_ok_step log a now call a' answer :
  log_ok log a -> NoDup (new_ids (log_calls log ++ [(now, call)])) ->
  step now call a = (a', answer) -> log_ok (log ++ [(now, call, answer)]) a'.
Proof.
  intros Hl Hnd Hstep. pose proof (log_ok_fresh _ _ _ _ Hl Hnd) as Hfresh.
  destruct (approval_step_effect _ _ _ _ _ (l_register _ _ Hl) Hfresh Hstep) as [Hok' He].
  destruct Hl as [Hok Hreq Happ Hun Hdr].
  assert (forall id, id ∈ new_ids (log_calls log) -> id ∈ new_ids (log_calls (log ++ [(now, call, answer)]))) as Hdr'.
  { intros id. unfold log_calls. rewrite fmap_app, new_ids_app, elem_of_app. auto. }
  assert (forall id e, mget id (entries a) = Some e -> id ∈ new_ids (log_calls log)) as Hdrawn.
  { intros id e Hid. apply Hdr. left. apply mget_is_Some. by eexists. }
  assert (forall id, used (log ++ [(now, call, answer)]) id -> answer <> AnswerGate (Ok GateApproved) -> used log id) as Hused.
  { intros id Hu Hne. apply used_snoc in Hu as [?|Hu]; [done|].
    destruct Hu as (?&?&?&?&?&?&?&Hu%list_elem_of_singleton). by simplify_eq. }
  destruct He as [call a' answer Hsub Hne _
                 |newId owner operation targetId input id det a' e Ha Hexp Hu Hs Hd Hst Hgone Hsub
                 |newId owner operation targetId input aid det a' e Hu Hs Hd Hst Ht Hnew Hsub
                 |id d a' e Ha Hexp Hnew Hsub].
  - split; [done| | | |].
    + intros id e He. apply requested_app. eauto.
    + intros id e He Hst. apply approved_app. eauto.
    + intros id e He Hu%Hused; [|done]. exact (Hun _ _ (Hsub _ _ He) Hu).
    + intros id [Hin|Hu%Hused]; [|by apply Hdr'; auto|done]. apply mget_is_Some in Hin as [e He]. eapply Hdr', Hdrawn. eauto.
  - split; [done| | | |].
    + intros id' e' He'. apply requested_app. eauto.
    + intros id' e' He' Hst'. apply approved_app. eauto.
    + intros id' e' He' [Hu'|Hu']%used_snoc; [exact (Hun _ _ (Hsub _ _ He') Hu')|].
      destruct Hu' as (?&?&?&?&?&?&?&Hu'%list_elem_of_singleton). simplify_eq. congruence.
    + intros id' [Hin|[Hu'|Hu']%used_snoc]; [|apply Hdr'; auto|].
      * apply mget_is_Some in Hin as [e' He']. eapply Hdr', Hdrawn. eauto.
      * destruct Hu' as (?&?&?&?&?&?&?&Hu'%list_elem_of_singleton). assert (id' = id) as -> by congruence. exact (Hdr' _ (Hdrawn _ _ Ha)).
  - assert (newId ∈ new_ids (log_calls (log ++ [(now, CallGate newId owner operation targetId input aid det,
                AnswerGate (Ok (GatePending newId StatusPending (now + LIFETIME_MS))))]))) as Hin'.
    { unfold log_calls. rewrite fmap_app, new_ids_app. apply elem_of_app. right. apply list_elem_of_singleton. done. }
    split; [done| | | |].
    + intros id' e' He'. destruct (decide (id' = newId)) as [->|Hne]; [|apply requested_app; eauto].
      simplify_eq. exists operation, targetId, input, aid, det. split; [|done].
      apply elem_of_app. right. apply list_elem_of_singleton. rewrite Hu, Hs. by destruct owner.
    + intros id' e' He' Hst'. destruct (decide (id' = newId)) as [->|Hne]; [congruence|apply approved_app; eauto].
    + intros id' e' He' Hu'%Hused; [|done]. destruct (decide (id' = newId)) as [->|Hne]; [|exact (Hun _ _ (Hsub _ _ Hne He') Hu')].
      rewrite new_ids_app, NoDup_app in Hnd. destruct Hnd as (_ & Hd' & _). apply (Hd' newId); [auto|].
      by apply list_elem_of_singleton.
    + intros id' [Hin|Hu'%Hused]; [|by apply Hdr'; auto|done].
      destruct (decide (id' = newId)) as [->|Hne]; [done|].
      apply mget_is_Some in Hin as [e' He']. eapply Hdr', Hdrawn. eauto.
  - split; [done| | | |].
    + intros id' e' He'. apply requested_app. destruct (decide (id' = id)) as [->|Hne]; [|eauto].
      simplify_eq. apply (Hreq _ _ Ha).
    + intros id' e' He' Hst'. destruct (decide (id' = id)) as [->|Hne]; [|apply approved_app; eauto].
      simplify_eq. simpl in Hst'. exists now. apply elem_of_app. right. apply list_elem_of_singleton.
      destruct d; done.
    + intros id' e' He' Hu'%Hused; [|done]. destruct (decide (id' = id)) as [->|Hne];
        [exact (Hun _ _ Ha Hu')|exact (Hun _ _ (Hsub _ _ Hne He') Hu')].
    + intros id' [Hin|Hu'%Hused]; [|by apply Hdr'; auto|done].
      apply mget_is_Some in Hin as [e' He']. destruct (decide (id' = id)) as [->|Hne]; eapply Hdr', Hdrawn; eauto.
Qed.

Lemma approval_run_calls calls : forall a a' log, run calls a = (a', log) -> log_calls log = calls.
Proof.
  induction calls as [|[now call] calls IH]; intros a a' log; simpl; [by intros [= <- <-]|].
  destruct (step now call a) as [a1 ans] eqn:E. destruct (run calls a1) as [a2 log2] eqn:E2.
  intros [= <- <-]. unfold log_calls. csimpl. f_equal. by eapply IH.
Qed.

Lemma log_ok_run calls : forall log0 a a' log,
  log_ok log0 a -> NoDup (new_ids (log_calls log0 ++ calls)) -> run calls a = (a', log) ->
  log_ok (log0 ++ log) a'.
Proof.
  induction calls as [|[now call] calls IH]; intros log0 a a' log Hl Hnd; simpl.
  - intros [= <- <-]. by rewrite app_nil_r.
  - destruct (step now call a) as [a1 ans] eqn:E. destruct (run calls a1) as [a2 log2] eqn:E2.
    intros [= <- <-]. rewrite cons_middle, app_assoc.
    rewrite cons_middle, app_assoc, new_ids_app in Hnd.
    eapply IH; [|unfold log_calls; rewrite fmap_app, new_ids_app; exact Hnd|done].
    eapply log_ok_step; [done| |done]. by apply NoDup_app in Hnd as [? _].
Qed.

(** The state before a call of a run. *)
Lemma approval_run_split calls : forall a a' pre now call answer post,
  run calls a = (a', pre ++ (now, call, answer) :: post) ->
  exists calls1 calls2 a1 a2, calls = calls1 ++ (now, call) :: calls2
    /\ run calls1 a = (a1, pre) /\ step now call a1 = (a2, answer).
Proof.
  induction calls as [|[now1 call1] calls IH]; intros a a' pre now call answer post; simpl;
    [by destruct pre|].
  destruct (step now1 call1 a) as [a1 ans] eqn:E. destruct (run calls a1) as [a2 log2] eqn:E2.
  destruct pre as [|x pre]; intros [= -> ].
  - simplify_eq. by exists [], calls, a, a1.
  - simplify_eq/=. destruct (IH _ _ _ _ _ _ _ E2) as (calls1 & calls2 & a3 & a4 & -> & H1 & H2).
    exists ((now1, call1) :: calls1), calls2, a3, a4. split; [done|]. simpl. by rewrite E, H1.
Qed.

Lemma log_ok_new g : log_ok [] (newApprovals g).
Proof.
  split; try done.
  - split; simpl; try done; try lia; constructor.
  - intros id [Hin|(?&?&?&?&?&?&?&Hu)]; [by apply elem_of_nil in Hin|by apply elem_of_nil in Hu].
Qed.

Lemma gate_approved_before calls g a' now newId owner operation targetId input id details pre post :
  NoDup (new_ids calls) ->
  run calls (newApprovals g) = (a', pre ++ (now, CallGate newId owner operation targetId input (Some id) details,
                                            AnswerGate (Ok GateApproved)) :: post) ->
  (exists t, requested pre id owner (digest_of operation targetId input) t /\ (now < t + LIFETIME_MS)%Z)
  /\ approved pre id /\ ~ used pre id.
Proof.
  intros Hnd Hrun. destruct (approval_run_split _ _ _ _ _ _ _ _ Hrun) as (c1 & c2 & a1 & a2 & -> & H1 & H2).
  rewrite new_ids_app in Hnd. apply NoDup_app in Hnd as (Hnd1 & Hd & Hnd2).
  pose proof (log_ok_run c1 [] _ _ _ (log_ok_new g) Hnd1 H1) as Hl. simpl in Hl.
  assert (fresh_call (CallGate newId owner operation targetId input (Some id) details) a1) as Hfresh.
  { eapply (log_ok_fresh pre _ now); [done|]. rewrite (approval_run_calls _ _ _ _ H1), new_ids_app.
    apply NoDup_app. split; [done|]. split; [|apply NoDup_singleton].
    intros x Hx Hx'. apply (Hd x Hx). unfold new_ids in *. simpl in *. set_solver. }
  destruct (approval_step_effect _ _ _ _ _ (l_register _ _ Hl) Hfresh H2) as [_ He].
  inversion He as [|? ? ? ? ? ? ? ? e Ha Hexp Hu Hs Hdg Hst Hgone Hsub| |]; subst; [done|].
  split; [|split; [by eapply l_approved|by eapply l_unused]].
  exists (a_createdAt e). split.
  - pose proof (l_requested _ _ Hl _ _ Ha) as Hr. rewrite Hu, Hs, Hdg in Hr. by destruct owner.
  - by rewrite <- (ok_lifetime _ (l_register _ _ Hl) _ _ Ha).
Qed.


(** In every reachable state the register holds at most 500 entries and
    20 of one user, one per session and digest, each with a lifetime of five
    minutes, and the published events carry the revisions 1, 2, 3, ... of one
    generation. *)
Theorem approvals_register_ok calls g a' log
    (Hids : NoDup (new_ids calls)) (Hrun : run calls (newApprovals g) = (a', log)) :
  register_ok a'.
Proof. exact (l_register _ _ (log_ok_run calls [] _ _ _ (log_ok_new g) Hids Hrun)). Qed.
End ApprovalsSpec.

(** A request, its approval and its use, with a toy digest. *)
Definition sample_compare (a b : jsstring) : Z := if js_ltb a b then -1 else if js_ltb b a then 1 else 0.
Definition sample_digest (b : bytes) : jsstring := b.
Definition sample_gate (newId : string) (aid : option jsstring) : approval_call :=
  CallGate (js newId) (Owner (js "u") (js "s")) InstanceDelete (js "i1") (JObject [(js "force", JBool true)]) aid None.
Definition sample_approvals : list (Z * approval_call) :=
  [(0%Z, sample_gate "a1" None); (1000%Z, CallDecide (js "a1") Approve);
   (2000%Z, sample_gate "a2" (Some (js "a1"))); (3000%Z, sample_gate "a3" (Some (js "a1")))].


Lemma approvals_register_ok_witness :
  exists a' log, NoDup (new_ids sample_approvals)
    /\ approval_run sample_compare sample_digest sample_approvals (newApprovals (js "g")) = (a', log)
    /\ length (published a') = 3 /\ register_ok a'.
Proof.
  eexists _, _.
  assert (NoDup (new_ids sample_approvals)) as Hnd by (by apply (bool_decide_unpack _); vm_compute).
  split; [exact Hnd|]. split; [vm_compute; reflexivity|]. split; [reflexivity|].
  eapply (approvals_register_ok sample_compare sample_digest sample_approvals (js "g") _ _ Hnd).
  vm_compute. reflexivity.
Defined.
