(* ===== verification/Text.v ===== *)
(** * Text normalization of the AI session runtime

    [compact] and [messageText] of
    [packages/ai-session-runtime/src/ai-session-turns.ts], on strings, and the
    facts about them the session components use: bounds and idempotence. *)

From S2P Require Export Prelude.

Definition compact (value : jsstring) (max : N) : jsstring :=
  let text := trim (collapse_spaces value) in
  if (max <? N.of_nat (length text))%N then take (N.to_nat max - 3) text ++ js "..." else text.

Definition messageText (value : jsstring) : jsstring := trim value.

(** ** Trimmed strings *)

Definition trimmed (s : jsstring) : Prop :=
  (forall c, head s = Some c -> is_js_space c = false)
  /\ (forall c, last s = Some c -> is_js_space c = false).

Lemma trim_start_id s : (forall c, head s = Some c -> is_js_space c = false) -> trim_start s = s.
Proof. destruct s as [|c s]; intros H; [done|]. simpl. by rewrite (H c). Qed.

Lemma trimmed_trim s : trimmed s -> trim s = s.
Proof.
  intros [Hh Hl]. unfold trim, trim_end. rewrite (trim_start_id s) by done.
  rewrite (trim_start_id (reverse s)); [by rewrite reverse_involutive|].
  intros c. rewrite head_reverse. apply Hl.
Qed.

Lemma trim_trimmed s : trimmed (trim s).
Proof.
  split; intros c Hc.
  - pose proof (trim_idemp s) as Hi. destruct (trim s) as [|d t] eqn:E; [done|]. simpl in Hc. simplify_eq.
    destruct (is_js_space c) eqn:Ec; [|done]. exfalso.
    apply (f_equal length) in Hi. unfold trim in Hi. simpl in Hi. rewrite Ec in Hi.
    unfold trim_end in Hi. rewrite length_reverse in Hi.
    pose proof (trim_start_length (reverse (trim_start t))) as H1. rewrite length_reverse in H1.
    pose proof (trim_start_length t). lia.
  - unfold trim, trim_end in Hc. rewrite last_reverse in Hc.
    destruct (trim_start (reverse (trim_start s))) as [|d t] eqn:E; [done|].
    simpl in Hc. simplify_eq. by eapply trim_start_head.
Qed.

Lemma messageText_idemp s : messageText (messageText s) = messageText s.
Proof. apply trim_idemp. Qed.

(** ** Single-spaced strings *)

(** No two white-space units in a row, and each of them a plain space. *)
Fixpoint single_spaced (after_space : bool) (s : jsstring) : Prop :=
  match s with
  | [] => True
  | c :: s' =>
      if is_js_space c then after_space = false /\ c = 32%N /\ single_spaced true s'
      else single_spaced false s'
  end.

Lemma single_spaced_weaken s : single_spaced true s -> single_spaced false s.
Proof. destruct s as [|c s]; simpl; [done|]. case_match; naive_solver. Qed.

Lemma collapse_single_spaced s : forall b, single_spaced b (collapse_spaces_from b s).
Proof.
  induction s as [|c s IH]; intros b; simpl; [done|].
  destruct (is_js_space c) eqn:E.
  - destruct b; simpl; [apply IH|]. split; [done|]. split; [done|]. apply IH.
  - simpl. rewrite E. apply IH.
Qed.

Lemma single_spaced_collapse s : forall b, single_spaced b s -> collapse_spaces_from b s = s.
Proof.
  induction s as [|c s IH]; intros b; simpl; [done|].
  destruct (is_js_space c).
  - intros (-> & -> & Hs). simpl. by rewrite IH.
  - intros Hs. by rewrite IH.
Qed.

Lemma single_spaced_prefix p q : forall b, single_spaced b (p ++ q) -> single_spaced b p.
Proof. induction p as [|c p IH]; intros b; simpl; [done|]. case_match; naive_solver. Qed.

Lemma single_spaced_suffix p q : forall b, single_spaced b (p ++ q) -> single_spaced false q.
Proof.
  induction p as [|c p IH]; intros b; simpl; [destruct b; auto using single_spaced_weaken|].
  case_match; [intros (_ & _ & Hs)|intros Hs]; by eapply IH.
Qed.

Lemma single_spaced_app p q :
  (forall c, head q = Some c -> is_js_space c = false) ->
  single_spaced false q -> forall b, single_spaced b p -> single_spaced b (p ++ q).
Proof.
  intros Hh Hq. induction p as [|c p IH]; intros b; simpl.
  - intros _. destruct b; [|done]. destruct q as [|d q]; [done|]. simpl in *. by rewrite Hh in * by done.
  - case_match; [|apply IH]. intros (? & ? & ?). split; [done|]. split; [done|]. by apply IH.
Qed.

Lemma trim_infix s : exists p q, s = p ++ trim s ++ q.
Proof.
  destruct (trim_start_suffix s) as [p Hp], (trim_end_prefix (trim_start s)) as [q Hq].
  exists p, q. unfold trim. by rewrite <- Hq, <- Hp.
Qed.

Lemma trim_single_spaced s : single_spaced false s -> single_spaced false (trim s).
Proof.
  intros Hs. destruct (trim_infix s) as (p & q & Heq). rewrite Heq in Hs.
  apply single_spaced_suffix in Hs. by eapply single_spaced_prefix.
Qed.

(** ** Compact text *)

Lemma compact_length s max : (3 <= max)%N -> (N.of_nat (length (compact s max)) <= max)%N.
Proof.
  intros Hmax. unfold compact. destruct (_ <? _)%N eqn:E; propify; [|done].
  rewrite length_app, length_take. change (length (js "...")) with 3. lia.
Qed.

Lemma compact_trimmed s max : trimmed (compact s max).
Proof.
  unfold compact. pose proof (trim_trimmed (collapse_spaces s)) as Ht.
  destruct (_ <? _)%N; [|done]. set (t := trim (collapse_spaces s)) in *.
  generalize (N.to_nat max - 3). intros n. split; intros c.
  - destruct (take n t) as [|d u] eqn:E; [by intros [= <-]|].
    simpl. intros [= <-]. apply (proj1 Ht). destruct n, t; simplify_eq/=; done.
  - rewrite last_app. by intros [= <-].
Qed.

Lemma compact_single_spaced s max : single_spaced false (compact s max).
Proof.
  unfold compact.
  pose proof (trim_single_spaced _ (collapse_single_spaced s false)) as Ht.
  destruct (_ <? _)%N; [|done]. generalize (N.to_nat max - 3). intros n.
  apply single_spaced_app; [by intros c [= <-]|simpl; done|].
  eapply (single_spaced_prefix _ (drop n (trim (collapse_spaces s)))). by rewrite take_drop.
Qed.

Lemma compact_id s max :
  trimmed s -> single_spaced false s -> (N.of_nat (length s) <= max)%N -> compact s max = s.
Proof.
  intros Ht Hs Hl. unfold compact, collapse_spaces.
  rewrite single_spaced_collapse, trimmed_trim by done. by rewrite (proj2 (N.ltb_ge _ _)).
Qed.

Lemma compact_idemp s max : (3 <= max)%N -> compact (compact s max) max = compact s max.
Proof.
  intros Hmax.
  apply compact_id; [apply compact_trimmed|apply compact_single_spaced|by apply compact_length].
Qed.

(** ** Blank strings *)

Definition blank (s : jsstring) : Prop := Forall (fun c => is_js_space c = true) s.

Lemma trim_start_blank s : trim_start s = [] <-> blank s.
Proof.
  unfold blank. induction s as [|c s IH]; simpl; [done|]. rewrite Forall_cons.
  destruct (is_js_space c); [|by split; [|intros [? _]]]. rewrite IH. naive_solver.
Qed.

Lemma trim_blank s : trim s = [] <-> blank s.
Proof.
  unfold trim, trim_end. split.
  - intros Ht. apply (f_equal reverse) in Ht. rewrite reverse_involutive in Ht. simpl in Ht.
    apply trim_start_blank in Ht. apply trim_start_blank.
    destruct (trim_start s) as [|c t] eqn:E; [done|]. apply trim_start_head in E.
    unfold blank in Ht. rewrite reverse_cons, Forall_app, Forall_singleton in Ht. destruct Ht; congruence.
  - intros ->%trim_start_blank. done.
Qed.

Lemma collapse_blank s : forall b, blank (collapse_spaces_from b s) <-> blank s.
Proof.
  unfold blank. induction s as [|c s IH]; intros b; simpl; [done|].
  destruct (is_js_space c) eqn:E; rewrite ?Forall_app, !Forall_cons, ?IH.
  - assert (Forall (fun c => is_js_space c = true) (if b then [] else [32%N])) as Hb.
    { destruct b; by repeat constructor. }
    split; [by intros [_ ?]|by intros [_ ?]].
  - rewrite E. split; intros [??]; congruence.
Qed.

Lemma compact_blank s max : compact s max = [] <-> blank s.
Proof.
  rewrite <- (collapse_blank s false), <- trim_blank. unfold compact. fold (collapse_spaces s).
  destruct (_ <? _)%N eqn:E; [|done]. split; [by destruct (take _ _)|].
  intros Ht. rewrite Ht in E. propify. simpl in E. lia.
Qed.

#[global] Arguments compact : simpl never.
#[export] Hint Rewrite messageText_idemp : jsrw.
