(* ===== verification/Queue.v ===== *)
(** * The message queue of an AI session

    [packages/ai-session-runtime/src/ai-session/queue-service.ts] with the
    queue normalization of [ai-session/persistence.ts] and the queue schemas of
    [packages/protocol/src/ai-sessions.ts].  Attachment metadata, references
    and payloads are abstract, with the parsers of their schemas as
    parameters; the clock and the drawn identifiers are arguments. *)

From S2P Require Export Text.

Inductive queue_status := Queued | Sending | Failed.
#[export] Instance queue_status_eq_dec : EqDecision queue_status.
Proof. solve_decision. Defined.

Inductive permission_mode := PermissionAsk | PermissionAutoReview | PermissionFullAccess.

Section Queue.
Context {Meta Ref Payload Rest : Type}.

(** [AiSessionMessageAttachmentMetaSchema], [AiSessionReferenceSchema],
    [DateTimeStringSchema] and the metadata of a payload. *)
Context (parseMeta : Meta -> option Meta) (parseRef : Ref -> option Ref)
  (isDateTime : jsstring -> bool) (metaOf : Payload -> Meta).

Record AiSessionQueuedMessage := QueuedMessage {
  q_id : jsstring;
  q_messageId : option jsstring;
  q_message : jsstring;
  q_attachments : list Meta;
  q_references : list Ref;
  q_permissionMode : option permission_mode;
  q_status : queue_status;
  q_createdAt : jsstring;
  q_updatedAt : jsstring;
  q_error : option jsstring
}.

Record AiSessionQueue := SessionQueue {
  q_revision : Z;
  q_pendingCount : nat;
  q_paused : bool;
  q_items : list AiSessionQueuedMessage
}.

(** The fields of a session the queue service reads and writes. *)
Record queue_session := QueueSession { qs_queue : AiSessionQueue; qs_updatedAt : jsstring; qs_rest : Rest }.

(** ** Normalization *)

Definition normalizeNonNegativeInteger (value : Z) : Z := if (0 <=? value)%Z then value else 0%Z.

Definition emptyAiSessionQueue : AiSessionQueue := SessionQueue 0 0 false [].

Definition queueStatusRank (status : queue_status) : Z :=
  match status with Sending => 0 | Queued => 1 | Failed => 2 end.

Definition normalizeAiSessionReferences (value : list Ref) : list Ref := take 20 (omap parseRef value).
Definition normalizeAiSessionMessageAttachmentMetas (value : list Meta) : list Meta := take 6 (omap parseMeta value).

(** [AiSessionQueuedMessageSchema] on a candidate whose strings are trimmed. *)
Definition queuedMessageSchema (item : AiSessionQueuedMessage) : bool :=
  truthy (q_id item) && (N.of_nat (length (q_id item)) <=? 120)%N
  && match q_messageId item with Some m => truthy m && (N.of_nat (length m) <=? 240)%N | None => true end
  && truthy (q_message item) && (N.of_nat (length (q_message item)) <=? 20000)%N
  && isDateTime (q_createdAt item) && isDateTime (q_updatedAt item)
  && match q_error item with Some e => (N.of_nat (length e) <=? 4000)%N | None => true end.

Definition normalizeQueuedMessage (record : AiSessionQueuedMessage) : option AiSessionQueuedMessage :=
  let candidate := QueuedMessage
    (compact (q_id record) 120)
    (m ← q_messageId record; if truthy (trim m) then Some (compact m 240) else None)
    (messageText (q_message record))
    (normalizeAiSessionMessageAttachmentMetas (q_attachments record))
    (normalizeAiSessionReferences (q_references record))
    (q_permissionMode record) (q_status record) (q_createdAt record) (q_updatedAt record)
    (e ← q_error record; if truthy e then Some (compact e 4000) else None) in
  if queuedMessageSchema candidate then Some candidate else None.

Definition is_pending (item : AiSessionQueuedMessage) : bool :=
  bool_decide (q_status item = Queued) || bool_decide (q_status item = Sending).

Definition normalizeAiSessionQueueItems (items : list AiSessionQueuedMessage) (revision : Z) (paused : bool)
  : AiSessionQueue :=
  let normalizedItems :=
    js_sort (fun left right => queueStatusRank (q_status left) - queueStatusRank (q_status right))%Z
      (take 100 (omap normalizeQueuedMessage items)) in
  SessionQueue (normalizeNonNegativeInteger revision)
    (length (filter (fun item => is_pending item = true) normalizedItems)) paused normalizedItems.

(** [aiSessionAttachmentMetas]: the schema's [parse] throws, here [None]. *)
Definition aiSessionAttachmentMetas (attachments : list Payload) : option (list Meta) :=
  mapM (fun a => parseMeta (metaOf a)) (take 6 attachments).

(** ** The service *)

(** [queuedAttachmentPayloads]. *)
Abbreviation payloads := (jsmap jsstring (list Payload)).

Definition queuedMessages (current : option queue_session) : AiSessionQueue :=
  match current with Some s => qs_queue s | None => emptyAiSessionQueue end.

Definition withQueue (current : queue_session) (items : list AiSessionQueuedMessage) (updatedAt : jsstring)
  : queue_session :=
  QueueSession
    (normalizeAiSessionQueueItems items (q_revision (qs_queue current) + 1) (q_paused (qs_queue current)))
    updatedAt (qs_rest current).

(** The throw of the attachment schema, or the answer. *)
Definition enqueueMessage (now newId : jsstring) (current : queue_session) (message : jsstring)
    (attachments : list Payload) (references : list Ref) (permissionMode : option permission_mode)
    (messageId : option jsstring) (stored : payloads)
  : option (payloads * option (queue_session * AiSessionQueuedMessage)) :=
  metas ← aiSessionAttachmentMetas attachments;
  let item := QueuedMessage newId (if otruthy messageId then messageId else None) (messageText message)
                metas references permissionMode Queued now now None in
  let session := withQueue current (q_items (qs_queue current) ++ [item]) now in
  Some
    (if negb (existsb (fun entry => bool_decide (q_id entry = q_id item)) (q_items (qs_queue session)))
     then (stored, None)
     else (match attachments with [] => stored | _ => mset (q_id item) (take 6 attachments) stored end,
           Some (session, item))).

Definition nextQueuedMessage (current : option queue_session) : option AiSessionQueuedMessage :=
  snd <$> list_find (fun item => q_status item = Queued) (q_items (queuedMessages current)).

Definition queuedMessageAttachments (queueId : jsstring) (stored : payloads) : list Payload :=
  default [] (mget queueId stored).

Definition with_item_status (status : queue_status) (error : option jsstring) (updatedAt : jsstring)
    (item : AiSessionQueuedMessage) : AiSessionQueuedMessage :=
  QueuedMessage (q_id item) (q_messageId item) (q_message item) (q_attachments item) (q_references item)
    (q_permissionMode item) status (q_createdAt item) updatedAt error.

Definition has_item (queueId : jsstring) (items : list AiSessionQueuedMessage) : bool :=
  existsb (fun item => bool_decide (q_id item = queueId)) items.

Definition patchQueuedMessage (now : jsstring) (current : queue_session) (queueId : jsstring)
    (status : queue_status) (error : option jsstring) : option queue_session :=
  let items := (fun item => if decide (q_id item = queueId) then with_item_status status error now item else item)
                 <$> q_items (qs_queue current) in
  if has_item queueId (q_items (qs_queue current)) then Some (withQueue current items now) else None.

Definition markQueuedMessageSending now current queueId : option queue_session :=
  patchQueuedMessage now current queueId Sending None.

Definition markQueuedMessageFailed now current queueId (message : jsstring) : option queue_session :=
  patchQueuedMessage now current queueId Failed (Some (compact message 4000)).

Definition retryQueuedMessage (now : jsstring) (current : queue_session) (queueId : jsstring)
  : option queue_session :=
  '(_, item) ← list_find (fun entry => q_id entry = queueId) (q_items (qs_queue current));
  let remaining := filter (fun entry => q_id entry <> queueId) (q_items (qs_queue current)) in
  Some (withQueue current (remaining ++ [with_item_status Queued None now item]) now).

Definition removeQueuedMessage (now : jsstring) (current : queue_session) (queueId : jsstring) (stored : payloads)
  : payloads * option queue_session :=
  if negb (has_item queueId (q_items (qs_queue current))) then (stored, None)
  else
    let items := filter (fun item => q_id item <> queueId) (q_items (qs_queue current)) in
    (mdelete queueId stored, Some (withQueue current items now)).

Inductive AiSessionQueueEditResult :=
| EditUpdated (session : queue_session)
| EditUnchanged (session : queue_session)
| EditRevisionConflict (currentRevision : Z)
| EditNotFound
| EditNotEditable.

Record attachment_update := AttachmentUpdate {
  au_attachments : list Meta; au_payloads : list Payload; au_messageId : jsstring
}.

Definition edit_item (message updatedAt : jsstring) (update : option attachment_update)
    (item : AiSessionQueuedMessage) : AiSessionQueuedMessage :=
  QueuedMessage (q_id item)
    (match update with Some u => Some (au_messageId u) | None => q_messageId item end)
    message
    (match update with Some u => au_attachments u | None => q_attachments item end)
    (q_references item) (q_permissionMode item) (q_status item) (q_createdAt item) updatedAt (q_error item).

Definition editQueuedMessage (now : jsstring) (current : queue_session) (queueId : jsstring)
    (expectedRevision : Z) (message : jsstring) (attachmentUpdate : option attachment_update) (stored : payloads)
  : payloads * AiSessionQueueEditResult :=
  if negb (q_revision (qs_queue current) =? expectedRevision)%Z
  then (stored, EditRevisionConflict (q_revision (qs_queue current)))
  else
    match list_find (fun entry => q_id entry = queueId) (q_items (qs_queue current)) with
    | None => (stored, EditNotFound)
    | Some (_, item) =>
        if negb (bool_decide (q_status item = Queued)) then (stored, EditNotEditable)
        else
          let normalizedMessage := messageText message in
          if bool_decide (q_message item = normalizedMessage)
             && match attachmentUpdate with None => true | Some _ => false end
          then (stored, EditUnchanged current)
          else
            let items := (fun entry => if decide (q_id entry = queueId)
                                       then edit_item normalizedMessage now attachmentUpdate entry else entry)
                           <$> q_items (qs_queue current) in
            let stored := match attachmentUpdate with
                          | None => stored
                          | Some u => match au_payloads u with
                                      | [] => mdelete queueId stored
                                      | ps => mset queueId ps stored
                                      end
                          end in
            (stored, EditUpdated (withQueue current items now))
    end.

Inductive AiSessionQueueReorderResult :=
| ReorderUpdated (session : queue_session)
| ReorderUnchanged (session : queue_session)
| ReorderRevisionConflict (currentRevision : Z)
| ReorderOrderInvalid.

(** [new Set(queueIds).size]. *)
Definition distinct_count (l : list jsstring) : nat := length (remove_dups l).

Definition reorderQueuedMessages (now : jsstring) (current : queue_session) (expectedRevision : Z)
    (queueIds : list jsstring) : AiSessionQueueReorderResult :=
  if negb (q_revision (qs_queue current) =? expectedRevision)%Z
  then ReorderRevisionConflict (q_revision (qs_queue current))
  else
    let currentItems := q_items (qs_queue current) in
    let queuedItems := filter (fun item => q_status item = Queued) currentItems in
    if negb (distinct_count queueIds =? length queueIds)
       || negb (length queueIds =? length queuedItems)
       || existsb (fun item => negb (bool_decide (q_id item ∈ queueIds))) queuedItems
    then ReorderOrderInvalid
    else if bool_decide (q_id <$> queuedItems = queueIds) then ReorderUnchanged current
    else
      let byId := foldl (fun m item => mset (q_id item) item m) [] queuedItems in
      let ordered := omap (fun queueId => mget queueId byId) queueIds in
      let nonQueued := filter (fun item => q_status item <> Queued) currentItems in
      ReorderUpdated (withQueue current (nonQueued ++ ordered) now).

Definition setQueuePaused (now : jsstring) (current : queue_session) (paused : bool) : queue_session :=
  if bool_decide (q_paused (qs_queue current) = paused) then current
  else
    QueueSession
      (normalizeAiSessionQueueItems (q_items (qs_queue current)) (q_revision (qs_queue current)) paused)
      now (qs_rest current).

(** ** Runs

    The mutations a session receives; the caller saves every returned
    session. *)
Inductive queue_op :=
| QEnqueue (newId message : jsstring) (attachments : list Payload) (references : list Ref)
    (permissionMode : option permission_mode) (messageId : option jsstring)
| QSending (queueId : jsstring)
| QFailed (queueId message : jsstring)
| QRetry (queueId : jsstring)
| QRemove (queueId : jsstring)
| QEdit (queueId : jsstring) (expectedRevision : Z) (message : jsstring) (update : option attachment_update)
| QReorder (expectedRevision : Z) (queueIds : list jsstring)
| QPause (paused : bool).

Definition queue_step (now : jsstring) (op : queue_op) (stored : payloads) (current : queue_session)
  : payloads * queue_session :=
  match op with
  | QEnqueue newId message attachments references mode messageId =>
      match enqueueMessage now newId current message attachments references mode messageId stored with
      | Some (stored, Some (session, _)) => (stored, session)
      | _ => (stored, current)
      end
  | QSending queueId => (stored, default current (markQueuedMessageSending now current queueId))
  | QFailed queueId message => (stored, default current (markQueuedMessageFailed now current queueId message))
  | QRetry queueId => (stored, default current (retryQueuedMessage now current queueId))
  | QRemove queueId =>
      let '(stored, session) := removeQueuedMessage now current queueId stored in
      (stored, default current session)
  | QEdit queueId expectedRevision message update =>
      match editQueuedMessage now current queueId expectedRevision message update stored with
      | (stored, EditUpdated session) | (stored, EditUnchanged session) => (stored, session)
      | (stored, _) => (stored, current)
      end
  | QReorder expectedRevision queueIds =>
      match reorderQueuedMessages now current expectedRevision queueIds with
      | ReorderUpdated session | ReorderUnchanged session => (stored, session)
      | _ => (stored, current)
      end
  | QPause paused => (stored, setQueuePaused now current paused)
  end.
End Queue.
Arguments queue_op : clear implicits.
Arguments AiSessionQueuedMessage : clear implicits.
Arguments AiSessionQueue : clear implicits.
Arguments queue_session : clear implicits.
Arguments attachment_update : clear implicits.
