(* ===== verification/QueueSpec.v ===== *)
(** * What the message queue promises

    Every reachable queue is sorted (sending, queued, failed), bounded, has
    distinct identifiers and an exact pending count; no message is dropped but
    by a removal; a reorder is accepted exactly for a permutation of the queued
    messages at the current revision. *)

From S2P Require Export Queue.

Section QueueSpec.
Context {Meta Ref Payload Rest : Type}.
Context (parseMeta : Meta -> option Meta) (parseRef : Ref -> option Ref)
  (isDateTime : jsstring -> bool) (metaOf : Payload -> Meta).
Abbreviation item := (AiSessionQueuedMessage Meta Ref).
Implicit Types (i : AiSessionQueuedMessage Meta Ref).
Abbreviation session := (queue_session Meta Ref Rest).
Abbreviation payloads := (jsmap jsstring (list Payload)).
Abbreviation normalize := (normalizeQueuedMessage parseMeta parseRef isDateTime).
Abbreviation normalize_items := (normalizeAiSessionQueueItems parseMeta parseRef isDateTime).
Abbreviation with_queue := (withQueue parseMeta parseRef isDateTime).

(** What a schema that only trims promises: its output is accepted as it is. *)
Definition parsers_idempotent : Prop :=
  (forall m m', parseMeta m = Some m' -> parseMeta m' = Some m')
  /\ (forall r r', parseRef r = Some r' -> parseRef r' = Some r').

Definition rank (i : item) : Z := queueStatusRank (q_status i).
Definition item_ids (l : list item) : list jsstring := q_id <$> l.

Definition normal (i : item) : Prop := normalize i = Some i.

(** A normalized queue. *)
Record queue_ok (q : AiSessionQueue Meta Ref) : Prop := {
  qo_normal : Forall normal (q_items q);
  qo_length : length (q_items q) <= 100;
  qo_sorted : StronglySorted (fun x y => rank x <= rank y)%Z (q_items q);
  qo_ids : NoDup (item_ids (q_items q));
  qo_pending : q_pendingCount q = length (filter (fun i => is_pending i = true) (q_items q));
  qo_revision : (0 <= q_revision q)%Z
}.

(** ** Normalizing one message *)

Lemma truthy_length s : truthy s = true <-> s <> [].
Proof. by destruct s. Qed.

Lemma normalize_spec i i' :
  normalize i = Some i' ->
  queuedMessageSchema isDateTime i' = true
  /\ q_id i' = compact (q_id i) 120 /\ q_message i' = messageText (q_message i)
  /\ q_status i' = q_status i /\ q_createdAt i' = q_createdAt i /\ q_updatedAt i' = q_updatedAt i.
Proof.
  unfold normalizeQueuedMessage. destruct (queuedMessageSchema _ _) eqn:E; [|done].
  intros [= <-]. done.
Qed.

(** Normalizing what was normalized changes nothing, unless an error was all
    white space (then only the second pass drops it). *)
Lemma normalize_idemp i i' :
  parsers_idempotent ->
  (forall e, q_error i = Some e -> truthy e = true -> truthy (compact e 4000) = true) ->
  normalize i = Some i' -> normal i'.
Proof.
  intros [Hm Hr] He Hi. unfold normal. pose proof Hi as Hi0. apply normalize_spec in Hi0 as [Hs _].
  unfold normalizeQueuedMessage in Hi. destruct (queuedMessageSchema _ _) eqn:Es; [|done]. injection Hi as <-.
  assert (forall {A} (p : A -> option A) n (l : list A), (forall a a', p a = Some a' -> p a' = Some a') ->
            take n (omap p (take n (omap p l))) = take n (omap p l)) as Hto.
  { intros A p n l Hp.
    assert (Forall (fun a => p a = Some a) (take n (omap p l))) as Hf.
    { apply Forall_take, Forall_forall. intros a (b & _ & Hb)%list_elem_of_omap. by eapply Hp. }
    assert (omap p (take n (omap p l)) = take n (omap p l)) as ->; [|apply take_ge; rewrite length_take; lia].
    induction Hf as [|a k Ha _ IH]; [done|]. simpl. rewrite Ha. f_equal. apply IH. }
  unfold normalizeQueuedMessage. cbn [q_id q_messageId q_message q_attachments q_references q_permissionMode
    q_status q_createdAt q_updatedAt q_error].
  rewrite !compact_idemp by lia. rewrite messageText_idemp.
  unfold normalizeAiSessionMessageAttachmentMetas, normalizeAiSessionReferences. rewrite !Hto by done.
  assert ((m0 ← (m ← q_messageId i; if truthy (trim m) then Some (compact m 240) else None);
           if truthy (trim m0) then Some (compact m0 240) else None)
          = (m ← q_messageId i; if truthy (trim m) then Some (compact m 240) else None)) as ->.
  { destruct (q_messageId i) as [m|]; [|done]. simpl. destruct (truthy (trim m)) eqn:Et; [|done]. simpl.
    rewrite trimmed_trim by apply compact_trimmed. rewrite compact_idemp by lia.
    cbn [queuedMessageSchema q_messageId] in Es. unfold queuedMessageSchema in Es. simpl in Es.
    rewrite Et in Es. propify.
    by match goal with H : truthy (compact m 240) = true |- _ => rewrite H end. }
  assert ((e0 ← (e ← q_error i; if truthy e then Some (compact e 4000) else None);
           if truthy e0 then Some (compact e0 4000) else None)
          = (e ← q_error i; if truthy e then Some (compact e 4000) else None)) as ->.
  { destruct (q_error i) as [e|]; [|done]. simpl. destruct (truthy e) eqn:Et; [|done]. simpl.
    rewrite (He e eq_refl Et), compact_idemp by lia. done. }
  unfold normalizeAiSessionMessageAttachmentMetas, normalizeAiSessionReferences in Hs. by rewrite Hs.
Qed.

(** ** Normalizing a list *)

(** A message that normalization keeps, under its identifier. *)
Definition good (i : item) : Prop := exists i', normalize i = Some i' /\ normal i' /\ q_id i' = q_id i.

Lemma normal_good i : normal i -> good i.
Proof. intros Hi. by exists i. Qed.

Lemma normal_id i : normal i -> compact (q_id i) 120 = q_id i.
Proof. intros Hi. destruct (normalize_spec i i Hi) as (_ & Hc & _). congruence. Qed.

(** Messages normalized one by one. *)
Inductive normalizes : list item -> list item -> Prop :=
| normalizes_nil : normalizes [] []
| normalizes_cons i i' l l' :
    normalize i = Some i' -> normal i' -> q_id i' = q_id i -> normalizes l l' ->
    normalizes (i :: l) (i' :: l').

Lemma good_normalizes l : Forall good l -> exists l', normalizes l l' /\ omap normalize l = l'.
Proof.
  induction 1 as [|i l (i' & Hi & Hn & Hid) _ (l' & Hl & Heq)]; [by exists []; split; [constructor|]|].
  exists (i' :: l'). split; [by constructor|]. simpl. rewrite Hi. f_equal. done.
Qed.

Lemma normalizes_ids l l' : normalizes l l' -> item_ids l' = item_ids l /\ Forall normal l'.
Proof.
  induction 1 as [|i i' l l' Hi Hn Hid Hl [IH1 IH2]]; [done|].
  unfold item_ids in *. csimpl. rewrite Hid, IH1. split; [done|by constructor].
Qed.

Lemma normal_normalizes l : Forall normal l -> omap normalize l = l.
Proof. induction 1 as [|i l Hi _ IH]; [done|]. simpl. rewrite Hi. f_equal. apply IH. Qed.

Lemma item_ids_perm l1 l2 : l1 ≡ₚ l2 -> item_ids l1 ≡ₚ item_ids l2.
Proof. apply fmap_Permutation. Qed.

Lemma NoDup_take {A} n (l : list A) : NoDup l -> NoDup (take n l).
Proof. intros Hl. rewrite <- (take_drop n l) in Hl. by apply NoDup_app in Hl as [? _]. Qed.

Lemma normalize_items_ok l revision paused :
  Forall good l -> NoDup (item_ids l) ->
  queue_ok (normalize_items l revision paused)
  /\ item_ids (q_items (normalize_items l revision paused)) ≡ₚ take 100 (item_ids l).
Proof.
  intros Hg Hnd. destruct (good_normalizes l Hg) as (l' & Hl & Heq).
  destruct (normalizes_ids _ _ Hl) as [Hids Hn].
  unfold normalizeAiSessionQueueItems. rewrite Heq. simpl.
  assert (item_ids (js_sort (fun x y => rank x - rank y)%Z (take 100 l')) ≡ₚ take 100 (item_ids l)) as Hperm.
  { rewrite (item_ids_perm _ _ (js_sort_perm _ _)). unfold item_ids in *. by rewrite fmap_take, Hids. }
  split; [|done]. split; simpl.
  - rewrite js_sort_perm. by apply Forall_take.
  - rewrite js_sort_length, length_take. lia.
  - apply (js_sort_strongly_sorted rank).
  - change (NoDup (item_ids (js_sort (fun x y => rank x - rank y)%Z (take 100 l')))).
    rewrite Hperm. by apply NoDup_take.
  - done.
  - unfold normalizeNonNegativeInteger. case_match; propify; lia.
Qed.

Lemma with_queue_ok (s : session) l now :
  Forall good l -> NoDup (item_ids l) -> length l <= 100 ->
  queue_ok (qs_queue (with_queue s l now)) /\ item_ids (q_items (qs_queue (with_queue s l now))) ≡ₚ item_ids l.
Proof.
  intros Hg Hnd Hl. unfold withQueue. simpl.
  destruct (normalize_items_ok l (q_revision (qs_queue s) + 1) (q_paused (qs_queue s)) Hg Hnd) as [H1 H2].
  split; [done|]. rewrite H2, take_ge; [done|]. unfold item_ids. by rewrite length_fmap.
Qed.

(** ** The mutations keep messages valid *)

Lemma settled_compact (e : option jsstring) m :
  e = None \/ e = Some (compact m 4000) ->
  forall x, e = Some x -> truthy x = true -> truthy (compact x 4000) = true.
Proof. intros [->| ->] x; [done|]. intros [= <-]. by rewrite compact_idemp by done. Qed.

Lemma normal_fields i :
  normal i ->
  queuedMessageSchema isDateTime i = true
  /\ q_messageId i = (m ← q_messageId i; if truthy (trim m) then Some (compact m 240) else None)
  /\ q_error i = (e ← q_error i; if truthy e then Some (compact e 4000) else None).
Proof.
  intros Hi. pose proof (normalize_spec i i Hi) as [Hs _]. unfold normal, normalizeQueuedMessage in Hi.
  destruct (queuedMessageSchema _ (QueuedMessage _ _ _ _ _ _ _ _ _ _)); [|done]. injection Hi as Hi.
  split; [done|]. by rewrite <- Hi at 1 3.
Qed.

Lemma normal_settled i e : normal i -> q_error i = Some e -> truthy e = true -> truthy (compact e 4000) = true.
Proof. intros (_ & _ & Hi)%normal_fields He Ht. rewrite He in Hi. simpl in Hi. rewrite Ht in Hi. congruence. Qed.

(** The schema on a candidate, field by field. *)
Lemma schema_candidate i :
  queuedMessageSchema isDateTime i = true <->
  (truthy (q_id i) = true /\ (N.of_nat (length (q_id i)) <= 120)%N)
  /\ (forall m, q_messageId i = Some m -> truthy m = true /\ (N.of_nat (length m) <= 240)%N)
  /\ (truthy (q_message i) = true /\ (N.of_nat (length (q_message i)) <= 20000)%N)
  /\ isDateTime (q_createdAt i) = true /\ isDateTime (q_updatedAt i) = true
  /\ (forall e, q_error i = Some e -> (N.of_nat (length e) <= 4000)%N).
Proof.
  unfold queuedMessageSchema. rewrite !andb_true_iff, !N.leb_le.
  assert (match q_messageId i with Some m => truthy m && (N.of_nat (length m) <=? 240)%N | None => true end = true
          <-> forall m, q_messageId i = Some m -> truthy m = true /\ (N.of_nat (length m) <= 240)%N) as ->.
  { destruct (q_messageId i); [|naive_solver]. rewrite andb_true_iff, N.leb_le. naive_solver. }
  assert (match q_error i with Some e => (N.of_nat (length e) <=? 4000)%N | None => true end = true
          <-> forall e, q_error i = Some e -> (N.of_nat (length e) <= 4000)%N) as ->.
  { destruct (q_error i); [|naive_solver]. rewrite N.leb_le. naive_solver. }
  naive_solver.
Qed.

(** Messages built from valid ones. *)
Lemma good_candidate i :
  parsers_idempotent ->
  (forall e, q_error i = Some e -> truthy e = true -> truthy (compact e 4000) = true) ->
  compact (q_id i) 120 = q_id i -> q_id i <> [] ->
  truthy (messageText (q_message i)) = true -> (N.of_nat (length (messageText (q_message i))) <= 20000)%N ->
  isDateTime (q_createdAt i) = true -> isDateTime (q_updatedAt i) = true ->
  good i.
Proof.
  intros Hp He Hid Hne Hm Hml Hc Hu.
  assert (exists i', normalize i = Some i') as [i' Hi'].
  { unfold normalizeQueuedMessage.
    match goal with |- context [queuedMessageSchema _ ?c] => assert (queuedMessageSchema isDateTime c = true) as -> end;
      [|by eexists].
    apply schema_candidate. simpl. split; [|split; [|split; [|split; [done|split; [done|]]]]].
    - split; [|by apply compact_length]. by rewrite Hid, truthy_length.
    - intros m. destruct (q_messageId i) as [m0|]; [|done]. simpl. destruct (truthy (trim m0)) eqn:Et; [|done].
      intros [= <-]. split; [|by apply compact_length]. rewrite truthy_length in *.
      rewrite compact_blank. by rewrite trim_blank in Et.
    - done.
    - intros e. destruct (q_error i) as [e0|]; [|done]. simpl. destruct (truthy e0); [|done].
      intros [= <-]. by apply compact_length. }
  exists i'. split; [done|]. split; [by eapply normalize_idemp|].
  apply normalize_spec in Hi' as (_ & Hid' & _). congruence.
Qed.

Lemma normal_candidate i :
  normal i ->
  compact (q_id i) 120 = q_id i /\ q_id i <> []
  /\ truthy (messageText (q_message i)) = true /\ (N.of_nat (length (messageText (q_message i))) <= 20000)%N
  /\ isDateTime (q_createdAt i) = true.
Proof.
  intros Hi. destruct (normalize_spec i i Hi) as (Hs & Hid & Hm & _).
  apply schema_candidate in Hs as ([H1 _] & _ & [H2 H3] & H4 & _).
  rewrite <- Hm. repeat split; try done. by apply truthy_length.
Qed.

Lemma good_status i st e now :
  parsers_idempotent -> normal i -> isDateTime now = true ->
  (e = None \/ exists m, e = Some (compact m 4000)) -> good (with_item_status st e now i).
Proof.
  intros Hp Hi Hnow He. destruct (normal_candidate i Hi) as (H1 & H2 & H3 & H4 & H5).
  apply good_candidate; try done. simpl. destruct He as [->|[m ->]]; [done|].
  intros x [= <-]. by rewrite compact_idemp.
Qed.

Lemma good_edit i message now (update : option (attachment_update Meta Payload)) :
  parsers_idempotent -> normal i -> isDateTime now = true ->
  truthy (messageText message) = true -> (N.of_nat (length (messageText message)) <= 20000)%N ->
  good (edit_item (messageText message) now update i).
Proof.
  intros Hp Hi Hnow Hm Hl. destruct (normal_candidate i Hi) as (H1 & H2 & H3 & H4 & H5).
  apply good_candidate; try done; simpl; rewrite ?messageText_idemp; try done.
  intros e. by apply normal_settled.
Qed.

(** ** The mutations keep the queue valid *)

Lemma has_item_elem id (l : list item) : has_item id l = true <-> id ∈ item_ids l.
Proof.
  unfold has_item, item_ids. rewrite existsb_exists. split.
  - intros (i & Hi & Heq%bool_decide_eq_true). subst. apply list_elem_of_fmap_2. by apply list_elem_of_In.
  - intros (i & -> & Hi)%list_elem_of_fmap. exists i. split; [by apply list_elem_of_In|by apply bool_decide_eq_true].
Qed.

(** A change of the messages of one identifier. *)
Lemma with_queue_update (s : session) id (f : item -> item) now :
  queue_ok (qs_queue s) ->
  (forall i, normal i -> q_id i = id -> good (f i) /\ q_id (f i) = q_id i) ->
  let l := (fun i => if decide (q_id i = id) then f i else i) <$> q_items (qs_queue s) in
  queue_ok (qs_queue (with_queue s l now))
  /\ item_ids (q_items (qs_queue (with_queue s l now))) ≡ₚ item_ids (q_items (qs_queue s)).
Proof.
  intros [Hn Hl _ Hnd _ _] Hf l.
  assert (Forall good l /\ item_ids l = item_ids (q_items (qs_queue s))) as [Hg Hids].
  { unfold l, item_ids. clear l Hl Hnd. induction Hn as [|i k Hi Hk [IH1 IH2]]; [done|]. csimpl.
    case_decide as Hd.
    - destruct (Hf i Hi Hd) as [H1 H2]. rewrite H2, IH2. split; [by constructor|done].
    - rewrite IH2. split; [constructor; [by apply normal_good|done]|done]. }
  rewrite <- Hids. apply with_queue_ok; [done|by rewrite Hids|]. unfold l. by rewrite length_fmap.
Qed.

Lemma with_queue_permuted (s : session) l now :
  queue_ok (qs_queue s) -> Forall good l -> item_ids l ≡ₚ item_ids (q_items (qs_queue s)) ->
  queue_ok (qs_queue (with_queue s l now))
  /\ item_ids (q_items (qs_queue (with_queue s l now))) ≡ₚ item_ids (q_items (qs_queue s)).
Proof.
  intros [_ Hl _ Hnd _ _] Hg Hp.
  destruct (with_queue_ok s l now Hg) as [H1 H2]; [by rewrite Hp| |by rewrite H2].
  apply Permutation_length in Hp. unfold item_ids in Hp. rewrite !length_fmap in Hp. lia.
Qed.

Lemma Forall_normal_good l : Forall normal l -> Forall good l.
Proof. intros Hl. eapply Forall_impl; [done|]. apply normal_good. Qed.

Lemma Forall_filter (P Q : item -> Prop) `{forall i, Decision (P i)} l : Forall Q l -> Forall Q (filter P l).
Proof. rewrite !Forall_forall. intros Hl i [_ Hi]%list_elem_of_filter. auto. Qed.

Lemma list_find_id id (l : list item) n i :
  list_find (fun entry => q_id entry = id) l = Some (n, i) -> i ∈ l /\ q_id i = id.
Proof. intros (H1 & H2 & _)%list_find_Some. split; [by eapply list_elem_of_lookup_2|done]. Qed.

Lemma remaining_perm id (l : list item) i :
  NoDup (item_ids l) -> i ∈ l -> q_id i = id ->
  filter (fun entry => q_id entry <> id) l ++ [i] ≡ₚ l.
Proof.
  intros Hnd Hi <-. induction l as [|j l IH]; [by apply elem_of_nil in Hi|].
  unfold item_ids in Hnd. csimpl in Hnd. apply NoDup_cons in Hnd as [Hj Hnd].
  apply elem_of_cons in Hi as [->|Hi].
  - rewrite filter_cons_False by naive_solver. rewrite filter_all; [by rewrite Permutation_app_comm|].
    intros x Hx Heq. apply Hj. rewrite <- Heq. by apply list_elem_of_fmap_2.
  - rewrite filter_cons_True; [simpl; by rewrite IH|].
    intros Heq. apply Hj. rewrite Heq. by apply list_elem_of_fmap_2.
Qed.

Lemma patch_ok (s s' : session) id st e now :
  parsers_idempotent -> isDateTime now = true -> queue_ok (qs_queue s) ->
  (e = None \/ exists m, e = Some (compact m 4000)) ->
  patchQueuedMessage parseMeta parseRef isDateTime now s id st e = Some s' ->
  queue_ok (qs_queue s') /\ item_ids (q_items (qs_queue s')) ≡ₚ item_ids (q_items (qs_queue s)).
Proof.
  intros Hp Hnow Hok He. unfold patchQueuedMessage. destruct (has_item _ _); [|done]. intros [= <-].
  apply (with_queue_update s id (with_item_status st e now)); [done|].
  intros i Hi _. split; [by apply good_status|done].
Qed.

Lemma retry_ok (s s' : session) id now :
  parsers_idempotent -> isDateTime now = true -> queue_ok (qs_queue s) ->
  retryQueuedMessage parseMeta parseRef isDateTime now s id = Some s' ->
  queue_ok (qs_queue s') /\ item_ids (q_items (qs_queue s')) ≡ₚ item_ids (q_items (qs_queue s)).
Proof.
  intros Hp Hnow Hok. unfold retryQueuedMessage. destruct (list_find _ _) as [[n i]|] eqn:E; [|done].
  intros [= <-]. apply list_find_id in E as [Hi Hid]. pose proof Hok as [Hn Hl _ Hnd _ _].
  apply with_queue_permuted; [done| |].
  - apply Forall_app. split; [apply Forall_normal_good; by apply Forall_filter|].
    apply Forall_singleton, good_status; auto. by eapply Forall_forall in Hn.
  - rewrite <- (item_ids_perm _ _ (remaining_perm id _ i Hnd Hi Hid)). unfold item_ids. by rewrite !fmap_app.
Qed.

Lemma remove_ok (s s' : session) id now (stored stored' : payloads) :
  queue_ok (qs_queue s) ->
  removeQueuedMessage parseMeta parseRef isDateTime now s id stored = (stored', Some s') ->
  queue_ok (qs_queue s')
  /\ item_ids (q_items (qs_queue s')) ≡ₚ filter (.≠ id) (item_ids (q_items (qs_queue s)))
  /\ stored' = mdelete id stored.
Proof.
  intros [Hn Hl _ Hnd _ _]. unfold removeQueuedMessage. destruct (negb _); [done|]. intros [= <- <-].
  assert (item_ids (filter (fun i => q_id i <> id) (q_items (qs_queue s)))
          = filter (.≠ id) (item_ids (q_items (qs_queue s)))) as Hids.
  { unfold item_ids. clear. induction (q_items (qs_queue s)) as [|i l IH]; [done|].
    rewrite fmap_cons, !filter_cons. case_decide; csimpl; by rewrite IH. }
  rewrite <- Hids. destruct (with_queue_ok s (filter (fun i => q_id i <> id) (q_items (qs_queue s))) now); [| | |done].
  - apply Forall_normal_good. by apply Forall_filter.
  - rewrite Hids. by apply NoDup_filter.
  - pose proof (length_filter (fun i => q_id i <> id) (q_items (qs_queue s))). lia.
Qed.

Lemma pause_ok (s : session) now paused :
  queue_ok (qs_queue s) ->
  queue_ok (qs_queue (setQueuePaused parseMeta parseRef isDateTime now s paused))
  /\ item_ids (q_items (qs_queue (setQueuePaused parseMeta parseRef isDateTime now s paused)))
     ≡ₚ item_ids (q_items (qs_queue s)).
Proof.
  intros Hok. unfold setQueuePaused. case_bool_decide; [done|]. pose proof Hok as [Hn Hl _ Hnd _ _]. simpl.
  destruct (normalize_items_ok (q_items (qs_queue s)) (q_revision (qs_queue s)) paused
              (Forall_normal_good _ Hn) Hnd) as [H1 H2].
  split; [done|]. rewrite H2, take_ge; [done|]. unfold item_ids. by rewrite length_fmap.
Qed.

Lemma edit_ok (s s' : session) id rev message update now (stored stored' : payloads) :
  parsers_idempotent -> isDateTime now = true -> queue_ok (qs_queue s) ->
  truthy (messageText message) = true -> (N.of_nat (length (messageText message)) <= 20000)%N ->
  editQueuedMessage parseMeta parseRef isDateTime now s id rev message update stored = (stored', EditUpdated s') ->
  queue_ok (qs_queue s') /\ item_ids (q_items (qs_queue s')) ≡ₚ item_ids (q_items (qs_queue s))
  /\ id ∈ item_ids (q_items (qs_queue s)) /\ (stored' = stored \/ stored' = mdelete id stored \/ exists ps, stored' = mset id ps stored).
Proof.
  intros Hp Hnow Hok Hm Hlen. unfold editQueuedMessage. destruct (negb (_ =? _)%Z); [done|].
  destruct (list_find _ _) as [[n i]|] eqn:E; [|done]. destruct (negb _); [done|].
  destruct (_ && _); [done|]. intros [= <- <-]. apply list_find_id in E as [Hi Hid].
  destruct (with_queue_update s id (edit_item (messageText message) now update) now Hok) as [H1 H2].
  { intros j Hj _. split; [by apply good_edit|done]. }
  split; [done|]. split; [done|]. split; [rewrite <- Hid; by apply list_elem_of_fmap_2|].
  destruct update as [[? [|] ?]|]; eauto.
Qed.

(** ** Reordering *)

Lemma byId_spec (l : list item) : forall m,
  NoDup (item_ids l) -> (forall i, i ∈ l -> mget (q_id i) m = None) ->
  foldl (fun m i => mset (q_id i) i m) m l = m ++ ((fun i => (q_id i, i)) <$> l).
Proof.
  induction l as [|i l IH]; intros m Hnd Hm; [by rewrite app_nil_r|].
  unfold item_ids in Hnd. csimpl in *. apply NoDup_cons in Hnd as [Hi Hnd].
  rewrite (mset_fresh (q_id i)) by (apply Hm; set_solver).
  rewrite IH; [by rewrite <- app_assoc|done|].
  intros j Hj. rewrite mget_app, Hm by set_solver. simpl. rewrite decide_False; [done|].
  intros Heq. apply Hi. rewrite <- Heq. by apply list_elem_of_fmap_2.
Qed.

Lemma byId_lookup (l : list item) id :
  NoDup (item_ids l) ->
  mget id (foldl (fun m i => mset (q_id i) i m) [] l) = snd <$> list_find (fun i => q_id i = id) l.
Proof.
  intros Hnd. rewrite byId_spec by done. simpl. clear Hnd. induction l as [|i l IH]; [done|]. csimpl.
  destruct (decide (id = q_id i)) as [->|Hne].
  - by rewrite decide_True.
  - rewrite decide_False by done. rewrite IH. by destruct (list_find _ l) as [[? ?]|].
Qed.

Lemma ordered_spec (l : list item) (queueIds : list jsstring) :
  NoDup (item_ids l) -> (forall id, id ∈ queueIds -> id ∈ item_ids l) ->
  let ordered := omap (fun id => mget id (foldl (fun m i => mset (q_id i) i m) [] l)) queueIds in
  item_ids ordered = queueIds /\ forall i, i ∈ ordered -> i ∈ l.
Proof.
  intros Hnd Hin. induction queueIds as [|id ids IH]; [by split; [|intros ? ?%elem_of_nil]|].
  destruct IH as [IH1 IH2]; [set_solver|]. simpl. rewrite byId_lookup by done.
  destruct (list_find (fun i => q_id i = id) l) as [[n i]|] eqn:E.
  - apply list_find_id in E as [Hi Hid]. simpl. split.
    + unfold item_ids in *. csimpl. rewrite Hid. f_equal. exact IH1.
    + intros j [->|Hj]%elem_of_cons; auto.
  - exfalso. apply list_find_None in E. rewrite Forall_forall in E.
    destruct (proj1 (list_elem_of_fmap _ _ _) (Hin id ltac:(set_solver))) as (i & Heq & Hi). by apply (E i).
Qed.

Definition queued_ids (s : session) : list jsstring :=
  item_ids (filter (fun i => q_status i = Queued) (q_items (qs_queue s))).

Lemma distinct_count_NoDup (l : list jsstring) : distinct_count l = length l <-> NoDup l.
Proof.
  unfold distinct_count. split.
  - intros Hl. assert (remove_dups l ⊆+ l) as Hs.
    { apply NoDup_submseteq; [apply NoDup_remove_dups|]. intros x. by rewrite elem_of_remove_dups. }
    pose proof (submseteq_length_Permutation _ _ Hs ltac:(lia)) as Hp.
    rewrite <- Hp. apply NoDup_remove_dups.
  - intros Hnd. apply Permutation_length, NoDup_Permutation; [apply NoDup_remove_dups|done|].
    intros x. apply elem_of_remove_dups.
Qed.

Lemma NoDup_queued (s : session) : queue_ok (qs_queue s) -> NoDup (queued_ids s).
Proof.
  intros [_ _ _ Hnd _ _]. unfold queued_ids, item_ids in *. revert Hnd.
  induction (q_items (qs_queue s)) as [|i l IH]; [done|]. csimpl. intros [Hi Hnd]%NoDup_cons.
  rewrite filter_cons. case_decide; [|auto]. csimpl. apply NoDup_cons. split; [|auto].
  intros (j & Heq & [_ Hj]%list_elem_of_filter)%list_elem_of_fmap. apply Hi. rewrite Heq.
  by apply list_elem_of_fmap_2.
Qed.

(** The acceptance test of a requested order: a permutation of the queued
    identifiers. *)
Lemma order_valid (s : session) (queueIds : list jsstring) :
  queue_ok (qs_queue s) ->
  negb (distinct_count queueIds =? length queueIds)
  || negb (length queueIds =? length (filter (fun i => q_status i = Queued) (q_items (qs_queue s))))
  || existsb (fun i => negb (bool_decide (q_id i ∈ queueIds))) (filter (fun i => q_status i = Queued) (q_items (qs_queue s)))
  = false <-> queueIds ≡ₚ queued_ids s.
Proof.
  intros Hok. pose proof (NoDup_queued s Hok) as Hnd. rewrite !orb_false_iff, !negb_false_iff, !Nat.eqb_eq.
  rewrite distinct_count_NoDup. unfold queued_ids in *.
  set (l := filter (fun i => q_status i = Queued) (q_items (qs_queue s))) in *.
  assert (existsb (fun i => negb (bool_decide (q_id i ∈ queueIds))) l = false <-> forall id, id ∈ item_ids l -> id ∈ queueIds) as ->.
  { rewrite <- not_true_iff_false, existsb_exists. split.
    - intros Hno id (i & -> & Hi)%list_elem_of_fmap. destruct (decide (q_id i ∈ queueIds)) as [|Hn]; [done|].
      exfalso. apply Hno. exists i. split; [by apply list_elem_of_In|]. by rewrite bool_decide_eq_false_2.
    - intros Hall (i & Hi & Hb). apply negb_true_iff, bool_decide_eq_false in Hb. apply Hb, Hall.
      apply list_elem_of_fmap_2. by apply list_elem_of_In. }
  assert (length l = length (item_ids l)) as Hlen by (unfold item_ids; by rewrite length_fmap).
  rewrite Hlen. split.
  - intros [[H1 H2] H3]. symmetry. apply submseteq_length_Permutation; [|lia]. by apply NoDup_submseteq.
  - intros Hp. split; [split|]; [by rewrite Hp|by rewrite Hp|]. intros id. by rewrite Hp.
Qed.

Lemma rank_queued i : q_status i = Queued <-> rank i = 1%Z.
Proof. unfold rank. destruct (q_status i); simpl; done. Qed.

Lemma reorder_updated (s : session) now (queueIds : list jsstring) :
  queue_ok (qs_queue s) -> queueIds ≡ₚ queued_ids s ->
  let items := q_items (qs_queue s) in
  let ordered := omap (fun id => mget id (foldl (fun m i => mset (q_id i) i m) []
                                            (filter (fun i => q_status i = Queued) items))) queueIds in
  let s' := with_queue s (filter (fun i => q_status i <> Queued) items ++ ordered) now in
  queue_ok (qs_queue s') /\ item_ids (q_items (qs_queue s')) ≡ₚ item_ids items
  /\ queued_ids s' = queueIds
  /\ forall st, st <> Queued ->
       filter (fun i => q_status i = st) (q_items (qs_queue s')) = filter (fun i => q_status i = st) items.
Proof.
  intros Hok Hp items ordered s'. pose proof (NoDup_queued s Hok) as Hnd.
  destruct (ordered_spec (filter (fun i => q_status i = Queued) items) queueIds Hnd) as [Hids Hsub].
  { intros id. rewrite Hp. done. }
  fold ordered in Hids, Hsub. pose proof Hok as [Hn Hl _ Hnd0 _ _].
  set (l := filter (fun i => q_status i <> Queued) items ++ ordered) in *.
  assert (Forall normal l) as Hnl.
  { apply Forall_app. split; [by apply Forall_filter|]. apply Forall_forall. intros i Hi.
    apply Hsub in Hi. apply list_elem_of_filter in Hi as [_ Hi]. by eapply Forall_forall in Hn. }
  assert (item_ids l ≡ₚ item_ids items) as Hperm.
  { unfold l, item_ids in *. rewrite fmap_app, Hids, Hp. unfold queued_ids, item_ids.
    rewrite <- fmap_app. apply fmap_Permutation. rewrite Permutation_app_comm. apply filter_app_complement. }
  destruct (with_queue_permuted s l now Hok (Forall_normal_good _ Hnl) Hperm) as [H1 H2].
  split; [done|]. split; [done|].
  assert (q_items (qs_queue s') = js_sort (fun x y => rank x - rank y)%Z l) as Hitems.
  { unfold s', withQueue, normalizeAiSessionQueueItems. simpl. rewrite normal_normalizes, take_ge; [done| |done].
    apply Permutation_length in Hperm. unfold item_ids in Hperm. rewrite !length_fmap in Hperm. unfold items in *. lia. }
  assert (forall st, filter (fun i => q_status i = st) (q_items (qs_queue s')) = filter (fun i => q_status i = st) l) as Hf.
  { intros st. rewrite Hitems.
    transitivity (filter (fun i => rank i = queueStatusRank st) (js_sort (fun x y => rank x - rank y)%Z l)).
    - apply list_filter_iff. intros i. unfold rank. by destruct (q_status i), st.
    - rewrite js_sort_filter. apply list_filter_iff. intros i. unfold rank. by destruct (q_status i), st. }
  split.
  - unfold queued_ids. rewrite Hf. unfold l. rewrite filter_app, filter_none, filter_all; [done| |].
    + intros i Hi%Hsub. by apply list_elem_of_filter in Hi as [? _].
    + intros i Hi. by apply list_elem_of_filter in Hi as [? _].
  - intros st Hst. rewrite Hf. unfold l. rewrite filter_app, (filter_none _ ordered), app_nil_r.
    + rewrite list_filter_filter. apply list_filter_iff. naive_solver.
    + intros i Hi%Hsub. apply list_elem_of_filter in Hi as [? _]. congruence.
Qed.

(** ** Enqueueing *)

Definition valid_message (message : jsstring) : Prop :=
  truthy (messageText message) = true /\ (N.of_nat (length (messageText message)) <= 20000)%N.

Definition fresh_queue_id (newId : jsstring) (s : session) : Prop :=
  compact newId 120 = newId /\ newId <> [] /\ newId ∉ item_ids (q_items (qs_queue s)).

Abbreviation enqueue := (enqueueMessage parseMeta parseRef isDateTime metaOf).

Lemma enqueue_spec now newId (s : session) message attachments references mode messageId
    (stored stored' : payloads) r :
  parsers_idempotent -> isDateTime now = true -> queue_ok (qs_queue s) ->
  fresh_queue_id newId s -> valid_message message ->
  enqueue now newId s message attachments references mode messageId stored = Some (stored', r) ->
  let items := q_items (qs_queue s) in
  match r with
  | None => length items = 100 /\ stored' = stored
  | Some (s', _) =>
      length items < 100 /\ queue_ok (qs_queue s')
      /\ item_ids (q_items (qs_queue s')) ≡ₚ item_ids items ++ [newId]
      /\ queued_ids s' = queued_ids s ++ [newId]
      /\ (forall st, st <> Queued ->
           filter (fun i => q_status i = st) (q_items (qs_queue s')) = filter (fun i => q_status i = st) items)
      /\ (stored' = stored \/ exists ps, stored' = mset newId ps stored)
  end.
Proof.
  intros Hp Hnow Hok (Hid & Hne & Hfresh) [Hm Hml]. unfold enqueueMessage.
  destruct (aiSessionAttachmentMetas _ _ _) as [metas|]; [|done]. simpl.
  set (it := QueuedMessage newId _ _ _ _ _ _ _ _ _). intros [= Heq].
  pose proof Hok as [Hn Hl Hsorted Hnd _ _].
  assert (good it) as Hgood.
  { apply good_candidate; try done; simpl; by rewrite messageText_idemp. }
  destruct Hgood as (it' & Hit & Hnit & Hid').
  set (l := q_items (qs_queue s) ++ [it]) in *.
  assert (Forall good l) as Hg.
  { apply Forall_app. split; [by apply Forall_normal_good|]. apply Forall_singleton. by exists it'. }
  assert (item_ids l = item_ids (q_items (qs_queue s)) ++ [newId]) as Hids by (unfold l, item_ids; by rewrite fmap_app).
  assert (NoDup (item_ids l)) as Hndl.
  { rewrite Hids. apply NoDup_app. split; [done|]. split; [|apply NoDup_singleton].
    by intros x Hx ->%list_elem_of_singleton. }
  destruct (normalize_items_ok l (q_revision (qs_queue s) + 1) (q_paused (qs_queue s)) Hg Hndl) as [H1 H2].
  change (normalize_items l _ _) with (qs_queue (with_queue s l now)) in H1, H2.
  assert (length (item_ids (q_items (qs_queue s))) = length (q_items (qs_queue s))) as Hlen
    by (unfold item_ids; by rewrite length_fmap).
  assert (existsb (fun entry => bool_decide (q_id entry = newId)) (q_items (qs_queue (with_queue s l now))) = true
          <-> length (q_items (qs_queue s)) < 100) as Hin.
  { change (has_item newId (q_items (qs_queue (with_queue s l now))) = true <-> length (q_items (qs_queue s)) < 100).
    rewrite has_item_elem, H2, Hids. rewrite take_app, elem_of_app. split.
    - intros [Hx|Hx]; [exfalso; apply Hfresh; rewrite <- (take_drop 100 (item_ids _)); apply elem_of_app; by left|].
      destruct (decide (length (q_items (qs_queue s)) < 100)) as [|Hge]; [done|].
      rewrite Hlen in Hx. replace (100 - _) with 0 in Hx by lia. by apply elem_of_nil in Hx.
    - intros Hlt. right. rewrite Hlen. destruct (100 - _) eqn:E; [lia|]. simpl. rewrite take_nil. by left. }
  destruct (existsb _ _) eqn:Ex; simpl in Heq; injection Heq as Hst Hr.
  - pose proof (proj1 Hin eq_refl) as Hlt. subst r. split; [done|]. split; [done|]. split.
    { rewrite H2, take_ge; [by rewrite Hids|]. rewrite Hids, length_app, Hlen. simpl. lia. }
    assert (q_items (qs_queue (with_queue s l now))
            = js_sort (fun x y => rank x - rank y)%Z (q_items (qs_queue s) ++ [it'])) as Hitems.
    { unfold withQueue, normalizeAiSessionQueueItems. simpl. unfold l. rewrite omap_app, normal_normalizes by done.
      simpl. rewrite Hit. rewrite take_ge; [done|]. rewrite length_app. simpl. lia. }
    assert (forall st, filter (fun i => q_status i = st) (q_items (qs_queue (with_queue s l now)))
              = filter (fun i => q_status i = st) (q_items (qs_queue s) ++ [it'])) as Hf.
    { intros st. rewrite Hitems.
      transitivity (filter (fun i => rank i = queueStatusRank st) (js_sort (fun x y => rank x - rank y)%Z (q_items (qs_queue s) ++ [it']))).
      - apply list_filter_iff. intros i. unfold rank. by destruct (q_status i), st.
      - rewrite js_sort_filter. apply list_filter_iff. intros i. unfold rank. by destruct (q_status i), st. }
    destruct (normalize_spec _ _ Hit) as (_ & _ & _ & Hstatus & _). simpl in Hstatus.
    split; [|split].
    + unfold queued_ids. rewrite Hf, filter_app, filter_cons_True by done. unfold item_ids. rewrite fmap_app. simpl.
      by rewrite Hid'.
    + intros st Hne'. rewrite Hf, filter_app, filter_cons_False by congruence. by rewrite filter_nil, app_nil_r.
    + subst stored'. destruct attachments; eauto.
  - subst r. split; [|done]. destruct (decide (length (q_items (qs_queue s)) < 100)) as [Hlt|]; [|lia].
    by apply Hin in Hlt.
Qed.

(** ** Reachable queues *)

Definition op_allowed (op : queue_op Meta Ref Payload) (s : session) : Prop :=
  match op with
  | QEnqueue newId message _ _ _ _ => fresh_queue_id newId s /\ valid_message message
  | QEdit _ _ message _ => valid_message message
  | _ => True
  end.

(** The sessions a queue service produces from an empty queue, with the
    payloads it holds. *)
Inductive queue_reachable : payloads -> session -> Prop :=
| queue_reachable_empty updatedAt rest :
    queue_reachable [] (QueueSession emptyAiSessionQueue updatedAt rest)
| queue_reachable_step now op stored s :
    queue_reachable stored s -> isDateTime now = true -> op_allowed op s ->
    queue_reachable (queue_step parseMeta parseRef isDateTime metaOf now op stored s).1
                    (queue_step parseMeta parseRef isDateTime metaOf now op stored s).2.

Definition payloads_ok (stored : payloads) (s : session) : Prop :=
  map_wf stored /\ forall id, id ∈ mkeys stored -> id ∈ item_ids (q_items (qs_queue s)).

Lemma payloads_ok_perm stored (s s' : session) :
  item_ids (q_items (qs_queue s')) ≡ₚ item_ids (q_items (qs_queue s)) -> payloads_ok stored s -> payloads_ok stored s'.
Proof. intros Hp [H1 H2]. split; [done|]. intros id Hid. rewrite Hp. auto. Qed.

Lemma payloads_ok_mset stored (s : session) id ps :
  id ∈ item_ids (q_items (qs_queue s)) -> payloads_ok stored s -> payloads_ok (mset id ps stored) s.
Proof.
  intros Hid [H1 H2]. split; [by apply map_wf_mset|]. intros id'. rewrite mkeys_mset.
  case_decide; [auto|]. intros [?| ->%list_elem_of_singleton]%elem_of_app; auto.
Qed.

Lemma payloads_ok_mdelete stored (s : session) id : payloads_ok stored s -> payloads_ok (mdelete id stored) s.
Proof.
  intros [H1 H2]. split; [by apply map_wf_mdelete|]. intros id'. rewrite mkeys_mdelete.
  intros [_ ?]%list_elem_of_filter. auto.
Qed.

Lemma queue_step_ok now op stored (s : session) :
  parsers_idempotent -> isDateTime now = true -> op_allowed op s ->
  queue_ok (qs_queue s) -> payloads_ok stored s ->
  let '(stored', s') := queue_step parseMeta parseRef isDateTime metaOf now op stored s in
  queue_ok (qs_queue s') /\ payloads_ok stored' s'.
Proof.
  intros Hp Hnow Hop Hok Hst. destruct op as [newId message atts refs mode mid|id|id m|id|id|id rev m update|rev ids|p]; simpl.
  - destruct Hop as [Hfresh Hm]. destruct (enqueue _ _ _ _ _ _ _ _ _) as [[stored' r]|] eqn:E; [|done].
    pose proof (enqueue_spec _ _ _ _ _ _ _ _ _ _ _ Hp Hnow Hok Hfresh Hm E) as Hr.
    destruct r as [[s' it]|]; [|by destruct Hr as [_ ->]].
    destruct Hr as (_ & Hok' & Hids & _ & _ & Hs'). split; [done|].
    assert (payloads_ok stored s') as Hs.
    { destruct Hst as [H1 H2]. split; [done|]. intros x Hx. rewrite Hids. apply elem_of_app. auto. }
    destruct Hs' as [->|[ps ->]]; [done|]. apply payloads_ok_mset; [|done].
    rewrite Hids. apply elem_of_app. right. by apply list_elem_of_singleton.
  - unfold markQueuedMessageSending. destruct (patchQueuedMessage _ _ _ _ _ _ _ _) as [s'|] eqn:E; [|done].
    apply patch_ok in E as [H1 H2]; auto. split; [done|]. by eapply payloads_ok_perm.
  - unfold markQueuedMessageFailed. destruct (patchQueuedMessage _ _ _ _ _ _ _ _) as [s'|] eqn:E; [|done].
    apply patch_ok in E as [H1 H2]; eauto. split; [done|]. by eapply payloads_ok_perm.
  - destruct (retryQueuedMessage _ _ _ _ _ _) as [s'|] eqn:E; [|done].
    apply retry_ok in E as [H1 H2]; auto. split; [done|]. by eapply payloads_ok_perm.
  - destruct (removeQueuedMessage _ _ _ _ _ _ _) as [stored' [s'|]] eqn:E.
    + apply remove_ok in E as (H1 & H2 & ->); [|done]. split; [done|]. simpl.
      destruct Hst as [H3 H4]. split; [by apply map_wf_mdelete|]. intros x. rewrite mkeys_mdelete, H2.
      rewrite !list_elem_of_filter. naive_solver.
    + unfold removeQueuedMessage in E. destruct (negb _); simplify_eq. done.
  - destruct (editQueuedMessage _ _ _ _ _ _ _ _ _ _) as [stored' r] eqn:E.
    assert ((forall s', r <> EditUpdated s') ->
            stored' = stored /\ forall s', r = EditUnchanged s' -> s' = s) as Hno.
    { unfold editQueuedMessage in E. intros Hs'. repeat case_match; simplify_eq;
        try (exfalso; by eapply Hs'); (split; [done|]); intros ? [=]; done. }
    destruct r as [s'|s'|c| |]; try (destruct Hno as [-> H]; [done|]; try rewrite (H s') by done; done).
    destruct Hop as [Hm Hl]. apply edit_ok in E as (H1 & H2 & H3 & H4); [|done..]. split; [done|].
    apply (payloads_ok_perm _ s s'); [done|].
    destruct H4 as [->|[->|[ps ->]]]; [done|by apply payloads_ok_mdelete|by apply payloads_ok_mset].
  - unfold reorderQueuedMessages. destruct (negb (_ =? _)%Z); [done|].
    destruct (_ || _) eqn:Ev; [done|]. case_bool_decide; [done|].
    apply order_valid in Ev; [|done]. destruct (reorder_updated s now ids Hok Ev) as (H1 & H2 & _).
    split; [done|]. by eapply payloads_ok_perm.
  - destruct (pause_ok s now p Hok) as [H1 H2]. split; [done|]. by eapply payloads_ok_perm.
Qed.

Lemma queue_empty_ok updatedAt rest :
  queue_ok (qs_queue (QueueSession emptyAiSessionQueue updatedAt rest : session)).
Proof. split; simpl; try done; try constructor; lia. Qed.

Lemma reachable_ok stored (s : session) :
  parsers_idempotent -> queue_reachable stored s -> queue_ok (qs_queue s) /\ payloads_ok stored s.
Proof.
  intros Hp. induction 1 as [updatedAt rest|now op stored s _ [IH1 IH2] Hnow Hop].
  - split; [apply queue_empty_ok|]. split; [constructor|]. by intros id ?%elem_of_nil.
  - pose proof (queue_step_ok now op stored s Hp Hnow Hop IH1 IH2) as H. by destruct (queue_step _ _ _ _ _ _ _ _).
Qed.

(** Every reachable queue is normalized, sorted by status (sending, then
    queued, then failed), at most 100 long, without duplicate identifiers and
    with an exact pending count; and the service holds attachment payloads
    only for messages that are in the queue. *)
Theorem queue_reachable_ok stored (s : session)
    (Hparsers : parsers_idempotent) (Hreach : queue_reachable stored s) :
  queue_ok (qs_queue s) /\ map_wf stored
  /\ forall id, id ∈ mkeys stored -> id ∈ item_ids (q_items (qs_queue s)).
Proof. destruct (reachable_ok _ _ Hparsers Hreach) as [H1 [H2 H3]]. done. Qed.

(** Enqueueing a valid message under a fresh identifier is refused exactly
    when the queue is full, and then nothing changes; otherwise the message is
    the last of the queued ones, every other message keeps its place, and no
    message is lost. *)
Theorem enqueue_appends now newId stored (s : session) message attachments references mode messageId stored' r
    (Hparsers : parsers_idempotent) (Hnow : isDateTime now = true) (Hreach : queue_reachable stored s)
    (Hfresh : fresh_queue_id newId s) (Hmessage : valid_message message)
    (Henqueue : enqueue now newId s message attachments references mode messageId stored = Some (stored', r)) :
  match r with
  | None => length (q_items (qs_queue s)) = 100 /\ stored' = stored
  | Some (s', _) =>
      length (q_items (qs_queue s)) < 100
      /\ item_ids (q_items (qs_queue s')) ≡ₚ item_ids (q_items (qs_queue s)) ++ [newId]
      /\ queued_ids s' = queued_ids s ++ [newId]
      /\ forall st, st <> Queued ->
           filter (fun i => q_status i = st) (q_items (qs_queue s'))
           = filter (fun i => q_status i = st) (q_items (qs_queue s))
  end.
Proof.
  destruct (reachable_ok _ _ Hparsers Hreach) as [Hok _].
  pose proof (enqueue_spec _ _ _ _ _ _ _ _ _ _ _ Hparsers Hnow Hok Hfresh Hmessage Henqueue) as H.
  destruct r as [[s' it]|]; [|done]. by destruct H as (H1 & _ & H2 & H3 & H4 & _).
Qed.

(** A reorder request is answered on every branch as promised: a stale
    revision is a conflict, a list that is not a permutation of the queued
    messages is invalid, the present order is unchanged, and otherwise the
    queued messages stand in the requested order while all others keep theirs. *)
Theorem reorder_answers now stored (s : session) expectedRevision queueIds
    (Hparsers : parsers_idempotent) (Hreach : queue_reachable stored s) :
  match reorderQueuedMessages parseMeta parseRef isDateTime now s expectedRevision queueIds with
  | ReorderRevisionConflict r => r = q_revision (qs_queue s) /\ r <> expectedRevision
  | ReorderOrderInvalid => expectedRevision = q_revision (qs_queue s) /\ ~ queueIds ≡ₚ queued_ids s
  | ReorderUnchanged s' => expectedRevision = q_revision (qs_queue s) /\ s' = s /\ queueIds = queued_ids s
  | ReorderUpdated s' =>
      expectedRevision = q_revision (qs_queue s) /\ queueIds ≡ₚ queued_ids s
      /\ q_revision (qs_queue s') = (q_revision (qs_queue s) + 1)%Z
      /\ queued_ids s' = queueIds
      /\ forall st, st <> Queued ->
           filter (fun i => q_status i = st) (q_items (qs_queue s'))
           = filter (fun i => q_status i = st) (q_items (qs_queue s))
  end.
Proof.
  destruct (reachable_ok _ _ Hparsers Hreach) as [Hok _].
  unfold reorderQueuedMessages. destruct (_ =? _)%Z eqn:Er; propify; [|done]. simpl negb. cbv iota.
  pose proof (order_valid s queueIds Hok) as Hv. destruct (_ || _) eqn:Ev.
  - split; [done|]. intros Hp%Hv. done.
  - case_bool_decide as Hsame; [done|]. split; [done|].
    assert (queueIds ≡ₚ queued_ids s) as Hp by (by apply Hv). split; [done|].
    destruct (reorder_updated s now queueIds Hok Hp) as (_ & _ & H3 & H4).
    split; [|by split]. simpl. unfold normalizeNonNegativeInteger.
    pose proof (qo_revision _ Hok). rewrite (proj2 (Z.leb_le _ _)); lia.
Qed.
End QueueSpec.

(** ** Evaluation *)

(** A queue service over messages without attachments: every string is a date
    and references are names. *)
Definition sample_step (now : string) (op : queue_op unit unit unit) (st : jsmap jsstring (list unit) * queue_session unit unit unit)
  : jsmap jsstring (list unit) * queue_session unit unit unit :=
  queue_step Some Some truthy (fun _ => tt) (js now) op st.1 st.2.
Definition sample_empty : queue_session unit unit unit := QueueSession emptyAiSessionQueue (js "t") tt.
Definition sample_enqueue (id message : string) : queue_op unit unit unit :=
  QEnqueue (js id) (js message) [tt] [] None None.
Definition sample_queue : jsmap jsstring (list unit) * queue_session unit unit unit :=
  sample_step "3" (QSending (js "a"))
    (sample_step "2" (sample_enqueue "c" "three") (sample_step "1" (sample_enqueue "b" " two ")
      (sample_step "0" (sample_enqueue "a" "one") ([], sample_empty)))).

Lemma sample_parsers : parsers_idempotent (Some : unit -> option unit) (Some : unit -> option unit).
Proof. split; by intros ?? [= <-]. Qed.

Lemma sample_reachable :
  queue_reachable (Some : unit -> option unit) (Some : unit -> option unit) truthy (fun _ : unit => tt)
    sample_queue.1 sample_queue.2.
Proof.
  unfold sample_queue, sample_step.
  repeat (apply queue_reachable_step; [|done|]); try apply queue_reachable_empty; try done;
    (split; [split; [vm_compute; reflexivity|split; [done|]]|split; [vm_compute; reflexivity|vm_compute; done]]);
    apply (bool_decide_unpack _); vm_compute; done.
Qed.

Lemma queue_reachable_ok_witness :
  length (q_items (qs_queue sample_queue.2)) = 3 /\ queue_ok Some Some truthy (qs_queue sample_queue.2).
Proof.
  split; [vm_compute; reflexivity|].
  exact (proj1 (queue_reachable_ok Some Some truthy (fun _ : unit => tt) sample_queue.1 sample_queue.2
           sample_parsers sample_reachable)).
Defined.

Lemma enqueue_appends_witness :
  exists stored' s' it,
    enqueueMessage Some Some truthy (fun _ : unit => tt) (js "4") (js "d") sample_queue.2 (js "four") [] [] None None
      sample_queue.1 = Some (stored', Some (s', it))
    /\ queued_ids s' = queued_ids sample_queue.2 ++ [js "d"].
Proof.
  eexists _, _, _.
  match goal with |- ?A /\ _ => assert A as Henq by (vm_compute; reflexivity) end.
  split; [exact Henq|].
  refine (proj1 (proj2 (proj2 (enqueue_appends Some Some truthy (fun _ : unit => tt) (js "4") (js "d")
    sample_queue.1 sample_queue.2 (js "four") [] [] None None _ (Some (_, _)) sample_parsers eq_refl
    sample_reachable _ _ Henq)))).
  - split; [vm_compute; reflexivity|]. split; [done|]. apply (bool_decide_unpack _). vm_compute. done.
  - split; [vm_compute; reflexivity|vm_compute; done].
Defined.

Lemma reorder_answers_witness :
  exists s', reorderQueuedMessages Some Some truthy (js "5") sample_queue.2 4 [js "c"; js "b"] = ReorderUpdated s'
    /\ queued_ids s' = [js "c"; js "b"].
Proof.
  eexists. split; [vm_compute; reflexivity|].
  pose proof (reorder_answers Some Some truthy (fun _ : unit => tt) (js "5") sample_queue.1 sample_queue.2 4
    [js "c"; js "b"] sample_parsers sample_reachable) as H.
  vm_compute in H. exact (proj1 (proj2 (proj2 (proj2 H)))).
Defined.
