(* ===== verification/Hierarchy.v ===== *)
(** * The hierarchy of AI sessions

    [packages/protocol/src/ai-session-hierarchy.ts]: a forest derived from a
    flat list of sessions, of which subagents name their parent by its
    provider's identifier.  The tree nodes are mutable objects that refer to
    each other: they live in a heap, and a reference is an index into it.  The
    loops that follow references take fuel and give [None] when it runs out.
    [Date_parse] is [Date.parse], [None] for NaN; [localeCompare] is the
    language's. *)

From S2P Require Export Prelude.

(** ** Sessions and diagnostics *)

Inductive AiSessionLifecycle := LcRunning | LcWaiting | LcIdle | LcFailed.
#[export] Instance lifecycle_eq_dec : EqDecision AiSessionLifecycle.
Proof. solve_decision. Defined.

Inductive AiSessionLineage :=
| LineageFork (parentProviderSessionId : jsstring) (throughTurnId : option jsstring)
| LineageSubagent (parentProviderSessionId : jsstring).

Record AiSessionHierarchyRecord := HierarchyRecord {
  hr_id : jsstring;
  hr_instanceId : option jsstring;
  hr_agent : jsstring;
  hr_providerSessionId : option jsstring;
  hr_lineage : option AiSessionLineage;
  hr_status : option AiSessionLifecycle;
  hr_lastUserMessageAt : option jsstring;
  hr_updatedAt : jsstring;
  hr_completedAt : option jsstring
}.

Inductive AiSessionHierarchyDiagnosticCode :=
| DuplicateProviderIdentity | OrphanParent | CrossAgentParent | CrossInstanceParent | SelfParent | Cycle.

Record AiSessionHierarchyDiagnostic := Diagnostic {
  dg_sessionId : jsstring;
  dg_code : AiSessionHierarchyDiagnosticCode;
  dg_parentProviderSessionId : option jsstring
}.

Record AiSessionTreeNode := TreeNode {
  tn_session : AiSessionHierarchyRecord;
  tn_parentSessionId : option jsstring;
  tn_children : list nat;
  tn_aggregateUpdatedAt : jsstring;
  tn_aggregateLastActiveAt : jsstring
}.

(** The nodes by reference, the references of the roots and by session id. *)
Record AiSessionForest := Forest {
  fo_nodes : list AiSessionTreeNode;
  fo_roots : list nat;
  fo_nodesById : jsmap jsstring nat;
  fo_diagnostics : list AiSessionHierarchyDiagnostic
}.

Inductive AiSessionForestOrder := ByUpdatedAt | ByLastUserMessage.

Definition nul : N := 0.
Definition or_empty (o : option jsstring) : jsstring := default [] o.

(** The provider's identifier of the parent of a subagent. *)
Definition subagent_parent (session : AiSessionHierarchyRecord) : option jsstring :=
  match hr_lineage session with Some (LineageSubagent parent) => Some parent | _ => None end.
Definition lineage_parent (session : AiSessionHierarchyRecord) : option jsstring :=
  match hr_lineage session with
  | Some (LineageSubagent parent) | Some (LineageFork parent _) => Some parent
  | None => None
  end.

Definition identityKey (instanceId : option jsstring) (agent : jsstring) (providerSessionId : option jsstring) : jsstring :=
  or_empty instanceId ++ nul :: agent ++ nul :: or_empty providerSessionId.

Section Hierarchy.
Context (Date_parse : jsstring -> option Z) (localeCompare : jsstring -> jsstring -> Z).

Definition timestamp (value : option jsstring) : Z :=
  match value with
  | Some v => if truthy v then default 0%Z (Date_parse v) else 0%Z
  | None => 0%Z
  end.

Definition latestTimestamp (left right : jsstring) : jsstring :=
  if (timestamp (Some left) <? timestamp (Some right))%Z then right else left.

Definition stableHierarchyKey (session : AiSessionHierarchyRecord) : jsstring :=
  or_empty (hr_instanceId session) ++ nul :: hr_agent session ++ nul ::
  default (hr_id session) (oor (hr_providerSessionId session) None) ++ nul :: hr_id session.

Definition ownLastActiveAt (session : AiSessionHierarchyRecord) : jsstring :=
  if (timestamp (Some (hr_updatedAt session)) <? timestamp (hr_completedAt session))%Z
  then or_empty (hr_completedAt session) else hr_updatedAt session.

(** ** Deriving the forest *)

Definition new_node (session : AiSessionHierarchyRecord) : AiSessionTreeNode :=
  TreeNode session None [] (hr_updatedAt session) (ownLastActiveAt session).

(** [new Map(nodes.map((node, index) => [node.session.id, index]))]. *)
Definition index_ids (sessions : list AiSessionHierarchyRecord) : jsmap jsstring nat :=
  foldl (fun m '(i, s) => mset (hr_id s) i m) [] (imap pair sessions).

(** The nodes by identity - the first of each - and by provider's identifier. *)
Record identity_index := IdentityIndex {
  ix_diagnostics : list AiSessionHierarchyDiagnostic;
  ix_byIdentity : jsmap jsstring AiSessionHierarchyRecord;
  ix_byProviderId : jsmap jsstring (list AiSessionHierarchyRecord)
}.

Definition index_identity (ix : identity_index) (session : AiSessionHierarchyRecord) : identity_index :=
  match hr_providerSessionId session with
  | None => ix
  | Some provider =>
      if truthy provider then
        let key := identityKey (hr_instanceId session) (hr_agent session) (Some provider) in
        let taken := mhas key (ix_byIdentity ix) in
        IdentityIndex
          (if taken then ix_diagnostics ix ++ [Diagnostic (hr_id session) DuplicateProviderIdentity None] else ix_diagnostics ix)
          (if taken then ix_byIdentity ix else mset key session (ix_byIdentity ix))
          (mset provider (default [] (mget provider (ix_byProviderId ix)) ++ [session]) (ix_byProviderId ix))
      else ix
  end.

Definition index_identities (sessions : list AiSessionHierarchyRecord) : identity_index :=
  foldl index_identity (IdentityIndex [] [] []) sessions.

(** Why a named parent was not found. *)
Definition missing_parent_code (session : AiSessionHierarchyRecord) (sameProvider : list AiSessionHierarchyRecord)
  : AiSessionHierarchyDiagnosticCode :=
  if existsb (fun c => negb (bool_decide (hr_instanceId c = hr_instanceId session))) sameProvider then CrossInstanceParent
  else if existsb (fun c => negb (bool_decide (hr_agent c = hr_agent session))) sameProvider then CrossAgentParent
  else OrphanParent.

Definition candidate_parent (ix : identity_index)
    (st : list AiSessionHierarchyDiagnostic * jsmap jsstring jsstring) (session : AiSessionHierarchyRecord)
  : list AiSessionHierarchyDiagnostic * jsmap jsstring jsstring :=
  let '(diagnostics, candidateParents) := st in
  match subagent_parent session with
  | None => st
  | Some parentProvider =>
      match mget (identityKey (hr_instanceId session) (hr_agent session) (Some parentProvider)) (ix_byIdentity ix) with
      | None =>
          (diagnostics ++ [Diagnostic (hr_id session)
             (missing_parent_code session (default [] (mget parentProvider (ix_byProviderId ix)))) (Some parentProvider)],
           candidateParents)
      | Some parent =>
          if decide (hr_id parent = hr_id session)
          then (diagnostics ++ [Diagnostic (hr_id session) SelfParent (Some parentProvider)], candidateParents)
          else (diagnostics, mset (hr_id session) (hr_id parent) candidateParents)
      end
  end.

(** *** Cycles *)

(** The walk from a session up its candidate parents: the path walked, and
    the part of it that is a cycle when the walk came back to it. *)
Fixpoint walk (fuel : nat) (candidateParents : jsmap jsstring jsstring) (complete : list jsstring)
    (path : list jsstring) (position : jsmap jsstring nat) (current : option jsstring) : option (list jsstring * list jsstring) :=
  match fuel with
  | 0 => None
  | S fuel =>
      match current with
      | Some current =>
          if truthy current && negb (bool_decide (current ∈ complete)) then
            match mget current position with
            | Some seenAt => Some (path, drop seenAt path)
            | None => walk fuel candidateParents complete (path ++ [current]) (mset current (length path) position)
                        (mget current candidateParents)
            end
          else Some (path, [])
      | None => Some (path, [])
      end
  end.

(** The sessions on cycles, by walks from every session. *)
Fixpoint find_cycles (fuel : nat) (candidateParents : jsmap jsstring jsstring) (sessions : list AiSessionHierarchyRecord)
    (complete cycleMembers : list jsstring) : option (list jsstring) :=
  match sessions with
  | [] => Some cycleMembers
  | session :: sessions =>
      if decide (hr_id session ∈ complete) then find_cycles fuel candidateParents sessions complete cycleMembers
      else
        '(path, cycle) ← walk fuel candidateParents complete [] [] (Some (hr_id session));
        find_cycles fuel candidateParents sessions (js_add_all path complete) (js_add_all cycle cycleMembers)
  end.

Definition cycle_diagnostic (sessions : list AiSessionHierarchyRecord) (nodesById : jsmap jsstring nat) (sessionId : jsstring)
  : AiSessionHierarchyDiagnostic :=
  Diagnostic sessionId Cycle (ref ← mget sessionId nodesById; session ← sessions !! ref; lineage_parent session).

(** *** Trees *)

(** A node is attached to its parent, or becomes a root. *)
Definition attach (candidateParents : jsmap jsstring jsstring) (nodesById : jsmap jsstring nat)
    (st : list AiSessionTreeNode * list nat) (ref : nat) : list AiSessionTreeNode * list nat :=
  let '(heap, roots) := st in
  match heap !! ref with
  | None => st
  | Some node =>
      let parent :=
        match mget (hr_id (tn_session node)) candidateParents with
        | Some parentId => if truthy parentId then mget parentId nodesById else None
        | None => None
        end in
      match parent with
      | None => (heap, roots ++ [ref])
      | Some parent =>
          let parentId := (fun p => hr_id (tn_session p)) <$> heap !! parent in
          let heap := alter (fun n => TreeNode (tn_session n) parentId (tn_children n) (tn_aggregateUpdatedAt n)
                                        (tn_aggregateLastActiveAt n)) ref heap in
          (alter (fun n => TreeNode (tn_session n) (tn_parentSessionId n) (tn_children n ++ [ref]) (tn_aggregateUpdatedAt n)
                             (tn_aggregateLastActiveAt n)) parent heap, roots)
      end
  end.

Definition children_of (heap : list AiSessionTreeNode) (ref : nat) : list nat :=
  match heap !! ref with Some node => tn_children node | None => [] end.

(** The loop over the stack of visits, the top of the stack first. *)
Fixpoint postorder_loop (fuel : nat) (children : nat -> list nat) (stack : list (nat * bool)) (postorder : list nat)
  : option (list nat) :=
  match stack with
  | [] => Some postorder
  | (ref, visited) :: stack =>
      match fuel with
      | 0 => None
      | S fuel =>
          if visited : bool then postorder_loop fuel children stack (postorder ++ [ref])
          else postorder_loop fuel children
                 (((fun child => (child, false)) <$> reverse (children ref)) ++ (ref, true) :: stack) postorder
      end
  end.

Definition hierarchyOrderTime (orderBy : option AiSessionForestOrder) (node : AiSessionTreeNode) : Z :=
  match orderBy with
  | Some ByLastUserMessage => timestamp (hr_lastUserMessageAt (tn_session node))
  | _ => timestamp (Some (tn_aggregateUpdatedAt node))
  end.

Definition hierarchyOrderFallback (orderBy : option AiSessionForestOrder) (indexById : jsmap jsstring nat)
    (left right : AiSessionTreeNode) : Z :=
  match orderBy with
  | Some ByLastUserMessage => localeCompare (stableHierarchyKey (tn_session left)) (stableHierarchyKey (tn_session right))
  | _ => Z.of_nat (default 0 (mget (hr_id (tn_session left)) indexById))
         - Z.of_nat (default 0 (mget (hr_id (tn_session right)) indexById))
  end.

(** The comparison of two siblings, and of two roots. *)
Definition compare_siblings (orderBy : option AiSessionForestOrder) (indexById : jsmap jsstring nat)
    (heap : list AiSessionTreeNode) (left right : nat) : Z :=
  match heap !! left, heap !! right with
  | Some l, Some r =>
      let byTime := (hierarchyOrderTime orderBy r - hierarchyOrderTime orderBy l)%Z in
      if decide (byTime = 0)%Z then hierarchyOrderFallback orderBy indexById l r else byTime
  | _, _ => 0%Z
  end.

(** A node takes over the latest times of its children, which are sorted. *)
Definition aggregate (orderBy : option AiSessionForestOrder) (indexById : jsmap jsstring nat)
    (heap : list AiSessionTreeNode) (ref : nat) : list AiSessionTreeNode :=
  match heap !! ref with
  | None => heap
  | Some node =>
      let latest (f : AiSessionTreeNode -> jsstring) :=
        foldl (fun at_ child => match heap !! child with Some c => latestTimestamp at_ (f c) | None => at_ end) (f node)
          (tn_children node) in
      let heap := <[ref := TreeNode (tn_session node) (tn_parentSessionId node) (tn_children node)
                             (latest tn_aggregateUpdatedAt) (latest tn_aggregateLastActiveAt)]> heap in
      alter (fun n => TreeNode (tn_session n) (tn_parentSessionId n)
                        (js_sort (compare_siblings orderBy indexById heap) (tn_children n))
                        (tn_aggregateUpdatedAt n) (tn_aggregateLastActiveAt n)) ref heap
  end.

Definition deriveAiSessionForest (fuel : nat) (orderBy : option AiSessionForestOrder)
    (sessions : list AiSessionHierarchyRecord) : option AiSessionForest :=
  let nodesById := index_ids sessions in
  let ix := index_identities sessions in
  let '(diagnostics, candidateParents) := foldl (candidate_parent ix) (ix_diagnostics ix, []) sessions in
  cycleMembers ← find_cycles fuel candidateParents sessions [] [];
  let candidateParents := foldl (fun m id => mdelete id m) candidateParents cycleMembers in
  let diagnostics := diagnostics ++ (cycle_diagnostic sessions nodesById <$> cycleMembers) in
  let '(heap, roots) := foldl (attach candidateParents nodesById) (new_node <$> sessions, []) (seq 0 (length sessions)) in
  postorder ← postorder_loop fuel (children_of heap) ((fun ref => (ref, false)) <$> reverse roots) [];
  let heap := foldl (aggregate orderBy nodesById) heap postorder in
  Some (Forest heap (js_sort (compare_siblings orderBy nodesById heap) roots) nodesById diagnostics).

(** ** Reading the forest *)

Definition node_at (forest : AiSessionForest) (sessionId : jsstring) : option AiSessionTreeNode :=
  mget sessionId (fo_nodesById forest) ≫= fun ref => fo_nodes forest !! ref.

Definition aiSessionSubtreePostorder (fuel : nat) (forest : AiSessionForest) (sessionId : jsstring) : option (list nat) :=
  match mget sessionId (fo_nodesById forest) with
  | None => Some []
  | Some root => postorder_loop fuel (children_of (fo_nodes forest)) [(root, false)] []
  end.

(** The parent id a node refers to; the empty string ends the walk. *)
Definition parent_link (node : AiSessionTreeNode) : option jsstring := oor (tn_parentSessionId node) None.

Fixpoint root_loop (fuel : nat) (forest : AiSessionForest) (node : option AiSessionTreeNode) : option (option AiSessionTreeNode) :=
  match node ≫= parent_link with
  | None => Some node
  | Some parentId =>
      match fuel with 0 => None | S fuel => root_loop fuel forest (node_at forest parentId) end
  end.

Definition aiSessionRootNode (fuel : nat) (forest : AiSessionForest) (sessionId : jsstring) : option (option AiSessionTreeNode) :=
  root_loop fuel forest (node_at forest sessionId).

Definition is_subagent (session : AiSessionHierarchyRecord) : bool :=
  match hr_lineage session with Some (LineageSubagent _) => true | _ => false end.

Definition root_sessions (forest : AiSessionForest) : list AiSessionTreeNode :=
  omap (fun ref => fo_nodes forest !! ref) (fo_roots forest).

Definition countAiSessionRootTrees (forest : AiSessionForest) : nat :=
  length (filter (fun node => is_subagent (tn_session node) = false) (root_sessions forest)).

(** The ancestors of a matching session become visible and expanded. *)
Fixpoint reveal_ancestors (fuel : nat) (forest : AiSessionForest) (current : AiSessionTreeNode)
    (filter_ : list jsstring * list jsstring) : option (list jsstring * list jsstring) :=
  match parent_link current with
  | None => Some filter_
  | Some parentId =>
      match node_at forest parentId with
      | None => Some filter_
      | Some parent =>
          match fuel with
          | 0 => None
          | S fuel =>
              let id := hr_id (tn_session parent) in
              reveal_ancestors fuel forest parent (js_add id filter_.1, js_add id filter_.2)
          end
      end
  end.

Fixpoint filter_nodes (fuel : nat) (forest : AiSessionForest) (predicate : AiSessionHierarchyRecord -> bool)
    (refs : list nat) (filter_ : list jsstring * list jsstring) : option (list jsstring * list jsstring) :=
  match refs with
  | [] => Some filter_
  | ref :: refs =>
      match fo_nodes forest !! ref with
      | Some node =>
          if predicate (tn_session node) then
            filter_ ← reveal_ancestors fuel forest node (js_add (hr_id (tn_session node)) filter_.1, filter_.2);
            filter_nodes fuel forest predicate refs filter_
          else filter_nodes fuel forest predicate refs filter_
      | None => filter_nodes fuel forest predicate refs filter_
      end
  end.

(** The visible and the expanded sessions. *)
Definition filterAiSessionForest (fuel : nat) (forest : AiSessionForest) (predicate : AiSessionHierarchyRecord -> bool)
  : option (list jsstring * list jsstring) :=
  filter_nodes fuel forest predicate (mvalues (fo_nodesById forest)) ([], []).

Fixpoint ancestors_loop (fuel : nat) (forest : AiSessionForest) (node : option AiSessionTreeNode) (ancestors : list jsstring)
  : option (list jsstring) :=
  match node ≫= parent_link with
  | None => Some ancestors
  | Some parentId =>
      match fuel with 0 => None | S fuel => ancestors_loop fuel forest (node_at forest parentId) (ancestors ++ [parentId]) end
  end.

Definition aiSessionAncestorIds (fuel : nat) (forest : AiSessionForest) (sessionId : option jsstring) : option (list jsstring) :=
  ancestors_loop fuel forest (sessionId ← oor sessionId None; node_at forest sessionId) [].

(** The rows of the tree view: a visible node, then its children when it is
    expanded. *)
Fixpoint flatten_loop (fuel : nat) (forest : AiSessionForest) (visible : jsstring -> bool) (expanded : jsstring -> bool)
    (stack entries : list (nat * nat)) : option (list (nat * nat)) :=
  match stack with
  | [] => Some entries
  | (ref, depth) :: stack =>
      match fuel with
      | 0 => None
      | S fuel =>
          match fo_nodes forest !! ref with
          | None => flatten_loop fuel forest visible expanded stack entries
          | Some node =>
              let id := hr_id (tn_session node) in
              if negb (visible id) then flatten_loop fuel forest visible expanded stack entries
              else
                let entries := entries ++ [(ref, depth)] in
                if negb (expanded id) then flatten_loop fuel forest visible expanded stack entries
                else flatten_loop fuel forest visible expanded
                       (((fun child => (child, S depth)) <$> tn_children node) ++ stack) entries
          end
      end
  end.

Definition in_set (ids : option (list jsstring)) (id : jsstring) : bool :=
  match ids with Some ids => bool_decide (id ∈ ids) | None => false end.

Definition flattenAiSessionForest (fuel : nat) (forest : AiSessionForest)
    (expandedSessionIds forcedExpandedSessionIds visibleSessionIds : option (list jsstring)) : option (list (nat * nat)) :=
  flatten_loop fuel forest
    (fun id => match visibleSessionIds with Some _ => in_set visibleSessionIds id | None => true end)
    (fun id => in_set expandedSessionIds id || in_set forcedExpandedSessionIds id)
    ((fun ref => (ref, 0)) <$> fo_roots forest) [].

(** *** Retention *)

Record AiSessionRetentionCandidate := RetentionCandidate {
  rc_root : AiSessionHierarchyRecord;
  rc_sessionIds : list jsstring;
  rc_lastActiveAt : jsstring
}.

Definition isIdle (session : AiSessionHierarchyRecord) : bool := bool_decide (hr_status session = Some LcIdle).

Definition sessions_at (forest : AiSessionForest) (refs : list nat) : list AiSessionHierarchyRecord :=
  tn_session <$> omap (fun ref => fo_nodes forest !! ref) refs.

Definition root_candidate (fuel : nat) (forest : AiSessionForest) (idle : AiSessionHierarchyRecord -> bool) (root : AiSessionTreeNode)
  : option (list AiSessionRetentionCandidate) :=
  if is_subagent (tn_session root) then Some []
  else
    refs ← aiSessionSubtreePostorder fuel forest (hr_id (tn_session root));
    let sessions := sessions_at forest refs in
    Some (if forallb idle sessions
          then [RetentionCandidate (tn_session root) (hr_id <$> sessions) (tn_aggregateLastActiveAt root)]
          else []).

Fixpoint root_candidates (fuel : nat) (forest : AiSessionForest) (idle : AiSessionHierarchyRecord -> bool)
    (roots : list AiSessionTreeNode) : option (list AiSessionRetentionCandidate) :=
  match roots with
  | [] => Some []
  | root :: roots =>
      candidates ← root_candidate fuel forest idle root;
      rest ← root_candidates fuel forest idle roots;
      Some (candidates ++ rest)
  end.

Definition aiSessionRetentionCandidates (fuel : nat) (forest : AiSessionForest) (idle : AiSessionHierarchyRecord -> bool)
  : option (list AiSessionRetentionCandidate) :=
  js_sort (fun left right => timestamp (Some (rc_lastActiveAt left)) - timestamp (Some (rc_lastActiveAt right)))%Z
    <$> root_candidates fuel forest idle (root_sessions forest).
End Hierarchy.
