(* ===== verification/HierarchyTrees.v ===== *)
(** * Forests and cycles

    Facts about [HierarchySpec]'s forests that do not mention sessions.  Given
    by a parent function, where nodes are the numbers below [n] and a rank
    falls from child to parent, the visiting loop of [Hierarchy] ends, and
    lists the nodes of a subtree, each once, children before parents.  Given
    by links, the walks of [Hierarchy] find the cycles. *)

From S2P Require Export Hierarchy.

Section Trees.
Context (n : nat) (parent : nat -> option nat) (rank : nat -> nat) (bound : nat).
Hypothesis parent_below : forall i p, i < n -> parent i = Some p -> p < n.
Hypothesis parent_rank : forall i p, i < n -> parent i = Some p -> rank p < rank i.
Hypothesis rank_bound : forall i, i < n -> rank i <= bound.

(** A node is below another. *)
Definition below : nat -> nat -> Prop := rtc (fun i p => i < n /\ parent i = Some p).

Lemma below_rank i j : below i j -> i = j \/ rank j < rank i.
Proof.
  induction 1 as [i|i p j [Hi Hp] _ IH]; [by left|]. right. pose proof (parent_rank _ _ Hi Hp). destruct IH as [<-|IH]; lia.
Qed.

Lemma below_lt i j : below i j -> i < n -> j < n.
Proof. induction 1 as [i|i p j [Hi Hp] _ IH]; eauto. Qed.

(** Two nodes above one are above each other. *)
Lemma below_comparable i a b : below i a -> below i b -> below a b \/ below b a.
Proof.
  induction 1 as [i|i p a [Hi Hp] Hpa IH]; intros Hb; [by left|].
  apply rtc_inv in Hb as [<-|(q & [_ Hq] & Hb)]; [right; by eapply rtc_l|].
  replace q with p in * by congruence. by apply IH.
Qed.

Lemma siblings_apart i a b p :
  a < n -> b < n -> parent a = p -> parent b = p -> below i a -> below i b -> a = b.
Proof.
  assert (H : forall a b, a < n -> parent a = parent b -> below a b -> a = b).
  { intros x y Hx Heq Hxy. apply rtc_inv in Hxy as [?|(q & [_ Hq] & Hqy)]; [done|].
    destruct (decide (y < n)) as [Hy|Hy]; [|destruct Hy; eapply below_lt; [exact Hqy|by eapply parent_below]].
    rewrite Hq in Heq. symmetry in Heq. pose proof (parent_rank _ _ Hy Heq). apply below_rank in Hqy as [<-|]; lia. }
  intros Ha Hb Hpa Hpb Hia Hib. destruct (below_comparable _ _ _ Hia Hib) as [Hab|Hba]; [|symmetry]; apply H; congruence.
Qed.

(** Every node is below a root. *)
Lemma root_above i : i < n -> exists r, below i r /\ r < n /\ parent r = None.
Proof.
  remember (rank i) as k eqn:Hk. revert i Hk. induction k as [k IH] using lt_wf_ind; intros i -> Hi.
  destruct (parent i) as [p|] eqn:Hp; [|by exists i; split; [constructor|]].
  pose proof (parent_rank _ _ Hi Hp) as Hlt.
  destruct (IH _ Hlt p eq_refl) as (r & Hpr & Hr); [by eapply parent_below|]. exists r. split; [|done]. by eapply rtc_l.
Qed.

(** The way from a node up to its root, the node itself left out. *)
Inductive climbs : nat -> list nat -> Prop :=
| climbs_root i (Hi : parent i = None) : climbs i []
| climbs_up i p path (Hi : parent i = Some p) (Hp : climbs p path) : climbs i (p :: path).

Lemma climbs_facts i path : i < n -> climbs i path -> NoDup (i :: path) /\ Forall (fun j => j < n /\ rank j < rank i) path.
Proof.
  intros Hi Hc. revert Hi. induction Hc as [i Hi|i p path Hp Hc IH]; intros Hlt; [by split; [apply NoDup_singleton|]|].
  destruct IH as [Hnd Hall]; [by eapply parent_below|]. pose proof (parent_rank _ _ Hlt Hp) as Hr. pose proof (parent_below _ _ Hlt Hp).
  assert (Hall' : Forall (fun j => j < n /\ rank j < rank i) (p :: path)).
  { constructor; [done|]. eapply Forall_impl; [exact Hall|]. simpl. intros j [? ?]. split; [done|lia]. }
  split; [|done]. apply NoDup_cons. split; [|done]. intros Hin. eapply Forall_forall in Hall' as [_ Hlt']; [|exact Hin]. lia.
Qed.

Lemma climbs_total i : i < n -> exists path, climbs i path /\ length path < n.
Proof.
  intros Hi. assert (Hex : exists path, climbs i path).
  { remember (rank i) as k eqn:Hk. revert i Hk Hi. induction k as [k IH] using lt_wf_ind; intros i -> Hi.
    destruct (parent i) as [p|] eqn:Hp; [|by exists []; constructor].
    destruct (IH (rank p) (parent_rank _ _ Hi Hp) p eq_refl) as [path Hpath]; [by eapply parent_below|].
    exists (p :: path). by constructor. }
  destruct Hex as [path Hpath]. exists path. split; [done|]. destruct (climbs_facts _ _ Hi Hpath) as [Hnd Hall].
  assert (Hle : length (i :: path) <= length (seq 0 n)).
  { apply submseteq_length, NoDup_submseteq; [done|]. intros j. rewrite elem_of_seq. intros [-> |Hj]%elem_of_cons; [lia|].
    eapply Forall_forall in Hall as [? _]; [|exact Hj]. lia. }
  rewrite length_seq in Hle. simpl in Hle. lia.
Qed.

(** ** Children *)

Context (children : nat -> list nat).
Hypothesis children_perm : forall i, i < n -> children i ≡ₚ filter (fun c => parent c = Some i) (seq 0 n).

Lemma elem_of_children i c : i < n -> c ∈ children i <-> c < n /\ parent c = Some i.
Proof. intros Hi. rewrite children_perm by done. rewrite list_elem_of_filter, elem_of_seq. intuition lia. Qed.

Lemma NoDup_children i : i < n -> NoDup (children i).
Proof. intros Hi. rewrite children_perm by done. apply NoDup_filter, NoDup_seq. Qed.

(** The visit of a subtree; the last child first, as the stack pops it. *)
Fixpoint visit (fuel : nat) (i : nat) : list nat :=
  match fuel with 0 => [] | S fuel => (reverse (children i) ≫= visit fuel) ++ [i] end.
Definition subtree (i : nat) : list nat := visit (S (bound - rank i)) i.

Lemma visit_fuel fuel fuel' i : i < n -> bound - rank i < fuel -> bound - rank i < fuel' -> visit fuel i = visit fuel' i.
Proof.
  revert fuel' i. induction fuel as [|fuel IH]; intros [|fuel'] i Hi H1 H2; try lia. simpl. f_equal.
  assert (Hc : forall c, c ∈ reverse (children i) -> visit fuel c = visit fuel' c).
  { intros c Hc. apply elem_of_reverse, elem_of_children in Hc as [Hc Hp]; [|done].
    pose proof (parent_rank _ _ Hc Hp). pose proof (rank_bound _ Hc). apply IH; lia. }
  revert Hc. induction (reverse (children i)) as [|c l IHl]; intros Hc; simpl; [done|].
  rewrite (Hc c) by left. f_equal. apply IHl. intros c' Hc'. apply Hc. by right.
Qed.

Lemma subtree_eq i : i < n -> subtree i = (reverse (children i) ≫= subtree) ++ [i].
Proof.
  intros Hi. unfold subtree at 1. simpl. f_equal.
  assert (Hc : forall c, c ∈ reverse (children i) -> visit (bound - rank i) c = subtree c).
  { intros c Hc. apply elem_of_reverse, elem_of_children in Hc as [Hc Hp]; [|done].
    pose proof (parent_rank _ _ Hc Hp). pose proof (rank_bound _ Hc). apply visit_fuel; lia. }
  revert Hc. induction (reverse (children i)) as [|c l IHl]; intros Hc; simpl; [done|].
  rewrite (Hc c) by left. f_equal. apply IHl. intros c' Hc'. apply Hc. by right.
Qed.

(** Induction from the leaves. *)
Lemma leaf_ind (P : nat -> Prop) :
  (forall i, i < n -> (forall c, c < n -> parent c = Some i -> P c) -> P i) -> forall i, i < n -> P i.
Proof.
  intros HP i. remember (bound - rank i) as k eqn:Hk. revert i Hk.
  induction k as [k IH] using lt_wf_ind; intros i -> Hi. apply HP; [done|]. intros c Hc Hp.
  pose proof (parent_rank _ _ Hc Hp). pose proof (rank_bound _ Hc). eapply (IH (bound - rank c)); [lia|done|done].
Qed.

Lemma elem_of_subtree i j : i < n -> j ∈ subtree i <-> j < n /\ below j i.
Proof.
  intros Hi. revert i Hi j. refine (leaf_ind _ _). intros i Hi IH j. rewrite subtree_eq by done.
  rewrite elem_of_app, list_elem_of_bind, list_elem_of_singleton. split.
  - intros [(c & Hj & Hc)| -> ]; [|by split; [|constructor]].
    apply elem_of_reverse, elem_of_children in Hc as [Hc Hp]; [|done]. apply IH in Hj as [Hj Hb]; [|done|done].
    split; [done|]. by eapply rtc_r.
  - intros [Hj Hb]. apply rtc_inv_r in Hb as [-> |(c & Hjc & [Hc Hp])]; [by right|]. left. exists c.
    split; [by apply IH|]. apply elem_of_reverse. by apply elem_of_children.
Qed.

Lemma NoDup_subtree i : i < n -> NoDup (subtree i).
Proof.
  revert i. refine (leaf_ind _ _). intros i Hi IH. rewrite subtree_eq by done. apply NoDup_app. split_and!.
  - apply NoDup_bind.
    + intros a b x Ha Hb Hxa Hxb.
      apply elem_of_reverse, elem_of_children in Ha as [Ha Hpa]; [|done].
      apply elem_of_reverse, elem_of_children in Hb as [Hb Hpb]; [|done].
      apply elem_of_subtree in Hxa as [_ Hxa]; [|done]. apply elem_of_subtree in Hxb as [_ Hxb]; [|done].
      eapply siblings_apart; [exact Ha|exact Hb|exact Hpa|exact Hpb|done|done].
    + intros c Hc. apply elem_of_reverse, elem_of_children in Hc as [Hc Hp]; [|done]. by apply IH.
    + rewrite reverse_Permutation. by apply NoDup_children.
  - intros x Hx ->%list_elem_of_singleton. apply list_elem_of_bind in Hx as (c & Hx & Hc).
    apply elem_of_reverse, elem_of_children in Hc as [Hc Hp]; [|done]. apply elem_of_subtree in Hx as [_ Hx]; [|done].
    pose proof (parent_rank _ _ Hc Hp). apply below_rank in Hx as [-> |]; lia.
  - apply NoDup_singleton.
Qed.

(** The subtrees of the roots partition the nodes. *)
Lemma forest_partition roots :
  roots ≡ₚ filter (fun r => parent r = None) (seq 0 n) -> roots ≫= subtree ≡ₚ seq 0 n.
Proof.
  intros Hroots.
  assert (Hr : forall r, r ∈ roots <-> r < n /\ parent r = None).
  { intros r. rewrite Hroots, list_elem_of_filter, elem_of_seq. intuition lia. }
  apply NoDup_Permutation.
  - apply NoDup_bind.
    + intros a b x [Ha Hpa]%Hr [Hb Hpb]%Hr Hxa Hxb.
      apply elem_of_subtree in Hxa as [_ Hxa]; [|done]. apply elem_of_subtree in Hxb as [_ Hxb]; [|done].
      eapply siblings_apart; [exact Ha|exact Hb|exact Hpa|exact Hpb|done|done].
    + intros r [Hr' _]%Hr. by apply NoDup_subtree.
    + rewrite Hroots. apply NoDup_filter, NoDup_seq.
  - apply NoDup_seq.
  - intros j. rewrite list_elem_of_bind, elem_of_seq. split.
    + intros (r & Hj & [Hr' _]%Hr). apply elem_of_subtree in Hj as [? _]; [lia|done].
    + intros [_ Hj]. destruct (root_above j) as (r & Hb & Hlt & Hp); [lia|]. exists r.
      split; [apply elem_of_subtree; [done|]; split; [lia|done]|by apply Hr].
Qed.

(** ** The loop *)

Lemma loop_children fuel cs stack acc :
  (forall c, c ∈ cs -> forall fuel stack acc,
     postorder_loop (2 * length (subtree c) + fuel) children ((c, false) :: stack) acc
     = postorder_loop fuel children stack (acc ++ subtree c)) ->
  postorder_loop (2 * length (cs ≫= subtree) + fuel) children (((fun c => (c, false)) <$> cs) ++ stack) acc
  = postorder_loop fuel children stack (acc ++ (cs ≫= subtree)).
Proof.
  revert acc. induction cs as [|c cs IH]; intros acc Hc; [simpl; by rewrite app_nil_r|].
  rewrite fmap_cons, bind_cons, length_app. cbn [app].
  replace (2 * (length (subtree c) + length (cs ≫= subtree)) + fuel)
    with (2 * length (subtree c) + (2 * length (cs ≫= subtree) + fuel)) by lia.
  rewrite Hc by left. rewrite IH by (intros c' Hc'; apply Hc; by right). by rewrite app_assoc.
Qed.

Lemma loop_subtree i : i < n -> forall fuel stack acc,
  postorder_loop (2 * length (subtree i) + fuel) children ((i, false) :: stack) acc
  = postorder_loop fuel children stack (acc ++ subtree i).
Proof.
  revert i. refine (leaf_ind _ _). intros i Hi IH fuel stack acc. rewrite subtree_eq by done. rewrite length_app. simpl length.
  replace (2 * (length (reverse (children i) ≫= subtree) + 1) + fuel)
    with (S (2 * length (reverse (children i) ≫= subtree) + S fuel)) by lia.
  cbn [postorder_loop]. rewrite loop_children.
  - simpl. by rewrite app_assoc.
  - intros c Hc. apply elem_of_reverse, elem_of_children in Hc as [Hc Hp]; [|done]. by apply IH.
Qed.

Lemma loop_trees fuel cs stack acc :
  Forall (fun c => c < n) cs ->
  postorder_loop (2 * length (cs ≫= subtree) + fuel) children (((fun c => (c, false)) <$> cs) ++ stack) acc
  = postorder_loop fuel children stack (acc ++ (cs ≫= subtree)).
Proof. intros Hcs. apply loop_children. intros c Hc. apply loop_subtree. by eapply Forall_forall in Hcs. Qed.

(** Children come before their parents. *)
Lemma subtree_children_first i j l1 l2 c :
  i < n -> subtree i = l1 ++ j :: l2 -> c < n -> parent c = Some j -> c ∈ l1.
Proof.
  intros Hi. revert i Hi j l1 l2 c. refine (leaf_ind _ _). intros i Hi IH j l1 l2 c Hsub Hc Hp.
  rewrite subtree_eq in Hsub by done.
  assert (Hcase : (l2 = [] /\ j = i /\ l1 = reverse (children i) ≫= subtree)
                  \/ exists l3, l2 = l3 ++ [i] /\ (reverse (children i) ≫= subtree) = l1 ++ j :: l3).
  { destruct l2 as [|x l2 _] using rev_ind.
    - left. apply app_inj_tail in Hsub as [-> ->]. done.
    - right. exists l2. rewrite app_comm_cons, app_assoc in Hsub. apply app_inj_tail in Hsub as [Hsub <-]. done. }
  destruct Hcase as [(-> & -> & ->)|(l3 & -> & Hl)].
  - apply list_elem_of_bind. exists c. split; [apply elem_of_subtree; [done|by split; [|constructor]]|].
    apply elem_of_reverse. by apply elem_of_children.
  - clear Hsub. assert (Hkids : forall d, d ∈ reverse (children i) -> d < n /\ parent d = Some i).
    { intros d Hd. by apply elem_of_reverse, elem_of_children in Hd. }
    revert l1 Hl Hkids. induction (reverse (children i)) as [|d ds IHd]; intros l1 Hl Hkids; [by destruct l1|].
    simpl in Hl. destruct (Hkids d) as [Hd Hpd]; [by left|].
    apply app_eq_app in Hl as (k & [[Hsd Hk]|[-> Hk]]).
    + destruct k as [|x k]; simplify_eq/=.
      * specialize (IHd [] (eq_sym Hk) ltac:(intros; apply Hkids; by right)). by apply not_elem_of_nil in IHd.
      * by eapply (IH d).
    + apply elem_of_app. right. eapply IHd; [exact Hk|]. intros; apply Hkids; by right.
Qed.

Lemma forest_children_first roots j l1 l2 c :
  Forall (fun r => r < n) roots -> roots ≫= subtree = l1 ++ j :: l2 -> c < n -> parent c = Some j -> c ∈ l1.
Proof.
  intros Hr Hl Hc Hp. revert l1 Hl. induction Hr as [|d ds Hd Hds IHd]; intros l1 Hl; [by destruct l1|]. simpl in Hl.
  apply app_eq_app in Hl as (k & [[Hsd Hk]|[-> Hk]]).
  + destruct k as [|x k]; simplify_eq/=.
    * specialize (IHd [] (eq_sym Hk)). by apply not_elem_of_nil in IHd.
    * by eapply (subtree_children_first d).
  + apply elem_of_app. right. by eapply IHd.
Qed.
End Trees.

(** ** Cycles of parent links

    The walks of [Hierarchy] find the sessions on cycles: with enough fuel for
    the sessions there are they end, what they collect is exactly what lies on
    a cycle, and without the collected sessions the links fall in rank. *)

Section Cycles.
Context (links : jsmap jsstring jsstring) (ids : list jsstring).
Hypothesis links_ids : forall x y, mget x links = Some y -> y ∈ ids.

(** Each element is linked to the next. *)
Definition chain (l : list jsstring) : Prop :=
  forall i x y, l !! i = Some x -> l !! S i = Some y -> mget x links = Some y.

(** A cycle: the last element is linked to the first. *)
Definition cycle (c : list jsstring) : Prop :=
  chain c /\ (exists x y, head c = Some y /\ last c = Some x /\ mget x links = Some y)
  /\ Forall (fun x => truthy x = true) c.

Definition on_cycle (x : jsstring) : Prop := exists c, cycle c /\ x ∈ c.

(** What a walk may still visit. *)
Definition fresh_path (complete path : list jsstring) : Prop :=
  NoDup path /\ chain path /\ Forall (fun x => truthy x = true /\ x ∈ ids /\ x ∉ complete) path.

Definition positions (path : list jsstring) (position : jsmap jsstring nat) : Prop :=
  forall x i, mget x position = Some i <-> path !! i = Some x.

(** How a walk ends: past the sessions, at a session that is complete, or
    back on its own path. *)
Inductive walk_end (complete : list jsstring) (path : list jsstring) : list jsstring -> Prop :=
| walk_past (Hend : forall x y, last path = Some x -> mget x links = Some y -> truthy y = true -> y ∈ complete) :
    walk_end complete path []
| walk_back k x y (Hk : path !! k = Some y) (Hlast : last path = Some x) (Hlink : mget x links = Some y) :
    walk_end complete path (drop k path).

Lemma fresh_path_length complete path : fresh_path complete path -> length path <= length (remove_dups ids).
Proof.
  intros (Hnd & _ & Hall). apply submseteq_length, NoDup_submseteq; [done|]. intros x Hx.
  apply elem_of_remove_dups. by eapply Forall_forall in Hall as (_ & ? & _).
Qed.

Lemma chain_snoc path x : chain path -> (forall z, last path = Some z -> mget z links = Some x) -> chain (path ++ [x]).
Proof.
  intros Hc Hl i a b Ha Hb. destruct (decide (S i < length path)) as [Hi|Hi].
  - rewrite lookup_app_l in Ha, Hb by lia. by eapply Hc.
  - apply lookup_lt_Some in Hb as Hlen. rewrite length_app in Hlen. simpl in Hlen.
    rewrite lookup_app_l in Ha by lia. rewrite lookup_app_r in Hb by lia.
    replace (S i - length path) with 0 in Hb by lia. injection Hb as <-. apply Hl.
    rewrite last_lookup. replace (pred (length path)) with i by lia. done.
Qed.

Lemma positions_snoc path position x : positions path position -> x ∉ path -> positions (path ++ [x]) (mset x (length path) position).
Proof.
  intros Hp Hx y i. rewrite mget_mset. case_decide as Hy.
  - subst. split.
    + intros [= <-]. by rewrite lookup_app_r, Nat.sub_diag by lia.
    + intros H. apply lookup_app_Some in H as [H|[Hi H]].
      * destruct Hx. by eapply list_elem_of_lookup_2.
      * destruct (i - length path) eqn:E; [f_equal; lia|done].
  - rewrite (Hp y i). split; [intros H; by apply lookup_app_l_Some|]. intros H. apply lookup_app_Some in H as [H|[Hi H]]; [done|].
    destruct (i - length path) eqn:E; simpl in H; [congruence|done].
Qed.

Lemma walk_ok fuel complete path position current :
  fresh_path complete path -> positions path position ->
  (forall x, current = Some x -> x ∈ ids /\ forall z, last path = Some z -> mget z links = Some x) ->
  (path <> [] -> current = last path ≫= fun z => mget z links) ->
  length (remove_dups ids) - length path < fuel ->
  exists path' found, walk fuel links complete path position current = Some (path', found)
    /\ fresh_path complete path' /\ walk_end complete path' found
    /\ (forall x, path = [] -> current = Some x -> truthy x = true -> x ∉ complete -> x ∈ path')
    /\ (path `prefix_of` path').
Proof.
  revert path position current. induction fuel as [|fuel IH]; intros path position current Hf Hp Hcur Hnext Hfuel; [lia|].
  simpl. destruct current as [x|].
  2: { exists path, []. split; [done|]. split; [done|]. split; [|done]. constructor. intros z y Hz Hy.
       rewrite Hz in Hnext. simpl in Hnext. rewrite Hy in Hnext. destruct path; [done|]. by specialize (Hnext ltac:(done)). }
  destruct (Hcur x eq_refl) as [Hx Hlink]. destruct (truthy x) eqn:Ht; simpl.
  2: { exists path, []. split; [done|]. split; [done|]. split; [|split; [by intros y _ [= <-]; congruence|done]]. constructor.
       intros z y Hz Hy Hty. specialize (Hlink z Hz). congruence. }
  case_bool_decide as Hin; simpl.
  { exists path, []. split; [done|]. split; [done|]. split; [|split; [by intros y _ [= <-]|done]]. constructor.
    intros z y Hz Hy Hty. specialize (Hlink z Hz). congruence. }
  destruct (mget x position) as [k|] eqn:Hk.
  - exists path, (drop k path). apply Hp in Hk. split; [done|]. split; [done|]. split; [|split; [|done]].
    + destruct (last path) as [z|] eqn:Hz; [|by apply last_None in Hz; subst].
      by eapply walk_back; eauto.
    + intros y -> [= <-]. done.
  - assert (Hnx : x ∉ path).
    { intros [i Hi]%list_elem_of_lookup. apply Hp in Hi. congruence. }
    assert (Hf' : fresh_path complete (path ++ [x])).
    { destruct Hf as (Hnd & Hch & Hall). split; [|split].
      - apply NoDup_app. split_and!; [done|set_solver|apply NoDup_singleton].
      - by apply chain_snoc.
      - apply Forall_app. split; [done|]. by constructor. }
    pose proof (fresh_path_length _ _ Hf') as Hlen. rewrite length_app in Hlen. simpl in Hlen.
    destruct (IH (path ++ [x]) (mset x (length path) position) (mget x links)) as (path' & found & Hw & Hf2 & He & _ & Hpre).
    + done.
    + by apply positions_snoc.
    + intros y Hy. split; [by eapply links_ids|]. intros z Hz. rewrite last_snoc in Hz. congruence.
    + intros _. by rewrite last_snoc.
    + rewrite length_app. simpl. lia.
    + exists path', found. split; [done|]. split; [done|]. split; [done|]. split.
      * intros y -> [= <-] _ _. destruct Hpre as [k ->]. set_solver.
      * etrans; [|exact Hpre]. by eexists.
Qed.

(** ** All walks *)

Record cycles_ok (complete members : list jsstring) (rank : jsstring -> nat) (bound : nat) : Prop := CyclesOk {
  co_members x : x ∈ members -> x ∈ complete;
  co_cycles x : x ∈ members -> exists c, cycle c /\ x ∈ c /\ c ⊆ members;
  co_bound x : x ∈ complete -> rank x < bound;
  co_rank x y : x ∈ complete -> x ∉ members -> mget x links = Some y -> truthy y = true -> y ∈ complete /\ rank y < rank x
}.

(** The rank after a walk: higher than before, falling along the path. *)
Definition path_rank (path : list jsstring) (rank : jsstring -> nat) (bound : nat) (x : jsstring) : nat :=
  match list_find (fun z => z = x) path with Some (i, _) => bound + (length path - i) | None => rank x end.

Lemma path_rank_in path rank bound x i : NoDup path -> path !! i = Some x -> path_rank path rank bound x = bound + (length path - i).
Proof.
  intros Hnd Hi. unfold path_rank.
  destruct (list_find (fun z => z = x) path) as [[j z]|] eqn:Hf.
  - apply list_find_Some in Hf as (Hj & -> & _). by rewrite (NoDup_lookup _ _ _ _ Hnd Hi Hj).
  - apply list_find_None in Hf. eapply Forall_lookup in Hf; [|exact Hi]. done.
Qed.

Lemma path_rank_out path rank bound x : x ∉ path -> path_rank path rank bound x = rank x.
Proof.
  intros Hx. unfold path_rank. destruct (list_find (fun z => z = x) path) as [[j z]|] eqn:Hf; [|done].
  apply list_find_Some in Hf as (Hj & -> & _). destruct Hx. by eapply list_elem_of_lookup_2.
Qed.

Lemma drop_cycle complete path k x y :
  fresh_path complete path -> path !! k = Some y -> last path = Some x -> mget x links = Some y -> cycle (drop k path).
Proof.
  intros (Hnd & Hch & Hall) Hk Hl Hm. pose proof (lookup_lt_Some _ _ _ Hk) as Hlt. split; [|split].
  - intros i a b Ha Hb. rewrite lookup_drop in Ha, Hb. replace (k + S i) with (S (k + i)) in Hb by lia. by eapply Hch.
  - exists x, y. split_and!; [by rewrite (drop_S _ _ _ Hk)| |done].
    rewrite last_lookup, lookup_drop, length_drop. rewrite last_lookup in Hl. rewrite <- Hl. f_equal. lia.
  - apply Forall_drop. eapply Forall_impl; [exact Hall|]. by intros z (? & _).
Qed.

Lemma cycles_step complete members rank bound path found :
  cycles_ok complete members rank bound -> fresh_path complete path -> walk_end complete path found ->
  cycles_ok (js_add_all path complete) (js_add_all found members) (path_rank path rank bound) (S (bound + length path)).
Proof.
  intros Hok Hf Hend. pose proof Hf as (Hnd & Hch & Hall).
  assert (Hsub : found ⊆ path) by (destruct Hend; [set_solver|intros z Hz; by eapply elem_drop]).
  assert (Hdisj : forall x, x ∈ complete -> x ∉ path).
  { intros x Hx Hp. by eapply Forall_forall in Hall as (_ & _ & ?). }
  constructor.
  - intros x. rewrite !elem_of_js_add_all. intros [Hx|Hx]; [by left; apply Hsub|right; by apply (co_members _ _ _ _ Hok)].
  - intros x Hx. apply elem_of_js_add_all in Hx as [Hx|Hx].
    + destruct Hend as [|k z y Hk Hl Hm]; [by apply not_elem_of_nil in Hx|]. exists (drop k path).
      split_and!; [by eapply drop_cycle|done|]. intros w Hw. apply elem_of_js_add_all. by left.
    + destruct (co_cycles _ _ _ _ Hok _ Hx) as (c & Hc & Hxc & Hcm). exists c. split_and!; [done|done|].
      intros w Hw. apply elem_of_js_add_all. right. by apply Hcm.
  - intros x Hx. apply elem_of_js_add_all in Hx as [[i Hi]%list_elem_of_lookup|Hx].
    + rewrite (path_rank_in _ _ _ _ _ Hnd Hi). lia.
    + rewrite path_rank_out by auto. pose proof (co_bound _ _ _ _ Hok _ Hx). lia.
  - intros x y Hx Hnm Hm Ht. rewrite elem_of_js_add_all in Hnm. rewrite elem_of_js_add_all.
    apply elem_of_js_add_all in Hx as [[i Hi]%list_elem_of_lookup|Hx].
    + rewrite (path_rank_in _ _ _ _ _ Hnd Hi). destruct (path !! S i) as [z|] eqn:Hz.
      * pose proof (Hch _ _ _ Hi Hz). replace z with y in * by congruence.
        split; [left; by eapply list_elem_of_lookup_2|]. rewrite (path_rank_in _ _ _ _ _ Hnd Hz).
        apply lookup_lt_Some in Hz. lia.
      * assert (Hlast : last path = Some x).
        { apply lookup_lt_Some in Hi as Hlt. apply lookup_ge_None in Hz. rewrite last_lookup.
          replace (pred (length path)) with i by lia. done. }
        destruct Hend as [Hpast|k x' y' Hk Hl Hm'].
        -- pose proof (Hpast _ _ Hlast Hm Ht) as Hy. split; [by right|]. rewrite path_rank_out by auto.
           pose proof (co_bound _ _ _ _ Hok _ Hy). lia.
        -- destruct Hnm. left. apply last_Some in Hlast as [l ->]. rewrite drop_app.
           apply lookup_lt_Some in Hk. rewrite length_app in Hk. simpl in Hk.
           replace (k - length l) with 0 by lia. simpl. set_solver.
    + destruct (co_rank _ _ _ _ Hok x y Hx) as [Hy Hr]; [tauto|done|done|]. split; [by right|].
      by rewrite !path_rank_out by auto.
Qed.

(** Without the members the links fall in rank. *)
Lemma find_cycles_ok fuel sessions complete members rank bound :
  (forall s, s ∈ sessions -> hr_id s ∈ ids) -> length (remove_dups ids) < fuel ->
  cycles_ok complete members rank bound -> NoDup members ->
  exists complete' members' rank' bound', find_cycles fuel links sessions complete members = Some members'
    /\ cycles_ok complete' members' rank' bound' /\ complete ⊆ complete' /\ NoDup members'
    /\ (forall s, s ∈ sessions -> truthy (hr_id s) = true -> hr_id s ∈ complete').
Proof.
  intros Hids Hfuel. revert complete members rank bound. induction sessions as [|s sessions IH]; intros complete members rank bound Hok Hnd.
  { exists complete, members, rank, bound. split_and!; try done. by intros s Hs%elem_of_nil. }
  simpl. case_decide as Hs.
  - destruct (IH ltac:(intros; apply Hids; by right) _ _ _ _ Hok Hnd) as (c' & m' & r' & b' & Hf & Hok' & Hsub & Hnd' & Hall).
    exists c', m', r', b'. split_and!; try done. intros s' Hs' Ht. apply elem_of_cons in Hs' as [-> |Hs']; [by apply Hsub|by apply Hall].
  - destruct (walk_ok fuel complete [] [] (Some (hr_id s))) as (path & found & Hw & Hf & Hend & Hin & _).
    + split_and!; [apply NoDup_nil_2|by intros i x y ?|by constructor].
    + intros x i. simpl. rewrite lookup_nil. done.
    + intros x [= <-]. split; [apply Hids; by left|done].
    + done.
    + simpl. lia.
    + rewrite Hw. simpl. pose proof (cycles_step _ _ _ _ _ _ Hok Hf Hend) as Hok1.
      destruct (IH ltac:(intros; apply Hids; by right) _ _ _ _ Hok1 (NoDup_js_add_all _ _ Hnd))
        as (c' & m' & r' & b' & Hfc & Hok' & Hsub & Hnd' & Hall).
      exists c', m', r', b'. split_and!; try done.
      * etrans; [|exact Hsub]. intros x Hx. apply elem_of_js_add_all. by right.
      * intros s' Hs' Ht. apply elem_of_cons in Hs' as [-> |Hs']; [|by apply Hall]. apply Hsub, elem_of_js_add_all. left. by apply Hin.
Qed.

(** ** What is collected is what lies on a cycle *)

Lemma members_closed complete members rank bound x y :
  cycles_ok complete members rank bound -> x ∈ members -> mget x links = Some y -> y ∈ members.
Proof.
  intros Hok Hx Hm. destruct (co_cycles _ _ _ _ Hok _ Hx) as (c & (Hch & (l & h & Hh & Hl & Hlh) & _) & [i Hi]%list_elem_of_lookup & Hsub).
  apply Hsub. destruct (c !! S i) as [z|] eqn:Hz.
  - pose proof (Hch _ _ _ Hi Hz). replace y with z by congruence. by eapply list_elem_of_lookup_2.
  - apply lookup_lt_Some in Hi as Hlt. apply lookup_ge_None in Hz. rewrite last_lookup in Hl.
    replace (pred (length c)) with i in Hl by lia. replace y with h by congruence. by apply head_Some_elem_of.
Qed.

Lemma cycle_collected complete members rank bound c x :
  cycles_ok complete members rank bound -> (forall x, x ∈ ids -> truthy x = true -> x ∈ complete) ->
  cycle c -> x ∈ c -> x ∈ members.
Proof.
  intros Hok Hall (Hch & (l & h & Hh & Hl & Hlh) & Ht) Hx.
  assert (Hhl : forall z, last c = Some z -> z ∈ members -> h ∈ members).
  { intros z Hz Hzm. replace z with l in * by congruence. by eapply members_closed. }
  assert (Hup : forall d i z w, c !! i = Some z -> z ∈ members -> c !! (i + d) = Some w -> w ∈ members).
  { induction d as [|d IH]; intros i z w Hi Hz Hw; [rewrite Nat.add_0_r in Hw; congruence|].
    destruct (lookup_lt_is_Some_2 c (i + d)) as [v Hv]; [apply lookup_lt_Some in Hw; lia|].
    apply (members_closed _ _ _ _ v w Hok); [by apply (IH i z)|]. apply (Hch (i + d)); [done|].
    by replace (S (i + d)) with (i + S d) by lia. }
  assert (Hh0 : c !! 0 = Some h) by (destruct c; done). rewrite last_lookup in Hl.
  destruct (decide (Exists (fun z => z ∈ members) c)) as [Hex|Hno].
  - apply Exists_exists in Hex as (z & [i Hi]%list_elem_of_lookup & Hz). apply list_elem_of_lookup in Hx as [j Hj].
    apply lookup_lt_Some in Hi as Hlt. assert (Hhm : h ∈ members).
    { apply (Hhl l); [by rewrite last_lookup|]. apply (Hup (pred (length c) - i) i z); [done|done|].
      by replace (i + (pred (length c) - i)) with (pred (length c)) by lia. }
    by apply (Hup j 0 h).
  - exfalso. assert (Hn : forall z, z ∈ c -> z ∉ members) by (intros z Hz Hm; apply Hno, Exists_exists; eauto).
    assert (Hfall : forall i z, c !! i = Some z -> z ∈ complete /\ rank z + i <= rank h).
    { assert (Hstep : forall z w, z ∈ complete -> z ∈ c -> w ∈ c -> mget z links = Some w -> w ∈ complete /\ rank w < rank z).
      { intros z w Hz Hzc Hwc Hm. apply (co_rank _ _ _ _ Hok z w); [done|by apply Hn|done|]. by eapply Forall_forall in Ht. }
      induction i as [|i IH]; intros z Hz.
      - replace z with h by congruence. split; [|lia]. apply Hall; [by eapply links_ids|]. eapply Forall_forall in Ht; [done|].
        by eapply list_elem_of_lookup_2.
      - destruct (lookup_lt_is_Some_2 c i) as [v Hv]; [apply lookup_lt_Some in Hz; lia|]. destruct (IH _ Hv) as [Hvc Hr].
        destruct (Hstep v z) as [Hzc Hlt]; [done|by eapply list_elem_of_lookup_2|by eapply list_elem_of_lookup_2|by eapply Hch|].
        split; [done|lia]. }
    destruct (Hfall _ _ Hl) as [Hlc Hr]. destruct (co_rank _ _ _ _ Hok l h) as [_ Hlt]; [done| |done| |lia].
    + apply Hn. by eapply list_elem_of_lookup_2.
    + eapply Forall_forall in Ht; [done|]. by apply head_Some_elem_of.
Qed.

(** A cycle is a way from a session back to itself. *)
Definition linked (x y : jsstring) : Prop := mget x links = Some y.

Lemma chain_rtc c i j x y : chain c -> c !! i = Some x -> c !! (i + j) = Some y -> rtc linked x y.
Proof.
  intros Hch. revert y. induction j as [|j IH]; intros y Hx Hy; [rewrite Nat.add_0_r in Hy; replace y with x by congruence; constructor|].
  destruct (lookup_lt_is_Some_2 c (i + j)) as [v Hv]; [apply lookup_lt_Some in Hy; lia|]. eapply rtc_r; [by apply IH|].
  unfold linked. eapply Hch; [exact Hv|]. by replace (S (i + j)) with (i + S j) by lia.
Qed.

Lemma on_cycle_tc x : (forall y z, mget y links = Some z -> truthy z = true) -> on_cycle x <-> tc linked x x.
Proof.
  intros Htr. split.
  - intros (c & (Hch & (l & h & Hh & Hl & Hlh) & _) & [i Hi]%list_elem_of_lookup).
    assert (Hh0 : c !! 0 = Some h) by (destruct c; done). rewrite last_lookup in Hl. apply lookup_lt_Some in Hi as Hlt.
    eapply tc_rtc_l; [|eapply tc_rtc_r; [by apply tc_once|]].
    + apply (chain_rtc c i (pred (length c) - i)); [done|done|]. by replace (i + (pred (length c) - i)) with (pred (length c)) by lia.
    + by apply (chain_rtc c 0 i).
  - intros (l & Hlen & Hhead & Hlast & Hcons)%tc_list.
    apply last_Some in Hlast as [c ->]. rewrite length_app in Hlen. simpl in Hlen.
    destruct (last c) as [z|] eqn:Hz; [|apply last_None in Hz; subst; simpl in Hlen; lia].
    assert (Hch : chain c).
    { intros i a b Ha Hb. apply (Hcons i); by apply lookup_app_l_Some. }
    assert (Hzx : mget z links = Some x).
    { rewrite last_lookup in Hz. apply (Hcons (pred (length c))); [by apply lookup_app_l_Some|].
      rewrite lookup_app_r by lia. by replace (S (pred (length c)) - length c) with 0 by lia. }
    assert (Hh : head c = Some x) by (destruct c; [simpl in Hlen; lia|done]).
    exists c. split; [|by apply head_Some_elem_of]. split; [done|]. split; [by exists z, x|].
    apply Forall_lookup. intros [|i] a Ha.
    + replace a with x by (destruct c; simplify_eq/=; done). by eapply Htr.
    + destruct (lookup_lt_is_Some_2 c i) as [v Hv]; [apply lookup_lt_Some in Ha; lia|]. eapply Htr. by eapply Hch.
Qed.
End Cycles.
