(* ===== verification/HierarchyForest.v ===== *)
(** * What the derivation of the forest computes

    The steps of [deriveAiSessionForest] one after the other - the indexes,
    the candidate parents, the trees, the aggregates - and, put together, the
    forest it returns. *)

From S2P Require Export HierarchyTrees.

(** ** Fuel *)

Lemma walk_mono fuel fuel' links complete path position current r :
  walk fuel links complete path position current = Some r -> fuel <= fuel' ->
  walk fuel' links complete path position current = Some r.
Proof.
  revert fuel' path position current. induction fuel as [|fuel IH]; intros [|fuel'] path position current H Hle; try done; [lia|].
  simpl in *. destruct current as [x|]; [|done]. destruct (truthy x && negb (bool_decide (x ∈ complete))); [|done].
  destruct (mget x position); [done|]. apply IH; [done|lia].
Qed.

Lemma find_cycles_mono fuel fuel' links sessions complete members r :
  find_cycles fuel links sessions complete members = Some r -> fuel <= fuel' ->
  find_cycles fuel' links sessions complete members = Some r.
Proof.
  intros H Hle. revert complete members H. induction sessions as [|s sessions IH]; intros complete members H; [done|].
  simpl in *. case_decide; [by apply IH|].
  destruct (walk fuel _ _ _ _ _) as [[path found]|] eqn:Hw; [|done]. rewrite (walk_mono _ _ _ _ _ _ _ _ Hw Hle). by apply IH.
Qed.

Lemma loop_mono fuel fuel' children stack acc r :
  postorder_loop fuel children stack acc = Some r -> fuel <= fuel' -> postorder_loop fuel' children stack acc = Some r.
Proof.
  revert fuel' stack acc. induction fuel as [|fuel IH]; intros fuel' stack acc H Hle.
  - destruct stack as [|[i v] stack]; [by destruct fuel'|done].
  - destruct stack as [|[i v] stack]; [by destruct fuel'|]. destruct fuel' as [|fuel']; [lia|].
    simpl in *. destruct v; apply IH; [done|lia|done|lia].
Qed.

(** ** The indexes *)

Lemma index_ids_snoc sessions s : index_ids (sessions ++ [s]) = mset (hr_id s) (length sessions) (index_ids sessions).
Proof. unfold index_ids. rewrite imap_app, foldl_app. simpl. by rewrite Nat.add_0_r. Qed.

Lemma index_ids_Some sessions id i :
  mget id (index_ids sessions) = Some i -> exists s, sessions !! i = Some s /\ hr_id s = id.
Proof.
  induction sessions as [|s sessions IH] using rev_ind; [done|]. rewrite index_ids_snoc, mget_mset. case_decide as Hid.
  - intros [= <-]. exists s. split; [by rewrite list_lookup_middle|done].
  - intros (s' & Hs & Hid')%IH. exists s'. split; [by apply lookup_app_l_Some|done].
Qed.

Lemma index_ids_total sessions s : s ∈ sessions -> is_Some (mget (hr_id s) (index_ids sessions)).
Proof.
  induction sessions as [|s' sessions IH] using rev_ind; [by intros ?%elem_of_nil|]. rewrite index_ids_snoc, mget_mset.
  intros [Hs|Hs]%elem_of_app; case_decide; eauto. apply list_elem_of_singleton in Hs. congruence.
Qed.

(** With unique identifiers the index is the position. *)
Lemma index_ids_unique sessions i s :
  NoDup (hr_id <$> sessions) -> sessions !! i = Some s -> mget (hr_id s) (index_ids sessions) = Some i.
Proof.
  intros Hnd Hi. destruct (index_ids_total sessions s) as [j Hj]; [by eapply list_elem_of_lookup_2|].
  apply index_ids_Some in Hj as Hs. destruct Hs as (s' & Hs' & Hid). rewrite Hj. f_equal.
  apply (NoDup_lookup _ _ _ (hr_id s) Hnd); rewrite list_lookup_fmap; [by rewrite Hs', <- Hid|by rewrite Hi].
Qed.

(** The identity a session is found by. *)
Definition identity_of (s : AiSessionHierarchyRecord) : option jsstring :=
  match hr_providerSessionId s with
  | Some p => if truthy p then Some (identityKey (hr_instanceId s) (hr_agent s) (Some p)) else None
  | None => None
  end.

Definition named (key : jsstring) (sessions : list AiSessionHierarchyRecord) : option AiSessionHierarchyRecord :=
  head (filter (fun s => identity_of s = Some key) sessions).

Lemma index_identity_key ix s key :
  mget key (ix_byIdentity (index_identity ix s))
  = match mget key (ix_byIdentity ix) with
    | Some s => Some s
    | None => if decide (identity_of s = Some key) then Some s else None
    end.
Proof.
  unfold index_identity, identity_of. destruct (hr_providerSessionId s) as [p|]; [|rewrite decide_False by done; by case_match].
  destruct (truthy p); [|rewrite decide_False by done; by case_match]. simpl. unfold mhas.
  destruct (mget (identityKey _ _ _) (ix_byIdentity ix)) as [s'|] eqn:Hk.
  - case_match; [done|]. case_decide; [congruence|done].
  - rewrite mget_mset. case_decide as Hd.
    + subst. rewrite Hk. by rewrite decide_True.
    + case_match; [done|]. rewrite decide_False; congruence.
Qed.

Lemma index_identities_spec sessions key : mget key (ix_byIdentity (index_identities sessions)) = named key sessions.
Proof.
  assert (H : forall ix, mget key (ix_byIdentity (foldl index_identity ix sessions))
    = match mget key (ix_byIdentity ix) with Some s => Some s | None => named key sessions end).
  { unfold named. induction sessions as [|s sessions IH]; intros ix; simpl; [by case_match|].
    rewrite IH, index_identity_key, filter_cons. destruct (mget key (ix_byIdentity ix)); [done|]. by case_decide. }
  unfold index_identities. by rewrite H.
Qed.

(** ** Candidate parents *)

(** The session a subagent names as its parent. *)
Definition named_parent (sessions : list AiSessionHierarchyRecord) (s : AiSessionHierarchyRecord) : option AiSessionHierarchyRecord :=
  parentProvider ← subagent_parent s;
  named (identityKey (hr_instanceId s) (hr_agent s) (Some parentProvider)) sessions.

Definition parent_link_of (sessions : list AiSessionHierarchyRecord) (s : AiSessionHierarchyRecord) : option jsstring :=
  p ← named_parent sessions s; if decide (hr_id p = hr_id s) then None else Some (hr_id p).

Definition candidate_links (sessions : list AiSessionHierarchyRecord) : jsmap jsstring jsstring :=
  (foldl (candidate_parent (index_identities sessions)) (ix_diagnostics (index_identities sessions), []) sessions).2.

Lemma candidate_parent_links all st s :
  (candidate_parent (index_identities all) st s).2
  = match parent_link_of all s with Some y => mset (hr_id s) y st.2 | None => st.2 end.
Proof.
  destruct st as [ds m]. unfold candidate_parent, parent_link_of, named_parent.
  destruct (subagent_parent s) as [pp|]; simpl; [|done]. rewrite index_identities_spec.
  destruct (named _ _) as [p|]; simpl; [|done]. by case_decide.
Qed.

Lemma candidate_fold all l st :
  (foldl (candidate_parent (index_identities all)) st l).2
  = foldl (fun m s => match parent_link_of all s with Some y => mset (hr_id s) y m | None => m end) st.2 l.
Proof. revert st. induction l as [|s l IH]; intros st; simpl; [done|]. by rewrite IH, candidate_parent_links. Qed.

Lemma candidate_links_Some sessions x y :
  mget x (candidate_links sessions) = Some y -> exists s, s ∈ sessions /\ hr_id s = x /\ parent_link_of sessions s = Some y.
Proof.
  unfold candidate_links. rewrite candidate_fold. simpl.
  assert (H : forall l m, (forall x y, mget x m = Some y -> exists s, s ∈ sessions /\ hr_id s = x /\ parent_link_of sessions s = Some y) ->
     l ⊆ sessions -> forall x y,
     mget x (foldl (fun m s => match parent_link_of sessions s with Some y => mset (hr_id s) y m | None => m end) m l) = Some y ->
     exists s, s ∈ sessions /\ hr_id s = x /\ parent_link_of sessions s = Some y).
  { induction l as [|s l IH]; intros m Hm Hl x' y'; simpl; [apply Hm|]. apply IH; [|set_solver].
    intros x2 y2. destruct (parent_link_of sessions s) as [y3|] eqn:Hs; [|apply Hm]. rewrite mget_mset.
    case_decide; [|apply Hm]. intros [= <-]. exists s. split_and!; [set_solver|done|done]. }
  by apply H.
Qed.

Lemma candidate_links_unique sessions s :
  NoDup (hr_id <$> sessions) -> s ∈ sessions -> mget (hr_id s) (candidate_links sessions) = parent_link_of sessions s.
Proof.
  intros Hnd Hs. unfold candidate_links. rewrite candidate_fold. simpl.
  assert (H : forall l m, NoDup (hr_id <$> l) ->
     mget (hr_id s) (foldl (fun m s => match parent_link_of sessions s with Some y => mset (hr_id s) y m | None => m end) m l)
     = if decide (hr_id s ∈ hr_id <$> l)
       then match head (filter (fun s' => hr_id s' = hr_id s) l) ≫= parent_link_of sessions with
            | Some y => Some y | None => mget (hr_id s) m end
       else mget (hr_id s) m).
  { induction l as [|s' l IH]; intros m Hl; simpl; [done|]. rewrite fmap_cons in Hl. apply NoDup_cons in Hl as [Hs' Hl].
    rewrite IH by done. rewrite filter_cons. destruct (decide (hr_id s' = hr_id s)) as [E|E].
    - rewrite !decide_False by congruence. rewrite decide_True by (rewrite E; by left). simpl.
      destruct (parent_link_of sessions s') as [y|]; [|done]. by rewrite E, mget_mset_eq.
    - assert (Hm : mget (hr_id s) (match parent_link_of sessions s' with Some y => mset (hr_id s') y m | None => m end)
                   = mget (hr_id s) m).
      { destruct (parent_link_of sessions s'); [|done]. by rewrite mget_mset_ne. }
      rewrite Hm. destruct (decide (hr_id s ∈ hr_id <$> l)).
      + by rewrite decide_True by by right.
      + rewrite decide_False; [done|]. rewrite elem_of_cons. intros [?|?]; [by apply E|done]. }
  rewrite H by done. rewrite decide_True by by apply list_elem_of_fmap_2.
  replace (head (filter (fun s' => hr_id s' = hr_id s) sessions)) with (Some s); [simpl; by destruct (parent_link_of sessions s)|].
  clear H. induction sessions as [|s' l IH]; [by apply elem_of_nil in Hs|]. rewrite fmap_cons in Hnd. apply NoDup_cons in Hnd as [Hs' Hl].
  rewrite filter_cons. apply elem_of_cons in Hs as [-> |Hs]; [by rewrite decide_True|]. case_decide as E; [|by apply IH].
  destruct Hs'. rewrite E. by apply list_elem_of_fmap_2.
Qed.

Lemma named_Some key sessions p : named key sessions = Some p -> p ∈ sessions /\ identity_of p = Some key.
Proof. unfold named. intros H%head_Some_elem_of. by apply list_elem_of_filter in H as [? ?]. Qed.

Lemma parent_link_of_Some sessions s y :
  parent_link_of sessions s = Some y -> exists p, named_parent sessions s = Some p /\ p ∈ sessions /\ hr_id p = y /\ y <> hr_id s.
Proof.
  unfold parent_link_of. destruct (named_parent sessions s) as [p|] eqn:Hp; simpl; [|done]. case_decide; [done|]. intros [= <-].
  exists p. split_and!; try done. unfold named_parent in Hp. destruct (subagent_parent s); [|done]. by apply named_Some in Hp as [? _].
Qed.

(** Deleting the cycle members. *)
Lemma mget_delete_all (members : list jsstring) (m : jsmap jsstring jsstring) x :
  mget x (foldl (fun m id => mdelete id m) m members) = if decide (x ∈ members) then None else mget x m.
Proof.
  revert m. induction members as [|y members IH]; intros m; simpl; [done|]. rewrite IH. rewrite mget_mdelete.
  repeat case_decide; set_solver.
Qed.

(** ** Trees *)

Lemma seq_snoc k : seq 0 (S k) = seq 0 k ++ [k].
Proof. by rewrite seq_S. Qed.

Section Derive.
Context (Date_parse : jsstring -> option Z) (localeCompare : jsstring -> jsstring -> Z).
Context (sessions : list AiSessionHierarchyRecord) (links : jsmap jsstring jsstring).
Abbreviation nodesById := (index_ids sessions).
Abbreviation n := (length sessions).

(** The node a session is attached to. *)
Definition parent_ref (i : nat) : option nat :=
  s ← sessions !! i; y ← mget (hr_id s) links; if truthy y then mget y nodesById else None.

Definition parent_id (i : nat) : option jsstring := p ← parent_ref i; hr_id <$> sessions !! p.

(** The nodes when those below [k] are attached. *)
Definition attached (k i : nat) (s : AiSessionHierarchyRecord) : AiSessionTreeNode :=
  TreeNode s (if decide (i < k) then parent_id i else None) (filter (fun c => parent_ref c = Some i) (seq 0 k))
    (hr_updatedAt s) (ownLastActiveAt Date_parse s).
Arguments attached : simpl never.

Lemma parent_ref_lt i p : parent_ref i = Some p -> p < n.
Proof.
  unfold parent_ref. destruct (sessions !! i); simpl; [|done]. destruct (mget _ links); simpl; [|done].
  case_match; [|done]. intros (s' & Hs & _)%index_ids_Some. by apply lookup_lt_Some in Hs.
Qed.

Lemma attached_S k i s :
  attached (S k) i s
  = TreeNode s (if decide (k = i) then parent_id k else tn_parentSessionId (attached k i s))
      (tn_children (attached k i s) ++ (if decide (parent_ref k = Some i) then [k] else []))
      (hr_updatedAt s) (ownLastActiveAt Date_parse s).
Proof.
  unfold attached. rewrite seq_snoc, filter_app, filter_cons, filter_nil. cbn [tn_parentSessionId tn_children]. f_equal.
  repeat case_decide; subst; try done; lia.
Qed.

Lemma attach_step k :
  k < n ->
  attach links nodesById (imap (attached k) sessions, filter (fun r => parent_ref r = None) (seq 0 k)) k
  = (imap (attached (S k)) sessions, filter (fun r => parent_ref r = None) (seq 0 (S k))).
Proof.
  intros Hk. destruct (lookup_lt_is_Some_2 _ _ Hk) as [s Hs]. unfold attach. rewrite list_lookup_imap, Hs.
  cbn [fmap option_fmap option_map]. change (tn_session (attached k k s)) with s.
  assert (Hp : (match mget (hr_id s) links with Some parentId => if truthy parentId then mget parentId nodesById else None | None => None end)
               = parent_ref k).
  { unfold parent_ref. rewrite Hs. simpl. by destruct (mget _ links). }
  rewrite Hp, seq_snoc, filter_app, filter_cons, filter_nil.
  assert (Hpid : forall p, parent_ref k = Some p ->
     (fun q => hr_id (tn_session q)) <$> imap (attached k) sessions !! p = parent_id k).
  { intros p Hpk. unfold parent_id. rewrite Hpk. simpl. rewrite list_lookup_imap. by destruct (sessions !! p). }
  destruct (parent_ref k) as [p|] eqn:Hpk.
  - rewrite (Hpid p eq_refl), decide_False, app_nil_r by done. f_equal. apply list_eq. intros i.
    rewrite !list_lookup_alter, !list_lookup_imap.
    destruct (decide (p = i)) as [-> |Hpi]; destruct (decide (k = i)) as [-> |Hki];
      (destruct (sessions !! i) as [si|]; [|done]); cbn [fmap option_fmap option_map]; rewrite attached_S, Hpk;
      repeat case_decide; simplify_eq; rewrite ?app_nil_r; try done; by destruct si.
  - rewrite decide_True by done. f_equal. apply list_eq. intros i. rewrite !list_lookup_imap.
    destruct (sessions !! i) as [si|]; [|done]. cbn [fmap option_fmap option_map]. rewrite attached_S, Hpk.
    rewrite (decide_False (P := None = Some i)), app_nil_r by done. f_equal. case_decide; [|done]. subst. unfold attached, parent_id.
    rewrite Hpk. by rewrite decide_False by lia.
Qed.

Lemma attach_all :
  foldl (attach links nodesById) (new_node Date_parse <$> sessions, []) (seq 0 n)
  = (imap (attached n) sessions, filter (fun r => parent_ref r = None) (seq 0 n)).
Proof.
  assert (H : forall k, k <= n -> foldl (attach links nodesById) (new_node Date_parse <$> sessions, []) (seq 0 k)
     = (imap (attached k) sessions, filter (fun r => parent_ref r = None) (seq 0 k))).
  { induction k as [|k IH]; intros Hk; [|rewrite <- attach_step, seq_snoc, foldl_app, IH by lia; done].
    simpl. f_equal. apply list_eq. intros i. rewrite list_lookup_imap, list_lookup_fmap. by destruct (sessions !! i). }
  by apply H.
Qed.

Lemma attached_children i : i < n -> children_of (imap (attached n) sessions) i = filter (fun c => parent_ref c = Some i) (seq 0 n).
Proof. intros Hi. unfold children_of. rewrite list_lookup_imap. destruct (lookup_lt_is_Some_2 _ _ Hi) as [s ->]. done. Qed.

(** *** Aggregates *)

Abbreviation T v := (timestamp Date_parse (Some v)).
Abbreviation latest := (latestTimestamp Date_parse).
Abbreviation node0 := (attached n).

Lemma latest_cases a b : (latest a b = a /\ (T b <= T a)%Z) \/ (latest a b = b /\ (T a <= T b)%Z).
Proof. unfold latestTimestamp. destruct (_ <? _)%Z eqn:E; propify; [right|left]; split; try done; lia. Qed.

Lemma latest_fold {A} (f : A -> jsstring) l a r :
  foldl (fun a c => latest a (f c)) a l = r ->
  (r = a \/ exists c, c ∈ l /\ r = f c) /\ (T a <= T r)%Z /\ (forall c, c ∈ l -> (T (f c) <= T r)%Z).
Proof.
  revert a. induction l as [|c l IH]; intros a; simpl.
  - intros <-. split; [by left|split; [done|]]. by intros c ?%elem_of_nil.
  - intros Hfold. destruct (IH _ Hfold) as (Hr & Ha & Hl).
    destruct (latest_cases a (f c)) as [[E Hle]|[E Hle]]; rewrite E in Hr, Ha.
    + split; [|split].
      * destruct Hr as [Hr|(c' & ? & Hr)]; [by left|right; exists c'; split; set_solver].
      * exact Ha.
      * intros c' [-> |Hc']%elem_of_cons; [by etrans|by apply Hl].
    + split; [|split].
      * destruct Hr as [Hr|(c' & ? & Hr)]; right; [exists c|exists c']; split; set_solver.
      * by etrans.
      * intros c' [-> |Hc']%elem_of_cons; [done|by apply Hl].
Qed.

Definition children0 (i : nat) : list nat := filter (fun c => parent_ref c = Some i) (seq 0 n).

(** The latest of a time and the times of some nodes. *)
Definition latest_of (heap : list AiSessionTreeNode) (f : AiSessionTreeNode -> jsstring) (own : jsstring) (children : list nat) : jsstring :=
  foldl (fun at_ child => match heap !! child with Some c => latest at_ (f c) | None => at_ end) own children.

(** A node that has taken over the times of its children. *)
Record settled (orderBy : option AiSessionForestOrder) (heap : list AiSessionTreeNode) (i : nat) (node : AiSessionTreeNode) : Prop := Settled {
  st_session : sessions !! i = Some (tn_session node);
  st_parent : tn_parentSessionId node = parent_id i;
  st_updated : tn_aggregateUpdatedAt node = latest_of heap tn_aggregateUpdatedAt (hr_updatedAt (tn_session node)) (children0 i);
  st_active : tn_aggregateLastActiveAt node
    = latest_of heap tn_aggregateLastActiveAt (ownLastActiveAt Date_parse (tn_session node)) (children0 i);
  st_children : tn_children node
    = js_sort (compare_siblings Date_parse localeCompare orderBy nodesById heap) (children0 i)
}.

Lemma elem_of_children0 i c : c ∈ children0 i <-> c < n /\ parent_ref c = Some i.
Proof. unfold children0. rewrite list_elem_of_filter, elem_of_seq. intuition lia. Qed.

(** Settling depends on the children only. *)
Lemma latest_of_ext heap heap' f own children :
  (forall c, c ∈ children -> heap !! c = heap' !! c) -> latest_of heap f own children = latest_of heap' f own children.
Proof.
  unfold latest_of. revert own. induction children as [|c cs IH]; intros own H; simpl; [done|]. rewrite (H c) by left.
  apply IH. intros c' Hc'. apply H. by right.
Qed.

Lemma sort_insert_ext {A} (cmp cmp' : A -> A -> Z) x l :
  (forall y, y ∈ l -> cmp x y = cmp' x y) -> sort_insert cmp x l = sort_insert cmp' x l.
Proof.
  induction l as [|y l IH]; intros H; simpl; [done|]. rewrite (H y) by left. case_match; [|done]. f_equal. apply IH.
  intros z Hz. apply H. by right.
Qed.

Lemma js_sort_ext {A} (cmp cmp' : A -> A -> Z) l :
  (forall x y, x ∈ l -> y ∈ l -> cmp x y = cmp' x y) -> js_sort cmp l = js_sort cmp' l.
Proof.
  induction l as [|x l IH]; intros H; simpl; [done|]. rewrite IH by (intros; apply H; by right).
  apply sort_insert_ext. intros y Hy. rewrite js_sort_perm in Hy. apply H; [by left|by right].
Qed.

Lemma compare_siblings_ext orderBy heap heap' x y :
  heap !! x = heap' !! x -> heap !! y = heap' !! y ->
  compare_siblings Date_parse localeCompare orderBy nodesById heap x y
  = compare_siblings Date_parse localeCompare orderBy nodesById heap' x y.
Proof. intros Hx Hy. unfold compare_siblings. by rewrite Hx, Hy. Qed.

Lemma settled_ext orderBy heap heap' i node :
  settled orderBy heap i node -> (forall c, c ∈ children0 i -> heap !! c = heap' !! c) -> settled orderBy heap' i node.
Proof.
  intros [H1 H2 H3 H4 H5] Hext. constructor; try done.
  - rewrite H3. by apply latest_of_ext.
  - rewrite H4. by apply latest_of_ext.
  - rewrite H5. apply js_sort_ext. intros x y Hx Hy. apply compare_siblings_ext; by apply Hext.
Qed.

(** The nodes after those of [pre] have been settled. *)
Definition settling (orderBy : option AiSessionForestOrder) (pre : list nat) (heap : list AiSessionTreeNode) : Prop :=
  length heap = n /\ forall i s, sessions !! i = Some s ->
    exists node, heap !! i = Some node
      /\ (i ∉ pre -> node = node0 i s) /\ (i ∈ pre -> settled orderBy heap i node).

Lemma settling_step orderBy pre r heap :
  settling orderBy pre heap -> r < n -> r ∉ pre -> (forall c, c ∈ children0 r -> c ∈ pre) ->
  (forall i, i ∈ pre -> forall c, c ∈ children0 i -> c ∈ pre) ->
  settling orderBy (pre ++ [r]) (aggregate Date_parse localeCompare orderBy nodesById heap r).
Proof.
  intros [Hlen Hnodes] Hr Hnr Hkids Hpre. destruct (lookup_lt_is_Some_2 _ _ Hr) as [s Hs].
  destruct (Hnodes _ _ Hs) as (node & Hnode & Hun & _). specialize (Hun Hnr). subst node.
  set (heap' := aggregate Date_parse localeCompare orderBy nodesById heap r).
  assert (Hother : forall i, i <> r -> heap' !! i = heap !! i).
  { intros i Hi. unfold heap', aggregate. rewrite Hnode. by rewrite list_lookup_alter_ne, list_lookup_insert_ne by done. }
  assert (Hsame : forall i c, (i ∈ pre \/ i = r) -> c ∈ children0 i -> heap !! c = heap' !! c).
  { intros i c Hi Hc. symmetry. apply Hother. intros ->. apply Hnr. destruct Hi as [Hi| ->]; [by eapply Hpre|by apply Hkids]. }
  split; [unfold heap', aggregate; rewrite Hnode; by rewrite length_alter, length_insert|].
  intros i si Hi. destruct (decide (i = r)) as [-> |Hir].
  - replace si with s in * by congruence. eexists. split.
    { unfold heap', aggregate. rewrite Hnode. rewrite list_lookup_alter_eq, list_lookup_insert_eq by lia. reflexivity. }
    split; [intros Hn; destruct Hn; set_solver|]. intros _. constructor; cbn [tn_session tn_parentSessionId tn_aggregateUpdatedAt
      tn_aggregateLastActiveAt tn_children fmap option_fmap option_map].
    + done.
    + unfold attached. simpl. by rewrite decide_True.
    + apply latest_of_ext. by eauto.
    + apply latest_of_ext. by eauto.
    + change (tn_children (node0 r s)) with (children0 r). apply js_sort_ext. intros x y Hx Hy.
      assert (Hne : forall c, c ∈ children0 r -> c <> r) by (intros c Hc ->; by apply Hnr, Hkids).
      apply compare_siblings_ext; (rewrite list_lookup_insert_ne by (apply not_eq_sym; by apply Hne)); by eapply Hsame; eauto.
  - destruct (Hnodes _ _ Hi) as (node & Hn & Hun & Hset). exists node. rewrite Hother by done. split; [done|]. split.
    + intros Hni. apply Hun. set_solver.
    + intros Hni. apply (settled_ext _ heap); [apply Hset; set_solver|]. intros c Hc. eapply Hsame; [|done]. set_solver.
Qed.

Lemma settling_all orderBy po :
  NoDup po -> Forall (fun i => i < n) po ->
  (forall j l1 l2 c, po = l1 ++ j :: l2 -> c ∈ children0 j -> c ∈ l1) ->
  settling orderBy po (foldl (aggregate Date_parse localeCompare orderBy nodesById) (imap node0 sessions) po).
Proof.
  intros Hnd Hlt Hfirst.
  assert (H : forall k, settling orderBy (take k po)
     (foldl (aggregate Date_parse localeCompare orderBy nodesById) (imap node0 sessions) (take k po))).
  { induction k as [|k IH].
    - rewrite take_0. simpl. split; [by rewrite length_imap|]. intros i s Hs. exists (node0 i s). rewrite list_lookup_imap, Hs.
      split; [done|]. split; [done|]. by intros ?%elem_of_nil.
    - destruct (po !! k) as [r|] eqn:Hk.
      + rewrite (take_S_r _ _ _ Hk), foldl_app. simpl. pose proof (take_drop_middle _ _ _ Hk) as Hsplit.
        apply settling_step; [done| | | |].
        * by eapply Forall_lookup in Hlt.
        * intros Hin. rewrite <- Hsplit in Hnd. apply NoDup_app in Hnd as (_ & Hd & _). apply (Hd _ Hin). by left.
        * intros c Hc. by eapply Hfirst.
        * intros i [m Hm]%list_elem_of_lookup c Hc. apply lookup_take_Some in Hm as [Hm Hmk].
          pose proof (take_drop_middle _ _ _ Hm) as Hs2. specialize (Hfirst i (take m po) (drop (S m) po) c (eq_sym Hs2) Hc).
          apply list_elem_of_lookup in Hfirst as [q Hq]. apply lookup_take_Some in Hq as [Hq Hqm].
          apply list_elem_of_lookup. exists q. apply lookup_take_Some. split; [done|lia].
      + rewrite take_ge in IH by by apply lookup_ge_None_1 in Hk. rewrite take_ge; [done|]. apply lookup_ge_None_1 in Hk. lia. }
  specialize (H (length po)). by rewrite firstn_all in H.
Qed.

(** *** The rank of a node *)

Context (rank : jsstring -> nat) (bound : nat).
Hypothesis id_rank : forall s, s ∈ sessions -> truthy (hr_id s) = true -> rank (hr_id s) < bound.
Hypothesis link_rank : forall s y, s ∈ sessions -> mget (hr_id s) links = Some y -> truthy y = true ->
  truthy (hr_id s) = true -> rank y < rank (hr_id s).

Definition node_rank (i : nat) : nat :=
  match sessions !! i with Some s => if truthy (hr_id s) then rank (hr_id s) else bound | None => 0 end.

Lemma parent_ref_Some i p :
  parent_ref i = Some p -> exists s y q, sessions !! i = Some s /\ mget (hr_id s) links = Some y /\ truthy y = true
    /\ mget y nodesById = Some p /\ sessions !! p = Some q /\ hr_id q = y.
Proof.
  unfold parent_ref. destruct (sessions !! i) as [s|]; simpl; [|done]. destruct (mget _ links) as [y|] eqn:Hy; simpl; [|done].
  destruct (truthy y) eqn:Ht; [|done]. intros Hp. apply index_ids_Some in Hp as Hq. destruct Hq as (q & Hq & Hid).
  by exists s, y, q.
Qed.

Lemma parent_rank_falls i p : i < n -> parent_ref i = Some p -> node_rank p < node_rank i.
Proof.
  intros _ (s & y & q & Hs & Hy & Ht & _ & Hq & <-)%parent_ref_Some. unfold node_rank. rewrite Hs, Hq, Ht.
  assert (s ∈ sessions /\ q ∈ sessions) as [Hs' Hq'] by (split; by eapply list_elem_of_lookup_2).
  destruct (truthy (hr_id s)) eqn:Hts; [by apply link_rank|by apply id_rank].
Qed.

Lemma node_rank_bound i : i < n -> node_rank i <= bound.
Proof.
  intros Hi. unfold node_rank. destruct (lookup_lt_is_Some_2 _ _ Hi) as [s Hs]. rewrite Hs.
  destruct (truthy (hr_id s)) eqn:Ht; [|lia]. apply Nat.lt_le_incl, id_rank; [by eapply list_elem_of_lookup_2|done].
Qed.

Lemma parent_ref_below i p : i < n -> parent_ref i = Some p -> p < n.
Proof. intros _. apply parent_ref_lt. Qed.

(** *** The forest *)

Definition roots0 : list nat := filter (fun r => parent_ref r = None) (seq 0 n).

Record forest_ok (orderBy : option AiSessionForestOrder) (forest : AiSessionForest) : Prop := ForestOk {
  fk_length : length (fo_nodes forest) = n;
  fk_nodes i node : fo_nodes forest !! i = Some node -> settled orderBy (fo_nodes forest) i node;
  fk_roots : fo_roots forest
    = js_sort (compare_siblings Date_parse localeCompare orderBy nodesById (fo_nodes forest)) roots0;
  fk_ids : fo_nodesById forest = nodesById
}.

Lemma elem_of_roots0 i : i ∈ roots0 <-> i < n /\ parent_ref i = None.
Proof. unfold roots0. rewrite list_elem_of_filter, elem_of_seq. intuition lia. Qed.

Lemma trees_ok fuel orderBy :
  2 * n <= fuel -> exists po,
    postorder_loop fuel (children_of (imap (attached n) sessions)) ((fun ref => (ref, false)) <$> reverse roots0) [] = Some po
    /\ settling orderBy po (foldl (aggregate Date_parse localeCompare orderBy nodesById) (imap (attached n) sessions) po)
    /\ po ≡ₚ seq 0 n.
Proof.
  intros Hfuel. set (children := children_of (imap (attached n) sessions)).
  assert (Hperm : forall i, i < n -> children i ≡ₚ filter (fun c => parent_ref c = Some i) (seq 0 n)).
  { intros i Hi. unfold children. by rewrite attached_children. }
  set (po := reverse roots0 ≫= subtree node_rank bound children).
  assert (Hroots : Forall (fun r => r < n) (reverse roots0)).
  { apply Forall_forall. intros r Hr. apply elem_of_reverse, elem_of_roots0 in Hr. tauto. }
  assert (Hpo : po ≡ₚ seq 0 n).
  { apply (forest_partition n parent_ref node_rank bound); eauto using parent_ref_below, parent_rank_falls, node_rank_bound.
    by rewrite reverse_Permutation. }
  exists po. split_and!; [| |done].
  - apply (loop_mono (2 * length po + 0)); [|rewrite Hpo, length_seq; lia].
    rewrite <- (app_nil_r (fmap _ _)). unfold po.
    rewrite (loop_trees n parent_ref node_rank bound); eauto using parent_ref_below, parent_rank_falls, node_rank_bound.
  - apply settling_all.
    + rewrite Hpo. apply NoDup_seq.
    + rewrite Hpo. apply Forall_forall. intros i Hi%elem_of_seq. lia.
    + intros j l1 l2 c Hsplit [Hc Hp]%elem_of_children0.
      eapply (forest_children_first n parent_ref node_rank bound); eauto using parent_ref_below, parent_rank_falls, node_rank_bound.
Qed.

(** The steps of the derivation after the cycles. *)
Lemma forest_built fuel orderBy diagnostics :
  2 * n <= fuel -> exists forest,
    (let '(heap, roots) := foldl (attach links nodesById) (new_node Date_parse <$> sessions, []) (seq 0 n) in
     postorder ← postorder_loop fuel (children_of heap) ((fun ref => (ref, false)) <$> reverse roots) [];
     let heap := foldl (aggregate Date_parse localeCompare orderBy nodesById) heap postorder in
     Some (Forest heap (js_sort (compare_siblings Date_parse localeCompare orderBy nodesById heap) roots) nodesById diagnostics))
    = Some forest
    /\ forest_ok orderBy forest /\ fo_diagnostics forest = diagnostics.
Proof.
  intros Hfuel. rewrite attach_all. fold roots0. destruct (trees_ok fuel orderBy Hfuel) as (po & Hloop & [Hlen Hset] & Hpo).
  rewrite Hloop. simpl. eexists. split; [reflexivity|]. split; [|done]. constructor; simpl; [done| |done|done].
  intros i node Hi. apply lookup_lt_Some in Hi as Hlt. rewrite Hlen in Hlt. destruct (lookup_lt_is_Some_2 _ _ Hlt) as [s Hs].
  destruct (Hset _ _ Hs) as (node' & Hn & _ & Hin). rewrite Hi in Hn. injection Hn as <-. apply Hin. rewrite Hpo, elem_of_seq. lia.
Qed.
End Derive.

(** ** The derivation *)

Definition cycle_members_ok (sessions : list AiSessionHierarchyRecord) (members : list jsstring) : Prop :=
  NoDup members /\ (forall x, x ∈ members -> on_cycle (candidate_links sessions) x)
  /\ (forall x, x ∈ hr_id <$> sessions -> on_cycle (candidate_links sessions) x -> x ∈ members).

Definition final_links (sessions : list AiSessionHierarchyRecord) (members : list jsstring) : jsmap jsstring jsstring :=
  foldl (fun m id => mdelete id m) (candidate_links sessions) members.

Definition candidate_diagnostics (sessions : list AiSessionHierarchyRecord) : list AiSessionHierarchyDiagnostic :=
  (foldl (candidate_parent (index_identities sessions)) (ix_diagnostics (index_identities sessions), []) sessions).1.

Lemma candidate_links_ids sessions x y :
  mget x (candidate_links sessions) = Some y -> y ∈ hr_id <$> sessions.
Proof.
  intros (s & _ & _ & (p & _ & Hp & <- & _)%parent_link_of_Some)%candidate_links_Some. by apply list_elem_of_fmap_2.
Qed.

(** What [find_cycles] collects, and the rank it leaves. *)
Lemma cycles_of_sessions sessions fuel :
  length sessions < fuel -> exists members rank bound,
    find_cycles fuel (candidate_links sessions) sessions [] [] = Some members /\ cycle_members_ok sessions members
    /\ (forall s, s ∈ sessions -> truthy (hr_id s) = true -> rank (hr_id s) < bound)
    /\ (forall s y, s ∈ sessions -> mget (hr_id s) (final_links sessions members) = Some y -> truthy y = true ->
         truthy (hr_id s) = true -> rank y < rank (hr_id s)).
Proof.
  intros Hfuel.
  destruct (find_cycles_ok (candidate_links sessions) (hr_id <$> sessions) (candidate_links_ids sessions) fuel sessions [] []
    (fun _ => 0) 0) as (complete & members & rank & bound & Hf & Hok & _ & Hnd & Hall).
  - intros s. apply list_elem_of_fmap_2.
  - assert (length (remove_dups (hr_id <$> sessions)) <= length (hr_id <$> sessions)).
    { apply submseteq_length, NoDup_submseteq; [apply NoDup_remove_dups|]. intros x. by rewrite elem_of_remove_dups. }
    rewrite length_fmap in H. lia.
  - constructor; intros x; set_solver.
  - apply NoDup_nil_2.
  - exists members, rank, bound. split; [done|]. split; [|split].
    + split; [done|]. split.
      * intros x Hx. destruct (co_cycles _ _ _ _ _ Hok _ Hx) as (c & ? & ? & _). by exists c.
      * intros x Hx (c & Hc & Hxc). eapply cycle_collected; [apply candidate_links_ids|exact Hok| |exact Hc|exact Hxc].
        intros z (s & -> & Hs)%list_elem_of_fmap Ht. by apply Hall.
    + intros s Hs Ht. eapply co_bound; [exact Hok|by apply Hall].
    + intros s y Hs Hy Hty Ht. unfold final_links in Hy. rewrite mget_delete_all in Hy. case_decide; [done|].
      by eapply (co_rank _ _ _ _ _ Hok); eauto.
Qed.

Lemma find_cycles_some_fuel sessions fuel members :
  find_cycles fuel (candidate_links sessions) sessions [] [] = Some members -> length sessions < fuel ->
  forall fuel', length sessions < fuel' -> find_cycles fuel' (candidate_links sessions) sessions [] [] = Some members.
Proof.
  intros H Hf fuel' Hf'. destruct (cycles_of_sessions sessions fuel' Hf') as (m' & _ & _ & H' & _).
  destruct (Nat.le_ge_cases fuel fuel'); [by eapply find_cycles_mono|].
  pose proof (find_cycles_mono _ fuel _ _ _ _ _ H' H0) as H1. congruence.
Qed.

(** Fuel for [n] sessions. *)
Definition hierarchy_fuel (sessions : list AiSessionHierarchyRecord) : nat := 2 * length sessions + 1.

Section DeriveOk.
Context (Date_parse : jsstring -> option Z) (localeCompare : jsstring -> jsstring -> Z).
Context (orderBy : option AiSessionForestOrder) (sessions : list AiSessionHierarchyRecord).

(** The forest of some sessions. *)
Record derived (members : list jsstring) (forest : AiSessionForest) : Prop := Derived {
  dv_members : cycle_members_ok sessions members;
  dv_forest : forest_ok Date_parse localeCompare sessions (final_links sessions members) orderBy forest;
  dv_diagnostics : fo_diagnostics forest
    = candidate_diagnostics sessions ++ (cycle_diagnostic sessions (index_ids sessions) <$> members);
  dv_rank : exists rank bound, (forall s, s ∈ sessions -> truthy (hr_id s) = true -> rank (hr_id s) < bound)
    /\ (forall s y, s ∈ sessions -> mget (hr_id s) (final_links sessions members) = Some y -> truthy y = true ->
         truthy (hr_id s) = true -> rank y < rank (hr_id s))
}.

Lemma derive_ok fuel :
  hierarchy_fuel sessions <= fuel -> exists members forest,
    deriveAiSessionForest Date_parse localeCompare fuel orderBy sessions = Some forest /\ derived members forest.
Proof.
  unfold hierarchy_fuel. intros Hfuel.
  destruct (cycles_of_sessions sessions fuel) as (members & rank & bound & Hf & Hm & Hb & Hr); [lia|].
  destruct (forest_built Date_parse localeCompare sessions (final_links sessions members) rank bound Hb Hr fuel orderBy
     (candidate_diagnostics sessions ++ (cycle_diagnostic sessions (index_ids sessions) <$> members))) as (forest & Hbuilt & Hok & Hd); [lia|].
  exists members, forest. split; [|by constructor; eauto].
  unfold deriveAiSessionForest. unfold candidate_diagnostics, candidate_links, final_links in *.
  destruct (foldl (candidate_parent _) _ sessions) as [ds ls] eqn:Hfold. simpl in *.
  rewrite Hf. simpl. unfold candidate_links in Hbuilt. rewrite Hfold in Hbuilt. exact Hbuilt.
Qed.

Lemma derive_mono fuel fuel' forest :
  deriveAiSessionForest Date_parse localeCompare fuel orderBy sessions = Some forest -> fuel <= fuel' ->
  deriveAiSessionForest Date_parse localeCompare fuel' orderBy sessions = Some forest.
Proof.
  intros H Hle. unfold deriveAiSessionForest in *. destruct (foldl (candidate_parent _) _ _) as [ds ls].
  destruct (find_cycles fuel _ _ _ _) as [members|] eqn:Hc; [|done]. rewrite (find_cycles_mono _ _ _ _ _ _ _ Hc Hle). simpl in *.
  destruct (foldl (attach _ _) _ _) as [heap roots].
  destruct (postorder_loop fuel _ _ _) as [po|] eqn:Hpo; [|done]. rewrite (loop_mono _ _ _ _ _ _ Hpo Hle). exact H.
Qed.

(** More fuel changes nothing. *)
Lemma derive_total :
  exists members forest, derived members forest /\ forall fuel, hierarchy_fuel sessions <= fuel ->
    deriveAiSessionForest Date_parse localeCompare fuel orderBy sessions = Some forest.
Proof.
  destruct (derive_ok (hierarchy_fuel sessions)) as (members & forest & H & Hd); [done|]. exists members, forest.
  split; [done|]. intros fuel Hf. by eapply derive_mono.
Qed.

Lemma derive_derived fuel forest :
  deriveAiSessionForest Date_parse localeCompare fuel orderBy sessions = Some forest -> exists members, derived members forest.
Proof.
  intros H. destruct derive_total as (members & forest' & Hd & Hall). exists members.
  pose proof (derive_mono _ (Nat.max fuel (hierarchy_fuel sessions)) _ H ltac:(lia)) as H'.
  rewrite Hall in H' by lia. congruence.
Qed.
End DeriveOk.
