(* ===== verification/HierarchyReading.v ===== *)
(** * Reading the hierarchy

    The loops of [Hierarchy] that read a derived forest - the subtree of a
    session, its root, its ancestors, the filtered and the flattened tree -
    end within the fuel for its sessions, and what they list; then the
    candidates for retention, and what links and diagnostics say of sessions
    with unique identifiers. *)

From S2P Require Export HierarchyForest.

Section Reading.
Context (Date_parse : jsstring -> option Z) (localeCompare : jsstring -> jsstring -> Z).
Context (orderBy : option AiSessionForestOrder) (sessions : list AiSessionHierarchyRecord).
Context (members : list jsstring) (forest : AiSessionForest).
Hypothesis Hd : derived Date_parse localeCompare orderBy sessions members forest.
Abbreviation n := (length sessions).

Definition tree_parent : nat -> option nat := parent_ref sessions (final_links sessions members).
Definition tree_children : nat -> list nat := children_of (fo_nodes forest).

(** The forest is a forest of numbers in the sense of [HierarchyTrees]. *)
Record ranked (rank : nat -> nat) (bound : nat) : Prop := Ranked {
  rk_below i p : i < n -> tree_parent i = Some p -> p < n;
  rk_rank i p : i < n -> tree_parent i = Some p -> rank p < rank i;
  rk_bound i : i < n -> rank i <= bound;
  rk_children i : i < n -> tree_children i ≡ₚ filter (fun c => tree_parent c = Some i) (seq 0 n)
}.

Lemma node_settled i node :
  fo_nodes forest !! i = Some node ->
  settled Date_parse localeCompare sessions (final_links sessions members) orderBy (fo_nodes forest) i node.
Proof. apply fk_nodes. by eapply dv_forest. Qed.

Lemma node_exists i : i < n -> exists node, fo_nodes forest !! i = Some node.
Proof. intros Hi. apply lookup_lt_is_Some_2. by rewrite (fk_length _ _ _ _ _ _ (dv_forest _ _ _ _ _ _ Hd)). Qed.

Lemma node_lt i node : fo_nodes forest !! i = Some node -> i < n.
Proof. intros Hi%lookup_lt_Some. by rewrite (fk_length _ _ _ _ _ _ (dv_forest _ _ _ _ _ _ Hd)) in Hi. Qed.

Lemma tree_children_perm i : i < n -> tree_children i ≡ₚ filter (fun c => tree_parent c = Some i) (seq 0 n).
Proof.
  intros Hi. destruct (node_exists _ Hi) as [node Hn]. unfold tree_children, children_of. rewrite Hn.
  rewrite (st_children _ _ _ _ _ _ _ _ (node_settled _ _ Hn)). by rewrite js_sort_perm.
Qed.

Lemma tree_ranked : exists rank bound, ranked rank bound.
Proof.
  destruct (dv_rank _ _ _ _ _ _ Hd) as (rank & bound & Hb & Hr). exists (node_rank sessions rank bound), bound. constructor.
  - intros i p _. apply parent_ref_lt.
  - intros i p. by apply parent_rank_falls.
  - intros i. by apply node_rank_bound.
  - apply tree_children_perm.
Qed.

Lemma roots_perm : fo_roots forest ≡ₚ filter (fun r => tree_parent r = None) (seq 0 n).
Proof. rewrite (fk_roots _ _ _ _ _ _ (dv_forest _ _ _ _ _ _ Hd)). by rewrite js_sort_perm. Qed.

Lemma elem_of_roots i : i ∈ fo_roots forest <-> i < n /\ tree_parent i = None.
Proof. rewrite roots_perm, list_elem_of_filter, elem_of_seq. intuition lia. Qed.

Lemma forest_ids : fo_nodesById forest = index_ids sessions.
Proof. by eapply fk_ids, dv_forest. Qed.

Lemma ids_lt id i : mget id (fo_nodesById forest) = Some i -> i < n.
Proof. rewrite forest_ids. intros (s & Hs & _)%index_ids_Some. by apply lookup_lt_Some in Hs. Qed.

(** A node's parent id leads to its parent's node, and a root has none. *)
Lemma parent_link_step i node :
  fo_nodes forest !! i = Some node ->
  match tree_parent i with
  | None => parent_link node = None
  | Some p => exists pnode, fo_nodes forest !! p = Some pnode
      /\ parent_link node = Some (hr_id (tn_session pnode)) /\ node_at forest (hr_id (tn_session pnode)) = Some pnode
  end.
Proof.
  intros Hi. pose proof (st_parent _ _ _ _ _ _ _ _ (node_settled _ _ Hi)) as Hp. unfold parent_link. rewrite Hp.
  unfold parent_id. fold tree_parent. destruct (tree_parent i) as [p|] eqn:Hpar; [|done]. simpl.
  apply parent_ref_Some in Hpar as (s & y & q & _ & _ & Ht & Hy & Hq & Hid). apply lookup_lt_Some in Hq as Hlt.
  destruct (node_exists _ Hlt) as [pnode Hpn]. pose proof (st_session _ _ _ _ _ _ _ _ (node_settled _ _ Hpn)) as Hs.
  assert (q = tn_session pnode) as -> by congruence. exists pnode. split; [done|]. rewrite Hq. simpl.
  unfold node_at. rewrite Hid, forest_ids, Hy. split; [|done]. by destruct y.
Qed.

(** ** Subtrees *)

Section Ranked.
Context (rank : nat -> nat) (bound : nat).
Hypothesis Hrank : ranked rank bound.
Abbreviation sub := (subtree rank bound tree_children).

Lemma tree_climbs i : i < n -> exists path, climbs tree_parent i path /\ length path < n.
Proof. destruct Hrank. by apply (climbs_total n tree_parent rank). Qed.

Lemma subtree_length i : i < n -> length (sub i) <= n.
Proof.
  destruct Hrank. intros Hi. rewrite <- (length_seq n 0). apply submseteq_length, NoDup_submseteq.
  - by apply (NoDup_subtree n tree_parent).
  - intros j Hj. apply (elem_of_subtree n tree_parent rank bound) in Hj as [Hj _]; eauto. apply elem_of_seq. lia.
Qed.

Lemma subtree_postorder fuel id i :
  mget id (fo_nodesById forest) = Some i -> hierarchy_fuel sessions <= fuel ->
  aiSessionSubtreePostorder fuel forest id = Some (sub i).
Proof.
  intros Hi Hfuel. pose proof (ids_lt _ _ Hi) as Hlt. unfold aiSessionSubtreePostorder. rewrite Hi.
  pose proof (subtree_length _ Hlt). unfold hierarchy_fuel in Hfuel. destruct Hrank.
  apply (loop_mono (2 * length (sub i) + 0)); [|lia]. by apply (loop_subtree n tree_parent).
Qed.
End Ranked.

(** ** Walks to the root *)

Lemma root_loop_climbs path i node fuel :
  climbs tree_parent i path -> fo_nodes forest !! i = Some node -> length path <= fuel ->
  exists root rnode, root_loop fuel forest (Some node) = Some (Some rnode) /\ last (i :: path) = Some root
    /\ fo_nodes forest !! root = Some rnode.
Proof.
  intros Hc. revert node fuel. induction Hc as [i Hp|i p path Hp Hc IH]; intros node fuel Hi Hfuel;
    pose proof (parent_link_step _ _ Hi) as Hl; rewrite Hp in Hl.
  - exists i, node. split; [|done]. destruct fuel; simpl; by rewrite Hl.
  - destruct Hl as (pnode & Hpn & Hl & Hat). simpl in Hfuel. destruct fuel as [|fuel]; [lia|]. simpl. rewrite Hl, Hat.
    destruct (IH pnode fuel Hpn ltac:(lia)) as (root & rnode & ? & ? & ?). by exists root, rnode.
Qed.

Lemma ancestors_loop_climbs path i node fuel acc :
  climbs tree_parent i path -> fo_nodes forest !! i = Some node -> length path <= fuel ->
  ancestors_loop fuel forest (Some node) acc = Some (acc ++ (hr_id <$> omap (fun j => sessions !! j) path)).
Proof.
  intros Hc. revert node fuel acc. induction Hc as [i Hp|i p path Hp Hc IH]; intros node fuel acc Hi Hfuel;
    pose proof (parent_link_step _ _ Hi) as Hl; rewrite Hp in Hl.
  - simpl. rewrite app_nil_r. destruct fuel; simpl; by rewrite Hl.
  - destruct Hl as (pnode & Hpn & Hl & Hat). simpl in Hfuel. destruct fuel as [|fuel]; [lia|]. simpl. rewrite Hl, Hat.
    rewrite (IH pnode) by (done || lia). rewrite (st_session _ _ _ _ _ _ _ _ (node_settled _ _ Hpn)). simpl.
    by rewrite <- app_assoc.
Qed.

(** The ids a walk reveals. *)
Definition revealed (path : list nat) (ids : list jsstring) : list jsstring :=
  foldl (fun ids j => match sessions !! j with Some s => js_add (hr_id s) ids | None => ids end) ids path.

Lemma reveal_climbs path i node fuel filter_ :
  climbs tree_parent i path -> fo_nodes forest !! i = Some node -> length path <= fuel ->
  reveal_ancestors fuel forest node filter_ = Some (revealed path filter_.1, revealed path filter_.2).
Proof.
  intros Hc. revert node fuel filter_. induction Hc as [i Hp|i p path Hp Hc IH]; intros node fuel filter_ Hi Hfuel;
    pose proof (parent_link_step _ _ Hi) as Hl; rewrite Hp in Hl.
  - simpl. destruct filter_. destruct fuel; simpl; by rewrite Hl.
  - destruct Hl as (pnode & Hpn & Hl & Hat). simpl in Hfuel. destruct fuel as [|fuel]; [lia|]. simpl. rewrite Hl, Hat.
    rewrite (IH pnode) by (done || lia). by rewrite (st_session _ _ _ _ _ _ _ _ (node_settled _ _ Hpn)).
Qed.
(** ** The filtered tree *)

Lemma filter_nodes_total (predicate : AiSessionHierarchyRecord -> bool) refs filter_ :
  Forall (fun i => i < n) refs -> exists out, forall fuel, hierarchy_fuel sessions <= fuel ->
    filter_nodes fuel forest predicate refs filter_ = Some out.
Proof.
  intros Hall. revert filter_. induction Hall as [|i refs Hi Hall IH]; intros filter_; [by eexists|].
  destruct tree_ranked as (rank & bound & Hrank). destruct (tree_climbs _ _ Hrank _ Hi) as (path & Hc & Hlen).
  destruct (node_exists _ Hi) as [node Hn]. simpl. rewrite Hn. destruct (predicate (tn_session node)); [|apply IH].
  destruct (IH (revealed path (js_add (hr_id (tn_session node)) filter_.1), revealed path filter_.2)) as [out Hout].
  exists out. intros fuel Hf. rewrite (reveal_climbs path i) by (done || (unfold hierarchy_fuel in Hf; lia)). simpl. by apply Hout.
Qed.

Lemma values_lt : Forall (fun i => i < n) (mvalues (fo_nodesById forest)).
Proof.
  rewrite forest_ids. unfold index_ids. assert (H : forall (l : list (nat * AiSessionHierarchyRecord)) m,
    Forall (fun i => i < n) (mvalues m) -> Forall (fun p => p.1 < n) l ->
    Forall (fun i => i < n) (mvalues (foldl (fun m '(i, s) => mset (hr_id s) i m) m l))).
  { induction l as [|[i s] l IH]; intros m Hm Hl; simpl; [done|]. apply Forall_cons in Hl as [Hi Hl]. apply IH; [|done].
    clear -Hm Hi. induction m as [|[k v] m IHm]; simpl; [by constructor|]. apply Forall_cons in Hm as [Hv Hm].
    case_decide; constructor; try done. by apply IHm. }
  apply H; [constructor|]. apply Forall_lookup. intros j [i s] Hj. rewrite list_lookup_imap in Hj.
  apply fmap_Some in Hj as (s' & Hs & [= -> ->]). simpl. by apply lookup_lt_Some in Hs.
Qed.

(** ** The flattened tree *)

Section Flatten.
Context (rank : nat -> nat) (bound : nat).
Hypothesis Hrank : ranked rank bound.
Context (visible expanded : jsstring -> bool).
Abbreviation sub := (subtree rank bound tree_children).

(** The loop lists [out] for some stack entries, within [size] steps. *)
Definition flattens (entries : list (nat * nat)) (size : nat) (out : list (nat * nat)) : Prop :=
  forall fuel k stack rest acc, size + k <= fuel ->
    (forall fuel acc, k <= fuel -> flatten_loop fuel forest visible expanded stack acc = Some (acc ++ rest)) ->
    flatten_loop fuel forest visible expanded (entries ++ stack) acc = Some (acc ++ out ++ rest).

Lemma flattens_list depth cs :
  (forall c, c ∈ cs -> exists out, flattens [(c, depth)] (length (sub c)) out) ->
  exists out, flattens ((fun c => (c, depth)) <$> cs) (length (cs ≫= sub)) out.
Proof.
  induction cs as [|c cs IH]; intros Hcs.
  - exists []. intros fuel k stack rest acc Hf Hs. simpl in *. by apply Hs.
  - destruct (Hcs c) as [out1 H1]; [by left|]. destruct IH as [out2 H2]; [intros c' Hc'; apply Hcs; by right|].
    exists (out1 ++ out2). intros fuel k stack rest acc Hf Hs. rewrite bind_cons, length_app in Hf. rewrite fmap_cons.
    rewrite <- app_assoc. apply (H1 fuel (length (cs ≫= sub) + k)); [lia|]. intros fuel' acc' Hf'. by apply (H2 fuel' k).
Qed.

Lemma flattens_tree i : i < n -> forall depth, exists out, flattens [(i, depth)] (length (sub i)) out.
Proof.
  destruct Hrank as [H1 H2 H3 H4]. revert i. refine (leaf_ind n tree_parent rank bound H2 H3 _ _). intros i Hi IH depth.
  rewrite (subtree_eq n tree_parent rank bound H2 H3 tree_children H4 i Hi), length_app. simpl length.
  destruct (node_exists _ Hi) as [node Hn].
  destruct (flattens_list (S depth) (tree_children i)) as [out Hout].
  { intros c Hc. apply (elem_of_children n tree_parent tree_children H4) in Hc as [Hc Hp]; [|done]. by apply IH. }
  rewrite (Permutation_length (bind_Permutation _ _ _ (reverse_Permutation _))).
  unfold flattens. cbn [app]. destruct (visible (hr_id (tn_session node))) eqn:Hv.
  - destruct (expanded (hr_id (tn_session node))) eqn:He.
    + exists ((i, depth) :: out). intros [|fuel] k stack rest acc Hf Hs; [lia|]. cbn [flatten_loop]. rewrite Hn, Hv, He. simpl.
      replace (tn_children node) with (tree_children i) by (unfold tree_children, children_of; by rewrite Hn).
      rewrite (Hout fuel k stack rest) by (done || lia). by rewrite <- app_assoc.
    + exists [(i, depth)]. intros [|fuel] k stack rest acc Hf Hs; [lia|]. cbn [flatten_loop]. rewrite Hn, Hv, He. simpl.
      rewrite Hs by lia. by rewrite <- app_assoc.
  - exists []. intros [|fuel] k stack rest acc Hf Hs; [lia|]. cbn [flatten_loop]. rewrite Hn, Hv. simpl. apply Hs. lia.
Qed.

Lemma flatten_total : exists out, forall fuel, hierarchy_fuel sessions <= fuel ->
  flatten_loop fuel forest visible expanded ((fun ref => (ref, 0)) <$> fo_roots forest) [] = Some out.
Proof.
  destruct Hrank as [H1 H2 H3 H4].
  destruct (flattens_list 0 (fo_roots forest)) as [out Hout].
  { intros r [Hr _]%elem_of_roots. by apply flattens_tree. }
  exists out. intros fuel Hf. specialize (Hout fuel 0 [] [] []). rewrite !app_nil_r in Hout. apply Hout.
  - rewrite (forest_partition n tree_parent rank bound H1 H2 H3 tree_children H4 _ roots_perm), length_seq.
    unfold hierarchy_fuel in Hf. lia.
  - intros fuel' acc _. rewrite app_nil_r. by destruct fuel'.
Qed.
End Flatten.
End Reading.

(** ** The trees that may be removed

    The aggregates of a derived forest, the ids of its trees, and the
    candidates for retention of [Hierarchy]. *)

(** A session's node refers to another session as its parent. *)
Definition child_of (forest : AiSessionForest) (x y : jsstring) : Prop :=
  exists node, node_at forest x = Some node /\ tn_parentSessionId node = Some y.

Section Retention.
Context (Date_parse : jsstring -> option Z) (localeCompare : jsstring -> jsstring -> Z).
Context (orderBy : option AiSessionForestOrder) (sessions : list AiSessionHierarchyRecord).
Context (members : list jsstring) (forest : AiSessionForest).
Hypothesis Hd : derived Date_parse localeCompare orderBy sessions members forest.
Abbreviation n := (length sessions).
Abbreviation par := (tree_parent sessions members).
Abbreviation kids := (tree_children forest).
Abbreviation T v := (timestamp Date_parse (Some v)).

Lemma node_session i node : fo_nodes forest !! i = Some node -> sessions !! i = Some (tn_session node).
Proof. intros Hi. eapply st_session, node_settled; eauto. Qed.

Lemma session_node i s : sessions !! i = Some s -> exists node, fo_nodes forest !! i = Some node /\ tn_session node = s.
Proof.
  intros Hs. destruct (node_exists _ _ _ _ _ _ Hd i) as [node Hn]; [by apply lookup_lt_Some in Hs|]. exists node. split; [done|].
  apply node_session in Hn. congruence.
Qed.

(** ** Candidates *)

Section Ranked.
Context (rank : nat -> nat) (bound : nat).
Hypothesis Hrank : ranked sessions members forest rank bound.
Abbreviation sub := (subtree rank bound kids).
Context (idle : AiSessionHierarchyRecord -> bool).

Definition tree_sessions (i : nat) : list AiSessionHierarchyRecord := sessions_at forest (sub i).

Definition candidate_of (root : AiSessionTreeNode) : list AiSessionRetentionCandidate :=
  if is_subagent (tn_session root) then []
  else
    let sessions := match mget (hr_id (tn_session root)) (fo_nodesById forest) with Some i => tree_sessions i | None => [] end in
    if forallb idle sessions
    then [RetentionCandidate (tn_session root) (hr_id <$> sessions) (tn_aggregateLastActiveAt root)] else [].

Lemma root_candidates_total fuel roots :
  hierarchy_fuel sessions <= fuel -> root_candidates fuel forest idle roots = Some (roots ≫= candidate_of).
Proof.
  intros Hf. induction roots as [|root roots IH]; simpl; [done|]. rewrite IH. unfold root_candidate, candidate_of.
  destruct (is_subagent (tn_session root)); simpl; [done|]. destruct (mget _ _) as [i|] eqn:Hi.
  - rewrite (subtree_postorder _ _ _ _ _ _ Hd _ _ Hrank fuel _ i Hi Hf). simpl. done.
  - unfold aiSessionSubtreePostorder. rewrite Hi. simpl. done.
Qed.

(** ** Trees *)

Lemma elem_of_sub i j : i < n -> j ∈ sub i <-> j < n /\ below n par j i.
Proof. destruct Hrank. by apply (elem_of_subtree n par rank bound). Qed.

Lemma lookup_nodes l : Forall (fun i => i < n) l ->
  sessions_at forest l = omap (fun i => sessions !! i) l.
Proof.
  unfold sessions_at. induction 1 as [|i l Hi _ IH]; simpl; [done|]. destruct (node_exists _ _ _ _ _ _ Hd i Hi) as [node Hn].
  rewrite Hn, (node_session _ _ Hn). simpl. by f_equal.
Qed.

Lemma sub_lt i : i < n -> Forall (fun j => j < n) (sub i).
Proof. intros Hi. apply Forall_forall. intros j Hj. by apply elem_of_sub in Hj as [? _]. Qed.

Lemma elem_of_tree_sessions i s : i < n -> s ∈ tree_sessions i <-> exists j, sessions !! j = Some s /\ below n par j i.
Proof.
  intros Hi. unfold tree_sessions. rewrite lookup_nodes by by apply sub_lt. rewrite list_elem_of_omap. split.
  - intros (j & Hj & Hs). exists j. split; [done|]. by apply elem_of_sub in Hj as [_ ?].
  - intros (j & Hs & Hb). exists j. split; [|done]. apply elem_of_sub; [done|]. split; [by apply lookup_lt_Some in Hs|done].
Qed.

(** ** Aggregates *)

Lemma latest_of_omap heap f own cs :
  latest_of Date_parse heap f own cs = foldl (fun a c => latestTimestamp Date_parse a (f c)) own (omap (fun c => heap !! c) cs).
Proof. unfold latest_of. revert own. induction cs as [|c cs IH]; intros own; simpl; [done|]. by destruct (heap !! c); simpl. Qed.

(** A tree's last activity is the latest of its sessions'. *)
Lemma aggregate_active i node :
  fo_nodes forest !! i = Some node ->
  (exists s, s ∈ tree_sessions i /\ tn_aggregateLastActiveAt node = ownLastActiveAt Date_parse s)
  /\ forall s, s ∈ tree_sessions i -> (T (ownLastActiveAt Date_parse s) <= T (tn_aggregateLastActiveAt node))%Z.
Proof.
  intros Hn. pose proof (node_lt _ _ _ _ _ _ Hd _ _ Hn) as Hi. revert node Hn. destruct Hrank as [R1 R2 R3 R4].
  revert i Hi. refine (leaf_ind n par rank bound R2 R3 _ _). intros i Hi IH node Hn.
  pose proof (node_settled _ _ _ _ _ _ Hd _ _ Hn) as Hst. pose proof (st_active _ _ _ _ _ _ _ _ Hst) as Ha.
  rewrite latest_of_omap in Ha. symmetry in Ha. apply (latest_fold Date_parse localeCompare) in Ha as (Hr & Hown & Hkids).
  assert (Hkid : forall c cn, c ∈ children0 sessions (final_links sessions members) i -> fo_nodes forest !! c = Some cn ->
     c < n /\ par c = Some i /\ (forall s, s ∈ tree_sessions c -> s ∈ tree_sessions i)).
  { intros c cn [Hc Hp]%elem_of_children0 _. split; [done|]. split; [done|]. intros s (j & Hj & Hb)%elem_of_tree_sessions; [|done].
    apply elem_of_tree_sessions; [done|]. exists j. split; [done|]. eapply rtc_r; [exact Hb|]. done. }
  split.
  - destruct Hr as [Hr|(cn & Hcn & Hr)].
    + exists (tn_session node). split; [|done]. apply elem_of_tree_sessions; [done|]. exists i. split; [by apply node_session|constructor].
    + apply list_elem_of_omap in Hcn as (c & Hc & Hcn). destruct (Hkid _ _ Hc Hcn) as (Hlt & Hp & Hsub).
      destruct (IH c Hlt Hp cn Hcn) as [(s & Hs & He) _]. exists s. split; [by apply Hsub|by rewrite Hr].
  - intros s (j & Hj & Hb)%elem_of_tree_sessions; [|done]. apply rtc_inv_r in Hb as [-> |(c & Hjc & [Hc Hp])].
    + apply node_session in Hn. replace s with (tn_session node) by congruence. done.
    + destruct (node_exists _ _ _ _ _ _ Hd c Hc) as [cn Hcn]. destruct (IH c Hc Hp cn Hcn) as [_ Hle].
      etrans; [apply (Hle s)|].
      * apply elem_of_tree_sessions; [done|]. by exists j.
      * apply Hkids. apply list_elem_of_omap. exists c. split; [|done]. apply elem_of_children0. done.
Qed.
End Ranked.
End Retention.

(** ** Who names whom

    With unique identifiers, what [Hierarchy]'s links, cycles and diagnostics
    say of the sessions themselves: the relation of a session to the session
    it names as its parent. *)

(** A session names another as its parent. *)
Definition names (sessions : list AiSessionHierarchyRecord) (s p : AiSessionHierarchyRecord) : Prop :=
  s ∈ sessions /\ named_parent sessions s = Some p /\ hr_id p <> hr_id s.

(** The diagnostic of a session's own link. *)
Definition with_provider (sessions : list AiSessionHierarchyRecord) (provider : jsstring) : list AiSessionHierarchyRecord :=
  filter (fun c => hr_providerSessionId c = Some provider /\ truthy provider = true) sessions.

Definition link_diagnostic (sessions : list AiSessionHierarchyRecord) (s : AiSessionHierarchyRecord)
  : option AiSessionHierarchyDiagnostic :=
  parentProvider ← subagent_parent s;
  match named_parent sessions s with
  | None => Some (Diagnostic (hr_id s) (missing_parent_code s (with_provider sessions parentProvider)) (Some parentProvider))
  | Some p => if decide (hr_id p = hr_id s) then Some (Diagnostic (hr_id s) SelfParent (Some parentProvider)) else None
  end.

Lemma index_by_provider sessions provider :
  default [] (mget provider (ix_byProviderId (index_identities sessions))) = with_provider sessions provider.
Proof.
  assert (H : forall l ix, default [] (mget provider (ix_byProviderId (foldl index_identity ix l)))
    = default [] (mget provider (ix_byProviderId ix)) ++ with_provider l provider).
  { unfold with_provider. induction l as [|s l IH]; intros ix; simpl; [by rewrite app_nil_r|]. rewrite IH, filter_cons.
    unfold index_identity. destruct (hr_providerSessionId s) as [p|] eqn:Hp; [|by rewrite decide_False by (intros [? _]; congruence)].
    destruct (truthy p) eqn:Ht; simpl.
    - destruct (decide (p = provider)) as [<-|E].
      + rewrite mget_mset_eq. rewrite decide_True by (split; [done|by rewrite Ht]). simpl. by rewrite <- app_assoc.
      + rewrite mget_mset_ne by congruence. by rewrite decide_False by (intros [? _]; congruence).
    - by rewrite decide_False by (intros [? ?]; congruence). }
  unfold index_identities. by rewrite H.
Qed.

Lemma candidate_diagnostics_eq sessions :
  candidate_diagnostics sessions = ix_diagnostics (index_identities sessions) ++ omap (link_diagnostic sessions) sessions.
Proof.
  unfold candidate_diagnostics. assert (H : forall l st, (foldl (candidate_parent (index_identities sessions)) st l).1
    = st.1 ++ omap (link_diagnostic sessions) l).
  { induction l as [|s l IH]; intros [ds m]; simpl; [by rewrite app_nil_r|]. rewrite IH. unfold candidate_parent, link_diagnostic, named_parent.
    destruct (subagent_parent s) as [pp|]; simpl; [|done]. rewrite index_identities_spec, index_by_provider.
    destruct (named _ _) as [p|]; simpl; [|by rewrite <- app_assoc]. case_decide; simpl; [by rewrite <- app_assoc|done]. }
  by rewrite H.
Qed.

Lemma index_diagnostics sessions d :
  d ∈ ix_diagnostics (index_identities sessions) -> dg_code d = DuplicateProviderIdentity.
Proof.
  unfold index_identities. assert (H : forall l ix, (forall d, d ∈ ix_diagnostics ix -> dg_code d = DuplicateProviderIdentity) ->
    forall d, d ∈ ix_diagnostics (foldl index_identity ix l) -> dg_code d = DuplicateProviderIdentity).
  { induction l as [|s l IH]; intros ix Hix; simpl; [done|]. apply IH. intros d'. unfold index_identity.
    destruct (hr_providerSessionId s); [|apply Hix]. destruct (truthy _); [|apply Hix]. simpl. case_match; [|apply Hix].
    intros [Hd| ->%list_elem_of_singleton]%elem_of_app; [by apply Hix|done]. }
  apply H. by intros d' ?%elem_of_nil.
Qed.

Section Unique.
Context (sessions : list AiSessionHierarchyRecord).
Hypothesis Hnd : NoDup (hr_id <$> sessions).

Lemma id_unique i j s t : sessions !! i = Some s -> sessions !! j = Some t -> hr_id s = hr_id t -> i = j /\ s = t.
Proof.
  intros Hi Hj E. assert (i = j) as ->; [|split; congruence].
  apply (NoDup_lookup _ _ _ (hr_id s) Hnd); rewrite list_lookup_fmap; [by rewrite Hi|by rewrite Hj, E].
Qed.

Lemma id_inj s t : s ∈ sessions -> t ∈ sessions -> hr_id s = hr_id t -> s = t.
Proof. intros [i Hi]%list_elem_of_lookup [j Hj]%list_elem_of_lookup E. by apply (id_unique i j). Qed.

Lemma names_elem s p : names sessions s p -> s ∈ sessions /\ p ∈ sessions.
Proof.
  intros (Hs & Hp & _). split; [done|]. unfold named_parent in Hp. destruct (subagent_parent s); [|done].
  by apply named_Some in Hp as [? _].
Qed.

(** The candidate links are the names. *)
Lemma linked_names s y :
  s ∈ sessions -> mget (hr_id s) (candidate_links sessions) = Some y <-> exists p, names sessions s p /\ hr_id p = y.
Proof.
  intros Hs. rewrite candidate_links_unique by done. split.
  - intros (p & Hp & _ & Hid & Hne)%parent_link_of_Some. exists p. unfold names. split_and!; congruence.
  - intros (p & (_ & Hp & Hne) & <-). unfold parent_link_of. rewrite Hp. simpl. by rewrite decide_False.
Qed.

Lemma cycle_names s : s ∈ sessions -> tc (linked (candidate_links sessions)) (hr_id s) (hr_id s) <-> tc (names sessions) s s.
Proof.
  intros Hs. split.
  - assert (H : forall x y, tc (linked (candidate_links sessions)) x y -> forall s t, s ∈ sessions -> t ∈ sessions ->
      hr_id s = x -> hr_id t = y -> tc (names sessions) s t).
    { induction 1 as [x y Hxy|x y z Hxy _ IH]; intros a b Ha Hb Hax Hby; unfold linked in Hxy; rewrite <- Hax in Hxy;
        apply linked_names in Hxy as (p & Hp & Hpy); try done; destruct (names_elem _ _ Hp) as [_ Hpe].
      - apply tc_once. assert (p = b) as -> by (apply id_inj; congruence). done.
      - eapply tc_l; [exact Hp|]. by apply IH. }
    intros Htc. by eapply H.
  - clear Hs. assert (H : forall a b, tc (names sessions) a b -> tc (linked (candidate_links sessions)) (hr_id a) (hr_id b)).
    { assert (H1 : forall a b, names sessions a b -> linked (candidate_links sessions) (hr_id a) (hr_id b)).
      { intros a b Hab. apply linked_names; [by apply Hab|eauto]. }
      induction 1 as [a b Hab|a b c Hab _ IH]; [by apply tc_once, H1|]. eapply tc_l; [by apply H1|done]. }
    apply H.
Qed.

Hypothesis Htruthy : Forall (fun s => truthy (hr_id s) = true) sessions.

Lemma member_names members s :
  cycle_members_ok sessions members -> s ∈ sessions -> hr_id s ∈ members <-> tc (names sessions) s s.
Proof.
  intros (_ & H1 & H2) Hs. rewrite <- cycle_names by done.
  assert (Ht : forall y z, mget y (candidate_links sessions) = Some z -> truthy z = true).
  { intros y z (t & -> & Ht)%candidate_links_ids%list_elem_of_fmap. by eapply Forall_forall in Htruthy. }
  rewrite <- (on_cycle_tc (candidate_links sessions) _ Ht). split; [apply H1|apply H2; by apply list_elem_of_fmap_2].
Qed.

(** A node's parent is the session it names, off the cycles. *)
Lemma parent_id_names members i s id :
  cycle_members_ok sessions members -> sessions !! i = Some s ->
  parent_id sessions (final_links sessions members) i = Some id
  <-> exists p, names sessions s p /\ hr_id p = id /\ ~ tc (names sessions) s s.
Proof.
  intros Hm Hi. assert (Hs : s ∈ sessions) by by eapply list_elem_of_lookup_2. unfold parent_id, parent_ref. rewrite Hi. simpl.
  unfold final_links. rewrite mget_delete_all. pose proof (member_names members s Hm Hs) as Hcyc. case_decide as Hin; simpl.
  - split; [done|]. intros (p & _ & _ & Hno). by apply Hcyc in Hin.
  - split.
    + destruct (mget (hr_id s) _) as [y|] eqn:Hy; simpl; [|done]. apply linked_names in Hy as (p & Hp & <-); [|done].
      destruct (truthy (hr_id p)); [|done]. intros (j & Hj & (q & Hq & ->)%fmap_Some)%bind_Some.
      apply index_ids_Some in Hj as (q' & Hq' & Hid). exists p. replace q with q' by congruence. split_and!; [done|congruence|tauto].
    + intros (p & Hp & <- & _). destruct (names_elem _ _ Hp) as [_ Hpe].
      rewrite (proj2 (linked_names s (hr_id p) Hs)) by eauto. simpl.
      rewrite (proj1 (Forall_forall _ _) Htruthy p Hpe). apply list_elem_of_lookup in Hpe as [j Hj].
      rewrite (index_ids_unique _ _ _ Hnd Hj). simpl. by rewrite Hj.
Qed.
End Unique.
