(* ===== verification/HierarchySpec.v ===== *)
(** * What the hierarchy of AI sessions promises

    The derivation of the forest and every reading of it end within the fuel
    for the sessions; sessions hang below the parents they name; the
    candidates for retention are whole idle trees. *)

From S2P Require Export HierarchyReading.

(** ** Termination *)

(** C19. Every derivation ends, and so does every reading of the derived
    forest - the postorder of a session's subtree, its root, its ancestors,
    the filtered tree, the flattened tree, the candidates for retention - for
    every list of sessions, also those whose parents form cycles, with
    duplicate or empty identifiers: [2 n + 1] steps of fuel are enough for
    [n] sessions, and the result is the same for all larger fuels. *)
Theorem hierarchy_terminates Date_parse localeCompare orderBy sessions :
  exists forest,
    (forall fuel, hierarchy_fuel sessions <= fuel ->
       deriveAiSessionForest Date_parse localeCompare fuel orderBy sessions = Some forest)
    /\ (forall id, exists refs, forall fuel, hierarchy_fuel sessions <= fuel ->
         aiSessionSubtreePostorder fuel forest id = Some refs)
    /\ (forall id, exists root, forall fuel, hierarchy_fuel sessions <= fuel -> aiSessionRootNode fuel forest id = Some root)
    /\ (forall id, exists ids, forall fuel, hierarchy_fuel sessions <= fuel -> aiSessionAncestorIds fuel forest id = Some ids)
    /\ (forall predicate, exists shown, forall fuel, hierarchy_fuel sessions <= fuel ->
         filterAiSessionForest fuel forest predicate = Some shown)
    /\ (forall expanded forced visible, exists rows, forall fuel, hierarchy_fuel sessions <= fuel ->
         flattenAiSessionForest fuel forest expanded forced visible = Some rows)
    /\ (forall idle, exists candidates, forall fuel, hierarchy_fuel sessions <= fuel ->
         aiSessionRetentionCandidates Date_parse fuel forest idle = Some candidates).
Proof.
  destruct (derive_total Date_parse localeCompare orderBy sessions) as (members & forest & Hd & Hall). exists forest.
  destruct (tree_ranked _ _ _ _ _ _ Hd) as (rank & bound & Hrank).
  assert (Hat : forall id node, node_at forest id = Some node -> exists i path, fo_nodes forest !! i = Some node
     /\ climbs (tree_parent sessions members) i path /\ forall fuel, hierarchy_fuel sessions <= fuel -> length path <= fuel).
  { intros id node (i & Hi & Hn)%bind_Some. destruct (tree_climbs _ _ _ _ _ Hrank i) as (path & Hc & Hl).
    { by eapply ids_lt. }
    exists i, path. split_and!; [done|done|]. unfold hierarchy_fuel. lia. }
  split_and!; [exact Hall| | | | | |].
  - intros id. destruct (mget id (fo_nodesById forest)) as [i|] eqn:Hi.
    + eexists. intros fuel Hf. by eapply subtree_postorder.
    + exists []. intros fuel _. unfold aiSessionSubtreePostorder. by rewrite Hi.
  - intros id. unfold aiSessionRootNode. destruct (node_at forest id) as [node|] eqn:Hn.
    + destruct (Hat _ _ Hn) as (i & path & Hi & Hc & Hl).
      destruct (root_loop_climbs _ _ _ _ _ _ Hd path i node (hierarchy_fuel sessions) Hc Hi (Hl _ ltac:(done))) as (r & rnode & _ & Hr & Hrn).
      exists (Some rnode). intros fuel Hf.
      destruct (root_loop_climbs _ _ _ _ _ _ Hd path i node fuel Hc Hi (Hl _ Hf)) as (r' & rnode' & -> & Hr' & Hrn'). congruence.
    + exists None. intros [|fuel] _; done.
  - intros id. unfold aiSessionAncestorIds. destruct (oor id None ≫= node_at forest) as [node|] eqn:Hn.
    + apply bind_Some in Hn as Hn'. destruct Hn' as (id' & _ & Hn'). destruct (Hat _ _ Hn') as (i & path & Hi & Hc & Hl).
      eexists. intros fuel Hf. eapply ancestors_loop_climbs; [exact Hd|exact Hc|exact Hi|by apply Hl].
    + exists []. intros [|fuel] _; done.
  - intros predicate. eapply filter_nodes_total; [exact Hd|by eapply values_lt].
  - intros expanded forced visible. by eapply flatten_total.
  - intros idle. eexists. intros fuel Hf. unfold aiSessionRetentionCandidates.
    erewrite root_candidates_total by done. reflexivity.
Qed.

(** ** Parents *)

Lemma node_at_session Date_parse localeCompare orderBy sessions members forest i s :
  derived Date_parse localeCompare orderBy sessions members forest ->
  NoDup (hr_id <$> sessions) -> sessions !! i = Some s ->
  exists node, fo_nodes forest !! i = Some node /\ node_at forest (hr_id s) = Some node /\ tn_session node = s.
Proof.
  intros Hd Hnd Hi. destruct (session_node _ _ _ _ _ _ Hd i s Hi) as (node & Hn & Hs). exists node. split; [done|]. split; [|done].
  unfold node_at. rewrite (forest_ids _ _ _ _ _ _ Hd), (index_ids_unique _ _ _ Hnd Hi). done.
Qed.

(** The diagnostics of a forest that are not about duplicate identities. *)
Lemma forest_diagnostics Date_parse localeCompare orderBy sessions members forest d :
  derived Date_parse localeCompare orderBy sessions members forest ->
  (d ∈ fo_diagnostics forest /\ dg_code d <> DuplicateProviderIdentity)
  <-> (exists s, s ∈ sessions /\ link_diagnostic sessions s = Some d)
      \/ (exists x, x ∈ members /\ d = cycle_diagnostic sessions (index_ids sessions) x).
Proof.
  intros Hd. rewrite (dv_diagnostics _ _ _ _ _ _ Hd), candidate_diagnostics_eq, !elem_of_app, list_elem_of_omap, list_elem_of_fmap.
  split.
  - intros [[[Hin|Hin]|(x & -> & Hx)] Hne]; [by apply index_diagnostics in Hin|by left|by right; exists x].
  - intros [(s & Hs & Hl)|(x & Hx & ->)].
    + split; [left; right; by exists s|]. unfold link_diagnostic in Hl. destruct (subagent_parent s); simpl in Hl; [|done].
      destruct (named_parent sessions s) as [p|]; [case_decide; [|done]; by injection Hl as <-|]. injection Hl as <-. simpl.
      unfold missing_parent_code. by repeat case_match.
    + split; [right; by exists x|done].
Qed.

Lemma link_diagnostic_id sessions s d : link_diagnostic sessions s = Some d -> dg_sessionId d = hr_id s.
Proof.
  unfold link_diagnostic. destruct (subagent_parent s); simpl; [|done].
  destruct (named_parent sessions s) as [p|]; [case_decide; [|done]|]; by intros [= <-].
Qed.

(** A session's own link is refused, or it names its parent. *)
Lemma link_cases sessions s :
  s ∈ sessions -> is_subagent s = true ->
  (exists d, link_diagnostic sessions s = Some d /\ forall p, ~ names sessions s p)
  \/ (link_diagnostic sessions s = None /\ exists p, names sessions s p).
Proof.
  intros Hs Hsub. unfold link_diagnostic, names. unfold is_subagent in Hsub. unfold subagent_parent.
  destruct (hr_lineage s) as [[|pp]|]; try done. simpl. destruct (named_parent sessions s) as [p|].
  - case_decide as Hid; [left|right].
    + eexists. split; [reflexivity|]. by intros q (_ & [= <-] & ?).
    + split; [done|]. by exists p.
  - left. eexists. split; [reflexivity|]. by intros q (_ & ? & _).
Qed.

Lemma names_subagent sessions s p : names sessions s p -> is_subagent s = true.
Proof. intros (_ & H & _). unfold named_parent, subagent_parent in H. unfold is_subagent. by destruct (hr_lineage s) as [[|]|]. Qed.

Lemma cycle_subagent sessions s t : tc (names sessions) s t -> is_subagent s = true.
Proof. intros Hc. destruct Hc; by eapply names_subagent. Qed.

Lemma link_diagnostic_subagent sessions s d : link_diagnostic sessions s = Some d -> is_subagent s = true.
Proof. unfold link_diagnostic, subagent_parent, is_subagent. by destruct (hr_lineage s) as [[|]|]. Qed.

(** C20. With unique identifiers, each session has a node of its own, whose
    parent is the session it names - the first of its instance and agent with
    the provider's identifier its lineage gives - unless it names itself or
    is on a cycle of names; and a subagent has no parent exactly when a
    diagnostic about its link says why: a cycle when it is on one, otherwise
    that its parent is missing, of another instance or agent, or itself. *)
Theorem sessions_attached Date_parse localeCompare fuel orderBy sessions forest s :
  NoDup (hr_id <$> sessions) -> Forall (fun s => truthy (hr_id s) = true) sessions ->
  deriveAiSessionForest Date_parse localeCompare fuel orderBy sessions = Some forest -> s ∈ sessions ->
  exists node, node_at forest (hr_id s) = Some node /\ tn_session node = s
    /\ (forall id, tn_parentSessionId node = Some id
          <-> exists p, names sessions s p /\ hr_id p = id /\ ~ tc (names sessions) s s)
    /\ (forall d, d ∈ fo_diagnostics forest -> dg_code d <> DuplicateProviderIdentity -> dg_sessionId d = hr_id s ->
          is_subagent s = true /\ tn_parentSessionId node = None
          /\ (link_diagnostic sessions s = Some d \/ (dg_code d = Cycle /\ tc (names sessions) s s)))
    /\ (is_subagent s = true -> tn_parentSessionId node = None ->
          exists d, d ∈ fo_diagnostics forest /\ dg_code d <> DuplicateProviderIdentity /\ dg_sessionId d = hr_id s).
Proof.
  intros Hnd Ht Hderive Hs. destruct (derive_derived _ _ _ _ _ _ Hderive) as [members Hd].
  pose proof (dv_members _ _ _ _ _ _ Hd) as Hm. pose proof Hs as Hs'. apply list_elem_of_lookup in Hs' as [i Hi].
  destruct (node_at_session _ _ _ _ _ _ i s Hd Hnd Hi) as (node & Hn & Hat & Hses).
  assert (Hpar : forall id, tn_parentSessionId node = Some id
    <-> exists p, names sessions s p /\ hr_id p = id /\ ~ tc (names sessions) s s).
  { intros id. rewrite (st_parent _ _ _ _ _ _ _ _ (node_settled _ _ _ _ _ _ Hd _ _ Hn)).
    exact (parent_id_names sessions Hnd Ht members i s id Hm Hi). }
  assert (Hnone : (forall p, ~ names sessions s p) \/ tc (names sessions) s s -> tn_parentSessionId node = None).
  { intros Hno. destruct (tn_parentSessionId node) as [id|]; [|done].
    destruct (proj1 (Hpar id) eq_refl) as (p & Hp & _ & Hnc). destruct Hno as [Hno|Hc]; [by destruct (Hno p)|done]. }
  exists node. split_and!; [done|done|exact Hpar| |].
  - intros d Hin Hne Hid. destruct (proj1 (forest_diagnostics _ _ _ _ _ _ d Hd) (conj Hin Hne)) as [(t & Hts & Hl)|(x & Hx & ->)].
    + pose proof (link_diagnostic_id _ _ _ Hl) as Hti.
      assert (t = s) as -> by (apply (id_inj sessions Hnd); congruence).
      pose proof (link_diagnostic_subagent _ _ _ Hl) as Hsub. split_and!; [done| |by left].
      apply Hnone. left. destruct (link_cases _ _ Hs Hsub) as [(d' & _ & Hno)|[Hl' _]]; [done|congruence].
    + simpl in Hid. subst x. apply (member_names sessions Hnd Ht members s Hm Hs) in Hx as Hc. split_and!.
      * by eapply cycle_subagent.
      * apply Hnone. by right.
      * by right.
  - intros Hsub Hp.
    destruct (link_cases _ _ Hs Hsub) as [(d & Hl & _)|[_ [p Hp']]].
    + exists d. pose proof (link_diagnostic_id _ _ _ Hl).
      destruct (proj2 (forest_diagnostics _ _ _ _ _ _ d Hd) ltac:(left; eauto)) as [? ?]. done.
    + assert (Hmem : hr_id s ∈ members).
      { destruct (decide (hr_id s ∈ members)) as [|Hnm]; [done|]. pose proof (member_names sessions Hnd Ht members s Hm Hs) as Hiff.
        assert (tn_parentSessionId node = Some (hr_id p)) by (apply Hpar; exists p; tauto). congruence. }
      exists (cycle_diagnostic sessions (index_ids sessions) (hr_id s)).
      destruct (proj2 (forest_diagnostics _ _ _ _ _ _ _ Hd) ltac:(right; eauto)) as [? ?]. done.
Qed.

(** ** Retention *)

(** The sessions of a session's tree. *)
Definition in_tree (forest : AiSessionForest) (sessions : list AiSessionHierarchyRecord) (root x : AiSessionHierarchyRecord) : Prop :=
  x ∈ sessions /\ rtc (child_of forest) (hr_id x) (hr_id root).

Section Trees.
Context (Date_parse : jsstring -> option Z) (localeCompare : jsstring -> jsstring -> Z).
Context (orderBy : option AiSessionForestOrder) (sessions : list AiSessionHierarchyRecord).
Context (members : list jsstring) (forest : AiSessionForest).
Hypothesis Hd : derived Date_parse localeCompare orderBy sessions members forest.
Hypothesis Hnd : NoDup (hr_id <$> sessions).
Abbreviation n := (length sessions).
Abbreviation par := (tree_parent sessions members).

Lemma child_of_par i s y :
  sessions !! i = Some s -> child_of forest (hr_id s) y <-> exists j t, par i = Some j /\ sessions !! j = Some t /\ hr_id t = y.
Proof.
  intros Hi. destruct (node_at_session _ _ _ _ _ _ i s Hd Hnd Hi) as (node & Hn & Hat & _). unfold child_of. rewrite Hat.
  pose proof (st_parent _ _ _ _ _ _ _ _ (node_settled _ _ _ _ _ _ Hd _ _ Hn)) as Hp. unfold parent_id in Hp. fold par in Hp. split.
  - intros (node' & [= <-] & Hy). rewrite Hp in Hy. apply bind_Some in Hy as (j & Hj & (t & Ht & ->)%fmap_Some). by exists j, t.
  - intros (j & t & Hj & Ht & <-). exists node. split; [done|]. rewrite Hp, Hj. simpl. by rewrite Ht.
Qed.

Lemma root_par i s node : sessions !! i = Some s -> node_at forest (hr_id s) = Some node -> tn_parentSessionId node = None <-> par i = None.
Proof.
  intros Hi Hat. destruct (node_at_session _ _ _ _ _ _ i s Hd Hnd Hi) as (node' & Hn & Hat' & _).
  assert (node' = node) as -> by congruence.
  rewrite (st_parent _ _ _ _ _ _ _ _ (node_settled _ _ _ _ _ _ Hd _ _ Hn)). unfold parent_id. fold par. unfold tree_parent.
  destruct (parent_ref _ _ i) as [p|] eqn:Hp; simpl; [|done]. apply parent_ref_lt in Hp. by destruct (lookup_lt_is_Some_2 _ _ Hp) as [t ->].
Qed.

(** Being below in the forest is a path of parent ids. *)
Lemma below_ids i j s t :
  sessions !! i = Some s -> sessions !! j = Some t -> below n par i j <-> rtc (child_of forest) (hr_id s) (hr_id t).
Proof.
  intros Hi Hj. split.
  - intros Hb. revert s Hi. induction Hb as [i|i p j [_ Hp] _ IH]; intros s Hi; [replace t with s by congruence; constructor|].
    pose proof (parent_ref_lt _ _ _ _ Hp) as Hlt. destruct (lookup_lt_is_Some_2 _ _ Hlt) as [q Hq].
    eapply rtc_l; [|by apply IH]. apply (child_of_par i s); [done|]. by exists p, q.
  - intros Hr. remember (hr_id s) as x eqn:Hx. remember (hr_id t) as y eqn:Hy. revert i s Hi Hx.
    induction Hr as [x|x z y Hxz _ IH]; intros i s Hi Hx.
    + destruct (id_unique sessions Hnd i j s t) as [-> _]; [done|done|congruence|constructor].
    + subst x. apply (child_of_par i s _ Hi) in Hxz as (p & q & Hp & Hq & Hz).
      eapply rtc_l; [split; [by apply lookup_lt_Some in Hi|exact Hp]|]. by apply (IH Hy p q).
Qed.

Context (rank : nat -> nat) (bound : nat).
Hypothesis Hrank : ranked sessions members forest rank bound.

Lemma tree_sessions_in_tree i root x :
  sessions !! i = Some root -> x ∈ tree_sessions forest rank bound i <-> in_tree forest sessions root x.
Proof.
  intros Hi. rewrite (elem_of_tree_sessions _ _ _ _ _ _ Hd _ _ Hrank) by by apply lookup_lt_Some in Hi. unfold in_tree. split.
  - intros (j & Hj & Hb). split; [by eapply list_elem_of_lookup_2|]. by apply (below_ids j i).
  - intros [[j Hj]%list_elem_of_lookup Hr]. exists j. split; [done|]. by apply (below_ids j i x root).
Qed.

Lemma tree_sessions_ids i : i < n -> NoDup (hr_id <$> tree_sessions forest rank bound i)
  /\ last (hr_id <$> tree_sessions forest rank bound i) = hr_id <$> sessions !! i.
Proof.
  intros Hi. unfold tree_sessions. rewrite (lookup_nodes _ _ _ _ _ _ Hd) by by eapply sub_lt.
  destruct Hrank as [H1 H2 H3 H4]. split.
  - assert (H : forall l, NoDup l -> NoDup (hr_id <$> omap (fun j => sessions !! j) l)).
    { induction 1 as [|j l Hj Hl IH]; [apply NoDup_nil_2|]. simpl. destruct (sessions !! j) as [s|] eqn:Hs; [|done].
      rewrite fmap_cons. apply NoDup_cons. split; [|done]. intros (t & Heq & (k & Hk & Ht)%list_elem_of_omap)%list_elem_of_fmap.
      destruct (id_unique sessions Hnd j k s t Hs Ht Heq) as [-> _]. done. }
    apply H. by apply (NoDup_subtree n par).
  - rewrite (subtree_eq n par rank bound H2 H3 _ H4 i Hi), omap_app, fmap_app. simpl.
    destruct (lookup_lt_is_Some_2 _ _ Hi) as [s ->]. simpl. by rewrite last_snoc.
Qed.

Lemma elem_of_root_sessions node :
  node ∈ root_sessions forest <-> exists i, fo_nodes forest !! i = Some node /\ par i = None.
Proof.
  unfold root_sessions. rewrite list_elem_of_omap. split.
  - intros (i & [_ Hp]%(elem_of_roots _ _ _ _ _ _ Hd) & Hn). by exists i.
  - intros (i & Hn & Hp). exists i. split; [|done]. apply (elem_of_roots _ _ _ _ _ _ Hd). split; [|done]. by eapply node_lt.
Qed.
End Trees.

(** More fuel changes no candidates. *)
Lemma retention_mono Date_parse fuel fuel' forest idle candidates :
  aiSessionRetentionCandidates Date_parse fuel forest idle = Some candidates -> fuel <= fuel' ->
  aiSessionRetentionCandidates Date_parse fuel' forest idle = Some candidates.
Proof.
  unfold aiSessionRetentionCandidates. intros (cs & Hcs & ->)%fmap_Some Hle. apply fmap_Some. exists cs. split; [|done].
  revert cs Hcs. induction (root_sessions forest) as [|root roots IH]; intros cs Hcs; [done|]. simpl in *.
  apply bind_Some in Hcs as (c1 & H1 & (c2 & H2 & H3)%bind_Some). rewrite (IH _ H2).
  assert (root_candidate fuel' forest idle root = Some c1) as ->; [|done]. unfold root_candidate in *.
  destruct (is_subagent _); [done|]. apply bind_Some in H1 as (refs & Hr & <-).
  unfold aiSessionSubtreePostorder in *. destruct (mget _ _); simpl; [|by injection Hr as <-].
  by rewrite (loop_mono _ _ _ _ _ _ Hr Hle).
Qed.

(** What one root contributes. *)
Lemma candidate_of_root Date_parse localeCompare orderBy sessions members forest rank bound idle i root node c :
  derived Date_parse localeCompare orderBy sessions members forest -> NoDup (hr_id <$> sessions) ->
  ranked sessions members forest rank bound -> sessions !! i = Some root -> fo_nodes forest !! i = Some node ->
  c ∈ candidate_of forest rank bound idle node
  <-> is_subagent root = false /\ (forall x, in_tree forest sessions root x -> idle x = true)
      /\ c = RetentionCandidate root (hr_id <$> tree_sessions forest rank bound i) (tn_aggregateLastActiveAt node).
Proof.
  intros Hd Hnd Hrank Hi Hn. assert (tn_session node = root) as <- by (apply (node_session _ _ _ _ _ _ Hd) in Hn; congruence).
  unfold candidate_of. rewrite (forest_ids _ _ _ _ _ _ Hd), (index_ids_unique _ _ _ Hnd Hi).
  destruct (is_subagent (tn_session node)); [split; [by intros ?%elem_of_nil|by intros (? & _)]|].
  assert (Hall : forallb idle (tree_sessions forest rank bound i) = true <-> forall x, in_tree forest sessions (tn_session node) x -> idle x = true).
  { rewrite forallb_forall. split; intros H x Hx; apply H.
    - apply list_elem_of_In. by eapply tree_sessions_in_tree.
    - apply list_elem_of_In in Hx. by eapply (tree_sessions_in_tree _ _ _ _ _ _ Hd Hnd) in Hx. }
  destruct (forallb idle _).
  - rewrite list_elem_of_singleton. tauto.
  - split; [by intros ?%elem_of_nil|]. intros (_ & H & _). by apply Hall in H.
Qed.

(** C21. The candidates for retention are whole trees: with unique
    identifiers, there is one for each session that is not a subagent, has no
    parent, and whose tree - it and every session below it - is idle, and no
    other; a candidate lists the tree's ids, each once and its root's last; the
    time it carries is that of the last activity of one of its sessions, and
    no session of the tree was active later; and the candidates come longest
    inactive first. *)
Theorem retention_whole_idle_trees Date_parse localeCompare fuel fuel' orderBy sessions forest idle candidates :
  NoDup (hr_id <$> sessions) ->
  deriveAiSessionForest Date_parse localeCompare fuel orderBy sessions = Some forest ->
  aiSessionRetentionCandidates Date_parse fuel' forest idle = Some candidates ->
  (forall root, root ∈ (rc_root <$> candidates)
     <-> root ∈ sessions /\ is_subagent root = false /\ (forall y, ~ child_of forest (hr_id root) y)
         /\ forall x, in_tree forest sessions root x -> idle x = true)
  /\ (forall c, c ∈ candidates ->
       NoDup (rc_sessionIds c) /\ last (rc_sessionIds c) = Some (hr_id (rc_root c))
       /\ (forall id, id ∈ rc_sessionIds c <-> exists x, in_tree forest sessions (rc_root c) x /\ hr_id x = id)
       /\ (exists x, in_tree forest sessions (rc_root c) x /\ rc_lastActiveAt c = ownLastActiveAt Date_parse x)
       /\ forall x, in_tree forest sessions (rc_root c) x ->
            (timestamp Date_parse (Some (ownLastActiveAt Date_parse x)) <= timestamp Date_parse (Some (rc_lastActiveAt c)))%Z)
  /\ StronglySorted (fun c d => timestamp Date_parse (Some (rc_lastActiveAt c)) <= timestamp Date_parse (Some (rc_lastActiveAt d)))%Z
       candidates.
Proof.
  intros Hnd Hderive Hret. destruct (derive_derived _ _ _ _ _ _ Hderive) as [members Hd].
  destruct (tree_ranked _ _ _ _ _ _ Hd) as (rank & bound & Hrank).
  assert (Hc : candidates = js_sort (fun left right => timestamp Date_parse (Some (rc_lastActiveAt left))
       - timestamp Date_parse (Some (rc_lastActiveAt right)))%Z (root_sessions forest ≫= candidate_of forest rank bound idle)).
  { pose proof (retention_mono _ _ (Nat.max fuel' (hierarchy_fuel sessions)) _ _ _ Hret ltac:(lia)) as H.
    unfold aiSessionRetentionCandidates in H. rewrite (root_candidates_total _ _ _ _ _ _ Hd _ _ Hrank idle) in H by lia. by injection H as <-. }
  assert (Hin : forall c, c ∈ candidates <-> exists i root node, sessions !! i = Some root /\ fo_nodes forest !! i = Some node
     /\ tree_parent sessions members i = None /\ c ∈ candidate_of forest rank bound idle node).
  { intros c. rewrite Hc, js_sort_perm, list_elem_of_bind. split.
    - intros (node & Hcn & (i & Hn & Hp)%(elem_of_root_sessions _ _ _ _ _ _ Hd)). exists i, (tn_session node), node.
      split; [by eapply node_session|done].
    - intros (i & root & node & _ & Hn & Hp & Hcn). exists node. split; [done|]. apply (elem_of_root_sessions _ _ _ _ _ _ Hd). by exists i. }
  clear Hret. split_and!.
  - intros root. rewrite list_elem_of_fmap. split.
    + intros (c & -> & (i & root' & node & Hi & Hn & Hp & Hcn)%Hin).
      apply (candidate_of_root _ _ _ _ _ _ _ _ _ i root' _ _ Hd Hnd Hrank Hi Hn) in Hcn as (Hsub & Hidle & ->). simpl.
      split_and!; [by eapply list_elem_of_lookup_2|done| |done].
      intros y (j & t & Hj & _)%(child_of_par _ _ _ _ _ _ Hd Hnd i root' y Hi). by rewrite Hp in Hj.
    + intros ([i Hi]%list_elem_of_lookup & Hsub & Hno & Hidle).
      destruct (session_node _ _ _ _ _ _ Hd i root Hi) as (node & Hn & _).
      eexists. split; [|apply Hin; exists i, root, node; split_and!; [done|done| |]].
      2: { destruct (tree_parent sessions members i) as [p|] eqn:Hp; [|done]. pose proof (parent_ref_lt _ _ _ _ Hp) as Hlt.
           destruct (lookup_lt_is_Some_2 _ _ Hlt) as [t Ht]. destruct (Hno (hr_id t)).
           apply (child_of_par _ _ _ _ _ _ Hd Hnd i root _ Hi). by exists p, t. }
      2: { apply (candidate_of_root _ _ _ _ _ _ _ _ _ i root _ _ Hd Hnd Hrank Hi Hn). split_and!; [done|done|reflexivity]. }
      done.
  - intros c (i & root & node & Hi & Hn & Hp & Hcn)%Hin.
    apply (candidate_of_root _ _ _ _ _ _ _ _ _ i root _ _ Hd Hnd Hrank Hi Hn) in Hcn as (_ & _ & ->).
    assert (Hlt : i < length sessions) by by apply lookup_lt_Some in Hi. pose proof (tree_sessions_in_tree _ _ _ _ _ _ Hd Hnd _ _ Hrank i root) as Htree.
    destruct (tree_sessions_ids _ _ _ _ _ _ Hd Hnd _ _ Hrank i Hlt) as [Hids Hlast]. rewrite Hi in Hlast.
    destruct (aggregate_active _ _ _ _ _ _ Hd _ _ Hrank _ _ Hn) as [(x & Hx & Hlx) Hle]. cbn [rc_root rc_sessionIds rc_lastActiveAt].
    split_and!; [done|done| |exists x; split; [by apply Htree|done]|intros y Hy; apply Hle; by apply Htree].
    intros id. rewrite list_elem_of_fmap. split; intros (y & H1 & H2); exists y; [split; [by apply Htree|done]|split; [done|by apply Htree]].
  - rewrite Hc. apply js_sort_strongly_sorted.
Qed.

(** ** Examples *)

Definition example_Date_parse (s : jsstring) : option Z := Some (foldl (fun a c => 10 * a + (Z.of_N c - 48))%Z 0%Z s).
Definition example_localeCompare (_ _ : jsstring) : Z := 0%Z.

Definition example_record (id : string) (provider : string) (parent : option string) (updatedAt : string) : AiSessionHierarchyRecord :=
  HierarchyRecord (js id) None (js "codex") (Some (js provider)) ((fun p => LineageSubagent (js p)) <$> parent) (Some LcIdle) None
    (js updatedAt) None.

(** A tree of three, an orphan, and a cycle of two. *)
Definition example_records : list AiSessionHierarchyRecord :=
  [example_record "a" "pa" None "10"; example_record "b" "pb" (Some "pa") "30"; example_record "c" "pc" (Some "pb") "20";
   example_record "d" "pd" (Some "missing") "5"; example_record "e" "pe" (Some "pf") "6"; example_record "f" "pf" (Some "pe") "7"]%string.

Definition example_forest : AiSessionForest :=
  default (Forest [] [] [] [])
    (deriveAiSessionForest example_Date_parse example_localeCompare (hierarchy_fuel example_records) None example_records).

Lemma hierarchy_terminates_witness :
  6 < hierarchy_fuel example_records /\
  exists forest, deriveAiSessionForest example_Date_parse example_localeCompare 1000 None example_records = Some forest
    /\ exists rows, flattenAiSessionForest 1000 forest (Some [js "a"]) None None = Some rows.
Proof.
  split; [vm_compute; lia|].
  destruct (hierarchy_terminates example_Date_parse example_localeCompare None example_records) as (forest & Hf & _ & _ & _ & _ & Hflat & _).
  exists forest. assert (H : hierarchy_fuel example_records <= 1000) by (vm_compute; lia). split; [by apply Hf|].
  destruct (Hflat (Some [js "a"]) None None) as [rows Hrows]. exists rows. by apply Hrows.
Defined.

Lemma sessions_attached_witness :
  exists node, node_at example_forest (js "c") = Some node /\ tn_parentSessionId node = Some (js "b")
    /\ exists p, names example_records (example_record "c" "pc" (Some "pb") "20") p /\ hr_id p = js "b".
Proof.
  destruct (sessions_attached example_Date_parse example_localeCompare (hierarchy_fuel example_records) None example_records
    example_forest (example_record "c" "pc" (Some "pb") "20")) as (node & Hat & _ & Hp & _).
  - apply (bool_decide_unpack _); vm_compute; done.
  - apply (bool_decide_unpack _); vm_compute; done.
  - vm_compute. reflexivity.
  - apply (list_elem_of_lookup_2 _ 2). reflexivity.
  - exists node. split; [exact Hat|]. assert (Hb : tn_parentSessionId node = Some (js "b")).
    { vm_compute in Hat. injection Hat as <-. vm_compute. reflexivity. }
    split; [exact Hb|]. destruct (proj1 (Hp (js "b")) Hb) as (p & Hn & Hid & _). exists p. split; [exact Hn|exact Hid].
Defined.

Lemma retention_whole_idle_trees_witness :
  exists c, aiSessionRetentionCandidates example_Date_parse 1000 example_forest isIdle = Some [c]
    /\ rc_sessionIds c = [js "c"; js "b"; js "a"] /\ rc_lastActiveAt c = js "30"
    /\ last (rc_sessionIds c) = Some (hr_id (rc_root c)).
Proof.
  eexists. match goal with |- ?A /\ _ => assert A as Hret by (vm_compute; reflexivity) end. split; [exact Hret|].
  split; [vm_compute; reflexivity|]. split; [vm_compute; reflexivity|].
  refine (proj1 (proj2 (proj1 (proj2 (retention_whole_idle_trees example_Date_parse example_localeCompare
    (hierarchy_fuel example_records) 1000 None example_records example_forest isIdle _ _ _ Hret)) _ _))).
  - apply (bool_decide_unpack _); vm_compute; done.
  - vm_compute. reflexivity.
  - apply list_elem_of_singleton. reflexivity.
Defined.
