(* ===== verification/SessionHistory.v ===== *)
(** * The archive of closed sessions

    [packages/ai-session-runtime/src/ai-session-history-store.ts]: an index
    file of archived sessions, newest first, and a file of turns per session.
    The index keeps a number of trees of sessions, in the sense of
    [Hierarchy]; what leaves it is reported to [onRemove], which releases the
    resources of the session.  A file is what is in it as far as reading it
    tells: the JSON text the store itself writes, or something else of which
    some entries satisfy their schema.  Warnings are left out.  A name of a
    file of turns is a digest of the session's id. *)

From S2P Require Export HierarchyForest.

Section History.
Context {Rest Turn : Type} `{EqDecision Rest, EqDecision Turn}.
Context (Date_parse : jsstring -> option Z) (localeCompare : jsstring -> jsstring -> Z) (sha256 : jsstring -> jsstring).

#[local] Instance lineage_eq_dec : EqDecision AiSessionLineage.
Proof. solve_decision. Defined.

(** What only is shown or passed on is [hi_rest]. *)
Record AiSessionHistoryItem := HistoryItem {
  hi_id : jsstring;
  hi_agent : jsstring;
  hi_providerSessionId : jsstring;
  hi_lineage : option AiSessionLineage;
  hi_lastActiveAt : jsstring;
  hi_archivedAt : jsstring;
  hi_rest : Rest
}.

#[export] Instance history_item_eq_dec : EqDecision AiSessionHistoryItem.
Proof. solve_decision. Defined.

Definition AI_SESSION_HISTORY_DEFAULT_LIMIT : Z := 50.
Definition AI_SESSION_HISTORY_MAX_LIMIT : Z := 500.
Definition AI_SESSION_HISTORY_MAX_ITEMS : nat := N.to_nat 10000.

Definition historyLimit (value : Z) : Z :=
  if (1 <=? value)%Z && (value <=? AI_SESSION_HISTORY_MAX_LIMIT)%Z then value else AI_SESSION_HISTORY_DEFAULT_LIMIT.

Definition providerIdentity (item : AiSessionHistoryItem) : jsstring := hi_agent item ++ js ":" ++ hi_providerSessionId item.

(** ** Sorting and limiting *)

(** [Date.parse(a) - Date.parse(b)], falsy when one is not a date. *)
Definition date_sub (a b : jsstring) : Z :=
  match Date_parse a, Date_parse b with Some x, Some y => (x - y)%Z | _, _ => 0%Z end.

Definition history_compare (left right : AiSessionHistoryItem) : Z :=
  let active := date_sub (hi_lastActiveAt right) (hi_lastActiveAt left) in
  let archived := date_sub (hi_archivedAt right) (hi_archivedAt left) in
  if negb (active =? 0)%Z then active else if negb (archived =? 0)%Z then archived else localeCompare (hi_id left) (hi_id right).

(** The loop that keeps the first item of each id and of each identity. *)
Fixpoint deduplicate (ids providerIds : list jsstring) (sorted : list AiSessionHistoryItem) : list AiSessionHistoryItem :=
  match sorted with
  | [] => []
  | item :: sorted =>
      let providerId := providerIdentity item in
      if bool_decide (hi_id item ∈ ids) || bool_decide (providerId ∈ providerIds) then deduplicate ids providerIds sorted
      else item :: deduplicate (js_add (hi_id item) ids) (js_add providerId providerIds) sorted
  end.

(** [{ ...item, updatedAt: item.lastActiveAt }]. *)
Definition history_record (item : AiSessionHistoryItem) : AiSessionHierarchyRecord :=
  HierarchyRecord (hi_id item) None (hi_agent item) (Some (hi_providerSessionId item)) (hi_lineage item) None None
    (hi_lastActiveAt item) None.

Definition subtree_ids (fuel : nat) (forest : AiSessionForest) (id : jsstring) : option (list jsstring) :=
  (fun refs => hr_id <$> sessions_at forest refs) <$> aiSessionSubtreePostorder fuel forest id.

(** One root: the ids retained and the roots counted so far. *)
Definition retain_root (fuel : nat) (limit : Z) (forest : AiSessionForest) (st : list jsstring * Z) (root : AiSessionTreeNode)
  : option (list jsstring * Z) :=
  let '(retainedIds, retainedRoots) := st in
  let id := hr_id (tn_session root) in
  if is_subagent (tn_session root) then
    ids ← subtree_ids fuel forest id; Some (js_add_all ids retainedIds, retainedRoots)
  else if (historyLimit limit <=? retainedRoots)%Z then Some st
  else ids ← subtree_ids fuel forest id; Some (js_add_all ids retainedIds, (retainedRoots + 1)%Z).

Fixpoint retain_roots (fuel : nat) (limit : Z) (forest : AiSessionForest) (st : list jsstring * Z) (roots : list AiSessionTreeNode)
  : option (list jsstring * Z) :=
  match roots with
  | [] => Some st
  | root :: roots => st ← retain_root fuel limit forest st root; retain_roots fuel limit forest st roots
  end.

(** [None] when the fuel runs out in the hierarchy. *)
Definition limit_history (fuel : nat) (deduplicated : list AiSessionHistoryItem) (limit : Z) : option (list AiSessionHistoryItem) :=
  forest ← deriveAiSessionForest Date_parse localeCompare fuel None (history_record <$> deduplicated);
  '(retainedIds, _) ← retain_roots fuel limit forest ([], 0%Z) (root_sessions forest);
  Some (filter (fun item => hi_id item ∈ retainedIds) deduplicated).

Definition unique_history (items : list AiSessionHistoryItem) : list AiSessionHistoryItem :=
  deduplicate [] [] (js_sort history_compare items).

(** The fuel is that of the hierarchy; [SessionHistorySpec] shows that it is
    enough, so the default is never taken. *)
Definition sortAndLimitAiSessionHistory (items : list AiSessionHistoryItem) (limit : Z) : list AiSessionHistoryItem :=
  let deduplicated := unique_history items in
  default [] (limit_history (hierarchy_fuel (history_record <$> deduplicated)) deduplicated limit).

(** ** Files *)

(** An entry of another index file: its trimmed id if it has one, and the item
    the schema reads. *)
Record raw_entry := RawEntry { re_id : option jsstring; re_item : option AiSessionHistoryItem }.

Inductive index_file :=
| IndexMissing
| IndexUnreadable
| IndexWritten (items : list AiSessionHistoryItem)
| IndexOther (entries : list raw_entry).

#[export] Instance raw_entry_eq_dec : EqDecision raw_entry.
Proof. solve_decision. Defined.
#[export] Instance index_file_eq_dec : EqDecision index_file.
Proof. solve_decision. Defined.

Inductive detail_file :=
| DetailUnreadable
| DetailWritten (item : AiSessionHistoryItem) (turns : list Turn)
| DetailOther (id : option jsstring) (turns : option (list (option Turn))).

(** [hs_released] are the calls of [onRemove]. *)
Record history_store := HistoryStore {
  hs_index : index_file;
  hs_details : gmap jsstring detail_file;
  hs_limit : Z;
  hs_released : list jsstring
}.

Inductive history_error := IndexSchemaError | HistoryLimitError.

(** An operation changes the files and returns or throws. *)
Definition HistoryM (A : Type) : Type := history_store -> history_store * result history_error A.
#[export] Instance history_ret : MRet HistoryM := fun A a s => (s, Ok a).
#[export] Instance history_bind : MBind HistoryM := fun A B k m s =>
  match m s with (s', Ok a) => k a s' | (s', Throw e) => (s', Throw e) end.
Definition hthrow {A} (e : history_error) : HistoryM A := fun s => (s, Throw e).
Definition hget {A} (f : history_store -> A) : HistoryM A := fun s => (s, Ok (f s)).
Definition hmodify (f : history_store -> history_store) : HistoryM unit := fun s => (f s, Ok tt).

(** [AiSessionHistoryIndexSchema.parse]. *)
Definition parse_index (items : list AiSessionHistoryItem) : HistoryM (list AiSessionHistoryItem) :=
  if (AI_SESSION_HISTORY_MAX_ITEMS <? length items) then hthrow IndexSchemaError else mret items.

Definition index_entries (file : index_file) : list raw_entry :=
  match file with
  | IndexWritten items => (fun item => RawEntry (Some (hi_id item)) (Some item)) <$> items
  | IndexOther entries => entries
  | _ => []
  end.

(** The items, whether the file differs, and the ids that were dropped. *)
Definition load : HistoryM (list AiSessionHistoryItem * bool * list jsstring) :=
  file ← hget hs_index;
  match file with
  | IndexMissing | IndexUnreadable => mret ([], false, [])
  | _ =>
      limit ← hget hs_limit;
      index ← parse_index (sortAndLimitAiSessionHistory (omap re_item (index_entries file)) limit);
      let removedIds := filter (fun id => id ∉ (hi_id <$> index)) (omap re_id (index_entries file)) in
      mret (index, negb (bool_decide (file = IndexWritten index)), removedIds)
  end.

Definition saveIndex (items : list AiSessionHistoryItem) : HistoryM unit :=
  limit ← hget hs_limit;
  normalized ← parse_index (sortAndLimitAiSessionHistory items limit);
  hmodify (fun s => HistoryStore (IndexWritten normalized) (hs_details s) (hs_limit s) (hs_released s)).

Definition removeDetails (ids : list jsstring) : HistoryM unit :=
  hmodify (fun s => HistoryStore (hs_index s) (foldl (fun details id => delete (sha256 id) details) (hs_details s) ids) (hs_limit s) (hs_released s)).

Definition removeEntries (ids : list jsstring) (releaseResources : bool) : HistoryM unit :=
  _ ← removeDetails ids;
  if releaseResources then
    hmodify (fun s => HistoryStore (hs_index s) (hs_details s) (hs_limit s) (hs_released s ++ js_add_all ids []))
  else mret tt.

(** ** Operations *)

Definition history_list : HistoryM (list AiSessionHistoryItem) :=
  '(index, rewrite, removedIds) ← load;
  if rewrite : bool then
    _ ← saveIndex index; _ ← removeEntries removedIds true; mret index
  else mret index.

Definition find_item (id : jsstring) (items : list AiSessionHistoryItem) : option AiSessionHistoryItem :=
  head (filter (fun item => hi_id item = id) items).

Definition history_get (id : jsstring) : HistoryM (option AiSessionHistoryItem) :=
  items ← history_list; mret (find_item id items).

Definition setRetentionLimit (limit : Z) : HistoryM (list AiSessionHistoryItem) :=
  if negb (historyLimit limit =? limit)%Z then hthrow HistoryLimitError else
  current ← history_list;
  _ ← hmodify (fun s => HistoryStore (hs_index s) (hs_details s) limit (hs_released s));
  let retained := sortAndLimitAiSessionHistory current limit in
  let removed := filter (fun item => hi_id item ∉ (hi_id <$> retained)) current in
  match removed with
  | [] => mret []
  | _ => _ ← saveIndex retained; _ ← removeEntries (hi_id <$> removed) true; mret removed
  end.

(** [turns.slice(-50)]. *)
Definition last_turns {A} (turns : list A) : list A := drop (length turns - 50) turns.

Definition saveDetail (item : AiSessionHistoryItem) (turns : list Turn) : HistoryM unit :=
  hmodify (fun s => HistoryStore (hs_index s) (<[sha256 (hi_id item) := DetailWritten item turns]> (hs_details s)) (hs_limit s) (hs_released s)).

(** The turns of a file, and whether it has to be written again. *)
Definition sanitizeDetail (item : AiSessionHistoryItem) (file : detail_file) : list Turn * bool :=
  let read id (turns : option (list (option Turn))) :=
    match turns with
    | Some turns => if bool_decide (id = Some (hi_id item)) then last_turns (omap (fun turn => turn) turns) else []
    | None => []
    end in
  match file with
  | DetailUnreadable => ([], false)
  | DetailWritten stored turns =>
      let read := read (Some (hi_id stored)) (Some (Some <$> turns)) in (read, negb (bool_decide (stored = item /\ turns = read)))
  | DetailOther id turns => (read id turns, true)
  end.

Definition history_detail (id : jsstring) : HistoryM (option (AiSessionHistoryItem * list Turn)) :=
  found ← history_get id;
  match found with
  | None => mret None
  | Some item =>
      details ← hget hs_details;
      match details !! sha256 id with
      | None => mret (Some (item, []))
      | Some file =>
          let '(turns, rewrite) := sanitizeDetail item file in
          _ ← (if rewrite : bool then saveDetail item turns else mret tt); mret (Some (item, turns))
      end
  end.

Definition same_entry (a b : AiSessionHistoryItem) : bool :=
  bool_decide (hi_id a = hi_id b) || bool_decide (providerIdentity a = providerIdentity b).

Definition upsert (parsed : AiSessionHistoryItem) (turns : option (list Turn)) : HistoryM AiSessionHistoryItem :=
  current ← history_list;
  _ ← match turns with Some turns => saveDetail parsed (last_turns turns) | None => mret tt end;
  limit ← hget hs_limit;
  let items := sortAndLimitAiSessionHistory (parsed :: filter (fun entry => same_entry entry parsed = false) current) limit in
  _ ← (if bool_decide (items = current) then mret tt else saveIndex items);
  _ ← removeEntries (hi_id <$> filter (fun entry => hi_id entry ∉ (hi_id <$> items)) current) true;
  mret parsed.

Definition removeByIds (ids : list jsstring) (releaseResources : bool) : HistoryM bool :=
  items ← history_list;
  let next := filter (fun item => hi_id item ∉ ids) items in
  if bool_decide (length next = length items) then mret false else
  _ ← saveIndex next;
  _ ← removeEntries (hi_id <$> filter (fun item => hi_id item ∈ ids) items) releaseResources;
  mret true.

(** The ids of the trees below some sessions of the archive. *)
Fixpoint subtrees_ids (fuel : nat) (forest : AiSessionForest) (ids : list jsstring) : option (list jsstring) :=
  match ids with
  | [] => Some []
  | id :: ids => below ← subtree_ids fuel forest id; rest ← subtrees_ids fuel forest ids; Some (below ++ rest)
  end.

Definition archive_subtrees (items : list AiSessionHistoryItem) (ids : list jsstring) : list jsstring :=
  let records := history_record <$> items in
  default [] (
    forest ← deriveAiSessionForest Date_parse localeCompare (hierarchy_fuel records) None records;
    subtrees ← subtrees_ids (hierarchy_fuel records) forest ids;
    Some (js_add_all subtrees [])).

Definition removeSubtrees (ids : list jsstring) : HistoryM bool :=
  items ← history_list;
  match archive_subtrees items ids with
  | [] => mret false
  | subtreeIds => removeByIds subtreeIds true
  end.

Definition history_remove (id : jsstring) : HistoryM bool := removeSubtrees [id].

Definition history_activate (id : jsstring) : HistoryM bool := removeByIds [id] false.

Definition identity_key (agent providerSessionId : jsstring) : jsstring := agent ++ js ":" ++ providerSessionId.

Definition removeIdentity (agent providerSessionId : jsstring) : HistoryM bool :=
  items ← history_list;
  match head (filter (fun item => providerIdentity item = identity_key agent providerSessionId) items) with
  | Some item => removeSubtrees [hi_id item]
  | None => mret false
  end.

Definition activateIdentity (agent providerSessionId : jsstring) : HistoryM bool :=
  items ← history_list;
  let identity := identity_key agent providerSessionId in
  let next := filter (fun item => providerIdentity item <> identity) items in
  if bool_decide (length next = length items) then mret false else
  _ ← saveIndex next;
  _ ← removeEntries (hi_id <$> filter (fun item => providerIdentity item = identity) items) false;
  mret true.

(** The requests that may change the archive. *)
Inductive history_request :=
| ListHistory
| DetailRequest (id : jsstring)
| SetRetentionLimit (limit : Z)
| Upsert (item : AiSessionHistoryItem) (turns : option (list Turn))
| Remove (id : jsstring)
| Activate (id : jsstring)
| RemoveIdentity (agent providerSessionId : jsstring)
| ActivateIdentity (agent providerSessionId : jsstring).

Definition run_only {A} (m : HistoryM A) : HistoryM unit := _ ← m; mret tt.

Definition serve_history (request : history_request) : HistoryM unit :=
  match request with
  | ListHistory => run_only history_list
  | DetailRequest id => run_only (history_detail id)
  | SetRetentionLimit limit => run_only (setRetentionLimit limit)
  | Upsert item turns => run_only (upsert item turns)
  | Remove id => run_only (history_remove id)
  | Activate id => run_only (history_activate id)
  | RemoveIdentity agent provider => run_only (removeIdentity agent provider)
  | ActivateIdentity agent provider => run_only (activateIdentity agent provider)
  end.
End History.
