(* ===== verification/SessionHistorySpec.v ===== *)
(** * What the archive keeps

    Sorting and limiting keeps whole trees - all that hang below sessions of
    others, and the most recently active of the rest - and leaves alone what
    it has kept ([history_kept]).  Every operation accounts for the sessions
    that leave the archive. *)

From S2P Require Export SessionHistory HierarchySpec.

Section HistorySpec.
Context {Rest Turn : Type} `{EqDecision Rest, EqDecision Turn}.
Context (Date_parse : jsstring -> option Z) (localeCompare : jsstring -> jsstring -> Z) (sha256 : jsstring -> jsstring).
Abbreviation item := (@AiSessionHistoryItem Rest).
Implicit Types (x y : item) (items l : list item).

(** [localeCompare] is an order of strings. *)
Record collation : Prop := Collation {
  lc_total a b : (0 < localeCompare a b)%Z -> (localeCompare b a <= 0)%Z;
  lc_trans a b c : (localeCompare a b <= 0)%Z -> (localeCompare b c <= 0)%Z -> (localeCompare a c <= 0)%Z
}.
Hypothesis Hlocale : collation.

(** The schema reads timestamps only. *)
Definition dated x : Prop := is_Some (Date_parse (hi_lastActiveAt x)) /\ is_Some (Date_parse (hi_archivedAt x)).

Abbreviation compare := (history_compare Date_parse localeCompare).
Abbreviation newest_first := (StronglySorted (fun x y => compare x y <= 0)%Z).

(** ** Sorting *)

Lemma history_compare_spec x y : dated x -> dated y -> exists a b c d,
  Date_parse (hi_lastActiveAt x) = Some a /\ Date_parse (hi_lastActiveAt y) = Some b
  /\ Date_parse (hi_archivedAt x) = Some c /\ Date_parse (hi_archivedAt y) = Some d
  /\ ((compare x y <= 0)%Z <-> (b < a \/ (a = b /\ (d < c \/ (c = d /\ localeCompare (hi_id x) (hi_id y) <= 0))))%Z).
Proof.
  intros [[a Ha] [c Hc]] [[b Hb] [d Hd]]. exists a, b, c, d. split_and!; try done.
  unfold history_compare, date_sub. rewrite Ha, Hb, Hc, Hd.
  destruct (b - a =? 0)%Z eqn:E1; simpl; propify; [|lia]. destruct (d - c =? 0)%Z eqn:E2; simpl; propify; lia.
Qed.

Lemma history_compare_total x y : dated x -> dated y -> (0 < compare x y)%Z -> (compare y x <= 0)%Z.
Proof.
  intros Hx Hy Hc. destruct (history_compare_spec x y Hx Hy) as (a & b & c & d & Ha & Hb & Hca & Hda & H1).
  destruct (history_compare_spec y x Hy Hx) as (a' & b' & c' & d' & Ha' & Hb' & Hca' & Hda' & H2). simplify_eq.
  apply H2. destruct (Z.lt_trichotomy a b) as [?|[?|?]]; [lia| |lia]. right. split; [done|].
  destruct (Z.lt_trichotomy c d) as [?|[?|?]]; [lia| |lia]. right. split; [done|]. apply lc_total; [done|]. lia.
Qed.

Lemma history_compare_trans x y z :
  dated x -> dated y -> dated z -> (compare x y <= 0)%Z -> (compare y z <= 0)%Z -> (compare x z <= 0)%Z.
Proof.
  intros Hx Hy Hz. destruct (history_compare_spec x y Hx Hy) as (a & b & c & d & Ha & Hb & Hca & Hda & ->).
  destruct (history_compare_spec y z Hy Hz) as (a' & b' & c' & d' & Ha' & Hb' & Hca' & Hda' & ->). simplify_eq.
  destruct (history_compare_spec x z Hx Hz) as (a2 & b2 & c2 & d2 & ? & ? & ? & ? & ->). simplify_eq.
  intros H1 H2. destruct H1 as [?|[-> H1]], H2 as [?|[-> H2]]; try lia.
  right. split; [done|]. destruct H1 as [?|[-> H1]], H2 as [?|[-> H2]]; try lia. right. split; [done|]. by eapply lc_trans.
Qed.

Lemma sorted_newest_first items : Forall dated items -> newest_first (js_sort compare items).
Proof. apply js_sort_ordered; [apply history_compare_total|apply history_compare_trans]. Qed.

(** ** Unique entries *)

Abbreviation dedup := (deduplicate (Rest := Rest)).

Lemma deduplicate_sub ids ps l : sublist (dedup ids ps l) l.
Proof. revert ids ps. induction l as [|x l IH]; intros ids ps; simpl; [constructor|]. case_match; [by constructor|by apply sublist_skip]. Qed.

Lemma deduplicate_elem ids ps l x : x ∈ dedup ids ps l -> hi_id x ∉ ids /\ providerIdentity x ∉ ps.
Proof.
  revert ids ps. induction l as [|y l IH]; intros ids ps; simpl; [by intros ?%elem_of_nil|].
  destruct (_ || _) eqn:E; [apply IH|]. propify. intros [-> |Hx]%elem_of_cons; [done|].
  apply IH in Hx as [H1 H2]. rewrite elem_of_js_add in H1, H2. tauto.
Qed.

Lemma deduplicate_unique ids ps l : NoDup (hi_id <$> dedup ids ps l) /\ NoDup (providerIdentity <$> dedup ids ps l).
Proof.
  revert ids ps. induction l as [|y l IH]; intros ids ps; simpl; [split; constructor|].
  destruct (_ || _); [apply IH|]. rewrite !fmap_cons, !NoDup_cons.
  destruct (IH (js_add (hi_id y) ids) (js_add (providerIdentity y) ps)) as [H1 H2]. split_and!; try done.
  - intros (z & Hz & Hin)%list_elem_of_fmap. apply deduplicate_elem in Hin as [Hin _]. apply Hin. rewrite elem_of_js_add. by left.
  - intros (z & Hz & Hin)%list_elem_of_fmap. apply deduplicate_elem in Hin as [_ Hin]. apply Hin. rewrite elem_of_js_add. by left.
Qed.

Lemma deduplicate_id ids ps l :
  NoDup (hi_id <$> l) -> NoDup (providerIdentity <$> l) ->
  (forall x, x ∈ l -> hi_id x ∉ ids /\ providerIdentity x ∉ ps) -> dedup ids ps l = l.
Proof.
  revert ids ps. induction l as [|y l IH]; intros ids ps; [done|]. rewrite !fmap_cons, !NoDup_cons. simpl.
  intros [Hy Hids] [Hp Hps] Hall. destruct (Hall y) as [H1 H2]; [set_solver|].
  rewrite (bool_decide_eq_false_2 _ H1), (bool_decide_eq_false_2 _ H2). simpl. f_equal. apply IH; [done|done|].
  intros x Hx. destruct (Hall x) as [H3 H4]; [set_solver|]. rewrite !elem_of_js_add.
  split; intros [Heq|?]; try done; [apply Hy|apply Hp]; rewrite <- Heq; by apply list_elem_of_fmap_2.
Qed.

(** What is dropped has the id or the identity of something kept before it. *)
Lemma deduplicate_drops ids ps l x :
  x ∈ l -> newest_first l ->
  hi_id x ∈ ids \/ providerIdentity x ∈ ps
  \/ exists y, y ∈ dedup ids ps l /\ (hi_id y = hi_id x \/ providerIdentity y = providerIdentity x) /\ (y = x \/ (compare y x <= 0)%Z).
Proof.
  intros Hx Hs. revert ids ps. induction Hs as [|y l Hs IH Hy]; intros ids ps; [by apply elem_of_nil in Hx|].
  simpl. rewrite elem_of_cons in Hx. destruct (_ || _) eqn:E.
  - destruct Hx as [-> |Hx]; [|by apply IH]. apply orb_true_iff in E as [E|E]; apply bool_decide_eq_true in E; tauto.
  - destruct Hx as [-> |Hx]; [right; right; exists y; set_solver|].
    rewrite Forall_forall in Hy. specialize (Hy x Hx).
    destruct (IH Hx (js_add (hi_id y) ids) (js_add (providerIdentity y) ps)) as [H1|[H1|(z & Hz & H1)]];
      rewrite ?elem_of_js_add in H1.
    + destruct H1 as [H1|?]; [|by left]. right. right. exists y. set_solver.
    + destruct H1 as [H1|?]; [|by right; left]. right. right. exists y. set_solver.
    + right. right. exists z. set_solver.
Qed.

(** ** Trees of the archive *)

Abbreviation records l := (history_record <$> l).
Abbreviation derive := (deriveAiSessionForest Date_parse localeCompare).

Lemma records_ids l : hr_id <$> records l = hi_id <$> l.
Proof. by rewrite <- list_fmap_compose. Qed.

Definition is_top (node : AiSessionTreeNode) : Prop := is_subagent (tn_session node) = false.
#[local] Instance is_top_dec node : Decision (is_top node) := decide (_ = _).

(** The roots whose trees are kept: those that are subagents - their parents
    are not archived - and the first of the others. *)
Definition kept_root (limit : nat) (roots : list AiSessionTreeNode) (root : AiSessionTreeNode) : Prop :=
  (root ∈ roots /\ ~ is_top root) \/ root ∈ take limit (filter is_top roots).

Lemma kept_root_nil n r : ~ kept_root n [] r.
Proof. unfold kept_root. rewrite filter_nil, take_nil. intros [[H _]|H]; by apply elem_of_nil in H. Qed.

Lemma kept_root_subagent n root roots r :
  ~ is_top root -> kept_root n (root :: roots) r <-> r = root \/ kept_root n roots r.
Proof.
  intros Ht. unfold kept_root. rewrite filter_cons, decide_False, elem_of_cons by done. split; [tauto|].
  intros [-> |?]; tauto.
Qed.

Lemma kept_root_top n root roots r :
  is_top root -> kept_root n (root :: roots) r
  <-> match n with 0 => kept_root 0 roots r | S n => r = root \/ kept_root n roots r end.
Proof.
  intros Ht. unfold kept_root. rewrite filter_cons, decide_True, elem_of_cons by done. destruct n as [|n]; simpl.
  - rewrite take_0. split; [|tauto]. intros [[[-> |?] ?]|?]; tauto.
  - rewrite elem_of_cons. split; [|tauto]. intros [[[-> |?] ?]|[?|?]]; tauto.
Qed.

(** An archived session hangs below a root. *)
Definition below_root (forest : AiSessionForest) (id : jsstring) (root : AiSessionTreeNode) : Prop :=
  rtc (child_of forest) id (hr_id (tn_session root)).

Section Trees.
Context (fuel : nat) (l : list item) (forest : AiSessionForest) (members : list jsstring).
Hypothesis Hd : derived Date_parse localeCompare None (records l) members forest.
Hypothesis Hnd : NoDup (hi_id <$> l).
Hypothesis Hfuel : hierarchy_fuel (records l) <= fuel.

Lemma records_unique : NoDup (hr_id <$> records l).
Proof. by rewrite records_ids. Qed.

Lemma root_session root : root ∈ root_sessions forest ->
  exists i, records l !! i = Some (tn_session root) /\ fo_nodes forest !! i = Some root /\ tree_parent (records l) members i = None.
Proof.
  intros (i & Hi & Hp)%(elem_of_root_sessions _ _ _ _ _ _ Hd). exists i. split; [|done]. by eapply node_session.
Qed.

Lemma subtree_ids_below root : root ∈ root_sessions forest ->
  exists ids, subtree_ids fuel forest (hr_id (tn_session root)) = Some ids
    /\ forall x, x ∈ l -> hi_id x ∈ ids <-> below_root forest (hi_id x) root.
Proof.
  intros (i & Hi & Hn & Hp)%root_session. destruct (tree_ranked _ _ _ _ _ _ Hd) as (rank & bound & Hrank).
  pose proof (index_ids_unique _ _ _ records_unique Hi) as Hid. rewrite <- (forest_ids _ _ _ _ _ _ Hd) in Hid.
  unfold subtree_ids. rewrite (subtree_postorder _ _ _ _ _ _ Hd rank bound Hrank _ _ _ Hid Hfuel).
  eexists. split; [reflexivity|]. intros x Hx. fold (tree_sessions forest rank bound i). rewrite list_elem_of_fmap. split.
  - intros (s & Hs & Hin). apply (tree_sessions_in_tree _ _ _ _ _ _ Hd records_unique rank bound Hrank i (tn_session root) s Hi) in Hin as [_ Hb].
    change (rtc (child_of forest) (hi_id x) (hr_id (tn_session root))). by rewrite Hs.
  - intros Hb. exists (history_record x). split; [done|].
    apply (tree_sessions_in_tree _ _ _ _ _ _ Hd records_unique rank bound Hrank i (tn_session root) _ Hi). split; [by apply list_elem_of_fmap_2|done].
Qed.

Lemma retain_roots_spec limit ids k roots :
  roots ⊆ root_sessions forest -> (0 <= k <= historyLimit limit)%Z ->
  exists ids' k', retain_roots fuel limit forest (ids, k) roots = Some (ids', k')
    /\ forall x, x ∈ l -> hi_id x ∈ ids'
         <-> hi_id x ∈ ids \/ exists root, kept_root (Z.to_nat (historyLimit limit - k)) roots root /\ below_root forest (hi_id x) root.
Proof.
  revert ids k. induction roots as [|root roots IH]; intros ids k Hsub Hk; simpl.
  - exists ids, k. split; [done|]. intros x _. split; [by left|]. intros [?|(root & Hr & _)]; [done|by apply kept_root_nil in Hr].
  - destruct (subtree_ids_below root) as (below & Hbelow & Hin); [set_solver|]. unfold retain_root. rewrite Hbelow.
    assert (Hsub' : roots ⊆ root_sessions forest) by set_solver. set (n := Z.to_nat (historyLimit limit - k)).
    assert (Hadd : forall (ids' : list jsstring) m, (forall x, x ∈ l -> hi_id x ∈ ids'
        <-> hi_id x ∈ js_add_all below ids \/ exists r, kept_root m roots r /\ below_root forest (hi_id x) r) ->
      (forall r, kept_root n (root :: roots) r <-> r = root \/ kept_root m roots r) ->
      forall x, x ∈ l -> hi_id x ∈ ids' <-> hi_id x ∈ ids \/ exists r, kept_root n (root :: roots) r /\ below_root forest (hi_id x) r).
    { intros ids' m Hids Hkept x Hx. rewrite (Hids x Hx), elem_of_js_add_all, (Hin x Hx). setoid_rewrite Hkept. naive_solver. }
    destruct (is_subagent (tn_session root)) eqn:Etop; simpl.
    + assert (Ht : ~ is_top root) by (unfold is_top; by rewrite Etop).
      destruct (IH (js_add_all below ids) k Hsub' Hk) as (ids' & k' & -> & Hids). exists ids', k'. split; [done|].
      apply (Hadd _ n); [done|]. intros r. by apply kept_root_subagent.
    + assert (Ht : is_top root) by done. destruct (historyLimit limit <=? k)%Z eqn:Ek; propify; simpl.
      * destruct (IH ids k Hsub' Hk) as (ids' & k' & -> & Hids). exists ids', k'. split; [done|].
        intros x Hx. rewrite (Hids x Hx). subst n. replace (Z.to_nat (historyLimit limit - k)) with 0 by lia.
        by setoid_rewrite (fun r => kept_root_top 0 root roots r Ht).
      * destruct (IH (js_add_all below ids) (k + 1)%Z Hsub' ltac:(lia)) as (ids' & k' & -> & Hids). exists ids', k'. split; [done|].
        apply (Hadd _ (Z.to_nat (historyLimit limit - (k + 1)))); [done|]. intros r. rewrite kept_root_top by done.
        subst n. by replace (Z.to_nat (historyLimit limit - k)) with (S (Z.to_nat (historyLimit limit - (k + 1)))) by lia.
Qed.

(** *** Roots *)

Lemma every_item_below_root x : x ∈ l -> exists root, root ∈ root_sessions forest /\ below_root forest (hi_id x) root.
Proof.
  intros [i Hi]%list_elem_of_lookup. destruct (tree_ranked _ _ _ _ _ _ Hd) as (rank & bound & Hrank).
  assert (Hri : records l !! i = Some (history_record x)) by by rewrite list_lookup_fmap, Hi.
  destruct (tree_climbs _ _ _ rank bound Hrank i) as (path & Hc & _); [by apply lookup_lt_Some in Hri|].
  change (hi_id x) with (hr_id (history_record x)). revert Hri. generalize (history_record x). clear x Hi.
  induction Hc as [i Hp|i p path Hp Hc IH]; intros s Hs.
  - destruct (session_node _ _ _ _ _ _ Hd i s Hs) as (node & Hn & <-). exists node. split; [|constructor].
    apply (elem_of_root_sessions _ _ _ _ _ _ Hd). by exists i.
  - pose proof (parent_ref_lt _ _ _ _ Hp) as Hlt. destruct (lookup_lt_is_Some_2 _ _ Hlt) as [q Hq].
    destruct (IH q Hq) as (root & Hroot & Hb). exists root. split; [done|]. eapply rtc_l; [|exact Hb].
    apply (child_of_par _ _ _ _ _ _ Hd records_unique i s _ Hs). by exists p, q.
Qed.

(** Nothing is above a root. *)
Lemma above_root root other : root ∈ root_sessions forest -> other ∈ root_sessions forest ->
  below_root forest (hr_id (tn_session root)) other -> other = root.
Proof.
  intros (i & Hi & Hn & Hp)%root_session (j & Hj & Hm & _)%root_session Hb.
  unfold below_root in Hb. inversion Hb as [a Ha|a y b Hy _]; subst.
  - destruct (id_unique _ records_unique i j _ _ Hi Hj) as [-> _]; [done|]. congruence.
  - apply (child_of_par _ _ _ _ _ _ Hd records_unique i _ _ Hi) in Hy as (q & t & Hq & _). congruence.
Qed.

Lemma top_parent i x : l !! i = Some x -> is_subagent (history_record x) = false -> tree_parent (records l) members i = None.
Proof.
  intros Hi Ht. destruct (tree_parent _ _ _) as [p|] eqn:Hp; [|done]. exfalso. unfold tree_parent, parent_ref in Hp.
  rewrite list_lookup_fmap, Hi in Hp. simpl in Hp. destruct (mget _ (final_links _ _)) as [y|] eqn:Hy; [|done].
  unfold final_links in Hy. rewrite mget_delete_all in Hy. case_decide; [done|].
  apply candidate_links_Some in Hy as (s & Hs & Hid & Hl). apply parent_link_of_Some in Hl as (q & Hq & _).
  apply list_elem_of_lookup in Hs as [j Hj].
  destruct (id_unique _ records_unique j i s (history_record x)) as [_ ->]; [done|by rewrite list_lookup_fmap, Hi|done|].
  unfold named_parent, subagent_parent in Hq. unfold is_subagent in Ht. by destruct (hr_lineage (history_record x)) as [[]|].
Qed.

(** An item that is not a subagent's is the session of a root. *)
Lemma top_root x : x ∈ l -> is_subagent (history_record x) = false ->
  exists root, root ∈ root_sessions forest /\ tn_session root = history_record x.
Proof.
  intros [i Hi]%list_elem_of_lookup Ht. pose proof (top_parent _ _ Hi Ht) as Hp.
  destruct (session_node _ _ _ _ _ _ Hd i (history_record x)) as (node & Hn & Hs); [by rewrite list_lookup_fmap, Hi|].
  exists node. split; [|done]. apply (elem_of_root_sessions _ _ _ _ _ _ Hd). by exists i.
Qed.

Lemma root_ids_unique : NoDup ((fun root => hr_id (tn_session root)) <$> root_sessions forest).
Proof.
  unfold root_sessions.
  assert (Hnd' : NoDup (fo_roots forest)) by (rewrite (roots_perm _ _ _ _ _ _ Hd); apply NoDup_filter, NoDup_seq).
  induction Hnd' as [|i refs Hi Hrefs IH]; [constructor|]. simpl. destruct (fo_nodes forest !! i) as [node|] eqn:Hn; [|done].
  rewrite fmap_cons. apply NoDup_cons. split; [|done]. intros (m & Heq & (j & Hj & Hm)%list_elem_of_omap)%list_elem_of_fmap.
  apply Hi. destruct (id_unique _ records_unique i j (tn_session node) (tn_session m)) as [-> _]; [..|done]; [|by eapply node_session|done].
  by eapply node_session.
Qed.

Lemma root_item root : root ∈ root_sessions forest -> exists x, x ∈ l /\ tn_session root = history_record x.
Proof.
  intros (i & Hi & _)%root_session. rewrite list_lookup_fmap in Hi. apply fmap_Some in Hi as (x & Hx & Hr).
  exists x. split; [by eapply list_elem_of_lookup_2|done].
Qed.
End Trees.

(** ** What is kept *)

Definition top_items l : list item := filter (fun x => is_subagent (history_record x) = false) l.

Lemma historyLimit_pos limit : (1 <= historyLimit limit)%Z.
Proof. unfold historyLimit, AI_SESSION_HISTORY_DEFAULT_LIMIT. destruct (_ && _) eqn:E; propify; lia. Qed.

Lemma limit_history_spec l limit : NoDup (hi_id <$> l) ->
  exists forest members (ids : list jsstring), derived Date_parse localeCompare None (records l) members forest
    /\ derive (hierarchy_fuel (records l)) None (records l) = Some forest
    /\ limit_history Date_parse localeCompare (hierarchy_fuel (records l)) l limit = Some (filter (fun x => hi_id x ∈ ids) l)
    /\ forall x, x ∈ l -> hi_id x ∈ ids
         <-> exists root, kept_root (Z.to_nat (historyLimit limit)) (root_sessions forest) root /\ below_root forest (hi_id x) root.
Proof.
  intros Hnd. destruct (derive_total Date_parse localeCompare None (records l)) as (members & forest & Hd & Hf).
  specialize (Hf _ (le_n _)). pose proof (historyLimit_pos limit).
  destruct (retain_roots_spec _ l forest members Hd Hnd (le_n _) limit [] 0%Z (root_sessions forest)) as (ids & k & Hr & Hids); [done|lia|].
  exists forest, members, ids. split_and!; [done|done| |].
  - unfold limit_history. rewrite Hf. simpl. by rewrite Hr.
  - intros x Hx. rewrite (Hids x Hx), Z.sub_0_r. split; [intros [?%elem_of_nil|?]; done|by right].
Qed.

(** An archive within the limit is kept as a whole. *)
Lemma limit_history_all l limit :
  NoDup (hi_id <$> l) -> length (top_items l) <= Z.to_nat (historyLimit limit) ->
  limit_history Date_parse localeCompare (hierarchy_fuel (records l)) l limit = Some l.
Proof.
  intros Hnd Hle. destruct (limit_history_spec l limit Hnd) as (forest & members & ids & Hd & _ & -> & Hids). f_equal.
  apply filter_all. intros x Hx. apply (Hids x Hx).
  destruct (every_item_below_root l forest members Hd Hnd x Hx) as (root & Hroot & Hb). exists root. split; [|done].
  destruct (decide (is_top root)); [right|by left]. rewrite take_ge; [by apply list_elem_of_filter|].
  etrans; [|exact Hle]. rewrite <- (length_fmap (fun root => hr_id (tn_session root))), <- (length_fmap hi_id (top_items l)).
  apply submseteq_length, NoDup_submseteq.
  - eapply sublist_NoDup; [exact (root_ids_unique l forest members Hd Hnd)|]. apply fmap_sublist, sublist_filter.
  - intros id (r & -> & [Ht Hr]%list_elem_of_filter)%list_elem_of_fmap.
    destruct (root_item l forest members Hd r Hr) as (y & Hy & Hs). apply list_elem_of_fmap. exists y. unfold is_top in Ht.
    rewrite Hs in Ht |- *. split; [done|]. by apply list_elem_of_filter.
Qed.

(** What is kept is within the limit. *)
Lemma limit_history_bound l limit kept :
  NoDup (hi_id <$> l) ->
  limit_history Date_parse localeCompare (hierarchy_fuel (records l)) l limit = Some kept ->
  length (top_items kept) <= Z.to_nat (historyLimit limit).
Proof.
  intros Hnd Hk. destruct (limit_history_spec l limit Hnd) as (forest & members & ids & Hd & _ & Hl & Hids).
  rewrite Hk in Hl. injection Hl as ->. set (n := Z.to_nat (historyLimit limit)) in *.
  transitivity (length (take n (filter is_top (root_sessions forest)))); [|by rewrite length_take; lia].
  rewrite <- (length_fmap (fun root => hr_id (tn_session root)) (take _ _)), <- (length_fmap hi_id (top_items _)).
  apply submseteq_length, NoDup_submseteq.
  - eapply sublist_NoDup; [exact Hnd|]. apply fmap_sublist. etrans; apply sublist_filter.
  - intros id (x & -> & [Ht [Hin Hx]%list_elem_of_filter]%list_elem_of_filter)%list_elem_of_fmap.
    destruct (top_root l forest members Hd Hnd x Hx Ht) as (root & Hroot & Hs).
    apply (Hids x Hx) in Hin as (root' & Hkept & Hb). change (hi_id x) with (hr_id (history_record x)) in Hb |- *. rewrite <- Hs in Hb |- *.
    assert (Hroot' : root' ∈ root_sessions forest).
    { destruct Hkept as [[? _]|Htake]; [done|]. apply elem_of_take in Htake as (j & Hj%list_elem_of_lookup_2 & _). by apply list_elem_of_filter in Hj as [_ ?]. }
    rewrite (above_root l forest members Hd Hnd root root' Hroot Hroot' Hb) in Hkept.
    apply list_elem_of_fmap. exists root. split; [done|]. destruct Hkept as [[_ Hno]|]; [|done]. destruct Hno. unfold is_top. by rewrite Hs.
Qed.

Lemma unique_history_spec items :
  let all := unique_history Date_parse localeCompare items in
  NoDup (hi_id <$> all) /\ NoDup (providerIdentity <$> all) /\ (forall x, x ∈ all -> x ∈ items)
  /\ (Forall dated items -> Forall dated all /\ newest_first all
      /\ forall x, x ∈ items -> exists y, y ∈ all /\ (hi_id y = hi_id x \/ providerIdentity y = providerIdentity x)
           /\ (y = x \/ (compare y x <= 0)%Z)).
Proof.
  intros all. subst all. unfold unique_history. destruct (deduplicate_unique [] [] (js_sort compare items)) as [H1 H2].
  pose proof (deduplicate_sub [] [] (js_sort compare items)) as Hsub.
  assert (Hin : forall x, x ∈ dedup [] [] (js_sort compare items) -> x ∈ items).
  { intros x Hx. rewrite <- (js_sort_perm compare items). by eapply elem_of_sublist. }
  split_and!; [done|done|done|]. intros Hdated. pose proof (sorted_newest_first items Hdated) as Hs. split_and!.
  - rewrite Forall_forall in *. auto.
  - by eapply StronglySorted_sublist.
  - intros x Hx. rewrite <- (js_sort_perm compare items) in Hx.
    destruct (deduplicate_drops [] [] _ x Hx Hs) as [?%elem_of_nil|[?%elem_of_nil|Hy]]; done.
Qed.

Lemma sort_and_limit_spec items limit :
  exists forest members (ids : list jsstring), let all := unique_history Date_parse localeCompare items in
    derived Date_parse localeCompare None (records all) members forest
    /\ derive (hierarchy_fuel (records all)) None (records all) = Some forest
    /\ sortAndLimitAiSessionHistory Date_parse localeCompare items limit = filter (fun x => hi_id x ∈ ids) all
    /\ (forall x, x ∈ all -> hi_id x ∈ ids
         <-> exists root, kept_root (Z.to_nat (historyLimit limit)) (root_sessions forest) root /\ below_root forest (hi_id x) root)
    /\ length (top_items (sortAndLimitAiSessionHistory Date_parse localeCompare items limit)) <= Z.to_nat (historyLimit limit).
Proof.
  destruct (unique_history_spec items) as (Hnd & _).
  destruct (limit_history_spec _ limit Hnd) as (forest & members & ids & Hd & Hf & Hl & Hids).
  exists forest, members, ids. simpl. unfold sortAndLimitAiSessionHistory. rewrite Hl. split_and!; [done..|].
  simpl. by eapply limit_history_bound.
Qed.

Lemma sort_and_limit_elem items limit x :
  x ∈ sortAndLimitAiSessionHistory Date_parse localeCompare items limit -> x ∈ items.
Proof.
  destruct (sort_and_limit_spec items limit) as (forest & members & ids & _ & _ & -> & _).
  intros [_ Hx]%list_elem_of_filter. by apply unique_history_spec.
Qed.

Lemma sort_and_limit_unique items limit :
  NoDup (hi_id <$> sortAndLimitAiSessionHistory Date_parse localeCompare items limit).
Proof.
  destruct (sort_and_limit_spec items limit) as (forest & members & ids & _ & _ & -> & _).
  eapply sublist_NoDup; [exact (proj1 (unique_history_spec items))|]. apply fmap_sublist, sublist_filter.
Qed.

(** An archive that is ordered, unique and within the limit is left alone. *)
Lemma sort_and_limit_id l limit :
  newest_first l -> NoDup (hi_id <$> l) -> NoDup (providerIdentity <$> l) -> length (top_items l) <= Z.to_nat (historyLimit limit) ->
  sortAndLimitAiSessionHistory Date_parse localeCompare l limit = l.
Proof.
  intros Hs Hids Hps Hle. unfold sortAndLimitAiSessionHistory, unique_history. rewrite js_sort_ordered_id by done.
  rewrite deduplicate_id; [|done|done|set_solver]. by rewrite limit_history_all.
Qed.

(** Another limit that is not below is kept to as well. *)
Lemma sort_and_limit_idemp items limit limit' :
  Forall dated items -> (historyLimit limit <= historyLimit limit')%Z ->
  let kept := sortAndLimitAiSessionHistory Date_parse localeCompare items limit in
  sortAndLimitAiSessionHistory Date_parse localeCompare kept limit' = kept.
Proof.
  intros Hdated Hle kept. destruct (sort_and_limit_spec items limit) as (forest & members & ids & _ & _ & Hk & _ & Hb).
  destruct (unique_history_spec items) as (H1 & H2 & _ & H3). destruct (H3 Hdated) as (_ & Hs & _).
  apply sort_and_limit_id; subst kept; [| | |etrans; [exact Hb|lia]]; rewrite Hk.
  - eapply StronglySorted_sublist; [apply sublist_filter|exact Hs].
  - eapply sublist_NoDup; [exact H1|]. apply fmap_sublist, sublist_filter.
  - eapply sublist_NoDup; [exact H2|]. apply fmap_sublist, sublist_filter.
Qed.

(** *** Most recent first *)

Definition tree_time (root : AiSessionTreeNode) : Z := timestamp Date_parse (Some (tn_aggregateUpdatedAt root)).

Lemma compare_siblings_spec indexById heap i j a b :
  heap !! i = Some a -> heap !! j = Some b ->
  let index node := default 0 (mget (hr_id (tn_session node)) indexById) in
  ((compare_siblings Date_parse localeCompare None indexById heap i j <= 0)%Z
   <-> (tree_time b < tree_time a)%Z \/ (tree_time b = tree_time a /\ index a <= index b)).
Proof.
  intros Ha Hb index. unfold compare_siblings. rewrite Ha, Hb. cbv zeta.
  change (hierarchyOrderTime Date_parse None b) with (tree_time b). change (hierarchyOrderTime Date_parse None a) with (tree_time a).
  change (hierarchyOrderFallback localeCompare None indexById a b) with (Z.of_nat (index a) - Z.of_nat (index b))%Z.
  case_decide; lia.
Qed.

(** The roots are in the order of the last update in their trees. *)
Lemma roots_most_recent_first l forest members :
  derived Date_parse localeCompare None (records l) members forest ->
  StronglySorted (fun r s => tree_time s <= tree_time r)%Z (root_sessions forest).
Proof.
  intros Hd. pose proof (fk_roots _ _ _ _ _ _ (dv_forest _ _ _ _ _ _ Hd)) as Hroots. unfold root_sessions.
  set (cmp := compare_siblings _ _ _ _ _) in Hroots. set (P i := is_Some (fo_nodes forest !! i)).
  assert (Hall : Forall P (fo_roots forest)).
  { apply Forall_forall. intros i [Hi _]%(elem_of_roots _ _ _ _ _ _ Hd). by apply (node_exists _ _ _ _ _ _ Hd). }
  assert (Hs : StronglySorted (fun i j => cmp i j <= 0)%Z (fo_roots forest)).
  { rewrite Hroots. apply (js_sort_ordered cmp P).
    - intros i j [a Ha] [b Hb] Hc. apply (compare_siblings_spec _ _ j i b a Hb Ha).
      assert (Hn : ~ (cmp i j <= 0)%Z) by lia. unfold cmp in Hn. rewrite (compare_siblings_spec _ _ i j a b Ha Hb) in Hn. lia.
    - intros i j k [a Ha] [b Hb] [c Hc]. unfold cmp. rewrite (compare_siblings_spec _ _ i j a b Ha Hb), (compare_siblings_spec _ _ j k b c Hb Hc),
        (compare_siblings_spec _ _ i k a c Ha Hc). lia.
    - by rewrite <- (js_sort_perm cmp), <- Hroots. }
  clear Hroots. induction Hs as [|i refs Hs IH Hi]; [constructor|]. apply Forall_cons in Hall as [[a Ha] Hall]. simpl. rewrite Ha.
  constructor; [by apply IH|]. apply Forall_forall. intros b (j & Hj & Hb)%list_elem_of_omap.
  rewrite Forall_forall in Hi. specialize (Hi j Hj). apply (compare_siblings_spec _ _ i j a b Ha Hb) in Hi. lia.
Qed.

Lemma take_sorted {A} (R : A -> A -> Prop) (es : list A) k a b :
  StronglySorted R es -> a ∈ take k es -> b ∈ es -> b ∉ take k es -> R a b.
Proof.
  intros Hs. revert k. induction Hs as [|c es Hs IH Hc]; intros k Ha Hb Hno; [by apply elem_of_nil in Hb|].
  destruct k as [|k]; [by apply elem_of_nil in Ha|]. simpl in *. rewrite elem_of_cons in *.
  rewrite Forall_forall in Hc. destruct Ha as [-> |Ha], Hb as [-> |Hb]; try tauto; [auto|]. apply (IH k); tauto.
Qed.

(** A root that is not kept is one of another session, and its tree was not
    updated after any kept tree of such a root. *)
Lemma dropped_root l forest members n root dropped :
  derived Date_parse localeCompare None (records l) members forest ->
  dropped ∈ root_sessions forest -> ~ kept_root n (root_sessions forest) dropped ->
  is_top dropped /\ n <= length (filter is_top (root_sessions forest))
  /\ (root ∈ take n (filter is_top (root_sessions forest)) -> (tree_time dropped <= tree_time root)%Z).
Proof.
  intros Hd Hin Hno. destruct (decide (is_top dropped)) as [Ht|Ht]; [|by destruct Hno; left].
  assert (Hf : dropped ∈ filter is_top (root_sessions forest)) by by apply list_elem_of_filter.
  assert (Htake : dropped ∉ take n (filter is_top (root_sessions forest))) by (intros ?; apply Hno; by right).
  split_and!; [done| |].
  - apply Nat.nlt_ge. intros Hlt. apply Htake. by rewrite take_ge by lia.
  - intros Hroot. refine (take_sorted (fun r s => tree_time s <= tree_time r)%Z _ _ _ _ _ Hroot Hf Htake).
    eapply StronglySorted_sublist; [apply sublist_filter|]. by eapply roots_most_recent_first.
Qed.

(** ** The store

    What the archive holds: what [list] returns. *)
Abbreviation store := (@history_store Rest Turn).
Implicit Types (s : store).

Definition archive (s : store) : list item :=
  match hs_index s with
  | IndexMissing | IndexUnreadable => []
  | file => sortAndLimitAiSessionHistory Date_parse localeCompare (omap re_item (index_entries file)) (hs_limit s)
  end.

Definition archived_ids (s : store) : list jsstring := hi_id <$> archive s.

(** The limit is one the store accepts, and what the index file holds is dated. *)
Definition store_ok (s : store) : Prop :=
  (1 <= hs_limit s <= AI_SESSION_HISTORY_MAX_LIMIT)%Z /\ Forall dated (omap re_item (index_entries (hs_index s))).

Lemma accepted_limit limit : (1 <= limit <= AI_SESSION_HISTORY_MAX_LIMIT)%Z -> historyLimit limit = limit.
Proof. intros [? ?]. unfold historyLimit. by rewrite (proj2 (Z.leb_le _ _)), (proj2 (Z.leb_le _ _)). Qed.

Lemma written_entries items : omap re_item (index_entries (IndexWritten items)) = items.
Proof. simpl. induction items as [|x items IH]; [done|]. simpl. by f_equal. Qed.

Lemma archive_dated s : store_ok s -> Forall dated (archive s).
Proof.
  intros [_ Hd]. rewrite Forall_forall in *. intros x Hx. unfold archive in Hx.
  destruct (hs_index s); try by apply elem_of_nil in Hx.
  all: apply Hd; by eapply sort_and_limit_elem.
Qed.

Lemma archive_idemp s : store_ok s -> sortAndLimitAiSessionHistory Date_parse localeCompare (archive s) (hs_limit s) = archive s.
Proof.
  intros [_ Hd]. unfold archive. destruct (hs_index s); try reflexivity; by apply sort_and_limit_idemp.
Qed.

(** What an operation did: entries leave the archive only with their details,
    and are released or - given in [taken] - handed over; what is released
    has left; what is there was there before or is given in [added]. *)
Record accounts (added taken : list jsstring) (s s' : store) : Prop := Accounts {
  ac_ok : store_ok s';
  ac_left id : id ∈ archived_ids s -> id ∉ archived_ids s' ->
    hs_details s' !! sha256 id = None /\ (id ∈ taken \/ id ∈ drop (length (hs_released s)) (hs_released s'));
  ac_released : hs_released s `prefix_of` hs_released s' /\ forall id, id ∈ drop (length (hs_released s)) (hs_released s') -> id ∉ archived_ids s' \/ id ∈ added;
  ac_new x : x ∈ archive s' -> x ∈ archive s \/ hi_id x ∈ added
}.

Lemma accounts_refl added taken s : store_ok s -> accounts added taken s s.
Proof. intros Hok. split; [done|done|split; [done|]|by left]. rewrite drop_ge by done. by intros id ?%elem_of_nil. Qed.

(** The index file, when a list has settled it. *)
Definition settled_index (s : store) : Prop :=
  match hs_index s with IndexWritten l => l = archive s | IndexOther _ => False | _ => True end.

Lemma parse_index_cases l s :
  parse_index (Turn := Turn) l s = (s, Throw IndexSchemaError)
  \/ length l <= AI_SESSION_HISTORY_MAX_ITEMS /\ parse_index (Turn := Turn) l s = (s, Ok l).
Proof.
  unfold parse_index. destruct (_ <? _)%nat eqn:E; [by left|right]. apply Nat.ltb_ge in E. done.
Qed.

Lemma parse_index_ok l s : length l <= AI_SESSION_HISTORY_MAX_ITEMS -> parse_index (Turn := Turn) l s = (s, Ok l).
Proof. intros Hl%Nat.ltb_ge. unfold parse_index. by rewrite Hl. Qed.

Abbreviation save := (saveIndex Date_parse localeCompare (Turn := Turn)).
Abbreviation normal := (sortAndLimitAiSessionHistory Date_parse localeCompare).

Definition with_index (l : list item) (s : store) : store := HistoryStore (IndexWritten l) (hs_details s) (hs_limit s) (hs_released s).

Lemma save_cases l s : save l s = (s, Throw IndexSchemaError) \/ save l s = (with_index (normal l (hs_limit s)) s, Ok tt).
Proof.
  unfold saveIndex, mbind, history_bind, hget, hmodify.
  destruct (parse_index_cases (normal l (hs_limit s)) s) as [-> |[_ ->]]; [by left|by right].
Qed.

Lemma normal_length l limit : length (normal l limit) <= length l.
Proof.
  destruct (sort_and_limit_spec l limit) as (forest & members & ids & _ & _ & -> & _).
  etrans; [apply length_filter|]. unfold unique_history. etrans; [apply sublist_length, deduplicate_sub|]. by rewrite js_sort_length.
Qed.

Lemma save_ok l s : length l <= AI_SESSION_HISTORY_MAX_ITEMS -> save l s = (with_index (normal l (hs_limit s)) s, Ok tt).
Proof.
  intros Hl. unfold saveIndex, mbind, history_bind, hget, hmodify. rewrite parse_index_ok; [done|].
  pose proof (normal_length l (hs_limit s)). lia.
Qed.

Definition without_entries (gone : list jsstring) (release : bool) (s : store) : store :=
  HistoryStore (hs_index s) (foldl (fun details id => delete (sha256 id) details) (hs_details s) gone) (hs_limit s)
    (hs_released s ++ if release then js_add_all gone [] else []).

Lemma remove_entries_eq gone release s : removeEntries sha256 gone release s = (without_entries gone release s, Ok tt).
Proof.
  unfold removeEntries, removeDetails, mbind, history_bind, hmodify, without_entries. destruct release; simpl; [done|].
  by rewrite app_nil_r.
Qed.

Lemma deleted_detail (gone : list jsstring) (details : gmap jsstring (@detail_file Rest Turn)) id :
  id ∈ gone -> foldl (fun details id => delete (sha256 id) details) details gone !! sha256 id = None.
Proof.
  assert (Hkeep : forall gone (details : gmap jsstring (@detail_file Rest Turn)) k, details !! k = None ->
    foldl (fun details id => delete (sha256 id) details) details gone !! k = None).
  { clear. induction gone as [|id gone IH]; intros details k Hk; [done|]. simpl. apply IH.
    destruct (decide (sha256 id = k)) as [<- |]; [apply lookup_delete_eq|by rewrite lookup_delete_ne]. }
  revert details. induction gone as [|id' gone IH]; intros details; [by intros ?%elem_of_nil|]. simpl.
  intros [-> |Hin]%elem_of_cons; [|by apply IH]. apply Hkeep, lookup_delete_eq.
Qed.

Lemma archive_with_index l s : archive (with_index l s) = normal l (hs_limit s).
Proof. unfold archive. simpl hs_index. cbv iota. by rewrite written_entries. Qed.

Lemma elem_archived x s : x ∈ archive s -> hi_id x ∈ archived_ids s.
Proof. apply list_elem_of_fmap_2. Qed.

Abbreviation list_archive := (history_list Date_parse localeCompare sha256 (Turn := Turn)).

Lemma normal_archive s : store_ok s -> archive (with_index (archive s) s) = archive s.
Proof. intros Hok. rewrite archive_with_index. by apply archive_idemp. Qed.

(** [list] only drops what its file should not hold. *)
Lemma list_spec s : store_ok s ->
  list_archive s = (s, Throw IndexSchemaError)
  \/ exists s1, list_archive s = (s1, Ok (archive s)) /\ length (archive s) <= AI_SESSION_HISTORY_MAX_ITEMS /\ settled_index s1 /\ archive s1 = archive s /\ hs_limit s1 = hs_limit s
       /\ accounts [] [] s s1.
Proof.
  intros Hok. unfold history_list, load, mbind, history_bind, hget.
  assert (Hfile : forall file, hs_index s = file -> archive s = normal (omap re_item (index_entries file)) (hs_limit s) ->
    let removed := filter (fun id => id ∉ (hi_id <$> archive s)) (omap re_id (index_entries file)) in
    let rewrite := negb (bool_decide (file = IndexWritten (archive s))) in
    let m : HistoryM (list item) := if rewrite then
        fun s0 => match save (archive s) s0 with
                 | (s1, Ok _) => match removeEntries sha256 removed true s1 with (s2, Ok _) => (s2, Ok (archive s)) | (s2, Throw e) => (s2, Throw e) end
                 | (s1, Throw e) => (s1, Throw e)
                 end
      else fun s0 => (s0, Ok (archive s)) in
    length (archive s) <= AI_SESSION_HISTORY_MAX_ITEMS ->
    exists s1, m s = (s1, Ok (archive s)) /\ length (archive s) <= AI_SESSION_HISTORY_MAX_ITEMS /\ settled_index s1 /\ archive s1 = archive s
      /\ hs_limit s1 = hs_limit s /\ accounts [] [] s s1).
  { intros file Hf Ha removed rewrite m Hlen. subst m. destruct rewrite eqn:Erw; subst rewrite; cbv zeta iota.
    - rewrite (save_ok _ _ Hlen), remove_entries_eq.
      rewrite archive_idemp by done. eexists. split; [reflexivity|].
      assert (Ha' : archive (without_entries removed true (with_index (archive s) s)) = archive s) by exact (normal_archive s Hok).
      split_and!; [done|by symmetry|done|done|]. split.
      + split; [apply Hok|]. simpl hs_index. rewrite written_entries. by apply archive_dated.
      + intros id Hin Hno. unfold archived_ids in Hno. rewrite Ha' in Hno. done.
      + split; [by eexists|]. simpl. rewrite drop_app_length. intros id Hin. left. unfold archived_ids. rewrite Ha'.
        apply elem_of_js_add_all in Hin as [Hin|Hin]; [|by apply elem_of_nil in Hin]. by apply list_elem_of_filter in Hin as [? _].
      + intros x. rewrite Ha'. by left.
    - apply negb_false_iff, bool_decide_eq_true in Erw. exists s. split_and!; [done|done| |done|done|by apply accounts_refl].
      unfold settled_index. by rewrite Hf, Erw. }
  unfold archive in Hfile at 1. destruct (hs_index s) as [| |l|es] eqn:Hf.
  - right. exists s. unfold archive. rewrite Hf. split_and!; [done|simpl; lia| |done|done|by apply accounts_refl]. unfold settled_index. by rewrite Hf.
  - right. exists s. unfold archive. rewrite Hf. split_and!; [done|simpl; lia| |done|done|by apply accounts_refl]. unfold settled_index. by rewrite Hf.
  - specialize (Hfile _ eq_refl eq_refl). assert (Ha : archive s = normal (omap re_item (index_entries (IndexWritten l))) (hs_limit s)) by (unfold archive; by rewrite Hf).
    rewrite <- Ha. destruct (parse_index_cases (archive s) s) as [-> |[Hlen ->]]; [by left|right; exact (Hfile Hlen)].
  - specialize (Hfile _ eq_refl eq_refl). assert (Ha : archive s = normal (omap re_item (index_entries (IndexOther es))) (hs_limit s)) by (unfold archive; by rewrite Hf).
    rewrite <- Ha. destruct (parse_index_cases (archive s) s) as [-> |[Hlen ->]]; [by left|right; exact (Hfile Hlen)].
Qed.

(** Accounts add up over steps that leave the archive as it is. *)
Lemma accounts_chain added taken s s1 s2 :
  accounts [] [] s s1 -> archive s1 = archive s -> accounts added taken s1 s2 -> accounts added taken s s2.
Proof.
  intros [Hok1 _ [[new1 Hp1] Hn1] _] Ha [Hok2 Hl2 [[new2 Hp2] Hn2] Hx2]. rewrite Hp1, drop_app_length in Hn1.
  rewrite Hp2, drop_app_length in Hl2, Hn2. unfold archived_ids in *. rewrite Ha in *.
  assert (Hp : hs_released s2 = hs_released s ++ (new1 ++ new2)) by (by rewrite Hp2, Hp1, app_assoc).
  split; [done| |split; [by eexists|]|done]; rewrite Hp, drop_app_length.
  - intros id Hin Hno. destruct (Hl2 id Hin Hno) as [? [?|?]]; [split; [done|by left]|]. split; [done|]. right. set_solver.
  - intros id [Hin|Hin]%elem_of_app; [|by apply Hn2]. destruct (Hn1 id Hin) as [Hno|?%elem_of_nil]; [|done].
    destruct (decide (id ∈ hi_id <$> archive s2)) as [(x & -> & Hx)%list_elem_of_fmap|]; [|by left].
    apply Hx2 in Hx as [Hx|?]; [|by right]. destruct Hno. by apply list_elem_of_fmap_2.
Qed.

(** A change of the details or of the limit that leaves the archive. *)
Lemma accounts_same s s1 :
  store_ok s1 -> archive s1 = archive s -> hs_released s1 = hs_released s -> accounts [] [] s s1.
Proof.
  intros Hok Ha Hr. unfold archived_ids. split; [done| | |].
  - intros id Hin Hno. unfold archived_ids in *. by rewrite Ha in Hno.
  - rewrite Hr. split; [done|]. rewrite drop_ge by done. by intros id ?%elem_of_nil.
  - intros x. rewrite Ha. by left.
Qed.

(** The index is replaced and what has left it removed. *)
Lemma replace_accounts added taken s0 s next gone release :
  let s' := without_entries gone release (with_index (normal next (hs_limit s)) s) in
  store_ok s -> Forall dated next -> hs_released s = hs_released s0 ->
  (forall x, x ∈ next -> x ∈ archive s0 \/ hi_id x ∈ added) ->
  (forall id, id ∈ archived_ids s0 -> id ∉ hi_id <$> normal next (hs_limit s) -> id ∈ gone) ->
  (forall id, id ∈ gone -> id ∉ hi_id <$> normal next (hs_limit s)) ->
  (release = true \/ gone ⊆ taken) ->
  archive s' = normal next (hs_limit s) /\ accounts added taken s0 s'.
Proof.
  intros s' [Hlim _] Hdated Hrel Hnew Hgone Hleft Htaken.
  assert (Ha : archive s' = normal next (hs_limit s)).
  { transitivity (archive (with_index (normal next (hs_limit s)) s)); [done|]. rewrite archive_with_index. by apply sort_and_limit_idemp. }
  split; [done|]. split.
  - split; [done|]. simpl hs_index. rewrite written_entries. rewrite Forall_forall in *. intros x Hx. by eapply Hdated, sort_and_limit_elem.
  - intros id Hin Hno. unfold archived_ids in Hno. rewrite Ha in Hno. pose proof (Hgone id Hin Hno) as Hg.
    split; [by apply deleted_detail|]. destruct Htaken as [-> |Ht]; [right|left; by apply Ht].
    simpl. rewrite Hrel, drop_app_length. apply elem_of_js_add_all. by left.
  - simpl. rewrite Hrel. split; [by eexists|]. rewrite drop_app_length. intros id Hin. left. unfold archived_ids. rewrite Ha.
    destruct release; [|by apply elem_of_nil in Hin]. apply elem_of_js_add_all in Hin as [Hin|?%elem_of_nil]; [by apply Hleft|done].
  - intros x. rewrite Ha. intros Hx%sort_and_limit_elem. by apply Hnew.
Qed.

Lemma filter_sublist_mono {A} (Q : A -> Prop) `{!forall a, Decision (Q a)} k es :
  sublist k es -> sublist (filter Q k) (filter Q es).
Proof.
  induction 1 as [|a k es Hk IH|a k es Hk IH]; rewrite ?filter_cons; [done| |]; case_decide; done || by constructor.
Qed.

(** What is ordered, unique and within the limit stays so when entries are
    left out. *)
Lemma normal_filter s (P : item -> Prop) `{!forall x, Decision (P x)} :
  store_ok s -> normal (filter P (archive s)) (hs_limit s) = filter P (archive s).
Proof.
  intros Hok. pose proof (archive_idemp s Hok) as Hn. pose proof (archive_dated s Hok) as Hd.
  destruct (sort_and_limit_spec (archive s) (hs_limit s)) as (forest & members & ids & _ & _ & Hk & _ & Hb).
  destruct (unique_history_spec (archive s)) as (H1 & H2 & _ & H3). destruct (H3 Hd) as (_ & Hs & _).
  assert (Hsub : archive s = filter (fun x => hi_id x ∈ ids) (unique_history Date_parse localeCompare (archive s))) by congruence.
  assert (Hf : sublist (filter P (archive s)) (unique_history Date_parse localeCompare (archive s))).
  { etrans; [apply sublist_filter|]. rewrite Hsub at 1. apply sublist_filter. }
  apply sort_and_limit_id.
  - by eapply StronglySorted_sublist.
  - eapply sublist_NoDup; [exact H1|]. by apply fmap_sublist.
  - eapply sublist_NoDup; [exact H2|]. by apply fmap_sublist.
  - etrans; [|exact Hb]. rewrite Hn. apply sublist_length, filter_sublist_mono, sublist_filter.
Qed.

(** ** What every operation does

    [archive_after]: what a request makes of the archive. *)
Definition archive_after (request : history_request (Rest := Rest) (Turn := Turn)) (limit : Z) (items : list item) : list item :=
  match request with
  | ListHistory | DetailRequest _ => items
  | SetRetentionLimit limit => normal items limit
  | Upsert parsed _ => normal (parsed :: filter (fun entry => same_entry entry parsed = false) items) limit
  | Remove id => filter (fun x => hi_id x ∉ archive_subtrees Date_parse localeCompare items [id]) items
  | Activate id => filter (fun x => hi_id x <> id) items
  | RemoveIdentity agent provider =>
      match head (filter (fun x => providerIdentity x = identity_key agent provider) items) with
      | Some found => filter (fun x => hi_id x ∉ archive_subtrees Date_parse localeCompare items [hi_id found]) items
      | None => items
      end
  | ActivateIdentity agent provider => filter (fun x => providerIdentity x <> identity_key agent provider) items
  end.

Definition added_by (request : history_request (Rest := Rest) (Turn := Turn)) : list jsstring :=
  match request with Upsert parsed _ => [hi_id parsed] | _ => [] end.

(** The sessions that go back to those that are active. *)
Definition taken_by (request : history_request (Rest := Rest) (Turn := Turn)) (items : list item) : list jsstring :=
  match request with
  | Activate id => [id]
  | ActivateIdentity agent provider => hi_id <$> filter (fun x => providerIdentity x = identity_key agent provider) items
  | _ => []
  end.

(** The outcome of an operation: it accounts for what it did, and it either
    threw and left the archive or made [after] of it. *)
Definition outcome {A} (added taken : list jsstring) (after : list item) (s : store) (r : store * result history_error A) : Prop :=
  accounts added taken s r.1 /\ archive r.1 = match r.2 with Ok _ => after | Throw _ => archive s end.

Lemma outcome_list {A} added taken after s (k : list item -> HistoryM A) :
  store_ok s ->
  (forall s1, store_ok s1 -> settled_index s1 -> archive s1 = archive s -> hs_limit s1 = hs_limit s ->
     length (archive s) <= AI_SESSION_HISTORY_MAX_ITEMS -> outcome added taken after s1 (k (archive s) s1)) ->
  outcome added taken after s ((list_archive ≫= k) s).
Proof.
  intros Hok Hk. unfold mbind, history_bind. destruct (list_spec s Hok) as [-> |(s1 & -> & Hlen & Hset & Ha & Hlim & Hacc)].
  - split; [by apply accounts_refl|done].
  - destruct (Hk s1 (ac_ok _ _ _ _ Hacc) Hset Ha Hlim Hlen) as [H1 H2]. split.
    + by eapply accounts_chain.
    + rewrite H2. by destruct ((k (archive s) s1).2).
Qed.

Lemma outcome_ret {A} added taken s (a : A) : store_ok s -> outcome added taken (archive s) s (mret (M := HistoryM) a s).
Proof. intros Hok. split; [by apply accounts_refl|done]. Qed.

Lemma outcome_run_only {A} added taken after s (m : HistoryM A) :
  outcome added taken after s (m s) -> outcome added taken after s (run_only m s).
Proof. unfold run_only, mbind, history_bind, outcome. by destruct (m s) as [s' [a|e]]. Qed.

(** The entries that are left out of the archive are removed. *)
Lemma outcome_leave_out {A} taken s (Q : item -> Prop) `{!forall x, Decision (Q x)} gone release (a : A) :
  store_ok s -> length (archive s) <= AI_SESSION_HISTORY_MAX_ITEMS ->
  (forall x, x ∈ archive s -> hi_id x ∈ gone <-> ~ Q x) -> gone ⊆ archived_ids s -> (release = true \/ gone ⊆ taken) ->
  outcome [] taken (filter Q (archive s)) s
    ((_ ← save (filter Q (archive s)); _ ← removeEntries sha256 gone release; mret a) s).
Proof.
  intros Hok Hlen Hgone Hsub Htaken. unfold mbind, history_bind.
  rewrite save_ok by (etrans; [apply length_filter|done]). rewrite remove_entries_eq.
  pose proof (normal_filter s Q Hok) as Hn. pose proof (archive_dated s Hok) as Hd.
  assert (Hin : forall x, x ∈ archive s -> hi_id x ∈ hi_id <$> filter Q (archive s) -> Q x).
  { intros x Hx (y & Hxy & [Hq Hy]%list_elem_of_filter)%list_elem_of_fmap. destruct (decide (Q x)) as [|Hno]; [done|].
    exfalso. apply (Hgone x Hx) in Hno. rewrite Hxy in Hno. by apply (Hgone y Hy) in Hno. }
  destruct (replace_accounts [] taken s s (filter Q (archive s)) gone release) as [Ha Hacc].
  - done.
  - rewrite Forall_forall in *. intros x [_ Hx]%list_elem_of_filter. auto.
  - done.
  - intros x [_ Hx]%list_elem_of_filter. by left.
  - rewrite Hn. intros id (x & -> & Hx)%list_elem_of_fmap Hno. apply (Hgone x Hx). intros Hq. apply Hno.
    apply list_elem_of_fmap_2. by apply list_elem_of_filter.
  - rewrite Hn. intros id Hid Hno. apply Hsub in Hid as Hid'. apply list_elem_of_fmap in Hid' as (x & -> & Hx).
    apply (Hgone x Hx) in Hid. apply Hid. by apply Hin.
  - done.
  - split; [exact Hacc|]. etrans; [exact Ha|exact Hn].
Qed.

Lemma history_bind_assoc {A B C} (m : HistoryM A) (f : A -> HistoryM B) (k : B -> HistoryM C) s :
  ((m ≫= f) ≫= k) s = (m ≫= (fun a => f a ≫= k)) s.
Proof. unfold mbind, history_bind. by destruct (m s) as [s' [a|e]]. Qed.

Lemma filter_same_length {A} (Q : A -> Prop) `{!forall a, Decision (Q a)} (es : list A) :
  length (filter Q es) = length es -> filter Q es = es.
Proof.
  induction es as [|e es IH]; [done|]. rewrite filter_cons. case_decide; simpl; intros Hl; [f_equal; apply IH; lia|].
  pose proof (length_filter Q es). lia.
Qed.

(** The entries with a property are removed, if there are any. *)
Lemma outcome_drop taken s (Q : item -> Prop) `{!forall x, Decision (Q x)} gone release :
  store_ok s -> length (archive s) <= AI_SESSION_HISTORY_MAX_ITEMS ->
  (forall x, x ∈ archive s -> hi_id x ∈ gone <-> ~ Q x) -> gone ⊆ archived_ids s -> (release = true \/ gone ⊆ taken) ->
  outcome [] taken (filter Q (archive s)) s
    ((if bool_decide (length (filter Q (archive s)) = length (archive s)) then mret false
      else _ ← save (filter Q (archive s)); _ ← removeEntries sha256 gone release; mret true) s).
Proof.
  intros Hok Hlen Hgone Hsub Htaken. case_bool_decide as Heq.
  - rewrite (filter_same_length Q _ Heq). by apply outcome_ret.
  - by apply outcome_leave_out.
Qed.

Lemma outcome_remove_by_ids taken s ids release :
  store_ok s -> (release = true \/ ids ⊆ taken) ->
  outcome [] taken (filter (fun x => hi_id x ∉ ids) (archive s)) s (removeByIds Date_parse localeCompare sha256 ids release s).
Proof.
  intros Hok Htaken. apply outcome_list; [done|]. intros s1 Hok1 _ Ha _ Hlen. rewrite <- Ha in Hlen |- *.
  apply outcome_drop; [done|done| | |].
  - intros x Hx. rewrite list_elem_of_fmap. setoid_rewrite list_elem_of_filter. split.
    + intros (y & -> & Hy & _) Hno. done.
    + intros Hno. exists x. split; [done|]. split; [|done]. by destruct (decide (hi_id x ∈ ids)).
  - intros id (x & -> & [_ Hx]%list_elem_of_filter)%list_elem_of_fmap. by apply list_elem_of_fmap_2.
  - destruct Htaken as [?|Ht]; [by left|right]. intros id (x & -> & [Hx _]%list_elem_of_filter)%list_elem_of_fmap. by apply Ht.
Qed.

Lemma outcome_remove_subtrees s ids :
  store_ok s ->
  outcome [] [] (filter (fun x => hi_id x ∉ archive_subtrees Date_parse localeCompare (archive s) ids) (archive s)) s
    (removeSubtrees Date_parse localeCompare sha256 ids s).
Proof.
  intros Hok. apply outcome_list; [done|]. intros s1 Hok1 _ Ha _ _. rewrite <- Ha.
  destruct (archive_subtrees _ _ (archive s1) ids) as [|id rest].
  - rewrite filter_all by (intros x _; apply not_elem_of_nil). by apply outcome_ret.
  - apply outcome_remove_by_ids; [done|by left].
Qed.

Lemma outcome_remove_identity s agent provider :
  store_ok s -> outcome [] [] (archive_after (RemoveIdentity agent provider) (hs_limit s) (archive s)) s
    (removeIdentity Date_parse localeCompare sha256 agent provider s).
Proof.
  intros Hok. apply outcome_list; [done|]. intros s1 Hok1 _ Ha _ _. rewrite <- Ha. simpl archive_after.
  destruct (head _) as [found|]; [by apply outcome_remove_subtrees|by apply outcome_ret].
Qed.

Lemma outcome_activate_identity s agent provider :
  store_ok s -> outcome [] (taken_by (ActivateIdentity agent provider) (archive s))
    (archive_after (ActivateIdentity agent provider) (hs_limit s) (archive s)) s
    (activateIdentity Date_parse localeCompare sha256 agent provider s).
Proof.
  intros Hok. apply outcome_list; [done|]. intros s1 Hok1 _ Ha _ Hlen. rewrite <- Ha in Hlen |- *. simpl archive_after.
  pose proof (sort_and_limit_unique (omap re_item (index_entries (hs_index s1))) (hs_limit s1)) as Hnd.
  apply outcome_drop; [done|done| | |by right].
  - intros x Hx. rewrite list_elem_of_fmap. setoid_rewrite list_elem_of_filter. split.
    + intros (y & Hxy & Hy & Hin) Hno. assert (x = y) as ->; [|done].
      assert (Hids : NoDup (hi_id <$> archive s1)).
      { unfold archive. destruct (hs_index s1); [constructor|constructor|exact Hnd|exact Hnd]. }
      apply list_elem_of_lookup in Hx as [i Hi], Hin as [j Hj].
      assert (i = j) as ->; [|congruence]. apply (NoDup_lookup _ _ _ (hi_id x) Hids); rewrite list_lookup_fmap; [by rewrite Hi|by rewrite Hj, Hxy].
    + intros Hno. exists x. split; [done|]. split; [|done]. by destruct (decide (providerIdentity x = identity_key agent provider)).
  - intros id (x & -> & [_ Hx]%list_elem_of_filter)%list_elem_of_fmap. by apply list_elem_of_fmap_2.
Qed.

Lemma outcome_detail s id : store_ok s ->
  outcome [] [] (archive s) s (history_detail Date_parse localeCompare sha256 id s).
Proof.
  intros Hok. unfold history_detail, history_get. rewrite history_bind_assoc. apply outcome_list; [done|].
  intros s1 Hok1 _ Ha _ _. rewrite <- Ha. unfold mbind, history_bind, mret, history_ret, hget.
  destruct (find_item id (archive s1)) as [x|]; [|by apply (outcome_ret [] [] s1)].
  destruct (hs_details s1 !! sha256 id) as [file|]; [|by apply (outcome_ret [] [] s1)].
  destruct (sanitizeDetail x file) as [turns [|]]; [|by apply (outcome_ret [] [] s1)].
  split; [|done]. by apply accounts_same.
Qed.

Definition with_limit (limit : Z) (s : store) : store := HistoryStore (hs_index s) (hs_details s) limit (hs_released s).

Lemma settled_with_limit limit s : store_ok s -> settled_index s -> archive (with_limit limit s) = normal (archive s) limit.
Proof.
  intros Hok Hset. unfold settled_index in Hset. unfold archive at 1. simpl hs_index. destruct (hs_index s) as [| |l|es] eqn:Hf; [..|done].
  - unfold archive. rewrite Hf. done.
  - unfold archive. rewrite Hf. done.
  - by rewrite written_entries, Hset.
Qed.

Lemma outcome_set_limit s limit :
  store_ok s -> outcome [] [] (normal (archive s) limit) s (setRetentionLimit Date_parse localeCompare sha256 limit s).
Proof.
  intros Hok. unfold setRetentionLimit. destruct (negb _) eqn:Elim; [split; [by apply accounts_refl|done]|].
  apply negb_false_iff, Z.eqb_eq in Elim.
  apply outcome_list; [done|]. intros s1 Hok1 Hset Ha _ Hlen. rewrite <- Ha in Hlen |- *.
  pose proof (settled_with_limit limit s1 Hok1 Hset) as Hal. pose proof (archive_dated s1 Hok1) as Hd.
  assert (Hin : forall x, x ∈ normal (archive s1) limit -> x ∈ archive s1) by (intros x; apply sort_and_limit_elem).
  assert (Hok' : store_ok (with_limit limit s1)).
  { split; [|apply Hok1]. simpl. rewrite <- Elim. unfold historyLimit, AI_SESSION_HISTORY_MAX_LIMIT, AI_SESSION_HISTORY_DEFAULT_LIMIT.
    destruct (_ && _) eqn:E; propify; lia. }
  unfold mbind at 1, history_bind at 1, hmodify at 1. fold (with_limit limit s1). cbv zeta iota beta.
  set (removed := filter (fun item => hi_id item ∉ hi_id <$> normal (archive s1) limit) (archive s1)).
  assert (Hrem : forall id, id ∈ archived_ids s1 -> id ∉ hi_id <$> normal (archive s1) limit -> id ∈ hi_id <$> removed).
  { intros id (x & -> & Hx)%list_elem_of_fmap Hno. apply list_elem_of_fmap_2. by apply list_elem_of_filter. }
  destruct removed as [|x removed'] eqn:Eremoved.
  - split; [|exact Hal]. split.
    + exact Hok'.
    + intros id Hid Hno. unfold archived_ids in Hno. simpl fst in Hno. rewrite Hal in Hno. specialize (Hrem id Hid Hno). by apply elem_of_nil in Hrem.
    + split; [done|]. rewrite drop_ge by done. by intros id ?%elem_of_nil.
    + intros x. simpl fst. rewrite Hal. left. by apply Hin.
  - rewrite <- Eremoved in *. unfold mbind, history_bind.
    rewrite save_ok by (pose proof (normal_length (archive s1) limit); lia). rewrite remove_entries_eq.
    simpl hs_limit. assert (Hn : normal (normal (archive s1) limit) limit = normal (archive s1) limit) by (by apply sort_and_limit_idemp).
    destruct (replace_accounts [] [] s1 (with_limit limit s1) (normal (archive s1) limit) (hi_id <$> removed) true) as [Hfin Hacc].
    + exact Hok'.
    + rewrite Forall_forall in *. auto.
    + done.
    + intros y Hy. left. by apply Hin.
    + simpl hs_limit. rewrite Hn. exact Hrem.
    + simpl hs_limit. rewrite Hn. intros id (y & -> & [Hy _]%list_elem_of_filter)%list_elem_of_fmap. exact Hy.
    + by left.
    + split; [exact Hacc|]. etrans; [exact Hfin|exact Hn].
Qed.

Lemma outcome_upsert s parsed turns :
  store_ok s -> dated parsed ->
  outcome [hi_id parsed] [] (archive_after (Upsert parsed turns) (hs_limit s) (archive s)) s
    (upsert Date_parse localeCompare sha256 parsed turns s).
Proof.
  intros Hok Hdated. apply outcome_list; [done|]. intros s1 Hok1 Hset Ha Hlim _. rewrite <- Ha, <- Hlim. simpl archive_after.
  set (next := parsed :: filter (fun entry => same_entry entry parsed = false) (archive s1)).
  pose proof (archive_dated s1 Hok1) as Hd.
  assert (Hnext : Forall dated next).
  { constructor; [done|]. rewrite Forall_forall in *. intros x [_ Hx]%list_elem_of_filter. auto. }
  assert (Hs2 : exists s2, (match turns with Some turns => saveDetail sha256 parsed (last_turns turns) | None => mret tt end) s1 = (s2, Ok tt)
    /\ hs_index s2 = hs_index s1 /\ hs_limit s2 = hs_limit s1 /\ hs_released s2 = hs_released s1).
  { destruct turns; eexists; (split; [reflexivity|done]). }
  destruct Hs2 as (s2 & Hs2 & Hi2 & Hl2 & Hr2).
  assert (Ha2 : archive s2 = archive s1) by (unfold archive; by rewrite Hi2, Hl2).
  assert (Hok2 : store_ok s2) by (unfold store_ok; by rewrite Hi2, Hl2).
  unfold mbind, history_bind. rewrite Hs2. unfold hget. rewrite Hl2. fold next. cbv zeta iota beta.
  set (gone := hi_id <$> filter (fun entry => hi_id entry ∉ hi_id <$> normal next (hs_limit s1)) (archive s1)).
  assert (Hgone : forall id, id ∈ archived_ids s1 -> id ∉ hi_id <$> normal next (hs_limit s1) -> id ∈ gone).
  { intros id (x & -> & Hx)%list_elem_of_fmap Hno. apply list_elem_of_fmap_2. by apply list_elem_of_filter. }
  assert (Hleft : forall id, id ∈ gone -> id ∉ hi_id <$> normal next (hs_limit s1)).
  { intros id (x & -> & [Hx _]%list_elem_of_filter)%list_elem_of_fmap. exact Hx. }
  destruct (replace_accounts [hi_id parsed] [] s1 s2 next gone true) as [Hfin Hacc]; rewrite ?Hl2; try done.
  { intros x [-> |Hx]%elem_of_cons; [right; set_solver|]. apply list_elem_of_filter in Hx as [_ Hx]. by left. }
  { by left. }
  rewrite Hl2 in Hfin, Hacc. case_bool_decide as Heq.
  - unfold mret, history_ret. cbv beta iota. fold gone. rewrite remove_entries_eq. assert (Hg : gone = []).
    { destruct gone as [|id rest] eqn:E; [done|]. exfalso. apply (Hleft id); [by left|]. rewrite Heq.
      assert (Hid' : id ∈ hi_id <$> filter (fun entry => hi_id entry ∉ hi_id <$> normal next (hs_limit s1)) (archive s1)) by (change (id ∈ gone); rewrite E; by left).
      apply list_elem_of_fmap in Hid' as (x & -> & [_ Hx]%list_elem_of_filter). by apply list_elem_of_fmap_2. }
    rewrite Hg. assert (Hsame : archive (without_entries [] true s2) = archive s1) by exact Ha2.
    split; [|by rewrite Heq]. simpl fst. split.
    + exact Hok2.
    + intros id Hid Hno. unfold archived_ids in Hno. by rewrite Hsame in Hno.
    + simpl. rewrite app_nil_r, Hr2. split; [done|]. rewrite drop_ge by done. by intros id ?%elem_of_nil.
    + intros x. rewrite Hsame. by left.
  - destruct (save_cases (normal next (hs_limit s1)) s2) as [-> | ->].
    + split; [|exact Ha2]. simpl fst. eapply accounts_chain; [by apply (accounts_same s1 s2)|done|]. by apply accounts_refl.
    + rewrite remove_entries_eq, Hl2. rewrite (sort_and_limit_idemp next (hs_limit s1) (hs_limit s1) Hnext) by lia.
      split; [exact Hacc|exact Hfin].
Qed.

(** ** What the archive promises *)

(** C34. What sorting and limiting keeps of a list of dated items.  First one
    item of each id and of each provider's identity, the newest, in order;
    whatever is left out has the id or the identity of one that is not older.
    Of the forest of these, the sessions that hang below a subagent whose
    parent is not archived, and those below the first [limit] other roots:
    whole trees.  What is dropped hangs below a root that is no subagent's and
    was not updated after any of those kept in full number.  And what has been
    kept is kept when it is sorted and limited again. *)
Theorem history_kept (items : list item) limit :
  Forall dated items ->
  let all := unique_history Date_parse localeCompare items in
  let kept := sortAndLimitAiSessionHistory Date_parse localeCompare items limit in
  let n := Z.to_nat (historyLimit limit) in
  (NoDup (hi_id <$> all) /\ NoDup (providerIdentity <$> all) /\ newest_first all /\ all ⊆ items
   /\ forall x, x ∈ items -> exists y, y ∈ all /\ (hi_id y = hi_id x \/ providerIdentity y = providerIdentity x)
        /\ (y = x \/ (compare y x <= 0)%Z))
  /\ sublist kept all /\ length (top_items kept) <= n
  /\ normal kept limit = kept
  /\ exists forest, derive (hierarchy_fuel (records all)) None (records all) = Some forest
     /\ (forall x, x ∈ all -> x ∈ kept <-> exists root, kept_root n (root_sessions forest) root /\ below_root forest (hi_id x) root)
     /\ (forall x, x ∈ all -> x ∉ kept -> exists dropped, dropped ∈ root_sessions forest /\ below_root forest (hi_id x) dropped
          /\ is_top dropped /\ n <= length (filter is_top (root_sessions forest))
          /\ forall root, root ∈ take n (filter is_top (root_sessions forest)) -> (tree_time dropped <= tree_time root)%Z).
Proof.
  intros Hd all kept n. destruct (unique_history_spec items) as (H1 & H2 & H3 & H4). destruct (H4 Hd) as (_ & H5 & H6). clear H4.
  destruct (sort_and_limit_spec items limit) as (forest & members & ids & Hder & Hf & Hk & Hids & Hb).
  cbv zeta in Hder, Hf, Hk, Hids, Hb. fold n in Hids. fold all in Hder, Hf, Hk, Hids, H1, H2, H3, H5, H6. fold kept in Hk, Hb.
  assert (Hin : forall x, x ∈ all -> x ∈ kept <-> exists root, kept_root n (root_sessions forest) root /\ below_root forest (hi_id x) root).
  { intros x Hx. rewrite <- (Hids x Hx), Hk, list_elem_of_filter. tauto. }
  split_and!; [done|done|done|exact H3|exact H6|rewrite Hk; apply sublist_filter|exact Hb|by apply sort_and_limit_idemp|].
  exists forest. split_and!; [done|exact Hin|]. intros x Hx Hno.
  destruct (every_item_below_root all forest members Hder H1 x Hx) as (dropped & Hroot & Hbelow).
  assert (Hnk : ~ kept_root n (root_sessions forest) dropped) by (intros ?; apply Hno, (Hin x Hx); eauto).
  exists dropped. destruct (dropped_root all forest members n dropped dropped Hder Hroot Hnk) as (Ht & Hle & _).
  split_and!; [done..|]. intros root. by apply (dropped_root all forest members n root dropped Hder Hroot Hnk).
Qed.

End HistorySpec.

(** ** Examples *)

Lemma js_compare_le a b : (js_compare a b <= 0)%Z <-> js_ltb b a = false.
Proof.
  unfold js_compare. destruct (js_ltb a b) eqn:E1, (js_ltb b a) eqn:E2; split; (done || lia || intros _).
  pose proof (js_ltb_trans a b a E1 E2) as H. by rewrite js_ltb_irrefl in H.
Qed.

Lemma js_collation : collation js_compare.
Proof.
  split.
  - intros a b Hab. apply js_compare_le. unfold js_compare in Hab. by destruct (js_ltb a b).
  - intros a b c. rewrite !js_compare_le. intros Hba Hcb. destruct (js_ltb c a) eqn:Hca; [|done].
    destruct (js_ltb a b) eqn:Hab; [by rewrite (js_ltb_trans c a b Hca Hab) in Hcb|].
    by rewrite (js_ltb_total a b Hab Hba), Hcb in Hca.
Qed.

Definition example_item (id provider : string) (parent : option string) (active : string) : AiSessionHistoryItem (Rest := unit) :=
  HistoryItem (js id) (js "codex") (js provider) ((fun p => LineageSubagent (js p)) <$> parent) (js active) (js active) ().

(** Two sessions, one with a subagent; a subagent whose parent is not there;
    and an older entry of the first session's identity. *)
Definition example_items : list (AiSessionHistoryItem (Rest := unit)) :=
  [example_item "a" "pa" None "10"; example_item "b" "pb" (Some "pa") "30"; example_item "c" "pc" None "20";
   example_item "d" "pd" (Some "missing") "5"; example_item "e" "pa" None "7"]%string.

Definition example_dated (x : AiSessionHistoryItem (Rest := unit)) : dated example_Date_parse x := conj (mk_is_Some _ _ eq_refl) (mk_is_Some _ _ eq_refl).

Lemma example_items_dated : Forall (dated example_Date_parse) example_items.
Proof. apply Forall_forall. intros x _. apply example_dated. Defined.

(** With a limit of one, the tree that was active last, and the subagent. *)
Lemma history_kept_witness :
  hi_id <$> sortAndLimitAiSessionHistory example_Date_parse js_compare example_items 1 = [js "b"; js "a"; js "d"]
  /\ length (top_items (sortAndLimitAiSessionHistory example_Date_parse js_compare example_items 1)) <= 1.
Proof.
  split; [vm_compute; reflexivity|].
  exact (proj1 (proj2 (proj2 (history_kept example_Date_parse js_compare js_collation example_items 1 example_items_dated)))).
Defined.

Definition example_archive : history_store (Rest := unit) (Turn := unit) :=
  HistoryStore (IndexOther ((fun x => RawEntry (Some (hi_id x)) (Some x)) <$> example_items)) ∅ 1 [].

Lemma example_archive_ok : store_ok example_Date_parse example_archive.
Proof. split; [simpl; unfold AI_SESSION_HISTORY_MAX_LIMIT; lia|]. apply Forall_forall. intros x _. apply example_dated. Defined.


(** A session that is older than what the archive keeps is lost when it is
    archived, and its file of turns stays: it is neither in the archive nor
    released, and the request succeeds. *)
Example evicted_on_arrival :
  let s := HistoryStore (IndexWritten [example_item "a" "pa" None "10"]) ∅ 1 [] in
  let r := serve_history example_Date_parse js_compare id (Upsert (example_item "z" "pz" None "5") (Some [tt])) s in
  r.2 = Ok tt /\ archive example_Date_parse js_compare r.1 = [example_item "a" "pa" None "10"]
  /\ hs_details r.1 !! js "z" = Some (DetailWritten (example_item "z" "pz" None "5") [tt]) /\ hs_released r.1 = [].
Proof. vm_compute. repeat split. Qed.
