(* ===== verification/Lanes.v ===== *)
(** * Operations in lanes

    [packages/controlled-instance/src/repository/mutation-queue.ts] and
    [packages/node-agent/src/instances/instance-operation-gate.ts]: an
    operation waits for the promise at the tail of its lane and leaves its own
    promise there.  A promise is a number, settled once its lane was left.  An
    [await] is where other operations may run: each stretch of code between
    two of them is a step, and a schedule is any sequence of steps. *)

From S2P Require Export Prelude.

(** ** A lane *)

Record lane_state := Lanes {
  tails : gmap jsstring nat;
  settled_promises : gset nat;
  next_promise : nat
}.
Definition no_lanes : lane_state := Lanes ∅ ∅ 0.

(** [enqueue] up to its [await]: the promise to wait for, and the new one. *)
Definition enqueue_enter (key : jsstring) (l : lane_state) : option nat * nat * lane_state :=
  let current := next_promise l in
  (tails l !! key, current, Lanes (<[key := current]> (tails l)) (settled_promises l) (S current)).

(** [await previous] has returned. *)
Definition passes (previous : option nat) (l : lane_state) : bool :=
  match previous with None => true | Some p => bool_decide (p ∈ settled_promises l) end.

(** The [finally] of [enqueue]. *)
Definition enqueue_leave (key : jsstring) (current : nat) (l : lane_state) : lane_state :=
  Lanes (if decide (tails l !! key = Some current) then delete key (tails l) else tails l)
    ({[current]} ∪ settled_promises l) (next_promise l).

(** ** Operations *)

(** The methods of the mutation queue, and the lanes their operations take, in
    this order. *)
Inductive mutation_call :=
| WithRepository (repositoryKey : jsstring)
| WithWorktree (worktreeKey : jsstring)
| WithRepositoryAndWorktree (repositoryKey worktreeKey : jsstring)
| WithRepositoryAndWorktrees (repositoryKey : jsstring) (worktreeKeys : list jsstring).

Definition repository_lane (repositoryKey : jsstring) : jsstring := js "repository:" ++ repositoryKey.
Definition worktree_lane (worktreeKey : jsstring) : jsstring := js "worktree:" ++ worktreeKey.

Definition withRepositoryAndWorktrees (repositoryKey : jsstring) (worktreeKeys : list jsstring) : list jsstring :=
  repository_lane repositoryKey :: (worktree_lane <$> unique_sorted worktreeKeys).

Definition mutation_lanes (c : mutation_call) : list jsstring :=
  match c with
  | WithRepository repositoryKey => [repository_lane repositoryKey]
  | WithWorktree worktreeKey => [worktree_lane worktreeKey]
  | WithRepositoryAndWorktree repositoryKey worktreeKey => withRepositoryAndWorktrees repositoryKey [worktreeKey]
  | WithRepositoryAndWorktrees repositoryKey worktreeKeys => withRepositoryAndWorktrees repositoryKey worktreeKeys
  end.

(** The gate of instance operations has one lane for each instance. *)
Inductive gate_call := GateRun (instanceId : jsstring).
Definition gate_lanes (c : gate_call) : list jsstring := match c with GateRun instanceId => [instanceId] end.

(** What an operation is doing, the lanes it was called for, those it has
    entered with its promises, the last one first, and those to come. *)
Inductive operation_phase := Awaiting (previous : option nat) | Operating | Unwinding.

Record lane_operation := LaneOperation {
  o_lanes : list jsstring;
  o_held : list (jsstring * nat);
  o_rest : list jsstring;
  o_phase : operation_phase
}.

Record lanes := LanesSystem { lanes_state : lane_state; operations : gmap nat lane_operation }.
Definition new_lanes : lanes := LanesSystem no_lanes ∅.

(** An operation enters its next lane. *)
Definition enter_lane (keys : list jsstring) (held : list (jsstring * nat)) (key : jsstring) (rest : list jsstring) (l : lane_state)
  : lane_operation * lane_state :=
  let '(previous, current, l) := enqueue_enter key l in
  (LaneOperation keys ((key, current) :: held) rest (Awaiting previous), l).

(** A call starts an operation. *)
Definition start_operation (id : nat) (keys : list jsstring) (s : lanes) : option lanes :=
  match keys, operations s !! id with
  | key :: rest, None =>
      let '(o, l) := enter_lane keys [] key rest (lanes_state s) in
      Some (LanesSystem l (<[id := o]> (operations s)))
  | _, _ => None
  end.

(** The awaited promise is settled: the next lane, or the operation itself. *)
Definition wake (id : nat) (s : lanes) : option lanes :=
  o ← operations s !! id;
  match o_phase o with
  | Awaiting previous =>
      if passes previous (lanes_state s) then
        match o_rest o with
        | key :: rest =>
            let '(o, l) := enter_lane (o_lanes o) (o_held o) key rest (lanes_state s) in
            Some (LanesSystem l (<[id := o]> (operations s)))
        | [] => Some (LanesSystem (lanes_state s) (<[id := LaneOperation (o_lanes o) (o_held o) [] Operating]> (operations s)))
        end
      else None
  | _ => None
  end.

(** The operation returns or throws. *)
Definition finish_operation (id : nat) (s : lanes) : option lanes :=
  o ← operations s !! id;
  match o_phase o with
  | Operating => Some (LanesSystem (lanes_state s) (<[id := LaneOperation (o_lanes o) (o_held o) (o_rest o) Unwinding]> (operations s)))
  | _ => None
  end.

(** It leaves its lanes, the last one first. *)
Definition unwind (id : nat) (s : lanes) : option lanes :=
  o ← operations s !! id;
  match o_phase o, o_held o with
  | Unwinding, (key, current) :: held =>
      Some (LanesSystem (enqueue_leave key current (lanes_state s))
              (match held with
               | [] => delete id (operations s)
               | _ => <[id := LaneOperation (o_lanes o) held (o_rest o) Unwinding]> (operations s)
               end))
  | _, _ => None
  end.

(** ** Schedules *)

(** What the proofs need of the calls: at least one lane, and lanes in
    ascending order. *)
Class OrderedLanes (call : Type) := {
  lanes_of : call -> list jsstring;
  lanes_of_nonempty c : lanes_of c <> [];
  lanes_of_ascending c : StronglySorted (fun a b => js_ltb a b = true) (lanes_of c)
}.

Inductive lane_step {call : Type} `{OrderedLanes call} : lanes -> lanes -> Prop :=
| step_call s id c s' (Hcall : start_operation id (lanes_of c) s = Some s') : lane_step s s'
| step_wake s id s' (Hwake : wake id s = Some s') : lane_step s s'
| step_finish s id s' (Hfinish : finish_operation id s = Some s') : lane_step s s'
| step_unwind s id s' (Hunwind : unwind id s = Some s') : lane_step s s'.

Definition lanes_reachable {call : Type} `{OrderedLanes call} : lanes -> Prop := rtc lane_step new_lanes.

(** A step that is not a call. *)
Inductive quiet_step : lanes -> lanes -> Prop :=
| quiet_wake s id s' (Hwake : wake id s = Some s') : quiet_step s s'
| quiet_finish s id s' (Hfinish : finish_operation id s = Some s') : quiet_step s s'
| quiet_unwind s id s' (Hunwind : unwind id s = Some s') : quiet_step s s'.

(** The lanes an operation has waited for and not left yet. *)
Definition owned_lanes (o : lane_operation) : list (jsstring * nat) :=
  match o_phase o with Awaiting _ => tail (o_held o) | _ => o_held o end.

Definition holds (s : lanes) (id : nat) (key : jsstring) (promise : nat) : Prop :=
  exists o, operations s !! id = Some o /\ (key, promise) ∈ o_held o.
Definition owns (s : lanes) (id : nat) (key : jsstring) (promise : nat) : Prop :=
  exists o, operations s !! id = Some o /\ (key, promise) ∈ owned_lanes o.
Definition operating (s : lanes) (id : nat) : Prop :=
  exists o, operations s !! id = Some o /\ o_phase o = Operating.

(** ** Intents

    The gate's other map: the current intent of an instance, whose abort
    controller is a number. *)
Record intents := Intents { current_intents : jsmap jsstring nat; aborted : list nat; next_controller : nat }.

Definition intent (instanceId : jsstring) (st : intents) : nat * intents :=
  match mget instanceId (current_intents st) with
  | Some current => (current, st)
  | None => (next_controller st,
             Intents (mset instanceId (next_controller st) (current_intents st)) (aborted st) (S (next_controller st)))
  end.

Definition invalidate_intent (instanceId : jsstring) (st : intents) : nat * intents :=
  (next_controller st,
   Intents (mset instanceId (next_controller st) (current_intents st))
     (match mget instanceId (current_intents st) with Some current => js_add current (aborted st) | None => aborted st end)
     (S (next_controller st))).

Definition isIntentCurrent (instanceId : jsstring) (i : nat) (st : intents) : bool :=
  bool_decide (mget instanceId (current_intents st) = Some i).

(** Whether the signal of an intent is aborted. *)
Definition signal_aborted (instanceId : jsstring) (i : nat) (st : intents) : bool :=
  if isIntentCurrent instanceId i st then bool_decide (i ∈ aborted st) else true.

Definition clearIntent (instanceId : jsstring) (st : intents) : intents :=
  Intents (mdelete instanceId (current_intents st)) (aborted st) (next_controller st).
