(* ===== verification/LanesSpec.v ===== *)
(** * What lanes guarantee

    Operations that share a lane never overlap and run in the order they
    entered it; lanes taken in ascending order cannot deadlock; and when the
    operations are through, nothing is left behind. *)

From stdpp Require Import sorting.
From S2P Require Export Lanes.

(** ** The calls take their lanes in ascending order *)

#[export] Program Instance mutation_ordered : OrderedLanes mutation_call := {| lanes_of := mutation_lanes |}.
Next Obligation. by intros []. Qed.
Next Obligation.
  assert (Hmany : forall r ws, StronglySorted (fun a b => js_ltb a b = true) (withRepositoryAndWorktrees r ws)).
  { intros r ws. unfold withRepositoryAndWorktrees. constructor.
    - induction (unique_sorted_ascending ws) as [|w l Hl IH Hw]; csimpl; [constructor|]. constructor; [done|].
      apply Forall_fmap. eapply Forall_impl; [exact Hw|]. intros w' Hw'. unfold compose, worktree_lane. by rewrite js_ltb_app.
    - apply Forall_fmap, Forall_true. intros w. reflexivity. }
  intros [r|w|r w|r ws]; simpl; [repeat constructor|repeat constructor|apply Hmany|apply Hmany].
Qed.

#[export] Program Instance gate_ordered : OrderedLanes gate_call := {| lanes_of := gate_lanes |}.
Next Obligation. by intros []. Qed.
Next Obligation. intros []. repeat constructor. Qed.

(** ** The invariant *)

Section Lanes.
Context {call : Type} `{OrderedLanes call}.

Definition ascending (keys : list jsstring) : Prop := StronglySorted (fun a b => js_ltb a b = true) keys.

(** The lanes of an operation, those it has taken and those to come. *)
Definition operation_lanes (o : lane_operation) : list jsstring :=
  reverse (o_held o).*1 ++ match o_phase o with Unwinding => [] | _ => o_rest o end.

Record lanes_ok (s : lanes) : Prop := LanesOk {
  ok_fresh id k i : holds s id k i -> i < next_promise (lanes_state s) /\ i ∉ settled_promises (lanes_state s);
  ok_settled i : i ∈ settled_promises (lanes_state s) -> i < next_promise (lanes_state s);
  ok_unique id id' k k' i : holds s id k i -> holds s id' k' i -> id = id' /\ k = k';
  ok_order id o : operations s !! id = Some o -> ascending (operation_lanes o) /\ o_held o <> [];
  ok_lanes id o : operations s !! id = Some o -> o_phase o <> Unwinding ->
    o_lanes o = operation_lanes o /\ (o_phase o = Operating -> o_rest o = []);
  ok_tail id k i : holds s id k i -> exists q, tails (lanes_state s) !! k = Some q /\ i <= q;
  ok_held k q : tails (lanes_state s) !! k = Some q -> exists id, holds s id k q;
  ok_first id k i : owns s id k i -> forall id' j, holds s id' k j -> i <= j;
  ok_wait id o k i held previous : operations s !! id = Some o -> o_phase o = Awaiting previous -> o_held o = (k, i) :: held ->
    (forall id' j, holds s id' k j -> j < i -> exists q, previous = Some q /\ j <= q /\ exists id'', holds s id'' k q)
    /\ (forall q, previous = Some q -> q < i /\ (q ∈ settled_promises (lanes_state s) \/ exists id', holds s id' k q))
}.

Lemma owns_holds s id k i : owns s id k i -> holds s id k i.
Proof.
  intros (o & Ho & Hin). exists o. split; [done|]. unfold owned_lanes in Hin. destruct (o_phase o); try done.
  destruct (o_held o); [done|]. by right.
Qed.

Lemma lanes_ok_new : lanes_ok new_lanes.
Proof.
  constructor; simpl; [| |intros id id' k k' i|intros id o|intros id o|intros id k i|intros k q|intros id k i|intros id o k i held previous];
    unfold holds, owns; simpl; try (intros (? & ? & _); by rewrite lookup_empty in * ); rewrite ?lookup_empty; try done.
  set_solver.
Qed.

Lemma holds_insert l ops id o id' k i :
  holds (LanesSystem l (<[id := o]> ops)) id' k i
  <-> (id' = id /\ (k, i) ∈ o_held o) \/ (id' <> id /\ exists o', ops !! id' = Some o' /\ (k, i) ∈ o_held o').
Proof.
  unfold holds. simpl. destruct (decide (id' = id)) as [-> |Hne].
  - rewrite lookup_insert_eq. naive_solver.
  - rewrite lookup_insert_ne by done. naive_solver.
Qed.

(** An awaiting operation that may pass is the first of its lane. *)
Lemma passes_first s id o k i held previous :
  lanes_ok s -> operations s !! id = Some o -> o_phase o = Awaiting previous -> o_held o = (k, i) :: held ->
  passes previous (lanes_state s) = true -> forall id' j, holds s id' k j -> i <= j.
Proof.
  intros Hok Ho Hp Hh Hpass id' j Hj. destruct (decide (i <= j)) as [|Hlt]; [done|exfalso].
  destruct (proj1 (ok_wait _ Hok _ _ _ _ _ _ Ho Hp Hh) _ _ Hj) as (q & -> & _ & id'' & Hq); [lia|].
  apply (ok_fresh _ Hok) in Hq as [_ Hq]. simpl in Hpass. by apply bool_decide_eq_true in Hpass.
Qed.

(** Changing the phase of an operation. *)
Lemma phase_ok s id o phase :
  lanes_ok s -> operations s !! id = Some o -> (forall p, phase <> Awaiting p) ->
  (forall k i, (k, i) ∈ o_held o -> forall id' j, holds s id' k j -> i <= j) ->
  forall rest, (phase <> Unwinding -> rest = [] /\ o_lanes o = reverse (o_held o).*1) -> ascending (operation_lanes (LaneOperation (o_lanes o) (o_held o) rest phase)) ->
  lanes_ok (LanesSystem (lanes_state s) (<[id := LaneOperation (o_lanes o) (o_held o) rest phase]> (operations s))).
Proof.
  intros Hok Ho Hphase Hfirst rest Hrest Hasc. set (s' := LanesSystem _ _).
  assert (Hh : forall id' k i, holds s' id' k i <-> holds s id' k i).
  { intros id' k i. unfold s'. rewrite holds_insert. simpl. unfold holds. destruct (decide (id' = id)) as [-> |]; naive_solver. }
  constructor; simpl.
  - intros id' k i Hi%Hh. by apply (ok_fresh _ Hok) in Hi.
  - apply (ok_settled _ Hok).
  - intros id1 id2 k k' i H1%Hh H2%Hh. by eapply (ok_unique _ Hok).
  - intros id' o'. destruct (decide (id' = id)) as [-> |Hne].
    + rewrite lookup_insert_eq. intros [= <-]. split; [done|]. by apply (ok_order _ Hok) in Ho as [_ ?].
    + rewrite lookup_insert_ne by done. apply (ok_order _ Hok).
  - intros id' o'. destruct (decide (id' = id)) as [-> |Hne].
    + rewrite lookup_insert_eq. intros [= <-] Hu. destruct (Hrest Hu) as [-> Hl]. unfold operation_lanes. simpl.
      split; [|done]. rewrite Hl. destruct phase; by rewrite app_nil_r.
    + rewrite lookup_insert_ne by done. apply (ok_lanes _ Hok).
  - intros id' k i Hi%Hh. by eapply (ok_tail _ Hok).
  - intros k q Hq. destruct (ok_held _ Hok _ _ Hq) as [id' Hi]. exists id'. by apply Hh.
  - intros id' k i (o' & Ho' & Hin) id'' j Hj%Hh. simpl in Ho'. destruct (decide (id' = id)) as [-> |Hne].
    + rewrite lookup_insert_eq in Ho'. injection Ho' as <-. eapply Hfirst; [|exact Hj].
      unfold owned_lanes in Hin. simpl in Hin. destruct phase; [by destruct (Hphase previous)|done|done].
    + rewrite lookup_insert_ne in Ho' by done. eapply (ok_first _ Hok); [by exists o'|exact Hj].
  - intros id' o' k i held previous Ho' Hp Hheld. destruct (decide (id' = id)) as [-> |Hne].
    + rewrite lookup_insert_eq in Ho'. injection Ho' as <-. simpl in Hp. by apply Hphase in Hp.
    + rewrite lookup_insert_ne in Ho' by done. destruct (ok_wait _ Hok _ _ _ _ _ _ Ho' Hp Hheld) as [H1 H2]. split.
      * intros id'' j Hj%Hh Hlt. destruct (H1 _ _ Hj Hlt) as (q & ? & ? & id3 & ?). exists q. split_and!; [done|done|]. exists id3. by apply Hh.
      * intros q Hq. destruct (H2 _ Hq) as [? [?|[id3 ?]]]; (split; [done|]); [by left|right; exists id3; by apply Hh].
Qed.

Lemma ascending_fresh (held : list (jsstring * nat)) key rest :
  ascending (reverse held.*1 ++ key :: rest) -> key ∉ held.*1.
Proof.
  intros Hasc Hin. apply elem_of_reverse in Hin.
  pose proof (StronglySorted_app_1_elem_of _ _ _ _ _ Hasc Hin ltac:(by left)) as Hlt. cbn beta in Hlt. by rewrite js_ltb_irrefl in Hlt.
Qed.

(** Entering a lane. *)
Lemma enter_ok s id keys held key rest :
  lanes_ok s -> keys = reverse held.*1 ++ key :: rest ->
  (forall o, operations s !! id = Some o -> o_held o = held) -> (operations s !! id = None -> held = []) ->
  (forall k i, (k, i) ∈ held -> forall id' j, holds s id' k j -> i <= j) ->
  ascending (reverse held.*1 ++ key :: rest) ->
  forall o l, enter_lane keys held key rest (lanes_state s) = (o, l) -> lanes_ok (LanesSystem l (<[id := o]> (operations s))).
Proof.
  intros Hok Hkeys Hsame Hnone Hfirst Hasc o l Henter. unfold enter_lane, enqueue_enter in Henter. injection Henter as <- <-.
  set (c := next_promise (lanes_state s)). set (s' := LanesSystem _ _).
  pose proof (ascending_fresh _ _ _ Hasc) as Hkey.
  assert (Hold : forall k i, (k, i) ∈ held -> holds s id k i).
  { intros k i Hin. destruct (operations s !! id) as [o|] eqn:Ho; [exists o; by rewrite (Hsame _ eq_refl)|].
    rewrite (Hnone eq_refl) in Hin. by apply elem_of_nil in Hin. }
  assert (Hh : forall id' k i, holds s' id' k i <-> holds s id' k i \/ (id' = id /\ k = key /\ i = c)).
  { intros id' k i. unfold s'. rewrite holds_insert. simpl. rewrite elem_of_cons. split.
    - intros [[-> [[= -> ->]|Hin]]|(Hne & o' & Ho' & Hin)]; [by right|left; by apply Hold|left; by exists o'].
    - intros [(o' & Ho' & Hin)|(-> & -> & ->)]; [|by left; split; [|left]]. destruct (decide (id' = id)) as [-> |Hne].
      + left. split; [done|]. right. by rewrite <- (Hsame _ Ho').
      + right. split; [done|]. by exists o'. }
  assert (Hlt : forall id' k i, holds s id' k i -> i < c) by (intros id' k i Hi; apply (ok_fresh _ Hok) in Hi as [Hi _]; exact Hi).
  constructor; simpl.
  - intros id' k i [Hi|(-> & -> & ->)]%Hh; [apply (ok_fresh _ Hok) in Hi as [? ?]; split; [lia|done]|]. split; [lia|].
    intros Hc%(ok_settled _ Hok). lia.
  - intros i Hi%(ok_settled _ Hok). lia.
  - intros id1 id2 k k' i [H1|(-> & -> & ->)]%Hh [H2|(-> & -> & H2)]%Hh; [by eapply (ok_unique _ Hok)| | |done].
    + apply Hlt in H1. lia.
    + apply Hlt in H2. lia.
  - intros id' o'. destruct (decide (id' = id)) as [-> |Hne].
    + rewrite lookup_insert_eq. intros [= <-]. split; [|done]. unfold operation_lanes. cbn [o_held o_rest fmap list_fmap fst].
      by rewrite reverse_cons, <- app_assoc.
    + rewrite lookup_insert_ne by done. apply (ok_order _ Hok).
  - intros id' o'. destruct (decide (id' = id)) as [-> |Hne].
    + rewrite lookup_insert_eq. intros [= <-] _. split; [|done]. unfold operation_lanes. cbn [o_lanes o_held o_rest o_phase fmap list_fmap fst].
      by rewrite reverse_cons, <- app_assoc.
    + rewrite lookup_insert_ne by done. apply (ok_lanes _ Hok).
  - intros id' k i [Hi|(-> & -> & ->)]%Hh.
    + destruct (decide (k = key)) as [-> |Hne]; [rewrite lookup_insert_eq|rewrite lookup_insert_ne by done; by eapply (ok_tail _ Hok)].
      exists c. split; [done|]. apply Hlt in Hi. lia.
    + rewrite lookup_insert_eq. by exists c.
  - intros k q. destruct (decide (k = key)) as [-> |Hne].
    + rewrite lookup_insert_eq. intros [= <-]. exists id. apply Hh. by right.
    + rewrite lookup_insert_ne by done. intros [id' Hi]%(ok_held _ Hok). exists id'. apply Hh. by left.
  - intros id' k i (o' & Ho' & Hin) id'' j Hj. simpl in Ho'. destruct (decide (id' = id)) as [-> |Hne].
    + rewrite lookup_insert_eq in Ho'. injection Ho' as <-. unfold owned_lanes in Hin. simpl in Hin.
      apply Hh in Hj as [Hj|(-> & -> & ->)]; [by eapply Hfirst|]. destruct Hkey. by apply (list_elem_of_fmap_2 fst) in Hin.
    + rewrite lookup_insert_ne in Ho' by done. assert (Hown : owns s id' k i) by by exists o'.
      apply Hh in Hj as [Hj|(-> & -> & ->)]; [by eapply (ok_first _ Hok)|]. apply owns_holds, Hlt in Hown. lia.
  - intros id' o' k i held' previous Ho' Hp Hheld. destruct (decide (id' = id)) as [-> |Hne].
    + rewrite lookup_insert_eq in Ho'. injection Ho' as <-. simpl in Hp, Hheld. injection Hp as <-. injection Hheld as <- <- <-. split.
      * intros id'' j [Hj|(-> & _ & ->)]%Hh Hjc; [|lia]. destruct (ok_tail _ Hok _ _ _ Hj) as (q & Hq & Hle).
        exists q. split_and!; [done|done|]. destruct (ok_held _ Hok _ _ Hq) as [id3 ?]. exists id3. apply Hh. by left.
      * intros q Hq. destruct (ok_held _ Hok _ _ Hq) as [id3 H3]. split; [by eapply Hlt|]. right. exists id3. apply Hh. by left.
    + rewrite lookup_insert_ne in Ho' by done. destruct (ok_wait _ Hok _ _ _ _ _ _ Ho' Hp Hheld) as [H1 H2].
      assert (Hi : holds s id' k i) by (exists o'; split; [done|]; rewrite Hheld; by left). split.
      * intros id'' j [Hj|(-> & -> & ->)]%Hh Hji; [|apply Hlt in Hi; lia].
        destruct (H1 _ _ Hj Hji) as (q & ? & ? & id3 & ?). exists q. split_and!; [done|done|]. exists id3. apply Hh. by left.
      * intros q Hq. destruct (H2 _ Hq) as [? [?|[id3 ?]]]; (split; [done|]); [by left|right; exists id3; apply Hh; by left].
Qed.

(** Leaving a lane. *)
Lemma leave_ok s id o k i held :
  lanes_ok s -> operations s !! id = Some o -> o_phase o = Unwinding -> o_held o = (k, i) :: held -> forall ops',
  (ops' !! id = match held with [] => None | _ => Some (LaneOperation (o_lanes o) held (o_rest o) Unwinding) end) ->
  (forall id', id' <> id -> ops' !! id' = operations s !! id') ->
  lanes_ok (LanesSystem (enqueue_leave k i (lanes_state s)) ops').
Proof.
  intros Hok Ho Hphase Hheld ops' Hid Hother. set (s' := LanesSystem _ _).
  destruct (ok_order _ Hok _ _ Ho) as [Hasc _]. unfold operation_lanes in Hasc. rewrite Hheld in Hasc.
  cbn [fmap list_fmap fst] in Hasc. rewrite reverse_cons, <- app_assoc in Hasc. pose proof (ascending_fresh _ _ _ Hasc) as Hkey.
  assert (Hself : holds s id k i) by (exists o; rewrite Hheld; split; [done|by left]).
  assert (Hfirst : forall id' j, holds s id' k j -> i <= j).
  { apply (ok_first _ Hok id). exists o. unfold owned_lanes. rewrite Hphase, Hheld. split; [done|by left]. }
  assert (Hh : forall id' k' j, holds s' id' k' j <-> holds s id' k' j /\ (id' <> id \/ k' <> k)).
  { intros id' k' j. unfold s', holds. simpl. destruct (decide (id' = id)) as [-> |Hne].
    - rewrite Hid, Ho. split.
      + destruct held as [|h held]; intros (o' & [= <-] & Hin). simpl in Hin. split; [exists o; rewrite Hheld; split; [done|by right]|].
        right. intros ->. apply Hkey. by apply (list_elem_of_fmap_2 fst) in Hin.
      + intros [(o' & [= <-] & Hin) [?|Hk]]; [done|]. rewrite Hheld in Hin. apply elem_of_cons in Hin as [[= -> ->]|Hin]; [done|].
        destruct held as [|h held]; [by apply elem_of_nil in Hin|]. by eexists.
    - rewrite Hother by done. naive_solver. }
  assert (Hother_k : forall id' j, holds s' id' k j -> i < j).
  { intros id' j [Hj [Hne|?]]%Hh; [|done]. pose proof (Hfirst _ _ Hj). destruct (decide (i = j)) as [<-|]; [|lia].
    destruct Hne. by eapply (ok_unique _ Hok). }
  constructor; simpl.
  - intros id' k' j [Hj Hne]%Hh. destruct (ok_fresh _ Hok _ _ _ Hj) as [? Hs]. split; [done|]. intros [->%elem_of_singleton|?]%elem_of_union; [|done].
    destruct (ok_unique _ Hok _ _ _ _ _ Hj Hself) as [-> ->]. by destruct Hne.
  - intros j [->%elem_of_singleton|Hj]%elem_of_union; [by apply (ok_fresh _ Hok) in Hself as [? _]|by apply (ok_settled _ Hok)].
  - intros id1 id2 k1 k2 j [H1 _]%Hh [H2 _]%Hh. by eapply (ok_unique _ Hok).
  - intros id' o' Ho'. destruct (decide (id' = id)) as [-> |Hne].
    + rewrite Hid in Ho'. destruct held as [|h held]; [done|]. injection Ho' as <-. split; [|done]. unfold operation_lanes. simpl o_held.
      simpl o_phase. cbn match. rewrite app_nil_r. by apply StronglySorted_app_1_l in Hasc.
    + rewrite Hother in Ho' by done. by eapply (ok_order _ Hok).
  - intros id' o' Ho'. destruct (decide (id' = id)) as [-> |Hne].
    + rewrite Hid in Ho'. destruct held as [|h held]; [done|]. by injection Ho' as <-.
    + rewrite Hother in Ho' by done. by eapply (ok_lanes _ Hok).
  - intros id' k' j [Hj Hne]%Hh. destruct (ok_tail _ Hok _ _ _ Hj) as (q & Hq & Hle). exists q. split; [|done].
    case_decide as Ht; [|done]. rewrite lookup_delete_ne; [done|]. intros <-. assert (q = i) as -> by congruence.
    pose proof (Hother_k id' j ltac:(apply Hh; by split)). lia.
  - intros k' q Hq. assert (Hq' : tails (lanes_state s) !! k' = Some q /\ (k' = k -> q <> i)).
    { case_decide as Ht; [|split; [done|intros -> ->; done]].
      destruct (decide (k' = k)) as [-> |Hne]; [by rewrite lookup_delete_eq in Hq|]. by rewrite lookup_delete_ne in Hq. }
    destruct Hq' as [Hq' Hne]. destruct (ok_held _ Hok _ _ Hq') as [id' Hi]. exists id'. apply Hh. split; [done|].
    destruct (decide (id' = id)) as [-> |]; [|by left]. right. intros ->. apply Hne; [done|].
    destruct Hi as (o' & Ho' & Hin). rewrite Ho in Ho'. injection Ho' as <-. rewrite Hheld in Hin.
    apply elem_of_cons in Hin as [[= ->]|Hin]; [done|]. destruct Hkey. by apply (list_elem_of_fmap_2 fst) in Hin.
  - intros id' k' j (o' & Ho' & Hin) id'' j' [Hj' _]%Hh. simpl in Ho'. eapply (ok_first _ Hok id'); [|exact Hj'].
    destruct (decide (id' = id)) as [-> |Hne].
    + rewrite Hid in Ho'. destruct held as [|h held]; [done|]. injection Ho' as <-. exists o. split; [done|]. unfold owned_lanes.
      rewrite Hphase, Hheld. by right.
    + rewrite Hother in Ho' by done. by exists o'.
  - intros id' o' k' j held' previous Ho' Hp Hheld'. destruct (decide (id' = id)) as [-> |Hne].
    + rewrite Hid in Ho'. destruct held as [|h held]; [done|]. by injection Ho' as <-.
    + rewrite Hother in Ho' by done. destruct (ok_wait _ Hok _ _ _ _ _ _ Ho' Hp Hheld') as [H1 H2]. split.
      * intros id'' j' Hj' Hlt. pose proof (proj1 (proj1 (Hh _ _ _) Hj')) as Hj''.
        destruct (H1 _ _ Hj'' Hlt) as (q & ? & ? & id3 & H3). exists q. split_and!; [done|done|]. exists id3. apply Hh. split; [done|].
        destruct (decide (id3 = id)) as [-> |]; [|by left]. right. intros ->. assert (q = i) as ->.
        { destruct H3 as (o3 & Ho3 & Hin). rewrite Ho in Ho3. injection Ho3 as <-. rewrite Hheld in Hin.
          apply elem_of_cons in Hin as [[= ->]|Hin]; [done|]. destruct Hkey. by apply (list_elem_of_fmap_2 fst) in Hin. }
        apply Hother_k in Hj'. lia.
      * intros q Hq. destruct (H2 _ Hq) as [? [?|[id3 H3]]]; (split; [done|]); [left; set_solver|].
        destruct (decide (q = i)) as [-> |Hqi]; [left; set_solver|]. right. exists id3. apply Hh. split; [done|].
        destruct (decide (id3 = id)) as [-> |]; [|by left]. right. intros ->.
        destruct H3 as (o3 & Ho3 & Hin). rewrite Ho in Ho3. injection Ho3 as <-. rewrite Hheld in Hin.
        apply elem_of_cons in Hin as [[= ->]|Hin]; [done|]. destruct Hkey. by apply (list_elem_of_fmap_2 fst) in Hin.
Qed.

Lemma lanes_ok_step s s' : lanes_ok s -> lane_step s s' -> lanes_ok s'.
Proof.
  intros Hok Hstep. destruct Hstep as [s id c s' Hs|s id s' Hs|s id s' Hs|s id s' Hs].
  - unfold start_operation in Hs. pose proof (lanes_of_ascending c) as Hasc. destruct (lanes_of c) as [|key rest]; [done|].
    destruct (operations s !! id) eqn:Hid; [done|]. destruct (enter_lane _ _ _ _ _) as [o l] eqn:He. injection Hs as <-.
    eapply (enter_ok s id (key :: rest) [] key rest); try done; [intros o'; congruence|by intros k i ?%elem_of_nil].
  - unfold wake in Hs. apply bind_Some in Hs as (o & Ho & Hs). destruct (o_phase o) as [previous| |] eqn:Hp; [|done|done].
    destruct (passes previous _) eqn:Hpass; [|done]. destruct (ok_order _ Hok _ _ Ho) as [Hasc Hne]. unfold operation_lanes in Hasc.
    rewrite Hp in Hasc. destruct (o_held o) as [|[k i] held] eqn:Hheld; [done|].
    pose proof (passes_first _ _ _ _ _ _ _ Hok Ho Hp Hheld Hpass) as Hfirst.
    assert (Hall : forall k' i', (k', i') ∈ (k, i) :: held -> forall id' j, holds s id' k' j -> i' <= j).
    { intros k' i' [[= -> ->]|Hin]%elem_of_cons; [exact Hfirst|]. apply (ok_first _ Hok id). exists o. unfold owned_lanes. by rewrite Hp, Hheld. }
    destruct (o_rest o) as [|key rest] eqn:Hrest.
    + injection Hs as <-. rewrite <- Hheld. apply phase_ok; [done|done|done|by rewrite Hheld| |].
      * intros _. split; [done|]. destruct (ok_lanes _ Hok _ _ Ho) as [-> _]; [by rewrite Hp|].
        unfold operation_lanes. by rewrite Hp, Hrest, app_nil_r.
      * unfold operation_lanes. simpl o_held. by rewrite Hheld.
    + destruct (enter_lane _ _ _ _ _) as [o' l] eqn:He. injection Hs as <-.
      eapply (enter_ok s id (o_lanes o) ((k, i) :: held) key rest); try done; [|intros o''; congruence|congruence].
      destruct (ok_lanes _ Hok _ _ Ho) as [-> _]; [by rewrite Hp|]. unfold operation_lanes. by rewrite Hp, Hheld, Hrest.
  - unfold finish_operation in Hs. apply bind_Some in Hs as (o & Ho & Hs). destruct (o_phase o) eqn:Hp; [done| |done].
    injection Hs as <-. destruct (ok_order _ Hok _ _ Ho) as [Hasc Hne]. apply phase_ok; [done|done|done| |done|].
    + intros k i Hin. apply (ok_first _ Hok id). exists o. unfold owned_lanes. by rewrite Hp.
    + unfold operation_lanes in *. rewrite Hp in Hasc. simpl. rewrite app_nil_r. by apply StronglySorted_app_1_l in Hasc.
  - unfold unwind in Hs. apply bind_Some in Hs as (o & Ho & Hs). destruct (o_phase o) eqn:Hp; [done|done|].
    destruct (o_held o) as [|[k i] held] eqn:Hheld; [done|]. injection Hs as <-.
    eapply leave_ok; [done|exact Ho|done|exact Hheld| |].
    + destruct held; [by rewrite lookup_delete_eq|by rewrite lookup_insert_eq].
    + intros id' Hne. destruct held; [by rewrite lookup_delete_ne|by rewrite lookup_insert_ne].
Qed.

Lemma lanes_reachable_ok s : lanes_reachable s -> lanes_ok s.
Proof. refine (rtc_ind_r lanes_ok new_lanes lanes_ok_new _ s). intros s1 s2 _ Hs Hok. by eapply lanes_ok_step. Qed.

(** ** Progress *)

Lemma lane_owner s id k i :
  lanes_ok s -> (forall id o, operations s !! id = Some o -> exists previous, o_phase o = Awaiting previous /\ passes previous (lanes_state s) = false) ->
  holds s id k i -> exists id' j, owns s id' k j.
Proof.
  intros Hok Hstuck. revert id. induction i as [i IH] using lt_wf_ind; intros id (o & Ho & Hin).
  destruct (Hstuck _ _ Ho) as (previous & Hp & Hpass). destruct (o_held o) as [|[k' i'] held] eqn:Hheld; [by apply elem_of_nil in Hin|].
  apply elem_of_cons in Hin as [[= <- <-]|Hin].
  - destruct (ok_wait _ Hok _ _ _ _ _ _ Ho Hp Hheld) as [_ H2]. destruct previous as [q|]; [|done].
    destruct (H2 q eq_refl) as [Hlt [Hset|[id' Hq]]]; [|by eapply IH]. simpl in Hpass. by apply bool_decide_eq_false in Hpass.
  - exists id, i, o. split; [done|]. unfold owned_lanes. by rewrite Hp, Hheld.
Qed.

Definition stuck (l : lane_state) (o : lane_operation) : bool :=
  match o_phase o with Awaiting previous => negb (passes previous l) | _ => false end.

(** The operation that waits for the last lane in the order. *)
Lemma last_lane (l : list (nat * lane_operation)) :
  l <> [] -> (forall p, p ∈ l -> o_held p.2 <> []) ->
  exists p k i held, p ∈ l /\ o_held p.2 = (k, i) :: held
    /\ forall p' k' i' held', p' ∈ l -> o_held p'.2 = (k', i') :: held' -> js_ltb k k' = false.
Proof.
  induction l as [|p l IH]; intros Hne Hheld; [done|]. destruct (o_held p.2) as [|[k i] held] eqn:Hp; [by destruct (Hheld p); [left|]|].
  destruct l as [|p2 l].
  - exists p, k, i, held. split_and!; [by left|done|]. intros p' k' i' held' ->%list_elem_of_singleton. rewrite Hp. intros [= <- _ _].
    apply js_ltb_irrefl.
  - destruct IH as (pm & km & im & hm & Hin & Hm & Hmax); [done|intros; apply Hheld; by right|].
    destruct (js_ltb km k) eqn:Hlt.
    + exists p, k, i, held. split_and!; [by left|done|]. intros p' k' i' held' [-> |Hin']%elem_of_cons Hp'.
      * rewrite Hp in Hp'. injection Hp' as <- _ _. apply js_ltb_irrefl.
      * destruct (js_ltb k k') eqn:E; [|done]. pose proof (js_ltb_trans _ _ _ Hlt E). by rewrite (Hmax _ _ _ _ Hin' Hp') in *.
    + exists pm, km, im, hm. split_and!; [by right|done|]. intros p' k' i' held' [-> |Hin']%elem_of_cons Hp'; [|by eapply Hmax].
      rewrite Hp in Hp'. by injection Hp' as <- _ _.
Qed.

Lemma no_deadlock s :
  lanes_ok s -> operations s <> ∅ -> exists s', quiet_step s s'.
Proof.
  intros Hok Hne.
  destruct (decide (Forall (fun p => stuck (lanes_state s) p.2 = true) (map_to_list (operations s)))) as [Hall|Hex].
  - exfalso. rewrite Forall_forall in Hall.
    assert (Hstuck : forall id o, operations s !! id = Some o -> exists previous, o_phase o = Awaiting previous /\ passes previous (lanes_state s) = false).
    { intros id o Ho. specialize (Hall (id, o) ltac:(by apply elem_of_map_to_list)). unfold stuck in Hall. simpl in Hall.
      destruct (o_phase o) as [previous| |]; [exists previous; propify; done|done|done]. }
    destruct (last_lane (map_to_list (operations s))) as ([id o] & k & i & held & Hin & Hheld & Hmax).
    { intros Hl. by apply map_to_list_empty_iff in Hl. }
    { intros [id o] Hin. apply elem_of_map_to_list in Hin. by apply (ok_order _ Hok) in Hin as [_ ?]. }
    apply elem_of_map_to_list in Hin. simpl in *.
    destruct (lane_owner s id k i Hok Hstuck) as (id' & j & o' & Ho' & Hown); [exists o; rewrite Hheld; split; [done|by left]|].
    destruct (Hstuck _ _ Ho') as (previous & Hp & _). unfold owned_lanes in Hown. rewrite Hp in Hown.
    destruct (o_held o') as [|[k' i'] held'] eqn:Hheld'; [by apply elem_of_nil in Hown|]. simpl in Hown.
    assert (Hlt : js_ltb k k' = true).
    { destruct (ok_order _ Hok _ _ Ho') as [Hasc _]. unfold operation_lanes in Hasc. rewrite Hp, Hheld' in Hasc.
      cbn [fmap list_fmap fst] in Hasc. rewrite reverse_cons, <- app_assoc in Hasc.
      refine (StronglySorted_app_1_elem_of _ _ _ k k' Hasc _ _); [|by left].
      apply elem_of_reverse. by apply (list_elem_of_fmap_2 fst) in Hown. }
    rewrite (Hmax (id', o') k' i' held') in Hlt; [done|by apply elem_of_map_to_list|done].
  - apply not_Forall_Exists in Hex; [|apply _]. apply Exists_exists in Hex as ([id o] & Hin & Hp). apply elem_of_map_to_list in Hin.
    destruct (ok_order _ Hok _ _ Hin) as [_ Hheld]. unfold stuck in Hp. simpl in Hp. destruct (o_phase o) as [previous| |] eqn:Hph.
    + assert (Hpass : passes previous (lanes_state s) = true) by by destruct (passes _ _).
      destruct (wake id s) as [s'|] eqn:Hw; [exists s'; by eapply quiet_wake|]. exfalso. unfold wake in Hw. rewrite Hin in Hw. simpl in Hw.
      rewrite Hph, Hpass in Hw. by destruct (o_rest o).
    + eexists. apply (quiet_finish s id). unfold finish_operation. rewrite Hin. simpl. by rewrite Hph.
    + destruct (o_held o) as [|[k i] held] eqn:Hh; [done|]. eexists. apply (quiet_unwind s id). unfold unwind. rewrite Hin. simpl.
      by rewrite Hph, Hh.
Qed.

(** The steps an operation has still to make. *)
Definition operation_work (o : lane_operation) : nat :=
  length (o_held o) + match o_phase o with Awaiting _ => 2 * length (o_rest o) + 2 | Operating => 1 | Unwinding => 0 end.
Definition work (s : lanes) : nat := sum_list (operation_work <$> (map_to_list (operations s)).*2).

Lemma work_split l ops id o :
  ops !! id = Some o -> work (LanesSystem l ops) = operation_work o + work (LanesSystem l (delete id ops)).
Proof.
  intros Ho. unfold work. simpl. rewrite <- (insert_delete_id ops id o Ho) at 1.
  rewrite map_to_list_insert by apply lookup_delete_eq. done.
Qed.

Lemma work_insert l l' ops id o o' :
  ops !! id = Some o -> work (LanesSystem l' (<[id := o']> ops)) + operation_work o = work (LanesSystem l ops) + operation_work o'.
Proof.
  intros Ho. rewrite (work_split l ops id o Ho), (work_split l' (<[id := o']> ops) id o') by apply lookup_insert_eq.
  rewrite delete_insert_eq. unfold work. simpl. lia.
Qed.

Lemma quiet_work s s' : lanes_ok s -> quiet_step s s' -> work s = S (work s').
Proof.
  intros Hok Hstep. destruct Hstep as [s id s' Hs|s id s' Hs|s id s' Hs].
  - unfold wake in Hs. apply bind_Some in Hs as (o & Ho & Hs). destruct (o_phase o) as [previous| |] eqn:Hp; [|done|done].
    destruct (passes previous _); [|done]. destruct s as [l ops]. simpl in *. destruct (o_rest o) as [|key rest] eqn:Hrest.
    + injection Hs as <-. pose proof (work_insert l l ops id o (LaneOperation (o_lanes o) (o_held o) [] Operating) Ho) as Hw.
      unfold operation_work in Hw. rewrite Hp, Hrest in Hw. simpl in Hw. lia.
    + injection Hs as <-. match goal with |- context [LanesSystem ?l' (<[id := ?o']> ops)] => pose proof (work_insert l l' ops id o o' Ho) as Hw end.
      unfold operation_work in Hw. rewrite Hp, Hrest in Hw. simpl in Hw. lia.
  - unfold finish_operation in Hs. apply bind_Some in Hs as (o & Ho & Hs). destruct (o_phase o) eqn:Hp; [done| |done].
    injection Hs as <-. destruct s as [l ops]. simpl in *.
    pose proof (work_insert l l ops id o (LaneOperation (o_lanes o) (o_held o) (o_rest o) Unwinding) Ho) as Hw.
    unfold operation_work in Hw. rewrite Hp in Hw. simpl in Hw. lia.
  - unfold unwind in Hs. apply bind_Some in Hs as (o & Ho & Hs). destruct (o_phase o) eqn:Hp; [done|done|].
    destruct (o_held o) as [|[k i] held] eqn:Hheld; [done|]. injection Hs as <-. destruct s as [l ops]. simpl in *. destruct held as [|h held].
    + rewrite (work_split l ops id o Ho). unfold operation_work. rewrite Hp, Hheld. simpl. reflexivity.
    + pose proof (work_insert l (enqueue_leave k i l) ops id o (LaneOperation (o_lanes o) (h :: held) (o_rest o) Unwinding) Ho) as Hw.
      unfold operation_work in Hw. rewrite Hp, Hheld in Hw. simpl in Hw. lia.
Qed.

Lemma quiet_lane_step s s' : quiet_step s s' -> lane_step s s'.
Proof. intros [s1 id s2 Hs|s1 id s2 Hs|s1 id s2 Hs]; [by eapply step_wake|by eapply step_finish|by eapply step_unwind]. Qed.

Lemma quiet_run_work n s s' : lanes_ok s -> nsteps quiet_step n s s' -> lanes_ok s' /\ work s = n + work s'.
Proof.
  intros Hok Hn. revert Hok. induction Hn as [s|n s1 s2 s3 Hs _ IH]; intros Hok; [done|].
  destruct IH as [? Hw]; [by eapply lanes_ok_step, quiet_lane_step|]. split; [done|]. rewrite (quiet_work _ _ Hok Hs), Hw. done.
Qed.
End Lanes.

(** ** The guarantees *)

(** The lanes of every operation are those of some call. *)
Lemma lanes_of_a_call {call} `{OrderedLanes call} s id o :
  lanes_reachable s -> operations s !! id = Some o -> exists c : call, o_lanes o = lanes_of c.
Proof.
  intros Hr. revert id o. refine (rtc_ind_r (fun s => forall id o, operations s !! id = Some o -> exists c, o_lanes o = lanes_of c) new_lanes _ _ s Hr).
  { intros id o Ho. simpl in Ho. by rewrite lookup_empty in Ho. }
  clear s Hr. intros s1 s2 _ Hstep IH id o Ho.
  assert (Hkeep : forall id0 o0 o1 l, operations s1 !! id0 = Some o0 -> o_lanes o1 = o_lanes o0 ->
    s2 = LanesSystem l (<[id0 := o1]> (operations s1)) -> exists c, o_lanes o = lanes_of c).
  { intros id0 o0 o1 l Ho0 Hl ->. simpl in Ho. destruct (decide (id = id0)) as [-> |Hne].
    - rewrite lookup_insert_eq in Ho. injection Ho as <-. rewrite Hl. by apply (IH id0).
    - rewrite lookup_insert_ne in Ho by done. by apply (IH id). }
  destruct Hstep as [s id' c s' Hs|s id' s' Hs|s id' s' Hs|s id' s' Hs].
  - unfold start_operation in Hs. destruct (lanes_of c) as [|key rest] eqn:Hc; [done|]. destruct (operations s !! id'); [done|].
    simpl in Hs. injection Hs as <-. simpl in Ho. destruct (decide (id = id')) as [-> |Hne].
    + rewrite lookup_insert_eq in Ho. injection Ho as <-. by exists c.
    + rewrite lookup_insert_ne in Ho by done. by apply (IH id).
  - unfold wake in Hs. apply bind_Some in Hs as (o0 & Ho0 & Hs). destruct (o_phase o0); [|done|done]. destruct (passes _ _); [|done].
    destruct (o_rest o0); simpl in Hs; injection Hs as <-; (eapply Hkeep; [exact Ho0| |reflexivity]; done).
  - unfold finish_operation in Hs. apply bind_Some in Hs as (o0 & Ho0 & Hs). destruct (o_phase o0); [done| |done].
    injection Hs as <-. (eapply Hkeep; [exact Ho0| |reflexivity]; done).
  - unfold unwind in Hs. apply bind_Some in Hs as (o0 & Ho0 & Hs). destruct (o_phase o0); [done|done|].
    destruct (o_held o0) as [|[k i] [|h held]]; [done| |]; injection Hs as <-; [|(eapply Hkeep; [exact Ho0| |reflexivity]; done)].
    simpl in Ho. apply lookup_delete_Some in Ho as [_ Ho]. by apply (IH id).
Qed.

(** C22. Mutual exclusion and order, for every call whose lanes ascend, so for
    the methods of the repository mutation queue ([mutation_ordered]) and for
    the gate of instance operations ([gate_ordered]), under every schedule: an
    operation runs for some call, and two running operations whose calls share
    a lane are one and the same; an operation that has a lane entered it no
    later than any other operation still in it, so lanes are served first
    come, first served; and a running operation has all the lanes of its call. *)
Theorem lanes_exclusive {call} `{OrderedLanes call} s :
  lanes_reachable s ->
  (forall id o, operations s !! id = Some o -> exists c : call, o_lanes o = lanes_of c)
  /\ (forall id id' o o' key, operations s !! id = Some o -> operations s !! id' = Some o' ->
        o_phase o = Operating -> o_phase o' = Operating -> key ∈ o_lanes o -> key ∈ o_lanes o' -> id = id')
  /\ (forall id id' key i j, owns s id key i -> holds s id' key j -> i <= j)
  /\ (forall id o key, operations s !! id = Some o -> o_phase o = Operating -> key ∈ o_lanes o -> exists i, owns s id key i).
Proof.
  intros Hr. pose proof (lanes_reachable_ok s Hr) as Hok.
  assert (Hall : forall id o key, operations s !! id = Some o -> o_phase o = Operating -> key ∈ o_lanes o -> exists i, owns s id key i).
  { intros id o key Ho Hp Hk. destruct (ok_lanes _ Hok _ _ Ho) as [Hl Hrest]; [by rewrite Hp|].
    rewrite Hl in Hk. unfold operation_lanes in Hk. rewrite Hp, Hrest, app_nil_r in Hk by done.
    apply elem_of_reverse, list_elem_of_fmap in Hk as ([k i] & -> & Hin). exists i, o. split; [done|]. unfold owned_lanes. by rewrite Hp. }
  split_and!; [intros id o; by apply lanes_of_a_call| |intros; by eapply (ok_first _ Hok)|done].
  intros id id' o o' key Ho Ho' Hp Hp' Hk Hk'. destruct (Hall _ _ _ Ho Hp Hk) as [i Hi]. destruct (Hall _ _ _ Ho' Hp' Hk') as [j Hj].
  assert (i = j) as ->.
  { pose proof (ok_first _ Hok _ _ _ Hi _ _ (owns_holds _ _ _ _ Hj)). pose proof (ok_first _ Hok _ _ _ Hj _ _ (owns_holds _ _ _ _ Hi)). lia. }
  by eapply (ok_unique _ Hok); apply owns_holds.
Qed.

(** C23. No deadlock and no leak: as long as an operation is there, some
    operation can take its next step; from a reachable state at most [work]
    steps other than calls are possible, in whatever order; and when no such
    step is left, every operation has left its lanes and both maps are empty. *)
Theorem lanes_progress {call} `{OrderedLanes call} s :
  lanes_reachable s ->
  (operations s <> ∅ -> exists s', quiet_step s s')
  /\ (forall n s', nsteps quiet_step n s s' -> n + work s' = work s)
  /\ (forall s', rtc quiet_step s s' -> (forall s'', ~ quiet_step s' s'') -> operations s' = ∅ /\ tails (lanes_state s') = ∅).
Proof.
  intros Hr. pose proof (lanes_reachable_ok s Hr) as Hok. split_and!.
  - by apply no_deadlock.
  - intros n s' Hn. by destruct (quiet_run_work _ _ _ Hok Hn) as [_ ->].
  - intros s' [n Hn]%rtc_nsteps Hend. destruct (quiet_run_work _ _ _ Hok Hn) as [Hok' _].
    assert (Hops : operations s' = ∅).
    { destruct (decide (operations s' = ∅)) as [|Hne]; [done|]. destruct (no_deadlock _ Hok' Hne) as [s'' Hs]. by apply Hend in Hs. }
    split; [done|]. apply map_empty. intros k. destruct (tails (lanes_state s') !! k) as [q|] eqn:Hq; [|done].
    destruct (ok_held _ Hok' _ _ Hq) as (id & o & Ho & _). rewrite Hops in Ho. by rewrite lookup_empty in Ho.
Qed.

(** Three operations: two on the same repository and worktrees, one on a
    worktree of both. *)
Definition example_schedule (s : lanes) : option lanes :=
  s ← start_operation 0 (lanes_of (WithRepositoryAndWorktrees (js "r") [js "b"; js "a"; js "b"])) s;
  s ← start_operation 1 (lanes_of (WithRepositoryAndWorktree (js "r") (js "a"))) s;
  s ← wake 0 s; s ← wake 0 s; s ← wake 0 s;
  start_operation 2 (lanes_of (WithWorktree (js "b"))) s.
Definition example_lanes : lanes := default new_lanes (example_schedule new_lanes).

Lemma example_lanes_reachable : lanes_reachable (call := mutation_call) example_lanes.
Proof.
  unfold example_lanes. destruct (example_schedule new_lanes) as [s|] eqn:Hs; [simpl|by vm_compute in Hs].
  unfold example_schedule in Hs. apply bind_Some in Hs as (s1 & H1 & Hs). apply bind_Some in Hs as (s2 & H2 & Hs).
  apply bind_Some in Hs as (s3 & H3 & Hs). apply bind_Some in Hs as (s4 & H4 & Hs). apply bind_Some in Hs as (s5 & H5 & Hs).
  eapply rtc_l; [by eapply step_call|]. eapply rtc_l; [by eapply step_call|]. eapply rtc_l; [by eapply step_wake|].
  eapply rtc_l; [by eapply step_wake|]. eapply rtc_l; [by eapply step_wake|]. eapply rtc_l; [by eapply step_call|]. constructor.
Qed.

Example example_lanes_state :
  (fun o => (o_phase o, (o_held o).*1)) <$> operations example_lanes !! 0
    = Some (Operating, [js "worktree:b"; js "worktree:a"; js "repository:r"])
  /\ o_phase <$> operations example_lanes !! 1 = Some (Awaiting (Some 0))
  /\ o_phase <$> operations example_lanes !! 2 = Some (Awaiting (Some 3)).
Proof. vm_compute. done. Qed.

Lemma lanes_exclusive_witness :
  exists o, operations example_lanes !! 0 = Some o /\ o_phase o = Operating /\ js "worktree:a" ∈ o_lanes o /\ exists i, owns example_lanes 0 (js "worktree:a") i.
Proof.
  destruct (operations example_lanes !! 0) as [o|] eqn:Ho; [|by vm_compute in Ho].
  assert (Hp : o_phase o = Operating) by (vm_compute in Ho; by injection Ho as <-).
  assert (Hk : js "worktree:a" ∈ o_lanes o).
  { vm_compute in Ho. injection Ho as <-. apply (bool_decide_unpack _). vm_compute. exact I. }
  exists o. split_and!; [done|done|done|].
  exact (proj2 (proj2 (proj2 (lanes_exclusive (call := mutation_call) example_lanes example_lanes_reachable))) 0 o _ Ho Hp Hk).
Defined.

Lemma lanes_progress_witness : exists s', quiet_step example_lanes s'.
Proof.
  apply (proj1 (lanes_progress (call := mutation_call) example_lanes example_lanes_reachable)).
  intros He. assert (H0 : operations example_lanes !! 0 = None) by by rewrite He. by vm_compute in H0.
Defined.

(** ** Intents *)

(** Invalidating an intent aborts the work of every earlier intent of the
    instance, and of no other instance; the new intent is current. *)
Lemma invalidate_intent_aborts instanceId st :
  let (i, st') := invalidate_intent instanceId st in
  isIntentCurrent instanceId i st' = true
  /\ (forall j, j < next_controller st -> signal_aborted instanceId j st' = true)
  /\ (forall other j, other <> instanceId -> isIntentCurrent other j st' = isIntentCurrent other j st).
Proof.
  unfold invalidate_intent, signal_aborted, isIntentCurrent. cbn [current_intents aborted].
  rewrite mget_mset_eq. split_and!; [by apply bool_decide_eq_true| |intros other j Hne; by rewrite mget_mset_ne].
  intros j Hj. rewrite bool_decide_eq_false_2; [done|]. intros [= <-]. lia.
Qed.
