(* ===== verification/RelayFrames.v ===== *)
(** * The frames of the cloud relay

    [packages/cloud-contracts/src/relay-frame.ts],
    [packages/protocol/src/relay-body.ts] and the binary data frames of
    [packages/protocol/src/node-relay-channel.ts]: what travels through the
    relay, and what travels sealed inside it.  Bytes are the numbers of
    [Utf8]; an integer argument is a [Z], which may be out of the range its
    header field has room for. *)

From S2P Require Export Utf8.

(** ** Typed arrays

    [new Uint8Array(n)], a write at an index, [set] at an offset, and the
    big-endian accesses of a [DataView]. *)

Definition Uint8Array (n : nat) : bytes := replicate n 0%N.
Definition set_byte (i : nat) (v : Z) (b : bytes) : bytes := <[i := Z.to_N (v mod 256)]> b.
Definition set_bytes (data : bytes) (offset : nat) (b : bytes) : bytes :=
  take offset b ++ data ++ drop (offset + length data) b.
Definition setUint32 (i : nat) (v : Z) (b : bytes) : bytes :=
  set_byte (i + 3) v (set_byte (i + 2) (Z.shiftr v 8) (set_byte (i + 1) (Z.shiftr v 16) (set_byte i (Z.shiftr v 24) b))).

(** Reading past the end gives [undefined]; the code compares or has checked
    the length. *)
Definition get_byte (i : nat) (b : bytes) : Z := default (-1)%Z (Z.of_N <$> b !! i).
Definition getUint32 (i : nat) (b : bytes) : Z :=
  Z.lor (Z.shiftl (get_byte i b) 24)
    (Z.lor (Z.shiftl (get_byte (i + 1) b) 16) (Z.lor (Z.shiftl (get_byte (i + 2) b) 8) (get_byte (i + 3) b))).

Definition byteLength (b : bytes) : Z := Z.of_nat (length b).
Definition flag_set (flags flag : Z) : bool := negb (Z.land flags flag =? 0)%Z.

(** ** Frames of the relay (relay-frame.ts) *)

Definition RELAY_FRAME_MAGIC : Z := 0x52.
Definition RELAY_FRAME_VERSION : Z := 2.
Definition RELAY_FRAME_HEADER_BYTES : nat := 8.
Definition RELAY_FRAME_FLAG_DEFLATE : Z := 1.
Definition RELAY_FRAME_KNOWN_FLAGS : Z := RELAY_FRAME_FLAG_DEFLATE.
Definition RELAY_FRAME_DEFLATE_MIN_BYTES : Z := 512.
Definition RELAY_FRAME_MAX_PAYLOAD_BYTES : Z := 1024 * 1024.

Inductive RelayFrameKind := Handshake | Data | Cancel | WindowUpdate | CloseFrame.
#[export] Instance RelayFrameKind_eq_dec : EqDecision RelayFrameKind.
Proof. solve_decision. Defined.

Definition RELAY_FRAME_KINDS : list RelayFrameKind := [Handshake; Data; Cancel; WindowUpdate; CloseFrame].

Record RelayFramePayload := RelayFrame {
  rf_kind : RelayFrameKind;
  rf_sequence : Z;
  rf_payload : bytes;
  rf_flags : option Z
}.

(** [indexOf]. *)
Definition relayFrameKindCode (kind : RelayFrameKind) : Z :=
  match list_find (eq kind) RELAY_FRAME_KINDS with Some (i, _) => Z.of_nat i | None => -1 end.

(** The thrown errors are their codes. *)
Definition relayFrameError : jsstring := js "RELAY_FRAME_INVALID".
Definition RELAY_FRAME_TOO_LARGE : jsstring := js "RELAY_FRAME_TOO_LARGE".

Definition encodeRelayFrame (frame : RelayFramePayload) : result jsstring bytes :=
  if (rf_sequence frame <? 0)%Z || (0xffffffff <? rf_sequence frame)%Z then Throw relayFrameError else
  let flags := default 0%Z (rf_flags frame) in
  if (flags <? 0)%Z || (0xff <? flags)%Z || negb (Z.land flags (Z.lnot RELAY_FRAME_KNOWN_FLAGS) =? 0)%Z then Throw relayFrameError else
  let payload := rf_payload frame in
  if (RELAY_FRAME_MAX_PAYLOAD_BYTES <? byteLength payload)%Z then Throw RELAY_FRAME_TOO_LARGE else
  let encoded := Uint8Array (RELAY_FRAME_HEADER_BYTES + length payload) in
  let encoded := set_byte 0 RELAY_FRAME_MAGIC encoded in
  let encoded := set_byte 1 RELAY_FRAME_VERSION encoded in
  let encoded := set_byte 2 flags encoded in
  let encoded := set_byte 3 (relayFrameKindCode (rf_kind frame)) encoded in
  let encoded := setUint32 4 (rf_sequence frame) encoded in
  Ok (set_bytes payload RELAY_FRAME_HEADER_BYTES encoded).

Definition decodeRelayFrame (raw : bytes) : result jsstring RelayFramePayload :=
  if bool_decide (length raw < RELAY_FRAME_HEADER_BYTES) || negb (get_byte 0 raw =? RELAY_FRAME_MAGIC)%Z
     || negb (get_byte 1 raw =? RELAY_FRAME_VERSION)%Z then Throw relayFrameError else
  let flags := get_byte 2 raw in
  if negb (Z.land flags (Z.lnot RELAY_FRAME_KNOWN_FLAGS) =? 0)%Z then Throw relayFrameError else
  match RELAY_FRAME_KINDS !! Z.to_nat (get_byte 3 raw) with
  | None => Throw relayFrameError
  | Some kind =>
      if (RELAY_FRAME_MAX_PAYLOAD_BYTES <? byteLength raw - Z.of_nat RELAY_FRAME_HEADER_BYTES)%Z then Throw RELAY_FRAME_TOO_LARGE else
      Ok (RelayFrame kind (getUint32 4 raw) (drop RELAY_FRAME_HEADER_BYTES raw) (Some flags))
  end.

Definition packRelayPayload (deflate : bytes -> bytes) (payload : bytes) : bytes * Z :=
  if (byteLength payload <? RELAY_FRAME_DEFLATE_MIN_BYTES)%Z then (payload, 0%Z) else
  let compressed := deflate payload in
  if (byteLength compressed <? byteLength payload)%Z then (compressed, RELAY_FRAME_FLAG_DEFLATE) else (payload, 0%Z).

(** [inflate] throws on what is no deflate stream. *)
Definition unpackRelayPayload {E} (inflate : bytes -> result E bytes) (payload : bytes) (flags : Z) : result E bytes :=
  if flag_set flags RELAY_FRAME_FLAG_DEFLATE then inflate payload else Ok payload.

(** ** Data frames of the node channel (node-relay-channel.ts) *)

Definition NODE_RELAY_DATA_MAGIC : Z := 0xb2.
Definition NODE_RELAY_DATA_VERSION : Z := 2.
Definition NODE_RELAY_DATA_HEADER_BYTES : nat := 8.
Definition NODE_RELAY_DATA_FLAG_BINARY : Z := 1.
Definition NODE_RELAY_DATA_FLAG_MORE : Z := 2.
Definition NODE_RELAY_DATA_MAX_BYTES : Z := 768 * 1024.
Definition NODE_RELAY_DATA_MAX_MESSAGE_BYTES : Z := 8 * 1024 * 1024.
Definition NODE_RELAY_DATA_KNOWN_FLAGS : Z := Z.lor NODE_RELAY_DATA_FLAG_BINARY NODE_RELAY_DATA_FLAG_MORE.

Record NodeRelayDataFrame := DataFrame { df_streamId : Z; df_data : bytes; df_binary : bool; df_more : bool }.

Definition nodeRelayDataFrameError : jsstring := js "NODE_RELAY_DATA_FRAME_INVALID".
Definition NODE_RELAY_DATA_FRAME_TOO_LARGE : jsstring := js "NODE_RELAY_DATA_FRAME_TOO_LARGE".

Definition isNodeRelayDataFrame (raw : bytes) : bool := bool_decide (0 < length raw) && (get_byte 0 raw =? NODE_RELAY_DATA_MAGIC)%Z.

Definition encodeNodeRelayDataFrame (frame : NodeRelayDataFrame) : result jsstring bytes :=
  if (df_streamId frame <? 0)%Z || (0xffffffff <? df_streamId frame)%Z then Throw nodeRelayDataFrameError else
  if (NODE_RELAY_DATA_MAX_BYTES <? byteLength (df_data frame))%Z then Throw NODE_RELAY_DATA_FRAME_TOO_LARGE else
  let encoded := Uint8Array (NODE_RELAY_DATA_HEADER_BYTES + length (df_data frame)) in
  let encoded := set_byte 0 NODE_RELAY_DATA_MAGIC encoded in
  let encoded := set_byte 1 NODE_RELAY_DATA_VERSION encoded in
  let encoded := set_byte 2 (Z.lor (if df_binary frame then NODE_RELAY_DATA_FLAG_BINARY else 0)
                               (if df_more frame then NODE_RELAY_DATA_FLAG_MORE else 0)) encoded in
  let encoded := setUint32 3 (df_streamId frame) encoded in
  Ok (set_bytes (df_data frame) NODE_RELAY_DATA_HEADER_BYTES encoded).

Definition decodeNodeRelayDataFrame (raw : bytes) : result jsstring NodeRelayDataFrame :=
  if bool_decide (length raw < NODE_RELAY_DATA_HEADER_BYTES) || negb (get_byte 0 raw =? NODE_RELAY_DATA_MAGIC)%Z
     || negb (get_byte 1 raw =? NODE_RELAY_DATA_VERSION)%Z then Throw nodeRelayDataFrameError else
  let flags := get_byte 2 raw in
  if negb (Z.land flags (Z.lnot NODE_RELAY_DATA_KNOWN_FLAGS) =? 0)%Z then Throw nodeRelayDataFrameError else
  let data := drop NODE_RELAY_DATA_HEADER_BYTES raw in
  if (NODE_RELAY_DATA_MAX_BYTES <? byteLength data)%Z then Throw NODE_RELAY_DATA_FRAME_TOO_LARGE else
  Ok (DataFrame (getUint32 3 raw) data (flag_set flags NODE_RELAY_DATA_FLAG_BINARY) (flag_set flags NODE_RELAY_DATA_FLAG_MORE)).

(** ** Body frames (relay-body.ts)

    Requests and responses have the same layout under their own magic. *)

Definition RELAY_BODY_MAGIC : Z := 0xb1.
Definition RELAY_BODY_VERSION : Z := 1.
Definition RELAY_BODY_HEADER_BYTES : nat := 11.
Definition RELAY_BODY_FLAG_FINAL : Z := 1.
Definition RELAY_RESPONSE_MAGIC : Z := 0xb3.
Definition RELAY_RESPONSE_VERSION : Z := 1.
Definition RELAY_BODY_MAX_CHUNK_BYTES : Z := 512 * 1024.
Definition RELAY_BODY_KNOWN_FLAGS : Z := RELAY_BODY_FLAG_FINAL.

Record RelayBodyFrame := BodyFrame { bf_bodyId : Z; bf_offset : Z; bf_bytes : bytes; bf_final : bool }.
Record RelayResponseFrame := ResponseFrame { sf_responseId : Z; sf_offset : Z; sf_bytes : bytes; sf_final : bool }.

Definition relayBodyError : jsstring := js "RELAY_BODY_FRAME_INVALID".
Definition RELAY_BODY_FRAME_TOO_LARGE : jsstring := js "RELAY_BODY_FRAME_TOO_LARGE".
Definition RELAY_RESPONSE_FRAME_TOO_LARGE : jsstring := js "RELAY_RESPONSE_FRAME_TOO_LARGE".

Definition isRelayBodyFrame (raw : bytes) : bool := bool_decide (0 < length raw) && (get_byte 0 raw =? RELAY_BODY_MAGIC)%Z.
Definition isRelayResponseFrame (raw : bytes) : bool := bool_decide (0 < length raw) && (get_byte 0 raw =? RELAY_RESPONSE_MAGIC)%Z.

Definition encodeRelayBodyFrame (frame : RelayBodyFrame) : result jsstring bytes :=
  if (bf_bodyId frame <=? 0)%Z || (0xffffffff <? bf_bodyId frame)%Z then Throw relayBodyError else
  if (bf_offset frame <? 0)%Z || (0xffffffff <? bf_offset frame)%Z then Throw relayBodyError else
  if (RELAY_BODY_MAX_CHUNK_BYTES <? byteLength (bf_bytes frame))%Z then Throw RELAY_BODY_FRAME_TOO_LARGE else
  let encoded := Uint8Array (RELAY_BODY_HEADER_BYTES + length (bf_bytes frame)) in
  let encoded := set_byte 0 RELAY_BODY_MAGIC encoded in
  let encoded := set_byte 1 RELAY_BODY_VERSION encoded in
  let encoded := set_byte 2 (if bf_final frame then RELAY_BODY_FLAG_FINAL else 0) encoded in
  let encoded := setUint32 3 (bf_bodyId frame) encoded in
  let encoded := setUint32 7 (bf_offset frame) encoded in
  Ok (set_bytes (bf_bytes frame) RELAY_BODY_HEADER_BYTES encoded).

Definition decodeRelayBodyFrame (raw : bytes) : result jsstring RelayBodyFrame :=
  if bool_decide (length raw < RELAY_BODY_HEADER_BYTES) || negb (get_byte 0 raw =? RELAY_BODY_MAGIC)%Z
     || negb (get_byte 1 raw =? RELAY_BODY_VERSION)%Z then Throw relayBodyError else
  let flags := get_byte 2 raw in
  if negb (Z.land flags (Z.lnot RELAY_BODY_KNOWN_FLAGS) =? 0)%Z then Throw relayBodyError else
  let data := drop RELAY_BODY_HEADER_BYTES raw in
  if (RELAY_BODY_MAX_CHUNK_BYTES <? byteLength data)%Z then Throw RELAY_BODY_FRAME_TOO_LARGE else
  let bodyId := getUint32 3 raw in
  if (bodyId =? 0)%Z then Throw relayBodyError else
  Ok (BodyFrame bodyId (getUint32 7 raw) data (flag_set flags RELAY_BODY_FLAG_FINAL)).

Definition encodeRelayResponseFrame (frame : RelayResponseFrame) : result jsstring bytes :=
  if (sf_responseId frame <=? 0)%Z || (0xffffffff <? sf_responseId frame)%Z then Throw relayBodyError else
  if (sf_offset frame <? 0)%Z || (0xffffffff <? sf_offset frame)%Z then Throw relayBodyError else
  if (RELAY_BODY_MAX_CHUNK_BYTES <? byteLength (sf_bytes frame))%Z then Throw RELAY_RESPONSE_FRAME_TOO_LARGE else
  let encoded := Uint8Array (RELAY_BODY_HEADER_BYTES + length (sf_bytes frame)) in
  let encoded := set_byte 0 RELAY_RESPONSE_MAGIC encoded in
  let encoded := set_byte 1 RELAY_RESPONSE_VERSION encoded in
  let encoded := set_byte 2 (if sf_final frame then RELAY_BODY_FLAG_FINAL else 0) encoded in
  let encoded := setUint32 3 (sf_responseId frame) encoded in
  let encoded := setUint32 7 (sf_offset frame) encoded in
  Ok (set_bytes (sf_bytes frame) RELAY_BODY_HEADER_BYTES encoded).

Definition decodeRelayResponseFrame (raw : bytes) : result jsstring RelayResponseFrame :=
  if bool_decide (length raw < RELAY_BODY_HEADER_BYTES) || negb (get_byte 0 raw =? RELAY_RESPONSE_MAGIC)%Z
     || negb (get_byte 1 raw =? RELAY_RESPONSE_VERSION)%Z then Throw relayBodyError else
  let flags := get_byte 2 raw in
  if negb (Z.land flags (Z.lnot RELAY_BODY_KNOWN_FLAGS) =? 0)%Z then Throw relayBodyError else
  let data := drop RELAY_BODY_HEADER_BYTES raw in
  if (RELAY_BODY_MAX_CHUNK_BYTES <? byteLength data)%Z then Throw RELAY_RESPONSE_FRAME_TOO_LARGE else
  let responseId := getUint32 3 raw in
  if (responseId =? 0)%Z then Throw relayBodyError else
  Ok (ResponseFrame responseId (getUint32 7 raw) data (flag_set flags RELAY_BODY_FLAG_FINAL)).
