(* ===== verification/RelayFramesSpec.v ===== *)
(** * The frames of the relay are read as they were written

    Each encoder is shown to write a header of numbers followed by the bytes
    given; each decoder then reads the fields back, and what a decoder accepts
    is what the encoder writes. *)

From S2P Require Export RelayFrames.

(** ** Big-endian numbers *)

Lemma lor_shiftl_add (a b k : Z) : (0 <= k)%Z -> (0 <= b < 2 ^ k)%Z -> Z.lor (Z.shiftl a k) b = (a * 2 ^ k + b)%Z.
Proof.
  intros Hk Hb. rewrite <- Z.shiftl_mul_pow2 by done.
  assert (Hd : Z.land (Z.shiftl a k) b = 0%Z).
  { apply Z.bits_inj'. intros n Hn. rewrite Z.land_spec, Z.bits_0. destruct (decide (n < k)%Z) as [Hlt|Hge].
    - by rewrite Z.shiftl_spec_low.
    - assert (Hb' : (0 <= b < 2 ^ n)%Z) by (pose proof (Z.pow_le_mono_r 2 k n); lia).
      rewrite (Z.testbit_eqb b n), Z.div_small by done. apply andb_false_r. }
  rewrite Z.add_nocarry_lxor by done. by rewrite Z.lxor_lor.
Qed.

(** The four bytes of a 32-bit number. *)
Definition byte_of (v : Z) : N := Z.to_N (v mod 256).
Definition uint32_bytes (v : Z) : bytes := [byte_of (Z.shiftr v 24); byte_of (Z.shiftr v 16); byte_of (Z.shiftr v 8); byte_of v].

Definition is_uint32 (v : Z) : Prop := (0 <= v <= 0xffffffff)%Z.

Lemma byte_of_Z v : Z.of_N (byte_of v) = (v mod 256)%Z.
Proof. unfold byte_of. rewrite Z2N.id; [done|]. apply Z.mod_pos_bound. lia. Qed.

Lemma be32_value (a b c d : Z) :
  (0 <= a < 256 -> 0 <= b < 256 -> 0 <= c < 256 -> 0 <= d < 256 ->
   Z.lor (Z.shiftl a 24) (Z.lor (Z.shiftl b 16) (Z.lor (Z.shiftl c 8) d)) = a * 16777216 + b * 65536 + c * 256 + d)%Z.
Proof.
  intros Ha Hb Hc Hd. rewrite (lor_shiftl_add c d 8), (lor_shiftl_add b _ 16), (lor_shiftl_add a _ 24) by lia. lia.
Qed.

Lemma getUint32_bytes v pre post : is_uint32 v -> getUint32 (length pre) (pre ++ uint32_bytes v ++ post) = v.
Proof.
  intros Hv. unfold is_uint32 in Hv. unfold getUint32, get_byte.
  assert (Hi : forall i, (pre ++ uint32_bytes v ++ post) !! (length pre + i) = (uint32_bytes v ++ post) !! i).
  { intros i. rewrite lookup_app_r by lia. f_equal. lia. }
  rewrite <- (Nat.add_0_r (length pre)) at 1. rewrite !Hi. unfold uint32_bytes.
  cbn [app lookup list_lookup fmap option_fmap option_map default from_option id]. rewrite !byte_of_Z, !Z.shiftr_div_pow2 by lia.
  rewrite be32_value by (apply Z.mod_pos_bound; lia).
  change (2 ^ 8)%Z with 256%Z. change (2 ^ 16)%Z with (256 * 256)%Z. change (2 ^ 24)%Z with (256 * (256 * 256))%Z.
  rewrite <- !Z.div_div by lia. pose proof (Z.div_mod v 256 ltac:(lia)). pose proof (Z.div_mod (v / 256) 256 ltac:(lia)).
  pose proof (Z.div_mod (v / 256 / 256) 256 ltac:(lia)). rewrite (Z.mod_small (v / 256 / 256 / 256)) by div_lia. lia.
Qed.

Lemma uint32_bytes_get (a b c d : N) :
  is_byte a -> is_byte b -> is_byte c -> is_byte d ->
  let v := getUint32 0 [a; b; c; d] in is_uint32 v /\ uint32_bytes v = [a; b; c; d].
Proof.
  unfold is_byte. intros Ha Hb Hc Hd. unfold getUint32, get_byte. cbn [lookup list_lookup Nat.add fmap option_fmap option_map default from_option id].
  rewrite be32_value by lia. unfold is_uint32, uint32_bytes, byte_of. rewrite !Z.shiftr_div_pow2 by lia. split; [lia|].
  change (2 ^ 8)%Z with 256%Z. change (2 ^ 16)%Z with (256 * 256)%Z. change (2 ^ 24)%Z with (256 * (256 * 256))%Z.
  rewrite <- !Z.div_div by lia. set (v := (_ + _)%Z).
  assert (v / 256 = Z.of_N a * 65536 + Z.of_N b * 256 + Z.of_N c)%Z as H1 by (subst v; div_lia).
  assert (v / 256 / 256 = Z.of_N a * 256 + Z.of_N b)%Z as H2 by (rewrite H1; div_lia).
  assert (v / 256 / 256 / 256 = Z.of_N a)%Z as H3 by (rewrite H2; div_lia).
  rewrite H3, H2, H1. repeat f_equal; (apply N2Z.inj; rewrite Z2N.id by (apply Z.mod_pos_bound; lia); subst v; div_lia).
Qed.

(** ** The headers *)

Lemma set_bytes_header header rest data :
  length rest = length data -> set_bytes data (length header) (header ++ rest) = header ++ data.
Proof.
  intros Hl. unfold set_bytes. rewrite take_app_length. f_equal. rewrite drop_app_add, drop_ge by lia. by rewrite app_nil_r.
Qed.

Definition relay_header (flags : Z) (kind : RelayFrameKind) (sequence : Z) : bytes :=
  [0x52%N; 2%N; byte_of flags; byte_of (relayFrameKindCode kind)] ++ uint32_bytes sequence.
Definition data_header (flags streamId : Z) : bytes := [0xb2%N; 2%N; byte_of flags] ++ uint32_bytes streamId ++ [0%N].
Definition body_header (magic flags id offset : Z) : bytes :=
  [byte_of magic; 1%N; byte_of flags] ++ uint32_bytes id ++ uint32_bytes offset.

(** The checks of an encoder, and what it writes. *)
Definition relay_frame_ok (f : RelayFramePayload) : Prop :=
  is_uint32 (rf_sequence f) /\ (default 0 (rf_flags f) = 0 \/ default 0 (rf_flags f) = 1)%Z /\ (byteLength (rf_payload f) <= RELAY_FRAME_MAX_PAYLOAD_BYTES)%Z.

Lemma known_flags_1 flags : (0 <= flags)%Z -> Z.land flags (Z.lnot 1) = 0%Z <-> (flags = 0 \/ flags = 1)%Z.
Proof.
  intros Hf. rewrite <- Z.ldiff_land. change 1%Z with (Z.ones 1). rewrite Z.ldiff_ones_r by lia. rewrite Z.shiftr_div_pow2, Z.shiftl_mul_pow2 by lia.
  change (Z.ones 1) with 1%Z. change (2 ^ 1)%Z with 2%Z. split; intros; div_lia.
Qed.

Lemma known_flags_3 flags : (0 <= flags)%Z -> Z.land flags (Z.lnot 3) = 0%Z <-> (flags <= 3)%Z.
Proof.
  intros Hf. rewrite <- Z.ldiff_land. change 3%Z with (Z.ones 2). rewrite Z.ldiff_ones_r by lia. rewrite Z.shiftr_div_pow2, Z.shiftl_mul_pow2 by lia.
  change (Z.ones 2) with 3%Z. change (2 ^ 2)%Z with 4%Z. split; intros; div_lia.
Qed.

(** ** What the encoders write *)

Lemma guard_pass {A} (b : bool) (x y : A) : b = false -> (if b then x else y) = y.
Proof. by intros ->. Qed.

Lemma guard_Ok {E A} (b : bool) (e : E) (r : result E A) a : (if b then Throw e else r) = Ok a -> b = false /\ r = Ok a.
Proof. by destruct b. Qed.

Lemma uint32_guard v : ((v <? 0)%Z || (0xffffffff <? v)%Z) = false <-> is_uint32 v.
Proof. unfold is_uint32. rewrite orb_false_iff, !Z.ltb_ge. lia. Qed.

Lemma positive_guard v : ((v <=? 0)%Z || (0xffffffff <? v)%Z) = false <-> is_uint32 v /\ v <> 0%Z.
Proof. unfold is_uint32. rewrite orb_false_iff, Z.ltb_ge, Z.leb_gt. lia. Qed.

Lemma encodeRelayFrame_spec f bs :
  encodeRelayFrame f = Ok bs
  <-> relay_frame_ok f /\ bs = relay_header (default 0%Z (rf_flags f)) (rf_kind f) (rf_sequence f) ++ rf_payload f.
Proof.
  unfold encodeRelayFrame, relay_frame_ok. set (flags := default 0%Z (rf_flags f)).
  assert (Hw : set_bytes (rf_payload f) RELAY_FRAME_HEADER_BYTES (setUint32 4 (rf_sequence f)
      (set_byte 3 (relayFrameKindCode (rf_kind f)) (set_byte 2 flags (set_byte 1 RELAY_FRAME_VERSION (set_byte 0 RELAY_FRAME_MAGIC
        (Uint8Array (RELAY_FRAME_HEADER_BYTES + length (rf_payload f)))))))) = relay_header flags (rf_kind f) (rf_sequence f) ++ rf_payload f).
  { rewrite <- (set_bytes_header _ (replicate (length (rf_payload f)) 0%N) (rf_payload f)) by apply length_replicate. reflexivity. }
  split.
  - intros [Hs H]%guard_Ok. apply uint32_guard in Hs. apply guard_Ok in H as [Hf H]. apply guard_Ok in H as [Hl H]. propify.
    assert (flags = 0 \/ flags = 1)%Z by by apply known_flags_1.
    rewrite Hw in H. by injection H as <-.
  - intros [(Hs & Hf & Hl) ->]. rewrite guard_pass by by apply uint32_guard. rewrite guard_pass.
    + rewrite guard_pass by lia. by rewrite Hw.
    + destruct Hf as [-> | ->]; reflexivity.
Qed.

Definition data_flags (f : NodeRelayDataFrame) : Z :=
  Z.lor (if df_binary f then NODE_RELAY_DATA_FLAG_BINARY else 0) (if df_more f then NODE_RELAY_DATA_FLAG_MORE else 0).
Definition data_frame_ok (f : NodeRelayDataFrame) : Prop :=
  is_uint32 (df_streamId f) /\ (byteLength (df_data f) <= NODE_RELAY_DATA_MAX_BYTES)%Z.

Lemma encodeNodeRelayDataFrame_spec f bs :
  encodeNodeRelayDataFrame f = Ok bs <-> data_frame_ok f /\ bs = data_header (data_flags f) (df_streamId f) ++ df_data f.
Proof.
  unfold encodeNodeRelayDataFrame, data_frame_ok. fold (data_flags f).
  assert (Hw : set_bytes (df_data f) NODE_RELAY_DATA_HEADER_BYTES (setUint32 3 (df_streamId f) (set_byte 2 (data_flags f)
      (set_byte 1 NODE_RELAY_DATA_VERSION (set_byte 0 NODE_RELAY_DATA_MAGIC (Uint8Array (NODE_RELAY_DATA_HEADER_BYTES + length (df_data f)))))))
      = data_header (data_flags f) (df_streamId f) ++ df_data f).
  { rewrite <- (set_bytes_header _ (replicate (length (df_data f)) 0%N) (df_data f)) by apply length_replicate. reflexivity. }
  split.
  - intros [Hs H]%guard_Ok. apply uint32_guard in Hs. apply guard_Ok in H as [Hl H]. propify. rewrite Hw in H. by injection H as <-.
  - intros [(Hs & Hl) ->]. rewrite guard_pass by by apply uint32_guard. rewrite guard_pass by lia. by rewrite Hw.
Qed.

Definition body_frame_ok (id offset : Z) (data : bytes) : Prop :=
  is_uint32 id /\ id <> 0%Z /\ is_uint32 offset /\ (byteLength data <= RELAY_BODY_MAX_CHUNK_BYTES)%Z.
Definition final_flags (final : bool) : Z := if final then RELAY_BODY_FLAG_FINAL else 0.

(** The two encoders of bodies differ in their magic and their error. *)
Definition encode_body (magic : Z) (too_large : jsstring) (id offset : Z) (data : bytes) (final : bool) : result jsstring bytes :=
  if (id <=? 0)%Z || (0xffffffff <? id)%Z then Throw relayBodyError else
  if (offset <? 0)%Z || (0xffffffff <? offset)%Z then Throw relayBodyError else
  if (RELAY_BODY_MAX_CHUNK_BYTES <? byteLength data)%Z then Throw too_large else
  Ok (set_bytes data 11 (setUint32 7 offset (setUint32 3 id (set_byte 2 (final_flags final) (set_byte 1 1 (set_byte 0 magic
        (Uint8Array (11 + length data)))))))).

Lemma encode_body_spec magic too_large id offset data final bs :
  encode_body magic too_large id offset data final = Ok bs
  <-> body_frame_ok id offset data /\ bs = body_header magic (final_flags final) id offset ++ data.
Proof.
  unfold encode_body, body_frame_ok.
  assert (Hw : set_bytes data 11 (setUint32 7 offset (setUint32 3 id (set_byte 2 (final_flags final) (set_byte 1 1 (set_byte 0 magic
        (Uint8Array (11 + length data))))))) = body_header magic (final_flags final) id offset ++ data).
  { rewrite <- (set_bytes_header _ (replicate (length data) 0%N) data) by apply length_replicate. reflexivity. }
  split.
  - intros [Hi H]%guard_Ok. apply positive_guard in Hi as [Hi Hn]. apply guard_Ok in H as [Ho H]. apply uint32_guard in Ho.
    apply guard_Ok in H as [Hl H]. propify. rewrite Hw in H. by injection H as <-.
  - intros [(Hi & Hn & Ho & Hl) ->]. rewrite guard_pass by by apply positive_guard. rewrite guard_pass by by apply uint32_guard.
    rewrite guard_pass by lia. by rewrite Hw.
Qed.

(** ** What the decoders read *)

Lemma get_byte_header i h b t : h !! i = Some b -> get_byte i (h ++ t) = Z.of_N b.
Proof. intros H. unfold get_byte. by rewrite (lookup_app_l_Some _ _ _ _ H). Qed.

Lemma byte_of_small v : (0 <= v < 256)%Z -> Z.of_N (byte_of v) = v.
Proof. intros Hv. rewrite byte_of_Z. by apply Z.mod_small. Qed.

(** Every list of at least as many bytes starts with four bytes of a number. *)
Lemma uint32_split n (bs : bytes) :
  Forall is_byte bs -> n + 4 <= length bs ->
  exists v, is_uint32 v /\ bs = take n bs ++ uint32_bytes v ++ drop (n + 4) bs /\ getUint32 n bs = v.
Proof.
  intros Hb Hl. destruct (drop n bs) as [|a [|b [|c [|d t]]]] eqn:Hd;
    try (apply (f_equal length) in Hd; rewrite length_drop in Hd; simpl in Hd; lia).
  assert (Hd4 : drop (n + 4) bs = t) by (rewrite <- drop_drop, Hd; done).
  assert (Hf : Forall is_byte (a :: b :: c :: d :: t)) by (rewrite <- Hd; by apply Forall_drop).
  apply Forall_cons in Hf as [Ha Hf]. apply Forall_cons in Hf as [Hb' Hf]. apply Forall_cons in Hf as [Hc Hf]. apply Forall_cons in Hf as [Hd' _].
  destruct (uint32_bytes_get a b c d Ha Hb' Hc Hd') as [Hv Hbs]. exists (getUint32 0 [a; b; c; d]). split; [done|].
  assert (Hbs' : bs = take n bs ++ uint32_bytes (getUint32 0 [a; b; c; d]) ++ drop (n + 4) bs).
  { rewrite Hbs, Hd4. change ([a; b; c; d] ++ t) with (a :: b :: c :: d :: t). by rewrite <- Hd, take_drop. }
  split; [done|]. rewrite Hbs' at 1. replace n with (length (take n bs)) at 1 by (rewrite length_take; lia). by apply getUint32_bytes.
Qed.

Lemma kind_code_lookup kind : RELAY_FRAME_KINDS !! Z.to_nat (relayFrameKindCode kind) = Some kind /\ (0 <= relayFrameKindCode kind < 5)%Z.
Proof. destruct kind; (split; [done|compute; by split]). Qed.

Lemma lookup_kind_code b kind : RELAY_FRAME_KINDS !! Z.to_nat (Z.of_N b) = Some kind -> byte_of (relayFrameKindCode kind) = b.
Proof.
  replace (Z.to_nat (Z.of_N b)) with (N.to_nat b) by lia. intros H. pose proof (lookup_lt_Some _ _ _ H) as Hlt. simpl in Hlt.
  assert (Hb : (b = 0 \/ b = 1 \/ b = 2 \/ b = 3 \/ b = 4)%N) by lia.
  destruct Hb as [-> |[-> |[-> |[-> | ->]]]]; simpl in H; by injection H as <-.
Qed.

Lemma flags_byte (b : N) : is_byte b -> byte_of (Z.of_N b) = b.
Proof. unfold is_byte, byte_of. intros Hb. rewrite Z.mod_small by lia. apply N2Z.id. Qed.

Lemma byteLength_app a b : byteLength (a ++ b) = (byteLength a + byteLength b)%Z.
Proof. unfold byteLength. rewrite length_app. lia. Qed.

Lemma decode_encodeRelayFrame f bs :
  encodeRelayFrame f = Ok bs ->
  decodeRelayFrame bs = Ok (RelayFrame (rf_kind f) (rf_sequence f) (rf_payload f) (Some (default 0%Z (rf_flags f)))).
Proof.
  intros [(Hs & Hf & Hl) ->]%encodeRelayFrame_spec. unfold decodeRelayFrame, RELAY_FRAME_HEADER_BYTES. set (flags := default 0%Z (rf_flags f)) in *.
  rewrite guard_pass by by rewrite bool_decide_eq_false_2 by (rewrite length_app; simpl; lia).
  assert (H2 : get_byte 2 (relay_header flags (rf_kind f) (rf_sequence f) ++ rf_payload f) = flags).
  { etrans; [by apply get_byte_header|]. apply byte_of_small. lia. }
  rewrite H2, guard_pass by by destruct Hf as [-> | ->].
  destruct (kind_code_lookup (rf_kind f)) as [Hk Hr].
  assert (H3 : get_byte 3 (relay_header flags (rf_kind f) (rf_sequence f) ++ rf_payload f) = relayFrameKindCode (rf_kind f)).
  { etrans; [by apply get_byte_header|]. apply byte_of_small. lia. }
  rewrite H3, Hk, guard_pass by (rewrite byteLength_app; apply Z.ltb_ge; unfold byteLength in *; simpl; lia).
  unfold relay_header at 1. rewrite <- app_assoc. by rewrite (getUint32_bytes (rf_sequence f) [_; _; _; _]).
Qed.

Lemma encode_decodeRelayFrame f bs :
  Forall is_byte bs -> decodeRelayFrame bs = Ok f -> encodeRelayFrame f = Ok bs.
Proof.
  intros Hb [Hg H]%guard_Ok. rewrite !orb_false_iff, bool_decide_eq_false, !negb_false_iff, !Z.eqb_eq in Hg. destruct Hg as [[Hlen H0] H1].
  unfold RELAY_FRAME_HEADER_BYTES in *. apply guard_Ok in H as [Hf H]. rewrite negb_false_iff, Z.eqb_eq in Hf.
  destruct (RELAY_FRAME_KINDS !! _) as [kind|] eqn:Hk; [|done]. apply guard_Ok in H as [Hl H]. injection H as <-.
  destruct (uint32_split 4 bs Hb) as (v & Hv & Hbs & ->); [lia|].
  destruct bs as [|b0 [|b1 [|b2 [|b3 t]]]]; try (simpl in Hlen; lia).
  apply Forall_cons in Hb as [_ Hb]. apply Forall_cons in Hb as [_ Hb]. apply Forall_cons in Hb as [Hb2 Hb].
  unfold get_byte in H0, H1, Hf, Hk. simpl in H0, H1, Hf, Hk. unfold id in *.
  apply encodeRelayFrame_spec. unfold relay_frame_ok. cbn [rf_sequence rf_flags rf_payload rf_kind default from_option]. unfold id.
  split; [split_and!|].
  - done.
  - apply (known_flags_1 (Z.of_N b2)); [lia|done].
  - apply Z.ltb_ge in Hl. unfold byteLength in *. rewrite length_drop. lia.
  - rewrite Hbs at 1. unfold relay_header. change (byte_of (get_byte 2 _)) with (byte_of (Z.of_N b2)). rewrite (lookup_kind_code _ _ Hk), (flags_byte _ Hb2). simpl take.
    unfold RELAY_FRAME_MAGIC, RELAY_FRAME_VERSION in *. assert (b0 = 0x52%N) as -> by lia. assert (b1 = 2%N) as -> by lia.
    rewrite <- app_assoc. done.
Qed.

Lemma data_flags_bits f :
  (0 <= data_flags f <= 3)%Z /\ flag_set (data_flags f) NODE_RELAY_DATA_FLAG_BINARY = df_binary f
  /\ flag_set (data_flags f) NODE_RELAY_DATA_FLAG_MORE = df_more f.
Proof. unfold data_flags. destruct (df_binary f), (df_more f); (split; [compute; by split|done]). Qed.

Lemma decode_encodeNodeRelayDataFrame f bs :
  encodeNodeRelayDataFrame f = Ok bs -> decodeNodeRelayDataFrame bs = Ok f /\ isNodeRelayDataFrame bs = true.
Proof.
  intros [(Hs & Hl) ->]%encodeNodeRelayDataFrame_spec. split; [|done]. unfold decodeNodeRelayDataFrame, NODE_RELAY_DATA_HEADER_BYTES.
  destruct (data_flags_bits f) as (Hr & Hb & Hm).
  rewrite guard_pass by by rewrite bool_decide_eq_false_2 by (rewrite length_app; simpl; lia).
  assert (H2 : get_byte 2 (data_header (data_flags f) (df_streamId f) ++ df_data f) = data_flags f).
  { etrans; [by apply get_byte_header|]. apply byte_of_small. lia. }
  rewrite H2, Hb, Hm, guard_pass by (apply negb_false_iff, Z.eqb_eq, known_flags_3; lia).
  rewrite guard_pass by by apply Z.ltb_ge. unfold data_header at 1. rewrite <- !app_assoc.
  rewrite (getUint32_bytes (df_streamId f) [_; _; _]) by done. by destruct f.
Qed.

(** Everything but the unused byte 7 is determined. *)
Lemma encode_decodeNodeRelayDataFrame f bs :
  Forall is_byte bs -> decodeNodeRelayDataFrame bs = Ok f -> encodeNodeRelayDataFrame f = Ok (<[7 := 0%N]> bs).
Proof.
  intros Hb [Hg H]%guard_Ok. rewrite !orb_false_iff, bool_decide_eq_false, !negb_false_iff, !Z.eqb_eq in Hg. destruct Hg as [[Hlen H0] H1].
  unfold NODE_RELAY_DATA_HEADER_BYTES in *. apply guard_Ok in H as [Hf H]. rewrite negb_false_iff, Z.eqb_eq in Hf.
  apply guard_Ok in H as [Hl H]. injection H as <-.
  destruct (uint32_split 3 bs Hb) as (v & Hv & Hbs & ->); [lia|].
  destruct bs as [|b0 [|b1 [|b2 [|b3 [|b4 [|b5 [|b6 [|b7 t]]]]]]]]; try (simpl in Hlen; lia).
  apply Forall_cons in Hb as [_ Hb]. apply Forall_cons in Hb as [_ Hb]. apply Forall_cons in Hb as [Hb2 Hb].
  unfold get_byte in H0, H1. simpl in H0, H1. unfold id in *. change (get_byte 2 _) with (Z.of_N b2) in *.
  apply known_flags_3 in Hf; [|lia].
  apply encodeNodeRelayDataFrame_spec. unfold data_frame_ok. cbn [df_streamId df_data].
  split; [split; [done|by apply Z.ltb_ge in Hl]|].
  unfold data_header, data_flags. cbn [df_binary df_more df_streamId df_data].
  assert (Hfl : Z.lor (if flag_set (Z.of_N b2) NODE_RELAY_DATA_FLAG_BINARY then NODE_RELAY_DATA_FLAG_BINARY else 0)
                  (if flag_set (Z.of_N b2) NODE_RELAY_DATA_FLAG_MORE then NODE_RELAY_DATA_FLAG_MORE else 0) = Z.of_N b2).
  { assert (Hb' : (b2 = 0 \/ b2 = 1 \/ b2 = 2 \/ b2 = 3)%N) by lia. by destruct Hb' as [-> |[-> |[-> | ->]]]. }
  rewrite Hfl, (flags_byte _ Hb2). unfold NODE_RELAY_DATA_MAGIC, NODE_RELAY_DATA_VERSION in *.
  assert (b0 = 0xb2%N) as -> by lia. assert (b1 = 2%N) as -> by lia.
  simpl in Hbs. injection Hbs as Hb3 Hb4 Hb5 Hb6. simpl. by rewrite <- Hb3, <- Hb4, <- Hb5, <- Hb6.
Qed.

Definition decode_body (magic : Z) (too_large : jsstring) (raw : bytes) : result jsstring (Z * Z * bytes * bool) :=
  if bool_decide (length raw < 11) || negb (get_byte 0 raw =? magic)%Z || negb (get_byte 1 raw =? 1)%Z then Throw relayBodyError else
  if negb (Z.land (get_byte 2 raw) (Z.lnot RELAY_BODY_KNOWN_FLAGS) =? 0)%Z then Throw relayBodyError else
  if (RELAY_BODY_MAX_CHUNK_BYTES <? byteLength (drop 11 raw))%Z then Throw too_large else
  if (getUint32 3 raw =? 0)%Z then Throw relayBodyError else
  Ok (getUint32 3 raw, getUint32 7 raw, drop 11 raw, flag_set (get_byte 2 raw) RELAY_BODY_FLAG_FINAL).

Lemma decode_body_encode magic too_large id offset data final bs :
  (0 <= magic < 256)%Z -> encode_body magic too_large id offset data final = Ok bs ->
  decode_body magic too_large bs = Ok (id, offset, data, final) /\ get_byte 0 bs = magic.
Proof.
  intros Hmagic [(Hi & Hn & Ho & Hl) ->]%encode_body_spec. unfold decode_body.
  assert (H0 : get_byte 0 (body_header magic (final_flags final) id offset ++ data) = magic).
  { etrans; [by apply get_byte_header|]. by apply byte_of_small. }
  assert (H2 : get_byte 2 (body_header magic (final_flags final) id offset ++ data) = final_flags final).
  { etrans; [by apply get_byte_header|]. apply byte_of_small. by destruct final. }
  assert (Hu : getUint32 3 (body_header magic (final_flags final) id offset ++ data) = id).
  { unfold body_header. rewrite <- !app_assoc. by apply (getUint32_bytes id [_; _; _]). }
  assert (Ho' : getUint32 7 (body_header magic (final_flags final) id offset ++ data) = offset).
  { unfold body_header. rewrite <- !app_assoc, (app_assoc [_; _; _]). by apply (getUint32_bytes offset ([_; _; _] ++ uint32_bytes id)). }
  rewrite H0, H2, Hu, Ho', Z.eqb_refl. split; [|done].
  rewrite guard_pass by by rewrite bool_decide_eq_false_2 by (rewrite length_app; simpl; lia).
  rewrite guard_pass by by destruct final. rewrite guard_pass by by apply Z.ltb_ge. rewrite guard_pass by by apply Z.eqb_neq.
  by destruct final.
Qed.

Lemma encode_body_decode magic too_large id offset data final bs :
  (0 <= magic < 256)%Z -> Forall is_byte bs -> decode_body magic too_large bs = Ok (id, offset, data, final) ->
  encode_body magic too_large id offset data final = Ok bs.
Proof.
  intros Hmagic Hb [Hg H]%guard_Ok. rewrite !orb_false_iff, bool_decide_eq_false, !negb_false_iff, !Z.eqb_eq in Hg. destruct Hg as [[Hlen H0] H1].
  apply guard_Ok in H as [Hf H]. rewrite negb_false_iff, Z.eqb_eq in Hf. apply guard_Ok in H as [Hl H]. apply guard_Ok in H as [Hn H].
  injection H as <- <- <- <-. apply Z.eqb_neq in Hn. apply Z.ltb_ge in Hl.
  destruct (uint32_split 3 bs Hb) as (v & Hv & Hbs & Hgv); [lia|]. destruct (uint32_split 7 bs Hb) as (w & Hw & Hbs' & Hgw); [lia|].
  rewrite Hgv, Hgw in *. apply encode_body_spec. split; [done|].
  destruct bs as [|b0 [|b1 [|b2 t]]]; try (simpl in Hlen; lia).
  apply Forall_cons in Hb as [_ Hb]. apply Forall_cons in Hb as [_ Hb]. apply Forall_cons in Hb as [Hb2 Hb].
  unfold get_byte in H0, H1. simpl in H0, H1. unfold Datatypes.id in *. change (get_byte 2 _) with (Z.of_N b2) in *.
  apply known_flags_1 in Hf; [|lia]. unfold body_header.
  assert (Hfl : byte_of (final_flags (flag_set (Z.of_N b2) RELAY_BODY_FLAG_FINAL)) = b2).
  { assert (Hb' : (b2 = 0 \/ b2 = 1)%N) by lia. by destruct Hb' as [-> | ->]. }
  rewrite Hfl, <- H0, flags_byte by (unfold is_byte; lia). assert (b1 = 1%N) as -> by lia.
  assert (Ht : drop 7 (b0 :: 1%N :: b2 :: t) = uint32_bytes w ++ drop 11 (b0 :: 1%N :: b2 :: t)).
  { rewrite Hbs' at 1. rewrite drop_app_length'; [done|]. rewrite length_take. lia. }
  rewrite Hbs at 1. change (3 + 4) with 7. rewrite Ht, <- !app_assoc. done.
Qed.

Lemma decodeRelayBodyFrame_body bs :
  decodeRelayBodyFrame bs
  = (fun '(id, offset, data, final) => BodyFrame id offset data final) <$> decode_body RELAY_BODY_MAGIC RELAY_BODY_FRAME_TOO_LARGE bs.
Proof. unfold decodeRelayBodyFrame, decode_body, RELAY_BODY_HEADER_BYTES, RELAY_BODY_VERSION. by repeat case_match. Qed.

Lemma decodeRelayResponseFrame_body bs :
  decodeRelayResponseFrame bs
  = (fun '(id, offset, data, final) => ResponseFrame id offset data final) <$> decode_body RELAY_RESPONSE_MAGIC RELAY_RESPONSE_FRAME_TOO_LARGE bs.
Proof. unfold decodeRelayResponseFrame, decode_body, RELAY_BODY_HEADER_BYTES, RELAY_RESPONSE_VERSION. by repeat case_match. Qed.

Lemma decode_encodeRelayBodyFrame f bs :
  encodeRelayBodyFrame f = Ok bs -> decodeRelayBodyFrame bs = Ok f /\ isRelayBodyFrame bs = true.
Proof.
  intros H. apply (decode_body_encode RELAY_BODY_MAGIC RELAY_BODY_FRAME_TOO_LARGE) in H as [H H0]; [|done].
  rewrite decodeRelayBodyFrame_body, H. unfold isRelayBodyFrame. rewrite H0. split; [by destruct f|].
  destruct bs; [done|]. by rewrite bool_decide_eq_true_2 by (simpl; lia).
Qed.

Lemma encode_decodeRelayBodyFrame f bs :
  Forall is_byte bs -> decodeRelayBodyFrame bs = Ok f -> encodeRelayBodyFrame f = Ok bs.
Proof.
  intros Hb. rewrite decodeRelayBodyFrame_body. destruct (decode_body _ _ _) as [[[[id offset] data] final]|] eqn:H; [|done]. intros [= <-].
  by apply (encode_body_decode RELAY_BODY_MAGIC RELAY_BODY_FRAME_TOO_LARGE) in H.
Qed.

Lemma decode_encodeRelayResponseFrame f bs :
  encodeRelayResponseFrame f = Ok bs -> decodeRelayResponseFrame bs = Ok f /\ isRelayResponseFrame bs = true.
Proof.
  intros H. apply (decode_body_encode RELAY_RESPONSE_MAGIC RELAY_RESPONSE_FRAME_TOO_LARGE) in H as [H H0]; [|done].
  rewrite decodeRelayResponseFrame_body, H. unfold isRelayResponseFrame. rewrite H0. split; [by destruct f|].
  destruct bs; [done|]. by rewrite bool_decide_eq_true_2 by (simpl; lia).
Qed.

Lemma encode_decodeRelayResponseFrame f bs :
  Forall is_byte bs -> decodeRelayResponseFrame bs = Ok f -> encodeRelayResponseFrame f = Ok bs.
Proof.
  intros Hb. rewrite decodeRelayResponseFrame_body. destruct (decode_body _ _ _) as [[[[id offset] data] final]|] eqn:H; [|done]. intros [= <-].
  by apply (encode_body_decode RELAY_RESPONSE_MAGIC RELAY_RESPONSE_FRAME_TOO_LARGE) in H.
Qed.


(** The most significant byte first. *)
Example encodeRelayFrame_bytes :
  encodeRelayFrame (RelayFrame Data 0x01020304 [7%N; 8%N] None) = Ok [0x52; 2; 0; 1; 1; 2; 3; 4; 7; 8]%N
  /\ decodeRelayFrame [0x52; 2; 2; 1; 0; 0; 0; 0]%N = Throw relayFrameError
  /\ decodeNodeRelayDataFrame [0xb2; 2; 3; 0; 0; 1; 0; 99; 5]%N = Ok (DataFrame 256 [5%N] true true).
Proof. vm_compute. done. Qed.

