(* ===== verification/RelayChannel.v ===== *)
(** * The encrypted relay channel

    [EncryptedNodeRelayChannel] of
    [packages/runtime-shared/src/cloud-relay/node-relay-session.ts], with the
    session messages of [packages/protocol/src/node-relay-channel.ts].

    Between two events a channel runs without interruption, so each public
    method, timer and socket event is one function on its state.  What it does
    to the world (frames given to the socket, callbacks, resolved promises) is
    appended to [outputs].  A rejected [receive] reaches [fail] only in a later
    microtask: its error waits in [rejections].  The socket is an oracle: the
    n-th time it is asked, it answers as it likes.  [secretbox], [deflate] and
    [JSON.parse] are parameters. *)

From stdpp Require Import pretty.
From S2P Require Export RelayFrames.

(** ** Session messages *)

Inductive NodeRelaySessionMessage :=
| ChannelOpen (channelId : jsstring) (streamId : Z)
| ChannelAccept (channelId : jsstring) (streamId : Z)
| ChannelReject (channelId : jsstring) (code : jsstring) (message : option jsstring)
| ChannelClose (channelId : jsstring) (code : option Z) (reason : option jsstring)
| RelayPing
| RelayPong
| StreamPause (streamId : Z)
| StreamResume (streamId : Z).

Definition is_alphanumeric (c : N) : bool :=
  (bool_decide (48 <= c <= 57) || bool_decide (65 <= c <= 90) || bool_decide (97 <= c <= 122))%N.

(** [z.string().trim().min(1).max(120).regex(/^[a-zA-Z0-9][a-zA-Z0-9_.:-]*$/)]:
    schemas return the trimmed string. *)
Definition IdSchema (s : jsstring) : option jsstring :=
  let s := trim s in
  match s with
  | c :: rest =>
      if bool_decide (length s <= 120) && is_alphanumeric c
         && forallb (fun c => is_alphanumeric c || bool_decide (c ∈ js "_.:-")) rest then Some s else None
  | [] => None
  end.

Definition TrimmedSchema (min max : nat) (s : jsstring) : option jsstring :=
  let s := trim s in if bool_decide (min <= length s <= max) then Some s else None.

Definition optional {A} (schema : A -> option A) (o : option A) : option (option A) :=
  match o with None => Some None | Some a => Some <$> schema a end.

(** [z.number().int()] admits the safe integers. *)
Definition IntSchema (z : Z) : option Z := if bool_decide (- (2 ^ 53 - 1) <= z <= 2 ^ 53 - 1)%Z then Some z else None.
Definition StreamIdSchema (z : Z) : option Z := if bool_decide (0 <= z <= 0xffffffff)%Z then Some z else None.
Definition AuxStreamIdSchema (z : Z) : option Z := if bool_decide (0 < z <= 0xffffffff)%Z then Some z else None.

Definition NodeRelaySessionMessageSchema (m : NodeRelaySessionMessage) : option NodeRelaySessionMessage :=
  match m with
  | ChannelOpen channelId streamId => channelId ← IdSchema channelId; streamId ← AuxStreamIdSchema streamId; Some (ChannelOpen channelId streamId)
  | ChannelAccept channelId streamId => channelId ← IdSchema channelId; streamId ← AuxStreamIdSchema streamId; Some (ChannelAccept channelId streamId)
  | ChannelReject channelId code message =>
      channelId ← IdSchema channelId; code ← TrimmedSchema 1 120 code; message ← optional (TrimmedSchema 0 512) message;
      Some (ChannelReject channelId code message)
  | ChannelClose channelId code reason =>
      channelId ← IdSchema channelId; code ← optional IntSchema code; reason ← optional (TrimmedSchema 0 512) reason;
      Some (ChannelClose channelId code reason)
  | RelayPing => Some RelayPing
  | RelayPong => Some RelayPong
  | StreamPause streamId => StreamPause <$> StreamIdSchema streamId
  | StreamResume streamId => StreamResume <$> StreamIdSchema streamId
  end.

(** [JSON.stringify] of a message; absent properties are left out. *)
Definition json_property (key : string) (value : jsstring) : jsstring := json_stringify_string (js key) ++ js ":" ++ value.
Definition json_number (z : Z) : jsstring := js (pretty z).

Definition message_properties (m : NodeRelaySessionMessage) : list jsstring :=
  let kind s := json_property "type" (json_stringify_string (js s)) in
  let text key s := json_property key (json_stringify_string s) in
  let number key z := json_property key (json_number z) in
  let given {A} (f : A -> jsstring) (o : option A) := match o with Some a => [f a] | None => [] end in
  match m with
  | ChannelOpen channelId streamId => [kind "channel-open"; text "channelId" channelId; number "streamId" streamId]
  | ChannelAccept channelId streamId => [kind "channel-accept"; text "channelId" channelId; number "streamId" streamId]
  | ChannelReject channelId code message => [kind "channel-reject"; text "channelId" channelId; text "code" code] ++ given (text "message") message
  | ChannelClose channelId code reason =>
      [kind "channel-close"; text "channelId" channelId] ++ given (number "code") code ++ given (text "reason") reason
  | RelayPing => [kind "relay-ping"]
  | RelayPong => [kind "relay-pong"]
  | StreamPause streamId => [kind "stream-pause"; number "streamId" streamId]
  | StreamResume streamId => [kind "stream-resume"; number "streamId" streamId]
  end.

Fixpoint join_commas (l : list jsstring) : jsstring :=
  match l with [] => [] | [s] => s | s :: l => s ++ js "," ++ join_commas l end.

(** [Buffer.from(JSON.stringify(parsed))]. *)
Definition message_bytes (m : NodeRelaySessionMessage) : bytes :=
  utf8_encode (js "{" ++ join_commas (message_properties m) ++ js "}").

Definition is_channel_close (m : NodeRelaySessionMessage) : bool :=
  match m with ChannelClose _ _ _ => true | _ => false end.

(** ** Errors *)

Inductive channel_error :=
| SessionError (code : jsstring)
| FrameError (code : jsstring)
| DataFrameError (code : jsstring)
| LibraryError (message : jsstring).

Definition error_message (e : channel_error) : jsstring :=
  match e with
  | SessionError _ => js "Cloud relay node channel is invalid."
  | FrameError _ => js "Relay frame is invalid."
  | DataFrameError _ => js "Node relay data frame is invalid."
  | LibraryError message => message
  end.

Definition map_error {E F A} (f : E -> F) (r : result E A) : result F A :=
  match r with Ok a => Ok a | Throw e => Throw (f e) end.

(** ** State *)

Definition NODE_RELAY_SOCKET_MAX_BUFFERED_BYTES : Z := 2 * 1024 * 1024.
Definition NODE_RELAY_SOCKET_MAX_QUEUED_BYTES : Z := 16 * 1024 * 1024.
Definition NODE_RELAY_DATA_MAX_ASSEMBLIES : Z := 8.
Definition NODE_RELAY_DATA_MAX_ASSEMBLED_BYTES : Z := 16 * 1024 * 1024.

Record PendingNodeRelayWrite := PendingWrite { pw_payload : bytes; pw_flags : Z; pw_bytes : Z }.
Record NodeRelayDataAssembly := Assembly { as_binary : bool; as_bytes : Z; as_chunks : list bytes }.

Inductive channel_output :=
| SocketSend (frame : bytes)
| SocketClose (code : Z) (reason : jsstring)
| OnMessage (m : NodeRelaySessionMessage)
| OnData (f : NodeRelayDataFrame)
| OnError (e : channel_error)
| OnClosed (reason : jsstring)
| Resolved (waiter : nat).

(** The sending and the receiving half. *)
Record sender := Sender {
  sendSequence : Z;
  sendCounter : Z;
  outboundControl : list PendingNodeRelayWrite;
  outboundData : list PendingNodeRelayWrite;
  outboundCapacityWaiters : list nat;
  outboundBytes : Z;
  flushTimer : bool
}.
Record receiver := Receiver {
  receiveSequence : Z;
  receiveCounter : Z;
  dataAssemblies : jsmap Z NodeRelayDataAssembly
}.
Record channel := Channel {
  tx : sender;
  rx : receiver;
  channel_closed : bool;
  rejections : list channel_error;
  ticks : nat;
  outputs : list channel_output
}.

(** What the constructor is given; limits that are not positive are ignored. *)
Record channel_options := ChannelOptions {
  sendDirection : Z;
  receiveDirection : Z;
  has_onData : bool;
  maxStreams : option Z;
  maxBytes : option Z
}.

Definition positiveInteger (value : option Z) (fallback : Z) : Z :=
  match value with Some v => if (0 <? v)%Z then v else fallback | None => fallback end.
Definition dataAssemblyMaxStreams (o : channel_options) : Z := positiveInteger (maxStreams o) NODE_RELAY_DATA_MAX_ASSEMBLIES.
Definition dataAssemblyMaxBytes (o : channel_options) : Z := positiveInteger (maxBytes o) NODE_RELAY_DATA_MAX_ASSEMBLED_BYTES.

Definition new_channel : channel := Channel (Sender 1 0 [] [] [] 0 false) (Receiver 1 0 []) false [] 0 [].

Definition emit (o : channel_output) (s : channel) : channel :=
  Channel (tx s) (rx s) (channel_closed s) (rejections s) (ticks s) (outputs s ++ [o]).
Definition tick (s : channel) : channel :=
  Channel (tx s) (rx s) (channel_closed s) (rejections s) (S (ticks s)) (outputs s).
Definition with_tx (t : sender) (s : channel) : channel :=
  Channel t (rx s) (channel_closed s) (rejections s) (ticks s) (outputs s).
Definition with_rx (r : receiver) (s : channel) : channel :=
  Channel (tx s) r (channel_closed s) (rejections s) (ticks s) (outputs s).
Definition with_assemblies (m : jsmap Z NodeRelayDataAssembly) (s : channel) : channel :=
  with_rx (Receiver (receiveSequence (rx s)) (receiveCounter (rx s)) m) s.

(** A frame is sealed under a nonce of its direction and counter
    ([setBigUint64] at byte 16). *)
Definition sequenceNonce (direction counter : Z) : bytes :=
  setUint32 20 counter (setUint32 16 (Z.shiftr counter 32) (set_byte 0 direction (Uint8Array 24))).

(** The libraries a channel uses under its key, and one end of a relay: its
    options and its socket, asked with the number of questions so far. *)
Class RelayLibraries := {
  secretbox : bytes -> bytes -> bytes;
  secretbox_open : bytes -> bytes -> option bytes;
  deflate : bytes -> bytes;
  inflate : bytes -> result channel_error bytes;
  JSON_parse : bytes -> option NodeRelaySessionMessage
}.
Class RelayEnd := {
  options : channel_options;
  bufferedAmount : nat -> Z;
  socket_error : nat -> option channel_error;
  readyState : nat -> option Z
}.

Section Channel.
Context {L : RelayLibraries} {E : RelayEnd}.

(** ** Closing *)

Definition releaseOutboundCapacity (s : channel) : channel :=
  let t := tx s in
  if (NODE_RELAY_SOCKET_MAX_BUFFERED_BYTES <? outboundBytes t)%Z then s else
  Channel (Sender (sendSequence t) (sendCounter t) (outboundControl t) (outboundData t) [] (outboundBytes t) (flushTimer t))
    (rx s) (channel_closed s) (rejections s) (ticks s) (outputs s ++ (Resolved <$> outboundCapacityWaiters t)).

(** [socket.close] unless the socket is closing already. *)
Definition close_socket (code : Z) (reason : jsstring) (s : channel) : channel :=
  let writable := match readyState (ticks s) with None => true | Some state => (state <? 2)%Z end in
  let s := tick s in
  if writable then emit (SocketClose code (take 120 reason)) s else s.

Definition finish_channel (reason : jsstring) (failed : bool) (s : channel) : channel :=
  if channel_closed s then s else
  let t := tx s in
  let s := Channel (Sender (sendSequence t) (sendCounter t) [] [] (outboundCapacityWaiters t) 0 (flushTimer t))
             (Receiver (receiveSequence (rx s)) (receiveCounter (rx s)) []) true (rejections s) (ticks s) (outputs s) in
  let s := releaseOutboundCapacity s in
  let t := tx s in
  let s := with_tx (Sender (sendSequence t) (sendCounter t) [] [] (outboundCapacityWaiters t) (outboundBytes t) false) s in
  let s := emit (OnClosed reason) s in
  if failed then close_socket 4400 reason s else s.

Definition fail (e : channel_error) (s : channel) : channel :=
  if channel_closed s then s else finish_channel (error_message e) true (emit (OnError e) s).

Definition close_channel (reason : jsstring) (s : channel) : channel :=
  if channel_closed s then s else close_socket 1000 reason (finish_channel reason false s).

(** ** Sending *)

Definition sendPlaintext (payload : bytes) (flags : Z) (s : channel) : channel * result channel_error unit :=
  if channel_closed s then (s, Throw (SessionError (js "NODE_RELAY_CHANNEL_CLOSED"))) else
  let t := tx s in
  let sealed := secretbox payload (sequenceNonce (sendDirection options) (sendCounter t)) in
  let sequence := sendSequence t in
  let s := with_tx (Sender (sequence + 1) (sendCounter t + 1) (outboundControl t) (outboundData t) (outboundCapacityWaiters t)
                      (outboundBytes t) (flushTimer t)) s in
  match encodeRelayFrame (RelayFrame Data sequence sealed (Some flags)) with
  | Throw code => (s, Throw (FrameError code))
  | Ok frame =>
      match socket_error (ticks s) with
      | Some e => (tick s, Throw e)
      | None => (emit (SocketSend frame) (tick s), Ok tt)
      end
  end.

Definition set_flush_timer (b : bool) (s : channel) : channel :=
  let t := tx s in
  with_tx (Sender (sendSequence t) (sendCounter t) (outboundControl t) (outboundData t) (outboundCapacityWaiters t) (outboundBytes t) b) s.

(** [outboundControl.shift() ?? outboundData.shift()]. *)
Definition shift_write (t : sender) : option (PendingNodeRelayWrite * list PendingNodeRelayWrite * list PendingNodeRelayWrite) :=
  match outboundControl t, outboundData t with
  | w :: control, data => Some (w, control, data)
  | [], w :: data => Some (w, [], data)
  | [], [] => None
  end.

(** The loop of [flushOutbound], with fuel for each queued write. *)
Fixpoint flush_writes (fuel : nat) (s : channel) : channel :=
  match fuel, shift_write (tx s) with
  | S fuel, Some (next, control, data) =>
      if (NODE_RELAY_SOCKET_MAX_BUFFERED_BYTES <? bufferedAmount (ticks s))%Z then set_flush_timer true (tick s) else
      let s := tick s in
      let t := tx s in
      let s := with_tx (Sender (sendSequence t) (sendCounter t) control data (outboundCapacityWaiters t)
                          (outboundBytes t - pw_bytes next) (flushTimer t)) s in
      let s := releaseOutboundCapacity s in
      match sendPlaintext (pw_payload next) (pw_flags next) s with
      | (s, Throw e) => fail e s
      | (s, Ok tt) => flush_writes fuel s
      end
  | _, _ => s
  end.

Definition queued_writes (t : sender) : list PendingNodeRelayWrite := outboundControl t ++ outboundData t.

Definition flushOutbound (s : channel) : channel :=
  if channel_closed s || bool_decide (queued_writes (tx s) = []) then s else
  flush_writes (length (queued_writes (tx s))) (set_flush_timer false s).

Definition enqueuePlaintext (payload : bytes) (flags : Z) (control : bool) (s : channel) : channel * result channel_error unit :=
  if channel_closed s then (s, Throw (SessionError (js "NODE_RELAY_CHANNEL_CLOSED"))) else
  let t := tx s in
  let size := (byteLength payload + 40)%Z in
  if (NODE_RELAY_SOCKET_MAX_QUEUED_BYTES <? outboundBytes t + size)%Z then (s, Throw (SessionError (js "NODE_RELAY_BACKPRESSURE_LIMIT"))) else
  let w := PendingWrite payload flags size in
  let s := with_tx (Sender (sendSequence t) (sendCounter t)
                      (if control then outboundControl t ++ [w] else outboundControl t)
                      (if control then outboundData t else outboundData t ++ [w])
                      (outboundCapacityWaiters t) (outboundBytes t + size) (flushTimer t)) s in
  (flushOutbound s, Ok tt).

Definition send (message : NodeRelaySessionMessage) (s : channel) : channel * result channel_error unit :=
  match NodeRelaySessionMessageSchema message with
  | None => (s, Throw (LibraryError (js "invalid session message")))
  | Some parsed =>
      let '(payload, flags) := packRelayPayload deflate (message_bytes parsed) in
      enqueuePlaintext payload flags (negb (is_channel_close parsed)) s
  end.

(** The loop of [sendData], with fuel for each fragment. *)
Fixpoint send_fragments (fuel : nat) (streamId : Z) (data : bytes) (binary : bool) (offset : Z) (s : channel)
  : channel * result channel_error unit :=
  match fuel with
  | S fuel =>
      if (offset <? byteLength data)%Z then
        let stop := Z.min (offset + NODE_RELAY_DATA_MAX_BYTES) (byteLength data) in
        match encodeNodeRelayDataFrame (DataFrame streamId (subarray (Z.to_nat offset) (Z.to_nat stop) data) binary
                                          (stop <? byteLength data)%Z) with
        | Throw code => (s, Throw (DataFrameError code))
        | Ok plaintext =>
            let '(payload, flags) := if binary then (plaintext, 0%Z) else packRelayPayload deflate plaintext in
            match enqueuePlaintext payload flags false s with
            | (s, Throw e) => (s, Throw e)
            | (s, Ok tt) => send_fragments fuel streamId data binary (offset + NODE_RELAY_DATA_MAX_BYTES) s
            end
        end
      else (s, Ok tt)
  | O => (s, Ok tt)
  end.

(** [Math.ceil(bytes.byteLength / NODE_RELAY_DATA_MAX_BYTES)]. *)
Definition fragments (data : bytes) : Z := ((byteLength data + NODE_RELAY_DATA_MAX_BYTES - 1) / NODE_RELAY_DATA_MAX_BYTES)%Z.

(** Text is given as its UTF-8 bytes. *)
Definition sendData (streamId : Z) (data : bytes) (binary : bool) (s : channel) : channel * result channel_error unit :=
  if (NODE_RELAY_DATA_MAX_MESSAGE_BYTES <? byteLength data)%Z then (s, Throw (SessionError (js "NODE_RELAY_DATA_MESSAGE_TOO_LARGE"))) else
  if bool_decide (length data = 0) then
    match encodeNodeRelayDataFrame (DataFrame streamId data binary false) with
    | Throw code => (s, Throw (DataFrameError code))
    | Ok plaintext => enqueuePlaintext plaintext 0 false s
    end
  else
    let wireBytes := (byteLength data + fragments data * (Z.of_nat NODE_RELAY_DATA_HEADER_BYTES + 40))%Z in
    if (NODE_RELAY_SOCKET_MAX_QUEUED_BYTES <? outboundBytes (tx s) + wireBytes)%Z then (s, Throw (SessionError (js "NODE_RELAY_BACKPRESSURE_LIMIT"))) else
    send_fragments (Z.to_nat (fragments data)) streamId data binary 0 s.

(** The promise of [waiter] is resolved at once or when there is room. *)
Definition waitForOutboundCapacity (waiter : nat) (s : channel) : channel :=
  let t := tx s in
  if channel_closed s || (outboundBytes t <=? NODE_RELAY_SOCKET_MAX_BUFFERED_BYTES)%Z then emit (Resolved waiter) s else
  with_tx (Sender (sendSequence t) (sendCounter t) (outboundControl t) (outboundData t) (outboundCapacityWaiters t ++ [waiter])
             (outboundBytes t) (flushTimer t)) s.

(** The callback of the flush timer. *)
Definition flush_timer_fires (s : channel) : option channel :=
  if flushTimer (tx s) then Some (flushOutbound (set_flush_timer false s)) else None.

(** ** Receiving *)

Definition assembledBytes (m : jsmap Z NodeRelayDataAssembly) : Z := foldr (fun a n => as_bytes a + n)%Z 0%Z (mvalues m).

(** [Buffer.concat(chunks, length)] cuts or pads to the length. *)
Definition buffer_concat (chunks : list bytes) (size : Z) : bytes :=
  take (Z.to_nat size) (concat chunks) ++ replicate (Z.to_nat size - length (concat chunks)) 0%N.

Definition discardDataAssembly (streamId : Z) (s : channel) : channel :=
  with_assemblies (mdelete streamId (dataAssemblies (rx s))) s.

(** The assembly a fragment is added to is an object of the map: its size is
    counted before the limit is checked, its chunk is kept after. *)
Definition receive_fragment (f : NodeRelayDataFrame) (s : channel) : channel * result channel_error unit :=
  let assemblies := dataAssemblies (rx s) in
  let assembly := mget (df_streamId f) assemblies in
  let size := byteLength (df_data f) in
  if match assembly with Some a => negb (Bool.eqb (as_binary a) (df_binary f)) | None => false end
  then (s, Throw (SessionError (js "NODE_RELAY_DATA_FRAGMENT_INVALID"))) else
  if match assembly with Some _ => false | None => (dataAssemblyMaxStreams options <=? Z.of_nat (length assemblies))%Z end
  then (s, Throw (SessionError (js "NODE_RELAY_DATA_ASSEMBLY_LIMIT"))) else
  if (dataAssemblyMaxBytes options <? assembledBytes assemblies + size)%Z
  then (s, Throw (SessionError (js "NODE_RELAY_DATA_ASSEMBLY_BYTES_LIMIT"))) else
  let next := default (Assembly (df_binary f) 0 []) assembly in
  let total := (as_bytes next + size)%Z in
  if (NODE_RELAY_DATA_MAX_MESSAGE_BYTES <? total)%Z then
    (match assembly with
     | Some a => with_assemblies (mset (df_streamId f) (Assembly (as_binary a) total (as_chunks a)) assemblies) s
     | None => s
     end, Throw (SessionError (js "NODE_RELAY_DATA_MESSAGE_TOO_LARGE")))
  else (with_assemblies (mset (df_streamId f) (Assembly (as_binary next) total (as_chunks next ++ [df_data f])) assemblies) s, Ok tt).

Definition receive_final (f : NodeRelayDataFrame) (s : channel) : channel * result channel_error unit :=
  let assemblies := dataAssemblies (rx s) in
  match mget (df_streamId f) assemblies with
  | Some a =>
      if negb (Bool.eqb (as_binary a) (df_binary f)) then (s, Throw (SessionError (js "NODE_RELAY_DATA_FRAGMENT_INVALID"))) else
      let total := (as_bytes a + byteLength (df_data f))%Z in
      if (NODE_RELAY_DATA_MAX_MESSAGE_BYTES <? total)%Z then
        (with_assemblies (mset (df_streamId f) (Assembly (as_binary a) total (as_chunks a)) assemblies) s,
         Throw (SessionError (js "NODE_RELAY_DATA_MESSAGE_TOO_LARGE")))
      else
        (emit (OnData (DataFrame (df_streamId f) (buffer_concat (as_chunks a ++ [df_data f]) total) (as_binary a) false))
           (discardDataAssembly (df_streamId f) s), Ok tt)
  | None => (emit (OnData f) s, Ok tt)
  end.

Definition receive_data (plaintext : bytes) (s : channel) : channel * result channel_error unit :=
  if negb (has_onData options) then (s, Throw (SessionError (js "NODE_RELAY_DATA_FRAME_UNSUPPORTED"))) else
  match decodeNodeRelayDataFrame plaintext with
  | Throw code => (s, Throw (DataFrameError code))
  | Ok f => if df_more f then receive_fragment f s else receive_final f s
  end.

Definition receive_message (json : bytes) (s : channel) : channel * result channel_error unit :=
  if bool_decide (length json = 0) || negb (get_byte 0 json =? 0x7b)%Z then (s, Throw (SessionError (js "NODE_RELAY_FRAME_PAYLOAD_INVALID"))) else
  match JSON_parse json ≫= NodeRelaySessionMessageSchema with
  | None => (s, Throw (LibraryError (js "invalid session message")))
  | Some message => (emit (OnMessage message) s, Ok tt)
  end.

Definition receive_plaintext (plaintext : bytes) (s : channel) : channel * result channel_error unit :=
  if isNodeRelayDataFrame plaintext then receive_data plaintext s else receive_message plaintext s.

Definition receive (raw : bytes) (isBinary : bool) (s : channel) : channel * result channel_error unit :=
  if channel_closed s then (s, Ok tt) else
  if negb isBinary then (s, Throw (SessionError (js "NODE_RELAY_FRAME_ENCODING_INVALID"))) else
  match decodeRelayFrame raw with
  | Throw code => (s, Throw (FrameError code))
  | Ok frame =>
      match rf_kind frame with
      | CloseFrame => (finish_channel (js "peer-closed") false s, Ok tt)
      | Data =>
          let r := rx s in
          let s := with_rx (Receiver (receiveSequence r + 1) (receiveCounter r) (dataAssemblies r)) s in
          if negb (rf_sequence frame =? receiveSequence r)%Z then (s, Throw (SessionError (js "NODE_RELAY_FRAME_SEQUENCE_INVALID"))) else
          let s := with_rx (Receiver (receiveSequence r + 1) (receiveCounter r + 1) (dataAssemblies r)) s in
          match secretbox_open (rf_payload frame) (sequenceNonce (receiveDirection options) (receiveCounter r)) with
          | None => (s, Throw (SessionError (js "NODE_RELAY_DECRYPT_FAILED")))
          | Some opened =>
              match unpackRelayPayload inflate opened (default 0%Z (rf_flags frame)) with
              | Throw e => (s, Throw e)
              | Ok plaintext => receive_plaintext plaintext s
              end
          end
      | _ => (s, Throw (SessionError (js "NODE_RELAY_FRAME_KIND_INVALID")))
      end
  end.

(** ** Events *)

Definition reject (e : channel_error) (s : channel) : channel :=
  Channel (tx s) (rx s) (channel_closed s) (rejections s ++ [e]) (ticks s) (outputs s).

(** [void this.receive(...).catch((error) => this.fail(error))]. *)
Definition on_message (raw : bytes) (isBinary : bool) (s : channel) : channel :=
  match receive raw isBinary s with (s, Ok tt) => s | (s, Throw e) => reject e s end.

(** The microtask of a rejection. *)
Definition handle_rejection (s : channel) : option channel :=
  match rejections s with
  | e :: rest => Some (fail e (Channel (tx s) (rx s) (channel_closed s) rest (ticks s) (outputs s)))
  | [] => None
  end.

(** An assembly in the map has its idle timer running. *)
Definition assembly_timer_fires (streamId : Z) (s : channel) : option channel :=
  match mget streamId (dataAssemblies (rx s)) with
  | Some _ => Some (fail (SessionError (js "NODE_RELAY_DATA_ASSEMBLY_TIMEOUT")) (discardDataAssembly streamId s))
  | None => None
  end.

Inductive channel_op :=
| OpSend (message : NodeRelaySessionMessage)
| OpSendData (streamId : Z) (data : bytes) (binary : bool)
| OpClose (reason : jsstring)
| OpWait (waiter : nat)
| OpDiscard (streamId : Z)
| OpFlushTimer
| OpAssemblyTimer (streamId : Z)
| OpMessage (raw : bytes) (isBinary : bool)
| OpRejection
| OpCallbackRejects (e : channel_error)
| OpSocketClosed
| OpSocketError (e : channel_error).

(** What a call returns; events return nothing, and a timer that is not
    running does not fire. *)
Definition channel_step (op : channel_op) (s : channel) : channel * result channel_error unit :=
  match op with
  | OpSend message => send message s
  | OpSendData streamId data binary => sendData streamId data binary s
  | OpClose reason => (close_channel reason s, Ok tt)
  | OpWait waiter => (waitForOutboundCapacity waiter s, Ok tt)
  | OpDiscard streamId => (discardDataAssembly streamId s, Ok tt)
  | OpFlushTimer => (default s (flush_timer_fires s), Ok tt)
  | OpAssemblyTimer streamId => (default s (assembly_timer_fires streamId s), Ok tt)
  | OpMessage raw isBinary => (on_message raw isBinary s, Ok tt)
  | OpRejection => (default s (handle_rejection s), Ok tt)
  | OpCallbackRejects e => (reject e s, Ok tt)
  | OpSocketClosed => (finish_channel (js "channel-closed") false s, Ok tt)
  | OpSocketError e => (fail e s, Ok tt)
  end.

Definition run_channel (ops : list channel_op) (s : channel) : channel := foldl (fun s op => (channel_step op s).1) s ops.
End Channel.
