(* ===== verification/RelayChannelSpec.v ===== *)
(** * What a relay channel keeps

    Whatever is called, received or fails, in any order: the queues are
    counted and bounded, whatever is queued has a timer that will send it, no
    one waits for room that is there, and a closed channel holds nothing. *)

From S2P Require Export RelayChannel RelayFramesSpec.

Definition bytes_queued (ws : list PendingNodeRelayWrite) : Z := foldr (fun w n => pw_bytes w + n)%Z 0%Z ws.
Definition chunk_bytes (a : NodeRelayDataAssembly) : Z := byteLength (concat (as_chunks a)).
Definition held_bytes (m : jsmap Z NodeRelayDataAssembly) : Z := Z.of_nat (sum_list_with (fun e => length (concat (as_chunks e.2))) m).

Lemma bytes_queued_app a b : bytes_queued (a ++ b) = (bytes_queued a + bytes_queued b)%Z.
Proof. induction a as [|w a IH]; simpl; [done|]. rewrite IH. lia. Qed.

(** ** The sending half *)

Record sender_ok (t : sender) : Prop := SenderOk {
  tx_counted : outboundBytes t = bytes_queued (queued_writes t);
  tx_sizes : Forall (fun w => pw_bytes w = byteLength (pw_payload w) + 40)%Z (queued_writes t);
  tx_bounded : (outboundBytes t <= NODE_RELAY_SOCKET_MAX_QUEUED_BYTES)%Z;
  tx_waiters : outboundCapacityWaiters t <> [] -> (NODE_RELAY_SOCKET_MAX_BUFFERED_BYTES < outboundBytes t)%Z
}.

(** Between two events: the timer runs exactly when something is queued. *)
Definition timer_ok (t : sender) : Prop := flushTimer t = true <-> queued_writes t <> [].

(** ** The receiving half *)

Record receiver_ok (max_streams max_bytes : Z) (rejected : bool) (r : receiver) : Prop := ReceiverOk {
  rx_wf : map_wf (dataAssemblies r);
  rx_streams : (Z.of_nat (length (dataAssemblies r)) <= max_streams)%Z;
  rx_held : (held_bytes (dataAssemblies r) <= max_bytes)%Z;
  rx_each id a : mget id (dataAssemblies r) = Some a ->
    (chunk_bytes a <= as_bytes a /\ chunk_bytes a <= NODE_RELAY_DATA_MAX_MESSAGE_BYTES)%Z;
  rx_exact id a : rejected = false -> mget id (dataAssemblies r) = Some a -> as_bytes a = chunk_bytes a
}.

Definition closed_ok (s : channel) : Prop :=
  queued_writes (tx s) = [] /\ outboundBytes (tx s) = 0%Z /\ outboundCapacityWaiters (tx s) = [] /\ flushTimer (tx s) = false
  /\ dataAssemblies (rx s) = [].

(** ** The wire

    The frames given to the socket are those of a list of writes, each marked
    as control or not: the i-th has sequence i + 1 and is sealed under the
    nonce of counter i. *)

Definition wire (s : channel) : list bytes :=
  omap (fun o => match o with SocketSend frame => Some frame | _ => None end) (outputs s).

Definition writes_of (control : bool) (log : list (bool * PendingNodeRelayWrite)) : list PendingNodeRelayWrite :=
  (filter (fun w => w.1 = control) log).*2.

Lemma writes_of_snoc b log c w :
  writes_of b (log ++ [(c, w)]) = writes_of b log ++ (if decide (c = b) then [w] else []).
Proof. unfold writes_of. rewrite filter_app, fmap_app, filter_cons, filter_nil. simpl. by case_decide. Qed.

Section Channel.
Context {L : RelayLibraries} {E : RelayEnd}.

Definition frame_of (i : nat) (w : bool * PendingNodeRelayWrite) : result jsstring bytes :=
  encodeRelayFrame (RelayFrame Data (Z.of_nat i + 1)
    (secretbox (pw_payload w.2) (sequenceNonce (sendDirection options) (Z.of_nat i))) (Some (pw_flags w.2))).

(** All that was ever queued, control and data, is on the wire or still
    queued, each in its order. *)
Definition queue_ok (closed : bool) (t : sender) (frames : list bytes) (control data : list PendingNodeRelayWrite) : Prop :=
  exists log restC restD, imap frame_of log = Ok <$> frames
    /\ control = writes_of true log ++ restC /\ data = writes_of false log ++ restD
    /\ (closed = false -> sendSequence t = (Z.of_nat (length log) + 1)%Z /\ sendCounter t = Z.of_nat (length log)
                         /\ restC = outboundControl t /\ restD = outboundData t).

Lemma queue_ok_closed b t t' fs C D : queue_ok b t fs C D -> queue_ok true t' fs C D.
Proof. intros (log & c & d & H1 & H2 & H3 & _). by exists log, c, d. Qed.

Record channel_ok (s : channel) (C D : list PendingNodeRelayWrite) : Prop := ChannelOk {
  ok_queue : queue_ok (channel_closed s) (tx s) (wire s) C D;
  ok_sender : channel_closed s = false -> sender_ok (tx s);
  ok_receiver : channel_closed s = false ->
    receiver_ok (dataAssemblyMaxStreams options) (dataAssemblyMaxBytes options) (negb (bool_decide (rejections s = []))) (rx s);
  ok_closed : channel_closed s = true -> closed_ok s
}.
Definition settled (s : channel) : Prop := channel_closed s = false -> timer_ok (tx s).


Lemma wire_emit o s : wire (emit o s) = wire s ++ (match o with SocketSend frame => [frame] | _ => [] end).
Proof. unfold wire. simpl. rewrite omap_app. by destruct o. Qed.

Lemma wire_resolved s t r b rej n ws :
  wire (Channel t r b rej n (outputs s ++ (Resolved <$> ws))) = wire s.
Proof. unfold wire. simpl. rewrite omap_app. induction ws as [|w ws IH]; simpl; [by rewrite app_nil_r|done]. Qed.

(** ** Closing *)

Lemma close_socket_same code reason s :
  tx (close_socket code reason s) = tx s /\ rx (close_socket code reason s) = rx s
  /\ channel_closed (close_socket code reason s) = channel_closed s /\ wire (close_socket code reason s) = wire s
  /\ rejections (close_socket code reason s) = rejections s.
Proof.
  unfold close_socket. destruct (match readyState _ with None => _ | Some _ => _ end); [|done].
  rewrite wire_emit, app_nil_r. done.
Qed.

Lemma finish_open reason failed s :
  channel_closed s = false ->
  let s' := finish_channel reason failed s in
  channel_closed s' = true /\ closed_ok s' /\ wire s' = wire s /\ rejections s' = rejections s.
Proof.
  intros Hc. unfold finish_channel. rewrite Hc. cbv zeta.
  set (s1 := emit _ _).
  assert (H1 : channel_closed s1 = true /\ closed_ok s1 /\ wire s1 = wire s /\ rejections s1 = rejections s).
  { subst s1. unfold releaseOutboundCapacity. cbn [tx outboundBytes]. rewrite (proj2 (Z.ltb_ge _ _)) by (unfold NODE_RELAY_SOCKET_MAX_BUFFERED_BYTES; lia).
    rewrite wire_emit, app_nil_r. split_and!; [done| | |done].
    - unfold closed_ok. simpl. done.
    - unfold with_tx. cbn [tx rx channel_closed rejections ticks outputs]. apply wire_resolved. }
  destruct failed; [|done]. destruct (close_socket_same 4400 reason s1) as (Ht & Hr & Hcl & Hw & Hj). destruct H1 as (H1 & H2 & H3 & H4).
  rewrite Hcl, Hw, Hj. split_and!; [done| |done|done]. unfold closed_ok in *. by rewrite Ht, Hr.
Qed.

Lemma finish_ok reason failed s C D :
  queue_ok true (tx s) (wire s) C D -> (channel_closed s = true -> closed_ok s) ->
  channel_ok (finish_channel reason failed s) C D /\ channel_closed (finish_channel reason failed s) = true.
Proof.
  intros Hq Hclosed. destruct (channel_closed s) eqn:Hc.
  - assert (finish_channel reason failed s = s) as -> by (unfold finish_channel; by rewrite Hc).
    split; [|done]. constructor; rewrite ?Hc; [done|done|done|done].
  - destruct (finish_open reason failed s Hc) as (H1 & H2 & H3 & H4). split; [|done].
    constructor; rewrite ?H1, ?H3; [by eapply queue_ok_closed|done|done|done].
Qed.

Lemma fail_ok e s C D :
  queue_ok true (tx s) (wire s) C D -> (channel_closed s = true -> closed_ok s) ->
  channel_ok (fail e s) C D /\ channel_closed (fail e s) = true.
Proof.
  intros Hq Hclosed. unfold fail. destruct (channel_closed s) eqn:Hc.
  - split; [|done]. constructor; rewrite ?Hc; [done|done|done|done].
  - apply finish_ok; [|by intros H; simpl in H; congruence]. by rewrite wire_emit, app_nil_r.
Qed.

Lemma close_ok reason s C D :
  channel_ok s C D -> channel_ok (close_channel reason s) C D /\ channel_closed (close_channel reason s) = true.
Proof.
  intros Hok. unfold close_channel. destruct (channel_closed s) eqn:Hc; [done|].
  destruct (finish_ok reason false s C D (queue_ok_closed _ _ _ _ _ _ (ok_queue _ _ _ Hok)) (ok_closed _ _ _ Hok)) as [Hf Hfc].
  destruct (close_socket_same 1000 reason (finish_channel reason false s)) as (Ht & Hr & Hcl & Hw & Hj).
  rewrite Hcl. split; [|done]. destruct Hf as [Hq _ _ Hcl']. constructor; rewrite ?Hcl, ?Ht, ?Hw, ?Hfc; [by rewrite Hfc in Hq|done|done|].
  intros _. destruct (Hcl' Hfc) as (? & ? & ? & ? & ?). unfold closed_ok. by rewrite Ht, Hr.
Qed.

(** ** Flushing *)

Lemma shift_write_queue t w c d :
  shift_write t = Some (w, c, d) ->
  queued_writes t = w :: c ++ d
  /\ exists b : bool, outboundControl t = (if b then w :: c else c) /\ outboundData t = (if b then d else w :: d).
Proof.
  unfold shift_write, queued_writes. destruct (outboundControl t) as [|w' c'] eqn:Hc.
  - destruct (outboundData t) as [|w' d']; [done|]. intros [= -> <- ->]. split; [done|]. by exists false.
  - intros [= -> -> ->]. split; [done|]. by exists true.
Qed.

Lemma shift_write_None t : shift_write t = None -> queued_writes t = [].
Proof. unfold shift_write, queued_writes. destruct (outboundControl t), (outboundData t); naive_solver. Qed.

Lemma release_tx s :
  let t := tx (releaseOutboundCapacity s) in
  sendSequence t = sendSequence (tx s) /\ sendCounter t = sendCounter (tx s) /\ outboundControl t = outboundControl (tx s)
  /\ outboundData t = outboundData (tx s) /\ outboundBytes t = outboundBytes (tx s) /\ flushTimer t = flushTimer (tx s)
  /\ (outboundCapacityWaiters t <> [] -> (NODE_RELAY_SOCKET_MAX_BUFFERED_BYTES < outboundBytes t)%Z).
Proof. unfold releaseOutboundCapacity. destruct (_ <? _)%Z eqn:Hb; simpl; split_and!; try done. intros _. by apply Z.ltb_lt. Qed.

Lemma release_same s :
  let s' := releaseOutboundCapacity s in
  rx s' = rx s /\ channel_closed s' = channel_closed s /\ rejections s' = rejections s /\ wire s' = wire s /\ ticks s' = ticks s.
Proof. unfold releaseOutboundCapacity. destruct (_ <? _)%Z; [done|]. split_and!; try done. apply wire_resolved. Qed.

(** What is left of a queue after its first write. *)
Lemma sender_ok_shift t w c d t' :
  sender_ok t -> queued_writes t = w :: c ++ d -> outboundControl t' = c -> outboundData t' = d ->
  outboundBytes t' = (outboundBytes t - pw_bytes w)%Z ->
  (outboundCapacityWaiters t' <> [] -> (NODE_RELAY_SOCKET_MAX_BUFFERED_BYTES < outboundBytes t')%Z) -> sender_ok t'.
Proof.
  intros [Hcount Hsizes Hb _] Hq Hc Hd Hbytes Hw. assert (Hq' : queued_writes t' = c ++ d) by (unfold queued_writes; by rewrite Hc, Hd).
  rewrite Hq in Hcount, Hsizes. apply Forall_cons in Hsizes as [Hw0 Hsizes]. simpl in Hcount.
  constructor; rewrite ?Hq', ?Hbytes; [lia|done| |by rewrite <- Hbytes].
  unfold byteLength in Hw0. lia.
Qed.

Lemma imap_frame_snoc log fs w frame :
  imap frame_of log = Ok <$> fs -> frame_of (length log) w = Ok frame -> imap frame_of (log ++ [w]) = Ok <$> (fs ++ [frame]).
Proof. intros H1 H2. rewrite imap_app, fmap_app, H1. simpl. by rewrite Nat.add_0_r, H2. Qed.

Lemma sender_nonneg t : sender_ok t -> Forall (fun w => 40 <= pw_bytes w)%Z (queued_writes t) /\ (0 <= outboundBytes t)%Z.
Proof.
  intros [Hc Hs _ _]. assert (Hf : Forall (fun w => 40 <= pw_bytes w)%Z (queued_writes t)).
  { eapply Forall_impl; [exact Hs|]. intros w Hw. cbn beta in Hw. unfold byteLength in Hw. lia. }
  split; [done|]. rewrite Hc. clear Hs Hc. induction Hf; simpl; lia.
Qed.

Lemma flush_writes_ok fuel s C D :
  fuel = length (queued_writes (tx s)) -> channel_closed s = false -> flushTimer (tx s) = false -> channel_ok s C D ->
  let s' := flush_writes fuel s in
  channel_ok s' C D /\ settled s' /\ rejections s' = rejections s /\ (channel_closed s' = false -> rx s' = rx s)
  /\ (outboundBytes (tx s') <= outboundBytes (tx s))%Z.
Proof.
  revert s. induction fuel as [|fuel IH]; intros s Hfuel Hcl Htimer Hok; simpl.
  { split_and!; try done. intros _. unfold timer_ok. rewrite Htimer. destruct (queued_writes (tx s)); [naive_solver|done]. }
  destruct (shift_write (tx s)) as [[[w c] d]|] eqn:Hshift; [|apply shift_write_None in Hshift; by rewrite Hshift in Hfuel].
  apply shift_write_queue in Hshift as (Hq & b & Hc & Hd). destruct (_ <? bufferedAmount _)%Z.
  { assert (Hsame : queued_writes (tx (set_flush_timer true (tick s))) = queued_writes (tx s)) by done.
    destruct Hok as [(log & rc & rd & H1 & H2 & H3 & H4) Hs Hr _]. split_and!; [|by intros _; unfold timer_ok; rewrite Hsame, Hq|done|done|done].
    constructor; [by exists log, rc, rd|intros _; destruct (Hs Hcl); by constructor|done|intros H; simpl in H; congruence]. }
  set (s1 := with_tx _ (tick s)). pose proof (release_tx s1) as Ht. pose proof (release_same s1) as Hsame. cbv zeta in Ht, Hsame.
  set (s2 := releaseOutboundCapacity s1) in *. clearbody s2. subst s1.
  unfold with_tx, tick in Ht, Hsame. cbn [tx rx channel_closed rejections ticks outputs sendSequence sendCounter outboundControl outboundData outboundBytes flushTimer] in Ht, Hsame.
  destruct Ht as (Hseq & Hcount & Hct & Hdt & Hbytes & Hflush & Hwait). destruct Hsame as (Hrx & Hcl2 & Hrej & Hwire & Htick).
  assert (Hwire2 : wire s2 = wire s) by exact Hwire. clear Hwire.
  destruct Hok as [(log & rc & rd & H1 & H2 & H3 & H4) Hs Hr _]. destruct (H4 Hcl) as (Hl1 & Hl2 & -> & ->). clear H4.
  assert (Hs2 : sender_ok (tx s2)) by (eapply sender_ok_shift; [apply Hs, Hcl|exact Hq|done|done|done|done]).
  assert (Hkeep : forall t, queue_ok true t (wire s2) C D).
  { intros t. rewrite Hwire2. exists log, (outboundControl (tx s)), (outboundData (tx s)). done. }
  unfold sendPlaintext. rewrite Hcl2, Hcl. cbv zeta. rewrite Hseq, Hcount, Hl1, Hl2.
  assert (Hfail : forall e s3, channel_closed s3 = false -> wire s3 = wire s2 -> rejections s3 = rejections s ->
    let s' := fail e s3 in channel_ok s' C D /\ settled s' /\ rejections s' = rejections s /\ (channel_closed s' = false -> rx s' = rx s)
    /\ (outboundBytes (tx s') <= outboundBytes (tx s))%Z).
  { intros e s3 Hc3 Hw3 Hr3 s'. destruct (fail_ok e s3 C D) as [Hf Hfc]; [by rewrite Hw3|congruence|].
    subst s'. split_and!; [done|by unfold settled; rewrite Hfc| |by rewrite Hfc|].
    2: { destruct (ok_closed _ _ _ Hf Hfc) as (_ & -> & _). by apply sender_nonneg, Hs. }
    unfold fail. rewrite Hc3. destruct (finish_open (error_message e) true (emit (OnError e) s3) Hc3) as (_ & _ & _ & Hj).
    by rewrite Hj. }
  destruct (encodeRelayFrame _) as [frame|code] eqn:Hframe; [|apply Hfail; [by simpl; rewrite Hcl2|done|done]].
  destruct (socket_error _) as [e|]; [apply Hfail; [by simpl; rewrite Hcl2|done|done]|].
  set (s3 := emit _ _). destruct (IH s3) as (I1 & I2 & I3 & I4 & I5).
  - simpl. unfold queued_writes in *. simpl. rewrite Hct, Hdt. rewrite Hq in Hfuel. simpl in Hfuel. lia.
  - simpl. by rewrite Hcl2.
  - simpl. by rewrite Hflush.
  - constructor.
    + exists (log ++ [(b, w)]), c, d. rewrite !writes_of_snoc. unfold s3. rewrite wire_emit. change (wire (tick (with_tx _ s2))) with (wire s2).
      rewrite Hwire2. split_and!.
      * by apply imap_frame_snoc.
      * rewrite H2, Hc. destruct b; simpl; by rewrite <- ?app_assoc, ?app_nil_r.
      * rewrite H3, Hd. destruct b; simpl; by rewrite <- ?app_assoc, ?app_nil_r.
      * intros _. simpl. rewrite length_app. simpl. split_and!; [lia|lia|done|done].
    + intros _. simpl. destruct Hs2. by constructor.
    + intros _. simpl. rewrite Hrej, Hrx. by apply Hr.
    + simpl. rewrite Hcl2, Hcl. done.
  - rewrite I3. split_and!; [done|done|simpl; by rewrite Hrej|intros Ho; rewrite (I4 Ho); simpl; by rewrite Hrx|].
    etrans; [exact I5|]. simpl. rewrite Hbytes. destruct (sender_nonneg _ (Hs Hcl)) as [Hf _]. rewrite Hq in Hf.
    apply Forall_cons in Hf as [Hf _]. lia.
Qed.

Lemma flushOutbound_ok s C D :
  channel_ok s C D ->
  let s' := flushOutbound s in
  channel_ok s' C D /\ (settled s \/ queued_writes (tx s) <> [] -> settled s') /\ rejections s' = rejections s
  /\ (channel_closed s' = false -> rx s' = rx s) /\ (outboundBytes (tx s') <= outboundBytes (tx s))%Z.
Proof.
  intros Hok. unfold flushOutbound. destruct (channel_closed s) eqn:Hcl; simpl.
  { split_and!; try done. intros _ ?. congruence. }
  case_bool_decide as Hq; [split_and!; try done; by intros [?|?]|].
  destruct (flush_writes_ok (length (queued_writes (tx s))) (set_flush_timer false s) C D) as (H1 & H2 & H3 & H4 & H5); try done.
  destruct Hok as [H1 H2 H3 H4]. constructor; [done| |done|]; simpl.
  - intros Ho. destruct (H2 Ho). by constructor.
  - congruence.
Qed.

(** ** Queueing *)

Definition write_of (payload : bytes) (flags : Z) : PendingNodeRelayWrite := PendingWrite payload flags (byteLength payload + 40).

Lemma enqueue_ok payload flags (control : bool) s C D s' r :
  channel_ok s C D -> settled s -> enqueuePlaintext payload flags control s = (s', r) ->
  settled s' /\ rejections s' = rejections s /\ (channel_closed s' = false -> rx s' = rx s)
  /\ match r with
     | Ok _ => channel_ok s' (if control then C ++ [write_of payload flags] else C) (if control then D else D ++ [write_of payload flags])
               /\ (outboundBytes (tx s') <= outboundBytes (tx s) + (byteLength payload + 40))%Z
     | Throw e => s' = s /\ (channel_closed s = true \/ (NODE_RELAY_SOCKET_MAX_QUEUED_BYTES < outboundBytes (tx s) + (byteLength payload + 40))%Z)
     end.
Proof.
  intros Hok Hset. unfold enqueuePlaintext. destruct (channel_closed s) eqn:Hcl; [intros [= <- <-]; split_and!; by try left|].
  destruct (_ <? _)%Z eqn:Hroom; [intros [= <- <-]; split_and!; try done; right; by apply Z.ltb_lt|]. apply Z.ltb_ge in Hroom.
  intros [= <- <-]. fold (write_of payload flags). set (w := write_of payload flags).
  match goal with |- context [flushOutbound ?x] => set (s1 := x) end.
  assert (Hq : queued_writes (tx s1) = (outboundControl (tx s) ++ (if control then [w] else [])) ++ (outboundData (tx s) ++ if control then [] else [w])).
  { unfold queued_writes, s1. simpl. destruct control; by rewrite ?app_nil_r. }
  destruct (flushOutbound_ok s1 (if control then C ++ [w] else C) (if control then D else D ++ [w])) as (H1 & H2 & H3 & H4 & H5).
  - destruct Hok as [(log & rc & rd & G1 & G2 & G3 & G4) Hs Hr _]. destruct (G4 Hcl) as (G5 & G6 & -> & ->). constructor.
    + exists log, (outboundControl (tx s1)), (outboundData (tx s1)). unfold s1. cbn [tx with_tx outboundControl outboundData].
      rewrite G2, G3. destruct control; rewrite <- ?app_assoc; split_and!; done.
    + intros _. destruct (Hs Hcl) as [K1 K2 K3 K4]. unfold queued_writes in K1, K2. rewrite bytes_queued_app in K1. apply Forall_app in K2 as [K2 K2'].
      constructor; rewrite ?Hq; unfold s1; simpl.
      * rewrite !bytes_queued_app. destruct control; simpl; lia.
      * rewrite !Forall_app. destruct control; split_and!; try done; by constructor.
      * done.
      * intros Hw. specialize (K4 Hw). pose proof (Zle_0_nat (length payload)). unfold byteLength. lia.
    + intros _. by apply Hr.
    + unfold s1. simpl. congruence.
  - split_and!; [apply H2; right; rewrite Hq; by destruct control, (outboundControl (tx s)), (outboundData (tx s))|done|done|done|done].
Qed.

(** ** Messages as writes *)

Definition packed (plaintext : bytes) : PendingNodeRelayWrite :=
  let '(payload, flags) := packRelayPayload deflate plaintext in write_of payload flags.
Definition message_write (m : NodeRelaySessionMessage) : PendingNodeRelayWrite := packed (message_bytes m).

Definition frame_plaintext (f : NodeRelayDataFrame) : bytes := data_header (data_flags f) (df_streamId f) ++ df_data f.
Definition frame_write (f : NodeRelayDataFrame) : PendingNodeRelayWrite :=
  if df_binary f then write_of (frame_plaintext f) 0 else packed (frame_plaintext f).

Lemma pack_length plaintext payload flags :
  packRelayPayload deflate plaintext = (payload, flags) -> (byteLength payload <= byteLength plaintext)%Z.
Proof. unfold packRelayPayload. repeat case_match; intros [= <- <-]; propify; lia. Qed.

Lemma frame_plaintext_length f : byteLength (frame_plaintext f) = (byteLength (df_data f) + 8)%Z.
Proof. unfold frame_plaintext. rewrite byteLength_app. change (byteLength (data_header _ _)) with 8%Z. lia. Qed.

(** The fragments of a message from [offset] on, as the loop makes them. *)
Fixpoint fragment_frames (fuel : nat) (streamId : Z) (data : bytes) (binary : bool) (offset : Z) : list NodeRelayDataFrame :=
  match fuel with
  | S fuel =>
      if (offset <? byteLength data)%Z then
        let stop := Z.min (offset + NODE_RELAY_DATA_MAX_BYTES) (byteLength data) in
        DataFrame streamId (subarray (Z.to_nat offset) (Z.to_nat stop) data) binary (stop <? byteLength data)%Z
        :: fragment_frames fuel streamId data binary (offset + NODE_RELAY_DATA_MAX_BYTES)
      else []
  | O => []
  end.

Definition message_frames (streamId : Z) (data : bytes) (binary : bool) : list NodeRelayDataFrame :=
  if bool_decide (length data = 0) then [DataFrame streamId data binary false]
  else fragment_frames (Z.to_nat (fragments data)) streamId data binary 0.

(** Fragments of one message: the last one says so. *)
Inductive frames_of (streamId : Z) (binary : bool) : list NodeRelayDataFrame -> bytes -> Prop :=
| frames_last d : frames_of streamId binary [DataFrame streamId d binary false] d
| frames_more d fs rest : frames_of streamId binary fs rest -> frames_of streamId binary (DataFrame streamId d binary true :: fs) (d ++ rest).

Definition frames_size (fs : list NodeRelayDataFrame) : Z := foldr (fun f n => byteLength (df_data f) + 48 + n)%Z 0%Z fs.

Lemma fragment_frames_spec fuel streamId data binary offset :
  (0 <= offset)%Z -> (byteLength data - offset <= Z.of_nat fuel * NODE_RELAY_DATA_MAX_BYTES)%Z ->
  let fs := fragment_frames fuel streamId data binary offset in
  ((offset < byteLength data)%Z -> frames_of streamId binary fs (drop (Z.to_nat offset) data))
  /\ (frames_size fs <= Z.max 0 (byteLength data - offset) + 48 * Z.of_nat fuel)%Z
  /\ Forall (fun f => df_streamId f = streamId /\ df_binary f = binary /\ byteLength (df_data f) <= NODE_RELAY_DATA_MAX_BYTES)%Z fs.
Proof.
  unfold NODE_RELAY_DATA_MAX_BYTES. revert offset. induction fuel as [|fuel IH]; intros offset Ho Hf; simpl.
  { split_and!; [intros; unfold byteLength in *; lia|lia|constructor]. }
  destruct (offset <? byteLength data)%Z eqn:Hlt; [apply Z.ltb_lt in Hlt|apply Z.ltb_ge in Hlt; split_and!; [lia|simpl; lia|constructor]].
  unfold NODE_RELAY_DATA_MAX_BYTES. change (768 * 1024)%Z with 786432%Z in *. destruct (IH (offset + 786432)%Z) as (I1 & I2 & I3); [lia|lia|].
  unfold byteLength in *. set (stop := Z.min _ _) in *.
  assert (Hlen : Z.of_nat (length (subarray (Z.to_nat offset) (Z.to_nat stop) data)) = (stop - offset)%Z).
  { unfold subarray. rewrite length_take, length_drop. lia. }
  split_and!.
  - intros _. destruct (stop <? _)%Z eqn:Hstop.
    + apply Z.ltb_lt in Hstop. assert (stop = offset + 786432)%Z as Hs by lia.
      assert (drop (Z.to_nat offset) data = subarray (Z.to_nat offset) (Z.to_nat stop) data ++ drop (Z.to_nat (offset + 786432)) data) as ->.
      { unfold subarray. replace (Z.to_nat (offset + 786432)) with (Z.to_nat offset + (Z.to_nat stop - Z.to_nat offset)) by lia.
        rewrite <- drop_drop. by rewrite take_drop. }
      constructor. apply I1. lia.
    + apply Z.ltb_ge in Hstop. assert (Hd : drop (Z.to_nat offset) data = subarray (Z.to_nat offset) (Z.to_nat stop) data).
      { unfold subarray. rewrite take_ge; [done|]. rewrite length_drop. lia. }
      rewrite Hd. assert (fragment_frames fuel streamId data binary (offset + 786432) = []) as ->; [|constructor].
      destruct fuel; [done|]. simpl. by rewrite (proj2 (Z.ltb_ge _ _)) by (unfold byteLength; lia).
  - simpl. unfold byteLength. rewrite Hlen. lia.
  - constructor; [|done]. simpl. unfold byteLength. split_and!; [done|done|]. rewrite Hlen. lia.
Qed.

Lemma message_frames_spec streamId data binary :
  frames_of streamId binary (message_frames streamId data binary) data
  /\ (frames_size (message_frames streamId data binary) <= byteLength data + 48 * Z.max 1 (fragments data))%Z
  /\ Forall (fun f => df_streamId f = streamId /\ df_binary f = binary /\ byteLength (df_data f) <= NODE_RELAY_DATA_MAX_BYTES)%Z
       (message_frames streamId data binary).
Proof.
  unfold message_frames. case_bool_decide as Hl.
  - destruct data; [|done]. split_and!; [constructor|simpl; unfold byteLength; simpl; lia|by repeat constructor].
  - assert (Hpos : (0 < byteLength data)%Z) by (unfold byteLength; lia).
    assert (Hfr : (byteLength data <= fragments data * NODE_RELAY_DATA_MAX_BYTES /\ 1 <= fragments data)%Z).
    { unfold fragments, NODE_RELAY_DATA_MAX_BYTES. div_lia. }
    destruct (fragment_frames_spec (Z.to_nat (fragments data)) streamId data binary 0) as (H1 & H2 & H3); [lia|lia|].
    split_and!; [by apply H1|lia|done].
Qed.

(** ** What the sending methods do *)

Lemma encode_frame f :
  is_uint32 (df_streamId f) -> (byteLength (df_data f) <= NODE_RELAY_DATA_MAX_BYTES)%Z -> encodeNodeRelayDataFrame f = Ok (frame_plaintext f).
Proof. intros H1 H2. by apply encodeNodeRelayDataFrame_spec. Qed.

Lemma encode_frame_refused f : ~ is_uint32 (df_streamId f) -> exists code, encodeNodeRelayDataFrame f = Throw code.
Proof.
  intros Hn. destruct (encodeNodeRelayDataFrame f) as [bs|code] eqn:He; [|by exists code].
  by apply encodeNodeRelayDataFrame_spec in He as [[? _] _].
Qed.

Lemma send_ok m s C D s' r :
  channel_ok s C D -> settled s -> send m s = (s', r) ->
  settled s' /\ rejections s' = rejections s /\ (channel_closed s' = false -> rx s' = rx s)
  /\ match r with
     | Ok _ => exists parsed, NodeRelaySessionMessageSchema m = Some parsed
                 /\ channel_ok s' (if is_channel_close parsed then C else C ++ [message_write parsed])
                      (if is_channel_close parsed then D ++ [message_write parsed] else D)
     | Throw _ => s' = s
     end.
Proof.
  intros Hok Hset. unfold send. destruct (NodeRelaySessionMessageSchema m) as [parsed|]; [|by intros [= <- <-]].
  unfold message_write, packed. destruct (packRelayPayload deflate (message_bytes parsed)) as [payload flags] eqn:Hp. intros Hs.
  destruct (enqueue_ok _ _ _ _ _ _ _ _ Hok Hset Hs) as (H1 & H2 & H3 & H4). split_and!; [done|done|done|].
  destruct r as [u|e]; [|by destruct H4]. exists parsed. split; [done|]. destruct H4 as [H4 _]. rewrite Hp. by destruct (is_channel_close parsed).
Qed.

Lemma send_fragments_closed fuel streamId data binary offset s :
  channel_closed s = true -> (send_fragments fuel streamId data binary offset s).1 = s.
Proof.
  intros Hc. destruct fuel as [|fuel]; [done|]. simpl. destruct (_ <? _)%Z; [|done]. destruct (encodeNodeRelayDataFrame _); [|done].
  destruct (if binary then _ else _). unfold enqueuePlaintext. by rewrite Hc.
Qed.

(** Fragments that have room are all queued, unless the channel closes. *)
Lemma send_fragments_ok fuel streamId data binary offset s C D s' r :
  (0 <= offset)%Z -> (byteLength data - offset <= Z.of_nat fuel * NODE_RELAY_DATA_MAX_BYTES)%Z ->
  channel_ok s C D -> settled s ->
  let fs := fragment_frames fuel streamId data binary offset in
  (outboundBytes (tx s) + frames_size fs <= NODE_RELAY_SOCKET_MAX_QUEUED_BYTES)%Z ->
  send_fragments fuel streamId data binary offset s = (s', r) ->
  settled s' /\ rejections s' = rejections s /\ (channel_closed s' = false -> rx s' = rx s)
  /\ (exists queued rest, fs = queued ++ rest /\ channel_ok s' C (D ++ (frame_write <$> queued))
      /\ (r = Ok tt -> rest = []) /\ (r <> Ok tt -> rest <> [] /\ (channel_closed s' = true \/ (~ is_uint32 streamId /\ s' = s)))
      /\ (queued <> [] -> is_uint32 streamId))
  /\ (is_uint32 streamId \/ r <> Ok tt \/ fs = []).
Proof.
  revert offset s D. induction fuel as [|fuel IH]; intros offset s D Ho Hf Hok Hset fs Hroom.
  { intros [= <- <-]. split_and!; try done; [|by right; right]. exists [], []. rewrite fmap_nil, (app_nil_r D). split_and!; [done|done|done|congruence|done]. }
  subst fs. simpl in *. destruct (offset <? byteLength data)%Z eqn:Hlt; [apply Z.ltb_lt in Hlt|].
  2: { intros [= <- <-]. split_and!; try done; [|by right; right]. exists [], []. rewrite fmap_nil, (app_nil_r D). split_and!; [done|done|done|congruence|done]. }
  destruct (fragment_frames_spec (S fuel) streamId data binary offset Ho Hf) as (_ & _ & Hall). simpl in Hall.
  rewrite (proj2 (Z.ltb_lt _ _) Hlt) in Hall. apply Forall_cons in Hall as [(_ & _ & Hlen) _].
  set (f := DataFrame _ _ _ _) in *. set (rest := fragment_frames fuel _ _ _ _) in *.
  destruct (decide (is_uint32 streamId)) as [Hid|Hid].
  2: { destruct (encode_frame_refused f Hid) as [code ->]. intros [= <- <-]. split_and!; try done; [|by right; left].
       exists [], (f :: rest). rewrite fmap_nil, (app_nil_r D). split_and!; [done|done|done|by intros _; split; [|right]|done]. }
  rewrite (encode_frame f Hid Hlen).
  destruct (if binary then _ else _) as [payload flags] eqn:Hp.
  assert (Hw : frame_write f = write_of payload flags).
  { unfold frame_write, packed. simpl. destruct binary; [by injection Hp as <- <-|by rewrite Hp]. }
  assert (Hpl : (byteLength payload + 40 <= byteLength (df_data f) + 48)%Z).
  { pose proof (frame_plaintext_length f) as Hfl. destruct binary; [injection Hp as <- <-; lia|]. apply pack_length in Hp. lia. }
  assert (Hrest : (0 <= frames_size rest)%Z).
  { clear. induction rest as [|g rest IH]; simpl; [done|]. pose proof (Zle_0_nat (length (df_data g))). unfold byteLength. lia. }
  change (frames_size (f :: rest)) with (byteLength (df_data f) + 48 + frames_size rest)%Z in Hroom. destruct (enqueuePlaintext payload flags false s) as [s1 r1] eqn:Henq.
  destruct (enqueue_ok _ _ _ _ _ _ _ _ Hok Hset Henq) as (H1 & H2 & H3 & H4). destruct r1 as [[]|e].
  - destruct H4 as [H4 Hb]. intros Hs. destruct (IH (offset + NODE_RELAY_DATA_MAX_BYTES)%Z s1 (D ++ [write_of payload flags])) as (I1 & I2 & I3 & I4 & I5).
    + unfold NODE_RELAY_DATA_MAX_BYTES in *. lia.
    + unfold NODE_RELAY_DATA_MAX_BYTES in *. lia.
    + done.
    + done.
    + fold rest. lia.
    + exact Hs.
    + fold rest in I4, I5. split_and!; [done|congruence| | |by left].
      * intros Hc. rewrite (I3 Hc). apply H3. destruct (channel_closed s1) eqn:Hc1; [|done]. pose proof (send_fragments_closed fuel streamId data binary
          (offset + NODE_RELAY_DATA_MAX_BYTES) s1 Hc1) as Hsame. rewrite Hs in Hsame. simpl in Hsame. congruence.
      * destruct I4 as (q & rs & Hfs & Hcq & Hr & He & _). exists (f :: q), rs. rewrite fmap_cons, Hw. rewrite <- app_assoc in Hcq.
        split_and!; [by rewrite Hfs|done|done| |done]. intros Hne. destruct (He Hne) as [? [?|[? _]]]; [by split; [|left]|done].
  - destruct H4 as [-> H4]. intros [= <- <-]. split_and!; try done; [|by right; left].
    exists [], (f :: rest). rewrite fmap_nil, (app_nil_r D). split_and!; [done|done|done| |done]. intros _. split; [done|]. left.
    destruct H4 as [?|?]; [done|lia].
Qed.

Lemma sendData_ok streamId data binary s C D s' r :
  channel_ok s C D -> settled s -> sendData streamId data binary s = (s', r) ->
  let fs := message_frames streamId data binary in
  settled s' /\ rejections s' = rejections s /\ (channel_closed s' = false -> rx s' = rx s)
  /\ (exists queued rest, fs = queued ++ rest /\ channel_ok s' C (D ++ (frame_write <$> queued))
      /\ (r = Ok tt -> rest = []) /\ (r <> Ok tt -> rest <> [] /\ (s' = s \/ channel_closed s' = true))
      /\ (queued <> [] -> is_uint32 streamId /\ byteLength data <= NODE_RELAY_DATA_MAX_MESSAGE_BYTES)%Z).
Proof.
  intros Hok Hset Hs fs. destruct (message_frames_spec streamId data binary) as (Hframes & Hsize & Hall). fold fs in Hframes, Hsize, Hall.
  assert (Hrefused : s' = s -> r <> Ok tt -> settled s' /\ rejections s' = rejections s /\ (channel_closed s' = false -> rx s' = rx s)
    /\ (exists queued rest, fs = queued ++ rest /\ channel_ok s' C (D ++ (frame_write <$> queued))
      /\ (r = Ok tt -> rest = []) /\ (r <> Ok tt -> rest <> [] /\ (s' = s \/ channel_closed s' = true))
      /\ (queued <> [] -> is_uint32 streamId /\ byteLength data <= NODE_RELAY_DATA_MAX_MESSAGE_BYTES)%Z)).
  { intros -> Hne. split_and!; try done. exists [], fs. rewrite fmap_nil, (app_nil_r D). split_and!; try done. intros _.
    split; [|by left]. intros Hnil. rewrite Hnil in Hframes. inversion Hframes. }
  unfold sendData in Hs. destruct (_ <? byteLength data)%Z eqn:Hmax; [injection Hs as <- <-; by apply Hrefused|]. apply Z.ltb_ge in Hmax.
  unfold message_frames in fs. case_bool_decide as Hl.
  - assert (Hlen : (byteLength data <= NODE_RELAY_DATA_MAX_BYTES)%Z) by (unfold byteLength; rewrite Hl; done).
    destruct (decide (is_uint32 streamId)) as [Hid|Hid].
    2: { destruct (encode_frame_refused (DataFrame streamId data binary false) Hid) as [code He]. rewrite He in Hs. injection Hs as <- <-. by apply Hrefused. }
    rewrite encode_frame in Hs by done. destruct (enqueue_ok _ _ _ _ _ _ _ _ Hok Hset Hs) as (H1 & H2 & H3 & H4). destruct r as [[]|e].
    + split_and!; [done|done|done|]. exists fs, []. rewrite app_nil_r. split_and!; [done| |done|done|done]. destruct H4 as [H4 _].
      assert (Hp : packed (frame_plaintext (DataFrame streamId data binary false)) = write_of (frame_plaintext (DataFrame streamId data binary false)) 0).
      { unfold packed, packRelayPayload. rewrite frame_plaintext_length. cbn [df_data]. unfold byteLength. by rewrite Hl. }
      subst fs. simpl. unfold frame_write. rewrite Hp. by destruct (df_binary _).
    + destruct H4 as [-> _]. by apply Hrefused.
  - destruct (_ <? _)%Z eqn:Hroom; [injection Hs as <- <-; by apply Hrefused|]. apply Z.ltb_ge in Hroom.
    assert (Hfr : (byteLength data <= fragments data * NODE_RELAY_DATA_MAX_BYTES /\ 1 <= fragments data)%Z).
    { unfold byteLength, fragments, NODE_RELAY_DATA_MAX_BYTES, byteLength. div_lia. }
    unfold NODE_RELAY_DATA_HEADER_BYTES in Hroom.
    destruct (send_fragments_ok (Z.to_nat (fragments data)) streamId data binary 0 s C D s' r) as (H1 & H2 & H3 & H4 & H5); [lia|lia|done|done|fold fs; lia|done|].
    fold fs in H4, H5. split_and!; [done|done|done|]. destruct H4 as (q & rest & Hq & Hc & Hr & He & Hid). exists q, rest. split_and!; [done|done|done| |].
    + intros Hne. destruct (He Hne) as [Hrest [?|[_ ?]]]; [by split; [|right]|by split; [|left]].
    + intros Hne. split; [by apply Hid|done].
Qed.

(** ** Receiving *)

Definition Rx (rejected : bool) : receiver -> Prop := receiver_ok (dataAssemblyMaxStreams options) (dataAssemblyMaxBytes options) rejected.

Lemma chunk_bytes_snoc b n cs c :
  chunk_bytes (Assembly b n (cs ++ [c])) = (byteLength (concat cs) + byteLength c)%Z.
Proof. unfold chunk_bytes, byteLength. simpl. rewrite concat_app, length_app. simpl. rewrite app_nil_r. lia. Qed.

Lemma held_mset id a m :
  (held_bytes (mset id a m) = held_bytes m + chunk_bytes a - match mget id m with Some a' => chunk_bytes a' | None => 0 end)%Z.
Proof.
  pose proof (sum_mset (fun e => length (concat (as_chunks e.2))) id a m) as H. unfold held_bytes, chunk_bytes, byteLength. simpl in H.
  destruct (mget id m); lia.
Qed.

Lemma held_mdelete id m : map_wf m -> (held_bytes (mdelete id m) <= held_bytes m)%Z.
Proof.
  intros Hwf. pose proof (sum_mdelete (fun e => length (concat (as_chunks e.2))) id m Hwf) as H. unfold held_bytes.
  destruct (mget id m); lia.
Qed.

Lemma assembled_held m :
  (forall id a, (id, a) ∈ m -> chunk_bytes a <= as_bytes a)%Z -> (held_bytes m <= assembledBytes m)%Z.
Proof.
  unfold held_bytes, assembledBytes, chunk_bytes, byteLength. induction m as [|[id a] m IH]; intros H; simpl; [done|].
  pose proof (H id a ltac:(by left)). assert (forall id a, (id, a) ∈ m -> Z.of_nat (length (concat (as_chunks a))) <= as_bytes a)%Z as H' by (intros; eapply H; by right).
  specialize (IH H'). lia.
Qed.

Lemma rx_assembled rejected r : Rx rejected r -> (held_bytes (dataAssemblies r) <= assembledBytes (dataAssemblies r))%Z.
Proof. intros Hok. apply assembled_held. intros id a Hin. by eapply (rx_each _ _ _ _ Hok), elem_mget; [apply Hok|]. Qed.

Lemma Rx_rejected r b : Rx b r -> Rx true r.
Proof. intros [? ? ? ? ?]. by constructor. Qed.

Lemma Rx_counters b r n c : Rx b r -> Rx b (Receiver n c (dataAssemblies r)).
Proof. intros [? ? ? ? ?]. by constructor. Qed.

(** Counting bytes whose chunk is then refused. *)
Lemma Rx_count r b id a n :
  Rx b r -> mget id (dataAssemblies r) = Some a -> (as_bytes a <= n)%Z ->
  Rx true (Receiver (receiveSequence r) (receiveCounter r) (mset id (Assembly (as_binary a) n (as_chunks a)) (dataAssemblies r))).
Proof.
  intros [Hwf Hs Hh He _] Hg Hn. destruct (He _ _ Hg) as [He1 He2]. constructor; simpl; [by apply map_wf_mset| | | |done].
  - rewrite mset_length. unfold mhas. by rewrite Hg.
  - rewrite held_mset, Hg. change (chunk_bytes (Assembly _ n (as_chunks a))) with (chunk_bytes a). lia.
  - intros id' a'. rewrite mget_mset. case_decide; [|apply He]. intros [= <-]. change (chunk_bytes (Assembly _ n (as_chunks a))) with (chunk_bytes a). simpl. lia.
Qed.

Lemma Rx_delete r b id : Rx b r -> Rx b (Receiver (receiveSequence r) (receiveCounter r) (mdelete id (dataAssemblies r))).
Proof.
  intros [Hwf Hs Hh He Hx]. constructor; simpl; [by apply map_wf_mdelete| | | |].
  - pose proof (mdelete_length_le id (dataAssemblies r)). lia.
  - pose proof (held_mdelete id _ Hwf). lia.
  - intros id' a'. rewrite mget_mdelete. case_decide; [done|apply He].
  - intros id' a' Hb. rewrite mget_mdelete. case_decide; [done|by apply Hx].
Qed.

Definition thrown {A} (r : result channel_error A) : bool := negb (is_ok r).

(** What a step of [receive] on an open channel keeps. *)
Definition received (b : bool) (s s' : channel) (r : result channel_error unit) : Prop :=
  tx s' = tx s /\ channel_closed s' = channel_closed s /\ rejections s' = rejections s /\ wire s' = wire s /\ Rx (b || thrown r) (rx s').

Lemma received_same b s r : Rx b (rx s) -> received b s s r.
Proof. intros H. split_and!; try done. destruct (thrown r); [rewrite orb_true_r; by eapply Rx_rejected|by rewrite orb_false_r]. Qed.

Lemma receive_fragment_ok b f s :
  Rx b (rx s) -> received b s (receive_fragment f s).1 (receive_fragment f s).2.
Proof.
  intros Hrx. pose proof (rx_assembled _ _ Hrx) as Hheld. pose proof Hrx as [Hwf Hs Hh He Hx]. unfold receive_fragment.
  set (m := dataAssemblies (rx s)) in *. destruct (match mget (df_streamId f) m with Some a => negb _ | None => false end); [by apply received_same|].
  destruct (match mget (df_streamId f) m with Some _ => false | None => _ end) eqn:Hlimit; [by apply received_same|].
  destruct (_ <? assembledBytes m + _)%Z eqn:Hbytes; [by apply received_same|]. apply Z.ltb_ge in Hbytes.
  set (size := byteLength (df_data f)) in *. assert (Hsize : (0 <= size)%Z) by (unfold size, byteLength; lia).
  set (next := default (Assembly (df_binary f) 0 []) (mget (df_streamId f) m)) in *.
  assert (Hnext : (chunk_bytes next <= as_bytes next /\ (b = false -> as_bytes next = chunk_bytes next))%Z).
  { unfold next. destruct (mget (df_streamId f) m) as [a|] eqn:Hg; simpl; [split; [by eapply He|intros Hb; by eapply Hx]|done]. }
  destruct (_ <? as_bytes next + size)%Z eqn:Hlarge; cbn [fst snd].
  - destruct (mget (df_streamId f) m) as [a|] eqn:Hg; [|by apply received_same]. split_and!; try done.
    simpl thrown. rewrite orb_true_r. apply (Rx_count _ b _ a); [done|done|]. unfold next. simpl. lia.
  - apply Z.ltb_ge in Hlarge. split_and!; try done. simpl thrown. rewrite orb_false_r.
    assert (Hc : chunk_bytes (Assembly (as_binary next) (as_bytes next + size) (as_chunks next ++ [df_data f])) = (chunk_bytes next + size)%Z).
    { apply chunk_bytes_snoc. }
    constructor; simpl; [by apply map_wf_mset| | | |].
    + rewrite mset_length. unfold mhas. destruct (mget (df_streamId f) m); [done|]. apply Z.leb_gt in Hlimit. lia.
    + rewrite held_mset, Hc. unfold next. destruct (mget (df_streamId f) m) as [a|] eqn:Hg; simpl; [lia|].
      change (chunk_bytes (Assembly (df_binary f) 0 [])) with 0%Z. lia.
    + intros id a. rewrite mget_mset. case_decide; [|apply He]. intros [= <-]. rewrite Hc. simpl. lia.
    + intros id a Hb. rewrite mget_mset. case_decide; [|by apply Hx]. intros [= <-]. rewrite Hc. simpl. destruct Hnext as [_ Hn]. rewrite Hn by done. lia.
Qed.

Lemma receive_final_ok b f s :
  Rx b (rx s) -> received b s (receive_final f s).1 (receive_final f s).2.
Proof.
  intros Hrx. unfold receive_final. set (m := dataAssemblies (rx s)) in *.
  assert (Hemit : forall s1 g, received b s s1 (Ok tt) -> received b s (emit (OnData g) s1) (Ok tt)).
  { intros s1 g (H1 & H2 & H3 & H4 & H5). unfold received. by rewrite wire_emit, app_nil_r. }
  destruct (mget (df_streamId f) m) as [a|] eqn:Hg; [|by apply Hemit, received_same].
  destruct (negb _); [by apply received_same|]. destruct (_ <? _)%Z; cbn [fst snd].
  - split_and!; try done. simpl thrown. rewrite orb_true_r. apply (Rx_count _ b _ a); [done|done|]. unfold byteLength. lia.
  - apply Hemit. split_and!; try done. simpl thrown. rewrite orb_false_r. by apply Rx_delete.
Qed.

Lemma receive_plaintext_ok b plaintext s :
  Rx b (rx s) -> received b s (receive_plaintext plaintext s).1 (receive_plaintext plaintext s).2.
Proof.
  intros Hrx. unfold receive_plaintext. destruct (isNodeRelayDataFrame plaintext).
  - unfold receive_data. destruct (negb _); [by apply received_same|]. destruct (decodeNodeRelayDataFrame plaintext) as [f|]; [|by apply received_same].
    destruct (df_more f); [by apply receive_fragment_ok|by apply receive_final_ok].
  - unfold receive_message. destruct (_ || _); [by apply received_same|]. destruct (_ ≫= _); [|by apply received_same].
    cbn [fst snd]. destruct (received_same b s (Ok tt) Hrx) as (H1 & H2 & H3 & H4 & H5). unfold received. by rewrite wire_emit, app_nil_r.
Qed.

Lemma rejected_flag s : negb (bool_decide (rejections s = [])) = false <-> rejections s = [].
Proof. rewrite negb_false_iff. apply bool_decide_eq_true. Qed.

Lemma rejected_snoc (l : list channel_error) e : negb (bool_decide (l ++ [e] = [])) = true.
Proof. by rewrite bool_decide_eq_false_2 by by destruct l. Qed.

(** The end of [receive], with its rejection. *)
Lemma received_ok s s' r C D :
  channel_closed s = false -> channel_ok s C D -> settled s ->
  received (negb (bool_decide (rejections s = []))) s s' r ->
  let s'' := match r with Ok _ => s' | Throw e => reject e s' end in channel_ok s'' C D /\ settled s''.
Proof.
  intros Hcl [Hq Hs Hr _] Hset (H1 & H2 & H3 & H4 & H5) s''.
  assert (Hsame : tx s'' = tx s /\ channel_closed s'' = false /\ wire s'' = wire s /\ rx s'' = rx s') by (subst s''; destruct r; split_and!; first [exact H1|exact H4|exact (eq_trans H2 Hcl)|done]).
  destruct Hsame as (K1 & K2 & K3 & K4). split; [|intros _; rewrite K1; by apply Hset].
  constructor; rewrite ?K1, ?K2, ?K3, ?K4; [by rewrite Hcl in Hq|by intros _; apply Hs| |done].
  intros _. subst s''. destruct r as [u|e]; simpl.
  - rewrite H3. simpl thrown in H5. by rewrite orb_false_r in H5.
  - apply (Rx_rejected _ _ ) in H5. by rewrite rejected_snoc.
Qed.

Lemma receive_open raw isBinary s C D :
  channel_closed s = false -> channel_ok s C D -> settled s ->
  received (negb (bool_decide (rejections s = []))) s (receive raw isBinary s).1 (receive raw isBinary s).2
  \/ receive raw isBinary s = (finish_channel (js "peer-closed") false s, Ok tt).
Proof.
  intros Hcl Hok Hset. pose proof (ok_receiver _ _ _ Hok Hcl) as Hrx. unfold receive. rewrite Hcl.
  destruct (negb isBinary); [left; by apply received_same|]. destruct (decodeRelayFrame raw) as [frame|code]; [|left; by apply received_same].
  destruct (rf_kind frame); [left; by apply received_same| |left; by apply received_same|left; by apply received_same|by right]. left.
  assert (Hwith : forall n c s' r, received (negb (bool_decide (rejections s = []))) (with_rx (Receiver n c (dataAssemblies (rx s))) s) s' r ->
    received (negb (bool_decide (rejections s = []))) s s' r) by done.
  destruct (negb (_ =? _)%Z); [eapply Hwith, received_same; by apply Rx_counters|].
  destruct (secretbox_open _ _) as [opened|]; [|eapply Hwith, received_same; by apply Rx_counters].
  destruct (unpackRelayPayload _ _ _) as [plaintext|e]; [|eapply Hwith, received_same; by apply Rx_counters].
  eapply Hwith, receive_plaintext_ok. by apply Rx_counters.
Qed.

Lemma on_message_ok raw isBinary s C D :
  channel_ok s C D -> settled s -> channel_ok (on_message raw isBinary s) C D /\ settled (on_message raw isBinary s).
Proof.
  intros Hok Hset. unfold on_message. destruct (channel_closed s) eqn:Hcl.
  { unfold receive. by rewrite Hcl. }
  destruct (receive_open raw isBinary s C D Hcl Hok Hset) as [H| ->].
  - pose proof (received_ok s _ _ C D Hcl Hok Hset H) as K. destruct (receive raw isBinary s) as [s' [[]|e]]; exact K.
  - destruct (finish_ok (js "peer-closed") false s C D (queue_ok_closed _ _ _ _ _ _ (ok_queue _ _ _ Hok)) (ok_closed _ _ _ Hok)) as [? Hf].
    split; [done|]. unfold settled. by rewrite Hf.
Qed.

(** ** Every operation *)

Definition step_writes (op : channel_op) (r : result channel_error unit) (s' : channel) (c d : list PendingNodeRelayWrite) : Prop :=
  match op, r with
  | OpSend m, Ok _ => exists parsed, NodeRelaySessionMessageSchema m = Some parsed
      /\ c = (if is_channel_close parsed then [] else [message_write parsed]) /\ d = (if is_channel_close parsed then [message_write parsed] else [])
  | OpSendData streamId data binary, Ok _ => is_uint32 streamId /\ (byteLength data <= NODE_RELAY_DATA_MAX_MESSAGE_BYTES)%Z /\ c = [] /\ d = frame_write <$> message_frames streamId data binary
  | OpSendData streamId data binary, Throw _ => c = [] /\ (d = [] \/ channel_closed s' = true
      /\ is_uint32 streamId /\ (byteLength data <= NODE_RELAY_DATA_MAX_MESSAGE_BYTES)%Z
      /\ exists queued rest, message_frames streamId data binary = queued ++ rest /\ rest <> [] /\ d = frame_write <$> queued)
  | _, _ => c = [] /\ d = []
  end.

Lemma reject_ok e s C D : channel_ok s C D -> channel_ok (reject e s) C D.
Proof.
  intros [Hq Hs Hr Hc]. constructor; [done|done| |done]. intros Ho. simpl. rewrite rejected_snoc. by eapply Rx_rejected, Hr.
Qed.

Lemma channel_step_ok op s C D s' r :
  channel_ok s C D -> settled s -> channel_step op s = (s', r) ->
  exists c d, channel_ok s' (C ++ c) (D ++ d) /\ settled s' /\ step_writes op r s' c d.
Proof.
  intros Hok Hset Hstep. pose proof (queue_ok_closed _ _ (tx s) _ _ _ (ok_queue _ _ _ Hok)) as Hq.
  assert (Hsame : channel_ok s' C D /\ settled s' -> step_writes op r s' [] [] -> exists c d, channel_ok s' (C ++ c) (D ++ d) /\ settled s' /\ step_writes op r s' c d).
  { intros [H1 H2] H3. exists [], []. by rewrite !app_nil_r. }
  assert (Hclosed : forall s1, channel_ok s1 C D /\ channel_closed s1 = true -> channel_ok s1 C D /\ settled s1).
  { intros s1 [H1 H2]. split; [done|]. unfold settled. by rewrite H2. }
  destruct op; simpl in Hstep; try (injection Hstep as <- <-).
  - destruct (send_ok _ _ _ _ _ _ Hok Hset Hstep) as (H1 & H2 & H3 & H4). destruct r as [[]|e]; [|apply Hsame; [by subst|done]].
    destruct H4 as (parsed & Hp & Hc). exists (if is_channel_close parsed then [] else [message_write parsed]), (if is_channel_close parsed then [message_write parsed] else []).
    split_and!; [|done|by exists parsed]. destruct (is_channel_close parsed); by rewrite ?app_nil_r.
  - destruct (sendData_ok _ _ _ _ _ _ _ _ Hok Hset Hstep) as (H1 & H2 & H3 & q & rest & H4 & H5 & H6 & H7 & H8).
    destruct r as [[]|e].
    + exists [], (frame_write <$> q). rewrite app_nil_r. rewrite (H6 eq_refl), app_nil_r in H4.
      split_and!; [done|done|]. simpl. rewrite H4. assert (Hq0 : q <> []).
      { intros ->. pose proof (proj1 (message_frames_spec streamId data binary)) as Hf. rewrite H4 in Hf. inversion Hf. }
      by destruct (H8 Hq0).
    + destruct (H7 ltac:(done)) as [Hrest [->|Hcl]].
      * exists [], []. rewrite !app_nil_r. split_and!; [done|done|]. simpl. split; [done|by left].
      * exists [], (frame_write <$> q). rewrite app_nil_r. split_and!; [done|done|]. split; [done|]. destruct q as [|f q]; [by left|]. right.
        destruct (H8 ltac:(done)). split_and!; [done|done|done|]. by exists (f :: q), rest.
  - apply Hsame; [apply Hclosed, close_ok, Hok|done].
  - apply Hsame; [|done]. unfold waitForOutboundCapacity. destruct (channel_closed s) eqn:Hcl; simpl orb.
    + split; [|unfold settled; simpl; by rewrite Hcl]. destruct Hok as [H1 H2 H3 H4]. constructor; [|by simpl; rewrite Hcl|by simpl; rewrite Hcl|by apply H4].
      rewrite wire_emit, app_nil_r. exact H1.
    + destruct (_ <=? _)%Z eqn:Hb.
      * split; [|exact Hset]. destruct Hok as [H1 H2 H3 H4]. constructor; [|exact H2|exact H3|exact H4]. rewrite wire_emit, app_nil_r. exact H1.
      * apply Z.leb_gt in Hb. split; [|exact Hset]. destruct Hok as [H1 H2 H3 H4]. constructor; [exact H1| |exact H3|simpl; congruence].
        intros Ho. destruct (H2 Ho) as [K1 K2 K3 K4]. constructor; [exact K1|exact K2|exact K3|]. intros _. exact Hb.
  - apply Hsame; [|done]. destruct Hok as [H1 H2 H3 H4]. split; [|exact Hset]. constructor; [exact H1|exact H2| |].
    + intros Ho. apply (Rx_delete (rx s)). by apply H3.
    + intros Ho. destruct (H4 Ho) as (G1 & G2 & G3 & G4 & G5). split_and!; [done|done|done|done|]. simpl. by rewrite G5.
  - apply Hsame; [|done]. unfold flush_timer_fires. destruct (flushTimer (tx s)) eqn:Ht; [|done]. simpl.
    destruct (channel_closed s) eqn:Hcl.
    { destruct (ok_closed _ _ _ Hok Hcl) as (_ & _ & _ & ? & _). congruence. }
    destruct (flushOutbound_ok (set_flush_timer false s) C D) as (H1 & H2 & H3 & H4 & H5).
    + destruct Hok as [G1 G2 G3 G4]. constructor; [exact G1| |exact G3|simpl; congruence]. intros Ho. destruct (G2 Ho). by constructor.
    + split; [done|]. apply H2. right. by apply Hset.
  - apply Hsame; [|done]. unfold assembly_timer_fires. destruct (mget _ _); [|done]. apply Hclosed, fail_ok; [exact Hq|].
    intros Ho. destruct (ok_closed _ _ _ Hok Ho) as (G1 & G2 & G3 & G4 & G5). split_and!; [done|done|done|done|]. simpl. by rewrite G5.
  - apply Hsame; [|done]. by apply on_message_ok.
  - apply Hsame; [|done]. unfold handle_rejection. destruct (rejections s); [done|]. apply Hclosed, fail_ok; [exact Hq|]. apply (ok_closed _ _ _ Hok).
  - apply Hsame; [|done]. split; [by apply reject_ok|exact Hset].
  - apply Hsame; [|done]. apply Hclosed, finish_ok; [exact Hq|]. apply (ok_closed _ _ _ Hok).
  - apply Hsame; [|done]. apply Hclosed, fail_ok; [exact Hq|]. apply (ok_closed _ _ _ Hok).
Qed.

(** ** Runs *)

Lemma positiveInteger_pos v d : (0 < d)%Z -> (0 < positiveInteger v d)%Z.
Proof. intros Hd. unfold positiveInteger. destruct v as [v|]; [|done]. destruct (0 <? v)%Z eqn:Hv; [by apply Z.ltb_lt|done]. Qed.

Lemma new_channel_ok : channel_ok new_channel [] [] /\ settled new_channel.
Proof.
  split; [|done]. constructor; [by exists [], [], []| | |done].
  - intros _. constructor; simpl; [done|constructor|done|done].
  - intros _. constructor; simpl; [constructor| | |done|done].
    + apply Z.lt_le_incl, positiveInteger_pos. done.
    + apply Z.lt_le_incl, positiveInteger_pos. done.
Qed.

Lemma run_channel_app ops ops' s : run_channel (ops ++ ops') s = run_channel ops' (run_channel ops s).
Proof. apply foldl_app. Qed.

Lemma run_channel_ok ops : exists C D, channel_ok (run_channel ops new_channel) C D /\ settled (run_channel ops new_channel).
Proof.
  induction ops as [|op ops (C & D & Hok & Hset)] using rev_ind; [exists [], []; apply new_channel_ok|].
  rewrite run_channel_app. simpl. destruct (channel_step op (run_channel ops new_channel)) as [s' r] eqn:Hstep.
  destruct (channel_step_ok op _ C D s' r Hok Hset Hstep) as (c & d & H1 & H2 & _). by exists (C ++ c), (D ++ d).
Qed.
End Channel.

(** ** Nonces *)

Lemma sequenceNonce_bytes direction counter :
  sequenceNonce direction counter = byte_of direction :: replicate 15 0%N ++ uint32_bytes (Z.shiftr counter 32) ++ uint32_bytes counter.
Proof. reflexivity. Qed.

Lemma sequenceNonce_inj d d' n n' :
  is_uint32 n -> is_uint32 n' -> sequenceNonce d n = sequenceNonce d' n' -> (d mod 256 = d' mod 256)%Z /\ n = n'.
Proof.
  intros Hn Hn'. rewrite !sequenceNonce_bytes. intros H. injection H as Hd _ _ _ _ H1 H2 H3 H4. split.
  - apply (f_equal Z.of_N) in Hd. by rewrite !byte_of_Z in Hd.
  - rewrite <- (getUint32_bytes n [] []), <- (getUint32_bytes n' [] []) by done. simpl.
    unfold uint32_bytes. by rewrite H1, H2, H3, H4.
Qed.

Lemma frame_of_uint32 `{RelayLibraries} `{RelayEnd} i w frame : frame_of i w = Ok frame -> is_uint32 (Z.of_nat i).
Proof. unfold frame_of. intros [(Hs & _) _]%encodeRelayFrame_spec. unfold is_uint32 in *. simpl in Hs. lia. Qed.

(** C25. Whatever is called, received, times out or fails, in whatever order
    and whatever the socket does: an open channel counts its queue exactly and
    never above 16 MiB, its flush timer runs exactly while something is queued,
    and no one waits for capacity that is there; it assembles no more messages
    and bytes than its limits, none above 8 MiB, counted exactly unless a
    rejection is on its way.  A closed channel has nothing queued, assembled,
    waiting or armed.  The frames on the wire are sealed payloads under
    sequences 1, 2, 3 ... and under nonces that never repeat, nor are ever used
    by an end with another direction. *)
Theorem relay_channel_invariant {L : RelayLibraries} {E : RelayEnd} ops :
  let s := run_channel ops new_channel in
  (channel_closed s = false ->
     (outboundBytes (tx s) = bytes_queued (queued_writes (tx s)) /\ outboundBytes (tx s) <= NODE_RELAY_SOCKET_MAX_QUEUED_BYTES)%Z
     /\ (flushTimer (tx s) = true <-> queued_writes (tx s) <> [])
     /\ (outboundCapacityWaiters (tx s) <> [] -> (NODE_RELAY_SOCKET_MAX_BUFFERED_BYTES < outboundBytes (tx s))%Z)
     /\ (Z.of_nat (length (dataAssemblies (rx s))) <= dataAssemblyMaxStreams options)%Z
     /\ (held_bytes (dataAssemblies (rx s)) <= dataAssemblyMaxBytes options)%Z
     /\ forall id a, mget id (dataAssemblies (rx s)) = Some a ->
          (chunk_bytes a <= NODE_RELAY_DATA_MAX_MESSAGE_BYTES)%Z /\ (rejections s = [] -> as_bytes a = chunk_bytes a))
  /\ (channel_closed s = true -> closed_ok s)
  /\ (exists log, imap frame_of log = Ok <$> wire s)
  /\ (forall i j direction, i < length (wire s) -> j < length (wire s) ->
        sequenceNonce (sendDirection options) (Z.of_nat i) = sequenceNonce direction (Z.of_nat j) ->
        i = j /\ (direction mod 256 = sendDirection options mod 256)%Z).
Proof.
  intros s. destruct (run_channel_ok ops) as (C & D & [Hq Hs Hr Hc] & Hset). fold s in Hq, Hs, Hr, Hc, Hset.
  destruct Hq as (log & rc & rd & Hlog & _ & _ & _). split_and!.
  - intros Ho. destruct (Hs Ho) as [H1 H2 H3 H4]. destruct (Hr Ho) as [G1 G2 G3 G4 G5]. split_and!; try done; [by apply Hset|].
    intros id a Ha. split; [by eapply G4|]. intros Hrej. eapply G5; [by apply rejected_flag|done].
  - done.
  - by exists log.
  - assert (Hrange : forall i, i < length (wire s) -> is_uint32 (Z.of_nat i)).
    { intros i Hi. destruct (lookup_lt_is_Some_2 (wire s) i Hi) as [frame Hf].
      assert (Hl : imap frame_of log !! i = Some (Ok frame)) by by rewrite Hlog, list_lookup_fmap, Hf.
      rewrite list_lookup_imap in Hl. destruct (log !! i) as [w|]; [|done]. injection Hl as Hl. by eapply frame_of_uint32. }
    intros i j direction Hi Hj Hn. apply sequenceNonce_inj in Hn as [Hd Hn]; [|by apply Hrange|by apply Hrange]. split; [lia|done].
Qed.
