(* ===== verification/RelayDelivery.v ===== *)
(** * What one end of a relay sends, the other receives

    The sealed, ordered transport, end to end: whatever the sending end did
    and whatever its socket did to it, every prefix of the frames it put on the
    wire makes a fresh receiving end deliver exactly what was sent. *)

From S2P Require Export RelayChannelSpec.

(** ** What was sent and what was delivered *)

Inductive relay_item :=
| ControlItem (m : NodeRelaySessionMessage)
| DataItem (streamId : Z) (data : bytes) (binary : bool).

(** Data and the closing of a channel keep their order; other control messages
    keep theirs, and may overtake data. *)
Definition is_ordered (it : relay_item) : bool :=
  match it with ControlItem m => is_channel_close m | DataItem _ _ _ => true end.

(** The item of a call that returned. *)
Definition accepted_item (op : channel_op) (r : result channel_error unit) : list relay_item :=
  match op, r with
  | OpSend m, Ok _ => match NodeRelaySessionMessageSchema m with Some parsed => [ControlItem parsed] | None => [] end
  | OpSendData streamId data binary, Ok _ => [DataItem streamId data binary]
  | _, _ => []
  end.

Fixpoint accepted {L : RelayLibraries} {E : RelayEnd} (ops : list channel_op) (s : channel) : list relay_item :=
  match ops with
  | [] => []
  | op :: ops => accepted_item op (channel_step op s).2 ++ accepted ops (channel_step op s).1
  end.

Definition delivered (s : channel) : list relay_item :=
  omap (fun o => match o with
                 | OnMessage m => Some (ControlItem m)
                 | OnData f => Some (DataItem (df_streamId f) (df_data f) (df_binary f))
                 | _ => None
                 end) (outputs s).

Definition ordered (items : list relay_item) : list relay_item := filter (fun it => is_ordered it = true) items.
Definition unordered (items : list relay_item) : list relay_item := filter (fun it => is_ordered it = false) items.

(** ** The writes of the accepted items *)

Section Sending.
Context {L : RelayLibraries} {E : RelayEnd}.

Definition item_writes (it : relay_item) : list PendingNodeRelayWrite :=
  match it with
  | ControlItem m => [message_write m]
  | DataItem streamId data binary => frame_write <$> message_frames streamId data binary
  end.
Definition items_writes (items : list relay_item) : list PendingNodeRelayWrite := concat (item_writes <$> items).

Definition valid_item (it : relay_item) : Prop :=
  match it with
  | ControlItem m => NodeRelaySessionMessageSchema m = Some m
  | DataItem streamId data binary => is_uint32 streamId /\ (byteLength data <= NODE_RELAY_DATA_MAX_MESSAGE_BYTES)%Z
  end.

Lemma items_writes_app a b : items_writes (a ++ b) = items_writes a ++ items_writes b.
Proof. unfold items_writes. by rewrite fmap_app, concat_app. Qed.

Lemma IdSchema_idemp s t : IdSchema s = Some t -> IdSchema t = Some t.
Proof.
  unfold IdSchema. pose proof (trim_idemp s) as Ht. destruct (trim s) as [|c rest] eqn:Hs; [done|].
  destruct (_ && _) eqn:Hb; [|done]. intros [= <-]. by rewrite Ht, Hb.
Qed.

Lemma TrimmedSchema_idemp lo hi s t : TrimmedSchema lo hi s = Some t -> TrimmedSchema lo hi t = Some t.
Proof. unfold TrimmedSchema. case_bool_decide as Hb; [|done]. intros [= <-]. rewrite trim_idemp. by rewrite bool_decide_eq_true_2. Qed.

Lemma optional_idemp {A} (f : A -> option A) o o' : (forall a a', f a = Some a' -> f a' = Some a') -> optional f o = Some o' -> optional f o' = Some o'.
Proof.
  intros Hf. destruct o as [a|]; simpl; [|by intros [= <-]]. destruct (f a) as [a'|] eqn:Ha; [|done]. intros [= <-]. simpl. by rewrite (Hf _ _ Ha).
Qed.

Lemma guard_schema (P : Prop) `{Decision P} (z t : Z) : (if bool_decide P then Some z else None) = Some t -> z = t /\ P.
Proof. case_bool_decide; naive_solver. Qed.

(** A parsed message parses as itself. *)
Lemma message_schema_idemp m p : NodeRelaySessionMessageSchema m = Some p -> NodeRelaySessionMessageSchema p = Some p.
Proof.
  assert (Hint : forall z t, IntSchema z = Some t -> IntSchema t = Some t) by (intros z t H; pose proof H as [-> _]%guard_schema; done).
  assert (Hid : forall z t, StreamIdSchema z = Some t -> StreamIdSchema t = Some t) by (intros z t H; pose proof H as [-> _]%guard_schema; done).
  assert (Haux : forall z t, AuxStreamIdSchema z = Some t -> AuxStreamIdSchema t = Some t) by (intros z t H; pose proof H as [-> _]%guard_schema; done).
  destruct m as [c i|c i|c code t|c code t| | |i|i]; simpl; rewrite ?bind_Some.
  - intros (c' & Hc & H). apply bind_Some in H as (i' & Hi & [= <-]). simpl. rewrite (IdSchema_idemp _ _ Hc). simpl. by rewrite (Haux _ _ Hi).
  - intros (c' & Hc & H). apply bind_Some in H as (i' & Hi & [= <-]). simpl. rewrite (IdSchema_idemp _ _ Hc). simpl. by rewrite (Haux _ _ Hi).
  - intros (c' & Hc & H). apply bind_Some in H as (code' & Hcode & H). apply bind_Some in H as (t' & Ht & [= <-]). simpl.
    rewrite (IdSchema_idemp _ _ Hc). simpl. rewrite (TrimmedSchema_idemp _ _ _ _ Hcode). simpl.
    by rewrite (optional_idemp _ _ _ (TrimmedSchema_idemp 0 512) Ht).
  - intros (c' & Hc & H). apply bind_Some in H as (code' & Hcode & H). apply bind_Some in H as (t' & Ht & [= <-]). simpl.
    rewrite (IdSchema_idemp _ _ Hc). simpl. rewrite (optional_idemp _ _ _ Hint Hcode). simpl.
    by rewrite (optional_idemp _ _ _ (TrimmedSchema_idemp 0 512) Ht).
  - by intros [= <-].
  - by intros [= <-].
  - intros H. apply fmap_Some in H as (i' & Hi & ->). simpl. by rewrite (Hid _ _ Hi).
  - intros H. apply fmap_Some in H as (i' & Hi & ->). simpl. by rewrite (Hid _ _ Hi).
Qed.

Lemma sendData_closed streamId data binary s :
  channel_closed s = true -> exists e, sendData streamId data binary s = (s, Throw e).
Proof.
  intros Hcl. unfold sendData. destruct (_ <? byteLength data)%Z; [by eexists|]. case_bool_decide as Hl.
  - destruct (encodeNodeRelayDataFrame _); [|by eexists]. unfold enqueuePlaintext. rewrite Hcl. by eexists.
  - destruct (_ <? _)%Z; [by eexists|]. assert (Hpos : (1 <= fragments data)%Z).
    { unfold fragments, NODE_RELAY_DATA_MAX_BYTES, byteLength. div_lia. }
    destruct (Z.to_nat (fragments data)) as [|fuel] eqn:Hf; [lia|]. simpl. rewrite (proj2 (Z.ltb_lt _ _)) by (unfold byteLength; lia).
    destruct (encodeNodeRelayDataFrame _); [|by eexists]. destruct (if binary then _ else _). unfold enqueuePlaintext. rewrite Hcl. by eexists.
Qed.

Lemma closed_channel_step op s C D :
  channel_closed s = true -> channel_ok s C D -> settled s ->
  channel_ok (channel_step op s).1 C D /\ settled (channel_step op s).1 /\ channel_closed (channel_step op s).1 = true
  /\ accepted_item op (channel_step op s).2 = [].
Proof.
  intros Hcl Hok Hset. destruct (channel_step op s) as [s' r] eqn:Hstep. simpl.
  destruct (channel_step_ok op s C D s' r Hok Hset Hstep) as (c & d & H1 & H2 & H3).
  assert (Hrest : c = [] /\ d = [] -> channel_closed s' = true -> accepted_item op r = [] ->
    channel_ok s' C D /\ settled s' /\ channel_closed s' = true /\ accepted_item op r = []).
  { intros [-> ->]. by rewrite !app_nil_r in H1. }
  destruct op; simpl in Hstep; try (injection Hstep as <- <-; apply Hrest; [exact H3| |done]; simpl;
    unfold close_channel, waitForOutboundCapacity, flush_timer_fires, flushOutbound, assembly_timer_fires, on_message, receive, handle_rejection, finish_channel, fail;
    try (destruct (flushTimer (tx s))); try (destruct (mget _ _)); try (destruct (rejections s)); simpl; rewrite ?Hcl; done).
  - unfold send in Hstep. destruct (NodeRelaySessionMessageSchema message); [|by injection Hstep as <- <-].
    destruct (packRelayPayload _ _). unfold enqueuePlaintext in Hstep. rewrite Hcl in Hstep. by injection Hstep as <- <-.
  - destruct (sendData_closed streamId data binary s Hcl) as [e He]. rewrite He in Hstep. by injection Hstep as <- <-.
Qed.

(** The data queue holds the ordered items and, when the channel was closed
    inside a message, the beginning of that message. *)
Definition queued_items (s : channel) (items : list relay_item) (C D : list PendingNodeRelayWrite) : Prop :=
  Forall valid_item items
  /\ C = items_writes (unordered items)
  /\ exists cut, Forall valid_item cut
       /\ match cut with
          | [] => D = items_writes (ordered items)
          | it :: rest => rest = [] /\ channel_closed s = true /\ is_ordered it = true
              /\ exists queued missing, item_writes it = queued ++ missing /\ missing <> [] /\ D = items_writes (ordered items) ++ queued
          end.

Lemma accepted_app ops ops' s : accepted (ops ++ ops') s = accepted ops s ++ accepted ops' (run_channel ops s).
Proof. revert s. induction ops as [|op ops IH]; intros s; simpl; [done|]. by rewrite IH, app_assoc. Qed.

Lemma ordered_app a b : ordered (a ++ b) = ordered a ++ ordered b.
Proof. apply filter_app. Qed.
Lemma unordered_app a b : unordered (a ++ b) = unordered a ++ unordered b.
Proof. apply filter_app. Qed.
Lemma ordered_singleton it : ordered [it] = if is_ordered it then [it] else [].
Proof. unfold ordered. rewrite filter_cons, filter_nil. by destruct (is_ordered it). Qed.
Lemma unordered_singleton it : unordered [it] = if is_ordered it then [] else [it].
Proof. unfold unordered. rewrite filter_cons, filter_nil. by destruct (is_ordered it). Qed.

Lemma items_writes_one it : items_writes [it] = item_writes it.
Proof. unfold items_writes. simpl. by rewrite app_nil_r. Qed.

Lemma accepted_writes op r s' c d :
  step_writes op r s' c d -> accepted_item op r <> [] ->
  exists it, accepted_item op r = [it] /\ valid_item it /\ c = items_writes (unordered [it]) /\ d = items_writes (ordered [it]).
Proof.
  destruct op; simpl; try done; destruct r as [u|e]; try done.
  - intros (parsed & Hp & -> & ->) _. rewrite Hp. exists (ControlItem parsed). rewrite ordered_singleton, unordered_singleton. simpl.
    split; [done|]. split; [by eapply message_schema_idemp|]. by destruct (is_channel_close parsed).
  - intros (Hid & Hl & -> & ->) _. eexists. split; [done|]. rewrite ordered_singleton, unordered_singleton. simpl is_ordered. cbn match.
    by rewrite items_writes_one.
Qed.

Lemma run_accepted ops :
  exists C D, channel_ok (run_channel ops new_channel) C D /\ settled (run_channel ops new_channel)
    /\ queued_items (run_channel ops new_channel) (accepted ops new_channel) C D.
Proof.
  induction ops as [|op ops (C & D & Hok & Hset & Hv & HC & cut & Hcut & HD)] using rev_ind.
  { exists [], []. split; [apply new_channel_ok|]. split; [apply new_channel_ok|]. split; [constructor|]. split; [done|]. by exists []. }
  rewrite run_channel_app, accepted_app. set (s := run_channel ops new_channel) in *. simpl. rewrite app_nil_r.
  destruct (channel_closed s) eqn:Hcl.
  { destruct (closed_channel_step op s C D Hcl Hok Hset) as (H1 & H2 & H3 & H4). exists C, D. rewrite H4, app_nil_r.
    split; [done|]. split; [done|]. split; [done|]. split; [done|].
    exists cut. split; [done|]. destruct cut; [done|]. by rewrite H3. }
  assert (cut = []) as ->. { destruct cut as [|it cut]; [done|]. destruct HD as (_ & HD & _). congruence. } rewrite HD in Hok. clear HD Hcut.
  destruct (channel_step op s) as [s' r] eqn:Hstep. simpl.
  destruct (channel_step_ok op s C _ s' r Hok Hset Hstep) as (c & d & H1 & H2 & H3).
  exists (C ++ c), (items_writes (ordered (accepted ops new_channel)) ++ d). split; [done|]. split; [done|].
  destruct (accepted_item op r) as [|it l] eqn:Hacc.
  - rewrite app_nil_r.
    assert (Hcd : c = [] /\ (d = [] \/ exists it queued missing, channel_closed s' = true /\ is_ordered it = true /\ valid_item it
                                     /\ item_writes it = queued ++ missing /\ missing <> [] /\ d = queued)).
    { destruct r as [u0|e0], op; simpl in H3, Hacc; try (destruct H3 as [-> ->]; by split; [|left]); try done.
      - destruct H3 as (parsed & Hp & _). by rewrite Hp in Hacc.
      - destruct H3 as [-> [-> |(Hc & Hid & Hl & q & rest & Hq & Hrest & ->)]]; [by split; [|left]|]. split; [done|]. right.
        exists (DataItem streamId data binary), (frame_write <$> q), (frame_write <$> rest). split_and!; try done; simpl.
        + by rewrite Hq, fmap_app.
        + by destruct rest. }
    destruct Hcd as [-> Hd]. rewrite app_nil_r. split; [done|]. split; [done|].
    destruct Hd as [-> |(it & q & m & Hc & Ho & Hvi & Hw & Hm & ->)]; [exists []; by rewrite app_nil_r|].
    exists [it]. split; [by constructor|]. split_and!; try done. by exists q, m.
  - destruct (accepted_writes op r s' c d H3) as (it' & Hit & Hvi & -> & ->); [by rewrite Hacc|]. rewrite Hacc in Hit. injection Hit as -> ->.
    split; [apply Forall_app; split; [done|by constructor]|]. rewrite unordered_app, ordered_app, !items_writes_app, HC. split; [done|]. exists []. done.
Qed.

(** ** Fragments of a message *)

Lemma frames_of_data streamId binary fs d : frames_of streamId binary fs d -> concat (df_data <$> fs) = d.
Proof. induction 1 as [d|d fs rest _ IH]; csimpl; [by rewrite app_nil_r|by rewrite IH]. Qed.

Lemma frames_of_nonempty streamId binary fs d : frames_of streamId binary fs d -> fs <> [].
Proof. by destruct 1. Qed.

Lemma frames_of_split streamId binary q f rest d :
  frames_of streamId binary (q ++ f :: rest) d ->
  df_streamId f = streamId /\ df_binary f = binary /\ df_more f = bool_decide (rest <> []) /\ Forall (fun g => df_streamId g = streamId /\ df_binary g = binary) q.
Proof.
  revert d. induction q as [|g q IH]; intros d H; simpl in H.
  - inversion H as [d' Hf|d' fs' rest' Hr]; subst; simpl; [done|]. split_and!; try done. by rewrite bool_decide_eq_true_2 by by eapply frames_of_nonempty.
  - inversion H as [d' Hf|d' fs' rest' Hr]; subst; [by destruct q|]. destruct (IH _ Hr) as (H1 & H2 & H3 & H4).
    split_and!; try done. by constructor.
Qed.

Lemma message_frames_writes streamId data binary : item_writes (DataItem streamId data binary) = frame_write <$> message_frames streamId data binary.
Proof. done. Qed.

Lemma item_writes_nonempty it : item_writes it <> [].
Proof.
  destruct it as [m|i d b]; simpl; [done|]. pose proof (frames_of_nonempty _ _ _ _ (proj1 (message_frames_spec i d b))).
  by destruct (message_frames i d b).
Qed.
End Sending.

(** ** The receiving end *)

(** What the libraries promise on what was sent, and that the two ends belong
    together. *)
Record relay_pair {L : RelayLibraries} (E E' : RelayEnd) (items : list relay_item) : Prop := RelayPair {
  pair_secretbox p direction n :
    secretbox_open (secretbox p (sequenceNonce direction n)) (sequenceNonce direction n) = Some p;
  pair_deflate p : inflate (deflate p) = Ok p;
  pair_json m : ControlItem m ∈ items -> JSON_parse (message_bytes m) = Some m;
  pair_direction : receiveDirection (@options E') = sendDirection (@options E);
  pair_data : has_onData (@options E') = true;
  pair_limit : (NODE_RELAY_DATA_MAX_MESSAGE_BYTES <= dataAssemblyMaxBytes (@options E'))%Z
}.

Section Delivery.
Context {L : RelayLibraries} (E E' : RelayEnd) (items : list relay_item) (Hpair : relay_pair E E' items).

Definition write_plaintext (w : PendingNodeRelayWrite) (p : bytes) : Prop :=
  unpackRelayPayload inflate (pw_payload w) (pw_flags w) = Ok p.

Lemma packed_plaintext p : write_plaintext (packed p) p.
Proof.
  unfold write_plaintext, packed, packRelayPayload. destruct (_ <? _)%Z; [done|]. destruct (_ <? _)%Z; [|done].
  simpl. apply (pair_deflate _ _ _ Hpair).
Qed.

Lemma frame_write_plaintext f : write_plaintext (frame_write f) (frame_plaintext f).
Proof. unfold frame_write. destruct (df_binary f); [done|apply packed_plaintext]. Qed.

Lemma receive_written B i w frame p :
  frame_of (E := E) i w = Ok frame -> write_plaintext w.2 p -> channel_closed B = false ->
  receiveSequence (rx B) = (Z.of_nat i + 1)%Z -> receiveCounter (rx B) = Z.of_nat i ->
  receive (E := E') frame true B
  = receive_plaintext (E := E') p (with_rx (Receiver (Z.of_nat i + 1 + 1) (Z.of_nat i + 1) (dataAssemblies (rx B))) B).
Proof.
  intros Hf Hp Hcl Hs Hc. unfold frame_of in Hf. apply decode_encodeRelayFrame in Hf. unfold receive. rewrite Hcl, Hf. cbn [rf_kind rf_sequence rf_payload rf_flags negb].
  rewrite Hs, Z.eqb_refl, Hc, (pair_direction _ _ _ Hpair), (pair_secretbox _ _ _ Hpair). simpl negb. cbn match. simpl default.
  unfold write_plaintext in Hp. unfold default, from_option, id. by rewrite Hp.
Qed.

Lemma message_bytes_first m : exists rest, message_bytes m = 0x7b%N :: rest.
Proof. eexists. reflexivity. Qed.

Lemma receive_control m B :
  NodeRelaySessionMessageSchema m = Some m -> ControlItem m ∈ items ->
  receive_plaintext (E := E') (message_bytes m) B = (emit (OnMessage m) B, Ok tt).
Proof.
  intros Hm Hin. unfold receive_plaintext, receive_message. destruct (message_bytes_first m) as [rest Hb].
  assert (isNodeRelayDataFrame (message_bytes m) = false) as -> by by rewrite Hb.
  assert (bool_decide (length (message_bytes m) = 0) || negb (get_byte 0 (message_bytes m) =? 0x7b)%Z = false) as -> by by rewrite Hb.
  rewrite (pair_json _ _ _ Hpair m Hin). change (Some m ≫= NodeRelaySessionMessageSchema) with (NodeRelaySessionMessageSchema m). by rewrite Hm.
Qed.

Lemma receive_frame_plaintext f B :
  is_uint32 (df_streamId f) -> (byteLength (df_data f) <= NODE_RELAY_DATA_MAX_BYTES)%Z ->
  receive_plaintext (E := E') (frame_plaintext f) B = if df_more f then receive_fragment (E := E') f B else receive_final f B.
Proof.
  intros Hid Hl. destruct (decode_encodeNodeRelayDataFrame _ _ (encode_frame f Hid Hl)) as [Hd Hi].
  unfold receive_plaintext, receive_data. by rewrite Hi, Hd, (pair_data _ _ _ Hpair).
Qed.

(** The assembly of the fragments received so far. *)
Definition partial (q : list NodeRelayDataFrame) : jsmap Z NodeRelayDataAssembly :=
  match q with
  | [] => []
  | f :: _ => [(df_streamId f, Assembly (df_binary f) (byteLength (concat (df_data <$> q))) (df_data <$> q))]
  end.

Lemma partial_snoc streamId binary q f :
  df_streamId f = streamId -> df_binary f = binary -> Forall (fun g => df_streamId g = streamId /\ df_binary g = binary) q ->
  mget streamId (partial q) = (match q with [] => None | _ => Some (Assembly binary (byteLength (concat (df_data <$> q))) (df_data <$> q)) end)
  /\ mdelete streamId (partial q) = []
  /\ mset streamId (Assembly binary (byteLength (concat (df_data <$> q)) + byteLength (df_data f)) ((df_data <$> q) ++ [df_data f])) (partial q) = partial (q ++ [f]).
Proof.
  intros <- <- Hq. assert (Hsum : byteLength (concat (df_data <$> q ++ [f])) = (byteLength (concat (df_data <$> q)) + byteLength (df_data f))%Z).
  { rewrite fmap_app, concat_app, byteLength_app. csimpl. by rewrite app_nil_r. }
  change [df_data f] with (df_data <$> [f]). rewrite <- Hsum, <- (fmap_app df_data q [f]). destruct q as [|g q]; [done|]. apply Forall_cons in Hq as [[Hg1 Hg2] _].
  unfold partial. cbn [app]. rewrite Hg1, Hg2. simpl. rewrite !decide_True by done. split; [done|]. split; [|done].
  unfold mdelete. rewrite filter_cons, filter_nil. by rewrite decide_False by (intros H; by apply H).
Qed.

Lemma buffer_concat_exact chunks : buffer_concat chunks (byteLength (concat chunks)) = concat chunks.
Proof. unfold buffer_concat, byteLength. rewrite Nat2Z.id, take_ge by done. by rewrite Nat.sub_diag, app_nil_r. Qed.

(** What a frame changes in the receiving end. *)
Definition advances (B s' : channel) (r : result channel_error unit) (m : jsmap Z NodeRelayDataAssembly) (its : list relay_item) : Prop :=
  r = Ok tt /\ channel_closed s' = channel_closed B /\ rejections s' = rejections B /\ receiveSequence (rx s') = receiveSequence (rx B)
  /\ receiveCounter (rx s') = receiveCounter (rx B) /\ dataAssemblies (rx s') = m /\ delivered s' = delivered B ++ its.

Lemma receive_next streamId data binary q f rest B :
  message_frames streamId data binary = q ++ f :: rest -> valid_item (DataItem streamId data binary) ->
  dataAssemblies (rx B) = partial q ->
  advances B (receive_plaintext (E := E') (frame_plaintext f) B).1 (receive_plaintext (E := E') (frame_plaintext f) B).2
    (match rest with [] => [] | _ => partial (q ++ [f]) end) (match rest with [] => [DataItem streamId data binary] | _ => [] end).
Proof.
  intros Hfs [Hid Hmax] Hasm. destruct (message_frames_spec streamId data binary) as (Hof & _ & Hall). rewrite Hfs in Hof, Hall.
  destruct (frames_of_split _ _ _ _ _ _ Hof) as (Hfid & Hfb & Hmore & Hq). pose proof (frames_of_data _ _ _ _ Hof) as Hdata.
  apply Forall_app in Hall as [_ Hall]. apply Forall_cons in Hall as [(_ & _ & Hlen) _].
  rewrite receive_frame_plaintext by (by rewrite ?Hfid). destruct (partial_snoc streamId binary q f Hfid Hfb Hq) as (Hget & Hdel & Hset).
  assert (Htotal : (byteLength (concat (df_data <$> q)) + byteLength (df_data f) <= NODE_RELAY_DATA_MAX_MESSAGE_BYTES)%Z).
  { rewrite <- Hdata in Hmax. rewrite fmap_app, fmap_cons, concat_app, byteLength_app in Hmax. simpl in Hmax. rewrite byteLength_app in Hmax.
    unfold byteLength in *. lia. }
  rewrite Hmore. destruct rest as [|g rest].
  - rewrite bool_decide_eq_false_2 by (by intros []). unfold receive_final. rewrite Hfid, Hasm, Hget.
    rewrite fmap_app, concat_app in Hdata. csimpl in Hdata. rewrite app_nil_r in Hdata. destruct q as [|g q].
    + split_and!; try done. simpl. unfold delivered. simpl. rewrite omap_app. simpl. by rewrite Hfid, Hfb, <- Hdata.
    + rewrite Hfb. cbn [as_binary as_bytes as_chunks]. rewrite eqb_reflx. simpl negb. cbn match.
      rewrite (proj2 (Z.ltb_ge _ _)) by exact Htotal.
      assert (Hc : buffer_concat ((df_data <$> g :: q) ++ [df_data f]) (byteLength (concat (df_data <$> g :: q)) + byteLength (df_data f)) = data).
      { assert (Hcat : concat ((df_data <$> g :: q) ++ [df_data f]) = data) by (rewrite concat_app; csimpl; by rewrite app_nil_r).
        rewrite <- byteLength_app. replace (concat (df_data <$> g :: q) ++ df_data f) with (concat ((df_data <$> g :: q) ++ [df_data f]))
          by (rewrite Hcat; done). by rewrite buffer_concat_exact. }
      rewrite Hc. split_and!; try done.
      * cbn [fst]. unfold discardDataAssembly. simpl. by rewrite Hasm.
      * unfold delivered. simpl. by rewrite omap_app.
  - rewrite bool_decide_eq_true_2 by done. unfold receive_fragment. rewrite Hfid, Hasm, Hget.
    assert (Hall_bytes : (assembledBytes (partial q) = byteLength (concat (df_data <$> q)))%Z).
    { destruct q; [done|]. unfold assembledBytes, partial. simpl. lia. }
    destruct q as [|h q].
    + simpl negb. cbn match. rewrite (proj2 (Z.leb_gt _ _)) by (simpl; apply positiveInteger_pos; done).
      pose proof (pair_limit _ _ _ Hpair) as Hlim. rewrite Hall_bytes. rewrite (proj2 (Z.ltb_ge _ _)) by lia.
      cbn [default from_option as_bytes as_binary as_chunks]. rewrite Hfb in *. rewrite (proj2 (Z.ltb_ge _ _)) by exact Htotal.
      split_and!; try done. cbn [fst]. unfold delivered. simpl. by rewrite app_nil_r.
    + rewrite Hfb. cbn [as_binary as_bytes as_chunks]. rewrite eqb_reflx. simpl negb. cbn match.
      pose proof (pair_limit _ _ _ Hpair) as Hlim. rewrite Hall_bytes. rewrite (proj2 (Z.ltb_ge _ _)) by lia.
      cbn [default from_option as_bytes as_binary as_chunks]. unfold id. cbn [as_bytes as_binary as_chunks]. rewrite (proj2 (Z.ltb_ge _ _)) by exact Htotal.
      split_and!; try done. cbn [fst]. unfold delivered. simpl. by rewrite app_nil_r.
Qed.

(** ** The receiving end after each frame *)

Definition pending_fragments (q : list NodeRelayDataFrame) (todo : list relay_item) : Prop :=
  q = [] \/ exists streamId data binary todo' rest, todo = DataItem streamId data binary :: todo'
              /\ message_frames streamId data binary = q ++ rest /\ rest <> [].

Definition receiving (B : channel) (log : list (bool * PendingNodeRelayWrite)) (control data : list relay_item) : Prop :=
  channel_closed B = false /\ rejections B = []
  /\ receiveSequence (rx B) = (Z.of_nat (length log) + 1)%Z /\ receiveCounter (rx B) = Z.of_nat (length log)
  /\ writes_of true log = items_writes (unordered (delivered B)) /\ unordered (delivered B) `prefix_of` control
  /\ exists q todo, dataAssemblies (rx B) = partial q
       /\ writes_of false log = items_writes (ordered (delivered B)) ++ (frame_write <$> q)
       /\ data = ordered (delivered B) ++ todo /\ pending_fragments q todo.

(** The items to be sent: control messages, and data in order. *)
Record sendable (control data : list relay_item) : Prop := Sendable {
  sendable_control : Forall (fun it => is_ordered it = false /\ valid_item it) control;
  sendable_data : Forall (fun it => is_ordered it = true /\ valid_item it) data;
  sendable_items : forall m, ControlItem m ∈ control ++ data -> ControlItem m ∈ items
}.

Lemma items_writes_cons it its : items_writes (it :: its) = item_writes it ++ items_writes its.
Proof. done. Qed.

Lemma snoc_prefix_items (l : list PendingNodeRelayWrite) w todo :
  l ++ [w] `prefix_of` items_writes todo -> exists it todo', todo = it :: todo'.
Proof. destruct todo as [|it todo]; [|by exists it, todo]. intros H%prefix_nil_inv. by destruct l. Qed.

Lemma receiving_step B log control data c w frame :
  receiving B log control data -> sendable control data -> frame_of (E := E) (length log) (c, w) = Ok frame ->
  writes_of true (log ++ [(c, w)]) `prefix_of` items_writes control ->
  writes_of false (log ++ [(c, w)]) `prefix_of` items_writes data ->
  receiving (on_message (E := E') frame true B) (log ++ [(c, w)]) control data.
Proof.
  intros HB Hsend Hf Hpc Hpd. pose proof HB as (Hcl & Hrej & Hs & Hc & Hwc & [todoc Hctl] & q & todo & Hasm & Hwd & Hdata & Hq).
  set (B' := with_rx (Receiver (Z.of_nat (length log) + 1 + 1) (Z.of_nat (length log) + 1) (dataAssemblies (rx B))) B).
  assert (Hstep : forall p s', write_plaintext w p -> receive_plaintext (E := E') p B' = (s', Ok tt) -> on_message (E := E') frame true B = s').
  { intros p s' Hp Hr. unfold on_message. rewrite (receive_written B _ _ _ _ Hf Hp Hcl Hs Hc). fold B'. by rewrite Hr. }
  assert (Hlen : length (log ++ [(c, w)]) = S (length log)) by (rewrite length_app; simpl; lia).
  rewrite !writes_of_snoc in Hpc, Hpd. destruct c; simpl in Hpc, Hpd.
  - rewrite Hwc, Hctl, items_writes_app in Hpc. apply prefix_app_inv in Hpc.
    destruct (snoc_prefix_items [] w todoc Hpc) as (it & todo' & ->).
    pose proof (sendable_control _ _ Hsend) as Hall. rewrite Hctl in Hall. apply Forall_app in Hall as [_ Hall].
    apply Forall_cons in Hall as [[Ho Hv] _]. destruct it as [m|]; [|done]. apply prefix_cons_inv_1 in Hpc. subst w.
    assert (Hin : ControlItem m ∈ items) by (apply (sendable_items _ _ Hsend); rewrite Hctl; set_solver).
    rewrite (Hstep _ _ (packed_plaintext _) (receive_control m B' Hv Hin)).
    assert (Hdel : delivered (emit (OnMessage m) B') = delivered B ++ [ControlItem m]) by (unfold delivered; simpl; by rewrite omap_app).
    unfold receiving. rewrite Hdel, unordered_app, ordered_app, unordered_singleton, ordered_singleton, Ho, app_nil_r, Hlen, !writes_of_snoc.
    simpl. rewrite app_nil_r, items_writes_app, items_writes_one, Hwc. split_and!; [done|done|lia|lia|done| |].
    + exists todo'. by rewrite Hctl, <- app_assoc.
    + by exists q, todo.
  - rewrite Hwd, Hdata, items_writes_app, <- app_assoc in Hpd. apply prefix_app_inv in Hpd.
    destruct (snoc_prefix_items _ w todo Hpd) as (it & todo' & Htodo). rewrite Htodo in Hdata, Hpd, Hq.
    pose proof (sendable_data _ _ Hsend) as Hall. rewrite Hdata in Hall. apply Forall_app in Hall as [_ Hall].
    apply Forall_cons in Hall as [[Ho Hv] _]. destruct it as [m|streamId d b].
    + assert (q = []) as -> by (destruct Hq as [?|(? & ? & ? & ? & ? & ? & _)]; [done|congruence]).
      simpl in Hpd. apply prefix_cons_inv_1 in Hpd. subst w.
      assert (Hin : ControlItem m ∈ items) by (apply (sendable_items _ _ Hsend); rewrite Hdata; set_solver).
      rewrite (Hstep _ _ (packed_plaintext _) (receive_control m B' Hv Hin)).
      assert (Hdel : delivered (emit (OnMessage m) B') = delivered B ++ [ControlItem m]) by (unfold delivered; simpl; by rewrite omap_app).
      unfold receiving. rewrite Hdel, unordered_app, ordered_app, unordered_singleton, ordered_singleton, Ho, app_nil_r, Hlen, !writes_of_snoc.
      simpl. rewrite app_nil_r, items_writes_app, items_writes_one, Hwd, app_nil_r. split_and!; [done|done|lia|lia|done|by exists todoc|].
      exists [], todo'. split_and!; [done|by rewrite app_nil_r|by rewrite Hdata, <- app_assoc|by left].
    + assert (Hsplit : exists f rest, message_frames streamId d b = q ++ f :: rest).
      { destruct Hq as [->|(i' & d' & b' & t' & rest & [= <- <- <- <-] & Hfs & Hne)].
        - pose proof (frames_of_nonempty _ _ _ _ (proj1 (message_frames_spec streamId d b))) as Hne. simpl. destruct (message_frames streamId d b) as [|f rest]; [done|by exists f, rest].
        - destruct rest as [|f rest]; [done|by exists f, rest]. }
      destruct Hsplit as (f & rest & Hfs).
      rewrite items_writes_cons, message_frames_writes, Hfs, fmap_app, fmap_cons, <- app_assoc in Hpd. apply prefix_app_inv, prefix_cons_inv_1 in Hpd. subst w.
      destruct (receive_plaintext (frame_plaintext f) B') as [s' r] eqn:Hr.
      pose proof (receive_next streamId d b q f rest B' Hfs Hv Hasm) as Hadv. rewrite Hr in Hadv. cbn [fst snd] in Hadv.
      destruct Hadv as (-> & A1 & A2 & A3 & A4 & A5 & A6). rewrite (Hstep _ _ (frame_write_plaintext f) Hr).
      change (delivered B') with (delivered B) in A6.
      unfold receiving. rewrite A1, A2, A3, A4, A5, A6, Hlen, !writes_of_snoc. simpl. rewrite app_nil_r, Hwd, Hwc.
      rewrite unordered_app, ordered_app. destruct rest as [|g rest].
      * rewrite unordered_singleton, ordered_singleton. simpl. rewrite app_nil_r, items_writes_app, items_writes_one. split_and!; [done|done|lia|lia|done|by exists todoc|].
        exists [], todo'. rewrite message_frames_writes, Hfs, fmap_app, <- !app_assoc. split_and!; [done|done|done|by left].
      * assert (unordered [] = []) as -> by done. assert (ordered [] = []) as -> by done. rewrite !app_nil_r.
        split_and!; [done|done|lia|lia|done|by exists todoc|]. exists (q ++ [f]), todo. rewrite Htodo.
        split_and!; [done|by rewrite fmap_app, <- app_assoc|done|]. right. exists streamId, d, b, todo', (g :: rest). rewrite Hfs, <- app_assoc. done.
Qed.

Definition receive_all (frames : list bytes) : channel := run_channel (E := E') ((fun frame => OpMessage frame true) <$> frames) new_channel.

Lemma writes_of_prefix b (log log' : list (bool * PendingNodeRelayWrite)) : writes_of b log `prefix_of` writes_of b (log ++ log').
Proof. unfold writes_of. rewrite filter_app, fmap_app. by apply prefix_app_r. Qed.

Lemma receiving_frames log frames control data :
  sendable control data -> imap (frame_of (E := E)) log = Ok <$> frames ->
  writes_of true log `prefix_of` items_writes control -> writes_of false log `prefix_of` items_writes data ->
  receiving (receive_all frames) log control data.
Proof.
  intros Hsend. revert frames. induction log as [|[c w] log IH] using rev_ind; intros frames Hf Hc Hd.
  - destruct frames; [|done]. split_and!; try done; [apply prefix_nil|]. exists [], data. split_and!; [done|done|done|by left].
  - rewrite imap_app in Hf. simpl in Hf. destruct frames as [|frame frames _] using rev_ind; [by destruct (imap _ log)|].
    rewrite fmap_app in Hf. apply app_inj_tail in Hf as [Hf Hw]. rewrite Nat.add_0_r in Hw.
    unfold receive_all. rewrite fmap_app, run_channel_app. apply receiving_step; [|done|done|done|done].
    apply IH; [done|etrans; [apply writes_of_prefix|done]|etrans; [apply writes_of_prefix|done]].
Qed.

Lemma items_writes_nil its : items_writes its = [] -> its = [].
Proof. destruct its as [|it its]; [done|]. rewrite items_writes_cons. intros H. apply app_eq_nil in H as [H _]. by apply item_writes_nonempty in H. Qed.
End Delivery.

Lemma prefix_cut {A} (a b : list A) (x : A) : a `prefix_of` b ++ [x] -> a <> b ++ [x] -> a `prefix_of` b.
Proof.
  intros [k Hk] Hne. destruct k as [|y k _] using rev_ind; [rewrite app_nil_r in Hk; by subst|].
  rewrite app_assoc in Hk. apply app_inj_tail in Hk as [-> _]. by exists k.
Qed.

(** What is on the wire of a run, and what the items were. *)
Lemma run_log {L : RelayLibraries} (E E' : RelayEnd) ops :
  let A := run_channel (E := E) ops new_channel in let sent := accepted (E := E) ops new_channel in
  exists log cut, imap (frame_of (E := E)) log = Ok <$> wire A
    /\ sendable sent (unordered sent) (ordered sent ++ cut)
    /\ writes_of true log `prefix_of` items_writes (unordered sent)
    /\ writes_of false log `prefix_of` items_writes (ordered sent ++ cut)
    /\ (cut = [] \/ exists it missing, cut = [it] /\ missing <> [] /\ writes_of false log ++ missing = items_writes (ordered sent ++ [it]))
    /\ (channel_closed A = false -> queued_writes (tx A) = [] ->
        cut = [] /\ writes_of true log = items_writes (unordered sent) /\ writes_of false log = items_writes (ordered sent)).
Proof.
  intros A sent. destruct (run_accepted (E := E) ops) as (C & D & Hok & _ & Hv & HC & cut & Hcut & HD). fold A sent in Hok, Hv, HC, HD.
  destruct Hok as [(log & rc & rd & Hlog & HlC & HlD & Hopen) _ _ _]. exists log.
  assert (Hsend : forall cut, Forall (fun it => is_ordered it = true /\ valid_item it /\ forall m, it <> ControlItem m) cut ->
    sendable sent (unordered sent) (ordered sent ++ cut)).
  { intros cut' Hc'. rewrite Forall_forall in Hv, Hc'. constructor.
    - apply Forall_forall. intros it [Ho Hin]%list_elem_of_filter. split; [done|by apply Hv].
    - apply Forall_forall. intros it [[Ho Hin]%list_elem_of_filter|Hin]%elem_of_app; [split; [done|by apply Hv]|]. by destruct (Hc' it Hin) as (? & ? & _).
    - intros m [[_ Hin]%list_elem_of_filter|[[_ Hin]%list_elem_of_filter|Hin]%elem_of_app]%elem_of_app; [done|done|].
      destruct (Hc' _ Hin) as (_ & _ & Hne). by destruct (Hne m). }
  assert (Hpre : writes_of true log `prefix_of` items_writes (unordered sent)) by (rewrite <- HC; by exists rc).
  assert (Hwhole : D = items_writes (ordered sent) -> exists cut, imap (frame_of (E := E)) log = Ok <$> wire A
    /\ sendable sent (unordered sent) (ordered sent ++ cut) /\ writes_of true log `prefix_of` items_writes (unordered sent)
    /\ writes_of false log `prefix_of` items_writes (ordered sent ++ cut)
    /\ (cut = [] \/ exists it missing, cut = [it] /\ missing <> [] /\ writes_of false log ++ missing = items_writes (ordered sent ++ [it]))
    /\ (channel_closed A = false -> queued_writes (tx A) = [] ->
        cut = [] /\ writes_of true log = items_writes (unordered sent) /\ writes_of false log = items_writes (ordered sent))).
  { intros HDw. exists []. rewrite app_nil_r. split_and!; [done|rewrite <- (app_nil_r (ordered sent)); by apply Hsend|done|rewrite <- HDw; by exists rd|by left|].
    intros Ho Hq. destruct (Hopen Ho) as (_ & _ & -> & ->). apply app_eq_nil in Hq as [Hq1 Hq2].
    rewrite Hq1, app_nil_r in HlC. rewrite Hq2, app_nil_r in HlD. split_and!; congruence. }
  destruct cut as [|it cut]; [by apply Hwhole|]. destruct HD as (-> & Hclosed & Hord & queued & missing & Hw & Hm & HD).
  destruct queued as [|w queued]; [apply Hwhole; by rewrite HD, app_nil_r|].
  assert (Heq : writes_of false log ++ (rd ++ missing) = items_writes (ordered sent ++ [it])).
  { rewrite app_assoc, <- HlD, HD, items_writes_app, items_writes_one, Hw. by rewrite app_assoc. }
  exists [it]. apply Forall_cons in Hcut as [Hcut _]. split_and!; [done| |done|rewrite <- Heq; by apply prefix_app_r| |congruence].
  - apply Hsend. constructor; [|done]. split_and!; [done|done|]. intros m ->. simpl in Hw. by destruct queued, missing.
  - right. exists it, (rd ++ missing). split_and!; [done|by destruct rd|done].
Qed.

(** C26. End to end: take any run of one end, whatever its calls, its socket and
    its errors were, let any prefix of the frames it put on the wire arrive at
    a fresh other end.  No frame is refused.  Of the messages and data the
    calls of the sender accepted, the receiver has delivered, whole, unchanged,
    once and in order, an initial part: control messages among themselves, and
    data with the closing of channels among themselves.  When the sender is
    open, its queues are empty and all its frames have arrived, everything was
    delivered. *)
Theorem relay_delivery {L : RelayLibraries} (E E' : RelayEnd) ops n :
  relay_pair E E' (accepted (E := E) ops new_channel) ->
  let A := run_channel (E := E) ops new_channel in
  let sent := accepted (E := E) ops new_channel in
  let B := receive_all E' (take n (wire A)) in
  channel_closed B = false /\ rejections B = []
  /\ unordered (delivered B) `prefix_of` unordered sent /\ ordered (delivered B) `prefix_of` ordered sent
  /\ (channel_closed A = false -> queued_writes (tx A) = [] -> length (wire A) <= n ->
      unordered (delivered B) = unordered sent /\ ordered (delivered B) = ordered sent).
Proof.
  intros Hpair A sent B. destruct (run_log E E' ops) as (log & cut & Hlog & Hsend & Hpc & Hpd & Hcut & Hall). fold A sent in Hlog, Hsend, Hpc, Hpd, Hcut, Hall.
  assert (Hpre : forall b, writes_of b (take n log) `prefix_of` writes_of b log).
  { intros b. rewrite <- (take_drop n log) at 2. apply writes_of_prefix. }
  destruct (receiving_frames E E' sent Hpair (take n log) (take n (wire A)) (unordered sent) (ordered sent ++ cut))
    as (H1 & H2 & _ & _ & H3 & H4 & q & todo & _ & H5 & H6 & H7); [done| |by (etrans; [apply Hpre|])|by (etrans; [apply Hpre|])|].
  { rewrite fmap_take, <- Hlog. clear. revert n. induction log as [|w log IH] using rev_ind; intros n; [by destruct n|].
    destruct (decide (n <= length log)).
    - rewrite imap_app, !take_app_le by (rewrite ?length_imap; lia). apply IH.
    - rewrite !take_ge; [done|rewrite length_imap, length_app; simpl; lia|rewrite length_app; simpl; lia]. }
  fold B in H1, H2, H3, H4, H5, H6. split_and!; [done|done|done| |].
  - destruct Hcut as [->|(it & missing & -> & Hm & Heq)]; [exists todo; by rewrite <- H6, app_nil_r|].
    apply (prefix_cut _ _ it); [by exists todo|]. intros Hfull. rewrite Hfull in H5.
    destruct (Hpre false) as [k Hk]. rewrite Hk, H5 in Heq. apply (f_equal length) in Heq. rewrite !length_app in Heq. destruct missing; [done|simpl in Heq; lia].
  - intros Ho Hq Hn. destruct (Hall Ho Hq) as (-> & HC & HD). rewrite app_nil_r in H6.
    assert (Hlen : length log = length (wire A)) by (apply (f_equal length) in Hlog; by rewrite length_imap, length_fmap in Hlog).
    rewrite take_ge in H3, H5 by lia. rewrite HC in H3. rewrite HD in H5. split.
    + destruct H4 as [t Ht]. rewrite Ht, items_writes_app in H3. rewrite <- (app_nil_r (items_writes (unordered (delivered B)))) in H3 at 2.
      apply app_inv_head, items_writes_nil in H3. by rewrite Ht, H3, app_nil_r.
    + rewrite H6, items_writes_app in H5. apply app_inv_head in H5. destruct H7 as [->|(i & d & b & todo' & rest & -> & Hfs & Hne)].
      * apply items_writes_nil in H5. by rewrite H6, H5, app_nil_r.
      * exfalso. rewrite items_writes_cons, message_frames_writes, Hfs, fmap_app in H5. apply (f_equal length) in H5.
        rewrite !length_app, !length_fmap in H5. destruct rest; [done|simpl in H5; lia].
Qed.

(** ** An example

    A box that carries its nonce, no compression, and a parser of the two
    messages of the example; the socket of the sender is congested at times. *)

Definition example_messages : list NodeRelaySessionMessage := [RelayPing; ChannelClose (js "app:1") (Some 1000%Z) None].
#[export] Instance NodeRelaySessionMessage_eq_dec : EqDecision NodeRelaySessionMessage.
Proof. solve_decision. Defined.

Definition example_libraries : RelayLibraries := {|
  secretbox payload nonce := nonce ++ payload;
  secretbox_open box nonce := if decide (take 24 box = nonce) then Some (drop 24 box) else None;
  deflate data := data;
  inflate data := Ok data;
  JSON_parse text := snd <$> list_find (fun m => text = message_bytes m) example_messages
|}.

Definition example_end (direction other : Z) : RelayEnd := {|
  options := ChannelOptions direction other true None None;
  bufferedAmount n := if bool_decide (n ∈ [2; 3; 4]) then (3 * 1024 * 1024)%Z else 0%Z;
  socket_error _ := None;
  readyState _ := Some 1%Z
|}.
Definition node_end : RelayEnd := example_end 1 2.
Definition control_plane_end : RelayEnd := example_end 2 1.

Definition example_ops : list channel_op :=
  [OpSendData 5 [1; 2; 3]%N true; OpSendData 5 [4]%N false; OpSend RelayPing; OpSend (ChannelClose (js "app:1") (Some 1000%Z) None);
   OpWait 0; OpFlushTimer].

Example example_overtaking :
  let A := run_channel (L := example_libraries) (E := node_end) example_ops new_channel in
  delivered (receive_all (L := example_libraries) control_plane_end (wire A))
  = [DataItem 5 [1; 2; 3]%N true; ControlItem RelayPing; DataItem 5 [4]%N false; ControlItem (ChannelClose (js "app:1") (Some 1000%Z) None)].
Proof. vm_compute. reflexivity. Qed.

Lemma example_pair : relay_pair (L := example_libraries) node_end control_plane_end (accepted (L := example_libraries) (E := node_end) example_ops new_channel).
Proof.
  constructor; [|done| |done|done|done].
  - intros p d n. cbn [secretbox secretbox_open example_libraries].
    change 24 with (length (sequenceNonce d n)). by rewrite take_app_length, drop_app_length, decide_True.
  - intros m Hin. assert (Hm : m = RelayPing \/ m = ChannelClose (js "app:1") (Some 1000%Z) None).
    { assert (Ha : accepted (L := example_libraries) (E := node_end) example_ops new_channel
        = [DataItem 5 [1; 2; 3]%N true; DataItem 5 [4]%N false; ControlItem RelayPing; ControlItem (ChannelClose (js "app:1") (Some 1000%Z) None)])
        by (vm_compute; reflexivity).
      rewrite Ha in Hin. do 4 (apply elem_of_cons in Hin as [Hin|Hin]; [first [discriminate Hin|injection Hin as ->; auto]|]). destruct (not_elem_of_nil _ Hin). }
    destruct Hm as [-> | ->]; vm_compute; reflexivity.
Qed.

Lemma relay_delivery_witness :
  let sent := accepted (L := example_libraries) (E := node_end) example_ops new_channel in
  let A := run_channel (L := example_libraries) (E := node_end) example_ops new_channel in
  let B := receive_all (L := example_libraries) control_plane_end (take 4 (wire A)) in
  unordered (delivered B) = unordered sent /\ ordered (delivered B) = ordered sent.
Proof.
  refine (proj2 (proj2 (proj2 (proj2 (relay_delivery (L := example_libraries) node_end control_plane_end example_ops 4 example_pair)))) _ _ _).
  - vm_compute. reflexivity.
  - vm_compute. reflexivity.
  - apply (bool_decide_unpack _). vm_compute. exact I.
Defined.

Lemma relay_channel_invariant_witness :
  let s := run_channel (L := example_libraries) (E := node_end) (take 5 example_ops) new_channel in
  flushTimer (tx s) = true /\ queued_writes (tx s) <> [].
Proof.
  assert (Ht : flushTimer (tx (run_channel (L := example_libraries) (E := node_end) (take 5 example_ops) new_channel)) = true) by (vm_compute; reflexivity).
  assert (Ho : channel_closed (run_channel (L := example_libraries) (E := node_end) (take 5 example_ops) new_channel) = false) by (vm_compute; reflexivity).
  split; [exact Ht|].
  exact (proj1 (proj1 (proj2 (proj1 (relay_channel_invariant (L := example_libraries) (E := node_end) (take 5 example_ops)) Ho))) Ht).
Defined.
