(* ===== verification/Supervisor.v ===== *)
(** * The deadlines of a WebSocket connection

    [packages/runtime-shared/src/transport/websocket-connection-supervisor.ts]:
    the timers that give up on a connection that does not open, shake hands or
    answer pings.  [setTimeout] hands out numbered timers; a timer fires when
    its time has come or later, never before.  Times are milliseconds on one
    clock. *)

From S2P Require Export Prelude.

Inductive WebSocketConnectionPhase := Connecting | Handshaking | Healthy | Failed | Closed.
Inductive WebSocketConnectionTimeout := ConnectTimeout | HandshakeTimeout | HeartbeatTimeout.
Inductive timer_key := ConnectTimer | HandshakeTimer | HeartbeatTimer | StableTimer.

#[export] Instance phase_eq_dec : EqDecision WebSocketConnectionPhase.
Proof. solve_decision. Defined.
#[export] Instance timer_key_eq_dec : EqDecision timer_key.
Proof. solve_decision. Defined.

Inductive supervisor_output :=
| SentPing
| PingThrew
| TimedOut (kind : WebSocketConnectionTimeout)
| BecameStable
| PhaseChanged (phase : WebSocketConnectionPhase).

(** The options, after their defaults. *)
Record supervisor_options := SupervisorOptions {
  connectTimeoutMs : Z;
  handshakeTimeoutMs : Z;
  heartbeatIntervalMs : Z;
  heartbeatTimeoutMs : Z;
  heartbeatMissThreshold : Z;
  stableThresholdMs : Z
}.

Definition positive (value : option Z) (fallback : Z) : Z :=
  match value with Some v => if (0 <? v)%Z then v else fallback | None => fallback end.

Definition constructor_options (connect handshake interval timeout threshold stable : option Z) : supervisor_options :=
  SupervisorOptions (positive connect 10000) (positive handshake 10000) (positive interval 25000) (positive timeout 15000)
    (Z.max 1 (positive threshold 2)) (positive stable 60000).

(** ** State

    The round-trip time last measured is the last of the recent ones.
    [supervisor_outputs] are the callbacks made, pings that threw among them. *)

Record supervisor := Supervisor {
  timers : timer_key -> option nat;
  awaitingPongSince : option Z;
  consecutiveHeartbeatMisses : Z;
  stable : bool;
  stopped : bool;
  currentPhase : WebSocketConnectionPhase;
  lastActivityAt : option Z;
  lastPongAt : option Z;
  recentPingRttMs : list Z;
  armed : gmap nat (timer_key * Z);
  next_timer : nat;
  clock : Z;
  supervisor_outputs : list supervisor_output
}.

Definition new_supervisor (now : Z) : supervisor :=
  Supervisor (fun _ => None) None 0 false false Connecting None None [] ∅ 0 now [].

Definition say (o : supervisor_output) (s : supervisor) : supervisor :=
  Supervisor (timers s) (awaitingPongSince s) (consecutiveHeartbeatMisses s) (stable s) (stopped s) (currentPhase s)
    (lastActivityAt s) (lastPongAt s) (recentPingRttMs s) (armed s) (next_timer s) (clock s) (supervisor_outputs s ++ [o]).
Definition set_timers (t : timer_key -> option nat) (a : gmap nat (timer_key * Z)) (n : nat) (s : supervisor) : supervisor :=
  Supervisor t (awaitingPongSince s) (consecutiveHeartbeatMisses s) (stable s) (stopped s) (currentPhase s)
    (lastActivityAt s) (lastPongAt s) (recentPingRttMs s) a n (clock s) (supervisor_outputs s).
Definition set_beat (awaiting : option Z) (misses : Z) (s : supervisor) : supervisor :=
  Supervisor (timers s) awaiting misses (stable s) (stopped s) (currentPhase s)
    (lastActivityAt s) (lastPongAt s) (recentPingRttMs s) (armed s) (next_timer s) (clock s) (supervisor_outputs s).
Definition set_flags (st stop : bool) (s : supervisor) : supervisor :=
  Supervisor (timers s) (awaitingPongSince s) (consecutiveHeartbeatMisses s) st stop (currentPhase s)
    (lastActivityAt s) (lastPongAt s) (recentPingRttMs s) (armed s) (next_timer s) (clock s) (supervisor_outputs s).
Definition set_seen (activity pong : option Z) (rtts : list Z) (s : supervisor) : supervisor :=
  Supervisor (timers s) (awaitingPongSince s) (consecutiveHeartbeatMisses s) (stable s) (stopped s) (currentPhase s)
    activity pong rtts (armed s) (next_timer s) (clock s) (supervisor_outputs s).

(** [this[key]] is updated. *)
Definition assign (k : timer_key) (h : option nat) (t : timer_key -> option nat) : timer_key -> option nat :=
  fun k' => if decide (k' = k) then h else t k'.

(** [setTimeout] replaces delays it cannot represent by one millisecond. *)
Definition timeout_delay (d : Z) : Z := if bool_decide (1 <= d <= 2147483647)%Z then d else 1%Z.

Definition set_timeout (k : timer_key) (delay : Z) (s : supervisor) : supervisor :=
  set_timers (assign k (Some (next_timer s)) (timers s)) (<[next_timer s := (k, clock s + timeout_delay delay)%Z]> (armed s)) (S (next_timer s)) s.

Definition clearTimer (k : timer_key) (s : supervisor) : supervisor :=
  set_timers (assign k None (timers s)) (match timers s k with Some h => delete h (armed s) | None => armed s end) (next_timer s) s.

Definition clearTimers (s : supervisor) : supervisor :=
  clearTimer StableTimer (clearTimer HeartbeatTimer (clearTimer HandshakeTimer (clearTimer ConnectTimer s))).

Definition setPhase (phase : WebSocketConnectionPhase) (s : supervisor) : supervisor :=
  if decide (currentPhase s = phase) then s else
  say (PhaseChanged phase)
    (Supervisor (timers s) (awaitingPongSince s) (consecutiveHeartbeatMisses s) (stable s) (stopped s) phase
       (lastActivityAt s) (lastPongAt s) (recentPingRttMs s) (armed s) (next_timer s) (clock s) (supervisor_outputs s)).

Section Supervisor.
Context (o : supervisor_options).

(** ** Timeouts and heartbeats *)

Definition timeout (kind : WebSocketConnectionTimeout) (s : supervisor) : supervisor :=
  if stopped s then s else say (TimedOut kind) (setPhase Failed (clearTimers s)).

Definition scheduleHeartbeat (delay : Z) (s : supervisor) : supervisor :=
  if stopped s then s else set_timeout HeartbeatTimer delay (clearTimer HeartbeatTimer s).

(** [ping_throws]: whether the transport's [ping] throws. *)
Definition sendHeartbeatProbe (ping_throws : bool) (s : supervisor) : supervisor :=
  let s := set_beat (Some (clock s)) (consecutiveHeartbeatMisses s) s in
  if ping_throws then
    let s := say PingThrew (set_beat None (consecutiveHeartbeatMisses s + 1) s) in
    if (heartbeatMissThreshold o <=? consecutiveHeartbeatMisses s)%Z then timeout HeartbeatTimeout s
    else scheduleHeartbeat (heartbeatTimeoutMs o) s
  else scheduleHeartbeat (heartbeatTimeoutMs o) (say SentPing s).

(** The callback of the heartbeat timer. *)
Definition heartbeat_fires (ping_throws : bool) (s : supervisor) : supervisor :=
  let s := set_timers (assign HeartbeatTimer None (timers s)) (armed s) (next_timer s) s in
  if stopped s then s else
  match awaitingPongSince s with
  | Some since =>
      let elapsed := Z.max 0 (clock s - since) in
      if (heartbeatTimeoutMs o <=? elapsed)%Z then
        let s := set_beat None (consecutiveHeartbeatMisses s + 1) s in
        if (heartbeatMissThreshold o <=? consecutiveHeartbeatMisses s)%Z then timeout HeartbeatTimeout s
        else sendHeartbeatProbe ping_throws s
      else scheduleHeartbeat (heartbeatTimeoutMs o - elapsed) s
  | None => sendHeartbeatProbe ping_throws s
  end.

(** ** The adapter's calls *)

Definition start (s : supervisor) : supervisor :=
  set_timeout ConnectTimer (connectTimeoutMs o) (clearTimer ConnectTimer (setPhase Connecting (set_flags (stable s) false s))).

Definition opened (s : supervisor) : supervisor :=
  if stopped s then s else
  scheduleHeartbeat (heartbeatIntervalMs o)
    (set_timeout HandshakeTimer (handshakeTimeoutMs o) (setPhase Handshaking (clearTimer ConnectTimer s))).

Definition is_live (phase : WebSocketConnectionPhase) : bool := match phase with Handshaking | Healthy => true | _ => false end.

Definition activity (s : supervisor) : supervisor :=
  if stopped s then s else
  let s := set_beat None 0 (set_seen (Some (clock s)) (lastPongAt s) (recentPingRttMs s) s) in
  if is_live (currentPhase s) then scheduleHeartbeat (heartbeatIntervalMs o) s else s.

Definition healthy (s : supervisor) : supervisor :=
  if stopped s then s else
  let s := setPhase Healthy (activity (clearTimer HandshakeTimer s)) in
  if negb (stable s) && match timers s StableTimer with None => true | Some _ => false end
  then set_timeout StableTimer (stableThresholdMs o) s else s.

(** The callback of the stable timer. *)
Definition stable_fires (s : supervisor) : supervisor :=
  let s := set_timers (assign StableTimer None (timers s)) (armed s) (next_timer s) s in
  if stopped s || negb (bool_decide (currentPhase s = Healthy)) then s
  else say BecameStable (set_flags true (stopped s) s).

Definition RECENT_PING_RTT_SAMPLE_LIMIT : nat := 20.

Definition pong (s : supervisor) : supervisor :=
  if stopped s then s else
  let timestamp := clock s in
  let rtts := match awaitingPongSince s with
              | Some since =>
                  let rtts := recentPingRttMs s ++ [Z.max 0 (timestamp - since)] in
                  if bool_decide (RECENT_PING_RTT_SAMPLE_LIMIT < length rtts) then tail rtts else rtts
              | None => recentPingRttMs s
              end in
  scheduleHeartbeat (heartbeatIntervalMs o) (set_beat None 0 (set_seen (Some timestamp) (Some timestamp) rtts s)).

Definition close_supervisor (s : supervisor) : supervisor :=
  if stopped s then s else
  let s := clearTimers (set_flags (stable s) true s) in
  setPhase Closed (set_beat None (consecutiveHeartbeatMisses s) s).

(** ** Diagnostics *)

(** [sorted[Math.ceil(sorted.length * 0.95) - 1]], for at most the samples
    kept. *)
Definition percentile95 (values : list Z) : option Z :=
  match values with
  | [] => None
  | _ => js_sort (fun a b => a - b)%Z values !! ((19 * length values + 19) / 20 - 1)
  end.

(** ** Events *)

Inductive supervisor_event :=
| Opened
| BecameHealthy
| SawActivity
| SawPong
| CloseCalled
| TimerFires (h : nat) (ping_throws : bool)
| Elapses (ms : Z).

(** A timer that fires is no longer armed; then its callback runs. *)
Definition timer_fires (h : nat) (ping_throws : bool) (s : supervisor) : option supervisor :=
  match armed s !! h with
  | Some (k, deadline) =>
      if (deadline <=? clock s)%Z then
        let s := set_timers (timers s) (delete h (armed s)) (next_timer s) s in
        Some (match k with
              | ConnectTimer => timeout ConnectTimeout s
              | HandshakeTimer => timeout HandshakeTimeout s
              | HeartbeatTimer => heartbeat_fires ping_throws s
              | StableTimer => stable_fires s
              end)
      else None
  | None => None
  end.

Definition elapse (ms : Z) (s : supervisor) : supervisor :=
  Supervisor (timers s) (awaitingPongSince s) (consecutiveHeartbeatMisses s) (stable s) (stopped s) (currentPhase s)
    (lastActivityAt s) (lastPongAt s) (recentPingRttMs s) (armed s) (next_timer s) (clock s + ms) (supervisor_outputs s).

Definition supervisor_step (ev : supervisor_event) (s : supervisor) : option supervisor :=
  match ev with
  | Opened => Some (opened s)
  | BecameHealthy => Some (healthy s)
  | SawActivity => Some (activity s)
  | SawPong => Some (pong s)
  | CloseCalled => Some (close_supervisor s)
  | TimerFires h ping_throws => timer_fires h ping_throws s
  | Elapses ms => if (0 <=? ms)%Z then Some (elapse ms s) else None
  end.
End Supervisor.
