(* ===== verification/SupervisorSpec.v ===== *)
(** * When a supervised connection is given up

    Each deadline is exact: a connection that opens, shakes hands or shows a
    sign of life in time is never given up, and one that does not is given up
    at the deadline when timers fire on time. *)

From S2P Require Export Supervisor.

(** ** Timers and their handles *)

(** Every armed timer is the one its key holds, and the other way round. *)
Record linked (s : supervisor) : Prop := Linked {
  linked_held h k d : armed s !! h = Some (k, d) -> timers s k = Some h;
  linked_armed k h : timers s k = Some h -> exists d, armed s !! h = Some (k, d);
  linked_fresh h e : armed s !! h = Some e -> h < next_timer s
}.

Definition deadline (s : supervisor) (k : timer_key) : option Z := h ← timers s k; snd <$> armed s !! h.

Lemma deadline_None s k : linked s -> deadline s k = None <-> timers s k = None.
Proof.
  intros Hl. unfold deadline. destruct (timers s k) as [h|] eqn:Hk; [|done]. destruct (linked_armed _ Hl _ _ Hk) as [d Hd]. simpl. by rewrite Hd.
Qed.

Lemma deadline_Some s k h d : linked s -> armed s !! h = Some (k, d) -> deadline s k = Some d.
Proof. intros Hl Ha. unfold deadline. rewrite (linked_held _ Hl _ _ _ Ha). simpl. by rewrite Ha. Qed.

(** States that agree on what timers look at. *)
Lemma linked_same s s' : armed s' = armed s -> timers s' = timers s -> next_timer s' = next_timer s -> linked s -> linked s'.
Proof. intros Ha Ht Hn [H1 H2 H3]. constructor; rewrite ?Ha, ?Ht, ?Hn; done. Qed.

Lemma clear_linked k s : linked s -> linked (clearTimer k s).
Proof.
  intros [H1 H2 H3]. unfold clearTimer. constructor; simpl.
  - intros h k' d Hh. unfold assign. destruct (timers s k) as [h0|] eqn:Hk.
    + apply lookup_delete_Some in Hh as [Hne Hh]. pose proof (H1 _ _ _ Hh). case_decide; [congruence|done].
    + pose proof (H1 _ _ _ Hh). case_decide; [congruence|done].
  - intros k' h. unfold assign. case_decide as Hk; [done|]. intros Hh. destruct (H2 _ _ Hh) as [d Hd]. exists d.
    destruct (timers s k) as [h0|] eqn:Hk0; [|done]. apply lookup_delete_Some. split; [|done]. intros ->.
    destruct (H2 _ _ Hk0) as [d' Hd']. congruence.
  - intros h e. destruct (timers s k); [intros [_ Hh]%lookup_delete_Some|intros Hh]; by eapply H3.
Qed.

Lemma clear_deadline k s k' : linked s -> deadline (clearTimer k s) k' = if decide (k' = k) then None else deadline s k'.
Proof.
  intros [H1 H2 H3]. unfold deadline, clearTimer, assign. simpl. case_decide as Hk; [done|]. destruct (timers s k') as [h'|] eqn:Hk'; [|done]. simpl.
  destruct (timers s k) as [h|] eqn:Hk0; [|done]. rewrite lookup_delete_ne; [done|]. intros ->.
  destruct (H2 _ _ Hk') as [d Hd], (H2 _ _ Hk0) as [d' Hd']. congruence.
Qed.

Lemma set_timeout_linked k delay s : linked s -> timers s k = None -> linked (set_timeout k delay s).
Proof.
  intros [H1 H2 H3] Hk. unfold set_timeout. constructor; simpl.
  - intros h k' d. unfold assign. destruct (decide (h = next_timer s)) as [-> |Hne].
    + rewrite lookup_insert_eq. intros [= <- _]. by rewrite decide_True.
    + rewrite lookup_insert_ne by done. intros Hh. pose proof (H1 _ _ _ Hh). case_decide; [congruence|done].
  - intros k' h. unfold assign. case_decide as Hk'.
    + intros [= <-]. rewrite Hk', lookup_insert_eq. by eexists.
    + intros Hh. destruct (H2 _ _ Hh) as [d Hd]. exists d. rewrite lookup_insert_ne; [done|]. intros <-. apply H3 in Hd. lia.
  - intros h e. destruct (decide (h = next_timer s)) as [-> |Hne]; [lia|]. rewrite lookup_insert_ne by done. intros Hh. apply H3 in Hh. lia.
Qed.

Lemma set_timeout_deadline k delay s k' :
  linked s -> deadline (set_timeout k delay s) k' = if decide (k' = k) then Some (clock s + timeout_delay delay)%Z else deadline s k'.
Proof.
  intros [H1 H2 H3]. unfold deadline, set_timeout, assign. simpl. case_decide as Hk; [simpl; by rewrite lookup_insert_eq|].
  destruct (timers s k') as [h'|] eqn:Hk'; [|done]. simpl. rewrite lookup_insert_ne; [done|]. intros <-. destruct (H2 _ _ Hk') as [d Hd]. apply H3 in Hd. lia.
Qed.

(** A fired timer: its key is cleared by the callback. *)
Lemma fired_linked h k d s :
  linked s -> armed s !! h = Some (k, d) ->
  set_timers (assign k None (timers s)) (delete h (armed s)) (next_timer s) s = clearTimer k s.
Proof. intros Hl Ha. unfold clearTimer. by rewrite (linked_held _ Hl _ _ _ Ha). Qed.

Lemma timeout_delay_id d : (1 <= d <= 2147483647)%Z -> timeout_delay d = d.
Proof. intros Hd. unfold timeout_delay. by rewrite bool_decide_eq_true_2. Qed.

(** ** Clearing everything *)

Definition held_only (s : supervisor) : Prop := forall h k d, armed s !! h = Some (k, d) -> timers s k = Some h.

Lemma clear_held k s :
  held_only s -> held_only (clearTimer k s)
  /\ forall h k' d, armed (clearTimer k s) !! h = Some (k', d) -> k' <> k /\ armed s !! h = Some (k', d).
Proof.
  intros Hs. assert (H : forall h k' d, armed (clearTimer k s) !! h = Some (k', d) -> k' <> k /\ armed s !! h = Some (k', d)).
  { intros h k' d. unfold clearTimer. simpl. destruct (timers s k) as [h0|] eqn:Hk.
    - intros [Hne Hh]%lookup_delete_Some. split; [|done]. intros ->. pose proof (Hs _ _ _ Hh). congruence.
    - intros Hh. split; [|done]. intros ->. pose proof (Hs _ _ _ Hh). congruence. }
  split; [|done]. intros h k' d Hh. destruct (H _ _ _ Hh) as [Hne Hh']. unfold clearTimer, assign. simpl. rewrite decide_False by done. by eapply Hs.
Qed.

Lemma clearTimers_empty s : held_only s -> armed (clearTimers s) = ∅ /\ forall k, timers (clearTimers s) k = None.
Proof.
  intros H0. unfold clearTimers. destruct (clear_held ConnectTimer s H0) as [H1 K1]. destruct (clear_held HandshakeTimer _ H1) as [H2 K2].
  destruct (clear_held HeartbeatTimer _ H2) as [H3 K3]. destruct (clear_held StableTimer _ H3) as [H4 K4]. split.
  - apply map_empty. intros h. destruct (_ !! h) as [[k d]|] eqn:Hh; [|done]. apply K4 in Hh as [N4 Hh]. apply K3 in Hh as [N3 Hh].
    apply K2 in Hh as [N2 Hh]. apply K1 in Hh as [N1 _]. by destruct k.
  - intros []; reflexivity.
Qed.

Lemma nothing_linked s : armed s = ∅ -> (forall k, timers s k = None) -> linked s /\ forall k, deadline s k = None.
Proof.
  intros Ha Ht. split; [|intros k; unfold deadline; by rewrite Ht].
  constructor; [intros h k d; by rewrite Ha, lookup_empty|intros k h; by rewrite Ht|intros h e; by rewrite Ha, lookup_empty].
Qed.

(** ** The run of one connection *)

(** When it was started, opened, last showed a sign of life, became healthy. *)
Record marks := Marks { started_at : Z; opened_at : Z; sign_at : Z; healthy_at : Z }.

Definition mark (ev : supervisor_event) (s : supervisor) (g : marks) : marks :=
  match ev with
  | Opened => Marks (started_at g) (clock s) (clock s) (healthy_at g)
  | BecameHealthy => Marks (started_at g) (opened_at g) (clock s) (if decide (currentPhase s = Healthy) then healthy_at g else clock s)
  | SawActivity | SawPong => Marks (started_at g) (opened_at g) (clock s) (healthy_at g)
  | _ => g
  end.

(** How adapters use a supervisor: a socket opens once, and only an open one
    shows signs of life. *)
Definition allowed (ev : supervisor_event) (s : supervisor) : Prop :=
  match ev with
  | Opened => currentPhase s = Connecting
  | BecameHealthy | SawActivity | SawPong => is_live (currentPhase s) = true
  | _ => True
  end.

(** Timers fire on time: no time passes beyond a deadline. *)
Definition on_time (ev : supervisor_event) (s : supervisor) : Prop :=
  match ev with Elapses ms => forall k d, deadline s k = Some d -> (clock s + ms <= d)%Z | _ => True end.
Definition ping_sent (ev : supervisor_event) : Prop := match ev with TimerFires _ ping_throws => ping_throws = false | _ => True end.

Section Supervisor.
Context (o : supervisor_options) (prompt pings : bool).

Inductive supervised : supervisor -> marks -> Prop :=
| supervised_start now : supervised (start o (new_supervisor now)) (Marks now now now now)
| supervised_step s g ev s' (Hs : supervised s g) (Hallowed : allowed ev s) (Hprompt : prompt = true -> on_time ev s)
    (Hping : pings = true -> ping_sent ev) (Hstep : supervisor_step o ev s = Some s') : supervised s' (mark ev s g).

Record options_ok : Prop := OptionsOk {
  ok_connect : (1 <= connectTimeoutMs o <= 2147483647)%Z;
  ok_handshake : (1 <= handshakeTimeoutMs o <= 2147483647)%Z;
  ok_interval : (1 <= heartbeatIntervalMs o <= 2147483647)%Z;
  ok_timeout : (1 <= heartbeatTimeoutMs o <= 2147483647)%Z;
  ok_threshold : (1 <= heartbeatMissThreshold o)%Z;
  ok_stable : (1 <= stableThresholdMs o <= 2147483647)%Z
}.
Context (Ho : options_ok).

(** When the next probe is sent, or its answer given up, in the absence of
    further signs. *)
Definition silence (g : marks) (misses : Z) : Z := (sign_at g + heartbeatIntervalMs o + misses * heartbeatTimeoutMs o)%Z.

Definition beat_ok (s : supervisor) (g : marks) : Prop :=
  exists d, deadline s HeartbeatTimer = Some d /\ (0 <= consecutiveHeartbeatMisses s < heartbeatMissThreshold o)%Z
    /\ match awaitingPongSince s with
       | None => (silence g (consecutiveHeartbeatMisses s) <= d)%Z /\ (prompt = true -> d = silence g (consecutiveHeartbeatMisses s))
                 /\ (pings = true -> consecutiveHeartbeatMisses s = 0%Z)
       | Some a => (silence g (consecutiveHeartbeatMisses s) <= a)%Z /\ (prompt = true -> a = silence g (consecutiveHeartbeatMisses s))
                   /\ d = (a + heartbeatTimeoutMs o)%Z
       end.

Record supervised_ok (s : supervisor) (g : marks) : Prop := SupervisedOk {
  sv_linked : linked s;
  sv_prompt : prompt = true -> forall k d, deadline s k = Some d -> (clock s <= d)%Z;
  sv_stopped : stopped s = bool_decide (currentPhase s = Closed);
  sv_beat : is_live (currentPhase s) = true -> beat_ok s g;
  sv_deadlines :
    match currentPhase s with
    | Connecting => deadline s ConnectTimer = Some (started_at g + connectTimeoutMs o)%Z /\ deadline s HandshakeTimer = None
        /\ deadline s HeartbeatTimer = None /\ deadline s StableTimer = None /\ stable s = false
        /\ awaitingPongSince s = None /\ consecutiveHeartbeatMisses s = 0%Z
    | Handshaking => deadline s ConnectTimer = None /\ deadline s HandshakeTimer = Some (opened_at g + handshakeTimeoutMs o)%Z
        /\ deadline s StableTimer = None /\ stable s = false
    | Healthy => deadline s ConnectTimer = None /\ deadline s HandshakeTimer = None
        /\ deadline s StableTimer = (if stable s then None else Some (healthy_at g + stableThresholdMs o)%Z)
        /\ (stable s = true -> healthy_at g + stableThresholdMs o <= clock s)%Z
    | _ => forall k, deadline s k = None
    end
}.

(** What may be announced, and when. *)
Definition justified (s : supervisor) (g : marks) (out : supervisor_output) : Prop :=
  match out with
  | TimedOut ConnectTimeout => currentPhase s = Connecting /\ (started_at g + connectTimeoutMs o <= clock s)%Z
  | TimedOut HandshakeTimeout => currentPhase s = Handshaking /\ (opened_at g + handshakeTimeoutMs o <= clock s)%Z
  | TimedOut HeartbeatTimeout => is_live (currentPhase s) = true
      /\ (silence g (if pings then heartbeatMissThreshold o else heartbeatMissThreshold o - 1) <= clock s)%Z
  | BecameStable => currentPhase s = Healthy /\ stable s = false /\ (healthy_at g + stableThresholdMs o <= clock s)%Z
  | _ => True
  end.

Definition step_result (s : supervisor) (g : marks) (s' : supervisor) (g' : marks) : Prop :=
  supervised_ok s' g' /\ exists new, supervisor_outputs s' = supervisor_outputs s ++ new /\ Forall (justified s g) new.

(** States with the same timers. *)
Record same_timers (s s' : supervisor) : Prop := SameTimers {
  same_linked : linked s -> linked s';
  same_deadline k : deadline s' k = deadline s k;
  same_clock : clock s' = clock s
}.

Lemma timers_same s s' :
  armed s' = armed s -> timers s' = timers s -> next_timer s' = next_timer s -> clock s' = clock s -> same_timers s s'.
Proof. intros Ha Ht Hn Hc. constructor; [by apply linked_same|intros k; unfold deadline; by rewrite Ha, Ht|done]. Qed.

Lemma setPhase_same p s :
  same_timers s (setPhase p s) /\ currentPhase (setPhase p s) = p /\ stopped (setPhase p s) = stopped s /\ stable (setPhase p s) = stable s
  /\ awaitingPongSince (setPhase p s) = awaitingPongSince s /\ consecutiveHeartbeatMisses (setPhase p s) = consecutiveHeartbeatMisses s
  /\ timers (setPhase p s) = timers s
  /\ exists new, supervisor_outputs (setPhase p s) = supervisor_outputs s ++ new /\ Forall (fun out => out = PhaseChanged p) new.
Proof.
  unfold setPhase. case_decide as Hp; (split; [by apply timers_same|]); simpl; split_and!; try done.
  - exists []. by rewrite app_nil_r.
  - exists [PhaseChanged p]. split; [done|by repeat constructor].
Qed.

Lemma announced_justified s g p new : Forall (fun out => out = PhaseChanged p) new -> Forall (justified s g) new.
Proof. intros H. eapply Forall_impl; [exact H|]. by intros out ->. Qed.

(** A timeout leaves nothing armed. *)
Lemma timeout_ok kind s0 s g g' :
  held_only s -> stopped s = false -> supervisor_outputs s = supervisor_outputs s0 ++ [] \/ supervisor_outputs s = supervisor_outputs s0 ++ [PingThrew] ->
  justified s0 g (TimedOut kind) -> step_result s0 g (timeout kind s) g'.
Proof.
  intros Hheld Hst Hout Hj. unfold timeout. rewrite Hst. destruct (clearTimers_empty s Hheld) as [Ha Ht].
  assert (Hlinked : linked (clearTimers s) /\ forall k, deadline (clearTimers s) k = None) by by apply nothing_linked.
  destruct Hlinked as [Hl Hd]. assert (Hfields : stopped (clearTimers s) = false /\ supervisor_outputs (clearTimers s) = supervisor_outputs s) by done.
  destruct Hfields as [Hst' Hout']. set (c := clearTimers s) in *. clearbody c.
  destruct (setPhase_same Failed c) as (Hsame & Hp & Hs & _ & _ & _ & _ & new & Hnew & Hf). split.
  - constructor; simpl.
    + eapply linked_same; [..|by apply (same_linked _ _ Hsame), Hl]; done.
    + intros _ k d Hk. change (deadline (setPhase Failed c) k = Some d) in Hk. rewrite (same_deadline _ _ Hsame), Hd in Hk. done.
    + by rewrite Hp, Hs, Hst'.
    + by rewrite Hp.
    + rewrite Hp. intros k. change (deadline (setPhase Failed c) k = None). by rewrite (same_deadline _ _ Hsame).
  - destruct Hout as [Hout|Hout].
    + exists (new ++ [TimedOut kind]). simpl. rewrite Hnew, Hout', Hout, app_nil_r, app_assoc. split; [done|].
      apply Forall_app. split; [by eapply announced_justified|by repeat constructor].
    + exists (PingThrew :: new ++ [TimedOut kind]). simpl. rewrite Hnew, Hout', Hout, <- !app_assoc. split; [done|].
      constructor; [done|]. apply Forall_app. split; [by eapply announced_justified|by repeat constructor].
Qed.

(** ** Each event *)

Lemma schedule_linked delay s :
  stopped s = false -> linked s -> (1 <= delay <= 2147483647)%Z ->
  linked (scheduleHeartbeat delay s)
  /\ forall k, deadline (scheduleHeartbeat delay s) k = if decide (k = HeartbeatTimer) then Some (clock s + delay)%Z else deadline s k.
Proof.
  intros Hst Hl Hd. unfold scheduleHeartbeat. rewrite Hst. pose proof (clear_linked HeartbeatTimer s Hl) as Hc. split.
  - by apply set_timeout_linked.
  - intros k. rewrite set_timeout_deadline by done. rewrite timeout_delay_id by done. case_decide as Hk; [done|].
    rewrite clear_deadline by done. by rewrite decide_False.
Qed.

Lemma schedule_fields delay s :
  let s' := scheduleHeartbeat delay s in
  clock s' = clock s /\ stopped s' = stopped s /\ currentPhase s' = currentPhase s /\ awaitingPongSince s' = awaitingPongSince s
  /\ consecutiveHeartbeatMisses s' = consecutiveHeartbeatMisses s /\ stable s' = stable s /\ supervisor_outputs s' = supervisor_outputs s.
Proof. unfold scheduleHeartbeat. destruct (stopped s) eqn:E; simpl; rewrite ?E; done. Qed.

(** The heartbeat is scheduled anew, and nothing else moves. *)
Lemma rescheduled_ok s g s1 g' delay :
  supervised_ok s g -> is_live (currentPhase s) = true ->
  linked s1 -> (forall k, k <> HeartbeatTimer -> deadline s1 k = deadline s k) -> clock s1 = clock s -> stopped s1 = false -> currentPhase s1 = currentPhase s -> stable s1 = stable s ->
  (1 <= delay <= 2147483647)%Z -> started_at g' = started_at g -> opened_at g' = opened_at g -> healthy_at g' = healthy_at g ->
  (0 <= consecutiveHeartbeatMisses s1 < heartbeatMissThreshold o)%Z ->
  match awaitingPongSince s1 with
  | None => (silence g' (consecutiveHeartbeatMisses s1) <= clock s + delay)%Z
      /\ (prompt = true -> clock s + delay = silence g' (consecutiveHeartbeatMisses s1))%Z /\ (pings = true -> consecutiveHeartbeatMisses s1 = 0%Z)
  | Some a => (silence g' (consecutiveHeartbeatMisses s1) <= a)%Z /\ (prompt = true -> a = silence g' (consecutiveHeartbeatMisses s1))
      /\ (clock s + delay = a + heartbeatTimeoutMs o)%Z
  end ->
  supervised_ok (scheduleHeartbeat delay s1) g'.
Proof.
  intros Hok Hlive Hl1 Hsame Hclock Hst Hp Hstable Hd Hg1 Hg2 Hg3 Hmiss Hbeat. destruct Hok as [Hl Hprompt _ _ Hdl]. destruct (schedule_linked delay s1 Hst Hl1 Hd) as [Hl2 Hd2].
  destruct (schedule_fields delay s1) as (F1 & F2 & F3 & F4 & F5 & F6 & _). set (s2 := scheduleHeartbeat delay s1) in *. clearbody s2.
  assert (Hd3 : forall k, deadline s2 k = if decide (k = HeartbeatTimer) then Some (clock s + delay)%Z else deadline s k).
  { intros k. rewrite Hd2, Hclock. case_decide; [done|by apply Hsame]. }
  constructor.
  - done.
  - intros Hpr k d. rewrite Hd3, F1, Hclock. case_decide; [intros [= <-]; lia|]. by apply Hprompt.
  - rewrite F2, F3, Hp, Hst. by destruct (currentPhase s).
  - intros _. exists (clock s + delay)%Z. rewrite Hd3, decide_True, F4, F5 by done. done.
  - rewrite F3, Hp, !Hd3, F1, F6, Hg2, Hg3, Hstable, Hclock. destruct (currentPhase s); try done; by rewrite !decide_False.
Qed.

Lemma live_open s g : supervised_ok s g -> is_live (currentPhase s) = true -> stopped s = false.
Proof. intros Hok Hlive. rewrite (sv_stopped _ _ Hok). by destruct (currentPhase s). Qed.

Lemma silence_0 g : silence g 0 = (sign_at g + heartbeatIntervalMs o)%Z.
Proof. unfold silence. lia. Qed.

Lemma sign_ok s g activity pong rtts :
  supervised_ok s g -> is_live (currentPhase s) = true ->
  supervised_ok (scheduleHeartbeat (heartbeatIntervalMs o) (set_beat None 0 (set_seen activity pong rtts s)))
    (Marks (started_at g) (opened_at g) (clock s) (healthy_at g)).
Proof.
  intros Hok Hlive. pose proof (live_open s g Hok Hlive) as Hst. pose proof (ok_threshold Ho). pose proof (ok_interval Ho).
  eapply rescheduled_ok; try done; [by eapply linked_same; [..|apply Hok]|simpl; lia|]. simpl. rewrite silence_0. simpl. done.
Qed.

Lemma no_output s g s' g' : supervised_ok s' g' -> supervisor_outputs s' = supervisor_outputs s -> step_result s g s' g'.
Proof. intros Hok Hout. split; [done|]. exists []. by rewrite app_nil_r. Qed.

Lemma opened_ok s g :
  supervised_ok s g -> currentPhase s = Connecting -> step_result s g (opened o s) (mark Opened s g).
Proof.
  intros Hok Hp. destruct Hok as [Hl Hprompt Hst _ Hdl]. rewrite Hp in Hst, Hdl. simpl in Hst. destruct Hdl as (D1 & D2 & D3 & D4 & D5 & D6 & D7).
  unfold opened. rewrite Hst. set (s1 := clearTimer ConnectTimer s). destruct (setPhase_same Handshaking s1) as (Hsame & P1 & P2 & P3 & P4 & P5 & P6 & new & P7 & P8).
  set (s2 := setPhase Handshaking s1) in *. clearbody s2.
  assert (Hl2 : linked s2) by (apply (same_linked _ _ Hsame), clear_linked, Hl).
  assert (Hd2 : forall k, deadline s2 k = if decide (k = ConnectTimer) then None else deadline s k).
  { intros k. rewrite (same_deadline _ _ Hsame). by apply clear_deadline. }
  assert (Hc2 : clock s2 = clock s) by apply (same_clock _ _ Hsame).
  assert (Hl3 : linked (set_timeout HandshakeTimer (handshakeTimeoutMs o) s2)).
  { apply set_timeout_linked; [done|]. apply deadline_None; [done|]. by rewrite Hd2, decide_False. }
  destruct (schedule_linked (heartbeatIntervalMs o) (set_timeout HandshakeTimer (handshakeTimeoutMs o) s2)) as [Hl4 Hd4]; [by simpl; rewrite P2|done|apply Ho|].
  destruct (schedule_fields (heartbeatIntervalMs o) (set_timeout HandshakeTimer (handshakeTimeoutMs o) s2)) as (F1 & F2 & F3 & F4 & F5 & F6 & F7).
  set (s4 := scheduleHeartbeat _ _) in *. clearbody s4. simpl in F1, F2, F3, F4, F5, F6, F7.
  assert (Hd : forall k, deadline s4 k = match k with ConnectTimer => None | HandshakeTimer => Some (clock s + handshakeTimeoutMs o)%Z
      | HeartbeatTimer => Some (clock s + heartbeatIntervalMs o)%Z | StableTimer => None end).
  { intros k. rewrite Hd4. simpl clock. rewrite Hc2. destruct k; simpl; try done; rewrite set_timeout_deadline by done; simpl; rewrite ?Hd2, ?Hc2; simpl; try done.
    rewrite timeout_delay_id; [done|apply Ho]. }
  pose proof (ok_threshold Ho). pose proof (ok_interval Ho). pose proof (ok_handshake Ho). split.
  - constructor.
    + done.
    + intros _ k d. rewrite Hd, F1, Hc2. destruct k; intros [= <-]; lia.
    + rewrite F2, F3, P1, P2. done.
    + intros _. exists (clock s + heartbeatIntervalMs o)%Z. rewrite Hd, F4, F5, P4, P5. change (awaitingPongSince s1) with (awaitingPongSince s).
      change (consecutiveHeartbeatMisses s1) with (consecutiveHeartbeatMisses s). rewrite D6, D7, silence_0. simpl. split_and!; try done; lia.
    + rewrite F3, P1, !Hd, F6, P3. done.
  - exists new. rewrite F7, P7. split; [done|by eapply announced_justified].
Qed.

Lemma healthy_ok s g :
  supervised_ok s g -> is_live (currentPhase s) = true -> step_result s g (healthy o s) (mark BecameHealthy s g).
Proof.
  intros Hok Hlive. pose proof (live_open s g Hok Hlive) as Hst. destruct Hok as [Hl Hprompt _ _ Hdl].
  unfold healthy. rewrite Hst. set (s1 := clearTimer HandshakeTimer s). unfold activity. change (stopped s1) with (stopped s). rewrite Hst.
  set (s2 := set_beat None 0 (set_seen (Some (clock s1)) (lastPongAt s1) (recentPingRttMs s1) s1)).
  change (currentPhase s2) with (currentPhase s). rewrite Hlive.
  assert (Hl2 : linked s2) by (eapply linked_same; [..|apply (clear_linked HandshakeTimer s Hl)]; done).
  assert (Hd2 : forall k, deadline s2 k = if decide (k = HandshakeTimer) then None else deadline s k) by (intros k; apply (clear_deadline HandshakeTimer s k Hl)).
  destruct (schedule_linked (heartbeatIntervalMs o) s2 Hst Hl2 (ok_interval Ho)) as [Hl3 Hd3].
  destruct (schedule_fields (heartbeatIntervalMs o) s2) as (F1 & F2 & F3 & F4 & F5 & F6 & F7).
  set (s3 := scheduleHeartbeat _ _) in *. clearbody s3. simpl in F1, F2, F3, F4, F5, F6, F7.
  destruct (setPhase_same Healthy s3) as (Hsame & P1 & P2 & P3 & P4 & P5 & P6 & new & P7 & P8).
  set (s4 := setPhase Healthy s3) in *. clearbody s4.
  assert (Hl4 : linked s4) by by apply (same_linked _ _ Hsame).
  assert (Hd4 : forall k, deadline s4 k = if decide (k = HeartbeatTimer) then Some (clock s + heartbeatIntervalMs o)%Z
                                           else if decide (k = HandshakeTimer) then None else deadline s k).
  { intros k. rewrite (same_deadline _ _ Hsame), Hd3. case_decide; [done|]. apply Hd2. }
  assert (Hc4 : clock s4 = clock s) by (rewrite (same_clock _ _ Hsame); done).
  assert (Hstable : exists hs, deadline s ConnectTimer = None /\ deadline s StableTimer = (if stable s then None else hs)
      /\ match hs with None => currentPhase s = Handshaking /\ stable s = false | Some d => currentPhase s = Healthy /\ d = (healthy_at g + stableThresholdMs o)%Z end
      /\ (stable s = true -> currentPhase s = Healthy /\ healthy_at g + stableThresholdMs o <= clock s)%Z).
  { destruct (currentPhase s); try done.
    - destruct Hdl as (D1 & D2 & D3 & D4). exists None. rewrite D4. split_and!; done.
    - destruct Hdl as (D1 & D2 & D3 & D4). exists (Some (healthy_at g + stableThresholdMs o)%Z). split_and!; try done. intros Hs. split; [done|by apply D4]. }
  destruct Hstable as (hs & Dc & Ds & Hhs & Hstab). pose proof (ok_stable Ho). pose proof (ok_interval Ho). pose proof (ok_threshold Ho).
  assert (Hbeat : forall s5 g', deadline s5 HeartbeatTimer = Some (clock s + heartbeatIntervalMs o)%Z -> awaitingPongSince s5 = None ->
    consecutiveHeartbeatMisses s5 = 0%Z -> sign_at g' = clock s -> beat_ok s5 g').
  { intros s5 g' B1 B2 B3 B4. exists (clock s + heartbeatIntervalMs o)%Z. rewrite B2, B3, silence_0, B4. split_and!; try done; lia. }
  rewrite P3, F6. assert (Htimer : timers s4 StableTimer = None <-> deadline s StableTimer = None).
  { rewrite <- deadline_None by done. by rewrite Hd4. }
  destruct (negb (stable s) && _) eqn:Hnew.
  - propify. assert (Hnone : timers s4 StableTimer = None) by by destruct (timers s4 StableTimer).
    assert (hs = None) as ->. { apply Htimer in Hnone. rewrite Hnone, H2 in Ds. by rewrite Ds. }
    destruct Hhs as [Hphase _]. pose proof (set_timeout_linked StableTimer (stableThresholdMs o) s4 Hl4 Hnone) as Hl5.
    assert (Hd5 : forall k, deadline (set_timeout StableTimer (stableThresholdMs o) s4) k
        = if decide (k = StableTimer) then Some (clock s + stableThresholdMs o)%Z else deadline s4 k).
    { intros k. rewrite set_timeout_deadline by done. by rewrite timeout_delay_id, Hc4. }
    split.
    + constructor.
      * done.
      * intros Hpr k d. rewrite Hd5, Hd4. simpl clock. rewrite Hc4. intros Hd. repeat case_decide; try (injection Hd as <-; lia); [done|by eapply Hprompt].
      * simpl. by rewrite P1, P2, F2.
      * intros _. apply Hbeat; [by rewrite Hd5, Hd4|simpl; by rewrite P4|simpl; by rewrite P5|done].
      * simpl currentPhase. rewrite P1. rewrite !Hd5, !Hd4. simpl. rewrite P3, F6, H2, Dc, decide_False by by rewrite Hphase. by split_and!.
    + exists new. simpl. rewrite P7, F7. split; [done|by eapply announced_justified].
  - split.
    + constructor.
      * done.
      * intros Hpr k d. rewrite Hd4, Hc4. intros Hd. repeat case_decide; try (injection Hd as <-; lia); [done|by eapply Hprompt].
      * by rewrite P1, P2, F2.
      * intros _. apply Hbeat; [by rewrite Hd4|by rewrite P4|by rewrite P5|done].
      * rewrite P1, !Hd4, P3, F6, Hc4. simpl. rewrite Dc, Ds. destruct (stable s) eqn:Hs.
        -- destruct (Hstab eq_refl) as [Hph Hle]. rewrite decide_True by done. done.
        -- simpl in Hnew. destruct hs as [d|]; [|exfalso; rewrite (proj2 Htimer Ds) in Hnew; done].
           destruct Hhs as [Hph ->]. rewrite decide_True by done. done.
    + exists new. rewrite P7, F7. split; [done|by eapply announced_justified].
Qed.

Lemma activity_ok s g : supervised_ok s g -> is_live (currentPhase s) = true -> step_result s g (activity o s) (mark SawActivity s g).
Proof.
  intros Hok Hlive. pose proof (live_open s g Hok Hlive) as Hst. unfold activity. rewrite Hst. simpl is_live. cbn [currentPhase set_beat set_seen].
  rewrite Hlive. apply no_output; [by apply sign_ok|]. by rewrite (proj2 (proj2 (proj2 (proj2 (proj2 (proj2 (schedule_fields _ _))))))).
Qed.

Lemma pong_ok s g : supervised_ok s g -> is_live (currentPhase s) = true -> step_result s g (pong o s) (mark SawPong s g).
Proof.
  intros Hok Hlive. pose proof (live_open s g Hok Hlive) as Hst. unfold pong. rewrite Hst.
  apply no_output; [by apply sign_ok|]. by rewrite (proj2 (proj2 (proj2 (proj2 (proj2 (proj2 (schedule_fields _ _))))))).
Qed.

Lemma close_supervisor_ok s g : supervised_ok s g -> step_result s g (close_supervisor s) g.
Proof.
  intros Hok. unfold close_supervisor. destruct (stopped s) eqn:Hst; [by apply no_output|].
  destruct (clearTimers_empty (set_flags (stable s) true s)) as [Ha Ht]; [exact (linked_held _ (sv_linked _ _ Hok))|].
  set (c := clearTimers _) in *. assert (Hf : stopped c = true /\ supervisor_outputs c = supervisor_outputs s) by done. destruct Hf as [Hs Hout]. clearbody c.
  destruct (setPhase_same Closed (set_beat None (consecutiveHeartbeatMisses c) c)) as (Hsame & P1 & P2 & P3 & P4 & P5 & P6 & new & P7 & P8).
  destruct (nothing_linked (set_beat None (consecutiveHeartbeatMisses c) c) Ha Ht) as [Hl Hd]. split.
  - constructor.
    + by apply (same_linked _ _ Hsame).
    + intros _ k d. by rewrite (same_deadline _ _ Hsame), Hd.
    + by rewrite P1, P2.
    + by rewrite P1.
    + rewrite P1. intros k. by rewrite (same_deadline _ _ Hsame).
  - exists new. rewrite P7. simpl. rewrite Hout. split; [done|by eapply announced_justified].
Qed.

Lemma silence_S g m : (silence g (m + 1) = silence g m + heartbeatTimeoutMs o)%Z.
Proof. unfold silence. lia. Qed.

(** A probe of an open connection, whose heartbeat timer has just fired. *)
Lemma probe_ok s g s1 ping_throws :
  supervised_ok s g -> is_live (currentPhase s) = true ->
  linked s1 -> (forall k, k <> HeartbeatTimer -> deadline s1 k = deadline s k) -> clock s1 = clock s -> stopped s1 = false ->
  currentPhase s1 = currentPhase s -> stable s1 = stable s -> supervisor_outputs s1 = supervisor_outputs s ->
  (0 <= consecutiveHeartbeatMisses s1 < heartbeatMissThreshold o)%Z -> (pings = true -> ping_throws = false) ->
  (silence g (consecutiveHeartbeatMisses s1) <= clock s)%Z -> (prompt = true -> clock s = silence g (consecutiveHeartbeatMisses s1)) ->
  step_result s g (sendHeartbeatProbe o ping_throws s1) g.
Proof.
  intros Hok Hlive Hl1 Hd1 Hc1 Hst1 Hp1 Hs1 Hout1 Hm Hping Hsil Hpr. pose proof (ok_timeout Ho). unfold sendHeartbeatProbe. destruct ping_throws.
  - set (s2 := say PingThrew (set_beat None (consecutiveHeartbeatMisses s1 + 1) (set_beat (Some (clock s1)) (consecutiveHeartbeatMisses s1) s1))).
    cbn [consecutiveHeartbeatMisses set_beat say] in *.
    assert (Hl2 : linked s2) by (eapply linked_same; [..|exact Hl1]; done). destruct (_ <=? _)%Z eqn:Hk.
    + apply Z.leb_le in Hk. simpl in Hk. apply timeout_ok; [exact (linked_held _ Hl2)|done|right; simpl; by rewrite Hout1|].
      split; [done|]. destruct pings eqn:Hpi; [by specialize (Hping eq_refl)|].
      replace (heartbeatMissThreshold o - 1)%Z with (consecutiveHeartbeatMisses s1) by lia. done.
    + apply Z.leb_gt in Hk. simpl in Hk. split.
      * eapply (rescheduled_ok s g s2 g); try done; [simpl; lia|]. simpl. rewrite silence_S. split_and!; [lia| |].
        -- intros Hpr'. by rewrite (Hpr Hpr').
        -- intros Hpi. by specialize (Hping Hpi).
      * exists [PingThrew]. rewrite (proj2 (proj2 (proj2 (proj2 (proj2 (proj2 (schedule_fields _ _))))))). simpl. rewrite Hout1. split; [done|by repeat constructor].
  - set (s2 := say SentPing (set_beat (Some (clock s1)) (consecutiveHeartbeatMisses s1) s1)).
    assert (Hl2 : linked s2) by (eapply linked_same; [..|exact Hl1]; done). split.
    + eapply (rescheduled_ok s g s2 g); try done. simpl. rewrite Hc1. split_and!; [done|done|lia].
    + exists [SentPing]. rewrite (proj2 (proj2 (proj2 (proj2 (proj2 (proj2 (schedule_fields _ _))))))). simpl. rewrite Hout1. split; [done|by repeat constructor].
Qed.

Lemma heartbeat_fires_ok s g h d ping_throws :
  supervised_ok s g -> armed s !! h = Some (HeartbeatTimer, d) -> (d <= clock s)%Z -> (pings = true -> ping_throws = false) ->
  step_result s g (heartbeat_fires o ping_throws (set_timers (timers s) (delete h (armed s)) (next_timer s) s)) g.
Proof.
  intros Hok Ha Hdue Hping. pose proof (sv_linked _ _ Hok) as Hl. pose proof (deadline_Some _ _ _ _ Hl Ha) as Hdl.
  assert (Hlive : is_live (currentPhase s) = true).
  { pose proof (sv_deadlines _ _ Hok) as Hall. destruct (currentPhase s); try done; [destruct Hall as (_ & _ & Hn & _)|specialize (Hall HeartbeatTimer)|specialize (Hall HeartbeatTimer)]; congruence. }
  pose proof (live_open s g Hok Hlive) as Hst. unfold heartbeat_fires. cbn [timers armed next_timer set_timers].
  change (set_timers (assign HeartbeatTimer None (timers s)) (delete h (armed s)) (next_timer s) (set_timers (timers s) (delete h (armed s)) (next_timer s) s))
    with (set_timers (assign HeartbeatTimer None (timers s)) (delete h (armed s)) (next_timer s) s).
  rewrite (fired_linked _ _ _ _ Hl Ha). set (s1 := clearTimer HeartbeatTimer s).
  change (stopped s1) with (stopped s). rewrite Hst. change (awaitingPongSince s1) with (awaitingPongSince s). change (clock s1) with (clock s).
  change (consecutiveHeartbeatMisses s1) with (consecutiveHeartbeatMisses s).
  assert (Hl1 : linked s1) by by apply clear_linked.
  assert (Hd1 : forall k, k <> HeartbeatTimer -> deadline s1 k = deadline s k) by (intros k Hk; unfold s1; rewrite clear_deadline by done; by rewrite decide_False).
  destruct (sv_beat _ _ Hok Hlive) as (d' & Hd' & Hm & Hbeat). rewrite Hdl in Hd'. injection Hd' as <-.
  assert (Hexact : prompt = true -> clock s = d) by (intros Hpr; pose proof (sv_prompt _ _ Hok Hpr _ _ Hdl); lia).
  pose proof (ok_timeout Ho). destruct (awaitingPongSince s) as [a|].
  - destruct Hbeat as (B1 & B2 & B3). rewrite (proj2 (Z.leb_le _ _)) by lia.
    set (s2 := set_beat None (consecutiveHeartbeatMisses s + 1) s1). change (consecutiveHeartbeatMisses s2) with (consecutiveHeartbeatMisses s + 1)%Z.
    assert (Hl2 : linked s2) by (eapply linked_same; [..|exact Hl1]; done).
    assert (Hsil : (silence g (consecutiveHeartbeatMisses s + 1) <= clock s)%Z) by (rewrite silence_S; lia).
    destruct (_ <=? _)%Z eqn:Hk.
    + apply Z.leb_le in Hk. apply timeout_ok; [exact (linked_held _ Hl2)|done|left; by rewrite app_nil_r|]. split; [done|].
      replace (heartbeatMissThreshold o) with (consecutiveHeartbeatMisses s + 1)%Z by lia.
      destruct pings; [done|]. rewrite silence_S in Hsil. replace (consecutiveHeartbeatMisses s + 1 - 1)%Z with (consecutiveHeartbeatMisses s) by lia. lia.
    + apply Z.leb_gt in Hk. apply (probe_ok s g s2); try done; [simpl; lia|]. simpl. intros Hpr. rewrite silence_S, (Hexact Hpr), B3, (B2 Hpr). lia.
  - destruct Hbeat as (B1 & B2 & B3). apply (probe_ok s g s1); try done; [simpl; lia|]. intros Hpr. rewrite (Hexact Hpr). by apply B2.
Qed.

Lemma stable_fires_ok s g h d :
  supervised_ok s g -> armed s !! h = Some (StableTimer, d) -> (d <= clock s)%Z ->
  step_result s g (stable_fires (set_timers (timers s) (delete h (armed s)) (next_timer s) s)) g.
Proof.
  intros Hok Ha Hdue. pose proof (sv_linked _ _ Hok) as Hl. pose proof (deadline_Some _ _ _ _ Hl Ha) as Hdl.
  unfold stable_fires. cbn [timers armed next_timer set_timers].
  change (set_timers (assign StableTimer None (timers s)) (delete h (armed s)) (next_timer s) (set_timers (timers s) (delete h (armed s)) (next_timer s) s))
    with (set_timers (assign StableTimer None (timers s)) (delete h (armed s)) (next_timer s) s).
  rewrite (fired_linked _ _ _ _ Hl Ha). set (s1 := clearTimer StableTimer s).
  pose proof (sv_deadlines _ _ Hok) as Hall. pose proof (sv_stopped _ _ Hok) as Hst. destruct (currentPhase s) eqn:Hp.
  - destruct Hall as (_ & _ & _ & Hn & _). congruence.
  - destruct Hall as (_ & _ & Hn & _). congruence.
  - destruct Hall as (D1 & D2 & D3 & D4). destruct (stable s) eqn:Hs; [congruence|]. rewrite D3 in Hdl. injection Hdl as <-.
    simpl in Hst. change (stopped s1) with (stopped s). change (currentPhase s1) with (currentPhase s). rewrite Hst, Hp. simpl orb. cbn match.
    assert (Hl1 : linked s1) by by apply clear_linked.
    assert (Hd1 : forall k, deadline s1 k = if decide (k = StableTimer) then None else deadline s k) by (intros k; by apply clear_deadline).
    set (s2 := say BecameStable (set_flags true false s1)). assert (Hd2 : forall k, deadline s2 k = deadline s1 k) by done. split.
    + constructor.
      * eapply linked_same; [..|exact Hl1]; done.
      * intros Hpr k dk. rewrite Hd2, Hd1. case_decide; [done|]. by apply (sv_prompt _ _ Hok).
      * simpl. by rewrite Hp.
      * intros Hlive. destruct (sv_beat _ _ Hok) as (db & B1 & B2 & B3); [by rewrite Hp|]. exists db. rewrite Hd2, Hd1. done.
      * change (currentPhase s2) with (currentPhase s). rewrite Hp, !Hd2, !Hd1. simpl. done.
    + exists [BecameStable]. split; [done|]. constructor; [|done]. simpl. by rewrite Hp.
  - specialize (Hall StableTimer). congruence.
  - specialize (Hall StableTimer). congruence.
Qed.

Lemma supervisor_step_ok s g ev s' :
  supervised_ok s g -> allowed ev s -> (prompt = true -> on_time ev s) -> (pings = true -> ping_sent ev) ->
  supervisor_step o ev s = Some s' -> step_result s g s' (mark ev s g).
Proof.
  intros Hok Hall Hprompt Hping Hstep. destruct ev as [| | | | |h ping_throws|ms]; simpl in *.
  - injection Hstep as <-. by apply opened_ok.
  - injection Hstep as <-. by apply healthy_ok.
  - injection Hstep as <-. by apply activity_ok.
  - injection Hstep as <-. by apply pong_ok.
  - injection Hstep as <-. by apply close_supervisor_ok.
  - unfold timer_fires in Hstep. destruct (armed s !! h) as [[k d]|] eqn:Ha; [|done]. destruct (d <=? clock s)%Z eqn:Hdue; [|done].
    apply Z.leb_le in Hdue. injection Hstep as <-. pose proof (sv_linked _ _ Hok) as Hl. pose proof (deadline_Some _ _ _ _ Hl Ha) as Hdl.
    assert (Hheld : held_only (set_timers (timers s) (delete h (armed s)) (next_timer s) s)).
    { intros h' k' d' Hh. simpl in Hh. apply lookup_delete_Some in Hh as [_ Hh]. by eapply (linked_held _ Hl). }
    pose proof (sv_deadlines _ _ Hok) as Hd. pose proof (sv_stopped _ _ Hok) as Hst. destruct k.
    + assert (Hp : currentPhase s = Connecting /\ d = (started_at g + connectTimeoutMs o)%Z).
      { destruct (currentPhase s); try (specialize (Hd ConnectTimer)); destruct_and?; split; congruence. }
      destruct Hp as [Hp ->]. rewrite Hp in Hst. apply timeout_ok; [done|done|left; by rewrite app_nil_r|done].
    + assert (Hp : currentPhase s = Handshaking /\ d = (opened_at g + handshakeTimeoutMs o)%Z).
      { destruct (currentPhase s); try (specialize (Hd HandshakeTimer)); destruct_and?; split; congruence. }
      destruct Hp as [Hp ->]. rewrite Hp in Hst. apply timeout_ok; [done|done|left; by rewrite app_nil_r|done].
    + by eapply heartbeat_fires_ok.
    + by eapply stable_fires_ok.
  - destruct (0 <=? ms)%Z eqn:Hms; [|done]. apply Z.leb_le in Hms. injection Hstep as <-. apply no_output; [|done].
    destruct Hok as [Hl Hp Hst Hb Hd]. constructor.
    + eapply linked_same; [..|exact Hl]; done.
    + intros Hpr k d Hk. apply (Hprompt Hpr) in Hk. done.
    + done.
    + done.
    + simpl. destruct (currentPhase s); try done. destruct Hd as (D1 & D2 & D3 & D4). split_and!; try done. intros Hs. specialize (D4 Hs). lia.
Qed.

Lemma start_ok now : supervised_ok (start o (new_supervisor now)) (Marks now now now now).
Proof.
  pose proof (ok_connect Ho) as Hc. unfold start, setPhase. simpl. set (s0 := clearTimer ConnectTimer _).
  assert (Hn : armed s0 = ∅ /\ forall k, timers s0 k = None) by (split; [done|by intros []]). destruct Hn as [Ha Ht].
  destruct (nothing_linked s0 Ha Ht) as [Hl Hd].
  assert (Hd' : forall k, deadline (set_timeout ConnectTimer (connectTimeoutMs o) s0) k
      = if decide (k = ConnectTimer) then Some (now + connectTimeoutMs o)%Z else None).
  { intros k. rewrite set_timeout_deadline by done. rewrite timeout_delay_id by done. by rewrite Hd. }
  constructor.
  - apply set_timeout_linked; [done|apply Ht].
  - intros _ k d. rewrite Hd'. case_decide; [|done]. intros [= <-]. simpl. lia.
  - done.
  - done.
  - change (currentPhase (set_timeout ConnectTimer (connectTimeoutMs o) s0)) with Connecting. cbn match. by rewrite !Hd'.
Qed.

Lemma supervised_reachable_ok s g : supervised s g -> supervised_ok s g.
Proof. induction 1 as [now|s g ev s' _ IH Ha Hp Hpi Hs]; [apply start_ok|]. by destruct (supervisor_step_ok _ _ _ _ IH Ha Hp Hpi Hs). Qed.
End Supervisor.

(** C27. Deadlines are exact.  Whatever the socket does and however late timers
    fire, a connection is given up only when it did not open, shake hands or
    show a sign of life for the whole of the respective time - for heartbeats,
    the interval and then as many unanswered probes as the threshold allows -
    and is called stable only after the threshold.  When timers fire on time, a
    connection that is still supervised is within all its deadlines.  A failed
    or closed one has no timer left. *)
Theorem supervisor_deadlines o prompt pings s g :
  options_ok o -> supervised o prompt pings s g ->
  (forall ev s', allowed ev s -> (prompt = true -> on_time ev s) -> (pings = true -> ping_sent ev) -> supervisor_step o ev s = Some s' ->
     exists new, supervisor_outputs s' = supervisor_outputs s ++ new /\ Forall (justified o pings s g) new)
  /\ (prompt = true ->
       (currentPhase s = Connecting -> clock s <= started_at g + connectTimeoutMs o)%Z
       /\ (currentPhase s = Handshaking -> clock s <= opened_at g + handshakeTimeoutMs o)%Z
       /\ (is_live (currentPhase s) = true -> clock s <= silence o g (heartbeatMissThreshold o))%Z
       /\ (currentPhase s = Healthy -> stable s = false -> clock s <= healthy_at g + stableThresholdMs o)%Z)
  /\ (currentPhase s = Failed \/ currentPhase s = Closed -> armed s = ∅).
Proof.
  intros Ho Hs. pose proof (supervised_reachable_ok o prompt pings Ho s g Hs) as Hok. split_and!.
  - intros ev s' Ha Hp Hpi Hstep. by destruct (supervisor_step_ok o prompt pings Ho s g ev s' Hok Ha Hp Hpi Hstep).
  - intros Hpr. destruct Hok as [Hl Hp Hst Hb Hd]. specialize (Hp Hpr). split_and!.
    + intros Hph. rewrite Hph in Hd. destruct Hd as (D & _). by apply Hp in D.
    + intros Hph. rewrite Hph in Hd. destruct Hd as (_ & D & _). by apply Hp in D.
    + intros Hlive. destruct (Hb Hlive) as (d & D & Hm & Hbeat). apply Hp in D. pose proof (ok_timeout _ Ho).
      assert (Hmono : forall m, (m + 1 <= heartbeatMissThreshold o -> silence o g m + heartbeatTimeoutMs o <= silence o g (heartbeatMissThreshold o))%Z).
      { intros m Hm'. unfold silence. nia. }
      specialize (Hmono (consecutiveHeartbeatMisses s) ltac:(lia)). destruct (awaitingPongSince s) as [a|].
      * destruct Hbeat as (_ & B & ->). rewrite (B Hpr) in D. lia.
      * destruct Hbeat as (_ & B & _). rewrite (B Hpr) in D. lia.
    + intros Hph Hst'. rewrite Hph in Hd. destruct Hd as (_ & _ & D & _). rewrite Hst' in D. by apply Hp in D.
  - intros Hph. assert (Hnone : forall k, deadline s k = None) by (pose proof (sv_deadlines _ _ _ _ _ Hok) as Hd; destruct Hph as [Hph|Hph]; by rewrite Hph in Hd).
    apply map_empty. intros h. destruct (armed s !! h) as [[k d]|] eqn:Ha; [|done].
    pose proof (deadline_Some _ _ _ _ (sv_linked _ _ _ _ _ Hok) Ha) as Hd. by rewrite Hnone in Hd.
Qed.

(** ** An example: a healthy connection falls silent *)

Definition example_options : supervisor_options := constructor_options None None None None None None.

Definition silent_events : list supervisor_event :=
  [Elapses 1000; Opened; Elapses 500; BecameHealthy; Elapses 25000; TimerFires 3 false; Elapses 200; SawPong; Elapses 25000; TimerFires 6 false;
   Elapses 9800; TimerFires 4 false; Elapses 5200; TimerFires 7 false; Elapses 15000].

(** Runs an adapter's events, checking that they are allowed and on time. *)
Definition event_fits (ev : supervisor_event) (s : supervisor) : bool :=
  match ev with
  | Opened => bool_decide (currentPhase s = Connecting)
  | BecameHealthy | SawActivity | SawPong => is_live (currentPhase s)
  | CloseCalled => true
  | TimerFires _ ping_throws => negb ping_throws
  | Elapses ms => forallb (fun k => match deadline s k with Some d => (clock s + ms <=? d)%Z | None => true end)
                    [ConnectTimer; HandshakeTimer; HeartbeatTimer; StableTimer]
  end.

Fixpoint run_supervisor (o : supervisor_options) (evs : list supervisor_event) (s : supervisor) (g : marks) : option (supervisor * marks) :=
  match evs with
  | [] => Some (s, g)
  | ev :: evs => if event_fits ev s then s' ← supervisor_step o ev s; run_supervisor o evs s' (mark ev s g) else None
  end.

Lemma event_fits_ok ev s : event_fits ev s = true -> allowed ev s /\ on_time ev s /\ ping_sent ev.
Proof.
  destruct ev; cbn [event_fits allowed on_time ping_sent]; intros H; split_and!; try done.
  - by apply bool_decide_eq_true in H.
  - by apply negb_true_iff in H.
  - intros k d Hk. rewrite forallb_forall in H. specialize (H k). rewrite Hk in H. apply Z.leb_le, H. destruct k; simpl; auto.
Qed.

Lemma run_supervised o evs s g s' g' :
  supervised o true true s g -> run_supervisor o evs s g = Some (s', g') -> supervised o true true s' g'.
Proof.
  revert s g. induction evs as [|ev evs IH]; intros s g Hs; simpl; [by intros [= <- <-]|].
  destruct (event_fits ev s) eqn:Hfit; [|done]. intros H. apply bind_Some in H as (s1 & Hstep & H). apply event_fits_ok in Hfit as (H1 & H2 & H3).
  eapply IH; [|exact H]. by apply (supervised_step o true true s g ev s1).
Qed.

Definition silent_state : option (supervisor * marks) := run_supervisor example_options silent_events (start example_options (new_supervisor 0)) (Marks 0 0 0 0).

Example silent_outputs :
  match silent_state ≫= (fun sg => timer_fires example_options 8 false sg.1) with
  | Some s => supervisor_outputs s = [PhaseChanged Handshaking; PhaseChanged Healthy; SentPing; SentPing; BecameStable; SentPing; PhaseChanged Failed; TimedOut HeartbeatTimeout]
              /\ clock s = 81700%Z
  | None => False
  end.
Proof. vm_compute. done. Qed.

Lemma example_options_ok : options_ok example_options.
Proof. constructor; vm_compute; first [split; discriminate|discriminate]. Qed.

Lemma supervisor_deadlines_witness :
  match silent_state with
  | Some (s, g) => (clock s <= silence example_options g (heartbeatMissThreshold example_options))%Z /\ clock s = 81700%Z /\ sign_at g = 26700%Z
  | None => False
  end.
Proof.
  destruct silent_state as [[s g]|] eqn:Hrun; [|by vm_compute in Hrun].
  assert (Hs : supervised example_options true true s g) by exact (run_supervised _ _ _ _ _ _ (supervised_start example_options true true 0) Hrun).
  assert (Hlive : is_live (currentPhase s) = true) by (vm_compute in Hrun; injection Hrun as <- <-; reflexivity).
  split; [exact (proj1 (proj2 (proj2 (proj1 (proj2 (supervisor_deadlines example_options true true s g example_options_ok Hs)) eq_refl))) Hlive)|].
  vm_compute in Hrun. injection Hrun as <- <-. split; reflexivity.
Defined.
