(* ===== verification/Scheduler.v ===== *)
(** * Running scheduled jobs

    [SchedulerExecutionRuntime] of [packages/core/src/core/scheduler-runtime.ts]:
    events of a job run at once, up to the limit of their policy, or wait in
    the job's queue.  [execute] starts an asynchronous run; that a run of a job
    has settled is an event of its own.  The adapter's calls are recorded. *)

From S2P Require Export Prelude.

Inductive when_busy := SkipWhenBusy | QueueWhenBusy.
Record SchedulerPolicy := Policy { cooldownMs : option Z; maxConcurrentRuns : Z; whenBusy : when_busy }.
Inductive SchedulerSkipReason := SkipCooldown | SkipBusy | SkipQueueFull | SkipStopped | SkipJobDisabled.
Inductive submit_answer := AnswerSkipped | AnswerQueued | AnswerStarted.

Section Scheduler.
Context {T : Type} (maxQueuedPerJob : nat).

Record QueuedEvent := Queued { qe_event : T; qe_policy : SchedulerPolicy }.

Record scheduler := Scheduler {
  job_timers : jsmap jsstring nat;
  cleared_timers : list nat;
  running : jsmap jsstring Z;
  queued : jsmap jsstring (list QueuedEvent);
  lastStartedAt : jsmap jsstring Z;
  accepting : bool;
  executed : list (jsstring * T);
  skipped : list (T * SchedulerSkipReason)
}.

Definition new_scheduler : scheduler := Scheduler [] [] [] [] [] true [] [].

Definition start_scheduler (s : scheduler) : scheduler :=
  Scheduler (job_timers s) (cleared_timers s) (running s) (queued s) (lastStartedAt s) true (executed s) (skipped s).

Definition setTimer (key : jsstring) (timer : nat) (s : scheduler) : scheduler :=
  Scheduler (mset key timer (job_timers s))
    (cleared_timers s ++ match mget key (job_timers s) with Some previous => [previous] | None => [] end)
    (running s) (queued s) (lastStartedAt s) (accepting s) (executed s) (skipped s).

Definition clear_job_timer (key : jsstring) (s : scheduler) : scheduler :=
  Scheduler (mdelete key (job_timers s))
    (cleared_timers s ++ match mget key (job_timers s) with Some timer => [timer] | None => [] end)
    (running s) (queued s) (lastStartedAt s) (accepting s) (executed s) (skipped s).

Definition skip (reason : SchedulerSkipReason) (events : list T) (s : scheduler) : scheduler :=
  Scheduler (job_timers s) (cleared_timers s) (running s) (queued s) (lastStartedAt s) (accepting s) (executed s)
    (skipped s ++ ((fun event => (event, reason)) <$> events)).
Definition with_queued (q : jsmap jsstring (list QueuedEvent)) (s : scheduler) : scheduler :=
  Scheduler (job_timers s) (cleared_timers s) (running s) q (lastStartedAt s) (accepting s) (executed s) (skipped s).
Definition with_running (r : jsmap jsstring Z) (s : scheduler) : scheduler :=
  Scheduler (job_timers s) (cleared_timers s) r (queued s) (lastStartedAt s) (accepting s) (executed s) (skipped s).

Definition clearQueued (key : jsstring) (reason : SchedulerSkipReason) (s : scheduler) : scheduler :=
  match mget key (queued s) with
  | Some queue => with_queued (mdelete key (queued s)) (skip reason (qe_event <$> queue) s)
  | None => s
  end.

(** [this.running.get(key) ?? 0]. *)
Definition running_of (key : jsstring) (s : scheduler) : Z := default 0%Z (mget key (running s)).

Definition begin_run (now : Z) (key : jsstring) (event : T) (s : scheduler) : scheduler :=
  Scheduler (job_timers s) (cleared_timers s) (mset key (running_of key s + 1)%Z (running s)) (queued s)
    (mset key now (lastStartedAt s)) (accepting s) (executed s ++ [(key, event)]) (skipped s).

Definition submit (now started : Z) (key : jsstring) (event : T) (policy : SchedulerPolicy) (s : scheduler) : submit_answer * scheduler :=
  if negb (accepting s) then (AnswerSkipped, skip SkipStopped [event] s) else
  let cooling := match cooldownMs policy, mget key (lastStartedAt s) with
                 | Some cooldown, Some last => negb (cooldown =? 0)%Z && (now - last <? cooldown)%Z
                 | _, _ => false
                 end in
  if cooling then (AnswerSkipped, skip SkipCooldown [event] s) else
  if (maxConcurrentRuns policy <=? running_of key s)%Z then
    match whenBusy policy with
    | SkipWhenBusy => (AnswerSkipped, skip SkipBusy [event] s)
    | QueueWhenBusy =>
        let queue := default [] (mget key (queued s)) in
        if bool_decide (maxQueuedPerJob <= length queue) then (AnswerSkipped, skip SkipQueueFull [event] s)
        else (AnswerQueued, with_queued (mset key (queue ++ [Queued event policy]) (queued s)) s)
    end
  else (AnswerStarted, begin_run started key event s).

Definition stop_scheduler (s : scheduler) : scheduler :=
  let s := Scheduler [] (cleared_timers s ++ mvalues (job_timers s)) (running s) (queued s) (lastStartedAt s) false (executed s) (skipped s) in
  with_queued [] (skip SkipStopped (concat ((fun queue : list QueuedEvent => qe_event <$> queue) <$> mvalues (queued s))) s).

Definition drain (now : Z) (key : jsstring) (s : scheduler) : scheduler :=
  if negb (accepting s) then s else
  match mget key (queued s) with
  | Some (next :: queue) =>
      if (maxConcurrentRuns (qe_policy next) <=? running_of key s)%Z then s else
      begin_run now key (qe_event next)
        (with_queued (match queue with [] => mdelete key (queued s) | _ => mset key queue (queued s) end) s)
  | _ => s
  end.

(** The callback of a run's promise. *)
Definition finish_run (now : Z) (key : jsstring) (s : scheduler) : scheduler :=
  let remaining := (default 1 (mget key (running s)) - 1)%Z in
  drain now key (with_running (if (0 <? remaining)%Z then mset key remaining (running s) else mdelete key (running s)) s).

(** ** Sequences of events *)

Inductive scheduler_op :=
| OpStart
| OpSubmit (now started : Z) (key : jsstring) (event : T) (policy : SchedulerPolicy)
| OpFinish (now : Z) (key : jsstring)
| OpClearQueued (key : jsstring) (reason : SchedulerSkipReason)
| OpSetTimer (key : jsstring) (timer : nat)
| OpClearTimer (key : jsstring)
| OpStop.

Definition scheduler_step (op : scheduler_op) (s : scheduler) : scheduler :=
  match op with
  | OpStart => start_scheduler s
  | OpSubmit now started key event policy => (submit now started key event policy s).2
  | OpFinish now key => finish_run now key s
  | OpClearQueued key reason => clearQueued key reason s
  | OpSetTimer key timer => setTimer key timer s
  | OpClearTimer key => clear_job_timer key s
  | OpStop => stop_scheduler s
  end.
End Scheduler.
Arguments QueuedEvent : clear implicits.
Arguments scheduler : clear implicits.
Arguments scheduler_op : clear implicits.

(** ** Times of an interval schedule *)

Definition next_interval_time (intervalMs now anchor : Z) : Z :=
  let elapsed := Z.max 0 (now - anchor) in
  (anchor + (elapsed / intervalMs + 1) * intervalMs)%Z.
