(* ===== verification/SchedulerSpec.v ===== *)
(** * Every submitted event is run, waiting or skipped

    The runtime loses no event and runs none twice, keeps a job within its
    limit, and never leaves an event waiting that nothing will start. *)

From S2P Require Export Scheduler.

(** ** Counting *)

Definition count_key (key : jsstring) (l : list jsstring) : Z := Z.of_nat (length (filter (fun k => k = key) l)).

Lemma count_key_app key l1 l2 : count_key key (l1 ++ l2) = (count_key key l1 + count_key key l2)%Z.
Proof. unfold count_key. rewrite filter_app, length_app. lia. Qed.

Lemma count_key_one key k : count_key key [k] = if decide (k = key) then 1%Z else 0%Z.
Proof. unfold count_key. rewrite filter_cons, filter_nil. by case_decide. Qed.

Lemma next_interval_time_spec interval now anchor :
  (0 < interval)%Z ->
  let next := next_interval_time interval now anchor in
  (now < next /\ anchor < next /\ (next - anchor) mod interval = 0 /\ (anchor <= now -> next <= now + interval))%Z.
Proof.
  intros Hi. unfold next_interval_time. set (e := Z.max 0 (now - anchor)). pose proof (Z.div_mod e interval ltac:(lia)) as Hd.
  pose proof (Z.mod_pos_bound e interval Hi). split_and!; [nia|nia| |nia].
  replace (anchor + (e / interval + 1) * interval - anchor)%Z with ((e / interval + 1) * interval)%Z by lia. apply Z_mod_mult.
Qed.

Section Scheduler.
Context {T : Type} (maxQueuedPerJob : nat) (limit : jsstring -> Z) (uniform : bool).

(** ** Runs of the runtime

    A run of a job settles once; each submission of a job asks for at most its
    limit, and exactly for it when the job's policy never changes. *)
Definition op_allowed (op : scheduler_op T) (s : scheduler T) (finished : list jsstring) : Prop :=
  match op with
  | OpFinish _ key => (count_key key finished < count_key key (executed s).*1)%Z
  | OpSubmit _ _ key _ policy => (1 <= maxConcurrentRuns policy <= limit key)%Z /\ (uniform = true -> maxConcurrentRuns policy = limit key)
  | _ => True
  end.

Definition op_finished (op : scheduler_op T) : list jsstring := match op with OpFinish _ key => [key] | _ => [] end.
Definition op_submitted (op : scheduler_op T) : list (jsstring * T) := match op with OpSubmit _ _ key event _ => [(key, event)] | _ => [] end.

Inductive scheduled : scheduler T -> list jsstring -> list (jsstring * T) -> Prop :=
| scheduled_new : scheduled new_scheduler [] []
| scheduled_step s finished submitted op (Hs : scheduled s finished submitted) (Hop : op_allowed op s finished) :
    scheduled (scheduler_step maxQueuedPerJob op s) (finished ++ op_finished op) (submitted ++ op_submitted op).

Definition waiting_events (queue : list (QueuedEvent T)) : list T := qe_event <$> queue.
Definition queue_of (key : jsstring) (s : scheduler T) : list (QueuedEvent T) := default [] (mget key (queued s)).
Definition queued_events (s : scheduler T) : list T := concat (waiting_events <$> mvalues (queued s)).
Definition of_key (key : jsstring) (l : list (jsstring * T)) : list T := (filter (fun e => e.1 = key) l).*2.

Record scheduler_ok (s : scheduler T) (finished : list jsstring) (submitted : list (jsstring * T)) : Prop := SchedulerOk {
  so_queued_wf : map_wf (queued s);
  so_running key : running_of key s = (count_key key (executed s).*1 - count_key key finished)%Z;
  so_limit key : (0 <= running_of key s <= Z.max 0 (limit key))%Z;
  so_queue key q : mget key (queued s) = Some q ->
    q <> [] /\ length q <= maxQueuedPerJob /\ accepting s = true /\ (1 <= running_of key s)%Z /\ (uniform = true -> running_of key s = limit key)
    /\ Forall (fun e => 1 <= maxConcurrentRuns (qe_policy e) <= limit key /\ (uniform = true -> maxConcurrentRuns (qe_policy e) = limit key))%Z q;
  so_conserved : submitted.*2 ≡ₚ (executed s).*2 ++ queued_events s ++ (skipped s).*1;
  so_order key : uniform = true -> of_key key (executed s) ++ (qe_event <$> queue_of key s) `sublist_of` of_key key submitted
}.

Lemma of_key_events_app key l1 l2 : of_key key (l1 ++ l2) = of_key key l1 ++ of_key key l2.
Proof. unfold of_key. by rewrite filter_app, fmap_app. Qed.
Lemma of_key_event key k e : of_key key [(k, e)] = if decide (k = key) then [e] else [].
Proof. unfold of_key. rewrite filter_cons, filter_nil. simpl. by case_decide. Qed.

(** Taking a queue out of the map. *)
Lemma queued_events_delete key s q :
  map_wf (queued s) -> mget key (queued s) = Some q ->
  concat (waiting_events <$> mvalues (queued s)) ≡ₚ waiting_events q ++ concat (waiting_events <$> mvalues (mdelete key (queued s))).
Proof.
  generalize (queued s) as m. unfold map_wf, mkeys, mvalues. induction m as [|[k v] m IH]; [done|]. csimpl. intros [Hk Hn]%NoDup_cons.
  unfold mdelete. rewrite filter_cons. simpl. destruct (decide (key = k)) as [<-|Hne].
  - intros [= ->]. rewrite decide_False by naive_solver. fold (mdelete key m). rewrite mdelete_id by by apply mget_None. done.
  - intros Hq. rewrite decide_True by naive_solver. fold (mdelete key m). csimpl. rewrite (IH Hn Hq). apply Permutation_app_swap_app.
Qed.

Lemma queued_events_set key (m : jsmap jsstring (list (QueuedEvent T))) q :
  map_wf m ->
  concat (waiting_events <$> mvalues (mset key q m)) ≡ₚ waiting_events q ++ concat (waiting_events <$> mvalues (mdelete key m)).
Proof.
  unfold map_wf, mkeys, mvalues. induction m as [|[k v] m IH]; [done|]. csimpl. intros [Hk Hn]%NoDup_cons.
  unfold mdelete. rewrite filter_cons. simpl. destruct (decide (key = k)) as [<-|Hne].
  - rewrite decide_False by naive_solver. fold (mdelete key m). csimpl. rewrite mdelete_id by by apply mget_None. done.
  - rewrite decide_True by naive_solver. fold (mdelete key m). csimpl. rewrite (IH Hn). apply Permutation_app_swap_app.
Qed.

(** ** Starting, draining *)

Lemma begin_running now key (event : T) (s : scheduler T) k :
  running_of k (begin_run now key event s) = if decide (k = key) then (running_of key s + 1)%Z else running_of k s.
Proof.
  unfold running_of, begin_run. simpl. rewrite mget_mset. repeat case_decide; subst; try congruence; done.
Qed.

(** Between two calls a queue may be there whose job runs below its limit. *)
Record scheduler_pre (s : scheduler T) (finished : list jsstring) (submitted : list (jsstring * T)) (draining : jsstring) : Prop := SchedulerPre {
  sp_queued_wf : map_wf (queued s);
  sp_running key : running_of key s = (count_key key (executed s).*1 - count_key key finished)%Z;
  sp_limit key : (0 <= running_of key s <= Z.max 0 (limit key))%Z;
  sp_queue key q : mget key (queued s) = Some q ->
    q <> [] /\ length q <= maxQueuedPerJob /\ accepting s = true
    /\ (key <> draining -> (1 <= running_of key s)%Z /\ (uniform = true -> running_of key s = limit key))
    /\ (key = draining -> uniform = true -> running_of key s = limit key - 1)%Z
    /\ Forall (fun e => 1 <= maxConcurrentRuns (qe_policy e) <= limit key /\ (uniform = true -> maxConcurrentRuns (qe_policy e) = limit key))%Z q;
  sp_conserved : submitted.*2 ≡ₚ (executed s).*2 ++ queued_events s ++ (skipped s).*1;
  sp_order key : uniform = true -> of_key key (executed s) ++ waiting_events (queue_of key s) `sublist_of` of_key key submitted
}.

Lemma drain_ok now key s finished submitted :
  scheduler_pre s finished submitted key -> scheduler_ok (drain now key s) finished submitted.
Proof.
  intros [Hwf Hrun Hlim Hq Hcons Hord]. unfold drain. destruct (accepting s) eqn:Hacc; simpl negb; cbn match.
  2: { constructor; try done. intros k q Hk. by destruct (Hq _ _ Hk) as (_ & _ & ? & _). }
  destruct (mget key (queued s)) as [[|next queue]|] eqn:Hk.
  - by destruct (Hq _ _ Hk) as [? _].
  - destruct (Hq _ _ Hk) as (_ & Hlen & _ & _ & Hdrain & Hpol). apply Forall_cons in Hpol as [[Hn Hnu] Hpol]. destruct (_ <=? _)%Z eqn:Hfull.
    + apply Z.leb_le in Hfull. constructor; try done. intros k q Hkq. destruct (Hq _ _ Hkq) as (Q1 & Q2 & Q3 & Q4 & Q5 & Q6). split_and!; try done.
      * destruct (decide (k = key)) as [-> |]; [lia|by apply Q4].
      * intros Hu. destruct (decide (k = key)) as [-> |]; [|by apply Q4]. specialize (Hdrain eq_refl Hu). specialize (Hnu Hu). lia.
    + apply Z.leb_gt in Hfull. set (queue' := match queue with [] => mdelete key (queued s) | _ => mset key queue (queued s) end).
      assert (Hget : forall k, mget k queue' = if decide (k = key) then match queue with [] => None | _ => Some queue end else mget k (queued s)).
      { intros k. unfold queue'. destruct queue; [rewrite mget_mdelete|rewrite mget_mset]; repeat case_decide; congruence. }
      assert (Hevents : concat (waiting_events <$> mvalues queue') ≡ₚ waiting_events queue ++ concat (waiting_events <$> mvalues (mdelete key (queued s)))).
      { unfold queue'. destruct queue; [done|by apply queued_events_set]. }
      constructor.
      * simpl. unfold queue'. destruct queue; [by apply map_wf_mdelete|by apply map_wf_mset].
      * intros k. rewrite begin_running. simpl executed. rewrite fmap_app, count_key_app. simpl. rewrite count_key_one.
        change (running_of key (with_queued queue' s)) with (running_of key s). change (running_of k (with_queued queue' s)) with (running_of k s).
        rewrite !Hrun. repeat case_decide; subst; try done; lia.
      * intros k. rewrite begin_running. change (running_of key (with_queued queue' s)) with (running_of key s).
        change (running_of k (with_queued queue' s)) with (running_of k s). pose proof (Hlim key). pose proof (Hlim k). case_decide; subst; lia.
      * intros k q. simpl queued. rewrite Hget, begin_running. change (running_of key (with_queued queue' s)) with (running_of key s).
        change (running_of k (with_queued queue' s)) with (running_of k s). case_decide as Hkk.
        -- subst k. destruct queue as [|e queue]; [done|]. intros [= <-]. pose proof (Hlim key). split_and!; try done; [simpl in *; lia|lia|].
           intros Hu. rewrite (Hdrain eq_refl Hu). lia.
        -- intros Hkq. destruct (Hq _ _ Hkq) as (Q1 & Q2 & Q3 & Q4 & Q5 & Q6). destruct (Q4 Hkk). done.
      * rewrite Hcons. unfold queued_events. simpl. rewrite fmap_app, Hevents. simpl. rewrite (queued_events_delete key s (next :: queue) Hwf Hk).
        unfold waiting_events at 1. csimpl. rewrite <- !app_assoc. done.
      * intros k Hu. specialize (Hord k Hu). unfold queue_of in *. simpl queued. simpl executed. rewrite Hget, of_key_events_app, of_key_event.
        case_decide as Hkk; [subst k|by rewrite decide_False, app_nil_r by done].
        rewrite decide_True by done. rewrite Hk in Hord. simpl in Hord. rewrite <- app_assoc. by destruct queue.
  - constructor; try done. intros k q Hkq. destruct (Hq _ _ Hkq) as (Q1 & Q2 & Q3 & Q4 & Q5 & Q6).
    assert (Hne : k <> key) by congruence. destruct (Q4 Hne). done.
Qed.


(** A settled run leaves its job one below, with the queue to drain. *)
Lemma finish_run_ok now key s finished submitted :
  scheduler_ok s finished submitted -> op_allowed (OpFinish now key) s finished ->
  scheduler_ok (finish_run now key s) (finished ++ [key]) submitted.
Proof.
  intros [Hwf Hrun Hlim Hq Hcons Hord] Hal. simpl in Hal. unfold finish_run. apply drain_ok.
  set (remaining := (default 1 (mget key (running s)) - 1)%Z). set (s' := with_running _ s).
  pose proof (Hrun key) as Hk. assert (Hrem : remaining = (running_of key s - 1)%Z).
  { unfold remaining, running_of in *. destruct (mget key (running s)); simpl in *; [done|lia]. }
  assert (Hget : forall k, running_of k s' = (running_of k s - if decide (k = key) then 1 else 0)%Z).
  { intros k. unfold s', running_of at 1. simpl. destruct (Z.ltb_spec 0 remaining); rewrite ?mget_mset, ?mget_mdelete; case_decide; subst; simpl;
      try lia; unfold running_of; lia. }
  constructor; try done.
  - intros k. rewrite Hget, count_key_app, count_key_one, Hrun. repeat case_decide; subst; try done; simpl; lia.
  - intros k. rewrite Hget. specialize (Hlim k). case_decide; subst; lia.
  - intros k q Hkq. destruct (Hq _ _ Hkq) as (Q1 & Q2 & Q3 & Q4 & Q5 & Q6). rewrite Hget. split_and!; try done.
    + intros Hne. rewrite decide_False by done. split; [lia|]. intros Hu. rewrite (Q5 Hu). lia.
    + intros -> Hu. rewrite decide_True, (Q5 Hu) by done. lia.
Qed.

(** Reporting a submitted event as skipped. *)
Lemma skip_ok s finished submitted key event reason :
  scheduler_ok s finished submitted -> scheduler_ok (skip reason [event] s) finished (submitted ++ [(key, event)]).
Proof.
  intros [Hwf Hrun Hlim Hq Hcons Hord]. constructor; try done.
  - rewrite fmap_app, Hcons. unfold queued_events. simpl. rewrite fmap_app. simpl. by rewrite <- !app_assoc.
  - intros k Hu. rewrite of_key_events_app. by apply sublist_inserts_r, Hord.
Qed.

Lemma queue_event_ok s finished submitted key event policy :
  scheduler_ok s finished submitted -> accepting s = true -> (1 <= maxConcurrentRuns policy <= running_of key s)%Z ->
  (maxConcurrentRuns policy <= limit key /\ (uniform = true -> maxConcurrentRuns policy = limit key))%Z ->
  length (queue_of key s) < maxQueuedPerJob ->
  scheduler_ok (with_queued (mset key (queue_of key s ++ [Queued event policy]) (queued s)) s) finished (submitted ++ [(key, event)]).
Proof.
  intros [Hwf Hrun Hlim Hq Hcons Hord] Hacc Hbusy [Hpl Hpu] Hlen. constructor; try done.
  - by apply map_wf_mset.
  - intros k q. simpl queued. rewrite mget_mset. change (running_of k (with_queued _ s)) with (running_of k s). case_decide as Hk; [|apply Hq].
    subst k. intros [= <-]. split_and!; [by destruct (queue_of key s)|rewrite length_app; simpl; lia|done|lia| |].
    + intros Hu. specialize (Hpu Hu). specialize (Hlim key). lia.
    + apply Forall_app. split; [|by repeat constructor; simpl; try lia]. unfold queue_of. destruct (mget key (queued s)) eqn:Hk; [|constructor].
      by destruct (Hq _ _ Hk) as (_ & _ & _ & _ & _ & ?).
  - unfold queued_events. simpl. rewrite queued_events_set by done. rewrite fmap_app, Hcons. unfold waiting_events at 1. rewrite fmap_app. simpl.
    assert (Hold : queued_events s ≡ₚ waiting_events (queue_of key s) ++ concat (waiting_events <$> mvalues (mdelete key (queued s)))).
    { unfold queued_events, queue_of. destruct (mget key (queued s)) eqn:Hk; [by apply queued_events_delete|]. simpl. by rewrite mdelete_id. }
    rewrite Hold. unfold waiting_events. solve_Permutation.
  - intros k Hu. specialize (Hord k Hu). set (q' := queue_of key s ++ _).
    change (queue_of k (with_queued (mset key q' (queued s)) s)) with (default [] (mget k (mset key q' (queued s)))).
    rewrite mget_mset, of_key_events_app, of_key_event. simpl executed. case_decide as Hk; [subst k; rewrite decide_True by done|by rewrite decide_False, app_nil_r by done].
    change (default [] (Some q')) with q'. unfold q'. rewrite fmap_app, app_assoc. simpl. by apply sublist_app.
Qed.

Lemma begin_ok now s finished submitted key event n :
  scheduler_ok s finished submitted -> (running_of key s < n <= limit key)%Z -> (uniform = true -> n = limit key) ->
  scheduler_ok (begin_run now key event s) finished (submitted ++ [(key, event)]).
Proof.
  intros [Hwf Hrun Hlim Hq Hcons Hord] Hn Hu. constructor; try done.
  - intros k. rewrite begin_running. simpl executed. rewrite fmap_app, count_key_app. simpl. rewrite count_key_one, !Hrun.
    repeat case_decide; subst; try done; lia.
  - intros k. rewrite begin_running. pose proof (Hlim k). pose proof (Hlim key). case_decide; subst; lia.
  - intros k q Hkq. destruct (Hq _ _ Hkq) as (Q1 & Q2 & Q3 & Q4 & Q5 & Q6). rewrite begin_running. split_and!; try done.
    + case_decide; subst; lia.
    + intros Hun. case_decide as Hk; [subst k|by apply Q5]. specialize (Q5 Hun). specialize (Hu Hun). lia.
  - rewrite fmap_app, Hcons. unfold queued_events. simpl. rewrite fmap_app. simpl. solve_Permutation.
  - intros k Hun. specialize (Hord k Hun). change (queue_of k (begin_run now key event s)) with (queue_of k s). simpl executed.
    rewrite !of_key_events_app, !of_key_event. case_decide as Hk; [|by rewrite !app_nil_r]. subst k.
    assert (Hempty : queue_of key s = []).
    { unfold queue_of. destruct (mget key (queued s)) eqn:Hk; [|done]. destruct (Hq _ _ Hk) as (_ & _ & _ & _ & Q5 & _). specialize (Q5 Hun). specialize (Hu Hun). lia. }
    rewrite Hempty in *. simpl in *. rewrite app_nil_r in *. by apply sublist_app.
Qed.

Lemma submit_ok now started key event policy s finished submitted :
  scheduler_ok s finished submitted -> op_allowed (OpSubmit now started key event policy) s finished ->
  scheduler_ok (submit maxQueuedPerJob now started key event policy s).2 finished (submitted ++ [(key, event)]).
Proof.
  intros Hok [Hp Hu]. unfold submit. destruct (accepting s) eqn:Hacc; simpl negb; cbn match; [|by apply skip_ok].
  set (cooling := match cooldownMs policy with Some _ => _ | None => _ end). destruct cooling; [by apply skip_ok|]. destruct (_ <=? _)%Z eqn:Hb.
  - apply Z.leb_le in Hb. destruct (whenBusy policy); [by apply skip_ok|]. fold (queue_of key s). case_bool_decide as Hlen; [by apply skip_ok|].
    apply queue_event_ok; try done; [lia|by split; [lia|]|lia].
  - apply Z.leb_gt in Hb. apply begin_ok with (maxConcurrentRuns policy); try done; lia.
Qed.

(** ** Stopping, clearing *)

Lemma skip_reasons (reason : SchedulerSkipReason) (events : list T) : ((fun event => (event, reason)) <$> events).*1 = events.
Proof. induction events as [|e events IH]; csimpl; [done|by rewrite IH]. Qed.

Lemma clearQueued_ok key reason s finished submitted :
  scheduler_ok s finished submitted -> scheduler_ok (clearQueued key reason s) finished submitted.
Proof.
  intros Hok. unfold clearQueued. destruct (mget key (queued s)) as [q|] eqn:Hk; [|done]. destruct Hok as [Hwf Hrun Hlim Hq Hcons Hord].
  constructor; try done.
  - by apply map_wf_mdelete.
  - intros k q'. simpl queued. rewrite mget_mdelete. case_decide; [done|]. apply Hq.
  - rewrite Hcons. unfold queued_events. rewrite (queued_events_delete key s q Hwf Hk). simpl. rewrite fmap_app, skip_reasons.
    unfold waiting_events at 1. solve_Permutation.
  - intros k Hu. specialize (Hord k Hu). unfold queue_of in *. simpl queued. simpl executed. rewrite mget_mdelete.
    case_decide; [|done]. simpl. rewrite app_nil_r. etrans; [|exact Hord]. by apply sublist_inserts_r.
Qed.

Lemma stop_ok s finished submitted :
  scheduler_ok s finished submitted -> scheduler_ok (stop_scheduler s) finished submitted.
Proof.
  intros [Hwf Hrun Hlim Hq Hcons Hord]. constructor; try done.
  - by constructor.
  - rewrite Hcons. unfold queued_events. simpl. rewrite fmap_app, skip_reasons. apply Permutation_app_head, Permutation_app_comm.
  - intros k Hu. specialize (Hord k Hu). unfold queue_of. simpl. rewrite app_nil_r. etrans; [|exact Hord]. by apply sublist_inserts_r.
Qed.

Lemma start_scheduler_ok s finished submitted :
  scheduler_ok s finished submitted -> scheduler_ok (start_scheduler s) finished submitted.
Proof.
  intros [Hwf Hrun Hlim Hq Hcons Hord]. constructor; try done. intros k q Hk. by destruct (Hq k q Hk) as (? & ? & ? & ?).
Qed.

Lemma scheduled_ok s finished submitted : scheduled s finished submitted -> scheduler_ok s finished submitted.
Proof.
  induction 1 as [|s finished submitted op Hs IH Hop].
  - constructor; try done; [apply NoDup_nil_2|intros key; unfold running_of; simpl; lia].
  - destruct op as [|now started key event policy|now key|key reason|key timer|key|]; simpl; rewrite ?app_nil_r.
    + by apply start_scheduler_ok.
    + by apply submit_ok.
    + by apply finish_run_ok.
    + by apply clearQueued_ok.
    + by destruct IH.
    + by destruct IH.
    + by apply stop_ok.
Qed.

(** With one policy per job, each settled run starts the event at the head of
    the queue. *)
Lemma finish_starts_next now key s finished submitted e rest :
  scheduler_ok s finished submitted -> uniform = true -> queue_of key s = e :: rest ->
  executed (finish_run now key s) = executed s ++ [(key, qe_event e)] /\ queue_of key (finish_run now key s) = rest.
Proof.
  intros [Hwf Hrun Hlim Hq Hcons Hord] Hu Hqueue. unfold queue_of in Hqueue. destruct (mget key (queued s)) as [q|] eqn:Hk; [|done]. simpl in Hqueue. subst q.
  destruct (Hq _ _ Hk) as (_ & _ & Hacc & Hpos & Hfull & Hpol). apply Forall_cons in Hpol as [[_ Hpol] _]. specialize (Hpol Hu). specialize (Hfull Hu).
  unfold finish_run. set (remaining := (default 1 (mget key (running s)) - 1)%Z). set (s' := with_running _ s).
  assert (Hrem : running_of key s' = (running_of key s - 1)%Z).
  { unfold running_of at 1, s', remaining. simpl. unfold running_of in *. destruct (mget key (running s)) as [n|]; simpl in *; [|lia].
    destruct (Z.ltb_spec 0 (n - 1)); rewrite ?mget_mset, ?mget_mdelete, decide_True by done; simpl; lia. }
  unfold drain. change (accepting s') with (accepting s). change (queued s') with (queued s). rewrite Hacc, Hk, Hrem. simpl negb. cbn match.
  destruct (Z.leb_spec (maxConcurrentRuns (qe_policy e)) (running_of key s - 1)); [lia|]. split; [done|].
  unfold queue_of. destruct rest; simpl queued; [rewrite mget_mdelete|rewrite mget_mset]; by rewrite decide_True.
Qed.

(** C28. Whatever the sequence of submissions, settled runs, clearings, stops
    and restarts: every submitted event has been run, is waiting in its job's
    queue, or was reported as skipped, exactly once; a job counts as running
    the runs it has started that have not settled, and no more than its limit;
    a queue is never left behind, it is no longer than the runtime allows and
    its job has a run that will settle; and while the policy of each job stays
    the same the events of a job are run in the order of their submission, each
    settled run starting the one that has waited longest. *)
Theorem scheduler_accounts s finished submitted :
  scheduled s finished submitted ->
  submitted.*2 ≡ₚ (executed s).*2 ++ queued_events s ++ (skipped s).*1
  /\ (forall key, (running_of key s = count_key key (executed s).*1 - count_key key finished /\ 0 <= running_of key s <= Z.max 0 (limit key))%Z)
  /\ (forall key, queue_of key s <> [] -> accepting s = true /\ length (queue_of key s) <= maxQueuedPerJob /\ (1 <= running_of key s)%Z)
  /\ (uniform = true -> forall key,
        of_key key (executed s) ++ waiting_events (queue_of key s) `sublist_of` of_key key submitted
        /\ forall now e rest, queue_of key s = e :: rest ->
             executed (finish_run now key s) = executed s ++ [(key, qe_event e)] /\ queue_of key (finish_run now key s) = rest).
Proof.
  intros Hs%scheduled_ok. pose proof Hs as [Hwf Hrun Hlim Hq Hcons Hord]. split_and!; [done|done| |].
  - intros key Hne. unfold queue_of in *. destruct (mget key (queued s)) as [q|] eqn:Hk; [|done]. by destruct (Hq _ _ Hk) as (_ & ? & ? & ? & _).
  - intros Hu key. split; [by apply Hord|]. intros now e rest Hqueue. by apply (finish_starts_next now key s finished submitted e rest).
Qed.
End Scheduler.

(** One run at a time, at most two waiting: of four events one runs, two wait
    and one is refused; the run settles and the next one starts. *)
Definition example_key : jsstring := js "job".
Definition example_policy : SchedulerPolicy := Policy None 1 QueueWhenBusy.
Definition example_ops : list (scheduler_op nat) :=
  ((fun event => OpSubmit 0 0 example_key event example_policy) <$> [1; 2; 3; 4]) ++ [OpFinish 5 example_key].
Definition example_scheduler : scheduler nat := fold_left (fun s op => scheduler_step 2 op s) example_ops new_scheduler.

Lemma scheduler_accounts_witness :
  queue_of example_key example_scheduler = [Queued 3 example_policy]
  /\ executed example_scheduler = [(example_key, 1); (example_key, 2)] /\ skipped example_scheduler = [(4, SkipQueueFull)]
  /\ (forall now, executed (finish_run now example_key example_scheduler) = [(example_key, 1); (example_key, 2); (example_key, 3)]).
Proof.
  assert (Hs : scheduled 2 (fun _ => 1%Z) true example_scheduler [example_key] ((fun event => (example_key, event)) <$> [1; 2; 3; 4])).
  { eapply (scheduled_step 2 (fun _ => 1%Z) true _ [] [(example_key, 1); (example_key, 2); (example_key, 3); (example_key, 4)] (OpFinish 5 example_key)); [|reflexivity].
    eapply (scheduled_step 2 (fun _ => 1%Z) true _ [] [(example_key, 1); (example_key, 2); (example_key, 3)] (OpSubmit 0 0 example_key 4 example_policy)); [|by repeat split].
    eapply (scheduled_step 2 (fun _ => 1%Z) true _ [] [(example_key, 1); (example_key, 2)] (OpSubmit 0 0 example_key 3 example_policy)); [|by repeat split].
    eapply (scheduled_step 2 (fun _ => 1%Z) true _ [] [(example_key, 1)] (OpSubmit 0 0 example_key 2 example_policy)); [|by repeat split].
    eapply (scheduled_step 2 (fun _ => 1%Z) true _ [] [] (OpSubmit 0 0 example_key 1 example_policy)); [|by repeat split].
    apply scheduled_new. }
  destruct (scheduler_accounts 2 (fun _ => 1%Z) true _ _ _ Hs) as (_ & _ & _ & Hnext). destruct (Hnext eq_refl example_key) as [_ Hfinish].
  split_and!; [vm_compute; reflexivity|vm_compute; reflexivity|vm_compute; reflexivity|].
  intros now. destruct (Hfinish now (Queued 3 example_policy) [] ltac:(vm_compute; reflexivity)) as [-> _]. vm_compute. reflexivity.
Defined.
