(* ===== verification/Turns.v ===== *)
(** * The turns of an AI session

    [packages/ai-session-runtime/src/ai-session-turns.ts]: the list of turns a
    session shows, merged from what providers, transcripts and the control side
    report about it.  [Date.parse], [toISOString] and the SHA-1 digest are
    parameters; a drawn turn identifier is an argument.  Optional fields are
    options: every field that is read may also be absent. *)

From stdpp Require Import pretty.
From S2P Require Export Text.

(** ** Data

    The schemas of [packages/protocol/src/ai-sessions.ts]. *)

Inductive AiSessionLifecycle := Running | Waiting | Idle | SessionFailed.
Inductive AiSessionPhase := Thinking | UsingTool | Editing | AwaitingApproval | Responding | UnknownPhase.
Inductive AiSessionSource := Control | Realtime | AdapterSnapshot | TranscriptTail | TranscriptScan | ProcessScan | AppSession.
Inductive turn_status := TurnQueued | TurnRunning | TurnWaiting | TurnCompleted | TurnFailed.
Inductive compaction_status := CompactionRunning | CompactionCompleted.
Inductive attachment_kind := ImageAttachment | FileAttachment.
Inductive content_state := ContentAvailable | ContentExpired | ContentMissing.

#[export] Instance lifecycle_eq_dec : EqDecision AiSessionLifecycle.
Proof. solve_decision. Defined.
#[export] Instance phase_eq_dec : EqDecision AiSessionPhase.
Proof. solve_decision. Defined.
#[export] Instance source_eq_dec : EqDecision AiSessionSource.
Proof. solve_decision. Defined.
#[export] Instance turn_status_eq_dec : EqDecision turn_status.
Proof. solve_decision. Defined.
#[export] Instance compaction_status_eq_dec : EqDecision compaction_status.
Proof. solve_decision. Defined.
#[export] Instance attachment_kind_eq_dec : EqDecision attachment_kind.
Proof. solve_decision. Defined.
#[export] Instance content_state_eq_dec : EqDecision content_state.
Proof. solve_decision. Defined.

Record AiSessionConversationAttachment := Attachment {
  a_id : jsstring;
  a_kind : attachment_kind;
  a_name : jsstring;
  a_mime : jsstring;
  a_size : Z;
  a_contentState : content_state
}.

Record AiSessionUserMessageDetail := UserMessage { um_id : jsstring; um_text : jsstring; um_attachments : list AiSessionConversationAttachment }.

Record AiSessionContextCompaction := Compaction {
  c_id : jsstring;
  c_status : compaction_status;
  c_startedAt : option jsstring;
  c_completedAt : option jsstring
}.

Record AiSessionTurn := Turn {
  t_id : jsstring;
  t_providerTurnId : option jsstring;
  t_source : option AiSessionSource;
  t_userPrompt : option jsstring;
  t_userMessages : option (list AiSessionUserMessageDetail);
  t_status : turn_status;
  t_phase : option AiSessionPhase;
  t_summary : option jsstring;
  t_lastMessage : option jsstring;
  t_lastMessageItemId : option jsstring;
  t_contextCompactions : option (list AiSessionContextCompaction);
  t_revision : Z;
  t_sourcePriority : option Z;
  t_snapshotVersion : option Z;
  t_observedAt : option jsstring;
  t_startedAt : option jsstring;
  t_updatedAt : option jsstring;
  t_completedAt : option jsstring
}.

#[export] Instance attachment_eq_dec : EqDecision AiSessionConversationAttachment.
Proof. solve_decision. Defined.
#[export] Instance user_message_eq_dec : EqDecision AiSessionUserMessageDetail.
Proof. solve_decision. Defined.
#[export] Instance compaction_eq_dec : EqDecision AiSessionContextCompaction.
Proof. solve_decision. Defined.
#[export] Instance turn_eq_dec : EqDecision AiSessionTurn.
Proof. solve_decision. Defined.

(** What a report says about all its turns; [None] where the key is absent. *)
Record TurnMeta := Meta {
  m_source : option AiSessionSource;
  m_sourcePriority : option Z;
  m_providerTurnId : option jsstring;
  m_snapshotVersion : option Z;
  m_observedAt : option jsstring
}.
Definition no_meta : TurnMeta := Meta None None None None None.

(** [a ?? b]; also the value of a key after a spread that may lack it. *)
Definition over {A} (a b : option A) : option A := match a with Some _ => a | None => b end.

(** [l.slice(-n)]. *)
Definition last_n {A} (n : nat) (l : list A) : list A := drop (length l - n) l.

(** ** Sources and metadata *)

Definition SOURCE_PRIORITY (source : AiSessionSource) : Z :=
  match source with
  | Control => 90
  | Realtime => 80
  | AdapterSnapshot => 60
  | TranscriptTail => 50
  | AppSession => 40
  | ProcessScan => 30
  | TranscriptScan => 20
  end.

Definition sourcePriority (source : option AiSessionSource) (override : option Z) : Z :=
  Z.max 0 (Z.min 100 match override with
                     | Some p => p
                     | None => match source with Some s => SOURCE_PRIORITY s | None => 0 end
                     end).

Definition turnMeta (source : option AiSessionSource) (priority : option Z) (providerTurnId : option jsstring) (snapshotVersion : option Z)
    (observedAt : option jsstring) : TurnMeta :=
  Meta source
    (match source with Some _ => Some (sourcePriority source priority) | None => None end)
    (if otruthy providerTurnId then (fun id => compact id 240) <$> providerTurnId else None)
    snapshotVersion
    (if otruthy observedAt then observedAt else None).

Section Turns.
Context (Date_parse : jsstring -> option Z) (toISOString : Z -> jsstring) (sha1 : jsstring -> jsstring).

(** ** Normalization *)

Definition normalizeIsoTimestamp (value : option jsstring) : option jsstring :=
  v ← value; if truthy (trim v) then toISOString <$> Date_parse v else None.

(** A pass of the loop over the reported compactions. *)
Definition add_compaction (byId : jsmap jsstring AiSessionContextCompaction) (record : AiSessionContextCompaction) : jsmap jsstring AiSessionContextCompaction :=
  if negb (truthy (trim (c_id record))) then byId else
  let id := compact (c_id record) 240 in
  let previous := mget id byId in
  let status := if bool_decide (c_status <$> previous = Some CompactionCompleted) || bool_decide (c_status record = CompactionCompleted)
                then CompactionCompleted else CompactionRunning in
  let startedAt := oor (normalizeIsoTimestamp (c_startedAt record)) (previous ≫= c_startedAt) in
  let completedAt := oor (normalizeIsoTimestamp (c_completedAt record)) (previous ≫= c_completedAt) in
  mset id (Compaction id status (if otruthy startedAt then startedAt else None) (if otruthy completedAt then completedAt else None)) byId.

Definition normalizeContextCompactions (value : option (list AiSessionContextCompaction)) : option (list AiSessionContextCompaction) :=
  records ← value;
  match last_n 20 (mvalues (foldl add_compaction [] records)) with [] => None | values => Some values end.

(** [NonEmptyTrimmedTextSchema.max(max)]. *)
Definition nonEmptyTrimmedText (max : N) (value : jsstring) : option jsstring :=
  if truthy (trim value) && (N.of_nat (length (trim value)) <=? max)%N then Some (trim value) else None.

(** [AiSessionConversationAttachmentSchema.safeParse]. *)
Definition parseConversationAttachment (candidate : AiSessionConversationAttachment) : option AiSessionConversationAttachment :=
  id ← nonEmptyTrimmedText 120 (a_id candidate);
  name ← nonEmptyTrimmedText 240 (a_name candidate);
  mime ← nonEmptyTrimmedText 120 (a_mime candidate);
  if bool_decide (0 <= a_size candidate <= 9007199254740991)%Z
  then Some (Attachment id (a_kind candidate) name mime (a_size candidate) (a_contentState candidate)) else None.

(** A pass of the loop over the reported messages. *)
Definition add_user_message (messages : jsmap jsstring AiSessionUserMessageDetail) (record : AiSessionUserMessageDetail) : jsmap jsstring AiSessionUserMessageDetail :=
  if negb (truthy (um_id record)) then messages else
  let attachments := take 6 (omap parseConversationAttachment (um_attachments record)) in
  let message := UserMessage (compact (um_id record) 240) (messageText (um_text record)) attachments in
  mset (um_id message)
    (match mget (um_id message) messages with
     | Some existing => if bool_decide (length (um_attachments message) < length (um_attachments existing)) then existing else message
     | None => message
     end) messages.

Definition normalizeUserMessages (value : option (list AiSessionUserMessageDetail)) : option (list AiSessionUserMessageDetail) :=
  records ← value;
  match last_n 100 (mvalues (foldl add_user_message [] records)) with [] => None | messages => Some messages end.

Definition mergeUserMessages (current incoming : option (list AiSessionUserMessageDetail)) : option (list AiSessionUserMessageDetail) :=
  normalizeUserMessages (Some (default [] current ++ default [] incoming)).

Definition mergeContextCompactions (current incoming : option (list AiSessionContextCompaction)) : option (list AiSessionContextCompaction) :=
  normalizeContextCompactions (Some (default [] current ++ default [] incoming)).

(** The status of a compaction in [currentById]: the last one of the id. *)
Definition compaction_of (id : jsstring) (items : list AiSessionContextCompaction) : option compaction_status :=
  mget id (foldl (fun byId item => mset (c_id item) (c_status item) byId) [] items).

Definition hasContextCompactionProgress (existing : option AiSessionTurn) (incoming : AiSessionTurn) : bool :=
  let current := default [] (existing ≫= t_contextCompactions) in
  existsb (fun item => match compaction_of (c_id item) current with
                       | None => true
                       | Some status => bool_decide (status = CompactionRunning) && bool_decide (c_status item = CompactionCompleted)
                       end) (default [] (t_contextCompactions incoming)).

(** ** Generated identifiers *)

(** [/[a-zA-Z0-9_.:-]/]. *)
Definition slug_char (c : N) : bool :=
  bool_decide (48 <= c <= 57)%N || bool_decide (65 <= c <= 90)%N || bool_decide (97 <= c <= 122)%N
  || (c =? 95)%N || (c =? 46)%N || (c =? 58)%N || (c =? 45)%N.

Fixpoint slug_from (in_run : bool) (s : jsstring) : jsstring :=
  match s with
  | [] => []
  | c :: s' => if slug_char c then c :: slug_from false s' else (if in_run then [] else [95%N]) ++ slug_from true s'
  end.

Fixpoint strip_underscores (s : jsstring) : jsstring :=
  match s with c :: s' => if (c =? 95)%N then strip_underscores s' else s | [] => [] end.

Definition stableTurnPart (value : option jsstring) : jsstring :=
  let text := compact (default [] value) 120 in
  let slug := reverse (strip_underscores (reverse (strip_underscores (slug_from false text)))) in
  let hash := take 10 (sha1 text) in
  if truthy slug then slug ++ js "_" ++ hash else hash.

Definition stableGeneratedTurnId (prompt seed : jsstring) : jsstring :=
  js "turn_" ++ stableTurnPart (Some prompt) ++ js "_" ++ stableTurnPart (Some seed).

Definition transcriptTurnId (prompt : jsstring) (seed : option jsstring) (occurrence : nat) : jsstring :=
  stableGeneratedTurnId prompt
    (match seed with
     | Some s => if truthy s then s else prompt ++ js ":" ++ js (pretty occurrence)
     | None => prompt ++ js ":" ++ js (pretty occurrence)
     end).

Definition legacyTurnId (record : AiSessionTurn) (index : nat) : jsstring :=
  js "turn_legacy_" ++ js (pretty index) ++ js "_"
  ++ stableTurnPart (oor (t_userPrompt record) (oor (t_updatedAt record) (oor (t_lastMessage record) (t_summary record)))).

(** [value ? f(value) : undefined]. *)
Definition when_truthy (f : jsstring -> jsstring) (value : option jsstring) : option jsstring :=
  if otruthy value then f <$> value else None.

Definition normalize_turn (meta : TurnMeta) (index : nat) (record : AiSessionTurn) : AiSessionTurn :=
  Turn
    (if truthy (t_id record) then compact (t_id record) 240 else legacyTurnId record index)
    (over (when_truthy (fun id => compact id 240) (t_providerTurnId record)) (m_providerTurnId meta))
    (over (t_source record) (m_source meta))
    (when_truthy messageText (t_userPrompt record))
    (normalizeUserMessages (t_userMessages record))
    (t_status record)
    (t_phase record)
    (when_truthy (fun s => compact s 1000) (t_summary record))
    (when_truthy messageText (t_lastMessage record))
    (when_truthy (fun id => compact id 240) (t_lastMessageItemId record))
    (normalizeContextCompactions (t_contextCompactions record))
    (Z.max 0 (t_revision record))
    (over (t_sourcePriority record) (m_sourcePriority meta))
    (over (t_snapshotVersion record) (m_snapshotVersion meta))
    (oor (t_observedAt record) (m_observedAt meta))
    (t_startedAt record)
    (t_updatedAt record)
    (t_completedAt record).

(** A turn is kept when there is something to show. *)
Definition has_content (turn : AiSessionTurn) : bool :=
  otruthy (t_userPrompt turn) || match t_userMessages turn with Some (_ :: _) => true | _ => false end
  || otruthy (t_summary turn) || otruthy (t_lastMessage turn)
  || match t_contextCompactions turn with Some (_ :: _) => true | _ => false end.

Definition normalizeTurns (values : option (list AiSessionTurn)) (meta : TurnMeta) : list AiSessionTurn :=
  last_n 50 (filter (fun turn => has_content turn = true) (imap (normalize_turn meta) (default [] values))).

(** ** Merging *)

(** [Date.parse(a) >= Date.parse(b)], with NaN below and above nothing. *)
Definition date_geb (a b : option jsstring) : bool :=
  match Date_parse (default [] a), Date_parse (default [] b) with
  | Some x, Some y => (y <=? x)%Z
  | _, _ => false
  end.

Definition has_response (turn : AiSessionTurn) : bool := otruthy (t_lastMessage turn) || otruthy (t_summary turn).

Definition shouldAcceptIncomingTurn (existing : option AiSessionTurn) (incoming : AiSessionTurn) : bool :=
  match existing with
  | None => true
  | Some e =>
      if hasContextCompactionProgress (Some e) incoming then true else
      let existingPriority := sourcePriority (t_source e) (t_sourcePriority e) in
      let incomingPriority := sourcePriority (t_source incoming) (t_sourcePriority incoming) in
      if negb (incomingPriority =? existingPriority)%Z
      then (existingPriority <? incomingPriority)%Z || (has_response incoming && negb (has_response e)) else
      let existingSnapshot := default 0%Z (t_snapshotVersion e) in
      let incomingSnapshot := default 0%Z (t_snapshotVersion incoming) in
      if negb (incomingSnapshot =? existingSnapshot)%Z then (existingSnapshot <? incomingSnapshot)%Z else
      (t_revision e <=? t_revision incoming)%Z
      || date_geb (oor (t_observedAt incoming) (t_updatedAt incoming)) (oor (t_observedAt e) (t_updatedAt e))
  end.

(** [existing.field === (turn.field ?? existing.field)]. *)
Definition unchanged {A} `{EqDecision A} (existing turn : option A) : bool := bool_decide (existing = over turn existing).

(** [{ ...existing, ...mergeTurnPatch(existing, turn) }]. *)
Definition merge_turn (existing : option AiSessionTurn) (turn : AiSessionTurn) : AiSessionTurn :=
  let contextCompactions := mergeContextCompactions (existing ≫= t_contextCompactions) (t_contextCompactions turn) in
  let userMessages := mergeUserMessages (existing ≫= t_userMessages) (t_userMessages turn) in
  match existing with
  | None => Turn (t_id turn) (t_providerTurnId turn) (t_source turn) (t_userPrompt turn) userMessages (t_status turn) (t_phase turn)
              (t_summary turn) (t_lastMessage turn) (t_lastMessageItemId turn) contextCompactions (t_revision turn) (t_sourcePriority turn)
              (t_snapshotVersion turn) (t_observedAt turn) (t_startedAt turn) (t_updatedAt turn) (t_completedAt turn)
  | Some e =>
      let sameResponse := unchanged (t_userPrompt e) (t_userPrompt turn) && unchanged (t_summary e) (t_summary turn)
                          && unchanged (t_lastMessage e) (t_lastMessage turn) && unchanged (t_lastMessageItemId e) (t_lastMessageItemId turn)
                          && bool_decide (default [] (t_userMessages e) = default [] userMessages)
                          && bool_decide (default [] (t_contextCompactions e) = default [] contextCompactions) in
      let sameState := bool_decide (t_status e = t_status turn) && unchanged (t_phase e) (t_phase turn) in
      let same := sameResponse && sameState in
      Turn (t_id turn) (over (t_providerTurnId turn) (t_providerTurnId e)) (over (t_source turn) (t_source e))
        (over (t_userPrompt turn) (t_userPrompt e)) userMessages (t_status turn) (over (t_phase turn) (t_phase e))
        (over (t_summary turn) (t_summary e)) (over (t_lastMessage turn) (t_lastMessage e)) (over (t_lastMessageItemId turn) (t_lastMessageItemId e))
        contextCompactions (t_revision turn) (over (t_sourcePriority turn) (t_sourcePriority e)) (over (t_snapshotVersion turn) (t_snapshotVersion e))
        (if same then t_observedAt e else over (t_observedAt turn) (t_observedAt e))
        (over (t_startedAt turn) (t_startedAt e))
        (if same then t_updatedAt e else over (t_updatedAt turn) (t_updatedAt e))
        (if same then t_completedAt e else over (t_completedAt turn) (t_completedAt e))
  end.

(** [{ ...turn, id, providerTurnId, revision }] of a merged turn. *)
Definition with_identity (id : jsstring) (providerTurnId : option jsstring) (revision : Z) (turn : AiSessionTurn) : AiSessionTurn :=
  Turn id providerTurnId (t_source turn) (t_userPrompt turn) (t_userMessages turn) (t_status turn) (t_phase turn) (t_summary turn)
    (t_lastMessage turn) (t_lastMessageItemId turn) (t_contextCompactions turn) revision (t_sourcePriority turn) (t_snapshotVersion turn)
    (t_observedAt turn) (t_startedAt turn) (t_updatedAt turn) (t_completedAt turn).

Definition turnIdentities (turn : AiSessionTurn) : list jsstring :=
  filter (fun id => truthy id = true) (t_id turn :: option_list (t_providerTurnId turn)).

Definition sharesTurnIdentity (left right : AiSessionTurn) : bool :=
  existsb (fun identity => bool_decide (identity ∈ turnIdentities left)) (turnIdentities right).

Definition hasKnownTurnIdentity (turns : list AiSessionTurn) (turn : AiSessionTurn) : bool := existsb (fun entry => sharesTurnIdentity entry turn) turns.

(** [sharesTurnIdentity(turn, { id })]. *)
Definition has_identity (id : jsstring) (turn : AiSessionTurn) : bool := truthy id && bool_decide (id ∈ turnIdentities turn).

Definition find_index {A} (p : A -> bool) (l : list A) : option nat := fst <$> list_find (fun x => p x = true) l.
(** The index [[...l].reverse().find(p)] is taken from. *)
Definition find_last_index {A} (p : A -> bool) (l : list A) : option nat := (fun i => length l - 1 - i) <$> find_index p (reverse l).

Definition findTurnIndex (turns : list AiSessionTurn) (turn : AiSessionTurn) : option nat := find_index (fun entry => sharesTurnIdentity entry turn) turns.
Definition find_identity (turns : list AiSessionTurn) (id : jsstring) : option nat := find_index (has_identity id) turns.

(** [turns[i]], where [i] may be the -1 of a failed search. *)
Definition turn_at (turns : list AiSessionTurn) (i : option nat) : option AiSessionTurn := i ← i; turns !! i.

(** [l.splice(i, 0, x)]. *)
Definition splice_in {A} (i : nat) (x : A) (l : list A) : list A := take i l ++ x :: drop i l.

Definition same_id (a b : AiSessionTurn) : bool := bool_decide (t_id a = t_id b).

Definition insertTurn (incomingTurns : list AiSessionTurn) (turn : AiSessionTurn) (incomingIndex : nat) (merged : list AiSessionTurn) : list AiSessionTurn :=
  let known entry := existsb (same_id entry) merged in
  match find known (reverse (take incomingIndex incomingTurns)) with
  | Some previousKnown => splice_in (S (default 0 (find_index (same_id previousKnown) merged))) turn merged
  | None =>
      match find known (drop (S incomingIndex) incomingTurns) with
      | Some nextKnown => splice_in (default 0 (find_index (same_id nextKnown) merged)) turn merged
      | None => merged ++ [turn]
      end
  end.

(** A pending turn with the prompt of an incoming response. *)
Definition pairs_by_prompt (incomingTurns : list AiSessionTurn) (turn existing : AiSessionTurn) : bool :=
  negb (same_id existing turn) && otruthy (t_userPrompt existing) && bool_decide (t_userPrompt existing = t_userPrompt turn)
  && negb (has_response existing) && has_response turn && negb (hasKnownTurnIdentity incomingTurns existing).

Definition merge_step (incomingTurns : list AiSessionTurn) (merged : list AiSessionTurn) (incoming : nat * AiSessionTurn) : list AiSessionTurn :=
  let (incomingIndex, turn) := incoming in
  let pending := if hasKnownTurnIdentity merged turn then None else find_index (pairs_by_prompt incomingTurns turn) merged in
  match pending ≫= (fun index => pair index <$> merged !! index) with
  | Some (index, existing) =>
      let updated := with_identity (t_id existing) (oor (t_providerTurnId turn) (Some (t_id turn))) (Z.max (t_revision existing) (t_revision turn))
                       (merge_turn (Some existing) turn) in
      if shouldAcceptIncomingTurn (Some existing) updated then <[index := updated]> merged else merged
  | None =>
      let existingIndex := findTurnIndex merged turn in
      let existing := turn_at merged existingIndex in
      if shouldAcceptIncomingTurn existing turn then
        let m := merge_turn existing turn in
        match existingIndex, existing with
        | Some index, Some e => <[index := with_identity (t_id e) (t_providerTurnId m) (Z.max (t_revision e) (t_revision turn)) m]> merged
        | _, _ => insertTurn incomingTurns (with_identity (t_id m) (t_providerTurnId m) (Z.max 0 (t_revision turn)) m) incomingIndex merged
        end
      else merged
  end.

Definition mergeTurns (current next : option (list AiSessionTurn)) (meta : TurnMeta) : list AiSessionTurn * list AiSessionTurn :=
  let baseline := normalizeTurns current no_meta in
  let incomingTurns := normalizeTurns next meta in
  (last_n 50 (foldl (merge_step incomingTurns) baseline (imap pair incomingTurns)), baseline).

(** ** Questions about a session

    [activeTurnId], [running] and [turns] are fields of the session. *)

Definition currentActiveTurnIsPending (activeTurnId : option jsstring) (status : AiSessionLifecycle) (turns : option (list AiSessionTurn)) : bool :=
  if negb (otruthy activeTurnId) || negb (bool_decide (status = Running)) then false else
  let turns := normalizeTurns turns no_meta in
  match turn_at turns (find_identity turns (default [] activeTurnId)) with
  | Some turn => negb (has_response turn)
  | None => true
  end.

Definition snapshotMissingPendingActiveTurn (activeTurnId : option jsstring) (status : AiSessionLifecycle) (turns incomingTurns : option (list AiSessionTurn)) : bool :=
  if negb (currentActiveTurnIsPending activeTurnId status turns) then false else
  let turns := normalizeTurns turns no_meta in
  let activeTurn := turn_at turns (find_identity turns (default [] activeTurnId)) in
  negb (existsb (fun turn =>
    has_identity (default [] activeTurnId) turn
    || match activeTurn with
       | Some active => otruthy (t_userPrompt active) && bool_decide (t_userPrompt turn = t_userPrompt active) && has_response turn && negb (has_response active)
       | None => false
       end) (normalizeTurns incomingTurns no_meta)).

Definition nextActiveTurnId (currentActive eventActive : option jsstring) (eventStatus : option AiSessionLifecycle) (staleActivitySnapshot : bool) : option jsstring :=
  if staleActivitySnapshot then currentActive else
  match eventStatus with
  | Some Idle | Some SessionFailed => None
  | _ => if otruthy eventActive then (fun id => compact id 240) <$> eventActive else currentActive
  end.

(** ** Updating *)

Record TurnUpdatePatch := TurnPatch {
  p_activeTurnId : option jsstring;
  p_userPrompt : option jsstring;
  p_turns : option (list AiSessionTurn);
  p_status : option AiSessionLifecycle;
  p_phase : option AiSessionPhase;
  p_summary : option jsstring;
  p_lastMessage : option jsstring;
  p_lastMessageItemId : option jsstring;
  p_completedAt : option jsstring;
  p_userMessage : option AiSessionUserMessageDetail
}.

Definition turnStatusFromSessionStatus (status : option AiSessionLifecycle) (fallback : turn_status) : turn_status :=
  match status with
  | Some Idle => TurnCompleted
  | Some Waiting => TurnWaiting
  | Some SessionFailed => TurnFailed
  | Some Running => TurnRunning
  | None => fallback
  end.

(** [Object.assign(turn, meta)]. *)
Definition assign_meta (meta : TurnMeta) (t : AiSessionTurn) : AiSessionTurn :=
  Turn (t_id t) (over (m_providerTurnId meta) (t_providerTurnId t)) (over (m_source meta) (t_source t)) (t_userPrompt t) (t_userMessages t)
    (t_status t) (t_phase t) (t_summary t) (t_lastMessage t) (t_lastMessageItemId t) (t_contextCompactions t) (t_revision t)
    (over (m_sourcePriority meta) (t_sourcePriority t)) (over (m_snapshotVersion meta) (t_snapshotVersion t))
    (over (m_observedAt meta) (t_observedAt t)) (t_startedAt t) (t_updatedAt t) (t_completedAt t).

Definition set_id (id : jsstring) (t : AiSessionTurn) : AiSessionTurn := with_identity id (t_providerTurnId t) (t_revision t) t.

(** [turn.updatedAt = updatedAt; turn.revision += 1]. *)
Definition touch (updatedAt : jsstring) (t : AiSessionTurn) : AiSessionTurn :=
  Turn (t_id t) (t_providerTurnId t) (t_source t) (t_userPrompt t) (t_userMessages t) (t_status t) (t_phase t) (t_summary t) (t_lastMessage t)
    (t_lastMessageItemId t) (t_contextCompactions t) (t_revision t + 1) (t_sourcePriority t) (t_snapshotVersion t) (t_observedAt t)
    (t_startedAt t) (Some updatedAt) (t_completedAt t).

Definition set_state (userPrompt : option jsstring) (status : turn_status) (phase : option AiSessionPhase) (completedAt : option jsstring)
    (t : AiSessionTurn) : AiSessionTurn :=
  Turn (t_id t) (t_providerTurnId t) (t_source t) userPrompt (t_userMessages t) status phase (t_summary t) (t_lastMessage t)
    (t_lastMessageItemId t) (t_contextCompactions t) (t_revision t) (t_sourcePriority t) (t_snapshotVersion t) (t_observedAt t)
    (t_startedAt t) (t_updatedAt t) completedAt.

Definition set_messages (messages : option (list AiSessionUserMessageDetail)) (t : AiSessionTurn) : AiSessionTurn :=
  Turn (t_id t) (t_providerTurnId t) (t_source t) (t_userPrompt t) messages (t_status t) (t_phase t) (t_summary t) (t_lastMessage t)
    (t_lastMessageItemId t) (t_contextCompactions t) (t_revision t) (t_sourcePriority t) (t_snapshotVersion t) (t_observedAt t)
    (t_startedAt t) (t_updatedAt t) (t_completedAt t).

(** [{ id, ...meta, userPrompt, status, phase, revision: 0, startedAt: updatedAt, updatedAt }]. *)
Definition new_turn (id : jsstring) (meta : TurnMeta) (userPrompt : option jsstring) (status : turn_status) (phase : AiSessionPhase) (updatedAt : jsstring) : AiSessionTurn :=
  Turn id (m_providerTurnId meta) (m_source meta) userPrompt None status (Some phase) None None None None 0 (m_sourcePriority meta)
    (m_snapshotVersion meta) (m_observedAt meta) (Some updatedAt) (Some updatedAt) None.

Definition differs {A} `{EqDecision A} (meta field : option A) : bool := match meta with Some _ => negb (bool_decide (field = meta)) | None => false end.

(** [Object.entries(meta).some(([key, value]) => turn[key] !== value)]. *)
Definition observedChanged (meta : TurnMeta) (t : AiSessionTurn) : bool :=
  differs (m_source meta) (t_source t) || differs (m_sourcePriority meta) (t_sourcePriority t) || differs (m_providerTurnId meta) (t_providerTurnId t)
  || differs (m_snapshotVersion meta) (t_snapshotVersion t) || differs (m_observedAt meta) (t_observedAt t).

Definition last_index {A} (l : list A) : option nat := match l with [] => None | _ => Some (length l - 1) end.

Section Update.
Context (patch : TurnUpdatePatch) (updatedAt newId : jsstring) (meta : TurnMeta).

Definition patch_activeTurnId : jsstring := if otruthy (p_activeTurnId patch) then compact (default [] (p_activeTurnId patch)) 240 else [].
Abbreviation activeTurnId := patch_activeTurnId.

Definition activeTurnPrompt : option jsstring :=
  if truthy activeTurnId then turn ← turn_at (default [] (p_turns patch)) (find_identity (default [] (p_turns patch)) activeTurnId); t_userPrompt turn else None.

Definition patch_prompt : jsstring := messageText (default [] (oor activeTurnPrompt (p_userPrompt patch))).

Definition find_active (turns : list AiSessionTurn) : option nat := if truthy activeTurnId then find_identity turns activeTurnId else None.

(** A turn gets the prompt: the observation alone does not touch it. *)
Definition observe_prompt (prompt : jsstring) (t : AiSessionTurn) : AiSessionTurn :=
  let nextStatus := turnStatusFromSessionStatus (p_status patch) TurnRunning in
  let nextPhase := over (p_phase patch) (over (t_phase t) (Some Thinking)) in
  let contentChanged := negb (bool_decide (t_userPrompt t = Some prompt)) || negb (bool_decide (t_status t = nextStatus)) || negb (bool_decide (t_phase t = nextPhase)) in
  if contentChanged || observedChanged meta t then
    let t := assign_meta meta (set_state (Some prompt) nextStatus nextPhase (t_completedAt t) t) in
    if contentChanged then touch updatedAt t else t
  else t.

Definition update_prompt (turns : list AiSessionTurn) : list AiSessionTurn :=
  let prompt := patch_prompt in
  if negb (truthy prompt) then turns else
  let activeTurn := find_active turns in
  let promptTurn := match activeTurn with
                    | Some i => Some i
                    | None => find_last_index (fun turn => bool_decide (t_userPrompt turn = Some prompt) && negb (has_response turn)) turns
                    end in
  let promptAlreadyRepresented := existsb (fun turn => otruthy (t_userPrompt turn) && bool_decide (messageText (default [] (t_userPrompt turn)) = prompt))
                                    (default [] (p_turns patch)) in
  match promptTurn with
  | Some i =>
      let adopted t := if truthy activeTurnId && negb (bool_decide (is_Some activeTurn)) && negb (bool_decide (t_id t = activeTurnId))
                       then set_id activeTurnId t else t in
      alter (fun t => observe_prompt prompt (adopted t)) i turns
  | None =>
      match last_index turns with
      | Some i =>
          if match turns !! i with Some t => negb (has_response t) && bool_decide (t_userPrompt t = Some prompt) | None => false end
          then alter (observe_prompt prompt) i turns
          else if promptAlreadyRepresented then turns
          else turns ++ [new_turn (if truthy activeTurnId then activeTurnId else stableGeneratedTurnId prompt updatedAt) meta (Some prompt)
                           (turnStatusFromSessionStatus (p_status patch) TurnRunning) (default Thinking (p_phase patch)) updatedAt]
      | None =>
          if promptAlreadyRepresented then turns
          else turns ++ [new_turn (if truthy activeTurnId then activeTurnId else stableGeneratedTurnId prompt updatedAt) meta (Some prompt)
                           (turnStatusFromSessionStatus (p_status patch) TurnRunning) (default Thinking (p_phase patch)) updatedAt]
      end
  end.

(** The turn an update is about: the active one or the last. *)
Definition target_turn (turns : list AiSessionTurn) : option nat := if truthy activeTurnId then find_identity turns activeTurnId else last_index turns.

Definition add_message (message : AiSessionUserMessageDetail) (t : AiSessionTurn) : AiSessionTurn :=
  let mergedMessages := mergeUserMessages (t_userMessages t) (Some [message]) in
  if bool_decide (default [] (t_userMessages t) = default [] mergedMessages) then t
  else touch updatedAt (set_messages mergedMessages t).

Definition update_message (turns : list AiSessionTurn) : list AiSessionTurn :=
  match p_userMessage patch with
  | None => turns
  | Some message =>
      match target_turn turns with
      | Some i => alter (add_message message) i turns
      | None =>
          let text := messageText (um_text message) in
          turns ++ [add_message message
            (new_turn (if truthy activeTurnId then activeTurnId else stableGeneratedTurnId (um_text message) updatedAt) meta
               (if truthy text then Some text else None) (if bool_decide (p_status patch = Some Waiting) then TurnWaiting else TurnRunning)
               (default Thinking (p_phase patch)) updatedAt)]
      end
  end.

(** [Object.assign(last, { ...response, ... })]. *)
Definition respond (t : AiSessionTurn) : AiSessionTurn :=
  let summary := over (when_truthy (fun s => compact s 1000) (p_summary patch)) (t_summary t) in
  let lastMessage := over (when_truthy messageText (p_lastMessage patch)) (t_lastMessage t) in
  let lastMessageItemId := over (when_truthy (fun id => compact id 240) (p_lastMessageItemId patch)) (t_lastMessageItemId t) in
  let status := match p_status patch with Some Idle => TurnCompleted | Some Waiting => TurnWaiting | Some SessionFailed => TurnFailed | _ => t_status t end in
  let phase := over (p_phase patch) (t_phase t) in
  let completedAt := oor (p_completedAt patch) (match p_status patch with Some Idle | Some SessionFailed => Some updatedAt | _ => t_completedAt t end) in
  let isSameResponse := bool_decide (t_summary t = summary) && bool_decide (t_lastMessage t = lastMessage) && bool_decide (t_lastMessageItemId t = lastMessageItemId) in
  let isSameState := bool_decide (t_status t = status) && bool_decide (t_phase t = phase) in
  let stableResponse := isSameResponse && isSameState in
  Turn (t_id t) (over (m_providerTurnId meta) (t_providerTurnId t)) (over (m_source meta) (t_source t)) (t_userPrompt t) (t_userMessages t)
    status phase summary lastMessage lastMessageItemId (t_contextCompactions t)
    (if negb isSameResponse || negb isSameState then t_revision t + 1 else t_revision t)
    (over (m_sourcePriority meta) (t_sourcePriority t)) (over (m_snapshotVersion meta) (t_snapshotVersion t))
    (if stableResponse then t_observedAt t else m_observedAt meta) (t_startedAt t)
    (if isSameResponse then t_updatedAt t else Some updatedAt)
    (if stableResponse then t_completedAt t else completedAt).

(** The turn made for a response that has no turn. *)
Definition response_turn : AiSessionTurn :=
  Turn newId (m_providerTurnId meta) (m_source meta) None None
    (match p_status patch with Some Idle => TurnCompleted | Some Waiting => TurnWaiting | Some SessionFailed => TurnFailed | _ => TurnRunning end)
    (p_phase patch) (when_truthy (fun s => compact s 1000) (p_summary patch)) (when_truthy messageText (p_lastMessage patch))
    (when_truthy (fun id => compact id 240) (p_lastMessageItemId patch)) None 0 (m_sourcePriority meta) (m_snapshotVersion meta)
    (m_observedAt meta) (Some updatedAt) (Some updatedAt)
    (oor (p_completedAt patch) (match p_status patch with Some Idle | Some SessionFailed => Some updatedAt | _ => None end)).

Definition update_response (turns : list AiSessionTurn) : list AiSessionTurn :=
  match target_turn turns with
  | Some i => alter respond i turns
  | None =>
      if truthy activeTurnId then
        match find_last_index (fun turn => otruthy (t_userPrompt turn) && negb (has_response turn)) turns with
        | Some i => alter (fun t => respond (set_id activeTurnId t)) i turns
        | None =>
            let status := match p_status patch with Some Waiting => TurnWaiting | Some SessionFailed => TurnFailed | _ => TurnRunning end in
            turns ++ [respond (new_turn activeTurnId meta None status (default UnknownPhase (p_phase patch)) updatedAt)]
        end
      else turns ++ [response_turn]
  end.

(** A turn whose session changed its state without a response. *)
Definition settle (t : AiSessionTurn) : AiSessionTurn :=
  let status := turnStatusFromSessionStatus (p_status patch) (t_status t) in
  let phase := over (p_phase patch) (t_phase t) in
  let completedAt := match p_status patch with
                     | Some Idle | Some SessionFailed => oor (t_completedAt t) (oor (p_completedAt patch) (Some updatedAt))
                     | _ => t_completedAt t
                     end in
  if negb (bool_decide (t_status t = status)) || negb (bool_decide (t_phase t = phase)) || negb (bool_decide (t_completedAt t = completedAt))
  then assign_meta meta (touch updatedAt (set_state (t_userPrompt t) status phase completedAt t)) else t.

Definition update_state (turns : list AiSessionTurn) : list AiSessionTurn :=
  if otruthy (p_lastMessage patch) || otruthy (p_summary patch) then update_response turns else
  if bool_decide (p_status patch = None) && bool_decide (p_phase patch = None) then turns else
  let last := if truthy activeTurnId then find_identity turns activeTurnId
              else match p_status patch with Some Idle | Some SessionFailed => last_index turns | _ => None end in
  match last with Some i => alter settle i turns | None => turns end.

(** A running turn is the last one. *)
Definition move_active (turns : list AiSessionTurn) : list AiSessionTurn :=
  match p_status patch with
  | Some Running | Some Waiting =>
      match find_active turns with
      | Some i =>
          match turns !! i with
          | Some t => if bool_decide (i = length turns - 1) then turns else delete i turns ++ [t]
          | None => turns
          end
      | None => turns
      end
  | _ => turns
  end.

Definition updateTurns (current : option (list AiSessionTurn)) : list AiSessionTurn :=
  let (turns, baseline) := mergeTurns current (p_turns patch) meta in
  let normalized := normalizeTurns (Some (move_active (update_state (update_message (update_prompt turns))))) no_meta in
  if bool_decide (normalized = baseline) then default baseline current else normalized.
End Update.
End Turns.
