(* ===== verification/TurnsNormal.v ===== *)
(** * Normalized turns

    Normalization brings every report into one form and leaves turns of that
    form alone. *)

From S2P Require Export Turns.

(** ** Strings *)

Definition nonblank (s : jsstring) : Prop := truthy (trim s) = true.

(** A field that is shown is not blank. *)
Definition clean (o : option jsstring) : Prop := otruthy o = true -> nonblank (default [] o).

Lemma truthy_ne s : truthy s = true <-> s <> [].
Proof. by destruct s. Qed.

Lemma nonblank_compact s max : nonblank s <-> truthy (compact s max) = true.
Proof. unfold nonblank. rewrite !truthy_ne. by rewrite compact_blank, trim_blank. Qed.

Lemma compact_nonblank s max : nonblank s -> nonblank (compact s max).
Proof.
  intros H. unfold nonblank. rewrite trimmed_trim by apply compact_trimmed. by apply nonblank_compact.
Qed.

Lemma trim_nonblank s : nonblank s -> nonblank (trim s).
Proof. unfold nonblank. by rewrite trim_idemp. Qed.

Lemma nonblank_truthy s : nonblank s -> truthy s = true.
Proof. unfold nonblank. by destruct s. Qed.

Lemma when_truthy_clean f o :
  (forall s, nonblank s -> nonblank (f s)) -> clean o -> clean (when_truthy f o).
Proof. intros Hf Ho. unfold when_truthy, clean in *. destruct (otruthy o) eqn:Ht; [|done]. destruct o as [s|]; [|done]. simpl in *. auto. Qed.

Lemma when_truthy_idemp f o :
  (forall s, nonblank s -> nonblank (f s)) -> (forall s, f (f s) = f s) -> clean o -> when_truthy f (when_truthy f o) = when_truthy f o.
Proof.
  intros Hf Hi Ho. unfold clean, when_truthy in *. destruct (otruthy o) eqn:Ht; [|done]. destruct o as [s|]; [|done]. simpl in *.
  rewrite (nonblank_truthy (f s)) by auto. simpl. by rewrite Hi.
Qed.

Lemma when_truthy_otruthy f o :
  (forall s, nonblank s -> nonblank (f s)) -> clean o -> otruthy (when_truthy f o) = otruthy o.
Proof.
  intros Hf Ho. unfold clean, when_truthy in *. destruct (otruthy o) eqn:Ht; [|done]. destruct o as [s|]; [|done]. simpl in *. by apply nonblank_truthy, Hf, Ho.
Qed.

Lemma clean_over (a b : option jsstring) : clean a -> clean b -> clean (over a b).
Proof. by destruct a. Qed.
Lemma clean_oor (a b : option jsstring) : clean a -> clean b -> clean (oor a b).
Proof. unfold oor. by destruct (otruthy a). Qed.

(** ** Slices and folds *)

Lemma last_n_length {A} n (l : list A) : length (last_n n l) = length l `min` n.
Proof. unfold last_n. rewrite length_drop. lia. Qed.
Lemma last_n_id {A} n (l : list A) : length l <= n -> last_n n l = l.
Proof. intros H. unfold last_n. by replace (length l - n) with 0 by lia. Qed.
Lemma last_n_sublist {A} n (l : list A) : last_n n l `sublist_of` l.
Proof. apply sublist_drop. Qed.
Lemma Forall_last_n {A} (P : A -> Prop) n l : Forall P l -> Forall P (last_n n l).
Proof. apply Forall_drop. Qed.
Lemma last_n_suffix {A} n (l : list A) : exists k, l = k ++ last_n n l.
Proof. exists (take (length l - n) l). unfold last_n. by rewrite take_drop. Qed.

Lemma NoDup_last_n {A} n (l : list A) : NoDup l -> NoDup (last_n n l).
Proof. intros H. destruct (last_n_suffix n l) as [k E]. rewrite E in H. by apply NoDup_app in H as (_ & _ & ?). Qed.

(** Adding records under fresh keys that keeps them as they are. *)
Lemma fold_fresh {A} (key : A -> jsstring) (step : jsmap jsstring A -> A -> jsmap jsstring A) l m :
  Forall (fun r => forall m, mget (key r) m = None -> step m r = mset (key r) r m) l ->
  NoDup (mkeys m ++ (key <$> l)) -> foldl step m l = m ++ ((fun r => (key r, r)) <$> l).
Proof.
  revert m. induction l as [|r l IH]; intros m Hs Hn; csimpl; [by rewrite app_nil_r|]. apply Forall_cons in Hs as [Hr Hs].
  assert (Hf : mget (key r) m = None).
  { apply mget_None. intros Hin. apply NoDup_app in Hn as (_ & Hn & _). apply (Hn _ Hin). csimpl. apply elem_of_cons. by left. }
  rewrite (Hr m Hf), mset_fresh by done. rewrite IH; [by rewrite <- app_assoc|done|].
  unfold mkeys. rewrite fmap_app. csimpl. by rewrite <- app_assoc.
Qed.

Lemma fold_fresh_values {A} (key : A -> jsstring) (step : jsmap jsstring A -> A -> jsmap jsstring A) l :
  Forall (fun r => forall m, mget (key r) m = None -> step m r = mset (key r) r m) l ->
  NoDup (key <$> l) -> mvalues (foldl step [] l) = l.
Proof.
  intros Hs Hn. rewrite (fold_fresh key) by done. unfold mvalues. rewrite app_nil_l, <- list_fmap_compose. clear. induction l as [|r l IH]; csimpl; [done|by rewrite IH].
Qed.

(** What a fold of insertions keeps of its entries. *)
Lemma fold_entries {A B} (P : jsstring -> B -> Prop) (step : jsmap jsstring B -> A -> jsmap jsstring B) l m :
  (forall m r, r ∈ l -> map_wf m -> (forall k v, mget k m = Some v -> P k v) ->
     step m r = m \/ exists k v, step m r = mset k v m /\ P k v) ->
  map_wf m -> (forall k v, mget k m = Some v -> P k v) ->
  map_wf (foldl step m l) /\ (forall k v, mget k (foldl step m l) = Some v -> P k v).
Proof.
  revert m. induction l as [|r l IH]; intros m Hs Hm Hp; simpl; [done|].
  apply IH; [intros m' r' Hr'; apply Hs; apply elem_of_cons; by right| |].
  - destruct (Hs m r ltac:(apply elem_of_cons; by left) Hm Hp) as [->|(k & v & -> & Hkv)]; [done|by apply map_wf_mset].
  - destruct (Hs m r ltac:(apply elem_of_cons; by left) Hm Hp) as [->|(k & v & -> & Hkv)]; [done|].
    intros k' v'. rewrite mget_mset. case_decide; [subst; by intros [= <-]|apply Hp].
Qed.

(** The values of such a fold, under the key each carries. *)
Lemma values_keys {B} (key : B -> jsstring) (m : jsmap jsstring B) :
  (forall k v, mget k m = Some v -> key v = k) -> map_wf m -> key <$> mvalues m = mkeys m.
Proof.
  intros Hk Hm. unfold mvalues, mkeys. rewrite <- list_fmap_compose. apply list_fmap_ext. intros i [k v] Hi. simpl. apply Hk.
  apply elem_mget; [done|]. by apply list_elem_of_lookup_2 in Hi.
Qed.

Lemma Forall_values {B} (P : B -> Prop) (m : jsmap jsstring B) :
  (forall k v, mget k m = Some v -> P v) -> map_wf m -> Forall P (mvalues m).
Proof.
  intros Hk Hm. apply Forall_forall. intros v ([k v'] & -> & Hi)%list_elem_of_fmap. simpl. eapply Hk. by apply elem_mget.
Qed.

(** ** Attachments and messages *)

Lemma nonEmptyTrimmedText_fix max s t : nonEmptyTrimmedText max s = Some t -> nonEmptyTrimmedText max t = Some t.
Proof.
  unfold nonEmptyTrimmedText. destruct (_ && _) eqn:H; [|done]. intros [= <-]. by rewrite trim_idemp, H.
Qed.

Lemma parse_fix a b : parseConversationAttachment a = Some b -> parseConversationAttachment b = Some b.
Proof.
  unfold parseConversationAttachment. intros (id & Hid & H)%bind_Some. apply bind_Some in H as (name & Hname & H). apply bind_Some in H as (mime & Hmime & H).
  destruct (bool_decide _) eqn:Hs; [|done]. injection H as <-. simpl.
  rewrite (nonEmptyTrimmedText_fix _ _ _ Hid), (nonEmptyTrimmedText_fix _ _ _ Hname), (nonEmptyTrimmedText_fix _ _ _ Hmime). simpl. by rewrite Hs.
Qed.

Lemma omap_cons_Some {A B} (f : A -> option B) a b (l : list A) : f a = Some b -> omap f (a :: l) = b :: omap f l.
Proof. intros H. rewrite list_omap_cons_eq, H. done. Qed.

Lemma omap_parse_fix (l : list AiSessionConversationAttachment) : omap parseConversationAttachment (omap parseConversationAttachment l) = omap parseConversationAttachment l.
Proof.
  induction l as [|a l IH]; [done|]. destruct (parseConversationAttachment a) as [b|] eqn:Ha.
  - rewrite (omap_cons_Some _ _ _ _ Ha), (omap_cons_Some _ _ _ _ (parse_fix _ _ Ha)). by rewrite IH.
  - rewrite list_omap_cons_eq, Ha. done.
Qed.

Lemma omap_take_fix {A} (f : A -> option A) n (l : list A) : omap f l = l -> omap f (take n l) = take n l.
Proof.
  revert n. induction l as [|a l IH]; intros n; [by destruct n|]. destruct (f a) as [b|] eqn:Ha.
  - rewrite (omap_cons_Some _ _ _ _ Ha). intros [= -> H]. destruct n; [done|]. cbn [take]. rewrite (omap_cons_Some _ _ _ _ Ha). by rewrite IH.
  - rewrite list_omap_cons_eq, Ha. intros H. apply (f_equal length) in H. pose proof (length_omap_le f l). simpl in *. lia.
Qed.

Record normal_message (m : AiSessionUserMessageDetail) : Prop := NormalMessage {
  nm_id : compact (um_id m) 240 = um_id m;
  nm_nonblank : nonblank (um_id m);
  nm_text : messageText (um_text m) = um_text m;
  nm_attachments : omap parseConversationAttachment (um_attachments m) = um_attachments m;
  nm_few : length (um_attachments m) <= 6
}.

Definition clean_message (m : AiSessionUserMessageDetail) : Prop := nonblank (um_id m).
Definition clean_messages (o : option (list AiSessionUserMessageDetail)) : Prop := Forall clean_message (default [] o).

Definition normal_messages (l : list AiSessionUserMessageDetail) : Prop := Forall normal_message l /\ NoDup (um_id <$> l) /\ length l <= 100.

Lemma add_user_message_ok l m :
  Forall clean_message l -> map_wf m -> (forall k v, mget k m = Some v -> normal_message v /\ um_id v = k) ->
  map_wf (foldl add_user_message m l) /\ (forall k v, mget k (foldl add_user_message m l) = Some v -> normal_message v /\ um_id v = k).
Proof.
  intros Hl. apply fold_entries. intros m' r Hr _ Hp. unfold add_user_message. rewrite Forall_forall in Hl. specialize (Hl _ Hr). unfold clean_message in Hl.
  rewrite (nonblank_truthy _ Hl). simpl. right. set (id := compact (um_id r) 240).
  set (message := UserMessage id (messageText (um_text r)) (take 6 (omap parseConversationAttachment (um_attachments r)))).
  assert (Hm : normal_message message /\ um_id message = id).
  { split; [|done]. constructor; simpl.
    - by apply compact_idemp.
    - by apply compact_nonblank.
    - apply messageText_idemp.
    - apply omap_take_fix, omap_parse_fix.
    - rewrite length_take. lia. }
  eexists id, _. split; [reflexivity|]. destruct (mget id m') as [e|] eqn:He; [|done]. case_bool_decide; [by apply Hp|done].
Qed.

Lemma mvalues_fold_messages l :
  Forall clean_message l -> Forall normal_message (mvalues (foldl add_user_message [] l)) /\ NoDup (um_id <$> mvalues (foldl add_user_message [] l)).
Proof.
  intros Hl. destruct (add_user_message_ok l [] Hl) as [Hwf Hp]; [apply NoDup_nil_2|done|]. split.
  - apply Forall_values; [|done]. intros k v Hk. by apply (Hp k).
  - rewrite values_keys; [done| |done]. intros k v Hk. by apply (Hp k).
Qed.

Lemma last_n_fmap {A B} (f : A -> B) n (l : list A) : f <$> last_n n l = last_n n (f <$> l).
Proof. unfold last_n. by rewrite fmap_drop, length_fmap. Qed.

Lemma normalizeUserMessages_normal o l : clean_messages o -> normalizeUserMessages o = Some l -> l <> [] /\ normal_messages l.
Proof.
  unfold clean_messages, normalizeUserMessages. destruct o as [rs|]; [|done]. simpl. intros Hc. destruct (mvalues_fold_messages rs Hc) as [Hn Hd].
  destruct (last_n 100 _) as [|x xs] eqn:Hl; [done|]. intros [= <-]. split; [done|]. rewrite <- Hl. split_and!.
  - by apply Forall_last_n.
  - rewrite last_n_fmap. by apply NoDup_last_n.
  - rewrite last_n_length. lia.
Qed.

Lemma add_user_message_fresh r m : normal_message r -> mget (um_id r) m = None -> add_user_message m r = mset (um_id r) r m.
Proof.
  intros [H1 H2 H3 H4 H5] Hm. unfold add_user_message. rewrite (nonblank_truthy _ H2). simpl. rewrite H1, H3, H4, Hm, firstn_all2 by done. by destruct r.
Qed.

Lemma normal_messages_id l : l <> [] -> normal_messages l -> normalizeUserMessages (Some l) = Some l.
Proof.
  intros Hl (Hn & Hd & Hlen). unfold normalizeUserMessages. simpl. rewrite (fold_fresh_values um_id); [|eapply Forall_impl; [exact Hn|]|done].
  - rewrite last_n_id by done. by destruct l.
  - intros r Hr m Hm. by apply add_user_message_fresh.
Qed.

Lemma normalizeUserMessages_idemp o : clean_messages o -> normalizeUserMessages (normalizeUserMessages o) = normalizeUserMessages o.
Proof.
  intros Hc. destruct (normalizeUserMessages o) as [l|] eqn:Hl; [|done]. destruct (normalizeUserMessages_normal _ _ Hc Hl). by apply normal_messages_id.
Qed.

Lemma normal_messages_clean l : normal_messages l -> Forall clean_message l.
Proof. intros (H & _). eapply Forall_impl; [exact H|]. by intros m []. Qed.

Lemma normalizeUserMessages_clean o : clean_messages o -> clean_messages (normalizeUserMessages o).
Proof.
  intros Hc. destruct (normalizeUserMessages o) as [l|] eqn:Hl; [|by constructor]. destruct (normalizeUserMessages_normal _ _ Hc Hl) as [_ H]. by apply normal_messages_clean.
Qed.

Section Turns.
Context (Date_parse : jsstring -> option Z) (toISOString : Z -> jsstring) (sha1 : jsstring -> jsstring).
Context (Hiso : forall s z, Date_parse s = Some z -> nonblank (toISOString z) /\ Date_parse (toISOString z) = Some z).
Abbreviation normalizeIso := (normalizeIsoTimestamp Date_parse toISOString).
Abbreviation normalizeCompactions := (normalizeContextCompactions Date_parse toISOString).
Abbreviation add := (add_compaction Date_parse toISOString).

(** ** Compactions *)

Definition iso_form (o : option jsstring) : Prop := normalizeIso o = o.

Lemma normalizeIso_form o : iso_form (normalizeIso o).
Proof.
  unfold iso_form, normalizeIsoTimestamp. destruct o as [s|]; [|done]. simpl. destruct (truthy (trim s)); [|done].
  destruct (Date_parse s) as [z|] eqn:Hs; [|done]. simpl. destruct (Hiso _ _ Hs) as [Hn Hz]. unfold nonblank in Hn. by rewrite Hn, Hz.
Qed.

Lemma iso_truthy o : iso_form o -> (if otruthy o then o else None) = o.
Proof.
  unfold iso_form, normalizeIsoTimestamp. destruct o as [s|]; [|done]. simpl. destruct (truthy (trim s)) eqn:Ht; [|done]. intros _.
  by rewrite (nonblank_truthy _ Ht).
Qed.

Lemma iso_oor a b : iso_form a -> iso_form b -> iso_form (oor a b).
Proof. unfold oor. by destruct (otruthy a). Qed.

Lemma oor_iso a : iso_form a -> oor a None = a.
Proof. apply iso_truthy. Qed.

Record normal_compaction (c : AiSessionContextCompaction) : Prop := NormalCompaction {
  nc_id : compact (c_id c) 240 = c_id c;
  nc_nonblank : nonblank (c_id c);
  nc_startedAt : iso_form (c_startedAt c);
  nc_completedAt : iso_form (c_completedAt c)
}.

Definition normal_compactions (l : list AiSessionContextCompaction) : Prop := Forall normal_compaction l /\ NoDup (c_id <$> l) /\ length l <= 20.

Lemma add_compaction_ok l m :
  map_wf m -> (forall k v, mget k m = Some v -> normal_compaction v /\ c_id v = k) ->
  map_wf (foldl add m l) /\ (forall k v, mget k (foldl add m l) = Some v -> normal_compaction v /\ c_id v = k).
Proof.
  apply fold_entries. intros m' r _ _ Hp. unfold add_compaction. destruct (truthy (trim (c_id r))) eqn:Ht; [|by left]. simpl. right.
  eexists _, _. split; [reflexivity|]. split; [|done].
  assert (Hprev : iso_form (mget (compact (c_id r) 240) m' ≫= c_startedAt) /\ iso_form (mget (compact (c_id r) 240) m' ≫= c_completedAt)).
  { destruct (mget _ m') as [v|] eqn:Hv; [|done]. simpl. destruct (Hp _ _ Hv) as [[] _]. done. }
  destruct Hprev as [H1 H2]. constructor; simpl.
  - by apply compact_idemp.
  - by apply compact_nonblank.
  - rewrite iso_truthy; (apply iso_oor; [apply normalizeIso_form|done]).
  - rewrite iso_truthy; (apply iso_oor; [apply normalizeIso_form|done]).
Qed.

Lemma normalizeCompactions_normal o l : normalizeCompactions o = Some l -> l <> [] /\ normal_compactions l.
Proof.
  unfold normalizeContextCompactions. destruct o as [rs|]; [|done]. simpl. destruct (add_compaction_ok rs []) as [Hwf Hp]; [apply NoDup_nil_2|done|].
  destruct (last_n 20 _) as [|x xs] eqn:Hl; [done|]. intros [= <-]. split; [done|]. rewrite <- Hl. split_and!.
  - apply Forall_last_n, Forall_values; [|done]. intros k v Hk. by apply (Hp k).
  - rewrite last_n_fmap. apply NoDup_last_n. rewrite values_keys; [done| |done]. intros k v Hk. by apply (Hp k).
  - rewrite last_n_length. lia.
Qed.

Lemma add_compaction_fresh r m : normal_compaction r -> mget (c_id r) m = None -> add m r = mset (c_id r) r m.
Proof.
  intros [H1 H2 H3 H4] Hm. unfold add_compaction. unfold nonblank in H2. rewrite H2. simpl. rewrite H1, Hm. simpl. rewrite H3, H4, !oor_iso by done.
  rewrite !iso_truthy by done. destruct r as [id [] s c]; done.
Qed.

Lemma normal_compactions_id l : l <> [] -> normal_compactions l -> normalizeCompactions (Some l) = Some l.
Proof.
  intros Hl (Hn & Hd & Hlen). unfold normalizeContextCompactions. simpl. rewrite (fold_fresh_values c_id); [|eapply Forall_impl; [exact Hn|]|done].
  - rewrite last_n_id by done. by destruct l.
  - intros r Hr m Hm. by apply add_compaction_fresh.
Qed.

Lemma normalizeCompactions_idemp o : normalizeCompactions (normalizeCompactions o) = normalizeCompactions o.
Proof.
  destruct (normalizeCompactions o) as [l|] eqn:Hl; [|done]. destruct (normalizeCompactions_normal _ _ Hl). by apply normal_compactions_id.
Qed.

(** ** Turns *)

Definition clean_compactions (o : option (list AiSessionContextCompaction)) : Prop := Forall (fun c => nonblank (c_id c)) (default [] o).

Record clean_turn (t : AiSessionTurn) : Prop := CleanTurn {
  ct_id : nonblank (t_id t);
  ct_providerTurnId : clean (t_providerTurnId t);
  ct_userPrompt : clean (t_userPrompt t);
  ct_userMessages : clean_messages (t_userMessages t);
  ct_summary : clean (t_summary t);
  ct_lastMessage : clean (t_lastMessage t);
  ct_lastMessageItemId : clean (t_lastMessageItemId t);
  ct_contextCompactions : clean_compactions (t_contextCompactions t)
}.

Record clean_meta (meta : TurnMeta) : Prop := CleanMeta {
  cm_clean : clean (m_providerTurnId meta);
  cm_providerTurnId : when_truthy (fun id => compact id 240) (m_providerTurnId meta) = m_providerTurnId meta;
  cm_observedAt : oor (m_observedAt meta) None = m_observedAt meta
}.

Lemma no_meta_clean : clean_meta no_meta.
Proof. by constructor. Qed.

Abbreviation normalize := (normalize_turn Date_parse toISOString sha1).

Record normal_turn (t : AiSessionTurn) : Prop := NormalTurn {
  nt_clean : clean_turn t;
  nt_content : has_content t = true;
  nt_normal i : normalize no_meta i t = t
}.

Lemma normal_compactions_clean l : normal_compactions l -> Forall (fun c => nonblank (c_id c)) l.
Proof. intros (H & _). eapply Forall_impl; [exact H|]. by intros c []. Qed.

Lemma normalizeCompactions_clean o : clean_compactions (normalizeCompactions o).
Proof.
  destruct (normalizeCompactions o) as [l|] eqn:Hl; [|by constructor]. apply normalizeCompactions_normal in Hl as [_ H]. by apply normal_compactions_clean.
Qed.

Lemma normalize_clean meta i t : clean_meta meta -> clean_turn t -> clean_turn (normalize meta i t).
Proof.
  intros [M1 _ _] [C1 C2 C3 C4 C5 C6 C7 C8]. unfold normalize_turn. constructor; simpl.
  - rewrite nonblank_truthy by done. by apply compact_nonblank.
  - apply clean_over; [|done]. apply when_truthy_clean; [|done]. intros s. apply compact_nonblank.
  - apply when_truthy_clean; [apply trim_nonblank|done].
  - by apply normalizeUserMessages_clean.
  - apply when_truthy_clean; [|done]. intros s. apply compact_nonblank.
  - apply when_truthy_clean; [apply trim_nonblank|done].
  - apply when_truthy_clean; [|done]. intros s. apply compact_nonblank.
  - apply normalizeCompactions_clean.
Qed.

Lemma over_None {A} (o : option A) : over o None = o.
Proof. by destruct o. Qed.

Lemma oor_None_idemp a b : oor b None = b -> oor (oor a b) None = oor a b.
Proof. unfold oor. destruct (otruthy a) eqn:Ha; [by rewrite Ha|done]. Qed.

Lemma when_over f a b : when_truthy f a = a -> when_truthy f b = b -> when_truthy f (over a b) = over a b.
Proof. by destruct a. Qed.

Lemma normalize_turn_idemp meta i j t : clean_meta meta -> clean_turn t -> normalize no_meta j (normalize meta i t) = normalize meta i t.
Proof.
  intros [M1 M2 M3] [C1 C2 C3 C4 C5 C6 C7 C8]. unfold normalize_turn at 1. cbn [t_id t_providerTurnId t_source t_userPrompt t_userMessages t_status t_phase t_summary
    t_lastMessage t_lastMessageItemId t_contextCompactions t_revision t_sourcePriority t_snapshotVersion t_observedAt t_startedAt t_updatedAt t_completedAt
    m_source m_sourcePriority m_providerTurnId m_snapshotVersion m_observedAt no_meta normalize_turn].
  assert (Hc : forall max s, (3 <= max)%N -> compact (compact s max) max = compact s max) by (intros; by apply compact_idemp).
  rewrite (nonblank_truthy _ C1), (nonblank_truthy _ (compact_nonblank _ 240 C1)).
  rewrite !over_None, Hc, normalizeUserMessages_idemp, normalizeCompactions_idemp, oor_None_idemp by done.
  assert (Hwc : forall max o, (3 <= max)%N -> clean o -> when_truthy (fun s => compact s max) (when_truthy (fun s => compact s max) o) = when_truthy (fun s => compact s max) o).
  { intros max o Hm Ho. apply when_truthy_idemp; [intros; by apply compact_nonblank|intros; by apply Hc|done]. }
  assert (Hwm : forall o, clean o -> when_truthy messageText (when_truthy messageText o) = when_truthy messageText o).
  { intros o Ho. apply when_truthy_idemp; [apply trim_nonblank|apply messageText_idemp|done]. }
  rewrite when_over, !Hwm, !Hwc by (try done; by apply Hwc).
  unfold normalize_turn. rewrite (nonblank_truthy _ C1). f_equal; try apply over_None. lia.
Qed.

Lemma fold_nonempty {A B} (step : jsmap jsstring B -> A -> jsmap jsstring B) l m :
  (forall m r, m <> [] -> step m r <> []) -> m <> [] -> foldl step m l <> [].
Proof. intros Hs. revert m. induction l as [|r l IH]; intros m Hm; simpl; [done|]. by apply IH, Hs. Qed.

Lemma mset_nonempty {B} k (v : B) (m : jsmap jsstring B) : mset k v m <> [].
Proof. destruct m as [|[k' v'] m]; simpl; [done|]. by case_decide. Qed.

Lemma last_n_nonempty {A} n (l : list A) : n <> 0 -> l <> [] -> last_n n l <> [].
Proof. intros Hn Hl H. apply (f_equal length) in H. rewrite last_n_length in H. destruct l; [done|]. cbn [length] in H. lia. Qed.

Lemma messages_kept o : clean_messages o -> match o with Some (_ :: _) => exists m l, normalizeUserMessages o = Some (m :: l) | _ => True end.
Proof.
  unfold clean_messages. destruct o as [[|r l]|]; [done| |done]. simpl. intros [Hr _]%Forall_cons. unfold normalizeUserMessages. simpl.
  assert (Hne : mvalues (foldl add_user_message (add_user_message [] r) l) <> []).
  { unfold mvalues. intros H. apply fmap_nil_inv in H. revert H. apply fold_nonempty.
    - intros m r' Hm. unfold add_user_message. destruct (negb _); [done|]. apply mset_nonempty.
    - unfold add_user_message. rewrite (nonblank_truthy _ Hr). apply mset_nonempty. }
  apply (last_n_nonempty 100) in Hne; [|done]. destruct (last_n 100 _) as [|m ms]; [done|]. by exists m, ms.
Qed.

Lemma compactions_kept o : clean_compactions o -> match o with Some (_ :: _) => exists c l, normalizeCompactions o = Some (c :: l) | _ => True end.
Proof.
  unfold clean_compactions. destruct o as [[|r l]|]; [done| |done]. simpl. intros [Hr _]%Forall_cons. unfold normalizeContextCompactions. simpl.
  assert (Hne : mvalues (foldl add (add [] r) l) <> []).
  { unfold mvalues. intros H. apply fmap_nil_inv in H. revert H. apply fold_nonempty.
    - intros m r' Hm. unfold add_compaction. destruct (negb _); [done|]. apply mset_nonempty.
    - unfold add_compaction. unfold nonblank in Hr. rewrite Hr. apply mset_nonempty. }
  apply (last_n_nonempty 20) in Hne; [|done]. destruct (last_n 20 _) as [|m ms]; [done|]. by exists m, ms.
Qed.

Lemma content_kept meta i t : clean_turn t -> has_content t = true -> has_content (normalize meta i t) = true.
Proof.
  intros [C1 C2 C3 C4 C5 C6 C7 C8]. unfold has_content, normalize_turn. cbn [t_userPrompt t_userMessages t_summary t_lastMessage t_contextCompactions].
  rewrite !(when_truthy_otruthy messageText) by (try done; apply trim_nonblank).
  rewrite (when_truthy_otruthy (fun s => compact s 1000)) by (try done; intros; by apply compact_nonblank).
  pose proof (messages_kept _ C4) as Hm. pose proof (compactions_kept _ C8) as Hc. intros Hcontent. repeat setoid_rewrite orb_true_iff.
  repeat (apply orb_true_iff in Hcontent as [Hcontent|Hcontent]); [tauto| |tauto|tauto|].
  - destruct (t_userMessages t) as [[|m ms]|]; [done| |done]. destruct Hm as (x & l & ->). tauto.
  - destruct (t_contextCompactions t) as [[|c cs]|]; [done| |done]. destruct Hc as (x & l & ->). tauto.
Qed.

Lemma imap_Forall {A B} (P : A -> Prop) (Q : B -> Prop) (f : nat -> A -> B) l :
  (forall i x, P x -> Q (f i x)) -> Forall P l -> Forall Q (imap f l).
Proof. intros Hf. revert f Hf. induction l as [|x l IH]; intros f Hf; simpl; [done|]. intros [Hx Hl]%Forall_cons. constructor; [by apply Hf|]. apply IH; [|done]. intros i y. apply Hf. Qed.

Lemma imap_fixed {A} (P : A -> Prop) (f : nat -> A -> A) l : (forall i x, P x -> f i x = x) -> Forall P l -> imap f l = l.
Proof.
  intros Hf. revert f Hf. induction l as [|x l IH]; intros f Hf; simpl; [done|]. intros [Hx Hl]%Forall_cons. rewrite Hf by done. f_equal.
  apply IH; [|done]. intros i y. apply Hf.
Qed.

Lemma normalizeTurns_normal values meta :
  clean_meta meta -> Forall clean_turn (default [] values) ->
  Forall normal_turn (normalizeTurns Date_parse toISOString sha1 values meta) /\ length (normalizeTurns Date_parse toISOString sha1 values meta) <= 50.
Proof.
  intros Hm Hc. unfold normalizeTurns. split; [|rewrite last_n_length; lia]. apply Forall_last_n, Forall_forall.
  intros t [Ht Hin]%list_elem_of_filter.
  assert (Hall : Forall (fun t => clean_turn t /\ forall j, normalize no_meta j t = t) (imap (normalize meta) (default [] values))).
  { eapply imap_Forall; [|exact Hc]. intros i x Hx. split; [by apply normalize_clean|]. intros j. by apply normalize_turn_idemp. }
  rewrite Forall_forall in Hall. destruct (Hall _ Hin). by constructor.
Qed.

(** A list of clean turns with something to show loses only its oldest turns. *)
Lemma normalizeTurns_all l :
  Forall (fun t => clean_turn t /\ has_content t = true) l ->
  normalizeTurns Date_parse toISOString sha1 (Some l) no_meta = last_n 50 (imap (normalize no_meta) l).
Proof.
  intros Hl. unfold normalizeTurns. simpl. rewrite filter_all; [done|]. apply Forall_forall. eapply imap_Forall; [|exact Hl].
  intros i x [Hx Hc]. by apply content_kept.
Qed.

Lemma normalizeTurns_id l : Forall normal_turn l -> length l <= 50 -> normalizeTurns Date_parse toISOString sha1 (Some l) no_meta = l.
Proof.
  intros Hl Hlen. rewrite normalizeTurns_all.
  - rewrite (imap_fixed normal_turn); [by apply last_n_id| |done]. by intros i x [].
  - eapply Forall_impl; [exact Hl|]. by intros x [].
Qed.
End Turns.
