(* ===== verification/TurnsMerge.v ===== *)
(** * Merging reports of turns

    A merge keeps every turn it knows, in order and under its identifier,
    and never takes back what a turn already shows. *)

From S2P Require Export TurnsNormal.

#[global] Arguments normalizeUserMessages : simpl never.
#[global] Arguments normalizeContextCompactions : simpl never.
#[global] Arguments mergeUserMessages : simpl never.
#[global] Arguments mergeContextCompactions : simpl never.
#[global] Arguments truthy : simpl nomatch.

(** ** Growing turns *)

(** [t'] is [t] after later reports; a pending turn may get the identifier of
    the turn a session has as active. *)
Record grows (active : jsstring) (t t' : AiSessionTurn) : Prop := Grows {
  gr_id : t_id t' = t_id t \/ (has_response t = false /\ truthy active = true /\ t_id t' = active);
  gr_revision : (t_revision t <= t_revision t')%Z;
  gr_response : has_response t = true -> has_response t' = true;
  gr_prompt : otruthy (t_userPrompt t) = true -> otruthy (t_userPrompt t') = true
}.

Lemma grows_refl active t : grows active t t.
Proof. constructor; auto. lia. Qed.

Lemma grows_trans active t1 t2 t3 : grows active t1 t2 -> grows active t2 t3 -> grows active t1 t3.
Proof.
  intros [I1 R1 S1 P1] [I2 R2 S2 P2]. constructor; [|lia|auto|auto].
  destruct I2 as [->|(Hr & Ha & ->)]; [done|]. right. split_and!; try done. destruct (has_response t1); [|done]. by rewrite S1 in Hr.
Qed.

#[export] Instance grows_preorder active : PreOrder (grows active).
Proof. split; [exact (grows_refl active)|exact (grows_trans active)]. Qed.

(** Every turn of [l] is still there. *)
Definition kept (active : jsstring) (l l' : list AiSessionTurn) : Prop := forall t, t ∈ l -> exists t', t' ∈ l' /\ grows active t t'.

#[export] Instance kept_preorder active : PreOrder (kept active).
Proof.
  split.
  - intros l t Ht. exists t. split; [done|apply grows_refl].
  - intros l1 l2 l3 H12 H23 t Ht. destruct (H12 t Ht) as (t2 & Ht2 & G2). destruct (H23 t2 Ht2) as (t3 & Ht3 & G3). exists t3. split; [done|]. by etrans.
Qed.

Lemma kept_subseteq active l l' : l ⊆ l' -> kept active l l'.
Proof. intros H t Ht. exists t. split; [by apply H|apply grows_refl]. Qed.

Lemma kept_alter active f i l : (forall x, l !! i = Some x -> grows active x (f x)) -> kept active l (alter f i l).
Proof.
  intros Hf t [j Hj]%list_elem_of_lookup. destruct (decide (i = j)) as [<-|Hne].
  - exists (f t). split; [|by apply Hf]. apply list_elem_of_lookup. exists i. by rewrite list_lookup_alter_eq, Hj.
  - exists t. split; [|apply grows_refl]. apply list_elem_of_lookup. exists j. by rewrite list_lookup_alter_ne.
Qed.

Lemma alter_ids f i (l : list AiSessionTurn) : (forall x, l !! i = Some x -> t_id (f x) = t_id x) -> t_id <$> alter f i l = t_id <$> l.
Proof.
  intros Hf. apply list_eq. intros j. rewrite !list_lookup_fmap, list_lookup_alter. case_decide; [|done]. subst j.
  destruct (l !! i) as [x|] eqn:Hx; [|done]. simpl. by rewrite Hf.
Qed.

Lemma insert_alter (i : nat) (y : AiSessionTurn) (l : list AiSessionTurn) : <[i := y]> l = alter (fun _ => y) i l.
Proof. apply list_insert_alter. Qed.

(** ** Searches *)

Lemma find_index_Some {A} (p : A -> bool) (l : list A) i : find_index p l = Some i -> exists x, l !! i = Some x /\ p x = true.
Proof. unfold find_index. destruct (list_find _ l) as [[j x]|] eqn:H; [|done]. intros [= <-]. apply list_find_Some in H as (H1 & H2 & _). by exists x. Qed.

Lemma find_index_None {A} (p : A -> bool) l : find_index p l = None <-> Forall (fun x => p x = false) l.
Proof.
  unfold find_index. rewrite fmap_None, list_find_None. split; intros H; (eapply Forall_impl; [exact H|]); intros x Hx; [by apply not_true_is_false|by rewrite Hx].
Qed.

Lemma find_last_index_Some {A} (p : A -> bool) (l : list A) i : find_last_index p l = Some i -> exists x, l !! i = Some x /\ p x = true.
Proof.
  unfold find_last_index. intros (j & Hj & ->)%fmap_Some. apply find_index_Some in Hj as (x & Hx & Hp). exists x. split; [|done].
  pose proof (lookup_lt_Some _ _ _ Hx) as Hlt. rewrite length_reverse in Hlt. rewrite reverse_lookup in Hx by done. by replace (length l - 1 - j) with (length l - S j) by lia.
Qed.

Lemma last_index_Some {A} (l : list A) i : last_index l = Some i -> exists x, l !! i = Some x.
Proof. destruct l as [|y l]; [done|]. intros [= <-]. apply lookup_lt_is_Some. simpl. lia. Qed.

Lemma find_known_incoming (p : AiSessionTurn -> bool) l x : find p l = Some x -> x ∈ l /\ p x = true.
Proof. intros H. apply find_some in H as [H1 H2]. split; [by apply list_elem_of_In|done]. Qed.

Section Turns.
Context (Date_parse : jsstring -> option Z) (toISOString : Z -> jsstring) (sha1 : jsstring -> jsstring).
Context (Hiso : forall s z, Date_parse s = Some z -> nonblank (toISOString z) /\ Date_parse (toISOString z) = Some z).
Abbreviation normal := (normal_turn Date_parse toISOString sha1).
Abbreviation normalizeCompactions := (normalizeContextCompactions Date_parse toISOString).
Abbreviation merge := (merge_turn Date_parse toISOString).

(** ** Normal turns, field by field *)

Record normal_fields (t : AiSessionTurn) : Prop := NormalFields {
  nf_nonblank : nonblank (t_id t);
  nf_id : compact (t_id t) 240 = t_id t;
  nf_providerTurnId : when_truthy (fun id => compact id 240) (t_providerTurnId t) = t_providerTurnId t;
  nf_userPrompt : when_truthy messageText (t_userPrompt t) = t_userPrompt t;
  nf_userMessages : normalizeUserMessages (t_userMessages t) = t_userMessages t;
  nf_clean_messages : clean_messages (t_userMessages t);
  nf_summary : when_truthy (fun s => compact s 1000) (t_summary t) = t_summary t;
  nf_lastMessage : when_truthy messageText (t_lastMessage t) = t_lastMessage t;
  nf_lastMessageItemId : when_truthy (fun id => compact id 240) (t_lastMessageItemId t) = t_lastMessageItemId t;
  nf_contextCompactions : normalizeCompactions (t_contextCompactions t) = t_contextCompactions t;
  nf_revision : (0 <= t_revision t)%Z;
  nf_observedAt : oor (t_observedAt t) None = t_observedAt t
}.

Lemma when_clean f o : (forall s, truthy s = true -> f s = s -> nonblank s) -> when_truthy f o = o -> clean o.
Proof. intros Hf. unfold when_truthy, clean. destruct o as [s|]; simpl; [|done]. destruct (truthy s) eqn:Hs; [|done]. intros [= H] _. by apply Hf. Qed.

Lemma compact_clean max o : when_truthy (fun s => compact s max) o = o -> clean o.
Proof. apply when_clean. intros s Hs H. apply (nonblank_compact _ max). by rewrite H. Qed.

Lemma message_clean o : when_truthy messageText o = o -> clean o.
Proof. apply when_clean. unfold messageText, nonblank. intros s Hs H. by rewrite H. Qed.

Lemma normal_fields_turn t : normal_fields t -> has_content t = true -> normal t.
Proof.
  intros [F1 F2 F3 F4 F5 F6 F7 F8 F9 F10 F11 F12] Hc. constructor; [|done|].
  - constructor; try done; [by eapply compact_clean|by apply message_clean|by eapply compact_clean|by apply message_clean|by eapply compact_clean|].
    rewrite <- F10. by apply normalizeCompactions_clean.
  - intros i. unfold normalize_turn. rewrite (nonblank_truthy _ F1), F2, F3, F4, F5, F7, F8, F9, F10. simpl. rewrite F12, Z.max_r by done.
    destruct t. simpl. f_equal; apply over_None.
Qed.

Lemma normal_turn_fields t : normal t -> normal_fields t.
Proof.
  intros [[C1 C2 C3 C4 C5 C6 C7 C8] Hc Hn]. specialize (Hn 0). unfold normalize_turn in Hn. rewrite (nonblank_truthy _ C1) in Hn. simpl in Hn.
  rewrite (over_None (when_truthy _ _)) in Hn. destruct t. simpl in *. injection Hn as H1 H2 H3 H4 H5 H6 H7 H8 H9 H10 H11 H12 H13.
  constructor; simpl; try done. lia.
Qed.

(** ** Merging one report into one turn *)

Lemma over_otruthy f a b : when_truthy f a = a -> otruthy b = true -> otruthy (over a b) = true.
Proof. unfold when_truthy. destruct a as [[|c s]|]; simpl; done. Qed.

Lemma when_truthy_otruthy_fix f a s : when_truthy f a = a -> a = Some s -> truthy s = true.
Proof. unfold when_truthy. intros H ->. simpl in H. by destruct (truthy s). Qed.

Lemma merge_messages_clean a b : clean_messages a -> clean_messages b -> clean_messages (Some (default [] a ++ default [] b)).
Proof. intros Ha Hb. unfold clean_messages in *. simpl. by apply Forall_app. Qed.

Lemma merge_messages_normal a b :
  clean_messages a -> clean_messages b ->
  normalizeUserMessages (mergeUserMessages a b) = mergeUserMessages a b /\ clean_messages (mergeUserMessages a b).
Proof.
  intros Ha Hb. pose proof (merge_messages_clean _ _ Ha Hb) as Hc. split; [by apply normalizeUserMessages_idemp|by apply normalizeUserMessages_clean].
Qed.

Lemma oor_over_None a b : oor a None = a -> oor b None = b -> oor (over a b) None = over a b.
Proof. by destruct a. Qed.

Lemma merge_fields e t : normal e -> normal t -> normal_fields (merge (Some e) t).
Proof.
  intros [E1 E2 E3 E4 E5 E6 E7 E8 E9 E10 E11 E12]%normal_turn_fields [F1 F2 F3 F4 F5 F6 F7 F8 F9 F10 F11 F12]%normal_turn_fields.
  destruct (merge_messages_normal _ _ E6 F6) as [M1 M2].
  constructor; unfold merge_turn; simpl; try done; try by apply when_over.
  - by apply normalizeCompactions_idemp.
  - case_match; [done|by apply oor_over_None].
Qed.

Lemma merge_new_fields t : normal t -> normal_fields (merge None t).
Proof.
  intros [F1 F2 F3 F4 F5 F6 F7 F8 F9 F10 F11 F12]%normal_turn_fields. destruct (merge_messages_normal None _ ltac:(by constructor) F6) as [M1 M2].
  constructor; unfold merge_turn; simpl; try done. by apply normalizeCompactions_idemp.
Qed.

(** What a turn shows, a merged turn shows. *)
Lemma merge_shows e t :
  normal e -> normal t ->
  (otruthy (t_userPrompt e) = true -> otruthy (t_userPrompt (merge (Some e) t)) = true)
  /\ (has_response e = true -> has_response (merge (Some e) t) = true)
  /\ has_content (merge (Some e) t) = true.
Proof.
  intros He Ht. pose proof (normal_turn_fields _ He) as [E1 E2 E3 E4 E5 E6 E7 E8 E9 E10 E11 E12].
  pose proof (normal_turn_fields _ Ht) as [F1 F2 F3 F4 F5 F6 F7 F8 F9 F10 F11 F12].
  assert (Hp : otruthy (t_userPrompt e) = true -> otruthy (t_userPrompt (merge (Some e) t)) = true) by by apply (over_otruthy messageText).
  assert (Hl : otruthy (t_lastMessage e) = true -> otruthy (t_lastMessage (merge (Some e) t)) = true) by by apply (over_otruthy messageText).
  assert (Hs : otruthy (t_summary e) = true -> otruthy (t_summary (merge (Some e) t)) = true) by by apply (over_otruthy (fun s => compact s 1000)).
  split_and!; [done| |].
  - unfold has_response. rewrite !orb_true_iff. tauto.
  - pose proof (nt_content _ _ _ _ He) as Hc. unfold has_content in *. repeat setoid_rewrite orb_true_iff.
    repeat (apply orb_true_iff in Hc as [Hc|Hc]); [tauto| |tauto|tauto|].
    + assert (Hm : match t_userMessages (merge (Some e) t) with Some (_ :: _) => true | _ => false end = true); [|tauto].
      unfold merge_turn. cbn [t_userMessages]. unfold mergeUserMessages. simpl. pose proof (messages_kept _ (merge_messages_clean _ _ E6 F6)) as Hk.
      destruct (t_userMessages e) as [[|m ms]|]; try done. simpl in Hk |- *. by destruct Hk as (? & ? & ->).
    + assert (Hm : match t_contextCompactions (merge (Some e) t) with Some (_ :: _) => true | _ => false end = true); [|tauto].
      unfold merge_turn. cbn [t_contextCompactions]. unfold mergeContextCompactions. simpl.
      pose proof (compactions_kept Date_parse toISOString (Some (default [] (t_contextCompactions e) ++ default [] (t_contextCompactions t)))) as Hk.
      destruct (t_contextCompactions e) as [[|c cs]|] eqn:Hce; try done. simpl in Hk |- *. destruct Hk as (? & ? & ->); [|done].
      unfold clean_compactions. simpl. apply (Forall_app _ (c :: cs)). split.
      * pose proof (normalizeCompactions_clean Date_parse toISOString Hiso (Some (c :: cs))) as H. by rewrite E10 in H.
      * pose proof (normalizeCompactions_clean Date_parse toISOString Hiso (t_contextCompactions t)) as H. by rewrite F10 in H.
Qed.

Lemma with_identity_normal id p r t :
  normal_fields t -> has_content t = true -> nonblank id -> compact id 240 = id -> when_truthy (fun i => compact i 240) p = p -> (0 <= r)%Z ->
  normal (with_identity id p r t).
Proof. intros [F1 F2 F3 F4 F5 F6 F7 F8 F9 F10 F11 F12] Hc H1 H2 H3 H4. apply normal_fields_turn; [|exact Hc]. by constructor. Qed.

Lemma has_content_new t : normal t -> has_content (merge None t) = true.
Proof.
  intros Ht. pose proof (nt_content _ _ _ _ Ht) as Hc. apply normal_turn_fields in Ht as [F1 F2 F3 F4 F5 F6 F7 F8 F9 F10 F11 F12].
  unfold has_content, merge_turn, mergeUserMessages, mergeContextCompactions in *. cbn [mbind option_bind default app t_userPrompt t_userMessages t_summary t_lastMessage t_contextCompactions] in *. simpl app.
  destruct (t_userMessages t) as [ms|] eqn:Hm, (t_contextCompactions t) as [cs|] eqn:Hcs; simpl default; rewrite ?F5, ?F10; try done.
Qed.

(** ** Merging one report into the list *)

Definition ids (l : list AiSessionTurn) : list jsstring := t_id <$> l.
Definition turns_ok (l : list AiSessionTurn) : Prop := Forall normal l /\ NoDup (ids l).

Lemma insertTurn_splice inc turn idx merged : exists i, i <= length merged /\ insertTurn inc turn idx merged = splice_in i turn merged.
Proof.
  unfold insertTurn. assert (Hi : forall p, default 0 (find_index p merged) <= length merged /\ (forall x, x ∈ merged -> p x = true -> S (default 0 (find_index p merged)) <= length merged)).
  { intros p. destruct (find_index p merged) as [i|] eqn:Hf; simpl.
    - apply find_index_Some in Hf as (x & Hx & _). apply lookup_lt_Some in Hx. split; [lia|intros; lia].
    - split; [lia|]. intros x Hx Hp. apply find_index_None in Hf. rewrite Forall_forall in Hf. by rewrite Hf in Hp. }
  destruct (find _ (reverse _)) as [k|] eqn:Hk.
  - apply find_known_incoming in Hk as [_ Hk]. apply existsb_exists in Hk as (x & Hx & Hs). eexists. split; [|reflexivity].
    apply (proj2 (Hi (same_id k)) x); [by apply list_elem_of_In|done].
  - destruct (find _ (drop _ _)) as [k'|] eqn:Hk'; [eexists; split; [|reflexivity]; apply Hi|].
    exists (length merged). split; [done|]. unfold splice_in. by rewrite firstn_all, drop_all.
Qed.

Lemma splice_ids i turn l : i <= length l -> ids (splice_in i turn l) = splice_in i (t_id turn) (ids l).
Proof. intros Hi. unfold ids, splice_in. by rewrite fmap_app, fmap_cons, fmap_take, fmap_drop. Qed.

Lemma splice_perm {A} i (x : A) l : splice_in i x l ≡ₚ x :: l.
Proof. unfold splice_in. rewrite <- Permutation_middle. by rewrite take_drop. Qed.

Lemma splice_sublist {A} i (x : A) l : l `sublist_of` splice_in i x l.
Proof. unfold splice_in. rewrite <- (take_drop i l) at 1. apply sublist_app; [done|]. by apply sublist_cons. Qed.

Lemma identity_id t : truthy (t_id t) = true -> t_id t ∈ turnIdentities t.
Proof. intros Ht. unfold turnIdentities. apply list_elem_of_filter. split; [done|]. apply elem_of_cons. by left. Qed.

Lemma shares_same_id a b : truthy (t_id b) = true -> t_id a = t_id b -> sharesTurnIdentity a b = true.
Proof.
  intros Hb Hab. unfold sharesTurnIdentity. apply existsb_exists. exists (t_id b). split; [by apply list_elem_of_In, identity_id|].
  apply bool_decide_eq_true. rewrite <- Hab. apply identity_id. by rewrite Hab.
Qed.

Lemma unknown_id l turn : nonblank (t_id turn) -> Forall (fun e => sharesTurnIdentity e turn = false) l -> t_id turn ∉ ids l.
Proof.
  intros Hn Hl (e & He & Hin)%list_elem_of_fmap. rewrite Forall_forall in Hl. specialize (Hl e Hin). rewrite shares_same_id in Hl; [done|by apply nonblank_truthy|done].
Qed.

Record merged_into (active : jsstring) (l : list AiSessionTurn) (new : jsstring) (l' : list AiSessionTurn) : Prop := MergedInto {
  mi_ok : turns_ok l';
  mi_kept : kept active l l';
  mi_order : ids l `sublist_of` ids l';
  mi_new id : id ∈ ids l' -> id ∈ ids l \/ id = new
}.

Lemma merged_same active l new : turns_ok l -> merged_into active l new l.
Proof. intros Hl. split; [done|reflexivity|done|by left]. Qed.

Lemma replaced_ok active l i e t' new :
  turns_ok l -> l !! i = Some e -> normal t' -> t_id t' = t_id e -> grows active e t' -> merged_into active l new (<[i := t']> l).
Proof.
  intros [Hn Hd] Hi Ht Hid Hg. assert (Hids : ids (<[i := t']> l) = ids l).
  { rewrite insert_alter. apply alter_ids. intros x Hx. by replace x with e by congruence. }
  split.
  - split; [by apply Forall_insert|by rewrite Hids].
  - rewrite insert_alter. apply kept_alter. intros x Hx. by replace x with e by congruence.
  - by rewrite Hids.
  - intros id. rewrite Hids. by left.
Qed.

Lemma merged_turn_ok active e t p r :
  normal e -> normal t -> when_truthy (fun i => compact i 240) p = p -> (t_revision e <= r)%Z ->
  normal (with_identity (t_id e) p r (merge (Some e) t)) /\ grows active e (with_identity (t_id e) p r (merge (Some e) t)).
Proof.
  intros He Ht Hp Hr. destruct (merge_shows _ _ He Ht) as (S1 & S2 & S3). pose proof (normal_turn_fields _ He) as [E1 E2 _ _ _ _ _ _ _ _ E11 _]. split.
  - apply with_identity_normal; try done; [by apply merge_fields|lia].
  - constructor; simpl; auto.
Qed.

Lemma merge_step_ok active inc merged i turn :
  turns_ok merged -> normal turn -> merged_into active merged (t_id turn) (merge_step Date_parse toISOString inc merged (i, turn)).
Proof.
  intros Hm Ht. pose proof Hm as [Hn Hd]. pose proof (normal_turn_fields _ Ht) as [F1 F2 F3 _ _ _ _ _ _ _ F11 _]. unfold merge_step.
  set (pending := if hasKnownTurnIdentity merged turn then None else find_index (pairs_by_prompt inc turn) merged).
  destruct (pending ≫= _) as [[index e]|] eqn:Hp.
  - apply bind_Some in Hp as (j & _ & Hj). apply fmap_Some in Hj as (x & Hx & [= -> ->]).
    assert (Hex : normal x) by (rewrite Forall_forall in Hn; by eapply Hn, list_elem_of_lookup_2).
    destruct (shouldAcceptIncomingTurn _ _ _); [|by apply merged_same].
    destruct (merged_turn_ok active x turn (oor (t_providerTurnId turn) (Some (t_id turn))) (Z.max (t_revision x) (t_revision turn)) Hex Ht) as [H1 H2]; [|lia|].
    + unfold oor. destruct (otruthy (t_providerTurnId turn)); [done|]. unfold when_truthy. simpl. by rewrite (nonblank_truthy _ F1), F2.
    + by eapply replaced_ok.
  - clear Hp. destruct (findTurnIndex merged turn) as [index|] eqn:Hidx.
    + apply find_index_Some in Hidx as (x & Hx & _). unfold turn_at. simpl. rewrite Hx.
      assert (Hex : normal x) by (rewrite Forall_forall in Hn; by eapply Hn, list_elem_of_lookup_2).
      destruct (shouldAcceptIncomingTurn _ _ _); [|by apply merged_same].
      destruct (merged_turn_ok active x turn (t_providerTurnId (merge (Some x) turn)) (Z.max (t_revision x) (t_revision turn)) Hex Ht) as [H1 H2]; [|lia|].
      * by apply merge_fields.
      * by eapply replaced_ok.
    + simpl. apply find_index_None in Hidx. pose proof (unknown_id _ _ F1 Hidx) as Hnew.
      set (t' := with_identity _ _ _ _). assert (Hid : t_id t' = t_id turn) by done.
      assert (Ht' : normal t').
      { apply with_identity_normal; try done; [by apply merge_new_fields|by apply has_content_new|lia]. }
      destruct (insertTurn_splice inc t' i merged) as (k & Hk & ->). split.
      * split; [|rewrite splice_ids by done; rewrite splice_perm, Hid; by constructor].
        rewrite Forall_forall in Hn. apply Forall_forall. intros x. rewrite splice_perm. intros [->|Hx]%elem_of_cons; [done|by apply Hn].
      * apply kept_subseteq. intros x Hx. rewrite splice_perm. by apply elem_of_cons; right.
      * rewrite splice_ids by done. apply splice_sublist.
      * intros id. rewrite splice_ids by done. rewrite splice_perm, elem_of_cons, Hid. naive_solver.
Qed.

Lemma merge_fold_ok active inc us merged :
  turns_ok merged -> Forall (fun u => normal u.2) us ->
  let merged' := foldl (merge_step Date_parse toISOString inc) merged us in
  turns_ok merged' /\ kept active merged merged' /\ ids merged `sublist_of` ids merged' /\ (forall id, id ∈ ids merged' -> id ∈ ids merged \/ id ∈ ids us.*2).
Proof.
  revert merged. induction us as [|[i u] us IH]; intros merged Hm Hu; simpl; [split_and!; [done|reflexivity|done|by left]|].
  apply Forall_cons in Hu as [Hu Hus]. destruct (merge_step_ok active inc merged i u Hm Hu) as [S1 S2 S3 S4].
  destruct (IH _ S1 Hus) as (R1 & R2 & R3 & R4). split_and!; [done|by etrans|by etrans|].
  intros id Hid. destruct (R4 id Hid) as [H|H]; [|right; by apply elem_of_cons; right]. destruct (S4 id H) as [?| ->]; [by left|]. right. by apply elem_of_cons; left.
Qed.

Lemma imap_pair_snd {A} (f : nat -> nat) (l : list A) : (imap (fun i x => (f i, x)) l).*2 = l.
Proof. revert f. induction l as [|x l IH]; intros f; simpl; [done|]. f_equal. apply (IH (f ∘ S)). Qed.

(** What a merge makes of the turns a session has: [turns] without the limit
    of fifty. *)
Lemma mergeTurns_ok active current next meta :
  Forall normal (default [] current) -> length (default [] current) <= 50 -> NoDup (ids (default [] current)) ->
  clean_meta meta -> Forall clean_turn (default [] next) ->
  exists turns, mergeTurns Date_parse toISOString sha1 current next meta = (last_n 50 turns, default [] current)
    /\ turns_ok turns /\ kept active (default [] current) turns /\ ids (default [] current) `sublist_of` ids turns
    /\ (forall id, id ∈ ids turns -> id ∈ ids (default [] current) \/ id ∈ ids (normalizeTurns Date_parse toISOString sha1 next meta)).
Proof.
  intros Hc Hlen Hd Hm Hn. unfold mergeTurns.
  assert (Hbase : normalizeTurns Date_parse toISOString sha1 current no_meta = default [] current).
  { destruct current as [l|]; [by apply normalizeTurns_id|done]. }
  rewrite Hbase. destruct (normalizeTurns_normal Date_parse toISOString sha1 Hiso next meta Hm Hn) as [Hin _]. set (inc := normalizeTurns _ _ _ next meta) in *.
  destruct (merge_fold_ok active inc (imap pair inc) (default [] current)) as (R1 & R2 & R3 & R4); [by split| |].
  - eapply imap_Forall; [|exact Hin]. by intros i x.
  - eexists. split; [reflexivity|]. split_and!; try done. by rewrite (imap_pair_snd id) in R4.
Qed.
End Turns.
