(* ===== verification/TurnsSpec.v ===== *)
(** * What an update makes of the turns of a session

    The turns stay in normal form under distinct identifiers, and an update
    only adds to what they show. *)

From S2P Require Export TurnsMerge.

Lemma nonblank_cons c s : is_js_space c = false -> nonblank (c :: s).
Proof. intros Hc. unfold nonblank. rewrite truthy_ne, trim_blank. intros [H _]%Forall_cons. congruence. Qed.

Lemma truthy_compact s max : truthy (compact s max) = true -> nonblank (compact s max).
Proof. intros H. apply compact_nonblank. by apply nonblank_compact in H. Qed.

Lemma over_when_otruthy f a b :
  (forall s, nonblank s -> nonblank (f s)) -> clean a -> otruthy a = true \/ otruthy b = true -> otruthy (over (when_truthy f a) b) = true.
Proof.
  intros Hf Ha Hab. pose proof (when_truthy_otruthy f a Hf Ha) as H. unfold when_truthy in *. destruct (otruthy a); [by destruct (f <$> a)|].
  simpl. by destruct Hab.
Qed.

(** ** Between two steps of an update *)

Record fit (t : AiSessionTurn) : Prop := Fit { fit_clean : clean_turn t; fit_content : has_content t = true }.

Definition key (t : AiSessionTurn) : jsstring := compact (t_id t) 240.

Section Steps.
Context (active : jsstring).

Record distinct (l : list AiSessionTurn) : Prop := Distinct {
  di_keys : NoDup (key <$> l);
  di_compact : truthy active = true -> Forall (fun t => key t = t_id t) l
}.

Record advances (l l' : list AiSessionTurn) : Prop := Advances {
  ad_fit : Forall fit l';
  ad_distinct : distinct l';
  ad_kept : kept active l l';
  ad_length : length l <= length l'
}.

Definition steady (l : list AiSessionTurn) : Prop := Forall fit l /\ distinct l.

Lemma advances_refl l : steady l -> advances l l.
Proof. by intros [H1 H2]; split. Qed.

Lemma advances_trans l1 l2 l3 : advances l1 l2 -> (steady l2 -> advances l2 l3) -> advances l1 l3.
Proof. intros [F D K L] H. destruct (H (conj F D)) as [F' D' K' L']. split; [done|done|by etrans|lia]. Qed.

Lemma alter_keys f i (l : list AiSessionTurn) : (forall x, l !! i = Some x -> t_id (f x) = t_id x) -> key <$> alter f i l = key <$> l.
Proof.
  intros Hf. apply (f_equal (fmap (M:=list) (fun id => compact id 240))) in Hf as H || idtac.
  pose proof (alter_ids f i l Hf) as H. apply (f_equal (fmap (fun id => compact id 240))) in H. by rewrite <- !list_fmap_compose in H.
Qed.

Lemma alter_advances f i l :
  steady l -> (forall x, l !! i = Some x -> fit x -> fit (f x) /\ grows active x (f x) /\ t_id (f x) = t_id x) -> advances l (alter f i l).
Proof.
  intros [Hf [D1 D2]] Hs. rewrite Forall_forall in Hf.
  assert (Hx : forall x, l !! i = Some x -> fit (f x) /\ grows active x (f x) /\ t_id (f x) = t_id x).
  { intros x Hx. apply Hs; [done|]. by eapply Hf, list_elem_of_lookup_2. }
  split.
  - apply Forall_alter; [by apply Forall_forall|]. intros x Hx' _. by apply Hx.
  - split.
    + rewrite alter_keys; [done|]. intros x Hx'. by apply Hx.
    + intros Ha. apply Forall_alter; [by apply D2|]. intros x Hx' Hk. unfold key in *. by rewrite (proj2 (proj2 (Hx x Hx'))).
  - apply kept_alter. intros x Hx'. by apply Hx.
  - by rewrite length_alter.
Qed.

Lemma push_advances t l :
  steady l -> fit t -> key t ∉ key <$> l -> (truthy active = true -> key t = t_id t) -> advances l (l ++ [t]).
Proof.
  intros [Hf [D1 D2]] Ht Hk Hc. split.
  - apply Forall_app. split; [done|by constructor].
  - split.
    + rewrite fmap_app. apply NoDup_app. split; [done|]. split; [|apply NoDup_singleton]. intros x Hx Hin. apply list_elem_of_singleton in Hin as ->. done.
    + intros Ha. apply Forall_app. split; [by apply D2|]. constructor; [by apply Hc|done].
  - apply kept_subseteq. intros x Hx. apply elem_of_app. by left.
  - rewrite length_app. lia.
Qed.

(** The turn at [i] takes the active identifier, which no turn has. *)
Lemma adopt_advances f i l :
  steady l -> truthy active = true -> compact active 240 = active -> find_identity l active = None ->
  (forall x, l !! i = Some x -> fit x -> fit (f x) /\ grows active x (f x) /\ t_id (f x) = active) -> advances l (alter f i l).
Proof.
  intros [Hf [D1 D2]] Ha Hac Hnone Hs. specialize (D2 Ha). pose proof Hf as Hf'. rewrite Forall_forall in Hf'.
  assert (Hx : forall x, l !! i = Some x -> fit (f x) /\ grows active x (f x) /\ t_id (f x) = active).
  { intros x Hx. apply Hs; [done|]. by eapply Hf', list_elem_of_lookup_2. }
  assert (Hfree : forall x, x ∈ l -> key x <> active).
  { intros x Hin Hk. apply find_index_None in Hnone. rewrite Forall_forall in Hnone, D2. specialize (Hnone x Hin). rewrite (D2 x Hin) in Hk.
    unfold has_identity in Hnone. rewrite Ha in Hnone. simpl in Hnone. apply bool_decide_eq_false in Hnone. apply Hnone. rewrite <- Hk. apply identity_id. by rewrite Hk. }
  split.
  - apply Forall_alter; [done|]. intros x Hx' _. by apply Hx.
  - split.
    + apply NoDup_alt. intros j1 j2 k. rewrite !list_lookup_fmap, !list_lookup_alter. rewrite NoDup_alt in D1.
      assert (Hi : forall j, key <$> (if decide (i = j) then f <$> l !! i else l !! j) = Some k -> (i = j /\ k = active) \/ (i <> j /\ (key <$> l) !! j = Some k /\ k <> active)).
      { intros j. case_decide as Hj.
        - intros H. left. destruct (l !! i) as [x|] eqn:Hx'; [|done]. injection H as <-. split; [done|]. unfold key. by rewrite (proj2 (proj2 (Hx x eq_refl))).
        - intros H. right. rewrite list_lookup_fmap. split_and!; [done|done|]. apply fmap_Some in H as (y & Hy & ->). by eapply Hfree, list_elem_of_lookup_2. }
      intros H1 H2. destruct (Hi _ H1) as [[<- ->]|(Hn1 & L1 & Hk1)], (Hi _ H2) as [[<- H]|(Hn2 & L2 & Hk2)]; try done. by eapply D1.
    + intros _. apply Forall_alter; [done|]. intros x Hx' _. unfold key. by rewrite (proj2 (proj2 (Hx x Hx'))).
  - apply kept_alter. intros x Hx'. by apply Hx.
  - by rewrite length_alter.
Qed.
End Steps.

(** ** The steps of an update *)

Record patch_ok (patch : TurnUpdatePatch) : Prop := PatchOk {
  po_turns : Forall clean_turn (default [] (p_turns patch));
  po_summary : clean (p_summary patch);
  po_lastMessage : clean (p_lastMessage patch);
  po_lastMessageItemId : clean (p_lastMessageItemId patch);
  po_userMessage m : p_userMessage patch = Some m -> nonblank (um_id m)
}.

Section Update.
Context (Date_parse : jsstring -> option Z) (toISOString : Z -> jsstring) (sha1 : jsstring -> jsstring).
Context (Hiso : forall s z, Date_parse s = Some z -> nonblank (toISOString z) /\ Date_parse (toISOString z) = Some z).
Context (patch : TurnUpdatePatch) (updatedAt newId : jsstring) (meta : TurnMeta).
Context (Hpatch : patch_ok patch) (Hmeta : clean_meta meta) (HnewId : nonblank newId).
Abbreviation active := (patch_activeTurnId patch).

Lemma active_compact : compact active 240 = active.
Proof. unfold patch_activeTurnId. destruct (otruthy _); [by apply compact_idemp|done]. Qed.

Lemma active_nonblank : truthy active = true -> nonblank active.
Proof. unfold patch_activeTurnId. destruct (otruthy _); [apply truthy_compact|done]. Qed.

Lemma generated_nonblank prompt seed : nonblank (stableGeneratedTurnId sha1 prompt seed).
Proof. unfold stableGeneratedTurnId. by apply nonblank_cons. Qed.

(** Changes of a turn that keep its identifier and do not shrink it. *)
Record improves (t t' : AiSessionTurn) : Prop := Improves { im_fit : fit t'; im_grows : grows active t t'; im_id : t_id t' = t_id t }.

Lemma improves_refl t : fit t -> improves t t.
Proof. intros Ht. split; [done|apply grows_refl|done]. Qed.

Lemma assign_meta_clean t : clean_turn t -> clean_turn (assign_meta meta t).
Proof. intros [C1 C2 C3 C4 C5 C6 C7 C8]. constructor; simpl; try done. apply clean_over; [by destruct Hmeta|done]. Qed.

Lemma touch_clean t : clean_turn t -> clean_turn (touch updatedAt t).
Proof. by intros [C1 C2 C3 C4 C5 C6 C7 C8]; constructor. Qed.

Lemma observe_prompt_improves prompt t : nonblank prompt -> fit t -> improves t (observe_prompt patch updatedAt meta prompt t).
Proof.
  intros Hp [Hc Hs]. unfold observe_prompt. set (changed := _ || negb (bool_decide (t_phase t = _))). destruct (changed || _); [|by apply improves_refl].
  set (t1 := assign_meta meta _). assert (H1 : improves t t1).
  { split.
    - split; [apply assign_meta_clean; destruct Hc; constructor; try done; by intros _|]. unfold has_content, t1. simpl. by rewrite (nonblank_truthy _ Hp).
    - constructor; unfold t1; simpl; [by left|lia|done|]. intros _. by apply nonblank_truthy.
    - done. }
  destruct changed; [|done]. destruct H1 as [[F1 F2] G1 I1]. split; [|etrans; [exact G1|]|done].
  - split; [by apply touch_clean|done].
  - constructor; simpl; [by left|lia|done|done].
Qed.


Lemma merged_message_nonempty (current : option (list AiSessionUserMessageDetail)) message :
  nonblank (um_id message) -> clean_messages current -> exists m l, mergeUserMessages current (Some [message]) = Some (m :: l).
Proof.
  intros Hm Hc. unfold mergeUserMessages. simpl.
  assert (Hall : clean_messages (Some (default [] current ++ [message]))) by (unfold clean_messages; simpl; apply Forall_app; split; [done|by constructor]).
  pose proof (messages_kept _ Hall) as H. by destruct (default [] current); simpl in *.
Qed.

Lemma add_message_clean message t : nonblank (um_id message) -> clean_turn t -> fit (add_message updatedAt message t).
Proof.
  intros Hm Hc. pose proof (ct_userMessages _ Hc) as H4. destruct (merged_message_nonempty _ _ Hm H4) as (m & l & Hml).
  unfold add_message. rewrite Hml. case_bool_decide as Heq.
  - split; [done|]. unfold has_content. destruct (t_userMessages t) as [[|x xs]|]; simpl in Heq; try done. by rewrite orb_true_r.
  - split; [|unfold has_content; simpl; by rewrite orb_true_r].
    apply touch_clean. destruct Hc as [C1 C2 C3 C4 C5 C6 C7 C8]. constructor; try done. simpl. rewrite <- Hml. unfold mergeUserMessages. apply normalizeUserMessages_clean.
    unfold clean_messages. simpl. apply Forall_app. split; [done|by constructor].
Qed.

Lemma add_message_improves message t : nonblank (um_id message) -> fit t -> improves t (add_message updatedAt message t).
Proof.
  intros Hm [Hc Hs]. split; [by apply add_message_clean| |].
  - unfold add_message. case_bool_decide; [apply grows_refl|]. constructor; simpl; [by left|lia|done|done].
  - unfold add_message. by case_bool_decide.
Qed.

(** A response is shown once it is given. *)
Lemma respond_shows t :
  otruthy (p_lastMessage patch) = true \/ otruthy (p_summary patch) = true -> has_response (respond patch updatedAt meta t) = true.
Proof.
  destruct Hpatch as [_ P2 P3 _ _]. intros [H|H]; unfold has_response, respond; cbn [t_lastMessage t_summary]; apply orb_true_iff.
  - left. apply over_when_otruthy; [apply trim_nonblank|done|by left].
  - right. apply over_when_otruthy; [intros; by apply compact_nonblank|done|by left].
Qed.

Lemma respond_clean t : clean_turn t -> clean_turn (respond patch updatedAt meta t).
Proof.
  destruct Hpatch as [_ P2 P3 P4 _]. intros [C1 C2 C3 C4 C5 C6 C7 C8]. constructor; unfold respond; simpl; try done.
  - apply clean_over; [by destruct Hmeta|done].
  - apply clean_over; [|done]. apply when_truthy_clean; [|done]. intros s. apply compact_nonblank.
  - apply clean_over; [|done]. apply when_truthy_clean; [apply trim_nonblank|done].
  - apply clean_over; [|done]. apply when_truthy_clean; [|done]. intros s. apply compact_nonblank.
Qed.

Lemma shown_content t : has_response t = true -> has_content t = true.
Proof. unfold has_response, has_content. intros [H|H]%orb_true_iff; rewrite H; by rewrite ?orb_true_r. Qed.

Lemma respond_improves t :
  otruthy (p_lastMessage patch) = true \/ otruthy (p_summary patch) = true -> clean_turn t ->
  fit (respond patch updatedAt meta t) /\ grows active t (respond patch updatedAt meta t).
Proof.
  intros Hr Hc. split; [split; [by apply respond_clean|by apply shown_content, respond_shows]|].
  constructor; [by left| |intros _; by apply respond_shows|done]. unfold respond. simpl. case_match; lia.
Qed.

Lemma settle_improves t : fit t -> improves t (settle patch updatedAt meta t).
Proof.
  intros [Hc Hs]. unfold settle. destruct (_ || _); [|by apply improves_refl]. split.
  - split; [|done]. apply assign_meta_clean, touch_clean. destruct Hc. by constructor.
  - constructor; simpl; [by left|lia|done|done].
  - done.
Qed.

Abbreviation steady := (steady active).
Abbreviation advances := (advances active).

Lemma active_free l : steady l -> truthy active = true -> find_identity l active = None -> active ∉ key <$> l.
Proof.
  intros [_ [_ D2]] Ha Hnone (x & Hk & Hin)%list_elem_of_fmap. specialize (D2 Ha). apply find_index_None in Hnone. rewrite Forall_forall in Hnone, D2.
  specialize (Hnone x Hin). rewrite (D2 x Hin) in Hk. unfold has_identity in Hnone. rewrite Ha in Hnone. simpl in Hnone. apply bool_decide_eq_false in Hnone.
  apply Hnone. rewrite Hk. apply identity_id. by rewrite <- Hk.
Qed.

Lemma alter_improves f i l : steady l -> (forall x, fit x -> improves x (f x)) -> advances l (alter f i l).
Proof. intros Hl Hf. apply alter_advances; [done|]. intros x _ Hx. by destruct (Hf x Hx). Qed.

Lemma set_id_clean id t : nonblank id -> clean_turn t -> clean_turn (set_id id t).
Proof. intros Hid [C1 C2 C3 C4 C5 C6 C7 C8]. by constructor. Qed.

Lemma set_id_fit t : truthy active = true -> fit t -> has_response t = false -> fit (set_id active t) /\ grows active t (set_id active t).
Proof.
  intros Ha [Hc Hs] Hr. split; [split; [|done]; by apply set_id_clean, Hc; apply active_nonblank|]. constructor; simpl; [by right|lia|done|done].
Qed.

Lemma new_turn_clean id prompt status phase : nonblank id -> clean prompt -> clean_turn (new_turn id meta prompt status phase updatedAt).
Proof. intros Hid Hp. constructor; simpl; try done; try by constructor. by destruct Hmeta. Qed.

(** The identifier a turn is made under. *)
Lemma chosen_id (generated : jsstring) l t :
  steady l -> nonblank generated -> find_active patch l = None -> (truthy active = false -> compact generated 240 ∉ key <$> l) ->
  t_id t = (if truthy active then active else generated) -> fit t -> advances l (l ++ [t]).
Proof.
  intros Hl Hg Hnone Hfresh Hid Ht. unfold find_active in Hnone. apply push_advances; [done|done| |]; unfold key at 1; rewrite Hid.
  - destruct (truthy active) eqn:Ha; [|by apply Hfresh]. rewrite active_compact. by apply active_free.
  - intros ->. apply active_compact.
Qed.

Lemma update_prompt_advances l :
  steady l -> (truthy active = false -> truthy (patch_prompt patch) = true -> compact (stableGeneratedTurnId sha1 (patch_prompt patch) updatedAt) 240 ∉ key <$> l) ->
  advances l (update_prompt sha1 patch updatedAt meta l).
Proof.
  intros Hl Hfresh. unfold update_prompt. set (prompt := patch_prompt patch) in *. destruct (truthy prompt) eqn:Hp; [simpl|by apply advances_refl].
  assert (Hnb : nonblank prompt) by (revert Hp; unfold prompt, patch_prompt, messageText, nonblank; by rewrite trim_idemp).
  assert (Hobserve : forall x, fit x -> improves x (observe_prompt patch updatedAt meta prompt x)) by (intros; by apply observe_prompt_improves).
  assert (Hpush : find_active patch l = None -> advances l (l ++ [new_turn (if truthy active then active else stableGeneratedTurnId sha1 prompt updatedAt) meta (Some prompt)
      (turnStatusFromSessionStatus (p_status patch) TurnRunning) (default Thinking (p_phase patch)) updatedAt])).
  { intros Hnone. eapply chosen_id; [done|apply generated_nonblank|done|by intros Ha; apply Hfresh|done|]. split.
    - apply new_turn_clean; [|by intros _]. destruct (truthy active) eqn:Ha; [by apply active_nonblank|apply generated_nonblank].
    - unfold has_content. simpl. by rewrite Hp. }
  destruct (find_active patch l) as [i|] eqn:Hfa.
  - rewrite bool_decide_eq_true_2, andb_false_r by by eexists. simpl. apply alter_improves; done.
  - rewrite bool_decide_eq_false_2 by by apply is_Some_None. simpl negb. rewrite andb_true_r.
    destruct (find_last_index _ l) as [i|] eqn:Hlast.
    + apply find_last_index_Some in Hlast as (x & Hx & Hpend). apply andb_true_iff in Hpend as [_ Hpend]. apply negb_true_iff in Hpend.
      destruct (truthy active) eqn:Ha; simpl; [|apply alter_improves; done].
      unfold find_active in Hfa. rewrite Ha in Hfa. apply adopt_advances; try done; [apply active_compact|].
      intros y Hy Hfy. assert (y = x) as -> by congruence. destruct (set_id_fit x Ha Hfy Hpend) as [F G].
      case_bool_decide as Hid; simpl.
      * destruct (Hobserve x Hfy) as [F1 G1 I1]. by rewrite I1.
      * destruct (Hobserve _ F) as [F1 G1 I1]. split_and!; [done|by etrans|by rewrite I1].
    + destruct (last_index l) as [i|]; [|destruct (existsb _ _); [by apply advances_refl|by apply Hpush]].
      destruct (match l !! i with Some _ => _ | None => _ end); [by apply alter_improves|].
      destruct (existsb _ _); [by apply advances_refl|by apply Hpush].
Qed.

Lemma target_None l : target_turn patch l = None -> find_active patch l = None /\ (truthy active = false -> l = []).
Proof.
  unfold target_turn, find_active. destruct (truthy active); [done|]. intros H. split; [done|]. intros _. by destruct l.
Qed.

Lemma update_message_advances l : steady l -> advances l (update_message sha1 patch updatedAt meta l).
Proof.
  intros Hl. unfold update_message. destruct (p_userMessage patch) as [message|] eqn:Hm; [|by apply advances_refl].
  pose proof (po_userMessage _ Hpatch _ Hm) as Hnb. destruct (target_turn patch l) as [i|] eqn:Ht.
  - apply alter_improves; [done|]. intros x Hx. by apply add_message_improves.
  - apply target_None in Ht as [Hnone Hnil]. set (t := new_turn _ _ _ _ _ _).
    assert (Hc : clean_turn t).
    { apply new_turn_clean.
      - destruct (truthy active) eqn:Ha; [by apply active_nonblank|apply generated_nonblank].
      - destruct (truthy (messageText (um_text message))) eqn:Htext; [|done]. intros _. simpl. unfold nonblank, messageText in *. by rewrite trim_idemp. }
    eapply chosen_id; [done|apply generated_nonblank|done| | |by apply add_message_clean].
    + intros Ha. rewrite (Hnil Ha). apply not_elem_of_nil.
    + unfold add_message. by case_bool_decide.
Qed.

Lemma update_response_advances l :
  otruthy (p_lastMessage patch) = true \/ otruthy (p_summary patch) = true -> steady l -> advances l (update_response patch updatedAt newId meta l).
Proof.
  intros Hr Hl. unfold update_response. destruct (target_turn patch l) as [i|] eqn:Ht.
  - apply alter_advances; [done|]. intros x _ [Hc _]. destruct (respond_improves x Hr Hc). by split_and!.
  - apply target_None in Ht as [Hnone Hnil]. destruct (truthy active) eqn:Ha.
    + pose proof Hnone as Hfree. unfold find_active in Hfree. rewrite Ha in Hfree. destruct (find_last_index _ l) as [i|] eqn:Hlast.
      * apply find_last_index_Some in Hlast as (x & Hx & Hpend). apply andb_true_iff in Hpend as [_ Hpend]. apply negb_true_iff in Hpend.
        apply adopt_advances; try done; [apply active_compact|]. intros y Hy Hfy. assert (y = x) as -> by congruence.
        destruct (set_id_fit x Ha Hfy Hpend) as [[F _] G]. destruct (respond_improves _ Hr F) as [F1 G1]. split_and!; [done|by etrans|done].
      * eapply (chosen_id active); [done|by apply active_nonblank|done|by rewrite Ha|by rewrite Ha|].
        apply respond_improves; [done|]. apply new_turn_clean; [by apply active_nonblank|done].
    + rewrite (Hnil eq_refl). apply push_advances; [by rewrite Hnil in Hl| |apply not_elem_of_nil|by rewrite Ha].
      destruct Hpatch as [_ P2 P3 P4 _]. split.
      * constructor; simpl; try done; try by constructor.
        -- by destruct Hmeta.
        -- apply when_truthy_clean; [intros; by apply compact_nonblank|done].
        -- apply when_truthy_clean; [apply trim_nonblank|done].
        -- apply when_truthy_clean; [intros; by apply compact_nonblank|done].
      * apply shown_content. unfold has_response, response_turn. cbn [t_lastMessage t_summary].
        rewrite (when_truthy_otruthy messageText), (when_truthy_otruthy (fun s => compact s 1000));
          [by apply orb_true_iff|intros; by apply compact_nonblank|done|apply trim_nonblank|done].
Qed.

Lemma update_state_advances l : steady l -> advances l (update_state patch updatedAt newId meta l).
Proof.
  intros Hl. unfold update_state. destruct (_ || _) eqn:Hr; [apply update_response_advances; [by apply orb_true_iff|done]|].
  destruct (_ && _); [by apply advances_refl|]. destruct (if truthy active then _ else _) as [i|]; [|by apply advances_refl].
  apply alter_improves; [done|]. intros x Hx. by apply settle_improves.
Qed.

Lemma move_active_advances l : steady l -> advances l (move_active patch l).
Proof.
  intros Hl. assert (Hmove : forall i t, l !! i = Some t -> advances l (delete i l ++ [t])).
  { intros i t Hi. pose proof (delete_Permutation _ _ _ Hi) as Hp. assert (Hq : delete i l ++ [t] ≡ₚ l) by (rewrite Hp at 2; by rewrite Permutation_app_comm).
    destruct Hl as [F [D1 D2]]. split.
    - by rewrite Hq.
    - split; [by rewrite Hq|]. intros Ha. rewrite Hq. by apply D2.
    - apply kept_subseteq. intros x Hx. by rewrite Hq.
    - by rewrite Hq. }
  unfold move_active. destruct (p_status patch) as [[]|]; try by apply advances_refl.
  all: destruct (find_active patch l) as [i|]; [|by apply advances_refl]; destruct (l !! i) as [t|] eqn:Hi; [|by apply advances_refl];
    destruct (bool_decide _); [by apply advances_refl|by apply Hmove].
Qed.

(** ** The whole update *)

Abbreviation normalize := (normalize_turn Date_parse toISOString sha1 no_meta).

Lemma normal_fit t : normal_turn Date_parse toISOString sha1 t -> fit t.
Proof. by intros [Hc Hs _]. Qed.

Lemma ok_steady l : turns_ok Date_parse toISOString sha1 l -> steady l.
Proof.
  intros [Hn Hd]. assert (Hk : Forall (fun t => key t = t_id t) l).
  { eapply Forall_impl; [exact Hn|]. intros t Ht. by destruct (normal_turn_fields _ _ _ _ Ht). }
  split; [eapply Forall_impl; [exact Hn|]; apply normal_fit|]. split; [|done].
  replace (key <$> l) with (ids l); [done|]. unfold ids. apply list_fmap_ext. intros i t Ht. rewrite Forall_forall in Hk. symmetry. by eapply Hk, list_elem_of_lookup_2.
Qed.

Lemma normalize_grows i t t' : grows active t t' -> compact (t_id t) 240 = t_id t -> fit t' -> grows active t (normalize i t').
Proof.
  intros [G1 G2 G3 G4] Hid [[C1 C2 C3 C4 C5 C6 C7 C8] _]. constructor; unfold normalize_turn; simpl.
  - rewrite (nonblank_truthy _ C1). destruct G1 as [->|(Hr & Ha & ->)]; [by left|right]. by rewrite active_compact.
  - lia.
  - unfold has_response. simpl. rewrite (when_truthy_otruthy messageText), (when_truthy_otruthy (fun s => compact s 1000));
      [done|intros; by apply compact_nonblank|done|apply trim_nonblank|done].
  - rewrite (when_truthy_otruthy messageText); [done|apply trim_nonblank|done].
Qed.

Lemma elem_imap {A B} (f : nat -> A -> B) l x : x ∈ l -> exists i, f i x ∈ imap f l.
Proof. intros [i Hi]%list_elem_of_lookup. exists i. apply list_elem_of_lookup. exists i. by rewrite list_lookup_imap, Hi. Qed.

Lemma imap_keys l : Forall fit l -> ids (imap normalize l) = key <$> l.
Proof.
  intros Hl. apply list_eq. intros i. unfold ids. rewrite !list_lookup_fmap, list_lookup_imap. destruct (l !! i) as [t|] eqn:Ht; [|done]. simpl. f_equal.
  rewrite Forall_forall in Hl. destruct (Hl t) as [[C1 _ _ _ _ _ _ _] _]; [by eapply list_elem_of_lookup_2|]. by rewrite (nonblank_truthy _ C1).
Qed.

Lemma normalized_ok l :
  steady l -> let result := normalizeTurns Date_parse toISOString sha1 (Some l) no_meta in
  Forall (normal_turn Date_parse toISOString sha1) result /\ length result = length l `min` 50 /\ NoDup (ids result)
  /\ result = last_n 50 (imap normalize l).
Proof.
  intros [Hf [D1 _]] result. assert (Heq : result = last_n 50 (imap normalize l)).
  { apply normalizeTurns_all. eapply Forall_impl; [exact Hf|]. by intros t []. }
  split_and!; [|by rewrite Heq, last_n_length, length_imap| |done].
  - apply normalizeTurns_normal; [done|apply no_meta_clean|]. simpl. eapply Forall_impl; [exact Hf|]. by intros t [].
  - rewrite Heq. unfold ids. rewrite last_n_fmap. fold (ids (imap normalize l)). rewrite imap_keys by done. by apply NoDup_last_n.
Qed.

(** A running turn that is known is moved to the end. *)
Lemma move_active_last l :
  p_status patch = Some Running \/ p_status patch = Some Waiting -> truthy active = true -> active ∈ ids l ->
  exists l' t, move_active patch l = l' ++ [t] /\ active ∈ turnIdentities t.
Proof.
  intros Hs Ha (t & Ht & Hin)%list_elem_of_fmap. unfold move_active, find_active. rewrite Ha.
  destruct (find_identity l active) as [i|] eqn:Hi.
  - apply find_index_Some in Hi as (x & Hx & Hid). apply andb_true_iff in Hid as [_ Hid]. apply bool_decide_eq_true in Hid.
    assert (Hmoved : exists l' y, (if bool_decide (i = length l - 1) then l else delete i l ++ [x]) = l' ++ [y] /\ active ∈ turnIdentities y).
    { case_bool_decide as Hlast; [|by exists (delete i l), x]. exists (take i l), x. split; [|done]. pose proof (lookup_lt_Some _ _ _ Hx) as Hlt.
      rewrite <- (take_drop_middle l i x Hx) at 1. by rewrite drop_ge by lia. }
    destruct Hs as [-> | ->]; by rewrite Hx.
  - exfalso. apply find_index_None in Hi. rewrite Forall_forall in Hi. specialize (Hi t Hin). unfold has_identity in Hi. rewrite Ha in Hi. simpl in Hi.
    apply bool_decide_eq_false in Hi. apply Hi. rewrite Ht. apply identity_id. by rewrite <- Ht.
Qed.

Lemma normalize_identity i t : truthy active = true -> clean_turn t -> active ∈ turnIdentities t -> active ∈ turnIdentities (normalize i t).
Proof.
  intros Ha [C1 _ _ _ _ _ _ _]. unfold turnIdentities. rewrite !list_elem_of_filter, !elem_of_cons. intros [_ Hin]. split; [done|].
  unfold normalize_turn. simpl. rewrite (nonblank_truthy _ C1). destruct Hin as [<-|Hin]; [left; by rewrite active_compact|right].
  destruct (t_providerTurnId t) as [p|]; simpl in Hin; [|by apply elem_of_nil in Hin]. apply list_elem_of_singleton in Hin as <-.
  unfold when_truthy. simpl. rewrite Ha. simpl. rewrite active_compact. by apply list_elem_of_singleton.
Qed.

(** The turns of a session. *)
Definition session_turns_ok (l : list AiSessionTurn) : Prop :=
  Forall (normal_turn Date_parse toISOString sha1) l /\ length l <= 50 /\ NoDup (ids l).

(** The identifier made for a prompt is not taken. *)
Definition prompt_fresh (l : list AiSessionTurn) : Prop :=
  truthy active = false -> truthy (patch_prompt patch) = true ->
  compact (stableGeneratedTurnId sha1 (patch_prompt patch) updatedAt) 240 ∉ ids l
  /\ compact (stableGeneratedTurnId sha1 (patch_prompt patch) updatedAt) 240 ∉ ids (normalizeTurns Date_parse toISOString sha1 (p_turns patch) meta).

Abbreviation update := (updateTurns Date_parse toISOString sha1 patch updatedAt newId meta).

Lemma elem_alter (f : AiSessionTurn -> AiSessionTurn) i (l : list AiSessionTurn) x : l !! i = Some x -> f x ∈ alter f i l.
Proof. intros Hx. apply list_elem_of_lookup. exists i. by rewrite list_lookup_alter_eq, Hx. Qed.

(** A message that is not blank is shown by a turn. *)
Lemma message_shown message l :
  p_lastMessage patch = Some message -> nonblank message ->
  exists t, t ∈ move_active patch (update_state patch updatedAt newId meta l) /\ t_lastMessage t = Some (messageText message).
Proof.
  intros Hm Hnb. assert (Hr : forall t, t_lastMessage (respond patch updatedAt meta t) = Some (messageText message)).
  { intros t. unfold respond. simpl. rewrite Hm. unfold when_truthy. simpl. by rewrite (nonblank_truthy _ Hnb). }
  assert (Hs : exists t, t ∈ update_state patch updatedAt newId meta l /\ t_lastMessage t = Some (messageText message)).
  { unfold update_state. rewrite Hm. simpl. rewrite (nonblank_truthy _ Hnb). simpl. unfold update_response.
    assert (Halter : forall i g, is_Some (l !! i) -> exists t, t ∈ alter (fun t => respond patch updatedAt meta (g t)) i l /\ t_lastMessage t = Some (messageText message)).
    { intros i g [x Hx]. exists (respond patch updatedAt meta (g x)). split; [by apply (elem_alter (fun t => respond patch updatedAt meta (g t)))|done]. }
    destruct (target_turn patch l) as [i|] eqn:Ht.
    - apply (Halter i (fun t => t)). unfold target_turn in Ht. destruct (truthy active); [apply find_index_Some in Ht as (x & Hx & _)|apply last_index_Some in Ht as [x Hx]]; by exists x.
    - destruct (truthy active); [|eexists; split; [apply elem_of_app; right; by apply list_elem_of_singleton|]].
      + destruct (find_last_index _ l) as [i|] eqn:Hl; [|eexists; split; [apply elem_of_app; right; by apply list_elem_of_singleton|done]].
        apply find_last_index_Some in Hl as (x & Hx & _). by apply (Halter i (set_id active)).
      + unfold response_turn. simpl. rewrite Hm. unfold when_truthy. simpl. by rewrite (nonblank_truthy _ Hnb). }
  destruct Hs as (t & Ht & Hlast). exists t. split; [|done]. unfold move_active. destruct (p_status patch) as [[]|]; try done.
  all: destruct (find_active patch _) as [i|]; [|done]; destruct (_ !! i) as [x|] eqn:Hi; [|done]; destruct (bool_decide _); [done|].
  all: rewrite (delete_Permutation _ _ _ Hi), elem_of_cons in Ht; apply elem_of_app; rewrite list_elem_of_singleton; tauto.
Qed.

Lemma updateTurns_ok current :
  session_turns_ok (default [] current) -> prompt_fresh (default [] current) ->
  session_turns_ok (update current)
  /\ (length (update current) < 50 -> kept active (default [] current) (update current)
      /\ (p_status patch = Some Running \/ p_status patch = Some Waiting -> truthy active = true -> active ∈ ids (default [] current) ->
          exists t, last (update current) = Some t /\ active ∈ turnIdentities t)
      /\ (forall message, p_lastMessage patch = Some message -> nonblank message -> exists t, t ∈ update current /\ t_lastMessage t = Some (messageText message))).
Proof.
  intros (Hn & Hlen & Hd) Hfresh.
  destruct (mergeTurns_ok Date_parse toISOString sha1 Hiso active current (p_turns patch) meta Hn Hlen Hd Hmeta (po_turns _ Hpatch)) as (merged & Hmerge & Hok & Hkept & _ & Hids).
  assert (Hl0 : steady (last_n 50 merged)).
  { apply ok_steady. destruct Hok as [H1 H2]. split; [by apply Forall_last_n|]. unfold ids. rewrite last_n_fmap. by apply NoDup_last_n. }
  set (l0 := last_n 50 merged) in *.
  assert (A1 : advances l0 (update_prompt sha1 patch updatedAt meta l0)).
  { apply update_prompt_advances; [done|]. intros Ha Hp. destruct (Hfresh Ha Hp) as [N1 N2]. intros Hin.
    assert (Hin' : compact (stableGeneratedTurnId sha1 (patch_prompt patch) updatedAt) 240 ∈ ids merged).
    { destruct (last_n_suffix 50 merged) as [k Hk]. rewrite Hk. unfold ids. rewrite fmap_app. apply elem_of_app. right. fold l0. fold (ids l0).
      apply list_elem_of_fmap in Hin as (x & -> & Hx). apply list_elem_of_fmap. exists x. split; [|done].
      destruct Hok as [H1 _]. rewrite Forall_forall in H1. unfold key.
      assert (Hxm : x ∈ merged) by (rewrite Hk; apply elem_of_app; by right). by destruct (normal_turn_fields _ _ _ _ (H1 x Hxm)). }
    by destruct (Hids _ Hin'). }
  set (l1 := update_prompt _ _ _ _ _) in *. pose proof (advances_trans _ _ _ _ A1 (update_message_advances l1)) as A2. set (l2 := update_message _ _ _ _ _) in *.
  pose proof (advances_trans _ _ _ _ A2 (update_state_advances l2)) as A3. set (l3 := update_state _ _ _ _ _) in *.
  pose proof (advances_trans _ _ _ _ A3 (move_active_advances l3)) as A4.
  assert (Hres : update current = normalizeTurns Date_parse toISOString sha1 (Some (move_active patch l3)) no_meta).
  { unfold updateTurns. rewrite Hmerge. fold l0 l1 l2 l3. case_bool_decide as Heq; [rewrite Heq; by destruct current|done]. }
  destruct A4 as [F4 D4 K4 L4]. destruct (normalized_ok (move_active patch l3) (conj F4 D4)) as (R1 & R2 & R3 & R4). rewrite <- Hres in R1, R2, R3, R4.
  split; [split_and!; [done|lia|done]|]. intros Hshort.
  assert (Hall : update current = imap normalize (move_active patch l3)) by (rewrite R4; apply last_n_id; rewrite length_imap; lia).
  assert (Hl0' : l0 = merged) by (unfold l0 in *; rewrite last_n_length in L4; apply last_n_id; lia).
  split_and!.
  - intros t Ht. destruct (Hkept t Ht) as (t0 & Ht0 & G0). rewrite <- Hl0' in Ht0. destruct (K4 t0 Ht0) as (t4 & Ht4 & G4).
    destruct (elem_imap normalize _ _ Ht4) as [i Hi]. exists (normalize i t4). rewrite Hall. split; [done|]. rewrite Forall_forall in Hn, F4.
    apply normalize_grows; [by etrans|by destruct (normal_turn_fields _ _ _ _ (Hn t Ht))|by apply F4].
  - intros Hs Ha Hin. destruct A3 as [F3 D3 K3 L3].
    assert (Hin3 : active ∈ ids l3).
    { apply list_elem_of_fmap in Hin as (t & Hid & Ht). destruct (Hkept t Ht) as (t0 & Ht0 & G0). rewrite <- Hl0' in Ht0. destruct (K3 t0 Ht0) as (t3 & Ht3 & G3).
      apply list_elem_of_fmap. exists t3. split; [|done]. assert (G : grows active t t3) by by etrans. destruct (gr_id _ _ _ G) as [-> | (_ & _ & ->)]; done. }
    destruct (move_active_last l3 Hs Ha Hin3) as (l' & t & Hmove & Hid). rewrite Hall, Hmove.
    exists (normalize (length l' + 0) t). rewrite imap_app. simpl. rewrite last_snoc. split; [done|]. apply normalize_identity; [done| |done].
    rewrite Hmove in F4. apply Forall_app in F4 as [_ F4]. by apply Forall_cons in F4 as [[? _] _].
  - intros message Hm Hnb. destruct (message_shown message l2 Hm Hnb) as (t & Ht & Hlast). fold l3 in Ht. destruct (elem_imap normalize _ _ Ht) as [i Hi].
    exists (normalize i t). rewrite Hall. split; [done|]. unfold normalize_turn. cbn [t_lastMessage]. rewrite Hlast. unfold when_truthy. simpl.
    assert (Htr : truthy (messageText message) = true) by exact Hnb. by rewrite Htr, messageText_idemp.
Qed.
End Update.


(** ** An example: a provider names the turn it answers *)

Definition example_iso : jsstring := js "2026-01-01T00:00:00.000Z".
Definition example_parse (s : jsstring) : option Z := if bool_decide (s = example_iso) then Some 0%Z else None.
Definition example_toISO (z : Z) : jsstring := example_iso.
Definition example_sha1 (s : jsstring) : jsstring := s.
Abbreviation example_update := (updateTurns example_parse example_toISO example_sha1).

Definition pending_turn : AiSessionTurn :=
  new_turn (js "turn_1") no_meta (Some (js "What is two and two?")) TurnRunning Thinking example_iso.
Definition answer_patch : TurnUpdatePatch :=
  TurnPatch (Some (js "item-7")) None None (Some Idle) None (Some (js "Four. ")) (Some (js "Four. ")) None None None.
Definition answer_meta : TurnMeta := turnMeta (Some Realtime) None None None (Some example_iso).

Example answered_turns :
  (fun t => (t_id t, t_userPrompt t, t_lastMessage t, t_status t, t_revision t)) <$> example_update answer_patch example_iso (js "turn_x") answer_meta (Some [pending_turn])
  = [(js "item-7", Some (js "What is two and two?"), Some (js "Four."), TurnCompleted, 1%Z)].
Proof. vm_compute. reflexivity. Qed.

Lemma clean_check o : (if otruthy o then truthy (trim (default [] o)) else true) = true -> clean o.
Proof. unfold clean, nonblank. by destruct (otruthy o). Qed.

Lemma example_iso_ok s z : example_parse s = Some z -> nonblank (example_toISO z) /\ example_parse (example_toISO z) = Some z.
Proof. unfold example_parse. case_bool_decide; [|done]. by intros [= <-]. Qed.

Lemma pending_turn_normal : normal_turn example_parse example_toISO example_sha1 pending_turn.
Proof.
  split; [|reflexivity|reflexivity]. constructor; [vm_compute; reflexivity|apply clean_check; vm_compute; reflexivity|apply clean_check; vm_compute; reflexivity|by constructor
    |apply clean_check; vm_compute; reflexivity|apply clean_check; vm_compute; reflexivity|apply clean_check; vm_compute; reflexivity|by constructor].
Qed.


(** ** Identifiers of transcript turns

    Prompts that begin with the same 117 units get the same identifier, and
    so does every occurrence of a prompt that long: the seed is cut before it
    is hashed. *)

Definition long_prompt (ending : string) : jsstring := repeat 97%N 120 ++ js ending.

Lemma transcript_ids_collide sha1 :
  transcriptTurnId sha1 (long_prompt "first") None 1 = transcriptTurnId sha1 (long_prompt "first") None 2
  /\ transcriptTurnId sha1 (long_prompt "first") None 1 = transcriptTurnId sha1 (long_prompt "second") None 1
  /\ transcriptTurnId example_sha1 (js "first") None 1 <> transcriptTurnId example_sha1 (js "first") None 2.
Proof. split_and!; [vm_compute; reflexivity|vm_compute; reflexivity|vm_compute; discriminate]. Qed.
