(* ===== verification/StateReducer.v ===== *)
(** * The state of an AI session

    [packages/ai-session-runtime/src/ai-session/state-reducer.ts] with the
    normalizers of [persistence.ts] it uses: how an event of a provider, or a
    snapshot of what a provider knows, changes the session that is shown.
    What the reducers only pass on - lineage, provider metadata, model,
    reasoning effort and tool - is abstract.  [newId] is the identifier
    [generatedTurnId] would draw. *)

From S2P Require Export Turns Queue.

Inductive AiSessionSubAgentStatus := PendingInit | SubAgentRunning | SubAgentInterrupted | SubAgentCompleted | SubAgentErrored | SubAgentShutdown | SubAgentNotFound.
Inductive AiSessionSubAgentActivity := ActivityStarted | ActivityInteracted | ActivityInterrupted.
Inductive AiSessionCreationSource := CreatedByApp | CreatedByAiSession.

#[export] Instance sub_agent_status_eq_dec : EqDecision AiSessionSubAgentStatus.
Proof. solve_decision. Defined.
#[export] Instance sub_agent_activity_eq_dec : EqDecision AiSessionSubAgentActivity.
Proof. solve_decision. Defined.
#[export] Instance creation_source_eq_dec : EqDecision AiSessionCreationSource.
Proof. solve_decision. Defined.
#[export] Instance permission_mode_eq_dec : EqDecision permission_mode.
Proof. solve_decision. Defined.

Record AiSessionSubAgent := SubAgent {
  sa_threadId : jsstring;
  sa_path : option jsstring;
  sa_status : AiSessionSubAgentStatus;
  sa_activity : option AiSessionSubAgentActivity;
  sa_message : option jsstring;
  sa_updatedAt : jsstring
}.
#[export] Instance sub_agent_eq_dec : EqDecision AiSessionSubAgent.
Proof. solve_decision. Defined.

Record AiSessionActions := Actions {
  can_send : option bool;
  can_interrupt : option bool;
  can_approve : option bool;
  can_fork : option bool;
  can_rename : option bool;
  can_openApp : option bool;
  can_close : option bool
}.
#[export] Instance actions_eq_dec : EqDecision AiSessionActions.
Proof. solve_decision. Defined.
Definition no_actions : AiSessionActions := Actions None None None None None None None.

Record AiSessionCounters := Counters { toolCalls : Z; edits : Z; approvals : Z }.
#[export] Instance counters_eq_dec : EqDecision AiSessionCounters.
Proof. solve_decision. Defined.

#[export] Instance queued_message_eq_dec {Meta Ref : Type} `{EqDecision Meta, EqDecision Ref} : EqDecision (@AiSessionQueuedMessage Meta Ref).
Proof. solve_decision. Defined.
#[export] Instance queue_eq_dec {Meta Ref : Type} `{EqDecision Meta, EqDecision Ref} : EqDecision (@AiSessionQueue Meta Ref).
Proof. solve_decision. Defined.

Section Reducer.
Context {Lineage ProviderMeta ModelSelection ReasoningEffort Tool AttachmentMeta Reference : Type}.
Context `{EqDecision Lineage, EqDecision ProviderMeta, EqDecision ModelSelection, EqDecision ReasoningEffort, EqDecision Tool,
          EqDecision AttachmentMeta, EqDecision Reference}.
Context (Date_parse : jsstring -> option Z) (toISOString : Z -> jsstring) (sha1 : jsstring -> jsstring)
  (isDateTime : jsstring -> bool) (localeCompare : jsstring -> jsstring -> Z)
  (parseMeta : AttachmentMeta -> option AttachmentMeta) (parseRef : Reference -> option Reference).

(** ** The session

    The fields that tell what a session belongs to are a record of their own. *)

Record session_binding := Binding {
  b_appSessionId : option jsstring;
  b_appId : option jsstring;
  b_providerSessionId : option jsstring;
  b_lineage : option Lineage;
  b_providerMeta : option ProviderMeta;
  b_modelSelection : option ModelSelection;
  b_reasoningEffort : option ReasoningEffort;
  b_storyId : option jsstring;
  b_appBindingKeys : option (list jsstring);
  b_title : option jsstring;
  b_cwd : option jsstring;
  b_cwdFolderId : option jsstring;
  b_transcriptPath : option jsstring;
  b_transcriptSize : option Z
}.

#[export] Instance binding_eq_dec : EqDecision session_binding.
Proof. solve_decision. Defined.

Abbreviation session_queue := (@AiSessionQueue AttachmentMeta Reference).

Record AiSessionStatus := Session {
  s_id : jsstring;
  s_agent : jsstring;
  s_creationSource : AiSessionCreationSource;
  s_binding : session_binding;
  s_actions : option AiSessionActions;
  s_activeTurnId : option jsstring;
  s_userPrompt : option jsstring;
  s_turns : option (list AiSessionTurn);
  s_status : AiSessionLifecycle;
  s_phase : AiSessionPhase;
  s_summary : option jsstring;
  s_lastMessage : option jsstring;
  s_lastMessageItemId : option jsstring;
  s_currentTool : option Tool;
  s_toolCallsSinceLastMessage : Z;
  s_subAgents : list AiSessionSubAgent;
  s_startedAt : jsstring;
  s_updatedAt : jsstring;
  s_completedAt : option jsstring;
  s_error : option jsstring;
  s_counters : AiSessionCounters;
  s_queue : session_queue;
  s_unread : bool
}.

(** ** Normalizers of [persistence.ts] *)

Definition normalizeAiSessionCounters (counters : option AiSessionCounters) : AiSessionCounters :=
  match counters with
  | Some c => Counters (Z.max 0 (toolCalls c)) (Z.max 0 (edits c)) (Z.max 0 (approvals c))
  | None => Counters 0 0 0
  end.

Definition normalizeAiSessionQueue (value : session_queue) : session_queue :=
  normalizeAiSessionQueueItems parseMeta parseRef isDateTime (q_items value) (q_revision value) (q_paused value).

(** [TrimmedTextSchema.max(max).optional()]: [None] when it is refused. *)
Definition optionalTrimmedText (max : N) (value : option jsstring) : option (option jsstring) :=
  match value with
  | Some s => if (N.of_nat (length (trim s)) <=? max)%N then Some (Some (trim s)) else None
  | None => Some None
  end.

(** [AiSessionSubAgentSchema.safeParse]. *)
Definition parseSubAgent (candidate : AiSessionSubAgent) : option AiSessionSubAgent :=
  threadId ← nonEmptyTrimmedText 240 (sa_threadId candidate);
  path ← optionalTrimmedText 4096 (sa_path candidate);
  message ← optionalTrimmedText 1000 (sa_message candidate);
  if isDateTime (sa_updatedAt candidate)
  then Some (SubAgent threadId path (sa_status candidate) (sa_activity candidate) message (sa_updatedAt candidate)) else None.

Definition isCurrentAiSessionSubAgent (subAgent : AiSessionSubAgent) : bool := negb (bool_decide (sa_status subAgent = SubAgentCompleted)).

(** A pass of the loop over the reported agents. *)
Definition add_sub_agent (byThreadId : jsmap jsstring AiSessionSubAgent) (item : AiSessionSubAgent) : jsmap jsstring AiSessionSubAgent :=
  match parseSubAgent item with
  | None => byThreadId
  | Some data =>
      if negb (isCurrentAiSessionSubAgent data) then byThreadId else
      match mget (sa_threadId data) byThreadId with
      | None => mset (sa_threadId data) data byThreadId
      | Some previous => if date_geb Date_parse (Some (sa_updatedAt data)) (Some (sa_updatedAt previous)) then mset (sa_threadId data) data byThreadId else byThreadId
      end
  end.

Definition compare_sub_agents (left right : AiSessionSubAgent) : Z :=
  match Date_parse (sa_updatedAt right), Date_parse (sa_updatedAt left) with
  | Some r, Some l => if (r - l =? 0)%Z then localeCompare (sa_threadId left) (sa_threadId right) else (r - l)%Z
  | _, _ => localeCompare (sa_threadId left) (sa_threadId right)
  end.

Definition normalizeAiSessionSubAgents (value : list AiSessionSubAgent) : list AiSessionSubAgent :=
  take 50 (js_sort compare_sub_agents (mvalues (foldl add_sub_agent [] value))).

(** ** Patches

    A key that a patch may give the value [undefined] is an option of an
    option. [ap_binding] is what the keys of the binding become. *)

Record AiSessionPatch := SessionPatch {
  ap_binding : option session_binding;
  ap_actions : option AiSessionActions;
  ap_activeTurnId : option (option jsstring);
  ap_userPrompt : option jsstring;
  ap_userMessage : option AiSessionUserMessageDetail;
  ap_turns : option (list AiSessionTurn);
  ap_status : option AiSessionLifecycle;
  ap_phase : option AiSessionPhase;
  ap_summary : option jsstring;
  ap_lastMessage : option jsstring;
  ap_lastMessageItemId : option (option jsstring);
  ap_currentTool : option (option Tool);
  ap_toolCallsSinceLastMessage : option Z;
  ap_subAgents : option (list AiSessionSubAgent);
  ap_completedAt : option (option jsstring);
  ap_error : option jsstring;
  ap_counters : option AiSessionCounters;
  ap_queue : option session_queue;
  ap_unread : option bool
}.

Record ApplyAiSessionPatchOptions := PatchOptions {
  o_updatedAt : option jsstring;
  o_preserveUpdatedAt : bool;
  o_replaceActivity : bool;
  o_replaceTurns : bool;
  o_clearResponse : bool;
  o_clearError : bool;
  o_suppressPromptTurn : bool;
  o_suppressTurnUpdate : bool;
  o_meta : TurnMeta
}.

Definition latestTurnUserPrompt (turns : list AiSessionTurn) : option jsstring :=
  turn ← turn_at turns (find_last_index (fun turn => truthy (trim (default [] (t_userPrompt turn)))) turns); t_userPrompt turn.

Definition nextUnread (current : bool) (previousStatus status : AiSessionLifecycle) : bool :=
  match status with
  | Running | Waiting => false
  | _ => match previousStatus with Running | Waiting => true | _ => current end
  end.

Definition is_active (status : AiSessionLifecycle) : bool := match status with Running | Waiting => true | _ => false end.

(** [{ ...actions, interrupt }]. *)
Definition with_interrupt (actions : option AiSessionActions) (interrupt : bool) : AiSessionActions :=
  let a := default no_actions actions in
  Actions (can_send a) (Some interrupt) (can_approve a) (can_fork a) (can_rename a) (can_openApp a) (can_close a).

(** The turns of the patched session. *)
Definition patched_turns (newId : jsstring) (current : AiSessionStatus) (patch : AiSessionPatch) (options : ApplyAiSessionPatchOptions) (updatedAt : jsstring)
  : option (list AiSessionTurn) :=
  if o_suppressTurnUpdate options
  then if o_replaceTurns options then Some (normalizeTurns Date_parse toISOString sha1 None no_meta) else s_turns current
  else Some (updateTurns Date_parse toISOString sha1
    (TurnPatch (mjoin (ap_activeTurnId patch)) (if o_suppressPromptTurn options then None else ap_userPrompt patch) (ap_turns patch) (ap_status patch)
       (ap_phase patch) (ap_summary patch) (ap_lastMessage patch) (mjoin (ap_lastMessageItemId patch)) (mjoin (ap_completedAt patch)) (ap_userMessage patch))
    updatedAt newId (o_meta options) (if o_replaceTurns options then None else s_turns current)).

Definition buildAiSessionPatch (newId : jsstring) (current : AiSessionStatus) (patch : AiSessionPatch) (options : ApplyAiSessionPatchOptions) : AiSessionStatus :=
  let counterDelta := normalizeAiSessionCounters (ap_counters patch) in
  let counters := Counters (toolCalls (s_counters current) + toolCalls counterDelta) (edits (s_counters current) + edits counterDelta)
                    (approvals (s_counters current) + approvals counterDelta) in
  let updatedAt := if o_preserveUpdatedAt options then s_updatedAt current else default (s_updatedAt current) (o_updatedAt options) in
  let turns := patched_turns newId current patch options updatedAt in
  let prompt := if otruthy (ap_userPrompt patch) then messageText (default [] (ap_userPrompt patch)) else [] in
  let latestTurn := last (default [] turns) in
  let derivedUserPrompt := latestTurnUserPrompt (default [] turns) in
  let startsEmptyTurn := truthy prompt && negb (otruthy (ap_lastMessage patch))
                         && match latestTurn with Some t => bool_decide (t_userPrompt t = Some prompt) && negb (has_response t) | None => false end in
  let status := default (s_status current) (ap_status patch) in
  let unread := match ap_unread patch with Some u => u | None => nextUnread (s_unread current) (s_status current) status end in
  let actions := with_interrupt (over (ap_actions patch) (s_actions current)) (is_active status) in
  let shown (given previous : option jsstring) (f : jsstring -> jsstring) :=
    if o_replaceActivity options then when_truthy f given else
    if o_clearResponse options then None else
    if otruthy given then when_truthy f given else if startsEmptyTurn then None else previous in
  Session (s_id current) (s_agent current) (s_creationSource current)
    (default (s_binding current) (ap_binding patch))
    (Some actions)
    (default (s_activeTurnId current) (ap_activeTurnId patch))
    (oor derivedUserPrompt
       (if o_replaceActivity options then when_truthy messageText (ap_userPrompt patch)
        else if otruthy (ap_userPrompt patch) then when_truthy messageText (ap_userPrompt patch) else s_userPrompt current))
    turns status
    (default (s_phase current) (ap_phase patch))
    (shown (ap_summary patch) (s_summary current) (fun s => compact s 1000))
    (shown (ap_lastMessage patch) (s_lastMessage current) messageText)
    (default (s_lastMessageItemId current) (ap_lastMessageItemId patch))
    (default (s_currentTool current) (ap_currentTool patch))
    (default (s_toolCallsSinceLastMessage current) (ap_toolCallsSinceLastMessage patch))
    (match ap_subAgents patch with Some value => normalizeAiSessionSubAgents value | None => s_subAgents current end)
    (s_startedAt current) updatedAt
    (default (s_completedAt current) (ap_completedAt patch))
    (if o_clearError options then None else if otruthy (ap_error patch) then when_truthy (fun s => compact s 4000) (ap_error patch) else s_error current)
    counters
    (match ap_queue patch with Some value => normalizeAiSessionQueue value | None => s_queue current end)
    unread.

(** ** Business state *)

(** A turn without the metadata of its observation. *)
Definition aiSessionTurnContentValue (t : AiSessionTurn) : AiSessionTurn :=
  Turn (t_id t) (t_providerTurnId t) (t_source t) (t_userPrompt t) (t_userMessages t) (t_status t) (t_phase t) (t_summary t) (t_lastMessage t)
    (t_lastMessageItemId t) (t_contextCompactions t) 0 (t_sourcePriority t) None None (t_startedAt t) (t_updatedAt t) (t_completedAt t).

Definition sameAiSessionTurnContent (left right : option (list AiSessionTurn)) : bool :=
  bool_decide (aiSessionTurnContentValue <$> default [] left = aiSessionTurnContentValue <$> default [] right).

Definition sameAiSessionBusinessState (current next : AiSessionStatus) : bool :=
  bool_decide (s_id current = s_id next) && bool_decide (s_agent current = s_agent next)
  && bool_decide (s_creationSource current = s_creationSource next) && bool_decide (s_binding current = s_binding next)
  && bool_decide (s_actions current = s_actions next) && bool_decide (s_activeTurnId current = s_activeTurnId next)
  && bool_decide (s_userPrompt current = s_userPrompt next) && sameAiSessionTurnContent (s_turns current) (s_turns next)
  && bool_decide (s_status current = s_status next) && bool_decide (s_phase current = s_phase next)
  && bool_decide (s_summary current = s_summary next) && bool_decide (s_lastMessage current = s_lastMessage next)
  && bool_decide (s_lastMessageItemId current = s_lastMessageItemId next) && bool_decide (s_currentTool current = s_currentTool next)
  && bool_decide (s_toolCallsSinceLastMessage current = s_toolCallsSinceLastMessage next) && bool_decide (s_subAgents current = s_subAgents next)
  && bool_decide (s_startedAt current = s_startedAt next) && bool_decide (s_completedAt current = s_completedAt next)
  && bool_decide (s_error current = s_error next) && bool_decide (s_counters current = s_counters next)
  && bool_decide (s_queue current = s_queue next) && bool_decide (s_unread current = s_unread next).

(** ** Realtime events *)

Inductive realtime_kind :=
| LifecycleEvent
| SendAck
| TurnStarted
| UserMessageEvent
| AssistantMessage
| ApprovalRequested
| TurnCompletedEvent
| SessionErrorEvent
| ToolActivity (tool : option Tool) (calls : Z)
| SubAgentActivity (agents : list AiSessionSubAgent)
| ContextCompactionEvent (compaction : AiSessionContextCompaction)
| ModelSelectionEvent (model : ModelSelection)
| ReasoningEffortEvent (effort : ReasoningEffort).

Record AiSessionRealtimeInput := RealtimeInput {
  e_kind : realtime_kind;
  e_source : AiSessionSource;
  e_sourcePriority : option Z;
  e_observedAt : option jsstring;
  e_snapshotVersion : option Z;
  e_activeTurnId : option jsstring;
  e_providerTurnId : option jsstring;
  e_userPrompt : option jsstring;
  e_userMessage : option AiSessionUserMessageDetail;
  e_text : option jsstring;
  e_itemId : option jsstring;
  e_status : option AiSessionLifecycle;
  e_phase : option AiSessionPhase;
  e_summary : option jsstring;
  e_error : option jsstring;
  e_counters : option AiSessionCounters
}.

Definition canonicalRealtimeTurnId (current : AiSessionStatus) (source : AiSessionSource) (eventActive userPrompt : option jsstring) : option jsstring :=
  let incomingTurnId := when_truthy (fun id => compact id 240) eventActive in
  if negb (bool_decide (source = TranscriptTail)) || negb (otruthy incomingTurnId) || negb (otruthy (s_activeTurnId current))
     || bool_decide (incomingTurnId = s_activeTurnId current)
  then oor incomingTurnId (s_activeTurnId current) else
  match find (fun turn => bool_decide (Some (t_id turn) = s_activeTurnId current)) (normalizeTurns Date_parse toISOString sha1 (s_turns current) no_meta) with
  | Some activeTurn =>
      if has_response activeTurn then incomingTurnId else
      let prompt := if otruthy userPrompt then messageText (default [] userPrompt) else [] in
      if truthy prompt && otruthy (t_userPrompt activeTurn) && negb (bool_decide (t_userPrompt activeTurn = Some prompt)) then incomingTurnId
      else s_activeTurnId current
  | None => incomingTurnId
  end.

(** A patch of the turn, the status and what is shown. *)
Definition activity_patch (activeTurnId : option (option jsstring)) (status : option AiSessionLifecycle) (phase : option AiSessionPhase)
    (userPrompt : option jsstring) (userMessage : option AiSessionUserMessageDetail) : AiSessionPatch :=
  SessionPatch None None activeTurnId userPrompt userMessage None status phase None None None None None None None None None None None.

Definition binding_patch (binding : session_binding) : AiSessionPatch :=
  SessionPatch (Some binding) None None None None None None None None None None None None None None None None None None.

Definition event_options (updatedAt : jsstring) (meta : TurnMeta) (clearResponse clearError suppressPromptTurn suppressTurnUpdate : bool) : ApplyAiSessionPatchOptions :=
  PatchOptions (Some updatedAt) false false false clearResponse clearError suppressPromptTurn suppressTurnUpdate meta.

Definition with_model (model : ModelSelection) (b : session_binding) : session_binding :=
  Binding (b_appSessionId b) (b_appId b) (b_providerSessionId b) (b_lineage b) (b_providerMeta b) (Some model) (b_reasoningEffort b) (b_storyId b)
    (b_appBindingKeys b) (b_title b) (b_cwd b) (b_cwdFolderId b) (b_transcriptPath b) (b_transcriptSize b).
Definition with_effort (effort : ReasoningEffort) (b : session_binding) : session_binding :=
  Binding (b_appSessionId b) (b_appId b) (b_providerSessionId b) (b_lineage b) (b_providerMeta b) (b_modelSelection b) (Some effort) (b_storyId b)
    (b_appBindingKeys b) (b_title b) (b_cwd b) (b_cwdFolderId b) (b_transcriptPath b) (b_transcriptSize b).

Definition approve_action (actions : option AiSessionActions) : AiSessionActions :=
  let a := default no_actions actions in
  Actions (can_send a) (can_interrupt a) (Some true) (can_fork a) (can_rename a) (can_openApp a) (can_close a).

(** The turn of the report that a context was compacted. *)
Definition compaction_turn (turnId updatedAt : jsstring) (event : AiSessionRealtimeInput) (compaction : AiSessionContextCompaction) (existing : option AiSessionTurn)
  : AiSessionTurn :=
  Turn turnId (oor (e_providerTurnId event) (oor (existing ≫= t_providerTurnId) (Some turnId))) (Some (e_source event)) (existing ≫= t_userPrompt)
    (existing ≫= t_userMessages) (default TurnRunning (t_status <$> existing)) (Some (default Thinking (existing ≫= t_phase)))
    (existing ≫= t_summary) (existing ≫= t_lastMessage) (existing ≫= t_lastMessageItemId) (Some [compaction])
    (default 0%Z (t_revision <$> existing) + 1) (existing ≫= t_sourcePriority) (existing ≫= t_snapshotVersion) (existing ≫= t_observedAt)
    (existing ≫= t_startedAt) (Some updatedAt) (existing ≫= t_completedAt).

Section Realtime.
Context (newId : jsstring) (current : AiSessionStatus) (event : AiSessionRealtimeInput).

Definition event_updatedAt : jsstring := default (s_updatedAt current) (e_observedAt event).
Definition event_meta : TurnMeta := turnMeta (Some (e_source event)) (e_sourcePriority event) (e_providerTurnId event) (e_snapshotVersion event) (e_observedAt event).
Abbreviation updatedAt := event_updatedAt.
Abbreviation meta := event_meta.
Abbreviation apply := (buildAiSessionPatch newId current).

(** [event.activeTurnId || current.activeTurnId]. *)
Definition event_turn : option jsstring := oor (e_activeTurnId event) (s_activeTurnId current).

Definition reduce_lifecycle : AiSessionStatus :=
  let status := default (s_status current) (e_status event) in
  let hasLifecycleTurn := otruthy event_turn
    && existsb (fun turn => bool_decide (Some (t_id turn) = event_turn)) (normalizeTurns Date_parse toISOString sha1 (s_turns current) no_meta) in
  if negb (is_active status) && currentActiveTurnIsPending Date_parse toISOString sha1 (s_activeTurnId current) (s_status current) (s_turns current)
  then current else
  apply (SessionPatch None None (Some (if is_active status then event_turn else s_activeTurnId current)) None None None (Some status)
           (Some (default (s_phase current) (e_phase event))) None None None (Some (if is_active status then s_currentTool current else None))
           None None None None None None None)
    (event_options updatedAt meta false (is_active status) false (negb hasLifecycleTurn)).

Definition reduce_compaction (compaction : AiSessionContextCompaction) : AiSessionStatus :=
  if negb (otruthy event_turn) then current else
  let turnId := default [] event_turn in
  let existing := find (fun turn => bool_decide (t_id turn = turnId)) (normalizeTurns Date_parse toISOString sha1 (s_turns current) no_meta) in
  let existingCompaction := turn ← existing; items ← t_contextCompactions turn; find (fun item => bool_decide (c_id item = c_id compaction)) items in
  let known := match existingCompaction with
               | Some c => bool_decide (c_status c = CompactionCompleted)
                           || (bool_decide (c_status c = c_status compaction) && bool_decide (c_startedAt c = c_startedAt compaction)
                               && bool_decide (c_completedAt c = c_completedAt compaction))
               | None => false
               end in
  if known then current else
  apply (SessionPatch None None None None None (Some [compaction_turn turnId updatedAt event compaction existing]) None None None None None None None None None
           None None None None)
    (event_options updatedAt meta false false true false).

Definition reduce_completed : AiSessionStatus :=
  let responseText := oor (e_text event) (e_summary event) in
  let turns := normalizeTurns Date_parse toISOString sha1 (s_turns current) no_meta in
  let completedTurn := if otruthy event_turn then find (fun turn => bool_decide (Some (t_id turn) = event_turn)) turns else last turns in
  let alreadyAt := turn ← completedTurn; if otruthy (t_completedAt turn) then t_completedAt turn else None in
  let completedAt := match completedTurn with
                     | Some turn => if otruthy (t_completedAt turn) && (bool_decide (t_status turn = TurnCompleted) || bool_decide (t_status turn = TurnFailed))
                                    then t_completedAt turn else oor (e_observedAt event) (Some updatedAt)
                     | None => oor (e_observedAt event) (Some updatedAt)
                     end in
  apply (SessionPatch None None
           (Some (if negb (otruthy (e_activeTurnId event)) || bool_decide (e_activeTurnId event = s_activeTurnId current) then None else s_activeTurnId current))
           None None None (Some (default Idle (e_status event))) (Some (default UnknownPhase (e_phase event))) responseText responseText None (Some None) None None
           (Some completedAt) (when_truthy (fun s => compact s 4000) (e_error event)) None None None)
    (event_options updatedAt meta (negb (otruthy responseText) && negb (bool_decide (is_Some alreadyAt))) (negb (bool_decide (e_status event = Some SessionFailed))) false false).

Definition reduceAiSessionRealtime : AiSessionStatus :=
  match e_kind event with
  | SendAck =>
      let userPrompt := messageText (default [] (e_userPrompt event)) in
      apply (activity_patch (Some (oor (e_activeTurnId event) (Some (stableGeneratedTurnId sha1 userPrompt updatedAt)))) (Some (default Running (e_status event)))
               (Some (default Thinking (e_phase event))) (Some userPrompt) (e_userMessage event))
        (event_options updatedAt meta false true false false)
  | ModelSelectionEvent model => apply (binding_patch (with_model model (s_binding current))) (event_options updatedAt meta false false false true)
  | ReasoningEffortEvent effort => apply (binding_patch (with_effort effort (s_binding current))) (event_options updatedAt meta false false false true)
  | LifecycleEvent => reduce_lifecycle
  | TurnStarted =>
      apply (activity_patch (Some event_turn) (Some (default Running (e_status event))) (Some (default Thinking (e_phase event))) None None)
        (event_options updatedAt meta false true false false)
  | UserMessageEvent =>
      apply (activity_patch (Some (canonicalRealtimeTurnId current (e_source event) (e_activeTurnId event) (e_userPrompt event)))
               (Some (default Running (e_status event))) (Some (default Thinking (e_phase event))) (e_userPrompt event) (e_userMessage event))
        (event_options updatedAt meta false true false false)
  | AssistantMessage =>
      let completedFromTranscript := bool_decide (e_source event = TranscriptTail) in
      apply (SessionPatch None None (Some (canonicalRealtimeTurnId current (e_source event) (e_activeTurnId event) None)) None None None
               (Some (default (if completedFromTranscript then Idle else Running) (e_status event)))
               (Some (default (if completedFromTranscript then UnknownPhase else Responding) (e_phase event)))
               (e_text event) (e_text event) (Some (e_itemId event)) (Some None) (Some 0%Z) None None None None None None)
        (event_options updatedAt meta false false false false)
  | ApprovalRequested =>
      apply (SessionPatch None (Some (approve_action (s_actions current))) (Some event_turn) None None None (Some (default Waiting (e_status event)))
               (Some (default AwaitingApproval (e_phase event))) (oor (e_summary event) (e_text event)) None None None None None None None
               (Some (default (Counters 0 0 1) (e_counters event))) None None)
        (event_options updatedAt meta false false false false)
  | ToolActivity tool calls =>
      apply (SessionPatch None None None None None None None None None None None (Some tool) (Some calls) None None None None None None)
        (event_options updatedAt meta false false false true)
  | SubAgentActivity agents =>
      apply (SessionPatch None None None None None None None None None None None None None (Some agents) None None None None None)
        (event_options updatedAt meta false false false true)
  | SessionErrorEvent =>
      apply (SessionPatch None None None None None None None None None None None None None None None (e_error event) None None None)
        (event_options updatedAt meta false false false true)
  | ContextCompactionEvent compaction => reduce_compaction compaction
  | TurnCompletedEvent => reduce_completed
  end.
End Realtime.

(** ** Snapshots *)

Record AiSessionSnapshotInput := SnapshotInput {
  n_agent : jsstring;
  n_source : AiSessionSource;
  n_sourcePriority : option Z;
  n_observedAt : option jsstring;
  n_snapshotVersion : option Z;
  n_binding : session_binding;
  n_actions : option AiSessionActions;
  n_activeTurnId : option jsstring;
  n_userPrompt : option jsstring;
  n_turns : option (list AiSessionTurn);
  n_status : option AiSessionLifecycle;
  n_phase : option AiSessionPhase;
  n_summary : option jsstring;
  n_lastMessage : option jsstring;
  n_lastMessageItemId : option jsstring;
  n_error : option jsstring;
  n_currentTool : option Tool;
  n_toolCallsSinceLastMessage : option Z;
  n_subAgents : option (list AiSessionSubAgent);
  n_replaceActivity : bool
}.

Definition isAuthoritativeAppBindingSnapshot (event : AiSessionSnapshotInput) : bool :=
  bool_decide (n_source event = AppSession)
  || (bool_decide (n_source event = AdapterSnapshot) && bool_decide (n_agent event = js "codex") && bool_decide (b_appId (n_binding event) = Some (js "codex-app-server"))).

Section Snapshot.
Context (newId : jsstring) (current : AiSessionStatus) (event : AiSessionSnapshotInput).

Definition snapshot_meta : TurnMeta := turnMeta (Some (n_source event)) (n_sourcePriority event) None (n_snapshotVersion event) (n_observedAt event).

Definition snapshot_binding : session_binding :=
  let b := s_binding current in
  let n := n_binding event in
  let replaceAppBinding := isAuthoritativeAppBindingSnapshot event in
  Binding
    (if replaceAppBinding then b_appSessionId n else oor (b_appSessionId n) (b_appSessionId b))
    (oor (b_appId n) (b_appId b)) (oor (b_providerSessionId n) (b_providerSessionId b)) (over (b_lineage b) (b_lineage n))
    (over (b_providerMeta n) (b_providerMeta b)) (over (b_modelSelection n) (b_modelSelection b)) (over (b_reasoningEffort n) (b_reasoningEffort b))
    (oor (b_storyId n) (b_storyId b))
    (if replaceAppBinding then b_appBindingKeys n else over (b_appBindingKeys n) (b_appBindingKeys b))
    (oor (b_title n) (b_title b)) (oor (b_cwd n) (b_cwd b)) (oor (b_cwdFolderId n) (b_cwdFolderId b))
    (oor (b_transcriptPath n) (b_transcriptPath b)) (over (b_transcriptSize n) (b_transcriptSize b)).

Definition incoming_turns : list AiSessionTurn := normalizeTurns Date_parse toISOString sha1 (n_turns event) snapshot_meta.
Definition staleActivitySnapshot : bool :=
  snapshotMissingPendingActiveTurn Date_parse toISOString sha1 (s_activeTurnId current) (s_status current) (s_turns current) (Some incoming_turns).

Definition snapshot_next : AiSessionStatus :=
  let stale := staleActivitySnapshot in
  let isActive turn := bool_decide (Some (t_id turn) = s_activeTurnId current) in
  let incomingActiveTurn := if otruthy (s_activeTurnId current) then find isActive incoming_turns else None in
  let ignoreSnapshotTopLevelResponse := n_replaceActivity event && match incomingActiveTurn with Some turn => negb (has_response turn) | None => false end in
  let settled := match n_status event with Some Idle | Some SessionFailed => true | _ => false end in
  let nothing := match incoming_turns with [] => true | _ => false end in
  buildAiSessionPatch newId current
    (SessionPatch (Some snapshot_binding) (over (n_actions event) (s_actions current))
       (Some (nextActiveTurnId (s_activeTurnId current) (n_activeTurnId event) (n_status event) stale))
       (if stale then s_userPrompt current else oor (n_userPrompt event) (s_userPrompt current)) None
       (if stale then s_turns current else n_turns event)
       (Some (if stale then s_status current else default (s_status current) (n_status event)))
       (Some (if stale then s_phase current else default (s_phase current) (n_phase event)))
       (if stale then s_summary current else if ignoreSnapshotTopLevelResponse then None
        else if n_replaceActivity event then n_summary event else oor (n_summary event) (s_summary current))
       (if stale then s_lastMessage current else if ignoreSnapshotTopLevelResponse then None else oor (n_lastMessage event) (s_lastMessage current))
       (Some (if stale then s_lastMessageItemId current else if ignoreSnapshotTopLevelResponse then None else oor (n_lastMessageItemId event) (s_lastMessageItemId current)))
       (Some (if settled then None else if stale then s_currentTool current
              else if n_replaceActivity event then n_currentTool event else over (n_currentTool event) (s_currentTool current)))
       (Some (if stale then s_toolCallsSinceLastMessage current
              else default (if n_replaceActivity event then 0%Z else s_toolCallsSinceLastMessage current) (n_toolCallsSinceLastMessage event)))
       (Some (if stale then s_subAgents current else default (s_subAgents current) (n_subAgents event)))
       None (if stale then s_error current else n_error event) None None None)
    (PatchOptions (Some (default (s_updatedAt current) (n_observedAt event))) false (n_replaceActivity event)
       (n_replaceActivity event && negb stale && nothing && negb (otruthy (n_userPrompt event)) && negb (otruthy (n_summary event)) && negb (otruthy (n_lastMessage event)))
       false (negb stale && n_replaceActivity event && negb (bool_decide (n_status event = Some SessionFailed))) nothing nothing snapshot_meta).

Definition reduceAiSessionSnapshot : AiSessionStatus := if sameAiSessionBusinessState current snapshot_next then current else snapshot_next.
End Snapshot.
End Reducer.
