(* ===== verification/StateReducerSpec.v ===== *)
(** * How a session evolves

    What every event of a provider and every snapshot keeps of a session. *)

From S2P Require Export TurnsSpec StateReducer.

#[global] Arguments messageText : simpl never.
#[global] Arguments compact : simpl never.

Lemma Forall_foldl {A B} (P : A -> Prop) (f : A -> B -> A) l a : (forall a b, P a -> P (f a b)) -> P a -> P (foldl f a l).
Proof. intros Hf. revert a. induction l as [|b l IH]; intros a Ha; simpl; [done|]. by apply IH, Hf. Qed.

Lemma clean_compact max o : clean o -> clean (when_truthy (fun s => compact s max) o).
Proof. intros H. apply when_truthy_clean; [|done]. intros s. apply compact_nonblank. Qed.

Lemma clean_message_text o : clean o -> clean (when_truthy messageText o).
Proof. intros H. apply when_truthy_clean; [|done]. intros s. apply trim_nonblank. Qed.

Lemma turnMeta_clean source priority turnId version observedAt : clean turnId -> clean_meta (turnMeta source priority turnId version observedAt).
Proof.
  intros H. constructor; simpl.
  - by apply clean_compact.
  - apply when_truthy_idemp; [intros s; apply compact_nonblank|intros s; by apply compact_idemp|done].
  - destruct (otruthy observedAt) eqn:E; [unfold oor; by rewrite E|done].
Qed.

Section Evolve.
Context {Lineage ProviderMeta ModelSelection ReasoningEffort Tool AttachmentMeta Reference : Type}.
Context `{EqDecision Lineage, EqDecision ProviderMeta, EqDecision ModelSelection, EqDecision ReasoningEffort, EqDecision Tool,
          EqDecision AttachmentMeta, EqDecision Reference}.
Context (Date_parse : jsstring -> option Z) (toISOString : Z -> jsstring) (sha1 : jsstring -> jsstring)
  (isDateTime : jsstring -> bool) (localeCompare : jsstring -> jsstring -> Z)
  (parseMeta : AttachmentMeta -> option AttachmentMeta) (parseRef : Reference -> option Reference).
Context (Hiso : forall s z, Date_parse s = Some z -> nonblank (toISOString z) /\ Date_parse (toISOString z) = Some z).

Abbreviation session := (@AiSessionStatus Lineage ProviderMeta ModelSelection ReasoningEffort Tool AttachmentMeta Reference).
Abbreviation patch := (@AiSessionPatch Lineage ProviderMeta ModelSelection ReasoningEffort Tool AttachmentMeta Reference).
Abbreviation realtime := (@AiSessionRealtimeInput ModelSelection ReasoningEffort Tool).
Abbreviation snapshot := (@AiSessionSnapshotInput Lineage ProviderMeta ModelSelection ReasoningEffort Tool).
Abbreviation build := (buildAiSessionPatch Date_parse toISOString sha1 isDateTime localeCompare parseMeta parseRef).
Abbreviation on_event := (reduceAiSessionRealtime Date_parse toISOString sha1 isDateTime localeCompare parseMeta parseRef).
Abbreviation on_snapshot := (reduceAiSessionSnapshot Date_parse toISOString sha1 isDateTime localeCompare parseMeta parseRef).
Abbreviation turns_fine := (session_turns_ok Date_parse toISOString sha1).
Abbreviation turns_of s := (default [] (s_turns s)).

(** ** Agents of a session *)

Definition sub_agents_ok (l : list AiSessionSubAgent) : Prop :=
  length l <= 50 /\ NoDup (sa_threadId <$> l) /\ Forall (fun a => sa_status a <> SubAgentCompleted) l.

Lemma normalizeAiSessionSubAgents_ok l : sub_agents_ok (normalizeAiSessionSubAgents Date_parse isDateTime localeCompare l).
Proof.
  unfold normalizeAiSessionSubAgents. set (m := foldl _ _ _). set (sorted := js_sort _ _).
  assert (Hm : map_wf m /\ Forall (fun e => sa_threadId e.2 = e.1 /\ sa_status e.2 <> SubAgentCompleted) m).
  { unfold m. apply Forall_foldl with (P := fun m => map_wf m /\ Forall _ m); [|by split; constructor].
    intros m0 a [Hwf Hall]. unfold add_sub_agent. destruct (parseSubAgent _ a) as [data|]; [|done].
    destruct (isCurrentAiSessionSubAgent data) eqn:Hcur; simpl; [|done]. apply negb_true_iff, bool_decide_eq_false in Hcur.
    assert (Hset : map_wf (mset (sa_threadId data) data m0) /\ Forall (fun e => sa_threadId e.2 = e.1 /\ sa_status e.2 <> SubAgentCompleted) (mset (sa_threadId data) data m0)).
    { split; [by apply map_wf_mset|]. rewrite Forall_forall in Hall |- *. intros [k v] Hin.
      apply (mget_elem k v) in Hin; [|by apply map_wf_mset]. rewrite mget_mset in Hin. destruct (decide _) as [->|_]; [by injection Hin as <-|].
      apply (Hall (k, v)). by apply mget_Some_elem. }
    destruct (mget _ m0); [|done]. by destruct (date_geb _ _ _). }
  assert (Hs : sorted ≡ₚ mvalues m) by apply js_sort_perm. destruct Hm as [Hwf Hall].
  split_and!.
  - rewrite length_take. lia.
  - rewrite fmap_take. apply (sublist_NoDup _ (sa_threadId <$> sorted)); [|apply sublist_take]. rewrite Hs. unfold mvalues. rewrite <- list_fmap_compose.
    rewrite (list_fmap_ext _ fst); [done|]. intros i [k v] Hi. rewrite Forall_forall in Hall. apply (Hall (k, v)). by eapply list_elem_of_lookup_2.
  - apply Forall_take. rewrite Hs. unfold mvalues. apply Forall_fmap. eapply Forall_impl; [exact Hall|]. by intros [k v] [_ ?].
Qed.

(** ** What holds of a session *)

Record session_ok (s : session) : Prop := SessionOk {
  so_turns : turns_fine (turns_of s);
  so_activeTurnId : clean (s_activeTurnId s);
  so_summary : clean (s_summary s);
  so_lastMessage : clean (s_lastMessage s);
  so_lastMessageItemId : clean (s_lastMessageItemId s);
  so_interrupt : (s_actions s ≫= can_interrupt) = Some (is_active (s_status s));
  so_unread : is_active (s_status s) = true -> s_unread s = false;
  so_subAgents : sub_agents_ok (s_subAgents s)
}.

(** What changes only one way. *)
Record evolves (s s' : session) : Prop := Evolves {
  ev_id : s_id s' = s_id s;
  ev_agent : s_agent s' = s_agent s;
  ev_creationSource : s_creationSource s' = s_creationSource s;
  ev_startedAt : s_startedAt s' = s_startedAt s;
  ev_queue : s_queue s' = s_queue s;
  ev_toolCalls : (toolCalls (s_counters s) <= toolCalls (s_counters s'))%Z;
  ev_edits : (edits (s_counters s) <= edits (s_counters s'))%Z;
  ev_approvals : (approvals (s_counters s) <= approvals (s_counters s'))%Z;
  ev_attention : is_active (s_status s) || s_unread s = true -> is_active (s_status s') || s_unread s' = true
}.

#[local] Instance evolves_preorder : PreOrder evolves.
Proof.
  split; [by intros s; constructor; try lia|]. intros s1 s2 s3 [] []. constructor; first [congruence|lia|auto].
Qed.

(** ** Applying a patch *)

(** What the update of the turns takes from a patch. *)
Definition turn_patch (p : patch) (o : ApplyAiSessionPatchOptions) : TurnUpdatePatch :=
  TurnPatch (mjoin (ap_activeTurnId p)) (if o_suppressPromptTurn o then None else ap_userPrompt p) (ap_turns p) (ap_status p)
    (ap_phase p) (ap_summary p) (ap_lastMessage p) (mjoin (ap_lastMessageItemId p)) (mjoin (ap_completedAt p)) (ap_userMessage p).
Definition prior_turns (s : session) (o : ApplyAiSessionPatchOptions) : option (list AiSessionTurn) := if o_replaceTurns o then None else s_turns s.
Definition patched_at (s : session) (o : ApplyAiSessionPatchOptions) : jsstring :=
  if o_preserveUpdatedAt o then s_updatedAt s else default (s_updatedAt s) (o_updatedAt o).

(** A patch as the reducers make it. *)
Record fair (s : session) (p : patch) (o : ApplyAiSessionPatchOptions) : Prop := Fair {
  fa_turns : o_suppressTurnUpdate o = false ->
    patch_ok (turn_patch p o) /\ prompt_fresh Date_parse toISOString sha1 (turn_patch p o) (patched_at s o) (o_meta o) (default [] (prior_turns s o));
  fa_meta : clean_meta (o_meta o);
  fa_activeTurnId a : ap_activeTurnId p = Some a -> clean a;
  fa_summary : clean (ap_summary p);
  fa_lastMessage : clean (ap_lastMessage p);
  fa_lastMessageItemId a : ap_lastMessageItemId p = Some a -> clean a;
  fa_queue : ap_queue p = None;
  fa_unread : ap_unread p = None
}.

Lemma turns_fine_nil : turns_fine [].
Proof. split_and!; [constructor|simpl; lia|constructor]. Qed.

Lemma patched_turns_ok newId s p o :
  nonblank newId -> turns_fine (turns_of s) -> fair s p o -> turns_fine (default [] (patched_turns Date_parse toISOString sha1 newId s p o (patched_at s o))).
Proof.
  intros Hid Hs Hf. unfold patched_turns. destruct (o_suppressTurnUpdate o) eqn:Hsup.
  - destruct (o_replaceTurns o); [|done]. exact turns_fine_nil.
  - destruct (fa_turns _ _ _ Hf Hsup) as [Hp Hfresh]. simpl.
    apply (updateTurns_ok Date_parse toISOString sha1 Hiso (turn_patch p o) (patched_at s o) newId (o_meta o) Hp (fa_meta _ _ _ Hf) Hid (prior_turns s o)); [|done].
    unfold prior_turns. destruct (o_replaceTurns o); [exact turns_fine_nil|done].
Qed.

(** What a patch makes of the summary and of the last message. *)
Lemma shown_clean (f : jsstring -> jsstring) (replace clear starts : bool) given previous :
  (forall s, nonblank s -> nonblank (f s)) -> clean given -> clean previous ->
  clean (if replace then when_truthy f given else if clear then None else if otruthy given then when_truthy f given else if starts then None else previous).
Proof.
  intros Hf Hg Hp. pose proof (when_truthy_clean f given Hf Hg) as Hw. by destruct replace, clear, (otruthy given), starts.
Qed.

Lemma normalizeAiSessionCounters_nonneg c :
  (0 <= toolCalls (normalizeAiSessionCounters c) /\ 0 <= edits (normalizeAiSessionCounters c) /\ 0 <= approvals (normalizeAiSessionCounters c))%Z.
Proof. destruct c as [[]|]; simpl; lia. Qed.

Lemma nextUnread_active current previous status : is_active status = true -> nextUnread current previous status = false.
Proof. by destruct status. Qed.

Lemma nextUnread_attention current previous status :
  is_active previous || current = true -> is_active status || nextUnread current previous status = true.
Proof. by destruct current, previous, status. Qed.

Lemma clean_default (given : option (option jsstring)) previous : (forall a, given = Some a -> clean a) -> clean previous -> clean (default previous given).
Proof. destruct given; simpl; auto. Qed.

Lemma build_ok newId s p o : nonblank newId -> session_ok s -> fair s p o -> session_ok (build newId s p o) /\ evolves s (build newId s p o).
Proof.
  intros Hid [S1 S2 S3 S4 S5 S6 S7 S8] Hf. pose proof (patched_turns_ok newId s p o Hid S1 Hf) as Ht.
  destruct Hf as [_ _ F3 F4 F5 F6 F7 F8]. destruct (normalizeAiSessionCounters_nonneg (ap_counters p)) as (N1 & N2 & N3).
  unfold buildAiSessionPatch. split; constructor; cbn [s_turns s_activeTurnId s_summary s_lastMessage s_lastMessageItemId s_actions s_status s_unread s_subAgents
    s_id s_agent s_creationSource s_startedAt s_queue s_counters toolCalls edits approvals]; rewrite ?F7, ?F8; try done; try lia.
  - by apply clean_default.
  - apply shown_clean; [|done|done]. intros x. apply compact_nonblank.
  - apply shown_clean; [|done|done]. intros x. apply trim_nonblank.
  - by apply clean_default.
  - apply nextUnread_active.
  - destruct (ap_subAgents p); [apply normalizeAiSessionSubAgents_ok|done].
  - apply nextUnread_attention.
Qed.

(** ** Events *)

(** The texts of an event are not blank (the schema trims all but the text of
    a message), and a message without a turn gets an identifier that no turn
    has. *)
Record event_ok (s : session) (e : realtime) : Prop := EventOk {
  eo_activeTurnId : clean (e_activeTurnId e);
  eo_providerTurnId : clean (e_providerTurnId e);
  eo_text : clean (e_text e);
  eo_summary : clean (e_summary e);
  eo_itemId : clean (e_itemId e);
  eo_userMessage m : e_userMessage e = Some m -> nonblank (um_id m);
  eo_compaction c : e_kind e = ContextCompactionEvent c -> nonblank (c_id c);
  eo_fresh : e_kind e = UserMessageEvent -> otruthy (oor (e_activeTurnId e) (s_activeTurnId s)) = false ->
    compact (stableGeneratedTurnId sha1 (messageText (default [] (e_userPrompt e))) (event_updatedAt s e)) 240 ∉ ids (turns_of s)
}.

Lemma normalize_session (s : session) : turns_fine (turns_of s) -> normalizeTurns Date_parse toISOString sha1 (s_turns s) no_meta = turns_of s.
Proof. intros (Hn & Hlen & _). destruct (s_turns s); [by apply normalizeTurns_id|done]. Qed.

Lemma known_turn (s : session) (f : AiSessionTurn -> bool) t :
  turns_fine (turns_of s) -> find f (normalizeTurns Date_parse toISOString sha1 (s_turns s) no_meta) = Some t -> clean_turn t.
Proof.
  intros Hs. rewrite normalize_session by done. intros [Hin _]%find_known_incoming. destruct Hs as [Hn _]. rewrite Forall_forall in Hn. by destruct (Hn t Hin).
Qed.

Lemma patch_prompt_plain p : p_turns p = None -> patch_prompt p = messageText (default [] (p_userPrompt p)).
Proof.
  intros Ht. unfold patch_prompt, activeTurnPrompt. rewrite Ht. by destruct (truthy (patch_activeTurnId p)).
Qed.

Lemma patch_active_clean p : clean (p_activeTurnId p) -> truthy (patch_activeTurnId p) = otruthy (p_activeTurnId p).
Proof.
  intros Hc. unfold clean, patch_activeTurnId in *. destruct (otruthy (p_activeTurnId p)); [|done]. by apply nonblank_truthy, compact_nonblank, Hc.
Qed.

(** A patch without turns. *)
Lemma plain_fair (s : session) (p : patch) o :
  ap_turns p = None -> clean_meta (o_meta o) -> o_replaceTurns o = false ->
  (forall a, ap_activeTurnId p = Some a -> clean a) -> clean (ap_summary p) -> clean (ap_lastMessage p) ->
  (forall a, ap_lastMessageItemId p = Some a -> clean a) -> (forall m, ap_userMessage p = Some m -> nonblank (um_id m)) ->
  ap_queue p = None -> ap_unread p = None ->
  (otruthy (mjoin (ap_activeTurnId p)) = false -> otruthy (ap_userPrompt p) = true ->
   compact (stableGeneratedTurnId sha1 (messageText (default [] (ap_userPrompt p))) (patched_at s o)) 240 ∉ ids (turns_of s)) ->
  fair s p o.
Proof.
  intros Ht Hm Hr Ha Hs Hl Hi Hu Hq Hn Hfresh. assert (Hac : clean (mjoin (ap_activeTurnId p))) by (destruct (ap_activeTurnId p); [by apply Ha|done]).
  split; try done. intros _. split.
  - constructor; simpl; rewrite ?Ht; try done. destruct (ap_lastMessageItemId p); [by apply Hi|done].
  - unfold prompt_fresh. rewrite patch_active_clean by done. rewrite patch_prompt_plain by done. unfold prior_turns. rewrite Hr. simpl. rewrite Ht. intros Hna Hp. split; [|by apply not_elem_of_nil].
    destruct (o_suppressPromptTurn o); [by vm_compute in Hp|]. apply Hfresh; [done|]. unfold otruthy. destruct (ap_userPrompt p) as [[|c x]|]; [by vm_compute in Hp|done|by vm_compute in Hp].
Qed.

Lemma event_turn_clean (s : session) (e : realtime) : session_ok s -> event_ok s e -> clean (event_turn s e).
Proof. intros Hs He. apply clean_oor; [apply He|apply Hs]. Qed.

Lemma event_meta_clean (s : session) (e : realtime) : event_ok s e -> clean_meta (event_meta e).
Proof. intros He. apply turnMeta_clean, He. Qed.

Lemma canonical_clean (s : session) source given prompt :
  session_ok s -> clean given -> clean (canonicalRealtimeTurnId Date_parse toISOString sha1 s source given prompt).
Proof.
  intros Hs Hg. pose proof (clean_compact 240 given Hg) as Hc. pose proof (so_activeTurnId _ Hs) as Ha. unfold canonicalRealtimeTurnId.
  destruct (_ || _); [by apply clean_oor|]. destruct (find _ _) as [turn|]; [|done]. destruct (has_response turn); [done|]. by destruct (_ && _).
Qed.

(** An event that says nothing of a turn finds the active one. *)
Lemma canonical_none (s : session) source given prompt :
  clean given -> otruthy (canonicalRealtimeTurnId Date_parse toISOString sha1 s source given prompt) = false -> otruthy (oor given (s_activeTurnId s)) = false.
Proof.
  intros Hg. pose proof (when_truthy_otruthy (fun id => compact id 240) given (fun x => compact_nonblank x 240) Hg) as Hw.
  unfold canonicalRealtimeTurnId, oor. rewrite <- Hw. destruct (otruthy (when_truthy _ given)) eqn:E1; destruct (otruthy (s_activeTurnId s)) eqn:E2; simpl; rewrite ?orb_true_r; simpl; try congruence.
  rewrite orb_false_r. destruct (_ || _); [unfold oor; rewrite E1; congruence|].
  destruct (find _ _) as [turn|]; [|congruence]. destruct (has_response turn); [congruence|]. by destruct (_ && _); congruence.
Qed.

Lemma compaction_turn_clean turnId updatedAt (e : realtime) c existing :
  nonblank turnId -> clean (e_providerTurnId e) -> nonblank (c_id c) -> (forall t, existing = Some t -> clean_turn t) ->
  clean_turn (compaction_turn turnId updatedAt e c existing).
Proof.
  intros Hid Hp Hc Ht. assert (Hf : forall (f : AiSessionTurn -> option jsstring), (forall t, clean_turn t -> clean (f t)) -> clean (existing ≫= f)).
  { intros f Hf. destruct existing as [t|]; [by apply Hf, Ht|done]. }
  constructor; simpl; [done| | | | | | |].
  - apply clean_oor; [done|]. apply clean_oor; [apply Hf; by intros t []|by intros _].
  - apply Hf. by intros t [].
  - destruct existing as [t|]; [apply (ct_userMessages t), Ht; done|constructor].
  - apply Hf. by intros t [].
  - apply Hf. by intros t [].
  - apply Hf. by intros t [].
  - by constructor.
Qed.

Lemma compaction_fair (s : session) (e : realtime) c existing :
  session_ok s -> event_ok s e -> nonblank (c_id c) -> otruthy (event_turn s e) = true -> (forall t, existing = Some t -> clean_turn t) ->
  fair s (SessionPatch None None None None None (Some [compaction_turn (default [] (event_turn s e)) (event_updatedAt s e) e c existing]) None None None None None
            None None None None None None None None)
    (event_options (event_updatedAt s e) (event_meta e) false false true false).
Proof.
  intros Hs He Hc Ht Hex. split; try done; [|by eapply event_meta_clean]. intros _. split.
  - constructor; simpl; try done. constructor; [|done]. apply compaction_turn_clean; [|apply He|done|done]. by apply (event_turn_clean s e Hs He).
  - intros _ Hp. by vm_compute in Hp.
Qed.

Ltac plain := apply build_ok; [done|done|apply plain_fair; simpl; try done; try (by eapply event_meta_clean)].

Lemma lifecycle_ok newId (s : session) (e : realtime) :
  nonblank newId -> session_ok s -> event_ok s e ->
  let s' := reduce_lifecycle Date_parse toISOString sha1 isDateTime localeCompare parseMeta parseRef newId s e in session_ok s' /\ evolves s s'.
Proof.
  intros Hid Hs He. unfold reduce_lifecycle. destruct (_ && currentActiveTurnIsPending _ _ _ _ _ _); [done|]. plain.
  intros a [= <-]. destruct (is_active _); [by apply event_turn_clean|apply Hs].
Qed.

Lemma completed_ok newId (s : session) (e : realtime) :
  nonblank newId -> session_ok s -> event_ok s e ->
  let s' := reduce_completed Date_parse toISOString sha1 isDateTime localeCompare parseMeta parseRef newId s e in session_ok s' /\ evolves s s'.
Proof.
  intros Hid Hs He. assert (Hr : clean (oor (e_text e) (e_summary e))) by (apply clean_oor; apply He). unfold reduce_completed. plain.
  intros a [= <-]. destruct (_ || _); [done|apply Hs].
Qed.

Lemma compaction_ok newId (s : session) (e : realtime) c :
  nonblank newId -> session_ok s -> event_ok s e -> nonblank (c_id c) ->
  let s' := reduce_compaction Date_parse toISOString sha1 isDateTime localeCompare parseMeta parseRef newId s e c in session_ok s' /\ evolves s s'.
Proof.
  intros Hid Hs He Hc. unfold reduce_compaction. destruct (otruthy (event_turn s e)) eqn:Ht; [|done]. simpl.
  set (existing := find _ _). assert (Hex : forall t, existing = Some t -> clean_turn t) by (intros t; apply known_turn, Hs).
  match goal with |- context [if ?b then s else _] => destruct b end; [done|]. apply build_ok; [done|done|]. by apply compaction_fair.
Qed.

Lemma on_event_ok newId (s : session) (e : realtime) :
  nonblank newId -> session_ok s -> event_ok s e -> session_ok (on_event newId s e) /\ evolves s (on_event newId s e).
Proof.
  intros Hid Hs He. pose proof (event_turn_clean s e Hs He) as Hturn. pose proof (event_meta_clean s e He) as Hmeta.
  pose proof He as [E1 E2 E3 E4 E5 E6 E7 E8].
  assert (Hgen : forall prompt at_, otruthy (Some (stableGeneratedTurnId sha1 prompt at_)) = true) by (intros; apply nonblank_truthy, generated_nonblank).
  unfold reduceAiSessionRealtime. destruct (e_kind e) as [| | | | | | | |tool calls|agents|c|model|effort] eqn:Hk.
  - by apply lifecycle_ok.
  - plain.
    + intros a [= <-]. apply clean_oor; [done|]. intros _. apply generated_nonblank.
    + unfold oor. destruct (otruthy (e_activeTurnId e)) eqn:Ha; [congruence|]. by rewrite Hgen.
  - plain. by intros a [= <-].
  - plain.
    + intros a [= <-]. by apply canonical_clean.
    + intros Hnone Hp. apply canonical_none in Hnone; [|done]. by apply E8.
  - plain; [intros a [= <-]; by apply canonical_clean|by intros a [= <-]].
  - plain; [by intros a [= <-]|by apply clean_oor].
  - by apply completed_ok.
  - plain.
  - plain.
  - plain.
  - apply compaction_ok; try done. by apply E7.
  - plain.
  - plain.
Qed.

(** ** Snapshots *)

Abbreviation stale := (staleActivitySnapshot Date_parse toISOString sha1).
Abbreviation incoming := (incoming_turns Date_parse toISOString sha1).

Record snapshot_ok (s : session) (n : snapshot) : Prop := SnapshotOk {
  sn_activeTurnId : clean (n_activeTurnId n);
  sn_turns : Forall clean_turn (default [] (n_turns n));
  sn_summary : clean (n_summary n);
  sn_lastMessage : clean (n_lastMessage n);
  sn_lastMessageItemId : clean (n_lastMessageItemId n);
  sn_fresh : otruthy (nextActiveTurnId (s_activeTurnId s) (n_activeTurnId n) (n_status n) false) = false ->
    let id := compact (stableGeneratedTurnId sha1 (messageText (default [] (oor (n_userPrompt n) (s_userPrompt s)))) (default (s_updatedAt s) (n_observedAt n))) 240 in
    id ∉ ids (turns_of s) /\ id ∉ ids (incoming n)
}.

Lemma next_active_clean (s : session) (n : snapshot) (b : bool) :
  session_ok s -> snapshot_ok s n -> clean (nextActiveTurnId (s_activeTurnId s) (n_activeTurnId n) (n_status n) b).
Proof.
  intros Hs Hn. pose proof (so_activeTurnId _ Hs) as Ha. pose proof (clean_compact 240 _ (sn_activeTurnId _ _ Hn)) as Hc. unfold nextActiveTurnId, when_truthy in *.
  destruct b; [done|]. by destruct (n_status n) as [[]|]; destruct (otruthy (n_activeTurnId n)).
Qed.

(** A snapshot is only stale while a turn is pending. *)
Lemma stale_active (s : session) (n : snapshot) : stale s n = true -> otruthy (s_activeTurnId s) = true /\ s_status s = Running.
Proof.
  unfold staleActivitySnapshot, snapshotMissingPendingActiveTurn, currentActiveTurnIsPending. destruct (otruthy (s_activeTurnId s)); simpl; [|done].
  case_bool_decide; [done|]. by simpl.
Qed.

(** The patch of a snapshot. *)
Record snapshot_patch (s : session) (n : snapshot) (p : patch) (o : ApplyAiSessionPatchOptions) : Prop := SnapshotPatch {
  np_fair : fair s p o;
  np_at : patched_at s o = default (s_updatedAt s) (n_observedAt n);
  np_active : ap_activeTurnId p = Some (nextActiveTurnId (s_activeTurnId s) (n_activeTurnId n) (n_status n) (stale s n));
  np_stale : stale s n = true ->
    ap_status p = Some (s_status s) /\ ap_phase p = Some (s_phase s) /\ ap_lastMessageItemId p = Some (s_lastMessageItemId s)
    /\ ap_toolCallsSinceLastMessage p = Some (s_toolCallsSinceLastMessage s) /\ o_replaceTurns o = false
}.

Lemma snapshot_next_patch newId (s : session) (n : snapshot) :
  session_ok s -> snapshot_ok s n ->
  exists p o, snapshot_next Date_parse toISOString sha1 isDateTime localeCompare parseMeta parseRef newId s n = build newId s p o /\ snapshot_patch s n p o.
Proof.
  intros Hs Hn. pose proof Hs as [S1 S2 S3 S4 S5 _ _ _]. pose proof Hn as [N1 N2 N3 N4 N5 N6].
  assert (Hsum : clean (oor (n_summary n) (s_summary s))) by by apply clean_oor.
  assert (Hlast : clean (oor (n_lastMessage n) (s_lastMessage s))) by by apply clean_oor.
  assert (Hitem : clean (oor (n_lastMessageItemId n) (s_lastMessageItemId s))) by by apply clean_oor.
  assert (Hmeta : clean_meta (snapshot_meta n)) by by apply turnMeta_clean.
  assert (Hactive : clean (nextActiveTurnId (s_activeTurnId s) (n_activeTurnId n) (n_status n) (stale s n))) by by apply next_active_clean.
  assert (Hturns : Forall clean_turn (default [] (if stale s n then s_turns s else n_turns n))).
  { destruct (stale s n); [|done]. destruct S1 as [S1 _]. eapply Forall_impl; [exact S1|]. by intros t []. }
  unfold snapshot_next. cbv zeta. set (ignore := n_replaceActivity n && _).
  assert (Hshown : clean (if stale s n then s_summary s else if ignore then None else if n_replaceActivity n then n_summary n else oor (n_summary n) (s_summary s)))
    by by destruct (stale s n), ignore, (n_replaceActivity n).
  assert (Hsaid : clean (if stale s n then s_lastMessage s else if ignore then None else oor (n_lastMessage n) (s_lastMessage s)))
    by by destruct (stale s n), ignore.
  assert (Hid' : clean (if stale s n then s_lastMessageItemId s else if ignore then None else oor (n_lastMessageItemId n) (s_lastMessageItemId s)))
    by by destruct (stale s n), ignore.
  eexists _, _. split; [reflexivity|]. split; [|done|done|simpl; intros ->; split_and!; try done; by rewrite andb_false_r].
  split; simpl; try done; [|by intros a [= <-]|by intros a [= <-]].
  intros Hsome. rewrite Hsome, andb_false_r. split.
  - by constructor.
  - intros Hna Hp. pose proof Hna as Hnone. rewrite patch_active_clean in Hnone by done. revert Hp. unfold patch_prompt, activeTurnPrompt. rewrite Hna. intros _.
    unfold prior_turns. simpl in *. destruct (stale s n) eqn:Hst; [apply stale_active in Hst as [Ha _]; discriminate (eq_trans (eq_sym Ha) Hnone)|]. by destruct (N6 Hnone).
Qed.

Lemma snapshot_next_ok newId (s : session) (n : snapshot) :
  nonblank newId -> session_ok s -> snapshot_ok s n ->
  let s' := snapshot_next Date_parse toISOString sha1 isDateTime localeCompare parseMeta parseRef newId s n in session_ok s' /\ evolves s s'.
Proof. intros Hid Hs Hn. destruct (snapshot_next_patch newId s n Hs Hn) as (p & o & -> & []). by apply build_ok. Qed.

Lemma on_snapshot_ok newId (s : session) (n : snapshot) :
  nonblank newId -> session_ok s -> snapshot_ok s n -> session_ok (on_snapshot newId s n) /\ evolves s (on_snapshot newId s n).
Proof.
  intros Hid Hs Hn. unfold reduceAiSessionSnapshot. destruct (sameAiSessionBusinessState _ _); [done|]. by apply snapshot_next_ok.
Qed.

(** ** Reports of a provider *)

Inductive reported : session -> session -> Prop :=
| reported_event newId s e : nonblank newId -> event_ok s e -> reported s (on_event newId s e)
| reported_snapshot newId s n : nonblank newId -> snapshot_ok s n -> reported s (on_snapshot newId s n).

Lemma reported_ok s s' : session_ok s -> reported s s' -> session_ok s' /\ evolves s s'.
Proof. intros Hs Hr. destruct Hr as [newId s e Hid He|newId s n Hid Hn]; [by apply on_event_ok|by apply on_snapshot_ok]. Qed.

Lemma reports_ok s s' : session_ok s -> rtc reported s s' -> session_ok s' /\ evolves s s'.
Proof.
  intros Hs Hr. induction Hr as [s|s s1 s' Hstep _ IH]; [done|].
  destruct (reported_ok _ _ Hs Hstep) as [H1 H2]. destruct (IH H1) as [H3 H4]. split; [done|]. by etrans.
Qed.

(** ** A pending turn *)

Abbreviation pending s := (currentActiveTurnIsPending Date_parse toISOString sha1 (s_activeTurnId s) (s_status s) (s_turns s)).

(** The snapshot neither has the active turn nor answers its prompt. *)
Definition silent (s : session) (n : snapshot) : Prop :=
  forall t, t ∈ incoming n ->
    has_identity (default [] (s_activeTurnId s)) t = false
    /\ (forall a, a ∈ turns_of s -> has_identity (default [] (s_activeTurnId s)) a = true -> otruthy (t_userPrompt a) = true ->
       t_userPrompt t = t_userPrompt a -> has_response t = false).

Lemma silent_stale (s : session) (n : snapshot) : session_ok s -> snapshot_ok s n -> pending s = true -> silent s n -> stale s n = true.
Proof.
  intros Hs Hn Hp Hsil. unfold staleActivitySnapshot, snapshotMissingPendingActiveTurn. rewrite Hp. simpl.
  assert (Hm : clean_meta (snapshot_meta n)) by by apply turnMeta_clean.
  destruct (normalizeTurns_normal Date_parse toISOString sha1 Hiso (n_turns n) (snapshot_meta n) Hm (sn_turns _ _ Hn)) as [Hnorm Hlen].
  rewrite normalizeTurns_id by done. rewrite normalize_session by apply Hs. apply negb_true_iff, not_true_iff_false. intros (t & Hin & Ht)%existsb_exists.
  apply list_elem_of_In in Hin. destruct (Hsil t Hin) as [H1 H2]. rewrite H1 in Ht. simpl in Ht. destruct (turn_at _ _) as [a|] eqn:Ha; [|done].
  apply andb_true_iff in Ht as [Ht _]. apply andb_true_iff in Ht as [Ht Hr]. apply andb_true_iff in Ht as [Htr Heq]. apply bool_decide_eq_true in Heq.
  unfold turn_at in Ha. destruct (find_identity _ _) as [i|] eqn:Hi; [|done]. apply find_index_Some in Hi as (x & Hx & Hid). simpl in Ha.
  assert (a = x) as -> by congruence. rewrite (H2 x) in Hr; [done|by eapply list_elem_of_lookup_2|done|done|done].
Qed.

(** What the active turn of a session is compared under. *)
Definition active_key (s : session) : jsstring := compact (default [] (s_activeTurnId s)) 240.

Lemma stale_snapshot_keeps newId (s : session) (n : snapshot) :
  nonblank newId -> session_ok s -> snapshot_ok s n -> stale s n = true ->
  let s' := on_snapshot newId s n in
  s_status s' = s_status s /\ s_phase s' = s_phase s /\ s_activeTurnId s' = s_activeTurnId s /\ s_lastMessageItemId s' = s_lastMessageItemId s
  /\ s_toolCallsSinceLastMessage s' = s_toolCallsSinceLastMessage s /\ (length (turns_of s') < 50 -> kept (active_key s) (turns_of s) (turns_of s')).
Proof.
  intros Hid Hs Hn Hst s'. unfold s', reduceAiSessionSnapshot. destruct (sameAiSessionBusinessState _ _); [split_and!; try done; intros _; by apply kept_subseteq|].
  destruct (snapshot_next_patch newId s n Hs Hn) as (p & o & -> & [Hf _ Ha Hp]). destruct (Hp Hst) as (P1 & P2 & P3 & P4 & P5).
  rewrite Hst in Ha. simpl in Ha. unfold buildAiSessionPatch. cbn [s_status s_phase s_activeTurnId s_lastMessageItemId s_toolCallsSinceLastMessage s_turns].
  rewrite P1, P2, P3, P4, Ha. split_and!; try done. fold (patched_at s o). unfold patched_turns.
  destruct (o_suppressTurnUpdate o) eqn:Hsup; [rewrite P5; intros _; by apply kept_subseteq|].
  destruct (fa_turns _ _ _ Hf Hsup) as [Hpatch Hfresh]. intros Hlen. apply stale_active in Hst as [Htr _].
  destruct (updateTurns_ok Date_parse toISOString sha1 Hiso (turn_patch p o) (patched_at s o) newId (o_meta o) Hpatch (fa_meta _ _ _ Hf) Hid (prior_turns s o)) as [_ Hkept];
    [unfold prior_turns; rewrite P5; apply Hs|done|].
  unfold prior_turns in Hkept. rewrite P5 in Hkept, Hlen. destruct (Hkept Hlen) as [K _]. cbn [default]. rewrite P5.
  assert (Hkey : patch_activeTurnId (turn_patch p o) = active_key s).
  { unfold patch_activeTurnId, active_key. simpl. rewrite Ha. simpl. by rewrite Htr. }
  by rewrite Hkey in K.
Qed.

Lemma pending_lifecycle newId (s : session) (e : realtime) :
  pending s = true -> e_kind e = LifecycleEvent -> e_status e = Some Idle \/ e_status e = Some SessionFailed -> on_event newId s e = s.
Proof.
  intros Hp Hk Hst. unfold reduceAiSessionRealtime. rewrite Hk. unfold reduce_lifecycle. rewrite Hp. by destruct Hst as [-> | ->].
Qed.

(** C30. Whatever sequence of events and snapshots a provider reports, a session
    stays well formed: its turns keep their normal form and distinct
    identifiers, interrupting is offered exactly while it is running or
    waiting, a session that works is never marked unread, and the agents shown
    are at most fifty, each once and none completed.  Its identity, where it
    came from, when it started and its queue of messages never change, its
    counters never go down, and a session that was working or unread is still
    working or unread: no finished work goes unnoticed. *)
Theorem sessions_evolve s s' : session_ok s -> rtc reported s s' -> session_ok s' /\ evolves s s'.
Proof. apply reports_ok. Qed.

(** While a session waits for the answer to its active turn, a report that
    it is idle or has failed is ignored, and a snapshot that neither has that
    turn nor answers its prompt - one taken before the turn - does not take
    back the status, the phase, the active turn or the tool count, and loses
    none of the turns. *)
Theorem pending_turn_protected newId (s : session) :
  nonblank newId -> session_ok s -> pending s = true ->
  (forall e, e_kind e = LifecycleEvent -> e_status e = Some Idle \/ e_status e = Some SessionFailed -> on_event newId s e = s)
  /\ (forall n, snapshot_ok s n -> silent s n ->
      let s' := on_snapshot newId s n in
      s_status s' = Running /\ s_phase s' = s_phase s /\ s_activeTurnId s' = s_activeTurnId s /\ s_toolCallsSinceLastMessage s' = s_toolCallsSinceLastMessage s
      /\ (length (turns_of s') < 50 -> forall t, t ∈ turns_of s -> exists t', t' ∈ turns_of s' /\ grows (active_key s) t t')).
Proof.
  intros Hid Hs Hp. split; [intros e; by apply pending_lifecycle|]. intros n Hn Hsil. pose proof (silent_stale s n Hs Hn Hp Hsil) as Hst.
  destruct (stale_snapshot_keeps newId s n Hid Hs Hn Hst) as (K1 & K2 & K3 & _ & K4 & K5). apply stale_active in Hst as [_ Hrun]. split_and!; [by rewrite K1|exact K2|exact K3|exact K4|exact K5].
Qed.
End Evolve.

(** ** An example *)

Abbreviation example_session := (@AiSessionStatus unit unit unit unit unit unit unit).
Abbreviation example_binding := (@Binding unit unit unit unit None None None None None None None None None None None None None None).
Abbreviation example_event := (reduceAiSessionRealtime (Lineage:=unit) (ProviderMeta:=unit) (ModelSelection:=unit) (ReasoningEffort:=unit) (Tool:=unit) (AttachmentMeta:=unit)
  (Reference:=unit) example_parse example_toISO example_sha1 (fun _ => true) (fun _ _ => 0%Z) Some Some (js "turn_x")).
Abbreviation example_snapshot := (reduceAiSessionSnapshot (Lineage:=unit) (ProviderMeta:=unit) (ModelSelection:=unit) (ReasoningEffort:=unit) (Tool:=unit) (AttachmentMeta:=unit)
  (Reference:=unit) example_parse example_toISO example_sha1 (fun _ => true) (fun _ _ => 0%Z) Some Some (js "turn_x")).

Definition waiting_session : example_session :=
  Session (js "s1") (js "codex") CreatedByApp example_binding (Some (with_interrupt None true)) (Some (js "turn_1")) (t_userPrompt pending_turn) (Some [pending_turn])
    Running Thinking None None None None 0 [] example_iso example_iso None None (Counters 0 0 0) emptyAiSessionQueue false.

Definition answer_event : AiSessionRealtimeInput :=
  @RealtimeInput unit unit unit AssistantMessage Realtime None (Some example_iso) None (Some (js "turn_1")) None None None (Some (js "Four.")) None None None None None None.
Definition done_event : AiSessionRealtimeInput :=
  @RealtimeInput unit unit unit TurnCompletedEvent Realtime None (Some example_iso) None (Some (js "turn_1")) None None None (Some (js "Four.")) None None None None None None.
Definition idle_event : AiSessionRealtimeInput :=
  @RealtimeInput unit unit unit LifecycleEvent Realtime None (Some example_iso) None None None None None None None (Some Idle) None None None None.
Definition late_snapshot (turns : list AiSessionTurn) : AiSessionSnapshotInput :=
  @SnapshotInput unit unit unit unit unit (js "codex") TranscriptTail None (Some example_iso) None example_binding None None None (Some turns) (Some Idle) None None None None None
    None None None false.

Example finished_session :
  let s := example_event (example_event waiting_session answer_event) done_event in
  (s_status s, s_unread s, s_activeTurnId s, s_lastMessage s, (fun t => (t_id t, t_status t, t_lastMessage t)) <$> default [] (s_turns s))
  = (Idle, true, None, Some (js "Four."), [(js "turn_1", TurnCompleted, Some (js "Four."))]).
Proof. vm_compute. reflexivity. Qed.

Lemma waiting_session_ok : session_ok example_parse example_toISO example_sha1 waiting_session.
Proof.
  constructor; [|by apply clean_check|done|done|done|reflexivity|done|split_and!; [simpl; lia|constructor|constructor]].
  split_and!; [constructor; [exact pending_turn_normal|constructor]|simpl; lia|apply NoDup_singleton].
Qed.

Lemma example_event_ok (s : example_session) (e : AiSessionRealtimeInput) :
  e = answer_event \/ e = done_event -> event_ok example_sha1 s e.
Proof. intros [-> | ->]; constructor; try done; by apply clean_check. Qed.

Lemma sessions_evolve_witness :
  let s := example_event (example_event waiting_session answer_event) done_event in
  session_ok example_parse example_toISO example_sha1 s /\ s_status s = Idle /\ s_unread s = true.
Proof.
  intros s. assert (Hr : rtc (reported example_parse example_toISO example_sha1 (fun _ => true) (fun _ _ => 0%Z) Some Some) waiting_session s).
  { eapply rtc_l; [apply (reported_event _ _ _ _ _ _ _ (js "turn_x") waiting_session answer_event); [reflexivity|apply example_event_ok; by left]|].
    eapply rtc_l; [apply (reported_event _ _ _ _ _ _ _ (js "turn_x") _ done_event); [reflexivity|apply example_event_ok; by right]|]. apply rtc_refl. }
  destruct (sessions_evolve example_parse example_toISO example_sha1 (fun _ => true) (fun _ _ => 0%Z) Some Some example_iso_ok _ _ waiting_session_ok Hr) as [Hok _].
  split; [exact Hok|]. split; vm_compute; reflexivity.
Defined.

Lemma pending_turn_protected_witness :
  example_event waiting_session idle_event = waiting_session
  /\ s_status (example_snapshot waiting_session (late_snapshot [])) = Running
  /\ s_activeTurnId (example_snapshot waiting_session (late_snapshot [])) = Some (js "turn_1").
Proof.
  destruct (pending_turn_protected example_parse example_toISO example_sha1 (fun _ => true) (fun _ _ => 0%Z) Some Some example_iso_ok (js "turn_x") waiting_session
    ltac:(reflexivity) waiting_session_ok ltac:(vm_compute; reflexivity)) as [Hevent Hsnapshot].
  split; [by apply Hevent; [|left]|].
  destruct (Hsnapshot (late_snapshot [])) as (H1 & _ & H3 & _).
  - constructor; try done. intros H. vm_compute in H. intros id. split; [|by apply not_elem_of_nil]. intros Hin. apply list_elem_of_singleton in Hin. vm_compute in Hin. discriminate Hin.
  - intros t Ht. by apply elem_of_nil in Ht.
  - split; [exact H1|exact H3].
Defined.

(** ** A snapshot from before the turn

    When a turn has been started whose prompt has not been reported yet, the
    message of the previous turn is still the last message of the session, and
    a snapshot that does not know the new turn gives it that message: the new
    turn is no longer pending. *)

Definition started_event : AiSessionRealtimeInput :=
  @RealtimeInput unit unit unit TurnStarted Realtime None (Some example_iso) None (Some (js "turn_2")) None None None None None None None None None None.

Lemma stale_snapshot_repeats_answer :
  let answered := example_event (example_event waiting_session answer_event) done_event in
  let started := example_event answered started_event in
  let after := example_snapshot started (late_snapshot (default [] (s_turns answered))) in
  currentActiveTurnIsPending example_parse example_toISO example_sha1 (s_activeTurnId started) (s_status started) (s_turns started) = true
  /\ ((fun t => (t_id t, t_lastMessage t)) <$> default [] (s_turns started)) = [(js "turn_1", Some (js "Four."))]
  /\ ((fun t => (t_id t, t_lastMessage t)) <$> default [] (s_turns after)) = [(js "turn_1", Some (js "Four.")); (js "turn_2", Some (js "Four."))]
  /\ currentActiveTurnIsPending example_parse example_toISO example_sha1 (s_activeTurnId after) (s_status after) (s_turns after) = false.
Proof. split_and!; vm_compute; reflexivity. Qed.
