(* ===== verification/SessionStream.v ===== *)
(** * The stream of session summaries

    How a controlled instance publishes the summaries of its sessions and how
    a follower keeps a copy: the stream part of
    [packages/protocol/src/ai-sessions.ts],
    [packages/controlled-instance/src/web/ai-session-authority-events.ts], the
    publishing part of [packages/controlled-instance/src/web/server.ts], and
    what [packages/node-agent/src/events.ts] keeps to replay.  A summary is
    the JSON text that is compared and sent; what the stream does not look at
    is [sm_content].  Timestamps are milliseconds; the trace identifier, the
    node and the reason of an event are only logged and left out. *)

From S2P Require Export Hierarchy.

#[export] Instance lineage_eq_dec : EqDecision AiSessionLineage.
Proof. solve_decision. Defined.

Section Stream.
Context {Content : Type} `{EqDecision Content}.

Record AiSessionSummary := Summary {
  sm_id : jsstring;
  sm_status : AiSessionLifecycle;
  sm_lineage : option AiSessionLineage;
  sm_content : Content
}.
#[export] Instance summary_eq_dec : EqDecision AiSessionSummary.
Proof. solve_decision. Defined.

Record AiSessionsSnapshot := Snapshot {
  runningCount : nat;
  waitingCount : nat;
  staleCount : nat;
  sessions : list AiSessionSummary;
  sn_updatedAt : Z
}.

(** [AiSessionsStateSchema]: the copy of a follower. *)
Record AiSessionsState := State {
  st_streamId : jsstring;
  st_revision : nat;
  st_lastEventAt : Z;
  st_snapshot : AiSessionsSnapshot
}.

Record AiSessionEventMeta := EventMeta {
  em_streamId : jsstring;
  em_instanceId : jsstring;
  em_revision : nat;
  em_previousRevision : option nat;
  em_generatedAt : Z
}.

Inductive AiSessionStreamEvent :=
| SnapshotEvent (meta : AiSessionEventMeta) (snapshot : AiSessionsSnapshot)
| PatchEvent (meta : AiSessionEventMeta) (upserted : list AiSessionSummary) (removed : list jsstring)
| RemovedEvent (meta : AiSessionEventMeta) (sessionIds : list jsstring).

Definition event_meta (event : AiSessionStreamEvent) : AiSessionEventMeta :=
  match event with SnapshotEvent meta _ | PatchEvent meta _ _ | RemovedEvent meta _ => meta end.

Inductive AiSessionStreamApplyResult :=
| Applied (projection : AiSessionsState)
| Duplicate (projection : AiSessionsState)
| Stale (projection : AiSessionsState)
| Gap (projection : AiSessionsState) (expectedRevision receivedRevision : nat)
| SnapshotRequired (projection : option AiSessionsState) (streamId : jsstring).

(** ** What older consumers get *)

(** [projectSessionLineageForConsumer]: without [subagents] the relation of a
    subagent to its parent is left out. *)
Definition projectSessionLineageForConsumer (subagents : bool) (session : AiSessionSummary) : AiSessionSummary :=
  if subagents then session else
  match sm_lineage session with
  | Some (LineageSubagent _) => Summary (sm_id session) (sm_status session) None (sm_content session)
  | _ => session
  end.

Definition projectAiSessionsSnapshotForConsumer (subagents : bool) (snapshot : AiSessionsSnapshot) : AiSessionsSnapshot :=
  if subagents then snapshot else
  Snapshot (runningCount snapshot) (waitingCount snapshot) (staleCount snapshot) (projectSessionLineageForConsumer subagents <$> sessions snapshot)
    (sn_updatedAt snapshot).

Definition projectAiSessionStreamEventForConsumer (subagents : bool) (event : AiSessionStreamEvent) : AiSessionStreamEvent :=
  if subagents then event else
  match event with
  | SnapshotEvent meta snapshot => SnapshotEvent meta (projectAiSessionsSnapshotForConsumer subagents snapshot)
  | PatchEvent meta upserted removed => PatchEvent meta (projectSessionLineageForConsumer subagents <$> upserted) removed
  | RemovedEvent _ _ => event
  end.

(** ** Following a stream *)

(** [new Map(sessions.map((session) => [session.id, session]))]. *)
Definition set_session (byId : jsmap jsstring AiSessionSummary) (session : AiSessionSummary) : jsmap jsstring AiSessionSummary :=
  mset (sm_id session) session byId.
Definition sessions_by_id (l : list AiSessionSummary) : jsmap jsstring AiSessionSummary := foldl set_session [] l.

Definition has_status (status : AiSessionLifecycle) (session : AiSessionSummary) : bool := bool_decide (sm_status session = status).
Definition count_status (status : AiSessionLifecycle) (l : list AiSessionSummary) : nat := length (filter (fun s => has_status status s = true) l).

(** What an event that changes sessions makes of a list of them. *)
Definition change_sessions (event : AiSessionStreamEvent) (l : list AiSessionSummary) : list AiSessionSummary :=
  let byId := sessions_by_id l in
  mvalues (match event with
           | PatchEvent _ upserted removed => foldl (fun m sessionId => mdelete sessionId m) (foldl set_session byId upserted) removed
           | RemovedEvent _ sessionIds => foldl (fun m sessionId => mdelete sessionId m) byId sessionIds
           | SnapshotEvent _ _ => byId
           end).

Definition applyAiSessionStreamEvent (current : option AiSessionsState) (event : AiSessionStreamEvent) : AiSessionStreamApplyResult :=
  let meta := event_meta event in
  let same_stream := match current with Some c => bool_decide (st_streamId c = em_streamId meta) | None => false end in
  match event, current with
  | SnapshotEvent _ snapshot, _ =>
      let applied := Applied (State (em_streamId meta) (em_revision meta) (em_generatedAt meta) snapshot) in
      match current with
      | Some c =>
          if same_stream && (em_revision meta =? st_revision c) then Duplicate c else
          if same_stream && (em_revision meta <? st_revision c) then Stale c else applied
      | None => applied
      end
  | _, None => SnapshotRequired current (em_streamId meta)
  | _, Some c =>
      if negb same_stream then SnapshotRequired current (em_streamId meta) else
      if em_revision meta =? st_revision c then Duplicate c else
      if em_revision meta <? st_revision c then Stale c else
      if negb (em_revision meta =? st_revision c + 1) || negb (bool_decide (em_previousRevision meta = Some (st_revision c)))
      then Gap c (st_revision c + 1) (em_revision meta) else
      let values := change_sessions event (sessions (st_snapshot c)) in
      Applied (State (em_streamId meta) (em_revision meta) (em_generatedAt meta)
        (Snapshot (count_status LcRunning values) (count_status LcWaiting values) (staleCount (st_snapshot c)) values (em_generatedAt meta)))
  end.

(** ** Publishing *)

Inductive AiSessionAuthorityChange :=
| ChangedSnapshot (snapshot : AiSessionsSnapshot)
| ChangedPatch (upserted : list AiSessionSummary) (removed : list jsstring)
| Unchanged.

Definition projectAiSessionAuthorityChange (previous : option AiSessionsSnapshot) (next : AiSessionsSnapshot) : AiSessionAuthorityChange :=
  match previous with
  | None => ChangedSnapshot next
  | Some previous =>
      let previousById := sessions_by_id (sessions previous) in
      let nextById := sessions_by_id (sessions next) in
      let upserted := filter (fun session => mget (sm_id session) previousById <> Some session) (sessions next) in
      let removed := sm_id <$> filter (fun session => mhas (sm_id session) nextById = false) (sessions previous) in
      match upserted, removed with [], [] => Unchanged | _, _ => ChangedPatch upserted removed end
  end.

Definition AI_SESSION_DELTA_RETENTION_MS : Z := 60 * 60 * 1000.

(** The stream of an instance since it was started, and the events kept. *)
Record publisher := Publisher {
  pb_streamId : jsstring;
  pb_instanceId : jsstring;
  pb_revision : nat;
  pb_last : option AiSessionsSnapshot;
  pb_history : list (AiSessionStreamEvent * Z)
}.

Definition new_publisher (streamId instanceId : jsstring) : publisher := Publisher streamId instanceId 0 None [].

Fixpoint prune_events (cutoff : Z) (history : list (AiSessionStreamEvent * Z)) : list (AiSessionStreamEvent * Z) :=
  match history with
  | (event, createdAt) :: rest => if (createdAt <? cutoff)%Z then prune_events cutoff rest else history
  | [] => []
  end.
Definition pruneAiSessionEventHistory (now : Z) (p : publisher) : publisher :=
  Publisher (pb_streamId p) (pb_instanceId p) (pb_revision p) (pb_last p) (prune_events (now - AI_SESSION_DELTA_RETENTION_MS) (pb_history p)).

Definition createAiSessionMeta (now : Z) (revision : nat) (p : publisher) : AiSessionEventMeta :=
  EventMeta (pb_streamId p) (pb_instanceId p) revision (if 0 <? revision then Some (revision - 1) else None) now.

(** The sessions of the moment; the event that is published, if any. *)
Definition publishAiSessionSnapshot (now : Z) (snapshot : AiSessionsSnapshot) (p : publisher) : publisher * option AiSessionStreamEvent :=
  let publish event :=
    (pruneAiSessionEventHistory now
       (Publisher (pb_streamId p) (pb_instanceId p) (pb_revision p + 1) (Some snapshot) (pb_history p ++ [(event, now)])), Some event) in
  let meta := createAiSessionMeta now (pb_revision p + 1) p in
  match projectAiSessionAuthorityChange (pb_last p) snapshot with
  | Unchanged => (p, None)
  | ChangedSnapshot snapshot => publish (SnapshotEvent meta snapshot)
  | ChangedPatch upserted removed => publish (PatchEvent meta upserted removed)
  end.

Record AiSessionDeltaResponse := DeltaResponse {
  dr_streamId : jsstring;
  dr_instanceId : jsstring;
  dr_sinceRevision : nat;
  dr_latestRevision : nat;
  dr_earliestRetainedRevision : nat;
  dr_syncRequired : bool;
  dr_events : list AiSessionStreamEvent
}.

(** The answer made of the events that are kept, of a producer or of a
    follower that passes them on. *)
Definition delta_response (streamId instanceId : jsstring) (latestRevision : nat) (history : list AiSessionStreamEvent) (askedStreamId : jsstring) (sinceRevision : nat)
  : AiSessionDeltaResponse :=
  let earliest := match history with event :: _ => em_revision (event_meta event) | [] => latestRevision + 1 end in
  let respond := DeltaResponse streamId instanceId sinceRevision latestRevision earliest in
  if negb (bool_decide (askedStreamId = streamId)) || (latestRevision <? sinceRevision) then respond true [] else
  if sinceRevision =? latestRevision then respond false [] else
  let after := filter (fun event => sinceRevision < em_revision (event_meta event)) history in
  match after with
  | event :: _ => if em_revision (event_meta event) =? sinceRevision + 1 then respond false after else respond true []
  | [] => respond true []
  end.

Definition aiSessionDeltaSince (now : Z) (streamId : jsstring) (sinceRevision : nat) (p : publisher) : publisher * AiSessionDeltaResponse :=
  let p := pruneAiSessionEventHistory now p in
  (p, delta_response (pb_streamId p) (pb_instanceId p) (pb_revision p) (pb_history p).*1 streamId sinceRevision).

(** [GET /api/ai-sessions/state]; [live] are the sessions of the moment. *)
Definition aiSessionsState (subagents : bool) (startedAt : Z) (live : AiSessionsSnapshot) (p : publisher) : AiSessionsState :=
  State (pb_streamId p) (pb_revision p) (match last (pb_history p) with Some (event, _) => em_generatedAt (event_meta event) | None => startedAt end)
    (projectAiSessionsSnapshotForConsumer subagents (default live (pb_last p))).

(** ** What a node agent keeps *)

Definition recordAiSessionEvent (projections : jsmap jsstring AiSessionsState) (instanceId : jsstring) (event : AiSessionStreamEvent) : jsmap jsstring AiSessionsState :=
  match applyAiSessionStreamEvent (mget instanceId projections) event with
  | Applied projection | Duplicate projection | Stale projection => mset instanceId projection projections
  | _ => projections
  end.

(** The event an output that joins is sent for an instance. *)
Definition replaySessionAuthority (instanceId : jsstring) (projection : AiSessionsState) : AiSessionStreamEvent :=
  SnapshotEvent (EventMeta (st_streamId projection) instanceId (st_revision projection) None (st_lastEventAt projection)) (st_snapshot projection).
End Stream.

#[global] Arguments AiSessionSummary : clear implicits.
#[global] Arguments AiSessionsSnapshot : clear implicits.
#[global] Arguments AiSessionsState : clear implicits.
#[global] Arguments AiSessionStreamEvent : clear implicits.
#[global] Arguments publisher : clear implicits.
