(* ===== verification/SessionStreamSpec.v ===== *)
(** * What a copy of a session stream shows

    The relation between a follower's copy and what the instance published
    ([shows]), which events are honest about a stream, and the lemmas that
    applying honest events keeps a copy true.  [subagents] is false where
    some consumer on the way did not ask for the subagents, so that a session
    may be shown without its relation to its parent. *)

From S2P Require Export SessionStream.

Section StreamFacts.
Context {Content : Type} `{EqDecision Content}.
Abbreviation summary := (AiSessionSummary Content).
Abbreviation event := (AiSessionStreamEvent Content).
Abbreviation state := (AiSessionsState Content).

(** ** Sessions by their identifier *)

Definition look (l : list summary) (id : jsstring) : option summary := mget id (sessions_by_id l).

Definition ids (l : list summary) : list jsstring := sm_id <$> l.

(** The entries of such a map are under their own identifiers. *)
Definition keyed (m : jsmap jsstring summary) : Prop := map_wf m /\ forall k (s : summary), (k, s) ∈ m -> k = sm_id s.

Lemma mset_elem k (s : summary) (m : jsmap jsstring summary) k' s' : (k', s') ∈ mset k s m -> (k', s') = (k, s) \/ (k', s') ∈ m.
Proof.
  induction m as [|[a b] m IH]; simpl; [rewrite list_elem_of_singleton; auto|].
  case_decide; rewrite !elem_of_cons; naive_solver.
Qed.

Lemma keyed_nil : keyed [].
Proof. split; [constructor|]. intros k s Hin. by apply elem_of_nil in Hin. Qed.

Lemma keyed_set m (s : summary) : keyed m -> keyed (set_session m s).
Proof.
  intros [Hwf Hk]. split; [by apply map_wf_mset|]. intros k s' Hin. apply mset_elem in Hin as [[= -> ->]|Hin]; [done|by apply Hk].
Qed.

Lemma keyed_delete m k : keyed m -> keyed (mdelete k m).
Proof. intros [Hwf Hk]. split; [by apply map_wf_mdelete|]. intros k' s [_ Hin]%mdelete_elem. by apply Hk. Qed.

Lemma keyed_sets l m : keyed m -> keyed (foldl set_session m l).
Proof. revert m. induction l as [|s l IH]; intros m Hm; simpl; [done|]. by apply IH, keyed_set. Qed.

Lemma keyed_deletes l m : keyed m -> keyed (foldl (fun m sessionId => mdelete sessionId m) m l).
Proof. revert m. induction l as [|s l IH]; intros m Hm; simpl; [done|]. by apply IH, keyed_delete. Qed.

#[local] Hint Resolve keyed_nil keyed_sets keyed_deletes : core.

Lemma keyed_by_id l : keyed (sessions_by_id l).
Proof. unfold sessions_by_id. auto. Qed.

Lemma ids_mvalues m : keyed m -> ids (mvalues m) = mkeys m.
Proof.
  intros [_ Hk]. unfold ids, mvalues, mkeys. induction m as [|[k s] m IH]; [done|]. csimpl. f_equal.
  - symmetry. apply Hk. by left.
  - apply IH. intros k' s' Hin. apply Hk. by right.
Qed.

Lemma NoDup_ids_mvalues m : keyed m -> NoDup (ids (mvalues m)).
Proof. intros Hm. rewrite ids_mvalues by done. apply Hm. Qed.

Lemma mget_sets l : forall m id,
  mget id (foldl set_session m l) = match look l id with Some s => Some s | None => mget id m end.
Proof.
  unfold look, sessions_by_id. induction l as [|s l IH] using rev_ind; intros m id; [done|].
  rewrite !foldl_app. simpl. unfold set_session at 1 3. rewrite !mget_mset. case_decide; [done|]. apply IH.
Qed.

Lemma mget_deletes (l : list jsstring) : forall (m : jsmap jsstring summary) id,
  mget id (foldl (fun m sessionId => mdelete sessionId m) m l) = if decide (id ∈ l) then None else mget id m.
Proof.
  induction l as [|k l IH]; intros m id; cbn [foldl].
  - by destruct (decide (id ∈ [])) as [Hin%elem_of_nil|].
  - rewrite IH, mget_mdelete. destruct (decide (id ∈ l)), (decide (id = k)), (decide (id ∈ k :: l)); set_solver.
Qed.

Lemma look_Some_elem l id s : look l id = Some s -> s ∈ l /\ sm_id s = id.
Proof.
  unfold look, sessions_by_id. intros Hs. split.
  - assert (Hall : forall m, (forall k s', (k, s') ∈ m -> s' ∈ l) -> forall l', (forall s', s' ∈ l' -> s' ∈ l) ->
              forall k s', (k, s') ∈ foldl set_session m l' -> s' ∈ l).
    { intros m Hm l'. revert m Hm. induction l' as [|x l' IH]; intros m Hm Hl' k s' Hin; simpl in Hin; [by eapply Hm|].
      eapply (IH (set_session m x)); [|set_solver|exact Hin].
      intros k' y [[= -> ->]|Hin']%mset_elem; [apply Hl'; by left|by eapply Hm]. }
    eapply (Hall [] ltac:(set_solver) l ltac:(done)), mget_Some_elem, Hs.
  - apply mget_Some_elem in Hs. symmetry. by apply (keyed_by_id l).
Qed.

Lemma look_None l id : look l id = None <-> id ∉ ids l.
Proof.
  unfold look, ids. induction l as [|s l IH] using rev_ind; [split; [intros _; apply not_elem_of_nil|done]|].
  unfold sessions_by_id in *. rewrite foldl_app, fmap_app, not_elem_of_app. simpl. rewrite list_elem_of_singleton.
  unfold set_session at 1. rewrite mget_mset. case_decide; naive_solver.
Qed.

(** Without duplicates, it finds the session. *)
Lemma look_elem l s : NoDup (ids l) -> s ∈ l -> look l (sm_id s) = Some s.
Proof.
  unfold look. induction l as [|t l IH] using rev_ind; [by intros _ ?%elem_of_nil|].
  unfold sessions_by_id in *. unfold ids in *. rewrite foldl_app, fmap_app, NoDup_app. simpl.
  intros (Hl & Hd & _) [Hs|Hs%list_elem_of_singleton]%elem_of_app; unfold set_session at 1.
  - rewrite mget_mset_ne; [by apply IH|]. intros Heq. apply (Hd (sm_id s)); [by apply list_elem_of_fmap_2|rewrite Heq; by left].
  - subst. apply mget_mset_eq.
Qed.

Lemma look_spec l id s : NoDup (ids l) -> look l id = Some s <-> s ∈ l /\ sm_id s = id.
Proof. intros Hl. split; [apply look_Some_elem|]. intros [Hs <-]. by apply look_elem. Qed.

Lemma look_mvalues m id : keyed m -> look (mvalues m) id = mget id m.
Proof.
  intros Hm. apply option_eq. intros s. rewrite look_spec by (by apply NoDup_ids_mvalues).
  rewrite mget_elem by apply Hm. split.
  - intros [Hs <-]. unfold mvalues in Hs. apply list_elem_of_fmap in Hs as ([k s'] & -> & Hs). simpl. by rewrite <- (proj2 Hm _ _ Hs).
  - intros Hs. split; [unfold mvalues; by apply (list_elem_of_fmap_2 snd _ _ Hs)|]. symmetry. by apply (proj2 Hm).
Qed.

(** ** Copies *)

(** How a session of the instance may be shown. *)
Definition same_shown (subagents : bool) (shown published : summary) : Prop :=
  shown = published \/ (subagents = false /\ shown = projectSessionLineageForConsumer false published).

(** The sessions [shown], in any order, are those that were published. *)
Definition copy_of (subagents : bool) (shown published : list summary) : Prop :=
  exists l, shown ≡ₚ l /\ Forall2 (same_shown subagents) l published.

Lemma same_shown_id subagents s t : same_shown subagents s t -> sm_id s = sm_id t.
Proof. intros [->|[_ ->]]; [done|]. unfold projectSessionLineageForConsumer. by repeat case_match. Qed.

Lemma same_shown_true s t : same_shown true s t -> s = t.
Proof. intros [?|[? _]]; done. Qed.

Lemma flatten_idem (t : summary) : projectSessionLineageForConsumer false (projectSessionLineageForConsumer false t) = projectSessionLineageForConsumer false t.
Proof. unfold projectSessionLineageForConsumer. destruct t as [i st [[]|] c]; done. Qed.

Lemma same_shown_flatten s t : same_shown false s t -> same_shown false (projectSessionLineageForConsumer false s) t.
Proof. intros [->|[_ ->]]; right; [done|]. by rewrite flatten_idem. Qed.

Lemma shown_refl subagents l : Forall2 (same_shown subagents) l l.
Proof. induction l; constructor; [by left|done]. Qed.

Lemma copy_of_refl subagents l : copy_of subagents l l.
Proof. exists l. split; [done|apply shown_refl]. Qed.

Lemma copy_of_ids subagents l t : copy_of subagents l t -> ids l ≡ₚ ids t.
Proof.
  intros (l' & Hp & Hf). unfold ids. rewrite Hp. match goal with |- ?a ≡ₚ ?b => enough (a = b) as -> by done end. clear Hp l. induction Hf as [|x y l' t Hxy Hf IH]; [done|]. csimpl.
  f_equal; [by eapply same_shown_id|exact IH].
Qed.

Lemma copy_of_exact l t : copy_of true l t -> l ≡ₚ t.
Proof.
  intros (l' & Hp & Hf). rewrite Hp. match goal with |- ?a ≡ₚ ?b => enough (a = b) as -> by done end. clear Hp. induction Hf as [|x y l' t Hxy Hf IH]; [done|]. f_equal; [by apply same_shown_true|done].
Qed.

(** The sessions of [l] in the order of [t]. *)
Lemma ids_in_order l t : sublist (ids (omap (fun x => look l (sm_id x)) t)) (ids t).
Proof.
  unfold ids. induction t as [|y t IH]; [constructor|]. csimpl. destruct (look l (sm_id y)) as [x|] eqn:Ex; [|by constructor].
  apply look_Some_elem in Ex as [_ <-]. by constructor.
Qed.

(** Session by session. *)
Lemma copy_of_look subagents l t : NoDup (ids l) -> NoDup (ids t) ->
  copy_of subagents l t <-> forall id, option_Forall2 (same_shown subagents) (look l id) (look t id).
Proof.
  intros Hl Ht. split.
  - intros (l' & Hp & Hf) id. assert (Hids := copy_of_ids _ _ _ (ex_intro _ l' (conj Hp Hf))).
    destruct (look l id) as [s|] eqn:Es.
    + apply look_Some_elem in Es as [Hs <-]. rewrite Hp in Hs. apply list_elem_of_lookup in Hs as [i Hi].
      destruct (Forall2_lookup_l _ _ _ _ _ Hf Hi) as (y & Hy & Hsy). rewrite (same_shown_id _ _ _ Hsy).
      rewrite look_elem by (done || by eapply list_elem_of_lookup_2). by constructor.
    + apply look_None in Es. destruct (look t id) eqn:Et; [|constructor].
      destruct Es. rewrite Hids. apply look_Some_elem in Et as [Ht' <-]. by apply list_elem_of_fmap_2.
  - intros Hlook. exists (omap (fun x => look l (sm_id x)) t). split.
    + apply NoDup_Permutation.
      * by apply NoDup_fmap_1 in Hl.
      * apply (NoDup_fmap_1 sm_id). eapply sublist_NoDup; [exact Ht|exact (ids_in_order l t)].
      * intros s. rewrite list_elem_of_omap. split.
        -- intros Hs. specialize (Hlook (sm_id s)). rewrite look_elem in Hlook by done. inversion Hlook as [x y Hxy Hx Hy|]; subst.
           symmetry in Hy. apply look_Some_elem in Hy as [Hy Hid]. exists y. split; [done|]. rewrite Hid. by apply look_elem.
        -- intros (x & Hx & Hs). by apply look_Some_elem in Hs as [Hs _].
    + assert (Hall : forall y, y ∈ t -> exists x, look l (sm_id y) = Some x /\ same_shown subagents x y).
      { intros y Hy. specialize (Hlook (sm_id y)). rewrite (look_elem t) in Hlook by done. inversion Hlook; subst. eauto. }
      clear - Hall. induction t as [|y t IH]; [constructor|]. csimpl. destruct (Hall y ltac:(by left)) as (x & -> & Hxy).
      constructor; [done|]. apply IH. intros z Hz. apply Hall. by right.
Qed.

(** ** What a patch says *)

Definition diff_upserted (previous next : list summary) : list summary :=
  filter (fun session => mget (sm_id session) (sessions_by_id previous) <> Some session) next.
Definition diff_removed (previous next : list summary) : list jsstring :=
  sm_id <$> filter (fun session => mhas (sm_id session) (sessions_by_id next) = false) previous.

Lemma ids_filter (P : summary -> Prop) `{forall x, Decision (P x)} l : sublist (ids (filter P l)) (ids l).
Proof. unfold ids. apply fmap_sublist, sublist_filter. Qed.

Lemma NoDup_ids_filter (P : summary -> Prop) `{forall x, Decision (P x)} l : NoDup (ids l) -> NoDup (ids (filter P l)).
Proof. intros Hl. eapply sublist_NoDup; [exact Hl|apply ids_filter]. Qed.

Lemma look_upserted previous next id : NoDup (ids next) ->
  look (diff_upserted previous next) id = s ← look next id; if decide (look previous id = Some s) then None else Some s.
Proof.
  intros Hn. apply option_eq. intros s. rewrite look_spec by (by apply NoDup_ids_filter). unfold diff_upserted.
  rewrite list_elem_of_filter, bind_Some. split.
  - intros [[Hne Hs] <-]. exists s. rewrite look_elem by done. split; [done|]. by rewrite decide_False.
  - intros (s' & [Hs' Hid]%look_Some_elem & Hs). case_decide as Hd; simplify_eq. auto.
Qed.

Lemma elem_removed previous next id : NoDup (ids previous) ->
  id ∈ diff_removed previous next <-> is_Some (look previous id) /\ look next id = None.
Proof.
  intros Hp. unfold diff_removed, mhas. rewrite list_elem_of_fmap. fold (look next id). split.
  - intros (s & -> & [Hs Hin]%list_elem_of_filter). rewrite look_elem by done. split; [done|].
    unfold look. by destruct (mget (sm_id s) (sessions_by_id next)).
  - intros [[s [Hs <-]%look_Some_elem] Hn]. exists s. split; [done|]. apply list_elem_of_filter. split; [|done].
    unfold look in Hn. by rewrite Hn.
Qed.

(** A list that is shown pointwise is shown session by session. *)
Lemma shown_look subagents l t id : Forall2 (same_shown subagents) l t -> NoDup (ids t) -> option_Forall2 (same_shown subagents) (look l id) (look t id).
Proof.
  intros Hf Ht. assert (Hc : copy_of subagents l t) by (by exists l). apply copy_of_look; [|done|done].
  by rewrite (copy_of_ids _ _ _ Hc).
Qed.

(** Following a patch: from a copy of what was published before to a copy of
    what is published now. *)
Lemma change_patch subagents meta upserted l previous next :
  NoDup (ids previous) -> NoDup (ids next) -> copy_of subagents l previous ->
  Forall2 (same_shown subagents) upserted (diff_upserted previous next) ->
  copy_of subagents (change_sessions (PatchEvent meta upserted (diff_removed previous next)) l) next.
Proof.
  intros Hp Hn Hl Hu. assert (Hnl : NoDup (ids l)) by (by rewrite (copy_of_ids _ _ _ Hl)).
  assert (Hk : keyed (foldl (fun m sessionId => mdelete sessionId m) (foldl set_session (sessions_by_id l) upserted) (diff_removed previous next)))
    by (apply keyed_deletes, keyed_sets, keyed_by_id).
  unfold change_sessions. apply copy_of_look; [by apply NoDup_ids_mvalues|done|]. intros id. rewrite look_mvalues by done.
  rewrite mget_deletes, mget_sets. fold (look l id).
  assert (Hold := proj1 (copy_of_look _ _ _ Hnl Hp) Hl id). assert (Hnew := shown_look _ _ _ id Hu (NoDup_ids_filter _ _ Hn)).
  rewrite look_upserted in Hnew by done.
  destruct (decide (id ∈ diff_removed previous next)) as [Hr|Hr]; rewrite elem_removed in Hr by done.
  - destruct Hr as [_ ->]. constructor.
  - destruct (look next id) as [s|] eqn:Es; simpl in Hnew.
    + case_decide as Hd; inversion Hnew; subst; [rewrite Hd in Hold; inversion Hold; subst|]; by constructor.
    + inversion Hnew; subst. inversion Hold as [x y Hxy Hx Hy|Hx Hy]; subst; [|constructor].
      exfalso. apply Hr. split; [by rewrite <- Hy|done].
Qed.

(** ** What was published

    For an instance and a stream, the lists of sessions of the revisions from
    1 on. *)

Definition history := jsstring -> jsstring -> list (list summary).

Definition at_revision (l : list (list summary)) (revision : nat) : option (list summary) :=
  match revision with 0 => None | S r => l !! r end.

Definition well_formed (published : history) : Prop := forall instanceId streamId l, l ∈ published instanceId streamId -> NoDup (ids l).

(** A copy at revision 0 is of nothing published. *)
Definition shows (subagents : bool) (published : history) (instanceId streamId : jsstring) (revision : nat) (l : list summary) : Prop :=
  revision = 0 \/ exists truth, at_revision (published instanceId streamId) revision = Some truth /\ copy_of subagents l truth.

Definition true_state (subagents : bool) (published : history) (instanceId : jsstring) (s : state) : Prop :=
  shows subagents published instanceId (st_streamId s) (st_revision s) (sessions (st_snapshot s)).

Definition honest (subagents : bool) (published : history) (ev : event) : Prop :=
  match ev with
  | SnapshotEvent meta snapshot => shows subagents published (em_instanceId meta) (em_streamId meta) (em_revision meta) (sessions snapshot)
  | PatchEvent meta upserted removed =>
      exists revision previous next,
        em_revision meta = S revision /\ em_previousRevision meta = Some revision /\
        at_revision (published (em_instanceId meta) (em_streamId meta)) revision = Some previous /\
        at_revision (published (em_instanceId meta) (em_streamId meta)) (S revision) = Some next /\
        Forall2 (same_shown subagents) upserted (diff_upserted previous next) /\ removed = diff_removed previous next
  | RemovedEvent _ _ => False
  end.

(** More may have been published since. *)
Definition extends (p p' : history) : Prop := forall instanceId streamId, p instanceId streamId `prefix_of` p' instanceId streamId.

#[export] Instance extends_preorder : PreOrder extends.
Proof. split; [by intros p i s|]. intros p q r Hpq Hqr i s. by etrans; [apply Hpq|apply Hqr]. Qed.

Lemma at_revision_extends (p : history) p' i s r t : extends p p' -> at_revision (p i s) r = Some t -> at_revision (p' i s) r = Some t.
Proof. intros Hp. destruct r as [|r]; [done|]. simpl. intros Ht. by eapply prefix_lookup_Some. Qed.

Lemma shows_extends b p p' i s r l : extends p p' -> shows b p i s r l -> shows b p' i s r l.
Proof. intros Hp [?|(t & Ht & Hc)]; [by left|right]. exists t. split; [by eapply at_revision_extends|done]. Qed.

Lemma honest_extends b p p' ev : extends p p' -> honest b p ev -> honest b p' ev.
Proof.
  intros Hp. destruct ev as [m sn|m u r|m u]; cbn [honest]; [by apply shows_extends| |done].
  intros (k & prev & next & ? & ? & ? & ? & ? & ?). exists k, prev, next. split_and!; try done; by eapply at_revision_extends.
Qed.

Lemma at_revision_elem (p : history) i s r t : at_revision (p i s) r = Some t -> t ∈ p i s.
Proof. destruct r; [done|]. apply list_elem_of_lookup_2. Qed.

(** *** Projection for a consumer keeps events and states true *)

Lemma copy_of_flatten l t : copy_of false l t -> copy_of false (projectSessionLineageForConsumer false <$> l) t.
Proof.
  intros (l' & Hp & Hf). exists (projectSessionLineageForConsumer false <$> l'). split; [by rewrite Hp|].
  apply Forall2_fmap_l. eapply Forall2_impl; [exact Hf|]. intros x y. apply same_shown_flatten.
Qed.

Lemma shows_project p i s r sn consumer :
  shows false p i s r (sessions sn) -> shows false p i s r (sessions (projectAiSessionsSnapshotForConsumer consumer sn)).
Proof. destruct consumer; [done|]. intros [?|(t & Ht & Hc)]; [by left|right]. exists t. split; [done|]. by apply copy_of_flatten. Qed.

Lemma honest_project p ev consumer : honest false p ev -> honest false p (projectAiSessionStreamEventForConsumer consumer ev).
Proof.
  destruct consumer; [done|]. destruct ev as [m sn|m u r|m u]; cbn [honest projectAiSessionStreamEventForConsumer]; [by apply (shows_project _ _ _ _ sn false)| |done].
  intros (k & prev & next & ? & ? & ? & ? & Hu & ?). exists k, prev, next. split_and!; try done.
  apply Forall2_fmap_l. eapply Forall2_impl; [exact Hu|]. intros x y. apply same_shown_flatten.
Qed.

(** An exact event is honest for consumers that show less. *)
Lemma same_shown_weaken (s t : summary) subagents : same_shown true s t -> same_shown subagents s t.
Proof. intros ->%same_shown_true. by left. Qed.

Lemma honest_weaken subagents published (ev : event) : honest true published ev -> honest subagents published ev.
Proof.
  destruct ev as [m sn|m u r|m u]; cbn [honest]; [| |done].
  - intros [?|(t & Ht & l & Hp & Hf)]; [by left|right]. exists t. split; [done|]. exists l. split; [done|].
    eapply Forall2_impl; [exact Hf|]. intros x y. apply same_shown_weaken.
  - intros (k & prev & next & ? & ? & ? & ? & Hu & ?). exists k, prev, next. split_and!; try done.
    eapply Forall2_impl; [exact Hu|]. intros x y. apply same_shown_weaken.
Qed.

(** *** Applying an event *)

Lemma apply_snapshot_inv (current : option state) meta snapshot p :
  applyAiSessionStreamEvent current (SnapshotEvent meta snapshot) = Applied p ->
  p = State (em_streamId meta) (em_revision meta) (em_generatedAt meta) snapshot /\
  forall c, current = Some c -> st_streamId c = em_streamId meta -> st_revision c < em_revision meta.
Proof.
  unfold applyAiSessionStreamEvent. cbn [event_meta]. destruct current as [c|]; [|by intros [= <-]].
  destruct (bool_decide_reflect (st_streamId c = em_streamId meta)) as [Hs|Hs]; simpl.
  - destruct (Nat.eqb_spec (em_revision meta) (st_revision c)); [done|]. destruct (Nat.ltb_spec (em_revision meta) (st_revision c)); [done|].
    intros [= <-]. split; [done|]. intros c' [= <-] _. lia.
  - intros [= <-]. split; [done|]. by intros c' [= <-].
Qed.

Lemma apply_patch_inv (current : option state) meta upserted removed p :
  applyAiSessionStreamEvent current (PatchEvent meta upserted removed) = Applied p ->
  exists c, current = Some c /\ st_streamId c = em_streamId meta /\ em_revision meta = S (st_revision c) /\ em_previousRevision meta = Some (st_revision c) /\
    st_streamId p = em_streamId meta /\ st_revision p = em_revision meta /\
    sessions (st_snapshot p) = change_sessions (PatchEvent meta upserted removed) (sessions (st_snapshot c)).
Proof.
  unfold applyAiSessionStreamEvent. cbn [event_meta]. destruct current as [c|]; [|done].
  destruct (bool_decide_reflect (st_streamId c = em_streamId meta)) as [Hs|Hs]; [|done]. cbn [negb].
  destruct (Nat.eqb_spec (em_revision meta) (st_revision c)); [done|]. destruct (Nat.ltb_spec (em_revision meta) (st_revision c)); [done|].
  destruct (Nat.eqb_spec (em_revision meta) (st_revision c + 1)) as [Hr|]; [|done].
  destruct (bool_decide_reflect (em_previousRevision meta = Some (st_revision c))) as [Hp|]; [|done]. cbn [negb orb].
  intros [= <-]. exists c. cbn. split_and!; (done || lia).
Qed.

Lemma apply_keeps (current : option state) ev p :
  applyAiSessionStreamEvent current ev = Duplicate p \/ applyAiSessionStreamEvent current ev = Stale p -> current = Some p.
Proof. unfold applyAiSessionStreamEvent. cbv zeta. intros [Ha|Ha]; repeat case_match; congruence. Qed.

(** A patch that follows is applied. *)
Lemma apply_patch (c : state) meta upserted removed :
  st_streamId c = em_streamId meta -> em_revision meta = S (st_revision c) -> em_previousRevision meta = Some (st_revision c) ->
  exists p, applyAiSessionStreamEvent (Some c) (PatchEvent meta upserted removed) = Applied p.
Proof.
  intros Hs Hr Hp. unfold applyAiSessionStreamEvent. cbn [event_meta]. rewrite bool_decide_true by done. rewrite Hr, Hp. cbn [negb].
  destruct (Nat.eqb_spec (S (st_revision c)) (st_revision c)); [lia|]. destruct (Nat.ltb_spec (S (st_revision c)) (st_revision c)); [lia|].
  rewrite (proj2 (Nat.eqb_eq _ _)) by lia. rewrite bool_decide_true by done. by eexists.
Qed.

(** Applying an honest event keeps a copy true, and moves it to the event. *)
Lemma apply_honest subagents published (current : option state) ev p :
  well_formed published -> honest subagents published ev ->
  (forall c, current = Some c -> true_state subagents published (em_instanceId (event_meta ev)) c) ->
  applyAiSessionStreamEvent current ev = Applied p ->
  true_state subagents published (em_instanceId (event_meta ev)) p /\
  st_streamId p = em_streamId (event_meta ev) /\ st_revision p = em_revision (event_meta ev).
Proof.
  intros Hwf Hev Hc Ha. destruct ev as [m sn|m u r|m u]; cbn [honest event_meta] in *; [| |done].
  - apply apply_snapshot_inv in Ha as [-> _]. done.
  - apply apply_patch_inv in Ha as (c & -> & Hs & Hr & Hpr & Hps & Hprev & Hsess). split; [|done].
    destruct Hev as (k & prev & next & Hk & Hpk & Hprv & Hnxt & Hu & ->). assert (k = st_revision c) as -> by congruence.
    unfold true_state, shows. rewrite Hps, Hprev, Hr, Hsess. right. exists next. split; [done|].
    destruct (Hc c eq_refl) as [H0|(t & Ht & Hct)]; [by rewrite H0 in Hprv|]. rewrite Hs, Hprv in Ht. injection Ht as <-.
    apply change_patch; [by eapply Hwf, at_revision_elem|by eapply Hwf, at_revision_elem|done|done].
Qed.

(** ** Runs of events *)

Definition revision_of (ev : event) : nat := em_revision (event_meta ev).

(** What changes sessions follows on the revision before. *)
Definition follows (revision : nat) (ev : event) : Prop :=
  revision < revision_of ev /\ match ev with SnapshotEvent _ _ => True | _ => revision_of ev = S revision end.

(** Events of one stream of an instance, each of which follows the one before, up to [latest]. *)
Record run_of (instanceId streamId : jsstring) (latest : nat) (events : list event) : Prop := {
  run_stream : forall ev, ev ∈ events -> em_instanceId (event_meta ev) = instanceId /\ em_streamId (event_meta ev) = streamId;
  run_linked : forall i ev ev', events !! i = Some ev -> events !! S i = Some ev' -> follows (revision_of ev) ev';
  run_latest : forall ev, last events = Some ev -> revision_of ev = latest
}.

Lemma run_nil i s n : run_of i s n [].
Proof. split; [by intros ev ?%elem_of_nil|done|done]. Qed.

Lemma run_snoc i s n events ev :
  run_of i s n events -> em_instanceId (event_meta ev) = i -> em_streamId (event_meta ev) = s -> follows n ev ->
  run_of i s (revision_of ev) (events ++ [ev]).
Proof.
  intros [Hs Hl Hn] Hi Hst Hf. split.
  - intros e [He|He%list_elem_of_singleton]%elem_of_app; [by apply Hs|by subst].
  - intros k e e' He He'. apply lookup_app_Some in He' as [He'|[Hlen He']].
    + rewrite lookup_app_l in He by (apply lookup_lt_Some in He'; lia). by eapply Hl.
    + apply list_lookup_singleton_Some in He' as [Hk <-]. rewrite lookup_app_l in He by lia.
      rewrite (Hn e); [done|]. rewrite last_lookup. by replace (pred (length events)) with k by lia.
  - intros e. rewrite last_snoc. by intros [= <-].
Qed.

Lemma run_drop i s n events k : run_of i s n events -> run_of i s n (drop k events).
Proof.
  intros [Hs Hl Hn]. split.
  - intros ev Hev. apply Hs. rewrite <- (take_drop k events). set_solver.
  - intros j e e'. rewrite !lookup_drop, Nat.add_succ_r. apply Hl.
  - intros ev Hev. apply Hn. rewrite <- (take_drop k events), last_app, Hev. done.
Qed.

(** What is kept of a list when the test holds from somewhere on is its end. *)
Lemma filter_drop {A} (P : A -> Prop) `{forall x, Decision (P x)} (l : list A) :
  (forall i x y, l !! i = Some x -> l !! S i = Some y -> P x -> P y) -> exists k, filter P l = drop k l.
Proof.
  induction l as [|x l IH]; intros Hup; [by exists 0|]. destruct (decide (P x)) as [Hx|Hx].
  - exists 0. assert (Hall : forall i y, (x :: l) !! i = Some y -> P y).
    { intros i. induction i as [|i IHi]; intros y Hy; [by injection Hy as <-|]. destruct (lookup_lt_is_Some_2 (x :: l) i) as [z Hz];
        [apply lookup_lt_Some in Hy; lia|]. eapply Hup; eauto. }
    apply filter_all. intros y Hy. apply list_elem_of_lookup in Hy as [i Hi]. by eapply Hall.
  - rewrite filter_cons_False by done. destruct IH as [k ->]; [intros i; apply (Hup (S i))|]. by exists (S k).
Qed.

Lemma run_after i s n events since :
  run_of i s n events -> exists k, filter (fun ev => since < revision_of ev) events = drop k events.
Proof. intros Hr. apply filter_drop. intros j e e' He He' Hlt. destruct (run_linked _ _ _ _ Hr _ _ _ He He'). lia. Qed.

(** A follower that applies every one of the events. *)
Fixpoint follow (c : state) (events : list event) : option state :=
  match events with
  | [] => Some c
  | ev :: rest => match applyAiSessionStreamEvent (Some c) ev with Applied c' => follow c' rest | _ => None end
  end.

Lemma apply_follows b published (c : state) ev :
  honest b published ev -> em_streamId (event_meta ev) = st_streamId c -> follows (st_revision c) ev ->
  exists p, applyAiSessionStreamEvent (Some c) ev = Applied p.
Proof.
  intros Hev Hs [Hlt Hf]. unfold revision_of in *. destruct ev as [m sn|m u r|m u]; cbn [event_meta] in *; [| |done].
  - unfold applyAiSessionStreamEvent. cbn [event_meta]. rewrite bool_decide_true by done. cbn [andb].
    destruct (Nat.eqb_spec (em_revision m) (st_revision c)); [lia|]. destruct (Nat.ltb_spec (em_revision m) (st_revision c)); [lia|]. by eexists.
  - destruct Hev as (k & prev & next & Hk & Hpk & _). apply apply_patch; [done|done|]. rewrite Hpk. f_equal. lia.
Qed.

(** A run that starts right after a copy brings it to the end of the run. *)
Lemma follow_run b published instanceId events : forall c streamId latest,
  well_formed published -> true_state b published instanceId c -> st_streamId c = streamId ->
  run_of instanceId streamId latest events -> (forall ev, ev ∈ events -> honest b published ev) ->
  (forall ev, head events = Some ev -> follows (st_revision c) ev) ->
  exists c', follow c events = Some c' /\ true_state b published instanceId c' /\ st_streamId c' = streamId /\
    st_revision c' = match events with [] => st_revision c | _ => latest end.
Proof.
  induction events as [|ev rest IH]; intros c s latest Hwf Hc Hs Hr Hh Hf; [by exists c|].
  destruct (run_stream _ _ _ _ Hr ev ltac:(by left)) as [Hi Hes].
  destruct (apply_follows b published c ev) as [p Hp]; [apply Hh; by left|congruence|by apply Hf|].
  destruct (apply_honest b published (Some c) ev p Hwf) as (Ht & Hps & Hpr); [apply Hh; by left|intros ? [= <-]; by rewrite Hi|done|].
  cbn [follow]. rewrite Hp. rewrite Hi in Ht. assert (Hrest := run_drop _ _ _ _ 1 Hr). cbn in Hrest.
  destruct (IH p s latest) as (c' & Hfo & Hc' & Hs' & Hr'); [done|done|congruence|done|intros; apply Hh; by right| |].
  - intros ev' Hev'. rewrite Hpr. destruct rest as [|e rest]; [done|]. injection Hev' as ->. exact (run_linked _ _ _ _ Hr 0 ev ev' eq_refl eq_refl).
  - exists c'. split_and!; try done. rewrite Hr'. destruct rest as [|e rest]; [|done].
    rewrite Hpr. by apply (run_latest _ _ _ _ Hr).
Qed.

(** ** Answers with the events since a revision *)

(** An answer that does not ask for a snapshot brings a copy at that revision to the latest one. *)
Lemma delta_follow b published instanceId streamId latest events c :
  well_formed published -> run_of instanceId streamId latest events -> (forall ev, ev ∈ events -> honest b published ev) ->
  true_state b published instanceId c -> st_revision c <= latest ->
  let delta := delta_response streamId instanceId latest events (st_streamId c) (st_revision c) in
  dr_syncRequired delta = false ->
  exists c', follow c (dr_events delta) = Some c' /\ true_state b published instanceId c' /\ st_streamId c' = streamId /\ st_revision c' = latest.
Proof.
  intros Hwf Hr Hh Hc Hle. unfold delta_response. cbv zeta.
  destruct (bool_decide_reflect (st_streamId c = streamId)) as [Hs|]; [|done]. cbn [negb orb].
  destruct (Nat.ltb_spec latest (st_revision c)); [lia|]. destruct (Nat.eqb_spec (st_revision c) latest) as [He|He].
  { intros _. exists c. split_and!; (done || by rewrite Hs). }
  destruct (run_after _ _ _ _ (st_revision c) Hr) as [k Hk]. unfold revision_of in Hk. rewrite Hk.
  destruct (drop k events) as [|ev after] eqn:Ed; [done|]. destruct (Nat.eqb_spec (em_revision (event_meta ev)) (st_revision c + 1)) as [He1|]; [|done].
  intros _. cbn [dr_events]. destruct (follow_run b published instanceId (ev :: after) c streamId latest) as (c' & ? & ? & ? & ?); try done.
  - rewrite <- Ed. by apply run_drop.
  - intros e Hin. apply Hh. rewrite <- (take_drop k events), Ed. apply elem_of_app. by right.
  - intros e [= <-]. split; unfold revision_of; [lia|]. destruct ev; (done || lia).
  - by exists c'.
Qed.

Lemma delta_instance s i n (h : list event) s' since : dr_instanceId (delta_response s i n h s' since) = i.
Proof. unfold delta_response. cbv zeta. by repeat case_match. Qed.

Lemma delta_sync_le s i n (h : list event) s' since : dr_syncRequired (delta_response s i n h s' since) = false -> since <= n.
Proof. unfold delta_response. cbv zeta. destruct (Nat.ltb_spec n since); [by rewrite orb_true_r|done]. Qed.

(** ** Publishing *)

Definition publish_to (published : history) (instanceId streamId : jsstring) (l : list summary) : history := fun i s =>
  if decide (i = instanceId /\ s = streamId) then published i s ++ [l] else published i s.

Lemma publish_to_eq published i s l : publish_to published i s l i s = published i s ++ [l].
Proof. unfold publish_to. by rewrite decide_True. Qed.

Lemma publish_extends published i s l : extends published (publish_to published i s l).
Proof. intros i' s'. unfold publish_to. case_decide; [by exists [l]|done]. Qed.

Lemma publish_well_formed published i s l : well_formed published -> NoDup (ids l) -> well_formed (publish_to published i s l).
Proof.
  intros Hwf Hl i' s' l'. unfold publish_to. case_decide; [|apply Hwf].
  intros [Hl'|Hl'%list_elem_of_singleton]%elem_of_app; [by eapply Hwf|by subst].
Qed.

(** A producer has published what is said to be, and keeps a run of honest events. *)
Record publisher_true (published : history) (p : publisher Content) : Prop := {
  pt_length : length (published (pb_instanceId p) (pb_streamId p)) = pb_revision p;
  pt_last : sessions <$> pb_last p = last (published (pb_instanceId p) (pb_streamId p));
  pt_run : run_of (pb_instanceId p) (pb_streamId p) (pb_revision p) (pb_history p).*1;
  pt_honest : forall ev, ev ∈ (pb_history p).*1 -> honest true published ev
}.

Lemma new_publisher_true published streamId instanceId :
  published instanceId streamId = [] -> publisher_true published (new_publisher streamId instanceId).
Proof.
  intros Hp. split; cbn; [by rewrite Hp|by rewrite Hp|apply run_nil|by intros ev ?%elem_of_nil].
Qed.

Lemma prune_drop cutoff (h : list (event * Z)) : exists k, prune_events cutoff h = drop k h.
Proof. induction h as [|[ev t] h [k IH]]; [by exists 0|]. simpl. case_match; [exists (S k); exact IH|by exists 0]. Qed.

Lemma prune_true published now p : publisher_true published p -> publisher_true published (pruneAiSessionEventHistory now p).
Proof.
  intros [Hn Hl Hr Hh]. destruct (prune_drop (now - AI_SESSION_DELTA_RETENTION_MS) (pb_history p)) as [k Hk].
  split; cbn [pb_instanceId pb_streamId pb_revision pb_last pb_history pruneAiSessionEventHistory]; rewrite ?Hk, ?fmap_drop; try done.
  - by apply run_drop.
  - intros ev Hev. apply Hh. rewrite <- (take_drop k (pb_history p).*1). set_solver.
Qed.

Lemma extends_true published published' p :
  extends published published' -> published' (pb_instanceId p) (pb_streamId p) = published (pb_instanceId p) (pb_streamId p) ->
  publisher_true published p -> publisher_true published' p.
Proof. intros He Hs [Hn Hl Hr Hh]. split; rewrite ?Hs; try done. intros ev Hev. by eapply honest_extends, Hh. Qed.

Lemma at_revision_last (l : list (list summary)) : at_revision l (length l) = last l.
Proof. rewrite last_lookup. by destruct l. Qed.

(** The event that is published says what has changed. *)
Lemma publish_true published now snapshot p :
  publisher_true published p -> NoDup (ids (sessions snapshot)) ->
  let published' := publish_to published (pb_instanceId p) (pb_streamId p) (sessions snapshot) in
  match publishAiSessionSnapshot now snapshot p with
  | (p', Some ev) => publisher_true published' p' /\ honest true published' ev
  | (p', None) => p' = p
  end.
Proof.
  intros Hp Hnd published'. destruct Hp as [Hn Hl Hr Hh].
  set (meta := createAiSessionMeta now (pb_revision p + 1) p).
  assert (Hat : at_revision (published' (pb_instanceId p) (pb_streamId p)) (pb_revision p + 1) = Some (sessions snapshot)).
  { unfold published'. rewrite publish_to_eq, <- Hn, Nat.add_1_r. cbn [at_revision]. by rewrite lookup_app_r, Nat.sub_diag by done. }
  assert (Hpub : forall ev, event_meta ev = meta -> (forall m u, ev <> RemovedEvent m u) -> honest true published' ev ->
    publisher_true published' (pruneAiSessionEventHistory now
      (Publisher (pb_streamId p) (pb_instanceId p) (pb_revision p + 1) (Some snapshot) (pb_history p ++ [(ev, now)])))).
  { intros ev Hm Hnr Hev. apply prune_true. split; cbn [pb_instanceId pb_streamId pb_revision pb_last pb_history].
    - unfold published'. rewrite publish_to_eq, length_app, Hn. done.
    - unfold published'. by rewrite publish_to_eq, last_snoc.
    - rewrite fmap_app. cbn. replace (pb_revision p + 1) with (revision_of ev) by (unfold revision_of; by rewrite Hm).
      eapply run_snoc; [exact Hr|by rewrite Hm|by rewrite Hm|]. unfold follows, revision_of. rewrite Hm. cbn. split; [lia|]. destruct ev; (done || lia).
    - intros e. rewrite fmap_app. intros [He|He%list_elem_of_singleton]%elem_of_app; [|by subst].
      eapply honest_extends; [apply publish_extends|]. by apply Hh. }
  unfold publishAiSessionSnapshot, projectAiSessionAuthorityChange. fold meta. destruct (pb_last p) as [previous|] eqn:El.
  - fold (diff_upserted (sessions previous) (sessions snapshot)) (diff_removed (sessions previous) (sessions snapshot)).
    set (u := diff_upserted (sessions previous) (sessions snapshot)). set (r := diff_removed (sessions previous) (sessions snapshot)).
    assert (Hev : honest true published' (PatchEvent meta u r)).
    { exists (pb_revision p), (sessions previous), (sessions snapshot). cbn [em_revision em_previousRevision em_instanceId em_streamId meta createAiSessionMeta].
      rewrite Nat.add_1_r in *. cbn [Nat.ltb Nat.leb]. rewrite Nat.sub_0_r || rewrite Nat.sub_1_r. split_and!; try done.
      - eapply at_revision_extends; [apply publish_extends|]. by rewrite <- Hn, at_revision_last, <- Hl.
      - apply shown_refl. }
    assert (Hpe := Hpub (PatchEvent meta u r) eq_refl ltac:(done) Hev).
    destruct u, r; done.
  - assert (Hev : honest true published' (SnapshotEvent meta snapshot)).
    { cbn. right. exists (sessions snapshot). split; [exact Hat|apply copy_of_refl]. }
    split; [by apply (Hpub (SnapshotEvent meta snapshot))|exact Hev].
Qed.

Lemma publish_identity now snapshot (p p' : publisher Content) o :
  publishAiSessionSnapshot now snapshot p = (p', o) -> pb_instanceId p' = pb_instanceId p /\ pb_streamId p' = pb_streamId p.
Proof. unfold publishAiSessionSnapshot. cbv zeta. repeat case_match; by intros [= <- <-]. Qed.

(** What a producer answers. *)
Lemma state_true subagents published consumer startedAt live p :
  publisher_true published p -> (subagents = true -> consumer = true) ->
  true_state subagents published (pb_instanceId p) (aiSessionsState consumer startedAt live p).
Proof.
  intros [Hn Hl _ _] Hc. unfold true_state, aiSessionsState. cbn [st_streamId st_revision st_snapshot].
  destruct (pb_last p) as [sn|] eqn:El.
  - right. exists (sessions sn). split; [by rewrite <- Hn, at_revision_last, <- Hl|]. cbn [default]. destruct subagents.
    + rewrite Hc by done. apply copy_of_refl.
    + destruct consumer; [apply copy_of_refl|]. apply (copy_of_flatten (sessions sn)), copy_of_refl.
  - left. rewrite <- Hn. symmetry in Hl. by apply last_None in Hl as ->.
Qed.

Lemma delta_events {A} (P : event -> Prop) (h : list (event * A)) s i n s' since ev :
  (forall e, e ∈ h.*1 -> P e) -> ev ∈ dr_events (delta_response s i n h.*1 s' since) -> P ev.
Proof.
  intros Hall. unfold delta_response. cbv zeta.
  destruct (_ || _); [by intros ?%elem_of_nil|]. destruct (_ =? _); [by intros ?%elem_of_nil|].
  destruct (filter _ _) as [|e after] eqn:E; [by intros ?%elem_of_nil|]. destruct (_ =? _); [|by intros ?%elem_of_nil].
  cbn [dr_events]. rewrite <- E. intros [_ Hin]%list_elem_of_filter. by apply Hall.
Qed.
End StreamFacts.
