(* ===== verification/Aggregator.v ===== *)
(** * The control plane's copies of the session streams

    [packages/control-plane/src/control-plane/sessions/ai-session-aggregator.ts]:
    a copy per instance that follows the events of its stream, recovers what
    it has missed, and passes the events on to clients.  A recovery is cut
    where it awaits; [rc_wait] is what it awaits.  Projections are objects
    that the code compares by identity and have numbers.  [ag_emitted] is
    what listeners were told and which events were passed on; counters and
    logs are left out, and so is the moment between the end of a recovery and
    the removal of its record. *)

From S2P Require Export SessionStream.

Section Aggregator.
Context {Content : Type} `{EqDecision Content}.

Abbreviation event := (AiSessionStreamEvent Content).
Abbreviation state := (AiSessionsState Content).
Abbreviation response := (@AiSessionDeltaResponse Content).

Record projection_object := ProjectionObject { pj_ref : nat; pj_state : state }.

(** [SessionStreamDescriptorSchema]. *)
Record stream_descriptor := StreamDescriptor { ds_streamId : jsstring; ds_latestRevision : nat }.

Inductive recovery_wait :=
| AwaitSnapshot
| AwaitDelta (streamId : jsstring) (sinceRevision : nat)
| AwaitFallback.

Record RecoveryRecord := Recovery { rc_streamId : jsstring; rc_highWater : nat; rc_wait : recovery_wait }.

Record BootstrapEntry := Entry { be_instanceId : jsstring; be_state : state }.

Inductive output :=
| Notified (instanceId : jsstring) (projection : state)
| RecoveredEvent (event : event).

Record aggregator := Aggregator {
  ag_snapshots : jsmap jsstring projection_object;
  ag_history : jsmap jsstring (list (event * Z));
  ag_advertisedStreams : jsmap jsstring stream_descriptor;
  ag_recoveries : jsmap jsstring RecoveryRecord;
  ag_nextRef : nat;
  ag_emitted : list output
}.

Definition new_aggregator : aggregator := Aggregator [] [] [] [] 0 [].

Definition with_recoveries (r : jsmap jsstring RecoveryRecord) (a : aggregator) : aggregator :=
  Aggregator (ag_snapshots a) (ag_history a) (ag_advertisedStreams a) r (ag_nextRef a) (ag_emitted a).
Definition with_history (h : jsmap jsstring (list (event * Z))) (a : aggregator) : aggregator :=
  Aggregator (ag_snapshots a) h (ag_advertisedStreams a) (ag_recoveries a) (ag_nextRef a) (ag_emitted a).
Definition with_advertised (s : jsmap jsstring stream_descriptor) (a : aggregator) : aggregator :=
  Aggregator (ag_snapshots a) (ag_history a) s (ag_recoveries a) (ag_nextRef a) (ag_emitted a).
Definition emit (o : output) (a : aggregator) : aggregator :=
  Aggregator (ag_snapshots a) (ag_history a) (ag_advertisedStreams a) (ag_recoveries a) (ag_nextRef a) (ag_emitted a ++ [o]).
(** A new object for the copy of an instance. *)
Definition set_projection (instanceId : jsstring) (projection : state) (a : aggregator) : aggregator :=
  Aggregator (mset instanceId (ProjectionObject (ag_nextRef a) projection) (ag_snapshots a)) (ag_history a) (ag_advertisedStreams a) (ag_recoveries a)
    (ag_nextRef a + 1) (ag_emitted a).

Definition projection_of (instanceId : jsstring) (a : aggregator) : option state := pj_state <$> mget instanceId (ag_snapshots a).
Definition advertised_stream (instanceId : jsstring) (a : aggregator) : option jsstring := ds_streamId <$> mget instanceId (ag_advertisedStreams a).

(** ** History *)

Definition pruneHistory (now : Z) (instanceId : jsstring) (a : aggregator) : aggregator :=
  match mget instanceId (ag_history a) with
  | None | Some [] => a
  | Some events =>
      match filter (fun e : event * Z => (now - AI_SESSION_DELTA_RETENTION_MS <= e.2)%Z) events with
      | [] => with_history (mdelete instanceId (ag_history a)) a
      | retained => with_history (mset instanceId retained (ag_history a)) a
      end
  end.

Definition rememberEvent (now : Z) (instanceId : jsstring) (ev : event) (a : aggregator) : aggregator :=
  let current := default [] (mget instanceId (ag_history a)) in
  let events := match current with
                | (first, _) :: _ => if bool_decide (em_streamId (event_meta first) = em_streamId (event_meta ev)) then current else []
                | [] => current
                end in
  pruneHistory now instanceId (with_history (mset instanceId (events ++ [(ev, now)]) (ag_history a)) a).

(** ** Recovery *)

Inductive recovery_outcome :=
| Returned
| Waiting (record : RecoveryRecord)
| Spinning.

(** The test at the end of the loop. *)
Definition recovery_complete (instanceId : jsstring) (highWater : nat) (a : aggregator) : bool :=
  match projection_of instanceId a, mget instanceId (ag_advertisedStreams a) with
  | Some latest, Some advertised =>
      bool_decide (st_streamId latest = ds_streamId advertised) && (Nat.max (ds_latestRevision advertised) highWater <=? st_revision latest)
  | _, _ => false
  end.

(** The loop from its head to where it awaits.  [Spinning] is a pass that
    neither awaits nor ends. *)
Definition recovery_head (instanceId streamId : jsstring) (highWater : nat) (a : aggregator) : recovery_outcome :=
  match mget instanceId (ag_advertisedStreams a) with
  | None => Returned
  | Some descriptor =>
      let '(streamId, highWater) := if bool_decide (streamId = ds_streamId descriptor) then (streamId, highWater)
                                    else (ds_streamId descriptor, ds_latestRevision descriptor) in
      match projection_of instanceId a with
      | Some current =>
          if negb (bool_decide (st_streamId current = ds_streamId descriptor)) then Waiting (Recovery streamId highWater AwaitSnapshot) else
          if st_revision current <? Nat.max (ds_latestRevision descriptor) highWater
          then Waiting (Recovery streamId highWater (AwaitDelta (st_streamId current) (st_revision current))) else
          if recovery_complete instanceId highWater a then Returned else Spinning
      | None => Waiting (Recovery streamId highWater AwaitSnapshot)
      end
  end.

Definition settle_recovery (instanceId : jsstring) (outcome : recovery_outcome) (a : aggregator) : aggregator :=
  match outcome with
  | Waiting record => with_recoveries (mset instanceId record (ag_recoveries a)) a
  | _ => with_recoveries (mdelete instanceId (ag_recoveries a)) a
  end.

Definition recoverStream (instanceId streamId : jsstring) (highWater : nat) (a : aggregator) : aggregator :=
  match mget instanceId (ag_recoveries a) with
  | Some existing =>
      let record := if bool_decide (rc_streamId existing = streamId) then Recovery streamId (Nat.max (rc_highWater existing) highWater) (rc_wait existing)
                    else Recovery streamId highWater (rc_wait existing) in
      with_recoveries (mset instanceId record (ag_recoveries a)) a
  | None => settle_recovery instanceId (recovery_head instanceId streamId highWater a) a
  end.

(** ** Events *)

Definition agg_apply (now : Z) (ev : event) (recovering : bool) (a : aggregator) : aggregator * bool :=
  let meta := event_meta ev in
  let instanceId := em_instanceId meta in
  let obsolete := match advertised_stream instanceId a with Some s => truthy s && negb (bool_decide (s = em_streamId meta)) | None => false end in
  if obsolete then (a, false) else
  match mget instanceId (ag_recoveries a), recovering with
  | Some active, false =>
      (if bool_decide (rc_streamId active = em_streamId meta)
       then with_recoveries (mset instanceId (Recovery (rc_streamId active) (Nat.max (rc_highWater active) (em_revision meta)) (rc_wait active)) (ag_recoveries a)) a
       else a, false)
  | _, _ =>
      match applyAiSessionStreamEvent (projection_of instanceId a) ev with
      | Applied projection => (emit (Notified instanceId projection) (rememberEvent now instanceId ev (set_projection instanceId projection a)), true)
      | Gap _ _ _ | SnapshotRequired _ _ => (recoverStream instanceId (em_streamId meta) (em_revision meta) a, false)
      | Duplicate _ | Stale _ => (a, false)
      end
  end.

(** The events that are passed on when they were applied. *)
Definition apply_recovered (now : Z) (recovering : bool) (a : aggregator) (ev : event) : aggregator :=
  let (a', applied) := agg_apply now ev recovering a in
  if applied then emit (RecoveredEvent ev) a' else a'.

Definition applySnapshot (now : Z) (ev : event) (a : aggregator) : aggregator * bool :=
  match advertised_stream (em_instanceId (event_meta ev)) a with
  | Some s => if truthy s && negb (bool_decide (s = em_streamId (event_meta ev))) then (a, false) else agg_apply now ev false a
  | None => agg_apply now ev false a
  end.

Definition handleEvent (now : Z) (ev : event) (a : aggregator) : aggregator * bool :=
  match ev with SnapshotEvent _ _ => applySnapshot now ev a | _ => agg_apply now ev false a end.

Definition advertiseStream (instanceId : jsstring) (descriptor : stream_descriptor) (a : aggregator) : aggregator :=
  recoverStream instanceId (ds_streamId descriptor) (ds_latestRevision descriptor) (with_advertised (mset instanceId descriptor (ag_advertisedStreams a)) a).

Definition removeInstance (instanceId : jsstring) (a : aggregator) : aggregator :=
  Aggregator (mdelete instanceId (ag_snapshots a)) (mdelete instanceId (ag_history a)) (mdelete instanceId (ag_advertisedStreams a)) (ag_recoveries a)
    (ag_nextRef a) (ag_emitted a).

(** ** What a recovery does with its answers *)

Definition state_event (instanceId : jsstring) (s : state) : event :=
  SnapshotEvent (EventMeta (st_streamId s) instanceId (st_revision s) None (st_lastEventAt s)) (st_snapshot s).

(** [continue]: on with the loop under the record as it is now. *)
Definition recovery_continue (instanceId : jsstring) (a : aggregator) : aggregator :=
  match mget instanceId (ag_recoveries a) with
  | Some record => settle_recovery instanceId (recovery_head instanceId (rc_streamId record) (rc_highWater record) a) a
  | None => a
  end.

(** The end of a pass. *)
Definition recovery_round (instanceId : jsstring) (a : aggregator) : aggregator :=
  match mget instanceId (ag_recoveries a) with
  | Some record => if recovery_complete instanceId (rc_highWater record) a then settle_recovery instanceId Returned a else recovery_continue instanceId a
  | None => a
  end.

Definition same_stream (instanceId streamId : jsstring) (a : aggregator) : bool := bool_decide (advertised_stream instanceId a = Some streamId).

Definition recovery_snapshot (now : Z) (instanceId : jsstring) (s : state) (a : aggregator) : aggregator :=
  if negb (same_stream instanceId (st_streamId s) a) then recovery_continue instanceId a
  else recovery_round instanceId (apply_recovered now true a (state_event instanceId s)).

Definition recovery_delta (now : Z) (instanceId : jsstring) (delta : response) (a : aggregator) : aggregator :=
  match mget instanceId (ag_recoveries a) with
  | None => a
  | Some record =>
      if negb (same_stream instanceId (dr_streamId delta) a) || negb (bool_decide (rc_streamId record = dr_streamId delta)) then recovery_continue instanceId a else
      if dr_syncRequired delta then with_recoveries (mset instanceId (Recovery (rc_streamId record) (rc_highWater record) AwaitFallback) (ag_recoveries a)) a else
      let a := foldl (apply_recovered now true) a (dr_events delta) in
      match mget instanceId (ag_recoveries a) with
      | Some record =>
          recovery_round instanceId
            (with_recoveries (mset instanceId (Recovery (rc_streamId record) (Nat.max (rc_highWater record) (dr_latestRevision delta)) (rc_wait record)) (ag_recoveries a)) a)
      | None => a
      end
  end.

Definition recovery_failed (instanceId : jsstring) (a : aggregator) : aggregator := with_recoveries (mdelete instanceId (ag_recoveries a)) a.

(** ** Bootstrap and refresh

    [atStart] are the objects when the request was made. *)

Definition object_of (instanceId : jsstring) (a : aggregator) : option nat := pj_ref <$> mget instanceId (ag_snapshots a).

Definition forget_missing (entries : list BootstrapEntry) (a : aggregator) (captured : jsstring * nat) : aggregator :=
  let (instanceId, ref) := captured in
  if bool_decide (instanceId ∈ be_instanceId <$> entries) || negb (bool_decide (object_of instanceId a = Some ref)) then a
  else removeInstance instanceId a.

(** A state that was asked for replaces an older copy that has not changed since. *)
Definition adopt_state (now : Z) (instanceId : jsstring) (atStart : option nat) (s : state) (a : aggregator) : aggregator :=
  if negb (bool_decide (object_of instanceId a = atStart)) then a else
  match advertised_stream instanceId a with
  | Some adv => if truthy adv && negb (bool_decide (adv = st_streamId s)) then a else
                match projection_of instanceId a with
                | Some c => if bool_decide (st_streamId c = st_streamId s) && (st_revision s <=? st_revision c) then a
                            else apply_recovered now false a (state_event instanceId s)
                | None => apply_recovered now false a (state_event instanceId s)
                end
  | None => match projection_of instanceId a with
            | Some c => if bool_decide (st_streamId c = st_streamId s) && (st_revision s <=? st_revision c) then a
                        else apply_recovered now false a (state_event instanceId s)
            | None => apply_recovered now false a (state_event instanceId s)
            end
  end.

Definition bootstrapFromInstances (now : Z) (atStart : jsmap jsstring nat) (entries : list BootstrapEntry) (a : aggregator) : aggregator :=
  foldl (fun a entry => adopt_state now (be_instanceId entry) (mget (be_instanceId entry) atStart) (be_state entry) a)
    (foldl (forget_missing entries) a atStart) entries.

Definition refreshInstance (now : Z) (instanceId : jsstring) (atStart : option nat) (s : state) (a : aggregator) : aggregator :=
  adopt_state now instanceId atStart s a.

(** ** What clients ask for *)

Definition resolveDeltaInstanceId (instanceId : option jsstring) (a : aggregator) : option jsstring :=
  if otruthy instanceId then instanceId else match mkeys (ag_snapshots a) with [id] => Some id | _ => None end.

(** [None] is the error that an instance has to be named. *)
Definition agg_delta (now : Z) (instanceId : option jsstring) (streamId : jsstring) (sinceRevision : nat) (a : aggregator) : option (aggregator * response) :=
  match resolveDeltaInstanceId instanceId a with
  | None => None
  | Some instanceId =>
      let a := pruneHistory now instanceId a in
      let current := projection_of instanceId a in
      Some (a, delta_response (match current with Some c => if truthy (st_streamId c) then st_streamId c else js "unavailable" | None => js "unavailable" end) instanceId
                 (match current with Some c => st_revision c | None => 0 end) (default [] (mget instanceId (ag_history a))).*1 streamId sinceRevision)
  end.

Definition agg_view (instanceId : option jsstring) (a : aggregator) : list (jsstring * state) :=
  (fun e : jsstring * projection_object => (e.1, pj_state e.2)) <$>
    filter (fun e : jsstring * projection_object => negb (otruthy instanceId) || bool_decide (Some e.1 = instanceId) = true) (ag_snapshots a).

Definition streamDescriptors (a : aggregator) : list (jsstring * jsstring * nat * nat) :=
  (fun e : jsstring * projection_object =>
     let s := pj_state e.2 in
     (e.1, st_streamId s, st_revision s,
      match mget e.1 (ag_history a) with Some ((ev, _) :: _) => em_revision (event_meta ev) | _ => st_revision s + 1 end)) <$> ag_snapshots a.
End Aggregator.

#[global] Arguments aggregator : clear implicits.
#[global] Arguments BootstrapEntry : clear implicits.
