(* ===== verification/AggregatorSpec.v ===== *)
(** * The control plane's copies are true

    [control_true]: the copies of the aggregator show what was published, the
    events it keeps for an instance are a run of honest events that ends at
    its copy, and the events it passes on are honest.  Every operation of
    the aggregator keeps this when what it is given is honest.  The clock of
    the control plane does not go back. *)

From S2P Require Export SessionStreamSpec Aggregator.

Section AggregatorFacts.
Context {Content : Type} `{EqDecision Content}.
Abbreviation event := (AiSessionStreamEvent Content).
Abbreviation state := (AiSessionsState Content).
Abbreviation aggregator := (aggregator Content).

Definition in_order (clock : Z) (h : list (event * Z)) : Prop :=
  (forall i x y, h !! i = Some x -> h !! S i = Some y -> (x.2 <= y.2)%Z) /\ (forall x, x ∈ h -> (x.2 <= clock)%Z).

Record kept (subagents : bool) (published : history) (clock : Z) (instanceId : jsstring) (c : state) (h : list (event * Z)) : Prop := {
  kept_run : run_of instanceId (st_streamId c) (st_revision c) h.*1;
  kept_honest : forall ev, ev ∈ h.*1 -> honest subagents published ev;
  kept_order : in_order clock h
}.

Record control_true (subagents : bool) (published : history) (clock : Z) (a : aggregator) : Prop := {
  ct_copies : forall instanceId c, projection_of instanceId a = Some c -> true_state subagents published instanceId c;
  ct_history : forall instanceId h, mget instanceId (ag_history a) = Some h -> exists c, projection_of instanceId a = Some c /\ kept subagents published clock instanceId c h;
  ct_passed : forall ev, RecoveredEvent ev ∈ ag_emitted a -> honest subagents published ev;
  ct_wf : map_wf (ag_snapshots a)
}.

(** ** Generic facts *)

Lemma control_true_extends b p p' t t' a : extends p p' -> (t <= t')%Z -> control_true b p t a -> control_true b p' t' a.
Proof.
  intros He Ht [Hc Hh Hp Hm]. split; [| | |done].
  - intros i c Hi. by eapply shows_extends, Hc.
  - intros i h Hi. destruct (Hh i h Hi) as (c & Hci & [Hr Hev [Ho Hle]]). exists c. split; [done|]. split; [done| |].
    + intros ev Hin. by eapply honest_extends, Hev.
    + split; [done|]. intros x Hx. specialize (Hle x Hx). lia.
  - intros ev Hin. by eapply honest_extends, Hp.
Qed.

Lemma new_aggregator_true b p t : control_true b p t new_aggregator.
Proof. split; [done|done|by intros ev ?%elem_of_nil|constructor]. Qed.

Section Kept.
Context (subagents : bool) (published : @history Content) (clock : Z) (Hwf : well_formed published).
Abbreviation ok := (control_true subagents published clock).

(** Recoveries and advertised streams do not matter. *)
Lemma ok_same (a a' : aggregator) :
  ag_snapshots a' = ag_snapshots a -> ag_history a' = ag_history a -> ag_emitted a' = ag_emitted a -> ok a -> ok a'.
Proof. intros Hs Hh He [Hc Hhi Hp Hm]. unfold projection_of in *. split; unfold projection_of; rewrite ?Hs, ?Hh, ?He; done. Qed.

Lemma ok_recoveries r a : ok a -> ok (with_recoveries r a).
Proof. by apply ok_same. Qed.

Lemma ok_advertised s a : ok a -> ok (with_advertised s a).
Proof. by apply ok_same. Qed.

Lemma ok_settle i o a : ok a -> ok (settle_recovery i o a).
Proof. destruct o; apply ok_recoveries. Qed.

Lemma ok_recoverStream i s n a : ok a -> ok (recoverStream i s n a).
Proof. unfold recoverStream. destruct (mget i (ag_recoveries a)); [apply ok_recoveries|apply ok_settle]. Qed.

Lemma ok_remove i a : ok a -> ok (removeInstance i a).
Proof.
  intros [Hc Hh Hp Hm]. split; [| |exact Hp|by apply map_wf_mdelete]; unfold projection_of in *; cbn [removeInstance ag_snapshots ag_history].
  - intros j c. rewrite mget_mdelete. case_decide; [done|]. apply Hc.
  - intros j h. rewrite mget_mdelete. case_decide; [done|]. rewrite mget_mdelete_ne by done. apply Hh.
Qed.

(** *** The events that are kept *)

Lemma in_order_drop k (h : list (event * Z)) : in_order clock h -> in_order clock (drop k h).
Proof.
  intros [Ho Hle]. split.
  - intros j x y. rewrite !lookup_drop, Nat.add_succ_r. apply Ho.
  - intros x Hx. apply Hle. rewrite <- (take_drop k h). set_solver.
Qed.

Lemma kept_drop i c h k : kept subagents published clock i c h -> kept subagents published clock i c (drop k h).
Proof.
  intros [Hr He Ho]. split; rewrite ?fmap_drop; [by apply run_drop| |by apply in_order_drop].
  intros ev Hin. apply He. rewrite <- (take_drop k h.*1). set_solver.
Qed.

Lemma retained_drop cutoff (h : list (event * Z)) : in_order clock h -> exists k, filter (fun e : event * Z => (cutoff <= e.2)%Z) h = drop k h.
Proof. intros [Ho _]. apply filter_drop. intros i x y Hx Hy ?. specialize (Ho i x y Hx Hy). lia. Qed.

Lemma ok_prune now i a : ok a -> ok (pruneHistory now i a).
Proof.
  intros Hok. unfold pruneHistory. destruct (mget i (ag_history a)) as [[|e h]|] eqn:Eh; [done| |done].
  destruct Hok as [Hc Hh Hp Hm]. destruct (Hh _ _ Eh) as (c & Hci & Hk).
  destruct (retained_drop (now - AI_SESSION_DELTA_RETENTION_MS) (e :: h)) as [k Hd]; [apply Hk|]. rewrite Hd.
  assert (Hkd := kept_drop _ _ _ k Hk).
  assert (Hset : forall l, (l = mdelete i (ag_history a) \/ l = mset i (drop k (e :: h)) (ag_history a)) -> ok (with_history l a)).
  { intros l Hl. split; [exact Hc| |exact Hp|exact Hm]. intros j hj. cbn [with_history ag_history].
    destruct Hl as [-> | ->]; rewrite ?mget_mdelete, ?mget_mset; case_decide; subst; [done|apply Hh| |apply Hh].
    intros [= <-]. by exists c. }
  destruct (drop k (e :: h)); apply Hset; auto.
Qed.

Lemma run_one i s (ev : event) : em_instanceId (event_meta ev) = i -> em_streamId (event_meta ev) = s -> run_of i s (revision_of ev) [ev].
Proof.
  intros Hi Hs. split; [by intros e ->%list_elem_of_singleton| |by intros e [= <-]]. intros j e e' _. by destruct j.
Qed.

Lemma in_order_snoc (h : list (event * Z)) ev : in_order clock h -> in_order clock (h ++ [(ev, clock)]).
Proof.
  intros [Ho Hle]. split.
  - intros j x y Hx Hy. apply lookup_app_Some in Hy as [Hy|[Hlen Hy]].
    + rewrite lookup_app_l in Hx by (apply lookup_lt_Some in Hy; lia). by eapply Ho.
    + apply list_lookup_singleton_Some in Hy as [Hj <-]. rewrite lookup_app_l in Hx by lia. cbn. by eapply Hle, list_elem_of_lookup_2.
  - intros x [Hx|Hx%list_elem_of_singleton]%elem_of_app; [by apply Hle|]. by subst.
Qed.

(** The events kept with one more, when it was applied to the copy. *)
Lemma kept_remember i c h ev p :
  kept subagents published clock i c h -> honest subagents published ev -> em_instanceId (event_meta ev) = i ->
  applyAiSessionStreamEvent (Some c) ev = Applied p ->
  st_streamId p = em_streamId (event_meta ev) -> st_revision p = em_revision (event_meta ev) ->
  kept subagents published clock i p
    (match h with
     | (first, _) :: _ => if bool_decide (em_streamId (event_meta first) = em_streamId (event_meta ev)) then h else []
     | [] => h
     end ++ [(ev, clock)]).
Proof.
  intros [Hr He Ho] Hev Hi Ha Hps Hpr.
  assert (Hone : kept subagents published clock i p [(ev, clock)]).
  { split; cbn; rewrite ?Hps, ?Hpr; [by apply run_one|by intros e ->%list_elem_of_singleton|apply (in_order_snoc [] ev); split; [by intros|by intros x ?%elem_of_nil]]. }
  destruct h as [|[first t] h]; [done|]. destruct (bool_decide_reflect (em_streamId (event_meta first) = em_streamId (event_meta ev))) as [Hs|]; [|done].
  assert (Hf : follows (st_revision c) ev).
  { assert (Hsc : st_streamId c = em_streamId (event_meta ev)).
    { rewrite <- Hs. symmetry. apply (run_stream _ _ _ _ Hr). by left. }
    unfold follows, revision_of. destruct ev as [m sn|m u r|m u]; cbn [event_meta] in *; [| |done].
    - apply apply_snapshot_inv in Ha as [_ Ha]. split; [by apply Ha|done].
    - apply apply_patch_inv in Ha as (c' & [= <-] & _ & Hrev & _). by rewrite Hrev; split; [lia|]. }
  assert (Hsc : st_streamId c = st_streamId p).
  { rewrite Hps, <- Hs. symmetry. apply (run_stream _ _ _ _ Hr). by left. }
  split; rewrite ?fmap_app.
  - rewrite Hpr. eapply run_snoc; [rewrite <- Hsc; exact Hr|done|done|exact Hf].
  - intros e [Hin|Hin%list_elem_of_singleton]%elem_of_app; [by apply He|by subst].
  - by apply in_order_snoc.
Qed.

(** *** Events *)

Lemma ok_agg_apply ev recovering a : ok a -> honest subagents published ev -> ok (agg_apply clock ev recovering a).1.
Proof.
  intros Hok Hev. unfold agg_apply. cbv zeta. set (i := em_instanceId (event_meta ev)).
  destruct (match advertised_stream i a with Some _ => _ | None => _ end); [done|].
  assert (Hgo : ok (match applyAiSessionStreamEvent (projection_of i a) ev with
      | Applied projection => (emit (Notified i projection) (rememberEvent clock i ev (set_projection i projection a)), true)
      | Gap _ _ _ | SnapshotRequired _ _ => (recoverStream i (em_streamId (event_meta ev)) (em_revision (event_meta ev)) a, false)
      | Duplicate _ | Stale _ => (a, false) end).1).
  { destruct (applyAiSessionStreamEvent (projection_of i a) ev) as [p| | | |] eqn:Ha; cbn [fst]; [|done|done|by apply ok_recoverStream|by apply ok_recoverStream].
    destruct (apply_honest subagents published (projection_of i a) ev p Hwf Hev) as (Hp & Hps & Hpr); [by apply (ct_copies _ _ _ _ Hok)|done|].
    assert (Hem : forall a', ok a' -> ok (emit (Notified i p) a')).
    { intros a' [Hc' Hh' Hp' Hm']. split; [exact Hc'|exact Hh'| |exact Hm']. intros e. cbn [emit ag_emitted].
      intros [Hin|Hin%list_elem_of_singleton]%elem_of_app; [by apply Hp'|done]. }
    apply Hem. unfold rememberEvent. apply ok_prune. cbv zeta. cbn [set_projection ag_history].
    destruct Hok as [Hc Hh Hpa Hm]. split; [| |exact Hpa|by apply map_wf_mset]; unfold projection_of; cbn [with_history set_projection ag_snapshots ag_history].
    - intros j c. rewrite mget_mset. case_decide as Hj; [|apply Hc]. subst j. by intros [= <-].
    - intros j h. rewrite !mget_mset. case_decide as Hj; [|apply Hh]. subst j. intros [= <-]. exists p. split; [done|].
      destruct (mget i (ag_history a)) as [h|] eqn:Eh.
      + destruct (Hh _ _ Eh) as (c & Hci & Hk). rewrite Hci in Ha. by apply (kept_remember i c h ev p).
      + split; cbn; rewrite ?Hps, ?Hpr; [by apply run_one|by intros e ->%list_elem_of_singleton|].
        apply (in_order_snoc [] ev); split; [by intros|by intros x ?%elem_of_nil]. }
  destruct (mget i (ag_recoveries a)) as [r|]; [|exact Hgo]. destruct recovering; [exact Hgo|]. cbn [fst]. case_bool_decide; [by apply ok_recoveries|done].
Qed.

Lemma ok_handleEvent ev a : ok a -> honest subagents published ev -> ok (handleEvent clock ev a).1.
Proof.
  intros Hok Hev. unfold handleEvent, applySnapshot. destruct ev; try by apply ok_agg_apply. repeat case_match; try by apply ok_agg_apply. done.
Qed.

Lemma ok_apply_recovered recovering a ev : ok a -> honest subagents published ev -> ok (apply_recovered clock recovering a ev).
Proof.
  intros Hok Hev. unfold apply_recovered. assert (Ha := ok_agg_apply ev recovering a Hok Hev).
  destruct (agg_apply clock ev recovering a) as [a' [|]]; [|done]. destruct Ha as [Hc Hh Hp Hm]. split; [exact Hc|exact Hh| |exact Hm].
  intros e. cbn [emit ag_emitted]. intros [Hin|Hin%list_elem_of_singleton]%elem_of_app; [by apply Hp|]. by injection Hin as ->.
Qed.

Lemma ok_apply_all recovering evs : forall a, ok a -> (forall ev, ev ∈ evs -> honest subagents published ev) -> ok (foldl (apply_recovered clock recovering) a evs).
Proof.
  induction evs as [|ev evs IH]; intros a Hok Hevs; [done|]. cbn [foldl]. apply IH; [|intros; apply Hevs; by right].
  apply ok_apply_recovered; [done|]. apply Hevs. by left.
Qed.

Lemma honest_state_event i s : true_state subagents published i s -> honest subagents published (state_event i s).
Proof. done. Qed.

(** *** Recoveries *)

Lemma ok_continue i a : ok a -> ok (recovery_continue i a).
Proof. intros Hok. unfold recovery_continue. case_match; [by apply ok_settle|done]. Qed.

Lemma ok_round i a : ok a -> ok (recovery_round i a).
Proof. intros Hok. unfold recovery_round. repeat case_match; [by apply ok_settle|by apply ok_continue|done]. Qed.

Lemma ok_recovery_snapshot i s a : ok a -> true_state subagents published i s -> ok (recovery_snapshot clock i s a).
Proof.
  intros Hok Hs. unfold recovery_snapshot. case_match; [by apply ok_continue|]. apply ok_round, ok_apply_recovered; [done|by apply honest_state_event].
Qed.

Lemma ok_recovery_delta i delta a : ok a -> (forall ev, ev ∈ dr_events delta -> honest subagents published ev) -> ok (recovery_delta clock i delta a).
Proof.
  intros Hok Hd. unfold recovery_delta. destruct (mget i (ag_recoveries a)); [|done]. destruct (_ || _); [by apply ok_continue|].
  destruct (dr_syncRequired delta); [by apply ok_recoveries|]. cbv zeta.
  assert (Ha := ok_apply_all true (dr_events delta) a Hok Hd). destruct (mget i _); [|done]. by apply ok_round, ok_recoveries.
Qed.

(** *** Bootstrap *)

Lemma ok_adopt i o s a : ok a -> true_state subagents published i s -> ok (adopt_state clock i o s a).
Proof.
  intros Hok Hs. unfold adopt_state. assert (Ha := ok_apply_recovered false a (state_event i s) Hok (honest_state_event i s Hs)).
  repeat case_match; done.
Qed.

Lemma ok_bootstrap atStart entries a :
  ok a -> (forall e, e ∈ entries -> true_state subagents published (be_instanceId e) (be_state e)) -> ok (bootstrapFromInstances clock atStart entries a).
Proof.
  intros Hok He. unfold bootstrapFromInstances.
  assert (Hf : forall l a, ok a -> ok (foldl (forget_missing entries) a l)).
  { intros l. induction l as [|[i r] l IH]; intros a' Ha'; [done|]. cbn [foldl]. apply IH. unfold forget_missing. case_match; [done|by apply ok_remove]. }
  specialize (Hf atStart a Hok). generalize dependent (foldl (forget_missing entries) a atStart).
  enough (Hg : forall l a', (forall e, e ∈ l -> e ∈ entries) -> ok a' ->
     ok (foldl (fun a entry => adopt_state clock (be_instanceId entry) (mget (be_instanceId entry) atStart) (be_state entry) a) a' l)) by (intros; by apply Hg).
  intros l. induction l as [|e l IH]; intros a' Hl Ha'; [done|]. cbn [foldl]. apply IH; [intros; apply Hl; by right|].
  apply ok_adopt; [done|]. apply He, Hl. by left.
Qed.

(** *** What clients get *)

Lemma ok_delta oi stream since a a' delta :
  ok a -> agg_delta clock oi stream since a = Some (a', delta) -> ok a' /\ forall ev, ev ∈ dr_events delta -> honest subagents published ev.
Proof.
  intros Hok. unfold agg_delta. destruct (resolveDeltaInstanceId oi a) as [i|]; [|done]. cbv zeta. intros [= <- <-].
  assert (Hp := ok_prune clock i a Hok). split; [done|]. intros ev. apply delta_events.
  intros e. destruct (mget i _) as [h|] eqn:Eh; [|by intros ?%elem_of_nil]. destruct (ct_history _ _ _ _ Hp _ _ Eh) as (c & _ & Hk). apply (kept_honest _ _ _ _ _ _ Hk).
Qed.

Lemma projection_prune now i j (a : aggregator) : projection_of j (pruneHistory now i a) = projection_of j a.
Proof. unfold pruneHistory. by repeat case_match. Qed.

Lemma ok_view oi i s a : ok a -> (i, s) ∈ agg_view oi a -> true_state subagents published i s.
Proof.
  intros Hok Hv. unfold agg_view in Hv. apply list_elem_of_fmap in Hv as ([j o] & [= -> ->] & [_ Hin]%list_elem_of_filter).
  apply (ct_copies _ _ _ _ Hok). unfold projection_of. apply elem_mget in Hin as ->; [done|apply (ct_wf _ _ _ _ Hok)].
Qed.

(** The run that is kept for an instance, also when nothing is kept. *)
Lemma ok_kept_run i c a :
  ok a -> projection_of i a = Some c ->
  run_of i (st_streamId c) (st_revision c) (default [] (mget i (ag_history a))).*1 /\
  forall ev, ev ∈ (default [] (mget i (ag_history a))).*1 -> honest subagents published ev.
Proof.
  intros Hok Hc. destruct (mget i (ag_history a)) as [h|] eqn:Eh.
  - destruct (ct_history _ _ _ _ Hok _ _ Eh) as (c' & Hc' & Hk). rewrite Hc in Hc'. injection Hc' as <-. split; [apply Hk|apply (kept_honest _ _ _ _ _ _ Hk)].
  - split; [apply run_nil|by intros ev ?%elem_of_nil].
Qed.
End Kept.
End AggregatorFacts.
