(* ===== verification/BrowserStream.v ===== *)
(** * The browser's copies of the session streams

    [packages/control-plane-ui/src/apps/control-plane/sessionStreamRecovery.ts]
    and the part of [useAiSessionStore.ts] beside it that keeps a copy per
    instance: what is done with an event, how a copy that has fallen behind
    recovers, and how a recovery is retried or cancelled.  A recovery is cut
    where it awaits; a recovery that is cancelled is gone.  The text that is
    streaming is another store's; how long a retry waits, the abort signals
    and the log are left out. *)

From S2P Require Export Aggregator.

Section Browser.
Context {Content : Type} `{EqDecision Content}.
Abbreviation event := (AiSessionStreamEvent Content).
Abbreviation state := (AiSessionsState Content).
Abbreviation response := (@AiSessionDeltaResponse Content).

Inductive client_wait :=
| ClientSnapshot
| ClientDelta
| ClientFallback
| ClientRetry
| ClientWoken.

(** [cl_before] is the entry at the head of the pass. *)
Record client_recovery := ClientRecovery {
  cl_highWater : nat;
  cl_attempt : nat;
  cl_before : option (jsstring * nat);
  cl_wait : client_wait
}.

Record browser := Browser {
  br_scope : jsstring;
  br_entries : jsmap jsstring state;
  br_advertised : jsmap jsstring stream_descriptor;
  br_recoveries : jsmap jsstring client_recovery;
  br_knownInstanceIds : list jsstring
}.

Definition new_browser (scope : jsstring) : browser := Browser scope [] [] [] [].

Definition br_with_entries (e : jsmap jsstring state) (b : browser) : browser :=
  Browser (br_scope b) e (br_advertised b) (br_recoveries b) (br_knownInstanceIds b).
Definition br_with_advertised (a : jsmap jsstring stream_descriptor) (b : browser) : browser :=
  Browser (br_scope b) (br_entries b) a (br_recoveries b) (br_knownInstanceIds b).
Definition br_with_recoveries (r : jsmap jsstring client_recovery) (b : browser) : browser :=
  Browser (br_scope b) (br_entries b) (br_advertised b) r (br_knownInstanceIds b).

Definition acceptsInstance (b : browser) (instanceId : jsstring) : bool :=
  bool_decide (br_scope b = js "*") || bool_decide (br_scope b = instanceId).

Definition isConverged (entry : option state) (descriptor : stream_descriptor) (highWater : nat) : bool :=
  match entry with
  | Some e => bool_decide (st_streamId e = ds_streamId descriptor) && (highWater <=? st_revision e)
  | None => false
  end.

Definition descriptorThroughEvent (descriptor : option stream_descriptor) (meta : AiSessionEventMeta) : stream_descriptor :=
  StreamDescriptor (em_streamId meta)
    (match descriptor with
     | Some d => if bool_decide (ds_streamId d = em_streamId meta) then Nat.max (ds_latestRevision d) (em_revision meta) else em_revision meta
     | None => em_revision meta
     end).

(** [options.applySnapshot]: [applyRecoveredSnapshot]. *)
Definition applyRecoveredSnapshot (instanceId : jsstring) (s : state) (b : browser) : browser :=
  if acceptsInstance b instanceId then br_with_entries (mset instanceId s (br_entries b)) b else b.

(** ** Recovery *)

(** From the head of the loop to where it awaits; [None] when it ends. *)
Definition client_head (instanceId : jsstring) (highWater attempt : nat) (b : browser) : option client_recovery :=
  match mget instanceId (br_advertised b) with
  | None => None
  | Some descriptor =>
      let entry := mget instanceId (br_entries b) in
      if isConverged entry descriptor highWater then None else
      Some (ClientRecovery highWater attempt ((fun e => (st_streamId e, st_revision e)) <$> entry)
              (match entry with
               | Some e => if bool_decide (st_streamId e = ds_streamId descriptor) then ClientDelta else ClientSnapshot
               | None => ClientSnapshot
               end))
  end.

Definition client_settle (instanceId : jsstring) (r : option client_recovery) (b : browser) : browser :=
  br_with_recoveries (match r with Some r => mset instanceId r (br_recoveries b) | None => mdelete instanceId (br_recoveries b) end) b.

Definition wakeRecovery (r : client_recovery) : client_recovery :=
  match cl_wait r with ClientRetry => ClientRecovery (cl_highWater r) (cl_attempt r) (cl_before r) ClientWoken | _ => r end.

(** A recovery whose target is raised, and which does not wait any longer. *)
Definition raise_recovery (instanceId : jsstring) (r : client_recovery) (revision : nat) (b : browser) : browser :=
  client_settle instanceId (Some (wakeRecovery (ClientRecovery (Nat.max (cl_highWater r) revision) (cl_attempt r) (cl_before r) (cl_wait r)))) b.

Definition cancelRecovery (instanceId : jsstring) (b : browser) : browser := client_settle instanceId None b.

Definition start_recovery (instanceId : jsstring) (descriptor : stream_descriptor) (b : browser) : browser :=
  client_settle instanceId (client_head instanceId (ds_latestRevision descriptor) 0 b) b.

Definition recoverDescriptor (instanceId : jsstring) (descriptor : stream_descriptor) (b : browser) : browser :=
  let previous := mget instanceId (br_advertised b) in
  let b := br_with_advertised (mset instanceId descriptor (br_advertised b)) b in
  match mget instanceId (br_recoveries b) with
  | Some existing =>
      if bool_decide (ds_streamId <$> previous = Some (ds_streamId descriptor)) then raise_recovery instanceId existing (ds_latestRevision descriptor) b
      else start_recovery instanceId descriptor (cancelRecovery instanceId b)
  | None => start_recovery instanceId descriptor b
  end.

(** ** Events *)

(** The result says whether to apply the event, and the descriptor. *)
Definition observeEvent (meta : AiSessionEventMeta) (snapshot fromRecovery : bool) (b : browser) : browser * bool * stream_descriptor :=
  let instanceId := em_instanceId meta in
  let previous := mget instanceId (br_advertised b) in
  let changed := match previous with Some d => truthy (ds_streamId d) && negb (bool_decide (ds_streamId d = em_streamId meta)) | None => false end in
  let descriptor := descriptorThroughEvent previous meta in
  match previous with
  | Some d => if fromRecovery && changed then (b, false, d) else
              let b := br_with_advertised (mset instanceId descriptor (br_advertised b)) b in
              let b := match mget instanceId (br_recoveries b) with
                       | Some recovery => if changed then cancelRecovery instanceId b else
                                          if fromRecovery then b else raise_recovery instanceId recovery (em_revision meta) b
                       | None => b
                       end in
              if changed && negb snapshot then (if fromRecovery then b else recoverDescriptor instanceId descriptor b, false, descriptor)
              else (b, true, descriptor)
  | None =>
      let b := br_with_advertised (mset instanceId descriptor (br_advertised b)) b in
      let b := match mget instanceId (br_recoveries b) with
               | Some recovery => if fromRecovery then b else raise_recovery instanceId recovery (em_revision meta) b
               | None => b
               end in
      (b, true, descriptor)
  end.

Definition is_snapshot (ev : event) : bool := match ev with SnapshotEvent _ _ => true | _ => false end.

(** [applyControlPlaneAiSessionStreamEvent]: the result, and the entry after it. *)
Definition applyControlPlaneAiSessionStreamEvent (current : option state) (ev : event) : AiSessionStreamApplyResult * option state :=
  let result := applyAiSessionStreamEvent current ev in
  (result, match result with Applied projection => Some projection | _ => current end).

Definition applyEvent (ev : event) (fromRecovery : bool) (b : browser) : browser * bool :=
  let instanceId := em_instanceId (event_meta ev) in
  if negb (acceptsInstance b instanceId) then (b, false) else
  let '(b, apply, descriptor) := observeEvent (event_meta ev) (is_snapshot ev) fromRecovery b in
  if negb apply then (b, true) else
  match applyControlPlaneAiSessionStreamEvent (mget instanceId (br_entries b)) ev with
  | (Applied _, Some entry) => (br_with_entries (mset instanceId entry (br_entries b)) b, true)
  | _ =>
      let b := if fromRecovery then b else recoverDescriptor instanceId descriptor b in
      (b, match mget instanceId (br_advertised b) with Some d => truthy (ds_streamId d) | None => false end)
  end.

(** ** What a recovery does with its answers *)

Definition revision_or_before (entry : option (jsstring * nat)) : Z := match entry with Some (_, r) => Z.of_nat r | None => -1 end.

(** The end of a pass. *)
Definition client_pass_end (instanceId : jsstring) (failed : bool) (b : browser) : browser :=
  match mget instanceId (br_recoveries b) with
  | None => b
  | Some record =>
      match mget instanceId (br_advertised b) with
      | None => client_settle instanceId None b
      | Some descriptor =>
          let latest := mget instanceId (br_entries b) in
          let now := (fun e => (st_streamId e, st_revision e)) <$> latest in
          if isConverged latest descriptor (cl_highWater record) then client_settle instanceId None b else
          let progressed := negb (bool_decide (fst <$> now = fst <$> cl_before record)) || (revision_or_before (cl_before record) <? revision_or_before now)%Z in
          if progressed && negb failed then client_settle instanceId (client_head instanceId (cl_highWater record) 0 b) b
          else client_settle instanceId (Some (ClientRecovery (cl_highWater record) (cl_attempt record + 1) (cl_before record) ClientRetry)) b
      end
  end.

(** A snapshot of the advertised stream replaces an older copy. *)
Definition use_snapshot (instanceId : jsstring) (snapshot : option state) (b : browser) : browser :=
  match mget instanceId (br_advertised b), snapshot with
  | Some descriptor, Some s =>
      if bool_decide (st_streamId s = ds_streamId descriptor) then
        match mget instanceId (br_entries b) with
        | Some e => if bool_decide (st_streamId e = st_streamId s) && (st_revision s <=? st_revision e) then b else applyRecoveredSnapshot instanceId s b
        | None => applyRecoveredSnapshot instanceId s b
        end
      else b
  | _, _ => b
  end.

Definition client_snapshot (instanceId : jsstring) (snapshot : option state) (b : browser) : browser :=
  client_pass_end instanceId false (use_snapshot instanceId snapshot b).

Definition advertises (instanceId streamId : jsstring) (b : browser) : bool :=
  bool_decide (ds_streamId <$> mget instanceId (br_advertised b) = Some streamId).

Definition client_delta (instanceId : jsstring) (delta : response) (b : browser) : browser :=
  match mget instanceId (br_recoveries b) with
  | None => b
  | Some record =>
      match cl_before record with
      | None => b
      | Some (streamId, _) =>
          if bool_decide (dr_instanceId delta = instanceId) && bool_decide (dr_streamId delta = streamId) && advertises instanceId streamId b then
            if dr_syncRequired delta then
              client_settle instanceId (Some (ClientRecovery (cl_highWater record) (cl_attempt record) (cl_before record) ClientFallback)) b
            else
              let b := foldl (fun b ev => (applyEvent ev true b).1) b (dr_events delta) in
              let b := match mget instanceId (br_recoveries b) with
                       | Some record =>
                           if advertises instanceId streamId b then
                             client_settle instanceId (Some (ClientRecovery (Nat.max (cl_highWater record) (dr_latestRevision delta)) (cl_attempt record)
                                                               (cl_before record) (cl_wait record))) b
                           else b
                       | None => b
                       end in
              client_pass_end instanceId false b
          else client_pass_end instanceId false b
      end
  end.

Definition client_failed (instanceId : jsstring) (b : browser) : browser := client_pass_end instanceId true b.

(** The end of the wait for a retry. *)
Definition client_retry (instanceId : jsstring) (b : browser) : browser :=
  match mget instanceId (br_recoveries b) with
  | Some record =>
      match cl_wait record with
      | ClientRetry | ClientWoken => client_settle instanceId (client_head instanceId (cl_highWater record) (cl_attempt record) b) b
      | _ => b
      end
  | None => b
  end.

(** ** The list of instances *)

Definition cleanupInstance (instanceId : jsstring) (b : browser) : browser :=
  cancelRecovery instanceId (br_with_advertised (mdelete instanceId (br_advertised b)) b).

(** The watcher of the list. *)
Definition watch_instances (b : browser) : browser :=
  let nextInstanceIds := mkeys (br_entries b) in
  let b := foldl (fun b instanceId => if bool_decide (instanceId ∈ nextInstanceIds) then b else cleanupInstance instanceId b) b (br_knownInstanceIds b) in
  Browser (br_scope b) (br_entries b) (br_advertised b) (br_recoveries b) nextInstanceIds.
End Browser.

#[global] Arguments browser : clear implicits.
