(* ===== verification/BrowserStreamSpec.v ===== *)
(** * The browser's copies are true

    What changes a copy of the browser is applying an event and taking a
    snapshot; both keep the copies true when the event or the snapshot is. *)

From S2P Require Export SessionStreamSpec BrowserStream.

Section BrowserFacts.
Context {Content : Type} `{EqDecision Content}.
Abbreviation event := (AiSessionStreamEvent Content).
Abbreviation state := (AiSessionsState Content).
Abbreviation browser := (browser Content).

Definition browser_true (subagents : bool) (published : history) (b : browser) : Prop :=
  forall instanceId c, mget instanceId (br_entries b) = Some c -> true_state subagents published instanceId c.

Lemma browser_true_extends s p p' b : extends p p' -> browser_true s p b -> browser_true s p' b.
Proof. intros He Hb i c Hi. by eapply shows_extends, Hb. Qed.

Section True.
Context (subagents : bool) (published : @history Content) (Hwf : well_formed published).
Abbreviation ok := (browser_true subagents published).

(** ** What leaves the copies alone *)

Lemma entries_start i d (b : browser) : br_entries (start_recovery i d b) = br_entries b.
Proof. done. Qed.

Lemma entries_recoverDescriptor i d (b : browser) : br_entries (recoverDescriptor i d b) = br_entries b.
Proof. unfold recoverDescriptor. cbv zeta. by repeat case_match. Qed.

Lemma entries_observe meta snapshot rec (b : browser) : br_entries (observeEvent meta snapshot rec b).1.1 = br_entries b.
Proof.
  unfold observeEvent. cbv zeta. repeat case_match; cbn [fst]; rewrite ?entries_recoverDescriptor; done.
Qed.

Lemma entries_pass_end i failed (b : browser) : br_entries (client_pass_end i failed b) = br_entries b.
Proof. unfold client_pass_end. cbv zeta. by repeat case_match. Qed.

Lemma entries_cleanups (l next : list jsstring) : forall (b : browser),
  br_entries (foldl (fun b instanceId => if bool_decide (instanceId ∈ next) then b else cleanupInstance instanceId b) b l) = br_entries b.
Proof. induction l as [|i l IH]; intros b; [done|]. cbn [foldl]. rewrite IH. by case_match. Qed.

Lemma ok_entries (b b' : browser) : br_entries b' = br_entries b -> ok b -> ok b'.
Proof. intros He Hb i c. rewrite He. apply Hb. Qed.

(** ** What changes a copy *)

Lemma ok_set i s (b : browser) : ok b -> true_state subagents published i s -> ok (br_with_entries (mset i s (br_entries b)) b).
Proof. intros Hb Hs j c. cbn [br_with_entries br_entries]. rewrite mget_mset. case_decide as Hj; [|apply Hb]. subst j. by intros [= <-]. Qed.

Lemma ok_applyEvent ev rec b : ok b -> honest subagents published ev -> ok (applyEvent ev rec b).1.
Proof.
  intros Hb Hev. unfold applyEvent. cbv zeta. destruct (negb (acceptsInstance b _)); [done|].
  assert (Ho := entries_observe (event_meta ev) (is_snapshot ev) rec b).
  destruct (observeEvent (event_meta ev) (is_snapshot ev) rec b) as [[b' apply] d]. cbn [fst] in Ho.
  assert (Hb' : ok b') by (by apply (ok_entries b)). destruct (negb apply); [done|].
  assert (Hrest : ok (if rec then b' else recoverDescriptor (em_instanceId (event_meta ev)) d b')).
  { destruct rec; [done|]. by apply (ok_entries b'), Hb'; apply entries_recoverDescriptor. }
  unfold applyControlPlaneAiSessionStreamEvent. cbv zeta.
  destruct (applyAiSessionStreamEvent (mget (em_instanceId (event_meta ev)) (br_entries b')) ev) as [p| | | |] eqn:Ha; try exact Hrest.
  cbn [fst]. apply ok_set; [done|]. eapply (apply_honest subagents published); [done|done| |exact Ha]. apply Hb'.
Qed.

Lemma ok_applyEvents evs : forall b, ok b -> (forall ev, ev ∈ evs -> honest subagents published ev) ->
  ok (foldl (fun b ev => (applyEvent ev true b).1) b evs).
Proof.
  induction evs as [|ev evs IH]; intros b Hb Hevs; [done|]. cbn [foldl]. apply IH; [|intros; apply Hevs; by right].
  apply ok_applyEvent; [done|]. apply Hevs. by left.
Qed.

Lemma ok_recovered i s b : ok b -> true_state subagents published i s -> ok (applyRecoveredSnapshot i s b).
Proof. intros Hb Hs. unfold applyRecoveredSnapshot. case_match; [by apply ok_set|done]. Qed.

Lemma ok_client_snapshot i o b : ok b -> (forall s, o = Some s -> true_state subagents published i s) -> ok (client_snapshot i o b).
Proof.
  intros Hb Ho. unfold client_snapshot. eapply ok_entries; [apply entries_pass_end|]. unfold use_snapshot.
  destruct o as [s|]; [assert (Hs := Ho s eq_refl)|]; repeat case_match; done || by apply ok_recovered.
Qed.

Lemma ok_client_delta i delta b : ok b -> (forall ev, ev ∈ dr_events delta -> honest subagents published ev) -> ok (client_delta i delta b).
Proof.
  intros Hb Hd. unfold client_delta. cbv zeta. destruct (mget i (br_recoveries b)) as [r|]; [|done]. destruct (cl_before r) as [[s n]|]; [|done].
  destruct (_ && _); [|by eapply ok_entries; [apply entries_pass_end|]]. destruct (dr_syncRequired delta); [exact Hb|].
  eapply ok_entries; [apply entries_pass_end|]. assert (He := ok_applyEvents (dr_events delta) b Hb Hd). by repeat case_match.
Qed.

Lemma ok_client_failed i b : ok b -> ok (client_failed i b).
Proof. apply ok_entries, entries_pass_end. Qed.

Lemma ok_client_retry i b : ok b -> ok (client_retry i b).
Proof. intros Hb. unfold client_retry. by repeat case_match. Qed.

Lemma ok_recoverDescriptor i d b : ok b -> ok (recoverDescriptor i d b).
Proof. apply ok_entries, entries_recoverDescriptor. Qed.

Lemma ok_loaded l b : (forall i s, (i, s) ∈ l -> true_state subagents published i s) -> ok (br_with_entries l b).
Proof. intros Hl i c Hc. by apply Hl, mget_Some_elem. Qed.

Lemma ok_watch b : ok b -> ok (watch_instances b).
Proof. apply ok_entries. unfold watch_instances. cbv zeta. cbn [br_entries]. apply entries_cleanups. Qed.
End True.
End BrowserFacts.
