(* ===== verification/AggregatorRecovery.v ===== *)
(** * A recovery of the control plane ends

    When the instance whose stream is advertised answers, three answers are
    enough: the first may be to a question that is out of date, the second may
    say that the events are no longer kept, the third is the snapshot. *)

From S2P Require Export AggregatorSpec.

Section Recovery.
Context {Content : Type} `{EqDecision Content}.
Abbreviation event := (AiSessionStreamEvent Content).
Abbreviation state := (AiSessionsState Content).
Abbreviation aggregator := (aggregator Content).

(** The instance answers what the recovery waits for. *)
Definition answer_recovery (now producerNow startedAt : Z) (live : AiSessionsSnapshot Content) (p : publisher Content) (a : aggregator) : aggregator :=
  let instanceId := pb_instanceId p in
  match mget instanceId (ag_recoveries a) with
  | None => a
  | Some record =>
      match rc_wait record with
      | AwaitSnapshot | AwaitFallback => recovery_snapshot now instanceId (aiSessionsState true startedAt live p) a
      | AwaitDelta streamId sinceRevision => recovery_delta now instanceId (aiSessionDeltaSince producerNow streamId sinceRevision p).2 a
      end
  end.

Section Answered.
Context (subagents : bool) (published : @history Content) (clock producerNow startedAt : Z) (live : AiSessionsSnapshot Content).
Context (p : publisher Content) (d : stream_descriptor) (target : nat).
Hypothesis Hwf : well_formed published.
Hypothesis Hp : publisher_true published p.
Hypothesis Hstream : ds_streamId d = pb_streamId p.
Hypothesis Hlatest : ds_latestRevision d <= pb_revision p.

Abbreviation i := (pb_instanceId p).
Abbreviation s := (pb_streamId p).

(** A recovery that will not end before [target] and can end. *)
Definition aimed (streamId : jsstring) (highWater : nat) : Prop :=
  if decide (streamId = s) then target <= Nat.max (ds_latestRevision d) highWater /\ highWater <= pb_revision p else target <= ds_latestRevision d.

Definition settled (a : aggregator) : Prop :=
  mget i (ag_recoveries a) = None /\ exists c, projection_of i a = Some c /\ st_streamId c = s /\ target <= st_revision c.

(** How many answers are left. *)
Inductive stage : nat -> aggregator -> Prop :=
| stage_settled a : settled a -> stage 0 a
| stage_snapshot a r : mget i (ag_recoveries a) = Some r -> aimed (rc_streamId r) (rc_highWater r) ->
    rc_wait r = AwaitSnapshot \/ rc_wait r = AwaitFallback -> stage 1 a
| stage_delta a r c : mget i (ag_recoveries a) = Some r -> rc_streamId r = s -> aimed s (rc_highWater r) ->
    projection_of i a = Some c -> st_streamId c = s -> st_revision c <= pb_revision p -> rc_wait r = AwaitDelta s (st_revision c) -> stage 2 a
| stage_any a r : mget i (ag_recoveries a) = Some r -> aimed (rc_streamId r) (rc_highWater r) -> stage 3 a.

(** ** The loop *)

Definition on_stream (a : aggregator) : Prop := mget i (ag_advertisedStreams a) = Some d /\ control_true subagents published clock a.

Lemma settle_advertised j o (a : aggregator) : ag_advertisedStreams (settle_recovery j o a) = ag_advertisedStreams a.
Proof. by destruct o. Qed.

Lemma settle_projection j k o (a : aggregator) : projection_of k (settle_recovery j o a) = projection_of k a.
Proof. by destruct o. Qed.

Lemma complete_settled hw a : on_stream a -> aimed s hw -> recovery_complete i hw a = true -> settled (settle_recovery i Returned a).
Proof.
  intros [Ha _] Haim Hc. split; [apply mget_mdelete_eq|]. rewrite settle_projection.
  unfold recovery_complete in Hc. rewrite Ha in Hc. destruct (projection_of i a) as [c|]; [|done].
  apply andb_true_iff in Hc as [Hs%bool_decide_eq_true Hle%Nat.leb_le]. exists c. split_and!; [done|congruence|].
  unfold aimed in Haim. rewrite decide_True in Haim by done. lia.
Qed.

Lemma head_stage rs hw a : on_stream a -> aimed rs hw -> exists k, k <= 2 /\ stage k (settle_recovery i (recovery_head i rs hw a) a).
Proof.
  intros Hon Haim. assert (Ha := proj1 Hon). unfold recovery_head. rewrite Ha.
  assert (Hpair : exists hw', (if bool_decide (rs = ds_streamId d) then (rs, hw) else (ds_streamId d, ds_latestRevision d)) = (s, hw') /\ aimed s hw').
  { unfold aimed in *. case_bool_decide as Hrs; rewrite Hstream in *; eexists; (split; [by f_equal|]); rewrite decide_True by done;
      [by rewrite decide_True in Haim|]. rewrite decide_False in Haim by done. lia. }
  destruct Hpair as (hw' & -> & Haim'). clear Haim.
  assert (Hset : forall r, mget i (ag_recoveries (settle_recovery i (Waiting r) a)) = Some r) by (intros; apply mget_mset_eq).
  assert (Hsnap : exists k, k <= 2 /\ stage k (settle_recovery i (Waiting (Recovery s hw' AwaitSnapshot)) a)).
  { exists 1. split; [lia|]. eapply stage_snapshot; [apply Hset|done|by left]. }
  destruct (projection_of i a) as [c|] eqn:Ec; [|done].
  destruct (bool_decide_reflect (st_streamId c = ds_streamId d)) as [Hcs|]; [|done]. cbn [negb].
  destruct (Nat.ltb_spec (st_revision c) (Nat.max (ds_latestRevision d) hw')) as [Hlt|Hge].
  - exists 2. split; [lia|]. rewrite Hstream in Hcs. eapply stage_delta; [apply Hset|done|done|by rewrite settle_projection|done| |by rewrite Hcs].
    unfold aimed in Haim'. rewrite decide_True in Haim' by done. lia.
  - assert (Hcomp : recovery_complete i hw' a = true).
    { unfold recovery_complete. rewrite Ec, Ha, bool_decide_true by done. by apply Nat.leb_le. }
    rewrite Hcomp. exists 0. split; [lia|]. constructor. by eapply complete_settled.
Qed.

Lemma continue_stage a r : on_stream a -> mget i (ag_recoveries a) = Some r -> aimed (rc_streamId r) (rc_highWater r) ->
  exists k, k <= 2 /\ stage k (recovery_continue i a).
Proof. intros Hon Hr Haim. unfold recovery_continue. rewrite Hr. by apply head_stage. Qed.

Lemma round_stage a r : on_stream a -> mget i (ag_recoveries a) = Some r -> rc_streamId r = s -> aimed s (rc_highWater r) ->
  exists k, k <= 2 /\ stage k (recovery_round i a).
Proof.
  intros Hon Hr Hrs Haim. unfold recovery_round. rewrite Hr. destruct (recovery_complete i (rc_highWater r) a) eqn:Ec.
  - exists 0. split; [lia|]. constructor. by eapply complete_settled.
  - eapply continue_stage; [done|done|by rewrite Hrs].
Qed.

(** ** An event of the stream *)

Lemma agg_apply_recovering now ev (a : aggregator) :
  advertised_stream (em_instanceId (event_meta ev)) a = Some (em_streamId (event_meta ev)) ->
  agg_apply now ev true a =
  match applyAiSessionStreamEvent (projection_of (em_instanceId (event_meta ev)) a) ev with
  | Applied projection => (emit (Notified (em_instanceId (event_meta ev)) projection)
      (rememberEvent now (em_instanceId (event_meta ev)) ev (set_projection (em_instanceId (event_meta ev)) projection a)), true)
  | Gap _ _ _ | SnapshotRequired _ _ => (recoverStream (em_instanceId (event_meta ev)) (em_streamId (event_meta ev)) (em_revision (event_meta ev)) a, false)
  | Duplicate _ | Stale _ => (a, false)
  end.
Proof.
  intros Ha. unfold agg_apply. cbv zeta. rewrite Ha, bool_decide_true by done. rewrite andb_false_r.
  by destruct (mget (em_instanceId (event_meta ev)) (ag_recoveries a)).
Qed.

Lemma prune_same now j (a : aggregator) :
  ag_advertisedStreams (pruneHistory now j a) = ag_advertisedStreams a /\ ag_recoveries (pruneHistory now j a) = ag_recoveries a.
Proof. unfold pruneHistory. by repeat case_match. Qed.

Lemma recoverStream_advertised j k n (a : aggregator) : ag_advertisedStreams (recoverStream j k n a) = ag_advertisedStreams a.
Proof. unfold recoverStream. case_match; [done|apply settle_advertised]. Qed.

(** What applying an event while recovering does, besides the history. *)
Lemma apply_recovered_spec now ev a :
  on_stream a -> em_instanceId (event_meta ev) = i -> em_streamId (event_meta ev) = s ->
  ag_advertisedStreams (apply_recovered now true a ev) = ag_advertisedStreams a /\
  match applyAiSessionStreamEvent (projection_of i a) ev with
  | Applied c => projection_of i (apply_recovered now true a ev) = Some c /\ ag_recoveries (apply_recovered now true a ev) = ag_recoveries a
  | Duplicate _ | Stale _ => apply_recovered now true a ev = a
  | Gap _ _ _ | SnapshotRequired _ _ => apply_recovered now true a ev = recoverStream i s (em_revision (event_meta ev)) a
  end.
Proof.
  intros [Ha _] Hi Hs. unfold apply_recovered. rewrite agg_apply_recovering; rewrite Hi, Hs; [|unfold advertised_stream; rewrite Ha; cbn; by rewrite Hstream].
  destruct (applyAiSessionStreamEvent (projection_of i a) ev) as [c| | | |]; cbn [fst]; try by rewrite recoverStream_advertised.
  - unfold rememberEvent. cbv zeta. unfold projection_of. cbn [emit ag_advertisedStreams ag_recoveries ag_snapshots].
    rewrite !(proj1 (prune_same _ _ _)), (proj2 (prune_same _ _ _)). split_and!; [done| |done].
    match goal with |- pj_state <$> mget _ (ag_snapshots (pruneHistory ?t ?j ?x)) = _ => change (projection_of i (pruneHistory t j x) = Some c) end.
    rewrite projection_prune. unfold projection_of. cbn [with_history set_projection ag_snapshots]. by rewrite mget_mset_eq.
  - done.
  - done.
Qed.

Lemma on_stream_apply ev a : on_stream a -> honest subagents published ev -> em_instanceId (event_meta ev) = i -> em_streamId (event_meta ev) = s ->
  on_stream (apply_recovered clock true a ev).
Proof.
  intros Hon Hev Hi Hs. split.
  - rewrite (proj1 (apply_recovered_spec clock ev a Hon Hi Hs)). apply Hon.
  - apply ok_apply_recovered; [done|apply Hon|done].
Qed.

(** ** Answers *)

Lemma on_stream_continue a : on_stream a -> on_stream (recovery_continue i a).
Proof.
  intros [Ha Hc]. split; [|by apply ok_continue]. unfold recovery_continue. case_match; [by rewrite settle_advertised|done].
Qed.

Lemma on_stream_round a : on_stream a -> on_stream (recovery_round i a).
Proof.
  intros [Ha Hc]. split; [|by apply ok_round]. unfold recovery_round. destruct (mget i (ag_recoveries a)); [|done].
  case_match; [by rewrite settle_advertised|by apply on_stream_continue].
Qed.

(** The snapshot of the instance ends the recovery. *)
Lemma snapshot_stage a r : on_stream a -> mget i (ag_recoveries a) = Some r -> aimed (rc_streamId r) (rc_highWater r) ->
  settled (recovery_snapshot clock i (aiSessionsState true startedAt live p) a) /\ on_stream (recovery_snapshot clock i (aiSessionsState true startedAt live p) a).
Proof.
  intros Hon Hr Haim. unfold recovery_snapshot. set (st := aiSessionsState true startedAt live p).
  assert (Hsame : same_stream i (st_streamId st) a = true).
  { unfold same_stream, advertised_stream. rewrite (proj1 Hon). cbn. apply bool_decide_true. by rewrite Hstream. }
  rewrite Hsame. cbn [negb]. set (ev := state_event i st).
  assert (Hev : honest subagents published ev).
  { apply honest_state_event. by apply state_true. }
  assert (Hon' := on_stream_apply ev a Hon Hev eq_refl eq_refl). split; [|by apply on_stream_round].
  destruct (apply_recovered_spec clock ev a Hon eq_refl eq_refl) as [_ Hspec]. set (a' := apply_recovered clock true a ev) in *.
  assert (Hcopy : mget i (ag_recoveries a') = Some r /\ exists c, projection_of i a' = Some c /\ st_streamId c = s /\ pb_revision p <= st_revision c).
  { unfold applyAiSessionStreamEvent in Hspec. cbn [ev state_event event_meta em_streamId em_revision st aiSessionsState st_streamId st_revision] in Hspec.
    destruct (projection_of i a) as [c|] eqn:Ec.
    - destruct (bool_decide_reflect (st_streamId c = s)) as [Hcs|Hcs]; cbn [andb] in Hspec.
      + destruct (Nat.eqb_spec (pb_revision p) (st_revision c)) as [Heq|]; [rewrite Hspec; split; [done|exists c; split_and!; (done || lia)]|].
        destruct (Nat.ltb_spec (pb_revision p) (st_revision c)); [rewrite Hspec; split; [done|exists c; split_and!; (done || lia)]|].
        destruct Hspec as [Hpr ->]. split; [done|]. eexists. split; [exact Hpr|]. done.
      + destruct Hspec as [Hpr ->]. split; [done|]. eexists. split; [exact Hpr|]. done.
    - destruct Hspec as [Hpr ->]. split; [done|]. eexists. split; [exact Hpr|]. done. }
  destruct Hcopy as (Hr' & c & Hc & Hcs & Hge). unfold recovery_round. rewrite Hr'.
  assert (Hle : target <= st_revision c) by (unfold aimed in Haim; case_decide; lia).
  assert (Hset : settled (settle_recovery i Returned a')).
  { split; [apply mget_mdelete_eq|]. exists c. by rewrite settle_projection. }
  destruct (recovery_complete i (rc_highWater r) a') eqn:Ecomp; [done|].
  unfold recovery_continue. rewrite Hr'. unfold recovery_head. rewrite (proj1 Hon').
  destruct (bool_decide_reflect (rc_streamId r = ds_streamId d)) as [Hrs|Hrs].
  - exfalso. unfold recovery_complete in Ecomp. rewrite Hc, (proj1 Hon'), bool_decide_true in Ecomp by congruence. cbn [andb] in Ecomp.
    apply Nat.leb_gt in Ecomp. unfold aimed in Haim. rewrite decide_True in Haim by congruence. lia.
  - rewrite Hc, bool_decide_true by congruence. cbn [negb]. destruct (Nat.ltb_spec (st_revision c) (Nat.max (ds_latestRevision d) (ds_latestRevision d))); [lia|].
    unfold recovery_complete. rewrite Hc, (proj1 Hon'), bool_decide_true by congruence. cbn [andb]. by rewrite (proj2 (Nat.leb_le _ _)) by lia.
Qed.

(** *** The events since a revision *)

Definition ours (ev : event) : Prop :=
  em_instanceId (event_meta ev) = i /\ em_streamId (event_meta ev) = s /\ honest subagents published ev /\ revision_of ev <= pb_revision p.

Lemma aimed_raise hw rev : aimed s hw -> rev <= pb_revision p -> aimed s (Nat.max hw rev).
Proof. unfold aimed. rewrite !decide_True by done. lia. Qed.

Lemma apply_all_recovering evs : forall a r,
  on_stream a -> mget i (ag_recoveries a) = Some r -> rc_streamId r = s -> aimed s (rc_highWater r) -> (forall ev, ev ∈ evs -> ours ev) ->
  on_stream (foldl (apply_recovered clock true) a evs) /\
  exists hw, mget i (ag_recoveries (foldl (apply_recovered clock true) a evs)) = Some (Recovery s hw (rc_wait r)) /\ aimed s hw.
Proof.
  induction evs as [|ev evs IH]; intros a r Hon Hr Hrs Haim Hours.
  { split; [done|]. exists (rc_highWater r). split; [|done]. cbn. rewrite Hr, <- Hrs. by destruct r. }
  destruct (Hours ev ltac:(by left)) as (Hi & Hs & Hev & Hrev). cbn [foldl].
  assert (Hon' := on_stream_apply ev a Hon Hev Hi Hs). destruct (apply_recovered_spec clock ev a Hon Hi Hs) as [_ Hspec].
  assert (Hr' : exists hw, mget i (ag_recoveries (apply_recovered clock true a ev)) = Some (Recovery s hw (rc_wait r)) /\ aimed s hw).
  { assert (Hkeep : exists hw, mget i (ag_recoveries a) = Some (Recovery s hw (rc_wait r)) /\ aimed s hw).
    { exists (rc_highWater r). split; [|done]. rewrite Hr, <- Hrs. by destruct r. }
    assert (Hraise : exists hw, mget i (ag_recoveries (recoverStream i s (em_revision (event_meta ev)) a)) = Some (Recovery s hw (rc_wait r)) /\ aimed s hw).
    { unfold recoverStream. rewrite Hr, bool_decide_true by done. eexists. cbn [with_recoveries ag_recoveries]. rewrite mget_mset_eq.
      split; [done|]. by apply aimed_raise. }
    destruct (applyAiSessionStreamEvent (projection_of i a) ev); [destruct Hspec as [_ ->]; done|by rewrite Hspec..]. }
  destruct Hr' as (hw & Hr' & Haim'). apply (IH _ (Recovery s hw (rc_wait r))); try done. intros e He. apply Hours. by right.
Qed.

Lemma apply_all_follow evs : forall a c c',
  on_stream a -> projection_of i a = Some c -> follow c evs = Some c' -> (forall ev, ev ∈ evs -> ours ev) ->
  projection_of i (foldl (apply_recovered clock true) a evs) = Some c'.
Proof.
  induction evs as [|ev evs IH]; intros a c c' Hon Hc Hf Hours; cbn [follow] in Hf; [by injection Hf as <-|].
  destruct (Hours ev ltac:(by left)) as (Hi & Hs & Hev & _). cbn [foldl]. destruct (apply_recovered_spec clock ev a Hon Hi Hs) as [_ Hspec].
  rewrite Hc in Hspec. destruct (applyAiSessionStreamEvent (Some c) ev) as [c1| | | |]; try done. destruct Hspec as [Hc1 _].
  apply (IH _ c1); [by apply on_stream_apply|done|done|]. intros e He. apply Hours. by right.
Qed.

Lemma honest_revision ev : em_instanceId (event_meta ev) = i -> em_streamId (event_meta ev) = s -> honest true published ev -> revision_of ev <= pb_revision p.
Proof.
  rewrite <- (pt_length _ _ Hp). unfold revision_of. intros Hi Hs.
  assert (Hle : forall r t, at_revision (published i s) r = Some t -> r <= length (published i s)).
  { intros [|r] t Ht; [lia|]. apply lookup_lt_Some in Ht. lia. }
  destruct ev as [m sn|m u r|m u]; cbn [honest event_meta] in *; [| |done].
  - intros [->|(t & Ht & _)]; [lia|]. rewrite Hi, Hs in Ht. by eapply Hle.
  - intros (k & prev & next & -> & _ & _ & Hn & _). rewrite Hi, Hs in Hn. by eapply Hle.
Qed.

Lemma delta_ours now t since ev : ev ∈ dr_events (aiSessionDeltaSince now t since p).2 -> ours ev.
Proof.
  assert (Hpr := prune_true published now p Hp). intros Hin.
  assert (Hevs := fun P Hall => delta_events P (pb_history (pruneAiSessionEventHistory now p)) _ _ _ _ _ ev Hall Hin).
  assert (Hst := Hevs _ (run_stream _ _ _ _ (pt_run _ _ Hpr))). assert (Hh := Hevs _ (pt_honest _ _ Hpr)). destruct Hst as [Hi Hs].
  split_and!; [exact Hi|exact Hs|by apply honest_weaken|by apply honest_revision].
Qed.

Lemma delta_fields now t since :
  dr_streamId (aiSessionDeltaSince now t since p).2 = s /\ dr_latestRevision (aiSessionDeltaSince now t since p).2 = pb_revision p.
Proof. unfold aiSessionDeltaSince, delta_response. cbv zeta. by repeat case_match. Qed.

(** What the recovery does with an answer that holds events. *)
Lemma delta_answer a r t since :
  on_stream a -> mget i (ag_recoveries a) = Some r -> rc_streamId r = s -> aimed s (rc_highWater r) ->
  let delta := (aiSessionDeltaSince producerNow t since p).2 in
  let a' := foldl (apply_recovered clock true) a (dr_events delta) in
  dr_syncRequired delta = false ->
  exists a2 hw, recovery_delta clock i delta a = recovery_round i a2 /\ projection_of i a2 = projection_of i a' /\ on_stream a2 /\
    mget i (ag_recoveries a2) = Some (Recovery s hw (rc_wait r)) /\ hw = pb_revision p /\ aimed s hw.
Proof.
  intros Hon Hr Hrs Haim delta a' Hsync. destruct (delta_fields producerNow t since) as [Hds Hdl].
  destruct (apply_all_recovering (dr_events delta) a r Hon Hr Hrs Haim (delta_ours _ _ _)) as (Hon' & hw & Hr' & Haim').
  unfold recovery_delta. rewrite Hr. fold delta in Hds, Hdl. rewrite Hds, Hdl, Hsync.
  assert (Hsame : same_stream i s a = true).
  { unfold same_stream, advertised_stream. rewrite (proj1 Hon). cbn. apply bool_decide_true. by rewrite Hstream. }
  rewrite Hsame, bool_decide_true by done. cbn [negb orb]. cbv zeta. fold a'. fold a' in Hon', Hr'. rewrite Hr'. cbn [rc_streamId rc_highWater rc_wait].
  eexists _, (Nat.max hw (pb_revision p)). split; [done|]. split_and!.
  - done.
  - split; [apply Hon'|apply ok_recoveries, Hon'].
  - apply mget_mset_eq.
  - unfold aimed in Haim'. rewrite decide_True in Haim' by done. lia.
  - by apply aimed_raise.
Qed.

(** *** Every answer brings the recovery closer to its end *)

Lemma fallback_stage a r : mget i (ag_recoveries a) = Some r -> aimed (rc_streamId r) (rc_highWater r) ->
  stage 1 (with_recoveries (mset i (Recovery (rc_streamId r) (rc_highWater r) AwaitFallback) (ag_recoveries a)) a).
Proof. intros Hr Haim. eapply stage_snapshot; [apply mget_mset_eq|exact Haim|by right]. Qed.

Lemma on_stream_recoveries l a : on_stream a -> on_stream (with_recoveries l a).
Proof. intros [Ha Hc]. split; [done|by apply ok_recoveries]. Qed.

(** Any answer with events, whatever it was asked for. *)
Lemma delta_stage a r t since : on_stream a -> mget i (ag_recoveries a) = Some r -> aimed (rc_streamId r) (rc_highWater r) ->
  let a' := recovery_delta clock i (aiSessionDeltaSince producerNow t since p).2 a in on_stream a' /\ exists k, k <= 2 /\ stage k a'.
Proof.
  intros Hon Hr Haim a'. destruct (delta_fields producerNow t since) as [Hds _].
  destruct (decide (rc_streamId r = s)) as [Hrs|Hrs].
  - destruct (dr_syncRequired (aiSessionDeltaSince producerNow t since p).2) eqn:Hsync.
    + unfold a', recovery_delta. rewrite Hr, Hds, Hsync. unfold same_stream, advertised_stream. rewrite (proj1 Hon). cbn [fmap option_fmap option_map].
      rewrite Hstream, !bool_decide_true by done. cbn [negb orb]. split; [by apply on_stream_recoveries|]. exists 1. split; [lia|]. by apply fallback_stage.
    + rewrite Hrs in Haim. destruct (delta_answer a r t since Hon Hr Hrs Haim Hsync) as (a2 & hw & Ha2 & _ & Hon2 & Hr2 & _ & Haim2).
      unfold a'. rewrite Ha2. split; [by apply on_stream_round|]. by eapply round_stage.
  - assert (Hcont : a' = recovery_continue i a).
    { unfold a', recovery_delta. rewrite Hr, Hds. rewrite (bool_decide_false (rc_streamId r = s)) by done. by rewrite orb_true_r. }
    rewrite Hcont. split; [by apply on_stream_continue|]. by eapply continue_stage.
Qed.

(** The answer to a question about the copy as it is. *)
Lemma fresh_stage a r c : on_stream a -> mget i (ag_recoveries a) = Some r -> rc_streamId r = s -> aimed s (rc_highWater r) ->
  projection_of i a = Some c -> st_streamId c = s -> st_revision c <= pb_revision p ->
  let a' := recovery_delta clock i (aiSessionDeltaSince producerNow s (st_revision c) p).2 a in on_stream a' /\ exists k, k <= 1 /\ stage k a'.
Proof.
  intros Hon Hr Hrs Haim Hc Hcs Hle a'. split.
  { apply (delta_stage a r s (st_revision c) Hon Hr). by rewrite Hrs. }
  destruct (dr_syncRequired (aiSessionDeltaSince producerNow s (st_revision c) p).2) eqn:Hsync.
  - exists 1. split; [lia|]. unfold a', recovery_delta. rewrite Hr. rewrite (proj1 (delta_fields _ _ _)), Hsync.
    unfold same_stream, advertised_stream. rewrite (proj1 Hon). cbn [fmap option_fmap option_map]. rewrite Hstream, !bool_decide_true by done.
    cbn [negb orb]. apply fallback_stage; [done|by rewrite Hrs].
  - exists 0. split; [lia|]. constructor.
    destruct (delta_answer a r s (st_revision c) Hon Hr Hrs Haim Hsync) as (a2 & hw & Ha2 & Hpr & Hon2 & Hr2 & Hhw & Haim2).
    assert (Hpt := prune_true published producerNow p Hp).
    destruct (delta_follow subagents published i s (pb_revision p) (pb_history (pruneAiSessionEventHistory producerNow p)).*1 c) as (c' & Hf & Ht & Hs' & Hr').
    + done.
    + apply (pt_run _ _ Hpt).
    + intros ev Hev. by apply honest_weaken, (pt_honest _ _ Hpt).
    + by apply (ct_copies _ _ _ _ (proj2 Hon)).
    + done.
    + rewrite Hcs. exact Hsync.
    + assert (Hc' : projection_of i a2 = Some c').
      { rewrite Hpr. apply (apply_all_follow _ a c); [done|done| |apply delta_ours]. rewrite Hcs in Hf. exact Hf. }
      unfold a'. rewrite Ha2. unfold recovery_round. rewrite Hr2. cbn [rc_highWater].
      assert (Hcomp : recovery_complete i hw a2 = true).
      { unfold recovery_complete. rewrite Hc', (proj1 Hon2), bool_decide_true by congruence. apply Nat.leb_le. lia. }
      rewrite Hcomp. by eapply complete_settled.
Qed.

Abbreviation answer := (answer_recovery clock producerNow startedAt live p).

Lemma answer_stage k a : on_stream a -> stage k a -> on_stream (answer a) /\ exists k', k' <= pred k /\ stage k' (answer a).
Proof.
  intros Hon Hst. unfold answer_recovery. cbv zeta. destruct Hst as [a Hset|a r Hr Haim Hw|a r c Hr Hrs Haim Hc Hcs Hle Hw|a r Hr Haim].
  - rewrite (proj1 Hset). split; [done|]. exists 0. split; [done|by constructor].
  - rewrite Hr. destruct (snapshot_stage a r Hon Hr Haim) as [Hs Hon']. destruct Hw as [-> | ->]; (split; [done|]; exists 0; split; [lia|by constructor]).
  - rewrite Hr, Hw. by apply (fresh_stage a r c).
  - rewrite Hr. destruct (snapshot_stage a r Hon Hr Haim) as [Hs Hon'].
    destruct (rc_wait r) as [|t since|]; [split; [done|]; exists 0; split; [lia|by constructor]| |split; [done|]; exists 0; split; [lia|by constructor]].
    by apply (delta_stage a r t since).
Qed.

Lemma three_answers a r : on_stream a -> mget i (ag_recoveries a) = Some r -> aimed (rc_streamId r) (rc_highWater r) ->
  settled (answer (answer (answer a))).
Proof.
  intros Hon Hr Haim. destruct (answer_stage 3 a Hon (stage_any a r Hr Haim)) as (Hon1 & k1 & Hk1 & Hs1).
  destruct (answer_stage k1 _ Hon1 Hs1) as (Hon2 & k2 & Hk2 & Hs2). destruct (answer_stage k2 _ Hon2 Hs2) as (Hon3 & k3 & Hk3 & Hs3).
  assert (k3 = 0) as -> by lia. by inversion Hs3.
Qed.
End Answered.

(** C33. A recovery ends: when the instance whose stream is advertised has
    reached the revisions that the recovery was told of and answers what it is
    asked, then after three answers at most the recovery is over and the copy
    is on the advertised stream at no earlier revision than any of them. *)
Theorem recovery_catches_up subagents published clock producerNow startedAt live (p : publisher Content) d r (a : aggregator) :
  well_formed published -> publisher_true published p -> control_true subagents published clock a ->
  mget (pb_instanceId p) (ag_advertisedStreams a) = Some d -> ds_streamId d = pb_streamId p ->
  mget (pb_instanceId p) (ag_recoveries a) = Some r ->
  let target := Nat.max (ds_latestRevision d) (if decide (rc_streamId r = pb_streamId p) then rc_highWater r else 0) in
  target <= pb_revision p ->
  let a' := Nat.iter 3 (answer_recovery clock producerNow startedAt live p) a in
  mget (pb_instanceId p) (ag_recoveries a') = None /\
  exists c, projection_of (pb_instanceId p) a' = Some c /\ st_streamId c = pb_streamId p /\ target <= st_revision c.
Proof.
  intros Hwf Hp Hc Ha Hs Hr target Hle. apply (three_answers subagents published clock producerNow startedAt live p d target Hwf Hp Hs ltac:(lia) a r); [by split|done|].
  unfold aimed, target in *. case_decide; lia.
Qed.
End Recovery.
