(* ===== verification/SessionReplication.v ===== *)
(** * The sessions of every instance, and every copy of them

    Controlled instances publish, a node agent records and replays, the
    control plane follows and passes on, a browser follows.  Whatever was sent
    may be delivered at any time, any number of times or never: nothing is
    taken out of [nt_events], [nt_states] and [nt_deltas].  [nt_published] is
    what the instances have published, which only the statements look at.
    With [subagents] false the consumers on the way may ask without
    [hierarchy=subagents], as [bootstrapAiSessionsFromInstances] does. *)

From S2P Require Export AggregatorSpec BrowserStreamSpec.

Section Replication.
Context {Content : Type} `{EqDecision Content}.
Abbreviation event := (AiSessionStreamEvent Content).
Abbreviation state := (AiSessionsState Content).
Abbreviation response := (@AiSessionDeltaResponse Content).

Record net := Net {
  nt_published : @history Content;
  nt_publishers : jsmap jsstring (publisher Content);
  nt_events : list event;
  nt_states : list (jsstring * state);
  nt_deltas : list response;
  nt_node : jsmap jsstring state;
  nt_clock : Z;
  nt_control : aggregator Content;
  nt_browser : browser Content
}.

Definition net_start (scope : jsstring) : net := Net (fun _ _ => []) [] [] [] [] [] 0 new_aggregator (new_browser scope).

Definition project_delta (consumer : bool) (d : response) : response :=
  DeltaResponse (dr_streamId d) (dr_instanceId d) (dr_sinceRevision d) (dr_latestRevision d) (dr_earliestRetainedRevision d) (dr_syncRequired d)
    (projectAiSessionStreamEventForConsumer consumer <$> dr_events d).

(** An instance starts a stream that it has not published on. *)
Inductive publisher_step (subagents : bool) : net -> net -> Prop :=
| step_start n i s :
    nt_published n i s = [] ->
    publisher_step subagents n
      (Net (nt_published n) (mset i (new_publisher s i) (nt_publishers n)) (nt_events n) (nt_states n) (nt_deltas n) (nt_node n) (nt_clock n) (nt_control n) (nt_browser n))
| step_publish n i p now snapshot p' ev :
    mget i (nt_publishers n) = Some p ->
    NoDup (ids (sessions snapshot)) ->
    publishAiSessionSnapshot now snapshot p = (p', Some ev) ->
    publisher_step subagents n
      (Net (publish_to (nt_published n) i (pb_streamId p) (sessions snapshot)) (mset i p' (nt_publishers n)) (nt_events n ++ [ev]) (nt_states n) (nt_deltas n)
         (nt_node n) (nt_clock n) (nt_control n) (nt_browser n))
| step_answer_state n i p consumer startedAt live :
    mget i (nt_publishers n) = Some p ->
    (subagents = true -> consumer = true) ->
    publisher_step subagents n
      (Net (nt_published n) (nt_publishers n) (nt_events n) (nt_states n ++ [(i, aiSessionsState consumer startedAt live p)]) (nt_deltas n)
         (nt_node n) (nt_clock n) (nt_control n) (nt_browser n))
| step_answer_delta n i p now s since :
    mget i (nt_publishers n) = Some p ->
    publisher_step subagents n
      (Net (nt_published n) (mset i (aiSessionDeltaSince now s since p).1 (nt_publishers n)) (nt_events n) (nt_states n)
         (nt_deltas n ++ [(aiSessionDeltaSince now s since p).2]) (nt_node n) (nt_clock n) (nt_control n) (nt_browser n))
(** The state the control plane makes up for an instance that does not answer. *)
| step_no_answer n i s :
    st_revision s = 0 ->
    publisher_step subagents n
      (Net (nt_published n) (nt_publishers n) (nt_events n) (nt_states n ++ [(i, s)]) (nt_deltas n) (nt_node n) (nt_clock n) (nt_control n) (nt_browser n)).

(** What was sent, for a consumer that did not ask for the subagents. *)
Inductive project_step : net -> net -> Prop :=
| step_project_event n ev :
    ev ∈ nt_events n ->
    project_step n
      (Net (nt_published n) (nt_publishers n) (nt_events n ++ [projectAiSessionStreamEventForConsumer false ev]) (nt_states n) (nt_deltas n) (nt_node n)
         (nt_clock n) (nt_control n) (nt_browser n))
| step_project_state n i s :
    (i, s) ∈ nt_states n ->
    project_step n
      (Net (nt_published n) (nt_publishers n) (nt_events n)
         (nt_states n ++ [(i, State (st_streamId s) (st_revision s) (st_lastEventAt s) (projectAiSessionsSnapshotForConsumer false (st_snapshot s)))])
         (nt_deltas n) (nt_node n) (nt_clock n) (nt_control n) (nt_browser n))
| step_project_delta n d :
    d ∈ nt_deltas n ->
    project_step n
      (Net (nt_published n) (nt_publishers n) (nt_events n) (nt_states n) (nt_deltas n ++ [project_delta false d]) (nt_node n)
         (nt_clock n) (nt_control n) (nt_browser n)).

Definition with_node (l : jsmap jsstring state) (n : net) : net :=
  Net (nt_published n) (nt_publishers n) (nt_events n) (nt_states n) (nt_deltas n) l (nt_clock n) (nt_control n) (nt_browser n).

(** The node agent. *)
Inductive node_step : net -> net -> Prop :=
| step_record n ev :
    ev ∈ nt_events n ->
    node_step n (with_node (recordAiSessionEvent (nt_node n) (em_instanceId (event_meta ev)) ev) n)
| step_forget n i : node_step n (with_node (mdelete i (nt_node n)) n)
| step_replay n i projection :
    mget i (nt_node n) = Some projection ->
    node_step n
      (Net (nt_published n) (nt_publishers n) (nt_events n ++ [replaySessionAuthority i projection]) (nt_states n) (nt_deltas n) (nt_node n)
         (nt_clock n) (nt_control n) (nt_browser n)).

(** What the control plane does at [nt_clock]. *)
Inductive control_action (n : net) : aggregator Content -> Prop :=
| do_handle ev : ev ∈ nt_events n -> control_action n (handleEvent (nt_clock n) ev (nt_control n)).1
| do_advertise i d : control_action n (advertiseStream i d (nt_control n))
| do_remove i : control_action n (removeInstance i (nt_control n))
| do_recovery_snapshot i s : (i, s) ∈ nt_states n -> control_action n (recovery_snapshot (nt_clock n) i s (nt_control n))
| do_recovery_delta i d : d ∈ nt_deltas n -> control_action n (recovery_delta (nt_clock n) i d (nt_control n))
| do_recovery_failed i : control_action n (recovery_failed i (nt_control n))
| do_bootstrap atStart entries :
    (forall e, e ∈ entries -> (be_instanceId e, be_state e) ∈ nt_states n) ->
    control_action n (bootstrapFromInstances (nt_clock n) atStart entries (nt_control n))
| do_refresh i o s : (i, s) ∈ nt_states n -> control_action n (refreshInstance (nt_clock n) i o s (nt_control n)).

Inductive control_step : net -> net -> Prop :=
| step_control n a :
    control_action n a ->
    control_step n (Net (nt_published n) (nt_publishers n) (nt_events n) (nt_states n) (nt_deltas n) (nt_node n) (nt_clock n) a (nt_browser n))
| step_clock n now :
    (nt_clock n <= now)%Z ->
    control_step n (Net (nt_published n) (nt_publishers n) (nt_events n) (nt_states n) (nt_deltas n) (nt_node n) now (nt_control n) (nt_browser n))
(** The events of a recovery are passed on to clients. *)
| step_pass_on n ev :
    RecoveredEvent ev ∈ ag_emitted (nt_control n) ->
    control_step n
      (Net (nt_published n) (nt_publishers n) (nt_events n ++ [ev]) (nt_states n) (nt_deltas n) (nt_node n) (nt_clock n) (nt_control n) (nt_browser n))
| step_view n oi i s :
    (i, s) ∈ agg_view oi (nt_control n) ->
    control_step n
      (Net (nt_published n) (nt_publishers n) (nt_events n) (nt_states n ++ [(i, s)]) (nt_deltas n) (nt_node n) (nt_clock n) (nt_control n) (nt_browser n))
| step_client_delta n oi s since a d :
    agg_delta (nt_clock n) oi s since (nt_control n) = Some (a, d) ->
    control_step n
      (Net (nt_published n) (nt_publishers n) (nt_events n) (nt_states n) (nt_deltas n ++ [d]) (nt_node n) (nt_clock n) a (nt_browser n)).

(** What the browser does. *)
Inductive browser_action (n : net) : browser Content -> Prop :=
| do_event ev : ev ∈ nt_events n -> browser_action n (applyEvent ev false (nt_browser n)).1
| do_descriptor i d : browser_action n (recoverDescriptor i d (nt_browser n))
| do_client_snapshot i o : (forall s, o = Some s -> (i, s) ∈ nt_states n) -> browser_action n (client_snapshot i o (nt_browser n))
| do_client_delta i d : d ∈ nt_deltas n -> browser_action n (client_delta i d (nt_browser n))
| do_client_failed i : browser_action n (client_failed i (nt_browser n))
| do_client_retry i : browser_action n (client_retry i (nt_browser n))
| do_loaded l : (forall e, e ∈ l -> e ∈ nt_states n) -> browser_action n (br_with_entries l (nt_browser n))
| do_watch : browser_action n (watch_instances (nt_browser n)).

Inductive net_step (subagents : bool) : net -> net -> Prop :=
| net_publisher n n' : publisher_step subagents n n' -> net_step subagents n n'
| net_project n n' : subagents = false -> project_step n n' -> net_step subagents n n'
| net_node n n' : node_step n n' -> net_step subagents n n'
| net_control n n' : control_step n n' -> net_step subagents n n'
| net_browser n b :
    browser_action n b ->
    net_step subagents n
      (Net (nt_published n) (nt_publishers n) (nt_events n) (nt_states n) (nt_deltas n) (nt_node n) (nt_clock n) (nt_control n) b).

Definition net_reachable (subagents : bool) (n : net) : Prop := exists scope, rtc (net_step subagents) (net_start scope) n.

(** ** The invariant *)

Record net_true (subagents : bool) (n : net) : Prop := {
  nt_wf : well_formed (nt_published n);
  nt_producers : forall i p, mget i (nt_publishers n) = Some p -> pb_instanceId p = i /\ publisher_true (nt_published n) p;
  nt_honest : forall ev, ev ∈ nt_events n -> honest subagents (nt_published n) ev;
  nt_answers : forall i s, (i, s) ∈ nt_states n -> true_state subagents (nt_published n) i s;
  nt_responses : forall d ev, d ∈ nt_deltas n -> ev ∈ dr_events d -> honest subagents (nt_published n) ev;
  nt_node_true : forall i c, mget i (nt_node n) = Some c -> true_state subagents (nt_published n) i c;
  nt_control_true : control_true subagents (nt_published n) (nt_clock n) (nt_control n);
  nt_browser_true : browser_true subagents (nt_published n) (nt_browser n)
}.

Lemma net_start_true subagents scope : net_true subagents (net_start scope).
Proof.
  split; cbn; try done; try (by intros; set_solver).
  - intros i s l Hl. cbn in Hl. by apply elem_of_nil in Hl.
  - apply new_aggregator_true.
Qed.

(** One more in what was sent. *)
Lemma elem_snoc {A} (l : list A) x y : x ∈ l ++ [y] -> x ∈ l \/ x = y.
Proof. intros [?|?%list_elem_of_singleton]%elem_of_app; auto. Qed.

Ltac split_sent := intros; repeat match goal with Hin : _ ∈ _ ++ [_] |- _ => apply elem_snoc in Hin as [Hin|Hin]; simplify_eq end.

Lemma publisher_step_true subagents n n' : publisher_step subagents n n' -> net_true subagents n -> net_true subagents n'.
Proof.
  intros Hs [Hwf Hp He Ha Hd Hn Hc Hb]. destruct Hs as [n i s Hfree|n i p now sn p' ev Hi Hnd Hpub|n i p consumer startedAt live Hi Hcons|n i p now s since Hi|n i s Hr].
  - split; try done. cbn. intros j q. rewrite mget_mset. case_decide as Hj; [|apply Hp]. subst j. intros [= <-]. split; [done|]. by apply new_publisher_true.
  - destruct (Hp i p Hi) as [Hpi Hpt]. assert (Hpub' := publish_true (nt_published n) now sn p Hpt Hnd). cbv zeta in Hpub'. rewrite Hpub, Hpi in Hpub'.
    destruct Hpub' as [Hpt' Hev]. set (published' := publish_to (nt_published n) i (pb_streamId p) (sessions sn)) in *.
    assert (Hex : extends (nt_published n) published') by apply publish_extends.
    assert (Hid : pb_instanceId p' = i) by (by apply publish_identity in Hpub as [Hpi' _]; congruence).
    split; cbn [nt_published nt_publishers nt_events nt_states nt_deltas nt_node nt_clock nt_control nt_browser].
    + by apply publish_well_formed.
    + intros j q. rewrite mget_mset. case_decide as Hj; [subst j; by intros [= <-]|]. intros Hq. destruct (Hp j q Hq) as [Hqi Hqt]. split; [done|].
      apply (extends_true (nt_published n)); [done| |done]. unfold published', publish_to. rewrite decide_False; [done|]. rewrite Hqi. by intros [? _].
    + split_sent; [by eapply honest_extends, He|]. by apply honest_weaken.
    + intros j s Hin. by eapply shows_extends, Ha.
    + intros d e Hin Hein. by eapply honest_extends, Hd.
    + intros j c Hj. by eapply shows_extends, Hn.
    + by eapply control_true_extends.
    + by eapply browser_true_extends.
  - split; try done. cbn. split_sent; [by apply Ha|]. destruct (Hp _ _ Hi) as [<- Hpt]. by apply state_true.
  - destruct (Hp i p Hi) as [Hpi Hpt]. assert (Hpr := prune_true _ now _ Hpt). split; try done; cbn.
    + intros j q. rewrite mget_mset. case_decide as Hj; [|apply Hp]. subst j. by intros [= <-].
    + split_sent; [by eapply Hd|]. apply honest_weaken. eapply delta_events; [|eassumption]. apply (pt_honest _ _ Hpr).
  - split; try done. cbn. split_sent; [by apply Ha|]. by left.
Qed.

Lemma project_step_true n n' : project_step n n' -> net_true false n -> net_true false n'.
Proof.
  intros Hs [Hwf Hp He Ha Hd Hn Hc Hb]. destruct Hs as [n ev Hev|n i s Hi|n d Hdin]; split; try done; cbn; split_sent.
  - by apply He.
  - apply (honest_project _ ev false). by apply He.
  - by apply Ha.
  - unfold true_state. cbn [st_streamId st_revision st_snapshot]. apply (shows_project _ _ _ _ (st_snapshot s) false). by apply Ha.
  - by eapply Hd.
  - match goal with Hin : _ ∈ dr_events (project_delta _ _) |- _ => cbn [project_delta dr_events] in Hin;
      apply list_elem_of_fmap in Hin as (e & -> & Hin) end. apply (honest_project _ e false). by eapply Hd.
Qed.

Lemma node_step_true subagents n n' : node_step n n' -> net_true subagents n -> net_true subagents n'.
Proof.
  intros Hs [Hwf Hp He Ha Hd Hn Hc Hb]. destruct Hs as [n ev Hev|n i|n i c Hi]; split; try done; cbn.
  - intros j c. unfold recordAiSessionEvent. set (i := em_instanceId (event_meta ev)).
    destruct (applyAiSessionStreamEvent (mget i (nt_node n)) ev) as [p|p|p| |] eqn:Ea; try apply Hn;
      (rewrite mget_mset; case_decide as Hj; [|apply Hn]; subst j; intros [= <-]).
    + eapply (apply_honest subagents (nt_published n)); [done|by apply He|apply Hn|exact Ea].
    + apply Hn. eapply apply_keeps. left. exact Ea.
    + apply Hn. eapply apply_keeps. right. exact Ea.
  - intros j c. rewrite mget_mdelete. case_decide; [done|apply Hn].
  - split_sent; [by apply He|]. cbn. by apply (Hn i).
Qed.

Lemma control_action_true subagents n a :
  net_true subagents n -> control_action n a -> control_true subagents (nt_published n) (nt_clock n) a.
Proof.
  intros [Hwf Hp He Ha Hd Hn Hc Hb] Hac. destruct Hac.
  - apply ok_handleEvent; auto.
  - by apply ok_recoverStream, ok_advertised.
  - by apply ok_remove.
  - apply ok_recovery_snapshot; auto.
  - apply ok_recovery_delta; [done|done|]. intros ev. by apply Hd.
  - by apply ok_recoveries.
  - apply ok_bootstrap; auto.
  - apply ok_adopt; auto.
Qed.

Lemma control_step_true subagents n n' : control_step n n' -> net_true subagents n -> net_true subagents n'.
Proof.
  intros Hs Ht. destruct Hs as [n a Hac|n now Hnow|n ev Hev|n oi i s Hv|n oi s since a d Hd]; [assert (Hca := control_action_true _ _ _ Ht Hac)| | | |];
    destruct Ht as [Hwf Hp He Ha Hdl Hn Hc Hb].
  - by split.
  - split; try done. cbn. by eapply control_true_extends.
  - split; try done. cbn. split_sent; [by apply He|]. by apply (ct_passed _ _ _ _ Hc).
  - split; try done. cbn. split_sent; [by apply Ha|]. by eapply ok_view.
  - destruct (ok_delta subagents (nt_published n) (nt_clock n) Hwf oi s since (nt_control n) a d Hc Hd) as [Hca Hde]. split; try done. cbn. split_sent; [by eapply Hdl|by apply Hde].
Qed.

Lemma net_step_true subagents n n' : net_step subagents n n' -> net_true subagents n -> net_true subagents n'.
Proof.
  intros Hs Ht. destruct Hs as [n n' Hs|n n' -> Hs|n n' Hs|n n' Hs|n b Hs].
  - by eapply publisher_step_true.
  - by eapply project_step_true.
  - by eapply node_step_true.
  - by eapply control_step_true.
  - destruct Ht as [Hwf Hp He Ha Hd Hn Hc Hb]. split; try done. cbn. destruct Hs.
    + apply ok_applyEvent; auto.
    + by apply ok_recoverDescriptor.
    + apply ok_client_snapshot; auto.
    + apply ok_client_delta; [done|done|]. intros ev. by apply Hd.
    + by apply ok_client_failed.
    + by apply ok_client_retry.
    + apply ok_loaded. intros i s Hin. by apply Ha, H.
    + by apply ok_watch.
Qed.

Lemma net_reachable_true subagents n : net_reachable subagents n -> net_true subagents n.
Proof.
  intros (scope & Hr). assert (Hs := net_start_true subagents scope). revert Hs. induction Hr as [|x y z Hxy _ IH]; [done|].
  intros Hx. by eapply IH, net_step_true.
Qed.

(** C31. Whatever is lost, delayed, repeated or reordered between them, every
    copy of the sessions of an instance, of the node agent, the control plane
    and the browser, is at revision 0 or shows exactly the sessions that the
    instance published as that revision of that stream: the same ones, each
    as it was published.  When some consumer does not ask for the subagents, a
    session may be shown without its relation to its parent. *)
Theorem replica_is_published subagents n instanceId c :
  net_reachable subagents n ->
  mget instanceId (nt_node n) = Some c \/ projection_of instanceId (nt_control n) = Some c \/ mget instanceId (br_entries (nt_browser n)) = Some c ->
  st_revision c = 0 \/
  exists truth, at_revision (nt_published n instanceId (st_streamId c)) (st_revision c) = Some truth /\ NoDup (ids truth) /\
    copy_of subagents (sessions (st_snapshot c)) truth /\ (subagents = true -> sessions (st_snapshot c) ≡ₚ truth).
Proof.
  intros Hr Hc. destruct (net_reachable_true _ _ Hr) as [Hwf _ _ _ _ Hn [Hct _ _ _] Hb].
  assert (Ht : true_state subagents (nt_published n) instanceId c) by (destruct Hc as [?|[?|?]]; auto).
  destruct Ht as [?|(truth & Hat & Hcopy)]; [by left|right]. exists truth. split_and!; [done|by eapply Hwf, at_revision_elem|done|].
  intros ->. by apply copy_of_exact.
Qed.

(** C32. A client whose copy shows what was published, and which asks the
    control plane for what has happened since its revision, gets events that
    it can apply one after the other, unless it is told to take a snapshot;
    afterwards its copy shows the revision of the control plane's copy. *)
Theorem delta_catches_up subagents n oi a delta c control :
  net_reachable subagents n ->
  agg_delta (nt_clock n) oi (st_streamId c) (st_revision c) (nt_control n) = Some (a, delta) ->
  dr_syncRequired delta = false ->
  projection_of (dr_instanceId delta) (nt_control n) = Some control -> truthy (st_streamId control) = true ->
  true_state subagents (nt_published n) (dr_instanceId delta) c ->
  exists c', follow c (dr_events delta) = Some c' /\ true_state subagents (nt_published n) (dr_instanceId delta) c' /\
    st_streamId c' = st_streamId control /\ st_revision c' = st_revision control.
Proof.
  intros Hr Hd Hsync Hp Htr Hc. destruct (net_reachable_true _ _ Hr) as [Hwf _ _ _ _ _ Hct _].
  unfold agg_delta in Hd. destruct (resolveDeltaInstanceId oi (nt_control n)) as [i|]; [|done]. cbv zeta in Hd.
  assert (Hok := ok_prune subagents (nt_published n) (nt_clock n) Hwf (nt_clock n) i (nt_control n) Hct).
  set (pruned := pruneHistory (nt_clock n) i (nt_control n)) in *.
  assert (Hpi : projection_of i pruned = projection_of i (nt_control n)) by (by apply projection_prune).
  injection Hd as <- <-. rewrite delta_instance in *. rewrite Hpi, Hp, Htr in *.
  destruct (ok_kept_run subagents (nt_published n) (nt_clock n) i control pruned Hok ltac:(by rewrite Hpi)) as [Hrun Hh].
  apply delta_follow; try done. by apply delta_sync_le in Hsync.
Qed.
End Replication.
