(* ===== verification/SessionExamples.v ===== *)
(** * The theorems on replication, on a concrete run

    An instance publishes a session and its subagent, the control plane
    starts from the state of the instance, the instance publishes again and
    the control plane follows. *)

From S2P Require Export SessionReplication AggregatorRecovery.

Section Example.

Abbreviation inst := (js "instance-1").
Abbreviation str := (js "stream-1").

Definition main_session (text : nat) : AiSessionSummary nat := Summary (js "s1") LcRunning None text.
Definition sub_session : AiSessionSummary nat := Summary (js "s2") LcIdle (Some (LineageSubagent (js "p1"))) 0.

Definition snapshot_1 : AiSessionsSnapshot nat := Snapshot 1 0 0 [main_session 1; sub_session] 10.
Definition snapshot_2 : AiSessionsSnapshot nat := Snapshot 1 0 0 [main_session 2; sub_session] 20.

Definition publisher_0 : publisher nat := new_publisher str inst.
Definition publisher_1 : publisher nat := (publishAiSessionSnapshot 10 snapshot_1 publisher_0).1.
Definition publisher_2 : publisher nat := (publishAiSessionSnapshot 20 snapshot_2 publisher_1).1.

Definition published_1 : @history nat := publish_to (fun _ _ => []) inst str (sessions snapshot_1).
Definition published_2 : @history nat := publish_to published_1 inst str (sessions snapshot_2).

(** The answer to [/ai-sessions/state] without [hierarchy]. *)
Definition answered : AiSessionsState nat := aiSessionsState false 0 snapshot_1 publisher_1.
Definition first_event : AiSessionStreamEvent nat := SnapshotEvent (createAiSessionMeta 10 1 publisher_0) snapshot_1.
Definition second_event : AiSessionStreamEvent nat := PatchEvent (createAiSessionMeta 20 2 publisher_1) [main_session 2] [].

Definition control_1 : aggregator nat := bootstrapFromInstances 0 [] [Entry inst answered] new_aggregator.
Definition control_2 : aggregator nat := (handleEvent 0 second_event control_1).1.

Definition net_2 : net := Net published_2 [(inst, publisher_2)] [first_event; second_event] [(inst, answered)] [] [] 0 control_2 (new_browser (js "*")).

Lemma snapshot_1_ids : NoDup (ids (sessions snapshot_1)).
Proof. apply NoDup_cons. split; [|apply NoDup_singleton]. by intros ?%list_elem_of_singleton. Qed.

Lemma snapshot_2_ids : NoDup (ids (sessions snapshot_2)).
Proof. exact snapshot_1_ids. Qed.

Definition net_at (published : @history nat) (p : publisher nat) (events : list (AiSessionStreamEvent nat)) (states : list (jsstring * AiSessionsState nat))
  (control : aggregator nat) : net :=
  Net published [(inst, p)] events states [] [] 0 control (new_browser (js "*")).

Lemma one_publisher (p p' : publisher nat) : mset inst p' [(inst, p)] = [(inst, p')].
Proof. reflexivity. Qed.

Lemma at_publish published p now sn p' ev events states control :
  NoDup (ids (sessions sn)) -> pb_streamId p = str -> publishAiSessionSnapshot now sn p = (p', Some ev) ->
  net_step false (net_at published p events states control) (net_at (publish_to published inst str (sessions sn)) p' (events ++ [ev]) states control).
Proof.
  intros Hnd Hs Hpub. apply net_publisher. unfold net_at at 2. rewrite <- (one_publisher p p'), <- Hs.
  by apply (step_publish false (net_at published p events states control) inst p now sn p' ev).
Qed.

Lemma at_answer published p consumer startedAt live events states control :
  net_step false (net_at published p events states control) (net_at published p events (states ++ [(inst, aiSessionsState consumer startedAt live p)]) control).
Proof. by apply net_publisher, (step_answer_state false (net_at published p events states control) inst p consumer startedAt live). Qed.

Lemma at_control published p events states control control' :
  control_action (net_at published p events states control) control' -> net_step false (net_at published p events states control) (net_at published p events states control').
Proof. intros Ha. by apply net_control, (step_control (net_at published p events states control)). Qed.

Lemma net_2_reachable : net_reachable false net_2.
Proof.
  exists (js "*").
  apply (rtc_l _ _ (net_at (fun _ _ => []) publisher_0 [] [] new_aggregator)); [exact (net_publisher _ _ _ (step_start false (net_start (js "*")) inst str eq_refl))|].
  eapply rtc_l; [exact (at_publish _ publisher_0 10 snapshot_1 publisher_1 first_event [] [] _ snapshot_1_ids eq_refl eq_refl)|].
  eapply rtc_l; [exact (at_answer _ publisher_1 false 0 snapshot_1 _ [] _)|].
  eapply rtc_l; [apply at_control, (do_bootstrap _ [] [Entry inst answered]); intros e ->%list_elem_of_singleton; by left|].
  eapply rtc_l; [apply (at_publish _ publisher_1 20 snapshot_2 publisher_2 second_event _ _ _ snapshot_2_ids eq_refl eq_refl)|].
  eapply rtc_l; [apply at_control, (do_handle _ second_event); by right; left|].
  apply rtc_refl.
Qed.

(** ** The theorems here *)

(** The control plane's copy at revision 2: the subagent's relation to its
    parent is missing although the instance published it. *)
Definition control_copy : AiSessionsState nat :=
  State str 2 20 (Snapshot 1 0 0 [main_session 2; Summary (js "s2") LcIdle None 0] 20).

Lemma control_copy_is : projection_of inst (nt_control net_2) = Some control_copy.
Proof. vm_compute. reflexivity. Qed.

Lemma bootstrap_hides_subagents :
  net_reachable false net_2 /\ projection_of inst (nt_control net_2) = Some control_copy /\
  at_revision (nt_published net_2 inst str) (st_revision control_copy) = Some [main_session 2; sub_session] /\
  sm_lineage <$> sessions (st_snapshot control_copy) = [None; None] /\
  sm_lineage <$> [main_session 2; sub_session] = [None; Some (LineageSubagent (js "p1"))].
Proof. split_and!; [exact net_2_reachable|exact control_copy_is|vm_compute; reflexivity..]. Qed.

Lemma replica_is_published_witness :
  st_revision control_copy = 0 \/
  exists truth, at_revision (nt_published net_2 inst (st_streamId control_copy)) (st_revision control_copy) = Some truth /\ NoDup (ids truth) /\
    copy_of false (sessions (st_snapshot control_copy)) truth /\ (false = true -> sessions (st_snapshot control_copy) ≡ₚ truth).
Proof. apply (replica_is_published false net_2 inst control_copy); [exact net_2_reachable|right; left; exact control_copy_is]. Defined.

(** A client at revision 1. *)
Definition client_1 : AiSessionsState nat := State str 1 10 snapshot_1.

Definition delta_2 : @AiSessionDeltaResponse nat := DeltaResponse str inst 1 2 1 false [second_event].

Lemma delta_2_is : exists a, agg_delta 0 (Some inst) (st_streamId client_1) (st_revision client_1) (nt_control net_2) = Some (a, delta_2).
Proof. eexists. vm_compute. reflexivity. Qed.

Lemma client_1_true : true_state false (nt_published net_2) inst client_1.
Proof. right. exists (sessions snapshot_1). split; [vm_compute; reflexivity|apply copy_of_refl]. Qed.

Lemma delta_catches_up_witness :
  exists c', follow client_1 (dr_events delta_2) = Some c' /\ true_state false (nt_published net_2) inst c' /\
    st_streamId c' = str /\ st_revision c' = 2.
Proof.
  destruct delta_2_is as [a Ha].
  exact (delta_catches_up false net_2 (Some inst) a delta_2 client_1 control_copy net_2_reachable Ha eq_refl control_copy_is eq_refl client_1_true).
Defined.

(** The control plane at revision 1 is told of revision 2. *)
Definition hello : stream_descriptor := StreamDescriptor str 2.
Definition behind : aggregator nat := advertiseStream inst hello control_1.
Definition waiting : RecoveryRecord := Recovery str 2 (AwaitDelta str 1).

Lemma published_2_wf : well_formed published_2.
Proof.
  unfold published_2, published_1. apply publish_well_formed; [apply publish_well_formed|exact snapshot_2_ids]; [|exact snapshot_1_ids].
  by intros i s l ?%elem_of_nil.
Qed.

Lemma net_2_true : net_true false net_2.
Proof. exact (net_reachable_true _ _ net_2_reachable). Qed.

Lemma publisher_2_true : publisher_true published_2 publisher_2.
Proof. exact (proj2 (nt_producers _ _ net_2_true inst publisher_2 eq_refl)). Qed.

Lemma answered_true : true_state false published_2 inst answered.
Proof.
  right. exists (sessions snapshot_1). split; [vm_compute; reflexivity|].
  exact (copy_of_flatten (sessions snapshot_1) (sessions snapshot_1) (copy_of_refl false (sessions snapshot_1))).
Qed.

Lemma behind_true : control_true false published_2 0 behind.
Proof.
  apply ok_recoverStream, ok_advertised, ok_bootstrap; [exact published_2_wf|apply new_aggregator_true|].
  intros e ->%list_elem_of_singleton. exact answered_true.
Qed.

Lemma recovery_catches_up_witness :
  let a' := Nat.iter 3 (answer_recovery 0 20 0 snapshot_2 publisher_2) behind in
  mget inst (ag_recoveries a') = None /\ exists c, projection_of inst a' = Some c /\ st_streamId c = str /\ 2 <= st_revision c.
Proof.
  apply (recovery_catches_up false published_2 0 20 0 snapshot_2 publisher_2 hello waiting behind published_2_wf publisher_2_true behind_true);
    [vm_compute; reflexivity..|]. apply Nat.leb_le. vm_compute. reflexivity.
Defined.
End Example.
