(* ===== verification/AgentGraphs.v ===== *)
(** * The graphs of agents that may call each other

    The graph functions of [packages/protocol/src/agent-orchestrations.ts] and
    the identifiers of [agent-definitions.ts]: an orchestration is a set of
    agents with the calls it allows.  A JavaScript [Map] is a [jsmap]; the
    search for a cycle recurses along edges and takes fuel, one step more than
    there are agents; what it answers without enough fuel is [None].  The order
    of the locale is a parameter. *)

From S2P Require Export Prelude.

(** ** Identifiers *)

Definition is_alphanumeric (c : N) : bool :=
  ((97 <=? c) && (c <=? 122) || (65 <=? c) && (c <=? 90) || (48 <=? c) && (c <=? 57))%N.
(** [a-zA-Z0-9_.:-]. *)
Definition is_id_char (c : N) : bool := is_alphanumeric c || bool_decide (c ∈ [95; 46; 58; 45]%N).
Definition is_stable_id (s : jsstring) : bool :=
  match s with [] => false | c :: s' => is_alphanumeric c && forallb is_id_char s' end.

(** [z.string().trim().min(1).max(max).regex(...)]: the value it parses to. *)
Definition stable_id_schema (max : nat) (s : jsstring) : option jsstring :=
  let s := trim s in
  if bool_decide (1 <= length s <= max) && is_stable_id s then Some s else None.
Definition AgentDefinitionIdSchema : jsstring -> option jsstring := stable_id_schema 120.
Definition AgentOrchestrationIdSchema : jsstring -> option jsstring := stable_id_schema 160.

Definition AGENT_ORCHESTRATION_DEFAULT_ID_PREFIX : jsstring := js "default:".

(** [None] is the error of [parse]. *)
Definition defaultAgentOrchestrationId (agentId : jsstring) : option jsstring :=
  (fun id => AGENT_ORCHESTRATION_DEFAULT_ID_PREFIX ++ id) <$> AgentDefinitionIdSchema agentId.

Definition isDefaultAgentOrchestrationId (orchestrationId : jsstring) : bool :=
  bool_decide (AGENT_ORCHESTRATION_DEFAULT_ID_PREFIX `prefix_of` orchestrationId).

Definition defaultAgentOrchestrationOwnerAgentId (orchestrationId : jsstring) : option jsstring :=
  if negb (isDefaultAgentOrchestrationId orchestrationId) then None else
  let ownerAgentId := drop (length AGENT_ORCHESTRATION_DEFAULT_ID_PREFIX) orchestrationId in
  match AgentDefinitionIdSchema ownerAgentId with Some _ => Some ownerAgentId | None => None end.

(** ** Graphs *)

Record AgentOrchestrationEdge := AgentEdge { fromAgentId : jsstring; toAgentId : jsstring }.
#[export] Instance agent_edge_eq_dec : EqDecision AgentOrchestrationEdge.
Proof. solve_decision. Defined.

Record AgentOrchestrationGraph := AgentGraph { agentIds : list jsstring; edges : list AgentOrchestrationEdge }.

Definition agentOrchestrationEntryAgentIds (g : AgentOrchestrationGraph) : list jsstring :=
  filter (fun agentId => agentId ∉ toAgentId <$> edges g) (agentIds g).

Definition agentOrchestrationContainsAgent (g : AgentOrchestrationGraph) (agentId : jsstring) : bool :=
  bool_decide (agentId ∈ agentIds g).

Definition agentOrchestrationHasEdge (g : AgentOrchestrationGraph) (from to : jsstring) : bool :=
  existsb (fun e => bool_decide (fromAgentId e = from) && bool_decide (toAgentId e = to)) (edges g).

(** The key of an edge, its two agents with U+001F between. *)
Definition edge_key (e : AgentOrchestrationEdge) : jsstring := fromAgentId e ++ [31%N] ++ toAgentId e.
(** [new Map(edges.map((edge) => [key, edge]))]. *)
Definition edge_map (es : list AgentOrchestrationEdge) : jsmap jsstring AgentOrchestrationEdge :=
  foldl (fun m e => mset (edge_key e) e m) [] es.

(** ** The search for a cycle *)

Inductive visit := Visiting | Visited.
#[export] Instance visit_eq_dec : EqDecision visit.
Proof. solve_decision. Defined.

Record walk_state := WalkState { w_state : jsmap jsstring visit; w_path : list jsstring }.
Definition set_visit (id : jsstring) (v : visit) (s : walk_state) : walk_state :=
  WalkState (mset id v (w_state s)) (w_path s).

Definition push_target (m : jsmap jsstring (list jsstring)) (e : AgentOrchestrationEdge) : jsmap jsstring (list jsstring) :=
  match mget (fromAgentId e) m with
  | Some targets => mset (fromAgentId e) (targets ++ [toAgentId e]) m
  | None => m
  end.
Definition adjacency (g : AgentOrchestrationGraph) : jsmap jsstring (list jsstring) :=
  foldl push_target (foldl (fun m agentId => mset agentId [] m) [] (agentIds g)) (edges g).

(** [path.slice(path.indexOf(next))]; the slice from -1 is the last element. *)
Definition path_from (next : jsstring) (path : list jsstring) : list jsstring :=
  match list_find (fun id => id = next) path with
  | Some (i, _) => drop i path
  | None => drop (length path - 1) path
  end.

(** What a walk ends with: the cycle it found, if any. *)
Abbreviation walked := (option (option (list jsstring) * walk_state)).

Fixpoint walk_nexts (walk : jsstring -> walk_state -> walked) (nexts : list jsstring) (s : walk_state) : walked :=
  match nexts with
  | [] => Some (None, s)
  | next :: nexts' =>
      match mget next (w_state s) with
      | Some Visiting => Some (Some (path_from next (w_path s) ++ [next]), s)
      | Some Visited => walk_nexts walk nexts' s
      | None => match walk next s with
                | Some (None, s') => walk_nexts walk nexts' s'
                | found => found
                end
      end
  end.

Fixpoint walk (adj : jsmap jsstring (list jsstring)) (fuel : nat) (agentId : jsstring) (s : walk_state) : walked :=
  match fuel with
  | 0 => None
  | S fuel =>
      let s := WalkState (mset agentId Visiting (w_state s)) (w_path s ++ [agentId]) in
      match walk_nexts (walk adj fuel) (default [] (mget agentId adj)) s with
      | Some (None, s') => Some (None, set_visit agentId Visited (WalkState (w_state s') (removelast (w_path s'))))
      | found => found
      end
  end.

Fixpoint walk_all (walk : jsstring -> walk_state -> walked) (ids : list jsstring) (s : walk_state) : walked :=
  match ids with
  | [] => Some (None, s)
  | agentId :: ids' =>
      if mhas agentId (w_state s) then walk_all walk ids' s else
      match walk agentId s with
      | Some (None, s') => walk_all walk ids' (WalkState (w_state s') [])
      | found => found
      end
  end.

Definition findAgentOrchestrationCycle (g : AgentOrchestrationGraph) : option (option (list jsstring)) :=
  fst <$> walk_all (walk (adjacency g) (S (length (agentIds g)))) (agentIds g) (WalkState [] []).

(** ** The normal form of a graph *)

Section Normal.
(** [left.localeCompare(right)]. *)
Context (localeCompare : jsstring -> jsstring -> Z).

Definition edge_compare (left right : AgentOrchestrationEdge) : Z :=
  if bool_decide (fromAgentId left = fromAgentId right) then localeCompare (toAgentId left) (toAgentId right)
  else localeCompare (fromAgentId left) (fromAgentId right).

Definition normalizeAgentOrchestrationGraph (g : AgentOrchestrationGraph) : AgentOrchestrationGraph :=
  AgentGraph (unique_sorted (agentIds g)) (js_sort edge_compare (mvalues (edge_map (edges g)))).
End Normal.
