(* ===== verification/AgentGraphsSpec.v ===== *)
(** * The search for a cycle finds one exactly when there is one

    The edges an orchestration's graph follows, the invariant of the
    depth-first search of [AgentGraphs], and what it answers; then the facts
    about identifiers and normal forms that the services rely on. *)

From S2P Require Export AgentGraphs.

(** ** The edges the search follows *)

Section Graph.
Context (g : AgentOrchestrationGraph).

(** An edge counts when the agent it starts from is one of the graph. *)
Definition calls (x y : jsstring) : Prop := x ∈ agentIds g /\ AgentEdge x y ∈ edges g.

(** Consecutive elements are edges. *)
Fixpoint call_path (l : list jsstring) : Prop :=
  match l with
  | x :: (y :: _) as l' => calls x y /\ call_path l'
  | _ => True
  end.

(** A cycle as the search reports it: it leaves an agent and comes back to it,
    and meets no other agent twice. *)
Definition reported_cycle (c : list jsstring) : Prop :=
  exists x l, c = x :: l ++ [x] /\ NoDup (x :: l) /\ call_path c.

Definition acyclic : Prop := forall x, ~ tc calls x x.

Lemma reported_cycle_cyclic c : reported_cycle c -> exists x, tc calls x x.
Proof.
  intros (x & l & -> & _ & Hp). exists x.
  assert (Hgen : forall l y, call_path (y :: l ++ [x]) -> tc calls y x).
  { clear. intros l. induction l as [|z l IH]; intros y [Hyz Hp]; [by apply tc_once|].
    eapply tc_l; [exact Hyz|]. by apply IH. }
  by apply (Hgen l).
Qed.

Lemma call_path_app_r l1 l2 : call_path (l1 ++ l2) -> call_path l2.
Proof.
  induction l1 as [|x l1 IH]; [done|]. cbn [app call_path]. intros H. apply IH. destruct (l1 ++ l2); [done|]. apply H.
Qed.

Lemma call_path_snoc l x : call_path l -> (forall y, last l = Some y -> calls y x) -> call_path (l ++ [x]).
Proof.
  induction l as [|y l IH]; intros Hp Hl; [done|]. destruct l as [|z l]; [split; [by apply Hl|done]|].
  destruct Hp as [Hyz Hp]. split; [done|]. by apply IH.
Qed.

(** ** The adjacency map *)

Lemma adjacency_domain ids x (m : jsmap jsstring (list jsstring)) :
  mget x (foldl (fun m agentId => mset agentId [] m) m ids) = if decide (x ∈ ids) then Some [] else mget x m.
Proof.
  revert m. induction ids as [|id ids IH]; intros m; [done|]. cbn [foldl]. rewrite IH, mget_mset.
  repeat case_decide; set_solver.
Qed.

Lemma push_target_get e x m :
  mget x (push_target m e)
  = (fun targets => if decide (x = fromAgentId e) then targets ++ [toAgentId e] else targets) <$> mget x m.
Proof.
  unfold push_target. destruct (decide (x = fromAgentId e)) as [->|Hne].
  - destruct (mget (fromAgentId e) m) eqn:E; [by rewrite mget_mset_eq|by rewrite E].
  - destruct (mget (fromAgentId e) m); [rewrite mget_mset_ne by done|]; by destruct (mget x m).
Qed.

Lemma push_targets_get es x m :
  mget x (foldl push_target m es)
  = (fun targets => targets ++ (toAgentId <$> filter (fun e => fromAgentId e = x) es)) <$> mget x m.
Proof.
  revert m. induction es as [|e es IH]; intros m; cbn [foldl].
  - destruct (mget x m); [|done]. cbn. by rewrite app_nil_r.
  - rewrite IH, push_target_get. destruct (mget x m) as [targets|]; [|done]. cbn [fmap option_fmap option_map].
    rewrite filter_cons. f_equal. destruct (decide (x = fromAgentId e)); repeat case_decide; try done.
    cbn [fmap list_fmap]. by rewrite <- app_assoc.
Qed.

Definition successors (x : jsstring) : list jsstring := default [] (mget x (adjacency g)).

Lemma successors_calls x y : y ∈ successors x <-> calls x y.
Proof.
  unfold successors, adjacency, calls. rewrite push_targets_get, adjacency_domain.
  case_decide as Hx; cbn; [|set_solver]. rewrite list_elem_of_fmap. split.
  - intros ([a b] & -> & [Hf He]%list_elem_of_filter). cbn in *. by subst.
  - intros [_ He]. exists (AgentEdge x y). split; [done|]. by apply list_elem_of_filter.
Qed.

(** ** The invariant of the search *)

Definition visited (s : walk_state) (x : jsstring) : Prop := mget x (w_state s) = Some Visited.

(** The path leads along edges through the agents being visited; what has been
    visited is closed under edges and holds no cycle. *)
Record walk_inv (s : walk_state) : Prop := {
  wi_path : forall x, mget x (w_state s) = Some Visiting <-> x ∈ w_path s;
  wi_nodup : NoDup (w_path s);
  wi_chain : call_path (w_path s);
  wi_closed : forall x y, visited s x -> calls x y -> visited s y;
  wi_acyclic : forall x, visited s x -> ~ tc calls x x
}.

(** What a walk over [ids] from [s] comes to. *)
Definition walk_post (s : walk_state) (ids : list jsstring) (r : walked) : Prop :=
  match r with
  | None => False
  | Some (Some c, _) => reported_cycle c
  | Some (None, s') =>
      walk_inv s' /\ w_path s' = w_path s /\ (forall x, visited s x -> visited s' x) /\ Forall (visited s') ids
  end.

Lemma closed_rtc s x y : walk_inv s -> visited s x -> rtc calls x y -> visited s y.
Proof. intros Hi Hx H. revert Hx. induction H as [|x z y Hxz _ IH]; [done|]. intros Hx. apply IH. by eapply wi_closed. Qed.

Lemma path_from_split x path :
  x ∈ path -> NoDup path -> exists p l, path = p ++ x :: l /\ path_from x path = x :: l.
Proof.
  intros Hx Hnd. unfold path_from. destruct (list_find _ path) as [[i y]|] eqn:E.
  - apply list_find_Some in E as (Hi & -> & _). exists (take i path), (drop (S i) path).
    rewrite (drop_S path x i) by done. split; [|done]. rewrite <- (drop_S path x i) by done. by rewrite take_drop.
  - apply list_find_None in E. rewrite Forall_forall in E. by destruct (E x Hx).
Qed.

Lemma path_from_cycle s x y :
  walk_inv s -> last (w_path s) = Some x -> calls x y -> y ∈ w_path s -> reported_cycle (path_from y (w_path s) ++ [y]).
Proof.
  intros Hi Hl Hxy Hy. destruct (path_from_split y (w_path s) Hy (wi_nodup s Hi)) as (p & l & Hp & ->).
  pose proof (wi_nodup s Hi) as Hnd. pose proof (wi_chain s Hi) as Hc. rewrite Hp in Hnd, Hc, Hl.
  exists y, l. split; [done|]. split; [by apply NoDup_app in Hnd as (_ & _ & ?)|].
  change (y :: l ++ [y]) with ((y :: l) ++ [y]). apply call_path_snoc; [by eapply call_path_app_r|].
  intros z Hz. rewrite last_app, Hz in Hl. by injection Hl as ->.
Qed.

Lemma walk_nexts_spec w nexts s x :
  walk_inv s -> last (w_path s) = Some x -> (forall y, y ∈ nexts -> calls x y) ->
  (forall y s', walk_inv s' -> w_path s' = w_path s -> y ∈ nexts -> mget y (w_state s') = None -> walk_post s' [y] (w y s')) ->
  walk_post s nexts (walk_nexts w nexts s).
Proof.
  revert s. induction nexts as [|y nexts IH]; intros s Hi Hl Hc Hw; cbn [walk_nexts].
  { cbn. split_and!; [done..|constructor]. }
  assert (Hrest : forall s', walk_inv s' -> w_path s' = w_path s -> (forall z, visited s z -> visited s' z) -> visited s' y ->
                             walk_post s (y :: nexts) (walk_nexts w nexts s')).
  { intros s' Hi' Hp' Hm Hy. assert (H := IH s' Hi'). rewrite Hp' in H.
    specialize (H Hl (fun z Hz => Hc z (list_elem_of_further _ _ _ Hz))).
    assert (Hw' : forall z s2, walk_inv s2 -> w_path s2 = w_path s -> z ∈ nexts -> mget z (w_state s2) = None -> walk_post s2 [z] (w z s2)).
    { intros z s2 Hs2 Hp2 Hz. apply Hw; [done..|set_solver]. }
    specialize (H Hw'). destruct (walk_nexts w nexts s') as [[[c|] s'']|]; [done| |done].
    destruct H as (? & ? & Hm'' & ?). split_and!; [done|congruence|auto|]. constructor; [by apply Hm''|done]. }
  destruct (mget y (w_state s)) as [[]|] eqn:E.
  - cbn. eapply path_from_cycle; [done..|apply Hc; set_solver|by apply (wi_path s Hi)].
  - by apply Hrest.
  - specialize (Hw y s Hi eq_refl (list_elem_of_here _ _) E). destruct (w y s) as [[[c|] s']|]; [done| |done].
    destruct Hw as (? & ? & ? & Hy). apply Forall_cons_1 in Hy as [Hy _]. by apply Hrest.
Qed.

Lemma last_snoc_path (l : list jsstring) x : last (l ++ [x]) = Some x.
Proof. by rewrite last_snoc. Qed.

Lemma walk_inv_enter s id :
  walk_inv s -> mget id (w_state s) = None -> (forall y, last (w_path s) = Some y -> calls y id) ->
  walk_inv (WalkState (mset id Visiting (w_state s)) (w_path s ++ [id])).
Proof.
  intros Hi Hid Hl. assert (Hnp : id ∉ w_path s). { intros H. apply (wi_path s Hi) in H. congruence. }
  assert (Hv : forall x, visited (WalkState (mset id Visiting (w_state s)) (w_path s ++ [id])) x <-> visited s x).
  { intros x. unfold visited. cbn [w_state]. rewrite mget_mset. case_decide; [subst; naive_solver|done]. }
  split; cbn [w_path w_state].
  - intros x. rewrite mget_mset, elem_of_app, list_elem_of_singleton. pose proof (wi_path s Hi x).
    case_decide; naive_solver.
  - apply NoDup_app. split; [apply (wi_nodup s Hi)|]. split; [|apply NoDup_singleton]. set_solver.
  - apply call_path_snoc; [apply (wi_chain s Hi)|done].
  - intros x y. rewrite !Hv. apply (wi_closed s Hi).
  - intros x. rewrite Hv. apply (wi_acyclic s Hi).
Qed.

Lemma walk_inv_leave s id path :
  walk_inv s -> w_path s = path ++ [id] -> Forall (visited s) (successors id) ->
  walk_inv (set_visit id Visited (WalkState (w_state s) path)).
Proof.
  intros Hi Hp Hs. rewrite Forall_forall in Hs.
  assert (Hid : mget id (w_state s) = Some Visiting). { apply (wi_path s Hi). rewrite Hp. set_solver. }
  pose proof (wi_nodup s Hi) as Hnd. rewrite Hp in Hnd. apply NoDup_app in Hnd as (Hnd & Hnp & _).
  assert (Hv : forall x, visited (set_visit id Visited (WalkState (w_state s) path)) x <-> x = id \/ visited s x).
  { intros x. unfold visited, set_visit. cbn [w_state]. rewrite mget_mset. case_decide; naive_solver. }
  split; cbn [w_path w_state set_visit].
  - intros x. rewrite mget_mset. pose proof (wi_path s Hi x) as Hx. rewrite Hp, elem_of_app, list_elem_of_singleton in Hx.
    case_decide; [|naive_solver]. subst. split; [done|]. intros H. exfalso. by apply (Hnp _ H), list_elem_of_singleton.
  - done.
  - pose proof (wi_chain s Hi) as Hc. rewrite Hp in Hc. clear -Hc. induction path as [|x path IH]; [done|].
    destruct path as [|y path]; [done|]. cbn in Hc. destruct Hc as [Hxy Hc]. split; [done|by apply IH].
  - intros x y Hx Hxy. apply Hv. right. apply Hv in Hx as [->|Hx]; [|by eapply wi_closed].
    by apply Hs, successors_calls.
  - intros x Hx. apply Hv in Hx as [->|Hx]; [|by apply (wi_acyclic s Hi)]. intros Hc.
    assert (Hy : exists y, calls id y /\ rtc calls y id).
    { inversion Hc; subst; [exists id; split; [done|apply rtc_refl]|]. eexists. split; [done|]. by apply tc_rtc. }
    destruct Hy as (y & Hxy & Hyx). apply successors_calls, Hs in Hxy.
    pose proof (closed_rtc s y id Hi Hxy Hyx) as Hv'. unfold visited in Hv'. congruence.
Qed.

(** The path holds agents of the graph, none twice: it is never longer. *)
Lemma path_bound s : walk_inv s -> w_path s ⊆ agentIds g -> length (w_path s) <= length (agentIds g).
Proof. intros Hi Hs. apply submseteq_length, NoDup_submseteq; [apply (wi_nodup s Hi)|done]. Qed.

Lemma walk_spec fuel id s :
  walk_inv s -> mget id (w_state s) = None -> (forall y, last (w_path s) = Some y -> calls y id) ->
  w_path s ⊆ agentIds g -> length (agentIds g) < fuel + length (w_path s) ->
  walk_post s [id] (walk (adjacency g) fuel id s).
Proof.
  revert id s. induction fuel as [|fuel IH]; intros id s Hi Hid Hl Hs Hf.
  { pose proof (path_bound s Hi Hs). lia. }
  cbn [walk]. set (s1 := WalkState _ _). assert (Hi1 : walk_inv s1) by by apply walk_inv_enter.
  assert (H := walk_nexts_spec (walk (adjacency g) fuel) (successors id) s1 id Hi1 (last_snoc_path _ _)
                 (fun y Hy => proj1 (successors_calls id y) Hy)).
  assert (Hw : forall y s', walk_inv s' -> w_path s' = w_path s1 -> y ∈ successors id -> mget y (w_state s') = None ->
                            walk_post s' [y] (walk (adjacency g) fuel y s')).
  { intros y s' Hi' Hp' Hy Hny. apply successors_calls in Hy as Hcy. apply IH; [done..| | |]; rewrite Hp'; cbn [w_path s1].
    - rewrite last_snoc. by intros z [= <-].
    - destruct Hcy as [Hin _]. set_solver.
    - rewrite length_app. cbn. lia. }
  specialize (H Hw). fold (successors id). destruct (walk_nexts _ _ s1) as [[[c|] s2]|]; [done| |done].
  destruct H as (Hi2 & Hp2 & Hm & Hall). cbn [walk_post]. rewrite Hp2. cbn [w_path s1]. rewrite removelast_last.
  split; [by apply walk_inv_leave|]. split; [done|].
  assert (Hv : forall x, visited s2 x -> visited (set_visit id Visited (WalkState (w_state s2) (w_path s))) x).
  { intros x. unfold visited, set_visit. cbn [w_state]. rewrite mget_mset. by case_decide. }
  split.
  - intros x Hx. apply Hv, Hm. unfold visited, s1 in *. cbn [w_state]. rewrite mget_mset_ne; [done|]. intros ->. congruence.
  - constructor; [|done]. unfold visited, set_visit. cbn [w_state]. apply mget_mset_eq.
Qed.

Lemma walk_all_spec ids s :
  walk_inv s -> w_path s = [] ->
  walk_post s ids (walk_all (walk (adjacency g) (S (length (agentIds g)))) ids s).
Proof.
  revert s. induction ids as [|id ids IH]; intros s Hi Hp; cbn [walk_all].
  { cbn. split_and!; [done..|constructor]. }
  assert (Hrest : forall s', walk_inv s' -> w_path s' = [] -> (forall z, visited s z -> visited s' z) -> visited s' id ->
            walk_post s (id :: ids) (walk_all (walk (adjacency g) (S (length (agentIds g)))) ids s')).
  { intros s' Hi' Hp' Hm Hid. specialize (IH s' Hi' Hp').
    destruct (walk_all _ ids s') as [[[c|] s2]|]; [done| |done]. destruct IH as (? & ? & Hm2 & ?).
    split_and!; [done|congruence|auto|]. constructor; [by apply Hm2|done]. }
  unfold mhas. destruct (mget id (w_state s)) as [v|] eqn:E.
  - apply Hrest; [done..|]. destruct v; [|done]. apply (wi_path s Hi) in E. rewrite Hp in E. set_solver.
  - assert (H := walk_spec (S (length (agentIds g))) id s Hi E). rewrite Hp in H.
    specialize (H (fun y (Hy : last [] = Some y) => ltac:(discriminate Hy))
                  (list_subseteq_nil _) ltac:(cbn; lia)).
    destruct (walk _ _ id s) as [[[c|] s1]|]; [done| |done]. destruct H as (Hi1 & Hp1 & Hm1 & Hall).
    apply Forall_cons_1 in Hall as [Hid _]. rewrite Hp in Hp1. apply Hrest; [|done..].
    destruct s1 as [st path]. cbn [w_state w_path] in *. by subst.
Qed.

Lemma walk_inv_start : walk_inv (WalkState [] []).
Proof. split; [set_solver|constructor|done..]. Qed.

Lemma find_cycle_spec :
  (exists c, findAgentOrchestrationCycle g = Some (Some c) /\ reported_cycle c)
  \/ (findAgentOrchestrationCycle g = Some None /\ acyclic).
Proof.
  unfold findAgentOrchestrationCycle. pose proof (walk_all_spec (agentIds g) _ walk_inv_start eq_refl) as H.
  destruct (walk_all _ _ _) as [[[c|] s]|]; [left; eauto| |done]. right. split; [done|].
  destruct H as (Hi & _ & _ & Hall). rewrite Forall_forall in Hall. intros x Hx.
  apply (wi_acyclic s Hi x); [|done]. apply Hall.
  assert (Hc : exists y, calls x y) by (inversion Hx; eauto). destruct Hc as [y [Hin _]]. done.
Qed.

Lemma find_cycle_None : mjoin (findAgentOrchestrationCycle g) = None <-> acyclic.
Proof.
  destruct find_cycle_spec as [(c & -> & Hc)|[-> Ha]]; cbn; split; try done.
  intros Ha. destruct (reported_cycle_cyclic c Hc) as [x Hx]. by destruct (Ha x).
Qed.
End Graph.

(** C36. The search for a cycle always ends: it reports a cycle of calls that
    leaves an agent, meets no other agent twice and comes back to the first, or
    it reports none, and then no agent can reach itself. *)
Theorem cycle_search_decides g :
  exists answer, findAgentOrchestrationCycle g = Some answer
    /\ match answer with Some cycle => reported_cycle g cycle | None => acyclic g end.
Proof. destruct (find_cycle_spec g) as [(c & -> & Hc)|[-> Ha]]; eauto. Qed.

(** A graph with fewer edges has no more cycles. *)
Lemma acyclic_mono g g' : (forall x y, calls g x y -> calls g' x y) -> acyclic g' -> acyclic g.
Proof. 
  intros H Ha x Hx. apply (Ha x). revert Hx. generalize x at 1 3. intros y.
  induction 1 as [y z Hyz|y z w Hyz _ IH]; [by apply tc_once, H|by eapply tc_l; [apply H|apply IH]].
Qed.

Lemma acyclic_no_edges g : edges g = [] -> acyclic g.
Proof. intros He x Hx. assert (Hc : exists y, calls g x y) by (inversion Hx; eauto). destruct Hc as [y [_ Hy]]. rewrite He in Hy. set_solver. Qed.

(** ** Identifiers *)

Lemma AgentDefinitionIdSchema_stable id id' : AgentDefinitionIdSchema id = Some id' -> is_stable_id id' = true.
Proof. unfold AgentDefinitionIdSchema, stable_id_schema. destruct (_ && _) eqn:E; [|done]. intros [= <-]. by propify. Qed.

Lemma stable_id_chars id c : is_stable_id id = true -> c ∈ id -> is_id_char c = true.
Proof.
  destruct id as [|d id]; [done|]. cbn. intros [Hd Hid]%andb_prop Hc. rewrite elem_of_cons in Hc.
  destruct Hc as [->|Hc]; [unfold is_id_char; by rewrite Hd|]. rewrite forallb_forall in Hid.
  by apply Hid, list_elem_of_In.
Qed.

(** What an Agent's default orchestration is called tells whose it is. *)
Lemma default_owner agentId id :
  AgentDefinitionIdSchema agentId = Some agentId -> defaultAgentOrchestrationId agentId = Some id ->
  defaultAgentOrchestrationOwnerAgentId id = Some agentId.
Proof.
  unfold defaultAgentOrchestrationId. intros H Hid. rewrite H in Hid. apply (inj Some) in Hid as <-.
  unfold defaultAgentOrchestrationOwnerAgentId, isDefaultAgentOrchestrationId.
  rewrite bool_decide_true by by exists agentId. cbn [negb]. rewrite drop_app_length. by rewrite H.
Qed.

Lemma owner_default id agentId :
  defaultAgentOrchestrationOwnerAgentId id = Some agentId ->
  id = AGENT_ORCHESTRATION_DEFAULT_ID_PREFIX ++ agentId /\ is_Some (AgentDefinitionIdSchema agentId).
Proof.
  unfold defaultAgentOrchestrationOwnerAgentId, isDefaultAgentOrchestrationId. case_bool_decide as Hp; [|done]. cbn [negb].
  destruct Hp as [k ->]. rewrite drop_app_length. destruct (AgentDefinitionIdSchema k) eqn:E; [|done].
  intros [= <-]. by rewrite E.
Qed.

(** ** Normal forms *)

Lemma edge_map_snoc es e : edge_map (es ++ [e]) = mset (edge_key e) e (edge_map es).
Proof. unfold edge_map. by rewrite foldl_app. Qed.

Lemma edge_map_wf es : map_wf (edge_map es).
Proof. induction es as [|e es IH] using rev_ind; [constructor|]. rewrite edge_map_snoc. by apply map_wf_mset. Qed.

Lemma edge_map_get es k e : mget k (edge_map es) = Some e -> k = edge_key e /\ e ∈ es.
Proof.
  induction es as [|e' es IH] using rev_ind; [done|]. rewrite edge_map_snoc, mget_mset, elem_of_app, list_elem_of_singleton.
  case_decide; naive_solver.
Qed.

Lemma edge_map_has es e : e ∈ es -> is_Some (mget (edge_key e) (edge_map es)).
Proof.
  induction es as [|e' es IH] using rev_ind; [set_solver|]. rewrite edge_map_snoc, mget_mset, elem_of_app, list_elem_of_singleton.
  case_decide; [by eexists|]. intros [Hin| ->]; [auto|done].
Qed.

Lemma edge_map_values es e : e ∈ mvalues (edge_map es) -> e ∈ es.
Proof.
  unfold mvalues. rewrite list_elem_of_fmap. intros ([k e'] & -> & H). cbn.
  apply elem_mget in H; [|apply edge_map_wf]. by apply edge_map_get in H as [_ ?].
Qed.

(** The separator is no character of an identifier, so keys tell edges apart. *)
Definition valid_edge (e : AgentOrchestrationEdge) : Prop :=
  is_stable_id (fromAgentId e) = true /\ is_stable_id (toAgentId e) = true.

Lemma edge_key_inj e e' : valid_edge e -> valid_edge e' -> edge_key e = edge_key e' -> e = e'.
Proof.
  destruct e as [a b], e' as [a' b']. unfold edge_key. cbn. intros [Ha _] [Ha' _] H. cbn in *.
  assert (Hs : forall a a' b b' : jsstring, 31%N ∉ a -> 31%N ∉ a' -> a ++ 31%N :: b = a' ++ 31%N :: b' -> a = a' /\ b = b').
  { clear. induction a as [|x a IH]; intros [|x' a'] b b' Hn Hn' [=]; subst; [done|set_solver..|].
    destruct (IH a' b b') as [-> ->]; [set_solver..|done|done]. }
  assert (Hn : forall i, is_stable_id i = true -> 31%N ∉ i) by (intros i Hi Hin; by apply stable_id_chars in Hin).
  by destruct (Hs a a' b b' (Hn _ Ha) (Hn _ Ha') H) as [-> ->].
Qed.

Section NormalForm.
Context (localeCompare : jsstring -> jsstring -> Z).
Abbreviation normalize := (normalizeAgentOrchestrationGraph localeCompare).

Lemma normalize_agentIds g id : id ∈ agentIds (normalize g) <-> id ∈ agentIds g.
Proof. apply unique_sorted_elem. Qed.

Lemma normalize_edges_sub g e : e ∈ edges (normalize g) -> e ∈ edges g.
Proof. cbn. rewrite js_sort_perm. apply edge_map_values. Qed.

Lemma normalize_edges g e : Forall valid_edge (edges g) -> e ∈ edges (normalize g) <-> e ∈ edges g.
Proof.
  intros Hv. split; [apply normalize_edges_sub|]. intros He. cbn. rewrite js_sort_perm.
  destruct (edge_map_has _ _ He) as [e' He']. apply edge_map_get in He' as Hk. destruct Hk as [Hk Hin].
  rewrite Forall_forall in Hv. apply edge_key_inj in Hk; [|by apply Hv..]. subst e'.
  unfold mvalues. apply list_elem_of_fmap. exists (edge_key e, e). split; [done|]. by apply mget_elem in He'; [|apply edge_map_wf].
Qed.

Lemma normalize_calls g x y : calls (normalize g) x y -> calls g x y.
Proof. intros [Hx Hy]. split; [by apply normalize_agentIds|by apply normalize_edges_sub]. Qed.
End NormalForm.
