(* ===== verification/Agents.v ===== *)
(** * Agents and orchestrations of a node

    [packages/node-agent/src/agents/service.ts] and
    [agents/orchestration-service.ts] over the rows of
    [persistence/agent-repository.ts] and
    [persistence/agent-orchestration-repository.ts], with the schemas of
    [packages/protocol/src/agent-definitions.ts] and
    [agent-orchestrations.ts] and [instances/instance-folder.ts].  The tables
    are maps by primary key; the rows of a graph are part of the row of their
    orchestration, which deletes them with it.  An operation is one
    transaction: when it throws, nothing has changed and nothing is published.
    Timestamps are milliseconds; SHA-256, the locale's order and Node's paths
    are parameters, drawn identifiers arguments. *)

From S2P Require Export Utf8 AgentGraphs.

(** ** Errors and schemas *)

Inductive agent_error :=
| AgentServiceError (code : string) (statusCode : Z)
| AgentGraphCycle (cycle : list jsstring)
| AgentRevisionConflict (code : string) (expected actual : jsstring)
| AgentInputInvalid
| AgentConstraint.

(** [z.string().trim().min(1).max(max)], and without a least length. *)
Definition text_schema (max : nat) (s : jsstring) : option jsstring :=
  let s := trim s in if bool_decide (1 <= length s <= max) then Some s else None.
Definition description_schema (s : jsstring) : option jsstring :=
  let s := trim s in if bool_decide (length s <= 2000) then Some s else None.
Definition prompt_schema (s : jsstring) : option jsstring :=
  if bool_decide (length s <= 32000) then Some s else None.
Definition optional_schema {A B} (schema : A -> option B) (o : option A) : option (option B) :=
  match o with None => Some None | Some a => Some <$> schema a end.

(** [/^[a-f0-9]{64}$/]. *)
Definition is_revision (s : jsstring) : bool :=
  bool_decide (length s = 64) && forallb (fun c => (97 <=? c) && (c <=? 102) || (48 <=? c) && (c <=? 57))%N s.

(** ** Definitions *)

Inductive AgentWorkspaceMaterializer := OverlayCopyOnWrite | Worktree.
#[export] Instance materializer_eq_dec : EqDecision AgentWorkspaceMaterializer.
Proof. solve_decision. Defined.
Inductive AgentProcessSandbox := SandboxInstance | SandboxContainer | SandboxLocalRuntime.
#[export] Instance sandbox_eq_dec : EqDecision AgentProcessSandbox.
Proof. solve_decision. Defined.

Record AgentExecutionPolicy := ExecutionPolicy {
  workspaceMaterializer : AgentWorkspaceMaterializer;
  processSandbox : AgentProcessSandbox
}.
#[export] Instance execution_policy_eq_dec : EqDecision AgentExecutionPolicy.
Proof. solve_decision. Defined.

Definition AGENT_PUBLISHED_EXECUTION_POLICIES : list AgentExecutionPolicy :=
  [ExecutionPolicy OverlayCopyOnWrite SandboxInstance].
Definition isPublishedAgentExecutionPolicy (policy : AgentExecutionPolicy) : bool :=
  existsb (fun candidate => bool_decide (workspaceMaterializer candidate = workspaceMaterializer policy)
                            && bool_decide (processSandbox candidate = processSandbox policy))
    AGENT_PUBLISHED_EXECUTION_POLICIES.

Definition materializer_name (m : AgentWorkspaceMaterializer) : jsstring :=
  match m with OverlayCopyOnWrite => js "overlay-copy-on-write" | Worktree => js "worktree" end.
Definition sandbox_name (s : AgentProcessSandbox) : jsstring :=
  match s with
  | SandboxInstance => js "instance" | SandboxContainer => js "container" | SandboxLocalRuntime => js "local-runtime"
  end.

Record AgentDefinitionFields := AgentFields {
  af_name : jsstring;
  af_description : jsstring;
  af_appendedPrompt : jsstring;
  af_targetInstanceId : jsstring;
  af_cwdFolderId : jsstring;
  af_providerId : jsstring;
  af_modelEntityId : option jsstring;
  af_modelName : option jsstring;
  af_modelUpstreamName : option jsstring;
  af_reasoningEffort : option jsstring;
  af_permissionMode : option jsstring;
  af_executionPolicy : AgentExecutionPolicy
}.

Record AgentDefinition := AgentDef {
  ad_id : jsstring;
  ad_revision : jsstring;
  ad_fields : AgentDefinitionFields;
  ad_createdAt : Z;
  ad_updatedAt : Z
}.

Definition AgentDefinitionFieldsSchema (f : AgentDefinitionFields) : option AgentDefinitionFields :=
  name ← text_schema 120 (af_name f);
  description ← description_schema (af_description f);
  appendedPrompt ← prompt_schema (af_appendedPrompt f);
  targetInstanceId ← AgentDefinitionIdSchema (af_targetInstanceId f);
  cwdFolderId ← AgentDefinitionIdSchema (af_cwdFolderId f);
  providerId ← AgentDefinitionIdSchema (af_providerId f);
  modelEntityId ← optional_schema AgentDefinitionIdSchema (af_modelEntityId f);
  modelName ← optional_schema (text_schema 120) (af_modelName f);
  modelUpstreamName ← optional_schema (text_schema 240) (af_modelUpstreamName f);
  reasoningEffort ← optional_schema (text_schema 120) (af_reasoningEffort f);
  permissionMode ← optional_schema (text_schema 120) (af_permissionMode f);
  Some (AgentFields name description appendedPrompt targetInstanceId cwdFolderId providerId modelEntityId modelName
          modelUpstreamName reasoningEffort permissionMode (af_executionPolicy f)).

(** [sanitizeAgentDefinition], the schema a stored row is read with. *)
Definition sanitizeAgentDefinition (d : AgentDefinition) : option AgentDefinition :=
  id ← AgentDefinitionIdSchema (ad_id d);
  fields ← AgentDefinitionFieldsSchema (ad_fields d);
  if is_revision (ad_revision d) then Some (AgentDef id (ad_revision d) fields (ad_createdAt d) (ad_updatedAt d)) else None.

(** A create input: [None] is a field that is missing. *)
Record AgentDefinitionCreateInput := AgentCreate {
  dc_fields : AgentDefinitionFields;
  dc_executionPolicy : option AgentExecutionPolicy
}.

(** An update input: [None] is a field that is missing, [Some None] is [null]. *)
Record AgentDefinitionUpdateInput := AgentUpdate {
  du_expectedRevision : jsstring;
  du_name : option jsstring;
  du_description : option (option jsstring);
  du_appendedPrompt : option (option jsstring);
  du_targetInstanceId : option jsstring;
  du_cwdFolderId : option jsstring;
  du_providerId : option jsstring;
  du_modelEntityId : option (option jsstring);
  du_modelName : option (option jsstring);
  du_modelUpstreamName : option (option jsstring);
  du_reasoningEffort : option (option jsstring);
  du_permissionMode : option (option jsstring);
  du_executionPolicy : option AgentExecutionPolicy
}.

Definition AgentDefinitionUpdateInputSchema (u : AgentDefinitionUpdateInput) : option AgentDefinitionUpdateInput :=
  let clearable := fun schema => optional_schema (optional_schema schema) in
  name ← optional_schema (text_schema 120) (du_name u);
  description ← clearable description_schema (du_description u);
  appendedPrompt ← clearable prompt_schema (du_appendedPrompt u);
  targetInstanceId ← optional_schema AgentDefinitionIdSchema (du_targetInstanceId u);
  cwdFolderId ← optional_schema AgentDefinitionIdSchema (du_cwdFolderId u);
  providerId ← optional_schema AgentDefinitionIdSchema (du_providerId u);
  modelEntityId ← clearable AgentDefinitionIdSchema (du_modelEntityId u);
  modelName ← clearable (text_schema 120) (du_modelName u);
  modelUpstreamName ← clearable (text_schema 240) (du_modelUpstreamName u);
  reasoningEffort ← clearable (text_schema 120) (du_reasoningEffort u);
  permissionMode ← clearable (text_schema 120) (du_permissionMode u);
  if is_revision (du_expectedRevision u) then
    Some (AgentUpdate (du_expectedRevision u) name description appendedPrompt targetInstanceId cwdFolderId providerId
            modelEntityId modelName modelUpstreamName reasoningEffort permissionMode (du_executionPolicy u))
  else None.

Definition fieldsFromInput (input : AgentDefinitionCreateInput) : AgentDefinitionFields :=
  let f := dc_fields input in
  AgentFields (af_name f) (af_description f) (af_appendedPrompt f) (af_targetInstanceId f) (af_cwdFolderId f)
    (af_providerId f) (af_modelEntityId f) (af_modelName f) (af_modelUpstreamName f) (af_reasoningEffort f)
    (af_permissionMode f) (default (ExecutionPolicy OverlayCopyOnWrite SandboxInstance) (dc_executionPolicy input)).

(** The fallback for a field that is missing, nothing for [null]. *)
Definition clearable (value : option (option jsstring)) (fallback : option jsstring) : option jsstring :=
  match value with Some v => v | None => fallback end.
Definition clearable_text (value : option (option jsstring)) (fallback : jsstring) : jsstring :=
  match value with Some None => [] | Some (Some v) => v | None => fallback end.

Definition fieldsFromUpdate (current : AgentDefinition) (input : AgentDefinitionUpdateInput) : AgentDefinitionFields :=
  let f := ad_fields current in
  AgentFields (default (af_name f) (du_name input))
    (clearable_text (du_description input) (af_description f))
    (clearable_text (du_appendedPrompt input) (af_appendedPrompt f))
    (default (af_targetInstanceId f) (du_targetInstanceId input))
    (default (af_cwdFolderId f) (du_cwdFolderId input))
    (default (af_providerId f) (du_providerId input))
    (clearable (du_modelEntityId input) (af_modelEntityId f))
    (clearable (du_modelName input) (af_modelName f))
    (clearable (du_modelUpstreamName input) (af_modelUpstreamName f))
    (clearable (du_reasoningEffort input) (af_reasoningEffort f))
    (clearable (du_permissionMode input) (af_permissionMode f))
    (default (af_executionPolicy f) (du_executionPolicy input)).

(** ** The node: instances, runtimes and folders *)

Inductive runtime_type := RuntimeDocker | RuntimeKubernetes | RuntimeLocal | RuntimeWsl.
#[export] Instance runtime_type_eq_dec : EqDecision runtime_type.
Proof. solve_decision. Defined.

(** What the services read of a controlled instance: [ci_source] is the path of
    a source of type local-folder, [ci_providers] the agents of
    [aiSessionProviderCapabilities]. *)
Record ControlledInstance := Instance_ {
  ci_runtimeId : jsstring;
  ci_runtimeWorkspacePath : option jsstring;
  ci_workspacePath : option jsstring;
  ci_source : option jsstring;
  ci_providers : list jsstring
}.

Record node_state := NodeState {
  controlledInstances : gmap jsstring ControlledInstance;
  runtimes : gmap jsstring runtime_type;
  localFolders : gmap jsstring jsstring
}.

(** Node's [path] on a POSIX system. *)
Record node_path := NodePath {
  path_resolve : jsstring -> jsstring;
  path_relative : jsstring -> jsstring -> jsstring;
  path_isAbsolute : jsstring -> bool;
  path_join : jsstring -> jsstring -> jsstring
}.

Inductive InstanceFolderResolution :=
| FolderResolved (folderPath workspacePath runtimePath : jsstring)
| UnknownFolder
| UnsupportedSource
| OutsideWorkspace.

Section Agents.
Context (localeCompare : jsstring -> jsstring -> Z) (sha256 : bytes -> jsstring) (path : node_path).

Abbreviation result := (result agent_error).

Definition requireRuntime (state : node_state) (id : jsstring) : result runtime_type :=
  match runtimes state !! id with Some r => Ok r | None => Throw (AgentServiceError "NODE_RUNTIME_NOT_FOUND" 404) end.

Definition resolveInstanceFolder (state : node_state) (instance : ControlledInstance) (folderId : jsstring) : result InstanceFolderResolution :=
  match localFolders state !! folderId with
  | None => Ok UnknownFolder
  | Some folder =>
      let workspacePath := default (js "/workspace") (oor (ci_runtimeWorkspacePath instance)
                             (oor (ci_workspacePath instance) (Some (js "/workspace")))) in
      runtime ← requireRuntime state (ci_runtimeId instance);
      if bool_decide (runtime = RuntimeLocal) then
        Ok (FolderResolved (path_resolve path folder) workspacePath (path_resolve path folder))
      else match ci_source instance with
      | None => Ok UnsupportedSource
      | Some source =>
          let relative := path_relative path (path_resolve path source) (path_resolve path folder) in
          if bool_decide (relative = js "..") || bool_decide (js "../" `prefix_of` relative) || path_isAbsolute path relative
          then Ok OutsideWorkspace
          else Ok (FolderResolved (path_resolve path folder) workspacePath
                     (if truthy relative then path_join path workspacePath relative else workspacePath))
      end
  end.

(** ** Revisions: the digest of the JSON text of the content *)

Fixpoint json_items (items : list jsstring) : jsstring :=
  match items with [] => [] | [item] => item | item :: items' => item ++ js "," ++ json_items items' end.
Definition json_array (items : list jsstring) : jsstring := js "[" ++ json_items items ++ js "]".
Definition json_nullable (o : option jsstring) : jsstring :=
  match o with Some s => json_stringify_string s | None => js "null" end.
Definition json_edge (e : AgentOrchestrationEdge) : jsstring :=
  js "{" ++ json_items [json_stringify_string (js "fromAgentId") ++ js ":" ++ json_stringify_string (fromAgentId e);
                        json_stringify_string (js "toAgentId") ++ js ":" ++ json_stringify_string (toAgentId e)] ++ js "}".

Definition agentDefinitionRevision (f : AgentDefinitionFields) : jsstring :=
  sha256 (utf8_encode (json_array
    ((json_stringify_string <$> [af_name f; af_description f; af_appendedPrompt f; af_targetInstanceId f; af_cwdFolderId f; af_providerId f])
     ++ (json_nullable <$> [af_modelEntityId f; af_modelName f; af_modelUpstreamName f; af_reasoningEffort f; af_permissionMode f])
     ++ (json_stringify_string <$> [materializer_name (workspaceMaterializer (af_executionPolicy f));
                                    sandbox_name (processSandbox (af_executionPolicy f))])))).

Record AgentOrchestrationContent := OrchestrationContent { oc_name : jsstring; oc_graph : AgentOrchestrationGraph }.

Definition normalizeContent (c : AgentOrchestrationContent) : AgentOrchestrationContent :=
  OrchestrationContent (oc_name c) (normalizeAgentOrchestrationGraph localeCompare (oc_graph c)).

Definition agentOrchestrationRevision (c : AgentOrchestrationContent) : jsstring :=
  let g := normalizeAgentOrchestrationGraph localeCompare (oc_graph c) in
  sha256 (utf8_encode (json_array [json_stringify_string (oc_name c);
    json_array (json_stringify_string <$> agentIds g); json_array (json_edge <$> edges g)])).

(** ** Orchestrations and their rows *)

Record AgentOrchestration := Orchestration {
  ao_id : jsstring;
  ao_revision : jsstring;
  ao_name : jsstring;
  ao_graph : AgentOrchestrationGraph;
  ao_createdAt : Z;
  ao_updatedAt : Z
}.

Record OrchestrationRow := OrchRow {
  or_name : jsstring;
  or_revision : jsstring;
  or_createdAt : Z;
  or_updatedAt : Z;
  or_agents : list jsstring;
  or_edges : list AgentOrchestrationEdge
}.

Inductive change := ChangeCreated | ChangeUpdated | ChangeDeleted.
Inductive agent_event :=
| DefinitionChanged (c : change) (d : AgentDefinition)
| OrchestrationChanged (c : change) (o : AgentOrchestration).

Record agent_store := AgentStore {
  definition_rows : gmap jsstring AgentDefinition;
  orchestration_rows : gmap jsstring OrchestrationRow;
  agent_events : list agent_event
}.
Definition with_definition_rows (f : gmap jsstring AgentDefinition -> gmap jsstring AgentDefinition) (s : agent_store) : agent_store :=
  AgentStore (f (definition_rows s)) (orchestration_rows s) (agent_events s).
Definition with_orchestration_rows (f : gmap jsstring OrchestrationRow -> gmap jsstring OrchestrationRow) (s : agent_store) : agent_store :=
  AgentStore (definition_rows s) (f (orchestration_rows s)) (agent_events s).
Definition publish (e : agent_event) (s : agent_store) : agent_store :=
  AgentStore (definition_rows s) (orchestration_rows s) (agent_events s ++ [e]).

(** *** The definition repository *)

Definition definitions_get (s : agent_store) (id : jsstring) : result (option AgentDefinition) :=
  match definition_rows s !! id with
  | None => Ok None
  | Some row => match sanitizeAgentDefinition row with
                | Some d => Ok (Some d)
                | None => Throw (AgentServiceError "NODE_AGENT_AGENT_DEFINITION_INVALID" 500)
                end
  end.

Definition requireDefinition (s : agent_store) (id : jsstring) : result AgentDefinition :=
  d ← definitions_get s id;
  match d with Some d => Ok d | None => Throw (AgentServiceError "AGENT_DEFINITION_NOT_FOUND" 404) end.

Definition definitions_insert (s : agent_store) (id : jsstring) (f : AgentDefinitionFields) (timestamp : Z) : result (agent_store * AgentDefinition) :=
  if bool_decide (is_Some (definition_rows s !! id)) then Throw AgentConstraint else
  let s := with_definition_rows <[id := AgentDef id (agentDefinitionRevision f) f timestamp timestamp]> s in
  d ← requireDefinition s id; Ok (s, d).

Inductive mutation_result (A : Type) := MutationUpdated (a : A) | MutationConflict (a : A) | MutationMissing.
#[global] Arguments MutationUpdated {A} a.
#[global] Arguments MutationConflict {A} a.
#[global] Arguments MutationMissing {A}.

Definition definitions_update (s : agent_store) (id expectedRevision : jsstring) (f : AgentDefinitionFields) (timestamp : Z)
  : result (agent_store * mutation_result AgentDefinition) :=
  current ← definitions_get s id;
  match current with
  | None => Ok (s, MutationMissing)
  | Some current =>
      if bool_decide (ad_revision current <> expectedRevision) then Ok (s, MutationConflict current) else
      let s := with_definition_rows (alter (fun row => AgentDef (ad_id row) (agentDefinitionRevision f) f (ad_createdAt row) timestamp) id) s in
      d ← requireDefinition s id; Ok (s, MutationUpdated d)
  end.

Definition definitions_delete (s : agent_store) (id : jsstring) : agent_store * bool :=
  (with_definition_rows (delete id) s, bool_decide (is_Some (definition_rows s !! id))).

(** *** The orchestration repository *)

(** [name], the trimmed ends and the bounds: the schema a row is read with. *)
Definition edge_schema (e : AgentOrchestrationEdge) : option AgentOrchestrationEdge :=
  from ← AgentDefinitionIdSchema (fromAgentId e); to ← AgentDefinitionIdSchema (toAgentId e); Some (AgentEdge from to).
Definition graph_schema (least : nat) (g : AgentOrchestrationGraph) : option AgentOrchestrationGraph :=
  ids ← mapM AgentDefinitionIdSchema (agentIds g);
  es ← mapM edge_schema (edges g);
  if bool_decide (least <= length ids <= 50) && bool_decide (length es <= 200) then Some (AgentGraph ids es) else None.

Definition sanitizeAgentOrchestration (o : AgentOrchestration) : option AgentOrchestration :=
  id ← AgentOrchestrationIdSchema (ao_id o);
  name ← text_schema 120 (ao_name o);
  g ← graph_schema 0 (ao_graph o);
  if is_revision (ao_revision o) then Some (Orchestration id (ao_revision o) name g (ao_createdAt o) (ao_updatedAt o)) else None.

(** [ORDER BY from_agent_id, to_agent_id]. *)
Definition edge_order (e e' : AgentOrchestrationEdge) : Z :=
  if bool_decide (fromAgentId e = fromAgentId e') then js_compare (toAgentId e) (toAgentId e')
  else js_compare (fromAgentId e) (fromAgentId e').

Definition orchestrationFromRow (id : jsstring) (row : OrchestrationRow) : result AgentOrchestration :=
  let content := normalizeContent (OrchestrationContent (or_name row)
                   (AgentGraph (js_sort js_compare (or_agents row)) (js_sort edge_order (or_edges row)))) in
  let revision := if is_revision (or_revision row) then or_revision row else agentOrchestrationRevision content in
  match sanitizeAgentOrchestration (Orchestration id revision (oc_name content) (oc_graph content) (or_createdAt row) (or_updatedAt row)) with
  | Some o => Ok o
  | None => Throw (AgentServiceError "NODE_AGENT_AGENT_ORCHESTRATION_INVALID" 500)
  end.

Definition orchestrations_get (s : agent_store) (id : jsstring) : result (option AgentOrchestration) :=
  match orchestration_rows s !! id with
  | None => Ok None
  | Some row => o ← orchestrationFromRow id row; Ok (Some o)
  end.

Definition requireOrchestration (s : agent_store) (id : jsstring) : result AgentOrchestration :=
  o ← orchestrations_get s id;
  match o with Some o => Ok o | None => Throw (AgentServiceError "AGENT_ORCHESTRATION_NOT_FOUND" 404) end.

Definition idsReferencingAgent (s : agent_store) (agentId : jsstring) : list jsstring :=
  js_sort js_compare (filter (fun e => agentId ∈ or_agents e.2) (map_to_list (orchestration_rows s))).*1.

Definition orchestrations_insert (s : agent_store) (id : jsstring) (c : AgentOrchestrationContent) (timestamp : Z)
  : result (agent_store * AgentOrchestration) :=
  let content := normalizeContent c in
  if bool_decide (is_Some (orchestration_rows s !! id)) then Throw AgentConstraint else
  let s := with_orchestration_rows <[id := OrchRow (oc_name content) (agentOrchestrationRevision content) timestamp timestamp
             (agentIds (oc_graph content)) (edges (oc_graph content))]> s in
  o ← requireOrchestration s id; Ok (s, o).

Definition orchestrations_update (s : agent_store) (id expectedRevision : jsstring) (c : AgentOrchestrationContent) (timestamp : Z)
  : result (agent_store * mutation_result AgentOrchestration) :=
  current ← orchestrations_get s id;
  match current with
  | None => Ok (s, MutationMissing)
  | Some current =>
      if bool_decide (ao_revision current <> expectedRevision) then Ok (s, MutationConflict current) else
      let content := normalizeContent c in
      let s := with_orchestration_rows (alter (fun row => OrchRow (oc_name content) (agentOrchestrationRevision content)
                 (or_createdAt row) timestamp (agentIds (oc_graph content)) (edges (oc_graph content))) id) s in
      o ← requireOrchestration s id; Ok (s, MutationUpdated o)
  end.

Definition orchestrations_delete (s : agent_store) (id : jsstring) : agent_store * bool :=
  (with_orchestration_rows (delete id) s, bool_decide (is_Some (orchestration_rows s !! id))).

Definition orchestrations_deleteMany (s : agent_store) (ids : list jsstring) : agent_store :=
  with_orchestration_rows (fun rows => foldl (fun rows id => delete id rows) rows ids) s.

(** ** The orchestration service *)

Definition service_throw {A} (code : string) (status : Z) : result A := Throw (AgentServiceError code status).

Definition orchestration_get (s : agent_store) (id : jsstring) : result AgentOrchestration :=
  o ← orchestrations_get s id;
  match o with Some o => Ok o | None => service_throw "AGENT_ORCHESTRATION_NOT_FOUND" 404 end.

Definition check_edge (known : list jsstring) (e : AgentOrchestrationEdge) : result unit :=
  if bool_decide (fromAgentId e = toAgentId e) then service_throw "AGENT_ORCHESTRATION_INVALID_GRAPH" 409 else
  if bool_decide (fromAgentId e ∉ known) || bool_decide (toAgentId e ∉ known)
  then service_throw "AGENT_ORCHESTRATION_INVALID_GRAPH" 409 else Ok ().

Definition check_agent (s : agent_store) (existing : list jsstring) (agentId : jsstring) : result unit :=
  d ← definitions_get s agentId;
  match d with
  | Some _ => Ok ()
  | None => if bool_decide (agentId ∈ existing) then Ok () else service_throw "AGENT_ORCHESTRATION_AGENT_UNKNOWN" 409
  end.

(** What a default orchestration must keep. *)
Definition check_default (s : agent_store) (known : list jsstring) (orchestrationId : jsstring) : result unit :=
  match defaultAgentOrchestrationOwnerAgentId orchestrationId with
  | Some owner =>
      if truthy owner then
        d ← definitions_get s owner;
        match d with
        | None => service_throw "AGENT_ORCHESTRATION_DEFAULT_PROTECTED" 409
        | Some _ => if bool_decide (owner ∉ known) then service_throw "AGENT_ORCHESTRATION_DEFAULT_PROTECTED" 409 else Ok ()
        end
      else Ok ()
  | None => Ok ()
  end.

Definition validateGraph (s : agent_store) (content : AgentOrchestrationContent) (orchestrationId : jsstring)
    (existing : option AgentOrchestration) : result unit :=
  let g := normalizeAgentOrchestrationGraph localeCompare (oc_graph content) in
  _ ← foldM (fun _ e => check_edge (agentIds g) e) () (edges g);
  let existingIds := match existing with Some o => agentIds (ao_graph o) | None => [] end in
  _ ← foldM (fun _ agentId => check_agent s existingIds agentId) () (agentIds g);
  match mjoin (findAgentOrchestrationCycle g) with
  | Some cycle => Throw (AgentGraphCycle cycle)
  | None => check_default s (agentIds g) orchestrationId
  end.

Definition orchestration_create (s : agent_store) (input : AgentOrchestrationContent) (id : jsstring) (timestamp : Z)
  : result (agent_store * AgentOrchestration) :=
  match text_schema 120 (oc_name input), graph_schema 1 (oc_graph input) with
  | Some name, Some g =>
      let parsed := OrchestrationContent name g in
      _ ← validateGraph s parsed id None;
      '(s, o) ← orchestrations_insert s id parsed timestamp;
      Ok (publish (OrchestrationChanged ChangeCreated o) s, o)
  | _, _ => Throw AgentInputInvalid
  end.

Record AgentOrchestrationUpdateInput := OrchestrationUpdate {
  ou_expectedRevision : jsstring;
  ou_name : option jsstring;
  ou_agentIds : option (list jsstring);
  ou_edges : option (list AgentOrchestrationEdge)
}.
Definition AgentOrchestrationUpdateInputSchema (u : AgentOrchestrationUpdateInput) : option AgentOrchestrationUpdateInput :=
  name ← optional_schema (text_schema 120) (ou_name u);
  ids ← optional_schema (mapM AgentDefinitionIdSchema) (ou_agentIds u);
  es ← optional_schema (mapM edge_schema) (ou_edges u);
  if is_revision (ou_expectedRevision u)
     && match ids with Some ids => bool_decide (1 <= length ids <= 50) | None => true end
     && match es with Some es => bool_decide (length es <= 200) | None => true end
  then Some (OrchestrationUpdate (ou_expectedRevision u) name ids es) else None.

Definition orchestration_update (s : agent_store) (id : jsstring) (input : AgentOrchestrationUpdateInput) (timestamp : Z)
  : result (agent_store * AgentOrchestration) :=
  match AgentOrchestrationUpdateInputSchema input with
  | None => Throw AgentInputInvalid
  | Some parsed =>
      current ← orchestrations_get s id;
      match current with
      | None => service_throw "AGENT_ORCHESTRATION_NOT_FOUND" 404
      | Some current =>
          let content := OrchestrationContent (default (ao_name current) (ou_name parsed))
                           (AgentGraph (default (agentIds (ao_graph current)) (ou_agentIds parsed))
                                       (default (edges (ao_graph current)) (ou_edges parsed))) in
          _ ← validateGraph s content id (Some current);
          '(s, answer) ← orchestrations_update s id (ou_expectedRevision parsed) content timestamp;
          match answer with
          | MutationMissing => service_throw "AGENT_ORCHESTRATION_NOT_FOUND" 404
          | MutationConflict o =>
              Throw (AgentRevisionConflict "AGENT_ORCHESTRATION_REVISION_CONFLICT" (ou_expectedRevision parsed) (ao_revision o))
          | MutationUpdated o => Ok (publish (OrchestrationChanged ChangeUpdated o) s, o)
          end
      end
  end.

Definition orchestration_delete (s : agent_store) (id : jsstring) : result (agent_store * bool) :=
  existing ← orchestration_get s id;
  if otruthy (defaultAgentOrchestrationOwnerAgentId id) then service_throw "AGENT_ORCHESTRATION_DEFAULT_PROTECTED" 409 else
  let '(s, deleted) := orchestrations_delete s id in
  if deleted then Ok (publish (OrchestrationChanged ChangeDeleted existing) s, true) else Ok (s, false).

Definition insertDefaultForAgent (s : agent_store) (agentId name : jsstring) (timestamp : Z) : result (agent_store * AgentOrchestration) :=
  match defaultAgentOrchestrationId agentId with
  | None => Throw AgentInputInvalid
  | Some id => orchestrations_insert s id (OrchestrationContent name (AgentGraph [agentId] [])) timestamp
  end.

(** The orchestrations with the given identifiers that are there. *)
Fixpoint orchestrations_present (s : agent_store) (ids : list jsstring) : result (list AgentOrchestration) :=
  match ids with
  | [] => Ok []
  | id :: ids' =>
      o ← orchestrations_get s id;
      rest ← orchestrations_present s ids';
      Ok (match o with Some o => o :: rest | None => rest end)
  end.

Inductive referencing := ReferencingKeep | ReferencingDelete.
#[export] Instance referencing_eq_dec : EqDecision referencing.
Proof. solve_decision. Defined.

Definition deleteForAgent (s : agent_store) (agentId : jsstring) (mode : referencing) : result (agent_store * list AgentOrchestration) :=
  match defaultAgentOrchestrationId agentId with
  | None => Throw AgentInputInvalid
  | Some defaultId =>
      let deletable := if bool_decide (mode = ReferencingDelete)
                       then filter (fun id => id = defaultId \/ otruthy (defaultAgentOrchestrationOwnerAgentId id) = false) (idsReferencingAgent s agentId)
                       else [] in
      deleted ← orchestrations_present s (js_add_all (defaultId :: deletable) []);
      Ok (orchestrations_deleteMany s (ao_id <$> deleted), deleted)
  end.

(** ** The definition service *)

Definition requireTargetInstance (state : node_state) (id : jsstring) : result ControlledInstance :=
  match controlledInstances state !! id with
  | Some instance => Ok instance
  | None => service_throw "AGENT_DEFINITION_TARGET_INSTANCE_UNKNOWN" 404
  end.

Definition requireFolder (state : node_state) (instance : ControlledInstance) (cwdFolderId : jsstring) : result unit :=
  resolution ← resolveInstanceFolder state instance cwdFolderId;
  match resolution with
  | UnknownFolder => service_throw "AGENT_DEFINITION_FOLDER_UNKNOWN" 404
  | FolderResolved _ _ _ => Ok ()
  | _ => service_throw "AGENT_DEFINITION_FOLDER_UNKNOWN" 409
  end.

(** The checks of [validate], which [resolveExecution] repeats for a run. *)
Definition validate (state : node_state) (f : AgentDefinitionFields) : result ControlledInstance :=
  instance ← requireTargetInstance state (af_targetInstanceId f);
  _ ← requireFolder state instance (af_cwdFolderId f);
  if negb (bool_decide (af_providerId f ∈ ci_providers instance)) then service_throw "AGENT_DEFINITION_PROVIDER_UNSUPPORTED" 409 else
  if negb (isPublishedAgentExecutionPolicy (af_executionPolicy f)) then service_throw "AGENT_DEFINITION_POLICY_UNSUPPORTED" 409 else
  Ok instance.

Definition definition_get (s : agent_store) (id : jsstring) : result AgentDefinition :=
  d ← definitions_get s id;
  match d with Some d => Ok d | None => service_throw "AGENT_DEFINITION_NOT_FOUND" 404 end.

Definition resolveExecution (state : node_state) (s : agent_store) (id : jsstring) : result (AgentDefinition * runtime_type) :=
  definition ← definition_get s id;
  instance ← validate state (ad_fields definition);
  runtime ← requireRuntime state (ci_runtimeId instance);
  Ok (definition, runtime).

Definition definition_create (state : node_state) (s : agent_store) (input : AgentDefinitionCreateInput) (id : jsstring) (timestamp : Z)
  : result (agent_store * AgentDefinition) :=
  match AgentDefinitionFieldsSchema (dc_fields input) with
  | None => Throw AgentInputInvalid
  | Some parsed =>
      let fields := fieldsFromInput (AgentCreate parsed (dc_executionPolicy input)) in
      _ ← validate state fields;
      '(s, definition) ← definitions_insert s id fields timestamp;
      '(s, orchestration) ← insertDefaultForAgent s id (af_name fields) timestamp;
      Ok (publish (OrchestrationChanged ChangeCreated orchestration) (publish (DefinitionChanged ChangeCreated definition) s), definition)
  end.

Definition definition_update (state : node_state) (s : agent_store) (id : jsstring) (input : AgentDefinitionUpdateInput) (timestamp : Z)
  : result (agent_store * AgentDefinition) :=
  match AgentDefinitionUpdateInputSchema input with
  | None => Throw AgentInputInvalid
  | Some parsed =>
      current ← definitions_get s id;
      match current with
      | None => service_throw "AGENT_DEFINITION_NOT_FOUND" 404
      | Some current =>
          let fields := fieldsFromUpdate current parsed in
          _ ← validate state fields;
          '(s, answer) ← definitions_update s id (du_expectedRevision parsed) fields timestamp;
          match answer with
          | MutationMissing => service_throw "AGENT_DEFINITION_NOT_FOUND" 404
          | MutationConflict d =>
              Throw (AgentRevisionConflict "AGENT_DEFINITION_REVISION_CONFLICT" (du_expectedRevision parsed) (ad_revision d))
          | MutationUpdated d => Ok (publish (DefinitionChanged ChangeUpdated d) s, d)
          end
      end
  end.

Definition definition_delete (s : agent_store) (id : jsstring) (mode : referencing) : result (agent_store * list jsstring) :=
  existing ← definition_get s id;
  '(s, deleted) ← deleteForAgent s id mode;
  let '(s, removed) := definitions_delete s id in
  if negb removed then service_throw "AGENT_DEFINITION_NOT_FOUND" 404 else
  Ok (foldl (fun s o => publish (OrchestrationChanged ChangeDeleted o) s)
        (publish (DefinitionChanged ChangeDeleted existing) s) deleted, ao_id <$> deleted).

(** ** Requests *)

Inductive agent_request :=
| CreateOrchestration (input : AgentOrchestrationContent)
| UpdateOrchestration (id : jsstring) (input : AgentOrchestrationUpdateInput)
| DeleteOrchestration (id : jsstring)
| CreateDefinition (input : AgentDefinitionCreateInput)
| UpdateDefinition (id : jsstring) (input : AgentDefinitionUpdateInput)
| DeleteDefinition (id : jsstring) (mode : referencing).

(** The store after a request; [drawn] is the identifier a creation draws. *)
Definition serve (state : node_state) (request : agent_request) (drawn : jsstring) (timestamp : Z) (s : agent_store) : result agent_store :=
  fst <$> match request with
  | CreateOrchestration input => prod_map id (fun _ => ()) <$> orchestration_create s input drawn timestamp
  | UpdateOrchestration id input => prod_map Datatypes.id (fun _ => ()) <$> orchestration_update s id input timestamp
  | DeleteOrchestration id => prod_map Datatypes.id (fun _ => ()) <$> orchestration_delete s id
  | CreateDefinition input => prod_map id (fun _ => ()) <$> definition_create state s input drawn timestamp
  | UpdateDefinition id input => prod_map Datatypes.id (fun _ => ()) <$> definition_update state s id input timestamp
  | DeleteDefinition id mode => prod_map Datatypes.id (fun _ => ()) <$> definition_delete s id mode
  end.
End Agents.
