(* ===== verification/AgentsSpec.v ===== *)
(** * What the store of agents and orchestrations keeps

    Whatever requests are made: stored rows can be read, graphs are acyclic and
    their edges lead between agents of the graph, and agents and their default
    orchestrations come and go together. *)

From S2P Require Export Text AgentGraphsSpec Agents.

(** ** Values that parse to themselves *)

Lemma id_char_no_space c : is_id_char c = true -> is_js_space c = false.
Proof.
  intros H. assert (Hc : (45 <= c <= 122)%N).
  { unfold is_id_char, is_alphanumeric in H. repeat (apply orb_prop in H as [H|H]); propify; [lia..|].
    repeat (apply elem_of_cons in H as [->|H]; [lia|]). set_solver. }
  apply not_true_is_false. unfold is_js_space. intros Hs. repeat (apply orb_prop in Hs as [Hs|Hs]); propify; lia.
Qed.

Lemma stable_id_trim id : is_stable_id id = true -> trim id = id.
Proof.
  intros H. apply trimmed_trim.
  split; intros c Hc; apply id_char_no_space, (stable_id_chars id c H); [by apply head_Some_elem_of|by apply last_Some_elem_of].
Qed.

Lemma stable_id_schema_id max id :
  1 <= length id <= max -> is_stable_id id = true -> stable_id_schema max id = Some id.
Proof. intros Hl Hs. unfold stable_id_schema. rewrite stable_id_trim by done. by rewrite bool_decide_true, Hs by done. Qed.

Lemma stable_id_schema_Some max s id :
  stable_id_schema max s = Some id -> 1 <= length id <= max /\ is_stable_id id = true.
Proof. unfold stable_id_schema. destruct (_ && _) eqn:E; [|done]. intros [= <-]. by propify. Qed.

(** A schema whose results it accepts as they are. *)
Definition stable_schema {A} (schema : A -> option A) : Prop := forall a b, schema a = Some b -> schema b = Some b.

Lemma stable_id_stable max : stable_schema (stable_id_schema max).
Proof. intros s id [Hl Hs]%stable_id_schema_Some. by apply stable_id_schema_id. Qed.
Lemma definition_id_stable : stable_schema AgentDefinitionIdSchema.
Proof. apply stable_id_stable. Qed.
Lemma text_stable max : stable_schema (text_schema max).
Proof. intros s t. unfold text_schema. case_bool_decide; [|done]. intros [= <-]. rewrite trim_idemp. by rewrite bool_decide_true. Qed.
Lemma description_stable : stable_schema description_schema.
Proof. intros s t. unfold description_schema. case_bool_decide; [|done]. intros [= <-]. rewrite trim_idemp. by rewrite bool_decide_true. Qed.
Lemma prompt_stable : stable_schema prompt_schema.
Proof. intros s t. unfold prompt_schema. case_bool_decide; [|done]. intros [= <-]. by rewrite bool_decide_true. Qed.
Lemma optional_stable {A} (schema : A -> option A) : stable_schema schema -> stable_schema (optional_schema schema).
Proof.
  intros Hs [a|] b; cbn; [|by intros [= <-]]. destruct (schema a) as [a'|] eqn:E; [|done]. intros [= <-]. cbn.
  by rewrite (Hs _ _ E).
Qed.
Create HintDb parsing.
#[export] Hint Resolve stable_id_stable definition_id_stable text_stable description_stable prompt_stable optional_stable : parsing.

Lemma mapM_stable {A} (schema : A -> option A) : stable_schema schema -> stable_schema (mapM schema).
Proof.
  intros Hs l k H. apply mapM_Some in H. induction H as [|a b l k Hab _ IH]; [done|]. cbn.
  by rewrite (Hs _ _ Hab), IH.
Qed.

Lemma mapM_valid {A} (schema : A -> option A) l : mapM schema l = Some l <-> Forall (fun a => schema a = Some a) l.
Proof.
  rewrite mapM_Some. split.
  - intros H. induction l as [|a l IH]; [done|]. inversion H; subst. constructor; auto.
  - induction 1; constructor; auto.
Qed.

Lemma mapM_length {A B} (schema : A -> option B) l k : mapM schema l = Some k -> length k = length l.
Proof. intros H%mapM_Some. by apply Forall2_length in H. Qed.

(** Takes the parsing of a record apart, field by field. *)
Ltac parse_inv :=
  repeat match goal with
  | H : (?o ≫= _) = Some _ |- _ => destruct o eqn:?; cbn [mbind option_bind] in H; [|discriminate H]
  | H : (if ?b then Some _ else None) = Some _ |- _ => destruct b eqn:?; [|discriminate H]
  | H : Some _ = Some _ |- _ => apply (inj Some) in H; subst
  end.
(** What parsed values parse to. *)
Ltac parse_again :=
  repeat match goal with
  | H : ?schema ?a = Some ?b |- _ =>
      assert_fails (unify a b);
      let E := fresh "E" in
      assert (E : schema b = Some b) by (refine ((_ : stable_schema schema) _ _ H); eauto with parsing); clear H
  end.

Lemma fields_stable : stable_schema AgentDefinitionFieldsSchema.
Proof.
  intros f f' H. unfold AgentDefinitionFieldsSchema in H. parse_inv. unfold AgentDefinitionFieldsSchema.
  cbn [af_name af_description af_appendedPrompt af_targetInstanceId af_cwdFolderId af_providerId af_modelEntityId
       af_modelName af_modelUpstreamName af_reasoningEffort af_permissionMode af_executionPolicy].
  parse_again. repeat match goal with E : ?schema ?b = Some ?b |- _ => rewrite E; clear E; cbn [mbind option_bind] end. done.
Qed.

Definition valid_fields (f : AgentDefinitionFields) : Prop := AgentDefinitionFieldsSchema f = Some f.

Lemma default_valid {A} (schema : A -> option A) a o :
  schema a = Some a -> optional_schema schema o = Some o -> schema (default a o) = Some (default a o).
Proof. destruct o as [b|]; [|done]. cbn. destruct (schema b) eqn:E; [|done]. by intros _ [= ->]. Qed.

Lemma clearable_valid (schema : jsstring -> option jsstring) a o :
  optional_schema schema a = Some a -> optional_schema (optional_schema schema) o = Some o ->
  optional_schema schema (clearable o a) = Some (clearable o a).
Proof. exact (default_valid (optional_schema schema) a o). Qed.

Lemma clearable_text_valid (schema : jsstring -> option jsstring) a o :
  schema [] = Some [] -> schema a = Some a -> optional_schema (optional_schema schema) o = Some o ->
  schema (clearable_text o a) = Some (clearable_text o a).
Proof.
  destruct o as [[b|]|]; [|done..]. cbn. destruct (schema b) eqn:E; [|done]. by intros _ _ [= ->].
Qed.

Lemma valid_fields_update current input input' :
  valid_fields (ad_fields current) -> AgentDefinitionUpdateInputSchema input = Some input' ->
  valid_fields (fieldsFromUpdate current input').
Proof.
  unfold valid_fields. intros Hc Hu. unfold AgentDefinitionUpdateInputSchema in Hu. parse_inv. parse_again.
  destruct current as [id rev [n d p t w v m1 m2 m3 re pm ex] c u]. cbn [ad_fields] in *. unfold AgentDefinitionFieldsSchema in Hc.
  cbn [af_name af_description af_appendedPrompt af_targetInstanceId af_cwdFolderId af_providerId af_modelEntityId
       af_modelName af_modelUpstreamName af_reasoningEffort af_permissionMode af_executionPolicy] in Hc.
  parse_inv. injection Hc as -> -> -> -> -> -> -> -> -> -> ->.
  unfold AgentDefinitionFieldsSchema, fieldsFromUpdate.
  cbn [ad_fields af_name af_description af_appendedPrompt af_targetInstanceId af_cwdFolderId af_providerId af_modelEntityId
       af_modelName af_modelUpstreamName af_reasoningEffort af_permissionMode af_executionPolicy
       du_name du_description du_appendedPrompt du_targetInstanceId du_cwdFolderId du_providerId du_modelEntityId
       du_modelName du_modelUpstreamName du_reasoningEffort du_permissionMode du_executionPolicy].
  repeat first
    [ rewrite default_valid by done | rewrite clearable_text_valid by done | rewrite clearable_valid by done
    | progress cbn [mbind option_bind] ].
  done.
Qed.

(** ** Graphs that are written and read back *)

Definition valid_id (id : jsstring) : Prop := AgentDefinitionIdSchema id = Some id.

Lemma valid_id_stable id : valid_id id -> is_stable_id id = true.
Proof. intros H. by apply AgentDefinitionIdSchema_stable in H. Qed.

Lemma edge_schema_stable : stable_schema edge_schema.
Proof.
  intros [a b] e H. unfold edge_schema in H. parse_inv. unfold edge_schema. cbn. parse_again.
  by repeat match goal with E : ?schema ?b = Some ?b |- _ => rewrite E; clear E; cbn [mbind option_bind] end.
Qed.

Lemma edge_schema_valid e : edge_schema e = Some e <-> valid_id (fromAgentId e) /\ valid_id (toAgentId e).
Proof.
  destruct e as [a b]. unfold edge_schema, valid_id. cbn. split.
  - intros H. destruct (AgentDefinitionIdSchema a) eqn:?; [|done]. cbn in H.
    destruct (AgentDefinitionIdSchema b) eqn:?; [|done]. cbn in H. by injection H as -> ->.
  - intros [-> ->]. done.
Qed.

Definition valid_graph (g : AgentOrchestrationGraph) : Prop :=
  Forall valid_id (agentIds g) /\ Forall (fun e => edge_schema e = Some e) (edges g)
  /\ length (agentIds g) <= 50 /\ length (edges g) <= 200.

Lemma graph_schema_valid least g g' : graph_schema least g = Some g' -> valid_graph g' /\ least <= length (agentIds g').
Proof.
  intros H. unfold graph_schema in H. parse_inv. propify. cbn [agentIds edges].
  repeat split; cbn [agentIds edges]; try lia.
  - by apply mapM_valid, (mapM_stable _ definition_id_stable _ _ Heqo).
  - by apply mapM_valid, (mapM_stable _ edge_schema_stable _ _ Heqo0).
Qed.

Lemma valid_graph_schema g : valid_graph g -> graph_schema 0 g = Some g.
Proof.
  destruct g as [ids es]. intros (Hi & He & Hl & Hl'). cbn in *. unfold graph_schema. cbn [agentIds edges].
  apply mapM_valid in Hi. apply mapM_valid in He. rewrite Hi, He. cbn.
  rewrite !bool_decide_true by lia. done.
Qed.

Lemma valid_graph_sub g g' :
  valid_graph g -> (forall x, x ∈ agentIds g' -> x ∈ agentIds g) -> (forall e, e ∈ edges g' -> e ∈ edges g) ->
  length (agentIds g') <= length (agentIds g) -> length (edges g') <= length (edges g) -> valid_graph g'.
Proof.
  intros (Hi & He & Hl & Hl') Ha Hb Hla Hlb. rewrite Forall_forall in Hi. rewrite Forall_forall in He.
  split_and!; [apply Forall_forall; auto..|lia|lia].
Qed.

Lemma length_unique_sorted ids : length (unique_sorted ids) <= length ids.
Proof.
  unfold unique_sorted. rewrite js_sort_length. induction ids as [|id ids IH]; [done|]. cbn.
  case_decide; cbn; lia.
Qed.

Lemma length_edge_map es : length (edge_map es) <= length es.
Proof.
  induction es as [|e es IH] using rev_ind; [done|]. rewrite edge_map_snoc, length_app. cbn.
  pose proof (mset_length (edge_key e) e (edge_map es)) as H. destruct (mhas _ _) in H; lia.
Qed.

Lemma foldM_unit {A} (f : A -> result agent_error unit) l : foldM (fun _ a => f a) () l = Ok () <-> Forall (fun a => f a = Ok ()) l.
Proof.
  induction l as [|a l IH]; cbn; [by split|]. destruct (f a) as [[]|e] eqn:E; cbn.
  - rewrite IH. split; [by constructor|by inversion 1].
  - split; [done|]. inversion 1; congruence.
Qed.

Section Store.
Context (localeCompare : jsstring -> jsstring -> Z) (sha256 : bytes -> jsstring) (path : node_path).
(** The digest is printed as 64 hexadecimal digits. *)
Hypothesis sha256_hex : forall b, is_revision (sha256 b) = true.
Abbreviation normalize := (normalizeAgentOrchestrationGraph localeCompare).
Abbreviation fromRow := (orchestrationFromRow localeCompare sha256).
Abbreviation get := (orchestrations_get localeCompare sha256).

(** Edges lead from an agent of the graph to another, and not in circles. *)
Definition sound_graph (g : AgentOrchestrationGraph) : Prop :=
  Forall (fun e => fromAgentId e <> toAgentId e /\ fromAgentId e ∈ agentIds g /\ toAgentId e ∈ agentIds g) (edges g)
  /\ acyclic g.

Lemma normalize_valid g : valid_graph g -> valid_graph (normalize g).
Proof.
  intros Hg. eapply valid_graph_sub; [done|..].
  - intros x. apply normalize_agentIds.
  - intros e. apply normalize_edges_sub.
  - apply length_unique_sorted.
  - cbn. rewrite js_sort_length. unfold mvalues. rewrite length_fmap. apply length_edge_map.
Qed.

Lemma sound_graph_sub g g' :
  sound_graph g -> (forall x, x ∈ agentIds g' <-> x ∈ agentIds g) -> (forall e, e ∈ edges g' -> e ∈ edges g) -> sound_graph g'.
Proof.
  intros [He Ha] Hi Hs. rewrite Forall_forall in He. split.
  - apply Forall_forall. intros e H. rewrite !Hi. by apply He, Hs.
  - eapply acyclic_mono; [|exact Ha]. intros x y [Hx Hy]. split; [by apply Hi|by apply Hs].
Qed.

(** What a row that holds a graph in normal form is read as. *)
Lemma read_row id name revision created updated g :
  AgentOrchestrationIdSchema id = Some id -> text_schema 120 name = Some name -> valid_graph g ->
  exists o, fromRow id (OrchRow name revision created updated (agentIds g) (edges g)) = Ok o
    /\ ao_id o = id /\ ao_name o = name /\ valid_graph (ao_graph o)
    /\ (forall x, x ∈ agentIds (ao_graph o) <-> x ∈ agentIds g)
    /\ (forall e, e ∈ edges (ao_graph o) -> e ∈ edges g).
Proof.
  intros Hid Hn Hg. unfold orchestrationFromRow. cbn [or_name or_revision or_agents or_edges or_createdAt or_updatedAt].
  set (g' := AgentGraph (js_sort js_compare (agentIds g)) (js_sort edge_order (edges g))).
  assert (Hg' : valid_graph g').
  { eapply valid_graph_sub; [done|..]; cbn; [by setoid_rewrite js_sort_perm|by setoid_rewrite js_sort_perm|by rewrite js_sort_length..]. }
  set (rev := if is_revision revision then _ else _).
  assert (Hrev : is_revision rev = true). { unfold rev. destruct (is_revision revision) eqn:E; [done|apply sha256_hex]. }
  unfold sanitizeAgentOrchestration. cbn [ao_id ao_name ao_graph ao_revision normalizeContent oc_name oc_graph].
  rewrite Hid, Hn. cbn [mbind option_bind]. rewrite valid_graph_schema by by apply normalize_valid. cbn [mbind option_bind]. rewrite Hrev.
  eexists. split; [done|]. cbn [ao_id ao_name ao_graph]. split; [done|]. split; [done|].
  split; [by apply normalize_valid|]. split.
  - intros x. rewrite normalize_agentIds. cbn. by rewrite js_sort_perm.
  - intros e He%normalize_edges_sub. cbn in He. by rewrite js_sort_perm in He.
Qed.

Lemma validateGraph_sound s content id existing :
  validateGraph localeCompare s content id existing = Ok () ->
  sound_graph (normalize (oc_graph content))
  /\ (forall owner, defaultAgentOrchestrationOwnerAgentId id = Some owner ->
        owner ∈ agentIds (normalize (oc_graph content)) /\ is_Some (definition_rows s !! owner)).
Proof.
  unfold validateGraph. set (g := normalize (oc_graph content)).
  destruct (foldM _ _ (edges g)) as [[]|] eqn:E1; [|done]. cbn [mbind result_bind].
  destruct (foldM _ _ (agentIds g)) as [[]|] eqn:E2; [|done]. cbn [mbind result_bind].
  destruct (mjoin (findAgentOrchestrationCycle g)) eqn:E3; [done|]. intros Hd. apply find_cycle_None in E3.
  apply foldM_unit in E1. split; [split; [|done]|].
  - eapply Forall_impl; [exact E1|]. intros e. unfold check_edge. cbn. case_bool_decide; [done|].
    by repeat case_bool_decide.
  - intros owner Ho. unfold check_default in Hd. rewrite Ho in Hd.
    apply owner_default in Ho as [_ [i Hi]]. apply AgentDefinitionIdSchema_stable in Hi as Hst.
    assert (Ht : truthy owner = true). { destruct owner; [|done]. done. }
    rewrite Ht in Hd. unfold definitions_get in Hd. destruct (definition_rows s !! owner); [|done].
    split; [|by eexists]. destruct (sanitizeAgentDefinition _); [|done]. cbn in Hd. by case_bool_decide.
Qed.

(** ** The invariant *)

Definition orchestration_ok (id : jsstring) (o : AgentOrchestration) : Prop :=
  ao_id o = id /\ AgentOrchestrationIdSchema id = Some id /\ text_schema 120 (ao_name o) = Some (ao_name o)
  /\ valid_graph (ao_graph o) /\ sound_graph (ao_graph o).

Definition default_id (agentId : jsstring) : jsstring := AGENT_ORCHESTRATION_DEFAULT_ID_PREFIX ++ agentId.

Record store_ok (s : agent_store) : Prop := {
  so_definitions : forall id d, definition_rows s !! id = Some d ->
    ad_id d = id /\ valid_id id /\ sanitizeAgentDefinition d = Some d;
  so_orchestrations : forall id row, orchestration_rows s !! id = Some row ->
    exists o, fromRow id row = Ok o /\ orchestration_ok id o;
  so_default : forall id, is_Some (definition_rows s !! id) ->
    exists o, get s (default_id id) = Ok (Some o) /\ id ∈ agentIds (ao_graph o);
  so_owner : forall id owner, is_Some (orchestration_rows s !! id) ->
    defaultAgentOrchestrationOwnerAgentId id = Some owner -> is_Some (definition_rows s !! owner)
}.

Lemma valid_id_default id : valid_id id -> defaultAgentOrchestrationId id = Some (default_id id).
Proof. unfold valid_id, defaultAgentOrchestrationId. by intros ->. Qed.

Lemma default_id_owner id : valid_id id -> defaultAgentOrchestrationOwnerAgentId (default_id id) = Some id.
Proof. intros H. eapply default_owner; [exact H|by apply valid_id_default]. Qed.

Lemma owner_default_id id owner : defaultAgentOrchestrationOwnerAgentId id = Some owner -> id = default_id owner.
Proof. by intros [-> _]%owner_default. Qed.

Lemma default_id_schema id : valid_id id -> AgentOrchestrationIdSchema (default_id id) = Some (default_id id).
Proof.
  intros [Hl Hs]%stable_id_schema_Some. apply stable_id_schema_id.
  - unfold default_id. rewrite length_app. change (length AGENT_ORCHESTRATION_DEFAULT_ID_PREFIX) with 8. lia.
  - unfold is_stable_id. change (default_id id) with (100%N :: js "efault:" ++ id). apply andb_true_intro. split; [done|].
    rewrite forallb_app. apply andb_true_intro. split; [done|]. apply forallb_forall. intros c Hc%list_elem_of_In.
    by eapply stable_id_chars.
Qed.

Lemma drawn_orchestration_id id : valid_id id -> AgentOrchestrationIdSchema id = Some id.
Proof. intros [Hl Hs]%stable_id_schema_Some. apply stable_id_schema_id; [lia|done]. Qed.

Lemma alter_present {V} (f : V -> V) (m : gmap jsstring V) id v : m !! id = Some v -> alter f id m = <[id := f v]> m.
Proof.
  intros Hv. apply map_eq. intros k. destruct (decide (k = id)) as [->|Hk].
  - by rewrite lookup_alter_eq, Hv, lookup_insert_eq.
  - by rewrite lookup_alter_ne, lookup_insert_ne by done.
Qed.

(** The row of a content, and what it is read as. *)
Definition content_row (c : AgentOrchestrationContent) (created updated : Z) : OrchestrationRow :=
  let content := normalizeContent localeCompare c in
  OrchRow (oc_name content) (agentOrchestrationRevision localeCompare sha256 content) created updated
    (agentIds (oc_graph content)) (edges (oc_graph content)).

Lemma content_row_ok id c created updated :
  AgentOrchestrationIdSchema id = Some id -> text_schema 120 (oc_name c) = Some (oc_name c) -> valid_graph (oc_graph c) ->
  sound_graph (normalize (oc_graph c)) ->
  exists o, fromRow id (content_row c created updated) = Ok o /\ orchestration_ok id o
    /\ forall x, x ∈ agentIds (ao_graph o) <-> x ∈ agentIds (oc_graph c).
Proof.
  intros Hid Hn Hv Hs.
  destruct (read_row id (oc_name c) (agentOrchestrationRevision localeCompare sha256 (normalizeContent localeCompare c)) created updated
              (normalize (oc_graph c)) Hid Hn (normalize_valid _ Hv)) as (o & Ho & Hoi & Hon & Hov & Ha & He).
  exists o. split; [exact Ho|]. split.
  - split_and!; [done..|by rewrite Hon|done|by eapply sound_graph_sub].
  - intros x. rewrite Ha. apply normalize_agentIds.
Qed.

Lemma put_orchestration_ok s id row o :
  store_ok s -> fromRow id row = Ok o -> orchestration_ok id o ->
  (forall owner, defaultAgentOrchestrationOwnerAgentId id = Some owner ->
     owner ∈ agentIds (ao_graph o) /\ is_Some (definition_rows s !! owner)) ->
  store_ok (with_orchestration_rows <[id := row]> s).
Proof.
  intros Hok Hr Ho Hown. split; cbn [definition_rows orchestration_rows with_orchestration_rows].
  - apply (so_definitions s Hok).
  - intros k r. rewrite lookup_insert. case_decide; [intros [= <-]; subst; eauto|apply (so_orchestrations s Hok)].
  - intros d Hd. destruct (so_default s Hok d Hd) as (o' & Ho' & Hin). unfold orchestrations_get. cbn [orchestration_rows with_orchestration_rows].
    destruct (decide (default_id d = id)) as [<-|Hne].
    + exists o. rewrite lookup_insert_eq, Hr. split; [done|]. apply Hown, default_id_owner.
      destruct Hd as [x Hx]. apply (so_definitions s Hok d x Hx).
    + exists o'. rewrite lookup_insert_ne by done. done.
  - intros k owner. rewrite lookup_insert. case_decide; [subst; intros _ H; apply Hown, H|]. apply (so_owner s Hok).
Qed.

Lemma publish_ok e s : store_ok s -> store_ok (publish e s).
Proof. intros [H1 H2 H3 H4]. by split. Qed.

(** ** Every request keeps it *)

(** Takes a successful run apart. *)
Ltac ok_inv :=
  repeat match goal with
  | H : (_ ≫= _) = Ok _ |- _ => apply bind_Ok in H as (? & ? & H)
  | H : context [let '(_, _) := ?p in _] |- _ => destruct p
  | H : (if ?b then Throw _ else _) = Ok _ |- _ => destruct b eqn:?; [discriminate H|]
  | H : (if ?b then service_throw _ _ else _) = Ok _ |- _ => destruct b eqn:?; [discriminate H|]
  | H : service_throw _ _ = Ok _ |- _ => discriminate H
  | H : Throw _ = Ok _ |- _ => discriminate H
  | H : Ok _ = Ok _ |- _ => injection H as ?; subst
  | H : unit |- _ => destruct H
  end.

Lemma get_Ok s id o : get s id = Ok (Some o) <-> exists row, orchestration_rows s !! id = Some row /\ fromRow id row = Ok o.
Proof.
  unfold orchestrations_get. destruct (orchestration_rows s !! id) as [row|]; [|split; [done|naive_solver]].
  split.
  - intros (o' & Ho & [= ->])%bind_Ok. eauto.
  - intros (r & [= <-] & Hr). by rewrite Hr.
Qed.

Lemma get_ok s id o : store_ok s -> get s id = Ok (Some o) -> orchestration_ok id o.
Proof.
  intros Hok (row & Hr & Ho)%get_Ok. destruct (so_orchestrations s Hok id row Hr) as (o' & Ho' & H).
  rewrite Ho in Ho'. by injection Ho' as ->.
Qed.

Lemma insert_Ok s id c timestamp s' o :
  orchestrations_insert localeCompare sha256 s id c timestamp = Ok (s', o) ->
  s' = with_orchestration_rows <[id := content_row c timestamp timestamp]> s.
Proof. unfold orchestrations_insert. intros H. ok_inv. done. Qed.

Lemma update_Ok s id expected c timestamp s' o :
  orchestrations_update localeCompare sha256 s id expected c timestamp = Ok (s', MutationUpdated o) ->
  exists row, orchestration_rows s !! id = Some row
    /\ s' = with_orchestration_rows <[id := content_row c (or_createdAt row) timestamp]> s.
Proof.
  unfold orchestrations_update. intros H. ok_inv. destruct x as [current|]; [|done].
  apply get_Ok in H0 as (row & Hr & _). destruct (bool_decide _) in H; [done|]. ok_inv.
  exists row. split; [done|]. unfold with_orchestration_rows. f_equal. by erewrite alter_present.
Qed.

Lemma validated_put_ok s id c existing created updated :
  store_ok s -> AgentOrchestrationIdSchema id = Some id -> text_schema 120 (oc_name c) = Some (oc_name c) ->
  valid_graph (oc_graph c) -> validateGraph localeCompare s c id existing = Ok () ->
  store_ok (with_orchestration_rows <[id := content_row c created updated]> s).
Proof.
  intros Hok Hid Hn Hv Hval. apply validateGraph_sound in Hval as [Hs Hown].
  destruct (content_row_ok id c created updated Hid Hn Hv Hs) as (o & Ho & Hook & Ha).
  eapply put_orchestration_ok; [done..|]. intros owner Hw. destruct (Hown owner Hw) as [Hin Hd].
  split; [|done]. apply Ha. by apply normalize_agentIds in Hin.
Qed.

Lemma orchestration_create_ok s input id timestamp s' o :
  store_ok s -> valid_id id -> orchestration_create localeCompare sha256 s input id timestamp = Ok (s', o) -> store_ok s'.
Proof.
  intros Hok Hid. unfold orchestration_create.
  destruct (text_schema 120 (oc_name input)) as [name|] eqn:En; [|done].
  destruct (graph_schema 1 (oc_graph input)) as [g|] eqn:Eg; [|done]. intros H. ok_inv.
  apply insert_Ok in H1 as ->. apply publish_ok. eapply validated_put_ok; [done|by apply drawn_orchestration_id|..|done].
  - by apply (text_stable 120) in En.
  - by apply graph_schema_valid in Eg as [? _].
Qed.

Lemma valid_graph_default g ids es :
  valid_graph g ->
  match ids with Some ids => Forall valid_id ids /\ length ids <= 50 | None => True end ->
  match es with Some es => Forall (fun e => edge_schema e = Some e) es /\ length es <= 200 | None => True end ->
  valid_graph (AgentGraph (default (agentIds g) ids) (default (edges g) es)).
Proof. intros (? & ? & ? & ?) Hi He. destruct ids, es; cbn; unfold valid_graph; cbn; naive_solver. Qed.

Lemma orchestration_update_ok s id input timestamp s' o :
  store_ok s -> orchestration_update localeCompare sha256 s id input timestamp = Ok (s', o) -> store_ok s'.
Proof.
  intros Hok. unfold orchestration_update. destruct (AgentOrchestrationUpdateInputSchema input) as [parsed|] eqn:Ep; [|done].
  intros H. ok_inv. destruct x as [current|]; [|done]. ok_inv. destruct m as [o'| |]; [|done..]. ok_inv.
  apply update_Ok in H2 as (row & Hr & ->). pose proof (get_ok _ _ _ Hok H0) as (_ & Hid & Hn & Hv & _).
  apply publish_ok. eapply validated_put_ok; [done|done|..|done]; cbn [oc_name oc_graph];
    unfold AgentOrchestrationUpdateInputSchema in Ep; parse_inv; cbn [ou_name ou_agentIds ou_edges].
  - apply (default_valid (text_schema 120)); [done|]. by eapply (optional_stable _ (text_stable 120)).
  - apply andb_prop in Heqb as [Hb Hes]. apply andb_prop in Hb as [_ Hids]. apply valid_graph_default; [done|..].
    + destruct o1 as [ids|]; [|done]. propify. split; [|lia]. destruct (ou_agentIds input) as [i|]; [|done]. cbn in Heqo1.
      destruct (mapM AgentDefinitionIdSchema i) eqn:E; [|done]. injection Heqo1 as ->.
      by apply mapM_valid, (mapM_stable _ definition_id_stable _ _ E).
    + destruct o2 as [es|]; [|done]. propify. split; [|lia]. destruct (ou_edges input) as [i|]; [|done]. cbn in Heqo2.
      destruct (mapM edge_schema i) eqn:E; [|done]. injection Heqo2 as ->.
      by apply mapM_valid, (mapM_stable _ edge_schema_stable _ _ E).
Qed.

Lemma delete_orchestrations_ok s rows :
  store_ok s ->
  (forall id row, rows !! id = Some row -> orchestration_rows s !! id = Some row) ->
  (forall id, valid_id id -> is_Some (definition_rows s !! id) -> rows !! default_id id = orchestration_rows s !! default_id id) ->
  store_ok (with_orchestration_rows (fun _ => rows) s).
Proof.
  intros Hok Hsub Hdef. split; cbn [definition_rows orchestration_rows with_orchestration_rows].
  - apply (so_definitions s Hok).
  - intros id row Hr. by apply (so_orchestrations s Hok), Hsub.
  - intros id Hd. destruct (so_default s Hok id Hd) as (o & Ho & Hin). exists o. split; [|done].
    unfold orchestrations_get. cbn [orchestration_rows with_orchestration_rows]. rewrite Hdef; [exact Ho| |done].
    destruct Hd as [d Hd]. apply (so_definitions s Hok id d Hd).
  - intros id owner [row Hr]. apply (so_owner s Hok). exists row. by apply Hsub.
Qed.

Lemma orchestration_delete_ok s id s' b :
  store_ok s -> orchestration_delete localeCompare sha256 s id = Ok (s', b) -> store_ok s'.
Proof.
  intros Hok. unfold orchestration_delete, orchestrations_delete. intros H.
  ok_inv.
  assert (Hd : store_ok (with_orchestration_rows (delete id) s)).
  { change (with_orchestration_rows (delete id) s) with (with_orchestration_rows (fun _ => delete id (orchestration_rows s)) s).
    apply (delete_orchestrations_ok s); [done|..].
    - intros k row H1. by apply lookup_delete_Some in H1 as [_ ?].
    - intros k Hk _. rewrite lookup_delete_ne; [done|]. intros Hid.
      match goal with H : otruthy _ = false |- _ => rewrite Hid, default_id_owner in H by done end.
      apply stable_id_schema_Some in Hk as [Hl _]. destruct k; [cbn in Hl; lia|done]. }
  case_bool_decide; ok_inv; [by apply publish_ok|done].
Qed.

Lemma requireDefinition_id s id d : store_ok s -> definition_get s id = Ok d -> valid_id id /\ definition_rows s !! id = Some d.
Proof.
  intros Hok H. unfold definition_get, definitions_get in H. ok_inv.
  destruct (definition_rows s !! id) as [row|] eqn:E; [|by injection H0 as <-].
  destruct (so_definitions s Hok id row E) as (_ & Hv & Hs). rewrite Hs in H0. injection H0 as <-. by injection H as <-.
Qed.

Lemma definition_put_ok s id d :
  store_ok s -> ad_id d = id -> valid_id id -> sanitizeAgentDefinition d = Some d ->
  is_Some (definition_rows s !! id) -> store_ok (with_definition_rows <[id := d]> s).
Proof.
  intros Hok Hi Hv Hs Hd.
  assert (Hrows : forall k, is_Some (<[id := d]> (definition_rows s) !! k) <-> is_Some (definition_rows s !! k)).
  { intros k. rewrite lookup_insert. case_decide; [subst; split; [done|by eexists]|done]. }
  split; cbn [definition_rows orchestration_rows with_definition_rows].
  - intros k e. rewrite lookup_insert. case_decide; [intros [= <-]; subst; done|apply (so_definitions s Hok)].
  - apply (so_orchestrations s Hok).
  - intros k Hk%Hrows. by apply (so_default s Hok).
  - intros k owner Hk Ho. apply Hrows. by eapply so_owner.
Qed.

Lemma definition_row_ok id f created updated :
  valid_id id -> valid_fields f ->
  sanitizeAgentDefinition (AgentDef id (agentDefinitionRevision sha256 f) f created updated)
  = Some (AgentDef id (agentDefinitionRevision sha256 f) f created updated).
Proof.
  intros Hid Hf. unfold sanitizeAgentDefinition. cbn [ad_id ad_fields ad_revision]. rewrite Hid. cbn [mbind option_bind].
  rewrite Hf. cbn [mbind option_bind]. unfold agentDefinitionRevision. by rewrite sha256_hex.
Qed.

Lemma definitions_update_Ok s id expected f timestamp s' d row :
  definition_rows s !! id = Some row ->
  definitions_update sha256 s id expected f timestamp = Ok (s', MutationUpdated d) ->
  s' = with_definition_rows <[id := AgentDef (ad_id row) (agentDefinitionRevision sha256 f) f (ad_createdAt row) timestamp]> s.
Proof.
  intros Hrow. unfold definitions_update. intros H. ok_inv. destruct x as [current|]; [|done].
  destruct (bool_decide _) in H; [done|]. ok_inv. unfold with_definition_rows. f_equal. by rewrite (alter_present _ _ _ _ Hrow).
Qed.

Lemma definition_update_ok state s id input timestamp s' d :
  store_ok s -> definition_update sha256 path state s id input timestamp = Ok (s', d) -> store_ok s'.
Proof.
  intros Hok. unfold definition_update. destruct (AgentDefinitionUpdateInputSchema input) as [parsed|] eqn:Ep; [|done].
  intros H. ok_inv. destruct x as [current|]; [|done]. ok_inv. destruct m as [d'| |]; [|done..]. ok_inv.
  assert (Hg : definition_get s id = Ok current) by (unfold definition_get; by rewrite H0).
  apply requireDefinition_id in Hg as [Hv Hrow]; [|done].
  apply (definitions_update_Ok _ _ _ _ _ _ _ current Hrow) in H2 as ->. apply publish_ok.
  destruct (so_definitions s Hok id current Hrow) as (Hi & _ & Hs). rewrite Hi.
  apply definition_put_ok; [done..| |by eexists]. apply definition_row_ok; [done|].
  eapply valid_fields_update; [|exact Ep]. unfold sanitizeAgentDefinition in Hs.
  destruct (AgentDefinitionIdSchema (ad_id current)); [|done]. cbn in Hs.
  destruct (AgentDefinitionFieldsSchema (ad_fields current)) as [f|] eqn:Ef; [|done]. cbn in Hs.
  destruct (is_revision _); [|done]. injection Hs as Hs. unfold valid_fields. rewrite Ef. f_equal. by rewrite <- Hs.
Qed.

Lemma fieldsFromInput_valid f policy f' :
  AgentDefinitionFieldsSchema f = Some f' -> valid_fields (fieldsFromInput (AgentCreate f' policy)).
Proof.
  intros H%fields_stable. destruct f' as [n d p t w v m1 m2 m3 re pm ex]. unfold valid_fields, AgentDefinitionFieldsSchema in *. unfold fieldsFromInput. cbn [dc_fields dc_executionPolicy] in *.
  cbn [af_name af_description af_appendedPrompt af_targetInstanceId af_cwdFolderId af_providerId af_modelEntityId
       af_modelName af_modelUpstreamName af_reasoningEffort af_permissionMode af_executionPolicy] in *.
  parse_inv. injection H as -> -> -> -> -> -> -> -> -> -> ->. done.
Qed.

Lemma valid_fields_name f : valid_fields f -> text_schema 120 (af_name f) = Some (af_name f).
Proof.
  unfold valid_fields, AgentDefinitionFieldsSchema. intros H. parse_inv.
  apply (f_equal af_name) in H. cbn in H. congruence.
Qed.

(** An agent and its default orchestration are added together. *)
Lemma add_agent_ok s id d row o :
  store_ok s -> ad_id d = id -> valid_id id -> sanitizeAgentDefinition d = Some d ->
  fromRow (default_id id) row = Ok o -> orchestration_ok (default_id id) o -> id ∈ agentIds (ao_graph o) ->
  store_ok (with_orchestration_rows <[default_id id := row]> (with_definition_rows <[id := d]> s)).
Proof.
  intros Hok Hi Hv Hs Hr Ho Hin.
  split; cbn [definition_rows orchestration_rows with_definition_rows with_orchestration_rows].
  - intros k e. rewrite lookup_insert. case_decide; [intros [= <-]; subst; done|apply (so_definitions s Hok)].
  - intros k r. rewrite lookup_insert. case_decide; [intros [= <-]; subst; eauto|apply (so_orchestrations s Hok)].
  - intros k Hk. unfold orchestrations_get. cbn [orchestration_rows with_definition_rows with_orchestration_rows].
    destruct (decide (k = id)) as [->|Hne]; [exists o; by rewrite lookup_insert_eq, Hr|].
    rewrite lookup_insert_ne in Hk by done. rewrite lookup_insert_ne by (intros He; by apply (inj (app _)) in He).
    apply (so_default s Hok k Hk).
  - intros k owner [r Hk] Hw. rewrite lookup_insert. case_decide; [by eexists|].
    rewrite lookup_insert_ne in Hk. { eapply so_owner; [done|by eexists|done]. }
    intros He. rewrite <- He, default_id_owner in Hw by done. congruence.
Qed.

Lemma definition_create_ok state s input id timestamp s' d :
  store_ok s -> valid_id id -> definition_create localeCompare sha256 path state s input id timestamp = Ok (s', d) -> store_ok s'.
Proof.
  intros Hok Hv. unfold definition_create. destruct (AgentDefinitionFieldsSchema (dc_fields input)) as [parsed|] eqn:Ep; [|done].
  intros H. ok_inv. set (f := fieldsFromInput _) in *. assert (Hf : valid_fields f) by by eapply fieldsFromInput_valid.
  unfold definitions_insert in H1. ok_inv. unfold insertDefaultForAgent in H2. rewrite valid_id_default in H2 by done.
  apply insert_Ok in H2 as ->. do 2 apply publish_ok.
  destruct (content_row_ok (default_id id) (OrchestrationContent (af_name f) (AgentGraph [id] [])) timestamp timestamp)
    as (o & Ho & Hoo & Hin); [by apply default_id_schema|..].
  - by apply valid_fields_name.
  - split_and!; cbn; [by constructor|constructor|lia|lia].
  - split; [by constructor|by apply acyclic_no_edges].
  - eapply add_agent_ok; [done|done|done|by apply definition_row_ok|done|done|]. apply Hin. cbn. set_solver.
Qed.

Lemma foldl_delete_lookup {V} (ids : list jsstring) (m : gmap jsstring V) k :
  foldl (fun rows id => delete id rows) m ids !! k = if decide (k ∈ ids) then None else m !! k.
Proof.
  revert m. induction ids as [|id ids IH]; intros m; cbn [foldl]; [done|]. rewrite IH, lookup_delete.
  repeat case_decide; set_solver.
Qed.

Lemma orchestrations_present_Ok s ids l :
  orchestrations_present localeCompare sha256 s ids = Ok l ->
  (forall o, o ∈ l -> exists id, id ∈ ids /\ get s id = Ok (Some o))
  /\ (forall id, id ∈ ids -> is_Some (orchestration_rows s !! id) -> exists o, o ∈ l /\ get s id = Ok (Some o)).
Proof.
  revert l. induction ids as [|id ids IH]; intros l H; cbn in H.
  { injection H as <-. split; intros; set_solver. }
  ok_inv. destruct (IH _ H1) as [Ha Hb]. split.
  - intros o Ho. destruct x as [o'|]; [apply elem_of_cons in Ho as [->|Ho]|]; [exists id; set_solver| |];
      destruct (Ha o Ho) as (k & ? & ?); exists k; set_solver.
  - intros k Hk Hr. apply elem_of_cons in Hk as [->|Hk].
    + destruct x as [o|]; [exists o; set_solver|]. unfold orchestrations_get in H0. destruct Hr as [row Hr]. rewrite Hr in H0. by ok_inv.
    + destruct (Hb k Hk Hr) as (o & ? & ?). exists o. split; [|done]. destruct x; set_solver.
Qed.

Lemma publish_all_ok os s : store_ok s -> store_ok (foldl (fun s o => publish (OrchestrationChanged ChangeDeleted o) s) s os).
Proof. revert s. induction os as [|o os IH]; intros s Hok; [done|]. cbn. by apply IH, publish_ok. Qed.

Lemma definition_delete_ok s id mode s' l :
  store_ok s -> definition_delete localeCompare sha256 s id mode = Ok (s', l) -> store_ok s'.
Proof.
  intros Hok. unfold definition_delete, definitions_delete. intros H. apply bind_Ok in H as (d & Hd & H).
  destruct (requireDefinition_id s id d Hok Hd) as [Hv Hrow]. apply bind_Ok in H as ([s1 deleted] & Hdel & H). cbn beta iota in H.
  destruct (negb _) in H; [done|]. injection H as <- _. apply publish_all_ok, publish_ok.
  unfold deleteForAgent in Hdel. rewrite valid_id_default in Hdel by done.
  set (ids := js_add_all _ []) in Hdel. apply bind_Ok in Hdel as (l' & Hp & [= <- ->]).
  destruct (orchestrations_present_Ok s ids deleted Hp) as [Hin Hall].
  assert (Hids : forall k, k ∈ ao_id <$> deleted -> k ∈ ids).
  { intros k (o & -> & Ho)%list_elem_of_fmap. destruct (Hin o Ho) as (k & Hk & Hg). by destruct (get_ok s k o Hok Hg) as [-> _]. }
  assert (Hother : forall k, k ∈ ids -> k = default_id id \/ defaultAgentOrchestrationOwnerAgentId k = None \/ defaultAgentOrchestrationOwnerAgentId k = Some []).
  { intros k Hk. unfold ids in Hk. apply elem_of_js_add_all in Hk as [Hk|Hk]; [|set_solver].
    apply elem_of_cons in Hk as [->|Hk]; [by left|]. destruct (bool_decide (mode = _)) in Hk; [|set_solver].
    apply list_elem_of_filter in Hk as [[->|Ht] _]; [by left|]. right.
    destruct (defaultAgentOrchestrationOwnerAgentId k) as [[|]|]; [by right|done|by left]. }
  assert (Hgone : forall r, foldl (fun rows k => delete k rows) (orchestration_rows s) (ao_id <$> deleted) !! default_id id = Some r -> False).
  { intros r. rewrite foldl_delete_lookup. case_decide as Hnin; [done|]. intros Hr. apply Hnin.
    destruct (Hall (default_id id)) as (o & Ho & Hg); [|by eexists|].
    - unfold ids. apply elem_of_js_add_all. left. set_solver.
    - apply list_elem_of_fmap. exists o. by destruct (get_ok s _ o Hok Hg) as [-> _]. }
  split; cbn [definition_rows orchestration_rows with_definition_rows with_orchestration_rows orchestrations_deleteMany].
  - intros k e [_ Hk]%lookup_delete_Some. by apply (so_definitions s Hok).
  - intros k r. rewrite foldl_delete_lookup. case_decide; [done|]. apply (so_orchestrations s Hok).
  - intros k [e Hk]. apply lookup_delete_Some in Hk as [Hne Hk].
    destruct (so_definitions s Hok k e Hk) as (_ & Hvk & _).
    destruct (so_default s Hok k) as (o & Ho & Hko); [by eexists|]. exists o. split; [|done]. unfold orchestrations_get.
    cbn [orchestration_rows with_definition_rows with_orchestration_rows orchestrations_deleteMany].
    rewrite foldl_delete_lookup, decide_False; [exact Ho|]. intros Hk'. apply Hids, Hother in Hk'.
    rewrite default_id_owner in Hk' by done. destruct Hk' as [He|[?|[= ->]]]; [|done|].
    + apply (inj (app _)) in He. congruence.
    + apply stable_id_schema_Some in Hvk as [Hl _]. cbn in Hl. lia.
  - intros k owner [r Hk] Hw. rewrite lookup_delete_ne.
    + eapply so_owner; [done| |done]. rewrite foldl_delete_lookup in Hk. case_decide; [done|]. by eexists.
    + intros <-. apply owner_default_id in Hw. subst k. by eapply Hgone.
Qed.

Definition empty_agent_store : agent_store := AgentStore ∅ ∅ [].

(** A request that succeeds; one that throws leaves the store as it was.  What
    is drawn is an identifier. *)
Inductive agent_step (s s' : agent_store) : Prop :=
| agent_step_serve state request drawn timestamp :
    valid_id drawn -> serve localeCompare sha256 path state request drawn timestamp s = Ok s' -> agent_step s s'.

Lemma empty_store_ok : store_ok empty_agent_store.
Proof.
  split; cbn; [intros id d|intros id r|intros id [d Hd]|intros id w [r Hr]]; rewrite ?lookup_empty in *; try done.
  all: by rewrite lookup_empty in *.
Qed.

Lemma serve_Ok {A} (r : result agent_error (agent_store * A)) s' :
  fst <$> (prod_map id (fun _ => ()) <$> r) = Ok s' -> exists a, r = Ok (s', a).
Proof. destruct r as [[s a]|]; cbn; [|done]. intros [= <-]. eauto. Qed.

Lemma agent_step_ok s s' : agent_step s s' -> store_ok s -> store_ok s'.
Proof.
  intros [state request drawn timestamp Hd Hs] Hok. unfold serve in Hs. destruct request; apply serve_Ok in Hs as [a Ha].
  - by eapply orchestration_create_ok.
  - by eapply orchestration_update_ok.
  - by eapply orchestration_delete_ok.
  - by eapply definition_create_ok.
  - by eapply definition_update_ok.
  - by eapply definition_delete_ok.
Qed.

Lemma agents_reachable_ok s : rtc agent_step empty_agent_store s -> store_ok s.
Proof.
  intros H. assert (Hgen : forall s0, rtc agent_step s0 s -> store_ok s0 -> store_ok s).
  { clear H. induction 1; [done|]. eauto using agent_step_ok. }
  eapply Hgen; [exact H|apply empty_store_ok].
Qed.

(** C37. Whatever requests created, changed and deleted, every orchestration
    that is stored can be read and its graph is sound - each edge leads from an
    agent of the graph to another, and following edges never leads back - and
    an agent is defined exactly when its default orchestration is there, which
    has it in its graph. *)
Theorem agent_store_sound s (Hs : rtc agent_step empty_agent_store s) :
  (forall id, exists o, get s id = Ok o /\ match o with Some o => sound_graph (ao_graph o) | None => True end)
  /\ (forall agentId, valid_id agentId ->
        is_Some (definition_rows s !! agentId)
        <-> exists o, get s (default_id agentId) = Ok (Some o) /\ agentId ∈ agentIds (ao_graph o)).
Proof.
  pose proof (agents_reachable_ok s Hs) as Hok. split.
  - intros id. destruct (orchestration_rows s !! id) as [row|] eqn:E.
    + destruct (so_orchestrations s Hok id row E) as (o & Ho & _ & _ & _ & _ & Hsg). exists (Some o). split; [|done].
      apply get_Ok. eauto.
    + exists None. split; [|done]. unfold orchestrations_get. by rewrite E.
  - intros agentId Hv. split; [apply (so_default s Hok)|]. intros (o & (row & Hr & _)%get_Ok & _).
    eapply (so_owner s Hok (default_id agentId)); [by eexists|by apply default_id_owner].
Qed.
End Store.

(** ** A run *)

Module AgentExample.
Definition sha (_ : bytes) : jsstring := replicate 64 48%N.
Definition posix : node_path := NodePath id (fun _ _ => []) (fun _ => false) (fun a _ => a).
Definition node : node_state :=
  NodeState {[js "i1" := Instance_ (js "r1") None None (Some (js "/work")) [js "codex"]]}
    {[js "r1" := RuntimeDocker]} {[js "f1" := js "/work"]}.
Definition fields (name : jsstring) : AgentDefinitionFields :=
  AgentFields name [] [] (js "i1") (js "f1") (js "codex") None None None None None (ExecutionPolicy OverlayCopyOnWrite SandboxInstance).
Definition request (n : nat) : agent_request * jsstring :=
  match n with
  | 0 => (CreateDefinition (AgentCreate (fields (js "Writer")) None), js "agent_w")
  | 1 => (CreateDefinition (AgentCreate (fields (js "Critic")) None), js "agent_c")
  | 2 => (CreateOrchestration (OrchestrationContent (js "Review")
            (AgentGraph [js "agent_w"; js "agent_c"] [AgentEdge (js "agent_w") (js "agent_c")])), js "orchestration_r")
  | _ => (DeleteDefinition (js "agent_c") ReferencingKeep, js "x")
  end.
Definition after (n : nat) (s : agent_store) : agent_store :=
  let '(r, drawn) := request n in
  match serve js_compare sha posix node r drawn 1000 s with Ok s => s | Throw _ => s end.
Definition store_after (n : nat) : agent_store := foldl (fun s n => after n s) empty_agent_store (seq 0 n).
End AgentExample.

Lemma example_step n : n < 4 ->
  agent_step js_compare AgentExample.sha AgentExample.posix (AgentExample.store_after n) (AgentExample.store_after (S n)).
Proof.
  intros Hn. apply (agent_step_serve _ _ _ _ _ AgentExample.node (AgentExample.request n).1 (AgentExample.request n).2 1000);
    do 4 (destruct n as [|n]; [vm_compute; reflexivity|]); lia.
Qed.

Lemma agent_store_sound_witness :
  (forall id, exists o, orchestrations_get js_compare AgentExample.sha (AgentExample.store_after 4) id = Ok o
              /\ match o with Some o => sound_graph (ao_graph o) | None => True end)
  /\ option_map edges (match orchestrations_get js_compare AgentExample.sha (AgentExample.store_after 4) (js "orchestration_r") with
                       | Ok (Some o) => Some (ao_graph o) | _ => None end)
     = Some [AgentEdge (js "agent_w") (js "agent_c")].
Proof.
  split; [|by vm_compute].
  apply (agent_store_sound js_compare AgentExample.sha AgentExample.posix (fun _ => eq_refl)).
  change empty_agent_store with (AgentExample.store_after 0).
  do 4 (eapply rtc_l; [apply example_step; lia|]). apply rtc_refl.
Defined.
