(* ===== verification/AgentRuns.v ===== *)
(** * Agent runs

    [packages/protocol/src/agent-runs.ts],
    [packages/node-agent/src/persistence/agent-run-repository.ts] and
    [packages/node-agent/src/agents/run-service.ts]: a run of an
    orchestration, its members and its timeline, and the requests that create
    a run, call another agent from a member, cancel, and read a result.

    A repository operation is a transaction, a service request a sequence of
    them: when a request throws, the transactions before the throw stay.  The
    rows of a run's members and timeline are part of the run's row, in the
    order they were written.  The coordinator is called at the end of a request
    and changes runs only through [service_transitionRun],
    [service_transitionMember] and [appendTimeline]; its calls are recorded.
    The shared space that is only shown with a run, the delivery of results
    (nothing writes it) and rows that older versions wrote are left out. *)

From S2P Require Export Agents.

(** ** Data *)

Inductive AgentRunStatus := Queued | Preparing | Running | Finalizing | Completed | Failed | Cancelled.
#[export] Instance run_status_eq_dec : EqDecision AgentRunStatus.
Proof. solve_decision. Defined.

Definition AGENT_RUN_TERMINAL_STATUSES : list AgentRunStatus := [Completed; Failed; Cancelled].
Definition is_terminal (status : AgentRunStatus) : bool := bool_decide (status ∈ AGENT_RUN_TERMINAL_STATUSES).

Definition AGENT_RUN_TRANSITIONS (status : AgentRunStatus) : list AgentRunStatus :=
  match status with
  | Queued => [Preparing; Finalizing]
  | Preparing => [Running; Finalizing]
  | Running => [Finalizing]
  | Finalizing => [Completed; Failed; Cancelled]
  | Completed | Failed | Cancelled => []
  end.
Definition canTransitionAgentRunStatus (from to : AgentRunStatus) : bool :=
  bool_decide (from = to) || bool_decide (to ∈ AGENT_RUN_TRANSITIONS from).

Record AgentRunBudget := RunBudget { maxMembers : Z; maxDepth : Z; maxConcurrency : Z }.
#[export] Instance run_budget_eq_dec : EqDecision AgentRunBudget.
Proof. solve_decision. Defined.
Definition AGENT_RUN_DEFAULT_BUDGET : AgentRunBudget := RunBudget 16 4 4.
Definition AGENT_RUN_MAX_TOOL_RESULT_CHARACTERS : nat := Z.to_nat 32000.

Definition effectiveAgentRunBudget (requested : option AgentRunBudget) : AgentRunBudget :=
  match requested with
  | None => AGENT_RUN_DEFAULT_BUDGET
  | Some b => RunBudget (Z.min (maxMembers b) (maxMembers AGENT_RUN_DEFAULT_BUDGET))
                (Z.min (maxDepth b) (maxDepth AGENT_RUN_DEFAULT_BUDGET))
                (Z.min (maxConcurrency b) (maxConcurrency AGENT_RUN_DEFAULT_BUDGET))
  end.

Record AuthorizationSubject := Subject { sub_operator : bool; sub_id : jsstring; sub_revision : option Z }.
#[export] Instance subject_eq_dec : EqDecision AuthorizationSubject.
Proof. solve_decision. Defined.

Inductive AgentRunProvenance :=
| StoryProvenance (source_given : bool) (initiatingInstanceId initiatingAiSessionId storyId : jsstring) (subject : option AuthorizationSubject)
| ControlPlaneProvenance (subject : option AuthorizationSubject).
#[export] Instance provenance_eq_dec : EqDecision AgentRunProvenance.
Proof. solve_decision. Defined.

(** An optional key of a snapshot: [None] is a key that is not there,
    [Some None] a key whose value is [undefined]. *)
Abbreviation optional_key := (option (option jsstring)).

Record AgentRunMemberExecutionSnapshot := Snapshot {
  es_agentRevision : jsstring;
  es_targetInstanceId : jsstring;
  es_cwdFolderId : jsstring;
  es_appendedPrompt : jsstring;
  es_providerId : jsstring;
  es_modelEntityId : optional_key;
  es_modelName : optional_key;
  es_modelUpstreamName : optional_key;
  es_reasoningEffort : optional_key;
  es_permissionMode : optional_key;
  es_executionPolicy : AgentExecutionPolicy
}.
#[export] Instance snapshot_eq_dec : EqDecision AgentRunMemberExecutionSnapshot.
Proof. solve_decision. Defined.

(** [JSON.stringify] leaves out a key whose value is [undefined]. *)
Definition json_key (k : optional_key) : optional_key := match k with Some None => None | _ => k end.
Definition json_snapshot (s : AgentRunMemberExecutionSnapshot) : AgentRunMemberExecutionSnapshot :=
  Snapshot (es_agentRevision s) (es_targetInstanceId s) (es_cwdFolderId s) (es_appendedPrompt s) (es_providerId s)
    (json_key (es_modelEntityId s)) (json_key (es_modelName s)) (json_key (es_modelUpstreamName s))
    (json_key (es_reasoningEffort s)) (json_key (es_permissionMode s)) (es_executionPolicy s).

Record AgentRunError := RunError { err_code : jsstring; err_message : jsstring; err_retryable : bool }.
#[export] Instance run_error_eq_dec : EqDecision AgentRunError.
Proof. solve_decision. Defined.
Record AgentRunResult := RunResult { res_text : jsstring; res_truncated : bool }.
#[export] Instance run_result_eq_dec : EqDecision AgentRunResult.
Proof. solve_decision. Defined.

Inductive cleanup_status := CleanupPending | CleanupCompleted | CleanupRetrying | CleanupManualIntervention.
#[export] Instance cleanup_status_eq_dec : EqDecision cleanup_status.
Proof. solve_decision. Defined.
Record AgentRunCleanupDiagnostic := Cleanup {
  cl_status : cleanup_status; cl_attempts : Z; cl_message : option jsstring; cl_updatedAt : Z
}.
#[export] Instance cleanup_eq_dec : EqDecision AgentRunCleanupDiagnostic.
Proof. solve_decision. Defined.

(** The schemas of what is stored as JSON. *)
Definition AgentRunInputSchema (prompt : jsstring) : option jsstring :=
  let prompt := trim prompt in if bool_decide (Z.of_nat 1 <= Z.of_nat (length prompt) <= 128000)%Z then Some prompt else None.
Definition AgentRunErrorSchema (e : AgentRunError) : option AgentRunError :=
  code ← text_schema 120 (err_code e);
  message ← text_schema 4000 (err_message e);
  Some (RunError code message (err_retryable e)).
Definition AgentRunResultSchema (r : AgentRunResult) : option AgentRunResult :=
  if bool_decide (Z.of_nat (length (res_text r)) <= 128000)%Z then Some r else None.
Definition AgentRunCleanupDiagnosticSchema (c : AgentRunCleanupDiagnostic) : option AgentRunCleanupDiagnostic :=
  if (0 <=? cl_attempts c)%Z && match cl_message c with Some m => bool_decide (length m <= 4000) | None => true end
  then Some c else None.

Inductive member_role := RoleRoot | RoleCallee.
#[export] Instance member_role_eq_dec : EqDecision member_role.
Proof. solve_decision. Defined.

Record AgentRunMember := RunMember {
  rm_memberId : jsstring;
  rm_clientRequestId : jsstring;
  rm_agentId : jsstring;
  rm_parentMemberId : option jsstring;
  rm_instanceId : jsstring;
  rm_aiSessionId : option jsstring;
  rm_role : member_role;
  rm_depth : Z;
  rm_status : AgentRunStatus;
  rm_input : jsstring;
  rm_executionSnapshot : AgentRunMemberExecutionSnapshot;
  rm_result : option AgentRunResult;
  rm_error : option AgentRunError;
  rm_createdAt : Z;
  rm_updatedAt : Z;
  rm_completedAt : option Z
}.

Record AgentRunTimelineEntry := TimelineEntry {
  te_sequence : nat; te_timestamp : Z; te_kind : jsstring; te_memberId : option jsstring
}.

Record AgentRun := Run {
  ar_runId : jsstring;
  ar_clientRequestId : jsstring;
  ar_revision : Z;
  ar_status : AgentRunStatus;
  ar_input : jsstring;
  ar_provenance : AgentRunProvenance;
  ar_orchestrationId : jsstring;
  ar_rootMemberId : jsstring;
  ar_budget : AgentRunBudget;
  ar_result : option AgentRunResult;
  ar_error : option AgentRunError;
  ar_cleanup : option AgentRunCleanupDiagnostic;
  ar_members : list AgentRunMember;
  ar_timeline : list AgentRunTimelineEntry;
  ar_createdAt : Z;
  ar_updatedAt : Z;
  ar_completedAt : option Z
}.

(** A run leaves finalizing only after its root member and cleanup have both
    converged. *)
Definition agentRunTerminalStatus (rootMemberStatus : AgentRunStatus) (cleanup : option AgentRunCleanupDiagnostic) : option AgentRunStatus :=
  match cleanup with
  | Some cleanup =>
      if negb (is_terminal rootMemberStatus) then None else
      match cl_status cleanup with
      | CleanupManualIntervention => Some Failed
      | CleanupCompleted => Some rootMemberStatus
      | _ => None
      end
  | None => None
  end.

(** ** The world of the service *)

Inductive run_event :=
| RunPublished (run : AgentRun)
| MemberPublished (runId : jsstring) (revision : Z) (member : AgentRunMember).
Inductive coordinator_call := CoordinatorAccept (runId memberId : jsstring) | CoordinatorCancel (runId : jsstring).

Record agent_world := World {
  w_runs : gmap jsstring AgentRun;
  w_events : list run_event;
  w_calls : list coordinator_call
}.
Definition with_runs (f : gmap jsstring AgentRun -> gmap jsstring AgentRun) (w : agent_world) : agent_world :=
  World (f (w_runs w)) (w_events w) (w_calls w).

(** A request leaves a world and returns or throws. *)
Definition RM (A : Type) : Type := agent_world -> agent_world * result agent_error A.
#[export] Instance RM_ret : MRet RM := fun A a w => (w, Ok a).
#[export] Instance RM_bind : MBind RM := fun A B k m w =>
  match m w with (w', Ok a) => k a w' | (w', Throw e) => (w', Throw e) end.

Definition rthrow {A} (code : string) (status : Z) : RM A := fun w => (w, Throw (AgentServiceError code status)).
Definition rlift {A} (r : result agent_error A) : RM A := fun w => (w, r).
Definition rget {A} (f : agent_world -> result agent_error A) : RM A := fun w => (w, f w).
Definition emit (e : run_event) : RM unit := fun w => (World (w_runs w) (w_events w ++ [e]) (w_calls w), Ok ()).
Definition call (c : coordinator_call) : RM unit := fun w => (World (w_runs w) (w_events w) (w_calls w ++ [c]), Ok ()).
(** A transaction on the runs: nothing has changed when it throws. *)
Definition transact {A} (f : gmap jsstring AgentRun -> result agent_error (gmap jsstring AgentRun * A)) : RM A := fun w =>
  match f (w_runs w) with
  | Ok (runs, a) => (with_runs (fun _ => runs) w, Ok a)
  | Throw e => (w, Throw e)
  end.

(** ** The repository *)

Abbreviation run_rows := (gmap jsstring AgentRun).
Abbreviation res := (result agent_error).

Definition repository_throw {A} (code : string) (status : Z) : res A := Throw (AgentServiceError code status).

(** A member and a run as their rows are read. *)
Definition sanitizeAgentRunMember (m : AgentRunMember) : option AgentRunMember :=
  aiSessionId ← optional_schema AgentDefinitionIdSchema (rm_aiSessionId m);
  input ← AgentRunInputSchema (rm_input m);
  result ← optional_schema AgentRunResultSchema (rm_result m);
  error ← optional_schema AgentRunErrorSchema (rm_error m);
  Some (RunMember (rm_memberId m) (rm_clientRequestId m) (rm_agentId m) (rm_parentMemberId m) (rm_instanceId m) aiSessionId
          (rm_role m) (rm_depth m) (rm_status m) input (rm_executionSnapshot m) result error
          (rm_createdAt m) (rm_updatedAt m) (rm_completedAt m)).

Definition memberFromRow (m : AgentRunMember) : res AgentRunMember :=
  match sanitizeAgentRunMember m with
  | Some m => Ok m
  | None => repository_throw "NODE_AGENT_AGENT_RUN_MEMBER_INVALID" 500
  end.

Definition sanitizeAgentRun (r : AgentRun) (members : list AgentRunMember) : option AgentRun :=
  input ← AgentRunInputSchema (ar_input r);
  result ← optional_schema AgentRunResultSchema (ar_result r);
  error ← optional_schema AgentRunErrorSchema (ar_error r);
  cleanup ← optional_schema AgentRunCleanupDiagnosticSchema (ar_cleanup r);
  Some (Run (ar_runId r) (ar_clientRequestId r) (ar_revision r) (ar_status r) input (ar_provenance r) (ar_orchestrationId r)
          (ar_rootMemberId r) (ar_budget r) result error cleanup members (ar_timeline r)
          (ar_createdAt r) (ar_updatedAt r) (ar_completedAt r)).

Fixpoint membersFromRows (ms : list AgentRunMember) : res (list AgentRunMember) :=
  match ms with
  | [] => Ok []
  | m :: ms' => m ← memberFromRow m; ms' ← membersFromRows ms'; Ok (m :: ms')
  end.

Definition runFromRow (r : AgentRun) : res AgentRun :=
  members ← membersFromRows (ar_members r);
  match sanitizeAgentRun r members with
  | Some r => Ok r
  | None => repository_throw "NODE_AGENT_AGENT_RUN_INVALID" 500
  end.

Definition runs_get (runs : run_rows) (runId : jsstring) : res (option AgentRun) :=
  match runs !! runId with None => Ok None | Some r => r ← runFromRow r; Ok (Some r) end.

Definition table_run (P : AgentRun -> bool) (runs : run_rows) : option AgentRun :=
  head (filter (fun r => P r = true) (map_to_list runs).*2).
Definition getByClientRequestId (runs : run_rows) (clientRequestId : jsstring) : res (option AgentRun) :=
  match table_run (fun r => bool_decide (ar_clientRequestId r = clientRequestId)) runs with
  | None => Ok None
  | Some r => r ← runFromRow r; Ok (Some r)
  end.

Definition require_run (runs : run_rows) (runId : jsstring) : res AgentRun :=
  r ← runs_get runs runId;
  match r with Some r => Ok r | None => repository_throw "AGENT_RUN_NOT_FOUND" 404 end.

Definition find_member (memberId : jsstring) (ms : list AgentRunMember) : option AgentRunMember :=
  snd <$> list_find (fun m => rm_memberId m = memberId) ms.

Definition members_get (runs : run_rows) (runId memberId : jsstring) : res (option AgentRunMember) :=
  match runs !! runId with
  | None => Ok None
  | Some r => match find_member memberId (ar_members r) with
              | None => Ok None
              | Some m => m ← memberFromRow m; Ok (Some m)
              end
  end.

Definition require_member (runs : run_rows) (runId memberId : jsstring) : res AgentRunMember :=
  m ← members_get runs runId memberId;
  match m with Some m => Ok m | None => repository_throw "AGENT_RUN_MEMBER_NOT_FOUND" 404 end.

(** The primary key of the table of members. *)
Definition member_id_taken (runs : run_rows) (memberId : jsstring) : bool :=
  existsb (fun r => bool_decide (memberId ∈ rm_memberId <$> ar_members r)) (map_to_list runs).*2.

Record CreateAgentRunInput := CreateRun {
  cr_clientRequestId : jsstring;
  cr_orchestrationId : jsstring;
  cr_input : jsstring;
  cr_provenance : AgentRunProvenance;
  cr_budget : AgentRunBudget;
  cr_agentId : jsstring;
  cr_instanceId : jsstring;
  cr_executionSnapshot : AgentRunMemberExecutionSnapshot
}.

Definition snapshot_instance_ok (instanceId : jsstring) (s : AgentRunMemberExecutionSnapshot) : bool :=
  bool_decide (es_targetInstanceId s = instanceId).

Definition runs_create (input : CreateAgentRunInput) (runId rootMemberId : jsstring) (now : Z) (runs : run_rows)
  : res (run_rows * AgentRun) :=
  existing ← getByClientRequestId runs (cr_clientRequestId input);
  match existing with
  | Some existing =>
      let root := find_member (ar_rootMemberId existing) (ar_members existing) in
      let sameRequest :=
        bool_decide (ar_orchestrationId existing = cr_orchestrationId input)
        && match root with
           | Some root => bool_decide (rm_agentId root = cr_agentId input) && bool_decide (rm_instanceId root = cr_instanceId input)
                          && bool_decide (rm_executionSnapshot root = cr_executionSnapshot input)
           | None => false
           end
        && bool_decide (ar_input existing = cr_input input) && bool_decide (ar_provenance existing = cr_provenance input)
        && bool_decide (ar_budget existing = cr_budget input) in
      if sameRequest then Ok (runs, existing) else repository_throw "AGENT_RUN_IDEMPOTENCY_CONFLICT" 409
  | None =>
      if negb (snapshot_instance_ok (cr_instanceId input) (cr_executionSnapshot input))
      then repository_throw "AGENT_RUN_SNAPSHOT_INSTANCE_MISMATCH" 409 else
      if bool_decide (is_Some (runs !! runId)) || member_id_taken runs rootMemberId then Throw AgentConstraint else
      let root := RunMember rootMemberId (cr_clientRequestId input) (cr_agentId input) None (cr_instanceId input) None RoleRoot 0
                    Queued (cr_input input) (json_snapshot (cr_executionSnapshot input)) None None now now None in
      let runs := <[runId := Run runId (cr_clientRequestId input) 0 Queued (cr_input input) (cr_provenance input)
                     (cr_orchestrationId input) rootMemberId (cr_budget input) None None None [root] [] now now None]> runs in
      run ← require_run runs runId; Ok (runs, run)
  end.

(** [bumpRevision], with the change of a row it follows. *)
Definition bumpRevision (now : Z) (f : AgentRun -> AgentRun) (r : AgentRun) : AgentRun :=
  let r := f r in
  Run (ar_runId r) (ar_clientRequestId r) (ar_revision r + 1) (ar_status r) (ar_input r) (ar_provenance r) (ar_orchestrationId r)
    (ar_rootMemberId r) (ar_budget r) (ar_result r) (ar_error r) (ar_cleanup r) (ar_members r) (ar_timeline r)
    (ar_createdAt r) now (ar_completedAt r).
Definition with_members (f : list AgentRunMember -> list AgentRunMember) (r : AgentRun) : AgentRun :=
  Run (ar_runId r) (ar_clientRequestId r) (ar_revision r) (ar_status r) (ar_input r) (ar_provenance r) (ar_orchestrationId r)
    (ar_rootMemberId r) (ar_budget r) (ar_result r) (ar_error r) (ar_cleanup r) (f (ar_members r)) (ar_timeline r)
    (ar_createdAt r) (ar_updatedAt r) (ar_completedAt r).
Definition with_timeline (f : list AgentRunTimelineEntry -> list AgentRunTimelineEntry) (r : AgentRun) : AgentRun :=
  Run (ar_runId r) (ar_clientRequestId r) (ar_revision r) (ar_status r) (ar_input r) (ar_provenance r) (ar_orchestrationId r)
    (ar_rootMemberId r) (ar_budget r) (ar_result r) (ar_error r) (ar_cleanup r) (ar_members r) (f (ar_timeline r))
    (ar_createdAt r) (ar_updatedAt r) (ar_completedAt r).

Record AddAgentRunMemberInput := AddMember {
  am_runId : jsstring;
  am_clientRequestId : jsstring;
  am_parentMemberId : jsstring;
  am_agentId : jsstring;
  am_instanceId : jsstring;
  am_executionSnapshot : AgentRunMemberExecutionSnapshot;
  am_input : jsstring
}.

Definition find_request (clientRequestId : jsstring) (ms : list AgentRunMember) : option AgentRunMember :=
  snd <$> list_find (fun m => rm_clientRequestId m = clientRequestId) ms.

Definition runs_addMember (input : AddAgentRunMemberInput) (memberId : jsstring) (now : Z) (runs : run_rows)
  : res (run_rows * AgentRunMember) :=
  run ← require_run runs (am_runId input);
  if is_terminal (ar_status run) then repository_throw "AGENT_RUN_TERMINAL" 409 else
  parent ← members_get runs (am_runId input) (am_parentMemberId input);
  match parent with
  | None => repository_throw "AGENT_RUN_PARENT_MEMBER_NOT_FOUND" 404
  | Some parent =>
      match runs !! am_runId input ≫= fun r => find_request (am_clientRequestId input) (ar_members r) with
      | Some row =>
          existing ← memberFromRow row;
          if bool_decide (rm_parentMemberId existing = Some (am_parentMemberId input))
             && bool_decide (rm_agentId existing = am_agentId input) && bool_decide (rm_instanceId existing = am_instanceId input)
             && bool_decide (rm_input existing = am_input input)
             && bool_decide (rm_executionSnapshot existing = am_executionSnapshot input)
          then Ok (runs, existing) else repository_throw "AGENT_RUN_MEMBER_IDEMPOTENCY_CONFLICT" 409
      | None =>
          let memberCount := Z.of_nat (match runs !! am_runId input with Some r => length (ar_members r) | None => 0 end) in
          if (maxMembers (ar_budget run) <=? memberCount)%Z then repository_throw "AGENT_RUN_MEMBER_BUDGET_EXCEEDED" 409 else
          let depth := (rm_depth parent + 1)%Z in
          if (maxDepth (ar_budget run) <? depth)%Z then repository_throw "AGENT_RUN_DEPTH_BUDGET_EXCEEDED" 409 else
          if negb (snapshot_instance_ok (am_instanceId input) (am_executionSnapshot input))
          then repository_throw "AGENT_RUN_SNAPSHOT_INSTANCE_MISMATCH" 409 else
          if member_id_taken runs memberId then Throw AgentConstraint else
          let member := RunMember memberId (am_clientRequestId input) (am_agentId input) (Some (am_parentMemberId input))
                          (am_instanceId input) None RoleCallee depth Queued (am_input input)
                          (json_snapshot (am_executionSnapshot input)) None None now now None in
          let runs := alter (bumpRevision now (with_members (fun ms => ms ++ [member]))) (am_runId input) runs in
          m ← require_member runs (am_runId input) memberId; Ok (runs, m)
      end
  end.

(** A transition: [None] is a field that is not given, [Some None] one that is
    cleared. *)
Record AgentRunTransition := RunTransition {
  rt_status : AgentRunStatus;
  rt_result : option (option AgentRunResult);
  rt_error : option (option AgentRunError);
  rt_cleanup : option (option AgentRunCleanupDiagnostic)
}.
Record AgentRunMemberTransition := MemberTransition {
  mt_status : AgentRunStatus;
  mt_result : option (option AgentRunResult);
  mt_error : option (option AgentRunError);
  mt_aiSessionId : option (option jsstring)
}.

Definition assertTransition (from to : AgentRunStatus) : res unit :=
  if canTransitionAgentRunStatus from to then Ok () else repository_throw "AGENT_RUN_STATUS_TRANSITION_INVALID" 409.

Definition completed_at (status : AgentRunStatus) (completedAt : option Z) (now : Z) : option Z :=
  if is_terminal status then Some (default now completedAt) else None.

Definition runs_transitionRun (runId : jsstring) (t : AgentRunTransition) (now : Z) (runs : run_rows) : res (run_rows * AgentRun) :=
  current ← require_run runs runId;
  _ ← assertTransition (ar_status current) (rt_status t);
  let result := default (ar_result current) (rt_result t) in
  let error := default (ar_error current) (rt_error t) in
  let cleanup := default (ar_cleanup current) (rt_cleanup t) in
  if bool_decide (rt_status t = ar_status current) && bool_decide (result = ar_result current)
     && bool_decide (error = ar_error current) && bool_decide (cleanup = ar_cleanup current) then Ok (runs, current) else
  let runs := alter (bumpRevision now (fun r =>
                Run (ar_runId r) (ar_clientRequestId r) (ar_revision r) (rt_status t) (ar_input r) (ar_provenance r)
                  (ar_orchestrationId r) (ar_rootMemberId r) (ar_budget r) result error cleanup (ar_members r) (ar_timeline r)
                  (ar_createdAt r) (ar_updatedAt r) (completed_at (rt_status t) (ar_completedAt current) now))) runId runs in
  run ← require_run runs runId; Ok (runs, run).

Definition update_member (memberId : jsstring) (f : AgentRunMember -> AgentRunMember) (ms : list AgentRunMember) : list AgentRunMember :=
  (fun m => if bool_decide (rm_memberId m = memberId) then f m else m) <$> ms.

Definition runs_transitionMember (runId memberId : jsstring) (t : AgentRunMemberTransition) (now : Z) (runs : run_rows)
  : res (run_rows * AgentRunMember) :=
  current ← require_member runs runId memberId;
  _ ← assertTransition (rm_status current) (mt_status t);
  let result := default (rm_result current) (mt_result t) in
  let error := default (rm_error current) (mt_error t) in
  let aiSessionId := default (rm_aiSessionId current) (mt_aiSessionId t) in
  if bool_decide (mt_status t = rm_status current) && bool_decide (result = rm_result current)
     && bool_decide (error = rm_error current) && bool_decide (aiSessionId = rm_aiSessionId current) then Ok (runs, current) else
  let runs := alter (bumpRevision now (with_members (update_member memberId (fun m =>
                RunMember (rm_memberId m) (rm_clientRequestId m) (rm_agentId m) (rm_parentMemberId m) (rm_instanceId m) aiSessionId
                  (rm_role m) (rm_depth m) (mt_status t) (rm_input m) (rm_executionSnapshot m) result error
                  (rm_createdAt m) now (completed_at (mt_status t) (rm_completedAt current) now))))) runId runs in
  m ← require_member runs runId memberId; Ok (runs, m).

(** [COALESCE(MAX(sequence), 0) + 1]. *)
Definition next_sequence (timeline : list AgentRunTimelineEntry) : nat :=
  S (foldr (fun e n => Nat.max (te_sequence e) n) 0 timeline).

Definition runs_appendTimeline (runId kind : jsstring) (memberId : option jsstring) (now : Z) (runs : run_rows) : res (run_rows * AgentRunTimelineEntry) :=
  run ← require_run runs runId;
  member ← match memberId with Some id => members_get runs runId id | None => Ok None end;
  if otruthy memberId && bool_decide (member = None) then repository_throw "AGENT_RUN_TIMELINE_MEMBER_NOT_FOUND" 404 else
  let entry := TimelineEntry (next_sequence (ar_timeline run)) now kind memberId in
  Ok (alter (bumpRevision now (with_timeline (fun es => es ++ [entry]))) runId runs, entry).

(** ** The service *)

Definition service_get (runId : jsstring) : RM AgentRun :=
  run ← rget (fun w => runs_get (w_runs w) runId);
  match run with Some run => mret run | None => rthrow "AGENT_RUN_NOT_FOUND" 404 end.

Definition service_getMember (runId memberId : jsstring) : RM AgentRunMember :=
  _ ← service_get runId;
  member ← rget (fun w => members_get (w_runs w) runId memberId);
  match member with Some member => mret member | None => rthrow "AGENT_RUN_MEMBER_NOT_FOUND" 404 end.

Definition publishRun (run : AgentRun) : RM unit := emit (RunPublished run).
Definition publishMember (run : AgentRun) (member : AgentRunMember) : RM unit :=
  emit (MemberPublished (ar_runId run) (ar_revision run) member).

Definition service_transitionMember (runId memberId : jsstring) (t : AgentRunMemberTransition) (now : Z) : RM AgentRunMember :=
  before ← service_get runId;
  member ← transact (runs_transitionMember runId memberId t now);
  run ← service_get runId;
  _ ← (if bool_decide (ar_revision run <> ar_revision before) then publishMember run member else mret ());
  mret member.

Definition service_transitionRun (runId : jsstring) (t : AgentRunTransition) (now : Z) : RM AgentRun :=
  run ← transact (runs_transitionRun runId t now);
  _ ← publishRun run;
  mret run.

Definition appendTimeline (runId kind : jsstring) (memberId : option jsstring) (now : Z) : RM AgentRunTimelineEntry :=
  entry ← transact (runs_appendTimeline runId kind memberId now);
  run ← service_get runId;
  _ ← publishRun run;
  mret entry.

Record AgentRunToolResult := ToolResult {
  tr_runId : jsstring; tr_status : AgentRunStatus;
  tr_result : option (jsstring * bool); tr_error : option AgentRunError
}.

(** A finished run or member as the tool of its caller answers it; [what] is
    what the codes and messages call it. *)
Definition completed_tool_result (runId : jsstring) (result : option AgentRunResult) : AgentRunToolResult :=
  let text := match result with Some r => res_text r | None => [] end in
  let bounded := take AGENT_RUN_MAX_TOOL_RESULT_CHARACTERS text in
  ToolResult runId Completed
    (Some (bounded, match result with Some r => res_truncated r | None => false end || bool_decide (length bounded < length text))) None.
Definition run_tool_error (status : AgentRunStatus) : AgentRunError :=
  if bool_decide (status = Cancelled) then RunError (js "AGENT_RUN_CANCELLED") (js "The Agent Run was cancelled.") false
  else RunError (js "AGENT_RUN_FAILED") (js "The Agent Run failed.") false.
Definition member_tool_error (status : AgentRunStatus) : AgentRunError :=
  if bool_decide (status = Cancelled) then RunError (js "AGENT_RUN_MEMBER_CANCELLED") (js "The Agent Run member was cancelled.") false
  else RunError (js "AGENT_RUN_MEMBER_FAILED") (js "The Agent Run member failed.") false.

Definition toolResult (runId : jsstring) : RM (option AgentRunToolResult) :=
  run ← service_get runId;
  mret (if negb (is_terminal (ar_status run)) then None else
        if bool_decide (ar_status run = Completed) then Some (completed_tool_result runId (ar_result run))
        else Some (ToolResult runId (ar_status run) None (Some (default (run_tool_error (ar_status run)) (ar_error run))))).

(** One round of the loops of [waitForToolResult] and
    [waitForMemberToolResult]: [None] is another round after 100 ms. *)
Definition waitForToolResult (runId : jsstring) (aborted : bool) (startedAt now timeoutMs : Z) : RM (option AgentRunToolResult) :=
  result ← toolResult runId;
  match result with
  | Some result => mret (Some result)
  | None =>
      if aborted then rthrow "AGENT_RUN_ALREADY_TERMINAL" 499 else
      mret (if (timeoutMs <=? now - startedAt)%Z
            then Some (ToolResult runId Failed None (Some (RunError (js "AGENT_RUN_RESULT_TIMEOUT")
                   (js "The Agent Run did not reach a terminal state before the tool timeout.") true)))
            else None)
  end.
Definition waitForMemberToolResult (runId memberId : jsstring) (aborted : bool) (startedAt now timeoutMs : Z) : RM (option AgentRunToolResult) :=
  member ← service_getMember runId memberId;
  if is_terminal (rm_status member) then
    mret (Some (if bool_decide (rm_status member = Completed) then completed_tool_result runId (rm_result member)
                else ToolResult runId (rm_status member) None (Some (default (member_tool_error (rm_status member)) (rm_error member)))))
  else if aborted then rthrow "AGENT_RUN_ALREADY_TERMINAL" 499 else
  mret (if (timeoutMs <=? now - startedAt)%Z
        then Some (ToolResult runId Failed None (Some (RunError (js "AGENT_RUN_MEMBER_RESULT_TIMEOUT")
               (js "The Agent Run member did not finish before the tool timeout.") true)))
        else None).

Definition cancel (runId : jsstring) (expectedRevision : option Z) (now : Z) : RM AgentRun :=
  current ← service_get runId;
  if match expectedRevision with Some r => bool_decide (r <> ar_revision current) | None => false end
  then rthrow "AGENT_RUN_REVISION_CONFLICT" 409 else
  if bool_decide (ar_status current = Finalizing) then mret current else
  if is_terminal (ar_status current) then rthrow "AGENT_RUN_ALREADY_TERMINAL" 409 else
  run ← transact (runs_transitionRun runId (RunTransition Finalizing None None None) now);
  _ ← call (CoordinatorCancel runId);
  _ ← publishRun run;
  mret run.

Definition resolveAgentRunEntry (orchestration : AgentOrchestration) (entryAgentId : option jsstring) : res jsstring :=
  match entryAgentId with
  | Some (_ :: _ as entry) =>
      if agentOrchestrationContainsAgent (ao_graph orchestration) entry then Ok entry else repository_throw "AGENT_RUN_ENTRY_INVALID" 409
  | _ => match agentOrchestrationEntryAgentIds (ao_graph orchestration) with
         | [entry] => Ok entry
         | _ => repository_throw "AGENT_RUN_ENTRY_REQUIRED" 409
         end
  end.

Definition execution_snapshot (d : AgentDefinition) : AgentRunMemberExecutionSnapshot :=
  let f := ad_fields d in
  Snapshot (ad_revision d) (af_targetInstanceId f) (af_cwdFolderId f) (af_appendedPrompt f) (af_providerId f)
    (Some (af_modelEntityId f)) (Some (af_modelName f)) (Some (af_modelUpstreamName f)) (Some (af_reasoningEffort f))
    (Some (af_permissionMode f)) (af_executionPolicy f).

Record AgentRunCreateInput := RunCreateInput {
  ri_clientRequestId : jsstring;
  ri_orchestrationId : jsstring;
  ri_entryAgentId : option jsstring;
  ri_input : jsstring;
  ri_provenance : AgentRunProvenance;
  ri_budget : option AgentRunBudget
}.
Definition AgentRunBudgetSchema (b : AgentRunBudget) : option AgentRunBudget :=
  if (0 <? maxMembers b)%Z && (0 <=? maxDepth b)%Z && (0 <? maxConcurrency b)%Z then Some b else None.
Definition AgentRunCreateInputSchema (i : AgentRunCreateInput) : option AgentRunCreateInput :=
  clientRequestId ← AgentDefinitionIdSchema (ri_clientRequestId i);
  orchestrationId ← AgentOrchestrationIdSchema (ri_orchestrationId i);
  entryAgentId ← optional_schema AgentDefinitionIdSchema (ri_entryAgentId i);
  input ← AgentRunInputSchema (ri_input i);
  budget ← optional_schema AgentRunBudgetSchema (ri_budget i);
  Some (RunCreateInput clientRequestId orchestrationId entryAgentId input (ri_provenance i) budget).

Section Service.
Context (localeCompare : jsstring -> jsstring -> Z) (sha256 : bytes -> jsstring) (path : node_path).
(** [supportsExecution]: what has passed the probes of the node. *)
Context (supportsExecution : AgentDefinition -> runtime_type -> bool).

Definition requireOrchestrationForRun (agents : agent_store) (orchestrationId : jsstring) : res AgentOrchestration :=
  o ← orchestrations_get localeCompare sha256 agents orchestrationId;
  match o with Some o => Ok o | None => repository_throw "AGENT_RUN_ORCHESTRATION_UNKNOWN" 409 end.

(** The targets of [resolveMemberInvocationTools], one for each edge from the
    member's agent to an agent that is still defined. *)
Fixpoint defined_targets (agents : agent_store) (es : list AgentOrchestrationEdge) : res (list jsstring) :=
  match es with
  | [] => Ok []
  | e :: es' => d ← definitions_get agents (toAgentId e);
                rest ← defined_targets agents es';
                Ok (match d with Some _ => toAgentId e :: rest | None => rest end)
  end.
Definition resolveMemberInvocationTools (agents : agent_store) (runId memberAgentId : jsstring) : RM (list jsstring) :=
  run ← service_get runId;
  orchestration ← rlift (requireOrchestrationForRun agents (ar_orchestrationId run));
  rlift (defined_targets agents (filter (fun e => fromAgentId e = memberAgentId) (edges (ao_graph orchestration)))).

Definition run_create (state : node_state) (agents : agent_store) (input : AgentRunCreateInput) (runId rootMemberId : jsstring) (now : Z) : RM AgentRun :=
  match AgentRunCreateInputSchema input with
  | None => fun w => (w, Throw AgentInputInvalid)
  | Some parsed =>
      existing ← rget (fun w => getByClientRequestId (w_runs w) (ri_clientRequestId parsed));
      match existing with
      | Some existing =>
          let root := find_member (ar_rootMemberId existing) (ar_members existing) in
          let sameRequest :=
            bool_decide (ar_orchestrationId existing = ri_orchestrationId parsed)
            && match ri_entryAgentId parsed with
               | None => true
               | Some entry => bool_decide (rm_agentId <$> root = Some entry)
               end
            && bool_decide (ar_input existing = ri_input parsed) && bool_decide (ar_provenance existing = ri_provenance parsed)
            && bool_decide (ar_budget existing = effectiveAgentRunBudget (ri_budget parsed)) in
          if sameRequest then mret existing else rthrow "AGENT_RUN_IDEMPOTENCY_CONFLICT" 409
      | None =>
          if match ri_provenance parsed with
             | StoryProvenance _ instanceId _ _ _ => bool_decide (controlledInstances state !! instanceId = None)
             | ControlPlaneProvenance _ => false
             end
          then rthrow "AGENT_RUN_INITIATING_INSTANCE_UNKNOWN" 404 else
          orchestration ← rlift (requireOrchestrationForRun agents (ri_orchestrationId parsed));
          entryAgentId ← rlift (resolveAgentRunEntry orchestration (ri_entryAgentId parsed));
          '(definition, runtime) ← rlift (resolveExecution path state agents entryAgentId);
          if negb (supportsExecution definition runtime) then rthrow "AGENT_RUN_EXECUTION_UNSUPPORTED" 409 else
          run ← transact (runs_create
                  (CreateRun (ri_clientRequestId parsed) (ao_id orchestration) (ri_input parsed) (ri_provenance parsed)
                     (effectiveAgentRunBudget (ri_budget parsed)) (ad_id definition) (af_targetInstanceId (ad_fields definition))
                     (execution_snapshot definition)) runId rootMemberId now);
          _ ← publishRun run;
          match find_member (ar_rootMemberId run) (ar_members run) with
          | Some root =>
              _ ← publishMember run root;
              _ ← call (CoordinatorAccept (ar_runId run) (rm_memberId root));
              mret run
          | None => mret run
          end
      end
  end.

Definition policy_differs (parent : AgentRunMemberExecutionSnapshot) (d : AgentDefinition) : bool :=
  let f := ad_fields d in
  bool_decide (mjoin (es_permissionMode parent) <> af_permissionMode f)
  || bool_decide (workspaceMaterializer (es_executionPolicy parent) <> workspaceMaterializer (af_executionPolicy f))
  || bool_decide (processSandbox (es_executionPolicy parent) <> processSandbox (af_executionPolicy f))
  || bool_decide (es_providerId parent <> af_providerId f).

Definition run_addMember (state : node_state) (agents : agent_store) (runId parentMemberId clientRequestId agentId prompt : jsstring)
    (memberId : jsstring) (now : Z) : RM AgentRunMember :=
  match AgentRunInputSchema prompt with
  | None => fun w => (w, Throw AgentInputInvalid)
  | Some memberInput =>
      run ← service_get runId;
      if bool_decide (ar_status run <> Running) then rthrow "AGENT_RUN_ALREADY_TERMINAL" 409 else
      parent ← service_getMember runId parentMemberId;
      if bool_decide (rm_status parent <> Running) then rthrow "AGENT_RUN_ALREADY_TERMINAL" 409 else
      orchestration ← rlift (requireOrchestrationForRun agents (ar_orchestrationId run));
      if negb (agentOrchestrationHasEdge (ao_graph orchestration) (rm_agentId parent) agentId)
      then rthrow "AGENT_RUN_INVOCATION_FORBIDDEN" 403 else
      '(definition, runtime) ← rlift (resolveExecution path state agents agentId);
      if negb (supportsExecution definition runtime) then rthrow "AGENT_RUN_EXECUTION_UNSUPPORTED" 409 else
      member ← transact (runs_addMember
                 (AddMember (ar_runId run) clientRequestId (rm_memberId parent) (ad_id definition)
                    (af_targetInstanceId (ad_fields definition)) (execution_snapshot definition) memberInput) memberId now);
      updatedRun ← service_get (ar_runId run);
      _ ← (if policy_differs (rm_executionSnapshot parent) definition
           then _ ← appendTimeline (ar_runId run) (js "member.policy-difference") (Some (rm_memberId member)) now; mret ()
           else mret ());
      _ ← publishMember updatedRun member;
      _ ← (if bool_decide (rm_status member = Queued) then call (CoordinatorAccept (ar_runId run) (rm_memberId member)) else mret ());
      mret member
  end.

(** ** Requests and the coordinator's transitions *)

Inductive run_request :=
| CreateRunRequest (input : AgentRunCreateInput)
| AddMemberRequest (runId parentMemberId clientRequestId agentId prompt : jsstring)
| CancelRequest (runId : jsstring) (expectedRevision : option Z)
| TransitionRunCall (runId : jsstring) (t : AgentRunTransition)
| TransitionMemberCall (runId memberId : jsstring) (t : AgentRunMemberTransition)
| AppendTimelineCall (runId kind : jsstring) (memberId : option jsstring).

Definition forget {A} (m : RM A) : RM unit := _ ← m; mret ().
Definition serve_run (state : node_state) (agents : agent_store) (request : run_request) (drawnRun drawnMember : jsstring) (now : Z) : RM unit :=
  match request with
  | CreateRunRequest input => forget (run_create state agents input drawnRun drawnMember now)
  | AddMemberRequest runId parentMemberId clientRequestId agentId prompt =>
      forget (run_addMember state agents runId parentMemberId clientRequestId agentId prompt drawnMember now)
  | CancelRequest runId expectedRevision => forget (cancel runId expectedRevision now)
  | TransitionRunCall runId t => forget (service_transitionRun runId t now)
  | TransitionMemberCall runId memberId t => forget (service_transitionMember runId memberId t now)
  | AppendTimelineCall runId kind memberId => forget (appendTimeline runId kind memberId now)
  end.
End Service.
