(* ===== verification/AgentRunsSpec.v ===== *)
(** * What requests may do to agent runs

    [runs_change] is the specification: the changes a run may undergo, with
    what has to hold for a member to be added.  Every request makes only such
    changes ([serve_run_refines]), and they keep every run well formed
    ([run_ok]): one root, callees that hang below members at the right depth,
    and all within the budget. *)

From S2P Require Export AgentsSpec AgentRuns.

(** ** Rows and what they are read as *)

(** What of a member never changes. *)
Definition member_identity (m : AgentRunMember) :=
  (rm_memberId m, rm_clientRequestId m, rm_agentId m, rm_parentMemberId m, rm_instanceId m, rm_role m, rm_depth m,
   rm_input m, rm_executionSnapshot m, rm_createdAt m).

Lemma memberFromRow_Ok m m' :
  memberFromRow m = Ok m' ->
  rm_memberId m' = rm_memberId m /\ rm_agentId m' = rm_agentId m /\ rm_parentMemberId m' = rm_parentMemberId m
  /\ rm_instanceId m' = rm_instanceId m /\ rm_depth m' = rm_depth m /\ rm_status m' = rm_status m
  /\ rm_executionSnapshot m' = rm_executionSnapshot m /\ rm_completedAt m' = rm_completedAt m
  /\ AgentRunInputSchema (rm_input m) = Some (rm_input m').
Proof.
  unfold memberFromRow. destruct (sanitizeAgentRunMember m) as [m1|] eqn:E; [|done]. intros [= <-].
  unfold sanitizeAgentRunMember in E. parse_inv. done.
Qed.

Lemma membersFromRows_Ok ms ms' : membersFromRows ms = Ok ms' <-> Forall2 (fun m m' => memberFromRow m = Ok m') ms ms'.
Proof.
  revert ms'. induction ms as [|m ms IH]; intros ms'; cbn.
  - split; [by intros [= <-]|by inversion 1].
  - split.
    + intros (m1 & Hm & (ms1 & Hms & [= <-])%bind_Ok)%bind_Ok. constructor; [done|by apply IH].
    + inversion 1 as [|? m1 ? ms1 Hm Hms]; subst. rewrite Hm. cbn. apply IH in Hms. by rewrite Hms.
Qed.

Lemma runFromRow_Ok r r' :
  runFromRow r = Ok r' ->
  ar_runId r' = ar_runId r /\ ar_revision r' = ar_revision r /\ ar_status r' = ar_status r
  /\ ar_orchestrationId r' = ar_orchestrationId r /\ ar_rootMemberId r' = ar_rootMemberId r /\ ar_budget r' = ar_budget r
  /\ ar_timeline r' = ar_timeline r /\ ar_completedAt r' = ar_completedAt r
  /\ Forall2 (fun m m' => memberFromRow m = Ok m') (ar_members r) (ar_members r').
Proof.
  unfold runFromRow. intros (ms & Hms & H)%bind_Ok. apply membersFromRows_Ok in Hms.
  destruct (sanitizeAgentRun r ms) as [r1|] eqn:E; [|done]. injection H as <-. unfold sanitizeAgentRun in E. parse_inv. done.
Qed.

Lemma runs_get_Ok runs runId r : runs_get runs runId = Ok (Some r) <-> exists row, runs !! runId = Some row /\ runFromRow row = Ok r.
Proof.
  unfold runs_get. destruct (runs !! runId) as [row|]; [|split; [done|naive_solver]]. split.
  - intros (r' & Hr & [= ->])%bind_Ok. eauto.
  - intros (? & [= <-] & Hr). by rewrite Hr.
Qed.

Lemma require_run_Ok runs runId r : require_run runs runId = Ok r <-> exists row, runs !! runId = Some row /\ runFromRow row = Ok r.
Proof.
  unfold require_run. rewrite <- runs_get_Ok. split.
  - intros ([r'|] & Hr & H)%bind_Ok; [|done]. by injection H as ->.
  - intros Hr. by rewrite Hr.
Qed.

Lemma find_member_Some memberId ms m : find_member memberId ms = Some m -> m ∈ ms /\ rm_memberId m = memberId.
Proof.
  unfold find_member. destruct (list_find _ ms) as [[i m']|] eqn:E; [|done]. intros [= ->].
  apply list_find_Some in E as (Hi & He & _). split; [by eapply list_elem_of_lookup_2|done].
Qed.

Lemma find_member_None memberId ms : find_member memberId ms = None -> memberId ∉ rm_memberId <$> ms.
Proof.
  unfold find_member. destruct (list_find _ ms) as [[i m']|] eqn:E; [done|]. intros _ (m & -> & Hm)%list_elem_of_fmap.
  apply list_find_None in E. rewrite Forall_forall in E. by apply (E m Hm).
Qed.

Lemma find_request_None request ms : find_request request ms = None -> request ∉ rm_clientRequestId <$> ms.
Proof.
  unfold find_request. destruct (list_find _ ms) as [[i m']|] eqn:E; [done|]. intros _ (m & -> & Hm)%list_elem_of_fmap.
  apply list_find_None in E. rewrite Forall_forall in E. by apply (E m Hm).
Qed.

Lemma members_get_Ok runs runId memberId m :
  members_get runs runId memberId = Ok (Some m) <->
  exists r row, runs !! runId = Some r /\ find_member memberId (ar_members r) = Some row /\ memberFromRow row = Ok m.
Proof.
  unfold members_get. destruct (runs !! runId) as [r|]; [|split; [done|naive_solver]].
  destruct (find_member memberId (ar_members r)) as [row|] eqn:E; [|split; [done|intros (? & ? & [= <-] & H & _); congruence]].
  split.
  - intros (m' & Hm & [= ->])%bind_Ok. eauto 10.
  - intros (? & ? & [= <-] & Hf & Hm). rewrite E in Hf. injection Hf as ->. by rewrite Hm.
Qed.

Lemma require_member_Ok runs runId memberId m :
  require_member runs runId memberId = Ok m <->
  exists r row, runs !! runId = Some r /\ find_member memberId (ar_members r) = Some row /\ memberFromRow row = Ok m.
Proof.
  unfold require_member. rewrite <- members_get_Ok. split.
  - intros ([m'|] & Hm & H)%bind_Ok; [|done]. by injection H as ->.
  - intros Hm. by rewrite Hm.
Qed.

Lemma member_id_free runs memberId runId r :
  member_id_taken runs memberId = false -> runs !! runId = Some r -> memberId ∉ rm_memberId <$> ar_members r.
Proof.
  intros Ht Hr Hin. apply Bool.not_true_iff_false in Ht. apply Ht. unfold member_id_taken. apply existsb_exists.
  exists r. split; [|by apply bool_decide_eq_true]. apply list_elem_of_In, list_elem_of_fmap.
  exists (runId, r). split; [done|]. by apply elem_of_map_to_list.
Qed.

(** ** The specification: what may change *)

Section Runs.
Context (localeCompare : jsstring -> jsstring -> Z) (sha256 : bytes -> jsstring).
Abbreviation get := (orchestrations_get localeCompare sha256).

(** The orchestration lets one agent call another. *)
Definition authorized (agents : agent_store) (orchestrationId from to : jsstring) : Prop :=
  exists o, get agents orchestrationId = Ok (Some o) /\ AgentEdge from to ∈ edges (ao_graph o).

Definition within_node_limits (b : AgentRunBudget) : Prop :=
  (1 <= maxMembers b <= 16 /\ 0 <= maxDepth b <= 4 /\ 1 <= maxConcurrency b <= 4)%Z.

(** A run as it begins: its root is queued. *)
Record begins (runId : jsstring) (r : AgentRun) : Prop := {
  be_id : ar_runId r = runId;
  be_status : ar_status r = Queued;
  be_members : exists root, ar_members r = [root] /\ rm_memberId root = ar_rootMemberId r /\ rm_role root = RoleRoot
    /\ rm_parentMemberId root = None /\ rm_depth root = 0%Z /\ rm_status root = Queued /\ rm_completedAt root = None
    /\ es_targetInstanceId (rm_executionSnapshot root) = rm_instanceId root;
  be_budget : within_node_limits (ar_budget r);
  be_timeline : ar_timeline r = [];
  be_completed : ar_completedAt r = None;
  be_readable : is_ok (runFromRow r) = true
}.

(** What has to hold for [m] to be called from [parent]. *)
Record may_call (agents : agent_store) (r : AgentRun) (parent m : AgentRunMember) : Prop := {
  mc_parent : parent ∈ ar_members r;
  mc_running : ar_status r = Running /\ rm_status parent = Running;
  mc_authorized : authorized agents (ar_orchestrationId r) (rm_agentId parent) (rm_agentId m);
  mc_member : rm_role m = RoleCallee /\ rm_parentMemberId m = Some (rm_memberId parent) /\ rm_status m = Queued
    /\ rm_completedAt m = None;
  mc_depth : rm_depth m = (rm_depth parent + 1)%Z /\ (rm_depth m <= maxDepth (ar_budget r))%Z;
  mc_room : (Z.of_nat (length (ar_members r)) < maxMembers (ar_budget r))%Z;
  mc_fresh : rm_memberId m ∉ rm_memberId <$> ar_members r /\ rm_clientRequestId m ∉ rm_clientRequestId <$> ar_members r;
  mc_snapshot : es_targetInstanceId (rm_executionSnapshot m) = rm_instanceId m;
  mc_readable : is_ok (memberFromRow m) = true
}.

(** One transaction on one run. *)
Inductive run_change (agents : agent_store) (now : Z) (r : AgentRun) : AgentRun -> Prop :=
| change_add parent m (Hm : may_call agents r parent m) :
    run_change agents now r (bumpRevision now (with_members (fun ms => ms ++ [m])) r)
| change_member m m' (Hm : m ∈ ar_members r) (Hsame : member_identity m' = member_identity m)
    (Hstatus : canTransitionAgentRunStatus (rm_status m) (rm_status m') = true)
    (Hdone : is_Some (rm_completedAt m') <-> is_terminal (rm_status m') = true)
    (Hread : is_ok (memberFromRow m') = true) :
    run_change agents now r (bumpRevision now (with_members (update_member (rm_memberId m) (fun _ => m'))) r)
| change_run r' (Hsame : ar_runId r' = ar_runId r /\ ar_clientRequestId r' = ar_clientRequestId r /\ ar_revision r' = ar_revision r
                  /\ ar_input r' = ar_input r /\ ar_provenance r' = ar_provenance r
                  /\ ar_orchestrationId r' = ar_orchestrationId r /\ ar_rootMemberId r' = ar_rootMemberId r
                  /\ ar_budget r' = ar_budget r /\ ar_members r' = ar_members r /\ ar_timeline r' = ar_timeline r)
    (Hstatus : canTransitionAgentRunStatus (ar_status r) (ar_status r') = true)
    (Hdone : is_Some (ar_completedAt r') <-> is_terminal (ar_status r') = true)
    (Hread : is_ok (runFromRow (bumpRevision now (fun _ => r') r)) = true) :
    run_change agents now r (bumpRevision now (fun _ => r') r)
| change_timeline e (He : te_sequence e = next_sequence (ar_timeline r)) :
    run_change agents now r (bumpRevision now (with_timeline (fun es => es ++ [e])) r).

Inductive runs_change (agents : agent_store) (runs : run_rows) : run_rows -> Prop :=
| change_create runId r (Hnew : runs !! runId = None) (Hbegin : begins runId r)
    (Hrequest : forall k r', runs !! k = Some r' -> ar_clientRequestId r' <> ar_clientRequestId r) :
    runs_change agents runs (<[runId := r]> runs)
| change_one runId now r r' (Hr : runs !! runId = Some r) (Hc : run_change agents now r r') :
    runs_change agents runs (<[runId := r']> runs).

(** ** Well-formed runs *)

(** Whether the time of completion is set agrees with the status. *)
Definition completion_ok (status : AgentRunStatus) (completedAt : option Z) : Prop :=
  is_Some completedAt <-> is_terminal status = true.

(** A callee hangs below a member that was there before it, one level deeper. *)
Definition callee_ok (r : AgentRun) (i : nat) (m : AgentRunMember) : Prop :=
  rm_role m = RoleCallee /\ exists j p, j < i /\ ar_members r !! j = Some p
    /\ rm_parentMemberId m = Some (rm_memberId p) /\ rm_depth m = (rm_depth p + 1)%Z
    /\ (rm_depth m <= maxDepth (ar_budget r))%Z.

Record run_ok (runId : jsstring) (r : AgentRun) : Prop := {
  ro_id : ar_runId r = runId;
  ro_readable : is_ok (runFromRow r) = true;
  ro_ids : NoDup (rm_memberId <$> ar_members r);
  ro_requests : NoDup (rm_clientRequestId <$> ar_members r);
  ro_root : exists root, ar_members r !! 0 = Some root /\ rm_memberId root = ar_rootMemberId r /\ rm_role root = RoleRoot
    /\ rm_parentMemberId root = None /\ rm_depth root = 0%Z;
  ro_callees : forall i m, ar_members r !! S i = Some m -> callee_ok r (S i) m;
  ro_members : (Z.of_nat (length (ar_members r)) <= maxMembers (ar_budget r))%Z;
  ro_budget : within_node_limits (ar_budget r);
  ro_snapshots : Forall (fun m => es_targetInstanceId (rm_executionSnapshot m) = rm_instanceId m) (ar_members r);
  ro_timeline : te_sequence <$> ar_timeline r = seq 1 (length (ar_timeline r));
  ro_completed : completion_ok (ar_status r) (ar_completedAt r)
    /\ Forall (fun m => completion_ok (rm_status m) (rm_completedAt m)) (ar_members r)
}.

Record runs_ok (runs : run_rows) : Prop := {
  rs_run : forall runId r, runs !! runId = Some r -> run_ok runId r;
  rs_requests : forall k k' r r', runs !! k = Some r -> runs !! k' = Some r' ->
    ar_clientRequestId r = ar_clientRequestId r' -> k = k'
}.

Lemma runFromRow_is_ok r :
  is_ok (runFromRow r) = true <-> Forall (fun m => is_ok (memberFromRow m) = true) (ar_members r)
    /\ is_Some (sanitizeAgentRun r (ar_members r)).
Proof.
  assert (Hs : forall ms, is_Some (sanitizeAgentRun r ms) <-> is_Some (sanitizeAgentRun r (ar_members r))).
  { intros ms. unfold sanitizeAgentRun.
    destruct (AgentRunInputSchema _); [cbn|done]. destruct (optional_schema AgentRunResultSchema _); [cbn|done].
    destruct (optional_schema AgentRunErrorSchema _); [cbn|done].
    destruct (optional_schema AgentRunCleanupDiagnosticSchema _); [cbn|done]. split; intros _; by eexists. }
  split.
  - destruct (runFromRow r) as [r'|] eqn:E; [|done]. intros _. unfold runFromRow in E. apply bind_Ok in E as (ms & Hms & E).
    apply membersFromRows_Ok in Hms. split.
    + clear -Hms. induction Hms as [|m m' l l' Hm _ IH]; [constructor|]. constructor; [by rewrite Hm|done].
    + apply (Hs ms). destruct (sanitizeAgentRun r ms); [by eexists|done].
  - intros [Hms Hr]. assert (Hx : exists ms, membersFromRows (ar_members r) = Ok ms).
    { clear -Hms. induction Hms as [|m l Hm _ [ms IH]]; [by exists []|]. cbn.
      destruct (memberFromRow m) as [m'|]; [|done]. cbn. rewrite IH. by eexists. }
    destruct Hx as [ms Hx]. unfold runFromRow. rewrite Hx. cbn. destruct (proj2 (Hs ms) Hr) as [r' Hr']. by rewrite Hr'.
Qed.

(** Whether a run can be read depends on its own JSON columns and its members. *)
Lemma sanitize_same r r' ms ms' :
  ar_input r = ar_input r' -> ar_result r = ar_result r' -> ar_error r = ar_error r' -> ar_cleanup r = ar_cleanup r' ->
  is_Some (sanitizeAgentRun r ms) -> is_Some (sanitizeAgentRun r' ms').
Proof.
  unfold sanitizeAgentRun. intros -> -> -> ->.
  destruct (AgentRunInputSchema _); [cbn|done]. destruct (optional_schema AgentRunResultSchema _); [cbn|done].
  destruct (optional_schema AgentRunErrorSchema _); [cbn|done].
  destruct (optional_schema AgentRunCleanupDiagnosticSchema _); [cbn|done]. intros _. by eexists.
Qed.

(** ** Changes keep runs well formed *)

Lemma next_sequence_seq es : te_sequence <$> es = seq 1 (length es) -> next_sequence es = S (length es).
Proof.
  intros H. unfold next_sequence. f_equal.
  assert (Hf : foldr (fun e n => Nat.max (te_sequence e) n) 0 es = foldr Nat.max 0 (te_sequence <$> es)).
  { clear H. induction es as [|e es IH]; [done|]. cbn. by rewrite IH. }
  rewrite Hf, H. generalize (length es). intros n.
  assert (Hgen : forall n i, foldr Nat.max 0 (seq (S i) n) = match n with 0 => 0 | _ => i + n end).
  { clear. induction n as [|n IH]; intros i; [done|]. cbn [seq foldr]. rewrite IH. destruct n; lia. }
  rewrite Hgen. destruct n; lia.
Qed.

Lemma member_by_id ms m m' : NoDup (rm_memberId <$> ms) -> m ∈ ms -> m' ∈ ms -> rm_memberId m = rm_memberId m' -> m = m'.
Proof.
  intros Hnd (i & Hi)%list_elem_of_lookup (j & Hj)%list_elem_of_lookup He.
  assert (i = j); [|congruence]. eapply (NoDup_lookup _ i j (rm_memberId m)); [exact Hnd|..]; rewrite list_lookup_fmap.
  - by rewrite Hi.
  - by rewrite Hj, He.
Qed.

Lemma find_member_elem ms m : NoDup (rm_memberId <$> ms) -> m ∈ ms -> find_member (rm_memberId m) ms = Some m.
Proof.
  intros Hnd Hm. destruct (find_member (rm_memberId m) ms) as [m'|] eqn:E.
  - apply find_member_Some in E as [Hm' He]. f_equal. symmetry. by eapply member_by_id.
  - apply find_member_None in E. by destruct E; apply list_elem_of_fmap_2.
Qed.

Lemma update_member_lookup ms m m' i x :
  NoDup (rm_memberId <$> ms) -> m ∈ ms -> update_member (rm_memberId m) (fun _ => m') ms !! i = Some x ->
  exists y, ms !! i = Some y /\ ((y = m /\ x = m') \/ x = y).
Proof.
  intros Hnd Hm H. unfold update_member in H. rewrite list_lookup_fmap in H. destruct (ms !! i) as [y|] eqn:E; [|done].
  injection H as <-. exists y. split; [done|]. case_bool_decide as Hy; [|by right]. left. split; [|done].
  eapply member_by_id; [done|by eapply list_elem_of_lookup_2|done|done].
Qed.

(** What is computed from the identities of the members is unchanged. *)
Lemma update_member_identity {A} (f : AgentRunMember -> A) ms m m' :
  NoDup (rm_memberId <$> ms) -> m ∈ ms -> f m' = f m -> f <$> update_member (rm_memberId m) (fun _ => m') ms = f <$> ms.
Proof.
  intros Hnd Hm Hf. apply list_eq. intros i. rewrite !list_lookup_fmap.
  destruct (update_member _ _ ms !! i) as [x|] eqn:E.
  - destruct (update_member_lookup ms m m' i x Hnd Hm E) as (y & -> & [[-> ->]| ->]); cbn; by rewrite ?Hf.
  - unfold update_member in E. rewrite list_lookup_fmap in E. by destruct (ms !! i).
Qed.

Lemma begins_ok runId r : begins runId r -> run_ok runId r.
Proof.
  intros [Hi Hs (root & Hm & Hid & Hrole & Hp & Hd & Hst & Hc & Hsn) Hb Ht Hc' Hr].
  split; rewrite ?Hm, ?Ht; cbn; try done.
  - apply NoDup_singleton.
  - apply NoDup_singleton.
  - by exists root.
  - unfold within_node_limits in Hb. lia.
  - by constructor.
  - unfold completion_ok. rewrite Hs, Hc'. split; [by split; [intros []|]|]. constructor; [|done].
    rewrite Hst, Hc. split; [by intros []|done].
Qed.

Lemma run_add_ok agents now runId r parent m :
  run_ok runId r -> may_call agents r parent m -> run_ok runId (bumpRevision now (with_members (fun ms => ms ++ [m])) r).
Proof.
  intros [Hid Hread Hids Hreq Hroot Hcal Hmem Hbud Hsn Htl Hdone] [Hp Hrun Hau Hm Hd Hroom Hfresh Hs Hr].
  split; cbn [bumpRevision with_members ar_runId ar_members ar_budget ar_timeline ar_status ar_completedAt ar_rootMemberId]; try done.
  - apply runFromRow_is_ok in Hread as [Hms Hsan]. apply runFromRow_is_ok. cbn [bumpRevision with_members ar_members].
    split; [apply Forall_app; by repeat constructor|]. by eapply sanitize_same; [..|exact Hsan].
  - rewrite fmap_app. apply NoDup_app. split; [done|]. split; [|apply NoDup_singleton]. intros x Hx Hx'%list_elem_of_singleton. subst. by apply (proj1 Hfresh).
  - rewrite fmap_app. apply NoDup_app. split; [done|]. split; [|apply NoDup_singleton]. intros x Hx Hx'%list_elem_of_singleton. subst. by apply (proj2 Hfresh).
  - destruct Hroot as (root & H0 & Hx). exists root. split; [|done]. by apply lookup_app_l_Some.
  - intros i x [Hx|[Hlen Hx]]%lookup_app_Some.
    + destruct (Hcal i x Hx) as (Hrole & j & p & Hj & Hlp & Hpar & Hdep & Hmax). split; [done|]. exists j, p.
      split; [done|]. split; [by apply lookup_app_l_Some|]. done.
    + apply list_lookup_singleton_Some in Hx as [_ <-]. destruct Hm as (Hrole & Hpar & _). split; [done|].
      apply list_elem_of_lookup in Hp as [j Hj]. exists j, parent. split; [apply lookup_lt_Some in Hj; lia|].
      split; [by apply lookup_app_l_Some|]. by destruct Hd.
  - rewrite length_app. cbn. lia.
  - apply Forall_app. by repeat constructor.
  - destruct Hdone as [Hd1 Hd2]. split; [done|]. apply Forall_app. split; [done|]. repeat constructor; unfold completion_ok.
    + destruct Hm as (_ & _ & _ & ->). by intros [].
    + destruct Hm as (_ & _ & -> & _). done.
Qed.

Lemma run_member_ok now runId r m m' :
  run_ok runId r -> m ∈ ar_members r -> member_identity m' = member_identity m -> completion_ok (rm_status m') (rm_completedAt m') ->
  is_ok (memberFromRow m') = true ->
  run_ok runId (bumpRevision now (with_members (update_member (rm_memberId m) (fun _ => m'))) r).
Proof.
  intros [Hid Hread Hids Hreq Hroot Hcal Hmem Hbud Hsn Htl Hdone] Hm Hsame Hc Hr.
  pose proof (fun i x => update_member_lookup _ m m' i x Hids Hm) as Hlook.
  assert (Hback : forall i y, ar_members r !! i = Some y -> exists x,
            update_member (rm_memberId m) (fun _ => m') (ar_members r) !! i = Some x /\ member_identity x = member_identity y).
  { intros i y Hy. pose proof (update_member_identity member_identity _ m m' Hids Hm Hsame) as He.
    apply (f_equal (fun l => l !! i)) in He. rewrite !list_lookup_fmap, Hy in He.
    destruct (update_member _ _ _ !! i) as [x|]; [|done]. exists x. split; [done|]. by apply (inj Some) in He. }
  assert (Hall : forall P : AgentRunMember -> Prop, Forall P (ar_members r) -> P m' ->
            Forall P (update_member (rm_memberId m) (fun _ => m') (ar_members r))).
  { intros P HP Hm'. apply Forall_lookup. intros i x Hx. apply Hlook in Hx as (y & Hy & [[_ ->]| ->]); [done|]. by eapply Forall_lookup_1 in Hy. }
  split; cbn [bumpRevision with_members ar_runId ar_members ar_budget ar_timeline ar_status ar_completedAt ar_rootMemberId]; try done.
  - apply runFromRow_is_ok in Hread as [Hms Hsan]. apply runFromRow_is_ok. cbn [bumpRevision with_members ar_members].
    split; [by apply Hall|]. by eapply sanitize_same; [..|exact Hsan].
  - rewrite update_member_identity; [done..|]. by injection Hsame.
  - rewrite update_member_identity; [done..|]. by injection Hsame.
  - destruct Hroot as (root & H0 & Hx). destruct (Hback 0 root H0) as (x & Hx0 & He). exists x. split; [done|].
    injection He as -> _ _ -> _ -> -> _ _ _. done.
  - intros i x Hx. apply Hlook in Hx as Hy. destruct Hy as (y & Hy & Hxy).
    assert (He : member_identity x = member_identity y) by (destruct Hxy as [[-> ->]| ->]; done).
    destruct (Hcal i y Hy) as (Hrole & j & p & Hj & Hlp & Hpar & Hdep & Hmax). injection He as _ _ _ E4 _ E6 E7 _ _ _.
    split; [congruence|]. destruct (Hback j p Hlp) as (p' & Hp' & Hep). injection Hep as F1 _ _ _ _ _ F7 _ _ _.
    exists j, p'. split; [done|]. split; [done|]. rewrite E4, E7, F1, F7. done.
  - unfold update_member. by rewrite length_fmap.
  - apply Hall; [done|]. injection Hsame as _ _ _ _ -> _ _ _ -> _. by eapply Forall_forall in Hsn.
  - destruct Hdone as [Hd1 Hd2]. split; [done|]. by apply Hall.
Qed.

Lemma run_change_ok agents now runId r r' : run_ok runId r -> run_change agents now r r' -> run_ok runId r'.
Proof.
  intros Hok [parent m Hm|m m' Hm Hs Hst Hd Hr|r1 Hs Hst Hd Hr|e He].
  - by eapply run_add_ok.
  - by apply run_member_ok.
  - destruct Hok as [Hid Hread Hids Hreq Hroot Hcal Hmem Hbud Hsn Htl Hdone].
    destruct Hs as (E1 & E2 & E3 & E4 & E5 & E6 & E7 & E8 & E9 & E10).
    split; cbn [bumpRevision ar_runId ar_members ar_budget ar_timeline ar_status ar_completedAt ar_rootMemberId];
      rewrite ?E1, ?E7, ?E8, ?E9, ?E10; try done.
    + intros i m Hi. destruct (Hcal i m Hi) as (? & j & p & ? & ? & ? & ? & ?). split; [done|]. exists j, p.
      cbn [bumpRevision ar_members ar_budget]. by rewrite E8, E9.
    + by destruct Hdone.
  - destruct Hok as [Hid Hread Hids Hreq Hroot Hcal Hmem Hbud Hsn Htl Hdone].
    split; cbn [bumpRevision with_timeline ar_runId ar_members ar_budget ar_timeline ar_status ar_completedAt ar_rootMemberId]; try done.
    + apply runFromRow_is_ok in Hread as [Hms Hsan]. apply runFromRow_is_ok. split; [done|]. by eapply sanitize_same; [..|exact Hsan].
    + rewrite fmap_app, length_app, Htl. cbn. rewrite He, next_sequence_seq by done.
      by rewrite Nat.add_1_r, seq_S.
Qed.

Lemma run_change_request agents now r r' : run_change agents now r r' -> ar_clientRequestId r' = ar_clientRequestId r.
Proof. intros [| |r1 Hs _ _ _|]; [done..|cbn; by destruct Hs as (_ & ? & _)|done]. Qed.

Lemma runs_change_ok agents runs runs' : runs_change agents runs runs' -> runs_ok runs -> runs_ok runs'.
Proof.
  intros [runId r Hnew Hb Hreq|runId now r r' Hr Hc] [Hrun Hinj]; split.
  - intros k x. rewrite lookup_insert. case_decide; [subst; intros [= <-]; by apply begins_ok|apply Hrun].
  - intros k k' x x'. rewrite !lookup_insert. repeat case_decide; subst; try done.
    + intros [= <-] Hx He. by destruct (Hreq k' x' Hx).
    + intros Hx [= <-] He. by destruct (Hreq k x Hx).
    + apply Hinj.
  - intros k x. rewrite lookup_insert. case_decide; [subst; intros [= <-]; by eapply run_change_ok; [apply Hrun|]|apply Hrun].
  - assert (Hl : forall k x, <[runId := r']> runs !! k = Some x -> exists y, runs !! k = Some y /\ ar_clientRequestId y = ar_clientRequestId x).
    { intros k x. rewrite lookup_insert. case_decide; [|eauto]. subst. intros [= <-]. exists r. split; [done|].
      symmetry. by eapply run_change_request. }
    intros k k' x x' (y & Hy & Ey)%Hl (y' & Hy' & Ey')%Hl He. eapply Hinj; [done..|congruence].
Qed.

Lemma runs_changes_ok agents runs runs' : rtc (runs_change agents) runs runs' -> runs_ok runs -> runs_ok runs'.
Proof. induction 1; eauto using runs_change_ok. Qed.

(** ** Every operation of the repository makes such a change *)

Abbreviation changes agents := (rtc (runs_change agents)).

Lemma alter_run (f : AgentRun -> AgentRun) (runs : run_rows) runId r : runs !! runId = Some r -> alter f runId runs = <[runId := f r]> runs.
Proof. apply alter_present. Qed.

Lemma canTransition_terminal from to : canTransitionAgentRunStatus from to = true -> is_terminal from = true -> to = from.
Proof. destruct from, to; done. Qed.

Lemma completed_at_ok status completedAt now : completion_ok status (completed_at status completedAt now).
Proof.
  unfold completion_ok, completed_at. by destruct (is_terminal status).
Qed.

Lemma transitionRun_changes agents runId t now runs runs' r :
  runs_ok runs -> runs_transitionRun runId t now runs = Ok (runs', r) -> changes agents runs runs'.
Proof.
  intros Hok. unfold runs_transitionRun. intros (current & Hcur & (u & Hu & H)%bind_Ok)%bind_Ok.
  apply require_run_Ok in Hcur as (row & Hrow & Hread). unfold assertTransition in Hu.
  destruct (canTransitionAgentRunStatus _ _) eqn:Et; [|done].
  destruct (bool_decide _ && _ && _ && _) in H; [injection H as <- _; apply rtc_refl|].
  apply bind_Ok in H as (run & Hrun & [= <- _]). apply require_run_Ok in Hrun as (row' & Hrow' & Hread').
  rewrite (alter_run _ _ _ _ Hrow) in *. rewrite lookup_insert_eq in Hrow'. injection Hrow' as <-. apply rtc_once.
  destruct (runFromRow_Ok _ _ Hread) as (_ & _ & Est & _).
  eapply change_one; [exact Hrow|]. apply (change_run agents now row); cbn; [done| | |].
  - by rewrite <- Est.
  - apply completed_at_ok.
  - exact (f_equal is_ok Hread').
Qed.

Lemma update_member_ext ms m f :
  NoDup (rm_memberId <$> ms) -> m ∈ ms -> update_member (rm_memberId m) f ms = update_member (rm_memberId m) (fun _ => f m) ms.
Proof.
  intros Hnd Hm. unfold update_member. apply list_fmap_ext. intros i x Hx. case_bool_decide as Hi; [|done]. f_equal.
  eapply member_by_id; [done|by eapply list_elem_of_lookup_2|done|done].
Qed.

Lemma find_updated ms m m' :
  NoDup (rm_memberId <$> ms) -> m ∈ ms -> rm_memberId m' = rm_memberId m ->
  find_member (rm_memberId m) (update_member (rm_memberId m) (fun _ => m') ms) = Some m'.
Proof.
  intros Hnd Hm Hid. rewrite <- Hid at 1. apply find_member_elem; [by rewrite update_member_identity|].
  apply list_elem_of_fmap. exists m. split; [|done]. by rewrite bool_decide_true.
Qed.

Lemma transitionMember_changes agents runId memberId t now runs runs' m :
  runs_ok runs -> runs_transitionMember runId memberId t now runs = Ok (runs', m) -> changes agents runs runs'.
Proof.
  intros Hok. unfold runs_transitionMember. intros (current & Hcur & (u & Hu & H)%bind_Ok)%bind_Ok.
  apply require_member_Ok in Hcur as (r & row & Hr & Hfind & Hread). unfold assertTransition in Hu.
  destruct (canTransitionAgentRunStatus _ _) eqn:Et; [|done].
  destruct (bool_decide _ && _ && _ && _) in H; [injection H as <- _; apply rtc_refl|].
  apply bind_Ok in H as (m' & Hm & [= <- _]). apply require_member_Ok in Hm as (r' & row' & Hr' & Hfind' & Hread').
  rewrite (alter_run _ _ _ _ Hr) in *. rewrite lookup_insert_eq in Hr'. injection Hr' as <-.
  apply find_member_Some in Hfind as [Hin <-].
  pose proof (ro_ids _ _ (rs_run _ Hok _ _ Hr)) as Hnd. destruct (memberFromRow_Ok _ _ Hread) as (_ & _ & _ & _ & _ & Est & _).
  unfold bumpRevision, with_members in *. cbn [ar_members] in Hfind'. rewrite (update_member_ext _ _ _ Hnd Hin) in *.
  apply rtc_once. eapply change_one; [exact Hr|]. apply (change_member agents now r row); cbn; [done|done| | |].
  - by rewrite <- Est.
  - apply completed_at_ok.
  - rewrite find_updated in Hfind' by done. injection Hfind' as <-. by rewrite Hread'.
Qed.

Lemma appendTimeline_changes agents runId kind memberId now runs runs' e :
  runs_ok runs -> runs_appendTimeline runId kind memberId now runs = Ok (runs', e) -> changes agents runs runs'.
Proof.
  intros Hok. unfold runs_appendTimeline. intros (run & Hrun & (m & _ & H)%bind_Ok)%bind_Ok.
  apply require_run_Ok in Hrun as (row & Hrow & Hread). destruct (_ && _) in H; [done|]. injection H as <- _.
  rewrite (alter_run _ _ _ _ Hrow). apply rtc_once. eapply change_one; [exact Hrow|]. apply change_timeline. cbn.
  by destruct (runFromRow_Ok _ _ Hread) as (_ & _ & _ & _ & _ & _ & -> & _).
Qed.

Lemma addMember_changes agents input memberId now runs runs' m r parent :
  runs_ok runs -> runs !! am_runId input = Some r -> ar_status r = Running ->
  find_member (am_parentMemberId input) (ar_members r) = Some parent -> rm_status parent = Running ->
  authorized agents (ar_orchestrationId r) (rm_agentId parent) (am_agentId input) ->
  runs_addMember input memberId now runs = Ok (runs', m) -> changes agents runs runs'.
Proof.
  intros Hok Hr Hst Hpar Hpst Hau. unfold runs_addMember. intros (run & Hrun & H)%bind_Ok.
  apply require_run_Ok in Hrun as (r0 & Hr0 & Hread). rewrite Hr in Hr0. injection Hr0 as <-.
  destruct (is_terminal (ar_status run)); [done|]. apply bind_Ok in H as ([p|] & Hp & H); [|done].
  apply members_get_Ok in Hp as (r1 & p' & Hr1 & Hp' & Hpread). rewrite Hr in Hr1. injection Hr1 as <-.
  rewrite Hpar in Hp'. injection Hp' as <-. rewrite Hr in H. cbn [mbind option_bind] in H.
  destruct (find_request _ _) as [row|] eqn:Ereq.
  { apply bind_Ok in H as (x & _ & H). destruct (_ && _) in H; [|done]. injection H as <- _. apply rtc_refl. }
  destruct (runFromRow_Ok _ _ Hread) as (_ & _ & _ & _ & _ & Hbud & _).
  destruct (memberFromRow_Ok _ _ Hpread) as (_ & _ & _ & _ & Hdep & _).
  destruct (_ <=? _)%Z eqn:Eroom in H; [done|]. destruct (_ <? _)%Z eqn:Edep in H; [done|].
  destruct (negb _) eqn:Esn in H; [done|]. destruct (member_id_taken runs memberId) eqn:Etaken; [done|].
  apply bind_Ok in H as (x & Hx & [= <- _]). rewrite (alter_run _ _ _ _ Hr) in *.
  apply require_member_Ok in Hx as (r2 & m2 & Hr2 & Hm2 & Hmread). rewrite lookup_insert_eq in Hr2. injection Hr2 as <-.
  pose proof (member_id_free _ _ _ _ Etaken Hr) as Hfree. apply find_member_Some in Hpar as [Hpin Hpid].
  cbn [bumpRevision with_members ar_members] in Hm2. set (new := RunMember _ _ _ _ _ _ _ _ _ _ _ _ _ _ _ _) in *.
  change memberId with (rm_memberId new) in Hm2. rewrite find_member_elem in Hm2.
  2: { rewrite fmap_app. apply NoDup_app. split; [apply (ro_ids _ _ (rs_run _ Hok _ _ Hr))|]. split; [|apply NoDup_singleton].
       intros y Hy ->%list_elem_of_singleton. done. }
  2: { set_solver. }
  injection Hm2 as <-. rewrite Hbud in *. rewrite Hdep in *. propify.
  apply rtc_once. eapply change_one; [exact Hr|]. apply (change_add agents now r parent). unfold snapshot_instance_ok in Esn. propify.
  split; cbn [new rm_agentId rm_role rm_parentMemberId rm_status rm_completedAt rm_depth rm_memberId rm_clientRequestId rm_executionSnapshot rm_instanceId]; try done.
  - by rewrite Hpid.
  - lia.
  - split; [done|]. by apply find_request_None.
  - by rewrite Hmread.
Qed.

Lemma effective_within requested requested' :
  optional_schema AgentRunBudgetSchema requested = Some requested' -> within_node_limits (effectiveAgentRunBudget requested').
Proof.
  unfold within_node_limits. destruct requested as [b|]; cbn; [|intros [= <-]; cbn; lia].
  unfold AgentRunBudgetSchema. destruct (_ && _ && _) eqn:E; [|done]. intros [= <-]. propify. cbn. lia.
Qed.

Lemma getByClientRequestId_None runs id k r : getByClientRequestId runs id = Ok None -> runs !! k = Some r -> ar_clientRequestId r <> id.
Proof.
  unfold getByClientRequestId. destruct (table_run _ runs) as [x|] eqn:E; [by intros (? & _ & ?)%bind_Ok|]. intros _ Hr He.
  unfold table_run in E. apply head_None in E. assert (Hin : r ∈ filter (fun r => bool_decide (ar_clientRequestId r = id) = true) (map_to_list runs).*2).
  { apply list_elem_of_filter. split; [by apply bool_decide_eq_true|]. apply list_elem_of_fmap. exists (k, r). split; [done|]. by apply elem_of_map_to_list. }
  rewrite E in Hin. set_solver.
Qed.

Lemma create_changes agents input runId rootMemberId now runs runs' r :
  within_node_limits (cr_budget input) -> runs_create input runId rootMemberId now runs = Ok (runs', r) -> changes agents runs runs'.
Proof.
  intros Hb. unfold runs_create. intros (existing & Hex & H)%bind_Ok. destruct existing as [existing|].
  { destruct (_ && _) in H; [|done]. injection H as <- _. apply rtc_refl. }
  destruct (negb _) eqn:Esn in H; [done|]. destruct (_ || _) eqn:Efresh in H; [done|].
  apply orb_false_iff in Efresh as [Ef _]. apply bool_decide_eq_false in Ef. apply eq_None_not_Some in Ef.
  apply bind_Ok in H as (run & Hrun & [= <- _]). apply require_run_Ok in Hrun as (row & Hrow & Hread).
  rewrite lookup_insert_eq in Hrow. injection Hrow as <-. apply rtc_once. apply change_create; [done| |].
  - unfold snapshot_instance_ok in Esn. propify.
    split; cbn [ar_runId ar_status ar_members ar_budget ar_timeline ar_completedAt ar_rootMemberId]; try done.
    + eexists. split; [done|]. done.
    + by rewrite Hread.
  - intros k r' Hk. cbn. by eapply getByClientRequestId_None.
Qed.

(** ** Every request makes only such changes *)

(** A computation that makes only changes of the specification. *)
Definition RM_changes {A} (agents : agent_store) (m : RM A) : Prop :=
  forall w w' r, runs_ok (w_runs w) -> m w = (w', r) -> changes agents (w_runs w) (w_runs w').

Lemma RM_changes_bind {A B} (agents : agent_store) (m : RM A) (k : A -> RM B) :
  RM_changes agents m -> (forall a, RM_changes agents (k a)) -> RM_changes agents (m ≫= k).
Proof.
  intros Hm Hk w w' r Hok H. unfold mbind, RM_bind in H. destruct (m w) as [w1 [a|e]] eqn:E.
  - etransitivity; [by eapply Hm|]. eapply Hk; [|exact H]. by eapply runs_changes_ok; [eapply Hm|].
  - injection H as <- <-. by eapply Hm.
Qed.

Lemma RM_changes_transact {A} (agents : agent_store) (f : run_rows -> res (run_rows * A)) :
  (forall runs runs' a, runs_ok runs -> f runs = Ok (runs', a) -> changes agents runs runs') -> RM_changes agents (transact f).
Proof.
  intros Hf w w' r Hok. unfold transact. destruct (f (w_runs w)) as [[runs a]|e] eqn:E; intros [= <- <-]; [|apply rtc_refl].
  by eapply Hf.
Qed.

Lemma RM_changes_ret {A} (agents : agent_store) (a : A) : RM_changes agents (mret a).
Proof. intros w w' r _ [= <- _]. apply rtc_refl. Qed.
Lemma RM_changes_throw {A} (agents : agent_store) code status : RM_changes agents (rthrow (A:=A) code status).
Proof. intros w w' r _ [= <- _]. apply rtc_refl. Qed.
Lemma RM_changes_get {A} (agents : agent_store) (f : agent_world -> res A) : RM_changes agents (rget f).
Proof. intros w w' r _ [= <- _]. apply rtc_refl. Qed.
Lemma RM_changes_lift {A} (agents : agent_store) (x : res A) : RM_changes agents (rlift x).
Proof. intros w w' r _ [= <- _]. apply rtc_refl. Qed.
Lemma RM_changes_emit (agents : agent_store) e : RM_changes agents (emit e).
Proof. intros w w' r _ [= <- _]. apply rtc_refl. Qed.
Lemma RM_changes_call (agents : agent_store) c : RM_changes agents (call c).
Proof. intros w w' r _ [= <- _]. apply rtc_refl. Qed.
#[local] Hint Resolve RM_changes_bind RM_changes_ret RM_changes_throw RM_changes_get RM_changes_lift RM_changes_emit RM_changes_call : runs.
#[local] Hint Extern 1 (RM_changes _ (transact _)) => apply RM_changes_transact; intros : runs.

Lemma service_get_changes (agents : agent_store) runId : RM_changes agents (service_get runId).
Proof. apply RM_changes_bind; [eauto with runs|]. intros [r|]; eauto with runs. Qed.
#[local] Hint Resolve service_get_changes : runs.

Lemma service_get_run w runId :
  exists r, service_get runId w = (w, r)
    /\ forall run, r = Ok run -> exists row, w_runs w !! runId = Some row /\ runFromRow row = Ok run.
Proof.
  unfold service_get, mbind, RM_bind, rget. destruct (runs_get (w_runs w) runId) as [[run|]|e] eqn:E; eexists; (split; [done|]); try done.
  intros ? [= <-]. by apply runs_get_Ok.
Qed.

Lemma service_getMember_run w runId memberId :
  exists r, service_getMember runId memberId w = (w, r)
    /\ forall m, r = Ok m -> exists row p, w_runs w !! runId = Some row /\ find_member memberId (ar_members row) = Some p /\ memberFromRow p = Ok m.
Proof.
  unfold service_getMember, mbind, RM_bind. destruct (service_get_run w runId) as (r & -> & _).
  destruct r as [run|e]; [|by eexists]. unfold rget. destruct (members_get (w_runs w) runId memberId) as [[m|]|e] eqn:E; eexists; (split; [done|]); try done.
  intros ? [= <-]. by apply members_get_Ok.
Qed.

Lemma service_transitionMember_changes (agents : agent_store) runId memberId t now : RM_changes agents (service_transitionMember runId memberId t now).
Proof.
  apply RM_changes_bind; [eauto with runs|]. intros before. apply RM_changes_bind.
  { apply RM_changes_transact. intros. by eapply transitionMember_changes. }
  intros m. apply RM_changes_bind; [eauto with runs|]. intros run. apply RM_changes_bind; [|eauto with runs].
  case_bool_decide; unfold publishMember; eauto with runs.
Qed.

Lemma service_transitionRun_changes (agents : agent_store) runId t now : RM_changes agents (service_transitionRun runId t now).
Proof.
  apply RM_changes_bind.
  { apply RM_changes_transact. intros. by eapply transitionRun_changes. }
  unfold publishRun. eauto with runs.
Qed.

Lemma appendTimeline_service_changes (agents : agent_store) runId kind memberId now : RM_changes agents (appendTimeline runId kind memberId now).
Proof.
  apply RM_changes_bind.
  { apply RM_changes_transact. intros. by eapply appendTimeline_changes. }
  unfold publishRun. eauto with runs.
Qed.

Lemma cancel_changes (agents : agent_store) runId expectedRevision now : RM_changes agents (cancel runId expectedRevision now).
Proof.
  apply RM_changes_bind; [eauto with runs|]. intros current.
  destruct (match expectedRevision with Some _ => _ | None => _ end); [eauto with runs|].
  case_bool_decide; [eauto with runs|]. destruct (is_terminal _); [eauto with runs|]. apply RM_changes_bind.
  { apply RM_changes_transact. intros. by eapply transitionRun_changes. }
  unfold publishRun. eauto with runs.
Qed.

Section Requests.
Context (path : node_path) (supportsExecution : AgentDefinition -> runtime_type -> bool).

Lemma run_create_changes state agents input runId rootMemberId now :
  RM_changes agents (run_create localeCompare sha256 path supportsExecution state agents input runId rootMemberId now).
Proof.
  unfold run_create. destruct (AgentRunCreateInputSchema input) as [parsed|] eqn:Ep.
  2: { intros w w' r _ [= <- _]. apply rtc_refl. }
  apply RM_changes_bind; [eauto with runs|]. intros [existing|].
  { destruct (_ && _); eauto with runs. }
  destruct (match ri_provenance parsed with StoryProvenance _ _ _ _ _ => _ | _ => _ end); [eauto with runs|].
  apply RM_changes_bind; [eauto with runs|]. intros o. apply RM_changes_bind; [eauto with runs|]. intros entry.
  apply RM_changes_bind; [eauto with runs|]. intros [d rt]. destruct (negb _); [eauto with runs|].
  apply RM_changes_bind.
  { apply RM_changes_transact. intros runs runs' a _ H. eapply create_changes; [|exact H]. cbn.
    unfold AgentRunCreateInputSchema in Ep. parse_inv. by eapply effective_within. }
  intros run. unfold publishRun. apply RM_changes_bind; [eauto with runs|]. intros _.
  destruct (find_member _ _); [|eauto with runs]. unfold publishMember. eauto 10 with runs.
Qed.

Lemma hasEdge_elem g from to : agentOrchestrationHasEdge g from to = true -> AgentEdge from to ∈ edges g.
Proof.
  unfold agentOrchestrationHasEdge. rewrite existsb_exists. intros ([a b] & Hin%list_elem_of_In & H). apply andb_prop in H as [H1 H2].
  propify. cbn in *. by subst.
Qed.

Lemma resolveExecution_id state agents id d rt :
  store_ok localeCompare sha256 agents -> resolveExecution path state agents id = Ok (d, rt) -> ad_id d = id.
Proof.
  intros Hok. unfold resolveExecution. intros (d' & Hd & (i & _ & (r & _ & [= -> _])%bind_Ok)%bind_Ok)%bind_Ok.
  destruct (requireDefinition_id localeCompare sha256 agents id d Hok Hd) as [_ Hrow].
  by destruct (so_definitions _ _ _ Hok id d Hrow).
Qed.

Lemma run_addMember_changes state (agents : agent_store) runId parentMemberId clientRequestId agentId prompt memberId now :
  store_ok localeCompare sha256 agents ->
  RM_changes agents (run_addMember localeCompare sha256 path supportsExecution state agents runId parentMemberId clientRequestId agentId prompt memberId now).
Proof.
  intros Hagents. unfold run_addMember. destruct (AgentRunInputSchema prompt) as [memberInput|].
  2: { intros w w' r _ [= <- _]. apply rtc_refl. }
  intros w w' res Hok. unfold mbind at 1, RM_bind at 1. destruct (service_get_run w runId) as (r1 & -> & Hrun).
  destruct r1 as [run|e]; [|by intros [= <- _]; apply rtc_refl]. destruct (Hrun run eq_refl) as (row & Hrow & Hread).
  case_bool_decide as Hst; [by intros [= <- _]; apply rtc_refl|].
  unfold mbind at 1, RM_bind at 1. destruct (service_getMember_run w runId parentMemberId) as (r2 & -> & Hmem).
  destruct r2 as [parent|e]; [|by intros [= <- _]; apply rtc_refl].
  destruct (Hmem parent eq_refl) as (row' & p & Hrow' & Hp & Hpread). rewrite Hrow in Hrow'. injection Hrow' as <-.
  case_bool_decide as Hpst; [by intros [= <- _]; apply rtc_refl|].
  unfold mbind at 1, RM_bind at 1, rlift at 1.
  destruct (requireOrchestrationForRun _ _ agents (ar_orchestrationId run)) as [o|e] eqn:Eo; [|by intros [= <- _]; apply rtc_refl].
  destruct (negb _) eqn:Eedge; [by intros [= <- _]; apply rtc_refl|]. apply negb_false_iff, hasEdge_elem in Eedge.
  unfold mbind at 1, RM_bind at 1, rlift at 1.
  destruct (resolveExecution path state agents agentId) as [[d rt]|e] eqn:Ed; [|by intros [= <- _]; apply rtc_refl].
  apply resolveExecution_id in Ed; [|done].
  destruct (negb (supportsExecution d rt)); [by intros [= <- _]; apply rtc_refl|].
  destruct (runFromRow_Ok _ _ Hread) as (Eid & _ & Est & Eorch & _). destruct (memberFromRow_Ok _ _ Hpread) as (Epid & Epag & _ & _ & _ & Epst & _).
  unfold mbind at 1, RM_bind at 1, transact.
  destruct (runs_addMember _ memberId now (w_runs w)) as [[runs' m]|e] eqn:Eadd; [|by intros [= <- _]; apply rtc_refl].
  assert (Hc : changes agents (w_runs w) runs').
  { pose proof (ro_id _ _ (rs_run _ Hok _ _ Hrow)) as Hkey. apply find_member_Some in Hp as Hpe. destruct Hpe as [_ Hpe].
    eapply (addMember_changes agents _ memberId now _ _ m row p Hok); cbn [am_runId am_parentMemberId am_agentId]; [| | | | |exact Eadd].
    - cbn. by rewrite Eid, Hkey.
    - by rewrite <- Est.
    - cbn. by rewrite Epid, Hpe.
    - by rewrite <- Epst.
    - cbn. rewrite Ed, <- Eorch, <- Epag. exists o. split; [|done]. unfold requireOrchestrationForRun in Eo.
      apply bind_Ok in Eo as ([o'|] & Ho & Eo); [|done]. by injection Eo as ->. }
  intros Hrest. etransitivity; [exact Hc|].
  refine ((_ : RM_changes agents _) (with_runs (fun _ => runs') w) w' res _ Hrest); [|by eapply runs_changes_ok].
  apply RM_changes_bind; [eauto with runs|]. intros updated. apply RM_changes_bind.
  { destruct (policy_differs _ d); [|eauto with runs]. apply RM_changes_bind; [apply appendTimeline_service_changes|eauto with runs]. }
  intros _. unfold publishMember. apply RM_changes_bind; [eauto with runs|]. intros _. apply RM_changes_bind; [|eauto with runs].
  case_bool_decide; eauto with runs.
Qed.

(** Whatever is asked, and however it ends. *)
Lemma serve_run_changes state (agents : agent_store) request drawnRun drawnMember now :
  store_ok localeCompare sha256 agents ->
  RM_changes agents (serve_run localeCompare sha256 path supportsExecution state agents request drawnRun drawnMember now).
Proof.
  intros Hagents. unfold serve_run, forget. destruct request; (apply RM_changes_bind; [|eauto with runs]).
  - apply run_create_changes.
  - by apply run_addMember_changes.
  - apply cancel_changes.
  - apply service_transitionRun_changes.
  - apply service_transitionMember_changes.
  - apply appendTimeline_service_changes.
Qed.

(** ** What a request leaves of a run *)

Abbreviation advances := (rtc (fun from to => canTransitionAgentRunStatus from to = true)).

Lemma advances_terminal from to : advances from to -> is_terminal from = true -> to = from.
Proof. induction 1 as [|x y z Hxy _ IH]; [done|]. intros Hx. apply canTransition_terminal in Hxy as ->; [|done]. by apply IH. Qed.

Definition run_identity (r : AgentRun) :=
  (ar_runId r, ar_clientRequestId r, ar_input r, ar_provenance r, ar_orchestrationId r, ar_rootMemberId r, ar_budget r).

(** How a run has grown: its revision counts the changes, statuses only
    advance, members stay who they are, and a new member was called by a member
    of the run along an edge of its orchestration. *)
Record run_grows (agents : agent_store) (r r' : AgentRun) : Prop := {
  rg_identity : run_identity r' = run_identity r;
  rg_revision : (ar_revision r <= ar_revision r')%Z /\ (ar_revision r = ar_revision r' -> r = r');
  rg_status : advances (ar_status r) (ar_status r');
  rg_members : forall i m, ar_members r !! i = Some m ->
    exists m', ar_members r' !! i = Some m' /\ member_identity m' = member_identity m /\ advances (rm_status m) (rm_status m');
  rg_called : forall i m', ar_members r' !! i = Some m' -> length (ar_members r) <= i ->
    is_terminal (ar_status r) = false
    /\ exists p, p ∈ ar_members r' /\ rm_parentMemberId m' = Some (rm_memberId p)
         /\ authorized agents (ar_orchestrationId r') (rm_agentId p) (rm_agentId m')
}.

Lemma run_grows_refl agents r : run_grows agents r r.
Proof.
  split; [done|done|apply rtc_refl| |].
  - intros i m Hm. exists m. split; [done|]. split; [done|]. apply rtc_refl.
  - intros i m Hm Hlen. apply lookup_lt_Some in Hm. lia.
Qed.

Lemma run_grows_trans agents r1 r2 r3 : run_grows agents r1 r2 -> run_grows agents r2 r3 -> run_grows agents r1 r3.
Proof.
  intros [A1 [A2 A2'] A3 A4 A5] [B1 [B2 B2'] B3 B4 B5]. split.
  - congruence.
  - split; [lia|]. intros He. assert (E1 : ar_revision r1 = ar_revision r2) by lia. assert (E2 : ar_revision r2 = ar_revision r3) by lia.
    apply A2' in E1. apply B2' in E2. congruence.
  - by etransitivity.
  - intros i m Hm. destruct (A4 i m Hm) as (m2 & H2 & I2 & S2). destruct (B4 i m2 H2) as (m3 & H3 & I3 & S3).
    exists m3. split; [done|]. split; [congruence|]. by etransitivity.
  - intros i m Hm Hlen. destruct (decide (length (ar_members r2) <= i)) as [Hi|Hi].
    + destruct (B5 i m Hm Hi) as (Hterm & H). split; [|done]. destruct (is_terminal (ar_status r1)) eqn:E; [|done].
      apply (advances_terminal _ _ A3) in E as E'. congruence.
    + destruct (lookup_lt_is_Some_2 (ar_members r2) i) as [m2 Hm2]; [lia|]. destruct (A5 i m2 Hm2 Hlen) as (Hterm & p & Hp & Hpar & Hau).
      split; [done|]. apply list_elem_of_lookup in Hp as [j Hj].
      destruct (B4 i m2 Hm2) as (m3 & Hm3 & I3 & _). rewrite Hm in Hm3. injection Hm3 as <-.
      destruct (B4 j p Hj) as (p' & Hp' & Ip & _). exists p'. split; [by eapply list_elem_of_lookup_2|].
      injection I3 as _ _ -> -> _ _ _ _ _ _. injection Ip as -> _ -> _ _ _ _ _ _ _.
      injection B1 as _ _ _ _ -> _ _. done.
Qed.

Lemma run_change_grows agents now runId r r' : run_ok runId r -> run_change agents now r r' -> run_grows agents r r'.
Proof.
  intros Hok [parent m Hm|m m' Hm Hs Hst Hd Hr|r1 Hs Hst Hd Hr|e He].
  - destruct Hm as [Hp [Hrun Hprun] Hau (Hrole & Hpar & _) _ _ _ _ _]. split; cbn; [done|split; lia|apply rtc_refl| |].
    + intros i x Hx. exists x. split; [by apply lookup_app_l_Some|]. split; [done|]. apply rtc_refl.
    + intros i x Hx Hlen. split; [by rewrite Hrun|]. apply lookup_app_Some in Hx as [Hx|[_ Hx]]; [apply lookup_lt_Some in Hx; lia|].
      apply list_lookup_singleton_Some in Hx as [_ <-]. exists parent. split; [apply elem_of_app; by left|]. done.
  - pose proof (ro_ids _ _ Hok) as Hnd. split; cbn; [done|split; lia|apply rtc_refl| |].
    + intros i x Hx. destruct (update_member (rm_memberId m) (fun _ => m') (ar_members r) !! i) as [y|] eqn:Ey.
      2: { unfold update_member in Ey. rewrite list_lookup_fmap, Hx in Ey. done. }
      exists y. split; [done|]. destruct (update_member_lookup _ _ _ _ _ Hnd Hm Ey) as (z & Hz & [[-> ->]| ->]).
      * rewrite Hx in Hz. injection Hz as ->. split; [done|]. by apply rtc_once.
      * rewrite Hx in Hz. injection Hz as ->. split; [done|]. apply rtc_refl.
    + intros i x Hx Hlen. apply lookup_lt_Some in Hx. unfold update_member in Hx. rewrite length_fmap in Hx. lia.
  - destruct Hs as (E1 & E2 & E3 & E4 & E5 & E6 & E7 & E8 & E9 & E10). split; cbn.
    + unfold run_identity. cbn. by rewrite E1, E2, E4, E5, E6, E7, E8.
    + split; [lia|]. intros He. lia.
    + by apply rtc_once.
    + intros i m Hm. exists m. rewrite E9. split; [done|]. split; [done|]. apply rtc_refl.
    + intros i m Hm Hlen. rewrite E9 in Hm. apply lookup_lt_Some in Hm. lia.
  - split; cbn; [done|split; lia|apply rtc_refl| |].
    + intros i m Hm. exists m. split; [done|]. split; [done|]. apply rtc_refl.
    + intros i m Hm Hlen. apply lookup_lt_Some in Hm. lia.
Qed.

Lemma changes_grow (agents : agent_store) runs runs' runId r :
  runs_ok runs -> changes agents runs runs' -> runs !! runId = Some r -> exists r', runs' !! runId = Some r' /\ run_grows agents r r'.
Proof.
  intros Hok H. revert r. induction H as [runs|runs runs1 runs2 Hc _ IH]; intros r Hr.
  - exists r. split; [done|]. apply run_grows_refl.
  - assert (H1 : exists r1, runs1 !! runId = Some r1 /\ run_grows agents r r1).
    { destruct Hc as [k r0 Hnew _ _|k now r0 r0' Hr0 Hch].
      - exists r. rewrite lookup_insert_ne by congruence. split; [done|]. apply run_grows_refl.
      - destruct (decide (k = runId)) as [->|Hne].
        + exists r0'. rewrite lookup_insert_eq. split; [done|]. rewrite Hr in Hr0. injection Hr0 as <-.
          eapply run_change_grows; [by apply (rs_run _ Hok)|done].
        + exists r. rewrite lookup_insert_ne by done. split; [done|]. apply run_grows_refl. }
    destruct H1 as (r1 & Hr1 & Hg). destruct (IH (runs_change_ok _ _ _ Hc Hok) r1 Hr1) as (r2 & Hr2 & Hg2).
    exists r2. split; [done|]. by eapply run_grows_trans.
Qed.

(** ** The node: agents and runs together *)

Record node_world := Node { nw_agents : agent_store; nw_runs : agent_world }.
Definition empty_node : node_world := Node empty_agent_store (World ∅ [] []).

(** A request about agents, or one about runs, however it ends; what the
    coordinator does to runs are such requests too. *)
Inductive node_step (n : node_world) : node_world -> Prop :=
| step_agents s (Hs : agent_step localeCompare sha256 path (nw_agents n) s) : node_step n (Node s (nw_runs n))
| step_runs state request drawnRun drawnMember now w r
    (Hw : serve_run localeCompare sha256 path supportsExecution state (nw_agents n) request drawnRun drawnMember now (nw_runs n) = (w, r)) :
    node_step n (Node (nw_agents n) w).

Hypothesis sha256_hex : forall b, is_revision (sha256 b) = true.

Lemma node_reachable_ok n :
  rtc node_step empty_node n -> store_ok localeCompare sha256 (nw_agents n) /\ runs_ok (w_runs (nw_runs n)).
Proof.
  intros H. assert (Hgen : forall n0, rtc node_step n0 n -> store_ok localeCompare sha256 (nw_agents n0) /\ runs_ok (w_runs (nw_runs n0)) ->
    store_ok localeCompare sha256 (nw_agents n) /\ runs_ok (w_runs (nw_runs n))).
  { clear H. induction 1 as [|x y z Hxy _ IH]; [done|]. intros [Ha Hr]. apply IH. destruct Hxy as [s Hs|state request dr dm now w r Hw]; cbn.
    - split; [by eapply agent_step_ok|done].
    - split; [done|]. eapply runs_changes_ok; [by eapply serve_run_changes|done]. }
  eapply Hgen; [exact H|]. split; [apply empty_store_ok|]. split; cbn; [intros k r|intros k k' r r']; by rewrite lookup_empty.
Qed.


(** C39. No step takes anything back from a run: its revision counts what
    changed, statuses only advance, members stay who they are; a member is
    added only below a member of the run, along an edge of the run's
    orchestration as it is now, and never to a run that has ended. *)
Theorem agent_runs_grow n n' (Hn : rtc node_step empty_node n) (Hstep : node_step n n')
    runId r (Hr : w_runs (nw_runs n) !! runId = Some r) :
  exists r', w_runs (nw_runs n') !! runId = Some r' /\ run_grows (nw_agents n) r r'
    /\ (is_terminal (ar_status r) = true -> ar_status r' = ar_status r /\ length (ar_members r') = length (ar_members r)).
Proof.
  destruct (node_reachable_ok n Hn) as [Ha Hok].
  assert (Hx : exists r', w_runs (nw_runs n') !! runId = Some r' /\ run_grows (nw_agents n) r r').
  { destruct Hstep as [s Hs|state request dr dm now w x Hw]; cbn; [exists r; split; [done|apply run_grows_refl]|].
    eapply changes_grow; [exact Hok|by eapply serve_run_changes|exact Hr]. }
  destruct Hx as (r' & Hr' & Hg). exists r'. split; [done|]. split; [done|]. intros Ht.
  split; [by eapply advances_terminal; [apply (rg_status _ _ _ Hg)|]|]. apply Nat.le_antisymm.
  - apply Nat.le_ngt. intros Hlt. destruct (lookup_lt_is_Some_2 (ar_members r') (length (ar_members r)) Hlt) as [m Hm].
    destruct (rg_called _ _ _ Hg _ m Hm (le_n _)) as [Hf _]. congruence.
  - apply Nat.le_ngt. intros Hlt. destruct (lookup_lt_is_Some_2 (ar_members r) (length (ar_members r')) Hlt) as [m Hm].
    destruct (rg_members _ _ _ Hg _ m Hm) as (m' & Hm' & _). apply lookup_lt_Some in Hm'. lia.
Qed.
End Requests.

(** ** Asking again *)

(** A snapshot that the database gives back as it was: no optional preset is
    [undefined]. *)
Definition presets_given (d : AgentDefinition) : bool :=
  let f := ad_fields d in
  forallb (fun o => bool_decide (is_Some o))
    [af_modelEntityId f; af_modelName f; af_modelUpstreamName f; af_reasoningEffort f; af_permissionMode f].

Lemma json_snapshot_presets d : json_snapshot (execution_snapshot d) = execution_snapshot d <-> presets_given d = true.
Proof.
  unfold json_snapshot, execution_snapshot, presets_given. cbn. destruct (ad_fields d) as [? ? ? ? ? ? m1 m2 m3 m4 m5 ?]. cbn.
  split; [destruct m1, m2, m3, m4, m5; cbn; try done; intros [=]|]. by destruct m1, m2, m3, m4, m5.
Qed.

Lemma find_member_app memberId ms m x : find_member memberId ms = Some m -> find_member memberId (ms ++ [x]) = Some m.
Proof.
  unfold find_member. destruct (list_find _ ms) as [[i y]|] eqn:E; [|done]. intros [= ->]. by erewrite list_find_app_l.
Qed.

Lemma find_request_app request ms x :
  find_request request ms = None -> rm_clientRequestId x = request -> find_request request (ms ++ [x]) = Some x.
Proof.
  unfold find_request. destruct (list_find _ ms) as [[i y]|] eqn:E; [done|]. intros _ Hx. rewrite list_find_app_r by done.
  cbn. by rewrite decide_True.
Qed.

End Runs.

(** ** A run *)

Module RunExample.
Definition agents : agent_store := AgentExample.store_after 3.
Definition to_run (status : AgentRunStatus) : run_request := TransitionRunCall (js "run_1") (RunTransition status None None None).
Definition to_member (member : jsstring) (status : AgentRunStatus) : run_request :=
  TransitionMemberCall (js "run_1") member (MemberTransition status None None None).
Definition requests : list run_request :=
  [ CreateRunRequest (RunCreateInput (js "request_1") (js "orchestration_r") None (js "Write it") (ControlPlaneProvenance None) None);
    to_run Preparing; to_member (js "member_0") Preparing; to_member (js "member_0") Running; to_run Running;
    AddMemberRequest (js "run_1") (js "member_0") (js "call_1") (js "agent_c") (js "Review it");
    to_member (js "member_5") Preparing; CancelRequest (js "run_1") None ].
Definition drawn_member (n : nat) : jsstring := js "member_" ++ [N.of_nat (48 + n)].
Definition serve_example (n : nat) (w : agent_world) : agent_world * result agent_error unit :=
  serve_run js_compare AgentExample.sha AgentExample.posix (fun _ _ => true) AgentExample.node agents
    (default (to_run Queued) (requests !! n)) (js "run_1") (drawn_member n) (Z.of_nat (2000 + n)) w.
Definition world_after (n : nat) : agent_world := foldl (fun w n => (serve_example n w).1) (World ∅ [] []) (seq 0 n).
Definition after (n : nat) : node_world := Node agents (world_after n).
(** The statuses of the run and of its members. *)
Definition statuses (w : agent_world) : option (AgentRunStatus * list AgentRunStatus) :=
  (fun r => (ar_status r, rm_status <$> ar_members r)) <$> w_runs w !! js "run_1".
End RunExample.

Abbreviation example_node_step := (node_step js_compare AgentExample.sha AgentExample.posix (fun _ _ => true)).

Lemma run_example_step n : example_node_step (RunExample.after n) (RunExample.after (S n)).
Proof.
  unfold RunExample.after, RunExample.world_after. rewrite seq_S, foldl_app. cbn [foldl Nat.add].
  set (w := foldl _ _ _). exact (step_runs js_compare AgentExample.sha AgentExample.posix (fun _ _ => true) (Node RunExample.agents w) AgentExample.node
           (default (RunExample.to_run Queued) (RunExample.requests !! n)) (js "run_1") (RunExample.drawn_member n) (Z.of_nat (2000 + n))
           _ _ (surjective_pairing (RunExample.serve_example n w))).
Qed.

Lemma run_example_reachable n : rtc example_node_step empty_node (RunExample.after n).
Proof.
  assert (Ha : forall k, k < 4 -> rtc example_node_step empty_node (Node (AgentExample.store_after k) (World ∅ [] []))).
  { induction k as [|k IH]; intros Hk; [apply rtc_refl|]. eapply rtc_r; [apply IH; lia|].
    apply (step_agents _ _ _ _ (Node (AgentExample.store_after k) _)), example_step. lia. }
  induction n as [|n IH]; [apply (Ha 3); lia|]. eapply rtc_r; [exact IH|apply run_example_step].
Qed.


Lemma agent_runs_grow_witness :
  exists r r', w_runs (RunExample.world_after 5) !! js "run_1" = Some r /\ w_runs (RunExample.world_after 6) !! js "run_1" = Some r'
    /\ length (ar_members r) = 1 /\ length (ar_members r') = 2
    /\ run_grows js_compare AgentExample.sha RunExample.agents r r'.
Proof.
  destruct (w_runs (RunExample.world_after 5) !! js "run_1") as [r|] eqn:E; [|by vm_compute in E].
  destruct (agent_runs_grow js_compare AgentExample.sha AgentExample.posix (fun _ _ => true) (fun _ => eq_refl)
              (RunExample.after 5) (RunExample.after 6) (run_example_reachable 5) (run_example_step 5) (js "run_1") r E)
    as (r' & Hr' & Hg & _).
  exists r, r'. split; [reflexivity|]. split; [exact Hr'|].
  assert (E5 : (length ∘ ar_members) <$> w_runs (RunExample.world_after 5) !! js "run_1" = Some 1) by by vm_compute.
  assert (E6 : (length ∘ ar_members) <$> w_runs (RunExample.world_after 6) !! js "run_1" = Some 2) by by vm_compute.
  rewrite E in E5. change (w_runs (RunExample.world_after 6) !! js "run_1" = Some r') in Hr'. rewrite Hr' in E6. injection E5 as E5. injection E6 as E6.
  split; [exact E5|]. split; [exact E6|]. exact Hg.
Defined.


(** ** What cannot be recorded *)

Lemma run_error_stable : stable_schema AgentRunErrorSchema.
Proof.
  intros [c m b] e H. unfold AgentRunErrorSchema in H. cbn [err_code err_message err_retryable] in H. parse_inv.
  unfold AgentRunErrorSchema. cbn [err_code err_message err_retryable]. parse_again.
  by repeat match goal with E : ?schema ?b = Some ?b |- _ => rewrite E; clear E; cbn [mbind option_bind] end.
Qed.

(** An error whose message is empty or longer than 4000 characters is not
    stored: the transition that carries it throws, and the status stays. *)
Lemma unreadable_error_rejected runId memberId status e now runs runs' m :
  AgentRunErrorSchema e = None ->
  runs_transitionMember runId memberId (MemberTransition status None (Some (Some e)) None) now runs = Ok (runs', m) -> False.
Proof.
  intros He. unfold runs_transitionMember. cbn [mt_status mt_result mt_error mt_aiSessionId default].
  intros (current & Hcur & (u & _ & H)%bind_Ok)%bind_Ok. apply require_member_Ok in Hcur as (r & row & Hr & Hfind & Hread).
  assert (Hcur : rm_error current <> Some e).
  { intros Hc. unfold memberFromRow in Hread. destruct (sanitizeAgentRunMember row) as [x|] eqn:E; [|done]. injection Hread as <-.
    unfold sanitizeAgentRunMember in E. parse_inv. cbn in Hc. subst.
    destruct (rm_error row) as [e0|]; [|done]. cbn in *. destruct (AgentRunErrorSchema e0) as [e1|] eqn:E1; [|done]. cbn in *.
    match goal with H : Some _ = Some (Some _) |- _ => injection H as -> end.
    by rewrite (run_error_stable _ _ E1) in He. }
  destruct (_ && _ && _ && _) eqn:Eb in H; [exfalso; apply Hcur; propify; match goal with H : _ = rm_error current |- _ => exact (eq_sym H) end|].
  apply bind_Ok in H as (x & Hx & _). apply require_member_Ok in Hx as (r2 & m2 & Hr2 & Hm2 & Hread2).
  rewrite lookup_alter_eq, Hr in Hr2. injection Hr2 as <-. apply find_member_Some in Hm2 as [Hin Hid].
  cbn [bumpRevision with_members ar_members] in Hin. unfold update_member in Hin. apply list_elem_of_fmap in Hin as (y & -> & _).
  revert Hid Hread2. destruct (decide (rm_memberId y = memberId)) as [Hy|Hy].
  2: { rewrite bool_decide_false by done. by intros ?%Hy. }
  rewrite bool_decide_true by done. intros _ Hread2. unfold memberFromRow, sanitizeAgentRunMember in Hread2.
  cbn [rm_aiSessionId rm_input rm_result rm_error] in Hread2. cbn [optional_schema] in Hread2. rewrite He in Hread2.
  destruct (optional_schema AgentDefinitionIdSchema _); [|done]. cbn in Hread2.
  destruct (AgentRunInputSchema _); [|done]. cbn in Hread2. by destruct (optional_schema AgentRunResultSchema _).
Qed.
