(* ===== verification/Authorization.v ===== *)
(** * Authorization decisions

    [packages/control-plane/src/control-plane/auth/authorization.ts] with the
    permission catalogue and the scope schemas of
    [packages/protocol/src/control-plane-users.ts] and the system roles of
    [auth/user-store.ts].  Identifiers and permission ids are JavaScript
    strings. *)

From S2P Require Export Prelude.

(** ** The permission catalogue *)

Definition CONTROL_PLANE_PERMISSION_IDS : list jsstring := js <$>
  [ "users:read"; "users:manage"; "roles:read"; "roles:manage";
    "identity-providers:read"; "identity-providers:manage";
    "nodes:read"; "nodes:manage"; "projects:read"; "projects:manage";
    "runtimes:read"; "runtimes:manage"; "templates:read"; "templates:manage";
    "instances:read"; "instances:manage"; "instances:interactive";
    "app-sessions:read"; "app-sessions:manage"; "app-sessions:interactive";
    "ai-sessions:read"; "ai-sessions:manage"; "ai-sessions:interactive";
    "triggers:read"; "triggers:manage"; "repositories:read"; "repositories:manage";
    "attachments:read"; "attachments:manage"; "images:read"; "images:manage";
    "models:read"; "models:manage"; "settings:read"; "settings:manage";
    "secrets:manage"; "chat-bridges:read"; "chat-bridges:manage";
    "public-directory:read" ]%string.

(** ** System roles ([user-store.ts]) *)

Definition SYSTEM_ROLE_ADMIN : jsstring := js "role_admin".
Definition SYSTEM_ROLE_OPERATOR : jsstring := js "role_operator".
Definition SYSTEM_ROLE_VIEWER : jsstring := js "role_viewer".

Definition admin_permissions : list jsstring := CONTROL_PLANE_PERMISSION_IDS.

Definition operator_permissions : list jsstring :=
  filter (fun id =>
    existsb (fun prefix => bool_decide (prefix `prefix_of` id))
      (js <$> ["users:"; "roles:"; "identity-providers:"; "settings:"; "secrets:"; "chat-bridges:"]%string)
    = false) CONTROL_PLANE_PERMISSION_IDS.

Definition viewer_permissions : list jsstring :=
  filter (fun id => js ":read" `suffix_of` id) CONTROL_PLANE_PERMISSION_IDS.

(** ** Actors, actions, resources and scopes *)

Inductive ControlPlaneUserNodeScope :=
| NodesAll
| NodesSelected (nodeIds : list jsstring).

Inductive ControlPlaneUserInstanceScope :=
| InheritNodeScope
| InstancesSelected (instanceIds : list jsstring).

Record ControlPlaneUserAuthorizationContext := UserContext {
  uc_userId : jsstring;
  uc_identityId : jsstring;
  uc_roleIds : list jsstring;
  uc_permissionIds : list jsstring;
  uc_nodeScope : ControlPlaneUserNodeScope;
  uc_instanceScope : option ControlPlaneUserInstanceScope;
  uc_authorizationRevision : Z;
  uc_requiresPasswordChange : bool
}.

Record ControlPlaneCloudAccountActor := CloudAccount {
  ca_accountId : jsstring;
  ca_deviceSessionId : jsstring;
  ca_bindingRevision : Z;
  ca_roleIds : list jsstring;
  ca_permissionIds : list jsstring;
  ca_shareRevision : option Z;
  ca_nodeScope : ControlPlaneUserNodeScope;
  ca_instanceScope : option ControlPlaneUserInstanceScope;
  ca_authorizationRevision : Z
}.

Inductive ControlPlaneActor :=
| ActorUser (user : ControlPlaneUserAuthorizationContext)
| ActorCloudAccount (account : ControlPlaneCloudAccountActor)
| ActorChatBridge (bridgeId : jsstring)
| ActorSystem (reason : jsstring).

Inductive ControlPlaneAction :=
| Read | ReadFileContent | Create | Update | Delete
| Start | Stop | Restart | Proxy | InteractiveAccess
| SendMessage | Approve | Interrupt
| ManageSettings | ManageSecrets | ManageMembers | ManageNodeAuth.
#[export] Instance action_eq_dec : EqDecision ControlPlaneAction.
Proof. solve_decision. Defined.

Inductive ControlPlaneResourceType :=
| RProject | RNode | RRuntime | RTemplate | RInstance | RAppSession | RAiSession
| RTriggerTemplate | RTriggerDeployment | RRepository | RAttachment | RImage | RModel
| RUser | RRole | RIdentityProvider | RUserSession | RIdentityApproval | RUserAudit
| RChatBridge | RControlPlaneSettings | RDeviceTrust | RSecret | RPublicDirectory.
#[export] Instance resource_type_eq_dec : EqDecision ControlPlaneResourceType.
Proof. solve_decision. Defined.

Record ControlPlaneResource := Resource { r_type : ControlPlaneResourceType; r_id : option jsstring }.

Inductive ResolvedControlPlaneResourceScope :=
| GlobalPublic
| GlobalShared
| GlobalAdmin
| NodeScoped (nodeId : jsstring)
| InstanceDerived (nodeId instanceId : jsstring).

(** ** The permission of an operation *)

Definition RESOURCE_PERMISSION_PREFIX (type : ControlPlaneResourceType) : jsstring :=
  js (match type with
      | RProject => "projects" | RNode => "nodes" | RRuntime => "runtimes" | RTemplate => "templates"
      | RInstance => "instances" | RAppSession => "app-sessions" | RAiSession => "ai-sessions"
      | RTriggerTemplate => "triggers" | RTriggerDeployment => "triggers"
      | RRepository => "repositories" | RAttachment => "attachments" | RImage => "images" | RModel => "models"
      | RUser => "users" | RRole => "roles" | RIdentityProvider => "identity-providers" | RUserSession => "users"
      | RIdentityApproval => "users" | RUserAudit => "users" | RChatBridge => "chat-bridges"
      | RControlPlaneSettings => "settings" | RDeviceTrust => "settings" | RSecret => "secrets"
      | RPublicDirectory => "public-directory"
      end)%string.

Definition INTERACTIVE_RESOURCES : list ControlPlaneResourceType := [RInstance; RAppSession; RAiSession].

Definition permissionForControlPlaneOperation (action : ControlPlaneAction) (resourceType : ControlPlaneResourceType)
  : option jsstring :=
  let prefix := RESOURCE_PERMISSION_PREFIX resourceType in
  if decide (action = ManageSecrets) then Some (js "secrets:manage")
  else if decide (action = ManageSettings) then Some (js "settings:manage")
  else if decide (action = ManageMembers) then Some (js "users:manage")
  else if decide (action = ManageNodeAuth) then Some (js "secrets:manage")
  else if decide (resourceType = RTriggerTemplate /\ action <> Read) then Some (js "settings:manage")
  else if decide (action = InteractiveAccess \/ action = Proxy) then
    if decide (resourceType ∈ INTERACTIVE_RESOURCES) then Some (prefix ++ js ":interactive") else None
  else if decide (action = Read) then Some (prefix ++ js ":read")
  else if decide (action = ReadFileContent) then Some (prefix ++ js ":manage")
  else Some (prefix ++ js ":manage").

(** ** Scopes *)

Definition nodeScopeAllows (nodeScope : ControlPlaneUserNodeScope) (nodeId : jsstring) : bool :=
  match nodeScope with
  | NodesAll => true
  | NodesSelected nodeIds => bool_decide (nodeId ∈ nodeIds)
  end.

Definition instanceScopeAllows (nodeScope : ControlPlaneUserNodeScope)
    (instanceScope : option ControlPlaneUserInstanceScope) (instanceId nodeId : jsstring) : bool :=
  match instanceScope with
  | None | Some InheritNodeScope => nodeScopeAllows nodeScope nodeId
  | Some (InstancesSelected instanceIds) => bool_decide (instanceId ∈ instanceIds)
  end.

Definition scopeAllows (actor : ControlPlaneUserAuthorizationContext)
    (resourceScope : ResolvedControlPlaneResourceScope) : bool :=
  match resourceScope with
  | GlobalPublic | GlobalShared | GlobalAdmin => true
  | NodeScoped nodeId => nodeScopeAllows (uc_nodeScope actor) nodeId
  | InstanceDerived nodeId instanceId =>
      instanceScopeAllows (uc_nodeScope actor) (uc_instanceScope actor) instanceId nodeId
  end.

(** ** Decisions *)

(** [userCan] on the permissions of the actor; the empty string is not a
    permission. *)
Definition userCan (permissionIds : list jsstring) (action : ControlPlaneAction) (resource : ControlPlaneResource)
  : bool :=
  match permissionForControlPlaneOperation action (r_type resource) with
  | Some permission => truthy permission && bool_decide (permission ∈ permissionIds)
  | None => false
  end.

Definition canChatBridge (action : ControlPlaneAction) (resource : ControlPlaneResource) : bool :=
  if decide (r_type resource = RAiSession) then bool_decide (action ∈ [Read; SendMessage; Approve; Interrupt])
  else if decide (r_type resource = RInstance) then bool_decide (action ∈ [Read; Start; Stop; Restart])
  else bool_decide (action = Read).

Definition can (actor : ControlPlaneActor) (action : ControlPlaneAction) (resource : ControlPlaneResource) : bool :=
  match actor with
  | ActorSystem _ => true
  | ActorChatBridge _ => canChatBridge action resource
  | ActorUser user => userCan (uc_permissionIds user) action resource
  | ActorCloudAccount account => userCan (ca_permissionIds account) action resource
  end.

Definition canAccessResolvedResource (actor : ControlPlaneUserAuthorizationContext) (action : ControlPlaneAction)
    (resource : ControlPlaneResource) (resourceScope : ResolvedControlPlaneResourceScope) : bool :=
  userCan (uc_permissionIds actor) action resource && scopeAllows actor resourceScope.

(** The thrown errors with their HTTP status. *)
Inductive access_error :=
| ForbiddenError (action : ControlPlaneAction) (resource : ControlPlaneResource)
| ResourceNotVisible.

Definition statusCode (e : access_error) : Z :=
  match e with ForbiddenError _ _ => 403 | ResourceNotVisible => 404 end.

Definition assertCan (actor : ControlPlaneActor) (action : ControlPlaneAction) (resource : ControlPlaneResource)
  : result access_error unit :=
  if can actor action resource then Ok () else Throw (ForbiddenError action resource).

Definition assertCanAccessResolvedResource (actor : ControlPlaneUserAuthorizationContext)
    (action : ControlPlaneAction) (resource : ControlPlaneResource)
    (resourceScope : ResolvedControlPlaneResourceScope) : result access_error unit :=
  if negb (userCan (uc_permissionIds actor) action resource) then Throw (ForbiddenError action resource)
  else if scopeAllows actor resourceScope then Ok ()
  else Throw ResourceNotVisible.

(** [cloudAccountAuthorization]: the projection a linked account acts with. *)
Definition cloudAccountAuthorization (actor : ControlPlaneCloudAccountActor) : ControlPlaneUserAuthorizationContext :=
  UserContext
    (js "cloud-account:" ++ ca_accountId actor)
    (js "cloud-device:" ++ ca_deviceSessionId actor)
    (ca_roleIds actor) (ca_permissionIds actor) (ca_nodeScope actor)
    (Some (default InheritNodeScope (ca_instanceScope actor)))
    (1 `max` ca_authorizationRevision actor `max` ca_bindingRevision actor `max` default 1 (ca_shareRevision actor))%Z
    false.
