(* ===== verification/AuthorizationSpec.v ===== *)
(** * What the authorization decisions guarantee

    The policy of the system roles over every action and resource type, and
    the answers of the resolved-resource check. *)

From S2P Require Import Authorization.

(** ** The system roles *)

Definition manage_actions : list ControlPlaneAction := [ManageSettings; ManageSecrets; ManageMembers; ManageNodeAuth].

(** The resource types that administer the control plane itself. *)
Definition administration_resources : list ControlPlaneResourceType :=
  [RUser; RRole; RIdentityProvider; RUserSession; RIdentityApproval; RUserAudit;
   RChatBridge; RControlPlaneSettings; RDeviceTrust; RSecret].

(** The operations that need a permission no role can hold. *)
Definition unobtainable (action : ControlPlaneAction) (type : ControlPlaneResourceType) : bool :=
  negb (bool_decide (action ∈ manage_actions))
  && (bool_decide (action ∈ [InteractiveAccess; Proxy])
        && negb (bool_decide (type ∈ RTriggerTemplate :: INTERACTIVE_RESOURCES))
      || bool_decide (action = Read) && bool_decide (type = RSecret)
      || negb (bool_decide (action = Read)) && bool_decide (type = RPublicDirectory)).

Lemma permission_nonempty action type p :
  permissionForControlPlaneOperation action type = Some p -> truthy p = true.
Proof. by destruct action, type; intros [= <-]. Qed.

Lemma userCan_spec permissionIds action resource :
  userCan permissionIds action resource = true
  <-> exists p, permissionForControlPlaneOperation action (r_type resource) = Some p /\ p ∈ permissionIds.
Proof.
  unfold userCan. destruct (permissionForControlPlaneOperation _ _) as [p|] eqn:E; [|naive_solver].
  rewrite (permission_nonempty _ _ _ E). simpl. rewrite bool_decide_eq_true. naive_solver.
Qed.

(** The policy of the system roles, for every action on every resource:
    an administrator is refused exactly the operations whose permission is not
    in the catalogue; a viewer may do exactly what an administrator may read;
    an operator may do exactly what an administrator may, short of the
    resources that administer the control plane, of the management actions and
    of changing trigger templates; and a chat bridge never manages, deletes,
    creates, updates, opens file contents or gets interactive access. *)
Theorem system_roles_policy action resource :
  userCan admin_permissions action resource = negb (unobtainable action (r_type resource))
  /\ userCan viewer_permissions action resource
     = userCan admin_permissions action resource && bool_decide (action = Read)
  /\ userCan operator_permissions action resource
     = userCan admin_permissions action resource
       && negb (bool_decide (r_type resource ∈ administration_resources))
       && negb (bool_decide (action ∈ manage_actions))
       && (bool_decide (r_type resource <> RTriggerTemplate) || bool_decide (action = Read))
  /\ (canChatBridge action resource = true ->
      action ∈ [Read; SendMessage; Approve; Interrupt; Start; Stop; Restart]
      /\ (action <> Read -> r_type resource ∈ [RAiSession; RInstance])).
Proof.
  destruct resource as [type id]. unfold userCan, canChatBridge; simpl.
  destruct action, type; (split; [vm_compute; reflexivity|]); (split; [vm_compute; reflexivity|]);
    (split; [vm_compute; reflexivity|]); intros H;
    first [discriminate H | split; [set_solver|intros _; set_solver] | split; [set_solver|done]].
Qed.

(** ** The check of a resolved resource *)

Definition node_scope_le (s t : ControlPlaneUserNodeScope) : Prop :=
  forall id, nodeScopeAllows s id = true -> nodeScopeAllows t id = true.

(** The instance scope only widens within its own kind: a selection replaces
    the node scope instead of narrowing it. *)
Definition instance_scope_le (s t : option ControlPlaneUserInstanceScope) : Prop :=
  match s, t with
  | Some (InstancesSelected a), Some (InstancesSelected b) => a ⊆ b
  | Some (InstancesSelected _), _ | _, Some (InstancesSelected _) => False
  | _, _ => True
  end.

Record actor_le (a b : ControlPlaneUserAuthorizationContext) : Prop := ActorLe {
  al_permissions : uc_permissionIds a ⊆ uc_permissionIds b;
  al_nodes : node_scope_le (uc_nodeScope a) (uc_nodeScope b);
  al_instances : instance_scope_le (uc_instanceScope a) (uc_instanceScope b)
}.

Lemma scopeAllows_mono a b scope : actor_le a b -> scopeAllows a scope = true -> scopeAllows b scope = true.
Proof.
  intros [_ Hn Hi]. destruct scope as [| | |n|n i]; simpl; [done..|apply Hn|].
  unfold instanceScopeAllows, instance_scope_le in *.
  destruct (uc_instanceScope a) as [[|x]|], (uc_instanceScope b) as [[|y]|]; try done; try apply Hn.
  rewrite !bool_decide_eq_true. set_solver.
Qed.

Lemma userCan_mono p q action resource :
  p ⊆ q -> userCan p action resource = true -> userCan q action resource = true.
Proof. rewrite !userCan_spec. set_solver. Qed.

(** The check of a resolved resource answers in three ways: it accepts
    exactly the permitted and visible operations, it answers 403 exactly when
    the permission is missing - so that answer says nothing about the resource
    - and 404 exactly when the permission is held but the resource is out of
    scope; and granting more permissions or a wider scope never turns an
    accepted operation into a refused one. *)
Theorem resolved_access_answers actor action resource scope :
  (assertCanAccessResolvedResource actor action resource scope = Ok ()
   <-> canAccessResolvedResource actor action resource scope = true)
  /\ (forall e, assertCanAccessResolvedResource actor action resource scope = Throw e ->
      (statusCode e = 403%Z <-> assertCan (ActorUser actor) action resource <> Ok ())
      /\ (statusCode e = 404%Z <-> assertCan (ActorUser actor) action resource = Ok ()))
  /\ (forall scope', assertCan (ActorUser actor) action resource <> Ok () ->
      assertCanAccessResolvedResource actor action resource scope'
      = assertCanAccessResolvedResource actor action resource scope)
  /\ (forall wider, actor_le actor wider ->
      assertCanAccessResolvedResource actor action resource scope = Ok () ->
      assertCanAccessResolvedResource wider action resource scope = Ok ()).
Proof.
  unfold assertCanAccessResolvedResource, canAccessResolvedResource, assertCan; simpl.
  destruct (userCan (uc_permissionIds actor) action resource) eqn:Hp; simpl.
  - destruct (scopeAllows actor scope) eqn:Hs; simpl.
    + split; [done|]. split; [done|]. split; [done|]. intros wider Hle _.
      rewrite (userCan_mono _ _ _ _ (al_permissions _ _ Hle) Hp), (scopeAllows_mono _ _ _ Hle Hs). done.
    + split; [done|]. split; [|done]. intros e [= <-]; simpl. split; split; done.
  - split; [done|]. split; [|done]. intros e [= <-]; simpl. split; split; done.
Qed.

Definition example_actor : ControlPlaneUserAuthorizationContext :=
  UserContext (js "user_1") (js "identity_1") [SYSTEM_ROLE_VIEWER] viewer_permissions
    (NodesSelected [js "node_1"]) (Some InheritNodeScope) 1 false.
Definition example_wider : ControlPlaneUserAuthorizationContext :=
  UserContext (js "user_1") (js "identity_1") [SYSTEM_ROLE_ADMIN] admin_permissions NodesAll None 2 false.

Lemma example_actor_le : actor_le example_actor example_wider.
Proof.
  split; [|done|done].
  intros x. unfold example_actor, example_wider; simpl. intros Hx.
  apply list_elem_of_filter in Hx as [_ Hx]. exact Hx.
Qed.

Lemma system_roles_policy_witness :
  canChatBridge Stop (Resource RInstance None) = true /\ Stop ∈ [Read; SendMessage; Approve; Interrupt; Start; Stop; Restart].
Proof.
  split; [reflexivity|].
  destruct (system_roles_policy Stop (Resource RInstance None)) as (_ & _ & _ & H).
  destruct (H eq_refl) as [H' _]. exact H'.
Defined.

Lemma resolved_access_answers_witness :
  assertCanAccessResolvedResource example_actor Read (Resource RNode None) (NodeScoped (js "node_1")) = Ok ()
  /\ assertCanAccessResolvedResource example_wider Read (Resource RNode None) (NodeScoped (js "node_1")) = Ok ()
  /\ assertCanAccessResolvedResource example_actor Read (Resource RNode None) (NodeScoped (js "node_2"))
     = Throw ResourceNotVisible.
Proof.
  split; [vm_compute; reflexivity|]. split; [|vm_compute; reflexivity].
  destruct (resolved_access_answers example_actor Read (Resource RNode None) (NodeScoped (js "node_1")))
    as (_ & _ & _ & H).
  apply H; [exact example_actor_le|vm_compute; reflexivity].
Defined.
