(* ===== verification/AccessStore.v ===== *)
(** * The access database of the control plane

    The records of [packages/control-plane/src/control-plane/auth/user-records.ts]
    and the collections over them as the SQLite repository
    ([auth/database/sqlite-repository.ts] with [schema-sqlite.ts]) implements
    them: upserts with their record schemas, unique indexes and foreign keys,
    cascading deletes, and transactions that roll back on a throw.

    A time is the number of milliseconds of an ISO timestamp: the code writes
    them all in one format whose string order is the order of time.  The
    order in which a query lists rows is that of the table's map; the service
    asks for existence, or takes the first row of a unique index.  The
    optional column [lastSeenAt] of a session is never written and is left
    out; when a session was last seen is kept in memory ([UserSessions]). *)

From S2P Require Export Authorization.

(** ** Errors *)

(** A thrown [Error] with the [code] and [statusCode] the code assigns, or
    the error of a record schema or of a database constraint. *)
Inductive service_error :=
| ServiceError (code : string) (status : Z)
| InvalidRecord
| DatabaseError.

Definition conflict (code : string) : service_error := ServiceError code 409.

Fixpoint string_upper (s : string) : string :=
  match s with
  | String.EmptyString => String.EmptyString
  | String.String c s' =>
      let n := Ascii.nat_of_ascii c in
      String.String (if (97 <=? n) && (n <=? 122) then Ascii.ascii_of_nat (n - 32) else c) (string_upper s')
  end.

Definition notFound (kind : string) : service_error :=
  ServiceError ("CONTROL_PLANE_" +:+ string_upper kind +:+ "_NOT_FOUND") 404.

(** ** Records *)

Inductive user_status := UserActive | UserDisabled | UserArchived.
#[export] Instance user_status_eq_dec : EqDecision user_status.
Proof. solve_decision. Defined.

Record UserAccountRecord := UserAccount {
  u_id : jsstring;
  u_displayName : jsstring;
  u_status : user_status;
  u_lastLoginAt : option Z;
  u_archivedAt : option Z;
  u_createdAt : Z;
  u_updatedAt : Z
}.

Inductive identity_kind := LocalPassword | Oidc | OAuth | LocalTrust.
#[export] Instance identity_kind_eq_dec : EqDecision identity_kind.
Proof. solve_decision. Defined.

Record LoginIdentityRecord := LoginIdentity {
  i_id : jsstring;
  i_userId : jsstring;
  i_kind : identity_kind;
  i_normalizedLoginName : option jsstring;
  i_passwordHash : option jsstring;
  i_requiresPasswordChange : bool;
  i_providerId : option jsstring;
  i_subject : option jsstring;
  i_verifiedEmail : option jsstring;
  i_lastUsedAt : option Z;
  i_createdAt : Z;
  i_updatedAt : Z
}.

Inductive role_status := RoleActive | RoleArchived.
#[export] Instance role_status_eq_dec : EqDecision role_status.
Proof. solve_decision. Defined.

Record RoleDefinitionRecord := RoleDefinition {
  ro_id : jsstring;
  ro_name : jsstring;
  ro_description : option jsstring;
  ro_system : bool;
  ro_status : role_status;
  ro_permissionIds : list jsstring;
  ro_createdAt : Z;
  ro_updatedAt : Z
}.

Record UserAccessGrantRecord := UserAccessGrant {
  g_userId : jsstring;
  g_roleIds : list jsstring;
  g_nodeScope : ControlPlaneUserNodeScope;
  g_instanceScope : ControlPlaneUserInstanceScope;
  g_authorizationRevision : Z;
  g_createdAt : Z;
  g_updatedAt : Z
}.

Inductive client_type := ClientWeb | ClientMobile | ClientCli.
#[export] Instance client_type_eq_dec : EqDecision client_type.
Proof. solve_decision. Defined.

(** The user of a session is the user of its identity: the table has no
    column for it.  Device and client metadata are opaque. *)
Record UserSessionRecord := UserSession {
  s_id : jsstring;
  s_identityId : jsstring;
  s_authorizationRevision : Z;
  s_tokenHash : jsstring;
  s_expiresAt : Z;
  s_clientType : client_type;
  s_device : option jsstring;
  s_clientInfo : option jsstring;
  s_createdAt : Z;
  s_updatedAt : Z
}.

Inductive provider_kind := ProviderOidc | ProviderGithub.
#[export] Instance provider_kind_eq_dec : EqDecision provider_kind.
Proof. solve_decision. Defined.
Inductive provider_status := ProviderEnabled | ProviderDisabled.
#[export] Instance provider_status_eq_dec : EqDecision provider_status.
Proof. solve_decision. Defined.
Inductive login_policy := ExistingOnly | AdminApprovedCreate.
#[export] Instance login_policy_eq_dec : EqDecision login_policy.
Proof. solve_decision. Defined.

Record IdentityProviderRecord := IdentityProvider {
  p_id : jsstring;
  p_name : jsstring;
  p_kind : provider_kind;
  p_status : provider_status;
  p_loginPolicy : login_policy;
  p_issuer : option jsstring;
  p_clientId : jsstring;
  p_clientSecretCiphertext : jsstring;
  p_callbackUrl : jsstring;
  p_createdAt : Z;
  p_updatedAt : Z
}.

Inductive approval_status := ApprovalPending | ApprovalApproved | ApprovalRejected | ApprovalExpired.
#[export] Instance approval_status_eq_dec : EqDecision approval_status.
Proof. solve_decision. Defined.

Record ExternalIdentityApprovalRecord := ExternalIdentityApproval {
  ea_id : jsstring;
  ea_providerId : jsstring;
  ea_subject : jsstring;
  ea_verifiedEmail : option jsstring;
  ea_displayName : option jsstring;
  ea_status : approval_status;
  ea_expiresAt : Z;
  ea_decidedAt : option Z;
  ea_decidedByUserId : option jsstring;
  ea_createdAt : Z;
  ea_updatedAt : Z
}.

Record UserAuditRecord := UserAudit {
  au_id : jsstring;
  au_action : jsstring;
  au_actorUserId : option jsstring;
  au_targetType : jsstring;
  au_targetId : option jsstring;
  au_createdAt : Z
}.

(** The [superRefine] rules of the record schemas. *)
Definition UserAccountRecordSchema (user : UserAccountRecord) : bool :=
  eqb (bool_decide (u_status user = UserArchived)) (bool_decide (is_Some (u_archivedAt user))).

Definition LoginIdentityRecordSchema (identity : LoginIdentityRecord) : bool :=
  let name := bool_decide (is_Some (i_normalizedLoginName identity)) in
  let hash := bool_decide (is_Some (i_passwordHash identity)) in
  let provider := bool_decide (is_Some (i_providerId identity)) in
  let subject := bool_decide (is_Some (i_subject identity)) in
  match i_kind identity with
  | LocalPassword => name && hash && negb (provider || subject)
  | LocalTrust => negb (hash || name) && negb (provider || subject || bool_decide (is_Some (i_verifiedEmail identity)))
  | Oidc | OAuth => provider && subject && negb (hash || name)
  end.

Definition UserAccessGrantRecordSchema (grant : UserAccessGrantRecord) : bool :=
  bool_decide (1 <= length (g_roleIds grant) <= 100) && (0 <? g_authorizationRevision grant)%Z.

Definition UserSessionRecordSchema (session : UserSessionRecord) : bool :=
  (0 <? s_authorizationRevision session)%Z
  && (bool_decide (s_clientType session <> ClientMobile) || bool_decide (is_Some (s_device session)))
  && (bool_decide (s_clientType session <> ClientCli) || bool_decide (is_Some (s_clientInfo session))).

(** ** The database *)

Abbreviation table := (gmap jsstring).

Record repository := Repository {
  users : table UserAccountRecord;
  identities : table LoginIdentityRecord;
  roles : table RoleDefinitionRecord;
  grants : table UserAccessGrantRecord;
  sessions : table UserSessionRecord;
  providers : table IdentityProviderRecord;
  approvals : table ExternalIdentityApprovalRecord;
  audit : table UserAuditRecord;
  initializedAt : option Z
}.

Definition empty_repository : repository := Repository ∅ ∅ ∅ ∅ ∅ ∅ ∅ ∅ None.

Definition with_users f r := Repository (f (users r)) (identities r) (roles r) (grants r) (sessions r) (providers r) (approvals r) (audit r) (initializedAt r).
Definition with_identities f r := Repository (users r) (f (identities r)) (roles r) (grants r) (sessions r) (providers r) (approvals r) (audit r) (initializedAt r).
Definition with_roles f r := Repository (users r) (identities r) (f (roles r)) (grants r) (sessions r) (providers r) (approvals r) (audit r) (initializedAt r).
Definition with_grants f r := Repository (users r) (identities r) (roles r) (f (grants r)) (sessions r) (providers r) (approvals r) (audit r) (initializedAt r).
Definition with_sessions f r := Repository (users r) (identities r) (roles r) (grants r) (f (sessions r)) (providers r) (approvals r) (audit r) (initializedAt r).
Definition with_providers f r := Repository (users r) (identities r) (roles r) (grants r) (sessions r) (f (providers r)) (approvals r) (audit r) (initializedAt r).
Definition with_approvals f r := Repository (users r) (identities r) (roles r) (grants r) (sessions r) (providers r) (f (approvals r)) (audit r) (initializedAt r).
Definition with_audit f r := Repository (users r) (identities r) (roles r) (grants r) (sessions r) (providers r) (approvals r) (f (audit r)) (initializedAt r).
Definition with_initializedAt at_ r := Repository (users r) (identities r) (roles r) (grants r) (sessions r) (providers r) (approvals r) (audit r) at_.

(** ** Operations on the database

    An operation leaves a database and returns or throws; what it wrote before
    a throw stays, unless it runs in a transaction. *)
Definition M (A : Type) : Type := repository -> repository * result service_error A.

#[export] Instance M_ret : MRet M := fun A a r => (r, Ok a).
#[export] Instance M_bind : MBind M := fun A B k m r =>
  match m r with (r', Ok a) => k a r' | (r', Throw e) => (r', Throw e) end.

Definition throw {A} (e : service_error) : M A := fun r => (r, Throw e).
Definition gets {A} (f : repository -> A) : M A := fun r => (r, Ok (f r)).
Definition modify (f : repository -> repository) : M unit := fun r => (f r, Ok ()).
Definition assert (b : bool) (e : service_error) : M unit := if b then mret () else throw e.
Definition require {A} (o : option A) (e : service_error) : M A :=
  match o with Some a => mret a | None => throw e end.

(** [transaction]: begin, run, commit; roll back and rethrow on a throw.
    Inside a transaction it runs the operation as it is. *)
Definition transaction {A} (operation : M A) : M A := fun r =>
  match operation r with
  | (r', Ok a) => (r', Ok a)
  | (_, Throw e) => (r, Throw e)
  end.

(** [try { m } catch (error) { h(error) }]. *)
Definition catch {A} (m : M A) (h : service_error -> M A) : M A := fun r =>
  match m r with
  | (r', Ok a) => (r', Ok a)
  | (r', Throw e) => h e r'
  end.

(** A loop over a list of rows. *)
Fixpoint mfor {A} (l : list A) (f : A -> M unit) : M unit :=
  match l with [] => mret () | a :: l' => f a ≫= fun _ => mfor l' f end.

(** The rows of a table, and the first that satisfies a condition. *)
Definition table_list {V} (t : table V) : list V := (map_to_list t).*2.
Definition table_find {V} (P : V -> bool) (t : table V) : option V :=
  head (filter (fun v => P v = true) (table_list t)).
Definition table_exists {V} (P : V -> bool) (t : table V) : bool := existsb P (table_list t).

(** *** Users *)

Definition users_put (user : UserAccountRecord) : M unit :=
  _ ← assert (UserAccountRecordSchema user) InvalidRecord;
  modify (with_users <[u_id user := user]>).

(** Deleting an identity deletes its sessions, deleting a user its identities
    and grant; a user that decided an approval cannot be deleted. *)
Definition identities_delete (id : jsstring) : M bool :=
  deleted ← gets (fun r => bool_decide (is_Some (identities r !! id)));
  _ ← modify (fun r => with_identities (delete id)
                (with_sessions (filter (fun e => s_identityId e.2 <> id)) r));
  mret deleted.

Definition users_delete (id : jsstring) : M bool :=
  decided ← gets (fun r => table_exists (fun a => bool_decide (ea_decidedByUserId a = Some id)) (approvals r));
  _ ← assert (negb decided) DatabaseError;
  deleted ← gets (fun r => bool_decide (is_Some (users r !! id)));
  rows ← gets (fun r => filter (fun i => i_userId i = id) (table_list (identities r)));
  _ ← mfor rows (fun i => _ ← identities_delete (i_id i); mret ());
  _ ← modify (fun r => with_users (delete id) (with_grants (delete id) r));
  mret deleted.

(** *** Identities *)

Definition same_login_name (name : jsstring) (i : LoginIdentityRecord) : bool :=
  bool_decide (i_normalizedLoginName i = Some name).
Definition same_provider_subject (providerId subject : jsstring) (i : LoginIdentityRecord) : bool :=
  bool_decide (i_providerId i = Some providerId) && bool_decide (i_subject i = Some subject).

Definition identities_findByLoginName (name : jsstring) : M (option LoginIdentityRecord) :=
  gets (fun r => table_find (same_login_name name) (identities r)).
Definition identities_findByProviderSubject (providerId subject : jsstring) : M (option LoginIdentityRecord) :=
  gets (fun r => table_find (same_provider_subject providerId subject) (identities r)).
Definition identities_of (r : repository) (userId : jsstring) : list LoginIdentityRecord :=
  filter (fun i => i_userId i = userId) (table_list (identities r)).
Definition identities_listByUser (userId : jsstring) : M (list LoginIdentityRecord) :=
  gets (fun r => identities_of r userId).
Definition identities_existsForProvider (providerId : jsstring) : M bool :=
  gets (fun r => table_exists (fun i => bool_decide (i_providerId i = Some providerId)) (identities r)).

(** The unique indexes on the login name and on provider and subject. *)
Definition identity_indexes (identity : LoginIdentityRecord) (r : repository) : bool :=
  forallb (fun other =>
    bool_decide (i_id other = i_id identity)
    || negb match i_normalizedLoginName identity with Some n => same_login_name n other | None => false end
       && negb match i_providerId identity, i_subject identity with
               | Some p, Some s => same_provider_subject p s other
               | _, _ => false
               end) (table_list (identities r)).

Definition identities_put (identity : LoginIdentityRecord) : M unit :=
  _ ← assert (LoginIdentityRecordSchema identity) InvalidRecord;
  owner ← gets (fun r => bool_decide (is_Some (users r !! i_userId identity)));
  indexes ← gets (identity_indexes identity);
  _ ← assert (owner && indexes) DatabaseError;
  modify (with_identities <[i_id identity := identity]>).

(** *** Roles and grants *)

(** The role rows of a grant are read back in order. *)
Definition stored_grant (grant : UserAccessGrantRecord) : UserAccessGrantRecord :=
  UserAccessGrant (g_userId grant) (js_sort js_compare (g_roleIds grant)) (g_nodeScope grant)
    (g_instanceScope grant) (g_authorizationRevision grant) (g_createdAt grant) (g_updatedAt grant).

Definition grants_put (grant : UserAccessGrantRecord) : M unit :=
  _ ← assert (UserAccessGrantRecordSchema grant) InvalidRecord;
  owner ← gets (fun r => bool_decide (is_Some (users r !! g_userId grant)));
  known ← gets (fun r => forallb (fun id => bool_decide (is_Some (roles r !! id))) (g_roleIds grant));
  _ ← assert (owner && known && bool_decide (NoDup (g_roleIds grant))) DatabaseError;
  modify (with_grants <[g_userId grant := stored_grant grant]>).

Definition grants_delete (userId : jsstring) : M unit := modify (with_grants (delete userId)).

Definition grants_listByRole (roleId : jsstring) : M (list UserAccessGrantRecord) :=
  gets (fun r => filter (fun g => roleId ∈ g_roleIds g) (table_list (grants r))).

(** *** Sessions *)

Definition session_user (r : repository) (session : UserSessionRecord) : option jsstring :=
  i_userId <$> identities r !! s_identityId session.

(** Reading a session joins its identity. *)
Definition sessions_get (id : jsstring) : M (option (jsstring * UserSessionRecord)) :=
  gets (fun r => session ← sessions r !! id; user ← session_user r session; Some (user, session)).

Definition sessions_listByUser (userId : jsstring) : M (list UserSessionRecord) :=
  gets (fun r => filter (fun s => session_user r s = Some userId) (table_list (sessions r))).

Definition sessions_put (userId : jsstring) (session : UserSessionRecord) : M unit :=
  _ ← assert (UserSessionRecordSchema session) InvalidRecord;
  owner ← gets (fun r => session_user r session);
  _ ← assert (bool_decide (owner = Some userId)) DatabaseError;
  taken ← gets (fun r => table_exists (fun s => bool_decide (s_tokenHash s = s_tokenHash session)
                                                 && negb (bool_decide (s_id s = s_id session))) (sessions r));
  _ ← assert (negb taken) DatabaseError;
  modify (with_sessions <[s_id session := session]>).

Definition sessions_delete (id : jsstring) : M bool :=
  deleted ← gets (fun r => bool_decide (is_Some (sessions r !! id)));
  _ ← modify (with_sessions (delete id));
  mret deleted.

(** *** Providers, approvals and the audit log *)

Definition IdentityProviderRecordSchema (provider : IdentityProviderRecord) : bool :=
  bool_decide (p_kind provider <> ProviderOidc) || bool_decide (is_Some (p_issuer provider)).

Definition providers_put (provider : IdentityProviderRecord) : M unit :=
  _ ← assert (IdentityProviderRecordSchema provider) InvalidRecord;
  modify (with_providers <[p_id provider := provider]>).

Definition providers_delete (id : jsstring) : M bool :=
  deleted ← gets (fun r => bool_decide (is_Some (providers r !! id)));
  _ ← modify (fun r => with_providers (delete id)
                (with_approvals (filter (fun e => ea_providerId e.2 <> id)) r));
  mret deleted.

Definition approvals_put (approval : ExternalIdentityApprovalRecord) : M unit :=
  known ← gets (fun r => bool_decide (is_Some (providers r !! ea_providerId approval)));
  decider ← gets (fun r => match ea_decidedByUserId approval with
                           | Some u => bool_decide (is_Some (users r !! u))
                           | None => true
                           end);
  _ ← assert (known && decider) DatabaseError;
  modify (with_approvals <[ea_id approval := approval]>).

Definition active_pending (now : Z) (a : ExternalIdentityApprovalRecord) : bool :=
  bool_decide (ea_status a = ApprovalPending) && (now <? ea_expiresAt a)%Z.

Definition approvals_findActivePending (providerId subject : jsstring) (now : Z)
  : M (option ExternalIdentityApprovalRecord) :=
  gets (fun r => table_find (fun a => bool_decide (ea_providerId a = providerId)
                                      && bool_decide (ea_subject a = subject) && active_pending now a) (approvals r)).

Definition approvals_hasActivePendingForProvider (providerId : jsstring) (now : Z) : M bool :=
  gets (fun r => table_exists (fun a => bool_decide (ea_providerId a = providerId) && active_pending now a) (approvals r)).

Definition audit_put (record : UserAuditRecord) : M unit := modify (with_audit <[au_id record := record]>).

(** [roles.put]: the unique index on [lower(name)] of the active roles;
    [lower] is the database's function. *)
Section Roles.
Context (lower : jsstring -> jsstring).

Definition role_index (role : RoleDefinitionRecord) (r : repository) : bool :=
  bool_decide (ro_status role <> RoleActive)
  || forallb (fun other => bool_decide (ro_id other = ro_id role) || bool_decide (ro_status other <> RoleActive)
                           || negb (bool_decide (lower (ro_name other) = lower (ro_name role))))
       (table_list (roles r)).

Definition roles_put (role : RoleDefinitionRecord) : M unit :=
  index ← gets (role_index role);
  _ ← assert index DatabaseError;
  modify (with_roles <[ro_id role := role]>).
End Roles.
