(* ===== verification/Credentials.v ===== *)
(** * Passwords and session tokens

    [packages/control-plane/src/control-plane/auth/passwords.ts], the token
    format of [auth/user-authentication.ts] and the loopback test of
    [auth/local-trust.ts].  [scrypt] is the key derivation of Node's crypto
    and [base64url] its encoding of buffers, [toLocaleLowerCase] the locale's mapping. *)

From S2P Require Export Prelude.

(** [s.split(sep)] on a one-character separator. *)
Fixpoint js_split (sep : N) (s : jsstring) : list jsstring :=
  match s with
  | [] => [[]]
  | c :: s' =>
      if (c =? sep)%N then [] :: js_split sep s'
      else match js_split sep s' with
           | piece :: rest => (c :: piece) :: rest
           | [] => [[c]]
           end
  end.

Definition dollar : N := 36.
Definition dot : N := 46.

Lemma js_split_nonempty sep s : js_split sep s <> [].
Proof. destruct s as [|c s]; simpl; [done|]. by case_match; [|case_match]. Qed.

Lemma js_split_none sep s : sep ∉ s -> js_split sep s = [s].
Proof.
  induction s as [|c s IH]; simpl; [done|]. intros Hn.
  rewrite (proj2 (N.eqb_neq c sep)) by set_solver. rewrite IH by set_solver. done.
Qed.

Lemma js_split_app sep a b : sep ∉ a -> js_split sep (a ++ sep :: b) = a :: js_split sep b.
Proof.
  induction a as [|c a IH]; simpl; intros Hn.
  - by rewrite N.eqb_refl.
  - rewrite (proj2 (N.eqb_neq c sep)) by set_solver. rewrite IH by set_solver. done.
Qed.

Section Credentials.
Context (scrypt : jsstring -> jsstring -> list N) (base64url : list N -> jsstring)
  (fromBase64url : jsstring -> list N) (toLocaleLowerCase : jsstring -> jsstring).

Definition normalizeControlPlaneLoginName (value : jsstring) : jsstring := toLocaleLowerCase (trim value).

(** The salt is the random value the call draws. *)
Definition hashControlPlanePassword (salt password : jsstring) : jsstring :=
  js "scrypt" ++ dollar :: salt ++ dollar :: base64url (scrypt password salt).

(** [timingSafeEqual] on buffers of one length is their equality. *)
Definition verifyControlPlanePassword (password hash : jsstring) : bool :=
  let pieces := js_split dollar hash in
  match pieces !! 0, pieces !! 1, pieces !! 2 with
  | Some scheme, Some salt, Some expected =>
      bool_decide (scheme = js "scrypt") && truthy salt && truthy expected
      && bool_decide (fromBase64url expected = scrypt password salt)
  | _, _, _ => false
  end.

(** What Node's encoding of salts and keys guarantees. *)
Definition encoded (s : jsstring) : Prop := truthy s = true /\ dollar ∉ s.

Lemma verify_hash_spec salt password password' :
  encoded salt -> (forall p, encoded (base64url (scrypt p salt))) -> (forall b, fromBase64url (base64url b) = b) ->
  verifyControlPlanePassword password' (hashControlPlanePassword salt password)
  = bool_decide (scrypt password salt = scrypt password' salt).
Proof.
  intros [Hs Hsd] Hk Hround. unfold verifyControlPlanePassword, hashControlPlanePassword.
  destruct (Hk password) as [Hp Hpd].
  assert (Hscheme : dollar ∉ js "scrypt") by (apply (bool_decide_unpack _); vm_compute; exact I).
  rewrite (js_split_app dollar (js "scrypt")), (js_split_app dollar salt) by done.
  rewrite (js_split_none dollar) by done. simpl.
  by rewrite Hs, Hp, Hround.
Qed.
End Credentials.

(** [const [sessionId, secret] = token.split(".")], both nonempty. *)
Definition split_token (token : option jsstring) : option (jsstring * jsstring) :=
  t ← token;
  match js_split dot t with
  | sessionId :: secret :: _ => if truthy sessionId && truthy secret then Some (sessionId, secret) else None
  | _ => None
  end.

Definition session_token (sessionId secret : jsstring) : jsstring := sessionId ++ dot :: secret.

Lemma split_session_token sessionId secret :
  truthy sessionId = true -> truthy secret = true -> dot ∉ sessionId -> dot ∉ secret ->
  split_token (Some (session_token sessionId secret)) = Some (sessionId, secret).
Proof.
  intros H1 H2 H3 H4. unfold split_token, session_token; simpl.
  rewrite js_split_app, js_split_none by done. by rewrite H1, H2.
Qed.

(** ** The loopback test *)

Definition is_digit (c : N) : bool := (48 <=? c)%N && (c <=? 57)%N.

(** [Number(octet)] on decimal digits. *)
Definition decimal (s : jsstring) : N := foldl (fun n c => n * 10 + (c - 48))%N 0%N s.

(** [/^\d{1,3}$/.test(octet) && Number(octet) <= 255]. *)
Definition is_octet (octet : jsstring) : bool :=
  bool_decide (1 <= length octet <= 3) && forallb is_digit octet && (decimal octet <=? 255)%N.

Definition isLoopbackRemoteAddress (address : option jsstring) : bool :=
  match address with
  | None | Some [] => false
  | Some address =>
      let value := if bool_decide (js "::ffff:" `prefix_of` address) then drop 7 address else address in
      bool_decide (value = js "::1")
      || (let octets := js_split dot value in
          bool_decide (length octets = 4) && forallb is_octet octets
          && bool_decide (octets !! 0 = Some (js "127")))
  end.
