(* ===== verification/UserService.v ===== *)
(** * Users, roles and access grants

    [packages/control-plane/src/control-plane/auth/user-service.ts]: every
    operation that changes the access database, over the store of
    [AccessStore].  Inputs are the values their schemas return; random
    identifiers, salts and the time of a call are arguments.  [lower] is the
    database's [lower], [toLocaleLowerCase] the language's; scrypt is the
    key derivation of [Credentials]. *)

From S2P Require Export AccessStore Credentials.

(** ** Reading access *)

(** What [authorization] returns. *)
Record user_authorization := UserAuthorization {
  az_userId : jsstring;
  az_roleIds : list jsstring;
  az_permissionIds : list jsstring;
  az_nodeScope : ControlPlaneUserNodeScope;
  az_instanceScope : ControlPlaneUserInstanceScope;
  az_authorizationRevision : Z
}.

Definition requireUser (userId : jsstring) : M UserAccountRecord :=
  user ← gets (fun r => users r !! userId);
  require user (notFound "user").

Definition active_role (r : repository) (roleId : jsstring) : option RoleDefinitionRecord :=
  role ← roles r !! roleId; if decide (ro_status role = RoleActive) then Some role else None.

Definition authorization (userId : jsstring) : M user_authorization :=
  user ← requireUser userId;
  _ ← assert (bool_decide (u_status user = UserActive)) (ServiceError "CONTROL_PLANE_USER_DISABLED" 403);
  grant ← gets (fun r => grants r !! userId);
  grant ← require grant (conflict "CONTROL_PLANE_USER_ACCESS_REQUIRED");
  active ← gets (fun r => omap (active_role r) (g_roleIds grant));
  _ ← assert (length active =? length (g_roleIds grant)) (conflict "CONTROL_PLANE_ROLE_INACTIVE");
  mret (UserAuthorization userId (g_roleIds grant) (unique_sorted (active ≫= ro_permissionIds))
          (g_nodeScope grant) (g_instanceScope grant) (g_authorizationRevision grant)).

(** The first identity of a user that is a local password. *)
Definition localIdentity_in (r : repository) (userId : jsstring) : option LoginIdentityRecord :=
  head (filter (fun i => i_kind i = LocalPassword) (identities_of r userId)).
Definition localIdentity (userId : jsstring) : M (option LoginIdentityRecord) :=
  gets (fun r => localIdentity_in r userId).

Definition detail (userId : jsstring) : M (UserAccountRecord * list LoginIdentityRecord * UserAccessGrantRecord) :=
  user ← requireUser userId;
  identityRecords ← identities_listByUser userId;
  accessGrant ← gets (fun r => grants r !! userId);
  accessGrant ← require accessGrant (conflict "CONTROL_PLANE_USER_ACCESS_REQUIRED");
  mret (user, identityRecords, accessGrant).

(** ** Scopes *)

Definition normalize_ids (ids : list jsstring) : list jsstring :=
  unique_sorted (filter (fun id => truthy id = true) (trim <$> ids)).

Definition normalizeUserNodeScope (scope : ControlPlaneUserNodeScope) : ControlPlaneUserNodeScope :=
  match scope with NodesAll => NodesAll | NodesSelected ids => NodesSelected (normalize_ids ids) end.

Definition normalizeUserInstanceScope (scope : ControlPlaneUserInstanceScope) : ControlPlaneUserInstanceScope :=
  match scope with InheritNodeScope => InheritNodeScope | InstancesSelected ids => InstancesSelected (normalize_ids ids) end.

(** ** Shared steps *)

(** [{...grant, authorizationRevision: grant.authorizationRevision + 1}]. *)
Definition grant_access (grant : UserAccessGrantRecord) (roleIds : list jsstring)
    (nodeScope : ControlPlaneUserNodeScope) (instanceScope : ControlPlaneUserInstanceScope) (now : Z)
  : UserAccessGrantRecord :=
  UserAccessGrant (g_userId grant) roleIds nodeScope instanceScope (g_authorizationRevision grant + 1)
    (g_createdAt grant) now.

Definition bumped_grant (grant : UserAccessGrantRecord) (now : Z) : UserAccessGrantRecord :=
  grant_access grant (g_roleIds grant) (g_nodeScope grant) (g_instanceScope grant) now.

Definition revokeSessionsIn (userId : jsstring) : M unit :=
  rows ← sessions_listByUser userId;
  mfor rows (fun session => _ ← sessions_delete (s_id session); mret ()).

Definition bumpAuthorizationRevisionIn (userId : jsstring) (now : Z) : M unit :=
  grant ← gets (fun r => grants r !! userId);
  grant ← require grant (conflict "CONTROL_PLANE_USER_ACCESS_REQUIRED");
  _ ← grants_put (bumped_grant grant now);
  revokeSessionsIn userId.

Definition assertActiveRoles (roleIds : list jsstring) : M unit :=
  _ ← assert (length (remove_dups roleIds) =? length roleIds) (conflict "CONTROL_PLANE_ROLE_DUPLICATE");
  mfor (remove_dups roleIds) (fun roleId =>
    role ← gets (fun r => active_role r roleId);
    match role with Some _ => mret () | None => throw (notFound "role") end).

(** ** The last administrator *)

(** [LoginCapabilityProjection]: the change that is about to be made. *)
Record login_projection := LoginProjection {
  lp_userStatus : option (jsstring * user_status);
  lp_roleIds : option (jsstring * list jsstring);
  lp_removedIdentityId : option jsstring;
  lp_providerStatus : option (jsstring * provider_status)
}.
Definition no_projection : login_projection := LoginProjection None None None None.

(** The projected value at an identifier, or the stored one. *)
Definition projected {A} (projection : option (jsstring * A)) (id : jsstring) (stored : A) : A :=
  match projection with Some (key, a) => if decide (key = id) then a else stored | None => stored end.

Definition identity_login_capable (r : repository) (projection : login_projection) (identity : LoginIdentityRecord) : bool :=
  negb (bool_decide (lp_removedIdentityId projection = Some (i_id identity)))
  && match i_kind identity with
     | LocalPassword => true
     | LocalTrust => false
     | Oidc | OAuth =>
         match i_providerId identity with
         | Some providerId =>
             truthy providerId
             && match providers r !! providerId with
                | Some provider =>
                    bool_decide (projected (lp_providerStatus projection) (p_id provider) (p_status provider) = ProviderEnabled)
                | None => false
                end
         | None => false
         end
     end.

Definition hasLoginCapableIdentity (r : repository) (userId : jsstring) (projection : login_projection) : bool :=
  existsb (identity_login_capable r projection) (identities_of r userId).

(** An active user with the administrator role and a way to sign in. *)
Definition login_capable_admin (r : repository) (projection : login_projection) (user : UserAccountRecord) : bool :=
  bool_decide (projected (lp_userStatus projection) (u_id user) (u_status user) = UserActive)
  && bool_decide (SYSTEM_ROLE_ADMIN
       ∈ projected (lp_roleIds projection) (u_id user) (default [] (g_roleIds <$> grants r !! u_id user)))
  && hasLoginCapableIdentity r (u_id user) projection.

Definition assertLoginCapableAdminRemains (projection : login_projection) : M unit :=
  remains ← gets (fun r => existsb (login_capable_admin r projection) (table_list (users r)));
  assert remains (conflict "CONTROL_PLANE_LAST_ACTIVE_ADMIN").

Definition assertProviderStatusChangeAllowed (providerId : jsstring) (status : provider_status) : M unit :=
  if decide (status = ProviderEnabled) then mret ()
  else assertLoginCapableAdminRemains (LoginProjection None None None (Some (providerId, status))).

(** ** Operations *)

Section Operations.
Context (lower toLocaleLowerCase : jsstring -> jsstring)
  (scrypt : jsstring -> jsstring -> list N) (base64url : list N -> jsstring).

Abbreviation normalizeLogin := (normalizeControlPlaneLoginName toLocaleLowerCase).
Abbreviation hashPassword := (hashControlPlanePassword scrypt base64url).

(** *** Local users *)

Record local_user_input := LocalUserInput {
  lu_username : jsstring;
  lu_password : jsstring;
  lu_displayName : option jsstring;
  lu_roleIds : list jsstring;
  lu_nodeScope : ControlPlaneUserNodeScope;
  lu_instanceScope : option ControlPlaneUserInstanceScope;
  lu_requirePasswordChange : bool
}.

(** The first grant of a new user. *)
Definition first_grant (userId : jsstring) (roleIds : list jsstring) (nodeScope : ControlPlaneUserNodeScope)
    (instanceScope : option ControlPlaneUserInstanceScope) (now : Z) : UserAccessGrantRecord :=
  UserAccessGrant userId (unique_sorted roleIds) (normalizeUserNodeScope nodeScope)
    (normalizeUserInstanceScope (default InheritNodeScope instanceScope)) 1 now now.

Definition refuse_taken {A} (existing : option A) (code : string) : M unit :=
  match existing with Some _ => throw (conflict code) | None => mret () end.

Definition createLocalUserInternal (userId identityId salt : jsstring) (now : Z) (input : local_user_input)
  : M (UserAccountRecord * LoginIdentityRecord) :=
  let normalizedLoginName := normalizeLogin (lu_username input) in
  let user := UserAccount userId
                (default (lu_username input) (oor (lu_displayName input) None)) UserActive None None now now in
  let identity := LoginIdentity identityId userId LocalPassword (Some normalizedLoginName)
                    (Some (hashPassword salt (lu_password input))) (lu_requirePasswordChange input)
                    None None None None now now in
  transaction (
    existing ← identities_findByLoginName normalizedLoginName;
    _ ← refuse_taken existing "CONTROL_PLANE_USERNAME_CONFLICT";
    _ ← assertActiveRoles (lu_roleIds input);
    _ ← users_put user;
    _ ← identities_put identity;
    _ ← grants_put (first_grant userId (lu_roleIds input) (lu_nodeScope input) (lu_instanceScope input) now);
    mret (user, identity)).

Definition createLocalUser (userId identityId salt : jsstring) (now : Z) (input : local_user_input)
  : M (UserAccountRecord * list LoginIdentityRecord * UserAccessGrantRecord) :=
  created ← createLocalUserInternal userId identityId salt now input;
  detail (u_id created.1).

(** *** Bootstrap *)

Definition systemRole (now : Z) (id name : jsstring) (permissionIds : list jsstring) : RoleDefinitionRecord :=
  RoleDefinition id name None true RoleActive permissionIds now now.

Definition system_roles (now : Z) : list RoleDefinitionRecord :=
  [ systemRole now SYSTEM_ROLE_ADMIN (js "Admin") admin_permissions;
    systemRole now SYSTEM_ROLE_OPERATOR (js "Operator") operator_permissions;
    systemRole now SYSTEM_ROLE_VIEWER (js "Viewer") viewer_permissions ].

(** [permissionIds.join] compares as the lists do: no id holds a NUL. *)
Definition ensureSystemRoles (now : Z) : M unit :=
  mfor (system_roles now) (fun definition =>
    current ← gets (fun r => roles r !! ro_id definition);
    roles_put lower
      match current with
      | Some current =>
          RoleDefinition (ro_id definition) (ro_name definition) (ro_description definition) (ro_system definition)
            (ro_status definition) (ro_permissionIds definition) (ro_createdAt current)
            (if decide (ro_permissionIds current = ro_permissionIds definition)
             then ro_updatedAt current else ro_updatedAt definition)
      | None => definition
      end).

Definition initializeForBootstrap (now : Z) : M unit :=
  transaction (
    current ← gets initializedAt;
    _ ← match current with None => modify (with_initializedAt (Some now)) | Some _ => mret () end;
    ensureSystemRoles now).

(** [bootstrapInProgress] is set while another call is in flight. *)
Definition bootstrapAdmin (bootstrapInProgress : bool) (newUserId newIdentityId salt : jsstring) (now : Z)
    (username password : jsstring) (displayName : option jsstring)
  : M (UserAccountRecord * list LoginIdentityRecord * UserAccessGrantRecord) :=
  _ ← assert (negb bootstrapInProgress) (conflict "AUTH_BOOTSTRAP_IN_PROGRESS");
  done ← gets (fun r => bool_decide (is_Some (initializedAt r)) && negb (bool_decide (table_list (users r) = [])));
  _ ← assert (negb done) (conflict "AUTH_BOOTSTRAP_ALREADY_DONE");
  _ ← initializeForBootstrap now;
  created ← createLocalUserInternal newUserId newIdentityId salt now
    (LocalUserInput username password displayName [SYSTEM_ROLE_ADMIN] NodesAll (Some InheritNodeScope) false);
  catch (detail (u_id created.1)) (fun error =>
    _ ← grants_delete (u_id created.1);
    _ ← users_delete (u_id created.1);
    _ ← identities_delete (i_id created.2);
    throw error).

(** *** The local operator *)

Definition createLocalTrustOperatorIn (userId identityId auditId : jsstring) (now : Z) : M (jsstring * jsstring) :=
  _ ← users_put (UserAccount userId (js "Local Operator") UserActive None None now now);
  _ ← identities_put (LoginIdentity identityId userId LocalTrust None None false None None None None now now);
  _ ← grants_put (UserAccessGrant userId [SYSTEM_ROLE_ADMIN] NodesAll InheritNodeScope 1 now now);
  _ ← audit_put (UserAudit auditId (js "cli-local-session.operator-create") (Some userId) (js "user") (Some userId) now);
  mret (userId, identityId).

Definition canonical_grant (grant : UserAccessGrantRecord) : bool :=
  bool_decide (g_roleIds grant = [SYSTEM_ROLE_ADMIN])
  && match g_nodeScope grant with NodesAll => true | NodesSelected _ => false end
  && match g_instanceScope grant with InheritNodeScope => true | InstancesSelected _ => false end.

Definition user_with_status (status : user_status) (archivedAt : option Z) (now : Z) (user : UserAccountRecord)
  : UserAccountRecord :=
  UserAccount (u_id user) (u_displayName user) status (u_lastLoginAt user) archivedAt (u_createdAt user) now.

Definition restoreLocalTrustOperatorIn (userId : jsstring) (now : Z) : M unit :=
  grant ← gets (fun r => grants r !! userId);
  let canonicalGrant := match grant with Some g => canonical_grant g | None => false end in
  _ ← (if canonicalGrant then mret ()
       else grants_put (UserAccessGrant userId [SYSTEM_ROLE_ADMIN] NodesAll InheritNodeScope
                          (default 0 (g_authorizationRevision <$> grant) + 1)%Z
                          (default now (g_createdAt <$> grant)) now));
  user ← gets (fun r => users r !! userId);
  _ ← match user with
      | Some user => if decide (u_status user = UserActive) then mret ()
                     else users_put (user_with_status UserActive None now user)
      | None => mret ()
      end;
  if canonicalGrant then mret () else revokeSessionsIn userId.

Definition local_trust_identity (r : repository) : option LoginIdentityRecord :=
  table_find (fun i => bool_decide (i_kind i = LocalTrust)) (identities r).

(** The roles are ensured before the transaction that gets or creates the
    operator. *)
Definition ensureLocalTrustOperator (userId identityId auditId : jsstring) (now : Z) : M (jsstring * jsstring) :=
  _ ← ensureSystemRoles now;
  transaction (
    existing ← gets local_trust_identity;
    match existing with
    | None => createLocalTrustOperatorIn userId identityId auditId now
    | Some existing =>
        user ← gets (fun r => users r !! i_userId existing);
        match user with
        | None => _ ← identities_delete (i_id existing); createLocalTrustOperatorIn userId identityId auditId now
        | Some _ => _ ← restoreLocalTrustOperatorIn (i_userId existing) now; mret (i_userId existing, i_id existing)
        end
    end).

(** Whether the account was archived by this call. *)
Definition retireLocalTrustAccess (now : Z) : M bool :=
  transaction (
    identity ← gets local_trust_identity;
    match identity with
    | None => mret false
    | Some identity =>
        _ ← revokeSessionsIn (i_userId identity);
        user ← gets (fun r => users r !! i_userId identity);
        match user with
        | None => mret false
        | Some user =>
            if decide (u_status user = UserArchived) then mret false
            else _ ← users_put (user_with_status UserArchived (Some now) now user); mret true
        end
    end).

(** *** Changing users *)

Definition identity_with_login (name : jsstring) (now : Z) (i : LoginIdentityRecord) : LoginIdentityRecord :=
  LoginIdentity (i_id i) (i_userId i) (i_kind i) (Some name) (i_passwordHash i) (i_requiresPasswordChange i)
    (i_providerId i) (i_subject i) (i_verifiedEmail i) (i_lastUsedAt i) (i_createdAt i) now.

Definition identity_with_password (hash : jsstring) (requiresChange : bool) (now : Z) (i : LoginIdentityRecord)
  : LoginIdentityRecord :=
  LoginIdentity (i_id i) (i_userId i) (i_kind i) (i_normalizedLoginName i) (Some hash) requiresChange
    (i_providerId i) (i_subject i) (i_verifiedEmail i) (i_lastUsedAt i) (i_createdAt i) now.

Definition rename_identity (userId : jsstring) (now : Z) (username : jsstring) : M unit :=
  identity ← localIdentity userId;
  identity ← require identity (notFound "identity");
  let normalizedLoginName := normalizeLogin username in
  conflicting ← identities_findByLoginName normalizedLoginName;
  _ ← match conflicting with
      | Some other => assert (bool_decide (i_id other = i_id identity)) (conflict "CONTROL_PLANE_USERNAME_CONFLICT")
      | None => mret ()
      end;
  identities_put (identity_with_login normalizedLoginName now identity).

Definition user_candidate (displayName : option jsstring) (status : option user_status) (now : Z)
    (current : UserAccountRecord) : UserAccountRecord :=
  UserAccount (u_id current) (default (u_displayName current) displayName)
    (default (u_status current) status) (u_lastLoginAt current)
    (match status with
     | Some UserArchived => Some now
     | Some _ => None
     | None => u_archivedAt current
     end) (u_createdAt current) now.

Definition updateUser (userId : jsstring) (now : Z) (displayName username : option jsstring)
    (status : option user_status)
  : M (UserAccountRecord * list LoginIdentityRecord * UserAccessGrantRecord) :=
  _ ← transaction (
    current ← requireUser userId;
    _ ← match username with Some username => rename_identity userId now username | None => mret () end;
    let candidate := user_candidate displayName status now current in
    _ ← assertLoginCapableAdminRemains (LoginProjection (Some (userId, u_status candidate)) None None None);
    _ ← users_put candidate;
    match status with
    | Some status => if decide (status = u_status current) then mret () else bumpAuthorizationRevisionIn userId now
    | None => mret ()
    end);
  detail userId.

Definition setAccess (userId : jsstring) (now : Z) (roleIds : list jsstring) (nodeScope : ControlPlaneUserNodeScope)
    (instanceScope : option ControlPlaneUserInstanceScope) (expectedAuthorizationRevision : Z)
  : M (UserAccountRecord * list LoginIdentityRecord * UserAccessGrantRecord) :=
  _ ← transaction (
    _ ← requireUser userId;
    current ← gets (fun r => grants r !! userId);
    current ← require current (conflict "CONTROL_PLANE_USER_ACCESS_REQUIRED");
    _ ← assert (g_authorizationRevision current =? expectedAuthorizationRevision)%Z
          (conflict "CONTROL_PLANE_AUTHORIZATION_REVISION_CONFLICT");
    _ ← assertActiveRoles roleIds;
    _ ← assertLoginCapableAdminRemains (LoginProjection None (Some (userId, roleIds)) None None);
    _ ← grants_put (grant_access current (unique_sorted roleIds) (normalizeUserNodeScope nodeScope)
          (match instanceScope with Some s => normalizeUserInstanceScope s | None => g_instanceScope current end) now);
    revokeSessionsIn userId);
  detail userId.

Definition resetLocalPassword (userId salt password : jsstring) (requirePasswordChange : bool) (now : Z) : M unit :=
  transaction (
    _ ← requireUser userId;
    identity ← localIdentity userId;
    identity ← require identity (notFound "identity");
    _ ← identities_put (identity_with_password (hashPassword salt password) requirePasswordChange now identity);
    bumpAuthorizationRevisionIn userId now).

(** The account an operator names by id or by login name, or the only one. *)
Definition recovery_target (userId targetUsername : option jsstring) (r : repository)
  : result service_error UserAccountRecord :=
  let all := table_list (users r) in
  let target :=
    if otruthy userId then head (filter (fun u => Some (u_id u) = userId) all)
    else match targetUsername with
         | Some name =>
             if truthy name
             then head (filter (fun u => bool_decide ((localIdentity_in r (u_id u) ≫= i_normalizedLoginName)
                                                      = Some (normalizeLogin name)) = true) all)
             else match all with [user] => Some user | _ => None end
         | None => match all with [user] => Some user | _ => None end
         end in
  match target with
  | Some user => Ok user
  | None => if otruthy userId || otruthy targetUsername then Throw (notFound "user")
            else Throw (conflict "AUTH_ACCOUNT_AMBIGUOUS")
  end.

Definition recoverLocalCredentials (salt : jsstring) (now : Z) (username password : jsstring)
    (userId targetUsername : option jsstring)
  : M (UserAccountRecord * list LoginIdentityRecord * UserAccessGrantRecord) :=
  let normalizedLoginName := normalizeLogin username in
  targetId ← transaction (
    target ← gets (recovery_target userId targetUsername);
    target ← match target with Ok user => mret user | Throw e => throw e end;
    conflicting ← identities_findByLoginName normalizedLoginName;
    _ ← match conflicting with
        | Some other => assert (bool_decide (i_userId other = u_id target)) (conflict "CONTROL_PLANE_USERNAME_CONFLICT")
        | None => mret ()
        end;
    identity ← localIdentity (u_id target);
    identity ← require identity (notFound "identity");
    _ ← identities_put (identity_with_password (hashPassword salt password) false now
                          (identity_with_login normalizedLoginName now identity));
    _ ← bumpAuthorizationRevisionIn (u_id target) now;
    mret (u_id target));
  detail targetId.

Definition unbindExternalIdentity (userId identityId : jsstring) (now : Z) : M unit :=
  transaction (
    user ← requireUser userId;
    identity ← gets (fun r => identities r !! identityId);
    identity ← require identity (notFound "identity");
    _ ← assert (bool_decide (i_userId identity = userId)) (notFound "identity");
    _ ← assert (negb (bool_decide (i_kind identity = LocalPassword))) (conflict "CONTROL_PLANE_LOCAL_IDENTITY_IMMUTABLE");
    let projection := LoginProjection None None (Some identityId) None in
    _ ← assertLoginCapableAdminRemains projection;
    capable ← gets (fun r => hasLoginCapableIdentity r userId projection);
    _ ← assert (negb (bool_decide (u_status user = UserActive)) || capable) (conflict "CONTROL_PLANE_LAST_LOGIN_IDENTITY");
    _ ← identities_delete identityId;
    bumpAuthorizationRevisionIn userId now).

(** *** External identities *)

Definition assertUserManager (actorUserId : jsstring) : M unit :=
  actor ← authorization actorUserId;
  assert (bool_decide (js "users:manage" ∈ az_permissionIds actor)) (ServiceError "CONTROL_PLANE_FORBIDDEN" 403).

Definition decided_approval (status : approval_status) (actorUserId : jsstring) (now : Z)
    (a : ExternalIdentityApprovalRecord) : ExternalIdentityApprovalRecord :=
  ExternalIdentityApproval (ea_id a) (ea_providerId a) (ea_subject a) (ea_verifiedEmail a) (ea_displayName a)
    status (ea_expiresAt a) (Some now) (Some actorUserId) (ea_createdAt a) now.

(** A pending approval before its expiry. *)
Definition open_approval (approvalId : jsstring) (now : Z) : M ExternalIdentityApprovalRecord :=
  approval ← gets (fun r => approvals r !! approvalId);
  approval ← require approval (conflict "CONTROL_PLANE_EXTERNAL_IDENTITY_APPROVAL_INVALID");
  _ ← assert (active_pending now approval) (conflict "CONTROL_PLANE_EXTERNAL_IDENTITY_APPROVAL_INVALID");
  mret approval.

Definition assert_unbound (providerId subject : jsstring) : M unit :=
  bound ← identities_findByProviderSubject providerId subject;
  refuse_taken bound "CONTROL_PLANE_EXTERNAL_IDENTITY_CONFLICT".

Definition approveExternalIdentity (actorUserId approvalId userId identityId : jsstring) (now : Z)
    (displayName : option jsstring) (roleIds : list jsstring) (nodeScope : ControlPlaneUserNodeScope)
    (instanceScope : option ControlPlaneUserInstanceScope)
  : M (UserAccountRecord * list LoginIdentityRecord * UserAccessGrantRecord) :=
  _ ← assertUserManager actorUserId;
  _ ← assertActiveRoles roleIds;
  approval ← open_approval approvalId now;
  provider ← gets (fun r => providers r !! ea_providerId approval);
  provider ← require provider (notFound "identity_provider");
  _ ← assert (bool_decide (p_status provider = ProviderEnabled)) (notFound "identity_provider");
  _ ← assert_unbound (ea_providerId approval) (ea_subject approval);
  let user := UserAccount userId
    (default (js "External user") (oor displayName (oor (ea_displayName approval) (oor (ea_verifiedEmail approval) None))))
    UserActive None None now now in
  let identity := LoginIdentity identityId userId
    (if decide (p_kind provider = ProviderOidc) then Oidc else OAuth) None None false
    (Some (p_id provider)) (Some (ea_subject approval)) (ea_verifiedEmail approval) None now now in
  _ ← transaction (
    currentApproval ← open_approval approvalId now;
    _ ← assert_unbound (ea_providerId approval) (ea_subject approval);
    _ ← assertActiveRoles roleIds;
    _ ← users_put user;
    _ ← identities_put identity;
    _ ← grants_put (first_grant userId roleIds nodeScope instanceScope now);
    approvals_put (decided_approval ApprovalApproved actorUserId now currentApproval));
  detail userId.

Definition rejectExternalIdentity (actorUserId approvalId : jsstring) (now : Z) : M unit :=
  _ ← assertUserManager actorUserId;
  transaction (
    approval ← gets (fun r => approvals r !! approvalId);
    approval ← require approval (notFound "external_identity_approval");
    _ ← assert (bool_decide (ea_status approval = ApprovalPending)) (notFound "external_identity_approval");
    approvals_put (decided_approval ApprovalRejected actorUserId now approval)).

(** *** Roles *)

(** Another active role of that name. *)
Definition role_name_taken (except : option jsstring) (name : jsstring) (r : repository) : bool :=
  existsb (fun role => negb (bool_decide (Some (ro_id role) = except))
                       && bool_decide (toLocaleLowerCase (ro_name role) = toLocaleLowerCase name)
                       && bool_decide (ro_status role = RoleActive)) (table_list (roles r)).

Definition createRole (roleId : jsstring) (now : Z) (name : jsstring) (description : option jsstring)
    (permissionIds : list jsstring) : M RoleDefinitionRecord :=
  transaction (
    taken ← gets (role_name_taken None name);
    _ ← assert (negb taken) (conflict "CONTROL_PLANE_ROLE_NAME_CONFLICT");
    let role := RoleDefinition roleId name description false RoleActive (unique_sorted permissionIds) now now in
    _ ← roles_put lower role;
    mret role).

Definition updateRole (roleId : jsstring) (now : Z) (name description : option jsstring)
    (permissionIds : option (list jsstring)) : M RoleDefinitionRecord :=
  transaction (
    current ← gets (fun r => roles r !! roleId);
    current ← require current (notFound "role");
    _ ← assert (negb (ro_system current)) (conflict "CONTROL_PLANE_SYSTEM_ROLE_IMMUTABLE");
    taken ← gets (fun r => match name with
                           | Some name => truthy name && role_name_taken (Some roleId) name r
                           | None => false
                           end);
    _ ← assert (negb taken) (conflict "CONTROL_PLANE_ROLE_NAME_CONFLICT");
    let changed := RoleDefinition (ro_id current) (default (ro_name current) name)
      (match description with Some d => Some d | None => ro_description current end) (ro_system current)
      (ro_status current) (default (ro_permissionIds current) (unique_sorted <$> permissionIds))
      (ro_createdAt current) now in
    _ ← roles_put lower changed;
    rows ← grants_listByRole roleId;
    _ ← mfor rows (fun grant => _ ← grants_put (bumped_grant grant now); revokeSessionsIn (g_userId grant));
    mret changed).

Definition archiveRole (roleId : jsstring) (now : Z) : M RoleDefinitionRecord :=
  transaction (
    current ← gets (fun r => roles r !! roleId);
    current ← require current (notFound "role");
    _ ← assert (negb (ro_system current)) (conflict "CONTROL_PLANE_SYSTEM_ROLE_IMMUTABLE");
    rows ← grants_listByRole roleId;
    _ ← assert (bool_decide (length rows = 0)) (conflict "CONTROL_PLANE_ROLE_IN_USE");
    let archived := RoleDefinition (ro_id current) (ro_name current) (ro_description current) (ro_system current)
      RoleArchived (ro_permissionIds current) (ro_createdAt current) now in
    _ ← roles_put lower archived;
    mret archived).

(** *** Sessions and scopes *)

Definition revokeSessions (userId : jsstring) : M unit := transaction (revokeSessionsIn userId).

Definition selected_instance (instanceId : jsstring) (grant : UserAccessGrantRecord) : option (list jsstring) :=
  match g_instanceScope grant with
  | InstancesSelected ids => if decide (instanceId ∈ ids) then Some ids else None
  | InheritNodeScope => None
  end.

Definition removeInstanceFromAccessScopes (instanceId : jsstring) (now : Z) : M unit :=
  transaction (
    rows ← gets (fun r => table_list (grants r));
    mfor rows (fun grant =>
      match selected_instance instanceId grant with
      | None => mret ()
      | Some instanceIds =>
          _ ← grants_put (grant_access grant (g_roleIds grant) (g_nodeScope grant)
                (InstancesSelected (filter (fun candidate => candidate <> instanceId) instanceIds)) now);
          revokeSessionsIn (g_userId grant)
      end)).

(** The access of a role by itself, for linked cloud accounts. *)
Definition roleAuthorization (roleId : jsstring) : M (list jsstring * list jsstring * Z) :=
  role ← gets (fun r => active_role r roleId);
  role ← require role (ServiceError "CONTROL_PLANE_ROLE_INACTIVE" 403);
  mret ([ro_id role], js_sort js_compare (ro_permissionIds role), Z.max 1 (ro_updatedAt role)).
End Operations.
