(* ===== verification/AccessLogic.v ===== *)
(** * Reasoning about the access database

    Inversion of successful runs: each primitive has one lemma that says what
    its success means, and [run_inv] takes a run of a whole operation apart
    into those facts. *)

From S2P Require Export UserService.

(** ** Tables *)

Lemma table_list_elem {V} (t : table V) v : v ∈ table_list t <-> exists id, t !! id = Some v.
Proof.
  unfold table_list. rewrite list_elem_of_fmap. split.
  - intros ([id v'] & -> & H%elem_of_map_to_list). eauto.
  - intros [id H]. exists (id, v). split; [done|]. by apply elem_of_map_to_list.
Qed.

Lemma table_exists_true {V} (P : V -> bool) (t : table V) :
  table_exists P t = true <-> exists id v, t !! id = Some v /\ P v = true.
Proof.
  unfold table_exists. rewrite existsb_exists. split.
  - intros (v & Hv%list_elem_of_In & HP). apply table_list_elem in Hv as [id Hv]. eauto.
  - intros (id & v & Hv & HP). exists v. split; [|done]. apply list_elem_of_In, table_list_elem. eauto.
Qed.

Lemma table_forall {V} (P : V -> bool) (t : table V) :
  forallb P (table_list t) = true <-> forall id v, t !! id = Some v -> P v = true.
Proof.
  rewrite forallb_forall. split.
  - intros H id v Hv. apply H, list_elem_of_In, table_list_elem. eauto.
  - intros H v Hv%list_elem_of_In. apply table_list_elem in Hv as [id Hv]. eauto.
Qed.

Lemma table_find_Some {V} (P : V -> bool) (t : table V) v :
  table_find P t = Some v -> (exists id, t !! id = Some v) /\ P v = true.
Proof.
  unfold table_find. intros H%head_Some_elem_of.
  apply list_elem_of_filter in H as [HP Hv]. by apply table_list_elem in Hv.
Qed.

Lemma table_find_None {V} (P : V -> bool) (t : table V) :
  table_find P t = None -> forall id v, t !! id = Some v -> P v = false.
Proof.
  unfold table_find. intros H id v Hv. apply head_None in H.
  destruct (P v) eqn:HP; [|done].
  assert (Hin : v ∈ filter (fun v => P v = true) (table_list t)).
  { apply list_elem_of_filter. split; [done|]. apply table_list_elem. eauto. }
  rewrite H in Hin. set_solver.
Qed.

Lemma identities_of_elem r userId i :
  i ∈ identities_of r userId <-> i_userId i = userId /\ exists id, identities r !! id = Some i.
Proof. unfold identities_of. by rewrite list_elem_of_filter, table_list_elem. Qed.

Lemma localIdentity_in_Some r userId i :
  localIdentity_in r userId = Some i ->
  i_kind i = LocalPassword /\ i_userId i = userId /\ exists id, identities r !! id = Some i.
Proof.
  unfold localIdentity_in. intros H%head_Some_elem_of.
  apply list_elem_of_filter in H as [Hk H]. apply identities_of_elem in H as [Hu H]. done.
Qed.

(** ** Successful runs *)

Section Runs.
Context {A B : Type}.

Lemma mret_ok (a b : A) r r' : (mret a : M A) r = (r', Ok b) -> r' = r /\ b = a.
Proof. by intros [= -> ->]. Qed.

Lemma bind_ok (m : M A) (k : A -> M B) (r r' : repository) b :
  (m ≫= k : M B) r = (r', Ok b) -> exists a r1, m r = (r1, Ok a) /\ k a r1 = (r', Ok b).
Proof. unfold mbind, M_bind. destruct (m r) as [r1 [a|e]]; [eauto|done]. Qed.

Lemma gets_ok (f : repository -> A) (r r' : repository) a : gets f r = (r', Ok a) -> r' = r /\ a = f r.
Proof. by intros [= -> ->]. Qed.

Lemma throw_ok e r r' (a : A) : throw e r = (r', Ok a) -> False.
Proof. done. Qed.

Lemma require_ok (o : option A) e r r' a : require o e r = (r', Ok a) -> r' = r /\ o = Some a.
Proof. destruct o; [|done]. by intros [= -> ->]. Qed.

Lemma transaction_cases (m : M A) r r' x :
  transaction m r = (r', x) ->
  (exists e, x = Throw e /\ r' = r) \/ (exists a, x = Ok a /\ m r = (r', Ok a)).
Proof. unfold transaction. destruct (m r) as [r1 [a|e]]; intros [= <- <-]; eauto. Qed.

Lemma transaction_ok (m : M A) r r' a : transaction m r = (r', Ok a) -> m r = (r', Ok a).
Proof. unfold transaction. by destruct (m r) as [r1 [b|e]]. Qed.
End Runs.

Lemma modify_ok f r r' a : modify f r = (r', Ok a) -> r' = f r.
Proof. by intros [= ->]. Qed.

Lemma assert_ok b e r r' a : assert b e r = (r', Ok a) -> r' = r /\ b = true.
Proof. destruct b; [|done]. by intros [= <- _]. Qed.

(** Take a successful run apart. *)
Ltac run_step H :=
  lazymatch type of H with
  | @mret _ _ _ _ _ = (_, Ok _) => apply mret_ok in H as [? ?]; subst
  | @mbind _ _ _ _ _ _ _ = (_, Ok _) =>
      let a := fresh "x" in let r1 := fresh "r" in let H1 := fresh "Hrun" in
      apply bind_ok in H as (a & r1 & H1 & H); try run_step H1; try run_step H
  | gets _ _ = (_, Ok _) => apply gets_ok in H as [? ?]; subst
  | modify _ _ = (_, Ok _) => apply modify_ok in H; subst
  | assert _ _ _ = (_, Ok _) => apply assert_ok in H as [? H]; subst
  | require _ _ _ = (_, Ok _) => apply require_ok in H as [? H]; subst
  | throw _ _ = (_, Ok _) => by apply throw_ok in H
  | transaction _ _ = (_, Ok _) => apply transaction_ok in H; try run_step H
  end.
Ltac run_inv H := cbv beta in H; run_step H; cbv beta in *; subst.

(** ** What the primitives do when they succeed *)

Lemma users_put_ok u r r' x :
  users_put u r = (r', Ok x) -> UserAccountRecordSchema u = true /\ r' = with_users <[u_id u := u]> r.
Proof. intros H. unfold users_put in H. run_inv H. done. Qed.

Lemma identities_put_ok i r r' x :
  identities_put i r = (r', Ok x) ->
  LoginIdentityRecordSchema i = true /\ is_Some (users r !! i_userId i) /\ identity_indexes i r = true
  /\ r' = with_identities <[i_id i := i]> r.
Proof. intros H. unfold identities_put in H. run_inv H. propify. done. Qed.

Lemma identities_delete_ok id r r' x :
  identities_delete id r = (r', Ok x) ->
  r' = with_identities (delete id) (with_sessions (filter (fun e => s_identityId e.2 <> id)) r).
Proof. intros H. unfold identities_delete in H. run_inv H. done. Qed.

Lemma grants_put_ok g r r' x :
  grants_put g r = (r', Ok x) ->
  UserAccessGrantRecordSchema g = true /\ is_Some (users r !! g_userId g)
  /\ (forall id, id ∈ g_roleIds g -> is_Some (roles r !! id)) /\ NoDup (g_roleIds g)
  /\ r' = with_grants <[g_userId g := stored_grant g]> r.
Proof.
  intros H. unfold grants_put in H. run_inv H. propify.
  split_and!; try done. intros id Hid.
  match goal with Hf : forallb _ _ = true |- _ => rewrite forallb_forall in Hf; specialize (Hf id) end.
  rewrite <- list_elem_of_In in *. eapply bool_decide_eq_true. auto.
Qed.

Lemma sessions_put_ok user s r r' x :
  sessions_put user s r = (r', Ok x) ->
  UserSessionRecordSchema s = true /\ session_user r s = Some user /\ r' = with_sessions <[s_id s := s]> r.
Proof. intros H. unfold sessions_put in H. run_inv H. propify. done. Qed.

Lemma sessions_delete_ok id r r' x :
  sessions_delete id r = (r', Ok x) -> r' = with_sessions (delete id) r.
Proof. intros H. unfold sessions_delete in H. run_inv H. done. Qed.

Lemma roles_put_ok lower ro r r' x :
  roles_put lower ro r = (r', Ok x) -> role_index lower ro r = true /\ r' = with_roles <[ro_id ro := ro]> r.
Proof. intros H. unfold roles_put in H. run_inv H. done. Qed.

Lemma approvals_put_ok a r r' x :
  approvals_put a r = (r', Ok x) -> r' = with_approvals <[ea_id a := a]> r.
Proof. intros H. unfold approvals_put in H. run_inv H. done. Qed.

Lemma requireUser_ok userId r r' u :
  requireUser userId r = (r', Ok u) -> r' = r /\ users r !! userId = Some u.
Proof. intros H. unfold requireUser in H. run_inv H. done. Qed.

Lemma refuse_taken_ok {A} (o : option A) code r r' x : refuse_taken o code r = (r', Ok x) -> r' = r /\ o = None.
Proof. destruct o; simpl; intros H; run_inv H; done. Qed.

(** A loop that only tests. *)
Lemma mfor_test {A} (l : list A) (f : A -> M unit) (P : repository -> A -> Prop) r r' x :
  (forall a r r' x, f a r = (r', Ok x) -> r' = r /\ P r a) ->
  mfor l f r = (r', Ok x) -> r' = r /\ Forall (P r) l.
Proof.
  intros Hf. induction l as [|a l IH]; simpl; intros H.
  - run_inv H. done.
  - apply bind_ok in H as ([] & r1 & H1 & H). apply Hf in H1 as [-> HP]. apply IH in H as [-> HF].
    split; [done|]. by constructor.
Qed.

Lemma assertActiveRoles_ok roleIds r r' x :
  assertActiveRoles roleIds r = (r', Ok x) ->
  r' = r /\ NoDup roleIds /\ forall id, id ∈ roleIds -> is_Some (active_role r id).
Proof.
  intros H. unfold assertActiveRoles in H. apply bind_ok in H as ([] & r1 & H1 & H). run_inv H1.
  apply (mfor_test _ _ (fun r id => is_Some (active_role r id))) in H as [-> HF].
  - split; [done|]. apply Nat.eqb_eq in H1. rewrite Forall_forall in HF.
    split; [|intros id Hid; apply HF; by apply elem_of_remove_dups].
    apply NoDup_ListNoDup, (List.NoDup_incl_NoDup (l := remove_dups roleIds)).
    + apply NoDup_ListNoDup, NoDup_remove_dups.
    + by rewrite H1.
    + intros y. rewrite <- !list_elem_of_In. by rewrite elem_of_remove_dups.
  - intros id r1 r2 [] Hr. apply bind_ok in Hr as (role & r3 & H2 & Hr). run_inv H2.
    destruct (active_role r1 id) eqn:E; [|done]. run_inv Hr. done.
Qed.
