(* ===== verification/AccessInvariant.v ===== *)
(** * The specification of the access database

    [access_change] lists the changes the services may make to the access
    database, as relations between the database before and after; the
    invariant [access_inv] and the guarantees about administrators, sessions
    and revisions are proved of every change.  [UserServiceRefine] and
    [UserSessionsRefine] show that the operations make no other changes. *)

From S2P Require Export AccessLogic.

(** ** The invariant *)

(** The permissions of a built-in role. *)
Definition system_permissions (roleId : jsstring) : option (list jsstring) :=
  if decide (roleId = SYSTEM_ROLE_ADMIN) then Some admin_permissions
  else if decide (roleId = SYSTEM_ROLE_OPERATOR) then Some operator_permissions
  else if decide (roleId = SYSTEM_ROLE_VIEWER) then Some viewer_permissions
  else None.

(** Built-in roles are active with their permissions, other roles are not
    system roles. *)
Definition role_ok (role : RoleDefinitionRecord) : Prop :=
  match system_permissions (ro_id role) with
  | Some permissions => ro_system role = true /\ ro_status role = RoleActive /\ ro_permissionIds role = permissions
  | None => ro_system role = false
  end.

(** Identities that a unique index tells apart. *)
Definition identity_clash (i j : LoginIdentityRecord) : Prop :=
  (exists n, i_normalizedLoginName i = Some n /\ i_normalizedLoginName j = Some n)
  \/ (exists p s, i_providerId i = Some p /\ i_subject i = Some s
                 /\ i_providerId j = Some p /\ i_subject j = Some s).

Record access_inv (r : repository) : Prop := AccessInv {
  ai_user_key id u : users r !! id = Some u -> u_id u = id;
  ai_identity_key id i : identities r !! id = Some i -> i_id i = id;
  ai_role_key id ro : roles r !! id = Some ro -> ro_id ro = id;
  ai_grant_key id g : grants r !! id = Some g -> g_userId g = id;
  ai_session_key id s : sessions r !! id = Some s -> s_id s = id;
  ai_provider_key id p : providers r !! id = Some p -> p_id p = id;
  ai_user_schema id u : users r !! id = Some u -> UserAccountRecordSchema u = true;
  ai_identity_schema id i : identities r !! id = Some i -> LoginIdentityRecordSchema i = true;
  ai_identity_user id i : identities r !! id = Some i -> is_Some (users r !! i_userId i);
  ai_one_identity id i id' j :
    identities r !! id = Some i -> identities r !! id' = Some j -> i_userId i = i_userId j -> id = id';
  ai_unique id i id' j :
    identities r !! id = Some i -> identities r !! id' = Some j -> identity_clash i j -> id = id';
  ai_one_local_trust id i id' j :
    identities r !! id = Some i -> identities r !! id' = Some j -> i_kind i = LocalTrust -> i_kind j = LocalTrust -> id = id';
  ai_session_identity id s : sessions r !! id = Some s -> is_Some (identities r !! s_identityId s);
  ai_session_current id s userId :
    sessions r !! id = Some s -> session_user r s = Some userId ->
    exists u g, users r !! userId = Some u /\ u_status u = UserActive
      /\ grants r !! userId = Some g /\ g_authorizationRevision g = s_authorizationRevision s;
  ai_user_grant id u : users r !! id = Some u -> is_Some (grants r !! id);
  ai_grant_user id g : grants r !! id = Some g -> is_Some (users r !! id);
  ai_grant_roles id g roleId :
    grants r !! id = Some g -> roleId ∈ g_roleIds g -> is_Some (active_role r roleId);
  ai_grant_revision id g : grants r !! id = Some g -> (0 < g_authorizationRevision g)%Z;
  ai_role id ro : roles r !! id = Some ro -> role_ok ro
}.

(** ** Administrators *)

Definition login_capable (r : repository) (i : LoginIdentityRecord) : Prop :=
  identity_login_capable r no_projection i = true.

(** An active administrator who can sign in. *)
Definition has_admin (r : repository) : Prop :=
  exists u g i, users r !! u_id u = Some u /\ u_status u = UserActive
    /\ grants r !! u_id u = Some g /\ SYSTEM_ROLE_ADMIN ∈ g_roleIds g
    /\ identities r !! i_id i = Some i /\ i_userId i = u_id u /\ login_capable r i.

(** ** Changes *)

(** The sessions that stay when those of some users are revoked. *)
Definition revoked_session (r : repository) (revoked : jsstring -> bool) (s : UserSessionRecord) : bool :=
  match session_user r s with Some u => revoked u | None => false end.
Definition sessions_revoked (r : repository) (revoked : jsstring -> bool) : table UserSessionRecord :=
  filter (fun e => revoked_session r revoked e.2 = false) (sessions r).

(** The same identity up to its login name, password and times. *)
Record same_identity (i i' : LoginIdentityRecord) : Prop := SameIdentity {
  si_id : i_id i' = i_id i;
  si_user : i_userId i' = i_userId i;
  si_kind : i_kind i' = i_kind i;
  si_provider : i_providerId i' = i_providerId i;
  si_subject : i_subject i' = i_subject i
}.

Definition local_trust_user (r : repository) (userId : jsstring) : Prop :=
  exists id i, identities r !! id = Some i /\ i_kind i = LocalTrust /\ i_userId i = userId.

Definition active_roles (r : repository) (g : UserAccessGrantRecord) : Prop :=
  forall id, id ∈ g_roleIds g -> is_Some (active_role r id).

(** The grants after the revision of every holder of a role is advanced. *)
Definition bumped_holder (roleId : jsstring) (now : Z) (g : UserAccessGrantRecord) : UserAccessGrantRecord :=
  if decide (roleId ∈ g_roleIds g) then stored_grant (bumped_grant g now) else g.

Definition holds_role (r : repository) (roleId u : jsstring) : bool :=
  bool_decide (roleId ∈ default [] (g_roleIds <$> grants r !! u)).

Inductive access_change (r r' : repository) : Prop :=
| change_create u i g
    (Hu : users r !! u_id u = None) (Hi : identities r !! i_id i = None)
    (Hiu : i_userId i = u_id u) (Hgu : g_userId g = u_id u)
    (Hsu : UserAccountRecordSchema u = true) (Hsi : LoginIdentityRecordSchema i = true)
    (Hidx : identity_indexes i r = true) (Hroles : active_roles r g) (Hrev : g_authorizationRevision g = 1%Z)
    (Htrust : i_kind i = LocalTrust -> forall id j, identities r !! id = Some j -> i_kind j <> LocalTrust)
    (Eu : users r' = <[u_id u := u]> (users r)) (Ei : identities r' = <[i_id i := i]> (identities r))
    (Eg : grants r' = <[u_id u := g]> (grants r)) (Er : roles r' = roles r)
    (Es : sessions r' = sessions r) (Ep : providers r' = providers r)
| change_profile u u'
    (Hu : users r !! u_id u = Some u) (Hid : u_id u' = u_id u) (Hst : u_status u' = u_status u)
    (Hsu : UserAccountRecordSchema u' = true)
    (Eu : users r' = <[u_id u := u']> (users r)) (Ei : identities r' = identities r)
    (Eg : grants r' = grants r) (Er : roles r' = roles r)
    (Es : sessions r' = sessions r) (Ep : providers r' = providers r)
| change_identity i i'
    (Hi : identities r !! i_id i = Some i) (Hsame : same_identity i i')
    (Hsi : LoginIdentityRecordSchema i' = true) (Hidx : identity_indexes i' r = true)
    (Eu : users r' = users r) (Ei : identities r' = <[i_id i := i']> (identities r))
    (Eg : grants r' = grants r) (Er : roles r' = roles r)
    (Es : sessions r' = sessions r) (Ep : providers r' = providers r)
| change_access u u' g g'
    (Hu : users r !! u_id u = Some u) (Hid : u_id u' = u_id u) (Hsu : UserAccountRecordSchema u' = true)
    (Hg : grants r !! u_id u = Some g) (Hgu : g_userId g' = u_id u)
    (Hrev : g_authorizationRevision g' = (g_authorizationRevision g + 1)%Z) (Hroles : active_roles r g')
    (Eu : users r' = <[u_id u := u']> (users r)) (Ei : identities r' = identities r)
    (Eg : grants r' = <[u_id u := g']> (grants r)) (Er : roles r' = roles r)
    (Es : sessions r' = sessions_revoked r (fun x => bool_decide (x = u_id u))) (Ep : providers r' = providers r)
    (Hadmin : has_admin r -> has_admin r')
| change_retire u u'
    (Hu : users r !! u_id u = Some u) (Hid : u_id u' = u_id u) (Hsu : UserAccountRecordSchema u' = true)
    (Hlocal : local_trust_user r (u_id u))
    (Eu : users r' = <[u_id u := u']> (users r)) (Ei : identities r' = identities r)
    (Eg : grants r' = grants r) (Er : roles r' = roles r)
    (Es : sessions r' = sessions_revoked r (fun x => bool_decide (x = u_id u))) (Ep : providers r' = providers r)
| change_activate u u'
    (Hu : users r !! u_id u = Some u) (Hid : u_id u' = u_id u) (Hsu : UserAccountRecordSchema u' = true)
    (Hlocal : local_trust_user r (u_id u)) (Hst : u_status u <> UserActive) (Hst' : u_status u' = UserActive)
    (Eu : users r' = <[u_id u := u']> (users r)) (Ei : identities r' = identities r)
    (Eg : grants r' = grants r) (Er : roles r' = roles r)
    (Es : sessions r' = sessions r) (Ep : providers r' = providers r)
| change_unbind i
    (Hi : identities r !! i_id i = Some i)
    (Eu : users r' = users r) (Ei : identities r' = delete (i_id i) (identities r))
    (Eg : grants r' = grants r) (Er : roles r' = roles r)
    (Es : sessions r' = filter (fun e => s_identityId e.2 <> i_id i) (sessions r)) (Ep : providers r' = providers r)
    (Hadmin : has_admin r -> has_admin r')
| change_role_put ro
    (Hok : role_ok ro)
    (Hold : roles r !! ro_id ro = None \/
            exists old, roles r !! ro_id ro = Some old /\ ro_status old = ro_status ro
                        /\ ro_permissionIds old = ro_permissionIds ro)
    (Eu : users r' = users r) (Ei : identities r' = identities r)
    (Eg : grants r' = grants r) (Er : roles r' = <[ro_id ro := ro]> (roles r))
    (Es : sessions r' = sessions r) (Ep : providers r' = providers r)
| change_role_update old ro now
    (Hold : roles r !! ro_id ro = Some old) (Hok : role_ok ro) (Hst : ro_status ro = ro_status old)
    (Eu : users r' = users r) (Ei : identities r' = identities r)
    (Eg : grants r' = bumped_holder (ro_id ro) now <$> grants r) (Er : roles r' = <[ro_id ro := ro]> (roles r))
    (Es : sessions r' = sessions_revoked r (holds_role r (ro_id ro))) (Ep : providers r' = providers r)
| change_role_archive ro
    (Hok : role_ok ro) (Hunused : forall id g, grants r !! id = Some g -> ro_id ro ∉ g_roleIds g)
    (Eu : users r' = users r) (Ei : identities r' = identities r)
    (Eg : grants r' = grants r) (Er : roles r' = <[ro_id ro := ro]> (roles r))
    (Es : sessions r' = sessions r) (Ep : providers r' = providers r)
| change_sessions_drop (keep : jsstring * UserSessionRecord -> Prop) `{!forall e, Decision (keep e)}
    (Eu : users r' = users r) (Ei : identities r' = identities r)
    (Eg : grants r' = grants r) (Er : roles r' = roles r)
    (Es : sessions r' = filter keep (sessions r)) (Ep : providers r' = providers r)
| change_session_new s userId u g
    (Hfresh : sessions r !! s_id s = None) (Hs : session_user r s = Some userId)
    (Hu : users r !! userId = Some u) (Hst : u_status u = UserActive)
    (Hg : grants r !! userId = Some g) (Hrev : s_authorizationRevision s = g_authorizationRevision g)
    (Eu : users r' = users r) (Ei : identities r' = identities r)
    (Eg : grants r' = grants r) (Er : roles r' = roles r)
    (Es : sessions r' = <[s_id s := s]> (sessions r)) (Ep : providers r' = providers r)
| change_session_renew s s'
    (Hs : sessions r !! s_id s = Some s) (Hid : s_id s' = s_id s) (Hi : s_identityId s' = s_identityId s)
    (Hrev : s_authorizationRevision s' = s_authorizationRevision s)
    (Eu : users r' = users r) (Ei : identities r' = identities r)
    (Eg : grants r' = grants r) (Er : roles r' = roles r)
    (Es : sessions r' = <[s_id s := s']> (sessions r)) (Ep : providers r' = providers r)
| change_providers
    (Eu : users r' = users r) (Ei : identities r' = identities r)
    (Eg : grants r' = grants r) (Er : roles r' = roles r)
    (Es : sessions r' = sessions r) (Hpk : forall id p, providers r' !! id = Some p -> p_id p = id)
    (Hadmin : has_admin r -> has_admin r').

(** ** Frame lemmas *)

Lemma active_role_eq r r' id : roles r' = roles r -> active_role r' id = active_role r id.
Proof. unfold active_role. by intros ->. Qed.

Lemma session_user_eq r r' s : identities r' = identities r -> session_user r' s = session_user r s.
Proof. unfold session_user. by intros ->. Qed.

Lemma active_role_insert r r' ro id :
  roles r' = <[ro_id ro := ro]> (roles r) ->
  active_role r' id = if decide (id = ro_id ro) then (if decide (ro_status ro = RoleActive) then Some ro else None)
                      else active_role r id.
Proof.
  unfold active_role. intros ->. case_decide as Hid; [subst|].
  - by rewrite lookup_insert_eq.
  - by rewrite lookup_insert_ne by done.
Qed.

Lemma is_Some_insert {V} (t : table V) id id' v : is_Some (t !! id) -> is_Some (<[id' := v]> t !! id).
Proof. rewrite lookup_insert_is_Some'. eauto. Qed.

Lemma identity_indexes_spec i r :
  access_inv r -> identity_indexes i r = true ->
  forall id j, identities r !! id = Some j -> id <> i_id i ->
    ~ identity_clash i j.
Proof.
  intros Hinv Hidx id j Hj Hne Hclash. unfold identity_indexes in Hidx.
  rewrite table_forall in Hidx. specialize (Hidx _ _ Hj).
  rewrite (ai_identity_key _ Hinv _ _ Hj) in Hidx.
  rewrite bool_decide_false in Hidx by done. simpl in Hidx.
  apply andb_true_iff in Hidx as [Hlogin%negb_true_iff Hsubject%negb_true_iff].
  destruct Hclash as [(n & Hn & Hn')|(p & s & Hp & Hs & Hp' & Hs')].
  - rewrite Hn in Hlogin. unfold same_login_name in Hlogin. by propify.
  - rewrite Hp, Hs in Hsubject. unfold same_provider_subject in Hsubject.
    rewrite Hp', bool_decide_true in Hsubject by done. simpl in Hsubject. by propify.
Qed.

Lemma identity_clash_sym i j : identity_clash i j -> identity_clash j i.
Proof. unfold identity_clash. naive_solver. Qed.

Lemma revoked_session_true r revoked s :
  revoked_session r revoked s = true <-> exists u, session_user r s = Some u /\ revoked u = true.
Proof. unfold revoked_session. destruct (session_user r s); naive_solver. Qed.

Lemma sessions_revoked_lookup r revoked id s :
  sessions_revoked r revoked !! id = Some s <->
  sessions r !! id = Some s /\ (forall u, session_user r s = Some u -> revoked u = false).
Proof.
  unfold sessions_revoked. rewrite map_lookup_filter_Some; simpl. unfold revoked_session.
  destruct (session_user r s) as [u|]; naive_solver.
Qed.

Lemma session_owner r id s :
  access_inv r -> sessions r !! id = Some s -> exists u, session_user r s = Some u.
Proof.
  intros Hinv Hs. destruct (ai_session_identity _ Hinv _ _ Hs) as [i Hi].
  unfold session_user. rewrite Hi. eauto.
Qed.

(** Lookups in an updated table. *)
Ltac table_inv :=
  repeat match goal with
  | H : <[_ := _]> _ !! _ = Some _ |- _ => apply lookup_insert_Some in H as [[? ?]|[? ?]]
  | H : delete _ _ !! _ = Some _ |- _ => apply lookup_delete_Some in H as [? ?]
  | H : filter _ _ !! _ = Some _ |- _ => apply map_lookup_filter_Some in H as [? ?]
  | H : sessions_revoked _ _ !! _ = Some _ |- _ => apply sessions_revoked_lookup in H as [? ?]
  | H : (_ <$> _) !! _ = Some _ |- _ => rewrite lookup_fmap in H; apply fmap_Some in H as (? & ? & ?)
  end; simplify_eq/=.

(** A session that stays keeps its user. *)
Lemma change_session_user r r' id s :
  access_change r r' -> access_inv r -> sessions r !! id = Some s -> sessions r' !! id = Some s ->
  session_user r' s = session_user r s.
Proof.
  intros Hc Hinv Hs Hs'. unfold session_user.
  destruct (ai_session_identity _ Hinv _ _ Hs) as [j Hj].
  destruct Hc; rewrite ?Ei, ?Es in *; try done.
  - rewrite lookup_insert_ne; [done|congruence].
  - destruct (decide (i_id i = s_identityId s)) as [E|]; [|by rewrite lookup_insert_ne].
    rewrite E, lookup_insert_eq, Hj. rewrite <- E, Hi in Hj. injection Hj as <-. simpl. by rewrite (si_user _ _ Hsame).
  - table_inv. by rewrite lookup_delete_ne.
Qed.

Lemma authorization_ok r r' userId az :
  authorization userId r = (r', Ok az) ->
  r' = r /\ exists u g, users r !! userId = Some u /\ u_status u = UserActive /\ grants r !! userId = Some g
    /\ (forall id, id ∈ g_roleIds g -> is_Some (active_role r id))
    /\ az = UserAuthorization userId (g_roleIds g) (unique_sorted (omap (active_role r) (g_roleIds g) ≫= ro_permissionIds))
              (g_nodeScope g) (g_instanceScope g) (g_authorizationRevision g).
Proof.
  intros H. unfold authorization in H. run_inv H. apply requireUser_ok in Hrun as [-> Hu]. propify.
  split; [done|]. eexists _, _. split_and!; try done. clear Hu.
  match goal with H : context [length (omap _ _) =? _] |- _ => apply Nat.eqb_eq in H; revert H | H : length (omap _ _) = _ |- _ => revert H end.
  match goal with |- context [omap _ ?roleIds] => generalize roleIds end. intros l. induction l as [|a l IH]; [set_solver|].
  simpl. intros Hl id. destruct (active_role r a) eqn:E; simpl in Hl; fold (omap (active_role r) l) in Hl.
  - intros [->|Hid]%elem_of_cons; [eauto|]. apply IH; [by injection Hl|done].
  - pose proof (length_omap_le (active_role r) l) as Hle. rewrite Hl in Hle. by apply Nat.nle_succ_diag_l in Hle.
Qed.

(** ** Every change keeps the invariant *)

Lemma is_Some_active_role r id :
  is_Some (active_role r id) <-> exists ro, roles r !! id = Some ro /\ ro_status ro = RoleActive.
Proof.
  unfold active_role. destruct (roles r !! id) as [ro|]; simpl; [|by split; [intros []|naive_solver]].
  case_decide; split; try (by intros []); naive_solver.
Qed.

(** Roles that grants hold stay active. *)
Lemma change_active_role r r' id g roleId :
  access_change r r' -> access_inv r -> grants r !! id = Some g -> roleId ∈ g_roleIds g ->
  is_Some (active_role r' roleId).
Proof.
  intros Hc Hinv Hg Hin. pose proof (ai_grant_roles _ Hinv _ _ _ Hg Hin) as Hold0.
  rewrite is_Some_active_role in *. destruct Hold0 as (ro0 & Hro0 & Hst0).
  destruct Hc; rewrite ?Er; eauto.
  - destruct (decide (roleId = ro_id ro)) as [->|]; [rewrite lookup_insert_eq|rewrite lookup_insert_ne by done; eauto].
    destruct Hold as [|(old & Ho & Hst & _)]; [congruence|]. exists ro. split; congruence.
  - destruct (decide (roleId = ro_id ro)) as [->|]; [rewrite lookup_insert_eq|rewrite lookup_insert_ne by done; eauto].
    exists ro. split; congruence.
  - destruct (decide (roleId = ro_id ro)) as [->|]; [|rewrite lookup_insert_ne by done; eauto].
    by destruct (Hunused _ _ Hg).
Qed.

Lemma stored_grant_roles g id : id ∈ g_roleIds (stored_grant g) <-> id ∈ g_roleIds g.
Proof. unfold stored_grant; simpl. by rewrite js_sort_perm. Qed.

Lemma bumped_holder_roles roleId now g id : id ∈ g_roleIds (bumped_holder roleId now g) <-> id ∈ g_roleIds g.
Proof. unfold bumped_holder. case_decide; [|done]. by rewrite stored_grant_roles. Qed.

Lemma change_grant_roles r r' id g roleId :
  access_change r r' -> access_inv r -> grants r' !! id = Some g -> roleId ∈ g_roleIds g ->
  is_Some (active_role r' roleId).
Proof.
  intros Hc Hinv Hg Hin. pose proof Hc as Hc0.
  destruct Hc; rewrite Eg in Hg; table_inv; try (by eapply change_active_role; eauto).
  - rewrite (active_role_eq r); auto.
  - rewrite (active_role_eq r); auto.
  - rewrite bumped_holder_roles in Hin. eauto using change_active_role.
Qed.

Lemma change_session_current r r' id s userId :
  access_change r r' -> access_inv r -> sessions r' !! id = Some s -> session_user r' s = Some userId ->
  exists u g, users r' !! userId = Some u /\ u_status u = UserActive
    /\ grants r' !! userId = Some g /\ g_authorizationRevision g = s_authorizationRevision s.
Proof.
  intros Hc Hinv Hs' Hus. pose proof Hc as Hc0.
  assert (Hkeep : sessions r !! id = Some s ->
    session_user r s = Some userId /\ exists u g, users r !! userId = Some u /\ u_status u = UserActive
    /\ grants r !! userId = Some g /\ g_authorizationRevision g = s_authorizationRevision s).
  { intros Hs. rewrite (change_session_user _ _ _ _ Hc0 Hinv Hs Hs') in Hus. split; [done|].
    by apply (ai_session_current _ Hinv id). }
  destruct Hc; rewrite ?Es in Hs'; table_inv;
    try match goal with H : sessions r !! ?id = Some ?s |- _ =>
      destruct (Hkeep H) as (Hown & u1 & g1 & Hu1 & Hst1 & Hg1 & Hr1) end;
    rewrite ?Eu, ?Eg.
  - exists u1, g1. rewrite !lookup_insert_ne by congruence. done.
  - destruct (decide (u_id u = userId)) as [<-|]; [|rewrite lookup_insert_ne by done; eauto 10].
    rewrite lookup_insert_eq. exists u', g1. rewrite Hst. split_and!; congruence.
  - eauto 10.
  - assert (userId <> u_id u) as Hne.
    { match goal with H : forall u, _ -> bool_decide _ = false |- _ => specialize (H _ Hown) end. by propify. }
    rewrite !lookup_insert_ne by done. eauto 10.
  - assert (userId <> u_id u) as Hne.
    { match goal with H : forall u, _ -> bool_decide _ = false |- _ => specialize (H _ Hown) end. by propify. }
    rewrite !lookup_insert_ne by done. eauto 10.
  - rewrite lookup_insert_ne by congruence. eauto 10.
  - eauto 10.
  - eauto 10.
  - match goal with H : forall u, _ -> holds_role _ _ _ = false |- _ => specialize (H _ Hown) end.
    unfold holds_role in *. rewrite Hg1 in *; simpl in *. propify.
    exists u1, g1. rewrite lookup_fmap, Hg1; simpl. unfold bumped_holder. rewrite decide_False by done. done.
  - eauto 10.
  - eauto 10.
  - rewrite (session_user_eq r) in Hus by done. rewrite Hs in Hus. simplify_eq.
    eauto 10.
  - eauto 10.
  - match type of Hid with s_id ?new = _ => assert (session_user r' new = session_user r s0) as Hsame end.
    { unfold session_user. by rewrite Ei, Hi. }
    rewrite Hsame in Hus. destruct (ai_session_current _ Hinv _ _ _ Hs Hus) as (u & g & Hcur).
    rewrite Hrev. eauto.
  - eauto 10.
  - eauto 10.
Qed.

(** Two rows of the identity table after a change are the rows before it, or
    one of them is the row the change put. *)
Lemma change_one_identity r r' id i id' j :
  access_change r r' -> access_inv r -> identities r' !! id = Some i -> identities r' !! id' = Some j ->
  i_userId i = i_userId j -> id = id'.
Proof.
  intros Hc Hinv Hi' Hj' Hu'. pose proof (fun k x => ai_identity_user _ Hinv k x) as Howner.
  destruct Hc; rewrite ?Ei in *; table_inv; try done; try (by eapply ai_one_identity; eauto).
  - match goal with H : identities r !! ?k = Some ?x |- _ => destruct (Howner k x H) as [? Hx] end. congruence.
  - match goal with H : identities r !! ?k = Some ?x |- _ => destruct (Howner k x H) as [? Hx] end. congruence.
  - eapply ai_one_identity; eauto. rewrite (si_user _ _ Hsame) in Hu'. done.
  - eapply ai_one_identity; eauto. rewrite (si_user _ _ Hsame) in Hu'. done.
Qed.

Lemma change_unique r r' id i id' j :
  access_change r r' -> access_inv r -> identities r' !! id = Some i -> identities r' !! id' = Some j ->
  identity_clash i j -> id = id'.
Proof.
  intros Hc Hinv Hi' Hj' Hclash. destruct (decide (id = id')) as [|Hne]; [done|]. exfalso.
  destruct Hc; rewrite ?Ei in *; table_inv; try (by apply Hne, (ai_unique _ Hinv _ i _ j)); try done;
  match goal with
       | H : identities ?t !! ?k = Some ?x, Hx : identity_indexes ?y ?t = true |- _ =>
           apply (identity_indexes_spec y t Hinv Hx k x); [exact H| |first [exact Hclash | by apply identity_clash_sym]]
       end; try rewrite (si_id _ _ Hsame); congruence.
Qed.

Lemma change_one_local_trust r r' id i id' j :
  access_change r r' -> access_inv r -> identities r' !! id = Some i -> identities r' !! id' = Some j ->
  i_kind i = LocalTrust -> i_kind j = LocalTrust -> id = id'.
Proof.
  intros Hc Hinv Hi' Hj' Hki Hkj. destruct Hc; rewrite ?Ei in *; table_inv; try done;
    try (by eapply ai_one_local_trust; eauto).
  - exfalso. eapply Htrust; [|eassumption|]; assumption.
  - exfalso. eapply Htrust; [|eassumption|]; assumption.
  - rewrite (si_kind _ _ Hsame) in *. by eapply ai_one_local_trust; eauto.
  - rewrite (si_kind _ _ Hsame) in *. by eapply ai_one_local_trust; eauto.
Qed.

Lemma bumped_holder_user roleId now g : g_userId (bumped_holder roleId now g) = g_userId g.
Proof. unfold bumped_holder. by case_decide. Qed.

Lemma bumped_holder_revision roleId now g :
  g_authorizationRevision (bumped_holder roleId now g)
  = (g_authorizationRevision g + if decide (roleId ∈ g_roleIds g) then 1 else 0)%Z.
Proof. unfold bumped_holder. case_decide; simpl; lia. Qed.

Lemma change_inv r r' : access_change r r' -> access_inv r -> access_inv r'.
Proof.
  intros Hc Hinv. pose proof Hc as Hc0.
  constructor; intros; try (by eapply change_one_identity; eauto); try (by eapply change_unique; eauto);
    try (by eapply change_one_local_trust; eauto);
    try (by eapply change_grant_roles; eauto); try (by eapply change_session_current; eauto).
  all: destruct Hc; rewrite ?Eu, ?Ei, ?Eg, ?Er, ?Es, ?Ep in *; table_inv;
    try (by eapply ai_user_key; eauto); try (by eapply ai_identity_key; eauto); try (by eapply ai_role_key; eauto);
    try (by eapply ai_grant_key; eauto); try (by eapply ai_session_key; eauto); try (by eapply ai_provider_key; eauto);
    try (by apply Hpk);
    try (by eapply ai_user_schema; eauto); try (by eapply ai_identity_schema; eauto);
    try (by eapply ai_identity_user; eauto); try (by eapply ai_session_identity; eauto);
    try (by eapply ai_user_grant; eauto);try (by eapply ai_grant_user; eauto);
    try (by eapply ai_grant_revision; eauto); try (by eapply ai_role; eauto);
    try done;
    try match goal with |- is_Some (<[_ := _]> _ !! _) =>
      first [by rewrite lookup_insert_eq; eauto | by rewrite Hiu, lookup_insert_eq; eauto | apply is_Some_insert] end;
    try (by eapply ai_identity_user; eauto); try (by eapply ai_session_identity; eauto);
    try (by eapply ai_user_grant; eauto); try (by eapply ai_grant_user; eauto).
  - by apply si_id.
  - rewrite bumped_holder_user. by eapply ai_grant_key.
  - rewrite (si_user _ _ Hsame). by eapply ai_identity_user.
  - rewrite lookup_delete_ne by congruence. by eapply ai_session_identity.
  - unfold session_user in Hs. destruct (identities r !! s_identityId s); [eauto|done].
  - match type of Hs with sessions _ !! _ = Some ?old =>
      match goal with |- is_Some (_ !! s_identityId ?new) => replace (s_identityId new) with (s_identityId old) by done end end.
    by eapply ai_session_identity.
  - rewrite lookup_fmap, fmap_is_Some. by eapply ai_user_grant.
  - lia.
  - rewrite Hrev. pose proof (ai_grant_revision _ Hinv _ _ Hg). lia.
  - rewrite bumped_holder_revision. match goal with H : grants r !! _ = Some ?x |- _ => pose proof (ai_grant_revision _ Hinv _ _ H) end.
    case_decide; lia.
Qed.

(** ** Grants only change with their revision *)

(** What the grant of a user allows, whether or not the user is active. *)
Definition granted (r : repository) (userId : jsstring) : option user_authorization :=
  grant ← grants r !! userId;
  Some (UserAuthorization userId (g_roleIds grant)
          (unique_sorted (omap (active_role r) (g_roleIds grant) ≫= ro_permissionIds))
          (g_nodeScope grant) (g_instanceScope grant) (g_authorizationRevision grant)).

(** The permissions of roles that are put back with the same permissions. *)
Lemma role_permissions_eq r r' roleIds :
  (forall id, id ∈ roleIds -> ro_permissionIds <$> active_role r' id = ro_permissionIds <$> active_role r id) ->
  omap (active_role r') roleIds ≫= ro_permissionIds = omap (active_role r) roleIds ≫= ro_permissionIds.
Proof.
  induction roleIds as [|id l IH]; [done|]. intros H. rewrite !list_omap_cons_eq, !bind_app.
  rewrite IH by (intros; apply H; set_solver). f_equal.
  pose proof (H id ltac:(set_solver)) as Hid.
  destruct (active_role r' id), (active_role r id); simpl in *; try done. by injection Hid as ->.
Qed.

Lemma granted_frame r r' userId :
  grants r' !! userId = grants r !! userId ->
  (forall g id, grants r !! userId = Some g -> id ∈ g_roleIds g ->
    ro_permissionIds <$> active_role r' id = ro_permissionIds <$> active_role r id) ->
  granted r' userId = granted r userId.
Proof.
  unfold granted. intros -> H. destruct (grants r !! userId) as [g|]; simpl; [|done].
  rewrite (role_permissions_eq r r'); [done|]. intros id. by apply H.
Qed.

(** A grant never goes away; if what it allows changes, its revision grows. *)
Lemma change_granted r r' userId az :
  access_change r r' -> access_inv r -> granted r userId = Some az ->
  exists az', granted r' userId = Some az'
    /\ (az' = az \/ (az_authorizationRevision az < az_authorizationRevision az')%Z).
Proof.
  intros Hc Hinv Hgr.
  assert (Hframe : granted r' userId = granted r userId ->
    exists az', granted r' userId = Some az' /\ (az' = az \/ (az_authorizationRevision az < az_authorizationRevision az')%Z)).
  { intros ->. eauto. }
  unfold granted in Hgr. destruct (grants r !! userId) as [g0|] eqn:Hg0; [|done]. simpl in Hgr. injection Hgr as <-.
  destruct (ai_grant_user _ Hinv _ _ Hg0) as [u0 Hu0].
  destruct Hc; try (apply Hframe, granted_frame; [by rewrite Eg|intros; by rewrite (active_role_eq r r')]).
  - apply Hframe, granted_frame; [rewrite Eg, lookup_insert_ne; congruence|intros; by rewrite (active_role_eq r r')].
  - destruct (decide (u_id u = userId)) as [<-|].
    + unfold granted. rewrite Eg, lookup_insert_eq. eexists. split; [done|]. right; simpl.
      rewrite Hrev. rewrite Hg in Hg0. injection Hg0 as <-. lia.
    + apply Hframe, granted_frame; [by rewrite Eg, lookup_insert_ne|intros; by rewrite (active_role_eq r r')].
  - apply Hframe, granted_frame; [by rewrite Eg|]. intros g id Hg Hin. rewrite (active_role_insert r r' ro) by done.
    case_decide as Hid; [subst|done]. destruct (ai_grant_roles _ Hinv _ _ _ Hg Hin) as [old' Ho'].
    unfold active_role in *. destruct Hold as [Hn|(old & Ho & Hst & Hp)]; [rewrite Hn in Ho'; done|].
    rewrite Ho in *; simpl in *. rewrite <- Hst. case_decide; [|done]. simpl. by rewrite Hp.
  - destruct (decide (ro_id ro ∈ g_roleIds g0)) as [Hin|Hnot].
    + unfold granted. rewrite Eg, lookup_fmap, Hg0; simpl. eexists. split; [done|]. right; simpl.
      rewrite bumped_holder_revision, decide_True by done. lia.
    + apply Hframe, granted_frame.
      * rewrite Eg, lookup_fmap, Hg0; simpl. unfold bumped_holder. by rewrite decide_False.
      * intros g id Hg Hin. rewrite (active_role_insert r r' ro) by done. rewrite Hg0 in Hg. injection Hg as <-.
        rewrite decide_False; [done|congruence].
  - apply Hframe, granted_frame; [by rewrite Eg|]. intros g id Hg Hin. rewrite (active_role_insert r r' ro) by done.
    rewrite decide_False; [done|]. intros ->. by apply (Hunused _ _ Hg).
Qed.

(** ** An administrator remains *)

(** The administrator is still one when its rows are kept. *)
Lemma has_admin_frame r r' :
  access_inv r -> has_admin r ->
  (forall id u, users r !! id = Some u -> exists u', users r' !! id = Some u' /\ u_id u' = u_id u /\
      (u_status u = UserActive -> u_status u' = UserActive \/ local_trust_user r id)) ->
  (forall id g, grants r !! id = Some g -> exists g', grants r' !! id = Some g' /\
      (SYSTEM_ROLE_ADMIN ∈ g_roleIds g -> SYSTEM_ROLE_ADMIN ∈ g_roleIds g')) ->
  (forall id i, identities r !! id = Some i -> exists i', identities r' !! id = Some i' /\ same_identity i i') ->
  providers r' = providers r ->
  has_admin r'.
Proof.
  intros Hinv (u & g & i & Hu & Hst & Hg & Hadmin & Hi & Hiu & Hcap) Husers Hgrants Hids Hprov.
  destruct (Husers _ _ Hu) as (u' & Hu' & Huid & Hst'). destruct (Hgrants _ _ Hg) as (g' & Hg' & Hadmin').
  destruct (Hids _ _ Hi) as (i' & Hi' & Hsame).
  destruct (Hst' Hst) as [Hact|(id & i2 & Hi2 & Hk2 & Hu2)].
  - exists u', g', i'. rewrite Huid, (si_id _ _ Hsame), (si_user _ _ Hsame). split_and!; try done; [by apply Hadmin'|].
    unfold login_capable, identity_login_capable in *. simpl in *.
    by rewrite (si_kind _ _ Hsame), (si_provider _ _ Hsame), Hprov.
  - exfalso. assert (i_id i = id) as <- by (eapply (ai_one_identity _ Hinv); [exact Hi|exact Hi2|congruence]).
    rewrite Hi in Hi2. injection Hi2 as <-. unfold login_capable, identity_login_capable in Hcap. by rewrite Hk2 in Hcap.
Qed.

Lemma same_identity_refl i : same_identity i i.
Proof. by constructor. Qed.

Lemma change_admin r r' : access_change r r' -> access_inv r -> has_admin r -> has_admin r'.
Proof.
  intros Hc Hinv Hadm. pose proof same_identity_refl.
  destruct Hc; try (by apply Hadmin); apply (has_admin_frame r); rewrite ?Eu, ?Ei, ?Eg; try done; try (by eauto).
  - intros id u1 H1. exists u1. rewrite lookup_insert_ne by congruence. auto.
  - intros id g1 H1. exists g1. destruct (ai_grant_user _ Hinv _ _ H1). rewrite lookup_insert_ne by congruence. auto.
  - intros id i1 H1. exists i1. rewrite lookup_insert_ne by congruence. auto.
  - intros id u1 H1. destruct (decide (u_id u = id)) as [<-|]; [|rewrite lookup_insert_ne by done; eauto].
    rewrite lookup_insert_eq. exists u'. rewrite Hu in H1. injection H1 as <-. rewrite Hst. auto.
  - intros id i1 H1. destruct (decide (i_id i = id)) as [<-|]; [|rewrite lookup_insert_ne by done; eauto].
    rewrite lookup_insert_eq. exists i'. rewrite Hi in H1. injection H1 as <-. auto.
  - intros id u1 H1. destruct (decide (u_id u = id)) as [<-|]; [|rewrite lookup_insert_ne by done; eauto].
    rewrite lookup_insert_eq. exists u'. rewrite Hu in H1. injection H1 as <-. auto.
  - intros id u1 H1. destruct (decide (u_id u = id)) as [<-|]; [|rewrite lookup_insert_ne by done; eauto].
    rewrite lookup_insert_eq. exists u'. rewrite Hu in H1. injection H1 as <-. auto.
  - intros id g1 H1. rewrite lookup_fmap, H1; simpl. eexists. split; [done|]. by rewrite bumped_holder_roles.
Qed.
