(* ===== verification/UserServiceRefine.v ===== *)
(** * The user service makes only the specified changes

    Every operation of [UserService], run from a database that satisfies the
    invariant, moves it along [access_change], whether it returns or throws. *)

From S2P Require Export AccessInvariant.

(** ** Runs that follow the specification *)

Definition refines_when {A} (P : repository -> Prop) (m : M A) : Prop :=
  forall r r' x, access_inv r -> P r -> m r = (r', x) -> rtc access_change r r'.
Abbreviation refines := (refines_when (fun _ => True)).

Lemma rtc_change_inv r r' : rtc access_change r r' -> access_inv r -> access_inv r'.
Proof. induction 1; eauto using change_inv. Qed.

(** Operations that only read. *)
Definition reads {A} (m : M A) : Prop := forall r, (m r).1 = r.

Lemma refines_reads {A} P (m : M A) : reads m -> refines_when P m.
Proof. intros Hm r r' x _ _ E. specialize (Hm r). rewrite E in Hm. simpl in Hm. by subst. Qed.

Lemma refines_bind {A B} P (Q : A -> repository -> Prop) (m : M A) (k : A -> M B) :
  refines_when P m -> (forall a, refines_when (Q a) (k a)) ->
  (forall r r' a, P r -> m r = (r', Ok a) -> Q a r') -> refines_when P (m ≫= k).
Proof.
  intros Hm Hk HQ r r' x Hinv HP E. unfold mbind, M_bind in E.
  destruct (m r) as [r1 [a|e]] eqn:E1.
  - specialize (Hm _ _ _ Hinv HP E1). etrans; [exact Hm|].
    eapply Hk; [by eapply rtc_change_inv| |exact E]. by eapply HQ.
  - injection E as <- <-. by eapply Hm.
Qed.

Lemma refines_then {A B} P (m : M A) (k : A -> M B) :
  refines_when P m -> (forall a, refines (k a)) -> refines_when P (m ≫= k).
Proof. intros Hm Hk. by apply (refines_bind P (fun _ _ => True)). Qed.

Lemma refines_after {A B} P (m : M A) (k : A -> M B) :
  reads m -> (forall a, refines_when P (k a)) -> refines_when P (m ≫= k).
Proof.
  intros Hm Hk. apply (refines_bind P (fun _ => P)); [by apply refines_reads|done|].
  intros r r' a HP E. specialize (Hm r). rewrite E in Hm. simpl in Hm. by subst.
Qed.

Lemma refines_transaction {A} P (m : M A) :
  (forall r r' a, access_inv r -> P r -> m r = (r', Ok a) -> rtc access_change r r') ->
  refines_when P (transaction m).
Proof.
  intros Hm r r' x Hinv HP E. apply transaction_cases in E as [(e & -> & ->)|(a & -> & E)]; [done|eauto].
Qed.

Lemma reads_gets {A} (f : repository -> A) : reads (gets f). Proof. done. Qed.
Lemma reads_ret {A} (a : A) : reads (mret a). Proof. done. Qed.
Lemma reads_throw {A} e : reads (throw e : M A). Proof. done. Qed.
Lemma reads_assert b e : reads (assert b e). Proof. by destruct b. Qed.
Lemma reads_require {A} (o : option A) e : reads (require o e). Proof. by destruct o. Qed.
Lemma reads_bind {A B} (m : M A) (k : A -> M B) : reads m -> (forall a, reads (k a)) -> reads (m ≫= k).
Proof.
  intros Hm Hk r. unfold mbind, M_bind. specialize (Hm r). destruct (m r) as [r1 [a|e]]; simpl in *; subst; [apply Hk|done].
Qed.
Lemma reads_mfor {A} (l : list A) f : (forall a, reads (f a)) -> reads (mfor l f).
Proof. intros Hf. induction l as [|a l IH]; simpl; [apply reads_ret|]. by apply reads_bind. Qed.
#[export] Hint Resolve reads_gets reads_ret reads_throw reads_assert reads_require reads_bind reads_mfor : jsdb.

Lemma reads_refuse_taken {A} (o : option A) code : reads (refuse_taken o code).
Proof. destruct o; simpl; auto with jsdb. Qed.
Lemma reads_requireUser userId : reads (requireUser userId).
Proof. unfold requireUser. auto with jsdb. Qed.
Lemma reads_authorization userId : reads (authorization userId).
Proof. unfold authorization. auto 20 using reads_requireUser with jsdb. Qed.
Lemma reads_detail userId : reads (detail userId).
Proof. unfold detail, identities_listByUser. auto 20 using reads_requireUser with jsdb. Qed.
Lemma reads_assertActiveRoles roleIds : reads (assertActiveRoles roleIds).
Proof.
  unfold assertActiveRoles. apply reads_bind; [auto with jsdb|]. intros _. apply reads_mfor. intros id.
  apply reads_bind; [auto with jsdb|]. intros [ro|]; auto with jsdb.
Qed.
Lemma reads_open_approval approvalId now : reads (open_approval approvalId now).
Proof. unfold open_approval. auto 20 with jsdb. Qed.
Lemma reads_assert_unbound p s : reads (assert_unbound p s).
Proof. unfold assert_unbound, identities_findByProviderSubject. auto using reads_refuse_taken with jsdb. Qed.
Lemma reads_assertUserManager u : reads (assertUserManager u).
Proof. unfold assertUserManager. auto using reads_authorization with jsdb. Qed.
#[export] Hint Resolve reads_refuse_taken reads_requireUser reads_authorization reads_detail
  reads_assertActiveRoles reads_open_approval reads_assert_unbound reads_assertUserManager : jsdb.

(** ** Revoking sessions *)

Lemma revoke_rows_ok (rows : list UserSessionRecord) r r' x :
  mfor rows (fun session => _ ← sessions_delete (s_id session); mret ()) r = (r', Ok x) ->
  r' = with_sessions (filter (fun e => e.1 ∉ s_id <$> rows)) r.
Proof.
  revert r. induction rows as [|s rows IH]; simpl; intros r H.
  - run_inv H. destruct r; unfold with_sessions; simpl. f_equal. symmetry. apply map_filter_id. set_solver.
  - apply bind_ok in H as ([] & r1 & H1 & H). apply IH in H as ->. run_inv H1.
    apply sessions_delete_ok in Hrun as ->. destruct r; unfold with_sessions; simpl. f_equal.
    apply map_eq. intros id. apply option_eq. intros s'.
    rewrite !map_lookup_filter_Some, lookup_delete_Some; simpl. set_solver.
Qed.

Lemma revokeSessionsIn_ok userId r r' x :
  (forall id s, sessions r !! id = Some s -> s_id s = id) ->
  revokeSessionsIn userId r = (r', Ok x) ->
  r' = with_sessions (fun _ => sessions_revoked r (fun u => bool_decide (u = userId))) r.
Proof.
  intros Hkey H. unfold revokeSessionsIn, sessions_listByUser in H.
  apply bind_ok in H as (rows & r1 & H1 & H). run_inv H1. apply revoke_rows_ok in H as ->.
  destruct r; unfold with_sessions; simpl in *. f_equal.
  apply map_eq. intros id. apply option_eq. intros s.
  rewrite sessions_revoked_lookup, map_lookup_filter_Some; simpl. split.
  - intros [Hs Hnot]. split; [done|]. intros u Hu. apply bool_decide_eq_false. intros ->. apply Hnot.
    apply list_elem_of_fmap. exists s. split; [by rewrite (Hkey id)|].
    apply list_elem_of_filter. split; [done|]. apply table_list_elem. eauto.
  - intros [Hs Hu]. split; [done|]. intros (s' & Hid & Hin)%list_elem_of_fmap.
    apply list_elem_of_filter in Hin as [Hu' Hin]. apply table_list_elem in Hin as [id' Hs'].
    rewrite (Hkey _ _ Hs') in Hid. simpl in *. subst id'. rewrite Hs in Hs'. injection Hs' as <-.
    specialize (Hu _ Hu'). by propify.
Qed.

Lemma bump_ok userId now r r' x :
  (forall id s, sessions r !! id = Some s -> s_id s = id) ->
  (forall id g, grants r !! id = Some g -> g_userId g = id) ->
  bumpAuthorizationRevisionIn userId now r = (r', Ok x) ->
  exists g, grants r !! userId = Some g
    /\ r' = with_sessions (fun _ => sessions_revoked r (fun u => bool_decide (u = userId)))
              (with_grants <[userId := stored_grant (bumped_grant g now)]> r).
Proof.
  intros Hsk Hgk H. unfold bumpAuthorizationRevisionIn in H.
  apply bind_ok in H as (g & r1 & H1 & H). run_inv H1.
  apply bind_ok in H as (g' & r1 & H1 & H). run_inv H1.
  apply bind_ok in H as ([] & r1 & Hput & H). apply grants_put_ok in Hput as (_ & _ & _ & _ & ->).
  apply revokeSessionsIn_ok in H as ->; [|exact Hsk].
  exists g'. split; [done|]. by rewrite <- (Hgk _ _ H1).
Qed.

(** ** Assertions *)

Lemma reads_ok {A} (m : M A) r r' x : reads m -> m r = (r', x) -> r' = r.
Proof. intros Hm E. specialize (Hm r). rewrite E in Hm. done. Qed.

Lemma admin_remains_ok p r r' x :
  access_inv r -> assertLoginCapableAdminRemains p r = (r', Ok x) ->
  r' = r /\ exists u i, users r !! u_id u = Some u
    /\ projected (lp_userStatus p) (u_id u) (u_status u) = UserActive
    /\ SYSTEM_ROLE_ADMIN ∈ projected (lp_roleIds p) (u_id u) (default [] (g_roleIds <$> grants r !! u_id u))
    /\ identities r !! i_id i = Some i /\ i_userId i = u_id u /\ identity_login_capable r p i = true.
Proof.
  intros Hinv H. unfold assertLoginCapableAdminRemains in H. run_inv H. split; [done|].
  match goal with H : existsb _ _ = true |- _ => apply existsb_exists in H as (u & Hu & Hadm) end.
  apply list_elem_of_In, table_list_elem in Hu as [id Hu].
  rewrite <- (ai_user_key _ Hinv _ _ Hu) in Hu.
  unfold login_capable_admin, hasLoginCapableIdentity in Hadm. propify.
  match goal with H : existsb _ _ = true |- _ => apply existsb_exists in H as (i & Hi & Hcap) end.
  apply list_elem_of_In, identities_of_elem in Hi as [Hiu [id' Hi]].
  rewrite <- (ai_identity_key _ Hinv _ _ Hi) in Hi. exists u, i. done.
Qed.

(** ** Creating users *)

Definition fresh_user (userId identityId : jsstring) (r : repository) : Prop :=
  users r !! userId = None /\ identities r !! identityId = None.

Lemma active_roles_sub r (roleIds : list jsstring) g :
  (forall id, id ∈ roleIds -> is_Some (active_role r id)) -> (forall id, id ∈ g_roleIds g -> id ∈ roleIds) ->
  active_roles r g.
Proof. unfold active_roles. eauto. Qed.

(** The three writes that make a user. *)
Lemma create_ok u i g r r1 r2 r3 r' x1 x2 x3 :
  users_put u r = (r1, Ok x1) -> identities_put i r1 = (r2, Ok x2) -> grants_put g r2 = (r3, Ok x3) ->
  fresh_user (u_id u) (i_id i) r -> i_userId i = u_id u -> g_userId g = u_id u ->
  active_roles r g -> g_authorizationRevision g = 1%Z ->
  (i_kind i = LocalTrust -> local_trust_identity r = None) ->
  users r' = users r3 -> identities r' = identities r3 -> grants r' = grants r3 -> roles r' = roles r3 ->
  sessions r' = sessions r3 -> providers r' = providers r3 ->
  rtc access_change r r'.
Proof.
  intros Hu Hi Hg [Hfu Hfi] Hiu Hgu Hroles Hrev Htrust E1 E2 E3 E4 E5 E6.
  apply users_put_ok in Hu as [Hsu ->]. apply identities_put_ok in Hi as (Hsi & _ & Hidx & ->).
  apply grants_put_ok in Hg as (_ & _ & _ & _ & ->).
  apply rtc_once, (change_create _ _ u i (stored_grant g)); try done; rewrite ?E1, ?E2, ?E3, ?E4, ?E5, ?E6; simpl; try done.
  - intros id. rewrite stored_grant_roles. apply Hroles.
  - intros Hk id j Hj Hkj. specialize (Htrust Hk). unfold local_trust_identity in Htrust.
    pose proof (table_find_None _ _ Htrust _ _ Hj) as Hno. simpl in Hno. propify. by apply Hno.
  - by rewrite Hgu.
Qed.

Section Operations.
Context (lower toLocaleLowerCase : jsstring -> jsstring)
  (scrypt : jsstring -> jsstring -> list N) (base64url : list N -> jsstring).

Lemma createLocalUserInternal_refines userId identityId salt now input :
  refines_when (fresh_user userId identityId)
    (createLocalUserInternal toLocaleLowerCase scrypt base64url userId identityId salt now input).
Proof.
  apply refines_transaction. intros r r' res Hinv Hfresh H.
  apply bind_ok in H as (existing & r1 & H1 & H). apply gets_ok in H1 as [-> _].
  apply bind_ok in H as ([] & r1 & H1 & H). apply refuse_taken_ok in H1 as [-> _].
  apply bind_ok in H as ([] & r1 & H1 & H). apply assertActiveRoles_ok in H1 as (-> & _ & Hroles).
  apply bind_ok in H as ([] & r1 & Hu & H). apply bind_ok in H as ([] & r2 & Hi & H).
  apply bind_ok in H as ([] & r3 & Hg & H). run_inv H.
  eapply create_ok; eauto; [|done]. eapply active_roles_sub; [exact Hroles|]. intros id. apply unique_sorted_elem.
Qed.

Lemma createLocalUser_refines userId identityId salt now input :
  refines_when (fresh_user userId identityId)
    (createLocalUser toLocaleLowerCase scrypt base64url userId identityId salt now input).
Proof.
  apply refines_then; [apply createLocalUserInternal_refines|]. intros a. apply refines_reads, reads_detail.
Qed.

Lemma approveExternalIdentity_refines actorUserId approvalId userId identityId now displayName roleIds nodeScope instanceScope :
  refines_when (fresh_user userId identityId)
    (approveExternalIdentity actorUserId approvalId userId identityId now displayName roleIds nodeScope instanceScope).
Proof.
  unfold approveExternalIdentity.
  repeat (apply refines_after; [by auto with jsdb|intros ?]).
  apply refines_then; [|intros; by apply refines_reads, reads_detail].
  apply refines_transaction. intros r r' res Hinv Hfresh H.
  apply bind_ok in H as (ap & r1 & H1 & H).
  apply reads_ok in H1 as ->; [|auto with jsdb].
  apply bind_ok in H as ([] & r1 & H2 & H).
  apply reads_ok in H2 as ->; [|auto with jsdb].
  apply bind_ok in H as ([] & r1 & H3 & H). apply assertActiveRoles_ok in H3 as (-> & _ & Hroles).
  apply bind_ok in H as ([] & r1 & Hu & H). apply bind_ok in H as ([] & r2 & Hi & H).
  apply bind_ok in H as ([] & r3 & Hg & H). apply approvals_put_ok in H as ->.
  eapply create_ok; eauto; [|by case_decide]. eapply active_roles_sub; [exact Hroles|]. intros id. apply unique_sorted_elem.
Qed.

Lemma rejectExternalIdentity_refines actorUserId approvalId now :
  refines (rejectExternalIdentity actorUserId approvalId now).
Proof.
  apply refines_after; [auto with jsdb|intros _]. apply refines_transaction. intros r r' [] Hinv _ H.
  apply bind_ok in H as (ap & r1 & H1 & H). run_inv H1.
  apply bind_ok in H as (ap' & r1 & H1 & H). run_inv H1.
  apply bind_ok in H as ([] & r1 & H2 & H). run_inv H2. apply approvals_put_ok in H as ->.
  apply rtc_once, change_providers; try done. apply (ai_provider_key _ Hinv).
Qed.

(** *** Changing users *)

Lemma has_admin_after p r r' :
  (exists u i, users r !! u_id u = Some u
    /\ projected (lp_userStatus p) (u_id u) (u_status u) = UserActive
    /\ SYSTEM_ROLE_ADMIN ∈ projected (lp_roleIds p) (u_id u) (default [] (g_roleIds <$> grants r !! u_id u))
    /\ identities r !! i_id i = Some i /\ i_userId i = u_id u /\ identity_login_capable r p i = true) ->
  (forall u, users r !! u_id u = Some u -> projected (lp_userStatus p) (u_id u) (u_status u) = UserActive ->
    exists u', users r' !! u_id u = Some u' /\ u_id u' = u_id u /\ u_status u' = UserActive) ->
  (forall id, SYSTEM_ROLE_ADMIN ∈ projected (lp_roleIds p) id (default [] (g_roleIds <$> grants r !! id)) ->
    is_Some (users r !! id) ->
    exists g', grants r' !! id = Some g' /\ SYSTEM_ROLE_ADMIN ∈ g_roleIds g') ->
  (forall i, identities r !! i_id i = Some i -> identity_login_capable r p i = true ->
    identities r' !! i_id i = Some i /\ login_capable r' i) ->
  has_admin r'.
Proof.
  intros (u & i & Hu & Hst & Hadm & Hi & Hiu & Hcap) Hus Hgr Hid.
  destruct (Hus _ Hu Hst) as (u' & Hu' & Huid & Hst'). destruct (Hgr _ Hadm) as (g' & Hg' & Hadm'); [eauto|].
  destruct (Hid _ Hi Hcap) as [Hi' Hcap']. exists u', g', i. rewrite Huid. done.
Qed.

(** Nothing is projected on identities and providers. *)
Lemma login_capable_plain p r r' i :
  lp_removedIdentityId p = None -> lp_providerStatus p = None -> providers r' = providers r ->
  identity_login_capable r p i = true -> login_capable r' i.
Proof. unfold login_capable, identity_login_capable. simpl. intros -> -> ->. done. Qed.

Lemma default_roles (roleId : jsstring) r id :
  roleId ∈ default [] (g_roleIds <$> grants r !! id) ->
  exists g, grants r !! id = Some g /\ roleId ∈ g_roleIds g.
Proof. destruct (grants r !! id); simpl; [eauto|set_solver]. Qed.

Lemma rename_identity_ok userId now username r r' x :
  access_inv r -> rename_identity toLocaleLowerCase userId now username r = (r', Ok x) ->
  access_change r r' /\ users r' = users r /\ grants r' = grants r /\ roles r' = roles r.
Proof.
  intros Hinv H. unfold rename_identity, localIdentity in H.
  apply bind_ok in H as (i & r1 & H1 & H). run_inv H1.
  apply bind_ok in H as (i' & r1 & H1 & H). run_inv H1.
  apply bind_ok in H as (other & r1 & Hf & H). apply gets_ok in Hf as [-> _].
  apply bind_ok in H as ([] & r1 & Ht & H).
  apply reads_ok in Ht as ->; [|destruct other; auto with jsdb].
  apply identities_put_ok in H as (Hs & _ & Hidx & ->).
  apply localIdentity_in_Some in H1 as (_ & _ & id & Hi). rewrite <- (ai_identity_key _ Hinv _ _ Hi) in Hi.
  split; [|done]. apply (change_identity _ _ i' (identity_with_login (normalizeControlPlaneLoginName toLocaleLowerCase username) now i')); done || by constructor.
Qed.

Lemma bumped_active_roles r g now id :
  access_inv r -> grants r !! id = Some g -> active_roles r (stored_grant (bumped_grant g now)).
Proof. intros Hinv Hg roleId Hin. rewrite stored_grant_roles in Hin. by eapply ai_grant_roles. Qed.

(** Advancing the revision of a user whose row was just put. *)
Lemma put_and_bump r u u' now r' x :
  access_inv r -> users r !! u_id u = Some u -> u_id u' = u_id u -> UserAccountRecordSchema u' = true ->
  bumpAuthorizationRevisionIn (u_id u) now (with_users <[u_id u := u']> r) = (r', Ok x) ->
  (has_admin r -> has_admin r') -> access_change r r'.
Proof.
  intros Hinv Hu Hid Hs H Hadm.
  apply bump_ok in H as (g & Hg & ->); [|by apply (ai_session_key _ Hinv)|by apply (ai_grant_key _ Hinv)].
  apply (change_access _ _ u u' g (stored_grant (bumped_grant g now))); try done; simpl;
    [by eapply ai_grant_key|by eapply bumped_active_roles].
Qed.

Lemma user_row_same r u : users r !! u_id u = Some u -> with_users <[u_id u := u]> r = r.
Proof. intros Hu. destruct r; unfold with_users; simpl in *. by rewrite insert_id. Qed.

Lemma bump_change r userId now r' x :
  access_inv r -> bumpAuthorizationRevisionIn userId now r = (r', Ok x) -> rtc access_change r r'.
Proof.
  intros Hinv H. pose proof (bump_ok _ _ _ _ _ (ai_session_key _ Hinv) (ai_grant_key _ Hinv) H) as (g & Hg & Hr').
  destruct (ai_grant_user _ Hinv _ _ Hg) as [u Hu]. pose proof (ai_user_key _ Hinv _ _ Hu) as Hk. subst userId.
  apply rtc_once, (put_and_bump r u u now r' x); try done; [by eapply ai_user_schema|by rewrite user_row_same|].
  intros Hadm. apply (has_admin_frame r); try done; subst r'; simpl; try done.
  - eauto.
  - intros id g0 Hg0. destruct (decide (u_id u = id)) as [<-|]; [|rewrite lookup_insert_ne by done; eauto].
    rewrite lookup_insert_eq. eexists. split; [done|]. rewrite Hg in Hg0. injection Hg0 as <-. by rewrite stored_grant_roles.
  - intros id i Hi. exists i. split; [done|]. apply same_identity_refl.
Qed.

Lemma updateUser_refines userId now displayName username status :
  refines (updateUser toLocaleLowerCase userId now displayName username status).
Proof.
  apply refines_then; [|intros; apply refines_reads, reads_detail].
  apply refines_transaction. intros r r' [] Hinv _ H.
  apply bind_ok in H as (u & r1 & H1 & H). apply requireUser_ok in H1 as [-> Hu].
  apply bind_ok in H as ([] & r1 & Hren & H).
  assert (Hr1 : rtc access_change r r1 /\ users r1 = users r).
  { destruct username; [|run_inv Hren; done]. apply rename_identity_ok in Hren as (Hc & ? & _); [|done].
    split; [by apply rtc_once|done]. }
  destruct Hr1 as [Hstep Husers]. etrans; [exact Hstep|].
  pose proof (rtc_change_inv _ _ Hstep Hinv) as Hinv1. rewrite <- Husers in Hu. clear Hstep Husers Hren Hinv r.
  apply bind_ok in H as ([] & r2 & Hadm & H). apply admin_remains_ok in Hadm as [-> Hadm]; [|done].
  apply bind_ok in H as ([] & r2 & Hput & H). apply users_put_ok in Hput as [Hs ->].
  pose proof (ai_user_key _ Hinv1 _ _ Hu) as Hk. subst userId. simpl in *.
  set (c := user_candidate displayName status now u) in *.
  assert (Hcase : u_status c = u_status u /\ r' = with_users <[u_id u := c]> r1
                  \/ bumpAuthorizationRevisionIn (u_id u) now (with_users <[u_id u := c]> r1) = (r', Ok ())).
  { destruct status as [st|]; [|run_inv H; by left].
    case_decide; [|by right]. run_inv H. left. done. }
  apply rtc_once. destruct Hcase as [[Hst ->]|Hbump].
  - by eapply (change_profile _ _ u c).
  - apply (put_and_bump r1 u c now r' ()); [done..|]. intros _.
    apply bump_ok in Hbump as (g & Hg & ->); [|by apply (ai_session_key _ Hinv1)|by apply (ai_grant_key _ Hinv1)].
    apply (has_admin_after (LoginProjection (Some (u_id u, u_status c)) None None None) r1); [exact Hadm|..]; simpl.
    + intros v Hv Hact. unfold projected in Hact. case_decide as Hvu.
      * rewrite Hvu, lookup_insert_eq. exists c. done.
      * rewrite lookup_insert_ne by done. eauto.
    + intros id Hin _. apply default_roles in Hin as (g1 & Hg1 & Hin). simpl in Hg.
      destruct (decide (u_id u = id)) as [<-|]; [|rewrite lookup_insert_ne by done; eauto].
      rewrite lookup_insert_eq. eexists. split; [done|]. rewrite Hg in Hg1. injection Hg1 as <-. by rewrite stored_grant_roles.
    + intros i Hi Hcap. split; [done|].
      exact (login_capable_plain (LoginProjection (Some (u_id u, u_status c)) None None None) r1 _ i eq_refl eq_refl eq_refl Hcap).
Qed.

Lemma setAccess_refines userId now roleIds nodeScope instanceScope expected :
  refines (setAccess userId now roleIds nodeScope instanceScope expected).
Proof.
  apply refines_then; [|intros; apply refines_reads, reads_detail].
  apply refines_transaction. intros r r' [] Hinv _ H.
  apply bind_ok in H as (u & r1 & H1 & H). apply requireUser_ok in H1 as [-> Hu].
  apply bind_ok in H as (g & r1 & H1 & H). run_inv H1.
  apply bind_ok in H as (g' & r1 & H1 & H). run_inv H1. rename g' into g, H1 into Hg.
  apply bind_ok in H as ([] & r1 & H1 & H). run_inv H1.
  apply bind_ok in H as ([] & r1 & H2 & H). apply assertActiveRoles_ok in H2 as (-> & _ & Hroles).
  apply bind_ok in H as ([] & r2 & Hadm & H). apply admin_remains_ok in Hadm as [-> Hadm]; [|done].
  apply bind_ok in H as ([] & r1 & Hput & H). apply grants_put_ok in Hput as (_ & _ & _ & _ & ->).
  apply revokeSessionsIn_ok in H as ->; [|by apply (ai_session_key _ Hinv)].
  pose proof (ai_user_key _ Hinv _ _ Hu) as Hk. subst userId. simpl in *.
  rewrite (ai_grant_key _ Hinv _ _ Hg).
  apply rtc_once, (change_access _ _ u u g (stored_grant (grant_access g (unique_sorted roleIds)
    (normalizeUserNodeScope nodeScope)
    (match instanceScope with Some s => normalizeUserInstanceScope s | None => g_instanceScope g end) now))); try done; simpl.
  - by eapply ai_user_schema.
  - by eapply ai_grant_key.
  - eapply active_roles_sub; [exact Hroles|]. intros id. rewrite stored_grant_roles. apply unique_sorted_elem.
  - by rewrite insert_id.
  - intros _. apply (has_admin_after (LoginProjection None (Some (u_id u, roleIds)) None None) r); [exact Hadm|..]; simpl.
    + eauto.
    + intros id Hin _. unfold projected in Hin. case_decide as Hid.
      * subst id. rewrite lookup_insert_eq. eexists. split; [done|]. rewrite stored_grant_roles. by apply unique_sorted_elem.
      * rewrite lookup_insert_ne by done. by apply default_roles.
    + intros i Hi Hcap. split; [done|].
      exact (login_capable_plain (LoginProjection None (Some (u_id u, roleIds)) None None) r _ i eq_refl eq_refl eq_refl Hcap).
Qed.

(** A write to the local identity of a user, then its new revision. *)
Lemma identity_put_and_bump r i i' now r1 r' x y :
  access_inv r -> identities r !! i_id i = Some i -> same_identity i i' ->
  identities_put i' r = (r1, Ok x) -> bumpAuthorizationRevisionIn (i_userId i) now r1 = (r', Ok y) ->
  rtc access_change r r'.
Proof.
  intros Hinv Hi Hsame Hput Hbump. apply identities_put_ok in Hput as (Hs & _ & Hidx & ->).
  rewrite (si_id _ _ Hsame) in Hbump.
  assert (Hc : access_change r (with_identities <[i_id i := i']> r)) by by eapply change_identity.
  etrans; [apply rtc_once, Hc|]. eapply bump_change; [|exact Hbump]. by eapply change_inv.
Qed.

Lemma resetLocalPassword_refines userId salt password requirePasswordChange now :
  refines (resetLocalPassword scrypt base64url userId salt password requirePasswordChange now).
Proof.
  apply refines_transaction. intros r r' [] Hinv _ H.
  apply bind_ok in H as (u & r1 & H1 & H). apply requireUser_ok in H1 as [-> Hu].
  apply bind_ok in H as (i & r1 & H1 & H). unfold localIdentity in H1. run_inv H1.
  apply bind_ok in H as (i & r1 & H1 & H). run_inv H1.
  apply bind_ok in H as ([] & r1 & Hput & H).
  apply localIdentity_in_Some in H1 as (_ & <- & id & Hi). rewrite <- (ai_identity_key _ Hinv _ _ Hi) in Hi.
  eapply identity_put_and_bump; [done|exact Hi| |exact Hput|exact H]. by constructor.
Qed.

Lemma recoverLocalCredentials_refines salt now username password userId targetUsername :
  refines (recoverLocalCredentials toLocaleLowerCase scrypt base64url salt now username password userId targetUsername).
Proof.
  apply refines_then; [|intros; apply refines_reads, reads_detail].
  apply refines_transaction. intros r r' res Hinv _ H.
  apply bind_ok in H as (t & r1 & H1 & H). run_inv H1.
  apply bind_ok in H as (u & r1 & H1 & H).
  apply reads_ok in H1 as ->; [|case_match; auto with jsdb].
  apply bind_ok in H as (other & r1 & H1 & H). apply gets_ok in H1 as [-> _].
  apply bind_ok in H as ([] & r1 & H1 & H). apply reads_ok in H1 as ->; [|case_match; auto with jsdb].
  apply bind_ok in H as (i & r1 & H1 & H). unfold localIdentity in H1. run_inv H1.
  apply bind_ok in H as (i & r1 & H1 & H). run_inv H1.
  apply bind_ok in H as ([] & r1 & Hput & H).
  apply bind_ok in H as ([] & r2 & Hbump & H). run_inv H.
  apply localIdentity_in_Some in H1 as (_ & Hu & id & Hi). rewrite <- (ai_identity_key _ Hinv _ _ Hi) in Hi.
  rewrite <- Hu in Hbump.
  eapply identity_put_and_bump; [done|exact Hi| |exact Hput|exact Hbump]. by constructor.
Qed.

Lemma unbindExternalIdentity_refines userId identityId now : refines (unbindExternalIdentity userId identityId now).
Proof.
  apply refines_transaction. intros r r' [] Hinv _ H.
  apply bind_ok in H as (u & r1 & H1 & H). apply requireUser_ok in H1 as [-> Hu].
  apply bind_ok in H as (i & r1 & H1 & H). run_inv H1.
  apply bind_ok in H as (i & r1 & H1 & H). run_inv H1.
  apply bind_ok in H as ([] & r1 & H2 & H). run_inv H2.
  apply bind_ok in H as ([] & r1 & H4 & H). run_inv H4.
  apply bind_ok in H as ([] & r1 & Hadm & H). apply admin_remains_ok in Hadm as [-> Hadm]; [|done].
  apply bind_ok in H as (capable & r1 & H3 & H). run_inv H3.
  apply bind_ok in H as ([] & r1 & H5 & H). run_inv H5.
  apply bind_ok in H as (deleted & r1 & Hdel & H). apply identities_delete_ok in Hdel as ->.
  pose proof (ai_identity_key _ Hinv _ _ H1) as Hk. subst identityId.
  match type of H with _ ?r1 = _ => assert (Hc : access_change r r1) end.
  { apply (change_unbind _ _ i); try done. intros _.
    apply (has_admin_after (LoginProjection None None (Some (i_id i)) None) r); [exact Hadm|..]; simpl.
    - eauto.
    - intros id Hin _. by apply default_roles.
    - intros j Hj Hcap. unfold login_capable, identity_login_capable in *. simpl in *. propify.
      rewrite lookup_delete_ne by congruence. done. }
  etrans; [apply rtc_once, Hc|]. eapply bump_change; [|exact H]. by eapply change_inv.
Qed.

(** *** Roles *)

Definition holder (rows : list UserAccessGrantRecord) (u : jsstring) : bool := bool_decide (u ∈ g_userId <$> rows).

(** The loop of [updateRole]: every listed user gets the next revision and
    loses its sessions. *)
Lemma bump_rows_ok rows now r r' x :
  (forall id s, sessions r !! id = Some s -> s_id s = id) -> NoDup (g_userId <$> rows) ->
  mfor rows (fun grant => _ ← grants_put (bumped_grant grant now); revokeSessionsIn (g_userId grant)) r = (r', Ok x) ->
  (users r' = users r /\ identities r' = identities r /\ roles r' = roles r /\ providers r' = providers r)
  /\ sessions r' = sessions_revoked r (holder rows)
  /\ (forall g, g ∈ rows -> grants r' !! g_userId g = Some (stored_grant (bumped_grant g now)))
  /\ (forall id, id ∉ g_userId <$> rows -> grants r' !! id = grants r !! id).
Proof.
  revert r. induction rows as [|g rows IH]; intros r Hkey Hnd H.
  - simpl in H. run_inv H. split; [done|]. split; [|split; [set_solver|done]].
    apply map_eq. intros id. apply option_eq. intros s. rewrite sessions_revoked_lookup. simpl. naive_solver.
  - rewrite fmap_cons in Hnd. apply NoDup_cons in Hnd as [Hnot Hnd].
    apply bind_ok in H as ([] & r2 & H1 & H). apply bind_ok in H1 as ([] & r1 & Hput & Hrev).
    apply grants_put_ok in Hput as (_ & _ & _ & _ & ->). apply revokeSessionsIn_ok in Hrev as ->; [|exact Hkey].
    assert (Hkey2 : forall id s, sessions_revoked r (fun u => bool_decide (u = g_userId g)) !! id = Some s -> s_id s = id).
    { intros id s [Hs _]%sessions_revoked_lookup. by apply Hkey. }
    apply IH in H as (Htables & Hr' & Hin & Hout); [|exact Hkey2|done]. simpl in *.
    split; [exact Htables|]. split; [|split].
    + rewrite Hr'. apply map_eq. intros id. apply option_eq. intros s.
      rewrite !sessions_revoked_lookup. simpl. rewrite sessions_revoked_lookup. unfold holder.
      setoid_rewrite bool_decide_eq_false.
      split; [intros [[Hs H1] H2]; split; [done|]|intros [Hs H1]; split; [split; [done|]|]]; intros u Hu.
      * rewrite fmap_cons. specialize (H1 _ Hu). specialize (H2 _ Hu). set_solver.
      * specialize (H1 _ Hu). rewrite fmap_cons in H1. set_solver.
      * specialize (H1 _ Hu). rewrite fmap_cons in H1. set_solver.
    + intros g0 [->|Hg0]%elem_of_cons; [|by apply Hin]. rewrite Hout by done. simpl. by rewrite lookup_insert_eq.
    + intros id Hid. change (id ∉ g_userId g :: (g_userId <$> rows)) in Hid.
      apply not_elem_of_cons in Hid as [Hne Hid]. rewrite Hout by done. simpl. by rewrite lookup_insert_ne.
Qed.

Lemma rows_users (P : UserAccessGrantRecord -> Prop) `{forall g, Decision (P g)} r :
  access_inv r -> NoDup (g_userId <$> filter P (table_list (grants r))).
Proof.
  intros Hinv. apply (NoDup_fmap_2_strong g_userId).
  - intros g1 g2 [_ H1]%list_elem_of_filter [_ H2]%list_elem_of_filter Heq.
    apply table_list_elem in H1 as [id1 H1]. apply table_list_elem in H2 as [id2 H2].
    rewrite <- (ai_grant_key _ Hinv _ _ H1), Heq, (ai_grant_key _ Hinv _ _ H2), H2 in H1. by injection H1.
  - apply NoDup_filter. unfold table_list. apply (NoDup_fmap_2_strong snd), NoDup_map_to_list.
    intros [k1 g1] [k2 g2] H1%elem_of_map_to_list H2%elem_of_map_to_list Heq. simpl in *. subst.
    by rewrite <- (ai_grant_key _ Hinv _ _ H1), <- (ai_grant_key _ Hinv _ _ H2).
Qed.

Lemma updateRole_refines roleId now name description permissionIds :
  refines (updateRole lower toLocaleLowerCase roleId now name description permissionIds).
Proof.
  apply refines_transaction. intros r r' res Hinv _ H.
  apply bind_ok in H as (old & r1 & H1 & H). run_inv H1.
  apply bind_ok in H as (old & r1 & H1 & H). run_inv H1. rename H1 into Hold.
  apply bind_ok in H as ([] & r1 & H1 & H). run_inv H1. propify.
  apply bind_ok in H as (taken & r1 & H2 & H). run_inv H2.
  apply bind_ok in H as ([] & r1 & H2 & H). run_inv H2.
  apply bind_ok in H as ([] & r1 & H3 & H). apply roles_put_ok in H3 as [_ ->].
  apply bind_ok in H as (rows & r1 & H3 & H). unfold grants_listByRole in H3. run_inv H3. simpl in H.
  apply bind_ok in H as ([] & r1 & Hloop & H). run_inv H.
  apply bump_rows_ok in Hloop as ((Eu & Ei & Er & Ep) & Es & Hin & Hout);
    [|by apply (ai_session_key _ Hinv)|by apply rows_users]. simpl in *.
  pose proof (ai_role_key _ Hinv _ _ Hold) as Hk. subst roleId.
  pose proof (ai_role _ Hinv _ _ Hold) as Hok.
  match type of Er with _ = <[_ := ?ro]> _ => set (changed := ro) in * end.
  assert (Hrow : forall g id, grants r !! id = Some g -> ro_id old ∈ g_roleIds g ->
    g ∈ filter (fun g => ro_id old ∈ g_roleIds g) (table_list (grants r))).
  { intros g id Hg Hroles. apply list_elem_of_filter. split; [done|]. apply table_list_elem. eauto. }
  apply rtc_once, (change_role_update _ _ old changed now); try done.
  - unfold role_ok in *. simpl. destruct (system_permissions (ro_id old)); [|done].
    destruct Hok as (Hsys & _ & _). congruence.
  - apply map_eq. intros id. rewrite lookup_fmap.
    destruct (decide (id ∈ g_userId <$> filter (fun g => ro_id old ∈ g_roleIds g) (table_list (grants r)))) as [Hid|Hid].
    + apply list_elem_of_fmap in Hid as (g & -> & Hg). rewrite (Hin _ Hg).
      apply list_elem_of_filter in Hg as [Hroles Hg]. apply table_list_elem in Hg as [id Hg].
      rewrite (ai_grant_key _ Hinv _ _ Hg), Hg; simpl. unfold bumped_holder. by rewrite decide_True.
    + rewrite Hout by done. destruct (grants r !! id) as [g|] eqn:Hg; simpl; [|done].
      unfold bumped_holder. rewrite decide_False; [done|]. intros Hroles. apply Hid.
      apply list_elem_of_fmap. exists g. split; [by rewrite (ai_grant_key _ Hinv _ _ Hg)|by eapply Hrow].
  - apply map_eq. intros id. apply option_eq. intros s. rewrite Es, !sessions_revoked_lookup. simpl.
    unfold holder, holds_role. setoid_rewrite bool_decide_eq_false.
    split; intros [Hs Hnot]; (split; [done|]); intros u Hu; specialize (Hnot u Hu); contradict Hnot.
    + apply default_roles in Hnot as (g & Hg & Hroles). apply list_elem_of_fmap. exists g.
      split; [by rewrite (ai_grant_key _ Hinv _ _ Hg)|by eapply Hrow].
    + apply list_elem_of_fmap in Hnot as (g & -> & Hg).
      apply list_elem_of_filter in Hg as [Hroles Hg]. apply table_list_elem in Hg as [id' Hg].
      by rewrite (ai_grant_key _ Hinv _ _ Hg), Hg.
Qed.

Definition fresh_role (roleId : jsstring) (r : repository) : Prop :=
  roles r !! roleId = None /\ system_permissions roleId = None.

Lemma createRole_refines roleId now name description permissionIds :
  refines_when (fresh_role roleId) (createRole lower toLocaleLowerCase roleId now name description permissionIds).
Proof.
  apply refines_transaction. intros r r' res Hinv [Hfresh Hsys] H.
  apply bind_ok in H as (taken & r1 & H1 & H). run_inv H1.
  apply bind_ok in H as ([] & r1 & H1 & H). run_inv H1.
  apply bind_ok in H as ([] & r1 & Hput & H). apply roles_put_ok in Hput as [_ ->]. run_inv H.
  match goal with |- rtc _ _ (with_roles <[_ := ?ro]> _) => apply rtc_once, (change_role_put _ _ ro) end;
    try done; [|by left]. unfold role_ok. simpl. by rewrite Hsys.
Qed.

Lemma archiveRole_refines roleId now : refines (archiveRole lower roleId now).
Proof.
  apply refines_transaction. intros r r' res Hinv _ H.
  apply bind_ok in H as (old & r1 & H1 & H). run_inv H1.
  apply bind_ok in H as (old & r1 & H1 & H). run_inv H1. rename H1 into Hold.
  apply bind_ok in H as ([] & r1 & H1 & H). run_inv H1. propify.
  apply bind_ok in H as (rows & r1 & H2 & H). unfold grants_listByRole in H2. run_inv H2.
  apply bind_ok in H as ([] & r1 & H2 & H). run_inv H2. propify.
  apply bind_ok in H as ([] & r1 & Hput & H). apply roles_put_ok in Hput as [_ ->]. run_inv H.
  pose proof (ai_role_key _ Hinv _ _ Hold) as Hk. subst roleId. pose proof (ai_role _ Hinv _ _ Hold) as Hok.
  match goal with |- rtc _ _ (with_roles <[_ := ?ro]> _) => apply rtc_once, (change_role_archive _ _ ro) end; try done; simpl.
  - unfold role_ok in *. simpl. destruct (system_permissions (ro_id old)); [|done].
    destruct Hok as (Hsys & _ & _). congruence.
  - intros id g Hg Hin.
    match goal with H : length (filter _ _) = 0 |- _ => apply nil_length_inv in H; rename H into Hnil end.
    assert (Hg' : g ∈ filter (fun g => ro_id old ∈ g_roleIds g) (table_list (grants r))).
    { apply list_elem_of_filter. split; [done|]. apply table_list_elem. eauto. }
    rewrite Hnil in Hg'. set_solver.
Qed.

(** A built-in role put back as it is defined. *)
Lemma system_role_ok now ro : ro ∈ system_roles now ->
  system_permissions (ro_id ro) = Some (ro_permissionIds ro) /\ ro_system ro = true /\ ro_status ro = RoleActive.
Proof.
  unfold system_roles. rewrite !elem_of_cons, elem_of_nil. intros [->|[->|[->|[]]]]; split_and!; vm_compute; reflexivity.
Qed.

Lemma ensureSystemRoles_refines now : refines (ensureSystemRoles lower now).
Proof.
  unfold ensureSystemRoles. pose proof (fun ro => system_role_ok now ro) as Hok.
  induction (system_roles now) as [|ro l IH]; [apply refines_reads, reads_ret|].
  apply refines_then; [|intros; apply IH; intros; apply Hok; set_solver].
  intros r r' x Hinv _ H.
  destruct (Hok ro ltac:(set_solver)) as (Hp & Hsys & Hst).
  unfold mbind, M_bind, gets in H. unfold roles_put in H.
  match type of H with context [role_index lower ?new] => remember new as put eqn:Eput end.
  destruct (role_index lower put r) eqn:Hidx.
  - unfold mbind, M_bind, gets, assert, modify in H. rewrite Hidx in H. simpl in H. injection H as <- <-.
    assert (Hput : ro_id put = ro_id ro /\ ro_system put = true /\ ro_status put = RoleActive
                   /\ ro_permissionIds put = ro_permissionIds ro).
    { subst put. destruct (roles r !! ro_id ro); simpl; auto. }
    destruct Hput as (H1 & H2 & H3 & H4).
    apply rtc_once, (change_role_put _ _ put); try done.
    + unfold role_ok. rewrite H1, Hp. auto.
    + rewrite H1. destruct (roles r !! ro_id ro) as [cur|] eqn:Hcur; [right|by left].
      exists cur. split; [done|]. pose proof (ai_role _ Hinv _ _ Hcur) as Hc. unfold role_ok in Hc.
      rewrite (ai_role_key _ Hinv _ _ Hcur), Hp in Hc. destruct Hc as (_ & -> & ->). auto.
  - unfold mbind, M_bind, gets, assert, modify in H. rewrite Hidx in H. simpl in H. by injection H as <- <-.
Qed.

Lemma revokeSessions_change r r' userId x :
  access_inv r -> revokeSessionsIn userId r = (r', Ok x) -> access_change r r'.
Proof.
  intros Hinv H. apply revokeSessionsIn_ok in H as ->; [|by apply (ai_session_key _ Hinv)].
  by eapply change_sessions_drop.
Qed.

Lemma revokeSessions_refines userId : refines (revokeSessions userId).
Proof.
  apply refines_transaction. intros r r' [] Hinv _ H. by eapply rtc_once, revokeSessions_change.
Qed.

(** A new scope for the holder of a grant, with the next revision. *)
Lemma regrant_change r r1 r' g nodeScope instanceScope now x y :
  access_inv r -> grants r !! g_userId g = Some g ->
  grants_put (grant_access g (g_roleIds g) nodeScope instanceScope now) r = (r1, Ok x) ->
  revokeSessionsIn (g_userId g) r1 = (r', Ok y) ->
  access_change r r' /\ (forall id, id <> g_userId g -> grants r' !! id = grants r !! id).
Proof.
  intros Hinv Hg Hput Hrev. apply grants_put_ok in Hput as (_ & [u Hu] & _ & _ & ->).
  apply revokeSessionsIn_ok in Hrev as ->; [|by apply (ai_session_key _ Hinv)]. simpl in *.
  pose proof (ai_user_key _ Hinv _ _ Hu) as Hk.
  split; [|intros id Hne; simpl; by rewrite lookup_insert_ne].
  apply (change_access _ _ u u g (stored_grant (grant_access g (g_roleIds g) nodeScope instanceScope now)));
    rewrite ?Hk; try done; simpl.
  - by eapply ai_user_schema.
  - intros id. rewrite stored_grant_roles. simpl. by eapply ai_grant_roles.
  - by rewrite insert_id.
  - intros Hadm. apply (has_admin_frame r); try done; simpl; try (by eauto).
    + intros id g0 Hg0. destruct (decide (g_userId g = id)) as [<-|]; [|rewrite lookup_insert_ne by done; eauto].
      rewrite lookup_insert_eq. eexists. split; [done|]. rewrite Hg in Hg0. injection Hg0 as <-. by rewrite stored_grant_roles.
    + intros id i Hi. exists i. split; [done|apply same_identity_refl].
Qed.

Lemma removeInstanceFromAccessScopes_refines instanceId now : refines (removeInstanceFromAccessScopes instanceId now).
Proof.
  apply refines_transaction. intros r r' [] Hinv _ H.
  apply bind_ok in H as (rows & r1 & H1 & H). run_inv H1.
  pose proof (rows_users (fun _ => True) r Hinv) as Hnd. rewrite filter_all in Hnd by done.
  assert (Hrows : forall g, g ∈ table_list (grants r) -> grants r !! g_userId g = Some g).
  { intros g [id Hg]%table_list_elem. by rewrite (ai_grant_key _ Hinv _ _ Hg). }
  revert Hnd Hrows H. generalize (table_list (grants r)) as rows. intros rows. revert r Hinv.
  induction rows as [|g rows IH]; intros r Hinv Hnd Hrows H; [by injection H as <-|].
  rewrite fmap_cons in Hnd. apply NoDup_cons in Hnd as [Hnot Hnd].
  apply bind_ok in H as ([] & r1 & H1 & H).
  destruct (selected_instance instanceId g) as [ids|]; [|run_inv H1; apply IH; try done; set_solver].
  apply bind_ok in H1 as ([] & r2 & Hput & Hrev).
  destruct (regrant_change _ _ _ _ _ _ _ _ _ Hinv (Hrows g ltac:(set_solver)) Hput Hrev) as [Hc Hother].
  etrans; [by apply rtc_once|]. apply IH; [by eapply change_inv|done| |done].
  intros g' Hg'. rewrite Hother; [apply Hrows; set_solver|]. intros Heq. apply Hnot. rewrite <- Heq.
  by apply list_elem_of_fmap_2.
Qed.

(** *** The local operator *)

Lemma admin_role_active r : access_inv r -> is_Some (roles r !! SYSTEM_ROLE_ADMIN) -> is_Some (active_role r SYSTEM_ROLE_ADMIN).
Proof.
  intros Hinv [ro Hro]. apply is_Some_active_role. exists ro. split; [done|].
  pose proof (ai_role _ Hinv _ _ Hro) as Hok. unfold role_ok in Hok. rewrite (ai_role_key _ Hinv _ _ Hro) in Hok.
  by destruct Hok as (_ & ? & _).
Qed.

Lemma createLocalTrustOperatorIn_ok userId identityId auditId now r r' x :
  access_inv r -> fresh_user userId identityId r -> local_trust_identity r = None ->
  createLocalTrustOperatorIn userId identityId auditId now r = (r', Ok x) -> rtc access_change r r'.
Proof.
  intros Hinv Hfresh Hnone H. unfold createLocalTrustOperatorIn in H.
  apply bind_ok in H as ([] & r1 & Hu & H). apply bind_ok in H as ([] & r2 & Hi & H).
  apply bind_ok in H as ([] & r3 & Hg & H). apply bind_ok in H as ([] & r4 & Ha & H).
  run_inv H. apply modify_ok in Ha as ->.
  eapply create_ok; try done. intros id Hid. simpl in Hid. apply list_elem_of_singleton in Hid as ->.
  apply admin_role_active; [done|].
  apply grants_put_ok in Hg as (_ & _ & Hroles & _ & _). apply identities_put_ok in Hi as (_ & _ & _ & ->).
  apply users_put_ok in Hu as [_ ->]. apply (Hroles SYSTEM_ROLE_ADMIN). simpl. set_solver.
Qed.

(** The user is activated unless it is active. *)
Lemma activate_ok user now r r' x :
  users r !! u_id user = Some user -> UserAccountRecordSchema user = true ->
  (if decide (u_status user = UserActive) then mret () else users_put (user_with_status UserActive None now user)) r
  = (r', Ok x) ->
  exists user', r' = with_users <[u_id user := user']> r /\ u_id user' = u_id user
    /\ u_status user' = UserActive /\ UserAccountRecordSchema user' = true /\ (u_status user = UserActive -> user' = user).
Proof.
  intros Hu Hs H. case_decide as Hst.
  - run_inv H. exists user. by rewrite user_row_same.
  - apply users_put_ok in H as [Hs' ->]. eexists. split; [done|]. done.
Qed.

Lemma restoreLocalTrustOperatorIn_ok userId now r r' x :
  access_inv r -> local_trust_user r userId -> restoreLocalTrustOperatorIn userId now r = (r', Ok x) ->
  rtc access_change r r'.
Proof.
  intros Hinv Hlocal H. pose proof Hlocal as (idk & i & Hi & _ & Hiu).
  destruct (ai_identity_user _ Hinv _ _ Hi) as [u Hu]. rewrite Hiu in Hu. clear i Hi Hiu.
  destruct (ai_user_grant _ Hinv _ _ Hu) as [g Hg].
  pose proof (ai_user_key _ Hinv _ _ Hu) as Hk. pose proof (ai_user_schema _ Hinv _ _ Hu) as Hs. subst userId.
  unfold restoreLocalTrustOperatorIn in H.
  apply bind_ok in H as (og & r1 & H1 & H). run_inv H1. rewrite Hg in H. simpl in H.
  apply bind_ok in H as ([] & r1 & H1 & H). apply bind_ok in H as (ou & r2 & H2 & H). run_inv H2.
  apply bind_ok in H as ([] & r2 & H2 & H).
  destruct (canonical_grant g).
  - run_inv H1. rewrite Hu in H2. run_inv H.
    apply activate_ok in H2 as (u' & -> & Hid & Hst & Hs' & Hsame); [|congruence|done].
    destruct (decide (u_status u = UserActive)) as [Ha|Ha].
    + rewrite (Hsame Ha), user_row_same by congruence. done.
    + eapply rtc_once, (change_activate _ _ u u'); try done; congruence.
  - apply grants_put_ok in H1 as (_ & _ & Hroles & _ & ->). simpl in *. rewrite Hu in H2.
    apply activate_ok in H2 as (u' & -> & Hid & Hst & Hs' & _); [|simpl; congruence|done].
    apply revokeSessionsIn_ok in H as ->; [|by apply (ai_session_key _ Hinv)].
    set (g' := UserAccessGrant (u_id u) [SYSTEM_ROLE_ADMIN] NodesAll InheritNodeScope
                 (g_authorizationRevision g + 1) (g_createdAt g) now).
    apply rtc_once, (change_access _ _ u u' g (stored_grant g')); try done; simpl; try congruence.
    + intros id Hid'. rewrite stored_grant_roles in Hid'. simpl in Hid'. apply list_elem_of_singleton in Hid' as ->.
      apply admin_role_active; [done|]. apply Hroles. set_solver.
    + intros Hadm. apply (has_admin_frame r); try done; simpl.
      * intros id v Hv. destruct (decide (u_id u = id)) as [<-|]; [|rewrite lookup_insert_ne by done; eauto].
        rewrite lookup_insert_eq. exists u'. rewrite Hv in Hu. injection Hu as <-. auto.
      * intros id v Hv. destruct (decide (u_id u = id)) as [<-|]; [|rewrite lookup_insert_ne by done; eauto].
        rewrite lookup_insert_eq. eexists. split; [done|]. intros _. simpl. set_solver.
      * intros id v Hv. exists v. split; [done|apply same_identity_refl].
Qed.

Lemma local_trust_identity_ok r i :
  local_trust_identity r = Some i -> local_trust_user r (i_userId i) /\ exists id, identities r !! id = Some i.
Proof.
  unfold local_trust_identity. intros [[id Hi] Hk]%table_find_Some. propify. split; [|eauto]. by exists id, i.
Qed.

Lemma roles_put_frame ro r :
  users (roles_put lower ro r).1 = users r /\ identities (roles_put lower ro r).1 = identities r.
Proof. unfold roles_put, mbind, M_bind, gets, assert. by destruct (role_index lower ro r). Qed.

Lemma mfor_frame {A} (R : repository -> repository -> Prop) `{!PreOrder R} (l : list A) f r :
  (forall a r, R r (f a r).1) -> R r (mfor l f r).1.
Proof.
  intros Hf. revert r. induction l as [|a l IH]; intros r; [done|].
  change (R r ((f a ≫= fun _ => mfor l f) r).1). unfold mbind, M_bind. specialize (Hf a r).
  destruct (f a r) as [r1 [[]|e]]; simpl in *; [|done]. etrans; [exact Hf|apply IH].
Qed.

Definition same_accounts (r r' : repository) : Prop := users r' = users r /\ identities r' = identities r.
#[local] Instance same_accounts_preorder : PreOrder same_accounts.
Proof. split; [done|]. intros x y z [H1 H2] [H3 H4]. split; congruence. Qed.

(** Making sure of the roles leaves users and identities alone. *)
Lemma ensureSystemRoles_frame now r : same_accounts r (ensureSystemRoles lower now r).1.
Proof. apply (mfor_frame same_accounts). intros ro r1. apply roles_put_frame. Qed.

Lemma ensureLocalTrustOperator_refines userId identityId auditId now :
  refines_when (fresh_user userId identityId) (ensureLocalTrustOperator lower userId identityId auditId now).
Proof.
  apply (refines_bind _ (fun _ => fresh_user userId identityId)).
  - intros r r' x Hinv _ E. by eapply ensureSystemRoles_refines.
  - intros _. apply refines_transaction. intros r r' res Hinv Hfresh H.
    apply bind_ok in H as (existing & r1 & H1 & H). run_inv H1.
    destruct (local_trust_identity r) as [i|] eqn:Hlocal; [|by eapply createLocalTrustOperatorIn_ok].
    apply local_trust_identity_ok in Hlocal as [Huser [id Hi]].
    destruct (ai_identity_user _ Hinv _ _ Hi) as [u Hu].
    apply bind_ok in H as (ou & r1 & H1 & H). run_inv H1. rewrite Hu in H.
    apply bind_ok in H as ([] & r1 & H1 & H). run_inv H. by eapply restoreLocalTrustOperatorIn_ok.
  - intros r r' [] [H1 H2] E. pose proof (ensureSystemRoles_frame now r) as [E1 E2]. rewrite E in E1, E2. simpl in *.
    split; congruence.
Qed.

Lemma retireLocalTrustAccess_refines now : refines (retireLocalTrustAccess now).
Proof.
  apply refines_transaction. intros r r' res Hinv _ H.
  apply bind_ok in H as (oi & r1 & H1 & H). run_inv H1.
  destruct (local_trust_identity r) as [i|] eqn:Hlocal; [|by run_inv H].
  apply local_trust_identity_ok in Hlocal as [Huser [id Hi]].
  apply bind_ok in H as ([] & r1 & Hrev & H). pose proof (revokeSessions_change _ _ _ _ Hinv Hrev) as Hdrop.
  apply revokeSessionsIn_ok in Hrev as Hr1; [|by apply (ai_session_key _ Hinv)].
  apply bind_ok in H as (ou & r2 & H1 & H). run_inv H1. simpl in H.
  destruct (users r !! i_userId i) as [u|] eqn:Hu; [|run_inv H; by apply rtc_once].
  case_decide; [run_inv H; by apply rtc_once|].
  apply bind_ok in H as ([] & r2 & Hput & H). run_inv H. apply users_put_ok in Hput as [Hs ->].
  pose proof (ai_user_key _ Hinv _ _ Hu) as Hk. rewrite <- Hk in *.
  by apply rtc_once, (change_retire _ _ u (user_with_status UserArchived (Some now) now u)).
Qed.

(** *** Bootstrap *)

Definition can_detail (userId : jsstring) (r : repository) : Prop :=
  is_Some (users r !! userId) /\ is_Some (grants r !! userId).

Lemma detail_succeeds userId r : can_detail userId r -> is_ok (detail userId r).2 = true.
Proof.
  intros [[u Hu] [g Hg]]. unfold detail, requireUser, identities_listByUser, mbind, M_bind, gets, require.
  rewrite Hu; simpl. rewrite Hg; simpl. done.
Qed.

Lemma createLocalUserInternal_detail userId identityId salt now input r r' created :
  createLocalUserInternal toLocaleLowerCase scrypt base64url userId identityId salt now input r = (r', Ok created) ->
  can_detail (u_id created.1) r'.
Proof.
  intros H. apply transaction_ok in H.
  apply bind_ok in H as (existing & r1 & H1 & H). apply bind_ok in H as ([] & r2 & H2 & H).
  apply bind_ok in H as ([] & r3 & H3 & H). apply bind_ok in H as ([] & r4 & Hu & H).
  apply bind_ok in H as ([] & r5 & Hi & H). apply bind_ok in H as ([] & r6 & Hg & H). run_inv H.
  apply users_put_ok in Hu as [_ ->]. apply identities_put_ok in Hi as (_ & _ & _ & ->).
  apply grants_put_ok in Hg as (_ & _ & _ & _ & ->). split; simpl; rewrite lookup_insert_eq; eauto.
Qed.

Lemma initializeForBootstrap_refines now : refines (initializeForBootstrap lower now).
Proof.
  apply refines_transaction. intros r r' [] Hinv _ H.
  apply bind_ok in H as (at_ & r1 & H1 & H). run_inv H1. apply bind_ok in H as ([] & r1 & H1 & H).
  assert (Hc : rtc access_change r r1).
  { destruct (initializedAt r); [by run_inv H1|]. apply modify_ok in H1 as ->. apply rtc_once, change_providers; try done. apply (ai_provider_key _ Hinv). }
  etrans; [exact Hc|]. eapply ensureSystemRoles_refines; [by eapply rtc_change_inv|done|exact H].
Qed.

Lemma initializeForBootstrap_frame now r : same_accounts r (initializeForBootstrap lower now r).1.
Proof.
  unfold initializeForBootstrap, transaction.
  match goal with |- context [match ?m with _ => _ end] => destruct m as [r' [a|e]] eqn:E end; simpl; [|done].
  apply bind_ok in E as (at_ & r1 & H1 & E). run_inv H1. apply bind_ok in E as ([] & r1 & H1 & E).
  assert (Hs : same_accounts r r1).
  { destruct (initializedAt r); [by run_inv H1|]. by apply modify_ok in H1 as ->. }
  etrans; [exact Hs|]. pose proof (ensureSystemRoles_frame now r1) as Hf. by rewrite E in Hf.
Qed.

Lemma bootstrapAdmin_refines inProgress userId identityId salt now username password displayName :
  refines_when (fresh_user userId identityId)
    (bootstrapAdmin lower toLocaleLowerCase scrypt base64url inProgress userId identityId salt now username password displayName).
Proof.
  unfold bootstrapAdmin. do 3 (apply refines_after; [by auto with jsdb|intros ?]).
  apply (refines_bind _ (fun _ => fresh_user userId identityId)).
  - intros r r' x Hinv _ E. by eapply initializeForBootstrap_refines.
  - intros _. apply (refines_bind _ (fun created => can_detail (u_id created.1))).
    + apply createLocalUserInternal_refines.
    + intros created r r' x Hinv Hcan E. unfold catch in E. pose proof (detail_succeeds _ _ Hcan) as Hok.
      pose proof (reads_detail (u_id created.1) r) as Hr.
      destruct (detail (u_id created.1) r) as [r1 [d|e]]; simpl in *; [|done]. injection E as <- <-. by subst.
    + intros r r' created _ E. by eapply createLocalUserInternal_detail.
  - intros r r' [] [H1 H2] E. pose proof (initializeForBootstrap_frame now r) as [E1 E2]. rewrite E in E1, E2. simpl in *.
    split; congruence.
Qed.
End Operations.
