(* ===== verification/LoginLimiter.v ===== *)
(** * The sign-in rate limiter

    [LoginRateLimiter] of
    [packages/control-plane/src/control-plane/auth/user-authentication.ts].
    Times are milliseconds; the clock of a call is an argument. *)

From S2P Require Export Prelude.

Record RateLimitOptions := RateLimit {
  windowMs : Z;
  maxFailuresPerSource : nat;
  maxFailuresPerUsername : nat;
  maxConcurrent : nat
}.

Definition DEFAULT_RATE_LIMIT : RateLimitOptions := RateLimit (15 * 60 * 1000) 20 10 4.

Abbreviation buckets := (jsmap jsstring (list Z)).

Record LoginRateLimiter := Limiter {
  sourceFailures : buckets;
  usernameFailures : buckets;
  concurrent : nat
}.

Definition new_limiter : LoginRateLimiter := Limiter [] [] 0.

(** The error carries the seconds to wait. *)
Definition limiter_error (retryAfterMs : Z) : Z := Z.max 1 (- ((- retryAfterMs) / 1000)).

Section Limiter.
Context (options : RateLimitOptions).

(** [current]: the failures of the key inside the window, which replace its
    bucket. *)
Definition current_failures (m : buckets) (key : jsstring) (timestamp : Z) : list Z :=
  filter (fun value => (value > timestamp - windowMs options)%Z) (default [] (mget key m)).

Definition assertAvailable (m : buckets) (key : jsstring) (maximum : nat) (timestamp : Z)
  : buckets * result Z unit :=
  let failures := current_failures m key timestamp in
  (mset key failures m,
   if decide (maximum <= length failures)
   then Throw (limiter_error (default 0 (head failures) + windowMs options - timestamp)%Z)
   else Ok ()).

Definition limiter_begin (sourceId username : jsstring) (timestamp : Z) (l : LoginRateLimiter)
  : LoginRateLimiter * result Z unit :=
  match assertAvailable (sourceFailures l) sourceId (maxFailuresPerSource options) timestamp with
  | (sources, Throw e) => (Limiter sources (usernameFailures l) (concurrent l), Throw e)
  | (sources, Ok _) =>
      match assertAvailable (usernameFailures l) username (maxFailuresPerUsername options) timestamp with
      | (names, Throw e) => (Limiter sources names (concurrent l), Throw e)
      | (names, Ok _) =>
          if decide (maxConcurrent options <= concurrent l)
          then (Limiter sources names (concurrent l), Throw (limiter_error 1000))
          else (Limiter sources names (S (concurrent l)), Ok ())
      end
  end.

Definition limiter_finish (l : LoginRateLimiter) : LoginRateLimiter :=
  Limiter (sourceFailures l) (usernameFailures l) (pred (concurrent l)).

Definition add_failure (m : buckets) (key : jsstring) (timestamp : Z) : buckets :=
  mset key (current_failures m key timestamp ++ [timestamp]) m.

Definition limiter_failure (sourceId username : jsstring) (timestamp : Z) (l : LoginRateLimiter)
  : LoginRateLimiter :=
  Limiter (add_failure (sourceFailures l) sourceId timestamp) (add_failure (usernameFailures l) username timestamp)
    (concurrent l).

(** ** Sign-in attempts

    An attempt begins, may fail once, and finishes; attempts overlap. *)
Record attempt := Attempt { at_source : jsstring; at_username : jsstring; at_failed : bool }.

(** The failures so far, oldest first. *)
Record failure_log := FailureLog { fl_source : jsstring; fl_username : jsstring; fl_time : Z }.

Record attempts := Attempts {
  att_limiter : LoginRateLimiter; att_flights : list attempt; att_log : list failure_log
}.

Inductive attempt_step (t : Z) : attempts -> attempts -> Prop :=
| step_begin l l' flights log source username
    (Hbegin : limiter_begin source username t l = (l', Ok ())) :
    attempt_step t (Attempts l flights log) (Attempts l' (Attempt source username false :: flights) log)
| step_refused l l' flights log source username e
    (Hbegin : limiter_begin source username t l = (l', Throw e)) :
    attempt_step t (Attempts l flights log) (Attempts l' flights log)
| step_failure l before source username after log :
    attempt_step t (Attempts l (before ++ Attempt source username false :: after) log)
      (Attempts (limiter_failure source username t l) (before ++ Attempt source username true :: after)
         (log ++ [FailureLog source username t]))
| step_finish l before a after log :
    attempt_step t (Attempts l (before ++ a :: after) log) (Attempts (limiter_finish l) (before ++ after) log).

(** Runs with a clock that does not go back. *)
Inductive attempt_run : Z -> attempts -> Prop :=
| run_start t : attempt_run t (Attempts new_limiter [] [])
| run_step t t' s s' : attempt_run t s -> (t <= t')%Z -> attempt_step t' s s' -> attempt_run t' s'.

(** The failures of a username, or of a source, inside the window. *)
Definition recent_failures (key : failure_log -> jsstring) (log : list failure_log) (k : jsstring) (now : Z)
  : list failure_log :=
  filter (fun f => key f = k /\ (fl_time f > now - windowMs options)%Z) log.
End Limiter.
