(* ===== verification/LoginLimiterSpec.v ===== *)
(** * What the sign-in rate limiter bounds *)

From S2P Require Import LoginLimiter.

Section LimiterSpec.
Context (options : RateLimitOptions).
Abbreviation run := (attempt_run options).
Abbreviation window := (windowMs options).

(** ** A bucket holds the failures of its key inside the window *)

Definition log_times (key : failure_log -> jsstring) (log : list failure_log) (k : jsstring) (now : Z) : list Z :=
  fl_time <$> recent_failures options key log k now.

(** What a bucket table promises from a time on. *)
Definition bucket_ok (key : failure_log -> jsstring) (log : list failure_log) (m : buckets) (t : Z) : Prop :=
  forall k now, (t <= now)%Z -> current_failures options m k now = log_times key log k now.

Lemma bucket_ok_later key log m t t' : (t <= t')%Z -> bucket_ok key log m t -> bucket_ok key log m t'.
Proof. intros Ht H k now Hnow. apply H. lia. Qed.

Lemma current_failures_prune m k k' t now :
  (t <= now)%Z ->
  current_failures options (mset k (current_failures options m k t) m) k' now = current_failures options m k' now.
Proof.
  intros Ht. unfold current_failures. rewrite mget_mset. case_decide as Hk; [subst k'|done]. simpl.
  rewrite list_filter_filter. apply list_filter_iff. intros x. lia.
Qed.

Lemma bucket_ok_prune key log m k t : bucket_ok key log m t -> bucket_ok key log (mset k (current_failures options m k t) m) t.
Proof. intros H k' now Hnow. rewrite current_failures_prune by done. by apply H. Qed.

Lemma bucket_ok_add key log m k t f :
  bucket_ok key log m t -> key f = k -> fl_time f = t ->
  bucket_ok key (log ++ [f]) (add_failure options m k t) t.
Proof.
  intros H Hk Ht k' now Hnow. unfold current_failures, add_failure, log_times, recent_failures.
  rewrite mget_mset, filter_app, fmap_app, filter_cons, filter_nil.
  pose proof (H k' now Hnow) as Hold. unfold log_times, recent_failures in Hold.
  case_decide as Hk'; simpl.
  - subst k'. rewrite filter_app, filter_cons, filter_nil, <- Hold, (H k t) by lia.
    assert (Hpast : filter (fun value => (value > now - window)%Z) (log_times key log k t) = current_failures options m k now).
    { rewrite <- (H k t) by lia. unfold current_failures. rewrite list_filter_filter. apply list_filter_iff. intros x. lia. }
    rewrite Hpast. f_equal. repeat case_decide; simpl; try done; naive_solver lia.
  - rewrite <- Hold. rewrite decide_False by naive_solver. by rewrite app_nil_r.
Qed.

(** ** The outcome of [begin] *)

Lemma assertAvailable_spec m key maximum t :
  assertAvailable options m key maximum t
  = (mset key (current_failures options m key t) m,
     if decide (maximum <= length (current_failures options m key t))
     then Throw (limiter_error (default 0 (head (current_failures options m key t)) + window - t)%Z) else Ok ()).
Proof. done. Qed.

Lemma limiter_begin_Ok source username t l l' x :
  limiter_begin options source username t l = (l', Ok x) ->
  length (current_failures options (sourceFailures l) source t) < maxFailuresPerSource options
  /\ length (current_failures options (usernameFailures l) username t) < maxFailuresPerUsername options
  /\ concurrent l < maxConcurrent options
  /\ l' = Limiter (mset source (current_failures options (sourceFailures l) source t) (sourceFailures l))
            (mset username (current_failures options (usernameFailures l) username t) (usernameFailures l))
            (S (concurrent l)).
Proof.
  unfold limiter_begin. rewrite !assertAvailable_spec.
  repeat case_decide; intros [= <-]; try done. split_and!; try done; lia.
Qed.

Lemma limiter_begin_Throw source username t l l' e :
  limiter_begin options source username t l = (l', Throw e) ->
  concurrent l' = concurrent l
  /\ sourceFailures l' = mset source (current_failures options (sourceFailures l) source t) (sourceFailures l)
  /\ (usernameFailures l' = usernameFailures l
      \/ usernameFailures l' = mset username (current_failures options (usernameFailures l) username t) (usernameFailures l)).
Proof.
  unfold limiter_begin. rewrite !assertAvailable_spec.
  repeat case_decide; intros [= <-]; simpl; auto.
Qed.

(** ** The invariant of a run *)

Definition in_flight (key : attempt -> jsstring) (flights : list attempt) (k : jsstring) : nat :=
  length (filter (fun a => at_failed a = false /\ key a = k) flights).

Definition failures_bounded (fkey : failure_log -> jsstring) (akey : attempt -> jsstring) (maximum : nat)
    (t : Z) (s : attempts) : Prop :=
  forall k now, (t <= now)%Z ->
    length (recent_failures options fkey (att_log s) k now) + in_flight akey (att_flights s) k
    <= maximum + pred (maxConcurrent options).

Record limiter_inv (t : Z) (s : attempts) : Prop := LimiterInv {
  li_concurrent : concurrent (att_limiter s) = length (att_flights s);
  li_max : concurrent (att_limiter s) <= maxConcurrent options;
  li_sources : bucket_ok fl_source (att_log s) (sourceFailures (att_limiter s)) t;
  li_usernames : bucket_ok fl_username (att_log s) (usernameFailures (att_limiter s)) t;
  li_source_bound : failures_bounded fl_source at_source (maxFailuresPerSource options) t s;
  li_username_bound : failures_bounded fl_username at_username (maxFailuresPerUsername options) t s
}.

Lemma recent_later key log k t now :
  (t <= now)%Z -> length (recent_failures options key log k now) <= length (recent_failures options key log k t).
Proof.
  intros Ht. unfold recent_failures. induction log as [|f log IH]; [done|].
  rewrite !filter_cons. repeat case_decide; simpl; try lia. naive_solver lia.
Qed.

Lemma in_flight_le key flights k : in_flight key flights k <= length flights.
Proof. apply length_filter. Qed.

(** Beginning: fewer failures than the limit, and a free place. *)
Lemma begin_bounded fkey akey maximum t l l' flights log a :
  failures_bounded fkey akey maximum t (Attempts l flights log) ->
  length (recent_failures options fkey log (akey a) t) < maximum ->
  length flights < maxConcurrent options -> at_failed a = false ->
  failures_bounded fkey akey maximum t (Attempts l' (a :: flights) log).
Proof.
  intros Hold Hmax Hfree Ha k now Hnow. specialize (Hold k now Hnow). simpl in *.
  unfold in_flight in *. rewrite filter_cons. case_decide as Hk; [|done].
  destruct Hk as [_ <-]. simpl. pose proof (recent_later fkey log (akey a) t now Hnow).
  pose proof (in_flight_le akey flights (akey a)) as Hle. unfold in_flight in Hle. lia.
Qed.

(** A failure moves an attempt from the ones in flight to the log. *)
Lemma failure_bounded fkey akey maximum t l l' before a b after log f :
  failures_bounded fkey akey maximum t (Attempts l (before ++ a :: after) log) ->
  at_failed a = false -> at_failed b = true -> fkey f = akey a ->
  failures_bounded fkey akey maximum t (Attempts l' (before ++ b :: after) (log ++ [f])).
Proof.
  intros Hold Ha Hb Hf k now Hnow. specialize (Hold k now Hnow). simpl in *. unfold in_flight, recent_failures in *.
  rewrite !filter_app, !filter_cons, !filter_nil, !length_app in *.
  rewrite (decide_False (P := at_failed b = false /\ _)) by naive_solver congruence.
  repeat case_decide; simpl in *; try lia; naive_solver congruence.
Qed.

Lemma finish_bounded fkey akey maximum t l l' before a after log :
  failures_bounded fkey akey maximum t (Attempts l (before ++ a :: after) log) ->
  failures_bounded fkey akey maximum t (Attempts l' (before ++ after) log).
Proof.
  intros Hold k now Hnow. specialize (Hold k now Hnow). simpl in *. unfold in_flight in *.
  rewrite !filter_app, !filter_cons, !length_app in *. case_decide; simpl in *; lia.
Qed.

Lemma failures_later fkey akey maximum t t' s :
  (t <= t')%Z -> failures_bounded fkey akey maximum t s -> failures_bounded fkey akey maximum t' s.
Proof. intros Ht H k now Hnow. apply H. lia. Qed.

Lemma limiter_inv_later t t' s : (t <= t')%Z -> limiter_inv t s -> limiter_inv t' s.
Proof. intros Ht []. constructor; eauto using bucket_ok_later, failures_later. Qed.

Lemma limiter_inv_step t s s' : limiter_inv t s -> attempt_step options t s s' -> limiter_inv t s'.
Proof.
  intros [Hc Hm Hs Hu Hsb Hub] Hstep. destruct Hstep; simpl in *.
  - apply limiter_begin_Ok in Hbegin as (H1 & H2 & H3 & ->).
    rewrite Hs in H1 by lia. rewrite Hu in H2 by lia. unfold log_times in H1, H2. rewrite length_fmap in H1, H2.
    constructor; simpl; [lia|lia|by apply bucket_ok_prune|by apply bucket_ok_prune|..].
    + eapply begin_bounded; eauto. lia.
    + eapply begin_bounded; eauto. lia.
  - apply limiter_begin_Throw in Hbegin as (H1 & H2 & H3).
    constructor; simpl; [congruence|lia|rewrite H2; by apply bucket_ok_prune| |done|done].
    destruct H3 as [->| ->]; [done|by apply bucket_ok_prune].
  - constructor; simpl.
    + rewrite Hc, !length_app. done.
    + done.
    + by apply bucket_ok_add.
    + by apply bucket_ok_add.
    + by eapply failure_bounded.
    + by eapply failure_bounded.
  - constructor; simpl; try done.
    + rewrite Hc, !length_app; simpl. lia.
    + lia.
    + by eapply finish_bounded.
    + by eapply finish_bounded.
Qed.

Lemma limiter_inv_run t s : run t s -> limiter_inv t s.
Proof.
  induction 1 as [t|t t' s s' Hrun IH Ht Hstep].
  - constructor; simpl; [done|lia|done|done|intros k now _; unfold in_flight; simpl; lia..].
  - eapply limiter_inv_step; [by eapply limiter_inv_later|done].
Qed.


(** A sign-in is let through exactly when neither its source nor its
    username has reached its limit of failures inside the window and a place
    is free; a refusal counts nothing and takes no place. *)
Theorem login_begin_decides t s source username (Hrun : run t s) :
  let outcome := limiter_begin options source username t (att_limiter s) in
  (is_ok outcome.2 = true <->
     length (recent_failures options fl_source (att_log s) source t) < maxFailuresPerSource options
     /\ length (recent_failures options fl_username (att_log s) username t) < maxFailuresPerUsername options
     /\ length (att_flights s) < maxConcurrent options)
  /\ concurrent outcome.1 = concurrent (att_limiter s) + (if is_ok outcome.2 then 1 else 0)
  /\ (forall k now, (t <= now)%Z ->
       current_failures options (usernameFailures outcome.1) k now
       = current_failures options (usernameFailures (att_limiter s)) k now).
Proof.
  destruct (limiter_inv_run _ _ Hrun) as [Hc Hm Hs Hu _ _]. intros outcome.
  assert (H1 : length (recent_failures options fl_source (att_log s) source t)
               = length (current_failures options (sourceFailures (att_limiter s)) source t)).
  { rewrite Hs by lia. unfold log_times. by rewrite length_fmap. }
  assert (H2 : length (recent_failures options fl_username (att_log s) username t)
               = length (current_failures options (usernameFailures (att_limiter s)) username t)).
  { rewrite Hu by lia. unfold log_times. by rewrite length_fmap. }
  rewrite H1, H2, <- Hc. subst outcome. unfold limiter_begin. rewrite !assertAvailable_spec.
  repeat case_decide; simpl; (split; [split; [done|lia]|]) || (split; [split; [lia|done]|]);
    (split; [lia|]); intros k now Hnow; rewrite ?current_failures_prune by done; done.
Qed.
End LimiterSpec.

Definition tight : RateLimitOptions := RateLimit 1000 2 1 2.
Definition tight_run : attempts :=
  Attempts (limiter_failure tight (js "ip") (js "bob") 5
    (limiter_begin tight (js "ip") (js "bob") 5 new_limiter).1)
    [Attempt (js "ip") (js "bob") true] [FailureLog (js "ip") (js "bob") 5].

Lemma tight_run_runs : attempt_run tight 5 tight_run.
Proof.
  eapply (run_step _ 5 5); [eapply (run_step _ 5 5); [apply run_start|lia|]|lia|].
  - by apply (step_begin _ _ _ (limiter_begin tight (js "ip") (js "bob") 5 new_limiter).1 [] [] (js "ip") (js "bob")).
  - apply (step_failure _ _ _ [] (js "ip") (js "bob") [] []).
Qed.


Lemma login_begin_decides_witness :
  is_ok (limiter_begin tight (js "ip") (js "bob") 5 (att_limiter tight_run)).2 = false
  /\ concurrent (limiter_begin tight (js "ip") (js "bob") 5 (att_limiter tight_run)).1 = 1.
Proof.
  destruct (login_begin_decides tight 5 tight_run (js "ip") (js "bob") tight_run_runs) as (_ & H & _).
  split; [reflexivity|]. rewrite H. reflexivity.
Defined.
