(* ===== verification/UserSessions.v ===== *)
(** * Signing in and sessions

    [ControlPlaneUserAuthentication] of
    [packages/control-plane/src/control-plane/auth/user-authentication.ts]:
    sign-in, session tokens, renewal, step-up and revocation, over the access
    database of [AccessStore] and the limiter of [LoginLimiter].  The state of
    the instance and the database are threaded together; drawn identifiers and
    secrets and the time of a call are arguments, [sha256] is Node's. *)

From S2P Require Export UserService LoginLimiter.

Definition SESSION_TTL_MS : Z := 1000 * 60 * 60 * 24 * 14.
Definition SESSION_RENEWAL_WINDOW_MS : Z := 1000 * 60 * 60 * 24 * 7.
Definition SESSION_ACTIVITY_PRUNE_INTERVAL_MS : Z := 1000 * 60 * 60.
Definition STEP_UP_MAX_AGE_MS : Z := 5 * 60000.

(** The fields of the instance, with the operator the user service remembers
    once it was made sure of ([localTrustOperatorPromise]). *)
Record auth_state := AuthState {
  passwordUpdates : list jsstring;
  limiter : LoginRateLimiter;
  sessionActivity : jsmap jsstring (Z * Z);
  recentAuthentication : jsmap jsstring Z;
  nextSessionActivityPruneAt : Z;
  localTrustOperator : option (jsstring * jsstring)
}.

Definition new_auth_state : auth_state := AuthState [] new_limiter [] [] 0 None.

Definition with_limiter f st := AuthState (passwordUpdates st) (f (limiter st)) (sessionActivity st) (recentAuthentication st) (nextSessionActivityPruneAt st) (localTrustOperator st).
Definition with_passwordUpdates f st := AuthState (f (passwordUpdates st)) (limiter st) (sessionActivity st) (recentAuthentication st) (nextSessionActivityPruneAt st) (localTrustOperator st).
Definition with_recentAuthentication f st := AuthState (passwordUpdates st) (limiter st) (sessionActivity st) (f (recentAuthentication st)) (nextSessionActivityPruneAt st) (localTrustOperator st).
Definition with_sessionActivity f st := AuthState (passwordUpdates st) (limiter st) (f (sessionActivity st)) (recentAuthentication st) (nextSessionActivityPruneAt st) (localTrustOperator st).
Definition with_pruneAt at_ st := AuthState (passwordUpdates st) (limiter st) (sessionActivity st) (recentAuthentication st) at_ (localTrustOperator st).
Definition with_localTrustOperator op st := AuthState (passwordUpdates st) (limiter st) (sessionActivity st) (recentAuthentication st) (nextSessionActivityPruneAt st) op.

(** ** Operations on the instance and the database *)

Definition S_ (A : Type) : Type := auth_state * repository -> (auth_state * repository) * result service_error A.
#[export] Instance S_ret : MRet S_ := fun A a s => (s, Ok a).
#[export] Instance S_bind : MBind S_ := fun A B k m s =>
  match m s with (s', Ok a) => k a s' | (s', Throw e) => (s', Throw e) end.

(** A call to the user service or its store. *)
Definition db {A} (m : M A) : S_ A := fun '(st, r) => let '(r', x) := m r in ((st, r'), x).
Definition instance {A} (f : auth_state -> A) : S_ A := fun s => (s, Ok (f s.1)).
Definition update (f : auth_state -> auth_state) : S_ unit := fun '(st, r) => ((f st, r), Ok ()).
Definition fail {A} (e : service_error) : S_ A := fun s => (s, Throw e).
Definition check (b : bool) (e : service_error) : S_ unit := if b then mret () else fail e.

(** [try { m } finally { cleanup }]. *)
Definition finally {A} (m : S_ A) (cleanup : auth_state -> auth_state) : S_ A := fun s =>
  let '((st, r), x) := m s in ((cleanup st, r), x).

Definition auth_error (code : string) (status : Z) : service_error := ServiceError code status.

(** What [resolve] returns: the session, its user and the authorization. *)
Record session_view := SessionView {
  sv_session : UserSessionRecord;
  sv_userId : jsstring;
  sv_authorization : user_authorization;
  sv_requiresPasswordChange : bool
}.

(** What a new session returns. *)
Record created_session := CreatedSession {
  cs_sessionToken : jsstring;
  cs_expiresAt : Z;
  cs_session : UserSessionRecord;
  cs_authorization : user_authorization;
  cs_requiresPasswordChange : bool
}.

Section Sessions.
Context (options : RateLimitOptions) (sha256 toLocaleLowerCase : jsstring -> jsstring)
  (scrypt : jsstring -> jsstring -> list N) (base64url : list N -> jsstring) (fromBase64url : jsstring -> list N).

Abbreviation verifyPassword := (verifyControlPlanePassword scrypt fromBase64url).

(** ** Bookkeeping *)

Definition forget_session (sessionId : jsstring) : S_ unit :=
  update (fun st => with_sessionActivity (mdelete sessionId) (with_recentAuthentication (mdelete sessionId) st)).

Definition trackSessionActivity (session : UserSessionRecord) (timestamp : Z) (st : auth_state) : auth_state :=
  let st := if decide (nextSessionActivityPruneAt st <= timestamp)%Z
            then with_pruneAt (timestamp + SESSION_ACTIVITY_PRUNE_INTERVAL_MS)%Z
                   (with_sessionActivity (filter (fun e => (timestamp < e.2.1)%Z)) st)
            else st in
  with_sessionActivity (mset (s_id session) (s_expiresAt session, timestamp)) st.

(** The published session with its last activity; a session that is gone is
    not found. *)
Definition publicSession (sessionId : jsstring) : S_ (UserSessionRecord * Z) :=
  session ← db (sessions_get sessionId);
  activity ← instance (fun st => mget sessionId (sessionActivity st));
  match session with
  | Some (_, session) => mret (session, default (s_createdAt session) (snd <$> activity))
  | None => fail (auth_error "CONTROL_PLANE_SESSION_NOT_FOUND" 404)
  end.

(** ** Creating sessions *)

Definition used_user (at_ : Z) (user : UserAccountRecord) : UserAccountRecord :=
  UserAccount (u_id user) (u_displayName user) (u_status user) (Some at_) (u_archivedAt user) (u_createdAt user) at_.
Definition used_identity (at_ : Z) (i : LoginIdentityRecord) : LoginIdentityRecord :=
  LoginIdentity (i_id i) (i_userId i) (i_kind i) (i_normalizedLoginName i) (i_passwordHash i)
    (i_requiresPasswordChange i) (i_providerId i) (i_subject i) (i_verifiedEmail i) (Some at_) (i_createdAt i) at_.

Definition record_login (userId : jsstring) (identity : LoginIdentityRecord) (at_ : Z) : M unit :=
  user ← gets (fun r => users r !! userId);
  user ← require user InvalidRecord;
  _ ← users_put (used_user at_ user);
  identities_put (used_identity at_ identity).

Definition new_session (sessionId secret : jsstring) (now : Z) (identityId : jsstring) (clientType : client_type)
    (device client : option jsstring) (revision : Z) : UserSessionRecord :=
  UserSession sessionId identityId revision (sha256 secret) (now + SESSION_TTL_MS) clientType device client now now.

Definition store_session (sessionId secret identityId : jsstring) (now : Z) (clientType : client_type)
    (device client : option jsstring) (loginAt : option Z)
  : M (UserSessionRecord * LoginIdentityRecord * user_authorization) :=
  transaction (
    identity ← gets (fun r => identities r !! identityId);
    identity ← require identity (auth_error "CONTROL_PLANE_IDENTITY_NOT_FOUND" 404);
    _ ← assert (bool_decide (clientType = ClientWeb) || negb (i_requiresPasswordChange identity))
          (auth_error "AUTH_PASSWORD_CHANGE_REQUIRED" 403);
    access ← authorization (i_userId identity);
    _ ← match loginAt with Some at_ => record_login (i_userId identity) identity at_ | None => mret () end;
    let session := new_session sessionId secret now identityId clientType device client
                     (az_authorizationRevision access) in
    _ ← sessions_put (i_userId identity) session;
    mret (session, identity, access)).

Definition createSessionForIdentity (sessionId secret : jsstring) (now : Z) (identityId : jsstring)
    (clientType : client_type) (device client : option jsstring) (loginAt : option Z) : S_ created_session :=
  _ ← check (negb (bool_decide (clientType = ClientMobile)) || bool_decide (is_Some device))
        (auth_error "AUTH_MOBILE_DEVICE_REQUIRED" 400);
  _ ← check (negb (bool_decide (clientType = ClientCli)) || bool_decide (is_Some client))
        (auth_error "AUTH_CLI_CLIENT_REQUIRED" 400);
  created ← db (store_session sessionId secret identityId now clientType device client loginAt);
  let '(session, identity, access) := created in
  _ ← update (trackSessionActivity session now);
  _ ← update (with_recentAuthentication (mset sessionId now));
  published ← publicSession sessionId;
  _ ← db (detail (i_userId identity));
  mret (CreatedSession (session_token sessionId secret) (s_expiresAt session) published.1 access
          (i_requiresPasswordChange identity)).

(** ** Signing in *)

Definition unknown_source : jsstring := js "unknown".

Definition failed_login (sourceId loginName : jsstring) (now : Z) {A} : S_ A :=
  _ ← update (with_limiter (limiter_failure options sourceId loginName now));
  fail (auth_error "AUTH_LOGIN_FAILED" 401).

(** The sign-in throttle, as a call on the instance. *)
Definition begin_login (sourceId loginName : jsstring) (now : Z) : S_ unit := fun '(st, r) =>
  match limiter_begin options sourceId loginName now (limiter st) with
  | (l, Ok _) => ((with_limiter (fun _ => l) st, r), Ok ())
  | (l, Throw _) => ((with_limiter (fun _ => l) st, r), Throw (auth_error "AUTH_LOGIN_RATE_LIMITED" 429))
  end.

Definition loginLocal (sessionId secret : jsstring) (now : Z) (username password : jsstring)
    (source : option jsstring) (clientType : client_type) (device : option jsstring) : S_ created_session :=
  let loginName := normalizeControlPlaneLoginName toLocaleLowerCase username in
  let sourceId := default unknown_source (oor (trim <$> source) None) in
  _ ← begin_login sourceId loginName now;
  finally (
    identity ← db (identities_findByLoginName loginName);
    match identity with
    | Some identity =>
        if verifyPassword password (default [] (i_passwordHash identity)) then
          user ← db (gets (fun r => users r !! i_userId identity));
          match user with
          | Some user =>
              if decide (u_status user = UserActive)
              then createSessionForIdentity sessionId secret now (i_id identity) clientType device None (Some now)
              else failed_login sourceId loginName now
          | None => failed_login sourceId loginName now
          end
        else failed_login sourceId loginName now
    | None => failed_login sourceId loginName now
    end) (with_limiter limiter_finish).

(** ** Resolving tokens *)

Definition drop_session (sessionId : jsstring) : S_ (option session_view) :=
  _ ← db (sessions_delete sessionId);
  _ ← forget_session sessionId;
  mret None.

Definition client_allowed (clientTypes : option (list client_type)) (clientType : client_type) : bool :=
  match clientTypes with Some types => bool_decide (clientType ∈ types) | None => true end.

(** [try { authorization } catch]: [None] when it throws. *)
Definition try_authorization (userId : jsstring) : M (option user_authorization) := fun r =>
  match authorization userId r with (r', Ok a) => (r', Ok (Some a)) | (r', Throw _) => (r', Ok None) end.

Definition resolve (now : Z) (token : option jsstring) (clientTypes : option (list client_type))
  : S_ (option session_view) :=
  match split_token token with
  | None => mret None
  | Some (sessionId, secret) =>
      found ← db (sessions_get sessionId);
      match found with
      | None => _ ← forget_session sessionId; mret None
      | Some (userId, session) =>
          if decide (s_expiresAt session <= now)%Z then _ ← forget_session sessionId; mret None
          else if negb (client_allowed clientTypes (s_clientType session))
                  || negb (bool_decide (s_tokenHash session = sha256 secret)) then mret None
          else
            access ← db (try_authorization userId);
            match access with
            | None => drop_session sessionId
            | Some access =>
                if decide (az_authorizationRevision access <> s_authorizationRevision session)
                then drop_session sessionId
                else
                  _ ← update (trackSessionActivity session now);
                  _ ← db (detail userId);
                  identity ← db (gets (fun r => identities r !! s_identityId session));
                  mret (Some (SessionView session userId access
                                (match identity with Some i => i_requiresPasswordChange i | None => false end)))
            end
      end
  end.

(** ** Confirming who is there *)

Definition auth_required : service_error := auth_error "CONTROL_PLANE_AUTH_REQUIRED" 401.

Definition require_view (view : option session_view) : S_ session_view :=
  match view with Some v => mret v | None => fail auth_required end.

Definition stored_identity (view : session_view) : S_ (option LoginIdentityRecord) :=
  db (gets (fun r => identities r !! s_identityId (sv_session view))).

Definition is_local_password (identity : LoginIdentityRecord) : bool := bool_decide (i_kind identity = LocalPassword).

Definition changeLocalPassword (now : Z) (salt sessionId secret : jsstring) (token : option jsstring)
    (currentPassword newPassword : jsstring) : S_ created_session :=
  current ← resolve now token (Some [ClientWeb]);
  current ← require_view current;
  busy ← instance (fun st => bool_decide (sv_userId current ∈ passwordUpdates st));
  _ ← check (negb busy) (auth_error "AUTH_CREDENTIAL_UPDATE_IN_PROGRESS" 409);
  _ ← update (with_passwordUpdates (cons (sv_userId current)));
  finally (
    identity ← stored_identity current;
    match identity with
    | Some identity =>
        if is_local_password identity && verifyPassword currentPassword (default [] (i_passwordHash identity)) then
          _ ← check (negb (verifyPassword newPassword (default [] (i_passwordHash identity))))
                (auth_error "AUTH_PASSWORD_UNCHANGED" 400);
          _ ← db (resetLocalPassword scrypt base64url (i_userId identity) salt newPassword false now);
          createSessionForIdentity sessionId secret now (i_id identity) ClientWeb None None None
        else fail (auth_error "AUTH_CURRENT_PASSWORD_INVALID" 400)
    | None => fail (auth_error "AUTH_CURRENT_PASSWORD_INVALID" 400)
    end) (with_passwordUpdates (filter (fun u => u <> sv_userId current))).

(** The time until which the confirmation counts. *)
Definition stepUp (now : Z) (token : option jsstring) (password : jsstring) : S_ Z :=
  current ← resolve now token (Some [ClientWeb]);
  current ← require_view current;
  identity ← stored_identity current;
  match identity with
  | None => fail auth_required
  | Some identity =>
      _ ← check (is_local_password identity) (auth_error "STEP_UP_REAUTHENTICATION_REQUIRED" 403);
      _ ← check (verifyPassword password (default [] (i_passwordHash identity)))
            (auth_error "STEP_UP_AUTHENTICATION_FAILED" 401);
      _ ← update (with_recentAuthentication (mset (s_id (sv_session current)) now));
      mret (now + STEP_UP_MAX_AGE_MS)%Z
  end.

Definition requireRecent (now : Z) (token : option jsstring) (maxAgeMs : Z) : S_ Z :=
  current ← resolve now token (Some [ClientWeb]);
  current ← require_view current;
  recent ← instance (fun st => mget (s_id (sv_session current)) (recentAuthentication st));
  let authenticatedAt := default (s_createdAt (sv_session current)) recent in
  _ ← check (now <? authenticatedAt + maxAgeMs)%Z (auth_error "STEP_UP_REQUIRED" 403);
  mret authenticatedAt.

(** ** Renewal, listing and revocation *)

Definition renewed_session (now : Z) (s : UserSessionRecord) : UserSessionRecord :=
  UserSession (s_id s) (s_identityId s) (s_authorizationRevision s) (s_tokenHash s) (now + SESSION_TTL_MS)
    (s_clientType s) (s_device s) (s_clientInfo s) (s_createdAt s) now.

Definition renew_record (now : Z) (sessionId secret : jsstring) (clientTypes : list client_type)
  : M (option UserSessionRecord) :=
  transaction (
    found ← sessions_get sessionId;
    match found with
    | Some (userId, session) =>
        if bool_decide (s_clientType session ∈ clientTypes)
           && bool_decide (s_tokenHash session = sha256 secret) && (now <? s_expiresAt session)%Z
        then _ ← sessions_put userId (renewed_session now session); mret (Some (renewed_session now session))
        else mret None
    | None => mret None
    end).

(** The new expiry, or the present one while it is far away. *)
Definition renewSession (now : Z) (token : option jsstring) (clientTypes : list client_type) : S_ (option Z) :=
  current ← resolve now token (Some clientTypes);
  match current with
  | None => mret None
  | Some current =>
      if decide (s_expiresAt (sv_session current) - now > SESSION_RENEWAL_WINDOW_MS)%Z
      then mret (Some (s_expiresAt (sv_session current)))
      else
        match split_token token with
        | None => mret None
        | Some (sessionId, secret) =>
            renewed ← db (renew_record now sessionId secret clientTypes);
            match renewed with
            | None => mret None
            | Some renewed => _ ← update (trackSessionActivity renewed now); mret (Some (s_expiresAt renewed))
            end
        end
  end.

Definition currentSession (now : Z) (token : option jsstring) (clientTypes : list client_type)
  : S_ (option session_view) :=
  _ ← (if decide (ClientMobile ∈ clientTypes) then renewSession now token [ClientMobile] else mret None);
  resolve now token (Some clientTypes).

Fixpoint publishSessions (l : list UserSessionRecord) : S_ (list (UserSessionRecord * Z)) :=
  match l with
  | [] => mret []
  | s :: l' => p ← publicSession (s_id s); rest ← publishSessions l'; mret (p :: rest)
  end.

Definition assert_manager (requestingUserId : jsstring) : S_ unit :=
  access ← db (authorization requestingUserId);
  check (bool_decide (js "users:manage" ∈ az_permissionIds access)) (auth_error "CONTROL_PLANE_FORBIDDEN" 403).

Definition listSessions (now : Z) (requestingUserId targetUserId : jsstring)
  : S_ (list (UserSessionRecord * Z)) :=
  _ ← (if decide (requestingUserId = targetUserId) then mret () else assert_manager requestingUserId);
  rows ← db (sessions_listByUser targetUserId);
  publishSessions (filter (fun s => (now < s_expiresAt s)%Z) rows).

Definition listClientSessions (now : Z) (requestingUserId : jsstring) (clientType : client_type)
  : S_ (list (UserSessionRecord * Z)) :=
  rows ← db (sessions_listByUser requestingUserId);
  publishSessions (filter (fun s => s_clientType s = clientType /\ (now < s_expiresAt s)%Z) rows).

Definition revokeSession (requestingUserId sessionId : jsstring) (restrictToClientTypes : option (list client_type))
  : S_ bool :=
  found ← db (sessions_get sessionId);
  match found with
  | None => _ ← forget_session sessionId; mret false
  | Some (userId, session) =>
      if negb (client_allowed restrictToClientTypes (s_clientType session)) then mret false
      else
        _ ← (if decide (userId = requestingUserId) then mret () else assert_manager requestingUserId);
        revoked ← db (sessions_delete sessionId);
        _ ← (if revoked : bool then forget_session sessionId else mret ());
        mret revoked
  end.

(** [token?.split(".")[0]]. *)
Definition logout (token : option jsstring) : S_ unit :=
  match token ≫= (fun t => head (js_split dot t)) with
  | Some sessionId =>
      if truthy sessionId then _ ← db (sessions_delete sessionId); forget_session sessionId else mret ()
  | None => mret ()
  end.
End Sessions.
