(* ===== verification/UserSessionsRefine.v ===== *)
(** * The session operations make only the specified changes

    As [UserServiceRefine], for the operations of [UserSessions]. *)

From S2P Require Export UserServiceRefine UserSessions.

Definition srefines_when {A} (P : repository -> Prop) (m : S_ A) : Prop :=
  forall st r st' r' x, access_inv r -> P r -> m (st, r) = ((st', r'), x) -> rtc access_change r r'.
Abbreviation srefines := (srefines_when (fun _ => True)).

(** Operations that leave the database alone. *)
Definition sreads {A} (m : S_ A) : Prop := forall st r, (m (st, r)).1.2 = r.

Lemma srefines_reads {A} P (m : S_ A) : sreads m -> srefines_when P m.
Proof. intros Hm st r st' r' x _ _ E. specialize (Hm st r). rewrite E in Hm. simpl in Hm. by subst. Qed.

Lemma srefines_db {A} P (m : M A) : refines_when P m -> srefines_when P (db m).
Proof.
  intros Hm st r st' r' x Hinv HP E. unfold db in E. destruct (m r) as [r1 y] eqn:E1.
  injection E as <- <- <-. by eapply Hm.
Qed.

Lemma srefines_bind {A B} P (Q : A -> repository -> Prop) (m : S_ A) (k : A -> S_ B) :
  srefines_when P m -> (forall a, srefines_when (Q a) (k a)) ->
  (forall st r st' r' a, access_inv r -> P r -> m (st, r) = ((st', r'), Ok a) -> Q a r') -> srefines_when P (m ≫= k).
Proof.
  intros Hm Hk HQ st r st' r' x Hinv HP E. unfold mbind, S_bind in E.
  destruct (m (st, r)) as [[st1 r1] [a|e]] eqn:E1.
  - pose proof (Hm _ _ _ _ _ Hinv HP E1) as H1. etrans; [exact H1|].
    eapply Hk; [by eapply rtc_change_inv| |exact E]. by eapply HQ.
  - injection E as <- <- <-. by eapply Hm.
Qed.

Lemma srefines_then {A B} P (m : S_ A) (k : A -> S_ B) :
  srefines_when P m -> (forall a, srefines (k a)) -> srefines_when P (m ≫= k).
Proof. intros Hm Hk. by apply (srefines_bind P (fun _ _ => True)). Qed.

Lemma srefines_after {A B} P (m : S_ A) (k : A -> S_ B) :
  sreads m -> (forall a, srefines_when P (k a)) -> srefines_when P (m ≫= k).
Proof.
  intros Hm Hk. apply (srefines_bind P (fun _ => P)); [by apply srefines_reads|done|].
  intros st r st' r' a _ HP E. specialize (Hm st r). rewrite E in Hm. simpl in Hm. by subst.
Qed.

Lemma srefines_finally {A} P (m : S_ A) f : srefines_when P m -> srefines_when P (finally m f).
Proof.
  intros Hm st r st' r' x Hinv HP E. unfold finally in E. destruct (m (st, r)) as [[st1 r1] y] eqn:E1.
  injection E as <- <- <-. by eapply Hm.
Qed.

Lemma sreads_db {A} (m : M A) : reads m -> sreads (db m).
Proof. intros Hm st r. unfold db. specialize (Hm r). by destruct (m r). Qed.
Lemma sreads_ret {A} (a : A) : sreads (mret a). Proof. done. Qed.
Lemma sreads_fail {A} e : sreads (fail e : S_ A). Proof. done. Qed.
Lemma sreads_check b e : sreads (check b e). Proof. by destruct b. Qed.
Lemma sreads_instance {A} (f : auth_state -> A) : sreads (instance f). Proof. done. Qed.
Lemma sreads_update f : sreads (update f). Proof. done. Qed.
Lemma sreads_bind {A B} (m : S_ A) (k : A -> S_ B) : sreads m -> (forall a, sreads (k a)) -> sreads (m ≫= k).
Proof.
  intros Hm Hk st r. unfold mbind, S_bind. specialize (Hm st r).
  destruct (m (st, r)) as [[st1 r1] [a|e]]; simpl in *; subst; [apply Hk|done].
Qed.
#[export] Hint Resolve sreads_db sreads_ret sreads_fail sreads_check sreads_instance sreads_update sreads_bind : jsdb.

Lemma reads_sessions_get id : reads (sessions_get id). Proof. done. Qed.
Lemma reads_sessions_listByUser u : reads (sessions_listByUser u). Proof. done. Qed.
Lemma reads_try_authorization u : reads (try_authorization u).
Proof.
  intros r. unfold try_authorization. pose proof (reads_authorization u r) as H.
  by destruct (authorization u r) as [r' [a|e]].
Qed.
Lemma reads_findByLoginName n : reads (identities_findByLoginName n). Proof. done. Qed.
#[export] Hint Resolve reads_sessions_get reads_sessions_listByUser reads_try_authorization reads_findByLoginName : jsdb.

Lemma sreads_publicSession id : sreads (publicSession id).
Proof.
  unfold publicSession. apply sreads_bind; [auto with jsdb|intros s]. apply sreads_bind; [auto with jsdb|intros a].
  destruct s as [[]|]; auto with jsdb.
Qed.
Lemma sreads_forget id : sreads (forget_session id). Proof. done. Qed.
Lemma sreads_stored_identity v : sreads (stored_identity v). Proof. apply sreads_db. auto with jsdb. Qed.
Lemma sreads_require_view v : sreads (require_view v). Proof. destruct v; simpl; auto with jsdb. Qed.
Lemma sreads_assert_manager u : sreads (assert_manager u). Proof. unfold assert_manager. auto 10 with jsdb. Qed.
#[export] Hint Resolve sreads_publicSession sreads_forget sreads_stored_identity sreads_require_view sreads_assert_manager : jsdb.

Lemma sreads_publishSessions l : sreads (publishSessions l).
Proof.
  induction l as [|s l IH]; simpl; [auto with jsdb|].
  apply sreads_bind; [apply sreads_publicSession|]. intros p.
  apply sreads_bind; [exact IH|]. intros rest. apply sreads_ret.
Qed.

(** ** Storing sessions *)

Definition fresh_session (sessionId : jsstring) (r : repository) : Prop := sessions r !! sessionId = None.

Lemma sessions_delete_refines P id : refines_when P (sessions_delete id).
Proof.
  intros r r' x Hinv _ E. unfold sessions_delete, mbind, M_bind, gets, modify, mret, M_ret in E. injection E as <- <-.
  apply rtc_once, (change_sessions_drop _ _ (fun e => e.1 <> id)); try done; simpl.
  apply map_eq. intros i. apply option_eq. intros s.
  rewrite lookup_delete_Some, map_lookup_filter_Some. simpl. naive_solver.
Qed.

Lemma sessions_delete_fresh id id' r r' x : fresh_session id r -> sessions_delete id' r = (r', x) -> fresh_session id r'.
Proof.
  unfold fresh_session, sessions_delete, mbind, M_bind, gets, modify, mret, M_ret. intros H [= <- <-]. simpl.
  apply lookup_delete_None. auto.
Qed.

(** Recording a sign-in changes only times. *)
Lemma record_login_ok r r' i at_ x :
  access_inv r -> identities r !! i_id i = Some i -> record_login (i_userId i) i at_ r = (r', Ok x) ->
  rtc access_change r r' /\ sessions r' = sessions r /\ grants r' = grants r
  /\ (forall s, session_user r' s = session_user r s)
  /\ (forall u, users r !! i_userId i = Some u -> users r' !! i_userId i = Some (used_user at_ u)).
Proof.
  intros Hinv Hi H. unfold record_login in H.
  apply bind_ok in H as (u & r1 & H1 & H). run_inv H1. apply bind_ok in H as (u' & r1 & H1 & H). run_inv H1.
  apply bind_ok in H as ([] & r1 & Hu & H). apply users_put_ok in Hu as [Hs ->].
  apply identities_put_ok in H as (Hsi & _ & Hidx & ->).
  pose proof (ai_user_key _ Hinv _ _ H1) as Hk.
  assert (Hstep1 : access_change r (with_users <[u_id (used_user at_ u') := used_user at_ u']> r)).
  { apply (change_profile _ _ u' (used_user at_ u')); try done. simpl. by rewrite Hk. }
  split; [|split_and!; try done; simpl].
  - etrans; [apply rtc_once, Hstep1|]. apply rtc_once.
    apply (change_identity _ _ i (used_identity at_ i)); done || by constructor.
  - intros s. unfold session_user. simpl. destruct (decide (i_id i = s_identityId s)) as [<-|].
    + by rewrite lookup_insert_eq, Hi.
    + by rewrite lookup_insert_ne.
  - intros u Hu. rewrite H1 in Hu. injection Hu as <-. rewrite Hk. by rewrite lookup_insert_eq.
Qed.

Section Sessions.
Context (options : RateLimitOptions) (sha256 toLocaleLowerCase : jsstring -> jsstring)
  (scrypt : jsstring -> jsstring -> list N) (base64url : list N -> jsstring) (fromBase64url : jsstring -> list N).

Lemma store_session_refines sessionId secret identityId now clientType device client loginAt :
  refines_when (fresh_session sessionId)
    (store_session sha256 sessionId secret identityId now clientType device client loginAt).
Proof.
  apply refines_transaction. intros r r' res Hinv Hfresh H.
  apply bind_ok in H as (i & r1 & H1 & H). run_inv H1. apply bind_ok in H as (i & r1 & H1 & H). run_inv H1.
  rename H1 into Hi. pose proof (ai_identity_key _ Hinv _ _ Hi) as Hk. subst identityId.
  apply bind_ok in H as ([] & r1 & H1 & H). run_inv H1.
  apply bind_ok in H as (az & r1 & H2 & H). apply authorization_ok in H2 as (-> & u & g & Hu & Hst & Hg & _ & ->).
  apply bind_ok in H as ([] & r1 & Hlogin & H).
  assert (Hl : rtc access_change r r1 /\ sessions r1 = sessions r /\ grants r1 = grants r
    /\ exists u1, users r1 !! i_userId i = Some u1 /\ u_status u1 = UserActive).
  { destruct loginAt as [at_|]; [|run_inv Hlogin; split_and!; try done; by exists u].
    destruct (record_login_ok _ _ _ _ _ Hinv Hi Hlogin) as (? & ? & ? & _ & Huser). split_and!; try done.
    exists (used_user at_ u). split; [by apply Huser|done]. }
  destruct Hl as (Hsteps & Es & Eg & u1 & Hu1 & Hst1). etrans; [exact Hsteps|].
  apply bind_ok in H as ([] & r2 & Hput & H). run_inv H.
  apply sessions_put_ok in Hput as (_ & Hown & ->).
  eapply rtc_once, (change_session_new _ _ _ (i_userId i) u1 g); try done; [|by rewrite Eg].
  simpl. by rewrite Es.
Qed.

Lemma createSessionForIdentity_refines sessionId secret now identityId clientType device client loginAt :
  srefines_when (fresh_session sessionId)
    (createSessionForIdentity sha256 sessionId secret now identityId clientType device client loginAt).
Proof.
  unfold createSessionForIdentity. do 2 (apply srefines_after; [by auto with jsdb|intros ?]).
  apply srefines_then; [apply srefines_db, store_session_refines|]. intros [[session identity] access].
  apply srefines_reads. repeat (apply sreads_bind; [by auto with jsdb|intros ?]). auto with jsdb.
Qed.

Lemma sreads_failed_login sourceId loginName now A : sreads (@failed_login options sourceId loginName now A).
Proof. unfold failed_login. auto with jsdb. Qed.

Lemma loginLocal_refines sessionId secret now username password source clientType device :
  srefines_when (fresh_session sessionId)
    (loginLocal options sha256 toLocaleLowerCase scrypt fromBase64url sessionId secret now username password source
       clientType device).
Proof.
  unfold loginLocal. apply srefines_after.
  { intros st r. unfold begin_login. by destruct (limiter_begin _ _ _ _ _) as [? []]. }
  intros _. apply srefines_finally. apply srefines_after; [auto with jsdb|]. intros [i|];
    [|apply srefines_reads, sreads_failed_login].
  destruct (verifyControlPlanePassword _ _ _ _); [|apply srefines_reads, sreads_failed_login].
  apply srefines_after; [auto with jsdb|]. intros [u|]; [|apply srefines_reads, sreads_failed_login].
  case_decide; [|apply srefines_reads, sreads_failed_login]. apply createSessionForIdentity_refines.
Qed.

(** ** Resolving *)

Lemma drop_session_refines P sessionId : srefines_when P (drop_session sessionId).
Proof.
  unfold drop_session. apply srefines_then; [apply srefines_db, sessions_delete_refines|].
  intros _. apply srefines_reads. auto with jsdb.
Qed.

Lemma resolve_refines P now token clientTypes : srefines_when P (resolve sha256 now token clientTypes).
Proof.
  unfold resolve. destruct (split_token token) as [[sessionId secret]|]; [|apply srefines_reads; auto with jsdb].
  apply srefines_after; [auto with jsdb|]. intros [[userId session]|]; [|apply srefines_reads; auto with jsdb].
  case_decide; [apply srefines_reads; auto with jsdb|].
  destruct (_ || _); [apply srefines_reads; auto with jsdb|].
  apply srefines_after; [auto with jsdb|]. intros [access|]; [|apply drop_session_refines].
  case_decide; [apply drop_session_refines|]. apply srefines_reads.
  repeat (apply sreads_bind; [by auto with jsdb|intros ?]). auto with jsdb.
Qed.

(** Operations that at most delete one session. *)
Definition sdrops {A} (m : S_ A) : Prop :=
  forall st r, (m (st, r)).1.2 = r \/ exists id, (m (st, r)).1.2 = with_sessions (delete id) r.

Lemma sdrops_reads {A} (m : S_ A) : sreads m -> sdrops m.
Proof. intros Hm st r. left. apply Hm. Qed.

Lemma sdrops_after {A B} (m : S_ A) (k : A -> S_ B) : sreads m -> (forall a, sdrops (k a)) -> sdrops (m ≫= k).
Proof.
  intros Hm Hk st r. unfold mbind, S_bind. specialize (Hm st r).
  destruct (m (st, r)) as [[st1 r1] [a|e]]; simpl in *; subst; [apply Hk|by left].
Qed.

Lemma sdrops_drop_session id : sdrops (drop_session id).
Proof. intros st r. right. by exists id. Qed.

Lemma resolve_sdrops now token clientTypes : sdrops (resolve sha256 now token clientTypes).
Proof.
  unfold resolve. destruct (split_token token) as [[sessionId secret]|]; [|apply sdrops_reads; auto with jsdb].
  apply sdrops_after; [auto with jsdb|]. intros [[userId session]|]; [|apply sdrops_reads; auto with jsdb].
  case_decide; [apply sdrops_reads; auto with jsdb|].
  destruct (_ || _); [apply sdrops_reads; auto with jsdb|].
  apply sdrops_after; [auto with jsdb|]. intros [access|]; [|apply sdrops_drop_session].
  case_decide; [apply sdrops_drop_session|]. apply sdrops_reads.
  repeat (apply sreads_bind; [by auto with jsdb|intros ?]). auto with jsdb.
Qed.

(** Resolving adds no session. *)
Lemma resolve_fresh now token clientTypes id st r st' r' x :
  fresh_session id r -> resolve sha256 now token clientTypes (st, r) = ((st', r'), x) -> fresh_session id r'.
Proof.
  intros Hf E. destruct (resolve_sdrops now token clientTypes st r) as [H|[id' H]]; rewrite E in H; simpl in H; subst r'.
  - done.
  - unfold fresh_session in *. simpl. apply lookup_delete_None. auto.
Qed.

(** ** The other operations *)

Lemma resetLocalPassword_fresh userId salt password rp now id r r' x :
  access_inv r -> fresh_session id r ->
  resetLocalPassword scrypt base64url userId salt password rp now r = (r', Ok x) -> fresh_session id r'.
Proof.
  intros Hinv Hf H. apply transaction_ok in H.
  apply bind_ok in H as (u & r1 & H1 & H). apply requireUser_ok in H1 as [-> Hu].
  apply bind_ok in H as (i & r1 & H1 & H). unfold localIdentity in H1. run_inv H1.
  apply bind_ok in H as (i & r1 & H1 & H). run_inv H1.
  apply bind_ok in H as ([] & r1 & Hput & H). apply identities_put_ok in Hput as (_ & _ & _ & ->).
  apply bump_ok in H as (g & _ & ->); [|by apply (ai_session_key _ Hinv)|by apply (ai_grant_key _ Hinv)].
  unfold fresh_session in *. simpl. unfold sessions_revoked. simpl. rewrite map_lookup_filter_None. auto.
Qed.

Lemma changeLocalPassword_refines now salt sessionId secret token currentPassword newPassword :
  srefines_when (fresh_session sessionId)
    (changeLocalPassword sha256 scrypt base64url fromBase64url now salt sessionId secret token currentPassword newPassword).
Proof.
  unfold changeLocalPassword.
  apply (srefines_bind _ (fun _ => fresh_session sessionId)); [apply resolve_refines| |].
  2: { intros st r st' r' a _ Hf E. by eapply resolve_fresh. }
  intros view. apply srefines_after; [auto with jsdb|]. intros current.
  do 3 (apply srefines_after; [by auto with jsdb|intros ?]). apply srefines_finally.
  apply srefines_after; [auto with jsdb|]. intros [i|]; [|apply srefines_reads; auto with jsdb].
  destruct (_ && _); [|apply srefines_reads; auto with jsdb].
  apply srefines_after; [by auto with jsdb|intros ?].
  apply (srefines_bind _ (fun _ => fresh_session sessionId)).
  - apply srefines_db. intros r r' x Hinv _ E. by eapply resetLocalPassword_refines.
  - intros _. apply createSessionForIdentity_refines.
  - intros st r st' r' [] Hinv Hf E. unfold db in E.
    destruct (resetLocalPassword _ _ _ _ _ _ _ r) as [r1 [[]|e]] eqn:E1; [|done]. injection E as <- <-.
    by eapply resetLocalPassword_fresh.
Qed.

Lemma stepUp_refines now token password :
  srefines (stepUp sha256 scrypt fromBase64url now token password).
Proof.
  unfold stepUp. apply srefines_then; [apply resolve_refines|]. intros view. apply srefines_reads.
  apply sreads_bind; [auto with jsdb|]. intros current. apply sreads_bind; [auto with jsdb|].
  intros [i|]; [|auto with jsdb]. repeat (apply sreads_bind; [by auto with jsdb|intros ?]). auto with jsdb.
Qed.

Lemma requireRecent_refines now token maxAgeMs : srefines (requireRecent sha256 now token maxAgeMs).
Proof.
  unfold requireRecent. apply srefines_then; [apply resolve_refines|]. intros view. apply srefines_reads.
  apply sreads_bind; [auto with jsdb|]. intros current. repeat (apply sreads_bind; [by auto with jsdb|intros ?]).
  auto with jsdb.
Qed.

Lemma renew_record_refines now sessionId secret clientTypes :
  refines (renew_record sha256 now sessionId secret clientTypes).
Proof.
  apply refines_transaction. intros r r' res Hinv _ H.
  apply bind_ok in H as (found & r1 & H1 & H). unfold sessions_get in H1. run_inv H1.
  destruct (sessions r !! sessionId) as [s|] eqn:Hs; simpl in H; [|by run_inv H].
  destruct (session_user r s) as [u|] eqn:Hu; simpl in H; [|by run_inv H].
  match type of H with context [if ?b then _ else _] => destruct b end; [|by run_inv H].
  apply bind_ok in H as ([] & r1 & Hput & H). run_inv H. apply sessions_put_ok in Hput as (_ & _ & ->).
  pose proof (ai_session_key _ Hinv _ _ Hs) as Hk. subst sessionId.
  by apply rtc_once, (change_session_renew _ _ s (renewed_session now s)).
Qed.

Lemma renewSession_refines now token clientTypes : srefines (renewSession sha256 now token clientTypes).
Proof.
  unfold renewSession. apply srefines_then; [apply resolve_refines|]. intros [v|]; [|apply srefines_reads; auto with jsdb].
  case_decide; [apply srefines_reads; auto with jsdb|].
  destruct (split_token token) as [[sessionId secret]|]; [|apply srefines_reads; auto with jsdb].
  apply srefines_then; [apply srefines_db, renew_record_refines|]. intros [s|]; apply srefines_reads; auto with jsdb.
Qed.

Lemma currentSession_refines now token clientTypes : srefines (currentSession sha256 now token clientTypes).
Proof.
  unfold currentSession. apply srefines_then; [|intros; apply resolve_refines].
  case_decide; [apply renewSession_refines|apply srefines_reads; auto with jsdb].
Qed.

Lemma revokeSession_refines requestingUserId sessionId restrict :
  srefines (revokeSession requestingUserId sessionId restrict).
Proof.
  unfold revokeSession. apply srefines_after; [auto with jsdb|].
  intros [[userId session]|]; [|apply srefines_reads; auto with jsdb].
  destruct (negb _); [apply srefines_reads; auto with jsdb|].
  apply srefines_after; [case_decide; auto with jsdb|]. intros _.
  apply srefines_then; [apply srefines_db, sessions_delete_refines|]. intros revoked.
  apply srefines_reads. apply sreads_bind; [destruct revoked; auto with jsdb|auto with jsdb].
Qed.

Lemma logout_refines token : srefines (logout token).
Proof.
  unfold logout. destruct (token ≫= _) as [sessionId|]; [|apply srefines_reads; auto with jsdb].
  destruct (truthy sessionId); [|apply srefines_reads; auto with jsdb].
  apply srefines_then; [apply srefines_db, sessions_delete_refines|]. intros _. apply srefines_reads. auto with jsdb.
Qed.
End Sessions.

(** ** A created session *)

Lemma sbind_ok {A B} (m : S_ A) (k : A -> S_ B) s s' b :
  (m ≫= k : S_ B) s = (s', Ok b) -> exists a s1, m s = (s1, Ok a) /\ k a s1 = (s', Ok b).
Proof. unfold mbind, S_bind. destruct (m s) as [s1 [a|e]]; [eauto|done]. Qed.

Lemma db_ok {A} (m : M A) st r s' a : db m (st, r) = (s', Ok a) -> exists r', s' = (st, r') /\ m r = (r', Ok a).
Proof. unfold db. destruct (m r) as [r' x]. intros [= <- ->]. eauto. Qed.

Lemma check_ok b e s s' x : check b e s = (s', Ok x) -> s' = s /\ b = true.
Proof. destruct b; [|done]. by intros [= <- _]. Qed.

Section Created.
Context (sha256 : jsstring -> jsstring).

(** What it means that a session was stored. *)
Lemma store_session_ok sessionId secret identityId now clientType device client loginAt r r' session identity access :
  store_session sha256 sessionId secret identityId now clientType device client loginAt r
    = (r', Ok (session, identity, access)) ->
  identities r !! identityId = Some identity /\ authorization (i_userId identity) r = (r, Ok access)
  /\ session = new_session sha256 sessionId secret now identityId clientType device client (az_authorizationRevision access)
  /\ sessions r' !! sessionId = Some session /\ session_user r' session = Some (i_userId identity)
  /\ (clientType = ClientWeb \/ i_requiresPasswordChange identity = false).
Proof.
  intros H. apply transaction_ok in H.
  apply bind_ok in H as (i & r1 & H1 & H). run_inv H1. apply bind_ok in H as (i & r1 & H1 & H). run_inv H1.
  rename H1 into Hi. apply bind_ok in H as ([] & r1 & H1 & H). run_inv H1.
  apply bind_ok in H as (az & r1 & H2 & H). pose proof H2 as Haz. apply authorization_ok in H2 as (-> & _).
  apply bind_ok in H as ([] & r1 & Hlogin & H). apply bind_ok in H as ([] & r2 & Hput & H). run_inv H.
  simplify_eq.
  apply sessions_put_ok in Hput as (_ & Hown & ->). split_and!; try done; simpl; [by rewrite lookup_insert_eq|].
  apply orb_true_iff in H1 as [H1|H1]; propify; auto.
Qed.

Lemma createSession_ok sessionId secret now identityId clientType device client loginAt st r s' created :
  createSessionForIdentity sha256 sessionId secret now identityId clientType device client loginAt (st, r) = (s', Ok created) ->
  exists identity access,
    let session := new_session sha256 sessionId secret now identityId clientType device client (az_authorizationRevision access) in
    identities r !! identityId = Some identity /\ authorization (i_userId identity) r = (r, Ok access)
    /\ created = CreatedSession (session_token sessionId secret) (now + SESSION_TTL_MS) session access
                   (i_requiresPasswordChange identity)
    /\ sessions s'.2 !! sessionId = Some session /\ session_user s'.2 session = Some (i_userId identity)
    /\ mget sessionId (recentAuthentication s'.1) = Some now
    /\ (clientType = ClientMobile -> is_Some device) /\ (clientType = ClientCli -> is_Some client)
    /\ (clientType = ClientWeb \/ i_requiresPasswordChange identity = false).
Proof.
  intros H. unfold createSessionForIdentity in H.
  apply sbind_ok in H as ([] & s1 & H1 & H). apply check_ok in H1 as [-> Hm].
  apply sbind_ok in H as ([] & s1 & H1 & H). apply check_ok in H1 as [-> Hc].
  apply sbind_ok in H as ([[session identity] access] & s1 & H1 & H).
  apply db_ok in H1 as (r1 & -> & H1). apply store_session_ok in H1 as (Hi & Haz & -> & Hs & Hu & Hweb).
  apply sbind_ok in H as ([] & s1 & [= <-] & H). apply sbind_ok in H as ([] & s1 & [= <-] & H).
  apply sbind_ok in H as (p & s1 & Hp & H). unfold publicSession in Hp.
  apply sbind_ok in Hp as (found & s2 & Hf & Hp). injection Hf as <- <-.
  rewrite Hs in Hp. simpl in Hp. rewrite Hu in Hp. simpl in Hp.
  apply sbind_ok in Hp as (act & s2 & [= <- <-] & Hp). injection Hp as <- <-.
  apply sbind_ok in H as (d & s1 & Hd & H). apply db_ok in Hd as (r2 & -> & Hd). apply reads_ok in Hd as ->; [|auto with jsdb].
  injection H as <- <-. exists identity, access. simpl. split_and!; try done.
  - apply mget_mset_eq.
  - intros ->. simpl in Hm. by propify.
  - intros ->. simpl in Hc. by propify.
Qed.
End Created.
