(* ===== verification/IdentityProviders.v ===== *)
(** * Identity providers and external sign-in

    [packages/control-plane/src/control-plane/auth/identity-provider-service.ts]
    and the flows of [auth/external-authentication.ts].  What goes over the
    network is a parameter: [discoverIssuer] fetches the discovery document of
    an issuer and returns the issuer it names, [exchange] the exchange of a code for verified claims,
    [startUrl] the authorization URL of a flow.  [seal] is the secret
    envelope, [urlString] the language's [new URL(issuer).toString()]. *)

From S2P Require Export UserSessions.

(** ** The provider service *)

Record provider_config := ProviderConfig {
  pc_name : jsstring;
  pc_kind : provider_kind;
  pc_status : provider_status;
  pc_loginPolicy : login_policy;
  pc_issuer : option jsstring;
  pc_clientId : jsstring;
  pc_clientSecret : jsstring;
  pc_callbackUrl : jsstring
}.

Record provider_update := ProviderUpdate {
  pu_name : option jsstring;
  pu_kind : option provider_kind;
  pu_status : option provider_status;
  pu_loginPolicy : option login_policy;
  pu_issuer : option jsstring;
  pu_clientId : option jsstring;
  pu_clientSecret : option jsstring;
  pu_callbackUrl : option jsstring
}.

(** [s.replace(/\/$/, "")]. *)
Definition strip_slash (s : jsstring) : jsstring :=
  match last s with Some c => if (c =? 47)%N then take (length s - 1) s else s | None => s end.

Section Providers.
Context (urlString : jsstring -> jsstring) (seal : jsstring -> jsstring -> jsstring)
  (unseal : jsstring -> jsstring -> result service_error jsstring)
  (discoverIssuer : jsstring -> result service_error jsstring).

(** An OIDC provider must be discovered under its own issuer. *)
Definition validateConfiguration (provider : provider_config) : result service_error unit :=
  match pc_kind provider with
  | ProviderGithub => Ok ()
  | ProviderOidc =>
      let issuer := strip_slash (default [] (pc_issuer provider)) in
      discovered ← discoverIssuer issuer;
      if decide (strip_slash discovered = issuer) then Ok ()
      else Throw (ServiceError "CONTROL_PLANE_IDENTITY_PROVIDER_ISSUER_MISMATCH" 400)
  end.

Definition identityNamespace (kind : provider_kind) (issuer : option jsstring) : jsstring :=
  match kind with
  | ProviderGithub => js "github"
  | ProviderOidc => js "oidc:" ++ strip_slash (urlString (default [] issuer))
  end.

Definition secret_context (id : jsstring) : jsstring := js "identity-provider:" ++ id ++ js ":client-secret".

Definition lift {A} (x : result service_error A) : M A := fun r => (r, x).

Definition createProvider (id : jsstring) (now : Z) (kind : provider_kind) (status : option provider_status)
    (loginPolicy : option login_policy) (name clientId clientSecret callbackUrl : jsstring)
    (issuer : option jsstring) : M IdentityProviderRecord :=
  _ ← assert (bool_decide (kind <> ProviderOidc) || bool_decide (is_Some issuer)) InvalidRecord;
  _ ← lift (validateConfiguration (ProviderConfig name kind (default ProviderDisabled status)
              (default ExistingOnly loginPolicy) issuer clientId clientSecret callbackUrl));
  let provider := IdentityProvider id name kind (default ProviderDisabled status) (default ExistingOnly loginPolicy)
    issuer clientId (seal clientSecret (secret_context id)) callbackUrl now now in
  _ ← providers_put provider;
  mret provider.

Definition clientSecret (providerId : jsstring) : M jsstring :=
  provider ← gets (fun r => providers r !! providerId);
  provider ← require provider (notFound "identity_provider");
  lift (unseal (p_clientSecretCiphertext provider) (secret_context providerId)).

Definition assertIdentityNamespaceChangeAllowed (now : Z) (current : IdentityProviderRecord) (kind : provider_kind)
    (issuer : option jsstring) : M unit :=
  if decide (identityNamespace (p_kind current) (p_issuer current) = identityNamespace kind issuer) then mret ()
  else
    bound ← identities_existsForProvider (p_id current);
    pending ← approvals_hasActivePendingForProvider (p_id current) now;
    assert (negb (bound || pending)) (conflict "CONTROL_PLANE_IDENTITY_PROVIDER_NAMESPACE_IMMUTABLE").

Definition updated_provider (now : Z) (update : provider_update) (latest : IdentityProviderRecord)
  : IdentityProviderRecord :=
  IdentityProvider (p_id latest) (default (p_name latest) (pu_name update)) (default (p_kind latest) (pu_kind update))
    (default (p_status latest) (pu_status update)) (default (p_loginPolicy latest) (pu_loginPolicy update))
    (match pu_issuer update with Some i => Some i | None => p_issuer latest end)
    (default (p_clientId latest) (pu_clientId update))
    (match pu_clientSecret update with
     | Some secret => if truthy secret then seal secret (secret_context (p_id latest)) else p_clientSecretCiphertext latest
     | None => p_clientSecretCiphertext latest
     end)
    (default (p_callbackUrl latest) (pu_callbackUrl update)) (p_createdAt latest) now.

Definition merged_issuer (update : provider_update) (current : IdentityProviderRecord) : option jsstring :=
  match pu_issuer update with Some i => Some i | None => p_issuer current end.

Definition updateProvider (providerId : jsstring) (now : Z) (update : provider_update) : M IdentityProviderRecord :=
  current ← gets (fun r => providers r !! providerId);
  current ← require current (notFound "identity_provider");
  let kind := default (p_kind current) (pu_kind update) in
  let issuer := merged_issuer update current in
  _ ← assert (bool_decide (kind <> ProviderOidc) || otruthy issuer)
        (ServiceError "CONTROL_PLANE_IDENTITY_PROVIDER_ISSUER_REQUIRED" 400);
  _ ← assertIdentityNamespaceChangeAllowed now current kind issuer;
  secret ← match pu_clientSecret update with
           | Some secret => if truthy secret then mret secret else clientSecret providerId
           | None => clientSecret providerId
           end;
  _ ← lift (validateConfiguration (ProviderConfig (default (p_name current) (pu_name update)) kind
              (default (p_status current) (pu_status update))
              (default (p_loginPolicy current) (pu_loginPolicy update)) issuer
              (default (p_clientId current) (pu_clientId update)) secret
              (default (p_callbackUrl current) (pu_callbackUrl update))));
  transaction (
    latest ← gets (fun r => providers r !! providerId);
    latest ← require latest (notFound "identity_provider");
    _ ← assertIdentityNamespaceChangeAllowed now latest (default (p_kind latest) (pu_kind update))
          (merged_issuer update latest);
    _ ← assertProviderStatusChangeAllowed providerId (default (p_status latest) (pu_status update));
    _ ← providers_put (updated_provider now update latest);
    mret (updated_provider now update latest)).

Definition removeProvider (providerId : jsstring) : M bool :=
  current ← gets (fun r => providers r !! providerId);
  match current with
  | None => mret false
  | Some _ =>
      bound ← identities_existsForProvider providerId;
      _ ← assert (negb bound) (conflict "CONTROL_PLANE_IDENTITY_PROVIDER_IN_USE");
      providers_delete providerId
  end.
End Providers.

(** ** External sign-in flows *)

Definition FLOW_TTL_MS : Z := 10 * 60 * 1000.
Definition APPROVAL_TTL_MS : Z := 24 * 60 * 60 * 1000.

Record ExternalLoginFlow := LoginFlow {
  f_providerId : jsstring;
  f_state : jsstring;
  f_nonce : jsstring;
  f_codeVerifier : jsstring;
  f_expiresAt : Z;
  f_clientType : client_type
}.

Abbreviation flows := (jsmap jsstring ExternalLoginFlow).

Record external_claims := ExternalClaims {
  ec_subject : jsstring;
  ec_verifiedEmail : option jsstring;
  ec_displayName : option jsstring
}.

Inductive callback_result :=
| CallbackSession (session : created_session)
| CallbackPendingApproval (approvalId : jsstring) (expiresAt : Z).

Section External.
Context (sha256 : jsstring -> jsstring)
  (startUrl : IdentityProviderRecord -> ExternalLoginFlow -> result service_error jsstring)
  (exchange : IdentityProviderRecord -> ExternalLoginFlow -> jsstring -> result service_error external_claims).

Definition pruneFlows (now : Z) (m : flows) : flows := filter (fun e => ~ (f_expiresAt e.2 <= now)%Z) m.

(** The flow is stored before the URL is built. *)
Definition begin_external (state nonce codeVerifier : jsstring) (now : Z) (providerId : jsstring)
    (clientType : client_type) (m : flows) (r : repository) : flows * result service_error (jsstring * Z) :=
  let m := pruneFlows now m in
  match providers r !! providerId with
  | Some provider =>
      if decide (p_status provider = ProviderEnabled) then
        let flow := LoginFlow providerId state nonce codeVerifier (now + FLOW_TTL_MS) clientType in
        (mset state flow m, (fun url => (url, f_expiresAt flow)) <$> startUrl provider flow)
      else (m, Throw (ServiceError "CONTROL_PLANE_IDENTITY_PROVIDER_UNAVAILABLE" 404))
  | None => (m, Throw (ServiceError "CONTROL_PLANE_IDENTITY_PROVIDER_UNAVAILABLE" 404))
  end.

Definition new_approval (approvalId : jsstring) (now : Z) (provider : IdentityProviderRecord) (claims : external_claims)
  : ExternalIdentityApprovalRecord :=
  ExternalIdentityApproval approvalId (p_id provider) (ec_subject claims) (ec_verifiedEmail claims)
    (ec_displayName claims) ApprovalPending (now + APPROVAL_TTL_MS) None None now now.

(** A sign-in whose claims are verified. *)
Definition admit_claims (sessionId secret approvalId : jsstring) (now : Z) (flow : ExternalLoginFlow)
    (provider : IdentityProviderRecord) (claims : external_claims) : S_ callback_result :=
  identity ← db (identities_findByProviderSubject (p_id provider) (ec_subject claims));
  match identity with
  | Some identity =>
      created ← createSessionForIdentity sha256 sessionId secret now (i_id identity) (f_clientType flow) None None None;
      mret (CallbackSession created)
  | None =>
      if decide (p_loginPolicy provider = ExistingOnly)
      then fail (ServiceError "AUTH_EXTERNAL_IDENTITY_NOT_BOUND" 403)
      else
        existing ← db (approvals_findActivePending (p_id provider) (ec_subject claims) now);
        match existing with
        | Some existing => mret (CallbackPendingApproval (ea_id existing) (ea_expiresAt existing))
        | None =>
            _ ← db (approvals_put (new_approval approvalId now provider claims));
            mret (CallbackPendingApproval approvalId (now + APPROVAL_TTL_MS)%Z)
        end
  end.

Definition callback (sessionId secret approvalId : jsstring) (now : Z) (state code : jsstring) (m : flows)
  : flows * S_ callback_result :=
  if negb ((32 <=? length (trim state)) && truthy (trim code)) then (m, fail InvalidRecord)
  else
    let state := trim state in
    let m' := mdelete state m in
    match mget state m with
    | Some flow =>
        if decide (f_expiresAt flow <= now)%Z then (m', fail (ServiceError "AUTH_EXTERNAL_FLOW_INVALID" 401))
        else
          (m',
           provider ← db (gets (fun r => providers r !! f_providerId flow));
           match provider with
           | Some provider =>
               if decide (p_status provider = ProviderEnabled) then
                 match exchange provider flow (trim code) with
                 | Ok claims => admit_claims sessionId secret approvalId now flow provider claims
                 | Throw e => fail e
                 end
               else fail (ServiceError "CONTROL_PLANE_IDENTITY_PROVIDER_UNAVAILABLE" 401)
           | None => fail (ServiceError "CONTROL_PLANE_IDENTITY_PROVIDER_UNAVAILABLE" 401)
           end)
    | None => (m', fail (ServiceError "AUTH_EXTERNAL_FLOW_INVALID" 401))
    end.
End External.
