(* ===== verification/CliAuthorization.v ===== *)
(** * Signing in the command line

    [packages/control-plane/src/control-plane/auth/cli-authorization.ts]: the
    browser flow with a code challenge and the device flow with a user code.
    The service keeps its requests in memory; a call threads that state with
    the instance and the database of [UserSessions].  Inputs are the values
    the request schemas return.  Drawn identifiers, codes and the time of a
    call are arguments; [codeChallenge] is Node's base64url SHA-256,
    [toUpperCase] and [encodeURIComponent] the language's, [callbackUrl] the
    redirect URI with [code] and [state] set as search parameters. *)

From S2P Require Export UserSessions.

Definition AUTHORIZATION_TTL_MS : Z := 10 * 60 * 1000.
Definition RECORD_RETENTION_MS : Z := 10 * 60 * 1000.
Definition DEVICE_CODE_POLL_INTERVAL_SECONDS : Z := 5.
Definition DEVICE_CODE_SLOW_DOWN_SECONDS : Z := 5.
Definition DEVICE_CODE_MAX_POLL_INTERVAL_SECONDS : Z := 300.
Definition USER_CODE_ALPHABET : jsstring := js "ABCDEFGHJKLMNPQRSTUVWXYZ23456789".
Definition USER_CODE_LENGTH : nat := 8.

(** ** Records *)

Inductive cli_mode := CliBrowser | CliDevice.
#[export] Instance cli_mode_eq_dec : EqDecision cli_mode.
Proof. solve_decision. Defined.

Inductive CliAuthorizationStatus := CliPending | CliApproved | CliDenied | CliConsumed | CliExpired.
#[export] Instance cli_status_eq_dec : EqDecision CliAuthorizationStatus.
Proof. solve_decision. Defined.

Record CliAuthorizationRecord := CliRecord {
  c_requestId : jsstring;
  c_mode : cli_mode;
  c_status : CliAuthorizationStatus;
  c_client : jsstring;
  c_createdAt : Z;
  c_expiresAt : Z;
  c_redirectUri : option jsstring;
  c_state : option jsstring;
  c_codeChallenge : option jsstring;
  c_userCode : option jsstring;
  c_intervalSeconds : Z;
  c_lastPolledAt : option Z;
  c_code : option jsstring;
  c_approvedUserId : option jsstring;
  c_approvedIdentityId : option jsstring;
  c_decidedAt : option Z;
  c_consumedAt : option Z
}.

(** The assignments the operations make. *)
Definition cli_with_status (status : CliAuthorizationStatus) (c : CliAuthorizationRecord) : CliAuthorizationRecord :=
  CliRecord (c_requestId c) (c_mode c) status (c_client c) (c_createdAt c) (c_expiresAt c) (c_redirectUri c)
    (c_state c) (c_codeChallenge c) (c_userCode c) (c_intervalSeconds c) (c_lastPolledAt c) (c_code c)
    (c_approvedUserId c) (c_approvedIdentityId c) (c_decidedAt c) (c_consumedAt c).

Definition cli_approved (userId identityId code : jsstring) (now : Z) (c : CliAuthorizationRecord) : CliAuthorizationRecord :=
  CliRecord (c_requestId c) (c_mode c) CliApproved (c_client c) (c_createdAt c) (c_expiresAt c) (c_redirectUri c)
    (c_state c) (c_codeChallenge c) (c_userCode c) (c_intervalSeconds c) (c_lastPolledAt c)
    (if decide (c_mode c = CliBrowser) then Some code else c_code c)
    (Some userId) (Some identityId) (Some now) (c_consumedAt c).

Definition cli_denied (userId : jsstring) (now : Z) (c : CliAuthorizationRecord) : CliAuthorizationRecord :=
  CliRecord (c_requestId c) (c_mode c) CliDenied (c_client c) (c_createdAt c) (c_expiresAt c) (c_redirectUri c)
    (c_state c) (c_codeChallenge c) (c_userCode c) (c_intervalSeconds c) (c_lastPolledAt c) (c_code c)
    (Some userId) (c_approvedIdentityId c) (Some now) (c_consumedAt c).

Definition cli_consumed (now : Z) (c : CliAuthorizationRecord) : CliAuthorizationRecord :=
  CliRecord (c_requestId c) (c_mode c) CliConsumed (c_client c) (c_createdAt c) (c_expiresAt c) (c_redirectUri c)
    (c_state c) (c_codeChallenge c) (c_userCode c) (c_intervalSeconds c) (c_lastPolledAt c) None
    (c_approvedUserId c) (c_approvedIdentityId c) (c_decidedAt c) (Some now).

Definition cli_polled (intervalSeconds now : Z) (c : CliAuthorizationRecord) : CliAuthorizationRecord :=
  CliRecord (c_requestId c) (c_mode c) (c_status c) (c_client c) (c_createdAt c) (c_expiresAt c) (c_redirectUri c)
    (c_state c) (c_codeChallenge c) (c_userCode c) intervalSeconds (Some now) (c_code c)
    (c_approvedUserId c) (c_approvedIdentityId c) (c_decidedAt c) (c_consumedAt c).

(** ** The service *)

Record cli_state := CliState {
  cli_records : jsmap jsstring CliAuthorizationRecord;
  userCodeIndex : jsmap jsstring jsstring;
  createLimiter : buckets;
  tokenLimiter : buckets
}.

Definition new_cli_state : cli_state := CliState [] [] [] [].

Definition with_cli_records f st := CliState (f (cli_records st)) (userCodeIndex st) (createLimiter st) (tokenLimiter st).
Definition with_userCodeIndex f st := CliState (cli_records st) (f (userCodeIndex st)) (createLimiter st) (tokenLimiter st).
Definition with_createLimiter l st := CliState (cli_records st) (userCodeIndex st) l (tokenLimiter st).
Definition with_tokenLimiter l st := CliState (cli_records st) (userCodeIndex st) (createLimiter st) l.

Definition cli_world : Type := cli_state * (auth_state * repository).

Definition C_ (A : Type) : Type := cli_world -> cli_world * result service_error A.
#[export] Instance C_ret : MRet C_ := fun A a w => (w, Ok a).
#[export] Instance C_bind : MBind C_ := fun A B k m w =>
  match m w with (w', Ok a) => k a w' | (w', Throw e) => (w', Throw e) end.

Definition cli_get {A} (f : cli_state -> A) : C_ A := fun w => (w, Ok (f w.1)).
Definition cli_update (f : cli_state -> cli_state) : C_ unit := fun w => ((f w.1, w.2), Ok ()).
Definition cli_fail {A} (e : service_error) : C_ A := fun w => (w, Throw e).
(** A call to the sign-in service or the database. *)
Definition cli_call {A} (m : S_ A) : C_ A := fun w => let '(s, x) := m w.2 in ((w.1, s), x).

Definition put_record (c : CliAuthorizationRecord) : C_ unit :=
  cli_update (with_cli_records (mset (c_requestId c) c)).

(** ** Errors *)

Definition authorizationFailure (code : string) (status : Z) : service_error := ServiceError code status.
Definition invalidGrant : service_error := authorizationFailure "CLI_AUTHORIZATION_INVALID_GRANT" 400.
Definition cli_unknown : service_error := authorizationFailure "CLI_AUTHORIZATION_REQUEST_UNKNOWN" 404.
Definition cli_expired : service_error := authorizationFailure "CLI_AUTHORIZATION_EXPIRED" 410.
Definition cli_already_used : service_error := authorizationFailure "CLI_AUTHORIZATION_ALREADY_USED" 409.
Definition cli_rate_limited : service_error := authorizationFailure "CLI_AUTHORIZATION_RATE_LIMITED" 429.

(** [CliAuthorizationRateLimiter.assert]: the new buckets, or none when the
    call is refused, which leaves the buckets alone. *)
Definition rate_assert (windowMs : Z) (maxAttempts : nat) (key : jsstring) (timestamp : Z) (b : buckets) : option buckets :=
  let attempts := filter (fun value => (value > timestamp - windowMs)%Z) (default [] (mget key b)) in
  if decide (maxAttempts <= length attempts) then None else Some (mset key (attempts ++ [timestamp]) b).

Definition rate_key (kind : jsstring) (sourceId : option jsstring) : jsstring :=
  kind ++ default (js "unknown") (oor (trim <$> sourceId) None).

Definition assert_create (sourceId : option jsstring) (now : Z) : C_ unit :=
  b ← cli_get (fun st => rate_assert (60 * 1000) 30 (rate_key (js "create:") sourceId) now (createLimiter st));
  match b with Some b => cli_update (with_createLimiter b) | None => cli_fail cli_rate_limited end.

Definition assert_token (sourceId : option jsstring) (now : Z) : C_ unit :=
  b ← cli_get (fun st => rate_assert (5 * 60 * 1000) 300 (rate_key (js "token:") sourceId) now (tokenLimiter st));
  match b with Some b => cli_update (with_tokenLimiter b) | None => cli_fail cli_rate_limited end.

Inductive cli_request :=
| BrowserRequest (client redirectUri state codeChallenge : jsstring)
| DeviceRequest (client : jsstring).

Inductive token_request :=
| AuthorizationCode (requestId code codeVerifier : jsstring)
| DeviceCode (requestId : jsstring).

Definition token_request_id (t : token_request) : jsstring :=
  match t with AuthorizationCode requestId _ _ | DeviceCode requestId => requestId end.

(** What [create] returns. *)
Inductive ControlPlaneCliAuthorization :=
| CliBrowserAuthorization (requestId verificationUri : jsstring) (expiresAt : Z)
| CliDeviceAuthorization (requestId verificationUri verificationUriComplete userCode : jsstring)
    (intervalSeconds expiresAt : Z).

Section Cli.
Context (sha256 codeChallenge toUpperCase encodeURIComponent : jsstring -> jsstring)
  (callbackUrl : jsstring -> jsstring -> jsstring -> jsstring).

(** [replace(/[\s-]/g, "")] on the upper-case code. *)
Definition normalizeUserCode (userCode : jsstring) : jsstring :=
  filter (fun c => ~ (is_js_space c = true \/ c = 45%N)) (toUpperCase (trim userCode)).

Definition cli_audit (auditId action : jsstring) (now : Z) (c : CliAuthorizationRecord) : C_ unit :=
  cli_call (db (audit_put (UserAudit auditId action (c_approvedUserId c) (js "cli-authorization")
                             (Some (c_requestId c)) now))).

(** Records past their retention leave, with their user codes. *)
Definition prune_at (now : Z) (st : cli_state) : cli_state :=
  let cutoff := (now - RECORD_RETENTION_MS)%Z in
  let pruned := filter (fun e => ~ (c_expiresAt e.2 > cutoff)%Z) (cli_records st) in
  with_userCodeIndex
    (fun index => foldl (fun index c => match c_userCode c with
                                        | Some code => if truthy code then mdelete (normalizeUserCode code) index else index
                                        | None => index
                                        end) index pruned.*2)
    (with_cli_records (filter (fun e => (c_expiresAt e.2 > cutoff)%Z)) st).
Definition prune (now : Z) : C_ unit := cli_update (prune_at now).

Definition expired_record (now : Z) (c : CliAuthorizationRecord) : CliAuthorizationRecord :=
  if decide ((c_status c = CliPending \/ c_status c = CliApproved) /\ (c_expiresAt c <= now)%Z)
  then cli_with_status CliExpired c else c.
Definition expireRecord (now : Z) (c : CliAuthorizationRecord) : C_ CliAuthorizationRecord :=
  _ ← put_record (expired_record now c); mret (expired_record now c).

Definition requireRecord (requestId : jsstring) (now : Z) : C_ CliAuthorizationRecord :=
  record ← cli_get (fun st => mget requestId (cli_records st));
  match record with Some c => expireRecord now c | None => cli_fail cli_unknown end.

(** The first of sixteen draws that is free, with a dash in the middle. *)
Definition mintUserCode (draws : list jsstring) : C_ jsstring :=
  raw ← cli_get (fun st => head (filter (fun raw => mhas raw (userCodeIndex st) = false) (take 16 draws)));
  match raw with
  | Some raw => mret (take 4 raw ++ js "-" ++ drop 4 raw)
  | None => cli_fail (authorizationFailure "CLI_AUTHORIZATION_USER_CODE_UNAVAILABLE" 503)
  end.

Definition browser_record (requestId client redirectUri state challenge : jsstring) (now : Z) : CliAuthorizationRecord :=
  CliRecord requestId CliBrowser CliPending client now (now + AUTHORIZATION_TTL_MS) (Some redirectUri) (Some state)
    (Some challenge) None DEVICE_CODE_POLL_INTERVAL_SECONDS None None None None None None.
Definition device_record (requestId client userCode : jsstring) (now : Z) : CliAuthorizationRecord :=
  CliRecord requestId CliDevice CliPending client now (now + AUTHORIZATION_TTL_MS) None None
    None (Some userCode) DEVICE_CODE_POLL_INTERVAL_SECONDS None None None None None None.

Definition create (requestId auditId : jsstring) (draws : list jsstring) (now : Z) (input : cli_request)
    (publicOrigin : jsstring) (sourceId : option jsstring) : C_ ControlPlaneCliAuthorization :=
  _ ← assert_create sourceId now;
  _ ← prune now;
  match input with
  | BrowserRequest client redirectUri state challenge =>
      let record := browser_record requestId client redirectUri state challenge now in
      _ ← put_record record;
      _ ← cli_audit auditId (js "cli-authorization.request") now record;
      mret (CliBrowserAuthorization requestId
              (publicOrigin ++ js "/cli/authorize?request=" ++ encodeURIComponent requestId) (c_expiresAt record))
  | DeviceRequest client =>
      userCode ← mintUserCode draws;
      let record := device_record requestId client userCode now in
      _ ← put_record record;
      _ ← cli_update (with_userCodeIndex (mset (normalizeUserCode userCode) requestId));
      _ ← cli_audit auditId (js "cli-authorization.request") now record;
      mret (CliDeviceAuthorization requestId (publicOrigin ++ js "/cli/authorize")
              (publicOrigin ++ js "/cli/authorize?user_code=" ++ encodeURIComponent userCode) userCode
              (c_intervalSeconds record) (c_expiresAt record))
  end.

(** The projections show the record without its code and approver. *)
Definition cli_detail (requestId : jsstring) (now : Z) : C_ CliAuthorizationRecord :=
  _ ← prune now; requireRecord requestId now.

Definition detailByUserCode (userCode : jsstring) (now : Z) : C_ CliAuthorizationRecord :=
  _ ← prune now;
  record ← cli_get (fun st =>
    requestId ← mget (normalizeUserCode userCode) (userCodeIndex st);
    if truthy requestId then mget requestId (cli_records st) else None);
  match record with Some c => expireRecord now c | None => cli_fail cli_unknown end.

Definition callbackUri (c : CliAuthorizationRecord) : option jsstring :=
  match c_redirectUri c, c_code c, c_state c with
  | Some redirectUri, Some code, Some state =>
      if bool_decide (c_mode c = CliBrowser) && truthy redirectUri && truthy code && truthy state
      then Some (callbackUrl redirectUri code state) else None
  | _, _, _ => None
  end.

Definition approve (requestId auditId code : jsstring) (now : Z) (userId identityId : jsstring)
  : C_ (cli_mode * option jsstring) :=
  record ← requireRecord requestId now;
  record ← match c_status record with
           | CliPending =>
               let record := cli_approved userId identityId code now record in
               _ ← put_record record;
               _ ← cli_audit auditId (js "cli-authorization.approve") now record;
               mret record
           | CliExpired => cli_fail cli_expired
           | CliApproved => if decide (c_approvedUserId record = Some userId) then mret record
                            else cli_fail cli_already_used
           | CliDenied | CliConsumed => cli_fail cli_already_used
           end;
  mret (c_mode record, callbackUri record).

Definition deny (requestId auditId : jsstring) (now : Z) (userId : jsstring) : C_ unit :=
  record ← requireRecord requestId now;
  match c_status record with
  | CliExpired => cli_fail cli_expired
  | CliApproved | CliConsumed => cli_fail cli_already_used
  | CliPending =>
      _ ← put_record (cli_denied userId now record);
      cli_audit auditId (js "cli-authorization.deny") now (cli_denied userId now record)
  | CliDenied => mret ()
  end.

Definition failExchange {A} (auditId : jsstring) (now : Z) (c : CliAuthorizationRecord) (e : service_error) : C_ A :=
  _ ← cli_audit auditId (js "cli-authorization.exchange-failed") now c;
  cli_fail e.

(** A poll of a pending request: too early, or noted. *)
Definition early_poll (now : Z) (c : CliAuthorizationRecord) : bool :=
  match c_lastPolledAt c with
  | Some polledAt => (now - polledAt <? c_intervalSeconds c * 1000)%Z
  | None => false
  end.
Definition slowed_interval (c : CliAuthorizationRecord) : Z :=
  Z.min (c_intervalSeconds c + DEVICE_CODE_SLOW_DOWN_SECONDS) DEVICE_CODE_MAX_POLL_INTERVAL_SECONDS.

Definition exchange_pending {A} (auditId : jsstring) (now : Z) (t : token_request) (c : CliAuthorizationRecord) : C_ A :=
  _ ← match t with
      | DeviceCode _ =>
          if early_poll now c then
            let c' := cli_polled (slowed_interval c) now c in
            _ ← put_record c';
            failExchange auditId now c' (authorizationFailure "CLI_AUTHORIZATION_SLOW_DOWN" 400)
          else put_record (cli_polled (c_intervalSeconds c) now c)
      | AuthorizationCode _ _ _ => mret ()
      end;
  cli_fail (authorizationFailure "CLI_AUTHORIZATION_PENDING" 400).

(** The grant proves who holds the request. *)
Definition grant_valid (t : token_request) (c : CliAuthorizationRecord) : bool :=
  match t with
  | AuthorizationCode _ code codeVerifier =>
      bool_decide (c_mode c = CliBrowser) && otruthy (c_code c) && otruthy (c_codeChallenge c)
      && bool_decide (c_code c = Some code) && bool_decide (Some (codeChallenge codeVerifier) = c_codeChallenge c)
  | DeviceCode _ => bool_decide (c_mode c = CliDevice)
  end.

Definition exchange (auditId sessionId secret : jsstring) (now : Z) (t : token_request) (sourceId : option jsstring)
  : C_ created_session :=
  _ ← assert_token sourceId now;
  _ ← prune now;
  record ← cli_get (fun st => mget (token_request_id t) (cli_records st));
  match record with
  | None => cli_fail invalidGrant
  | Some record =>
      record ← expireRecord now record;
      match c_status record with
      | CliExpired => failExchange auditId now record cli_expired
      | CliDenied => failExchange auditId now record (authorizationFailure "CLI_AUTHORIZATION_DENIED" 403)
      | CliConsumed => failExchange auditId now record cli_already_used
      | CliPending => exchange_pending auditId now t record
      | CliApproved =>
          if negb (grant_valid t record) then cli_fail invalidGrant
          else match c_approvedIdentityId record with
               | Some identityId =>
                   if truthy identityId then
                     _ ← put_record (cli_consumed now record);
                     created ← cli_call (createSessionForIdentity sha256 sessionId secret now identityId ClientCli
                                           None (Some (c_client record)) None);
                     _ ← cli_call (db (requireUser (az_userId (cs_authorization created))));
                     _ ← cli_audit auditId (js "cli-authorization.exchange") now (cli_consumed now record);
                     mret created
                   else cli_fail invalidGrant
               | None => cli_fail invalidGrant
               end
      end
  end.
End Cli.
