(* ===== verification/CliAuthorizationSpec.v ===== *)
(** * What the command-line sign-in guarantees

    The operations of [CliAuthorization] as steps that log what happened to
    each request; a request is exchanged at most once, for the identity that
    approved it in time.  User codes find their request, and a client that
    keeps to its interval is never slowed down. *)

From S2P Require Import Text CliAuthorization UserSessionsRefine.

(** ** Runs of the operations *)

Lemma cbind_ok {A B} (m : C_ A) (k : A -> C_ B) w w' b :
  (m ≫= k : C_ B) w = (w', Ok b) -> exists a w1, m w = (w1, Ok a) /\ k a w1 = (w', Ok b).
Proof. unfold mbind, C_bind. destruct (m w) as [w1 [a|e]]; [eauto|done]. Qed.

(** The requests in memory, by identifier. *)
Definition cli_lookup (st : cli_state) (id : jsstring) : option CliAuthorizationRecord := mget id (cli_records st).


Section JsMapFilter.
Context {K V : Type} `{EqDecision K} (P : K * V -> Prop) `{forall e, Decision (P e)}.

Lemma map_wf_filter (m : jsmap K V) : map_wf m -> map_wf (filter P m).
Proof.
  unfold map_wf, mkeys. induction m as [|[k v] m IH]; simpl; [done|]. intros [Hk Hn]%NoDup_cons.
  rewrite filter_cons. case_decide; simpl; [|by apply IH]. apply NoDup_cons. split; [|by apply IH].
  intros ([k' v'] & Heq & Hin)%list_elem_of_fmap. simpl in Heq. subst k'. apply list_elem_of_filter in Hin as [_ Hin].
  apply Hk, list_elem_of_fmap. by exists (k, v').
Qed.

Lemma mget_filter (m : jsmap K V) k v :
  map_wf m -> mget k (filter P m) = Some v <-> mget k m = Some v /\ P (k, v).
Proof.
  intros Hwf. rewrite !mget_elem by eauto using map_wf_filter. rewrite list_elem_of_filter. naive_solver.
Qed.
End JsMapFilter.

(** Parts of an operation that leave the service alone. *)
Lemma cli_call_state {A} (m : S_ A) w : (cli_call m w).1.1 = w.1.
Proof. unfold cli_call. by destruct (m w.2). Qed.

Lemma cli_audit_state auditId action now c w : (cli_audit auditId action now c w).1.1 = w.1.
Proof. apply cli_call_state. Qed.

Lemma failExchange_run {A} auditId now c e w :
  exists w', (failExchange auditId now c e : C_ A) w = (w', Throw e) /\ w'.1 = w.1.
Proof.
  unfold failExchange, mbind, C_bind. pose proof (cli_audit_state auditId (js "cli-authorization.exchange-failed") now c w) as Hw.
  destruct (cli_audit _ _ _ _ w) as [w1 [[]|e']] eqn:E; [exists w1; done|].
  unfold cli_audit, cli_call, db in E. by destruct w as [st [a r]].
Qed.

(** ** The log *)

Inductive cli_event :=
| EvCreated (requestId : jsstring) (at_ : Z)
| EvApproved (requestId userId identityId : jsstring) (at_ : Z)
| EvDenied (requestId userId : jsstring) (at_ : Z)
| EvExchanged (requestId identityId : jsstring) (at_ : Z).

Definition event_request (e : cli_event) : jsstring :=
  match e with
  | EvCreated id _ | EvApproved id _ _ _ | EvDenied id _ _ | EvExchanged id _ _ => id
  end.

Inductive cli_op :=
| OpCreate (requestId auditId : jsstring) (draws : list jsstring) (input : cli_request)
    (publicOrigin : jsstring) (sourceId : option jsstring)
| OpDetail (requestId : jsstring)
| OpDetailByUserCode (userCode : jsstring)
| OpApprove (requestId auditId code userId identityId : jsstring)
| OpDeny (requestId auditId userId : jsstring)
| OpExchange (auditId sessionId secret : jsstring) (t : token_request) (sourceId : option jsstring).

(** Log an operation that returned. *)
Definition logged {A} (x : result service_error A) (f : A -> cli_event) : list cli_event :=
  match x with Ok a => [f a] | Throw _ => [] end.

(** [toUpperCase] leaves upper-case letters, digits and dashes alone. *)
Definition keeps_user_codes (toUpperCase : jsstring -> jsstring) : Prop :=
  forall s, (forall c, c ∈ s -> c ∈ USER_CODE_ALPHABET \/ c = 45%N) -> toUpperCase s = s.

Section Spec.
Context (sha256 codeChallenge toUpperCase encodeURIComponent : jsstring -> jsstring)
  (callbackUrl : jsstring -> jsstring -> jsstring -> jsstring)
  (Hupper : keeps_user_codes toUpperCase).

Abbreviation create_ := (create toUpperCase encodeURIComponent).
Abbreviation detail_ := (cli_detail toUpperCase).
Abbreviation detailByUserCode_ := (detailByUserCode toUpperCase).
Abbreviation approve_ := (approve callbackUrl).
Abbreviation exchange_ := (exchange sha256 codeChallenge toUpperCase).
Abbreviation prune_ := (prune_at toUpperCase).

Definition cli_run_op (now : Z) (op : cli_op) (w : cli_world) : cli_world * list cli_event :=
  match op with
  | OpCreate requestId auditId draws input origin sourceId =>
      let '(w', x) := create_ requestId auditId draws now input origin sourceId w in
      (w', logged x (fun _ => EvCreated requestId now))
  | OpDetail requestId => ((detail_ requestId now w).1, [])
  | OpDetailByUserCode userCode => ((detailByUserCode_ userCode now w).1, [])
  | OpApprove requestId auditId code userId identityId =>
      let '(w', x) := approve_ requestId auditId code now userId identityId w in
      (w', logged x (fun _ => EvApproved requestId userId identityId now))
  | OpDeny requestId auditId userId =>
      let '(w', x) := deny requestId auditId now userId w in (w', logged x (fun _ => EvDenied requestId userId now))
  | OpExchange auditId sessionId secret t sourceId =>
      let '(w', x) := exchange_ auditId sessionId secret now t sourceId w in
      (w', logged x (fun created => EvExchanged (token_request_id t) (s_identityId (cs_session created)) now))
  end.

(** ** What an operation does to a request *)

(** Changes that are not logged: expiry, polling, and an exchange whose
    session could not be made. *)
Record silent (now : Z) (c c' : CliAuthorizationRecord) : Prop := Silent {
  si_request : c_requestId c' = c_requestId c;
  si_mode : c_mode c' = c_mode c;
  si_created : c_createdAt c' = c_createdAt c;
  si_expires : c_expiresAt c' = c_expiresAt c;
  si_code : c_userCode c' = c_userCode c;
  si_approver : c_approvedUserId c' = c_approvedUserId c;
  si_approved : c_approvedIdentityId c' = c_approvedIdentityId c;
  si_interval : (c_intervalSeconds c <= 300 -> c_intervalSeconds c <= c_intervalSeconds c' <= 300)%Z;
  si_status : c_status c' = c_status c
    \/ (c_status c = CliPending \/ c_status c = CliApproved) /\ (c_expiresAt c <= now)%Z /\ c_status c' = CliExpired
    \/ c_status c = CliApproved /\ c_status c' = CliConsumed
}.

Lemma silent_refl now c : silent now c c.
Proof. constructor; auto; lia. Qed.

Lemma silent_expired now c : silent now c (expired_record now c).
Proof.
  unfold expired_record. case_decide as H; [|apply silent_refl]. destruct H as [Hs Ht].
  constructor; simpl; auto; lia.
Qed.

(** The status after the check of the expiry. *)
Lemma expired_record_live now c :
  c_status (expired_record now c) = CliPending \/ c_status (expired_record now c) = CliApproved ->
  expired_record now c = c /\ (now < c_expiresAt c)%Z.
Proof.
  unfold expired_record. case_decide as H; simpl; [naive_solver|]. intros Hs. split; [done|].
  destruct (decide (c_expiresAt c <= now)%Z); [|lia]. exfalso. apply H. split; [naive_solver|done].
Qed.

Lemma expired_record_id now c : c_requestId (expired_record now c) = c_requestId c.
Proof. apply silent_expired. Qed.

Inductive cli_transition (now : Z) (evs : list cli_event) (k : jsstring) (c c' : CliAuthorizationRecord) : Prop :=
| tr_silent : (forall e, e ∈ evs -> event_request e <> k) -> silent now c c' -> cli_transition now evs k c c'
| tr_approve u i :
    evs = [EvApproved k u i now] -> c_status c = CliPending -> (now < c_expiresAt c)%Z ->
    (exists code, c' = cli_approved u i code now c) -> cli_transition now evs k c c'
| tr_approved_again u i :
    evs = [EvApproved k u i now] -> c_status c = CliApproved -> c_approvedUserId c = Some u ->
    c' = c -> cli_transition now evs k c c'
| tr_deny u :
    evs = [EvDenied k u now] -> (c_status c = CliPending /\ c' = cli_denied u now c \/ c_status c = CliDenied /\ c' = c) ->
    cli_transition now evs k c c'
| tr_exchange i :
    evs = [EvExchanged k i now] -> c_status c = CliApproved -> (now < c_expiresAt c)%Z ->
    c_approvedIdentityId c = Some i -> c' = cli_consumed now c -> cli_transition now evs k c c'.

(** A new request. *)
Definition cli_created (now : Z) (k : jsstring) (c : CliAuthorizationRecord) : Prop :=
  c_requestId c = k /\ c_status c = CliPending /\ c_createdAt c = now /\ c_expiresAt c = (now + AUTHORIZATION_TTL_MS)%Z
  /\ c_approvedUserId c = None /\ c_approvedIdentityId c = None /\ c_intervalSeconds c = DEVICE_CODE_POLL_INTERVAL_SECONDS.

(** The index of the user codes is that of the requests. *)
Record index_inv (st : cli_state) : Prop := IndexInv {
  ix_record k c code : cli_lookup st k = Some c -> c_userCode c = Some code ->
    truthy code = true /\ mget (normalizeUserCode toUpperCase code) (userCodeIndex st) = Some k;
  ix_entry key k : mget key (userCodeIndex st) = Some k ->
    exists c code, cli_lookup st k = Some c /\ c_userCode c = Some code /\ normalizeUserCode toUpperCase code = key
}.

(** The effect of an operation on the requests. *)
Record cli_effect (now : Z) (evs : list cli_event) (st st' : cli_state) : Prop := CliEffect {
  ce_wf : map_wf (cli_records st');
  ce_records k c' : cli_lookup st' k = Some c' ->
    (exists c, cli_lookup st k = Some c /\ cli_transition now evs k c c')
    \/ cli_created now k c' /\ evs = [EvCreated k now];
  ce_events e : e ∈ evs -> (e = EvCreated (event_request e) now \/
    exists c c', cli_lookup st (event_request e) = Some c /\ cli_lookup st' (event_request e) = Some c'
                 /\ cli_transition now evs (event_request e) c c');
  ce_index : index_inv st -> (forall k, EvCreated k now ∈ evs -> cli_lookup st k = None) -> index_inv st'
}.

Definition keyed (st : cli_state) : Prop := forall k c, cli_lookup st k = Some c -> c_requestId c = k.

(** [st'] has the same requests but for [k], which is [c']. *)
Definition puts (k : jsstring) (c' : CliAuthorizationRecord) (st st' : cli_state) : Prop :=
  map_wf (cli_records st') /\ userCodeIndex st' = userCodeIndex st
  /\ forall j, cli_lookup st' j = if decide (j = k) then Some c' else cli_lookup st j.

Lemma puts_record st c' : map_wf (cli_records st) -> puts (c_requestId c') c' st (with_cli_records (mset (c_requestId c') c') st).
Proof. intros Hwf. split; [by apply map_wf_mset|]. split; [done|]. intros j. unfold cli_lookup. simpl. apply mget_mset. Qed.

Lemma puts_trans k c1 c2 st st1 st2 : puts k c1 st st1 -> puts k c2 st1 st2 -> puts k c2 st st2.
Proof. intros (_ & E1 & H1) (Hwf & E2 & H2). split; [done|]. split; [congruence|]. intros j. rewrite H2, H1. by case_decide. Qed.

(** [st'] has some of the requests, as they were. *)
Record fewer (st st' : cli_state) : Prop := Fewer {
  fw_wf : map_wf (cli_records st');
  fw_lookup k c : cli_lookup st' k = Some c -> cli_lookup st k = Some c;
  fw_index : index_inv st -> index_inv st'
}.

Lemma fewer_same st st' :
  map_wf (cli_records st) -> cli_records st' = cli_records st -> userCodeIndex st' = userCodeIndex st -> fewer st st'.
Proof.
  intros Hwf Er Ei. split; unfold cli_lookup in *; rewrite ?Er; [done..|].
  intros [H1 H2]. split; unfold cli_lookup in *; rewrite Er, Ei; done.
Qed.

Lemma fewer_refl st : map_wf (cli_records st) -> fewer st st.
Proof. intros. by apply fewer_same. Qed.

(** The index without the codes of some records. *)
Definition drop_code (index : jsmap jsstring jsstring) (c : CliAuthorizationRecord) : jsmap jsstring jsstring :=
  match c_userCode c with
  | Some code => if truthy code then mdelete (normalizeUserCode toUpperCase code) index else index
  | None => index
  end.

Lemma drop_codes_get l index key k :
  mget key (foldl drop_code index l) = Some k <->
  mget key index = Some k /\ forall c code, c ∈ l -> c_userCode c = Some code -> truthy code = true ->
    normalizeUserCode toUpperCase code <> key.
Proof.
  revert index. induction l as [|c l IH]; intros index; simpl; [set_solver|]. rewrite IH.
  unfold drop_code. destruct (c_userCode c) as [code|] eqn:Hc; [destruct (truthy code) eqn:Ht|].
  - rewrite mget_mdelete. case_decide as Hk; [subst|].
    + split; [by intros [? _]|]. intros [_ H]. by destruct (H c code); [set_solver|..].
    + setoid_rewrite elem_of_cons. naive_solver.
  - setoid_rewrite elem_of_cons. naive_solver congruence.
  - setoid_rewrite elem_of_cons. naive_solver congruence.
Qed.

Lemma fewer_prune now st : map_wf (cli_records st) -> fewer st (prune_ now st).
Proof.
  intros Hwf. split; [by apply map_wf_filter|..]; unfold cli_lookup.
  { simpl. intros k c H. by apply mget_filter in H as [H _]. }
  intros [Hr He]. unfold cli_lookup in *. split; simpl.
  - intros k c code Hc Hcode. apply mget_filter in Hc as [Hc Hkeep]; [|done]. destruct (Hr _ _ _ Hc Hcode) as [Ht Hix].
    split; [done|]. apply drop_codes_get. split; [done|]. intros c2 code2 Hc2 Hcode2 _ Heq.
    apply list_elem_of_fmap in Hc2 as ([k2 c2'] & -> & [Hdrop Hin]%list_elem_of_filter). simpl in *.
    apply mget_elem in Hin; [|done]. destruct (Hr _ _ _ Hin Hcode2) as [_ Hix2]. rewrite Heq, Hix in Hix2.
    injection Hix2 as ->. rewrite Hc in Hin. by injection Hin as ->.
  - intros key k [Hk Hno]%drop_codes_get. destruct (He _ _ Hk) as (c & code & Hc & Hcode & Heq).
    exists c, code. split_and!; try done. apply mget_filter; [done|]. split; [done|]. simpl.
    destruct (decide (c_expiresAt c > now - RECORD_RETENTION_MS)%Z); [done|]. exfalso.
    apply (Hno c code); try done; [|by apply (Hr k c)]. apply list_elem_of_fmap. exists (k, c). split; [done|].
    apply list_elem_of_filter. split; [done|]. by apply mget_elem.
Qed.

Lemma fewer_keyed st st' : fewer st st' -> keyed st -> keyed st'.
Proof. intros [_ H _] Hk k c Hc. by apply Hk, H. Qed.

Lemma effect_fewer now st st' : fewer st st' -> cli_effect now [] st st'.
Proof.
  intros [Hwf H Hix]. split; [done| |set_solver|by intros ? _; apply Hix]. intros k c Hc. left. exists c. split; [by apply H|].
  apply tr_silent; [set_solver|apply silent_refl].
Qed.

Lemma transition_code now evs k c c' : cli_transition now evs k c c' -> c_userCode c' = c_userCode c.
Proof. intros [_ Hs|u i _ _ _ [code ->]|u i _ _ _ ->|u _ [[_ ->]|[_ ->]]|i _ _ _ _ ->]; try done. apply Hs. Qed.

Lemma effect_puts now evs k c c' st st1 st' :
  fewer st st1 -> cli_lookup st1 k = Some c -> puts k c' st1 st' ->
  cli_transition now evs k c c' -> (forall e, e ∈ evs -> event_request e = k) ->
  cli_effect now evs st st'.
Proof.
  intros [_ Hf Hix] Hc (Hwf & Ei & Hp) Htr Hevs. split; [done| | |].
  - intros j cj. rewrite Hp. case_decide as Hj; [subst|].
    + intros [= <-]. left. exists c. auto.
    + intros Hcj. left. exists cj. split; [by apply Hf|].
      apply tr_silent; [|apply silent_refl]. intros e He%Hevs. congruence.
  - intros e He. right. rewrite (Hevs _ He). exists c, c'. rewrite Hp, decide_True by done. auto.
  - intros Hinv _. apply Hix in Hinv as [Hr He]. pose proof (transition_code _ _ _ _ _ Htr) as Hcode.
    split; rewrite Ei.
    + intros j cj code. rewrite Hp. case_decide; [intros [= <-]; subst; rewrite Hcode; by apply Hr|by apply Hr].
    + intros key j Hj. destruct (He _ _ Hj) as (cj & code & Hcj & Hcodej & Hkey). rewrite Hp.
      case_decide; [subst|by exists cj, code]. exists c', code. split_and!; congruence.
Qed.

Lemma effect_created now k c' st st1 st' :
  fewer st st1 -> map_wf (cli_records st') ->
  (forall j, cli_lookup st' j = if decide (j = k) then Some c' else cli_lookup st1 j) ->
  (cli_lookup st1 k = None -> index_inv st1 -> index_inv st') ->
  cli_created now k c' -> cli_effect now [EvCreated k now] st st'.
Proof.
  intros [_ Hf Hix] Hwf Hp Hix' Hc. split; [done| | |].
  - intros j cj. rewrite Hp. case_decide as Hj; [subst|].
    + intros [= <-]. auto.
    + intros Hcj. left. exists cj. split; [by apply Hf|].
      apply tr_silent; [|apply silent_refl]. intros e ->%list_elem_of_singleton. simpl. congruence.
  - intros e ->%list_elem_of_singleton. by left.
  - intros Hinv Hnone. apply Hix'; [|by apply Hix]. destruct (cli_lookup st1 k) as [c|] eqn:E; [|done].
    apply Hf in E. rewrite Hnone in E; [done|set_solver].
Qed.

(** The index after a request without a user code, and after one with a free
    code. *)
Lemma index_browser k c st st' :
  puts k c st st' -> c_userCode c = None -> cli_lookup st k = None -> index_inv st -> index_inv st'.
Proof.
  intros (_ & Ei & Hp) Hcode Hnone [Hr He]. split; rewrite Ei.
  - intros j cj code. rewrite Hp. case_decide; [intros [= <-]; congruence|apply Hr].
  - intros key j Hj. destruct (He _ _ Hj) as (cj & code & Hcj & ?). rewrite Hp. case_decide; [congruence|]. eauto.
Qed.

Lemma index_device k c code st st' :
  puts k c st st' -> c_userCode c = Some code -> truthy code = true ->
  mget (normalizeUserCode toUpperCase code) (userCodeIndex st) = None -> cli_lookup st k = None ->
  index_inv st -> index_inv (with_userCodeIndex (mset (normalizeUserCode toUpperCase code) k) st').
Proof.
  intros (_ & Ei & Hp) Hcode Ht Hfree Hnone [Hr He]. set (key0 := normalizeUserCode toUpperCase code) in *.
  split; unfold cli_lookup; simpl; fold (cli_lookup st'); rewrite Ei.
  - intros j cj codej Hj Hcodej. change (cli_lookup st' j = Some cj) in Hj. rewrite Hp in Hj. rewrite mget_mset.
    case_decide as Hjk; [injection Hj as <-; subst j|].
    + rewrite Hcode in Hcodej. injection Hcodej as <-. by rewrite decide_True.
    + destruct (Hr _ _ _ Hj Hcodej) as [Htj Hj']. split; [done|]. rewrite decide_False; [done|]. congruence.
  - intros key j. rewrite mget_mset. change (mget ?x (cli_records st')) with (cli_lookup st' x).
    case_decide as Hkey; [intros [= <-]|intros Hj].
    + exists c, code. change (mget k (cli_records st')) with (cli_lookup st' k). rewrite Hp, decide_True by done. done.
    + destruct (He _ _ Hj) as (cj & codej & Hcj & ?). exists cj, codej. change (mget j (cli_records st')) with (cli_lookup st' j).
      rewrite Hp. case_decide; [congruence|]. done.
Qed.

(** ** User codes *)

(** What the draws of a user code look like, and the code shown. *)
Definition valid_draw (raw : jsstring) : Prop := length raw = USER_CODE_LENGTH /\ Forall (.∈ USER_CODE_ALPHABET) raw.
Definition dashed (raw : jsstring) : jsstring := take 4 raw ++ js "-" ++ drop 4 raw.

Lemma alphabet_plain c : c ∈ USER_CODE_ALPHABET -> is_js_space c = false /\ c <> 45%N.
Proof.
  assert (H : Forall (fun c => is_js_space c = false /\ c <> 45%N) USER_CODE_ALPHABET).
  { apply (bool_decide_unpack _). vm_compute. exact I. }
  rewrite Forall_forall in H. apply H.
Qed.

Lemma normalize_dashed raw : valid_draw raw -> normalizeUserCode toUpperCase (dashed raw) = raw.
Proof.
  intros [Hlen Hall]. rewrite Forall_forall in Hall.
  assert (Hchars : forall c, c ∈ dashed raw -> c ∈ USER_CODE_ALPHABET \/ c = 45%N).
  { intros c [Hc|[Hc|Hc]%elem_of_app]%elem_of_app; [left; by eapply Hall, elem_take| |].
    - right. by apply list_elem_of_singleton in Hc.
    - left. by eapply Hall, elem_drop. }
  assert (Hspace : forall c, c ∈ dashed raw -> is_js_space c = false).
  { intros c [Hc| ->]%Hchars; [by apply alphabet_plain|done]. }
  unfold normalizeUserCode. rewrite trimmed_trim, Hupper; [|exact Hchars|].
  2: { split; intros c Hc; apply Hspace; [by apply head_Some_elem_of|by apply last_Some_elem_of]. }
  unfold dashed. rewrite !filter_app.
  assert (Hkeep : forall l : jsstring, (forall c, c ∈ l -> c ∈ raw) -> filter (fun c => ~ (is_js_space c = true \/ c = 45%N)) l = l).
  { intros l Hl. apply filter_all. intros c Hc.
    destruct (alphabet_plain c); [by apply Hall, Hl|]. naive_solver congruence. }
  rewrite (Hkeep (take 4 raw)), (Hkeep (drop 4 raw)) by (intros c Hc; first [exact (elem_take _ _ _ Hc) | exact (elem_drop _ _ _ Hc)]).
  apply (take_drop 4 raw).
Qed.

(** ** The effects of the operations *)

Lemma requireRecord_run id now st s :
  requireRecord id now (st, s) =
  match cli_lookup st id with
  | Some c => ((with_cli_records (mset (c_requestId (expired_record now c)) (expired_record now c)) st, s), Ok (expired_record now c))
  | None => ((st, s), Throw cli_unknown)
  end.
Proof. unfold requireRecord, cli_lookup, mbind, C_bind, cli_get. simpl. by destruct (mget id (cli_records st)). Qed.

Lemma puts_expired now st k c :
  map_wf (cli_records st) -> keyed st -> cli_lookup st k = Some c ->
  puts k (expired_record now c) st (with_cli_records (mset (c_requestId (expired_record now c)) (expired_record now c)) st).
Proof.
  intros Hwf Hk Hc. pose proof (Hk _ _ Hc) as Hid. rewrite <- (expired_record_id now) in Hid. subst k. by apply puts_record.
Qed.

Lemma effect_expired now st st1 k c :
  fewer st st1 -> keyed st1 -> cli_lookup st1 k = Some c ->
  cli_effect now [] st (with_cli_records (mset (c_requestId (expired_record now c)) (expired_record now c)) st1).
Proof.
  intros Hf Hk Hc. eapply effect_puts; [done|done|apply puts_expired; try done; apply Hf| |set_solver].
  apply tr_silent; [set_solver|apply silent_expired].
Qed.

Lemma detail_effect id now w : map_wf (cli_records w.1) -> keyed w.1 -> cli_effect now [] w.1 (detail_ id now w).1.1.
Proof.
  intros Hwf Hk. destruct w as [st s]. simpl in *. unfold cli_detail, mbind, C_bind, prune, cli_update. simpl.
  rewrite requireRecord_run. pose proof (fewer_prune now st Hwf) as Hf.
  destruct (cli_lookup (prune_ now st) id) as [c|] eqn:E; simpl; [|by apply effect_fewer].
  eapply effect_expired; [done|by eapply fewer_keyed|done].
Qed.

Lemma detailByUserCode_effect code now w :
  map_wf (cli_records w.1) -> keyed w.1 -> cli_effect now [] w.1 (detailByUserCode_ code now w).1.1.
Proof.
  intros Hwf Hk. destruct w as [st s]. simpl in *. unfold detailByUserCode, prune, cli_update, cli_get, mbind, C_bind. simpl.
  pose proof (fewer_prune now st Hwf) as Hf.
  match goal with |- context [option_bind _ _ ?f ?o] => destruct (option_bind _ _ f o) as [c|] eqn:E end; simpl; [|by apply effect_fewer].
  destruct (mget _ _) as [id|]; simpl in E; [|done]. destruct (truthy id); [|done].
  eapply (effect_expired _ _ _ id); [done|by eapply fewer_keyed|done].
Qed.

Lemma cli_audit_run auditId action now c st s : exists s', cli_audit auditId action now c (st, s) = ((st, s'), Ok ()).
Proof. destruct s as [a r]. unfold cli_audit, cli_call, db. simpl. eauto. Qed.

Lemma assert_create_run sourceId now st s :
  exists st1, cli_records st1 = cli_records st /\ userCodeIndex st1 = userCodeIndex st
    /\ (assert_create sourceId now (st, s) = ((st1, s), Ok ()) \/ assert_create sourceId now (st, s) = ((st1, s), Throw cli_rate_limited)).
Proof.
  unfold assert_create, mbind, C_bind, cli_get. simpl. destruct (rate_assert _ _ _ _ _) as [b|].
  - exists (with_createLimiter b st). auto.
  - exists st. auto.
Qed.

Lemma assert_token_run sourceId now st s :
  exists st1, cli_records st1 = cli_records st /\ userCodeIndex st1 = userCodeIndex st
    /\ (assert_token sourceId now (st, s) = ((st1, s), Ok ()) \/ assert_token sourceId now (st, s) = ((st1, s), Throw cli_rate_limited)).
Proof.
  unfold assert_token, mbind, C_bind, cli_get. simpl. destruct (rate_assert _ _ _ _ _) as [b|].
  - exists (with_tokenLimiter b st). auto.
  - exists st. auto.
Qed.

(** The service after its limiter and its pruning. *)
Lemma fewer_admitted now st st1 :
  map_wf (cli_records st) -> cli_records st1 = cli_records st -> userCodeIndex st1 = userCodeIndex st ->
  fewer st (prune_ now st1) /\ fewer st st1.
Proof.
  intros Hwf Er Ei. assert (Hf : fewer st st1) by by apply fewer_same.
  split; [|done]. destruct (fewer_prune now st1) as [H1 H2 H3]; [by rewrite Er|].
  split; [done| |intros ?; by apply H3, Hf]. intros k c Hc. by apply Hf, H2.
Qed.

Lemma create_effect requestId auditId draws now input origin sourceId w :
  map_wf (cli_records w.1) -> Forall valid_draw draws ->
  let '(w', x) := create_ requestId auditId draws now input origin sourceId w in
  cli_effect now (logged x (fun _ => EvCreated requestId now)) w.1 w'.1.
Proof.
  destruct w as [st s]. simpl. intros Hwf Hdraws. unfold create, mbind, C_bind.
  destruct (assert_create_run sourceId now st s) as (st1 & Er & Ei & [-> | ->]); [|by apply effect_fewer, fewer_admitted].
  destruct (fewer_admitted now st st1 Hwf Er Ei) as [Hf _]. unfold prune, cli_update. cbv beta iota.
  change (st1, s).2 with s. change (st1, s).1 with st1. set (st2 := prune_ now st1) in *.
  destruct input as [client redirectUri state challenge|client].
  - set (c := browser_record requestId client redirectUri state challenge now).
    unfold put_record, cli_update. simpl.
    match goal with |- context [cli_audit ?a ?b ?n ?c (?st2, _)] => destruct (cli_audit_run a b n c st2 s) as [s' ->] end.
    simpl. pose proof (puts_record st2 c (fw_wf _ _ Hf)) as Hp.
    eapply effect_created; [exact Hf|apply Hp|apply Hp|by eapply index_browser|done].
  - unfold mintUserCode, mbind, C_bind, cli_get. change (st2, s).1 with st2.
    match goal with |- context [head ?l] => destruct (head l) as [raw|] eqn:Hraw end; simpl; [|by apply effect_fewer].
    apply head_Some_elem_of, list_elem_of_filter in Hraw as [Hfree Hin].
    assert (Hvalid : valid_draw raw) by (rewrite Forall_forall in Hdraws; eapply Hdraws, elem_take, Hin).
    change (take 4 raw ++ js "-" ++ drop 4 raw) with (dashed raw).
    set (c := device_record requestId client (dashed raw) now).
    unfold put_record, cli_update. simpl.
    match goal with |- context [cli_audit ?a ?b ?n ?c (?st2, _)] => destruct (cli_audit_run a b n c st2 s) as [s' ->] end.
    simpl. pose proof (puts_record st2 c (fw_wf _ _ Hf)) as Hp.
    eapply effect_created; [exact Hf|apply Hp|apply Hp| |done].
    intros Hnone Hix. apply (index_device requestId c (dashed raw) st2); [exact Hp|done| | |exact Hnone|exact Hix].
    + by destruct raw.
    + rewrite normalize_dashed by done. unfold mhas in Hfree. by destruct (mget raw _).
Qed.

Lemma approve_effect requestId auditId code now userId identityId w :
  map_wf (cli_records w.1) -> keyed w.1 ->
  let '(w', x) := approve_ requestId auditId code now userId identityId w in
  cli_effect now (logged x (fun _ => EvApproved requestId userId identityId now)) w.1 w'.1.
Proof.
  destruct w as [st s]. simpl. intros Hwf Hk. unfold approve, mbind, C_bind. rewrite requireRecord_run.
  destruct (cli_lookup st requestId) as [c|] eqn:Hc; [|by apply effect_fewer].
  pose proof (puts_expired now st _ _ Hwf Hk Hc) as Hp. pose proof (expired_record_live now c) as Hlive.
  set (st1 := with_cli_records _ _) in *.
  assert (Hfail : cli_effect now [] st st1) by by eapply effect_expired.
  destruct (c_status (expired_record now c)) eqn:Hst; try exact Hfail.
  - destruct Hlive as [Heq Hnow]; [auto|]. rewrite Heq in *.
    unfold put_record, cli_update. simpl.
    match goal with |- context [cli_audit ?a ?b ?n ?c (?st2, _)] => destruct (cli_audit_run a b n c st2 s) as [s' ->] end.
    simpl. eapply (effect_puts now _ requestId c); [by apply fewer_refl|done| | |].
    + eapply puts_trans; [exact Hp|]. rewrite <- (Hk _ _ Hc) in *.
      change (c_requestId c) with (c_requestId (cli_approved userId identityId code now c)). apply puts_record, Hp.
    + eapply tr_approve; eauto.
    + by intros e ->%list_elem_of_singleton.
  - destruct Hlive as [Heq Hnow]; [auto|]. rewrite Heq in *. destruct (decide _) as [Hu|Hu]; [|exact Hfail].
    simpl. eapply (effect_puts now _ requestId c); [by apply fewer_refl|done|exact Hp| |].
    + by eapply tr_approved_again.
    + by intros e ->%list_elem_of_singleton.
Qed.

Lemma deny_effect requestId auditId now userId w :
  map_wf (cli_records w.1) -> keyed w.1 ->
  let '(w', x) := deny requestId auditId now userId w in
  cli_effect now (logged x (fun _ => EvDenied requestId userId now)) w.1 w'.1.
Proof.
  destruct w as [st s]. simpl. intros Hwf Hk. unfold deny, mbind, C_bind. rewrite requireRecord_run.
  destruct (cli_lookup st requestId) as [c|] eqn:Hc; [|by apply effect_fewer].
  pose proof (puts_expired now st _ _ Hwf Hk Hc) as Hp. pose proof (expired_record_live now c) as Hlive.
  set (st1 := with_cli_records _ _) in *.
  assert (Hfail : cli_effect now [] st st1) by by eapply effect_expired.
  destruct (c_status (expired_record now c)) eqn:Hst; try exact Hfail.
  - destruct Hlive as [Heq Hnow]; [auto|]. rewrite Heq in *.
    unfold put_record, cli_update. simpl.
    match goal with |- context [cli_audit ?a ?b ?n ?c (?st2, _)] => destruct (cli_audit_run a b n c st2 s) as [s' ->] end.
    simpl. eapply (effect_puts now _ requestId c); [by apply fewer_refl|done| | |].
    + eapply puts_trans; [exact Hp|]. rewrite <- (Hk _ _ Hc) in *.
      change (c_requestId c) with (c_requestId (cli_denied userId now c)). apply puts_record, Hp.
    + eapply tr_deny; eauto.
    + by intros e ->%list_elem_of_singleton.
  - assert (Heq : expired_record now c = c).
    { unfold expired_record in *. case_decide as Hd; [|done]. simpl in Hst. congruence. }
    rewrite Heq in *. simpl. eapply (effect_puts now _ requestId c); [by apply fewer_refl|done|exact Hp| |].
    + eapply tr_deny; eauto.
    + by intros e ->%list_elem_of_singleton.
Qed.

Lemma silent_polled now c iv :
  c_status c = CliPending -> (c_intervalSeconds c <= 300 -> c_intervalSeconds c <= iv <= 300)%Z -> silent now c (cli_polled iv now c).
Proof. intros Hst Hiv. constructor; auto. Qed.

Lemma slowed_interval_bounds c :
  (c_intervalSeconds c <= 300 -> c_intervalSeconds c <= slowed_interval c <= 300)%Z.
Proof. unfold slowed_interval, DEVICE_CODE_SLOW_DOWN_SECONDS, DEVICE_CODE_MAX_POLL_INTERVAL_SECONDS. lia. Qed.

(** A poll of a pending request only fails, and leaves its record pending. *)
Lemma exchange_pending_effect {A} auditId now t c st st1 st2 s k :
  fewer st st1 -> puts k c st1 st2 -> c_requestId c = k -> cli_lookup st1 k = Some c -> c_status c = CliPending ->
  exists st3 s' e, (exchange_pending auditId now t c : C_ A) (st2, s) = ((st3, s'), Throw e) /\ cli_effect now [] st st3.
Proof.
  intros Hf Hp Hid Hc Hst.
  assert (Hput : forall iv, (c_intervalSeconds c <= 300 -> c_intervalSeconds c <= iv <= 300)%Z ->
    cli_effect now [] st (with_cli_records (mset (c_requestId c) (cli_polled iv now c)) st2)).
  { intros iv Hiv. eapply (effect_puts now _ k c); [done|done| | |set_solver].
    - eapply puts_trans; [exact Hp|]. subst k. apply (puts_record _ (cli_polled iv now c)), Hp.
    - apply tr_silent; [set_solver|by apply silent_polled]. }
  unfold exchange_pending, mbind, C_bind. destruct t as [rid code verifier|rid].
  - simpl. exists st2, s. eexists. split; [done|]. eapply (effect_puts now _ k c); [done|done|done| |set_solver].
    apply tr_silent; [set_solver|apply silent_refl].
  - destruct (early_poll now c); unfold put_record, cli_update, failExchange, mbind, C_bind; simpl.
    + match goal with |- context [cli_audit ?a ?b ?n ?c (?st2, _)] => destruct (cli_audit_run a b n c st2 s) as [s' ->] end.
      do 3 eexists. split; [done|]. apply Hput, slowed_interval_bounds.
    + do 3 eexists. split; [done|]. apply Hput. lia.
Qed.

(** The lookup of an exchange, after its limiter and its pruning. *)
Lemma pruned_get {A} id now (k : option CliAuthorizationRecord -> C_ A) st s :
  (prune toUpperCase now ≫= fun _ => cli_get (fun st => mget id (cli_records st)) ≫= k) (st, s)
  = k (cli_lookup (prune_ now st) id) (prune_ now st, s).
Proof. done. Qed.

Lemma exchange_effect auditId sessionId secret now t sourceId w :
  map_wf (cli_records w.1) -> keyed w.1 ->
  let '(w', x) := exchange_ auditId sessionId secret now t sourceId w in
  cli_effect now (logged x (fun created => EvExchanged (token_request_id t) (s_identityId (cs_session created)) now)) w.1 w'.1.
Proof.
  destruct w as [st s]. simpl. intros Hwf Hk. unfold exchange. unfold mbind at 1, C_bind at 1.
  destruct (assert_token_run sourceId now st s) as (st0 & Er & Ei & [-> | ->]); [|by apply effect_fewer, fewer_admitted].
  destruct (fewer_admitted now st st0 Hwf Er Ei) as [Hf _]. rewrite (pruned_get (token_request_id t)).
  set (st1 := prune_ now st0) in *. set (k := token_request_id t) in *. pose proof (fewer_keyed _ _ Hf Hk) as Hk1.
  destruct (cli_lookup st1 k) as [c|] eqn:Hc; [|by apply effect_fewer].
  unfold expireRecord, put_record, cli_update, mbind, C_bind. simpl.
  pose proof (puts_expired now st1 _ _ (fw_wf _ _ Hf) Hk1 Hc) as Hp. pose proof (expired_record_live now c) as Hlive.
  assert (Hfail : cli_effect now [] st (with_cli_records (mset (c_requestId (expired_record now c)) (expired_record now c)) st1))
    by by eapply effect_expired.
  set (st2 := with_cli_records _ _) in *.
  destruct (c_status (expired_record now c)) eqn:Hst;
    try (unfold failExchange, mbind, C_bind;
         match goal with |- context [cli_audit ?a ?b ?n ?c (?st2, _)] => destruct (cli_audit_run a b n c st2 s) as [s' ->] end;
         exact Hfail).
  - destruct Hlive as [Heq Hnow]; [auto|]. rewrite Heq in *.
    destruct (@exchange_pending_effect created_session auditId now t c st st1 st2 s k) as (st3 & s' & e & -> & He); auto.
  - destruct Hlive as [Heq Hnow]; [auto|]. rewrite Heq in *.
    destruct (negb _); [exact Hfail|]. destruct (c_approvedIdentityId c) as [i|] eqn:Hi; [|exact Hfail].
    destruct (truthy i); [|exact Hfail].
    assert (Hput : puts k (cli_consumed now c) st1 (with_cli_records (mset (c_requestId c) (cli_consumed now c)) st2)).
    { eapply puts_trans; [exact Hp|]. rewrite <- (Hk1 _ _ Hc). apply (puts_record _ (cli_consumed now c)), Hp. }
    set (st3 := with_cli_records _ st2) in *.
    assert (Hquiet : cli_effect now [] st st3).
    { eapply (effect_puts now _ k c); [done|done|done| |set_solver].
      apply tr_silent; [set_solver|]. constructor; simpl; auto; lia. }
    unfold cli_call at 1. destruct s as [au r]. simpl.
    destruct (createSessionForIdentity _ _ _ _ _ _ _ _ _ (au, r)) as [[au1 r1] [created|e]] eqn:Ecr; [|exact Hquiet].
    apply createSession_ok in Ecr as (identity & access & _ & _ & -> & _). simpl.
    unfold cli_call at 1, db. simpl. destruct (requireUser _ r1) as [r2 [u|e]]; [|exact Hquiet].
    match goal with |- context [cli_audit ?a ?b ?n ?c (?st2, ?s2)] => destruct (cli_audit_run a b n c st2 s2) as [s' ->] end.
    simpl. eapply (effect_puts now _ k c); [done|done|exact Hput| |].
    + by eapply tr_exchange.
    + by intros e ->%list_elem_of_singleton.
Qed.

(** The draws of a creation are codes. *)
Definition valid_op (op : cli_op) : Prop :=
  match op with OpCreate _ _ draws _ _ _ => Forall valid_draw draws | _ => True end.

Lemma cli_run_op_effect now op w :
  map_wf (cli_records w.1) -> keyed w.1 -> valid_op op ->
  cli_effect now (cli_run_op now op w).2 w.1 (cli_run_op now op w).1.1.
Proof.
  intros Hwf Hk Hop. destruct op; simpl; [| |by apply detailByUserCode_effect|..]; [|by apply detail_effect|..].
  - pose proof (create_effect requestId auditId draws now input publicOrigin sourceId w Hwf Hop). by destruct (create_ _ _ _ _ _ _ _ w).
  - pose proof (approve_effect requestId auditId code now userId identityId w Hwf Hk). by destruct (approve_ _ _ _ _ _ _ w).
  - pose proof (deny_effect requestId auditId now userId w Hwf Hk). by destruct (deny _ _ _ _ w).
  - pose proof (exchange_effect auditId sessionId secret now t sourceId w Hwf Hk). by destruct (exchange_ _ _ _ _ _ _ w).
Qed.

(** ** Histories *)

(** A request identifier is drawn once. *)
Definition fresh_op (op : cli_op) (log : list cli_event) : Prop :=
  match op with
  | OpCreate requestId _ _ _ _ _ => forall e, e ∈ log -> event_request e <> requestId
  | _ => True
  end.

(** What happened, newest first; between operations the rest of the server
    goes on. *)
Inductive cli_history : Z -> cli_world -> list cli_event -> Prop :=
| history_start t s : cli_history t (new_cli_state, s) []
| history_op t t' w op log :
    cli_history t w log -> (t <= t')%Z -> fresh_op op log -> valid_op op ->
    cli_history t' (cli_run_op t' op w).1 ((cli_run_op t' op w).2 ++ log)
| history_other t st s s' log : cli_history t (st, s) log -> cli_history t (st, s') log.

Definition is_exchange (k : jsstring) (e : cli_event) : bool :=
  match e with EvExchanged k' _ _ => bool_decide (k' = k) | _ => false end.
Definition is_denial (k : jsstring) (e : cli_event) : bool :=
  match e with EvDenied k' _ _ => bool_decide (k' = k) | _ => false end.
Definition exchanges (k : jsstring) (log : list cli_event) : list cli_event := filter (fun e => is_exchange k e = true) log.
Definition denials (k : jsstring) (log : list cli_event) : list cli_event := filter (fun e => is_denial k e = true) log.

(** What the log says of a request in memory. *)
Record request_inv (t : Z) (log : list cli_event) (k : jsstring) (c : CliAuthorizationRecord) : Prop := RequestInv {
  ri_id : c_requestId c = k;
  ri_created : EvCreated k (c_createdAt c) ∈ log;
  ri_times : (c_createdAt c <= t /\ c_expiresAt c = c_createdAt c + AUTHORIZATION_TTL_MS)%Z;
  ri_interval : (5 <= c_intervalSeconds c <= 300)%Z;
  ri_approved : c_status c = CliApproved -> exists u i ta, c_approvedUserId c = Some u /\ c_approvedIdentityId c = Some i
    /\ EvApproved k u i ta ∈ log /\ (c_createdAt c <= ta <= t)%Z;
  ri_denied : c_status c <> CliDenied -> denials k log = [];
  ri_exchanged : c_status c <> CliConsumed -> exchanges k log = []
}.

(** A session was made once, in time, for the identity that approved. *)
Definition exchange_justified (log : list cli_event) (k i : jsstring) (te : Z) : Prop :=
  exists tc ta u, EvCreated k tc ∈ log /\ EvApproved k u i ta ∈ log
    /\ (tc <= ta <= te)%Z /\ (te < tc + AUTHORIZATION_TTL_MS)%Z.

Record history_inv (t : Z) (st : cli_state) (log : list cli_event) : Prop := HistoryInv {
  hi_wf : map_wf (cli_records st);
  hi_records k c : cli_lookup st k = Some c -> request_inv t log k c;
  hi_once k : length (exchanges k log) <= 1;
  hi_excluded k : exchanges k log = [] \/ denials k log = [];
  hi_justified k i te : EvExchanged k i te ∈ log -> exchange_justified log k i te;
  hi_index : index_inv st
}.

Lemma exchanges_cons k e log : exchanges k (e :: log) = if is_exchange k e then e :: exchanges k log else exchanges k log.
Proof. unfold exchanges. rewrite filter_cons. by destruct (is_exchange k e). Qed.
Lemma denials_cons k e log : denials k (e :: log) = if is_denial k e then e :: denials k log else denials k log.
Proof. unfold denials. rewrite filter_cons. by destruct (is_denial k e). Qed.

Lemma event_other k e : event_request e <> k -> is_exchange k e = false /\ is_denial k e = false.
Proof. destruct e; simpl; intros H; split; try done; by apply bool_decide_eq_false. Qed.

Lemma no_events k log : (forall e, e ∈ log -> event_request e <> k) -> exchanges k log = [] /\ denials k log = [].
Proof.
  intros H. unfold exchanges, denials. split; apply elem_of_nil_inv; intros e He%list_elem_of_filter;
    destruct He as [He Hin]; apply H in Hin; apply event_other in Hin as [H1 H2]; congruence.
Qed.

(** A request untouched by the event. *)
Lemma request_inv_other t t' e log k c :
  request_inv t log k c -> (t <= t')%Z -> event_request e <> k -> request_inv t' (e :: log) k c.
Proof.
  intros [] Ht Hne. destruct (event_other k e Hne) as [H1 H2].
  constructor; rewrite ?exchanges_cons, ?denials_cons, ?H1, ?H2; auto; [set_solver|lia|].
  intros Hst. destruct (ri_approved0 Hst) as (u & i & ta & Hu & Hi & Hin & Hta). exists u, i, ta.
  split_and!; try done; try lia; set_solver.
Qed.

Lemma request_inv_later t t' log k c : request_inv t log k c -> (t <= t')%Z -> request_inv t' log k c.
Proof.
  intros [] Ht. constructor; auto; [lia|].
  intros Hst. destruct (ri_approved0 Hst) as (u & i & ta & Hu & Hi & Hin & Hta). exists u, i, ta. split_and!; try done; lia.
Qed.

Lemma request_inv_silent t log k c c' : request_inv t log k c -> silent t c c' -> request_inv t log k c'.
Proof.
  intros [] []. constructor; try congruence; try lia.
  - intros Hst. rewrite si_created0, si_approver0, si_approved0. destruct si_status0 as [E|[(_ & _ & E)|[_ E]]]; [|congruence|congruence].
    apply ri_approved0. congruence.
  - intros Hst. apply ri_denied0. destruct si_status0 as [E|[(E & _)|[E _]]]; try congruence. destruct_or?; congruence.
  - intros Hst. apply ri_exchanged0. destruct si_status0 as [E|[(E & _)|[E _]]]; try congruence. destruct_or?; congruence.
Qed.

(** The request an event is about. *)
Lemma request_inv_event t log e k c c' :
  request_inv t log k c -> cli_transition t [e] k c c' -> event_request e = k ->
  request_inv t (e :: log) k c' /\ (forall i te, e = EvExchanged k i te -> exchange_justified log k i te /\ exchanges k log = [] /\ denials k log = [])
  /\ (forall u te, e = EvDenied k u te -> exchanges k log = []).
Proof.
  intros [] Htr He. destruct Htr as [Hno Hs|u i Hev Hst Hnow [code ->]|u i Hev Hst Hu ->|u Hev Hcase|i Hev Hst Hnow Hi ->];
    [exfalso; apply (Hno e); [set_solver|done]|..]; injection Hev as ->.
  - split; [|done]. constructor; rewrite ?exchanges_cons, ?denials_cons; simpl; auto; try set_solver;
      intros _; [apply ri_denied0|apply ri_exchanged0]; congruence.
  - split; [|done]. constructor; rewrite ?exchanges_cons, ?denials_cons; simpl; auto; [set_solver|].
    intros _. destruct (ri_approved0 Hst) as (u' & i' & ta & Hu' & Hi' & Hin & Hta). exists u', i', ta. split_and!; try done; try lia; set_solver.
  - assert (Hx : exchanges k log = []) by (apply ri_exchanged0; destruct Hcase as [[-> _]|[-> _]]; done).
    assert (Hden : c_status c' = CliDenied) by (destruct Hcase as [[_ ->]|[? ->]]; done).
    split; [|split; [done|done]].
    constructor; rewrite ?exchanges_cons, ?denials_cons; simpl; auto;
      try (by destruct Hcase as [[_ ->]|[_ ->]]); try congruence.
    destruct Hcase as [[_ ->]|[_ ->]]; simpl; set_solver.
  - destruct (ri_approved0 Hst) as (u' & i' & ta & Hu' & Hi' & Hin & Hta). assert (i' = i) as -> by congruence.
    assert (Hd : denials k log = []) by (apply ri_denied0; congruence).
    assert (Hx : exchanges k log = []) by (apply ri_exchanged0; congruence).
    split; [|split; [|done]].
    + constructor; rewrite ?exchanges_cons, ?denials_cons; simpl; auto; try done. set_solver.
    + intros i0 te [= <- <-]. split; [|done]. exists (c_createdAt c), ta, u'. split_and!; try done; lia.
Qed.

(** An operation logs at most one event, at its time; only a creation may be
    of a request that is not in memory. *)
Lemma cli_run_op_events now op w :
  (cli_run_op now op w).2 = [] \/ exists e, (cli_run_op now op w).2 = [e]
    /\ (forall k, e = EvCreated k now -> exists a d i o s, op = OpCreate k a d i o s).
Proof.
  destruct op; simpl; auto;
    match goal with |- context [let '(_, _) := ?m in _] => destruct m as [w' [a|e]] end; simpl; auto; right; eexists; split; try done.
  intros k [= ->]. by repeat eexists.
Qed.

Lemma justified_cons e log k i te : exchange_justified log k i te -> exchange_justified (e :: log) k i te.
Proof. intros (tc & ta & u & H1 & H2 & H3 & H4). exists tc, ta, u. split_and!; try done; try set_solver; lia. Qed.

Lemma history_inv_quiet t t' st st' log :
  history_inv t st log -> (t <= t')%Z -> cli_effect t' [] st st' -> history_inv t' st' log.
Proof.
  intros [] Ht [Hwf Hrec _ Hix]. split; try done; [|apply Hix; [done|by intros k ?%elem_of_nil]]. intros k c' Hc'.
  destruct (Hrec _ _ Hc') as [(c & Hc & Htr)|[_ ?]]; [|done].
  eapply request_inv_silent; [eapply request_inv_later; [by apply hi_records0|exact Ht]|].
  by destruct Htr.
Qed.

Lemma history_inv_event t t' st st' log e :
  history_inv t st log -> (t <= t')%Z -> cli_effect t' [e] st st' ->
  (forall k, e = EvCreated k t' -> forall e', e' ∈ log -> event_request e' <> k) ->
  history_inv t' st' (e :: log).
Proof.
  intros [] Ht [Hwf Hrec Hev Hix] Hfresh. set (k0 := event_request e) in *.
  assert (Hnew : e = EvCreated k0 t' -> exchanges k0 log = [] /\ denials k0 log = []).
  { intros He. apply no_events. by apply Hfresh. }
  assert (Hold : e <> EvCreated k0 t' -> exists c c', cli_lookup st k0 = Some c /\ cli_lookup st' k0 = Some c'
     /\ cli_transition t' [e] k0 c c').
  { intros Hne. destruct (Hev e) as [?|?]; [set_solver|by destruct Hne|done]. }
  assert (Hfacts : e <> EvCreated k0 t' -> (forall i te, e = EvExchanged k0 i te -> exchange_justified log k0 i te /\ exchanges k0 log = [] /\ denials k0 log = [])
     /\ (forall u te, e = EvDenied k0 u te -> exchanges k0 log = [])).
  { intros Hne. destruct (Hold Hne) as (c & c' & Hc & _ & Htr).
    apply (request_inv_event t' log e k0 c c'); [by eapply request_inv_later; [apply hi_records0|]|done|done]. }
  split; [done| | | | |].
  - intros k c' Hc'. destruct (Hrec _ _ Hc') as [(c & Hc & Htr)|[Hcr Hevs]].
    + assert (Hri : request_inv t log k c) by auto. destruct (decide (k0 = k)) as [Hk|Hk].
      * destruct (request_inv_event t' log e k c c') as [? _]; [by eapply request_inv_later|done|done|done].
      * eapply request_inv_other; [eapply request_inv_silent; [by eapply request_inv_later|]|reflexivity|done].
        destruct Htr; simplify_eq; done.
    + injection Hevs as Hevs. assert (k = k0) as -> by (by unfold k0; rewrite Hevs). destruct (Hnew Hevs) as [Hx Hd].
      destruct Hcr as (Hid & Hst & Hcr & Hex & Hu & Hi & Hiv). unfold DEVICE_CODE_POLL_INTERVAL_SECONDS in Hiv.
      rewrite Hevs. constructor; rewrite ?exchanges_cons, ?denials_cons; simpl; auto; try congruence; try lia.
      rewrite Hcr. set_solver.
  - intros k. rewrite exchanges_cons. destruct (is_exchange k e) eqn:Hx; [|done].
    destruct e; try done. simpl in Hx. propify. subst k. change requestId with k0.
    destruct Hfacts as [Hj _]; [done|]. destruct (Hj _ _ eq_refl) as (_ & Hxs & _). rewrite Hxs. simpl. lia.
  - intros k. rewrite exchanges_cons, denials_cons. destruct (is_exchange k e) eqn:Hx; [|destruct (is_denial k e) eqn:Hd; [|done]].
    + right. destruct e; try done. simpl in *. propify. subst k. change requestId with k0.
      destruct Hfacts as [Hj _]; [done|]. by destruct (Hj _ _ eq_refl) as (_ & _ & ?).
    + left. destruct e; try done. simpl in *. propify. subst k. change requestId with k0.
      destruct Hfacts as [_ Hj]; [done|]. by apply (Hj _ _ eq_refl).
  - intros k i te [He|Hin]%elem_of_cons; [|by apply justified_cons, hi_justified0].
    subst e. simpl in k0. subst k0. destruct Hfacts as [Hj _]; [done|].
    by apply justified_cons, (Hj _ _ eq_refl).
  - apply Hix; [done|]. intros k He%list_elem_of_singleton. destruct (cli_lookup st k) as [c|] eqn:Hc; [|done].
    apply hi_records0 in Hc as []. by destruct (Hfresh k (eq_sym He) _ ri_created0).
Qed.

Lemma cli_history_inv t w log : cli_history t w log -> history_inv t w.1 log.
Proof.
  induction 1 as [t s|t t' w op log Hh IH Ht Hfresh Hvalid|t st s s' log Hh IH]; [|simpl in *|done].
  - split; simpl; [apply NoDup_nil_2|done|intros k; unfold exchanges; simpl; lia|by left| |].
    + intros k i te H%elem_of_nil. done.
    + split; simpl; [intros k c code H; discriminate H|intros key k H; discriminate H].
  - pose proof (cli_run_op_effect t' op w (hi_wf _ _ _ IH)) as Heff.
    specialize (Heff (fun k c Hc => ri_id _ _ _ _ (hi_records _ _ _ IH _ _ Hc)) Hvalid).
    destruct (cli_run_op_events t' op w) as [E|(e & E & Hop)]; rewrite E in *; simpl.
    + by eapply history_inv_quiet.
    + eapply history_inv_event; try done. intros k ->. destruct (Hop k eq_refl) as (a & d & i & o & s & ->). exact Hfresh.
Qed.

(** ** The guarantees *)

(** C10. A command-line sign-in is used once and only in time: whatever
    operations ran, in whatever order, and whatever the rest of the server
    did in between, if a request was exchanged for a session then it was
    exchanged exactly once, it was never denied, and the identity that
    signed in approved it between its creation and the exchange, which
    happened less than ten minutes after the creation. *)
Theorem cli_single_use t w log k i te :
  cli_history t w log -> EvExchanged k i te ∈ log ->
  exchanges k log = [EvExchanged k i te] /\ denials k log = [] /\ exchange_justified log k i te.
Proof.
  intros Hh Hin. apply cli_history_inv in Hh as []. pose proof (hi_once0 k) as Hone.
  assert (Hx : EvExchanged k i te ∈ exchanges k log).
  { apply list_elem_of_filter. split; [simpl; by apply bool_decide_eq_true|done]. }
  destruct (exchanges k log) as [|e [|e2 l]] eqn:E; [set_solver| |simpl in Hone; lia].
  apply list_elem_of_singleton in Hx as <-. split; [done|]. split; [|by apply hi_justified0].
  destruct (hi_excluded0 k) as [Hnil|?]; [congruence|done].
Qed.

(** The user code of a device request finds it, as long as it is kept:
    any input that normalizes to the code shown (other case, spaces or dashes)
    returns that very request, with its expiry applied, and no other request
    in memory has that code. *)
Theorem user_code_finds_request t w log now k c code typed :
  cli_history t w log -> cli_lookup w.1 k = Some c -> c_userCode c = Some code -> truthy k = true ->
  (now - RECORD_RETENTION_MS < c_expiresAt c)%Z ->
  normalizeUserCode toUpperCase typed = normalizeUserCode toUpperCase code ->
  (detailByUserCode_ typed now w).2 = Ok (expired_record now c)
  /\ forall k' c' code', cli_lookup w.1 k' = Some c' -> c_userCode c' = Some code' ->
       normalizeUserCode toUpperCase code' = normalizeUserCode toUpperCase code -> k' = k.
Proof.
  intros Hh Hc Hcode Hk Hkept Htyped. apply cli_history_inv in Hh as []. split.
  - pose proof (fewer_prune now w.1 hi_wf0) as [Hwf' _ Hix']. specialize (Hix' hi_index0).
    assert (Hkeep : cli_lookup (prune_ now w.1) k = Some c).
    { unfold cli_lookup. simpl. apply mget_filter; [done|]. split; [done|]. simpl. lia. }
    destruct (ix_record _ Hix' _ _ _ Hkeep Hcode) as [_ Hget].
    destruct w as [st s]. unfold detailByUserCode, prune, cli_update, cli_get, mbind, C_bind.
    change (st, s).1 with st in *. change (st, s).2 with s. set (st1 := prune_ now st) in *.
    change (st1, s).1 with st1. rewrite Htyped, Hget. unfold option_bind. rewrite Hk.
    change (mget k (cli_records st1)) with (cli_lookup st1 k). by rewrite Hkeep.
  - intros k' c' code' Hc' Hcode' Heq. destruct (ix_record _ hi_index0 _ _ _ Hc Hcode) as [_ H1].
    destruct (ix_record _ hi_index0 _ _ _ Hc' Hcode') as [_ H2]. rewrite Heq, H1 in H2. by injection H2.
Qed.

(** Polling a pending device request: a poll that comes before the
    interval has passed since the last one is answered "slow down" and
    lengthens the interval by five seconds, up to five minutes; any other is
    answered "pending".  Either way the request stays pending with its clock
    reset, and a client that then waits for the interval is not slowed down
    again. *)
Theorem device_poll_pace auditId sessionId secret now sourceId w k c :
  map_wf (cli_records w.1) -> keyed w.1 -> cli_lookup w.1 k = Some c ->
  c_status c = CliPending -> (now < c_expiresAt c)%Z -> (5 <= c_intervalSeconds c <= 300)%Z ->
  is_ok (assert_token sourceId now w).2 = true ->
  let c' := cli_polled (if early_poll now c then slowed_interval c else c_intervalSeconds c) now c in
  let '(w', x) := exchange_ auditId sessionId secret now (DeviceCode k) sourceId w in
  x = Throw (authorizationFailure (if early_poll now c then "CLI_AUTHORIZATION_SLOW_DOWN" else "CLI_AUTHORIZATION_PENDING") 400)
  /\ cli_lookup w'.1 k = Some c' /\ (c_intervalSeconds c <= c_intervalSeconds c' <= 300)%Z
  /\ (early_poll now c = true -> c_intervalSeconds c' = Z.min (c_intervalSeconds c + 5) 300)
  /\ (forall later, (now + c_intervalSeconds c' * 1000 <= later)%Z -> early_poll later c' = false).
Proof.
  destruct w as [st s]. intros Hwf Hk Hc Hst Hnow Hiv Hadm. simpl in *.
  unfold exchange. unfold mbind at 1, C_bind at 1.
  destruct (assert_token_run sourceId now st s) as (st0 & Er & Ei & [E|E]); rewrite E in *; [|done].
  rewrite (pruned_get k). destruct (fewer_admitted now st st0 Hwf Er Ei) as [Hf _].
  assert (Hc0 : cli_lookup (prune_ now st0) k = Some c).
  { unfold cli_lookup. simpl. rewrite Er. apply mget_filter; [done|]. split; [done|]. simpl.
    unfold RECORD_RETENTION_MS. lia. }
  rewrite Hc0. unfold expireRecord, put_record, cli_update, mbind, C_bind, mret, C_ret. set (st1 := prune_ now st0) in *.
  pose proof (puts_expired now st1 _ _ (fw_wf _ _ Hf) (fewer_keyed _ _ Hf Hk) Hc0) as (Hwf2 & _ & _).
  assert (He : expired_record now c = c) by (unfold expired_record; rewrite decide_False; [done|lia]).
  cbv beta iota. unfold fst at 1, snd at 1. rewrite He in *. rewrite Hst. set (st2 := with_cli_records _ st1) in *.
  assert (Hlook : forall iv, cli_lookup (with_cli_records (mset (c_requestId c) (cli_polled iv now c)) st2) k = Some (cli_polled iv now c)).
  { intros iv. rewrite <- (Hk _ _ Hc). destruct (puts_record st2 (cli_polled iv now c) Hwf2) as (_ & _ & Hp). specialize (Hp (c_requestId c)).
    simpl in Hp. by rewrite decide_True in Hp. }
  assert (Hlater : forall iv later, (now + iv * 1000 <= later)%Z -> early_poll later (cli_polled iv now c) = false).
  { intros iv later Hl. unfold early_poll. simpl. apply Z.ltb_ge. lia. }
  unfold exchange_pending, put_record, cli_update, failExchange, mbind, C_bind.
  destruct (early_poll now c) eqn:Hearly; cbv zeta.
  - match goal with |- context [cli_audit ?a ?b ?n ?c (?st2, ?s2)] => destruct (cli_audit_run a b n c st2 s2) as [s' ->] end.
    split; [done|]. split; [apply Hlook|]. split; [apply slowed_interval_bounds; lia|]. split; [done|apply Hlater].
  - split; [done|]. split; [apply Hlook|]. split; [simpl; lia|]. split; [done|apply Hlater].
Qed.
End Spec.

(** ** Examples *)

#[export] Instance cli_event_eq_dec : EqDecision cli_event.
Proof. solve_decision. Defined.

Definition ascii_upper (s : jsstring) : jsstring := (fun c => if ((97 <=? c) && (c <=? 122))%N then (c - 32)%N else c) <$> s.

Lemma ascii_upper_keeps : keeps_user_codes ascii_upper.
Proof.
  intros s Hs. unfold ascii_upper. rewrite <- (list_fmap_id s) at 2. apply list_fmap_ext. intros i c Hc.
  assert (Hin : c ∈ s) by by eapply list_elem_of_lookup_2.
  assert (H : Forall (fun c => ((97 <=? c) && (c <=? 122))%N = false) (45%N :: USER_CODE_ALPHABET)).
  { apply (bool_decide_unpack _). vm_compute. exact I. }
  rewrite Forall_forall in H. rewrite H; [done|]. apply elem_of_cons. destruct (Hs c Hin); auto.
Qed.

Definition example_callback (redirectUri code state : jsstring) : jsstring :=
  redirectUri ++ js "?code=" ++ code ++ js "&state=" ++ state.

(** A server with one administrator. *)
Definition example_database : repository :=
  (bootstrapAdmin id id (fun p s => p ++ s) id false (js "user_1") (js "identity_1") (js "salt") 1
     (js "admin") (js "password") None empty_repository).1.

Definition example_step (now : Z) (op : cli_op) (wl : cli_world * list cli_event) : cli_world * list cli_event :=
  let run := cli_run_op id id ascii_upper id example_callback now op wl.1 in (run.1, run.2 ++ wl.2).

(** A device request, its approval and its exchange. *)
Definition example_requested : cli_world * list cli_event :=
  example_step 10 (OpCreate (js "cliauth_1") (js "a1") [js "ABCDEFGH"] (DeviceRequest (js "cli")) (js "http://localhost") None)
    ((new_cli_state, (new_auth_state, example_database)), []).
Definition example_history : cli_world * list cli_event :=
  example_step 30 (OpExchange (js "a3") (js "session_1") (js "secret") (DeviceCode (js "cliauth_1")) None)
    (example_step 20 (OpApprove (js "cliauth_1") (js "a2") (js "code") (js "user_1") (js "identity_1")) example_requested).

Lemma example_step_history t now op wl :
  cli_history id id ascii_upper id example_callback t wl.1 wl.2 -> (t <= now)%Z -> fresh_op op wl.2 -> valid_op op ->
  cli_history id id ascii_upper id example_callback now (example_step now op wl).1 (example_step now op wl).2.
Proof. intros. by eapply history_op. Qed.

Lemma example_is_history :
  cli_history id id ascii_upper id example_callback 30 example_history.1 example_history.2.
Proof.
  unfold example_history, example_requested.
  apply (example_step_history 20); [|lia|done|done]. apply (example_step_history 10); [|lia|done|done].
  apply (example_step_history 0); [apply history_start|lia| |].
  - intros e He. by apply elem_of_nil in He.
  - apply Forall_singleton. apply (bool_decide_unpack _). vm_compute. exact I.
Qed.

Lemma cli_single_use_witness :
  EvExchanged (js "cliauth_1") (js "identity_1") 30 ∈ example_history.2
  /\ denials (js "cliauth_1") example_history.2 = [].
Proof.
  assert (H : EvExchanged (js "cliauth_1") (js "identity_1") 30 ∈ example_history.2).
  { apply (bool_decide_unpack _). vm_compute. exact I. }
  split; [exact H|].
  apply (cli_single_use id id ascii_upper id example_callback ascii_upper_keeps 30 example_history.1 example_history.2
    (js "cliauth_1") (js "identity_1") 30 example_is_history H).
Defined.

Definition example_device : CliAuthorizationRecord :=
  cli_consumed 30 (cli_approved (js "user_1") (js "identity_1") (js "code") 20
    (device_record (js "cliauth_1") (js "cli") (js "ABCD-EFGH") 10)).

Lemma user_code_finds_request_witness :
  (detailByUserCode ascii_upper (js " abcd efgh ") 40 example_history.1).2 = Ok example_device.
Proof.
  refine (proj1 (user_code_finds_request id id ascii_upper id example_callback ascii_upper_keeps 30
    example_history.1 example_history.2 40 (js "cliauth_1") example_device (js "ABCD-EFGH") (js " abcd efgh ")
    example_is_history _ _ _ _ _)); vm_compute; reflexivity.
Defined.

Definition pending_world : cli_world :=
  (CliState [(js "r", cli_polled 5 10 (device_record (js "r") (js "cli") (js "ABCD-EFGH") 10))] [(js "ABCDEFGH", js "r")] [] [],
   (new_auth_state, empty_repository)).

Lemma device_poll_pace_witness :
  (exchange id id ascii_upper (js "a") (js "s") (js "x") 20 (DeviceCode (js "r")) None pending_world).2
  = Throw (authorizationFailure "CLI_AUTHORIZATION_SLOW_DOWN" 400).
Proof.
  pose proof (device_poll_pace id id ascii_upper id example_callback ascii_upper_keeps (js "a") (js "s") (js "x") 20 None pending_world (js "r")
    (cli_polled 5 10 (device_record (js "r") (js "cli") (js "ABCD-EFGH") 10))) as H.
  match type of H with _ -> _ -> _ -> _ -> _ -> _ -> _ -> let c' := _ in let '(w', x) := ?m in _ =>
    destruct m as [w' x] eqn:E end.
  destruct H as [H _].
  - apply NoDup_singleton.
  - intros k c Hc. unfold cli_lookup, pending_world in Hc. simpl in Hc. case_decide; [|done]. by injection Hc as <-.
  - reflexivity.
  - reflexivity.
  - reflexivity.
  - simpl. lia.
  - reflexivity.
  - simpl. rewrite H. reflexivity.
Defined.
