(* ===== verification/RuntimeAuth.v ===== *)
(** * The authentication of the control plane as a whole

    [ControlPlaneAuth] of
    [packages/control-plane/src/control-plane/auth/runtime-service.ts]: the
    facade the HTTP routes call.  [enabled] says whether the mode the server
    was started in is "password"; in the other mode requests are attributed to
    their token, or to the local operator when they come from the loopback
    interface.  Sessions and users are those of [UserSessions] and
    [UserService]; the command-line flow is that of [CliAuthorization]. *)

From S2P Require Export CliAuthorization.

(** The identifiers a call draws when it has to create the local operator. *)
Record operator_ids := OperatorIds { op_userId : jsstring; op_identityId : jsstring; op_auditId : jsstring }.

(** An authorization with the identity it was obtained through. *)
Abbreviation current_authorization := (user_authorization * jsstring)%type.

(** What [currentSession] says of the caller. *)
Record current_session := CurrentSession {
  cur_authenticated : bool;
  cur_userId : option jsstring;
  cur_authorization : option current_authorization;
  cur_requiresPasswordChange : bool
}.

Definition anonymous : current_session := CurrentSession false None None false.

Definition view_authorization (v : session_view) : current_authorization :=
  (sv_authorization v, s_identityId (sv_session v)).

Definition of_view (v : option session_view) : current_session :=
  match v with
  | Some v => CurrentSession true (Some (sv_userId v)) (Some (view_authorization v)) (sv_requiresPasswordChange v)
  | None => anonymous
  end.

(** The actor of a request. *)
Definition actor_of (authorization : current_authorization) (requiresPasswordChange : bool)
  : ControlPlaneUserAuthorizationContext :=
  let az := authorization.1 in
  UserContext (az_userId az) authorization.2 (az_roleIds az) (az_permissionIds az) (az_nodeScope az)
    (Some (az_instanceScope az)) (az_authorizationRevision az) requiresPasswordChange.

Section RuntimeAuth.
Context (enabled : bool) (options : RateLimitOptions)
  (lower toLocaleLowerCase : jsstring -> jsstring) (scrypt : jsstring -> jsstring -> list N)
  (base64url : list N -> jsstring) (fromBase64url : jsstring -> list N)
  (sha256 codeChallenge toUpperCase encodeURIComponent : jsstring -> jsstring)
  (callbackUrl : jsstring -> jsstring -> jsstring -> jsstring).

Abbreviation resolve_ := (resolve sha256).

Definition auth_disabled : service_error := ServiceError "AUTH_DISABLED" 400.
Definition assertEnabled : S_ unit := check enabled auth_disabled.

(** ** Starting *)

(** [ControlPlaneUserStore.init] on a database with no legacy data. *)
Definition store_init (now : Z) : M unit :=
  initialized ← gets (fun r => bool_decide (is_Some (initializedAt r)));
  if initialized : bool then ensureSystemRoles lower now else mret ().

(** Enabling authentication ends the access of the local operator. *)
Definition init (now : Z) : S_ unit :=
  if enabled then _ ← db (store_init now); _ ← db (retireLocalTrustAccess now); mret () else mret ().

Definition requiresBootstrap (r : repository) : bool :=
  bool_decide (initializedAt r = None) || bool_decide (table_list (users r) = []).

(** ** Signing in *)

Definition login (sessionId secret : jsstring) (now : Z) (username password : jsstring) (source : option jsstring)
  : S_ created_session :=
  _ ← assertEnabled;
  loginLocal options sha256 toLocaleLowerCase scrypt fromBase64url sessionId secret now username password source
    ClientWeb None.

Definition loginMobile (sessionId secret : jsstring) (now : Z) (username password device : jsstring)
    (source : option jsstring) : S_ created_session :=
  _ ← assertEnabled;
  loginLocal options sha256 toLocaleLowerCase scrypt fromBase64url sessionId secret now username password source
    ClientMobile (Some device).

(** Until when a confirmation counts, and since when it does. *)
Definition auth_stepUp (now : Z) (token : option jsstring) (password : jsstring) : S_ Z :=
  if enabled then stepUp sha256 scrypt fromBase64url now token password else mret (now + 5 * 60000)%Z.

Definition requireRecentAuthentication (now : Z) (token : option jsstring) : S_ Z :=
  if enabled then requireRecent sha256 now token STEP_UP_MAX_AGE_MS else mret now.

(** ** The local operator *)

(** [ensureLocalTrustOperator]: the account is made sure of once, and then
    remembered. *)
Definition ensureLocalTrustOperator_once (ids : operator_ids) (now : Z) : S_ (jsstring * jsstring) :=
  cached ← instance localTrustOperator;
  match cached with
  | Some operator => mret operator
  | None =>
      operator ← db (ensureLocalTrustOperator lower (op_userId ids) (op_identityId ids) (op_auditId ids) now);
      _ ← update (with_localTrustOperator (Some operator));
      mret operator
  end.

Definition localOperator (ids : operator_ids) (now : Z) (remoteAddress : option jsstring)
  : S_ (option (jsstring * jsstring)) :=
  if enabled || negb (isLoopbackRemoteAddress remoteAddress) then mret None
  else
    operator ← ensureLocalTrustOperator_once ids now;
    mret (Some operator).

Definition localOperatorAccess (ids : operator_ids) (now : Z) (remoteAddress : option jsstring)
  : S_ (option current_authorization) :=
  operator ← localOperator ids now remoteAddress;
  match operator with
  | None => mret None
  | Some (userId, identityId) => access ← db (authorization userId); mret (Some (access, identityId))
  end.

Definition localOperatorActor (ids : operator_ids) (now : Z) (remoteAddress : option jsstring)
  : S_ (option ControlPlaneUserAuthorizationContext) :=
  access ← localOperatorAccess ids now remoteAddress;
  mret ((fun access => actor_of access false) <$> access).

(** ** Whose request it is *)

(** [resolveDisabledCredential]: the database is there, so it resolves. *)
Definition resolveDisabledCredential (now : Z) (token : jsstring) (clientTypes : list client_type)
  : S_ (option session_view) := resolve_ now (Some token) (Some clientTypes).

(** A token that is not the empty string. *)
Definition given (token : option jsstring) : option jsstring :=
  match token with Some t => if truthy t then Some t else None | None => None end.

Definition auth_currentSession (ids : operator_ids) (now : Z) (token : option jsstring) (clientTypes : list client_type)
    (remoteAddress : option jsstring) : S_ current_session :=
  if enabled then view ← currentSession sha256 now token clientTypes; mret (of_view view)
  else
    match given token with
    | Some token => view ← resolveDisabledCredential now token clientTypes; mret (of_view view)
    | None =>
        operator ← localOperator ids now remoteAddress;
        match operator with
        | None => mret anonymous
        | Some (userId, _) =>
            access ← localOperatorAccess ids now remoteAddress;
            match access with
            | Some access => _ ← db (requireUser userId); mret (CurrentSession true (Some userId) (Some access) false)
            | None => mret anonymous
            end
        end
    end.

Definition disabledModeAuthorization (now : Z) (token : option jsstring) (clientTypes : list client_type)
  : S_ (option ControlPlaneUserAuthorizationContext) :=
  match given token with
  | Some token =>
      if enabled then mret None
      else
        view ← resolveDisabledCredential now token clientTypes;
        mret ((fun v => actor_of (view_authorization v) (sv_requiresPasswordChange v)) <$> view)
  | None => mret None
  end.

Definition currentAccess (ids : operator_ids) (now : Z) (token : option jsstring) (clientTypes : list client_type)
    (remoteAddress : option jsstring) : S_ (option current_authorization) :=
  if enabled then view ← resolve_ now token (Some clientTypes); mret (view_authorization <$> view)
  else
    match given token with
    | Some token => view ← resolveDisabledCredential now token clientTypes; mret (view_authorization <$> view)
    | None => localOperatorAccess ids now remoteAddress
    end.

Definition authorizationForSessionToken (now : Z) (token : option jsstring) (clientTypes : list client_type)
  : S_ (option ControlPlaneUserAuthorizationContext) :=
  view ← resolve_ now token (Some clientTypes);
  mret ((fun v => actor_of (view_authorization v) (sv_requiresPasswordChange v)) <$> view).

Definition auth_renewSession (now : Z) (token : option jsstring) (clientTypes : list client_type) : S_ (option Z) :=
  _ ← assertEnabled; renewSession sha256 now token clientTypes.

(** ** Ending and listing sessions *)

Definition logoutSession (now : Z) (token : option jsstring) (clientTypes : list client_type) : S_ unit :=
  if enabled then
    current ← resolve_ now token (Some clientTypes);
    logout (match current with Some _ => token | None => None end)
  else
    match given token with
    | Some t =>
        local ← resolveDisabledCredential now t clientTypes;
        match local with Some _ => logout token | None => mret () end
    | None => mret ()
    end.

Definition clientSessions (now : Z) (token : option jsstring) (clientTypes : list client_type) (clientType : client_type)
  : S_ (option (list (UserSessionRecord * Z))) :=
  current ← resolve_ now token (Some clientTypes);
  match current with
  | Some v => rows ← listClientSessions now (sv_userId v) clientType; mret (Some rows)
  | None => mret None
  end.

(** The code passes an absent token on as it is; the empty token resolves to
    no session. *)
Definition cliSessions (ids : operator_ids) (now : Z) (token : option jsstring) (clientTypes : list client_type)
    (remoteAddress : option jsstring) : S_ (option (list (UserSessionRecord * Z))) :=
  if enabled then clientSessions now token clientTypes ClientCli
  else
    current ← resolve_ now token (Some clientTypes);
    match current with
    | Some v => rows ← listClientSessions now (sv_userId v) ClientCli; mret (Some rows)
    | None =>
        operator ← localOperator ids now remoteAddress;
        match operator with
        | Some (userId, _) => rows ← listClientSessions now userId ClientCli; mret (Some rows)
        | None => mret None
        end
    end.

Definition revokeClientSession (now : Z) (token : option jsstring) (credentialTypes targetTypes : list client_type)
    (sessionId : jsstring) : S_ (option bool) :=
  current ← resolve_ now token (Some credentialTypes);
  match current with
  | Some v => revoked ← revokeSession (sv_userId v) sessionId (Some targetTypes); mret (Some revoked)
  | None => mret None
  end.

Definition revokeCliSession (ids : operator_ids) (now : Z) (token : option jsstring) (credentialTypes : list client_type)
    (sessionId : jsstring) (remoteAddress : option jsstring) : S_ (option bool) :=
  if enabled then revokeClientSession now token credentialTypes [ClientCli] sessionId
  else
    current ← resolve_ now token (Some credentialTypes);
    match current with
    | Some v => revoked ← revokeSession (sv_userId v) sessionId (Some [ClientCli]); mret (Some revoked)
    | None =>
        operator ← localOperator ids now remoteAddress;
        match operator with
        | Some (userId, _) => revoked ← revokeSession userId sessionId (Some [ClientCli]); mret (Some revoked)
        | None => mret None
        end
    end.

(** ** The command line *)

Definition cliEnabled : C_ unit := cli_call assertEnabled.

Definition createCliAuthorization (requestId auditId : jsstring) (draws : list jsstring) (now : Z) (input : cli_request)
    (publicOrigin : jsstring) (sourceId : option jsstring) : C_ ControlPlaneCliAuthorization :=
  _ ← cliEnabled; create toUpperCase encodeURIComponent requestId auditId draws now input publicOrigin sourceId.

Definition cliAuthorizationRequest (requestId : jsstring) (now : Z) : C_ CliAuthorizationRecord :=
  _ ← cliEnabled; cli_detail toUpperCase requestId now.

Definition cliAuthorizationRequestByUserCode (userCode : jsstring) (now : Z) : C_ CliAuthorizationRecord :=
  _ ← cliEnabled; detailByUserCode toUpperCase userCode now.

Definition approveCliAuthorization (requestId auditId code : jsstring) (now : Z) (userId identityId : jsstring)
  : C_ (cli_mode * option jsstring) :=
  _ ← cliEnabled; approve callbackUrl requestId auditId code now userId identityId.

Definition denyCliAuthorization (requestId auditId : jsstring) (now : Z) (userId : jsstring) : C_ unit :=
  _ ← cliEnabled; deny requestId auditId now userId.

Definition exchangeCliToken (auditId sessionId secret : jsstring) (now : Z) (t : token_request) (sourceId : option jsstring)
  : C_ created_session :=
  _ ← cliEnabled; exchange sha256 codeChallenge toUpperCase auditId sessionId secret now t sourceId.

(** A session for the operator of this machine, without authentication. *)
Definition createLocalCliSession (ids : operator_ids) (sessionId secret auditId : jsstring) (now : Z)
    (client : jsstring) (remoteAddress : option jsstring) : S_ created_session :=
  _ ← check (negb enabled) (ServiceError "AUTH_LOCAL_SESSION_UNAVAILABLE" 403);
  _ ← check (isLoopbackRemoteAddress remoteAddress) (ServiceError "AUTH_LOCAL_SESSION_NOT_LOCAL" 403);
  operator ← ensureLocalTrustOperator_once ids now;
  created ← createSessionForIdentity sha256 sessionId secret now operator.2 ClientCli None (Some client) (Some now);
  _ ← db (requireUser operator.1);
  _ ← db (audit_put (UserAudit auditId (js "cli-local-session.create") (Some operator.1) (js "cli-session")
                       (Some (s_id (cs_session created))) now));
  mret created.

(** ** Leases *)

(** A binding to an app holds while its authorization is the current one and
    allows interactive access to the instance. *)
Record app_binding := AppBinding {
  ab_userId : jsstring;
  ab_authorizationRevision : Z;
  ab_instanceId : jsstring;
  ab_nodeId : jsstring
}.

Definition access_service_error (e : access_error) : service_error :=
  match e with
  | ForbiddenError _ _ => ServiceError "CONTROL_PLANE_FORBIDDEN" 403
  | ResourceNotVisible => ServiceError "CONTROL_PLANE_RESOURCE_NOT_VISIBLE" 404
  end.

Definition assertAppAccessAuthorization (binding : app_binding) : M unit :=
  az ← authorization (ab_userId binding);
  _ ← assert (bool_decide (az_authorizationRevision az = ab_authorizationRevision binding))
        (ServiceError "CONTROL_PLANE_AUTHORIZATION_REVISION_CONFLICT" 401);
  match assertCanAccessResolvedResource (actor_of (az, js "access-lease") false) InteractiveAccess
          (Resource RAppSession None) (InstanceDerived (ab_nodeId binding) (ab_instanceId binding)) with
  | Ok _ => mret ()
  | Throw e => throw (access_service_error e)
  end.

(** The change announced to the connections of a user. *)
Definition authorization_change (userId : jsstring) (r : repository) : option (jsstring * Z * user_status) :=
  user ← users r !! userId; grant ← grants r !! userId;
  Some (userId, g_authorizationRevision grant, u_status user).
End RuntimeAuth.

(** ** Connections bound to an authorization

    [AuthorizationConnectionRegistry] of [auth/authorization-connections.ts].
    A connection is known by the number its registration was given; closing
    it is the effect listed. *)

Record Connection := Conn { cn_id : N; cn_userId : jsstring; cn_revision : Z }.

Record connection_registry := Registry { connections : list Connection; next_connection : N }.

Definition track (userId : jsstring) (revision : Z) (reg : connection_registry) : connection_registry * N :=
  (Registry (connections reg ++ [Conn (next_connection reg) userId revision]) (next_connection reg + 1), next_connection reg).

Definition untrack (id : N) (reg : connection_registry) : connection_registry :=
  Registry (filter (fun c => cn_id c <> id) (connections reg)) (next_connection reg).

(** The registry and the connections that are closed. *)
Definition invalidate (userId : jsstring) (revision : Z) (reg : connection_registry) : connection_registry * list Connection :=
  let stale c := bool_decide (cn_userId c = userId) && negb (bool_decide (cn_revision c = revision)) in
  (Registry (filter (fun c => stale c = false) (connections reg)) (next_connection reg),
   filter (fun c => stale c = true) (connections reg)).
