(* ===== verification/AccessSystem.v ===== *)
(** * The access services together

    The requests that change who may do what, on one database and one
    instance: [UserService], [UserSessions] and [IdentityProviders], and the
    databases and instances a sequence of them reaches. *)

From S2P Require Export UserSessionsRefine IdentityProviders.

(** ** Providers and external sign-in make only the specified changes *)

Lemma lift_reads {A} (x : result service_error A) : reads (lift x).
Proof. done. Qed.
#[export] Hint Resolve lift_reads : jsdb.

Section Providers.
Context (urlString : jsstring -> jsstring) (seal : jsstring -> jsstring -> jsstring)
  (unseal : jsstring -> jsstring -> result service_error jsstring)
  (discoverIssuer : jsstring -> result service_error jsstring) (sha256 : jsstring -> jsstring)
  (exchange : IdentityProviderRecord -> ExternalLoginFlow -> jsstring -> result service_error external_claims).

(** The administrator keeps a provider that is still there and enabled. *)
Lemma has_admin_providers r r' :
  users r' = users r -> grants r' = grants r -> identities r' = identities r ->
  (forall i providerId p, identities r !! i_id i = Some i -> i_providerId i = Some providerId ->
     providers r !! providerId = Some p -> p_status p = ProviderEnabled ->
     exists p', providers r' !! providerId = Some p' /\ p_status p' = ProviderEnabled) ->
  has_admin r -> has_admin r'.
Proof.
  intros Eu Eg Ei Hp (u & g & i & Hu & Hst & Hg & Hadm & Hi & Hiu & Hcap).
  exists u, g, i. rewrite Eu, Eg, Ei. split_and!; try done.
  unfold login_capable, identity_login_capable in *. simpl in *.
  assert (Hgoal : match i_providerId i with
    | Some providerId => truthy providerId && match providers r !! providerId with
        | Some provider => bool_decide (p_status provider = ProviderEnabled) | None => false end
    | None => false end = true ->
    match i_providerId i with
    | Some providerId => truthy providerId && match providers r' !! providerId with
        | Some provider => bool_decide (p_status provider = ProviderEnabled) | None => false end
    | None => false end = true).
  { destruct (i_providerId i) as [pid|] eqn:Hpid; [|done]. intros [Ht Hpr]%andb_true_iff. rewrite Ht.
    destruct (providers r !! pid) as [p|] eqn:Hpp; [|done]. propify.
    destruct (Hp _ _ _ Hi Hpid Hpp) as (p' & -> & Hen); [done|]. by apply bool_decide_eq_true. }
  destruct (i_kind i); auto.
Qed.

Definition fresh_provider (id : jsstring) (r : repository) : Prop := providers r !! id = None.

Lemma provider_insert_key r p id q :
  access_inv r -> <[p_id p := p]> (providers r) !! id = Some q -> p_id q = id.
Proof. intros Hinv H. table_inv; [done|]. by eapply ai_provider_key. Qed.

Lemma createProvider_refines id now kind status policy name clientId secret callbackUrl issuer :
  refines_when (fresh_provider id) (createProvider seal discoverIssuer id now kind status policy name clientId secret callbackUrl issuer).
Proof.
  unfold createProvider. do 2 (apply refines_after; [by auto with jsdb|intros _]).
  apply refines_then; [|intros; apply refines_reads; auto with jsdb].
  intros r r' x Hinv Hfresh H. unfold providers_put, mbind, M_bind, assert in H.
  destruct (IdentityProviderRecordSchema _); injection H as <- _; [|done].
  apply rtc_once, change_providers; try done; simpl; [intros ? ?; by apply (provider_insert_key r)|].
  apply has_admin_providers; try done. intros i pid p Hi Hpid Hp Hen. exists p. split; [|done]. simpl.
  rewrite lookup_insert_ne; [done|]. simpl. intros <-. unfold fresh_provider in Hfresh. congruence.
Qed.

Lemma reads_clientSecret id : reads (clientSecret unseal id).
Proof. unfold clientSecret. auto with jsdb. Qed.

Lemma reads_namespace now p kind issuer : reads (assertIdentityNamespaceChangeAllowed urlString now p kind issuer).
Proof.
  unfold assertIdentityNamespaceChangeAllowed, identities_existsForProvider, approvals_hasActivePendingForProvider.
  case_decide; auto 10 with jsdb.
Qed.
#[local] Hint Resolve reads_clientSecret reads_namespace : jsdb.

Lemma reads_status_change id status : reads (assertProviderStatusChangeAllowed id status).
Proof.
  unfold assertProviderStatusChangeAllowed, assertLoginCapableAdminRemains. case_decide; auto with jsdb.
Qed.

Lemma updateProvider_refines providerId now update_ :
  refines (updateProvider urlString seal unseal discoverIssuer providerId now update_).
Proof.
  unfold updateProvider. do 4 (apply refines_after; [by auto with jsdb|intros ?]).
  apply refines_after; [repeat case_match; auto with jsdb|]. intros secret.
  apply refines_after; [by auto with jsdb|intros ?].
  apply refines_transaction. intros r r' res Hinv _ H.
  apply bind_ok in H as (op & r1 & H1 & H). run_inv H1.
  apply bind_ok in H as (p & r1 & H1 & H). run_inv H1. rename H1 into Hp.
  apply bind_ok in H as ([] & r1 & H1 & H). apply reads_ok in H1 as ->; [|auto with jsdb].
  apply bind_ok in H as ([] & r1 & Hst & H).
  pose proof (reads_ok _ _ _ _ (reads_status_change _ _) Hst) as ->.
  apply bind_ok in H as ([] & r1 & Hput & H). run_inv H.
  unfold providers_put in Hput. run_inv Hput.
  pose proof (ai_provider_key _ Hinv _ _ Hp) as Hk. subst providerId.
  apply rtc_once, change_providers; try done; simpl; [intros ? ?; by apply (provider_insert_key r (updated_provider seal now update_ p))|].
  unfold assertProviderStatusChangeAllowed in Hst. case_decide as Hen.
  - apply has_admin_providers; try done. intros i pid q Hi Hpid Hq Henq. simpl.
    destruct (decide (p_id p = pid)) as [<-|]; [|rewrite lookup_insert_ne by done; eauto].
    rewrite lookup_insert_eq. eexists. split; [done|]. done.
  - intros _. apply admin_remains_ok in Hst as [_ Hadm]; [|done].
    eapply (has_admin_after (LoginProjection None None None (Some (p_id p, default (p_status p) (pu_status update_)))) r);
      [exact Hadm|..]; simpl; [eauto|intros id Hin _; by apply default_roles|].
    intros i Hi Hcap. split; [done|]. unfold login_capable, identity_login_capable in *. simpl in *.
    destruct (i_kind i); try done; destruct (i_providerId i) as [pid|]; try done;
      apply andb_true_iff in Hcap as [-> Hcap]; simpl;
      (destruct (decide (p_id p = pid)) as [<-|Hne];
       [rewrite Hp in Hcap; rewrite lookup_insert_eq; simpl in *; by rewrite decide_True in Hcap
       |rewrite lookup_insert_ne by done; destruct (providers r !! pid) as [q|] eqn:Hq; [|done];
        rewrite (ai_provider_key _ Hinv _ _ Hq), decide_False in Hcap by done; done]).
Qed.

Lemma removeProvider_refines providerId : refines (removeProvider providerId).
Proof.
  intros r r' x Hinv _ H. unfold removeProvider, mbind, M_bind, gets, identities_existsForProvider, assert in H.
  destruct (providers r !! providerId) as [p|] eqn:Hp; [|by injection H as <- _].
  unfold gets in H. destruct (table_exists (fun i => bool_decide (i_providerId i = Some providerId)) (identities r)) eqn:Hex;
    simpl in H; [by injection H as <- _|].
  unfold providers_delete, mbind, M_bind, gets, modify, mret, M_ret in H. injection H as <- _.
  apply rtc_once, change_providers; try done; simpl.
  - intros id q [_ Hq]%lookup_delete_Some. by eapply ai_provider_key.
  - apply has_admin_providers; try done. intros i pid q Hi Hpid Hq Hen. exists q. split; [|done]. simpl.
    rewrite lookup_delete_ne; [done|]. intros <-.
    enough (table_exists (fun i => bool_decide (i_providerId i = Some providerId)) (identities r) = true) by congruence.
    apply table_exists_true. exists (i_id i), i. split; [done|]. by apply bool_decide_eq_true.
Qed.

Lemma approvals_put_refines P a : refines_when P (approvals_put a).
Proof.
  intros r r' x Hinv _ H. unfold approvals_put, mbind, M_bind, gets, assert in H.
  match type of H with context [if ?b then mret _ else _] => destruct b end; injection H as <- _; [|done].
  apply rtc_once, change_providers; try done. apply (ai_provider_key _ Hinv).
Qed.

Lemma callback_refines sessionId secret approvalId now state code m :
  srefines_when (fresh_session sessionId) (callback sha256 exchange sessionId secret approvalId now state code m).2.
Proof.
  unfold callback. destruct (negb _); [apply srefines_reads; simpl; auto with jsdb|].
  destruct (mget _ m) as [flow|]; [|apply srefines_reads; simpl; auto with jsdb].
  case_decide; [apply srefines_reads; simpl; auto with jsdb|]. simpl.
  apply srefines_after; [auto with jsdb|]. intros [p|]; [|apply srefines_reads; auto with jsdb].
  case_decide; [|apply srefines_reads; auto with jsdb].
  destruct (exchange _ _ _) as [claims|e]; [|apply srefines_reads; auto with jsdb].
  unfold admit_claims. apply srefines_after; [apply sreads_db; done|]. intros [i|].
  - apply srefines_then; [apply createSessionForIdentity_refines|]. intros. apply srefines_reads. auto with jsdb.
  - case_decide; [apply srefines_reads; auto with jsdb|].
    apply srefines_after; [apply sreads_db; done|]. intros [a|]; [apply srefines_reads; auto with jsdb|].
    apply srefines_then; [apply srefines_db, approvals_put_refines|]. intros. apply srefines_reads. auto with jsdb.
Qed.
End Providers.
