(* ===== verification/RuntimeAuthRefine.v ===== *)
(** * The facade and the command-line flow make only the specified changes

    As [UserServiceRefine] and [UserSessionsRefine], for the operations of
    [RuntimeAuth] and [CliAuthorization]. *)

From S2P Require Export AccessSystem RuntimeAuth CliAuthorizationSpec.

Lemma audit_put_refines P record : refines_when P (audit_put record).
Proof.
  intros r r' x Hinv _ [= <- _]. apply rtc_once, change_providers; try done. apply (ai_provider_key _ Hinv).
Qed.

(** ** Command-line operations *)

Definition crefines_when {A} (P : repository -> Prop) (m : C_ A) : Prop :=
  forall c st r c' st' r' x, access_inv r -> P r -> m (c, (st, r)) = ((c', (st', r')), x) -> rtc access_change r r'.
Abbreviation crefines := (crefines_when (fun _ => True)).
Definition creads {A} (m : C_ A) : Prop := forall w, (m w).1.2.2 = w.2.2.

Lemma crefines_reads {A} P (m : C_ A) : creads m -> crefines_when P m.
Proof. intros Hm c st r c' st' r' x _ _ E. specialize (Hm (c, (st, r))). rewrite E in Hm. simpl in Hm. by subst. Qed.

Lemma crefines_bind {A B} P (Q : A -> repository -> Prop) (m : C_ A) (k : A -> C_ B) :
  crefines_when P m -> (forall a, crefines_when (Q a) (k a)) ->
  (forall c st r c' st' r' a, access_inv r -> P r -> m (c, (st, r)) = ((c', (st', r')), Ok a) -> Q a r') ->
  crefines_when P (m ≫= k).
Proof.
  intros Hm Hk HQ c st r c' st' r' x Hinv HP E. unfold mbind, C_bind in E.
  destruct (m (c, (st, r))) as [[c1 [st1 r1]] [a|e]] eqn:E1.
  - pose proof (Hm _ _ _ _ _ _ _ Hinv HP E1) as H1. etrans; [exact H1|].
    eapply Hk; [by eapply rtc_change_inv| |exact E]. by eapply HQ.
  - injection E as <- <- <- <-. by eapply Hm.
Qed.

Lemma crefines_then {A B} P (m : C_ A) (k : A -> C_ B) :
  crefines_when P m -> (forall a, crefines (k a)) -> crefines_when P (m ≫= k).
Proof. intros Hm Hk. by apply (crefines_bind P (fun _ _ => True)). Qed.

Lemma crefines_after {A B} P (m : C_ A) (k : A -> C_ B) :
  creads m -> (forall a, crefines_when P (k a)) -> crefines_when P (m ≫= k).
Proof.
  intros Hm Hk. apply (crefines_bind P (fun _ => P)); [by apply crefines_reads|done|].
  intros c st r c' st' r' a _ HP E. specialize (Hm (c, (st, r))). rewrite E in Hm. simpl in Hm. by subst.
Qed.

Lemma crefines_call {A} P (m : S_ A) : srefines_when P m -> crefines_when P (cli_call m).
Proof.
  intros Hm c st r c' st' r' x Hinv HP E. unfold cli_call in E. simpl in E.
  destruct (m (st, r)) as [[st1 r1] y] eqn:E1. injection E as <- <- <- <-. by eapply Hm.
Qed.

Lemma creads_ret {A} (a : A) : creads (mret a). Proof. done. Qed.
Lemma creads_get {A} (f : cli_state -> A) : creads (cli_get f). Proof. done. Qed.
Lemma creads_update f : creads (cli_update f). Proof. done. Qed.
Lemma creads_fail {A} e : creads (cli_fail e : C_ A). Proof. done. Qed.
Lemma creads_put c : creads (put_record c). Proof. done. Qed.
Lemma creads_prune upper now : creads (prune upper now). Proof. done. Qed.
Lemma creads_bind {A B} (m : C_ A) (k : A -> C_ B) : creads m -> (forall a, creads (k a)) -> creads (m ≫= k).
Proof.
  intros Hm Hk w. unfold mbind, C_bind. specialize (Hm w).
  destruct (m w) as [w1 [a|e]]; simpl in *; [|done]. by rewrite Hk.
Qed.
Lemma creads_call {A} (m : S_ A) : sreads m -> creads (cli_call m).
Proof. intros Hm [c [st r]]. unfold cli_call. simpl. specialize (Hm st r). by destruct (m (st, r)). Qed.
#[export] Hint Resolve creads_ret creads_get creads_update creads_fail creads_put creads_prune creads_bind creads_call : jsdb.

Lemma creads_expireRecord now c : creads (expireRecord now c).
Proof. unfold expireRecord. auto with jsdb. Qed.
Lemma creads_requireRecord id now : creads (requireRecord id now).
Proof. unfold requireRecord. apply creads_bind; [auto with jsdb|]. intros [c|]; auto using creads_expireRecord with jsdb. Qed.
Lemma creads_mint draws : creads (mintUserCode draws).
Proof. unfold mintUserCode. apply creads_bind; [auto with jsdb|]. intros [raw|]; auto with jsdb. Qed.
Lemma creads_assert_create s now : creads (assert_create s now).
Proof. unfold assert_create. apply creads_bind; [auto with jsdb|]. intros [b|]; auto with jsdb. Qed.
Lemma creads_assert_token s now : creads (assert_token s now).
Proof. unfold assert_token. apply creads_bind; [auto with jsdb|]. intros [b|]; auto with jsdb. Qed.
#[export] Hint Resolve creads_expireRecord creads_requireRecord creads_mint creads_assert_create creads_assert_token : jsdb.

Lemma cli_audit_refines P auditId action now c : crefines_when P (cli_audit auditId action now c).
Proof. apply crefines_call, srefines_db, audit_put_refines. Qed.

Lemma failExchange_refines {A} P auditId now c e : crefines_when P (failExchange auditId now c e : C_ A).
Proof. apply crefines_then; [apply cli_audit_refines|]. intros _. apply crefines_reads. auto with jsdb. Qed.

(** One read step, or one audit record. *)
Ltac crefines_step :=
  first [ apply crefines_reads; by auto with jsdb
        | apply cli_audit_refines | apply failExchange_refines
        | apply crefines_after; [by auto with jsdb|intros ?]
        | apply crefines_then; [apply cli_audit_refines|intros ?] ].

Section Cli.
Context (sha256 codeChallenge toUpperCase encodeURIComponent : jsstring -> jsstring)
  (callbackUrl : jsstring -> jsstring -> jsstring -> jsstring).

Lemma create_refines requestId auditId draws now input origin sourceId :
  crefines (create toUpperCase encodeURIComponent requestId auditId draws now input origin sourceId).
Proof. unfold create. do 2 crefines_step. destruct input; repeat crefines_step. Qed.

Lemma cli_detail_refines requestId now : crefines (cli_detail toUpperCase requestId now).
Proof. apply crefines_reads. unfold cli_detail. auto with jsdb. Qed.

Lemma detailByUserCode_refines code now : crefines (detailByUserCode toUpperCase code now).
Proof.
  unfold detailByUserCode. do 2 crefines_step.
  match goal with |- context [match ?o with _ => _ end] => destruct o end; crefines_step.
Qed.

Lemma approve_refines requestId auditId code now userId identityId :
  crefines (approve callbackUrl requestId auditId code now userId identityId).
Proof.
  unfold approve. crefines_step. apply crefines_then; [|intros; crefines_step].
  case_match; try case_decide; repeat crefines_step.
Qed.

Lemma deny_refines requestId auditId now userId : crefines (deny requestId auditId now userId).
Proof. unfold deny. crefines_step. case_match; repeat crefines_step. Qed.

Lemma exchange_pending_refines {A} P auditId now t c : crefines_when P (exchange_pending auditId now t c : C_ A).
Proof.
  unfold exchange_pending. apply crefines_then; [|intros; crefines_step].
  destruct t; [crefines_step|]. destruct (early_poll now c); repeat crefines_step.
Qed.

Lemma exchange_refines auditId sessionId secret now t sourceId :
  crefines_when (fresh_session sessionId) (exchange sha256 codeChallenge toUpperCase auditId sessionId secret now t sourceId).
Proof.
  unfold exchange. do 3 crefines_step. destruct (_ : option CliAuthorizationRecord) as [c|]; [|crefines_step].
  crefines_step. case_match; try apply failExchange_refines; [apply exchange_pending_refines|].
  destruct (negb _); [crefines_step|]. case_match; [|crefines_step]. case_match; [|crefines_step]. crefines_step.
  apply crefines_then; [apply crefines_call, createSessionForIdentity_refines|]. intros created. repeat crefines_step.
Qed.
End Cli.

(** ** The facade *)

(** Operations that add no session. *)
Definition no_new_sessions (r r' : repository) : Prop := forall id, sessions r !! id = None -> sessions r' !! id = None.
#[local] Instance no_new_sessions_preorder : PreOrder no_new_sessions.
Proof. split; [by intros r id|]. intros r1 r2 r3 H1 H2 id Hid. by apply H2, H1. Qed.

Definition adds_no_session {A} (m : M A) : Prop := forall r, no_new_sessions r (m r).1.

Lemma ans_reads {A} (m : M A) : reads m -> adds_no_session m.
Proof. intros Hm r. by rewrite Hm. Qed.
Lemma ans_modify f : (forall r, no_new_sessions r (f r)) -> adds_no_session (modify f).
Proof. intros H r. apply H. Qed.
Lemma ans_bind {A B} (m : M A) (k : A -> M B) :
  adds_no_session m -> (forall a, adds_no_session (k a)) -> adds_no_session (m ≫= k).
Proof.
  intros Hm Hk r. unfold mbind, M_bind. specialize (Hm r). destruct (m r) as [r1 [a|e]]; simpl in *; [|done].
  etrans; [exact Hm|apply Hk].
Qed.
Lemma ans_transaction {A} (m : M A) : adds_no_session m -> adds_no_session (transaction m).
Proof. intros Hm r. unfold transaction. specialize (Hm r). by destruct (m r) as [r1 [a|e]]. Qed.
Lemma ans_mfor {A} (l : list A) f : (forall a, adds_no_session (f a)) -> adds_no_session (mfor l f).
Proof. intros Hf. induction l as [|a l IH]; simpl; [by apply ans_reads|]. by apply ans_bind. Qed.
#[local] Hint Resolve ans_bind ans_transaction ans_mfor : jsdb.
#[local] Hint Extern 2 (adds_no_session _) => apply ans_reads; solve [auto with jsdb] : jsdb.
#[local] Hint Extern 2 (adds_no_session (modify _)) => apply ans_modify; intros ? ? ?; done : jsdb.

Lemma ans_sessions_delete id : adds_no_session (sessions_delete id).
Proof.
  unfold sessions_delete. apply ans_bind; [auto with jsdb|]. intros d. apply ans_bind; [|auto with jsdb].
  apply ans_modify. intros r id' H. simpl. apply lookup_delete_None. auto.
Qed.
Lemma ans_identities_delete id : adds_no_session (identities_delete id).
Proof.
  unfold identities_delete. apply ans_bind; [auto with jsdb|]. intros d. apply ans_bind; [|auto with jsdb].
  apply ans_modify. intros r id' H. simpl. rewrite map_lookup_filter_None. auto.
Qed.
Lemma ans_revokeSessionsIn userId : adds_no_session (revokeSessionsIn userId).
Proof. unfold revokeSessionsIn. apply ans_bind; [auto with jsdb|]. intros rows. apply ans_mfor. auto using ans_sessions_delete with jsdb. Qed.

Lemma ans_puts :
  (forall u, adds_no_session (users_put u)) /\ (forall i, adds_no_session (identities_put i))
  /\ (forall g, adds_no_session (grants_put g)) /\ (forall a, adds_no_session (audit_put a))
  /\ (forall lower ro, adds_no_session (roles_put lower ro)).
Proof.
  unfold users_put, identities_put, grants_put, audit_put, roles_put. split_and!; auto 10 with jsdb.
Qed.

Lemma ensureLocalTrustOperator_sessions lower userId identityId auditId now :
  adds_no_session (ensureLocalTrustOperator lower userId identityId auditId now).
Proof.
  destruct ans_puts as (Hu & Hi & Hg & Ha & Hr). unfold ensureLocalTrustOperator, ensureSystemRoles.
  apply ans_bind; [apply ans_mfor; auto with jsdb|]. intros _. apply ans_transaction, ans_bind; [auto with jsdb|].
  assert (Hcreate : adds_no_session (createLocalTrustOperatorIn userId identityId auditId now)).
  { unfold createLocalTrustOperatorIn. auto 10 with jsdb. }
  intros [i|]; [|exact Hcreate]. apply ans_bind; [auto with jsdb|]. intros [u|].
  - apply ans_bind; [|auto with jsdb]. unfold restoreLocalTrustOperatorIn. apply ans_bind; [auto with jsdb|]. intros g.
    apply ans_bind; [destruct g as [g|]; [destruct (canonical_grant g)|]; auto with jsdb|]. intros _.
    apply ans_bind; [auto with jsdb|]. intros ou. apply ans_bind; [destruct ou; [case_decide|]; auto with jsdb|]. intros _.
    destruct g as [g|]; [destruct (canonical_grant g)|]; auto using ans_revokeSessionsIn with jsdb.
  - apply ans_bind; [apply ans_identities_delete|]. intros _. exact Hcreate.
Qed.

Section Facade.
Context (enabled : bool) (options : RateLimitOptions)
  (lower toLocaleLowerCase : jsstring -> jsstring) (scrypt : jsstring -> jsstring -> list N)
  (base64url : list N -> jsstring) (fromBase64url : jsstring -> list N) (sha256 : jsstring -> jsstring).

Definition fresh_operator (ids : operator_ids) : repository -> Prop := fresh_user (op_userId ids) (op_identityId ids).

Lemma sreads_assertEnabled : sreads (assertEnabled enabled).
Proof. apply sreads_check. Qed.
#[local] Hint Resolve sreads_assertEnabled : jsdb.

Lemma store_init_refines now : refines (store_init lower now).
Proof.
  unfold store_init. apply refines_after; [auto with jsdb|]. intros [|]; [apply ensureSystemRoles_refines|].
  apply refines_reads. auto with jsdb.
Qed.

Lemma init_refines now : srefines (init enabled lower now).
Proof.
  unfold init. destruct enabled; [|apply srefines_reads; auto with jsdb].
  apply srefines_then; [apply srefines_db, store_init_refines|]. intros _.
  apply srefines_then; [apply srefines_db, retireLocalTrustAccess_refines|]. intros _. apply srefines_reads. auto with jsdb.
Qed.

Lemma ensure_once_refines ids now :
  srefines_when (fresh_operator ids) (ensureLocalTrustOperator_once lower ids now).
Proof.
  unfold ensureLocalTrustOperator_once. apply srefines_after; [auto with jsdb|]. intros [op|]; [apply srefines_reads; auto with jsdb|].
  apply srefines_then; [apply srefines_db; exact (ensureLocalTrustOperator_refines lower toLocaleLowerCase scrypt base64url _ _ _ _)|]. intros op. apply srefines_reads. auto with jsdb.
Qed.

Lemma localOperator_refines ids now remote : srefines_when (fresh_operator ids) (localOperator enabled lower ids now remote).
Proof.
  unfold localOperator. destruct (enabled || _); [apply srefines_reads; auto with jsdb|].
  apply srefines_then; [apply ensure_once_refines|]. intros op. apply srefines_reads. auto with jsdb.
Qed.

Lemma localOperatorAccess_refines ids now remote :
  srefines_when (fresh_operator ids) (localOperatorAccess enabled lower ids now remote).
Proof.
  unfold localOperatorAccess. apply srefines_then; [apply localOperator_refines|].
  intros [[userId identityId]|]; apply srefines_reads; auto with jsdb.
Qed.

Lemma localOperatorActor_refines ids now remote :
  srefines_when (fresh_operator ids) (localOperatorActor enabled lower ids now remote).
Proof.
  unfold localOperatorActor. apply srefines_then; [apply localOperatorAccess_refines|].
  intros access. apply srefines_reads. auto with jsdb.
Qed.

(** Once the operator is remembered, asking for it again reads. *)
Definition remembered (st : auth_state) : Prop := is_Some (localTrustOperator st).

Lemma localOperator_remembers ids now remote st r s' op :
  localOperator enabled lower ids now remote (st, r) = (s', Ok (Some op)) -> remembered s'.1.
Proof.
  unfold localOperator. destruct (enabled || _); [done|]. intros H. apply sbind_ok in H as (op' & s1 & H1 & H).
  injection H as <- <-. unfold ensureLocalTrustOperator_once in H1.
  apply sbind_ok in H1 as (cached & s2 & [= <- <-] & H1). destruct (localTrustOperator st) as [o|] eqn:E.
  - injection H1 as <- <-. exists o. exact E.
  - apply sbind_ok in H1 as (o & s2 & H1 & H2). apply sbind_ok in H2 as ([] & s3 & H2 & H3).
    injection H3 as <- <-. destruct s2 as [st2 r2]. injection H2 as <-. simpl. by eexists.
Qed.

Lemma localOperatorAccess_remembered ids now remote st r :
  remembered st -> (localOperatorAccess enabled lower ids now remote (st, r)).1.2 = r.
Proof.
  intros [op Hop]. unfold localOperatorAccess, localOperator. destruct (enabled || _); [done|].
  unfold ensureLocalTrustOperator_once, instance, mbind, S_bind. simpl. rewrite Hop. simpl. destruct op as [userId identityId].
  unfold db. pose proof (reads_authorization userId r) as Hr. destruct (authorization userId r) as [r1 [a|e]]; simpl in *; by subst.
Qed.

Lemma auth_currentSession_refines ids now token clientTypes remote :
  srefines_when (fresh_operator ids) (auth_currentSession enabled lower sha256 ids now token clientTypes remote).
Proof.
  pose proof (localOperator_refines ids now remote) as Hop. pose proof (localOperator_remembers ids now remote) as Hrem.
  pose proof (localOperatorAccess_remembered ids now remote) as Hread. unfold auth_currentSession. destruct enabled.
  { apply srefines_then; [|intros; apply srefines_reads; auto with jsdb].
    intros st r st' r' x Hinv _. by apply currentSession_refines. }
  destruct (given token) as [t|].
  { apply srefines_then; [apply resolve_refines|]. intros; apply srefines_reads; auto with jsdb. }
  intros st r st' r' x Hinv Hfresh E. unfold mbind at 1, S_bind at 1 in E.
  destruct (localOperator false lower ids now remote (st, r)) as [[st1 r1] y] eqn:E1.
  specialize (Hop _ _ _ _ _ Hinv Hfresh E1). destruct y as [[[userId identityId]|]|e]; [|by injection E as <- <- <-..].
  specialize (Hrem _ _ _ _ E1). specialize (Hread st1 r1 Hrem). unfold mbind at 1, S_bind at 1 in E.
  destruct (localOperatorAccess false lower ids now remote (st1, r1)) as [[st2 r2] z]. simpl in Hread. subst r2.
  destruct z as [[access|]|e]; [|by injection E as <- <- <-..].
  assert (Hr : sreads (_ ← db (requireUser userId); mret (CurrentSession true (Some userId) (Some access) false)))
    by auto with jsdb.
  specialize (Hr st2 r1). rewrite E in Hr. simpl in Hr. by subst.
Qed.

Lemma view_refines {A} P now token clientTypes (f : option session_view -> A) :
  srefines_when P (view ← resolve sha256 now token clientTypes; mret (f view)).
Proof. apply srefines_then; [apply resolve_refines|]. intros v. apply srefines_reads. auto with jsdb. Qed.

Lemma disabledModeAuthorization_refines now token clientTypes :
  srefines (disabledModeAuthorization enabled sha256 now token clientTypes).
Proof.
  unfold disabledModeAuthorization. destruct (given token); [|apply srefines_reads; auto with jsdb].
  destruct enabled; [apply srefines_reads; auto with jsdb|apply view_refines].
Qed.

Lemma currentAccess_refines ids now token clientTypes remote :
  srefines_when (fresh_operator ids) (currentAccess enabled lower sha256 ids now token clientTypes remote).
Proof.
  unfold currentAccess. pose proof (localOperatorAccess_refines ids now remote) as Hop.
  destruct enabled; [apply view_refines|]. destruct (given token); [apply view_refines|exact Hop].
Qed.

Lemma sreads_listClientSessions now userId clientType : sreads (listClientSessions now userId clientType).
Proof.
  unfold listClientSessions. apply sreads_bind; [auto with jsdb|]. intros rows. apply sreads_publishSessions.
Qed.
#[local] Hint Resolve sreads_listClientSessions : jsdb.

Lemma logoutSession_refines now token clientTypes : srefines (logoutSession enabled sha256 now token clientTypes).
Proof.
  unfold logoutSession. destruct enabled.
  - apply srefines_then; [apply resolve_refines|]. intros v. apply logout_refines.
  - destruct (given token); [|apply srefines_reads; auto with jsdb].
    apply srefines_then; [apply resolve_refines|]. intros [v|]; [apply logout_refines|apply srefines_reads; auto with jsdb].
Qed.

(** What follows a resolved token. *)
Lemma after_view_refines {A} ids now token clientTypes (k : session_view -> S_ A) (k' : S_ A) :
  (forall v, srefines (k v)) -> srefines_when (fresh_operator ids) k' ->
  srefines_when (fresh_operator ids)
    (current ← resolve sha256 now token clientTypes; match current with Some v => k v | None => k' end).
Proof.
  intros Hk Hk'. apply (srefines_bind _ (fun _ => fresh_operator ids)); [apply resolve_refines| |].
  - intros [v|]; [|done]. intros st r st' r' x Hinv _. by apply Hk.
  - intros st r st' r' a _ [H1 H2] E. destruct (resolve_sdrops sha256 now token clientTypes st r) as [H|[id H]];
      rewrite E in H; simpl in H; subst r'; done.
Qed.

Lemma clientSessions_refines now token clientTypes clientType :
  srefines (clientSessions sha256 now token clientTypes clientType).
Proof.
  unfold clientSessions. apply srefines_then; [apply resolve_refines|]. intros [v|]; apply srefines_reads; auto with jsdb.
Qed.

Lemma cliSessions_refines ids now token clientTypes remote :
  srefines_when (fresh_operator ids) (cliSessions enabled lower sha256 ids now token clientTypes remote).
Proof.
  unfold cliSessions. pose proof (localOperator_refines ids now remote) as Hop. destruct enabled.
  { intros st r st' r' x Hinv _. by apply clientSessions_refines. }
  apply after_view_refines; [intros v; apply srefines_reads; auto with jsdb|].
  apply srefines_then; [exact Hop|]. intros [[u i]|]; apply srefines_reads; auto with jsdb.
Qed.

Lemma revoked_refines userId sessionId restrict :
  srefines (revoked ← revokeSession userId sessionId restrict; mret (Some revoked)).
Proof. apply srefines_then; [apply revokeSession_refines|]. intros b. apply srefines_reads. auto with jsdb. Qed.

Lemma revokeClientSession_refines now token credentialTypes targetTypes sessionId :
  srefines (revokeClientSession sha256 now token credentialTypes targetTypes sessionId).
Proof.
  unfold revokeClientSession. apply srefines_then; [apply resolve_refines|].
  intros [v|]; [apply revoked_refines|apply srefines_reads; auto with jsdb].
Qed.

Lemma revokeCliSession_refines ids now token credentialTypes sessionId remote :
  srefines_when (fresh_operator ids) (revokeCliSession enabled lower sha256 ids now token credentialTypes sessionId remote).
Proof.
  unfold revokeCliSession. pose proof (localOperator_refines ids now remote) as Hop. destruct enabled.
  { intros st r st' r' x Hinv _. by apply revokeClientSession_refines. }
  apply after_view_refines; [intros v; apply revoked_refines|].
  apply srefines_then; [exact Hop|]. intros [[u i]|]; [apply revoked_refines|apply srefines_reads; auto with jsdb].
Qed.

Lemma createLocalCliSession_refines ids sessionId secret auditId now client remote :
  srefines_when (fun r => fresh_operator ids r /\ fresh_session sessionId r)
    (createLocalCliSession enabled lower sha256 ids sessionId secret auditId now client remote).
Proof.
  unfold createLocalCliSession. do 2 (apply srefines_after; [by auto with jsdb|intros ?]).
  apply (srefines_bind _ (fun _ => fresh_session sessionId)).
  - intros st r st' r' x Hinv [Hf _]. by apply ensure_once_refines.
  - intros op. apply srefines_then; [apply createSessionForIdentity_refines|]. intros created.
    apply srefines_after; [auto with jsdb|]. intros u.
    apply srefines_then; [apply srefines_db, audit_put_refines|]. intros _. apply srefines_reads. auto with jsdb.
  - intros st r st' r' op _ [_ Hf] E. unfold ensureLocalTrustOperator_once in E.
    apply sbind_ok in E as (cached & s1 & [= <- <-] & E). destruct (localTrustOperator st) as [o|]; [by injection E as <- <-|].
    apply sbind_ok in E as (o & s1 & E1 & E). apply db_ok in E1 as (r1 & -> & E1). injection E as <- <-.
    pose proof (ensureLocalTrustOperator_sessions lower (op_userId ids) (op_identityId ids) (op_auditId ids) now r _ Hf) as Hs.
    by rewrite E1 in Hs.
Qed.
End Facade.
