(* ===== verification/AccessServer.v ===== *)
(** * The access services of a running server

    Every request of [UserService], [UserSessions], [IdentityProviders],
    [CliAuthorization] and [RuntimeAuth] on one state: the database, the
    sign-in service, the external sign-in flows and the command-line
    requests.  A request is an atomic step; the identifiers and secrets it
    draws, the time and the answers of the network are part of it. *)

From S2P Require Export RuntimeAuthRefine.

(** What the code calls that is not the repository's. *)
Record environment := Environment {
  enabled : bool;
  rateLimit : RateLimitOptions;
  lower : jsstring -> jsstring;
  toLocaleLowerCase : jsstring -> jsstring;
  scrypt : jsstring -> jsstring -> list N;
  base64url : list N -> jsstring;
  fromBase64url : jsstring -> list N;
  sha256 : jsstring -> jsstring;
  codeChallenge : jsstring -> jsstring;
  toUpperCase : jsstring -> jsstring;
  encodeURIComponent : jsstring -> jsstring;
  callbackUrl : jsstring -> jsstring -> jsstring -> jsstring;
  urlString : jsstring -> jsstring;
  seal : jsstring -> jsstring -> jsstring;
  unseal : jsstring -> jsstring -> result service_error jsstring;
  discoverIssuer : jsstring -> result service_error jsstring;
  startUrl : IdentityProviderRecord -> ExternalLoginFlow -> result service_error jsstring;
  exchangeCode : IdentityProviderRecord -> ExternalLoginFlow -> jsstring -> result service_error external_claims
}.

Record server := Server {
  sv_flows : flows;
  sv_cli : cli_state;
  sv_auth : auth_state;
  sv_db : repository
}.

Definition new_server : server := Server [] new_cli_state new_auth_state empty_repository.

Inductive request :=
(* users *)
| BootstrapAdmin (inProgress : bool) (userId identityId salt : jsstring) (username password : jsstring) (displayName : option jsstring)
| CreateLocalUser (userId identityId salt : jsstring) (input : local_user_input)
| UpdateUser (userId : jsstring) (displayName username : option jsstring) (status : option user_status)
| SetAccess (userId : jsstring) (roleIds : list jsstring) (nodeScope : ControlPlaneUserNodeScope)
    (instanceScope : option ControlPlaneUserInstanceScope) (expectedRevision : Z)
| ResetLocalPassword (userId salt password : jsstring) (requirePasswordChange : bool)
| RecoverLocalCredentials (salt username password : jsstring) (userId targetUsername : option jsstring)
| UnbindExternalIdentity (userId identityId : jsstring)
| ApproveExternalIdentity (actorUserId approvalId userId identityId : jsstring) (displayName : option jsstring)
    (roleIds : list jsstring) (nodeScope : ControlPlaneUserNodeScope) (instanceScope : option ControlPlaneUserInstanceScope)
| RejectExternalIdentity (actorUserId approvalId : jsstring)
| CreateRole (roleId name : jsstring) (description : option jsstring) (permissionIds : list jsstring)
| UpdateRole (roleId : jsstring) (name description : option jsstring) (permissionIds : option (list jsstring))
| ArchiveRole (roleId : jsstring)
| RevokeSessions (userId : jsstring)
| RemoveInstanceFromAccessScopes (instanceId : jsstring)
(* providers *)
| CreateProvider (id : jsstring) (kind : provider_kind) (status : option provider_status) (policy : option login_policy)
    (name clientId clientSecret callbackUrl : jsstring) (issuer : option jsstring)
| UpdateProvider (providerId : jsstring) (update : provider_update)
| RemoveProvider (providerId : jsstring)
(* sessions *)
| Init
| Login (sessionId secret username password : jsstring) (source : option jsstring)
| LoginMobile (sessionId secret username password device : jsstring) (source : option jsstring)
| ChangePassword (salt sessionId secret : jsstring) (token : option jsstring) (currentPassword newPassword : jsstring)
| StepUp (token : option jsstring) (password : jsstring)
| RequireRecent (token : option jsstring)
| CurrentSession_ (ids : operator_ids) (token : option jsstring) (clientTypes : list client_type) (remoteAddress : option jsstring)
| CurrentAccess (ids : operator_ids) (token : option jsstring) (clientTypes : list client_type) (remoteAddress : option jsstring)
| DisabledModeAuthorization (token : option jsstring) (clientTypes : list client_type)
| LocalOperatorActor (ids : operator_ids) (remoteAddress : option jsstring)
| AuthorizeToken (token : option jsstring) (clientTypes : list client_type)
| RenewSession (token : option jsstring) (clientTypes : list client_type)
| LogoutSession (token : option jsstring) (clientTypes : list client_type)
| RevokeSession (requestingUserId sessionId : jsstring) (restrictTo : option (list client_type))
| RevokeClientSession (token : option jsstring) (credentialTypes targetTypes : list client_type) (sessionId : jsstring)
| CliSessions (ids : operator_ids) (token : option jsstring) (clientTypes : list client_type) (remoteAddress : option jsstring)
| RevokeCliSession (ids : operator_ids) (token : option jsstring) (credentialTypes : list client_type) (sessionId : jsstring)
    (remoteAddress : option jsstring)
| CreateLocalCliSession (ids : operator_ids) (sessionId secret auditId client : jsstring) (remoteAddress : option jsstring)
| AssertAppAccess (binding : app_binding)
(* external sign-in *)
| BeginExternal (state nonce codeVerifier providerId : jsstring) (clientType : client_type)
| Callback (sessionId secret approvalId state code : jsstring)
(* the command line *)
| Cli (op : cli_op).

(** ** Handling a request *)

(** The error a request ends with. *)
Definition error_of {A} (x : result service_error A) : option service_error :=
  match x with Ok _ => None | Throw e => Some e end.

Definition run_db {A} (m : M A) (s : server) : server * option service_error :=
  let '(r, x) := m (sv_db s) in (Server (sv_flows s) (sv_cli s) (sv_auth s) r, error_of x).

Definition run_auth {A} (m : S_ A) (s : server) : server * option service_error :=
  let '((st, r), x) := m (sv_auth s, sv_db s) in (Server (sv_flows s) (sv_cli s) st r, error_of x).

Definition run_cli {A} (m : C_ A) (s : server) : server * option service_error :=
  let '((c, (st, r)), x) := m (sv_cli s, (sv_auth s, sv_db s)) in (Server (sv_flows s) c st r, error_of x).

(** The flow is taken from the map before the rest of the callback runs. *)
Definition run_external {A} (f : flows -> flows * S_ A) (s : server) : server * option service_error :=
  let '(m, k) := f (sv_flows s) in run_auth k (Server m (sv_cli s) (sv_auth s) (sv_db s)).

Section Server.
Context (env : environment).

Definition handle_cli (now : Z) (op : cli_op) (s : server) : server * option service_error :=
  match op with
  | OpCreate requestId auditId draws input origin sourceId =>
      run_cli (createCliAuthorization (enabled env) (toUpperCase env) (encodeURIComponent env) requestId auditId draws now
                 input origin sourceId) s
  | OpDetail requestId => run_cli (cliAuthorizationRequest (enabled env) (toUpperCase env) requestId now) s
  | OpDetailByUserCode userCode =>
      run_cli (cliAuthorizationRequestByUserCode (enabled env) (toUpperCase env) userCode now) s
  | OpApprove requestId auditId code userId identityId =>
      run_cli (approveCliAuthorization (enabled env) (callbackUrl env) requestId auditId code now userId identityId) s
  | OpDeny requestId auditId userId => run_cli (denyCliAuthorization (enabled env) requestId auditId now userId) s
  | OpExchange auditId sessionId secret t sourceId =>
      run_cli (exchangeCliToken (enabled env) (sha256 env) (codeChallenge env) (toUpperCase env) auditId sessionId secret
                 now t sourceId) s
  end.


Definition handle (now : Z) (q : request) (s : server) : server * option service_error :=
  let lower := lower env in let lc := toLocaleLowerCase env in let scrypt := scrypt env in
  let base64url := base64url env in let fromBase64url := fromBase64url env in let sha256 := sha256 env in
  match q with
  | BootstrapAdmin inProgress userId identityId salt username password displayName =>
      run_auth (_ ← assertEnabled (enabled env);
                db (bootstrapAdmin lower lc scrypt base64url inProgress userId identityId salt now username password displayName)) s
  | CreateLocalUser userId identityId salt input => run_db (createLocalUser lc scrypt base64url userId identityId salt now input) s
  | UpdateUser userId displayName username status => run_db (updateUser lc userId now displayName username status) s
  | SetAccess userId roleIds nodeScope instanceScope expected =>
      run_db (setAccess userId now roleIds nodeScope instanceScope expected) s
  | ResetLocalPassword userId salt password rp => run_db (resetLocalPassword scrypt base64url userId salt password rp now) s
  | RecoverLocalCredentials salt username password userId target =>
      run_db (recoverLocalCredentials lc scrypt base64url salt now username password userId target) s
  | UnbindExternalIdentity userId identityId => run_db (unbindExternalIdentity userId identityId now) s
  | ApproveExternalIdentity actor approvalId userId identityId displayName roleIds nodeScope instanceScope =>
      run_db (approveExternalIdentity actor approvalId userId identityId now displayName roleIds nodeScope instanceScope) s
  | RejectExternalIdentity actor approvalId => run_db (rejectExternalIdentity actor approvalId now) s
  | CreateRole roleId name description permissionIds => run_db (createRole lower lc roleId now name description permissionIds) s
  | UpdateRole roleId name description permissionIds => run_db (updateRole lower lc roleId now name description permissionIds) s
  | ArchiveRole roleId => run_db (archiveRole lower roleId now) s
  | RevokeSessions userId => run_db (revokeSessions userId) s
  | RemoveInstanceFromAccessScopes instanceId => run_db (removeInstanceFromAccessScopes instanceId now) s
  | CreateProvider id kind status policy name clientId secret callback issuer =>
      run_db (createProvider (seal env) (discoverIssuer env) id now kind status policy name clientId secret callback issuer) s
  | UpdateProvider providerId update =>
      run_db (updateProvider (urlString env) (seal env) (unseal env) (discoverIssuer env) providerId now update) s
  | RemoveProvider providerId => run_db (removeProvider providerId) s
  | Init => run_auth (init (enabled env) lower now) s
  | Login sessionId secret username password source =>
      run_auth (login (enabled env) (rateLimit env) lc scrypt fromBase64url sha256 sessionId secret now username password source) s
  | LoginMobile sessionId secret username password device source =>
      run_auth (loginMobile (enabled env) (rateLimit env) lc scrypt fromBase64url sha256 sessionId secret now username password
                  device source) s
  | ChangePassword salt sessionId secret token currentPassword newPassword =>
      run_auth (changeLocalPassword sha256 scrypt base64url fromBase64url now salt sessionId secret token currentPassword newPassword) s
  | StepUp token password => run_auth (auth_stepUp (enabled env) scrypt fromBase64url sha256 now token password) s
  | RequireRecent token => run_auth (requireRecentAuthentication (enabled env) sha256 now token) s
  | CurrentSession_ ids token clientTypes remote =>
      run_auth (auth_currentSession (enabled env) lower sha256 ids now token clientTypes remote) s
  | CurrentAccess ids token clientTypes remote =>
      run_auth (currentAccess (enabled env) lower sha256 ids now token clientTypes remote) s
  | DisabledModeAuthorization token clientTypes =>
      run_auth (disabledModeAuthorization (enabled env) sha256 now token clientTypes) s
  | LocalOperatorActor ids remote => run_auth (localOperatorActor (enabled env) lower ids now remote) s
  | AuthorizeToken token clientTypes => run_auth (authorizationForSessionToken sha256 now token clientTypes) s
  | RenewSession token clientTypes => run_auth (auth_renewSession (enabled env) sha256 now token clientTypes) s
  | LogoutSession token clientTypes => run_auth (logoutSession (enabled env) sha256 now token clientTypes) s
  | RevokeSession requesting sessionId restrictTo => run_auth (revokeSession requesting sessionId restrictTo) s
  | RevokeClientSession token credentialTypes targetTypes sessionId =>
      run_auth (revokeClientSession sha256 now token credentialTypes targetTypes sessionId) s
  | CliSessions ids token clientTypes remote =>
      run_auth (cliSessions (enabled env) lower sha256 ids now token clientTypes remote) s
  | RevokeCliSession ids token credentialTypes sessionId remote =>
      run_auth (revokeCliSession (enabled env) lower sha256 ids now token credentialTypes sessionId remote) s
  | CreateLocalCliSession ids sessionId secret auditId client remote =>
      run_auth (createLocalCliSession (enabled env) lower sha256 ids sessionId secret auditId now client remote) s
  | AssertAppAccess binding => run_db (assertAppAccessAuthorization binding) s
  | BeginExternal state nonce verifier providerId clientType =>
      let '(m, x) := begin_external (startUrl env) state nonce verifier now providerId clientType (sv_flows s) (sv_db s) in
      (Server m (sv_cli s) (sv_auth s) (sv_db s), error_of x)
  | Callback sessionId secret approvalId state code =>
      run_external (callback sha256 (exchangeCode env) sessionId secret approvalId now state code) s
  | Cli op => handle_cli now op s
  end.

(** Drawn identifiers are not in use. *)
Definition fresh (q : request) (r : repository) : Prop :=
  match q with
  | BootstrapAdmin _ userId identityId _ _ _ _ | CreateLocalUser userId identityId _ _
  | ApproveExternalIdentity _ _ userId identityId _ _ _ _ => fresh_user userId identityId r
  | CreateRole roleId _ _ _ => fresh_role roleId r
  | CreateProvider id _ _ _ _ _ _ _ _ => fresh_provider id r
  | Login sessionId _ _ _ _ | LoginMobile sessionId _ _ _ _ _ | ChangePassword _ sessionId _ _ _ _
  | Callback sessionId _ _ _ _ | Cli (OpExchange _ sessionId _ _ _) => fresh_session sessionId r
  | CurrentSession_ ids _ _ _ | CurrentAccess ids _ _ _ | LocalOperatorActor ids _ | CliSessions ids _ _ _
  | RevokeCliSession ids _ _ _ _ => fresh_operator ids r
  | CreateLocalCliSession ids sessionId _ _ _ _ => fresh_operator ids r /\ fresh_session sessionId r
  | _ => True
  end.

End Server.

(** A restart keeps the database only, and may change the mode. *)
Definition with_mode (mode : bool) (env : environment) : environment :=
  Environment mode (rateLimit env) (lower env) (toLocaleLowerCase env) (scrypt env) (base64url env) (fromBase64url env)
    (sha256 env) (codeChallenge env) (toUpperCase env) (encodeURIComponent env) (callbackUrl env) (urlString env) (seal env)
    (unseal env) (discoverIssuer env) (startUrl env) (exchangeCode env).

Definition restart (s : server) : server := Server [] new_cli_state new_auth_state (sv_db s).

(** The states of a server that was started on an empty database. *)
Inductive reachable : environment -> server -> Prop :=
| reachable_new env : reachable env new_server
| reachable_step env now q s : reachable env s -> fresh q (sv_db s) -> reachable env (handle env now q s).1
| reachable_restart env mode s : reachable env s -> reachable (with_mode mode env) (restart s).

(** The states, with the environment they run in, that follow a state. *)
Inductive steps (env : environment) (s : server) : environment -> server -> Prop :=
| steps_refl : steps env s env s
| steps_step now q env' s' :
    steps env s env' s' -> fresh q (sv_db s') -> steps env s env' (handle env' now q s').1
| steps_restart mode env' s' : steps env s env' s' -> steps env s (with_mode mode env') (restart s').
