(* ===== verification/AccessServerRefine.v ===== *)
(** * Every request makes only the specified changes

    The refinement lemmas of the services, put together for the requests of
    [AccessServer], what follows for every reachable server, and that
    administrative requests change all or nothing. *)

From S2P Require Export AccessServer.

Lemma run_db_refines {A} P (m : M A) s :
  refines_when P m -> access_inv (sv_db s) -> P (sv_db s) -> rtc access_change (sv_db s) (sv_db (run_db m s).1).
Proof. intros Hm Hinv HP. unfold run_db. destruct (m (sv_db s)) as [r x] eqn:E. by eapply Hm. Qed.

Lemma run_auth_refines {A} P (m : S_ A) s :
  srefines_when P m -> access_inv (sv_db s) -> P (sv_db s) -> rtc access_change (sv_db s) (sv_db (run_auth m s).1).
Proof. intros Hm Hinv HP. unfold run_auth. destruct (m (sv_auth s, sv_db s)) as [[st r] x] eqn:E. by eapply Hm. Qed.

Lemma run_cli_refines {A} P (m : C_ A) s :
  crefines_when P m -> access_inv (sv_db s) -> P (sv_db s) -> rtc access_change (sv_db s) (sv_db (run_cli m s).1).
Proof.
  intros Hm Hinv HP. unfold run_cli. destruct (m (sv_cli s, (sv_auth s, sv_db s))) as [[c [st r]] x] eqn:E. by eapply Hm.
Qed.

Lemma reads_assertAppAccess binding : reads (assertAppAccessAuthorization binding).
Proof.
  unfold assertAppAccessAuthorization. apply reads_bind; [auto with jsdb|]. intros az.
  apply reads_bind; [auto with jsdb|]. intros _. destruct (assertCanAccessResolvedResource _ _ _ _); auto with jsdb.
Qed.
#[export] Hint Resolve reads_assertAppAccess : jsdb.

(** The guard of a facade operation. *)
Lemma guarded_refines {A} P enabled (m : S_ A) : srefines_when P m -> srefines_when P (assertEnabled enabled ≫= fun _ => m).
Proof. intros Hm. apply srefines_after; [apply sreads_assertEnabled|done]. Qed.
Lemma cli_guarded_refines {A} P enabled (m : C_ A) : crefines_when P m -> crefines_when P (cliEnabled enabled ≫= fun _ => m).
Proof. intros Hm. apply crefines_after; [apply creads_call, sreads_assertEnabled|done]. Qed.

Section Server.
Context (env : environment).

Lemma handle_cli_refines now op s :
  access_inv (sv_db s) -> fresh (Cli op) (sv_db s) -> rtc access_change (sv_db s) (sv_db (handle_cli env now op s).1).
Proof.
  intros Hinv Hfresh. destruct op; simpl; (eapply run_cli_refines; [apply cli_guarded_refines|exact Hinv|exact Hfresh]).
  - apply create_refines.
  - apply cli_detail_refines.
  - apply detailByUserCode_refines.
  - apply approve_refines.
  - apply deny_refines.
  - apply exchange_refines.
Qed.

Lemma stepUp_guarded now token password :
  srefines (auth_stepUp (enabled env) (scrypt env) (fromBase64url env) (sha256 env) now token password).
Proof. unfold auth_stepUp. destruct (enabled env); [apply stepUp_refines|apply srefines_reads; auto with jsdb]. Qed.

Lemma requireRecent_guarded now token : srefines (requireRecentAuthentication (enabled env) (sha256 env) now token).
Proof.
  unfold requireRecentAuthentication. destruct (enabled env); [apply requireRecent_refines|apply srefines_reads; auto with jsdb].
Qed.

Lemma handle_refines now q s :
  access_inv (sv_db s) -> fresh q (sv_db s) -> rtc access_change (sv_db s) (sv_db (handle env now q s).1).
Proof.
  intros Hinv Hfresh. destruct q; unfold handle; cbv zeta;
    lazymatch goal with
    | |- context [run_db] => eapply run_db_refines; [|exact Hinv|exact Hfresh]
    | |- context [run_auth] => eapply run_auth_refines; [|exact Hinv|exact Hfresh]
    | |- _ => idtac
    end.
  - apply guarded_refines, srefines_db, bootstrapAdmin_refines.
  - by apply createLocalUser_refines.
  - by apply updateUser_refines.
  - by apply setAccess_refines.
  - by apply resetLocalPassword_refines.
  - by apply recoverLocalCredentials_refines.
  - by apply unbindExternalIdentity_refines.
  - by apply approveExternalIdentity_refines.
  - by apply rejectExternalIdentity_refines.
  - by apply createRole_refines.
  - by apply updateRole_refines.
  - by apply archiveRole_refines.
  - by apply revokeSessions_refines.
  - by apply removeInstanceFromAccessScopes_refines.
  - by apply createProvider_refines.
  - by apply updateProvider_refines.
  - by apply removeProvider_refines.
  - by apply init_refines.
  - by apply guarded_refines, loginLocal_refines.
  - by apply guarded_refines, loginLocal_refines.
  - by apply changeLocalPassword_refines.
  - apply stepUp_guarded.
  - apply requireRecent_guarded.
  - by apply auth_currentSession_refines.
  - by apply currentAccess_refines.
  - by apply disabledModeAuthorization_refines.
  - by apply localOperatorActor_refines.
  - by apply view_refines.
  - by apply guarded_refines, renewSession_refines.
  - by apply logoutSession_refines.
  - by apply revokeSession_refines.
  - by apply revokeClientSession_refines.
  - by apply cliSessions_refines.
  - by apply revokeCliSession_refines.
  - by apply createLocalCliSession_refines.
  - apply refines_reads. auto with jsdb.
  - destruct (begin_external _ _ _ _ _ _ _ _ _) as [m x]. done.
  - unfold run_external. pose proof (callback_refines (sha256 env) (exchangeCode env) sessionId secret approvalId now state code (sv_flows s)) as H.
    destruct (callback _ _ _ _ _ _ _ _ _) as [m k]. simpl in H.
    apply (run_auth_refines (fresh_session sessionId) k (Server m (sv_cli s) (sv_auth s) (sv_db s))); done.
  - by apply handle_cli_refines.
Qed.
End Server.

(** ** Reachable servers *)

Lemma empty_inv : access_inv empty_repository.
Proof. constructor; simpl; intros; rewrite ?lookup_empty in *; try done. Qed.

Lemma reachable_inv env s : reachable env s -> access_inv (sv_db s).
Proof.
  induction 1 as [env|env now q s Hr IH Hf|env mode s Hr IH]; [apply empty_inv| |done].
  eapply rtc_change_inv; [by apply handle_refines|done].
Qed.

Lemma steps_reachable env s env' s' : reachable env s -> steps env s env' s' -> reachable env' s'.
Proof. induction 2; [done|by constructor|by constructor]. Qed.

Lemma steps_changes env s env' s' : reachable env s -> steps env s env' s' -> rtc access_change (sv_db s) (sv_db s').
Proof.
  intros Hr. induction 1 as [|now q env' s' Hs IH Hf|mode env' s' Hs IH]; [done| |done].
  etrans; [exact IH|]. apply handle_refines; [|done]. by eapply reachable_inv, steps_reachable.
Qed.
(** ** What changes preserve, over many changes *)

Lemma changes_admin r r' : rtc access_change r r' -> access_inv r -> has_admin r -> has_admin r'.
Proof. induction 1; eauto using change_inv, change_admin. Qed.

Lemma changes_granted r r' userId az :
  rtc access_change r r' -> access_inv r -> granted r userId = Some az ->
  exists az', granted r' userId = Some az'
    /\ (az' = az \/ (az_authorizationRevision az < az_authorizationRevision az')%Z).
Proof.
  intros Hc. revert az. induction Hc as [r|r1 r2 r3 H12 H23 IH]; intros az Hinv Hg; [eauto|].
  destruct (change_granted _ _ _ _ H12 Hinv Hg) as (az2 & Hg2 & Hle2).
  destruct (IH az2) as (az3 & Hg3 & Hle3); [by eapply change_inv|done|]. exists az3. split; [done|].
  destruct Hle2 as [->|Hle2]; [done|]. right. destruct Hle3 as [->|Hle3]; lia.
Qed.

Lemma change_user_kept r r' id u :
  access_change r r' -> access_inv r -> users r !! id = Some u -> is_Some (users r' !! id).
Proof. intros Hc Hinv Hu. destruct Hc; rewrite Eu; try apply is_Some_insert; eauto. Qed.

Lemma changes_user_kept r r' id : rtc access_change r r' -> access_inv r -> is_Some (users r !! id) -> is_Some (users r' !! id).
Proof. induction 1; [done|]. intros Hinv [u Hu]. eauto using change_inv, change_user_kept. Qed.

(** ** Authorization in a well-formed database *)

Lemma omap_active r (l : list jsstring) :
  (forall id, id ∈ l -> is_Some (active_role r id)) -> length (omap (active_role r) l) = length l.
Proof.
  induction l as [|id l IH]; intros H; [done|]. rewrite list_omap_cons_eq. destruct (H id) as [ro Hro]; [set_solver|].
  rewrite Hro. simpl. rewrite IH; [done|]. set_solver.
Qed.

Lemma authorization_run r userId :
  access_inv r ->
  authorization userId r =
  (r, match users r !! userId, granted r userId with
      | Some u, Some az => if decide (u_status u = UserActive) then Ok az
                           else Throw (ServiceError "CONTROL_PLANE_USER_DISABLED" 403)
      | _, _ => Throw (notFound "user")
      end).
Proof.
  intros Hinv. unfold granted.
  cbv beta iota delta [authorization requireUser gets require assert throw mbind M_bind mret M_ret option_bind].
  destruct (users r !! userId) as [u|] eqn:Hu; [|done]. destruct (ai_user_grant _ Hinv _ _ Hu) as [g Hg].
  case_decide as Hst; [rewrite bool_decide_true by done|by rewrite bool_decide_false, Hg by done].
  rewrite Hg. replace (length (omap (active_role r) (g_roleIds g))) with (length (g_roleIds g)).
  - by rewrite Nat.eqb_refl.
  - symmetry. apply omap_active. intros id Hid. by eapply ai_grant_roles.
Qed.

(** ** Administrative requests change all or nothing

    An operation of the user and provider services that throws leaves the
    database as it was: its checks come before its writes or its writes are in
    one transaction, and what it reads after the transaction is there. *)

Definition atomic_when {A} (P : repository -> Prop) (m : M A) : Prop :=
  forall r r' e, access_inv r -> P r -> m r = (r', Throw e) -> r' = r.
Abbreviation atomic := (atomic_when (fun _ => True)).

Lemma atomic_reads {A} P (m : M A) : reads m -> atomic_when P m.
Proof. intros Hm r r' e _ _ E. by eapply reads_ok. Qed.

Lemma atomic_after {A B} P (m : M A) (k : A -> M B) :
  reads m -> (forall a, atomic_when P (k a)) -> atomic_when P (m ≫= k).
Proof.
  intros Hm Hk r r' e Hinv HP E. unfold mbind, M_bind in E. pose proof (Hm r) as Hr.
  destruct (m r) as [r1 [a|e1]]; simpl in Hr; subst r1; [by eapply Hk|by injection E as <- _].
Qed.

Lemma atomic_transaction {A} P (m : M A) : atomic_when P (transaction m).
Proof. intros r r' e _ _ E. apply transaction_cases in E as [(e' & _ & ->)|(a & [=] & _)]. done. Qed.

(** What follows a successful step cannot throw. *)
Lemma atomic_then {A B} P (m : M A) (k : A -> M B) :
  atomic_when P m -> (forall r r' a, access_inv r -> P r -> m r = (r', Ok a) -> is_ok (k a r').2 = true) ->
  atomic_when P (m ≫= k).
Proof.
  intros Hm Hk r r' e Hinv HP E. unfold mbind, M_bind in E. destruct (m r) as [r1 [a|e1]] eqn:E1.
  - specialize (Hk _ _ _ Hinv HP E1). rewrite E in Hk. done.
  - injection E as <- <-. by eapply Hm.
Qed.

(** The detail of a user that was there before. *)
Lemma detail_after r r' userId :
  access_inv r -> rtc access_change r r' -> is_Some (users r !! userId) -> is_ok (detail userId r').2 = true.
Proof.
  intros Hinv Hc Hu. apply detail_succeeds. destruct (changes_user_kept _ _ _ Hc Hinv Hu) as [u' Hu'].
  split; [by eexists|]. eapply ai_user_grant; [by eapply rtc_change_inv|done].
Qed.

(** The changes of an operation before its last read. *)
Lemma refines_prefix {A B} P (m : M A) (k : A -> M B) r r' a :
  refines_when P (m ≫= k) -> (forall a, reads (k a)) -> access_inv r -> P r -> m r = (r', Ok a) -> rtc access_change r r'.
Proof.
  intros Hm Hk Hinv HP E. destruct (k a r') as [r2 y] eqn:E2. pose proof (reads_ok _ _ _ _ (Hk a) E2) as ->.
  eapply Hm; try done. unfold mbind, M_bind. by rewrite E.
Qed.

Lemma requireUser_first {A} userId (k : UserAccountRecord -> M A) r r' a :
  (requireUser userId ≫= k) r = (r', Ok a) -> is_Some (users r !! userId).
Proof. intros H. apply bind_ok in H as (u & r1 & H1 & _). apply requireUser_ok in H1 as [_ ->]. eauto. Qed.

Section Operations.
Context (lower toLocaleLowerCase : jsstring -> jsstring)
  (scrypt : jsstring -> jsstring -> list N) (base64url : list N -> jsstring)
  (urlString : jsstring -> jsstring) (seal : jsstring -> jsstring -> jsstring)
  (unseal : jsstring -> jsstring -> result service_error jsstring)
  (discoverIssuer : jsstring -> result service_error jsstring).

Lemma createLocalUser_atomic userId identityId salt now input :
  atomic (createLocalUser toLocaleLowerCase scrypt base64url userId identityId salt now input).
Proof.
  apply atomic_then; [apply atomic_transaction|]. intros r r' created _ _ E.
  by eapply detail_succeeds, createLocalUserInternal_detail.
Qed.

Lemma updateUser_atomic userId now displayName username status :
  atomic (updateUser toLocaleLowerCase userId now displayName username status).
Proof.
  pose proof (updateUser_refines toLocaleLowerCase userId now displayName username status) as Href.
  apply atomic_then; [apply atomic_transaction|]. intros r r' x Hinv _ E.
  eapply (detail_after r r'); [exact Hinv|eapply (refines_prefix _ _ _ r r' x Href); [intros; auto with jsdb|exact Hinv|exact I|exact E]|].
  apply transaction_ok in E. by eapply requireUser_first.
Qed.

Lemma setAccess_atomic userId now roleIds nodeScope instanceScope expected :
  atomic (setAccess userId now roleIds nodeScope instanceScope expected).
Proof.
  pose proof (setAccess_refines userId now roleIds nodeScope instanceScope expected) as Href.
  apply atomic_then; [apply atomic_transaction|]. intros r r' x Hinv _ E.
  eapply (detail_after r r'); [exact Hinv|eapply (refines_prefix _ _ _ r r' x Href); [intros; auto with jsdb|exact Hinv|exact I|exact E]|].
  apply transaction_ok in E. by eapply requireUser_first.
Qed.

Lemma recovery_target_user userId targetUsername r u :
  recovery_target toLocaleLowerCase userId targetUsername r = Ok u -> exists id, users r !! id = Some u.
Proof using toLocaleLowerCase.
  clear - toLocaleLowerCase.
  unfold recovery_target. intros H.
  assert (Hin : u ∈ table_list (users r)).
  { match type of H with (match ?t with _ => _ end) = _ => destruct t as [v|] eqn:E end; [injection H as ->|by case_match].
    destruct (otruthy userId); [by apply head_Some_elem_of, list_elem_of_filter in E as [_ E]|].
    destruct targetUsername as [name|]; [destruct (truthy name); [by apply head_Some_elem_of, list_elem_of_filter in E as [_ E]|]|];
      destruct (table_list (users r)) as [|v [|]]; simplify_eq; set_solver. }
  by apply table_list_elem.
Qed.

Lemma recoverLocalCredentials_atomic salt now username password userId targetUsername :
  atomic (recoverLocalCredentials toLocaleLowerCase scrypt base64url salt now username password userId targetUsername).
Proof using toLocaleLowerCase scrypt base64url.
  pose proof (recoverLocalCredentials_refines toLocaleLowerCase scrypt base64url salt now username password userId targetUsername) as Href.
  apply atomic_then; [apply atomic_transaction|]. intros r r' x Hinv _ E.
  eapply (detail_after r r'); [exact Hinv|eapply (refines_prefix _ _ _ r r' x Href); [intros; auto with jsdb|exact Hinv|exact I|exact E]|].
  apply transaction_ok in E. apply bind_ok in E as (target & r1 & H1 & E). run_inv H1.
  apply bind_ok in E as (u & r1 & H1 & E). destruct (recovery_target _ _ _ r) as [v|e] eqn:Ht; [run_inv H1|done].
  apply recovery_target_user in Ht as [id Hu].
  apply bind_ok in E as (other & r1 & H1 & E). apply bind_ok in E as ([] & r2 & H2 & E).
  apply bind_ok in E as (i & r3 & H3 & E). apply bind_ok in E as (i' & r4 & H4 & E).
  apply bind_ok in E as ([] & r5 & H5 & E). apply bind_ok in E as ([] & r6 & H6 & E). run_inv E.
  rewrite (ai_user_key _ Hinv _ _ Hu). eauto.
Qed.

Lemma approveExternalIdentity_atomic actor approvalId userId identityId now displayName roleIds nodeScope instanceScope :
  atomic_when (fresh_user userId identityId)
    (approveExternalIdentity actor approvalId userId identityId now displayName roleIds nodeScope instanceScope).
Proof.
  unfold approveExternalIdentity. do 7 (apply atomic_after; [by auto with jsdb|intros ?]).
  apply atomic_then; [apply atomic_transaction|]. intros r r' x Hinv _ E. apply detail_succeeds.
  apply transaction_ok in E. do 6 (apply bind_ok in E as (? & ? & ? & E)).
  repeat match goal with
  | H : users_put _ _ = (_, Ok _) |- _ => apply users_put_ok in H as [_ ->]
  | H : identities_put _ _ = (_, Ok _) |- _ => apply identities_put_ok in H as (_ & _ & _ & ->)
  | H : grants_put _ _ = (_, Ok _) |- _ => apply grants_put_ok in H as (_ & _ & _ & _ & ->)
  | H : approvals_put _ _ = (_, Ok _) |- _ => apply approvals_put_ok in H as ->
  end.
  split; simpl; rewrite lookup_insert_eq; eauto.
Qed.

Lemma createProvider_atomic id now kind status policy name clientId secret callbackUrl issuer :
  atomic (createProvider seal discoverIssuer id now kind status policy name clientId secret callbackUrl issuer).
Proof.
  unfold createProvider. do 2 (apply atomic_after; [by auto with jsdb|intros ?]).
  apply atomic_then; [|done]. unfold providers_put. apply atomic_after; [auto with jsdb|]. by intros ? r r' e _ _ ?.
Qed.

Lemma updateProvider_atomic providerId now update_ :
  atomic (updateProvider urlString seal unseal discoverIssuer providerId now update_).
Proof.
  unfold updateProvider. do 4 (apply atomic_after; [by auto using reads_namespace with jsdb|intros ?]).
  apply atomic_after; [repeat case_match; auto using reads_clientSecret with jsdb|]. intros secret.
  apply atomic_after; [by auto with jsdb|intros ?]. apply atomic_transaction.
Qed.

Lemma removeProvider_atomic providerId : atomic (removeProvider providerId).
Proof.
  unfold removeProvider. apply atomic_after; [auto with jsdb|]. intros [p|]; [|apply atomic_reads; auto with jsdb].
  do 2 (apply atomic_after; [by auto with jsdb|intros ?]). by intros r r' e _ _ ?.
Qed.

Lemma rejectExternalIdentity_atomic actor approvalId now : atomic (rejectExternalIdentity actor approvalId now).
Proof. apply atomic_after; [auto with jsdb|]. intros _. apply atomic_transaction. Qed.
End Operations.
