(* ===== verification/AccessFacts.v ===== *)
(** * Sessions in a well-formed database

    What resolving a token, signing in and authorizing do when the database
    satisfies the invariant: lemmas for [AccessSpec], and the servers at which
    its theorems are instantiated. *)

From S2P Require Export AccessServerRefine.

(** ** Sessions *)

(** A stored session has an owner whose authorization it carries. *)
Lemma session_access r id s :
  access_inv r -> sessions r !! id = Some s ->
  exists userId u az, session_user r s = Some userId /\ users r !! userId = Some u /\ u_status u = UserActive
    /\ granted r userId = Some az /\ authorization userId r = (r, Ok az)
    /\ az_authorizationRevision az = s_authorizationRevision s.
Proof.
  intros Hinv Hs. destruct (session_owner _ _ _ Hinv Hs) as [userId Hown].
  destruct (ai_session_current _ Hinv _ _ _ Hs Hown) as (u & g & Hu & Hst & Hg & Hrev).
  pose proof (authorization_run r userId Hinv) as Hrun. rewrite Hu in Hrun.
  destruct (granted r userId) as [az|] eqn:Haz; [|unfold granted in Haz; by rewrite Hg in Haz].
  rewrite decide_True in Hrun by done. exists userId, u, az. split_and!; try done.
  unfold granted in Haz. rewrite Hg in Haz. simpl in Haz. by injection Haz as <-.
Qed.

Lemma detail_run r userId :
  access_inv r -> is_Some (users r !! userId) -> exists d, detail userId r = (r, Ok d).
Proof.
  intros Hinv [u Hu]. pose proof (reads_detail userId r) as Hr.
  assert (Hok : is_ok (detail userId r).2 = true).
  { apply detail_succeeds. split; [eauto|]. by eapply ai_user_grant. }
  destruct (detail userId r) as [r' [d|e]]; simpl in *; [subst; eauto|done].
Qed.

Section Resolve.
Context (sha256 : jsstring -> jsstring).

(** The session a token names, if the token is good for it. *)
Definition token_session (r : repository) (now : Z) (token : option jsstring) (clientTypes : option (list client_type))
  : option UserSessionRecord :=
  '(sessionId, secret) ← split_token token;
  session ← sessions r !! sessionId;
  if bool_decide (now < s_expiresAt session)%Z && client_allowed clientTypes (s_clientType session)
     && bool_decide (s_tokenHash session = sha256 secret)
  then Some session else None.

(** The view of a stored session. *)
Definition view_of (r : repository) (session : UserSessionRecord) : option session_view :=
  userId ← session_user r session; az ← granted r userId; identity ← identities r !! s_identityId session;
  Some (SessionView session userId az (i_requiresPasswordChange identity)).

Lemma resolve_run r st now token clientTypes :
  access_inv r ->
  exists st', resolve sha256 now token clientTypes (st, r)
              = ((st', r), Ok (token_session r now token clientTypes ≫= view_of r)).
Proof.
  intros Hinv. unfold resolve, token_session. destruct (split_token token) as [[sessionId secret]|]; [|simpl; eauto].
  unfold mbind at 1, S_bind at 1, db at 1, sessions_get, gets. simpl.
  destruct (sessions r !! sessionId) as [s|] eqn:Hs; simpl; [|eexists; unfold forget_session, update, mbind, S_bind, mret, S_ret; simpl; done].
  destruct (session_access _ _ _ Hinv Hs) as (userId & u & az & Hown & Hu & Hst & Hg & Haz & Hrev).
  destruct (ai_session_identity _ Hinv _ _ Hs) as [i Hi]. rewrite Hown. simpl.
  case_decide as Hexp.
  { rewrite (bool_decide_false (now < s_expiresAt s)%Z) by lia. simpl. eexists. unfold forget_session, update, mbind, S_bind, mret, S_ret. done. }
  rewrite (bool_decide_true (now < s_expiresAt s)%Z) by lia. destruct (client_allowed clientTypes (s_clientType s)); simpl; [|eauto].
  destruct (bool_decide (s_tokenHash s = sha256 secret)); simpl; [|eauto].
  unfold view_of. rewrite Hown, Hi. simpl. rewrite Hg. simpl.
  destruct (detail_run r userId Hinv) as [d Hd]; [eauto|].
  unfold mbind, S_bind, db, try_authorization. rewrite Haz. simpl. rewrite decide_False by (rewrite Hrev; auto).
  unfold update. simpl. rewrite Hd. unfold gets. rewrite Hi. unfold mret, S_ret. eauto.
Qed.
End Resolve.

(** ** Signing in *)

Lemma users_put_run u r : UserAccountRecordSchema u = true -> users_put u r = (with_users <[u_id u := u]> r, Ok ()).
Proof. intros H. unfold users_put, mbind, M_bind, assert. by rewrite H. Qed.

Lemma identities_put_run i r :
  LoginIdentityRecordSchema i = true -> is_Some (users r !! i_userId i) -> identity_indexes i r = true ->
  identities_put i r = (with_identities <[i_id i := i]> r, Ok ()).
Proof.
  intros H1 H2 H3. unfold identities_put, mbind, M_bind, assert, gets. rewrite H1. simpl.
  by rewrite bool_decide_true, H3 by done.
Qed.

Lemma sessions_put_run userId s r :
  UserSessionRecordSchema s = true -> session_user r s = Some userId ->
  (forall id s', sessions r !! id = Some s' -> s_tokenHash s' <> s_tokenHash s) ->
  sessions_put userId s r = (with_sessions <[s_id s := s]> r, Ok ()).
Proof.
  intros H1 H2 H3. unfold sessions_put, mbind, M_bind, assert, gets. rewrite H1. simpl.
  rewrite bool_decide_true by done. simpl.
  match goal with |- context [table_exists ?P ?t] => destruct (table_exists P t) eqn:E end; [|done].
  apply table_exists_true in E as (id & s' & Hs' & HP). propify. by destruct (H3 _ _ Hs').
Qed.

(** The indexes accept a row that keeps its names. *)
Lemma identity_indexes_kept r i i' :
  access_inv r -> identities r !! i_id i = Some i -> i_id i' = i_id i ->
  i_normalizedLoginName i' = i_normalizedLoginName i -> i_providerId i' = i_providerId i -> i_subject i' = i_subject i ->
  identity_indexes i' r = true.
Proof.
  intros Hinv Hi Hid Hn Hp Hs. apply table_forall. intros id j Hj. rewrite Hid, Hn, Hp, Hs.
  rewrite (ai_identity_key _ Hinv _ _ Hj). destruct (decide (id = i_id i)) as [->|Hne]; [by rewrite bool_decide_true|].
  rewrite bool_decide_false by done. simpl. apply andb_true_iff. split; apply negb_true_iff.
  - destruct (i_normalizedLoginName i) as [n|] eqn:En; [|done]. unfold same_login_name.
    apply bool_decide_eq_false. intros Hjn. apply Hne. symmetry. eapply (ai_unique _ Hinv); [exact Hi|exact Hj|]. left. eauto.
  - destruct (i_providerId i) as [p|] eqn:Ep; [|done]. destruct (i_subject i) as [sub|] eqn:Es; [|done]. unfold same_provider_subject.
    apply andb_false_iff. destruct (bool_decide (i_providerId j = Some p)) eqn:Ejp; [right|by left].
    apply bool_decide_eq_false. propify. intros Hjs. apply Hne. symmetry.
    eapply (ai_unique _ Hinv); [exact Hi|exact Hj|]. right. exists p, sub. done.
Qed.

Lemma record_login_run r i u at_ :
  access_inv r -> identities r !! i_id i = Some i -> users r !! i_userId i = Some u ->
  record_login (i_userId i) i at_ r
  = (with_identities <[i_id i := used_identity at_ i]> (with_users <[i_userId i := used_user at_ u]> r), Ok ()).
Proof.
  intros Hinv Hi Hu. unfold record_login, mbind, M_bind, gets, require. rewrite Hu.
  pose proof (ai_user_key _ Hinv _ _ Hu) as Hk. unfold mret, M_ret.
  rewrite users_put_run by apply (ai_user_schema _ Hinv _ _ Hu). simpl. rewrite Hk.
  rewrite identities_put_run; [done|apply (ai_identity_schema _ Hinv _ _ Hi)|simpl; rewrite lookup_insert_eq; eauto|].
  unfold identity_indexes. apply (identity_indexes_kept r i (used_identity at_ i)); done.
Qed.

Section Login.
Context (options : RateLimitOptions) (sha256 toLocaleLowerCase : jsstring -> jsstring)
  (scrypt : jsstring -> jsstring -> list N) (fromBase64url : jsstring -> list N).

Definition unused_secret (r : repository) (secret : jsstring) : Prop :=
  forall id s, sessions r !! id = Some s -> s_tokenHash s <> sha256 secret.

(** A session for an active user is stored. *)
Lemma store_session_run r i u sessionId secret now at_ :
  access_inv r -> identities r !! i_id i = Some i -> users r !! i_userId i = Some u -> u_status u = UserActive ->
  unused_secret r secret ->
  exists az r', granted r (i_userId i) = Some az
    /\ store_session sha256 sessionId secret (i_id i) now ClientWeb None None (Some at_) r
       = (r', Ok (new_session sha256 sessionId secret now (i_id i) ClientWeb None None (az_authorizationRevision az), i, az)).
Proof.
  intros Hinv Hi Hu Hst Hsecret. pose proof (authorization_run r (i_userId i) Hinv) as Haz. rewrite Hu in Haz.
  destruct (ai_user_grant _ Hinv _ _ Hu) as [g Hg]. destruct (granted r (i_userId i)) as [az|] eqn:Hgr; [|unfold granted in Hgr; by rewrite Hg in Hgr].
  rewrite decide_True in Haz by done. exists az. eexists. split; [done|].
  unfold store_session, transaction. unfold mbind, M_bind, gets, require, mret, M_ret. rewrite Hi. unfold assert.
  rewrite bool_decide_true by done. simpl. unfold mret, M_ret. rewrite Haz. rewrite (record_login_run _ _ u) by done.
  rewrite sessions_put_run; [done| | |].
  - unfold UserSessionRecordSchema. simpl. pose proof (ai_grant_revision _ Hinv _ _ Hg) as Hrev.
    assert (az_authorizationRevision az = g_authorizationRevision g) as ->.
    { unfold granted in Hgr. rewrite Hg in Hgr. simpl in Hgr. by injection Hgr as <-. }
    rewrite !andb_true_iff. split_and!; [by apply Z.ltb_lt|done|done].
  - unfold session_user. simpl. by rewrite lookup_insert_eq.
  - intros id s Hs. simpl in *. by eapply Hsecret.
Qed.

(** Signing in with the right password, when the throttle admits. *)
Lemma loginLocal_run st r i u sessionId secret now username password source l :
  let loginName := normalizeControlPlaneLoginName toLocaleLowerCase username in
  let sourceId := default unknown_source (oor (trim <$> source) None) in
  access_inv r -> identities r !! i_id i = Some i -> i_normalizedLoginName i = Some loginName ->
  verifyControlPlanePassword scrypt fromBase64url password (default [] (i_passwordHash i)) = true ->
  users r !! i_userId i = Some u -> u_status u = UserActive ->
  limiter_begin options sourceId loginName now (limiter st) = (l, Ok ()) ->
  unused_secret r secret -> fresh_session sessionId r ->
  exists s' az, let session := new_session sha256 sessionId secret now (i_id i) ClientWeb None None (az_authorizationRevision az) in
    loginLocal options sha256 toLocaleLowerCase scrypt fromBase64url sessionId secret now username password
      source ClientWeb None (st, r)
    = (s', Ok (CreatedSession (session_token sessionId secret) (now + SESSION_TTL_MS) session az (i_requiresPasswordChange i)))
    /\ sessions s'.2 !! sessionId = Some session /\ session_user s'.2 session = Some (i_userId i)
    /\ granted r (i_userId i) = Some az /\ rtc access_change r s'.2.
Proof.
  intros loginName sourceId Hinv Hi Hname Hpw Hu Hst Hlim Hsecret Hfresh.
  destruct (store_session_run r i u sessionId secret now now Hinv Hi Hu Hst Hsecret) as (az & r1 & Hgr & Hstore).
  assert (Hfind : table_find (same_login_name loginName) (identities r) = Some i).
  { destruct (table_find _ _) as [j|] eqn:E.
    - apply table_find_Some in E as [[id Hj] Hjn]. unfold same_login_name in Hjn. propify.
      assert (i_id i = id) by (eapply (ai_unique _ Hinv); [exact Hi|exact Hj|]; left; eauto). subst id. congruence.
    - pose proof (table_find_None _ _ E _ _ Hi) as Hn. unfold same_login_name in Hn. by propify. }
  unfold loginLocal. cbv zeta. fold loginName. fold sourceId. unfold mbind at 1, S_bind at 1, begin_login. rewrite Hlim.
  unfold finally. unfold mbind at 1, S_bind at 1, db at 1, identities_findByLoginName, gets. rewrite Hfind. rewrite Hpw.
  unfold mbind at 1, S_bind at 1, db at 1, gets. rewrite Hu. rewrite decide_True by done.
  pose proof (store_session_ok sha256 _ _ _ _ _ _ _ _ _ _ _ _ _ Hstore) as (_ & _ & _ & Hs & Hown & _).
  assert (Hsteps : rtc access_change r r1) by (eapply store_session_refines; [exact Hinv|exact Hfresh|exact Hstore]).
  assert (Hinv1 : access_inv r1) by by eapply rtc_change_inv.
  destruct (session_access _ _ _ Hinv1 Hs) as (userId & u1 & _ & Hown1 & Hu1 & _). rewrite Hown in Hown1. injection Hown1 as <-.
  destruct (detail_run r1 (i_userId i) Hinv1) as [d Hd]; [eauto|].
  unfold createSessionForIdentity. unfold check. simpl. unfold mbind, S_bind, mret, S_ret, db. rewrite Hstore.
  unfold update. unfold publicSession, db, sessions_get, gets, instance, mbind, S_bind. simpl. rewrite Hs. simpl. rewrite Hown. simpl.
  unfold mret, S_ret. simpl. rewrite Hd. eexists _, az. split; [done|]. simpl. done.
Qed.
End Login.

(** ** The local operator *)

Lemma retired_operator now r r' b id i :
  access_inv r -> retireLocalTrustAccess now r = (r', Ok b) ->
  identities r' !! id = Some i -> i_kind i = LocalTrust ->
  exists u, users r' !! i_userId i = Some u /\ u_status u = UserArchived.
Proof.
  intros Hinv H Hi Hk. unfold retireLocalTrustAccess in H. apply transaction_ok in H.
  apply bind_ok in H as (found & r1 & H1 & H). run_inv H1. destruct (local_trust_identity r) as [j|] eqn:Hj.
  - apply local_trust_identity_ok in Hj as [(jid & j' & Hj' & Hkj & Hju) [id' Hj]].
    apply bind_ok in H as ([] & r1 & H1 & H). apply revokeSessionsIn_ok in H1 as ->; [|by apply (ai_session_key _ Hinv)].
    apply bind_ok in H as (u & r1 & H1 & H). run_inv H1. simpl in *.
    assert (Hkind : i_kind j = LocalTrust).
    { assert (jid = id') as -> by (eapply (ai_one_identity _ Hinv); eauto). congruence. }
    destruct (users r !! i_userId j) as [u|] eqn:Hu.
    + pose proof (ai_user_key _ Hinv _ _ Hu) as Huk. case_decide as Hst.
      * run_inv H. simpl in *. assert (id = id') as -> by (eapply (ai_one_local_trust _ Hinv); eauto).
        rewrite Hi in Hj. injection Hj as ->. eauto.
      * apply bind_ok in H as ([] & r2 & Hput & H). run_inv H. apply users_put_ok in Hput as [_ ->]. simpl in *.
        assert (id = id') as -> by (eapply (ai_one_local_trust _ Hinv); eauto). rewrite Hi in Hj. injection Hj as ->.
        rewrite Huk, lookup_insert_eq. eauto.
    + destruct (ai_identity_user _ Hinv _ _ Hj) as [u Hu']. congruence.
  - run_inv H. exfalso. unfold local_trust_identity in Hj. pose proof (table_find_None _ _ Hj _ _ Hi) as Hn. simpl in Hn. by propify.
Qed.

Lemma view_of_user r session v : view_of r session = Some v -> session_user r session = Some (sv_userId v).
Proof.
  unfold view_of. destruct (session_user r session) as [userId|]; [|done]. simpl. destruct (granted r userId); [|done]. simpl.
  destruct (identities r !! s_identityId session); [|done]. simpl. by intros [= <-].
Qed.

(** ** Example servers

    A concrete environment and servers that handled concrete requests, at
    which the theorems about the access services are instantiated. *)

(** Encodings by injective maps stand for the ones of the platform. *)
Definition example_base64url (b : list N) : jsstring := 65%N :: ((fun n => n + 100)%N <$> b).
Definition example_fromBase64url (s : jsstring) : list N := (fun n => n - 100)%N <$> tail s.

Definition example_env (enabled : bool) : environment :=
  Environment enabled DEFAULT_RATE_LIMIT id id (fun password salt => password ++ salt) example_base64url example_fromBase64url
    id id id id (fun uri _ _ => uri) id (fun secret _ => secret) (fun sealed _ => Ok sealed) (fun issuer => Ok issuer)
    (fun _ flow => Ok (f_state flow)) (fun _ _ code => Ok (ExternalClaims code None None)).

Lemma example_round_trip b : example_fromBase64url (example_base64url b) = b.
Proof.
  unfold example_fromBase64url, example_base64url. simpl. rewrite <- list_fmap_compose. rewrite <- (list_fmap_id b) at 2.
  apply list_fmap_ext. intros i n _. simpl. lia.
Qed.

Lemma example_encoded b : encoded (example_base64url b).
Proof.
  split; [done|]. unfold example_base64url, dollar. rewrite elem_of_cons. intros [H|H]; [done|].
  apply list_elem_of_fmap in H as (n & H & _). lia.
Qed.

(** Requests one after the other, each at its time. *)
Fixpoint run_requests (env : environment) (qs : list (Z * request)) (s : server) : server :=
  match qs with [] => s | (now, q) :: qs' => run_requests env qs' (handle env now q s).1 end.

Fixpoint all_fresh (env : environment) (qs : list (Z * request)) (s : server) : Prop :=
  match qs with [] => True | (now, q) :: qs' => fresh q (sv_db s) /\ all_fresh env qs' (handle env now q s).1 end.

Lemma run_requests_reachable env qs s : reachable env s -> all_fresh env qs s -> reachable env (run_requests env qs s).
Proof. revert s. induction qs as [|[now q] qs IH]; simpl; [done|]. intros s Hs [Hf Hqs]. apply IH; [by apply reachable_step|done]. Qed.

Lemma run_requests_steps env0 s0 env qs s :
  steps env0 s0 env s -> all_fresh env qs s -> steps env0 s0 env (run_requests env qs s).
Proof. revert s. induction qs as [|[now q] qs IH]; simpl; [done|]. intros s Hs [Hf Hqs]. apply IH; [by apply steps_step|done]. Qed.

(** With authentication: an administrator is bootstrapped, another user is
    created, and an identity provider that asks for approvals. *)
Definition bootstrap_requests : list (Z * request) :=
  [ (1, BootstrapAdmin false (js "user_1") (js "identity_1") (js "salt") (js "root") (js "password") None) ]%Z.

Definition admin_requests : list (Z * request) :=
  [ (2, CreateLocalUser (js "user_2") (js "identity_2") (js "salt")
          (LocalUserInput (js "ann") (js "secret-2") None [SYSTEM_ROLE_OPERATOR] (NodesSelected [js "node_1"]) None false));
    (3, CreateProvider (js "idp_1") ProviderGithub (Some ProviderEnabled) (Some AdminApprovedCreate) (js "GitHub") (js "client")
          (js "secret") (js "https://cp.example/callback") None) ]%Z.

Definition bootstrapped_server : server := run_requests (example_env true) bootstrap_requests new_server.
Definition admin_server : server := run_requests (example_env true) admin_requests bootstrapped_server.

Lemma bootstrapped_reachable : reachable (example_env true) bootstrapped_server.
Proof. apply run_requests_reachable; [apply reachable_new|]. repeat split; vm_compute; reflexivity. Qed.

Lemma admin_fresh : all_fresh (example_env true) admin_requests bootstrapped_server.
Proof. repeat split; vm_compute; reflexivity. Qed.

Lemma admin_server_reachable : reachable (example_env true) admin_server.
Proof. apply run_requests_reachable; [apply bootstrapped_reachable|apply admin_fresh]. Qed.

Lemma bootstrapped_steps : steps (example_env true) bootstrapped_server (example_env true) admin_server.
Proof. apply run_requests_steps; [apply steps_refl|apply admin_fresh]. Qed.

(** The administrator signs in. *)
Definition login_request : request := Login (js "sess_1") (js "token") (js "root") (js "password") None.
Definition signed_in_server : server := (handle (example_env true) 10 login_request admin_server).1.

Lemma signed_in_reachable : reachable (example_env true) signed_in_server.
Proof. apply reachable_step; [apply admin_server_reachable|]. vm_compute. reflexivity. Qed.

(** Without authentication: the loopback interface makes the local operator. *)
Definition loopback : option jsstring := Some (js "127.0.0.1").
Definition example_ids : operator_ids := OperatorIds (js "user_op") (js "identity_op") (js "audit_op").
Definition unused_ids : operator_ids := OperatorIds (js "user_x") (js "identity_x") (js "audit_x").

Definition operator_requests : list (Z * request) :=
  [ (1, CurrentAccess example_ids None [ClientWeb] loopback);
    (2, CreateLocalCliSession unused_ids (js "csess_1") (js "token") (js "audit_1") (js "thctl") loopback) ]%Z.

Definition operator_server : server := run_requests (example_env false) operator_requests new_server.

(** The local operator is disabled by another administrator. *)
Definition disabled_operator_requests : list (Z * request) :=
  operator_requests ++
  [ (3, CreateLocalUser (js "user_1") (js "identity_1") (js "salt")
          (LocalUserInput (js "root") (js "password") None [SYSTEM_ROLE_ADMIN] NodesAll None false));
    (4, UpdateUser (js "user_op") None None (Some UserDisabled)) ]%Z.

Definition disabled_operator_server : server := run_requests (example_env false) disabled_operator_requests new_server.

Lemma operator_reachable : reachable (example_env false) operator_server.
Proof. apply run_requests_reachable; [apply reachable_new|]. repeat split; vm_compute; reflexivity. Qed.

Lemma disabled_operator_reachable : reachable (example_env false) disabled_operator_server.
Proof. apply run_requests_reachable; [apply reachable_new|]. repeat split; vm_compute; reflexivity. Qed.

(** The server is started again with authentication. *)
Definition restarted_server : server := restart operator_server.

Lemma restarted_reachable : reachable (example_env true) restarted_server.
Proof. apply (reachable_restart (example_env false) true), operator_reachable. Qed.

(** An external sign-in has begun. *)
Definition example_state : jsstring := js "0123456789abcdef0123456789abcdef".
Definition flow_server : server :=
  run_requests (example_env true) [(5%Z, BeginExternal example_state (js "nonce") (js "verifier") (js "idp_1") ClientWeb)] admin_server.

Lemma flow_reachable : reachable (example_env true) flow_server.
Proof. apply run_requests_reachable; [apply admin_server_reachable|]. repeat split; vm_compute; reflexivity. Qed.
