(* ===== verification/AccessSpec.v ===== *)
(** * What the access services guarantee

    The claims about every server that was started on an empty database and
    handled any sequence of requests, with restarts in between. *)

From S2P Require Import AccessFacts.

(** ** Administrators *)

(** An administrator's authorization, and a way to sign in for it. *)
Lemma admin_authorized r :
  access_inv r -> has_admin r ->
  exists userId az i, authorization userId r = (r, Ok az)
    /\ (forall p, p ∈ CONTROL_PLANE_PERMISSION_IDS -> p ∈ az_permissionIds az)
    /\ identities r !! i_id i = Some i /\ i_userId i = userId
    /\ (i_kind i = LocalPassword \/ exists providerId p, i_providerId i = Some providerId
          /\ providers r !! providerId = Some p /\ p_status p = ProviderEnabled).
Proof.
  intros Hinv (u & g & i & Hu & Hst & Hg & Hadmin & Hi & Hiu & Hcap).
  pose proof (authorization_run r (u_id u) Hinv) as Hrun. rewrite Hu in Hrun. unfold granted in Hrun. rewrite Hg in Hrun.
  simpl in Hrun. rewrite decide_True in Hrun by done. exists (u_id u). eexists. exists i. split; [exact Hrun|].
  split_and!; try done; simpl.
  - intros p Hp. rewrite unique_sorted_elem. apply list_elem_of_bind.
    destruct (ai_grant_roles _ Hinv _ _ _ Hg Hadmin) as [ro Hro]. exists ro.
    assert (Hrow : roles r !! SYSTEM_ROLE_ADMIN = Some ro).
    { unfold active_role in Hro. destruct (roles r !! SYSTEM_ROLE_ADMIN); simpl in Hro; [|done]. case_decide; congruence. }
    pose proof (ai_role _ Hinv _ _ Hrow) as Hok. unfold role_ok in Hok.
    rewrite (ai_role_key _ Hinv _ _ Hrow) in Hok. destruct Hok as (_ & _ & Hperm). split.
    + rewrite Hperm. exact Hp.
    + apply list_elem_of_omap. eauto.
  - unfold login_capable, identity_login_capable in Hcap. simpl in Hcap. destruct (i_kind i); [by left| | |done]; right;
      destruct (i_providerId i) as [pid|] eqn:Hpid; try done; apply andb_true_iff in Hcap as [_ Hcap];
      destruct (providers r !! pid) as [p|] eqn:Hp; try done; propify; exists pid, p; done.
Qed.

(** A successful bootstrap makes an administrator. *)
Lemma bootstrap_admin lower toLocaleLowerCase scrypt base64url inProgress userId identityId salt now username password displayName r r' d :
  access_inv r -> fresh_user userId identityId r ->
  bootstrapAdmin lower toLocaleLowerCase scrypt base64url inProgress userId identityId salt now username password displayName r = (r', Ok d) ->
  has_admin r'.
Proof.
  intros Hinv [Hfu Hfi] H. unfold bootstrapAdmin in H.
  apply bind_ok in H as ([] & r1 & Ha & H). run_inv Ha. apply bind_ok in H as (b & r1 & Hb & H). run_inv Hb.
  apply bind_ok in H as ([] & r1 & Hd & H). run_inv Hd. apply bind_ok in H as ([] & r1 & Hinit & H).
  pose proof (initializeForBootstrap_frame lower now r) as [Eu Ei]. rewrite Hinit in Eu, Ei. simpl in Eu, Ei.
  apply bind_ok in H as (created & r2 & Hcreate & H).
  unfold createLocalUserInternal in Hcreate. apply transaction_ok in Hcreate.
  apply bind_ok in Hcreate as (existing & r3 & H3 & Hc). apply reads_ok in H3 as ->; [|done].
  apply bind_ok in Hc as ([] & r3 & H3 & Hc). apply reads_ok in H3 as ->; [|auto with jsdb].
  apply bind_ok in Hc as ([] & r3 & H3 & Hc). apply reads_ok in H3 as ->; [|auto with jsdb].
  apply bind_ok in Hc as ([] & r3 & Hu & Hc). apply bind_ok in Hc as ([] & r4 & Hi & Hc).
  apply bind_ok in Hc as ([] & r5 & Hg & Hc). run_inv Hc.
  apply users_put_ok in Hu as [_ ->]. apply identities_put_ok in Hi as (_ & _ & _ & ->). apply grants_put_ok in Hg as (_ & _ & _ & _ & ->).
  unfold catch in H.
  match type of H with context [detail ?x ?t] => pose proof (reads_detail x t) as Hr; destruct (detail x t) as [r6 [d'|e]] end;
    simpl in Hr; subst.
  - injection H as <- _. simpl.
    match goal with |- context [with_users <[_ := ?u]>] => match goal with |- context [with_identities <[_ := ?i]>] =>
      match goal with |- context [with_grants <[_ := ?g]>] => exists u, g, i end end end.
    simpl. rewrite !lookup_insert_eq. split_and!; try done. vm_compute. set_solver.
  - apply bind_ok in H as (? & ? & _ & H). apply bind_ok in H as (? & ? & _ & H). by apply bind_ok in H as (? & ? & _ & H).
Qed.

(** C11. Nobody can lock everybody out: once a bootstrap has succeeded, or
    there is any other active administrator who can sign in, then after every
    further sequence of requests and restarts there still is one - an active
    user whose authorization succeeds with every permission of the catalogue,
    and who has a local password or an identity of an enabled provider. *)
Theorem administrator_remains env s env' s' :
  reachable env s -> steps env s env' s' ->
  (has_admin (sv_db s)
   \/ exists s0 now inProgress userId identityId salt username password displayName,
        reachable env s0 /\ fresh (BootstrapAdmin inProgress userId identityId salt username password displayName) (sv_db s0)
        /\ handle env now (BootstrapAdmin inProgress userId identityId salt username password displayName) s0 = (s, None)) ->
  has_admin (sv_db s')
  /\ exists userId az i, authorization userId (sv_db s') = (sv_db s', Ok az)
    /\ (forall p, p ∈ CONTROL_PLANE_PERMISSION_IDS -> p ∈ az_permissionIds az)
    /\ identities (sv_db s') !! i_id i = Some i /\ i_userId i = userId
    /\ (i_kind i = LocalPassword \/ exists providerId p, i_providerId i = Some providerId
          /\ providers (sv_db s') !! providerId = Some p /\ p_status p = ProviderEnabled).
Proof.
  intros Hr Hs Hstart. assert (Hadmin : has_admin (sv_db s)).
  { destruct Hstart as [?|(s0 & now & b & userId & identityId & salt & username & password & dn & Hr0 & Hf & E)]; [done|].
    unfold handle in E. cbv zeta in E. unfold run_auth in E.
    match type of E with context [let '(_, _) := ?m in _] => destruct m as [[st r] x] eqn:Em end. destruct x as [d|e]; [|done].
    injection E as <-. apply sbind_ok in Em as ([] & s1 & H1 & Em). apply check_ok in H1 as [-> _].
    apply db_ok in Em as (r' & [= -> ->] & Em). simpl. eapply bootstrap_admin; [by eapply reachable_inv|exact Hf|exact Em]. }
  assert (Ha : has_admin (sv_db s')).
  { eapply changes_admin; [by eapply steps_changes|by eapply reachable_inv|done]. }
  split; [done|]. apply admin_authorized; [|done]. by eapply reachable_inv, steps_reachable.
Qed.

(** ** Refinement and well-formedness *)

(** C12. Every request of the access services only makes changes that the
    specification allows: from any state a server can reach, and whatever the
    request is, how it ends and where it throws, the database after it is
    reached from the one before by steps of [access_change] - each of which
    keeps grants until their revision is advanced, revokes the sessions of
    whoever loses access, and keeps the last administrator. *)
Theorem requests_refine env s now q :
  reachable env s -> fresh q (sv_db s) ->
  rtc access_change (sv_db s) (sv_db (handle env now q s).1) /\ reachable env (handle env now q s).1.
Proof. intros Hr Hf. split; [by apply handle_refines; [eapply reachable_inv|]|by apply reachable_step]. Qed.


(** ** Access *)

(** C14. The authorization revision of a user determines what the user may
    do: between any two moments of a server's life the revision does not
    decrease, and if it is the same then roles, permissions and scopes are the
    same.  So an app binding made with a revision is accepted later only while
    the user is active and its access is exactly what it was, and allows
    interactive access to the instance. *)
Theorem revision_determines_access env s env' s' userId az az' :
  reachable env s -> steps env s env' s' ->
  (authorization userId (sv_db s)).2 = Ok az -> (authorization userId (sv_db s')).2 = Ok az' ->
  (az_authorizationRevision az <= az_authorizationRevision az')%Z
  /\ (az_authorizationRevision az = az_authorizationRevision az' -> az' = az)
  /\ (forall instanceId nodeId,
        (assertAppAccessAuthorization (AppBinding userId (az_authorizationRevision az) instanceId nodeId) (sv_db s')).2 = Ok () ->
        az' = az /\ canAccessResolvedResource (actor_of (az, js "access-lease") false) InteractiveAccess
                     (Resource RAppSession None) (InstanceDerived nodeId instanceId) = true).
Proof.
  intros Hr Hs Haz Haz'. pose proof (reachable_inv _ _ Hr) as Hinv.
  pose proof (reachable_inv _ _ (steps_reachable _ _ _ _ Hr Hs)) as Hinv'. pose proof (steps_changes _ _ _ _ Hr Hs) as Hc.
  assert (Hgr : forall r a, access_inv r -> (authorization userId r).2 = Ok a -> granted r userId = Some a).
  { intros r a Hi Ha. rewrite (authorization_run _ _ Hi) in Ha. simpl in Ha.
    destruct (users r !! userId); [|done]. destruct (granted r userId); [|done]. case_decide; [|done]. by injection Ha as ->. }
  pose proof (Hgr _ _ Hinv Haz) as Hg. pose proof (Hgr _ _ Hinv' Haz') as Hg'.
  destruct (changes_granted _ _ _ _ Hc Hinv Hg) as (a & Ha & Hle). rewrite Hg' in Ha. injection Ha as <-.
  assert (Heq : az_authorizationRevision az = az_authorizationRevision az' -> az' = az) by (destruct Hle as [->|?]; [done|lia]).
  split; [destruct Hle as [->|?]; lia|]. split; [exact Heq|].
  intros instanceId nodeId Hok. unfold assertAppAccessAuthorization in Hok.
  assert (Hrun : authorization userId (sv_db s') = (sv_db s', Ok az')).
  { pose proof (reads_authorization userId (sv_db s')) as H1. destruct (authorization userId (sv_db s')) as [r1 x]. simpl in *. by subst. }
  unfold mbind, M_bind in Hok. simpl in Hok. rewrite Hrun in Hok. unfold assert in Hok.
  destruct (bool_decide _) eqn:Hrev; [|done]. propify. assert (az' = az) as -> by auto. split; [done|]. simpl in Hok.
  unfold assertCanAccessResolvedResource in Hok. unfold canAccessResolvedResource.
  destruct (userCan _ _ _); [|done]. simpl in *. match type of Hok with context [if ?b then Ok () else _] => by destruct b end.
Qed.

(** C15. Resolving a token, in every state a server can reach: it never
    throws and never changes the database, and it answers with a session
    exactly when the token names a stored session by its identifier and the
    hash of its secret, the session is of an admitted client type and has not
    expired.  The view then is that of the session's owner, with the access
    the owner has at that moment: the checks for stale sessions never fire,
    since no request leaves a stale session behind. *)
Theorem resolve_answers env s now token clientTypes :
  reachable env s ->
  exists st, resolve (sha256 env) now token clientTypes (sv_auth s, sv_db s)
    = ((st, sv_db s), Ok (token_session (sha256 env) (sv_db s) now token clientTypes ≫= view_of (sv_db s)))
  /\ (forall session, token_session (sha256 env) (sv_db s) now token clientTypes = Some session ->
      exists v userId u, view_of (sv_db s) session = Some v /\ sv_session v = session /\ sv_userId v = userId
        /\ users (sv_db s) !! userId = Some u /\ u_status u = UserActive
        /\ (authorization userId (sv_db s)).2 = Ok (sv_authorization v)
        /\ az_authorizationRevision (sv_authorization v) = s_authorizationRevision session).
Proof.
  intros Hr. pose proof (reachable_inv _ _ Hr) as Hinv.
  destruct (resolve_run (sha256 env) (sv_db s) (sv_auth s) now token clientTypes Hinv) as [st Hst].
  exists st. split; [exact Hst|]. intros session Hses. unfold token_session in Hses.
  destruct (split_token token) as [[sessionId secret]|]; simpl in Hses; [|done].
  destruct (sessions (sv_db s) !! sessionId) as [ses|] eqn:Hs; simpl in Hses; [|done].
  match type of Hses with (if ?b then _ else _) = _ => destruct b; [|done] end. injection Hses as <-.
  destruct (session_access _ _ _ Hinv Hs) as (userId & u & az & Hown & Hu & Hst' & Hg & Haz & Hrev).
  destruct (ai_session_identity _ Hinv _ _ Hs) as [i Hi]. unfold view_of. rewrite Hown. simpl. rewrite Hg. simpl. rewrite Hi.
  simpl. eexists _, userId, u. split; [done|]. simpl. rewrite Haz. done.
Qed.

(** ** Signing in *)

(** C16. Whoever knows the password gets in and stays in: for an active user
    with a local identity, a sign-in with that login name and password that
    the throttle admits succeeds, and its token then resolves - as long as the
    session is kept and for two weeks, whatever other requests were handled in
    between - to that user with exactly the access it had when it signed in. *)
Theorem password_login_works env s now sessionId secret username password source salt i u l :
  reachable env s -> enabled env = true ->
  (forall b, fromBase64url env (base64url env b) = b) -> (forall p, encoded (base64url env (scrypt env p salt))) -> encoded salt ->
  identities (sv_db s) !! i_id i = Some i ->
  i_normalizedLoginName i = Some (normalizeControlPlaneLoginName (toLocaleLowerCase env) username) ->
  i_passwordHash i = Some (hashControlPlanePassword (scrypt env) (base64url env) salt password) ->
  users (sv_db s) !! i_userId i = Some u -> u_status u = UserActive ->
  limiter_begin (rateLimit env) (default unknown_source (oor (trim <$> source) None))
    (normalizeControlPlaneLoginName (toLocaleLowerCase env) username) now (limiter (sv_auth s)) = (l, Ok ()) ->
  fresh (Login sessionId secret username password source) (sv_db s) -> unused_secret (sha256 env) (sv_db s) secret ->
  truthy sessionId = true -> truthy secret = true -> dot ∉ sessionId -> dot ∉ secret ->
  exists s1 az, handle env now (Login sessionId secret username password source) s = (s1, None)
    /\ (authorization (i_userId i) (sv_db s)).2 = Ok az
    /\ let session := new_session (sha256 env) sessionId secret now (i_id i) ClientWeb None None (az_authorizationRevision az) in
       sessions (sv_db s1) !! sessionId = Some session
       /\ forall env2 s2 later, steps env s1 env2 s2 -> (later < now + SESSION_TTL_MS)%Z ->
            sessions (sv_db s2) !! sessionId = Some session -> session_user (sv_db s2) session = Some (i_userId i) ->
            exists st v, resolve (sha256 env) later (Some (session_token sessionId secret)) (Some [ClientWeb]) (sv_auth s2, sv_db s2)
                         = ((st, sv_db s2), Ok (Some v))
              /\ sv_userId v = i_userId i /\ sv_authorization v = az.
Proof.
  intros Hr Hen Hround Hkeys Hsalt Hi Hname Hhash Hu Hst Hlim Hfresh Hsecret Ht1 Ht2 Hd1 Hd2.
  pose proof (reachable_inv _ _ Hr) as Hinv.
  destruct (loginLocal_run (rateLimit env) (sha256 env) (toLocaleLowerCase env) (scrypt env) (fromBase64url env)
              (sv_auth s) (sv_db s) i u sessionId secret now username password source l)
    as ([st1 r1] & az & Hrun & Hses & Hown & Hgr & Hsteps); try done.
  { rewrite Hhash. simpl. rewrite verify_hash_spec by done. by apply bool_decide_eq_true. }
  simpl in Hses, Hown, Hsteps.
  assert (Hh : handle env now (Login sessionId secret username password source) s = (Server (sv_flows s) (sv_cli s) st1 r1, None)).
  { unfold handle, run_auth, login, assertEnabled, check. rewrite Hen. unfold mbind, S_bind, mret, S_ret. by rewrite Hrun. }
  assert (Haz : (authorization (i_userId i) (sv_db s)).2 = Ok az).
  { rewrite authorization_run by done. simpl. rewrite Hu, Hgr. by rewrite decide_True. }
  eexists _, az. split; [exact Hh|]. split; [exact Haz|]. simpl. split; [exact Hses|].
  intros env2 s2 later Hs2 Hlater Hkept Hown2.
  assert (Hr1 : reachable env (Server (sv_flows s) (sv_cli s) st1 r1)).
  { pose proof (reachable_step env now (Login sessionId secret username password source) s Hr Hfresh) as H. by rewrite Hh in H. }
  pose proof (steps_reachable _ _ _ _ Hr1 Hs2) as Hr2. pose proof (reachable_inv _ _ Hr2) as Hinv2.
  destruct (resolve_run (sha256 env) (sv_db s2) (sv_auth s2) later (Some (session_token sessionId secret)) (Some [ClientWeb]) Hinv2)
    as [st Hres].
  destruct (session_access _ _ _ Hinv2 Hkept) as (userId & u2 & az2 & Hown2' & Hu2 & Hst2 & Hg2 & Haz2 & Hrev2).
  rewrite Hown2 in Hown2'. injection Hown2' as <-.
  destruct (ai_session_identity _ Hinv2 _ _ Hkept) as [i2 Hi2].
  assert (Heq : az2 = az).
  { destruct (changes_granted (sv_db s) (sv_db s2) (i_userId i) az) as (az3 & Hg3 & Hle); [|done|done|].
    - etrans; [exact Hsteps|]. pose proof (steps_changes _ _ _ _ Hr1 Hs2) as H. exact H.
    - rewrite Hg2 in Hg3. injection Hg3 as <-. destruct Hle as [|Hlt]; [done|]. simpl in Hrev2. lia. }
  subst az2. assert (Htok : token_session (sha256 env) (sv_db s2) later (Some (session_token sessionId secret)) (Some [ClientWeb])
     = Some (new_session (sha256 env) sessionId secret now (i_id i) ClientWeb None None (az_authorizationRevision az))).
  { unfold token_session. rewrite split_session_token by done. simpl. rewrite Hkept. simpl.
    rewrite (bool_decide_true (later < now + SESSION_TTL_MS)%Z) by done.
    by rewrite (bool_decide_true (sha256 env secret = sha256 env secret)) by done. }
  rewrite Htok in Hres. simpl in Hres. unfold view_of in Hres. rewrite Hown2 in Hres. simpl in Hres. rewrite Hg2 in Hres.
  simpl in Hres, Hi2. rewrite Hi2 in Hres. simpl in Hres. eexists _, _. split; [exact Hres|]. done.
Qed.

(** ** Failures *)

(** The requests that administer users, roles and providers. *)
Definition administrative (q : request) : bool :=
  match q with
  | CreateLocalUser _ _ _ _ | UpdateUser _ _ _ _ | SetAccess _ _ _ _ _ | ResetLocalPassword _ _ _ _
  | RecoverLocalCredentials _ _ _ _ _ | UnbindExternalIdentity _ _ | ApproveExternalIdentity _ _ _ _ _ _ _ _
  | RejectExternalIdentity _ _ | CreateRole _ _ _ _ | UpdateRole _ _ _ _ | ArchiveRole _ | RevokeSessions _
  | RemoveInstanceFromAccessScopes _ | CreateProvider _ _ _ _ _ _ _ _ _ | UpdateProvider _ _ | RemoveProvider _ => true
  | _ => false
  end.

Lemma run_db_atomic {A} P (m : M A) s s' e :
  atomic_when P m -> access_inv (sv_db s) -> P (sv_db s) -> run_db m s = (s', Some e) -> s' = s.
Proof.
  intros Hm Hinv HP E. unfold run_db in E. destruct (m (sv_db s)) as [r [a|e']] eqn:Em; [done|]. injection E as <- <-.
  specialize (Hm _ _ _ Hinv HP Em). subst r. by destruct s.
Qed.

Ltac by_atomic L := eapply L; first [eassumption | exact I].

(** C17. An administrative request that fails changes nothing: whatever error
    a request on users, roles or providers ends with, the server is as it was,
    with no user without a grant, no half-advanced revisions and no sessions
    revoked for a change that did not happen. *)
Theorem failed_requests_change_nothing env s s' now q e :
  reachable env s -> fresh q (sv_db s) -> administrative q = true -> handle env now q s = (s', Some e) -> s' = s.
Proof.
  intros Hr Hf Hq E. pose proof (reachable_inv _ _ Hr) as Hinv.
  destruct q; try done; unfold handle in E; cbv zeta in E;
    (eapply (run_db_atomic (fresh _)); [|exact Hinv|exact Hf|exact E]); clear;
    intros r r' e Hinv Hf E; simpl in Hf;
    first [ by_atomic @createLocalUser_atomic | by_atomic @updateUser_atomic | by_atomic @setAccess_atomic
          | by_atomic @recoverLocalCredentials_atomic | by_atomic @approveExternalIdentity_atomic
          | by_atomic @rejectExternalIdentity_atomic | by_atomic @createProvider_atomic | by_atomic @updateProvider_atomic
          | by_atomic @removeProvider_atomic | by_atomic @atomic_transaction ].
Qed.

(** ** The mode without authentication *)

(** Without authentication the control plane trusts its own machine
    only: a request that is not from the loopback interface and carries no
    token has no access, sees and revokes no sessions, gets no command-line
    session and leaves the server as it was; and a token that does not resolve
    is not replaced by the local operator, wherever the request is from. *)
Theorem disabled_mode_trust env s now ids token types remote :
  enabled env = false -> reachable env s ->
  let w := (sv_auth s, sv_db s) in
  (given token = None -> isLoopbackRemoteAddress remote = false ->
     currentAccess false (lower env) (sha256 env) ids now token types remote w = (w, Ok None)
     /\ auth_currentSession false (lower env) (sha256 env) ids now token types remote w = (w, Ok anonymous)
     /\ localOperatorActor false (lower env) ids now remote w = (w, Ok None)
     /\ cliSessions false (lower env) (sha256 env) ids now token types remote w = (w, Ok None)
     /\ (forall id, revokeCliSession false (lower env) (sha256 env) ids now token types id remote w = (w, Ok None))
     /\ (forall sessionId secret auditId client,
           createLocalCliSession false (lower env) (sha256 env) ids sessionId secret auditId now client remote w
           = (w, Throw (ServiceError "AUTH_LOCAL_SESSION_NOT_LOCAL" 403))))
  /\ (forall t, given token = Some t -> token_session (sha256 env) (sv_db s) now (Some t) (Some types) = None ->
     (currentAccess false (lower env) (sha256 env) ids now token types remote w).2 = Ok None
     /\ (auth_currentSession false (lower env) (sha256 env) ids now token types remote w).2 = Ok anonymous
     /\ (currentAccess false (lower env) (sha256 env) ids now token types remote w).1.2 = sv_db s).
Proof.
  intros Hen Hr w. pose proof (reachable_inv _ _ Hr) as Hinv. split.
  - intros Hg Hl. assert (Hop : localOperator false (lower env) ids now remote w = (w, Ok None)).
    { unfold localOperator. by rewrite Hl. }
    assert (Hno : forall types, resolve (sha256 env) now token (Some types) w = (w, Ok None)).
    { intros ty. unfold resolve. destruct token as [[|c t]|]; done. }
    assert (Hacc : localOperatorAccess false (lower env) ids now remote w = (w, Ok None)).
    { unfold localOperatorAccess, mbind, S_bind. by rewrite Hop. }
    unfold currentAccess, auth_currentSession, localOperatorActor, cliSessions, revokeCliSession, createLocalCliSession.
    rewrite Hg, Hl. unfold mbind, S_bind. split_and!; intros; rewrite ?Hacc, ?Hno, ?Hop; done.
  - intros t Hg Htok. destruct (resolve_run (sha256 env) (sv_db s) (sv_auth s) now (Some t) (Some types) Hinv) as [st Hres].
    rewrite Htok in Hres. unfold currentAccess, auth_currentSession, resolveDisabledCredential. rewrite Hg.
    unfold mbind, S_bind. fold w in Hres. rewrite Hres. done.
Qed.

(** Turning authentication on ends the access of the local operator: once
    the start of an authenticated server has succeeded, the operator's account
    is archived, no session of it is stored, and no token resolves to it. *)
Theorem enabling_ends_local_access env s s' now id i :
  enabled env = true -> reachable env s -> handle env now Init s = (s', None) ->
  identities (sv_db s') !! id = Some i -> i_kind i = LocalTrust ->
  (exists u, users (sv_db s') !! i_userId i = Some u /\ u_status u = UserArchived)
  /\ (forall sessionId session, sessions (sv_db s') !! sessionId = Some session -> s_identityId session <> id)
  /\ (forall later token clientTypes v,
        (resolve (sha256 env) later token clientTypes (sv_auth s', sv_db s')).2 = Ok (Some v) -> sv_userId v <> i_userId i).
Proof.
  intros Hen Hr E Hi Hk. pose proof (reachable_inv _ _ Hr) as Hinv.
  assert (Hr' : reachable env s').
  { replace s' with (handle env now Init s).1 by (by rewrite E). by apply reachable_step. }
  pose proof (reachable_inv _ _ Hr') as Hinv'.
  assert (Hdone : exists u, users (sv_db s') !! i_userId i = Some u /\ u_status u = UserArchived).
  { unfold handle, run_auth, init in E. cbv zeta in E. rewrite Hen in E.
    match type of E with context [let '(_, _) := ?m in _] => destruct m as [[st r] x] eqn:Em end. destruct x as [[]|e]; [|done].
    injection E as <-. apply sbind_ok in Em as ([] & s1 & H1 & Em). apply db_ok in H1 as (r1 & -> & H1).
    assert (Hinv1 : access_inv r1).
    { eapply rtc_change_inv; [|exact Hinv]. by eapply (store_init_refines (lower env)). }
    apply sbind_ok in Em as (b & s2 & H2 & Em). apply db_ok in H2 as (r2 & -> & H2). injection Em as <- <-. simpl in *.
    by apply (retired_operator now r1 r2 b id i). }
  split; [done|]. destruct Hdone as (u & Hu & Hst).
  assert (Hno : forall sid ses, sessions (sv_db s') !! sid = Some ses -> session_user (sv_db s') ses <> Some (i_userId i)).
  { intros sid ses Hs Hown. destruct (ai_session_current _ Hinv' _ _ _ Hs Hown) as (u' & g & Hu' & Hst' & _). congruence. }
  split.
  - intros sid ses Hs Hid. apply (Hno _ _ Hs). unfold session_user. by rewrite Hid, Hi.
  - intros later token clientTypes v Hv.
    destruct (resolve_run (sha256 env) (sv_db s') (sv_auth s') later token clientTypes Hinv') as [st Hres]. rewrite Hres in Hv.
    simpl in Hv. destruct (token_session _ _ _ _ _) as [ses|] eqn:Hses; [|done]. simpl in Hv.
    unfold token_session in Hses. destruct (split_token token) as [[sid secret]|]; [|done]. simpl in Hses.
    destruct (sessions (sv_db s') !! sid) as [ses'|] eqn:Hs; [|done]. simpl in Hses.
    match type of Hses with (if ?b then _ else _) = _ => destruct b; [|done] end. injection Hses as ->.
    specialize (Hno _ _ Hs). injection Hv as Hv. apply view_of_user in Hv. congruence.
Qed.

(** The local operator is made sure of once in the life of a process:
    while it is remembered and its account has been disabled or archived, a
    local command-line session is refused and nothing is restored. *)
Theorem local_operator_not_restored env s now ids sessionId secret auditId client remote userId identityId i u :
  enabled env = false -> reachable env s -> isLoopbackRemoteAddress remote = true ->
  localTrustOperator (sv_auth s) = Some (userId, identityId) ->
  identities (sv_db s) !! identityId = Some i -> i_userId i = userId -> i_requiresPasswordChange i = false ->
  users (sv_db s) !! userId = Some u -> u_status u <> UserActive ->
  handle env now (CreateLocalCliSession ids sessionId secret auditId client remote) s
  = (s, Some (ServiceError "CONTROL_PLANE_USER_DISABLED" 403)).
Proof.
  intros Hen Hr Hl Hop Hi Hiu Hpw Hu Hst. pose proof (reachable_inv _ _ Hr) as Hinv.
  unfold handle, run_auth, createLocalCliSession. cbv zeta. rewrite Hen, Hl. unfold check. simpl.
  unfold ensureLocalTrustOperator_once, instance. unfold mbind, S_bind, mret, S_ret. simpl. rewrite Hop. simpl.
  unfold createSessionForIdentity, check, mbind, S_bind, mret, S_ret, db. simpl.
  assert (Hstore : store_session (sha256 env) sessionId secret identityId now ClientCli None (Some client) (Some now) (sv_db s)
                   = (sv_db s, Throw (ServiceError "CONTROL_PLANE_USER_DISABLED" 403))).
  { unfold store_session, transaction, mbind, M_bind, gets, require, assert, mret, M_ret. rewrite Hi. rewrite Hpw. simpl.
    unfold mret, M_ret. rewrite authorization_run by done. rewrite Hiu, Hu.
    destruct (ai_user_grant _ Hinv _ _ Hu) as [g Hg]. unfold granted. rewrite Hg. simpl. by rewrite decide_False. }
  rewrite Hstore. by destruct s.
Qed.

(** ** External sign-in *)

(** C18. An external sign-in happens once per flow and only for a bound
    identity: a callback uses its state up whatever becomes of it, so a second
    one with the same state is refused; it makes a session only for a flow that was
    begun and has not expired, at a provider that is enabled, with claims the
    provider vouched for, and then for the identity bound to that provider and
    subject; an unknown subject gets no session and no account, only a pending
    approval where the provider's policy asks for one. *)
Theorem external_sign_in_guarded env s now sessionId secret approvalId state code :
  reachable env s -> 32 <= length (trim state) -> truthy (trim code) = true ->
  let cb := callback (sha256 env) (exchangeCode env) sessionId secret approvalId now state code in
  let '(m, k) := cb (sv_flows s) in
  (forall w, (cb m).2 w = (w, Throw (ServiceError "AUTH_EXTERNAL_FLOW_INVALID" 401)))
  /\ (forall w result, k (sv_auth s, sv_db s) = (w, Ok result) ->
      exists flow p claims, mget (trim state) (sv_flows s) = Some flow /\ (now < f_expiresAt flow)%Z
        /\ providers (sv_db s) !! f_providerId flow = Some p /\ p_status p = ProviderEnabled
        /\ exchangeCode env p flow (trim code) = Ok claims
        /\ match result with
           | CallbackSession created => exists i, identities (sv_db s) !! i_id i = Some i
               /\ i_providerId i = Some (p_id p) /\ i_subject i = Some (ec_subject claims)
               /\ s_identityId (cs_session created) = i_id i /\ s_clientType (cs_session created) = f_clientType flow
           | CallbackPendingApproval _ _ => p_loginPolicy p = AdminApprovedCreate
               /\ (forall id i, identities (sv_db s) !! id = Some i ->
                     ~ (i_providerId i = Some (p_id p) /\ i_subject i = Some (ec_subject claims)))
               /\ users w.2 = users (sv_db s) /\ identities w.2 = identities (sv_db s) /\ sessions w.2 = sessions (sv_db s)
           end).
Proof.
  intros Hr Hlen Hcode cb. pose proof (reachable_inv _ _ Hr) as Hinv. unfold cb, callback.
  rewrite (proj2 (Nat.leb_le _ _) Hlen), Hcode. simpl.
  destruct (mget (trim state) (sv_flows s)) as [flow|] eqn:Hflow.
  2: { split; [|by intros w res [=]]. intros w. by rewrite mget_mdelete_eq. }
  case_decide as Hexp; [split; [|by intros w res [=]]; intros w; by rewrite mget_mdelete_eq|].
  split; [intros w; by rewrite mget_mdelete_eq|]. intros w res E.
  apply sbind_ok in E as (op & s1 & H1 & E). apply db_ok in H1 as (r1 & -> & [= <- <-]).
  destruct (providers (sv_db s) !! f_providerId flow) as [p|] eqn:Hp; [|done]. case_decide as Hen; [|done].
  destruct (exchangeCode env p flow (trim code)) as [claims|e] eqn:Hx; [|done].
  exists flow, p, claims. split_and!; try done; [lia|].
  unfold admit_claims in E. apply sbind_ok in E as (oi & s1 & H1 & E). apply db_ok in H1 as (r1 & -> & [= <- <-]).
  match type of E with context [table_find ?P ?t] => destruct (table_find P t) as [i|] eqn:Hfind end.
  - apply sbind_ok in E as (created & s1 & H1 & E). injection E as <- <-.
    apply createSession_ok in H1 as (identity & access & _ & _ & -> & _). simpl.
    apply table_find_Some in Hfind as [[id Hi] Hps]. unfold same_provider_subject in Hps. propify.
    exists i. rewrite (ai_identity_key _ Hinv _ _ Hi). split_and!; done.
  - case_decide as Hpol; [done|]. assert (Hpolicy : p_loginPolicy p = AdminApprovedCreate) by (destruct (p_loginPolicy p); done).
    assert (Hnone : forall id i, identities (sv_db s) !! id = Some i ->
       ~ (i_providerId i = Some (p_id p) /\ i_subject i = Some (ec_subject claims))).
    { intros id i Hi [H1 H2]. pose proof (table_find_None _ _ Hfind _ _ Hi) as Hn. unfold same_provider_subject in Hn.
      by rewrite !bool_decide_true in Hn by done. }
    apply sbind_ok in E as (oa & s1 & H1 & E). apply db_ok in H1 as (r1 & -> & [= <- <-]).
    match type of E with context [table_find ?P ?t] => destruct (table_find P t) as [a|] end.
    + injection E as <- <-. simpl. split_and!; done.
    + apply sbind_ok in E as ([] & s1 & H1 & E). apply db_ok in H1 as (r1 & -> & H1). apply approvals_put_ok in H1 as ->.
      injection E as <- <-. simpl. split_and!; done.
Qed.

(** ** The theorems at concrete servers *)

Lemma administrator_remains_witness : has_admin (sv_db admin_server).
Proof.
  refine (proj1 (administrator_remains (example_env true) bootstrapped_server (example_env true) admin_server
    bootstrapped_reachable bootstrapped_steps (or_intror _))).
  exists new_server, 1%Z, false, (js "user_1"), (js "identity_1"), (js "salt"), (js "root"), (js "password"), None.
  split; [apply reachable_new|]. split; [split; vm_compute; reflexivity|]. vm_compute. reflexivity.
Defined.

Lemma requests_refine_witness : rtc access_change (sv_db admin_server) (sv_db signed_in_server).
Proof.
  refine (proj1 (requests_refine (example_env true) admin_server 10 login_request admin_server_reachable _)).
  vm_compute. reflexivity.
Defined.


Definition example_access : user_authorization :=
  match (authorization (js "user_1") (sv_db admin_server)).2 with
  | Ok az => az
  | Throw _ => UserAuthorization [] [] [] NodesAll InheritNodeScope 0
  end.

Lemma revision_determines_access_witness :
  canAccessResolvedResource (actor_of (example_access, js "access-lease") false) InteractiveAccess
    (Resource RAppSession None) (InstanceDerived (js "node_1") (js "instance_1")) = true.
Proof.
  refine (proj2 (proj2 (proj2 (revision_determines_access (example_env true) admin_server (example_env true) signed_in_server
    (js "user_1") example_access example_access admin_server_reachable _ _ _)) (js "instance_1") (js "node_1") _)).
  - apply steps_step; [apply steps_refl|]. vm_compute. reflexivity.
  - vm_compute. reflexivity.
  - vm_compute. reflexivity.
  - vm_compute. reflexivity.
Defined.

Definition example_session : UserSessionRecord :=
  new_session id (js "sess_1") (js "token") 10 (js "identity_1") ClientWeb None None 1.

Lemma resolve_answers_witness :
  exists v userId u, view_of (sv_db signed_in_server) example_session = Some v /\ sv_session v = example_session
    /\ sv_userId v = userId /\ users (sv_db signed_in_server) !! userId = Some u /\ u_status u = UserActive
    /\ (authorization userId (sv_db signed_in_server)).2 = Ok (sv_authorization v)
    /\ az_authorizationRevision (sv_authorization v) = s_authorizationRevision example_session.
Proof.
  destruct (resolve_answers (example_env true) signed_in_server 11 (Some (js "sess_1.token")) (Some [ClientWeb]) signed_in_reachable)
    as (st & _ & H).
  apply H. vm_compute. reflexivity.
Defined.

Lemma password_login_works_witness : (handle (example_env true) 10 login_request admin_server).2 = None.
Proof.
  destruct (password_login_works (example_env true) admin_server 10 (js "sess_1") (js "token") (js "root") (js "password") None
    (js "salt") (LoginIdentity (js "identity_1") (js "user_1") LocalPassword (Some (js "root"))
                   (Some (hashControlPlanePassword (scrypt (example_env true)) example_base64url (js "salt") (js "password")))
                   false None None None None 1 1)
    (UserAccount (js "user_1") (js "root") UserActive None None 1 1)
    (limiter_begin DEFAULT_RATE_LIMIT (js "unknown") (js "root") 10 new_limiter).1 admin_server_reachable)
    as (s1 & az & H & _); [try (vm_compute; reflexivity) .. | idtac].
  - exact example_round_trip.
  - intros p. apply example_encoded.
  - split; [reflexivity|]. apply (bool_decide_unpack _). vm_compute. exact I.
  - intros id s H. assert (E : sessions (sv_db admin_server) = ∅) by (vm_compute; reflexivity). rewrite E, lookup_empty in H. discriminate H.
  - apply (bool_decide_unpack _). vm_compute. exact I.
  - apply (bool_decide_unpack _). vm_compute. exact I.
  - unfold login_request. rewrite H. reflexivity.
Defined.

(** The only administrator cannot give up that role. *)
Definition demotion : request := SetAccess (js "user_1") [SYSTEM_ROLE_OPERATOR] NodesAll None 1.

Lemma failed_requests_change_nothing_witness :
  handle (example_env true) 20 demotion admin_server = (admin_server, Some (conflict "CONTROL_PLANE_LAST_ACTIVE_ADMIN")).
Proof.
  assert (E : handle (example_env true) 20 demotion admin_server
              = ((handle (example_env true) 20 demotion admin_server).1, Some (conflict "CONTROL_PLANE_LAST_ACTIVE_ADMIN")))
    by (vm_compute; reflexivity).
  refine (eq_trans E (f_equal (fun s => (s, Some (conflict "CONTROL_PLANE_LAST_ACTIVE_ADMIN")))
    (failed_requests_change_nothing (example_env true) admin_server _ 20 demotion _ admin_server_reachable I eq_refl E))).
Defined.

Lemma disabled_mode_trust_witness :
  currentAccess false id id example_ids 20 None [ClientWeb] (Some (js "10.0.0.7")) (sv_auth operator_server, sv_db operator_server)
  = ((sv_auth operator_server, sv_db operator_server), Ok None).
Proof.
  refine (proj1 (proj1 (disabled_mode_trust (example_env false) operator_server 20 example_ids None [ClientWeb] (Some (js "10.0.0.7"))
    eq_refl operator_reachable) _ _)); vm_compute; reflexivity.
Defined.

Definition operator_identity : LoginIdentityRecord :=
  LoginIdentity (js "identity_op") (js "user_op") LocalTrust None None false None None None (Some 2%Z) 1 2.

Lemma enabling_ends_local_access_witness :
  exists u, users (sv_db (handle (example_env true) 5 Init restarted_server).1) !! js "user_op" = Some u /\ u_status u = UserArchived.
Proof.
  refine (proj1 (enabling_ends_local_access (example_env true) restarted_server _ 5 (js "identity_op") operator_identity
    eq_refl restarted_reachable _ _ _)); vm_compute; reflexivity.
Defined.

Lemma local_operator_not_restored_witness :
  handle (example_env false) 20 (CreateLocalCliSession example_ids (js "csess_2") (js "secret") (js "audit_2") (js "thctl") loopback)
    disabled_operator_server
  = (disabled_operator_server, Some (ServiceError "CONTROL_PLANE_USER_DISABLED" 403)).
Proof.
  refine (local_operator_not_restored (example_env false) disabled_operator_server 20 example_ids (js "csess_2") (js "secret")
    (js "audit_2") (js "thctl") loopback (js "user_op") (js "identity_op") operator_identity
    (UserAccount (js "user_op") (js "Local Operator") UserDisabled (Some 2%Z) None 1 4)
    eq_refl disabled_operator_reachable _ _ _ _ _ _ _); first [discriminate|vm_compute; reflexivity].
Defined.

Lemma external_sign_in_guarded_witness :
  let cb := callback id (exchangeCode (example_env true)) (js "sess_9") (js "secret") (js "approval_1") 6 example_state (js "octocat") in
  let w := (sv_auth flow_server, sv_db flow_server) in
  is_ok ((cb (sv_flows flow_server)).2 w).2 = true
  /\ (cb (cb (sv_flows flow_server)).1).2 w = (w, Throw (ServiceError "AUTH_EXTERNAL_FLOW_INVALID" 401)).
Proof.
  intros cb w. split; [vm_compute; reflexivity|].
  assert (Hlen : 32 <= length (trim example_state)) by (apply (bool_decide_unpack _); vm_compute; exact I).
  assert (Hcode : truthy (trim (js "octocat")) = true) by (vm_compute; reflexivity).
  pose proof (external_sign_in_guarded (example_env true) flow_server 6 (js "sess_9") (js "secret") (js "approval_1")
    example_state (js "octocat") flow_reachable Hlen Hcode) as H.
  cbv zeta in H. change (callback (sha256 (example_env true))) with (callback id) in H. fold cb in H.
  destruct (cb (sv_flows flow_server)) as [m k]. exact (proj1 H w).
Defined.
